(* ===== verification/_CoqProject ===== *)
-Q . S2P
Prelude.v
GoText.v
Sha256.v
Netip.v
NetipText.v
VpnProfile.v
VpnStore.v
NetPolicy.v
SessionModel.v
SessionManager.v
SessionStore.v
Capacity.v
TorrentModel.v
TorrentController.v
GuestVPN.v
NetManager.v
UsbIdentity.v
UsbClaim.v
Recovery.v
Transfer.v
ScanReport.v
ScanPolicy.v
ScanArchive.v
Workspace.v
WorkspaceRelay.v
GuestBoundary.v
UsbPrepare.v
UsbExport.v
ScanService.v
GuestExporter.v
ExporterDevice.v
QemuSpec.v
StorageScratch.v
ImageRegistry.v
Overlay.v
HostStorage.v
Networked.v
HostRuntime.v
PeerAuth.v
QemuProcess.v
Config.v
