(* ===== verification/Prelude.v ===== *)
(** * A verification library for private-vm

    private-vm runs disposable virtual machines for private browsing, torrent
    downloads, malware scanning and USB export.  A privileged daemon owns the
    sessions, their storage, network, VPN profile and USB devices; guests run
    one role each and talk to the daemon over vsock.  This library models the
    daemon's and guests' own decision logic, written in Go under
    [src/internal/], and proves the properties its design documents promise.

    ** Parts and files

    - [Prelude] (this file): results of fallible operations with their monadic
      notation, guards, machine integers, and the generic list, option and
      sorting lemmas.
    - [GoText]: the parts of Go's [strings], [bytes], [unicode/utf8] and
      [strconv] the code uses, over byte strings.
    - [Sha256]: [crypto/sha256] as a function on byte lists, with the standard's
      test vectors; the round constants are computed from the primes.
    - [Netip], [NetipText]: [net/netip] addresses and prefixes as numbers,
      their text form and parser, with the round trip between the two.
    - [SessionModel]: [session/model.go], a session's lifecycle and workflow
      machines, its event journal, and the validator of stored snapshots.
    - [SessionManager]: [session/manager.go], the session table and its actors:
      commands, resources and their cleanup steps, subscriptions, quotas.
    - [SessionStore]: [session/store.go], the directory-backed store as a
      sequence of system calls on a file system where any call may fail.
    - [Capacity]: [storage/planner.go], the 64-bit capacity planner, the
      reservation pool and the probes behind it.
    - [TorrentModel]: [torrent/model.go], [input.go] and [capacity.go], magnet
      and metadata validation, path rules, selection planning.
    - [TorrentController]: [torrent/controller.go], the torrent state machine
      from adding to sealing, with its monitor and the destroying coordinator.
    - [VpnProfile]: [vpn/profile.go], the WireGuard profile parser and the
      rendering of guest configurations.
    - [VpnStore]: [vpn/store.go] and [resolver.go], the volatile profile store,
      endpoint resolution and plans.
    - [NetPolicy]: [network/model.go] and [policy.go], a session's addresses
      and names, and its nftables rule texts with a semantics of the tables.
    - [GuestVPN]: [guestvpn/controller.go] and [model.go], the guest's
      fail-closed tunnel controller.
    - [NetManager]: [network/manager.go], allocation, provisioning, handoff and
      cleanup of a session's network; it uses [VpnStore] for leased plans and
      [NetPolicy] for plans and policies, and its addressing feeds [GuestVPN].
    - [UsbIdentity]: [usb/identity.go], [enrollment.go] and [enumerator.go],
      device identities, enrollments and their resolution.
    - [UsbClaim]: [usb/claim.go] and [source_registry.go], exclusive claims and
      the one-shot registry of approved sources.
    - [Recovery]: [recovery/reconciler.go] and [report.go], start-up recovery.
    - [Transfer]: [transfer/frame.go] and [source.go], the chunked transfer with
      its digest.
    - [ScanReport]: [scan/definitions.go], [finding.go] and [report.go] with the
      checks of [orchestrator/scanner_promotion.go]: the scanner's boot and
      definition evidence, its signed report and the gate of a promotion.
    - [ScanPolicy]: [policy/decision.go] and [loader.go], the content policy, its
      loading through migrations and its decision.
    - [ScanArchive]: [scan/archive.go], the inspection of ZIP and TAR archives; it
      uses the path rules of [GoText] and the errors of [ScanReport].
    - [Workspace]: [workstation/server.go], the guest's file server: imports into
      Inbox through [Transfer]'s receiver, inventory and export of Export.
    - [WorkspaceRelay]: [orchestrator/workstation_relay.go], the host's side of
      the same transfers; its theorems compose it with [Workspace].
    - [GuestBoundary]: [guest/cid.go], [token.go], [capabilities.go],
      [context.go], [server.go], [handshake.go] and [vsock.go]: the boot token,
      the guest's interceptors and services, and the host's handshake.
    - [UsbPrepare]: [usb/prepare.go], the confirmed erasure of an enrolled device
      held through [UsbClaim].
    - [UsbExport]: [usb/export.go], the verified transfer to a claimed device, its
      cleanup, and the discipline of the device as an observer of its calls.
    - [ScanService]: [guest/scanner_service.go], the scanner's phases and report,
      over [ScanReport]'s reports, [ScanPolicy]'s policies, [GuestBoundary]'s
      contexts and the frames of [Workspace].
    - [GuestExporter]: [guest/exporter_service.go], the service of the exporter
      guest over any adapter.
    - [ExporterDevice]: [guest/exporter_adapter_linux.go], the discovery of the
      device and the adapter itself, an instance of [GuestExporter]'s interface.
    - [QemuSpec]: [qemu/spec.go], the launch specification, its validation and its
      arguments, with a reader of QEMU's option syntax.
    - [StorageScratch]: [storage/luks.go], [tmpfs.go] and [identity.go], the
      encrypted and the RAM scratch of a session.
    - [ImageRegistry], [Overlay]: [storage/image_registry.go] and [overlay.go], the
      images in use and the root overlays over verified bases.
    - [HostStorage]: [orchestrator/host_storage.go], the storage of a session; it
      composes [Capacity], [StorageScratch], [ImageRegistry] and [Overlay].
    - [Networked]: [orchestrator/networked.go], a guest with a network.
    - [HostRuntime]: [orchestrator/host_runtime.go], the runtime of a session; it
      composes [GuestBoundary]'s CIDs, [QemuSpec] and [Networked].
    - [PeerAuth]: [daemon/peercred.go] and [auth.go], who calls the daemon.
    - [QemuProcess]: [qemu/process.go] and [cgroup.go], control groups, the launch
      of QEMU and the supervision of its process by several threads.
    - [Config]: [config/config.go], [loader.go] and [file_linux.go], the layered
      configuration.

    ** How the code is modelled

    A Go function is a Rocq function of the same name; errors are values of a
    per-file error type in [result].  A struct is a record; a pointer that is
    shared (a session entry, a plan, a network state) is a reference into a
    heap field.  Mutexes appear as the granularity of steps: a section under
    one lock is one function, and an operation with several locked sections
    (a USB claim, the resolution of an endpoint, a monitor) is several steps
    that may interleave with others.  Calls to the operating system, to other
    processes and to injected interfaces are the methods of a type class over
    a world type, so that theorems hold for every such environment.  Where a
    theorem says what was done to the host, a ghost field of the state records
    the calls with their answers, and the theorem reads that record.  Integers
    carry Go's width where overflow can matter.

    Parameters: Unicode normalization and case tables ([NFC], [unicodeLower]),
    the JSON codecs of the session store (with its round trip as the only
    hypothesis) and of scan reports, the TOML codec and decoded documents of
    policies and of the configuration (that its decoder sets the fields a text
    has is a hypothesis of [Config]), the archive readers, the arithmetic of expansion ratios, the
    outcome of protected-memory allocation, clocks, random identifiers and the
    interfaces above.  What the kernel documents of [/proc] ([PeerAuth]), of
    control groups ([QemuProcess]), of a monotonic clock ([TorrentController]),
    of the handles of a claimed device ([UsbClaim]) and of unmounting and closing
    a mapping ([ExporterDevice]) is stated as laws or hypotheses there, each with
    an instance.

    Bounds and fuel: [magnetFields] runs on the query's length and consumes at
    least a byte per step; [addLoop] on [pollBound], the polls that fit before the
    metadata deadline; [createLoop] on the eight attempts of the code; [Stream] on more
    than the file's size; [writeAll] on the data's length; [reserveLoop] on the
    64 attempts; the IPv6 parser on its eight groups; [migrateLoop] on the
    current schema version, which every migration approaches; [hashBytes] on
    the file limit, of which every read takes a byte; [receiveLoop] and
    [relayLoop] on the frame limit of the code; [relay] on the declared size, of
    which every chunk takes a byte, and so does [exportLoop].  Termination theorems state that
    the fuel is enough.  In [GuestExporter] a passphrase takes at most six reads and
    a transfer two frames more than its size; [Config]'s [migrate] runs exactly the
    versions that are missing.  [streamFile], the reread of [ExporterDevice]
    ([rereadFuel]) and the removal of a control group ([removeLoop], bounded by its
    context) have no bound in the code either: their fuel is an argument, and
    theorems speak of exports that end and of removals that succeed.

    ** What the theorems show

    - Sessions: the journal validator accepts exactly the reachable journals
      ([validateSnapshot_iff_reachable]); gates precede the phases they guard;
      cleanup always has room in the journal, converges, keeps dependency
      order and never leaks a resource; strangers are refused; the manager's
      quotas hold; subscriptions are gap-free; the store implements an atomic
      map under failing calls ([store_refines_map]).
    - Capacity: the overflow-checked planner equals the rule over unbounded
      integers; the pool never overcommits.
    - Torrents: the magnet gate is exactly its grammar; validated paths stay
      inside; payload moves only behind the gates; sealing is verified.
    - Network and VPN: accepted profiles render to text that parses back to
      them; a usable plan is the current one; the generated rules let out
      exactly the planned traffic; sessions' networks are disjoint; creation
      is all or nothing; handoffs need a current plan; the guest controller
      fails closed and accepts every addressing the host hands out.
    - USB: an enrollment resolves to one exact device; claims are exclusive; a
      source is opened at most once; a device is erased only after both exact
      confirmations, revalidation and authorization; the exporter's calls obey
      the discipline of the device through every failure and retry
      ([usb_is_never_pulled]), and a receipt proves the bytes on the device.
    - Guests: the handshake succeeds exactly with the planned guest, and requests
      reach a handler only with the token, context and role.
    - Recovery removes only revalidated orphans and reports faithfully;
      transfers deliver exactly the declared bytes.
    - Scanning: the promotion gate accepts exactly the envelopes the key signs
      for approved reports ([promotion_gate_exact]) and a promoted file is proved
      clean by its report; loaded policies fail closed; inspected archives stay
      below their directory and within their limits; the guest's report rests on
      the phases it names ([reports_are_earned]) and its exports are the bytes of
      approved outputs.
    - Exporter: a verified receipt rests on exactly the calls it names
      ([export_is_proved_by_its_calls]), and after a successful finalization the
      device holds the export, is unmounted and its mapping is closed.
    - Virtual machines: the arguments mean the specification and pass the rendering
      checks, guests are isolated by them, a launch started exactly those arguments
      and placed its process or ended it, and the process is supervised until it is
      gone.
    - Storage and runtimes: by the records of their calls, scratch, overlays,
      storage and runtimes are given back completely and in order
      ([storage_is_released_in_order], [runtimes_are_released_in_order]); a
      networked guest is handed out only when proved.  Four theorems show states
      the code cannot leave: a half-mounted scratch, a grown overlay, the runtime of
      a guest that ended with an error, and the group of a cancelled placement.
    - Daemon: only members of the group are served ([only_members_are_served]), and
      a loaded configuration is the trusted layers over the defaults, and safe.
    - Workspace: imports are all or nothing from the host's caller to the guest's
      Inbox; the relay does not trust the guest; a workstation that answers READY
      has handed out every file it lists ([ready_means_exported]).

    ** Not modelled

    The remaining Linux adapters (netlink and nft commands, the QMP protocol, vsock
    sockets, the inspection of device files, ClamAV and the sandboxed tools) are
    interface calls here.  The daemon's and the other guests' RPC services, the
    orchestrator's composition of roles beyond storage and runtimes, the command
    line and its rendering, image and release management, archive extraction, the
    live policy audit, the USB registry and workflows and the host's installation
    are left out: they adapt third-party formats and services to the components
    above.  Redacting formatters, buffer clearing, generated and vendored code are
    left out too. *)

From Stdlib Require Import ZArith Lia Ascii.
From stdpp Require Import strings base tactics option gmap sorting list.

(** [length] is the length of a list; a string's is [String.length]. *)
Abbreviation length := Datatypes.length.

(** ** Results of fallible operations *)

Declare Scope go_scope.
Delimit Scope go_scope with go.

(** A Go function that returns [(value, error)] returns [Ok value] or
    [Err error]; a function that returns only an [error] returns
    [result E unit]. *)
Inductive result (E A : Type) : Type :=
| Ok (a : A)
| Err (e : E).
Arguments Ok {E A} a.
Arguments Err {E A} e.

Definition is_Ok {E A} (r : result E A) : bool :=
  match r with Ok _ => true | Err _ => false end.

(** [if err := c; err != nil { return err }; x := value] *)
Notation "x <-! c ;; k" :=
  (match c with Ok x => k | Err e => Err e end)
  (at level 100, c at next level, right associativity) : go_scope.

(** [if b { return e }] *)
Notation "'fail_if' b 'with' e ;; k" :=
  (if b then Err e else k)
  (at level 100, b at level 10, e at level 10, right associativity) : go_scope.

Open Scope go_scope.

(** ** Machine integers *)

Definition two64 : Z := 18446744073709551616%Z.
Definition max64 : Z := 18446744073709551615%Z.

(** The values a Go [uint64] can hold. *)
Definition u64 (x : Z) : Prop := (0 ≤ x < two64)%Z.

Definition wrap64 (x : Z) : Z := (x mod two64)%Z.
Definition add64 (x y : Z) : Z := wrap64 (x + y).
Definition sub64 (x y : Z) : Z := wrap64 (x - y).
Definition mul64 (x y : Z) : Z := wrap64 (x * y).

(** Go's [len] of a slice; an [int]. *)
Definition len {A : Type} (l : list A) : Z := Z.of_nat (length l).

(** [len(l) == 0] *)
Definition isNil {A : Type} (l : list A) : bool := match l with [] => true | _ => false end.

(** ** Characters and strings

    A Go [string] is a sequence of bytes; [String.string] is a sequence of
    8-bit characters, so [String.length] is Go's [len]. *)

Definition code (c : ascii) : N := N_of_ascii c.

(** Go's [len] of a string. *)
Definition slen (s : string) : Z := Z.of_nat (String.length s).

Definition between (lo hi : ascii) (c : ascii) : bool :=
  (code lo <=? code c)%N && (code c <=? code hi)%N.

Definition is_upper := between "A" "Z".
Definition is_lower := between "a" "z".
Definition is_digit := between "0" "9".
Definition is_lower_hex (c : ascii) : bool := is_digit c || between "a" "f" c.
Definition is_upper_hex (c : ascii) : bool := is_digit c || between "A" "F" c.

Fixpoint string_forallb (p : ascii → bool) (s : string) : bool :=
  match s with
  | EmptyString => true
  | String c r => p c && string_forallb p r
  end.

Definition string_existsb (p : ascii → bool) (s : string) : bool :=
  negb (string_forallb (λ c, negb (p c)) s).

Definition char_eqb (a b : ascii) : bool := bool_decide (a = b).

(** [strings.ContainsAny s chars] for an ASCII [chars]. *)
Definition ContainsAny (s chars : string) : bool :=
  string_existsb (λ c, string_existsb (char_eqb c) chars) s.

Definition HasPrefix (s p : string) : bool := String.prefix p s.

Fixpoint drop_string (n : nat) (s : string) : string :=
  match n, s with
  | O, _ => s
  | S n', String _ r => drop_string n' r
  | S _, EmptyString => EmptyString
  end.

Definition TrimPrefix (s p : string) : string :=
  if HasPrefix s p then drop_string (String.length p) s else s.

(** [strings.Split s sep] for a one-byte separator. *)
Fixpoint Split (sep : ascii) (s : string) : list string :=
  match s with
  | EmptyString => [EmptyString]
  | String c r =>
      if char_eqb c sep then EmptyString :: Split sep r
      else match Split sep r with
           | [] => [String c EmptyString]
           | f :: fs => String c f :: fs
           end
  end.

(** Go's [<=] on strings: bytewise lexicographic order. *)
Definition string_le (a b : string) : Prop := String.leb a b = true.

#[global] Instance string_le_dec : RelDecision string_le.
Proof. unfold RelDecision, string_le. intros a b. apply _. Defined.

(** An anchored pattern [^head tail{lo,hi}$]. *)
Definition match_head_tail (head tail : ascii → bool) (lo hi : nat) (s : string) : bool :=
  match s with
  | EmptyString => false
  | String c r =>
      head c && string_forallb tail r &&
      (lo <=? String.length r)%nat && (String.length r <=? hi)%nat
  end.

(** An anchored pattern [^prefix tail{n}$]. *)
Definition match_prefix_exact (pre : string) (tail : ascii → bool) (n : nat) (s : string) : bool :=
  HasPrefix s pre &&
  string_forallb tail (drop_string (String.length pre) s) &&
  (String.length (drop_string (String.length pre) s) =? n)%nat.

(** ** Proof automation

    [go_inv] takes apart the guards of a translated function applied in a
    hypothesis: it case-splits every [match]/[if] and closes the branches that
    contradict an equation. *)

Create HintDb gomodel.

Ltac case_hyp :=
  match goal with
  | H : context [match ?x with _ => _ end] |- _ => destruct x eqn:?
  end.

Ltac go_inv :=
  repeat (first [ progress simplify_eq/= | case_hyp ]).

(** Boolean facts as propositions. *)
Ltac bool_hyps :=
  repeat match goal with
  | H : _ && _ = true |- _ => apply andb_true_iff in H as [? ?]
  | H : _ || _ = false |- _ => apply orb_false_iff in H as [? ?]
  | H : negb _ = true |- _ => apply negb_true_iff in H
  | H : negb _ = false |- _ => apply negb_false_iff in H
  | H : bool_decide _ = true |- _ => apply bool_decide_eq_true in H
  | H : bool_decide _ = false |- _ => apply bool_decide_eq_false in H
  | H : (_ <? _)%Z = true |- _ => apply Z.ltb_lt in H
  | H : (_ <? _)%Z = false |- _ => apply Z.ltb_ge in H
  | H : (_ <=? _)%Z = true |- _ => apply Z.leb_le in H
  | H : (_ <=? _)%Z = false |- _ => apply Z.leb_gt in H
  | H : (_ =? _)%Z = true |- _ => apply Z.eqb_eq in H
  | H : (_ =? _)%Z = false |- _ => apply Z.eqb_neq in H
  | H : (_ <? _)%nat = true |- _ => apply Nat.ltb_lt in H
  | H : (_ <? _)%nat = false |- _ => apply Nat.ltb_ge in H
  | H : (_ <=? _)%nat = true |- _ => apply Nat.leb_le in H
  | H : (_ <=? _)%nat = false |- _ => apply Nat.leb_gt in H
  | H : (_ =? _)%nat = true |- _ => apply Nat.eqb_eq in H
  | H : (_ =? _)%nat = false |- _ => apply Nat.eqb_neq in H
  end.

(** [pass_guards H]: [H] is the success of a function; each of its guards was
    passed. *)
Ltac pass_guards H := repeat match type of H with (if ?b then _ else _) = _ => destruct b eqn:?; [discriminate H|] end.

(** [guards H]: case-split the guards of [H] and turn them into propositions. *)
Ltac guards := go_inv; bool_hyps; simplify_eq.

(** ** Machine-integer lemmas *)

Lemma wrap64_small (x : Z) : u64 x → wrap64 x = x.
Proof. unfold wrap64, u64. intros. by apply Z.mod_small. Qed.

Lemma wrap64_u64 (x : Z) : u64 (wrap64 x).
Proof. unfold wrap64, u64, two64. pose proof (Z.mod_pos_bound x 18446744073709551616). lia. Qed.

Lemma add64_small (x y : Z) : u64 (x + y) → add64 x y = (x + y)%Z.
Proof. apply wrap64_small. Qed.

Lemma sub64_small (x y : Z) : u64 (x - y) → sub64 x y = (x - y)%Z.
Proof. apply wrap64_small. Qed.

Lemma add64_cases (x y : Z) :
  u64 x → u64 y →
  (x + y < two64 ∧ add64 x y = x + y)%Z ∨ (two64 ≤ x + y ∧ add64 x y = x + y - two64)%Z.
Proof.
  unfold u64, add64, wrap64, two64. intros.
  destruct (Z_lt_dec (x + y) 18446744073709551616).
  - left. split; [done|]. apply Z.mod_small. lia.
  - right. split; [lia|]. symmetry. apply Z.mod_unique with 1%Z; lia.
Qed.

(** ** Order of strings *)

Lemma string_compare_trans a b c : String.compare a b ≠ Gt → String.compare b c ≠ Gt → String.compare a c ≠ Gt.
Proof.
  revert b c. induction a as [|x a IH]; intros [|y b] [|z c]; simpl; try done.
  destruct (Ascii.compare x y) eqn:H1; try done.
  - apply Ascii.compare_eq_iff in H1 as ->. destruct (Ascii.compare y z); try done. apply IH.
  - intros _. destruct (Ascii.compare y z) eqn:H2; try done.
    + apply Ascii.compare_eq_iff in H2 as ->. by rewrite H1.
    + intros _. unfold Ascii.compare in *. change (N_of_ascii x < N_of_ascii y)%N in H1.
      change (N_of_ascii y < N_of_ascii z)%N in H2.
      destruct (N.compare_spec (N_of_ascii x) (N_of_ascii z)); try done; lia.
Qed.

#[global] Instance string_le_trans : Transitive string_le.
Proof.
  intros a b c. unfold string_le, String.leb. intros H1 H2.
  pose proof (string_compare_trans a b c) as Ht.
  destruct (String.compare a b), (String.compare b c), (String.compare a c); try done;
    exfalso; by apply Ht.
Qed.

#[global] Instance string_le_total : Total string_le.
Proof. intros a b. apply String.leb_total. Qed.

(** ** Lists *)

Lemma len_app {A} (l k : list A) : len (l ++ k) = (len l + len k)%Z.
Proof. unfold len. rewrite length_app. lia. Qed.

Lemma len_nonneg {A} (l : list A) : (0 ≤ len l)%Z.
Proof. unfold len. lia. Qed.

Lemma NoDup_snoc {A} (l : list A) x : NoDup l → x ∉ l → NoDup (l ++ [x]).
Proof. intros Hl Hx. rewrite Permutation_app_comm. by apply NoDup_cons. Qed.

(** A list split at an element that one part does not contain. *)

Lemma split_after {A} (l k : list A) pre x rest :
  l ++ k = pre ++ x :: rest → x ∉ l → ∃ pre', pre = l ++ pre' ∧ k = pre' ++ x :: rest.
Proof.
  intros [(m & -> & Hm)|(m & -> & Hm)]%app_eq_inv Hx; [|by exists m].
  destruct m as [|y m]; simpl in Hm; [|injection Hm as -> _; set_solver].
  exists []. by rewrite !app_nil_r.
Qed.

Lemma split_before {A} (l k : list A) pre x rest :
  l ++ k = pre ++ x :: rest → x ∉ k → ∃ rest', l = pre ++ x :: rest' ∧ rest = rest' ++ k.
Proof.
  intros [(m & -> & Hm)|(m & -> & ->)]%app_eq_inv Hx; [|set_solver].
  destruct m as [|y m]; simpl in Hm; [rewrite <- Hm in Hx; set_solver|injection Hm as <- ->]. by exists m.
Qed.

#[export] Hint Resolve wrap64_u64 : gomodel.
