(* ===== verification/GoText.v ===== *)
(** * Text: UTF-8, fields, numbers and slash-separated paths

    The parts of Go's [strings], [strconv], [unicode/utf8] and [path] packages
    that the program's validators use.  A Go string is a sequence of bytes that
    need not be valid UTF-8; [runes] decodes it the way [range] does, one
    [BadByte] per byte that does not start a well-formed sequence. *)

From Stdlib Require Import ZArith Lia Ascii.
From stdpp Require Import strings base tactics option list.
From S2P Require Import Prelude.

Open Scope string_scope.
Open Scope list_scope.

(** ** UTF-8 *)

(** A decoded rune with the bytes it came from, or an ill-formed byte. *)
Inductive rune :=
| Rune (cp : N) (raw : string)
| BadByte (c : ascii).

Definition raw_of (r : rune) : string :=
  match r with Rune _ raw => raw | BadByte c => String c EmptyString end.

(** The accepted range of the second byte and the number of bytes, by first
    byte (the [first] table of [unicode/utf8]); [None] is ill-formed. *)
Definition lead (c : ascii) : option (nat * N * N) :=
  let b := code c in
  if (b <? 128)%N then Some (1%nat, 0, 0)%N
  else if (b <? 194)%N then None
  else if (b <? 224)%N then Some (2%nat, 128, 191)%N
  else if (b =? 224)%N then Some (3%nat, 160, 191)%N
  else if (b =? 237)%N then Some (3%nat, 128, 159)%N
  else if (b <? 240)%N then Some (3%nat, 128, 191)%N
  else if (b =? 240)%N then Some (4%nat, 144, 191)%N
  else if (b <? 244)%N then Some (4%nat, 128, 191)%N
  else if (b =? 244)%N then Some (4%nat, 128, 143)%N
  else None.

Definition inRange (lo hi : N) (c : ascii) : bool := ((lo <=? code c) && (code c <=? hi))%N.
Definition continuation : ascii → bool := inRange 128 191.
Definition low6 (c : ascii) : N := (code c mod 64)%N.

Fixpoint runes (s : string) : list rune :=
  match s with
  | EmptyString => []
  | String c0 s1 =>
      match lead c0 with
      | None => BadByte c0 :: runes s1
      | Some (1%nat, _, _) => Rune (code c0) (String c0 EmptyString) :: runes s1
      | Some (2%nat, lo, hi) =>
          match s1 with
          | String c1 s2 =>
              if inRange lo hi c1
              then Rune ((code c0 mod 32) * 64 + low6 c1)%N (String c0 (String c1 EmptyString)) :: runes s2
              else BadByte c0 :: runes s1
          | _ => BadByte c0 :: runes s1
          end
      | Some (3%nat, lo, hi) =>
          match s1 with
          | String c1 (String c2 s3) =>
              if inRange lo hi c1 && continuation c2
              then Rune ((code c0 mod 16) * 4096 + low6 c1 * 64 + low6 c2)%N
                     (String c0 (String c1 (String c2 EmptyString))) :: runes s3
              else BadByte c0 :: runes s1
          | _ => BadByte c0 :: runes s1
          end
      | Some (_, lo, hi) =>
          match s1 with
          | String c1 (String c2 (String c3 s4)) =>
              if inRange lo hi c1 && continuation c2 && continuation c3
              then Rune ((code c0 mod 8) * 262144 + low6 c1 * 4096 + low6 c2 * 64 + low6 c3)%N
                     (String c0 (String c1 (String c2 (String c3 EmptyString)))) :: runes s4
              else BadByte c0 :: runes s1
          | _ => BadByte c0 :: runes s1
          end
      end
  end.

(** [utf8.ValidString] *)
Definition ValidString (s : string) : bool :=
  forallb (λ r, match r with Rune _ _ => true | BadByte _ => false end) (runes s).

(** [utf8.AppendRune] *)
Definition byte (n : N) : ascii := ascii_of_N n.
Definition encodeRune (cp : N) : string :=
  (if cp <? 128 then String (byte cp) EmptyString
   else if cp <? 2048 then
     String (byte (192 + cp / 64)) (String (byte (128 + cp mod 64)) EmptyString)
   else if (55296 <=? cp) && (cp <=? 57343) || (1114111 <? cp) then
     String (byte 239) (String (byte 191) (String (byte 189) EmptyString))
   else if cp <? 65536 then
     String (byte (224 + cp / 4096)) (String (byte (128 + (cp / 64) mod 64))
       (String (byte (128 + cp mod 64)) EmptyString))
   else
     String (byte (240 + cp / 262144)) (String (byte (128 + (cp / 4096) mod 64))
       (String (byte (128 + (cp / 64) mod 64)) (String (byte (128 + cp mod 64)) EmptyString))))%N.

(** [unicode.IsSpace] *)
Definition IsSpace (r : rune) : bool :=
  match r with
  | BadByte _ => false
  | Rune cp _ =>
      ((9 <=? cp) && (cp <=? 13) || (cp =? 32) || (cp =? 133) || (cp =? 160) || (cp =? 5760) ||
       (8192 <=? cp) && (cp <=? 8202) || (cp =? 8232) || (cp =? 8233) || (cp =? 8239) ||
       (cp =? 8287) || (cp =? 12288))%N
  end.

(** [strings.Fields] *)
Definition flush (current : string) (rest : list string) : list string :=
  if bool_decide (current = EmptyString) then rest else current :: rest.

Fixpoint fieldsOf (rs : list rune) (current : string) : list string :=
  match rs with
  | [] => flush current []
  | r :: rs' =>
      if IsSpace r then flush current (fieldsOf rs' EmptyString)
      else fieldsOf rs' (String.append current (raw_of r))
  end.

Definition Fields (s : string) : list string := fieldsOf (runes s) EmptyString.

(** [strings.TrimSpace] *)
Fixpoint dropSpaces (rs : list rune) : list rune :=
  match rs with
  | [] => []
  | r :: rs' => if IsSpace r then dropSpaces rs' else rs
  end.

Definition TrimSpace (s : string) : string :=
  String.concat "" (map raw_of (rev (dropSpaces (rev (dropSpaces (runes s)))))).

(** [strings.ToLower]: ASCII letters are mapped directly; the case mapping of
    the other code points is the Unicode table, a parameter. *)
Definition lowerASCII (cp : N) : N := if ((65 <=? cp) && (cp <=? 90))%N then (cp + 32)%N else cp.

Definition ToLower (unicodeLower : N → N) (s : string) : string :=
  String.concat "" (map (λ r,
    match r with
    | Rune cp _ => if (cp <? 128)%N then encodeRune (lowerASCII cp) else encodeRune (unicodeLower cp)
    | BadByte _ => encodeRune 65533
    end) (runes s)).

(** ** Byte searches *)

Definition HasSuffix (s p : string) : bool :=
  (String.length p <=? String.length s)%nat &&
  bool_decide (drop_string (String.length s - String.length p) s = p).

Definition TrimSuffix (s p : string) : string :=
  if HasSuffix s p then String.substring 0 (String.length s - String.length p) s else s.

(** [bytes.Cut] at a one-byte separator. *)
Fixpoint Cut (sep : ascii) (s : string) : string * string * bool :=
  match s with
  | EmptyString => (EmptyString, EmptyString, false)
  | String c r =>
      if char_eqb c sep then (EmptyString, r, true)
      else let '(before, after, found) := Cut sep r in (String c before, after, found)
  end.

Fixpoint Contains (s p : string) : bool :=
  String.prefix p s || match s with EmptyString => false | String _ r => Contains r p end.

(** ** Numbers *)

Fixpoint digitsValue (s : string) (acc : Z) : option Z :=
  match s with
  | EmptyString => Some acc
  | String c r =>
      if is_digit c then digitsValue r (acc * 10 + Z.of_N (code c - 48))%Z else None
  end.

(** [strconv.ParseUint s 10 bits] *)
Definition ParseUint (s : string) (bits : Z) : option Z :=
  match s with
  | EmptyString => None
  | _ => v ← digitsValue s 0; if (v <? 2 ^ bits)%Z then Some v else None
  end.

(** ** Paths *)

Definition IsAbs (s : string) : bool := HasPrefix s "/".

(** [path.Ext]: from the last dot of the last element. *)
Fixpoint extFrom (s best : string) : string :=
  match s with
  | EmptyString => best
  | String c r =>
      if char_eqb c "/" then extFrom r EmptyString
      else if char_eqb c "." then extFrom r s
      else extFrom r best
  end.

Definition Ext (s : string) : string := extFrom s EmptyString.

(** [path.Clean], on the elements between slashes; [stack] is what has been
    written, innermost first. *)
Definition cleanElement (rooted : bool) (stack : list string) (element : string) : list string :=
  if bool_decide (element = "") || bool_decide (element = ".") then stack
  else if bool_decide (element = "..") then
    match stack with
    | top :: rest => if bool_decide (top = "..") then ".." :: stack else rest
    | [] => if rooted then [] else [".."]
    end
  else element :: stack.

Definition cleanElements (rooted : bool) (elements : list string) : list string :=
  rev (fold_left (cleanElement rooted) elements []).

Definition Join (elements : list string) : string := String.concat "/" elements.

Definition Clean (s : string) : string :=
  let rooted := IsAbs s in
  match cleanElements rooted (Split "/" s), rooted with
  | [], true => "/"
  | [], false => "."
  | es, true => String.append "/" (Join es)
  | es, false => Join es
  end.

(** A rune below 0x20, or 0x7f. *)
Definition hasControl (s : string) : bool :=
  existsb (λ r, match r with Rune cp _ => (cp <? 32)%N || (cp =? 127)%N | BadByte _ => false end) (runes s).

(** ** Hexadecimal *)

Definition hexDigit (n : N) : ascii :=
  if (n <? 10)%N then ascii_of_N (48 + n) else ascii_of_N (87 + n).

Fixpoint hexEncode (s : string) : string :=
  match s with
  | EmptyString => EmptyString
  | String c r => String (hexDigit (code c / 16)) (String (hexDigit (code c mod 16)) (hexEncode r))
  end.

#[global] Arguments hasControl : simpl never.
#[global] Arguments Clean : simpl never.
#[global] Arguments runes : simpl never.
#[global] Arguments ValidString : simpl never.
#[global] Arguments ToLower : simpl never.
#[global] Arguments Ext : simpl never.
#[global] Arguments Fields : simpl never.
#[global] Arguments ParseUint : simpl never.

(** ** Examples, against the documentation of the Go packages *)

Example Clean_examples :
  map Clean [""; "a/b/../c"; "/../a"; "../../a"; "a//b/."; "/"; "a/.."; "..//a/.."] =
  ["."; "a/c"; "/a"; "../../a"; "a/b"; "/"; "."; ".."].
Proof. by vm_compute. Qed.

Example Ext_examples : map Ext ["a.tar.gz"; "a.b/c"; ".profile"; "a."] = [".gz"; ""; ".profile"; "."].
Proof. by vm_compute. Qed.

Example Fields_example : Fields "  MemTotal:   16384  kB " = ["MemTotal:"; "16384"; "kB"].
Proof. by vm_compute. Qed.

Example ParseUint_examples :
  map (λ s, ParseUint s 64) ["0"; "18446744073709551615"; "18446744073709551616"; "+1"; ""; "1a"] =
  [Some 0; Some 18446744073709551615; None; None; None; None]%Z.
Proof. by vm_compute. Qed.

(** ** Paths that name something inside a directory *)

(** An element that is neither empty nor a directory reference. *)
Definition plainElement (e : string) : Prop := e ≠ "" ∧ e ≠ "." ∧ e ≠ "..".

Lemma cleanElement_plain rooted stack e : plainElement e → cleanElement rooted stack e = e :: stack.
Proof. intros (H1 & H2 & H3). unfold cleanElement. by rewrite !bool_decide_false. Qed.

Lemma clean_fold_plain rooted es stack :
  Forall plainElement es → fold_left (cleanElement rooted) es stack = rev es ++ stack.
Proof.
  revert stack. induction es as [|e es IH]; intros stack Hp; simpl; [done|].
  apply Forall_cons in Hp as [He Hes]. rewrite cleanElement_plain, IH by done.
  by rewrite <- app_assoc.
Qed.

(** Plain elements appended below a directory stay below it. *)
Lemma clean_below rooted dir es :
  Forall plainElement es →
  cleanElements rooted (dir ++ es) = cleanElements rooted dir ++ es.
Proof.
  intros H. unfold cleanElements. rewrite fold_left_app, clean_fold_plain by done.
  by rewrite rev_app_distr, rev_involutive.
Qed.

Lemma Split_nonempty sep s : Split sep s ≠ [].
Proof. destruct s as [|c s]; simpl; [done|]. destruct (char_eqb c sep); [done|]. by case_match. Qed.

Lemma Split_app sep a b :
  Split sep (String.append a (String sep b)) = Split sep a ++ Split sep b.
Proof.
  induction a as [|c a IH]; simpl.
  - unfold char_eqb. by rewrite bool_decide_true.
  - destruct (char_eqb c sep); [by rewrite IH|]. rewrite IH.
    destruct (Split sep a) as [|f fs] eqn:Ha; [|done]. by apply Split_nonempty in Ha.
Qed.

(** ** Prefixes *)

Lemma append_nil_l b : String.append "" b = b.
Proof. done. Qed.

Lemma append_cons c a b : String.append (String c a) b = String c (String.append a b).
Proof. done. Qed.

Lemma prefix_drop p s : HasPrefix s p = true → s = String.append p (drop_string (String.length p) s).
Proof.
  unfold HasPrefix. revert s. induction p as [|c p IH]; intros [|d s] H; simpl in *; try done.
  destruct (ascii_dec c d) as [->|]; [|done]. apply (f_equal (String d)). by apply IH.
Qed.

Lemma HasPrefix_append p s : HasPrefix (String.append p s) p = true.
Proof. unfold HasPrefix. induction p as [|c p IH]; simpl; [by destruct s|]. by destruct (ascii_dec c c). Qed.

Lemma drop_append p s : drop_string (String.length p) (String.append p s) = s.
Proof. induction p as [|c p IH]; simpl; [by destruct s|done]. Qed.

Lemma TrimPrefix_append p s : TrimPrefix (String.append p s) p = s.
Proof. unfold TrimPrefix. by rewrite HasPrefix_append, drop_append. Qed.

Lemma IsAbs_head s : IsAbs s = true ↔ ∃ r, s = String "/" r.
Proof.
  unfold IsAbs, HasPrefix. split.
  - intros H. apply prefix_drop in H. eexists. exact H.
  - intros [r ->]. by destruct r.
Qed.

Lemma append_length a b : String.length (String.append a b) = (String.length a + String.length b)%nat.
Proof. induction a as [|c a IH]; [done|]. rewrite append_cons. simpl. by rewrite IH. Qed.

Lemma append_assoc a b c : (a +:+ b) +:+ c = a +:+ (b +:+ c).
Proof. induction a as [|x a IH]; [done|]. by rewrite !append_cons, IH. Qed.

Lemma append_nil_r a : a +:+ "" = a.
Proof. induction a as [|x a IH]; [done|]. by rewrite append_cons, IH. Qed.

Lemma concat_cons_nil a l : String.concat "" (a :: l) = a +:+ String.concat "" l.
Proof. destruct l; simpl; [by rewrite append_nil_r|done]. Qed.

Lemma concat_app_nil l k : String.concat "" (l ++ k) = String.concat "" l +:+ String.concat "" k.
Proof. induction l as [|a l IH]; [done|]. cbn [app]. by rewrite !concat_cons_nil, IH, append_assoc. Qed.

Lemma concat_sep sep a l : String.concat sep (a :: l) = a +:+ String.concat "" (map (String.append sep) l).
Proof.
  revert a. induction l as [|b l IH]; intros a; [by rewrite append_nil_r|].
  change (String.concat sep (a :: b :: l)) with (a +:+ sep +:+ String.concat sep (b :: l)).
  cbn [map]. by rewrite IH, concat_cons_nil, !append_assoc.
Qed.

(** ** Searching for a byte *)

Definition noByte (sep : ascii) (s : string) : Prop := string_forallb (λ c, negb (char_eqb c sep)) s = true.

Lemma Split_none sep s : noByte sep s → Split sep s = [s].
Proof.
  unfold noByte. induction s as [|c s IH]; [done|]. cbn [string_forallb Split]. intros [Hc Hs]%andb_true_iff.
  rewrite (IH Hs). by destruct (char_eqb c sep).
Qed.

Lemma ContainsAny_noByte s chars c : ContainsAny s chars = false → string_existsb (char_eqb c) chars = true → noByte c s.
Proof.
  unfold ContainsAny, noByte. intros Hs Hc. induction s as [|d s IH]; [done|]. cbn [string_existsb string_forallb negb] in *.
  unfold string_existsb in Hs. cbn [string_forallb] in Hs. apply negb_false_iff, andb_true_iff in Hs as [Hd Hs].
  apply andb_true_iff. split; [|by apply IH; unfold string_existsb; rewrite Hs]. apply negb_true_iff.
  destruct (char_eqb d c) eqn:E; [|done]. apply bool_decide_eq_true in E as ->. unfold string_existsb in Hc. by rewrite Hc in Hd.
Qed.

Lemma Cut_found sep s a b :
  Cut sep s = (a, b, true) ↔ s = String.append a (String sep b) ∧ noByte sep a.
Proof.
  unfold noByte. revert a. induction s as [|c s IH]; intros a; simpl.
  - split; [done|]. intros [H _]. by destruct a.
  - destruct (char_eqb c sep) eqn:Hc.
    + unfold char_eqb in Hc. apply bool_decide_eq_true in Hc as ->. split.
      * intros H. by simplify_eq/=.
      * intros [H Hn]. destruct a as [|d a]; rewrite ?append_cons, ?append_nil_l in H;
          simpl in *; simplify_eq; [done|]. unfold char_eqb in Hn. by rewrite bool_decide_true in Hn.
    + destruct (Cut sep s) as [[before after] found] eqn:Hcut. split.
      * intros H. simplify_eq. destruct (proj1 (IH before) eq_refl) as [-> Hn]. simpl. by rewrite Hc, Hn.
      * intros [H Hn]. destruct a as [|d a]; rewrite ?append_cons, ?append_nil_l in H; simpl in *; simplify_eq.
        { unfold char_eqb in Hc. by rewrite bool_decide_true in Hc. }
        apply andb_true_iff in Hn as [_ Hn]. pose proof (proj2 (IH a) (conj eq_refl Hn)). by simplify_eq.
Qed.

Lemma Cut_missing sep s a b : Cut sep s = (a, b, false) ↔ a = s ∧ b = "" ∧ noByte sep s.
Proof.
  unfold noByte. revert a. induction s as [|c s IH]; intros a; simpl.
  - split; [by intros; simplify_eq|by intros (-> & -> & _)].
  - destruct (char_eqb c sep) eqn:Hc; simpl.
    + split; [done|]. by intros (_ & _ & ?).
    + destruct (Cut sep s) as [[before after] found] eqn:Hcut. split.
      * intros H. simplify_eq. by destruct (proj1 (IH before) eq_refl) as (-> & -> & Hn).
      * intros (-> & -> & Hn). pose proof (proj2 (IH s) (conj eq_refl (conj eq_refl Hn))). by simplify_eq.
Qed.

(** ** ASCII text *)

Definition isASCII (c : ascii) : bool := (code c <? 128)%N.

(** A visible ASCII character. *)
Definition graphic (c : ascii) : bool := (33 <=? code c)%N && (code c <? 127)%N.

Lemma string_forallb_app p a b :
  string_forallb p (String.append a b) = string_forallb p a && string_forallb p b.
Proof. induction a as [|c a IH]; [done|]. rewrite append_cons. cbn [string_forallb]. by rewrite IH, andb_assoc. Qed.

Lemma string_forallb_weaken (p q : ascii → bool) s :
  (∀ c, p c = true → q c = true) → string_forallb p s = true → string_forallb q s = true.
Proof.
  intros H. induction s as [|c s IH]; [done|]. cbn [string_forallb]. intros [Hc Hs]%andb_true_iff.
  by rewrite (H c Hc), IH.
Qed.

Definition asciiRune (c : ascii) : rune := Rune (code c) (String c EmptyString).

Lemma runes_ascii s : string_forallb isASCII s = true → runes s = map asciiRune (String.list_ascii_of_string s).
Proof.
  induction s as [|c s IH]; [done|]. cbn [string_forallb]. intros [Hc Hs]%andb_true_iff.
  assert (lead c = Some (1%nat, 0, 0)%N) as Hl by (unfold lead; cbv zeta; unfold isASCII in Hc; by rewrite Hc).
  cbn [String.list_ascii_of_string map]. rewrite <- (IH Hs). unfold runes at 1. fold runes. by rewrite Hl.
Qed.

Lemma ValidString_ascii s : string_forallb isASCII s = true → ValidString s = true.
Proof.
  intros H. unfold ValidString. rewrite runes_ascii by done. induction (String.list_ascii_of_string s); [done|].
  cbn. done.
Qed.

Lemma concat_raw_ascii l : String.concat "" (map raw_of (map asciiRune l)) = String.string_of_list_ascii l.
Proof.
  induction l as [|c l IH]; [done|]. cbn [map]. rewrite concat_cons_nil, IH. cbn [raw_of asciiRune]. by rewrite append_cons.
Qed.

Definition spaceChar (c : ascii) : bool := IsSpace (asciiRune c).

Fixpoint dropChars (l : list ascii) : list ascii :=
  match l with [] => [] | c :: r => if spaceChar c then dropChars r else l end.

Lemma dropSpaces_map l : dropSpaces (map asciiRune l) = map asciiRune (dropChars l).
Proof. induction l as [|c l IH]; [done|]. cbn [map dropSpaces dropChars]. fold (spaceChar c). by destruct (spaceChar c). Qed.

Lemma TrimSpace_ascii s :
  string_forallb isASCII s = true →
  TrimSpace s = String.string_of_list_ascii (rev (dropChars (rev (dropChars (String.list_ascii_of_string s))))).
Proof.
  intros H. unfold TrimSpace. rewrite runes_ascii by done.
  by rewrite dropSpaces_map, <- map_rev, dropSpaces_map, <- map_rev, concat_raw_ascii.
Qed.

Lemma dropChars_app l k : forallb spaceChar l = true → dropChars (l ++ k) = dropChars k.
Proof. induction l as [|c l IH]; [done|]. cbn [forallb app dropChars]. intros [-> Hl]%andb_true_iff. by apply IH. Qed.

(** Text with a visible character at each end. *)
Definition edged (s : string) : Prop :=
  ∃ c m d, (s = String c "" ∧ spaceChar c = false) ∨
           (s = String c (String.append m (String d "")) ∧ spaceChar c = false ∧ spaceChar d = false).

Lemma list_of_append a b :
  String.list_ascii_of_string (String.append a b) = String.list_ascii_of_string a ++ String.list_ascii_of_string b.
Proof. induction a as [|c a IH]; [done|]. rewrite append_cons. cbn. by rewrite IH. Qed.

Lemma dropChars_edged s rest :
  edged s → dropChars (String.list_ascii_of_string s ++ rest) = String.list_ascii_of_string s ++ rest ∧
            dropChars (rev (String.list_ascii_of_string s) ++ rest) = rev (String.list_ascii_of_string s) ++ rest.
Proof.
  intros (c & m & d & [[-> Hc]|(-> & Hc & Hd)]); cbn [String.list_ascii_of_string].
  - cbn [rev app dropChars]. by rewrite Hc.
  - rewrite list_of_append. cbn [String.list_ascii_of_string rev app dropChars]. rewrite Hc. split; [done|].
    rewrite rev_app_distr. cbn [rev app dropChars]. by rewrite Hd.
Qed.

(** Surrounding spaces are trimmed, nothing else. *)
Lemma TrimSpace_edged before s after :
  string_forallb isASCII (String.append before (String.append s after)) = true → edged s →
  string_forallb spaceChar before = true → string_forallb spaceChar after = true →
  TrimSpace (String.append before (String.append s after)) = s.
Proof.
  intros Ha He Hb Hf. rewrite TrimSpace_ascii by done. rewrite !list_of_append.
  assert (∀ t, string_forallb spaceChar t = true → forallb spaceChar (String.list_ascii_of_string t) = true) as Hl.
  { intros t. induction t as [|c t IH]; [done|]. cbn. intros [-> Ht]%andb_true_iff. by rewrite IH. }
  rewrite dropChars_app by auto. rewrite (proj1 (dropChars_edged s _ He)), rev_app_distr.
  rewrite dropChars_app.
  - pose proof (proj2 (dropChars_edged s [] He)) as Hd. rewrite !app_nil_r in Hd. rewrite Hd, rev_involutive.
    apply String.string_of_list_ascii_of_string.
  - rewrite forallb_forall. intros x Hx%in_rev. specialize (Hl after Hf). rewrite forallb_forall in Hl. by apply Hl.
Qed.

(** ** What parsing a number gives *)

Lemma digitsValue_nonneg s acc v : digitsValue s acc = Some v → (0 ≤ acc)%Z → (0 ≤ v)%Z.
Proof.
  revert acc. induction s as [|c s IH]; intros acc H Ha; cbn [digitsValue] in H; [by simplify_eq|].
  destruct (is_digit c); [|done]. apply IH in H; lia.
Qed.

Lemma ParseUint_range s bits v : ParseUint s bits = Some v → (0 ≤ v < 2 ^ bits)%Z.
Proof.
  unfold ParseUint. destruct s as [|c s]; [done|]. destruct (digitsValue _ 0) as [w|] eqn:E; [|done].
  apply digitsValue_nonneg in E; [|done]. cbn [mbind option_bind]. destruct (w <? 2 ^ bits)%Z eqn:Eb; [|done]. intros [= <-].
  lia.
Qed.

(** ** Clean paths *)

(** A clean path is never empty. *)
Lemma Clean_nonempty s : Clean s ≠ "".
Proof.
  assert (H : ∀ rooted es, Forall (λ e, e ≠ "") (cleanElements rooted es)).
  { intros rooted es. unfold cleanElements. apply Forall_rev. assert (H : ∀ st, Forall (λ e : string, e ≠ "") st → Forall (λ e, e ≠ "") (fold_left (cleanElement rooted) es st)); [|by apply H].
    induction es as [|e es IH]; intros st Hst; [done|]. cbn. apply IH. unfold cleanElement. do 2 case_bool_decide; cbn [orb]; try done. case_bool_decide; [|by constructor].
    destruct Hst as [|top st Ht Hst]; [destruct rooted; by repeat constructor|]. case_bool_decide; [by repeat constructor|done]. }
  unfold Clean. match goal with |- context [cleanElements ?r ?sp] => specialize (H r sp); destruct H as [|e es He _] end; [by destruct (IsAbs s)|].
  destruct (IsAbs s); [done|]. unfold Join. destruct es; cbn; [done|]. by destruct e.
Qed.
