(* ===== verification/Sha256.v ===== *)
(** * SHA-256

    The hash of Go's [crypto/sha256], which the transfer code uses to check
    what it streams: FIPS 180-4 on a list of bytes.  A byte is a [Z] from 0 to
    255 and a word a [Z] below 2^32. *)

From Stdlib Require Import ZArith Lia Ascii.
From stdpp Require Import strings base tactics option list.
From S2P Require Import Prelude.

Open Scope Z_scope.
Open Scope list_scope.

Definition word (x : Z) : Z := Z.land x 4294967295.
Definition rotr (x n : Z) : Z := Z.lor (Z.shiftr x n) (word (Z.shiftl x (32 - n))).
Definition lnot32 (x : Z) : Z := Z.lxor x 4294967295.

Definition Ch (x y z : Z) : Z := Z.lxor (Z.land x y) (Z.land (lnot32 x) z).
Definition Maj (x y z : Z) : Z := Z.lxor (Z.lxor (Z.land x y) (Z.land x z)) (Z.land y z).
Definition Sigma0 (x : Z) : Z := Z.lxor (Z.lxor (rotr x 2) (rotr x 13)) (rotr x 22).
Definition Sigma1 (x : Z) : Z := Z.lxor (Z.lxor (rotr x 6) (rotr x 11)) (rotr x 25).
Definition sigma0 (x : Z) : Z := Z.lxor (Z.lxor (rotr x 7) (rotr x 18)) (Z.shiftr x 3).
Definition sigma1 (x : Z) : Z := Z.lxor (Z.lxor (rotr x 17) (rotr x 19)) (Z.shiftr x 10).

(** The constants are the first 32 bits of the fractional parts of the cube
    roots and square roots of the first primes. *)
Definition isPrime (n : Z) : bool :=
  forallb (λ d, negb (n mod Z.of_nat d =? 0)) (seq 2 (Z.to_nat n - 2)).

Definition primes : list Z := Eval vm_compute in filter (λ n, isPrime n = true) (map Z.of_nat (seq 2 310)).

(** The largest [r] below [low + 2^n] with [r^3 <= x], given [low^3 <= x]. *)
Fixpoint cubeRoot (n : nat) (x low : Z) : Z :=
  match n with
  | O => low
  | S n' =>
      let r := low + 2 ^ Z.of_nat n' in
      cubeRoot n' x (if r * r * r <=? x then r else low)
  end.

Definition roundConstants : list Z :=
  Eval vm_compute in map (λ p, word (cubeRoot 36 (Z.shiftl p 96) 0)) (take 64 primes).

(** The eight working words. *)
Record regs := mkRegs { ra : Z; rb : Z; rc : Z; rd : Z; re : Z; rf : Z; rg : Z; rh : Z }.

Definition initialRegs : regs :=
  Eval vm_compute in
  match map (λ p, word (Z.sqrt (Z.shiftl p 64))) (take 8 primes) with
  | [a; b; c; d; e; f; g; h] => mkRegs a b c d e f g h
  | _ => mkRegs 0 0 0 0 0 0 0 0
  end.

(** [n] big-endian bytes of [x]. *)
Fixpoint bigEndian (n : nat) (x : Z) : list Z :=
  match n with
  | O => []
  | S n' => Z.land (Z.shiftr x (8 * Z.of_nat n')) 255 :: bigEndian n' x
  end.

Definition pad (msg : list Z) : list Z :=
  msg ++ [128] ++ replicate (Z.to_nat ((55 - len msg) mod 64)) 0 ++ bigEndian 8 (8 * len msg).

Fixpoint wordsOf (bytes : list Z) : list Z :=
  match bytes with
  | a :: b :: c :: d :: rest =>
      Z.lor (Z.lor (Z.shiftl a 24) (Z.shiftl b 16)) (Z.lor (Z.shiftl c 8) d) :: wordsOf rest
  | _ => []
  end.

(** The message schedule, most recent word first. *)
Fixpoint extend (n : nat) (recent : list Z) : list Z :=
  match n with
  | O => recent
  | S n' =>
      let w i := nth i recent 0 in
      extend n' (word (sigma1 (w 1%nat) + w 6%nat + sigma0 (w 14%nat) + w 15%nat) :: recent)
  end.

Definition step (r : regs) (kw : Z * Z) : regs :=
  let t1 := word (rh r + Sigma1 (re r) + Ch (re r) (rf r) (rg r) + fst kw + snd kw) in
  let t2 := word (Sigma0 (ra r) + Maj (ra r) (rb r) (rc r)) in
  mkRegs (word (t1 + t2)) (ra r) (rb r) (rc r) (word (rd r + t1)) (re r) (rf r) (rg r).

Definition block (r : regs) (sixteen : list Z) : regs :=
  let s := foldl step r (zip roundConstants (rev (extend 48 (rev sixteen)))) in
  mkRegs (word (ra r + ra s)) (word (rb r + rb s)) (word (rc r + rc s)) (word (rd r + rd s))
         (word (re r + re s)) (word (rf r + rf s)) (word (rg r + rg s)) (word (rh r + rh s)).

Fixpoint blocks (n : nat) (words : list Z) (r : regs) : regs :=
  match n with
  | O => r
  | S n' => blocks n' (drop 16 words) (block r (take 16 words))
  end.

Definition sha256 (msg : list Z) : list Z :=
  let words := wordsOf (pad msg) in
  let r := blocks (Nat.div (length words) 16) words initialRegs in
  concat (map (bigEndian 4) [ra r; rb r; rc r; rd r; re r; rf r; rg r; rh r]).

#[global] Arguments sha256 : simpl never.

Lemma bigEndian_length n x : length (bigEndian n x) = n.
Proof. induction n as [|n IH]; simpl; [done|by rewrite IH]. Qed.

(** A digest has 32 bytes. *)
Lemma sha256_length msg : length (sha256 msg) = 32%nat.
Proof. unfold sha256. cbv zeta. cbn [concat map]. by rewrite !length_app, !bigEndian_length. Qed.

Definition bytesOf (s : string) : list Z := map (λ c, Z.of_N (code c)) (String.list_ascii_of_string s).

Definition textOf (bytes : list Z) : string :=
  String.string_of_list_ascii (map (λ b, ascii_of_N (Z.to_N b)) bytes).

(** [sha256.Sum256] of a byte string, as a byte string. *)
Definition Sum256 (s : string) : string := textOf (sha256 (bytesOf s)).

#[global] Arguments Sum256 : simpl never.

(** HMAC of RFC 2104 with SHA-256, for a key of at most one block. *)
Definition hmacSHA256 (key message : list Z) : list Z :=
  let padded := key ++ replicate (64 - length key) 0%Z in
  let mask (b : Z) := map (λ k, Z.lxor k b) padded in
  sha256 (mask 0x5c%Z ++ sha256 (mask 0x36%Z ++ message)).

#[global] Arguments hmacSHA256 : simpl never.

(** The published test vectors. *)
Example sha256_empty : sha256 [] =
  [0xe3; 0xb0; 0xc4; 0x42; 0x98; 0xfc; 0x1c; 0x14; 0x9a; 0xfb; 0xf4; 0xc8; 0x99; 0x6f; 0xb9; 0x24;
   0x27; 0xae; 0x41; 0xe4; 0x64; 0x9b; 0x93; 0x4c; 0xa4; 0x95; 0x99; 0x1b; 0x78; 0x52; 0xb8; 0x55].
Proof. by vm_compute. Qed.

Example sha256_abc : sha256 (bytesOf "abc") =
  [0xba; 0x78; 0x16; 0xbf; 0x8f; 0x01; 0xcf; 0xea; 0x41; 0x41; 0x40; 0xde; 0x5d; 0xae; 0x22; 0x23;
   0xb0; 0x03; 0x61; 0xa3; 0x96; 0x17; 0x7a; 0x9c; 0xb4; 0x10; 0xff; 0x61; 0xf2; 0x00; 0x15; 0xad].
Proof. by vm_compute. Qed.

Example sha256_two_blocks : take 8 (sha256 (bytesOf "abcdbcdecdefdefgefghfghighijhijkijkljklmklmnlmnomnopnopq")) =
  [0x24; 0x8d; 0x6a; 0x61; 0xd2; 0x06; 0x38; 0xb8].
Proof. by vm_compute. Qed.

(** RFC 4231, test case 2. *)
Example hmac_vector : take 8 (hmacSHA256 (bytesOf "Jefe") (bytesOf "what do ya want for nothing?")) =
  [0x5b; 0xdc; 0xc1; 0x46; 0xbf; 0x60; 0x75; 0x4e].
Proof. by vm_compute. Qed.
