(* ===== verification/Netip.v ===== *)
(** * IP addresses

    What the program uses of Go's [net/netip]: addresses, prefixes, their
    order, their classification and their text.  An address holds its 32-bit or
    128-bit value. *)

From Stdlib Require Import ZArith Lia Ascii.
From stdpp Require Import strings base tactics option pretty list.
From S2P Require Import Prelude GoText.

Open Scope string_scope.
Open Scope list_scope.

(** [netip.Addr]: the zero value, or a 32-bit or 128-bit address with a zone. *)
Inductive Addr := AddrZero | Addr4 (v : Z) | Addr6 (v : Z) (zone : string).

#[global] Instance Addr_eq_dec : EqDecision Addr.
Proof. solve_decision. Defined.

Definition Is4 (a : Addr) : bool := match a with Addr4 _ => true | _ => false end.
Definition Is6 (a : Addr) : bool := match a with Addr6 _ _ => true | _ => false end.
Definition IsValid (a : Addr) : bool := negb (bool_decide (a = AddrZero)).
Definition Zone (a : Addr) : string := match a with Addr6 _ zone => zone | _ => "" end.
Definition bitLen (a : Addr) : Z := match a with AddrZero => 0 | Addr4 _ => 32 | Addr6 _ _ => 128 end.

(** The address as a number. *)
Definition addrValue (a : Addr) : Z := match a with AddrZero => 0 | Addr4 v => v | Addr6 v _ => v end.

Definition two32 : Z := 4294967296.
Definition two128 : Z := 340282366920938463463374607431768211456.

Definition wellFormedAddr (a : Addr) : Prop :=
  match a with
  | AddrZero => True
  | Addr4 v => (0 ≤ v < two32)%Z
  | Addr6 v _ => (0 ≤ v < two128)%Z
  end.

(** The number that big-endian bytes write. *)
Definition bigEndianValue (bytes : list Z) : Z := foldl (λ acc b, acc * 256 + b)%Z 0%Z bytes.

(** [netip.AddrFrom4] and [netip.AddrFrom16] of an array of bytes. *)
Definition AddrFrom4 (bytes : list Z) : Addr := Addr4 (bigEndianValue bytes).
Definition AddrFrom16 (bytes : list Z) : Addr := Addr6 (bigEndianValue bytes) "".

(** [::ffff:a.b.c.d], whatever the zone. *)
Definition Is4In6 (a : Addr) : bool :=
  match a with Addr6 v _ => (Z.shiftr v 32 =? 65535)%Z | _ => false end.

(** The [i]-th byte of a 32-bit value and the [i]-th 16-bit group of a 128-bit
    value, from the most significant. *)
Definition v4 (v : Z) (i : nat) : Z := Z.land (Z.shiftr v (8 * (3 - Z.of_nat i))) 255.
Definition v6u16 (v : Z) (i : nat) : Z := Z.land (Z.shiftr v (16 * (7 - Z.of_nat i))) 65535.

Definition Unmap (a : Addr) : Addr :=
  if Is4In6 a then Addr4 (Z.land (addrValue a) 4294967295) else a.

Definition IsLoopback (a : Addr) : bool :=
  match Unmap a with
  | Addr4 v => (v4 v 0 =? 127)%Z
  | Addr6 v _ => (v =? 1)%Z
  | AddrZero => false
  end.

Definition IsMulticast (a : Addr) : bool :=
  match Unmap a with
  | Addr4 v => (Z.land (v4 v 0) 240 =? 224)%Z
  | Addr6 v _ => (Z.shiftr (v6u16 v 0) 8 =? 255)%Z
  | AddrZero => false
  end.

Definition IsLinkLocalUnicast (a : Addr) : bool :=
  match Unmap a with
  | Addr4 v => (v4 v 0 =? 169)%Z && (v4 v 1 =? 254)%Z
  | Addr6 v _ => (Z.land (v6u16 v 0) 65472 =? 65152)%Z
  | AddrZero => false
  end.

(** The private ranges of RFC 1918 and RFC 4193. *)
Definition IsPrivate (a : Addr) : bool :=
  match Unmap a with
  | Addr4 v =>
      (v4 v 0 =? 10)%Z || ((v4 v 0 =? 172)%Z && (Z.land (v4 v 1) 240 =? 16)%Z) || ((v4 v 0 =? 192)%Z && (v4 v 1 =? 168)%Z)
  | Addr6 v _ => (Z.land (Z.shiftr (v6u16 v 0) 8) 254 =? 252)%Z
  | AddrZero => false
  end.

Definition IsGlobalUnicast (a : Addr) : bool :=
  match a with
  | AddrZero => false
  | _ =>
      negb (Is4 a && (bool_decide (a = Addr4 0) || bool_decide (a = Addr4 4294967295))) &&
      negb (bool_decide (a = Addr6 0 "")) && negb (IsLoopback a) && negb (IsMulticast a) &&
      negb (IsLinkLocalUnicast a)
  end.

(** [a.Compare(b) < 0]: by family, value and zone. *)
Definition addrLess (a b : Addr) : bool :=
  if (bitLen a <? bitLen b)%Z then true
  else if (bitLen b <? bitLen a)%Z then false
  else if (addrValue a <? addrValue b)%Z then true
  else if (addrValue b <? addrValue a)%Z then false
  else Is6 a && String.ltb (Zone a) (Zone b).

(** [a.Compare(b) != 0] *)
Definition addrDiffers (a b : Addr) : bool := addrLess a b || addrLess b a.

(** [Next] of the last address is the zero value. *)
Definition Next (a : Addr) : Addr :=
  match a with
  | AddrZero => AddrZero
  | Addr4 v => if (v + 1 =? two32)%Z then AddrZero else Addr4 (v + 1)
  | Addr6 v zone => if (v + 1 =? two128)%Z then AddrZero else Addr6 (v + 1) zone
  end.

(** ** Text *)

(** [strconv.FormatUint value 10] *)
Definition decimal (v : Z) : string := pretty (Z.to_N v).

(** The hexadecimal digits of a 16-bit number without leading zeros. *)
Definition hexNibble (v : Z) (i : Z) : ascii := hexDigit (Z.to_N (Z.land (Z.shiftr v (4 * i)) 15)).

Definition appendHex (v : Z) : string :=
  (if (4096 <=? v)%Z then String (hexNibble v 3) "" else "") +:+
  (if (256 <=? v)%Z then String (hexNibble v 2) "" else "") +:+
  (if (16 <=? v)%Z then String (hexNibble v 1) "" else "") +:+
  String (hexNibble v 0) "".

Definition appendTo4 (v : Z) : string :=
  decimal (v4 v 0) +:+ "." +:+ decimal (v4 v 1) +:+ "." +:+ decimal (v4 v 2) +:+ "." +:+ decimal (v4 v 3).

(** The number of zero groups from [i] on. *)
Fixpoint zeroRun (groups : list Z) : nat :=
  match groups with
  | 0%Z :: rest => S (zeroRun rest)
  | _ => 0
  end.

(** The first of the longest runs of at least two zero groups. *)
Fixpoint bestRun (i : nat) (groups : list Z) (start length : nat) : nat * nat :=
  match groups with
  | [] => (start, length)
  | _ :: rest =>
      let l := zeroRun groups in
      if ((2 <=? l) && (length <? l))%nat then bestRun (S i) rest i l
      else bestRun (S i) rest start length
  end.

Definition hexGroups (groups : list Z) : string := String.concat ":" (map appendHex groups).

Definition appendTo6 (v : Z) : string :=
  let groups := map (v6u16 v) (seq 0 8) in
  match bestRun 0 groups 8 0 with
  | (_, O) => hexGroups groups
  | (start, length) =>
      hexGroups (take start groups) +:+ "::" +:+ hexGroups (drop (start + length) groups)
  end.

Definition withZone (zone : string) : string := if bool_decide (zone = "") then "" else "%" +:+ zone.

(** [AppendTo], and [String] of a valid address. *)
Definition AppendTo (a : Addr) : string :=
  match a with
  | AddrZero => ""
  | Addr4 v => appendTo4 v
  | Addr6 v zone =>
      (if Is4In6 a then "::ffff:" +:+ appendTo4 (Z.land v 4294967295) else appendTo6 v) +:+ withZone zone
  end.

Definition addrString (a : Addr) : string := if IsValid a then AppendTo a else "invalid IP".

(** ** Prefixes *)

(** [netip.Prefix]; an invalid one has negative [Bits]. *)
Record Prefix := mkPrefix { pf_Addr : Addr; pf_Bits : Z }.

#[global] Instance Prefix_eq_dec : EqDecision Prefix.
Proof. solve_decision. Defined.

Definition PrefixIsValid (p : Prefix) : bool := (0 <=? pf_Bits p)%Z && (pf_Bits p <=? bitLen (pf_Addr p))%Z &&
  negb (bool_decide (pf_Addr p = AddrZero)).

(** [netip.PrefixFrom] drops the zone; it is invalid when the address is or
    when the address has fewer bits. *)
Definition PrefixFrom (a : Addr) (bits : Z) : Prefix :=
  match a with
  | AddrZero => mkPrefix a (-1)
  | _ =>
      mkPrefix (match a with Addr6 v _ => Addr6 v "" | _ => a end)
               (if ((bits <? 0) || (bitLen a <? bits))%Z then -1 else bits)
  end.

Definition prefixString (p : Prefix) : string :=
  if PrefixIsValid p then AppendTo (pf_Addr p) +:+ "/" +:+ decimal (pf_Bits p) else "invalid Prefix".

(** [Masked().Contains(ip)]: the same network bits, no zone, the same family. *)
Definition MaskedContains (p : Prefix) (ip : Addr) : bool :=
  match pf_Addr p, ip with
  | Addr4 a, Addr4 b => (Z.shiftr a (32 - pf_Bits p) =? Z.shiftr b (32 - pf_Bits p))%Z
  | Addr6 a _, Addr6 b zone => bool_decide (zone = "") && (Z.shiftr a (128 - pf_Bits p) =? Z.shiftr b (128 - pf_Bits p))%Z
  | _, _ => false
  end.

(** ** Examples from the package's documentation and RFC 5952 *)

Example addrString_examples :
  map addrString [Addr4 16843009; Addr6 0 ""; Addr6 1 ""; Addr6 0x26064700470000000000000000001111 "";
                  Addr6 0x20010db8000000000001000000000001 ""; Addr6 0xfe800000000000000000000000000001 "eth0";
                  Addr6 0xffff01010101 ""; Addr6 0x20010db8000100010001000100010000 ""; AddrZero] =
  ["1.1.1.1"; "::"; "::1"; "2606:4700:4700::1111"; "2001:db8::1:0:0:1"; "fe80::1%eth0"; "::ffff:1.1.1.1";
   "2001:db8:1:1:1:1:1:0"; "invalid IP"].
Proof. by vm_compute. Qed.

Example IsGlobalUnicast_examples :
  map IsGlobalUnicast [Addr4 16843009; Addr4 167772161; Addr4 2130706433; Addr4 0; Addr4 4294967295; Addr4 3758096385;
                       Addr6 1 ""; Addr6 0xfe800000000000000000000000000001 ""; Addr6 0x26064700470000000000000000001111 ""] =
  [true; true; false; false; false; false; false; false; true].
Proof. by vm_compute. Qed.

(** ** Order *)

Lemma addrLess_irrefl a : addrLess a a = false.
Proof.
  unfold addrLess. rewrite !Z.ltb_irrefl. destruct (Is6 a); [|done]. simpl.
  unfold String.ltb. pose proof (String.compare_antisym (Zone a) (Zone a)). by destruct (String.compare _ _).
Qed.

(** Addresses that [Compare] does not tell apart are equal. *)
Lemma addrLess_antisym a b : addrLess a b = false → addrLess b a = false → a = b.
Proof.
  unfold addrLess. destruct a as [|v|v zone], b as [|w|w zone']; simpl; try done.
  - intros H1 H2. guards. f_equal. lia.
  - intros H1 H2. guards. f_equal; [lia|]. unfold String.ltb in *.
    pose proof (String.compare_antisym zone zone'). destruct (String.compare zone zone') eqn:E; try done.
    + by apply String.compare_eq_iff in E.
    + by destruct (String.compare zone' zone).
Qed.
