(* ===== verification/NetipText.v ===== *)
(** * Parsing IP addresses

    [netip.ParseAddr] and [netip.ParsePrefix], translated from the Go standard
    library, and the round trip with the text of an address: the profile parser
    of a guest reads what the host rendered. *)

From Stdlib Require Import ZArith Lia Ascii.
From stdpp Require Import strings base tactics option pretty list.
From S2P Require Import Prelude GoText Netip.

Open Scope string_scope.
Open Scope list_scope.

(** ** IPv4 *)

Definition digitValue (c : ascii) : Z := Z.of_N (code c - 48).

(** [fields] are the fields read so far, latest first; [atField] says that no
    byte of the current field has been read. *)
Fixpoint parseIPv4Fields (s : string) (fields : list Z) (val : Z) (digLen : nat) (atField : bool) : option (list Z) :=
  match s with
  | EmptyString => if (length fields <? 3)%nat then None else Some (rev (val :: fields))
  | String c r =>
      if is_digit c then
        if (digLen =? 1)%nat && (val =? 0)%Z then None
        else
          let val := (val * 10 + digitValue c)%Z in
          if (255 <? val)%Z then None else parseIPv4Fields r fields val (S digLen) false
      else if char_eqb c "." then
        if atField || bool_decide (r = "") then None
        else if (length fields =? 3)%nat then None
        else parseIPv4Fields r (val :: fields) 0 0 true
      else None
  end.

Definition parseIPv4 (s : string) : option Addr :=
  fields ← parseIPv4Fields s [] 0 0 true; Some (AddrFrom4 fields).

(** ** IPv6 *)

Definition hexValue (c : ascii) : option Z :=
  if is_digit c then Some (digitValue c)
  else if between "a" "f" c then Some (Z.of_N (code c - 87))
  else if between "A" "F" c then Some (Z.of_N (code c - 55))
  else None.

(** The number at the start of [s], how many digits it has, and what follows. *)
Fixpoint hexNumber (s : string) (off : nat) (acc : Z) : option (Z * nat * string) :=
  match s with
  | EmptyString => Some (acc, off, EmptyString)
  | String c r =>
      match hexValue c with
      | None => Some (acc, off, s)
      | Some d =>
          let acc := (acc * 16 + d)%Z in
          if (3 <? off)%nat then None
          else if (65535 <? acc)%Z then None
          else hexNumber r (S off) acc
      end
  end.

(** [room] is the number of 16-bit groups that may still come. *)
Fixpoint ipv6Loop (room : nat) (s : string) (groups : list Z) (ellipsis : option nat) :
    option (list Z * option nat * string) :=
  match room with
  | O => Some (groups, ellipsis, s)
  | S room' =>
      match hexNumber s 0 0 with
      | None => None
      | Some (acc, off, rest) =>
          if (off =? 0)%nat then None
          else
            let groups' := groups ++ [acc] in
            match rest with
            | EmptyString => Some (groups', ellipsis, EmptyString)
            | String c r1 =>
                if char_eqb c "." then
                  if bool_decide (ellipsis = None) && negb (length groups =? 6)%nat then None
                  else if (room <? 2)%nat then None
                  else match parseIPv4Fields s [] 0 0 true with
                       | Some [a; b; x; y] => Some (groups ++ [a * 256 + b; x * 256 + y]%Z, ellipsis, EmptyString)
                       | _ => None
                       end
                else if char_eqb c ":" then
                  match r1 with
                  | EmptyString => None
                  | String c2 r2 =>
                      if char_eqb c2 ":" then
                        if bool_decide (ellipsis = None) then
                          if bool_decide (r2 = "") then Some (groups', Some (length groups'), EmptyString)
                          else ipv6Loop room' r2 groups' (Some (length groups'))
                        else None
                      else ipv6Loop room' r1 groups' ellipsis
                  end
                else None
            end
      end
  end.

(** The 128-bit number of eight groups. *)
Definition groupsValue (groups : list Z) : Z := foldl (λ acc g, acc * 65536 + g)%Z 0%Z groups.

Definition finishIPv6 (groups : list Z) (ellipsis : option nat) (zone : string) : option Addr :=
  if (length groups <? 8)%nat then
    match ellipsis with
    | None => None
    | Some e =>
        Some (Addr6 (groupsValue (take e groups ++ replicate (8 - length groups) 0%Z ++ drop e groups)) zone)
    end
  else match ellipsis with None => Some (Addr6 (groupsValue groups) zone) | Some _ => None end.

Definition parseIPv6 (whole : string) : option Addr :=
  let '(s, zone, found) := Cut "%" whole in
  if found && bool_decide (zone = "") then None
  else
    let leading := HasPrefix s "::" in
    let s := if leading then drop_string 2 s else s in
    if leading && bool_decide (s = "") then Some (Addr6 0 zone)
    else
      match ipv6Loop 8 s [] (if leading then Some 0%nat else None) with
      | Some (groups, ellipsis, EmptyString) => finishIPv6 groups ellipsis zone
      | _ => None
      end.

(** ** Addresses and prefixes *)

(** The first of [.], [:] and [%] decides the family. *)
Fixpoint parseAddrFrom (s whole : string) : option Addr :=
  match s with
  | EmptyString => None
  | String c r =>
      if char_eqb c "." then parseIPv4 whole
      else if char_eqb c ":" then parseIPv6 whole
      else if char_eqb c "%" then None
      else parseAddrFrom r whole
  end.

Definition ParseAddr (s : string) : option Addr := parseAddrFrom s s.

(** [s] before and after its last slash. *)
Fixpoint cutLast (sep : ascii) (s : string) : option (string * string) :=
  match s with
  | EmptyString => None
  | String c r =>
      match cutLast sep r with
      | Some (before, after) => Some (String c before, after)
      | None => if char_eqb c sep then Some (EmptyString, r) else None
      end
  end.

Definition leadingDigit (s : string) : bool := match s with String c _ => between "1" "9" c | EmptyString => false end.

Definition ParsePrefix (s : string) : option Prefix :=
  '(address, bitsStr) ← cutLast "/" s;
  ip ← ParseAddr address;
  if Is6 ip && negb (bool_decide (Zone ip = "")) then None
  else if (1 <? String.length bitsStr)%nat && negb (leadingDigit bitsStr) then None
  else
    bits ← ParseUint bitsStr 63;
    if (bitLen ip <? bits)%Z then None else Some (PrefixFrom ip bits).

(** ** Examples *)

Example ParseAddr_examples :
  map ParseAddr ["1.1.1.1"; "::"; "2606:4700:4700::1111"; "fe80::1%eth0"; "::ffff:1.2.3.4"; "1:2:3:4:5:6:7:8"; "1::"] =
  map Some [Addr4 16843009; Addr6 0 ""; Addr6 0x26064700470000000000000000001111 "";
            Addr6 0xfe800000000000000000000000000001 "eth0"; Addr6 0xffff01020304 "";
            Addr6 0x00010002000300040005000600070008 ""; Addr6 (2 ^ 112) ""] ∧
  map ParseAddr ["1.1.1"; "01.1.1.1"; "256.1.1.1"; "1.1.1.1."; "1::2::3"; "1:2:3:4:5:6:7::8"; "12345::"; ":1"; "fe80::1%"; "a"] =
  [None; None; None; None; None; None; None; None; None; None].
Proof. split; vm_compute; reflexivity. Qed.

Example ParsePrefix_examples :
  map ParsePrefix ["10.2.0.2/32"; "::/0"; "10.2.0.2/33"; "10.2.0.2/032"; "10.2.0.2"; "fe80::1%eth0/64"] =
  [Some (mkPrefix (Addr4 167903234) 32); Some (mkPrefix (Addr6 0 "") 0); None; None; None; None].
Proof. vm_compute. reflexivity. Qed.

(** ** Round trip: IPv4 *)

(** What may follow a number of the dotted form. *)
Definition fieldEnd (rest : string) : Prop := rest = "" ∨ ∃ r, rest = String "." r.

Lemma parse_field b rest fields :
  (0 ≤ b < 256)%Z → fieldEnd rest →
  ∃ k, parseIPv4Fields (decimal b +:+ rest) fields 0 0 true = parseIPv4Fields rest fields b (S k) false.
Proof.
  intros Hb _. rewrite <- (Z2Nat.id b) by lia. assert (Z.to_nat b < 256)%nat as Hn by lia.
  generalize dependent (Z.to_nat b). clear. intros n Hn.
  do 10 (destruct n as [|n]; [by exists 0%nat|]). do 90 (destruct n as [|n]; [by exists 1%nat|]).
  do 156 (destruct n as [|n]; [by exists 2%nat|]). lia.
Qed.

Lemma v4_bounds v i : (0 ≤ v4 v i < 256)%Z.
Proof. unfold v4. change 255%Z with (Z.ones 8). rewrite Z.land_ones by done. by apply Z.mod_pos_bound. Qed.

Lemma v4_value v : (0 ≤ v < two32)%Z → bigEndianValue [v4 v 0; v4 v 1; v4 v 2; v4 v 3] = v.
Proof.
  intros H. unfold bigEndianValue, v4, two32 in *. cbn [foldl]. change 255%Z with (Z.ones 8).
  rewrite !Z.land_ones, !Z.shiftr_div_pow2 by lia.
  change (2 ^ (8 * (3 - Z.of_nat 0)))%Z with 16777216%Z. change (2 ^ (8 * (3 - Z.of_nat 1)))%Z with 65536%Z.
  change (2 ^ (8 * (3 - Z.of_nat 2)))%Z with 256%Z. change (2 ^ (8 * (3 - Z.of_nat 3)))%Z with 1%Z.
  change (2 ^ 8)%Z with 256%Z. Z.div_mod_to_equations. lia.
Qed.

Lemma decimal_nonempty b : decimal b ≠ "".
Proof.
  unfold decimal, pretty, pretty_N. case_decide; [done|]. rewrite pretty_N_go_step by lia.
  generalize (Z.to_N b `div` 10)%N. intros x.
  assert (∀ y s, s ≠ "" → pretty_N_go y s ≠ "") as Hg; [|by apply Hg].
  clear. intros y. induction (N.lt_wf_0 y) as [y _ IH]. intros s Hs.
  assert (y = 0 ∨ 0 < y)%N as [->|Hy] by lia; [done|]. rewrite pretty_N_go_step by done. apply IH; [|done].
  by apply N.div_lt.
Qed.

Lemma append_nonempty a b : a ≠ "" → a +:+ b ≠ "".
Proof. destruct a; [done|]. by rewrite append_cons. Qed.

(** A dot and the next field. *)
Lemma parse_dot_field b rest fields val k :
  (0 ≤ b < 256)%Z → fieldEnd rest → (length fields < 3)%nat →
  ∃ k', parseIPv4Fields ("." +:+ decimal b +:+ rest) fields val (S k) false =
        parseIPv4Fields rest (val :: fields) b (S k') false.
Proof.
  intros Hb Hr Hl. destruct (parse_field b rest (val :: fields) Hb Hr) as [k' Hk]. exists k'. rewrite <- Hk.
  rewrite append_cons, append_nil_l. cbn [parseIPv4Fields].
  rewrite bool_decide_eq_false_2 by apply append_nonempty, decimal_nonempty.
  by rewrite (proj2 (Nat.eqb_neq (length fields) 3)) by lia.
Qed.

Lemma parse_text4 v : (0 ≤ v < two32)%Z → parseIPv4 (appendTo4 v) = Some (Addr4 v).
Proof.
  intros H. unfold parseIPv4, appendTo4, AddrFrom4.
  assert (∀ r, fieldEnd ("." +:+ r)) as Hd by (intros; right; by eexists).
  edestruct (parse_field (v4 v 0)) as [k0 ->]; [apply v4_bounds|apply Hd|].
  edestruct (parse_dot_field (v4 v 1)) as [k1 ->]; [apply v4_bounds|apply Hd|simpl; lia|].
  edestruct (parse_dot_field (v4 v 2)) as [k2 ->]; [apply v4_bounds|apply Hd|simpl; lia|].
  edestruct (parse_dot_field (v4 v 3) "") as [k3 Hk]; [apply v4_bounds|by left| |rewrite append_nil_r in Hk; rewrite Hk].
  { simpl. lia. }
  cbn [parseIPv4Fields length Nat.ltb Nat.leb rev app mbind option_bind]. by rewrite v4_value.
Qed.

(** ** Round trip: IPv6 *)

Lemma hexValue_digit d : (0 ≤ d < 16)%Z → hexValue (hexDigit (Z.to_N d)) = Some d.
Proof.
  intros H. rewrite <- (Z2Nat.id d) by lia. assert (Z.to_nat d < 16)%nat as Hn by lia.
  generalize dependent (Z.to_nat d). clear. intros n Hn. do 16 (destruct n as [|n]; [done|]). lia.
Qed.

Lemma nibble_bounds v i : (0 ≤ Z.land (Z.shiftr v (4 * i)) 15 < 16)%Z.
Proof. change 15%Z with (Z.ones 4). rewrite Z.land_ones by done. by apply Z.mod_pos_bound. Qed.

Lemma hexNumber_nibble v i rest off acc :
  let d := Z.land (Z.shiftr v (4 * i)) 15 in
  (off ≤ 3)%nat → (0 ≤ acc)%Z → (acc * 16 + d ≤ 65535)%Z →
  hexNumber (String (hexNibble v i) rest) off acc = hexNumber rest (S off) (acc * 16 + d).
Proof.
  intros d Ho Ha Hm. cbn [hexNumber]. unfold hexNibble. rewrite hexValue_digit by apply nibble_bounds.
  fold d. rewrite (proj2 (Nat.ltb_ge 3 off)) by lia. by rewrite (proj2 (Z.ltb_ge 65535 (acc * 16 + d))) by lia.
Qed.

(** What may follow a group. *)
Definition groupEnd (rest : string) : Prop := rest = "" ∨ ∃ r, rest = String ":" r.

Lemma hexNumber_end rest off acc : groupEnd rest → hexNumber rest off acc = Some (acc, off, rest).
Proof. by intros [->|[r ->]]. Qed.

Lemma hexNumber_group g rest :
  (0 ≤ g < 65536)%Z → groupEnd rest → ∃ k, hexNumber (appendHex g +:+ rest) 0 0 = Some (g, S k, rest).
Proof.
  intros Hg Hr. unfold appendHex.
  set (n3 := Z.land (Z.shiftr g (4 * 3)) 15). set (n2 := Z.land (Z.shiftr g (4 * 2)) 15).
  set (n1 := Z.land (Z.shiftr g (4 * 1)) 15). set (n0 := Z.land (Z.shiftr g (4 * 0)) 15).
  assert (n3 = g / 4096 ∧ n2 = g / 256 mod 16 ∧ n1 = g / 16 mod 16 ∧ n0 = g mod 16)%Z as (H3 & H2 & H1 & H0).
  { unfold n3, n2, n1, n0. change 15%Z with (Z.ones 4). rewrite !Z.land_ones, !Z.shiftr_div_pow2 by lia.
    change (2 ^ (4 * 3))%Z with 4096%Z. change (2 ^ (4 * 2))%Z with 256%Z. change (2 ^ (4 * 1))%Z with 16%Z.
    change (2 ^ (4 * 0))%Z with 1%Z. change (2 ^ 4)%Z with 16%Z. Z.div_mod_to_equations. lia. }
  assert (g = ((n3 * 16 + n2) * 16 + n1) * 16 + n0)%Z as Hsum by (rewrite H3, H2, H1, H0; Z.div_mod_to_equations; lia).
  assert (0 ≤ n3 < 16 ∧ 0 ≤ n2 < 16 ∧ 0 ≤ n1 < 16 ∧ 0 ≤ n0 < 16)%Z as (B3 & B2 & B1 & B0)
    by (split_and!; apply nibble_bounds).
  destruct (Z.leb_spec 4096 g); [|destruct (Z.leb_spec 256 g); [|destruct (Z.leb_spec 16 g)]];
    repeat (rewrite (proj2 (Z.leb_le _ g)) by lia); repeat (rewrite (proj2 (Z.leb_gt _ g)) by lia);
    rewrite ?append_nil_l, ?append_assoc, ?append_cons, ?append_nil_l.
  all: eexists; repeat (rewrite hexNumber_nibble; [|fold n3 n2 n1 n0; lia..]);
    rewrite hexNumber_end by done; fold n3 n2 n1 n0; do 3 f_equal; lia.
Qed.

Lemma hexGroups_cons g gs : hexGroups (g :: gs) = appendHex g +:+ (if isNil gs then "" else ":" +:+ hexGroups gs).
Proof. unfold hexGroups. destruct gs; cbn [map String.concat isNil]; [by rewrite append_nil_r|done]. Qed.

Definition groupRange (g : Z) : Prop := (0 ≤ g < 65536)%Z.

(** A text of groups never starts with a colon. *)
Lemma appendHex_head g : ∃ c r, appendHex g = String c r ∧ hexValue c ≠ None.
Proof.
  unfold appendHex. assert (∀ i, hexValue (hexNibble g i) ≠ None) as H.
  { intros i. unfold hexNibble. by rewrite hexValue_digit by apply nibble_bounds. }
  destruct (4096 <=? g)%Z; [eexists _, _; rewrite append_cons; by split|].
  destruct (256 <=? g)%Z; [eexists _, _; rewrite append_nil_l, append_cons; by split|].
  destruct (16 <=? g)%Z; eexists _, _; rewrite !append_nil_l, ?append_cons; by split.
Qed.

Lemma hexValue_not_colon c : hexValue c ≠ None → char_eqb c ":" = false ∧ char_eqb c "." = false ∧ char_eqb c "%" = false.
Proof. intros H. unfold char_eqb. split_and!; apply bool_decide_eq_false; intros ->; by apply H. Qed.

(** The loop reads a whole list of groups. *)
Lemma ipv6Loop_end gs room groups ellipsis :
  gs ≠ [] → Forall groupRange gs → (length gs ≤ room)%nat →
  ipv6Loop room (hexGroups gs) groups ellipsis = Some (groups ++ gs, ellipsis, "").
Proof.
  revert room groups. induction gs as [|g gs IH]; intros room groups Hne Hr Hl; [done|].
  apply Forall_cons in Hr as [Hg Hr]. destruct room as [|room]; [simpl in Hl; lia|].
  rewrite hexGroups_cons. cbn [ipv6Loop]. destruct gs as [|g2 gs].
  - cbn [isNil]. destruct (hexNumber_group g "" Hg (or_introl eq_refl)) as [k ->]. done.
  - cbn [isNil]. edestruct (hexNumber_group g) as [k ->]; [done|right; by eexists|].
    rewrite append_cons, append_nil_l. cbn [Nat.eqb].
    change (char_eqb ":" ".") with false. change (char_eqb ":" ":") with true. cbv iota.
    destruct (appendHex_head g2) as (c & r & Hc & Hv). apply hexValue_not_colon in Hv as (Hv & _ & _).
    specialize (IH room (groups ++ [g]) ltac:(done) Hr ltac:(simpl in *; lia)).
    rewrite hexGroups_cons, Hc, append_cons in IH |- *. rewrite Hv, IH. by rewrite <- app_assoc.
Qed.

(** The loop reads groups up to an ellipsis. *)
Lemma ipv6Loop_ellipsis gs room groups tail :
  gs ≠ [] → Forall groupRange gs → (length gs ≤ room)%nat →
  ipv6Loop room (hexGroups gs +:+ "::" +:+ tail) groups None =
  if bool_decide (tail = "") then Some (groups ++ gs, Some (length (groups ++ gs)), "")
  else ipv6Loop (room - length gs) tail (groups ++ gs) (Some (length (groups ++ gs))).
Proof.
  revert room groups. induction gs as [|g gs IH]; intros room groups Hne Hr Hl; [done|].
  apply Forall_cons in Hr as [Hg Hr]. destruct room as [|room]; [simpl in Hl; lia|].
  rewrite hexGroups_cons, append_assoc. cbn [ipv6Loop]. destruct gs as [|g2 gs].
  - cbn [isNil]. rewrite append_nil_l. edestruct (hexNumber_group g) as [k ->]; [done|right; by eexists|].
    rewrite !append_cons, append_nil_l. cbn [Nat.eqb].
    change (char_eqb ":" ".") with false. change (char_eqb ":" ":") with true. cbv iota.
    rewrite bool_decide_eq_true_2 by done. cbn [length]. by rewrite Nat.sub_succ, Nat.sub_0_r.
  - cbn [isNil]. edestruct (hexNumber_group g) as [k ->]; [done|right; by eexists|].
    rewrite append_assoc, append_cons, append_nil_l. cbn [Nat.eqb].
    change (char_eqb ":" ".") with false. change (char_eqb ":" ":") with true. cbv iota.
    destruct (appendHex_head g2) as (c & r & Hc & Hv). apply hexValue_not_colon in Hv as (Hv & _ & _).
    specialize (IH room (groups ++ [g]) ltac:(done) Hr ltac:(simpl in *; lia)).
    rewrite hexGroups_cons, Hc, append_assoc, append_cons in IH |- *. rewrite Hv, IH.
    rewrite <- app_assoc. cbn [app length]. by rewrite Nat.sub_succ.
Qed.

(** *** The compressed run *)

Lemma zeroRun_spec gs : (zeroRun gs ≤ length gs)%nat ∧ take (zeroRun gs) gs = replicate (zeroRun gs) 0%Z.
Proof.
  induction gs as [|g gs [IHl IHt]]; [done|]. destruct g; cbn [zeroRun]; try (split; [lia|by rewrite take_0]).
  cbn [length take replicate]. split; [lia|]. by rewrite IHt.
Qed.

(** The run [start, start + n) of [groups] is absent or consists of at least two
    zero groups. *)
Definition goodRun (groups : list Z) (start n : nat) : Prop :=
  n = 0%nat ∨ (2 ≤ n ∧ start + n ≤ length groups)%nat ∧ take n (drop start groups) = replicate n 0%Z.

Lemma bestRun_good i gs groups start n :
  drop i groups = gs → goodRun groups start n →
  goodRun groups (bestRun i gs start n).1 (bestRun i gs start n).2.
Proof.
  revert i start n. induction gs as [|g gs IH]; intros i start n Hd Hr; [done|].
  assert (drop (S i) groups = gs) as Hd' 
    by (replace (S i) with (i + 1)%nat by lia; by rewrite <- drop_drop, Hd).
  cbn [bestRun]. destruct (_ && _) eqn:E; [|by apply IH]. apply IH; [done|]. bool_hyps.
  destruct (zeroRun_spec (g :: gs)) as [Hl Ht]. right. rewrite Hd. split; [|done]. split; [done|].
  assert (length (drop i groups) = length (g :: gs)) as Hlen by (by rewrite Hd). rewrite length_drop in Hlen.
  cbn [length] in *. lia.
Qed.

Lemma split_run groups start n :
  goodRun groups start n → (0 < n)%nat →
  groups = take start groups ++ replicate n 0%Z ++ drop (start + n) groups.
Proof.
  intros [->|[_ Ht]] Hn; [lia|]. rewrite <- Ht, <- drop_drop, take_drop. symmetry. apply take_drop.
Qed.

Lemma v6u16_range v i : groupRange (v6u16 v i).
Proof.
  unfold groupRange, v6u16. change 65535%Z with (Z.ones 16). rewrite Z.land_ones by done. by apply Z.mod_pos_bound.
Qed.

Definition groupsOf (v : Z) : list Z := map (v6u16 v) (seq 0 8).

Lemma groupsOf_value v : (0 ≤ v < two128)%Z → groupsValue (groupsOf v) = v.
Proof.
  intros H. unfold groupsOf, groupsValue. cbn [map seq foldl]. unfold v6u16. change 65535%Z with (Z.ones 16).
  rewrite !Z.land_ones, !Z.shiftr_div_pow2 by lia. 
  assert (∀ k, 0 ≤ k → v / 2 ^ (16 * k) = (v / 2 ^ (16 * (k + 1))) * 65536 + (v / 2 ^ (16 * k)) mod 2 ^ 16)%Z as Hs.
  { intros k Hk. replace (16 * (k + 1))%Z with (16 * k + 16)%Z by lia.
    rewrite Z.pow_add_r, <- Z.div_div by (try apply Z.pow_nonzero; lia).
    change 65536%Z with (2 ^ 16)%Z. generalize (v / 2 ^ (16 * k))%Z. intros x.
    rewrite (Z.mul_comm (x / _)%Z). by apply Z.div_mod. }
  pose proof (Hs 0%Z ltac:(lia)) as H0. pose proof (Hs 1%Z ltac:(lia)) as H1. pose proof (Hs 2%Z ltac:(lia)) as H2.
  pose proof (Hs 3%Z ltac:(lia)) as H3. pose proof (Hs 4%Z ltac:(lia)) as H4. pose proof (Hs 5%Z ltac:(lia)) as H5.
  pose proof (Hs 6%Z ltac:(lia)) as H6. pose proof (Hs 7%Z ltac:(lia)) as H7.
  assert (v / 2 ^ (16 * (7 + 1)) = 0)%Z as H8 by (apply Z.div_small; exact H).
  assert (v / 2 ^ (16 * 0) = v)%Z as Hv by (change (2 ^ (16 * 0))%Z with 1%Z; apply Z.div_1_r).
  change (0 + 1)%Z with 1%Z in H0. change (1 + 1)%Z with 2%Z in H1. change (2 + 1)%Z with 3%Z in H2.
  change (3 + 1)%Z with 4%Z in H3. change (4 + 1)%Z with 5%Z in H4. change (5 + 1)%Z with 6%Z in H5.
  change (6 + 1)%Z with 7%Z in H6. rewrite H8 in H7. rewrite Hv in H0.
  change (7 - Z.of_nat 0)%Z with 7%Z. change (7 - Z.of_nat 1)%Z with 6%Z. change (7 - Z.of_nat 2)%Z with 5%Z.
  change (7 - Z.of_nat 3)%Z with 4%Z. change (7 - Z.of_nat 4)%Z with 3%Z. change (7 - Z.of_nat 5)%Z with 2%Z.
  change (7 - Z.of_nat 6)%Z with 1%Z. change (7 - Z.of_nat 7)%Z with 0%Z. rewrite Hv.
  by rewrite <- H7, <- H6, <- H5, <- H4, <- H3, <- H2, <- H1, <- H0.
Qed.

Lemma groupsOf_range v : Forall groupRange (groupsOf v).
Proof. apply Forall_map, Forall_forall. intros i _. apply v6u16_range. Qed.

(** *** The characters of the text *)

Definition textChar (c : ascii) : bool := negb (bool_decide (hexValue c = None)) || char_eqb c ":".

Lemma appendHex_chars g : string_forallb textChar (appendHex g) = true.
Proof.
  assert (∀ i, textChar (hexNibble g i) = true) as H.
  { intros i. unfold textChar, hexNibble. by rewrite hexValue_digit by apply nibble_bounds. }
  unfold appendHex. rewrite !string_forallb_app.
  destruct (4096 <=? g)%Z, (256 <=? g)%Z, (16 <=? g)%Z; cbn [string_forallb]; by rewrite ?H.
Qed.

Lemma hexGroups_chars gs : string_forallb textChar (hexGroups gs) = true.
Proof.
  induction gs as [|g gs IH]; [done|]. rewrite hexGroups_cons, string_forallb_app, appendHex_chars.
  destruct gs; [done|]. cbn [isNil]. rewrite string_forallb_app, IH. done.
Qed.

Lemma textChar_noByte sep s : textChar sep = false → string_forallb textChar s = true → noByte sep s.
Proof.
  intros Hsep. unfold noByte. induction s as [|c s IH]; [done|]. cbn [string_forallb]. intros [Hc Hs]%andb_true_iff.
  rewrite (IH Hs), andb_true_r. apply negb_true_iff, bool_decide_eq_false. intros ->. congruence.
Qed.

(** What [appendTo6] writes. *)
Lemma appendTo6_cases v :
  let gs := groupsOf v in
  appendTo6 v = hexGroups gs ∨
  ∃ start n, goodRun gs start n ∧ (2 ≤ n)%nat ∧
    appendTo6 v = hexGroups (take start gs) +:+ "::" +:+ hexGroups (drop (start + n) gs).
Proof.
  cbv zeta. unfold appendTo6. fold (groupsOf v).
  pose proof (bestRun_good 0 (groupsOf v) (groupsOf v) 8 0 eq_refl (or_introl eq_refl)) as Hr.
  destruct (bestRun 0 (groupsOf v) 8 0) as [start [|n]]; [by left|]. right. exists start, (S n).
  cbn [fst snd] in Hr. split_and!; [done| |done]. destruct Hr as [?|[[? _] _]]; lia.
Qed.

Lemma appendTo6_chars v : string_forallb textChar (appendTo6 v) = true.
Proof.
  destruct (appendTo6_cases v) as [->|(start & n & _ & _ & ->)]; [apply hexGroups_chars|].
  by rewrite !string_forallb_app, !hexGroups_chars.
Qed.

Lemma hexGroups_head gs : gs ≠ [] → ∃ c r, hexGroups gs = String c r ∧ char_eqb c ":" = false.
Proof.
  destruct gs as [|g gs]; [done|]. intros _. rewrite hexGroups_cons. destruct (appendHex_head g) as (c & r & -> & Hv).
  rewrite append_cons. eexists _, _. split; [done|]. by apply hexValue_not_colon.
Qed.

Lemma hexGroups_empty gs : hexGroups gs = "" ↔ gs = [].
Proof. split; [|by intros ->]. intros H. destruct gs as [|g gs]; [done|]. by destruct (hexGroups_head (g :: gs)) as (c & r & E & _); [|congruence]. Qed.

Lemma not_leading c r : char_eqb c ":" = false → HasPrefix (String c r) "::" = false.
Proof.
  unfold HasPrefix, char_eqb. intros H. bool_hyps. cbn [String.prefix]. destruct (ascii_dec ":" c); [by subst|done].
Qed.

Lemma parse_text6 v : (0 ≤ v < two128)%Z → parseIPv6 (appendTo6 v) = Some (Addr6 v "").
Proof.
  intros Hv. unfold parseIPv6.
  rewrite (proj2 (Cut_missing "%" (appendTo6 v) (appendTo6 v) ""))
    by (split_and!; [done..|]; apply textChar_noByte; [done|apply appendTo6_chars]).
  cbn [andb]. pose proof (groupsOf_range v) as Hg. pose proof (groupsOf_value v Hv) as Hval.
  assert (length (groupsOf v) = 8%nat) as Hl by done. set (gs := groupsOf v) in *.
  destruct (appendTo6_cases v) as [->|(start & n & Hr & Hn & ->)]; fold gs; [|fold gs in Hr].
  - destruct (hexGroups_head gs) as (c & r & Hc & Hnc); [done|]. rewrite Hc, not_leading by done. cbn [andb]. rewrite <- Hc.
    rewrite ipv6Loop_end by (done || lia). cbn [app]. unfold finishIPv6. rewrite Hl. by rewrite Hval.
  - pose proof (split_run gs start n Hr ltac:(lia)) as Hsplit. destruct Hr as [?|[[_ Hb] _]]; [lia|].
    rewrite Hl in Hb. assert (length (take start gs) = start) as Hts by (apply length_take_le; lia).
    assert (length (drop (start + n) gs) = 8 - (start + n))%nat as Htd by (by rewrite length_drop, Hl).
    destruct start as [|start].
    + change (hexGroups (take 0 gs)) with "". rewrite append_nil_l. rewrite HasPrefix_append, (drop_append "::").
      cbn [andb]. rewrite Nat.add_0_l in *. rewrite take_0 in Hsplit. cbn [app] in Hsplit. case_bool_decide as He.
      * apply hexGroups_empty in He. rewrite He, app_nil_r in Hsplit. rewrite He in Htd. simpl in Htd.
        replace n with 8%nat in Hsplit by lia. f_equal. f_equal. by rewrite <- Hval, Hsplit.
      * rewrite ipv6Loop_end; [|by intros E; rewrite E in He|by apply Forall_drop|lia].
        cbn [app]. unfold finishIPv6. rewrite (proj2 (Nat.ltb_lt _ 8)) by lia. rewrite take_0, drop_0. cbn [app].
        replace (8 - length (drop n gs))%nat with n by lia. by rewrite <- Hsplit, Hval.
    + destruct (hexGroups_head (take (S start) gs)) as (c & r & Hc & Hnc).
      { intros E. rewrite E in Hts. discriminate Hts. }
      rewrite Hc, append_cons, not_leading by done. cbn [andb]. rewrite <- append_cons, <- Hc.
      rewrite ipv6Loop_ellipsis; [|by intros E; rewrite E in Hts|by apply Forall_take|lia].
      cbn [app]. rewrite Hts.
      assert (finishIPv6 (take (S start) gs ++ drop (S start + n) gs) (Some (S start)) "" = Some (Addr6 v "")) as Hf.
      { unfold finishIPv6. rewrite length_app, Hts, Htd. rewrite (proj2 (Nat.ltb_lt _ 8)) by lia.
        rewrite take_app_length', drop_app_length' by done.
        replace (8 - (S start + (8 - (S start + n))))%nat with n by lia. by rewrite <- Hsplit, Hval. }
      case_bool_decide as He.
      * apply hexGroups_empty in He. by rewrite He, app_nil_r in Hf.
      * rewrite ipv6Loop_end; [done|by intros E; rewrite E in He|by apply Forall_drop|lia].
Qed.

(** ** Decimal numbers *)

Lemma pretty_char_value x : (x < 10)%N → is_digit (pretty_N_char x) = true ∧ digitValue (pretty_N_char x) = Z.of_N x.
Proof.
  intros H. rewrite <- (N2Nat.id x) in *. generalize dependent (N.to_nat x). intros n Hn.
  do 10 (destruct n as [|n]; [done|]). lia.
Qed.

Lemma pretty_go_value x s acc :
  string_forallb is_digit (pretty_N_go x s) = string_forallb is_digit s ∧
  ∃ k, digitsValue (pretty_N_go x s) acc = digitsValue s (acc * k + Z.of_N x).
Proof.
  revert s. induction (N.lt_wf_0 x) as [x _ IH]; intros s.
  assert (x = 0 ∨ 0 < x)%N as [->|Hx] by lia.
  { rewrite pretty_N_go_0. split; [done|]. exists 1%Z. f_equal. lia. }
  rewrite pretty_N_go_step by done.
  destruct (IH (x `div` 10)%N (N.div_lt x 10 Hx eq_refl) (String (pretty_N_char (x `mod` 10)) s)) as (-> & k & ->).
  destruct (pretty_char_value (x `mod` 10)) as [Hd Hv]; [by apply N.mod_lt|].
  cbn [string_forallb digitsValue]. rewrite Hd. split; [done|]. exists (k * 10)%Z. f_equal.
  unfold digitValue in Hv. rewrite Hv, N2Z.inj_mod, N2Z.inj_div. change (Z.of_N 10) with 10%Z.
  pose proof (Z.div_mod (Z.of_N x) 10). lia.
Qed.

Lemma decimal_digits b : string_forallb is_digit (decimal b) = true.
Proof. unfold decimal, pretty, pretty_N. case_decide; [done|]. by rewrite (proj1 (pretty_go_value _ _ 0)). Qed.

Lemma decimal_value b : (0 ≤ b)%Z → digitsValue (decimal b) 0 = Some b.
Proof.
  intros Hb. unfold decimal, pretty, pretty_N. case_decide as H; [simpl; f_equal; lia|].
  destruct (pretty_go_value (Z.to_N b) "" 0) as (_ & k & ->). simpl. f_equal. lia.
Qed.

Lemma ParseUint_decimal b bits : (0 ≤ b < 2 ^ bits)%Z → ParseUint (decimal b) bits = Some b.
Proof.
  intros Hb. pose proof (decimal_nonempty b). unfold ParseUint. destruct (decimal b) eqn:E; [done|]. rewrite <- E.
  rewrite decimal_value by lia. cbn. by rewrite (proj2 (Z.ltb_lt _ _)) by lia.
Qed.

(** ** Round trip: addresses and prefixes *)

Definition plainChar (c : ascii) : bool := negb (char_eqb c "." || char_eqb c ":" || char_eqb c "%").

Lemma parseAddrFrom_skip a s whole :
  string_forallb plainChar a = true → parseAddrFrom (a +:+ s) whole = parseAddrFrom s whole.
Proof.
  induction a as [|c a IH]; [done|]. cbn [string_forallb]. intros [Hc Ha]%andb_true_iff. rewrite append_cons.
  cbn [parseAddrFrom]. unfold plainChar in Hc. rewrite negb_true_iff, !orb_false_iff in Hc.
  destruct Hc as [[-> ->] ->]. by apply IH.
Qed.

Lemma digit_plain c : is_digit c = true → plainChar c = true.
Proof.
  unfold plainChar, char_eqb. intros H. rewrite negb_true_iff, !orb_false_iff. split_and!;
    apply bool_decide_eq_false; by intros ->.
Qed.

Lemma textChar_parse s whole :
  string_forallb textChar s = true → ¬ noByte ":" s → parseAddrFrom s whole = parseIPv6 whole.
Proof.
  unfold noByte. induction s as [|c s IH]; [done|]. cbn [string_forallb parseAddrFrom].
  intros [Hc Hs]%andb_true_iff Hn. unfold textChar in Hc. destruct (char_eqb c ":") eqn:Ec.
  - unfold char_eqb in Ec. by apply bool_decide_eq_true in Ec as ->.
  - rewrite orb_false_r in Hc. destruct (hexValue_not_colon c) as (_ & -> & ->); [by bool_hyps|]. by apply IH.
Qed.

Lemma appendTo6_colon v : ¬ noByte ":" (appendTo6 v).
Proof.
  unfold noByte. assert (∀ a b, string_forallb (λ c, negb (char_eqb c ":")) (a +:+ String ":" b) ≠ true) as H.
  { intros a b. rewrite string_forallb_app. cbn. by rewrite andb_false_r. }
  destruct (appendTo6_cases v) as [->|(start & n & _ & _ & ->)]; [|apply H].
  change (groupsOf v) with (v6u16 v 0 :: drop 1 (groupsOf v)). rewrite hexGroups_cons. apply H.
Qed.

Definition plainAddr (a : Addr) : Prop := wellFormedAddr a ∧ a ≠ AddrZero ∧ Zone a = "" ∧ Is4In6 a = false.

Lemma ParseAddr_text a : plainAddr a → ParseAddr (AppendTo a) = Some a.
Proof.
  intros (Hw & Hz & Hzone & H46). unfold ParseAddr. destruct a as [|v|v zone]; [done|..].
  - cbn [AppendTo]. transitivity (parseIPv4 (appendTo4 v)); [|by apply parse_text4].
    unfold appendTo4 at 1. rewrite parseAddrFrom_skip; [done|].
    eapply string_forallb_weaken; [apply digit_plain|apply decimal_digits].
  - cbn in Hzone. subst zone. cbn [AppendTo]. rewrite H46. unfold withZone. rewrite bool_decide_eq_true_2, append_nil_r by done.
    rewrite textChar_parse; [by apply parse_text6|apply appendTo6_chars|apply appendTo6_colon].
Qed.

Lemma cutLast_found sep a b : noByte sep b → cutLast sep (a +:+ String sep b) = Some (a, b).
Proof.
  intros Hb. assert (cutLast sep b = None) as Hn.
  { unfold noByte in Hb. induction b as [|c b IH]; [done|]. cbn [string_forallb cutLast] in *.
    apply andb_true_iff in Hb as [Hc Hb]. rewrite (IH Hb). by destruct (char_eqb c sep). }
  induction a as [|c a IH].
  - rewrite append_nil_l. cbn [cutLast]. rewrite Hn. unfold char_eqb. by rewrite bool_decide_eq_true_2.
  - rewrite append_cons. cbn [cutLast]. by rewrite IH.
Qed.

Lemma bits_leading b : (0 ≤ b ≤ 128)%Z → (1 <? String.length (decimal b))%nat && negb (leadingDigit (decimal b)) = false.
Proof.
  intros Hb. rewrite <- (Z2Nat.id b) by lia. assert (Z.to_nat b < 129)%nat as Hn by lia.
  generalize dependent (Z.to_nat b). clear. intros n Hn. do 129 (destruct n as [|n]; [done|]). lia.
Qed.

Lemma ParsePrefix_text a bits :
  plainAddr a → (0 ≤ bits ≤ bitLen a)%Z → ParsePrefix (prefixString (PrefixFrom a bits)) = Some (PrefixFrom a bits).
Proof.
  intros Ha Hb. assert (PrefixFrom a bits = mkPrefix a bits) as Hp.
  { destruct Ha as (_ & Hz & Hzone & _). destruct a as [|v|v zone]; [done|..]; cbn in *; subst;
      rewrite (proj2 (Z.ltb_ge bits 0)), (proj2 (Z.ltb_ge _ bits)) by lia; done. }
  rewrite Hp. unfold prefixString, PrefixIsValid. cbn [pf_Bits pf_Addr].
  rewrite (proj2 (Z.leb_le 0 bits)), (proj2 (Z.leb_le bits _)), bool_decide_eq_false_2 by (lia || apply Ha). cbn [andb negb].
  unfold ParsePrefix. rewrite append_cons, append_nil_l, cutLast_found.
  2: { unfold noByte. eapply string_forallb_weaken; [|apply decimal_digits]. intros c Hc. apply negb_true_iff, bool_decide_eq_false.
       by intros ->. }
  cbn [mbind option_bind]. rewrite ParseAddr_text by done. cbn [mbind option_bind].
  rewrite (bool_decide_eq_true_2 (Zone a = "")) by apply Ha. cbn [negb]. rewrite andb_false_r.
  assert (bitLen a ≤ 128)%Z by (destruct a; simpl; lia). rewrite bits_leading by lia.
  rewrite ParseUint_decimal by lia. cbn [mbind option_bind]. rewrite (proj2 (Z.ltb_ge _ bits)) by lia. by rewrite Hp.
Qed.

(** ** Parsed addresses are in range *)

Lemma parseIPv4Fields_wf s fields val digLen atField l :
  parseIPv4Fields s fields val digLen atField = Some l →
  Forall (λ b, 0 ≤ b < 256)%Z fields → (0 ≤ val < 256)%Z → (length fields ≤ 3)%nat →
  length l = 4%nat ∧ Forall (λ b, 0 ≤ b < 256)%Z l.
Proof.
  revert fields val digLen atField. induction s as [|c s IH]; intros fields val digLen atField H Hf Hv Hl;
    cbn [parseIPv4Fields] in H.
  - destruct (length fields <? 3)%nat eqn:E; [done|]. bool_hyps. injection H as <-. split.
    + rewrite length_app, length_rev. simpl. lia.
    + apply Forall_app_2; [by apply Forall_rev|by apply Forall_singleton].
  - assert (0 ≤ digitValue c)%Z by (unfold digitValue; lia). destruct (is_digit c).
    + destruct (_ && _); [done|]. cbv zeta in H. destruct (255 <? _)%Z eqn:E; [done|]. bool_hyps.
      by apply IH in H; [|done|lia|done].
    + destruct (char_eqb c "."); [|done]. destruct (atField || _); [done|]. destruct (_ =? 3)%nat eqn:E; [done|]. bool_hyps.
      apply IH in H; [done|by constructor|lia|simpl; lia].
Qed.

Lemma bigEndianValue_range l : length l = 4%nat → Forall (λ b, 0 ≤ b < 256)%Z l → (0 ≤ bigEndianValue l < two32)%Z.
Proof.
  destruct l as [|a [|b [|c [|d [|]]]]]; try done. intros _. rewrite !Forall_cons. unfold bigEndianValue, two32. cbn [foldl]. lia.
Qed.

Lemma hexValue_nonneg c d : hexValue c = Some d → (0 ≤ d)%Z.
Proof. unfold hexValue, digitValue. intros H. repeat case_match; simplify_eq; lia. Qed.

Lemma hexNumber_range s off acc g k rest :
  hexNumber s off acc = Some (g, k, rest) → (0 ≤ acc < 65536)%Z → groupRange g.
Proof.
  revert off acc. induction s as [|c s IH]; intros off acc H Ha; cbn [hexNumber] in H; [by simplify_eq|].
  destruct (hexValue c) as [d|] eqn:E; [|by simplify_eq]. apply hexValue_nonneg in E. cbv zeta in H.
  destruct (3 <? off)%nat; [done|]. destruct (65535 <? _)%Z eqn:E2; [done|]. bool_hyps. apply IH in H; [done|lia].
Qed.

Lemma ipv6Loop_wf room s groups ellipsis gs e rest :
  ipv6Loop room s groups ellipsis = Some (gs, e, rest) → Forall groupRange groups → (length groups + room = 8)%nat →
  (∀ i, ellipsis = Some i → (i ≤ length groups)%nat) →
  Forall groupRange gs ∧ (length gs ≤ 8)%nat ∧ (∀ i, e = Some i → (i ≤ length gs)%nat).
Proof.
  revert s groups ellipsis. induction room as [|room IH]; intros s groups ellipsis H Hg Hl He; cbn [ipv6Loop] in H.
  { simplify_eq. split_and!; [done|lia|done]. }
  destruct (hexNumber s 0 0) as [[[acc off] rest']|] eqn:Eh; [|done]. apply hexNumber_range in Eh; [|lia].
  destruct (off =? 0)%nat; [done|]. cbv zeta in H.
  assert (Forall groupRange (groups ++ [acc])) as Hg' by (apply Forall_app_2; [done|by apply Forall_singleton]).
  assert (length (groups ++ [acc]) = S (length groups)) as Hl' by (rewrite length_app; simpl; lia).
  assert (∀ i, ellipsis = Some i → (i ≤ length (groups ++ [acc]))%nat) as He' by (intros i Hi; specialize (He i Hi); lia).
  destruct rest' as [|c r1]; [simplify_eq; split_and!; [done|lia|done]|].
  destruct (char_eqb c ".").
  { destruct (_ && _); [done|]. destruct (S room <? 2)%nat eqn:Er; [done|]. bool_hyps.
    destruct (parseIPv4Fields s [] 0 0 true) as [l|] eqn:E4; [|done].
    apply parseIPv4Fields_wf in E4 as [_ Hr]; [|done|lia|simpl; lia].
    destruct l as [|a [|b [|x [|y [|]]]]]; try done. simplify_eq. rewrite !Forall_cons in Hr. unfold groupRange in *.
    split_and!.
    - apply Forall_app_2; [done|]. repeat constructor; lia.
    - rewrite length_app. simpl. lia.
    - intros i Hi. specialize (He i Hi). rewrite length_app. lia. }
  destruct (char_eqb c ":"); [|done]. destruct r1 as [|c2 r2]; [done|]. destruct (char_eqb c2 ":").
  - destruct (bool_decide (ellipsis = None)); [|done].
    assert (∀ i, Some (length (groups ++ [acc])) = Some i → (i ≤ length (groups ++ [acc]))%nat) as Hn
      by (intros i Hi; by simplify_eq).
    destruct (bool_decide (r2 = "")); [simplify_eq; split_and!; [done|lia|done]|].
    apply (IH _ _ _ H); [done|lia|done].
  - apply (IH _ _ _ H); [done|lia|done].
Qed.

Lemma groupsValue_range gs : length gs = 8%nat → Forall groupRange gs → (0 ≤ groupsValue gs < two128)%Z.
Proof.
  do 8 (destruct gs as [|? gs]; [done|]). destruct gs; [|done]. intros _. rewrite !Forall_cons.
  unfold groupRange, groupsValue, two128. cbn [foldl]. lia.
Qed.

Lemma ParseAddr_wf s a : ParseAddr s = Some a → wellFormedAddr a ∧ a ≠ AddrZero.
Proof.
  unfold ParseAddr. generalize s at 2 as whole. induction s as [|c s IH]; intros whole H; cbn [parseAddrFrom] in H; [done|].
  destruct (char_eqb c "."); [|destruct (char_eqb c ":"); [|destruct (char_eqb c "%"); [done|by eapply IH]]].
  - unfold parseIPv4 in H. destruct (parseIPv4Fields _ _ _ _ _) as [l|] eqn:E; [|done]. cbn in H. simplify_eq.
    apply parseIPv4Fields_wf in E as [Hl Hr]; [|done|lia|simpl; lia]. split; [|done]. by apply bigEndianValue_range.
  - unfold parseIPv6 in H. destruct (Cut "%" whole) as [[t zone] found]. destruct (found && _); [done|]. cbv zeta in H.
    destruct (HasPrefix t "::" && _); [simplify_eq; done|].
    destruct (ipv6Loop _ _ _ _) as [[[gs e] rest]|] eqn:E; [|done].
    apply ipv6Loop_wf in E as (Hg & Hl & He); [|done|done|by destruct (HasPrefix t "::"); intros i Hi; simplify_eq].
    destruct rest; [|done]. unfold finishIPv6 in H. destruct (length gs <? 8)%nat eqn:E8; bool_hyps.
    + destruct e as [e|]; [|done]. injection H as <-. split; [|done]. specialize (He e eq_refl).
      apply groupsValue_range.
      * rewrite !length_app, length_take, length_replicate, length_drop. lia.
      * repeat apply Forall_app_2; [by apply Forall_take| |by apply Forall_drop].
        apply Forall_replicate. done.
    + destruct e; [done|]. injection H as <-. split; [|done]. apply groupsValue_range; [lia|done].
Qed.
