(* ===== verification/VpnProfile.v ===== *)
(** * WireGuard profiles

    Models [src/internal/vpn/profile.go]: the strict parser of a Proton
    WireGuard profile, the policy on its addresses and endpoint, and the
    configuration text that is handed to a guest.  The guest parses that text
    with the same parser; [profile_config_roundtrip] shows it reads back the
    profile with the resolved endpoint.  The protected memory of a key
    ([internal/secret]) may be unavailable, which is the argument [protected]
    of the parser; the Unicode case table is the parameter [unicodeLower]. *)

From Stdlib Require Import ZArith Lia Ascii.
From stdpp Require Import strings base tactics option gmap pretty list.
From S2P Require Import Prelude GoText Netip NetipText.

Open Scope string_scope.
Open Scope list_scope.

(** ** Data *)

Definition MaximumProfileBytes : Z := 65536.
Definition maximumProfileLines : nat := 256.
Definition maximumAddresses : nat := 8.
Definition maximumDNSServers : nat := 8.

Inductive section := sectionNone | sectionInterface | sectionPeer.

#[global] Instance section_eq_dec : EqDecision section.
Proof. solve_decision. Defined.

Record endpoint := mkEndpoint { ep_host : string; ep_literal : Addr; ep_port : Z }.

Record profileState := mkProfile {
  pr_privateKey : list Z;
  pr_addresses : list Prefix;
  pr_dnsServers : list Addr;
  pr_publicKey : list Z;
  pr_allowedV6 : bool;
  pr_endpoint : endpoint;
  pr_destroyed : bool
}.

Record Inspection := mkInspection {
  in_SchemaVersion : Z;
  in_IPv4Enabled : bool;
  in_IPv6Enabled : bool;
  in_InterfaceAddressCount : Z;
  in_DNSServerCount : Z
}.

Inductive profile_error :=
| invalidProfile | ErrCallbackRequired | profileContextError | profileCallbackError
| endpointUnresolved | profileNotFound | profileNotReady | profileRotated | profileLimit | storeClosed.

#[global] Instance profile_error_eq_dec : EqDecision profile_error.
Proof. solve_decision. Defined.

(** ** Base64, [base64.StdEncoding.Strict()] *)

Definition base64Char (v : Z) : ascii :=
  if (v <? 26)%Z then ascii_of_N (65 + Z.to_N v)
  else if (v <? 52)%Z then ascii_of_N (71 + Z.to_N v)
  else if (v <? 62)%Z then ascii_of_N (Z.to_N v - 4)
  else if (v =? 62)%Z then "+"%char else "/"%char.

Definition base64Value (c : ascii) : option Z :=
  if is_upper c then Some (Z.of_N (code c - 65))
  else if is_lower c then Some (Z.of_N (code c - 71))
  else if is_digit c then Some (Z.of_N (code c + 4))
  else if char_eqb c "+" then Some 62%Z
  else if char_eqb c "/" then Some 63%Z
  else None.

Fixpoint encodeBase64 (bytes : list Z) : string :=
  match bytes with
  | a :: b :: c :: rest =>
      String (base64Char (a / 4)) (String (base64Char ((a mod 4) * 16 + b / 16))
        (String (base64Char ((b mod 16) * 4 + c / 64)) (String (base64Char (c mod 64)) (encodeBase64 rest))))
  | [a; b] =>
      String (base64Char (a / 4)) (String (base64Char ((a mod 4) * 16 + b / 16))
        (String (base64Char ((b mod 16) * 4)) "="))
  | [a] => String (base64Char (a / 4)) (String (base64Char ((a mod 4) * 16)) "==")
  | [] => ""
  end%Z.

(** Padding ends the input; the bits it leaves over must be zero.  Line breaks
    are skipped. *)
Fixpoint decodeQuanta (s : string) : option (list Z) :=
  match s with
  | EmptyString => Some []
  | String c0 (String c1 (String c2 (String c3 rest))) =>
      a ← base64Value c0;
      b ← base64Value c1;
      let first := (a * 4 + b / 16)%Z in
      if char_eqb c2 "=" then
        if char_eqb c3 "=" && bool_decide (rest = "") && (b mod 16 =? 0)%Z then Some [first] else None
      else
        c ← base64Value c2;
        let second := ((b mod 16) * 16 + c / 4)%Z in
        if char_eqb c3 "=" then
          if bool_decide (rest = "") && (c mod 4 =? 0)%Z then Some [first; second] else None
        else
          d ← base64Value c3;
          more ← decodeQuanta rest;
          Some (first :: second :: ((c mod 4) * 64 + d)%Z :: more)
  | _ => None
  end.

Fixpoint skipBreaks (s : string) : string :=
  match s with
  | EmptyString => EmptyString
  | String c r =>
      if bool_decide (c = "010"%char) || bool_decide (c = "013"%char) then skipBreaks r else String c (skipBreaks r)
  end.

Definition decodeBase64 (s : string) : option (list Z) := decodeQuanta (skipBreaks s).

Definition allZero (value : list Z) : bool := forallb (λ b, (b =? 0)%Z) value.

Definition decodeKey (value : string) : option (list Z) :=
  if negb (String.length value =? 44)%nat then None
  else
    decoded ← decodeBase64 value;
    if negb (length decoded =? 32)%nat || allZero decoded then None else Some decoded.

(** ** Address policy *)

Definition cidr (s : string) : Prefix := default (mkPrefix AddrZero (-1)) (ParsePrefix s).

Definition forbiddenPublicEndpointPrefixes : list Prefix := Eval vm_compute in map cidr
  ["0.0.0.0/8"; "10.0.0.0/8"; "100.64.0.0/10"; "127.0.0.0/8"; "169.254.0.0/16"; "172.16.0.0/12"; "192.0.0.0/24";
   "192.0.2.0/24"; "192.31.196.0/24"; "192.52.193.0/24"; "192.88.99.0/24"; "192.168.0.0/16"; "192.175.48.0/24";
   "198.18.0.0/15"; "198.51.100.0/24"; "203.0.113.0/24"; "224.0.0.0/4"; "240.0.0.0/4";
   "::/128"; "::1/128"; "::ffff:0:0/96"; "64:ff9b::/96"; "64:ff9b:1::/48"; "100::/64"; "100:0:0:1::/64"; "2001::/23";
   "2001:db8::/32"; "2002::/16"; "2620:4f:8000::/48"; "3fff::/20"; "5f00::/16"; "fc00::/7"; "fe80::/10"; "ff00::/8"].

Definition allocatedIPv6GlobalUnicast : Prefix := Eval vm_compute in cidr "2000::/3".

Definition publicEndpointAddress (address : Addr) : bool :=
  if negb (IsValid address) || negb (bool_decide (Zone address = "")) || Is4In6 address || negb (IsGlobalUnicast address)
  then false
  else if Is6 address && negb (MaskedContains allocatedIPv6GlobalUnicast address) then false
  else negb (existsb (λ p, MaskedContains p address) forbiddenPublicEndpointPrefixes).

Definition safeTunnelAddress (address : Addr) : bool :=
  if negb (IsValid address) || negb (bool_decide (Zone address = "")) || Is4In6 address || negb (IsGlobalUnicast address)
  then false
  else IsPrivate address || publicEndpointAddress address.

Definition safeInterfaceAddress (prefix : Prefix) : bool :=
  let address := pf_Addr prefix in
  if negb (PrefixIsValid prefix) || negb (safeTunnelAddress address) then false
  else if Is4 address then (pf_Bits prefix =? 32)%Z
  else Is6 address && (pf_Bits prefix =? 128)%Z.

Definition safeDNSAddress (address : Addr) : bool := safeTunnelAddress address.

(** ** Fields *)

Fixpoint trimAll (parts : list string) : option (list string) :=
  match parts with
  | [] => Some []
  | part :: rest =>
      let trimmed := TrimSpace part in
      if bool_decide (trimmed = "") then None else more ← trimAll rest; Some (trimmed :: more)
  end.

Definition splitCSV (value : string) (maximum : nat) : option (list string) :=
  let parts := Split "," value in
  if isNil parts || (maximum <? length parts)%nat then None else trimAll parts.

Fixpoint addressLoop (parts : list string) (addresses : list Prefix) : option (list Prefix) :=
  match parts with
  | [] => Some addresses
  | part :: rest =>
      prefix ← ParsePrefix part;
      if negb (safeInterfaceAddress prefix) then None
      else if bool_decide (prefix ∈ addresses) then None
      else addressLoop rest (addresses ++ [prefix])
  end.

Definition parseAddresses (value : string) : option (list Prefix * bool) :=
  parts ← splitCSV value maximumAddresses;
  addresses ← addressLoop parts [];
  if existsb (λ p, Is4 (pf_Addr p)) addresses
  then Some (addresses, existsb (λ p, negb (Is4 (pf_Addr p))) addresses)
  else None.

Fixpoint dnsLoop (parts : list string) (servers : list Addr) : option (list Addr) :=
  match parts with
  | [] => Some servers
  | part :: rest =>
      address ← ParseAddr part;
      if Is4In6 address then None
      else if negb (safeDNSAddress address) then None
      else if bool_decide (address ∈ servers) then None
      else dnsLoop rest (servers ++ [address])
  end.

Definition parseDNS (value : string) : option (list Addr * bool) :=
  parts ← splitCSV value maximumDNSServers;
  servers ← dnsLoop parts [];
  Some (servers, existsb Is6 servers).

(** The result is whether IPv6 is routed. *)
Definition parseAllowedIPs (value : string) : option bool :=
  parts ← splitCSV value 2;
  match parts with
  | [] => None
  | one :: more =>
      first ← ParsePrefix one;
      if negb (bool_decide (first = mkPrefix (Addr4 0) 0)) then None
      else match more with
           | [] => Some false
           | two :: _ =>
               second ← ParsePrefix two;
               if negb (bool_decide (second = mkPrefix (Addr6 0 "") 0)) then None else Some true
           end
  end.

(** *** Endpoints *)

Definition hasByte (c : ascii) (s : string) : bool := string_existsb (char_eqb c) s.

(** [net.SplitHostPort] *)
Definition SplitHostPort (hostport : string) : option (string * string) :=
  '(before, port) ← cutLast ":" hostport;
  if HasPrefix hostport "[" then
    let '(inside, after, found) := Cut "]" hostport in
    if negb found || negb (String.length inside + 1 =? String.length before)%nat then None
    else if hasByte "[" (drop_string 1 hostport) || hasByte "]" after then None
    else Some (drop_string 1 inside, port)
  else if hasByte ":" before then None
  else if hasByte "[" hostport || hasByte "]" hostport then None
  else Some (before, port).

Definition labelChar (c : ascii) : bool := is_lower c || is_digit c || char_eqb c "-".

Definition firstChar (s : string) : option ascii := match s with String c _ => Some c | EmptyString => None end.
Fixpoint lastChar (s : string) : option ascii :=
  match s with
  | EmptyString => None
  | String c EmptyString => Some c
  | String _ r => lastChar r
  end.

Definition goodLabel (label : string) : bool :=
  negb ((String.length label =? 0)%nat || (63 <? String.length label)%nat ||
        bool_decide (firstChar label = Some "-"%char) || bool_decide (lastChar label = Some "-"%char)) &&
  string_forallb labelChar label.

Definition safeEndpointHostname (host : string) : bool :=
  if (String.length host =? 0)%nat || (253 <? String.length host)%nat || bool_decide (host = "localhost") ||
     HasSuffix host ".localhost" || HasSuffix host ".local" || HasSuffix host ".internal" then false
  else
    let labels := Split "." host in
    (2 <=? length labels)%nat && forallb goodLabel labels.

Section Parser.
Context (unicodeLower : N → N).

Definition parseEndpoint (value : string) : option endpoint :=
  if (512 <? String.length value)%nat then None
  else
    '(host, portText) ← SplitHostPort value;
    if bool_decide (host = "") || negb (string_forallb is_digit portText) then None
    else
      port ← ParseUint portText 16;
      if (port =? 0)%Z then None
      else match ParseAddr host with
           | Some literal =>
               if Is4In6 literal || negb (publicEndpointAddress literal) then None
               else Some (mkEndpoint "" literal port)
           | None =>
               let host := ToLower unicodeLower (TrimSuffix host ".") in
               if safeEndpointHostname host then Some (mkEndpoint (host +:+ ".") AddrZero port) else None
           end.

(** ** The parser *)

Definition hasUnsafeControl (value : string) : bool :=
  string_existsb (λ c, (code c <? 32)%N && negb (code c =? 9)%N || (code c =? 127)%N) value.

Definition allowedField (current : section) (name : string) : bool :=
  match current with
  | sectionInterface => bool_decide (name ∈ ["PrivateKey"; "Address"; "DNS"])
  | sectionPeer => bool_decide (name ∈ ["PublicKey"; "AllowedIPs"; "Endpoint"])
  | sectionNone => false
  end.

Record parseState := mkParse {
  ps_current : section;
  ps_seenInterface : bool;
  ps_seenPeer : bool;
  ps_interface : gmap string string;
  ps_peer : gmap string string
}.

Definition fieldsIn (st : parseState) : gmap string string :=
  match ps_current st with sectionPeer => ps_peer st | _ => ps_interface st end.

Definition setField (st : parseState) (name value : string) : parseState :=
  match ps_current st with
  | sectionPeer => mkParse (ps_current st) (ps_seenInterface st) (ps_seenPeer st) (ps_interface st)
                     (<[name := value]> (ps_peer st))
  | _ => mkParse (ps_current st) (ps_seenInterface st) (ps_seenPeer st) (<[name := value]> (ps_interface st)) (ps_peer st)
  end.

(** One line of the body of the loop. *)
Definition parseLine (st : parseState) (raw : string) : option parseState :=
  let line := TrimSpace raw in
  if bool_decide (line = "") || bool_decide (firstChar line = Some "#"%char) then Some st
  else if hasUnsafeControl line then None
  else if bool_decide (firstChar line = Some "["%char) then
    if bool_decide (line = "[Interface]") then
      if ps_seenInterface st || ps_seenPeer st then None
      else Some (mkParse sectionInterface true (ps_seenPeer st) (ps_interface st) (ps_peer st))
    else if bool_decide (line = "[Peer]") then
      if negb (ps_seenInterface st) || ps_seenPeer st then None
      else Some (mkParse sectionPeer (ps_seenInterface st) true (ps_interface st) (ps_peer st))
    else None
  else
    let '(before, after, found) := Cut "=" line in
    if bool_decide (ps_current st = sectionNone) || negb found || bool_decide (before = "") then None
    else
      let name := TrimSpace before in
      let value := TrimSpace after in
      if bool_decide (value = "") || negb (allowedField (ps_current st) name) then None
      else if bool_decide (is_Some (fieldsIn st !! name)) then None
      else Some (setField st name value).

(** The text up to each newline; a final newline ends the last line. *)
Definition profileLines (raw : string) : list string :=
  match rev (Split "010" raw) with
  | EmptyString :: rest => rev rest
  | _ => Split "010" raw
  end.

Fixpoint parseLines (lineCount : nat) (st : parseState) (lines : list string) : option parseState :=
  match lines with
  | [] => Some st
  | line :: rest =>
      if (maximumProfileLines <? S lineCount)%nat then None
      else st ← parseLine st line; parseLines (S lineCount) st rest
  end.

Definition hasExactFields (fields : gmap string string) (names : list string) : bool :=
  (size fields =? length names)%nat &&
  forallb (λ name, match fields !! name with Some v => negb (bool_decide (v = "")) | None => false end) names.

Definition field (fields : gmap string string) (name : string) : string := default "" (fields !! name).

Definition parseOption (protected : bool) (raw : string) : option profileState :=
  if negb (ValidString raw) || hasByte "000" raw then None
  else
    st ← parseLines 0 (mkParse sectionNone false false ∅ ∅) (profileLines raw);
    let i := ps_interface st in
    let p := ps_peer st in
    if negb (ps_seenInterface st) || negb (ps_seenPeer st) || negb (hasExactFields i ["PrivateKey"; "Address"; "DNS"]) ||
       negb (hasExactFields p ["PublicKey"; "AllowedIPs"; "Endpoint"]) then None
    else
      privateKey ← decodeKey (field i "PrivateKey");
      if negb protected then None
      else
        '(addresses, hasV6Address) ← parseAddresses (field i "Address");
        '(dnsServers, hasV6DNS) ← parseDNS (field i "DNS");
        publicKey ← decodeKey (field p "PublicKey");
        allowedV6 ← parseAllowedIPs (field p "AllowedIPs");
        if (hasV6Address || hasV6DNS) && negb allowedV6 then None
        else
          peerEndpoint ← parseEndpoint (field p "Endpoint");
          Some (mkProfile privateKey addresses dnsServers publicKey allowedV6 peerEndpoint false).

(** Every failure of the parser is the same error. *)
Definition parse (protected : bool) (raw : string) : result profile_error profileState :=
  match parseOption protected raw with Some p => Ok p | None => Err invalidProfile end.

(** *** Reading *)

(** One call of a reader: the bytes it delivers, and how it returns. *)
Inductive readEnd := More | EOF | ReadFailed.

Fixpoint readLoop (reads : list (string * readEnd)) (raw : string) (emptyReads : nat) : option string :=
  if (MaximumProfileBytes + 1 <=? slen raw)%Z then Some raw
  else match reads with
       | [] => Some raw
       | (chunk, how) :: rest =>
           if (MaximumProfileBytes + 1 - slen raw <? slen chunk)%Z then None
           else
             let raw := raw +:+ chunk in
             match how with
             | ReadFailed => None
             | EOF => Some raw
             | More =>
                 if bool_decide (chunk = "") then
                   if (100 <=? S emptyReads)%nat then None else readLoop rest raw (S emptyReads)
                 else readLoop rest raw 0
             end
       end.

(** A reader that has no more reads is at its end. *)
Definition Parse (protected : bool) (reads : list (string * readEnd)) : result profile_error profileState :=
  match readLoop reads "" 0 with
  | None => Err invalidProfile
  | Some raw =>
      fail_if ((slen raw =? 0)%Z || (MaximumProfileBytes <? slen raw)%Z) with invalidProfile ;;
      parse protected raw
  end.

End Parser.

(** ** What a profile hands out *)

Record resolvedEndpoint := mkResolved { re_address : Addr; re_port : Z }.

#[global] Instance resolvedEndpoint_eq_dec : EqDecision resolvedEndpoint.
Proof. solve_decision. Defined.

Definition validResolved (e : resolvedEndpoint) : bool :=
  publicEndpointAddress (re_address e) && negb (re_port e =? 0)%Z.

Definition emptyEndpoint : endpoint := mkEndpoint "" AddrZero 0.

Definition InspectProfile (p : profileState) : result profile_error Inspection :=
  fail_if (pr_destroyed p) with invalidProfile ;;
  Ok (mkInspection 1 true (pr_allowedV6 p) (len (pr_addresses p)) (len (pr_dnsServers p))).

(** The keys are erased, every field is cleared. *)
Definition Destroy (p : profileState) : profileState :=
  if pr_destroyed p then p
  else mkProfile [] [] [] (replicate 32 0%Z) (pr_allowedV6 p) emptyEndpoint true.

Definition endpointSnapshot (p : profileState) : result profile_error endpoint :=
  fail_if (pr_destroyed p) with invalidProfile ;; Ok (pr_endpoint p).

(** *** Text *)

Definition lf : string := String "010" "".

Definition writeEndpoint (address : Addr) (port : Z) : string :=
  (if Is6 address then "[" else "") +:+ AppendTo address +:+ (if Is6 address then "]" else "") +:+ ":" +:+ decimal port.

Definition writePrefixes (values : list Prefix) : string := String.concat ", " (map prefixString values).
Definition writeAddresses (values : list Addr) : string := String.concat ", " (map AppendTo values).

Definition allowedText (allowedV6 : bool) : string := "0.0.0.0/0" +:+ (if allowedV6 then ", ::/0" else "").

(** The buffer of [withResolvedConfig]. *)
Definition resolvedConfig (p : profileState) (resolved : resolvedEndpoint) : string :=
  "[Interface]" +:+ lf +:+ "PrivateKey = " +:+ encodeBase64 (pr_privateKey p) +:+
  lf +:+ "Address = " +:+ writePrefixes (pr_addresses p) +:+
  lf +:+ "DNS = " +:+ writeAddresses (pr_dnsServers p) +:+
  lf +:+ lf +:+ "[Peer]" +:+ lf +:+ "PublicKey = " +:+ encodeBase64 (pr_publicKey p) +:+
  lf +:+ "AllowedIPs = " +:+ allowedText (pr_allowedV6 p) +:+
  lf +:+ "Endpoint = " +:+ writeEndpoint (re_address resolved) (re_port resolved) +:+ lf.

(** The text the callback receives; a call that fails does not reach it. *)
Definition withResolvedConfig (cancelled : bool) (p : profileState) (resolved : resolvedEndpoint) :
    result profile_error string :=
  fail_if cancelled with profileContextError ;;
  fail_if (negb (validResolved resolved)) with invalidProfile ;;
  fail_if (pr_destroyed p || negb (ep_port (pr_endpoint p) =? re_port resolved)%Z) with invalidProfile ;;
  let text := resolvedConfig p resolved in
  fail_if (MaximumProfileBytes <? slen text)%Z with invalidProfile ;;
  Ok text.

(** [WithGuestSetup] and the accessors of its view: what the callbacks see. *)
Record guestSetup := mkSetup {
  gs_endpoint : Addr * Z;
  gs_addresses : list Prefix;
  gs_dns : list Addr;
  gs_config : result profile_error string
}.

Definition wireGuardConfig (p : profileState) : string :=
  "[Interface]" +:+ lf +:+ "PrivateKey = " +:+ encodeBase64 (pr_privateKey p) +:+
  lf +:+ lf +:+ "[Peer]" +:+ lf +:+ "PublicKey = " +:+ encodeBase64 (pr_publicKey p) +:+
  lf +:+ "AllowedIPs = " +:+ allowedText (pr_allowedV6 p) +:+
  lf +:+ "Endpoint = " +:+ writeEndpoint (ep_literal (pr_endpoint p)) (ep_port (pr_endpoint p)) +:+ lf.

Definition WithWireGuardConfig (p : profileState) : result profile_error string :=
  let text := wireGuardConfig p in
  fail_if (MaximumProfileBytes <? slen text)%Z with invalidProfile ;; Ok text.

Definition WithGuestSetup (cancelled : bool) (p : profileState) : result profile_error guestSetup :=
  fail_if cancelled with profileContextError ;;
  fail_if (pr_destroyed p || negb (IsValid (ep_literal (pr_endpoint p))) ||
           negb (publicEndpointAddress (ep_literal (pr_endpoint p)))) with invalidProfile ;;
  Ok (mkSetup (ep_literal (pr_endpoint p), ep_port (pr_endpoint p)) (pr_addresses p) (pr_dnsServers p)
        (WithWireGuardConfig p)).

(** ** A profile *)

Definition demoKey : string := "yAnz5TF+lXXJte14tji3zlMNq+hd2rYUIgJBgB3fBmk=".

Definition demoText : string :=
  "# generated" +:+ lf +:+ " [Interface] " +:+ lf +:+ "PrivateKey=" +:+ demoKey +:+ lf +:+
  "Address = 10.2.0.2/32,  fd00::2/128" +:+ lf +:+ "DNS = 10.2.0.1" +:+ lf +:+ lf +:+
  "[Peer]" +:+ lf +:+ "PublicKey = " +:+ demoKey +:+ lf +:+ "AllowedIPs = 0.0.0.0/0, ::/0" +:+ lf +:+
  "Endpoint = Node-CH-1.protonvpn.net:51820".

Definition demoProfile : profileState := Eval vm_compute in
  match parse (λ cp, cp) true demoText with Ok p => p | Err _ => mkProfile [] [] [] [] false emptyEndpoint true end.

Example demoProfile_fields :
  parse (λ cp, cp) true demoText = Ok demoProfile ∧
  pr_addresses demoProfile = [mkPrefix (Addr4 167903234) 32; mkPrefix (Addr6 (0xfd00 * 2 ^ 112 + 2) "") 128] ∧
  pr_endpoint demoProfile = mkEndpoint "node-ch-1.protonvpn.net." AddrZero 51820 ∧
  encodeBase64 (pr_privateKey demoProfile) = demoKey.
Proof. split_and!; vm_compute; reflexivity. Qed.

(** ** Base64 round trip *)

Definition byteRange (b : Z) : Prop := (0 ≤ b < 256)%Z.

Lemma base64_char v : (0 ≤ v < 64)%Z →
  base64Value (base64Char v) = Some v ∧ char_eqb (base64Char v) "=" = false ∧ graphic (base64Char v) = true.
Proof.
  intros Hv. rewrite <- (Z2Nat.id v) by lia. assert (Z.to_nat v < 64)%nat as Hn by lia.
  generalize dependent (Z.to_nat v). clear. intros n Hn. do 64 (destruct n as [|n]; [by vm_compute|]). lia.
Qed.

Lemma decodeQuanta_encode n bytes :
  (length bytes ≤ n)%nat → Forall byteRange bytes → decodeQuanta (encodeBase64 bytes) = Some bytes.
Proof.
  revert bytes. induction n as [|n IH]; intros bytes Hn Hb; [by destruct bytes; [|simpl in Hn; lia]|].
  unfold byteRange in *.
  destruct bytes as [|a [|b [|c rest]]]; [done|..]; rewrite !Forall_cons in Hb; cbn [encodeBase64 decodeQuanta].
  - destruct (base64_char (a / 4)) as (-> & _); [Z.div_mod_to_equations; lia|].
    destruct (base64_char ((a mod 4) * 16)) as (-> & _); [Z.div_mod_to_equations; lia|]. cbn [mbind option_bind].
    change (char_eqb "=" "=") with true. rewrite bool_decide_eq_true_2 by done. cbn [andb].
    rewrite (proj2 (Z.eqb_eq _ 0)) by (Z.div_mod_to_equations; lia). do 2 f_equal. Z.div_mod_to_equations. lia.
  - destruct (base64_char (a / 4)) as (-> & _); [Z.div_mod_to_equations; lia|].
    destruct (base64_char ((a mod 4) * 16 + b / 16)) as (-> & _); [Z.div_mod_to_equations; lia|].
    destruct (base64_char ((b mod 16) * 4)) as (-> & -> & _); [Z.div_mod_to_equations; lia|]. cbn [mbind option_bind].
    change (char_eqb "=" "=") with true. rewrite bool_decide_eq_true_2 by done. cbn [andb].
    rewrite (proj2 (Z.eqb_eq _ 0)) by (Z.div_mod_to_equations; lia). f_equal. f_equal; [|f_equal]; Z.div_mod_to_equations; lia.
  - destruct (base64_char (a / 4)) as (-> & _); [Z.div_mod_to_equations; lia|].
    destruct (base64_char ((a mod 4) * 16 + b / 16)) as (-> & _); [Z.div_mod_to_equations; lia|].
    destruct (base64_char ((b mod 16) * 4 + c / 64)) as (-> & -> & _); [Z.div_mod_to_equations; lia|].
    destruct (base64_char (c mod 64)) as (-> & -> & _); [Z.div_mod_to_equations; lia|]. cbn [mbind option_bind].
    rewrite IH; [|simpl in Hn; lia|apply Hb]. cbn [mbind option_bind].
    f_equal. f_equal; [|f_equal; [|f_equal]]; Z.div_mod_to_equations; lia.
Qed.

Lemma encodeBase64_graphic n bytes :
  (length bytes ≤ n)%nat → Forall byteRange bytes → string_forallb graphic (encodeBase64 bytes) = true.
Proof.
  revert bytes. induction n as [|n IH]; intros bytes Hn Hb; [by destruct bytes; [|simpl in Hn; lia]|].
  unfold byteRange in *.
  destruct bytes as [|a [|b [|c rest]]]; [done|..]; rewrite !Forall_cons in Hb; cbn [encodeBase64 string_forallb];
    rewrite !(λ v H, proj2 (proj2 (base64_char v H))) by (Z.div_mod_to_equations; lia); [done..|].
  apply IH; [simpl in Hn; lia|apply Hb].
Qed.

Lemma skipBreaks_graphic s : string_forallb graphic s = true → skipBreaks s = s.
Proof.
  induction s as [|c s IH]; [done|]. cbn [string_forallb skipBreaks]. intros [Hc Hs]%andb_true_iff. rewrite (IH Hs).
  rewrite !bool_decide_eq_false_2; [done|by intros ->..].
Qed.

Definition goodKey (key : list Z) : Prop := length key = 32%nat ∧ Forall byteRange key ∧ allZero key = false.

Lemma decodeKey_encode key : goodKey key → decodeKey (encodeBase64 key) = Some key.
Proof.
  intros (Hl & Hb & Hz). unfold decodeKey, decodeBase64.
  assert (String.length (encodeBase64 key) = 44%nat) as ->.
  { clear Hb Hz. do 32 (destruct key as [|? key]; [discriminate Hl|]). by destruct key. }
  rewrite skipBreaks_graphic by (by eapply encodeBase64_graphic).
  rewrite (decodeQuanta_encode 32) by (done || lia). cbn [Nat.eqb negb mbind option_bind]. by rewrite Hl, Hz.
Qed.

Lemma base64Value_range c v : base64Value c = Some v → (0 ≤ v < 64)%Z.
Proof.
  destruct c as [[] [] [] [] [] [] [] []]; vm_compute; intros H; (discriminate H || (injection H as <-; split; done)).
Qed.

Lemma decodeQuanta_range n s bytes :
  (String.length s ≤ n)%nat → decodeQuanta s = Some bytes → Forall byteRange bytes.
Proof.
  revert s bytes. induction n as [|n IH]; intros s bytes Hn H.
  { destruct s; [|simpl in Hn; lia]. injection H as <-. constructor. }
  destruct s as [|c0 [|c1 [|c2 [|c3 rest]]]]; try done; cbn [decodeQuanta] in H; [injection H as <-; constructor|].
  destruct (base64Value c0) as [a|] eqn:Ea; [|done]. apply base64Value_range in Ea. cbn [mbind option_bind] in H.
  destruct (base64Value c1) as [b|] eqn:Eb; [|done]. apply base64Value_range in Eb. cbn [mbind option_bind] in H.
  unfold byteRange. destruct (char_eqb c2 "=").
  { destruct (_ && _); [|done]. injection H as <-. repeat constructor; Z.div_mod_to_equations; lia. }
  destruct (base64Value c2) as [c|] eqn:Ec; [|done]. apply base64Value_range in Ec. cbn [mbind option_bind] in H.
  destruct (char_eqb c3 "=").
  { destruct (_ && _); [|done]. injection H as <-. repeat constructor; Z.div_mod_to_equations; lia. }
  destruct (base64Value c3) as [d|] eqn:Ed; [|done]. apply base64Value_range in Ed. cbn [mbind option_bind] in H.
  destruct (decodeQuanta rest) as [more|] eqn:Er; [|done]. injection H as <-.
  repeat constructor; try (Z.div_mod_to_equations; lia). apply (IH rest); [simpl in Hn; lia|done].
Qed.

Lemma decodeKey_good value key : decodeKey value = Some key → goodKey key.
Proof.
  unfold decodeKey, decodeBase64. destruct (negb _); [done|]. destruct (decodeQuanta _) as [d|] eqn:E; [|done].
  cbn [mbind option_bind]. destruct (negb _ || _) eqn:Ec; [done|]. intros [= <-]. bool_hyps.
  split_and!; [done| |done]. by eapply decodeQuanta_range.
Qed.

(** ** What the parser accepts *)

Definition publicAddr (a : Addr) : Prop := plainAddr a ∧ publicEndpointAddress a = true.

(** A profile as the parser leaves it. *)
Record goodProfile (p : profileState) : Prop := {
  gp_private : goodKey (pr_privateKey p);
  gp_public : goodKey (pr_publicKey p);
  gp_addresses : Forall (λ f, ∃ a, plainAddr a ∧ f = PrefixFrom a (bitLen a) ∧ safeInterfaceAddress f = true) (pr_addresses p);
  gp_addresses_count : (length (pr_addresses p) ≤ maximumAddresses)%nat;
  gp_addresses_distinct : NoDup (pr_addresses p);
  gp_four : existsb (λ f, Is4 (pf_Addr f)) (pr_addresses p) = true;
  gp_dns : Forall (λ a, plainAddr a ∧ safeDNSAddress a = true) (pr_dnsServers p);
  gp_dns_count : (0 < length (pr_dnsServers p) ≤ maximumDNSServers)%nat;
  gp_dns_distinct : NoDup (pr_dnsServers p);
  gp_six : (existsb (λ f, negb (Is4 (pf_Addr f))) (pr_addresses p) || existsb Is6 (pr_dnsServers p)) &&
           negb (pr_allowedV6 p) = false;
  gp_port : (0 < ep_port (pr_endpoint p) < 65536)%Z;
  gp_endpoint : (publicAddr (ep_literal (pr_endpoint p)) ∧ ep_host (pr_endpoint p) = "") ∨
                (ep_literal (pr_endpoint p) = AddrZero ∧ ∃ host, safeEndpointHostname host = true ∧
                   ep_host (pr_endpoint p) = host +:+ ".");
  gp_live : pr_destroyed p = false
}.

Lemma trimAll_length parts trimmed : trimAll parts = Some trimmed → length trimmed = length parts.
Proof.
  revert trimmed. induction parts as [|part rest IH]; intros trimmed H; cbn [trimAll] in H; [by simplify_eq|].
  destruct (bool_decide _); [done|]. destruct (trimAll rest) as [more|]; [|done]. cbn in H. simplify_eq. cbn. by rewrite (IH more).
Qed.

Lemma splitCSV_length value maximum parts :
  splitCSV value maximum = Some parts → (0 < length parts ≤ maximum)%nat.
Proof.
  unfold splitCSV. destruct (isNil _ || _) eqn:E; [done|]. bool_hyps. intros ->%trimAll_length.
  pose proof (Split_nonempty "," value). destruct (Split "," value); [done|]. cbn [length] in *. lia.
Qed.

Lemma safeTunnelAddress_plain a : wellFormedAddr a → safeTunnelAddress a = true → plainAddr a.
Proof.
  unfold safeTunnelAddress. intros Hw H. destruct (_ || _) eqn:E; [done|]. bool_hyps. unfold IsValid in *. bool_hyps.
  by split_and!.
Qed.

Lemma publicEndpointAddress_plain a : wellFormedAddr a → publicEndpointAddress a = true → plainAddr a.
Proof.
  unfold publicEndpointAddress. intros Hw H. destruct (_ || _) eqn:E; [done|]. bool_hyps. unfold IsValid in *. bool_hyps.
  by split_and!.
Qed.

Definition goodInterfaceAddress (f : Prefix) : Prop :=
  ∃ a, plainAddr a ∧ f = PrefixFrom a (bitLen a) ∧ safeInterfaceAddress f = true.

Lemma ParsePrefix_interface part f :
  ParsePrefix part = Some f → safeInterfaceAddress f = true → goodInterfaceAddress f.
Proof.
  unfold ParsePrefix. intros H Hs. destruct (cutLast _ _) as [[address bitsStr]|]; [|done]. cbn [mbind option_bind] in H.
  destruct (ParseAddr address) as [ip|] eqn:Ea; [|done]. apply ParseAddr_wf in Ea as [Hw Hz]. cbn [mbind option_bind] in H.
  destruct (Is6 ip && _) eqn:E6; [done|]. destruct ((1 <? _)%nat && _); [done|].
  destruct (ParseUint bitsStr 63) as [bits|]; [|done]. cbn [mbind option_bind] in H.
  destruct (bitLen ip <? bits)%Z eqn:Eb; [done|]. injection H as <-. bool_hyps.
  assert (pf_Addr (PrefixFrom ip bits) = ip) as Hp.
  { destruct ip as [|v|v zone]; [done..|]. cbn in *. by bool_hyps; subst. }
  exists ip. unfold safeInterfaceAddress in Hs. rewrite Hp in Hs.
  destruct (_ || _) eqn:E; [done|]. bool_hyps. split_and!; [by apply safeTunnelAddress_plain| |].
  - f_equal. destruct ip as [|v|v zone]; [done|..]; cbn in *; destruct (bits <? 0)%Z eqn:E0; cbn in *; try done;
      rewrite (proj2 (Z.ltb_ge _ bits)) in * by lia; cbn in *; bool_hyps; lia.
  - unfold safeInterfaceAddress. rewrite Hp. by rewrite H, H0.
Qed.

Lemma addressLoop_good parts addresses result :
  addressLoop parts addresses = Some result → Forall goodInterfaceAddress addresses → NoDup addresses →
  Forall goodInterfaceAddress result ∧ NoDup result ∧ length result = (length addresses + length parts)%nat.
Proof.
  revert addresses. induction parts as [|part rest IH]; intros addresses H Hg Hn; cbn [addressLoop] in H.
  { simplify_eq. split_and!; [done..|cbn; lia]. }
  destruct (ParsePrefix part) as [f|] eqn:E; [|done]. cbn in H. destruct (safeInterfaceAddress f) eqn:Es; [|done]. cbn in H.
  case_bool_decide as Hin; [done|]. apply IH in H as (? & ? & ->).
  - split_and!; [done..|]. rewrite length_app. cbn. lia.
  - apply Forall_app_2; [done|]. apply Forall_singleton. by eapply ParsePrefix_interface.
  - by apply NoDup_snoc.
Qed.

Definition goodServer (a : Addr) : Prop := plainAddr a ∧ safeDNSAddress a = true.

Lemma dnsLoop_good parts servers result :
  dnsLoop parts servers = Some result → Forall goodServer servers → NoDup servers →
  Forall goodServer result ∧ NoDup result ∧ length result = (length servers + length parts)%nat.
Proof.
  revert servers. induction parts as [|part rest IH]; intros servers H Hg Hn; cbn [dnsLoop] in H.
  { simplify_eq. split_and!; [done..|cbn; lia]. }
  destruct (ParseAddr part) as [a|] eqn:E; [|done]. apply ParseAddr_wf in E as [Hw _]. cbn in H.
  destruct (Is4In6 a); [done|]. destruct (safeDNSAddress a) eqn:Es; [|done]. cbn in H.
  case_bool_decide as Hin; [done|]. apply IH in H as (? & ? & ->).
  - split_and!; [done..|]. rewrite length_app. cbn. lia.
  - apply Forall_app_2; [done|]. apply Forall_singleton. split; [by apply safeTunnelAddress_plain|done].
  - by apply NoDup_snoc.
Qed.

Lemma parseEndpoint_good unicodeLower value e :
  parseEndpoint unicodeLower value = Some e →
  (0 < ep_port e < 65536)%Z ∧
  ((publicAddr (ep_literal e) ∧ ep_host e = "") ∨
   (ep_literal e = AddrZero ∧ ∃ host, safeEndpointHostname host = true ∧ ep_host e = host +:+ ".")).
Proof.
  unfold parseEndpoint. destruct (512 <? _)%nat; [done|]. destruct (SplitHostPort value) as [[host portText]|]; [|done].
  cbn [mbind option_bind]. destruct (_ || _); [done|]. destruct (ParseUint portText 16) as [port|] eqn:Ep; [|done].
  apply ParseUint_range in Ep. cbn [mbind option_bind]. destruct (port =? 0)%Z eqn:E0; [done|]. bool_hyps.
  change (2 ^ 16)%Z with 65536%Z in Ep.
  destruct (ParseAddr host) as [literal|] eqn:Ea.
  - destruct (_ || _) eqn:E; [done|]. intros [= <-]. bool_hyps. cbn. split; [lia|]. left. split; [|done].
    apply ParseAddr_wf in Ea as [Hw _]. split; [by apply publicEndpointAddress_plain|done].
  - destruct (safeEndpointHostname _) eqn:E; [|done]. intros [= <-]. cbn. split; [lia|]. right. split; [done|]. eauto.
Qed.

(** The routes a configuration text asks for: the prefixes of the AllowedIPs
    entry of its peer section. *)
Definition routesOf (raw : string) : option (list Prefix) :=
  st ← parseLines 0 (mkParse sectionNone false false ∅ ∅) (profileLines raw);
  parts ← splitCSV (field (ps_peer st) "AllowedIPs") 2;
  mapM ParsePrefix parts.

(** Every IPv4 address, and every IPv6 address when [six]. *)
Definition fullTunnel (six : bool) : list Prefix :=
  mkPrefix (Addr4 0) 0 :: if six then [mkPrefix (Addr6 0 "") 0] else [].

Lemma parseAllowedIPs_full value six :
  parseAllowedIPs value = Some six → (parts ← splitCSV value 2; mapM ParsePrefix parts) = Some (fullTunnel six).
Proof.
  unfold parseAllowedIPs. intros H. destruct (splitCSV value 2) as [parts|] eqn:Es; [|done].
  apply splitCSV_length in Es. cbn [mbind option_bind] in *.
  destruct parts as [|one more]; [done|]. destruct (ParsePrefix one) as [first|] eqn:E1; [|done].
  cbn [mbind option_bind] in H. case_bool_decide as Hf; [|done]. subst first. cbn [negb] in H.
  destruct more as [|two [|three more]]; [|..|cbn in Es; lia].
  - injection H as <-. cbn. by rewrite E1.
  - destruct (ParsePrefix two) as [second|] eqn:E2; [|done]. cbn [mbind option_bind] in H.
    case_bool_decide as Hs; [|done]. subst second. injection H as <-. cbn. by rewrite E1; cbn; rewrite E2.
Qed.

(** A text the parser accepts asks for a full tunnel. *)
Lemma parse_full_tunnel unicodeLower protected raw p :
  parse unicodeLower protected raw = Ok p → routesOf raw = Some (fullTunnel (pr_allowedV6 p)).
Proof.
  unfold parse, parseOption, routesOf. intros H. destruct (negb _ || _); [done|].
  destruct (parseLines _ _ _) as [st|]; [|done]. cbn [mbind option_bind] in *. cbv zeta in H.
  destruct (negb _ || _ || _ || _); [done|].
  destruct (decodeKey (field (ps_interface st) _)) as [priv|]; [|done]. cbn [mbind option_bind] in H.
  destruct protected; [|done]. cbn [negb] in H.
  destruct (parseAddresses _) as [[addresses six]|]; [|done]. cbn [mbind option_bind] in H.
  destruct (parseDNS _) as [[servers sixd]|]; [|done]. cbn [mbind option_bind] in H.
  destruct (decodeKey (field (ps_peer st) _)) as [pub|]; [|done]. cbn [mbind option_bind] in H.
  destruct (parseAllowedIPs _) as [allowed|] eqn:Ea; [|done]. cbn [mbind option_bind] in H.
  destruct ((six || sixd) && negb allowed); [done|].
  destruct (parseEndpoint _ _) as [e|]; [|done]. cbn [mbind option_bind] in H. injection H as <-.
  by apply parseAllowedIPs_full.
Qed.

(** Everything the parser accepts is a good profile. *)
Lemma parse_good unicodeLower protected raw p : parse unicodeLower protected raw = Ok p → goodProfile p.
Proof.
  unfold parse, parseOption. intros H. destruct (negb _ || _); [done|].
  destruct (parseLines _ _ _) as [st|]; [|done]. cbn [mbind option_bind] in H. cbv zeta in H.
  destruct (negb _ || _ || _ || _); [done|].
  destruct (decodeKey (field (ps_interface st) _)) as [priv|] eqn:Ek; [|done]. cbn [mbind option_bind] in H.
  destruct protected; [|done]. cbn [negb] in H.
  destruct (parseAddresses _) as [[addresses six]|] eqn:Ea; [|done]. cbn [mbind option_bind] in H.
  destruct (parseDNS _) as [[servers sixd]|] eqn:Ed; [|done]. cbn [mbind option_bind] in H.
  destruct (decodeKey (field (ps_peer st) _)) as [pub|] eqn:Ep; [|done]. cbn [mbind option_bind] in H.
  destruct (parseAllowedIPs _) as [allowed|]; [|done]. cbn [mbind option_bind] in H.
  destruct ((six || sixd) && negb allowed) eqn:E6; [done|].
  destruct (parseEndpoint _ _) as [e|] eqn:Ee; [|done]. cbn [mbind option_bind] in H. injection H as <-.
  apply parseEndpoint_good in Ee as [Hport Hep].
  unfold parseAddresses in Ea. destruct (splitCSV _ _) as [parts|] eqn:Es in Ea; [|done]. cbn [mbind option_bind] in Ea.
  destruct (addressLoop _ _) as [l|] eqn:El in Ea; [|done]. cbn [mbind option_bind] in Ea.
  apply splitCSV_length in Es. apply addressLoop_good in El as (Hg & Hn & Hl); [|constructor..].
  destruct (existsb _ l) eqn:E4 in Ea; [|done]. injection Ea as <- <-.
  unfold parseDNS in Ed. destruct (splitCSV _ _) as [dparts|] eqn:Eds in Ed; [|done]. cbn [mbind option_bind] in Ed.
  destruct (dnsLoop _ _) as [d|] eqn:Edl in Ed; [|done]. cbn [mbind option_bind] in Ed. injection Ed as <- <-.
  apply splitCSV_length in Eds. apply dnsLoop_good in Edl as (Hdg & Hdn & Hdl); [|constructor..].
  split; cbn; try done; try (by eapply decodeKey_good); cbn in Hl, Hdl; lia.
Qed.

(** ** Reading back a rendered configuration *)

Definition printable (c : ascii) : bool := (32 <=? code c)%N && (code c <? 127)%N.

(** The characters of addresses, ports and prefixes. *)
Definition addrChar (c : ascii) : bool := textChar c || char_eqb c "." || char_eqb c "/".

Ltac by_char c := destruct c as [[] [] [] [] [] [] [] []]; vm_compute; (discriminate || reflexivity || auto).

Lemma addrChar_graphic c : addrChar c = true → graphic c = true.
Proof. by_char c. Qed.
Lemma digit_addrChar c : is_digit c = true → addrChar c = true.
Proof. by_char c. Qed.
Lemma textChar_addrChar c : textChar c = true → addrChar c = true.
Proof. unfold addrChar. by intros ->. Qed.
Lemma graphic_printable c : graphic c = true → printable c = true.
Proof. by_char c. Qed.
Lemma printable_ascii c : printable c = true → isASCII c = true.
Proof. by_char c. Qed.
Lemma graphic_not_space c : graphic c = true → spaceChar c = false.
Proof. by_char c. Qed.

Lemma addrChar_noByte sep s : addrChar sep = false → string_forallb addrChar s = true → noByte sep s.
Proof.
  intros Hsep. apply string_forallb_weaken. intros c Hc. apply negb_true_iff, bool_decide_eq_false. intros ->. congruence.
Qed.

Lemma decimal_addrChars b : string_forallb addrChar (decimal b) = true.
Proof. eapply string_forallb_weaken; [apply digit_addrChar|apply decimal_digits]. Qed.

Lemma AppendTo_addrChars a : plainAddr a → string_forallb addrChar (AppendTo a) = true ∧ AppendTo a ≠ "".
Proof.
  intros (_ & Hz & Hzone & H46). destruct a as [|v|v zone]; [done|..]; cbn [AppendTo].
  - unfold appendTo4. rewrite !string_forallb_app, !decimal_addrChars. split; [done|]. apply append_nonempty, decimal_nonempty.
  - cbn in Hzone. subst zone. rewrite H46. unfold withZone. rewrite bool_decide_eq_true_2, append_nil_r by done. split.
    + eapply string_forallb_weaken; [apply textChar_addrChar|apply appendTo6_chars].
    + intros E. apply (appendTo6_colon v). by rewrite E.
Qed.

Lemma prefix_addrChars f : goodInterfaceAddress f → string_forallb addrChar (prefixString f) = true ∧ prefixString f ≠ "".
Proof.
  intros (a & Ha & -> & Hs). unfold safeInterfaceAddress in Hs.
  destruct (PrefixIsValid (PrefixFrom a (bitLen a))) eqn:Ev; [|done]. unfold prefixString. rewrite Ev.
  assert (pf_Addr (PrefixFrom a (bitLen a)) = a) as ->.
  { destruct Ha as (_ & Hz & Hzone & _). destruct a as [|v|v zone]; [done..|]. cbn in *. by subst. }
  destruct (AppendTo_addrChars a Ha) as [Hc Hn]. rewrite !string_forallb_app, decimal_addrChars, Hc. split; [done|].
  by apply append_nonempty.
Qed.

(** *** Edges and lists *)

Lemma edged_graphic s : string_forallb graphic s = true → s ≠ "" → edged s.
Proof.
  intros Hg Hn. destruct s as [|c s]; [done|]. cbn [string_forallb] in Hg. apply andb_true_iff in Hg as [Hc Hs].
  apply graphic_not_space in Hc. destruct (String.length s) as [|n] eqn:El.
  { destruct s; [|done]. exists c, "", c. by left. }
  assert (∃ m d, s = m +:+ String d "" ∧ spaceChar d = false) as (m & d & -> & Hd); [|exists c, m, d; by right].
  clear Hn. revert n El. induction s as [|x s IH]; intros n El; [done|]. cbn [string_forallb] in Hs.
  apply andb_true_iff in Hs as [Hx Hs]. destruct s as [|y s].
  - exists "", x. split; [done|]. by apply graphic_not_space.
  - destruct (IH Hs _ eq_refl) as (m & d & -> & Hd). exists (String x m), d. by rewrite append_cons.
Qed.

Lemma edged_app a m b : edged a → edged b → edged (a +:+ m +:+ b).
Proof.
  intros (c & s & d & Ha) (c' & s' & d' & Hb).
  assert (∃ l, b = l +:+ String (if bool_decide (b = String c' "") then c' else d') "" ∧
            spaceChar (if bool_decide (b = String c' "") then c' else d') = false) as (l & Hbl & Hbs).
  { destruct Hb as [[-> Hc]|(-> & Hc & Hd)].
    - exists "". by rewrite bool_decide_eq_true_2.
    - exists (String c' s'). case_bool_decide as E; [|by rewrite append_cons].
      injection E as E. by destruct s'. }
  set (e := if bool_decide _ then c' else d') in *.
  destruct Ha as [[-> Hc]|(-> & Hc & Hd)]; rewrite Hbl.
  - exists c, (m +:+ l), e. right. by rewrite append_cons, append_nil_l, append_assoc.
  - exists c, (s +:+ String d "" +:+ m +:+ l), e. right. by rewrite append_cons, !append_assoc.
Qed.

(** A comma-separated list of words. *)
Definition goodWord (s : string) : Prop := string_forallb addrChar s = true ∧ s ≠ "".

Lemma goodWord_edged s : goodWord s → edged s.
Proof. intros [Hs Hn]. apply edged_graphic; [|done]. by eapply string_forallb_weaken; [apply addrChar_graphic|]. Qed.

Lemma goodWord_printable s : goodWord s → string_forallb printable s = true.
Proof.
  intros [Hs _]. eapply string_forallb_weaken; [|apply Hs]. intros c Hc. by apply graphic_printable, addrChar_graphic.
Qed.

Lemma words_edged words : words ≠ [] → Forall goodWord words → edged (String.concat ", " words).
Proof.
  intros Hn Hw. destruct words as [|w words]; [done|]. clear Hn. revert w Hw.
  induction words as [|x words IH]; intros w Hw; apply Forall_cons in Hw as [Hw Hws]; [by apply goodWord_edged|].
  change (String.concat ", " (w :: x :: words)) with (w +:+ ", " +:+ String.concat ", " (x :: words)).
  apply edged_app; [by apply goodWord_edged|]. by apply IH.
Qed.

Lemma words_printable words : Forall goodWord words → string_forallb printable (String.concat ", " words) = true.
Proof.
  intros Hw. destruct words as [|w words]; [done|]. revert w Hw.
  induction words as [|x words IH]; intros w Hw; apply Forall_cons in Hw as [Hw Hws]; [by apply goodWord_printable|].
  change (String.concat ", " (w :: x :: words)) with (w +:+ ", " +:+ String.concat ", " (x :: words)).
  by rewrite !string_forallb_app, goodWord_printable, (IH x).
Qed.

Lemma trimAll_words words :
  Forall goodWord words → trimAll (map (String.append " ") words) = Some words.
Proof.
  induction words as [|w words IH]; [done|]. intros [Hw Hws]%Forall_cons. cbn [map trimAll].
  pose proof (TrimSpace_edged " " w "") as Ht. rewrite append_nil_r in Ht. rewrite Ht; [|..|done].
  - rewrite bool_decide_eq_false_2 by apply Hw. by rewrite (IH Hws).
  - rewrite string_forallb_app. apply andb_true_iff. split; [done|].
    eapply string_forallb_weaken; [apply printable_ascii|by apply goodWord_printable].
  - by apply goodWord_edged.
  - done.
Qed.

Lemma Split_words w words :
  Forall goodWord (w :: words) → Split "," (String.concat ", " (w :: words)) = w :: map (String.append " ") words.
Proof.
  revert w. induction words as [|x words IH]; intros w [Hw Hws]%Forall_cons.
  { apply Split_none, addrChar_noByte; [done|apply Hw]. }
  change (String.concat ", " (w :: x :: words)) with (w +:+ String "," (" " +:+ String.concat ", " (x :: words))).
  rewrite Split_app, Split_none by (apply addrChar_noByte; [done|apply Hw]). cbn [app map]. f_equal.
  rewrite append_cons, append_nil_l. cbn [Split]. change (char_eqb " " ",") with false. cbv iota. by rewrite (IH x Hws).
Qed.

Lemma splitCSV_words words maximum :
  words ≠ [] → Forall goodWord words → (length words ≤ maximum)%nat → splitCSV (String.concat ", " words) maximum = Some words.
Proof.
  intros Hn Hw Hl. destruct words as [|w words]; [done|]. unfold splitCSV. rewrite Split_words by done.
  cbn [isNil length orb]. rewrite length_map. cbn [length] in Hl. rewrite (proj2 (Nat.ltb_ge maximum _)) by lia.
  apply Forall_cons in Hw as [Hw Hws]. cbn [trimAll]. pose proof (TrimSpace_edged "" w "") as Ht.
  rewrite append_nil_r, append_nil_l in Ht. rewrite Ht; [|..|done].
  - rewrite bool_decide_eq_false_2 by apply Hw. by rewrite trimAll_words.
  - eapply string_forallb_weaken; [apply printable_ascii|by apply goodWord_printable].
  - by apply goodWord_edged.
  - done.
Qed.

(** *** The values of the fields *)

Lemma addressLoop_text l addresses :
  Forall goodInterfaceAddress l → NoDup (addresses ++ l) →
  addressLoop (map prefixString l) addresses = Some (addresses ++ l).
Proof.
  revert addresses. induction l as [|f l IH]; intros addresses Hl Hn; [by rewrite app_nil_r|].
  apply Forall_cons in Hl as [(a & Ha & -> & Hs) Hl]. cbn [map addressLoop].
  assert (0 ≤ bitLen a ≤ bitLen a)%Z as Hb by (destruct a; cbn; lia).
  rewrite (ParsePrefix_text a (bitLen a) Ha Hb). cbn [mbind option_bind]. rewrite Hs. cbn [negb].
  set (f := PrefixFrom a (bitLen a)) in *. rewrite bool_decide_eq_false_2.
  - rewrite (cons_middle f addresses l), app_assoc in Hn |- *. by apply IH.
  - intros Hin. apply NoDup_app in Hn as (_ & Hd & _). apply (Hd f Hin). apply list_elem_of_here.
Qed.

Lemma parseAddresses_text l :
  Forall goodInterfaceAddress l → NoDup l → (length l ≤ maximumAddresses)%nat →
  existsb (λ f, Is4 (pf_Addr f)) l = true →
  parseAddresses (writePrefixes l) = Some (l, existsb (λ f, negb (Is4 (pf_Addr f))) l).
Proof.
  intros Hg Hn Hl H4. unfold parseAddresses, writePrefixes. rewrite splitCSV_words.
  - cbn [mbind option_bind]. rewrite addressLoop_text by done. cbn [mbind option_bind app]. by rewrite H4.
  - destruct l; [done|]. done.
  - apply Forall_map. eapply Forall_impl; [done|]. intros f Hf. by apply prefix_addrChars.
  - by rewrite length_map.
Qed.

Lemma dnsLoop_text l servers :
  Forall goodServer l → NoDup (servers ++ l) → dnsLoop (map AppendTo l) servers = Some (servers ++ l).
Proof.
  revert servers. induction l as [|a l IH]; intros servers Hl Hn; [by rewrite app_nil_r|].
  apply Forall_cons in Hl as [[Ha Hs] Hl]. cbn [map dnsLoop]. rewrite ParseAddr_text by done. cbn [mbind option_bind].
  rewrite Hs. destruct Ha as (_ & _ & _ & ->). cbn [negb]. rewrite bool_decide_eq_false_2.
  - rewrite (cons_middle a servers l), app_assoc in Hn |- *. by apply IH.
  - intros Hin. apply NoDup_app in Hn as (_ & Hd & _). apply (Hd a Hin). apply list_elem_of_here.
Qed.

Lemma parseDNS_text l :
  Forall goodServer l → NoDup l → (0 < length l ≤ maximumDNSServers)%nat →
  parseDNS (writeAddresses l) = Some (l, existsb Is6 l).
Proof.
  intros Hg Hn Hl. unfold parseDNS, writeAddresses. rewrite splitCSV_words.
  - cbn [mbind option_bind]. by rewrite dnsLoop_text.
  - destruct l; [cbn in Hl; lia|done].
  - apply Forall_map. eapply Forall_impl; [done|]. intros a [Ha _]. by apply AppendTo_addrChars.
  - rewrite length_map. lia.
Qed.

Lemma parseAllowedIPs_text b : parseAllowedIPs (allowedText b) = Some b.
Proof. by destruct b; vm_compute. Qed.

Lemma noByte_app c a b : noByte c a → noByte c b → noByte c (a +:+ b).
Proof. unfold noByte. rewrite string_forallb_app. by intros -> ->. Qed.

Lemma hasByte_noByte c s : hasByte c s = false ↔ noByte c s.
Proof.
  unfold hasByte, string_existsb, noByte. rewrite negb_false_iff.
  assert (string_forallb (λ d, negb (char_eqb c d)) s = string_forallb (λ d, negb (char_eqb d c)) s) as ->; [|done].
  induction s as [|d s IH]; [done|]. cbn [string_forallb]. rewrite IH. f_equal. f_equal. apply bool_decide_ext. done.
Qed.

Lemma parse_port port : (0 < port < 65536)%Z →
  string_forallb is_digit (decimal port) = true ∧ ParseUint (decimal port) 16 = Some port ∧ (port =? 0)%Z = false.
Proof.
  intros H. split_and!; [apply decimal_digits|apply ParseUint_decimal; lia|]. apply Z.eqb_neq. lia.
Qed.

Lemma SplitHostPort_text a port :
  plainAddr a → SplitHostPort (writeEndpoint a port) = Some (AppendTo a, decimal port).
Proof.
  intros Ha. destruct (AppendTo_addrChars a Ha) as [Hc Hn]. pose proof (decimal_addrChars port) as Hd.
  assert (∀ sep, addrChar sep = false → noByte sep (AppendTo a) ∧ noByte sep (decimal port)) as Hno
    by (intros; split; by apply addrChar_noByte).
  assert (noByte ":" (decimal port)) as Hcolon.
  { eapply string_forallb_weaken; [|apply decimal_digits]. intros c. by_char c. }
  unfold SplitHostPort, writeEndpoint. destruct (Hno "["%char eq_refl) as [HL1 HL2], (Hno "]"%char eq_refl) as [HR1 HR2].
  destruct (Is6 a) eqn:E6.
  - assert ("[" +:+ AppendTo a +:+ "]" +:+ ":" +:+ decimal port = ("[" +:+ AppendTo a +:+ "]") +:+ String ":" (decimal port)) as ->
      by (by rewrite !append_assoc).
    rewrite cutLast_found by done. cbn [mbind option_bind].
    rewrite append_assoc, (HasPrefix_append "[").
    assert (Cut "]" ("[" +:+ (AppendTo a +:+ "]") +:+ String ":" (decimal port)) = ("[" +:+ AppendTo a, String ":" (decimal port), true)) as ->.
    { apply Cut_found. split; [by rewrite !append_assoc|]. apply noByte_app; [done|apply HR1]. }
    rewrite !append_length. cbn [String.length]. rewrite (proj2 (Nat.eqb_eq _ _)) by lia. cbn [negb orb].
    rewrite !(drop_append "["). rewrite (proj2 (hasByte_noByte "[" _)), (proj2 (hasByte_noByte "]" _)).
    + done.
    + change (String ":" (decimal port)) with (":" +:+ decimal port). by apply noByte_app.
    + by repeat apply noByte_app.
  - rewrite !append_nil_l. change (":" +:+ decimal port) with (String ":" (decimal port)). rewrite cutLast_found by done.
    cbn [mbind option_bind].
    assert (noByte ":" (AppendTo a)) as H4.
    { destruct a as [|v|v z]; [by destruct Ha as (_ & ? & _)|cbn [AppendTo]|done]. unfold appendTo4.
      repeat apply noByte_app; try done; (eapply string_forallb_weaken; [|apply decimal_digits]); intros c; by_char c. }
    destruct (AppendTo a) as [|c r] eqn:Et; [done|]. rewrite append_cons.
    assert (HasPrefix (String c (r +:+ String ":" (decimal port))) "[" = false) as ->.
    { unfold HasPrefix. cbn [String.prefix]. destruct (ascii_dec "[" c) as [<-|]; [|done].
      unfold noByte in HL1. cbn in HL1. done. }
    rewrite <- append_cons, <- Et in *. rewrite !(proj2 (hasByte_noByte _ _)); [done|..]; try (apply noByte_app; [done|]);
      try done; change (String ":" (decimal port)) with (":" +:+ decimal port); by apply noByte_app.
Qed.

Lemma parseEndpoint_text unicodeLower a port :
  publicAddr a → (0 < port < 65536)%Z → (String.length (writeEndpoint a port) ≤ 512)%nat →
  parseEndpoint unicodeLower (writeEndpoint a port) = Some (mkEndpoint "" a port).
Proof.
  intros [Ha Hp] Hport Hl. unfold parseEndpoint. rewrite (proj2 (Nat.ltb_ge 512 _)) by done.
  rewrite SplitHostPort_text by done. cbn [mbind option_bind].
  destruct (parse_port port Hport) as (Hd & Hu & Hz). rewrite Hd, Hu. cbn [mbind option_bind]. rewrite Hz.
  destruct (AppendTo_addrChars a Ha) as [_ Hn]. rewrite bool_decide_eq_false_2 by done. cbn [negb orb].
  rewrite ParseAddr_text by done. destruct Ha as (_ & _ & _ & ->). by rewrite Hp.
Qed.

(** *** Lengths *)

Lemma pretty_go_length k x s :
  (x < 10 ^ N.of_nat k)%N → (String.length (pretty_N_go x s) ≤ String.length s + k)%nat.
Proof.
  revert x s. induction k as [|k IH]; intros x s Hx.
  { replace x with 0%N by (cbn in Hx; lia). rewrite pretty_N_go_0. lia. }
  assert (x = 0 ∨ 0 < x)%N as [->|Hp] by lia; [rewrite pretty_N_go_0; lia|].
  rewrite pretty_N_go_step by done. etrans; [apply IH|cbn; lia].
  apply N.Div0.div_lt_upper_bound. rewrite Nat2N.inj_succ, N.pow_succ_r' in Hx. lia.
Qed.

Lemma decimal_length k b : (0 ≤ b < 10 ^ Z.of_nat k)%Z → (0 < k)%nat → (String.length (decimal b) ≤ k)%nat.
Proof.
  intros Hb Hk. unfold decimal, pretty, pretty_N. case_decide; [cbn; lia|]. apply (pretty_go_length k _ "").
  apply N2Z.inj_lt. rewrite Z2N.id, N2Z.inj_pow, nat_N_Z by lia. apply Hb.
Qed.

Lemma hexGroups_length gs : (String.length (hexGroups gs) ≤ 5 * length gs)%nat.
Proof.
  induction gs as [|g gs IH]; [done|]. rewrite hexGroups_cons, append_length.
  assert (String.length (appendHex g) ≤ 4)%nat.
  { unfold appendHex. rewrite !append_length. destruct (4096 <=? g)%Z, (256 <=? g)%Z, (16 <=? g)%Z; cbn; lia. }
  destruct gs; cbn [isNil length] in *; [cbn; lia|]. rewrite append_length. cbn [String.length]. lia.
Qed.

Lemma AppendTo_length a : plainAddr a → (String.length (AppendTo a) ≤ 42)%nat.
Proof.
  intros (_ & Hz & Hzone & H46). destruct a as [|v|v zone]; [done|..]; cbn [AppendTo].
  - unfold appendTo4. rewrite !append_length.
    assert (∀ i, String.length (decimal (v4 v i)) ≤ 3)%nat as Hd.
    { intros i. pose proof (v4_bounds v i). apply decimal_length; [cbn; lia|lia]. }
    pose proof (Hd 0%nat). pose proof (Hd 1%nat). pose proof (Hd 2%nat). pose proof (Hd 3%nat). cbn [String.length]. lia.
  - cbn in Hzone. subst zone. rewrite H46. unfold withZone. rewrite bool_decide_eq_true_2, append_nil_r by done.
    destruct (appendTo6_cases v) as [->|(start & n & Hr & Hn & ->)].
    + pose proof (hexGroups_length (groupsOf v)). cbn [length groupsOf map seq] in *. lia.
    + rewrite !append_length. pose proof (hexGroups_length (take start (groupsOf v))) as H1.
      pose proof (hexGroups_length (drop (start + n) (groupsOf v))) as H2. rewrite length_take in H1. rewrite length_drop in H2.
      change (length (groupsOf v)) with 8%nat in *. cbn [String.length]. lia.
Qed.

Lemma writeEndpoint_length a port :
  plainAddr a → (0 < port < 65536)%Z → (String.length (writeEndpoint a port) ≤ 512)%nat.
Proof.
  intros Ha Hp. unfold writeEndpoint. rewrite !append_length. pose proof (AppendTo_length a Ha).
  pose proof (decimal_length 5 port ltac:(cbn; lia) ltac:(lia)). destruct (Is6 a); cbn [String.length]; lia.
Qed.

(** *** Lines *)

(** A value as a line of a configuration carries it. *)
Definition goodValue (value : string) : Prop := edged value ∧ string_forallb printable value = true.

Lemma edged_nonempty s : edged s → s ≠ "".
Proof. by intros (c & m & d & [[-> _]|(-> & _)]). Qed.

Lemma printable_safe s : string_forallb printable s = true → hasUnsafeControl s = false.
Proof.
  intros H. unfold hasUnsafeControl, string_existsb. rewrite negb_false_iff.
  eapply string_forallb_weaken; [|apply H]. intros c. by_char c.
Qed.

Definition fieldName (name : string) : bool :=
  bool_decide (name ∈ ["PrivateKey"; "Address"; "DNS"; "PublicKey"; "AllowedIPs"; "Endpoint"]).

Lemma fieldName_facts name : fieldName name = true →
  edged name ∧ string_forallb printable name = true ∧ noByte "=" (name +:+ " ") ∧
  firstChar name ≠ Some "#"%char ∧ firstChar name ≠ Some "["%char.
Proof.
  unfold fieldName. rewrite bool_decide_eq_true, !elem_of_cons. intros H.
  destruct_or!; subst; try (by apply not_elem_of_nil in H); (split; [by apply edged_graphic|done]).
Qed.

Lemma edged_first s : edged s → ∃ c r, s = String c r.
Proof. intros (c & m & d & [[-> _]|(-> & _)]); eauto. Qed.

Lemma parseLine_field st name value :
  fieldName name = true → goodValue value → ps_current st ≠ sectionNone → allowedField (ps_current st) name = true →
  fieldsIn st !! name = None → parseLine st (name +:+ " = " +:+ value) = Some (setField st name value).
Proof.
  intros Hname [Hev Hpv] Hc Ha Hf. destruct (fieldName_facts name Hname) as (Hen & Hpn & Hne & Hh & Hb).
  assert (string_forallb printable (name +:+ " = " +:+ value) = true) as Hp by (by rewrite !string_forallb_app, Hpn, Hpv).
  assert (∀ t, string_forallb printable t = true → string_forallb isASCII t = true) as Hpa.
  { intros t. apply string_forallb_weaken, printable_ascii. }
  pose proof (edged_app name " = " value Hen Hev) as He. unfold parseLine.
  pose proof (TrimSpace_edged "" (name +:+ " = " +:+ value) "") as Ht. rewrite append_nil_l, append_nil_r in Ht.
  rewrite Ht by auto. clear Ht. cbv zeta. rewrite bool_decide_eq_false_2 by (by apply edged_nonempty).
  assert (firstChar (name +:+ " = " +:+ value) = firstChar name) as ->.
  { destruct (edged_first name Hen) as (c & r & ->). by rewrite append_cons. }
  rewrite !(bool_decide_eq_false_2 (firstChar name = _)) by done. cbn [orb]. rewrite printable_safe by done.
  assert (Cut "=" (name +:+ " = " +:+ value) = (name +:+ " ", " " +:+ value, true)) as ->.
  { apply Cut_found. split; [by rewrite append_assoc|done]. }
  rewrite (bool_decide_eq_false_2 (ps_current st = _)) by done.
  rewrite (bool_decide_eq_false_2 (name +:+ " " = "")) by (by apply append_nonempty, edged_nonempty). cbn [negb orb].
  pose proof (TrimSpace_edged "" name " ") as Htn. rewrite append_nil_l in Htn.
  rewrite Htn; [|apply Hpa; by rewrite string_forallb_app, Hpn|done..].
  pose proof (TrimSpace_edged " " value "") as Htv. rewrite append_nil_r in Htv.
  rewrite Htv; [|apply Hpa; by rewrite string_forallb_app, Hpv|done..].
  rewrite bool_decide_eq_false_2 by (by apply edged_nonempty). rewrite Ha, Hf. cbn [negb orb].
  by rewrite bool_decide_eq_false_2 by (by intros [? ?]).
Qed.

(** The lines of a rendered configuration. *)
Definition configLines (priv addresses dns pub allowed ep : string) : list string :=
  ["[Interface]"; "PrivateKey = " +:+ priv; "Address = " +:+ addresses; "DNS = " +:+ dns; ""; "[Peer]";
   "PublicKey = " +:+ pub; "AllowedIPs = " +:+ allowed; "Endpoint = " +:+ ep].

Lemma profileLines_text lines :
  Forall (λ l, noByte "010" l) lines → lines ≠ [] →
  profileLines (String.concat "" (map (λ l, l +:+ lf) lines)) = lines.
Proof.
  intros Hl Hn. assert (Split "010" (String.concat "" (map (λ l, l +:+ lf) lines)) = lines ++ [""]) as Hs.
  { clear Hn. induction lines as [|l lines IH]; [done|]. apply Forall_cons in Hl as [Hl Hls].
    cbn [map]. rewrite concat_cons_nil, append_assoc. assert (∀ x, lf +:+ x = String "010" x) as -> by done.
    rewrite Split_app, Split_none by done. cbn [app]. by rewrite IH. }
  unfold profileLines. rewrite Hs, rev_app_distr. cbn [rev app]. apply rev_involutive.
Qed.

Lemma parseLine_interface i p :
  parseLine (mkParse sectionNone false false i p) "[Interface]" = Some (mkParse sectionInterface true false i p).
Proof. done. Qed.

Lemma parseLine_peer i p :
  parseLine (mkParse sectionInterface true false i p) "[Peer]" = Some (mkParse sectionPeer true true i p).
Proof. done. Qed.

Lemma parseLine_empty st : parseLine st "" = Some st.
Proof. done. Qed.

Lemma hasExactFields_three (a b c x y z : string) :
  a ≠ b → a ≠ c → b ≠ c → x ≠ "" → y ≠ "" → z ≠ "" →
  hasExactFields (<[c := z]> (<[b := y]> (<[a := x]> ∅))) [a; b; c] = true.
Proof.
  intros. unfold hasExactFields. rewrite !map_size_insert_None, map_size_empty by (by simplify_map_eq).
  cbn [length Nat.eqb forallb andb]. simplify_map_eq. by rewrite !bool_decide_eq_false_2.
Qed.

(** One [name = value] line of the configuration. *)
Ltac read_field name v :=
  change (parseLine ?st (_ +:+ v)) with (parseLine st (name +:+ " = " +:+ v));
  rewrite parseLine_field; [|done|done|done|done|cbn [fieldsIn ps_current ps_interface ps_peer]; by simplify_map_eq];
  cbn [mbind option_bind]; unfold setField; cbn [ps_current ps_seenInterface ps_seenPeer ps_interface ps_peer].

Lemma parse_config priv addresses dns pub allowed ep :
  goodValue priv → goodValue addresses → goodValue dns → goodValue pub → goodValue allowed → goodValue ep →
  parseLines 0 (mkParse sectionNone false false ∅ ∅) (configLines priv addresses dns pub allowed ep) =
  Some (mkParse sectionPeer true true
    (<["DNS" := dns]> (<["Address" := addresses]> (<["PrivateKey" := priv]> ∅)))
    (<["Endpoint" := ep]> (<["AllowedIPs" := allowed]> (<["PublicKey" := pub]> ∅)))).
Proof.
  intros H1 H2 H3 H4 H5 H6. unfold configLines. cbn [parseLines]. unfold maximumProfileLines. cbn [Nat.ltb Nat.leb].
  rewrite (parseLine_interface ∅ ∅). cbn [mbind option_bind].
  read_field "PrivateKey" priv. read_field "Address" addresses. read_field "DNS" dns.
  rewrite parseLine_empty. cbn [mbind option_bind]. rewrite parseLine_peer. cbn [mbind option_bind].
  read_field "PublicKey" pub. read_field "AllowedIPs" allowed. read_field "Endpoint" ep. done.
Qed.

Lemma parseOption_config unicodeLower priv addresses dns pub allowed ep :
  goodValue priv → goodValue addresses → goodValue dns → goodValue pub → goodValue allowed → goodValue ep →
  parseOption unicodeLower true (String.concat "" (map (λ l, l +:+ lf) (configLines priv addresses dns pub allowed ep))) =
  (privateKey ← decodeKey priv;
   '(addresses, hasV6Address) ← parseAddresses addresses;
   '(dnsServers, hasV6DNS) ← parseDNS dns;
   publicKey ← decodeKey pub;
   allowedV6 ← parseAllowedIPs allowed;
   if (hasV6Address || hasV6DNS) && negb allowedV6 then None
   else
     peerEndpoint ← parseEndpoint unicodeLower ep;
     Some (mkProfile privateKey addresses dnsServers publicKey allowedV6 peerEndpoint false)).
Proof.
  intros H1 H2 H3 H4 H5 H6. unfold parseOption.
  assert (Forall (λ l, string_forallb printable l = true) (configLines priv addresses dns pub allowed ep)) as Hp.
  { unfold configLines. repeat apply Forall_cons_2; try apply Forall_nil_2; try done; rewrite string_forallb_app;
      apply andb_true_iff; (split; [done|apply H1 || apply H2 || apply H3 || apply H4 || apply H5 || apply H6]). }
  set (lines := configLines _ _ _ _ _ _) in *.
  assert (string_forallb (λ c, isASCII c && negb (char_eqb c "000")) (String.concat "" (map (λ l, l +:+ lf) lines)) = true) as Ht.
  { clearbody lines. induction lines as [|l lines IH]; [done|]. apply Forall_cons in Hp as [Hl Hp]. cbn [map].
    rewrite concat_cons_nil, !string_forallb_app, IH by done. rewrite (string_forallb_weaken printable); [done| |done].
    intros c. by_char c. }
  rewrite ValidString_ascii by (eapply string_forallb_weaken; [|apply Ht]; by intros c [? _]%andb_true_iff).
  rewrite (proj2 (hasByte_noByte "000" _)) by (eapply string_forallb_weaken; [|apply Ht]; by intros c [_ ?]%andb_true_iff).
  cbn [negb orb]. rewrite profileLines_text; [|eapply Forall_impl; [apply Hp|]|done].
  2: { intros l Hl. eapply string_forallb_weaken; [|apply Hl]. intros c. by_char c. }
  unfold lines. rewrite parse_config by done. cbn [mbind option_bind ps_interface ps_peer ps_seenInterface ps_seenPeer].
  cbv zeta. rewrite !hasExactFields_three 
    by (done || (apply edged_nonempty; apply H1 || apply H2 || apply H3 || apply H4 || apply H5 || apply H6)). cbn [negb orb].
  unfold field. simplify_map_eq. done.
Qed.

(** *** Round trip *)

Definition withEndpoint (p : profileState) (e : endpoint) : profileState :=
  mkProfile (pr_privateKey p) (pr_addresses p) (pr_dnsServers p) (pr_publicKey p) (pr_allowedV6 p) e (pr_destroyed p).

Lemma resolvedConfig_lines p r :
  resolvedConfig p r =
  String.concat "" (map (λ l, l +:+ lf)
    (configLines (encodeBase64 (pr_privateKey p)) (writePrefixes (pr_addresses p)) (writeAddresses (pr_dnsServers p))
       (encodeBase64 (pr_publicKey p)) (allowedText (pr_allowedV6 p)) (writeEndpoint (re_address r) (re_port r)))).
Proof.
  unfold resolvedConfig, configLines. cbn [map]. rewrite !concat_cons_nil. cbn [String.concat].
  rewrite append_nil_r, append_nil_l, !append_assoc. done.
Qed.

Lemma key_value key : goodKey key → goodValue (encodeBase64 key).
Proof.
  intros (Hl & Hb & _). assert (string_forallb graphic (encodeBase64 key) = true) as Hg by (by eapply encodeBase64_graphic).
  split.
  - apply edged_graphic; [done|]. destruct key as [|a [|b [|c key]]]; done.
  - eapply string_forallb_weaken; [apply graphic_printable|done].
Qed.

Lemma endpoint_value a port : plainAddr a → goodValue (writeEndpoint a port).
Proof.
  intros Ha. destruct (AppendTo_addrChars a Ha) as [Hc Hn].
  assert (string_forallb graphic (writeEndpoint a port) = true) as Hg.
  { unfold writeEndpoint. rewrite !string_forallb_app.
    rewrite (string_forallb_weaken addrChar graphic (AppendTo a)) by (apply addrChar_graphic || done).
    rewrite (string_forallb_weaken addrChar graphic (decimal port)) by (apply addrChar_graphic || apply decimal_addrChars).
    by destruct (Is6 a). }
  split; [|by eapply string_forallb_weaken; [apply graphic_printable|]]. apply edged_graphic; [done|].
  unfold writeEndpoint. destruct (Is6 a); [by rewrite append_cons|]. rewrite append_nil_l. by apply append_nonempty.
Qed.

Lemma parse_resolvedConfig unicodeLower p r :
  goodProfile p → publicAddr (re_address r) → (0 < re_port r < 65536)%Z →
  parse unicodeLower true (resolvedConfig p r) = Ok (withEndpoint p (mkEndpoint "" (re_address r) (re_port r))).
Proof.
  intros Hp Hr Hport. unfold parse. rewrite resolvedConfig_lines.
  assert (∀ l, Forall goodInterfaceAddress l → Forall goodWord (map prefixString l)) as Hwa.
  { intros l Hl. apply Forall_map. eapply Forall_impl; [apply Hl|]. intros f Hf. by apply prefix_addrChars. }
  assert (∀ l, Forall goodServer l → Forall goodWord (map AppendTo l)) as Hwd.
  { intros l Hl. apply Forall_map. eapply Forall_impl; [apply Hl|]. intros a [Ha _]. by apply AppendTo_addrChars. }
  rewrite parseOption_config.
  - rewrite !decodeKey_encode by apply Hp. cbn [mbind option_bind].
    rewrite parseAddresses_text by apply Hp. cbn [mbind option_bind]. rewrite parseDNS_text by apply Hp. cbn [mbind option_bind].
    rewrite parseAllowedIPs_text. cbn [mbind option_bind]. rewrite (gp_six p Hp).
    rewrite parseEndpoint_text by (done || (apply writeEndpoint_length; [apply Hr|done])). cbn [mbind option_bind].
    unfold withEndpoint. by rewrite (gp_live p Hp).
  - apply key_value, Hp.
  - split; [apply words_edged|apply words_printable]; try apply Hwa, Hp.
    pose proof (gp_four p Hp) as H4. by destruct (pr_addresses p).
  - split; [apply words_edged|apply words_printable]; try apply Hwd, Hp.
    pose proof (gp_dns_count p Hp) as Hc. destruct (pr_dnsServers p); [cbn in Hc; lia|done].
  - apply key_value, Hp.
  - destruct (pr_allowedV6 p); split; try done.
    + apply (edged_app "0.0.0.0/0" ", " "::/0"); by apply edged_graphic.
    + by apply edged_graphic.
  - apply endpoint_value, Hr.
Qed.

(** Reading a whole text at once. *)
Lemma Parse_whole unicodeLower text :
  (0 < slen text ≤ MaximumProfileBytes)%Z → Parse unicodeLower true [(text, EOF)] = parse unicodeLower true text.
Proof.
  intros Hl. unfold Parse. cbn [readLoop]. rewrite append_nil_l. unfold MaximumProfileBytes in *.
  change (slen "") with 0%Z. rewrite (proj2 (Z.leb_gt _ 0)), (proj2 (Z.ltb_ge _ (slen text))) by lia.
  by rewrite (proj2 (Z.eqb_neq (slen text) 0)), (proj2 (Z.ltb_ge _ (slen text))) by lia.
Qed.

(** *** The size of a configuration *)

Lemma concat_length sep n words :
  Forall (λ w, (String.length w ≤ n)%nat) words →
  (String.length (String.concat sep words) ≤ (String.length sep + n) * length words)%nat.
Proof.
  intros Hw. destruct words as [|w words]; [cbn; lia|]. revert w Hw.
  induction words as [|x words IH]; intros w [Hw Hws]%Forall_cons; [cbn in *; lia|].
  change (String.concat sep (w :: x :: words)) with (w +:+ sep +:+ String.concat sep (x :: words)).
  rewrite !append_length. specialize (IH x Hws). cbn [length] in *. lia.
Qed.

Lemma key_length key : goodKey key → String.length (encodeBase64 key) = 44%nat.
Proof. intros (Hl & _). do 32 (destruct key as [|? key]; [discriminate Hl|]). by destruct key. Qed.

Lemma prefix_length f : goodInterfaceAddress f → (String.length (prefixString f) ≤ 46)%nat.
Proof.
  intros (a & Ha & -> & Hs). pose proof (AppendTo_length a Ha) as Hl. unfold prefixString.
  destruct (PrefixIsValid _) eqn:Ev; [|cbn; lia]. rewrite !append_length. destruct Ha as (_ & Hz & Hzone & _).
  assert (∀ b, b = 32%Z ∨ b = 128%Z → String.length (decimal b) ≤ 3)%nat as Hd by (by intros b [->| ->]; vm_compute; lia).
  pose proof (Hd 32%Z ltac:(auto)). pose proof (Hd 128%Z ltac:(auto)). cbn [String.length].
  destruct a as [|v|v zone]; [done|..]; cbn in Hzone; subst; cbn [pf_Addr pf_Bits PrefixFrom bitLen Z.ltb Z.compare orb] in *;
    change (32 <? 32)%Z with false; change (128 <? 128)%Z with false; cbv iota; lia.
Qed.

Lemma resolvedConfig_size p r :
  goodProfile p → publicAddr (re_address r) → (0 < re_port r < 65536)%Z →
  (0 < slen (resolvedConfig p r) ≤ MaximumProfileBytes)%Z.
Proof.
  intros Hp Hr Hport. unfold slen, resolvedConfig, MaximumProfileBytes. rewrite !append_length.
  rewrite !key_length by apply Hp.
  assert (String.length (writePrefixes (pr_addresses p)) ≤ 48 * 8)%nat.
  { etrans; [apply (concat_length ", " 46)|].
    - apply Forall_map. eapply Forall_impl; [apply (gp_addresses p Hp)|]. apply prefix_length.
    - rewrite length_map. pose proof (gp_addresses_count p Hp). unfold maximumAddresses in *. cbn [String.length]. lia. }
  assert (String.length (writeAddresses (pr_dnsServers p)) ≤ 44 * 8)%nat.
  { etrans; [apply (concat_length ", " 42)|].
    - apply Forall_map. eapply Forall_impl; [apply (gp_dns p Hp)|]. intros a [Ha _]. by apply AppendTo_length.
    - rewrite length_map. pose proof (gp_dns_count p Hp). unfold maximumDNSServers in *. cbn [String.length]. lia. }
  pose proof (writeEndpoint_length (re_address r) (re_port r) (proj1 Hr) Hport).
  assert (String.length (allowedText (pr_allowedV6 p)) ≤ 20)%nat by (destruct (pr_allowedV6 p); vm_compute; lia).
  cbn [String.length lf]. lia.
Qed.

Lemma config_roundtrip unicodeLower p r :
  goodProfile p → wellFormedAddr (re_address r) → validResolved r = true → re_port r = ep_port (pr_endpoint p) →
  ∃ text, withResolvedConfig false p r = Ok text ∧
    (slen text ≤ MaximumProfileBytes)%Z ∧ routesOf text = Some (fullTunnel (pr_allowedV6 p)) ∧
    Parse unicodeLower true [(text, EOF)] = Ok (withEndpoint p (mkEndpoint "" (re_address r) (re_port r))).
Proof.
  intros Hp Hw Hv Hport. unfold withResolvedConfig. rewrite Hv, <- Hport, Z.eqb_refl, (gp_live p Hp). cbn [negb orb].
  unfold validResolved in Hv. apply andb_true_iff in Hv as [Hv _].
  assert (publicAddr (re_address r)) as Hr by (split; [by apply publicEndpointAddress_plain|done]).
  assert (0 < re_port r < 65536)%Z as Hrange by (rewrite Hport; apply Hp).
  pose proof (resolvedConfig_size p r Hp Hr Hrange) as Hs.
  rewrite (proj2 (Z.ltb_ge _ (slen _))) by lia. eexists. split; [done|].
  pose proof (parse_resolvedConfig unicodeLower p r Hp Hr Hrange) as Hparse. split; [lia|].
  split; [by apply parse_full_tunnel in Hparse|]. by rewrite Parse_whole.
Qed.

(** C14: what the host renders for a guest, the guest reads back.  Every text
    the parser accepts asks for exactly the full-tunnel routes 0.0.0.0/0 and, when
    the profile routes IPv6, ::/0; the profile has distinct safe interface and DNS
    addresses, non-zero keys and a public literal or safely named endpoint; with
    any public resolved endpoint and the profile's port it renders to a
    configuration within the size bound with the same routes, and the same strict
    parser accepts that configuration and returns the profile with the same keys, addresses, DNS
    servers and routes, and the literal endpoint. *)
Theorem profile_config_roundtrip unicodeLower raw p r :
  parse unicodeLower true raw = Ok p → wellFormedAddr (re_address r) → validResolved r = true →
  re_port r = ep_port (pr_endpoint p) →
  routesOf raw = Some (fullTunnel (pr_allowedV6 p)) ∧ goodProfile p ∧
  ∃ text, withResolvedConfig false p r = Ok text ∧
    (slen text ≤ MaximumProfileBytes)%Z ∧ routesOf text = Some (fullTunnel (pr_allowedV6 p)) ∧
    Parse unicodeLower true [(text, EOF)] = Ok (withEndpoint p (mkEndpoint "" (re_address r) (re_port r))).
Proof.
  intros Hp Hw Hv Hport. split; [by eapply parse_full_tunnel|]. apply parse_good in Hp. split; [done|].
  by apply config_roundtrip.
Qed.

Lemma profile_config_roundtrip_witness :
  parse (λ cp, cp) true demoText = Ok demoProfile ∧
  routesOf demoText = Some [mkPrefix (Addr4 0) 0; mkPrefix (Addr6 0 "") 0] ∧
  ∃ text, withResolvedConfig false demoProfile (mkResolved (Addr6 0x26064700470000000000000000001111 "") 51820) = Ok text ∧
    Parse (λ cp, cp) true [(text, EOF)] =
      Ok (withEndpoint demoProfile (mkEndpoint "" (Addr6 0x26064700470000000000000000001111 "") 51820)).
Proof.
  assert (parse (λ cp, cp) true demoText = Ok demoProfile) as H by (vm_compute; reflexivity). split; [exact H|].
  destruct (profile_config_roundtrip _ demoText _ (mkResolved (Addr6 0x26064700470000000000000000001111 "") 51820) H)
    as (Hf & _ & text & Ht & _ & _ & Hp).
  - cbn [re_address wellFormedAddr]. unfold two128. lia.
  - vm_compute. reflexivity.
  - reflexivity.
  - split; [exact Hf|]. exists text. split; [exact Ht|exact Hp].
Defined.
