(* ===== verification/VpnStore.v ===== *)
(** * The volatile VPN profile store

    Models [src/internal/vpn/store.go] and [resolver.go]: imported profiles per
    owner and name, bounded resolution of their endpoint, and the plans that
    bind one resolution to the current import.  A plan is a pointer: it is
    valid only while it is the very plan installed for its profile, so plans
    live in a heap and are named by references.  A resolution releases the
    store's lock during DNS; its two locked sections are [resolveBegin] and
    [resolveCommit]. *)

From Stdlib Require Import ZArith Lia Ascii.
From stdpp Require Import strings base tactics option gmap relations sorting list.
From S2P Require Import Prelude GoText Netip NetipText VpnProfile.

Open Scope string_scope.
Open Scope list_scope.

(** ** Data *)

Definition maximumProfilesPerOwner : nat := 8.
Definition maximumStoredProfiles : nat := 64.
Definition maximumResolvedIPs : nat := 16.

Definition profileNamePattern : string → bool :=
  match_head_tail (λ c, is_upper c || is_lower c || is_digit c)
    (λ c, is_upper c || is_lower c || is_digit c || char_eqb c "_" || char_eqb c "." || char_eqb c "-") 0 63.

Inductive RotationState := RotationNotImported | RotationResolutionNeeded | RotationCurrent | RotationRequired.

#[global] Instance RotationState_eq_dec : EqDecision RotationState.
Proof. solve_decision. Defined.

Record Status := mkStatus {
  st_SchemaVersion : Z;
  st_Present : bool;
  st_Generation : Z;
  st_Rotation : RotationState;
  st_Code : string;
  st_Remediation : string;
  st_Profile : option Inspection
}.

Definition emptyStatus : Status := mkStatus 0 false 0 RotationNotImported "" "" None.

Definition profileKey : Type := Z * string.

Record resolutionPlan := mkPlan {
  pl_owner : Z;
  pl_name : string;
  pl_generation : Z;
  pl_epoch : Z;
  pl_endpoints : list resolvedEndpoint
}.

(** [sp_id] is the identity of the entry, [sp_plan] a reference into the heap
    of plans. *)
Record storedProfile := mkStored {
  sp_id : nat;
  sp_profile : profileState;
  sp_generation : Z;
  sp_epoch : Z;
  sp_rotation : RotationState;
  sp_plan : option nat
}.

Record MemoryStore := mkStore {
  ms_profiles : gmap profileKey storedProfile;
  ms_nextByOwner : gmap Z Z;
  ms_closed : bool;
  ms_plans : gmap nat resolutionPlan;
  ms_next : nat
}.

Definition NewMemoryStore : MemoryStore := mkStore ∅ ∅ false ∅ 0.

(** ** Plans *)

Definition destroyedPlan : resolutionPlan := mkPlan 0 "" 0 0 [].

(** [destroy] clears the plan in place, so every holder of the reference sees
    an empty plan. *)
Definition invalidatePlan (entry : storedProfile) (plans : gmap nat resolutionPlan) : gmap nat resolutionPlan :=
  match sp_plan entry with Some plan => <[plan := destroyedPlan]> plans | None => plans end.

(** ** Status *)

Definition missingStatus : Status :=
  mkStatus 1 false 0 RotationNotImported "VPN_PROFILE_NOT_IMPORTED"
    "Import a current Proton WireGuard profile before starting a networked role." None.

Definition statusFor (entry : storedProfile) : Status :=
  match InspectProfile (sp_profile entry) with
  | Err _ => missingStatus
  | Ok inspection =>
      let status code remediation :=
        mkStatus 1 true (sp_generation entry) (sp_rotation entry) code remediation (Some inspection) in
      match sp_rotation entry with
      | RotationCurrent => status "VPN_PROFILE_CURRENT" "No profile rotation is currently required."
      | RotationRequired =>
          status "VPN_PROFILE_ROTATION_REQUIRED"
            "Generate and import a current Proton WireGuard profile before starting a networked role."
      | _ =>
          status "VPN_ENDPOINT_CHECK_REQUIRED"
            "Run the bounded trusted-host endpoint check before starting a networked role."
      end
  end.

(** ** Operations *)

(** What the operations do to an entry that leaves the store. *)
Definition closeLocked (st : MemoryStore) : MemoryStore :=
  if ms_closed st then st
  else mkStore ∅ ∅ true (map_fold (λ _ entry plans, invalidatePlan entry plans) (ms_plans st) (ms_profiles st)) (ms_next st).

Definition ownerCount (st : MemoryStore) (owner : Z) : nat :=
  size (filter (λ '(key, _), fst key = owner) (ms_profiles st)).

Section Store.
Context (unicodeLower : N → N).

(** [None] is a secret that cannot be read. *)
Definition ParseSecret (protected : bool) (source : option (list (string * readEnd))) : result profile_error profileState :=
  match source with None => Err invalidProfile | Some reads => Parse unicodeLower protected reads end.

Definition Import (protected : bool) (owner : Z) (name : string) (source : option (list (string * readEnd)))
    (st : MemoryStore) : (Status * option profile_error) * MemoryStore :=
  if negb (profileNamePattern name) then ((emptyStatus, Some invalidProfile), st)
  else match ParseSecret protected source with
       | Err e => ((emptyStatus, Some e), st)
       | Ok parsed =>
           if ms_closed st then ((emptyStatus, Some storeClosed), st)
           else
             let key := (owner, name) in
             let old := ms_profiles st !! key in
             if bool_decide (old = None) &&
                ((maximumStoredProfiles <=? size (ms_profiles st))%nat || (maximumProfilesPerOwner <=? ownerCount st owner)%nat)
             then ((emptyStatus, Some profileLimit), st)
             else
               let next := add64 (default 0%Z (ms_nextByOwner st !! owner)) 1 in
               if (next =? 0)%Z then ((emptyStatus, Some storeClosed), closeLocked st)
               else
                 let entry := mkStored (ms_next st) parsed next 0 RotationResolutionNeeded None in
                 let plans := match old with Some o => invalidatePlan o (ms_plans st) | None => ms_plans st end in
                 ((statusFor entry, None),
                  mkStore (<[key := entry]> (ms_profiles st)) (<[owner := next]> (ms_nextByOwner st)) false plans
                    (S (ms_next st)))
       end.

(** What [Resolve] remembers while it does not hold the lock. *)
Record ticket := mkTicket {
  tk_key : profileKey;
  tk_entry : nat;
  tk_generation : Z;
  tk_epoch : Z;
  tk_profile : profileState
}.

Definition setEntry (key : profileKey) (entry : storedProfile) (plans : gmap nat resolutionPlan) (st : MemoryStore) : MemoryStore :=
  mkStore (<[key := entry]> (ms_profiles st)) (ms_nextByOwner st) (ms_closed st) plans (ms_next st).

(** The first locked section of [Resolve]. *)
Definition resolveBegin (owner : Z) (name : string) (st : MemoryStore) :
    ((Status * profile_error) + ticket) * MemoryStore :=
  if negb (profileNamePattern name) then (inl (emptyStatus, profileNotFound), st)
  else if ms_closed st then (inl (emptyStatus, storeClosed), st)
  else
    let key := (owner, name) in
    match ms_profiles st !! key with
    | None => (inl (missingStatus, profileNotFound), st)
    | Some entry =>
        let epoch := add64 (sp_epoch entry) 1 in
        if (epoch =? 0)%Z then
          (inl (emptyStatus, storeClosed),
           setEntry key (mkStored (sp_id entry) (sp_profile entry) (sp_generation entry) 0 (sp_rotation entry) (sp_plan entry))
             (ms_plans st) st)
        else
          (inr (mkTicket key (sp_id entry) (sp_generation entry) epoch (sp_profile entry)),
           setEntry key (mkStored (sp_id entry) (sp_profile entry) (sp_generation entry) epoch RotationResolutionNeeded None)
             (invalidatePlan entry (ms_plans st)) st)
    end.

(** *** The resolver *)

(** What a lookup met: cancellation before and after it, its own deadline, and
    the addresses, [None] for an error. *)
Record lookupOutcome := mkLookup {
  lo_cancelledBefore : bool;
  lo_addresses : option (list Addr);
  lo_cancelledAfter : bool;
  lo_deadline : bool
}.

Fixpoint resolveLoop (port : Z) (addresses : list Addr) (resolved : list resolvedEndpoint) : option (list resolvedEndpoint) :=
  match addresses with
  | [] => Some resolved
  | address :: rest =>
      if Is4In6 address || negb (publicEndpointAddress address) then None
      else if bool_decide (mkResolved address port ∈ resolved) then resolveLoop port rest resolved
      else resolveLoop port rest (resolved ++ [mkResolved address port])
  end.

Definition endpointBefore (left right : resolvedEndpoint) : Prop := addrLess (re_address right) (re_address left) = false.

#[global] Instance endpointBefore_dec : RelDecision endpointBefore.
Proof. unfold RelDecision, endpointBefore. intros. apply _. Defined.

Definition sortEndpoints (endpoints : list resolvedEndpoint) : list resolvedEndpoint := merge_sort endpointBefore endpoints.

Definition resolve (lookup : lookupOutcome) (profile : profileState) : result profile_error (list resolvedEndpoint) :=
  fail_if (lo_cancelledBefore lookup) with profileContextError ;;
  peerEndpoint <-! endpointSnapshot profile ;;
  if IsValid (ep_literal peerEndpoint) then Ok [mkResolved (ep_literal peerEndpoint) (ep_port peerEndpoint)]
  else
    fail_if (lo_cancelledAfter lookup) with profileContextError ;;
    match lo_addresses lookup with
    | None => Err endpointUnresolved
    | Some addresses =>
        fail_if (lo_deadline lookup || isNil addresses || (maximumResolvedIPs <? length addresses)%nat)
          with endpointUnresolved ;;
        match resolveLoop (ep_port peerEndpoint) addresses [] with
        | None | Some [] => Err endpointUnresolved
        | Some resolved => Ok (sortEndpoints resolved)
        end
    end.

(** The second locked section of [Resolve]: the plan's reference, the status and
    the error. *)
Definition resolveCommit (t : ticket) (outcome : result profile_error (list resolvedEndpoint)) (cancelled : bool)
    (st : MemoryStore) : (option nat * Status * option profile_error) * MemoryStore :=
  if ms_closed st then ((None, missingStatus, Some storeClosed), st)
  else match ms_profiles st !! tk_key t with
       | None => ((None, missingStatus, Some profileNotFound), st)
       | Some current =>
           if negb (bool_decide (sp_id current = tk_entry t)) || negb (sp_generation current =? tk_generation t)%Z ||
              negb (sp_epoch current =? tk_epoch t)%Z
           then ((None, statusFor current, Some profileRotated), st)
           else
             let outcome := match outcome with Ok endpoints => if cancelled then Err profileContextError else Ok endpoints | e => e end in
             match outcome with
             | Err e =>
                 let current := mkStored (sp_id current) (sp_profile current) (sp_generation current) (sp_epoch current)
                   (if cancelled then RotationResolutionNeeded else RotationRequired) (sp_plan current) in
                 ((None, statusFor current, Some e), setEntry (tk_key t) current (ms_plans st) st)
             | Ok endpoints =>
                 let id := ms_next st in
                 let plan := mkPlan (fst (tk_key t)) (snd (tk_key t)) (tk_generation t) (tk_epoch t) endpoints in
                 let current := mkStored (sp_id current) (sp_profile current) (sp_generation current) (sp_epoch current)
                   RotationCurrent (Some id) in
                 ((Some id, statusFor current, None),
                  mkStore (<[tk_key t := current]> (ms_profiles st)) (ms_nextByOwner st) (ms_closed st)
                    (<[id := plan]> (ms_plans st)) (S id))
             end
       end.

(** *** Using a plan *)

(** The view a consumer gets while the store is locked. *)
Record resolvedProfile := mkView { rv_plan : resolutionPlan; rv_profile : profileState }.

Definition UsePlan (cancelled : bool) (owner : Z) (name : string) (plan : nat) (st : MemoryStore) :
    result profile_error resolvedProfile :=
  fail_if (negb (profileNamePattern name)) with profileNotFound ;;
  fail_if (ms_closed st) with storeClosed ;;
  match ms_profiles st !! (owner, name), ms_plans st !! plan with
  | None, _ => Err profileNotFound
  | Some _, None => Err profileRotated
  | Some entry, Some concrete =>
      fail_if (negb (bool_decide (sp_plan entry = Some plan)) || negb (pl_owner concrete =? owner)%Z ||
               negb (bool_decide (pl_name concrete = name)) || negb (pl_generation concrete =? sp_generation entry)%Z ||
               negb (pl_epoch concrete =? sp_epoch entry)%Z || negb (bool_decide (sp_rotation entry = RotationCurrent)))
        with profileRotated ;;
      fail_if cancelled with profileContextError ;;
      Ok (mkView concrete (sp_profile entry))
  end.

(** [Endpoints] hands out the plan's endpoints one by one. *)
Definition Endpoints (view : resolvedProfile) : list resolvedEndpoint := pl_endpoints (rv_plan view).

Definition WithGuestConfig (cancelled : bool) (view : resolvedProfile) : result profile_error string :=
  match pl_endpoints (rv_plan view) with
  | [] => Err profileNotReady
  | first :: _ => withResolvedConfig cancelled (rv_profile view) first
  end.

Definition InspectStored (owner : Z) (name : string) (st : MemoryStore) : Status :=
  if negb (profileNamePattern name) || ms_closed st then missingStatus
  else match ms_profiles st !! (owner, name) with None => missingStatus | Some entry => statusFor entry end.

Definition Remove (owner : Z) (name : string) (st : MemoryStore) : MemoryStore :=
  match ms_profiles st !! (owner, name) with
  | None => st
  | Some entry =>
      mkStore (delete (owner, name) (ms_profiles st)) (ms_nextByOwner st) (ms_closed st)
        (invalidatePlan entry (ms_plans st)) (ms_next st)
  end.

Definition Close (st : MemoryStore) : MemoryStore := closeLocked st.

End Store.

(** ** Interleavings *)

Inductive event :=
| EvImport (key : profileKey)
| EvBegin (key : profileKey)
| EvIssue (key : profileKey) (plan : nat) (endpoints : list resolvedEndpoint)
| EvRemove (key : profileKey)
| EvClose.

(** The event ends the validity of the plans of [key]. *)
Definition touches (key : profileKey) (e : event) : Prop :=
  match e with
  | EvImport k | EvBegin k | EvRemove k => k = key
  | EvIssue k _ _ => k = key
  | EvClose => True
  end.

(** The store, the resolutions between their two sections, and what happened,
    in order. *)
Record vstate := mkV { v_store : MemoryStore; v_pending : list ticket; v_trace : list event }.

Definition v_initial : vstate := mkV NewMemoryStore [] [].

(** The addresses of a lookup are 32-bit and 128-bit values. *)
Definition goodLookup (lookup : lookupOutcome) : Prop :=
  match lo_addresses lookup with Some l => Forall wellFormedAddr l | None => True end.

Inductive vstep (unicodeLower : N → N) : vstate → vstate → Prop :=
| v_import protected owner name source status err st st' pending trace :
    Import unicodeLower protected owner name source st = ((status, err), st') →
    vstep unicodeLower (mkV st pending trace)
      (mkV st' pending (trace ++ match err with None => [EvImport (owner, name)] | Some storeClosed => [EvClose] | _ => [] end))
| v_begin owner name r st st' pending trace :
    resolveBegin owner name st = (r, st') →
    vstep unicodeLower (mkV st pending trace)
      (mkV st' (match r with inr t => t :: pending | inl _ => pending end)
         (trace ++ match r with inl (_, profileNotFound) => [] | _ => [EvBegin (owner, name)] end))
| v_commit t lookup outcome cancelled plan status err st st' pending trace :
    t ∈ pending → goodLookup lookup →
    (outcome = resolve lookup (tk_profile t) ∨ ∃ e, outcome = Err e) →
    resolveCommit t outcome cancelled st = ((plan, status, err), st') →
    vstep unicodeLower (mkV st pending trace)
      (mkV st' pending
         (trace ++ match plan, outcome with Some id, Ok endpoints => [EvIssue (tk_key t) id endpoints] | _, _ => [] end))
| v_remove owner name st pending trace :
    vstep unicodeLower (mkV st pending trace) (mkV (Remove owner name st) pending (trace ++ [EvRemove (owner, name)]))
| v_close st pending trace :
    vstep unicodeLower (mkV st pending trace) (mkV (Close st) pending (trace ++ [EvClose])).

(** ** Resolved endpoints *)

(** Endpoints a plan may hold for a profile. *)
Record goodEndpoints (p : profileState) (endpoints : list resolvedEndpoint) : Prop := {
  ge_some : endpoints ≠ [];
  ge_count : (length endpoints ≤ maximumResolvedIPs)%nat;
  ge_distinct : NoDup endpoints;
  ge_valid : Forall (λ e, validResolved e = true ∧ wellFormedAddr (re_address e) ∧ re_port e = ep_port (pr_endpoint p)) endpoints
}.

Lemma resolveLoop_good port addresses resolved result :
  (0 < port)%Z → resolveLoop port addresses resolved = Some result → Forall wellFormedAddr addresses →
  NoDup resolved → Forall (λ e, validResolved e = true ∧ wellFormedAddr (re_address e) ∧ re_port e = port) resolved →
  NoDup result ∧ Forall (λ e, validResolved e = true ∧ wellFormedAddr (re_address e) ∧ re_port e = port) result ∧
  (length result ≤ length resolved + length addresses)%nat.
Proof.
  intros Hp. revert resolved. induction addresses as [|a rest IH]; intros resolved H Hw Hn Hv; cbn [resolveLoop] in H.
  { simplify_eq. split_and!; [done..|cbn; lia]. }
  apply Forall_cons in Hw as [Ha Hw]. destruct (_ || _) eqn:Eb; [done|]. apply orb_false_iff in Eb as [_ Eb%negb_false_iff].
  case_bool_decide as Hin.
  - destruct (IH _ H Hw Hn Hv) as (? & ? & ?). split_and!; [done..|cbn; lia].
  - destruct (IH _ H Hw) as (? & ? & Hl).
    + by apply NoDup_snoc.
    + apply Forall_app_2; [done|]. apply Forall_singleton. split_and!; [|done..]. unfold validResolved. cbn. rewrite Eb. cbn.
      apply negb_true_iff, Z.eqb_neq. lia.
    + split_and!; [done..|]. rewrite length_app in Hl. cbn in *. lia.
Qed.

Lemma resolve_good lookup p endpoints :
  goodProfile p → goodLookup lookup → resolve lookup p = Ok endpoints → goodEndpoints p endpoints.
Proof.
  intros Hp Hl H. unfold resolve, endpointSnapshot in H. destruct (lo_cancelledBefore lookup); [done|].
  rewrite (gp_live p Hp) in H. pose proof (gp_port p Hp) as Hport. destruct (IsValid _) eqn:Ev.
  - injection H as <-. split; [done|cbn; unfold maximumResolvedIPs; lia|apply NoDup_singleton|].
    apply Forall_singleton. cbn. destruct (gp_endpoint p Hp) as [[[Ha Hpub] _]|[Hz _]]; [|by rewrite Hz in Ev].
    split_and!; [|apply Ha|done]. unfold validResolved. cbn. rewrite Hpub. cbn. apply negb_true_iff, Z.eqb_neq. lia.
  - destruct (lo_cancelledAfter lookup); [done|]. unfold goodLookup in Hl. destruct (lo_addresses lookup) as [l|]; [|done].
    destruct (_ || _) eqn:Eb; [done|]. bool_hyps. destruct (resolveLoop _ _ _) as [[|e r]|] eqn:Er; [done| |done].
    injection H as <-. apply resolveLoop_good in Er as (Hn & Hv & Hlen); [|lia|done|constructor|constructor].
    unfold sortEndpoints. pose proof (merge_sort_Permutation endpointBefore (e :: r)) as Hperm. split.
    + intros E. rewrite E in Hperm. by apply Permutation_nil_cons in Hperm.
    + rewrite Hperm. cbn in *. lia.
    + by rewrite Hperm.
    + by rewrite Hperm.
Qed.

(** ** Invariant *)

(** The last event about [key] issued this plan. *)
Definition issuedLast (trace : list event) (key : profileKey) (plan : nat) (endpoints : list resolvedEndpoint) : Prop :=
  ∃ before after, trace = before ++ EvIssue key plan endpoints :: after ∧ Forall (λ e, ¬ touches key e) after.

Lemma issuedLast_snoc trace key plan endpoints e :
  issuedLast trace key plan endpoints → ¬ touches key e → issuedLast (trace ++ [e]) key plan endpoints.
Proof.
  intros (before & after & -> & Ha) He. exists before, (after ++ [e]). rewrite <- app_assoc. split; [done|].
  apply Forall_app_2; [done|]. by apply Forall_singleton.
Qed.

Record entry_inv (st : MemoryStore) (trace : list event) (key : profileKey) (entry : storedProfile) : Prop := {
  ei_profile : goodProfile (sp_profile entry);
  ei_id : (sp_id entry < ms_next st)%nat;
  ei_plan : ∀ id, sp_plan entry = Some id →
    (id < ms_next st)%nat ∧ ∃ p, ms_plans st !! id = Some p ∧ pl_epoch p ≠ 0%Z ∧
      (pl_epoch p = sp_epoch entry → issuedLast trace key id (pl_endpoints p) ∧ goodEndpoints (sp_profile entry) (pl_endpoints p))
}.

Record store_inv (v : vstate) : Prop := {
  si_entries : ∀ key entry, ms_profiles (v_store v) !! key = Some entry → entry_inv (v_store v) (v_trace v) key entry;
  si_plans : ∀ k1 k2 e1 e2 id, ms_profiles (v_store v) !! k1 = Some e1 → ms_profiles (v_store v) !! k2 = Some e2 →
    sp_plan e1 = Some id → sp_plan e2 = Some id → k1 = k2;
  si_tickets : ∀ t, t ∈ v_pending v → tk_epoch t ≠ 0%Z ∧ (tk_entry t < ms_next (v_store v))%nat ∧
    ∀ entry, ms_profiles (v_store v) !! tk_key t = Some entry → sp_id entry = tk_entry t → sp_profile entry = tk_profile t;
  si_total : (size (ms_profiles (v_store v)) ≤ maximumStoredProfiles)%nat;
  si_owner : ∀ owner, (ownerCount (v_store v) owner ≤ maximumProfilesPerOwner)%nat
}.

Lemma issuedLast_app trace key plan endpoints evs :
  issuedLast trace key plan endpoints → Forall (λ e, ¬ touches key e) evs → issuedLast (trace ++ evs) key plan endpoints.
Proof.
  intros (before & after & -> & Ha) He. exists before, (after ++ evs). rewrite <- app_assoc. split; [done|].
  by apply Forall_app_2.
Qed.

Lemma entry_frame st st' trace evs key entry :
  entry_inv st trace key entry → (ms_next st ≤ ms_next st')%nat →
  (∀ id, sp_plan entry = Some id → ms_plans st' !! id = ms_plans st !! id) →
  Forall (λ e, ¬ touches key e) evs → entry_inv st' (trace ++ evs) key entry.
Proof.
  intros [Hp Hi Hplan] Hn Hs He. split; [done|lia|]. intros id Hid.
  destruct (Hplan id Hid) as (Hlt & p & Hl & Hz & Hlast). split; [lia|]. exists p. rewrite (Hs id Hid). split_and!; [done..|].
  intros E. destruct (Hlast E) as [Hi1 Hg]. split; [by apply issuedLast_app|done].
Qed.

(** The number of profiles of one owner. *)
Definition ofOwner (owner : Z) (m : gmap profileKey storedProfile) : gmap profileKey storedProfile :=
  filter (λ '(key, _), fst key = owner) m.

Lemma ownerCount_filter st owner : ownerCount st owner = size (ofOwner owner (ms_profiles st)).
Proof. done. Qed.

Lemma ofOwner_insert m key entry owner :
  (size (ofOwner owner (<[key := entry]> m)) ≤
   size (ofOwner owner m) + if bool_decide (fst key = owner ∧ m !! key = None) then 1 else 0)%nat.
Proof.
  unfold ofOwner. destruct (decide (fst key = owner)) as [Hk|Hk].
  - rewrite map_filter_insert_True by done. destruct (m !! key) as [e|] eqn:E.
    + rewrite map_size_insert_Some; [lia|]. exists e. by apply map_lookup_filter_Some.
    + rewrite map_size_insert_None, bool_decide_eq_true_2; [lia|done|]. apply map_lookup_filter_None. by left.
  - rewrite map_filter_insert_False by done. transitivity (size (filter (λ '(k, _), fst k = owner) m)); [|lia].
    apply map_subseteq_size, map_filter_subseteq_mono, delete_subseteq.
Qed.

Lemma ofOwner_delete m key owner : (size (ofOwner owner (delete key m)) ≤ size (ofOwner owner m))%nat.
Proof. unfold ofOwner. apply map_subseteq_size, map_filter_subseteq_mono, delete_subseteq. Qed.

(** One entry is replaced, or removed, and the others keep their plans. *)
Lemma inv_update v st' pending' evs key o :
  store_inv v →
  ms_profiles st' = partial_alter (λ _, o) key (ms_profiles (v_store v)) →
  (ms_next (v_store v) ≤ ms_next st')%nat →
  (∀ k e id, k ≠ key → ms_profiles (v_store v) !! k = Some e → sp_plan e = Some id →
     ms_plans st' !! id = ms_plans (v_store v) !! id ∧ ∀ e', o = Some e' → sp_plan e' ≠ Some id) →
  Forall (λ ev, ∀ k, k ≠ key → ¬ touches k ev) evs →
  (∀ e', o = Some e' → entry_inv st' (v_trace v ++ evs) key e') →
  (∀ t, t ∈ pending' → tk_epoch t ≠ 0%Z ∧ (tk_entry t < ms_next st')%nat ∧
     ∀ entry, ms_profiles st' !! tk_key t = Some entry → sp_id entry = tk_entry t → sp_profile entry = tk_profile t) →
  (is_Some o → ms_profiles (v_store v) !! key = None →
     (size (ms_profiles (v_store v)) < maximumStoredProfiles)%nat ∧
     (ownerCount (v_store v) (fst key) < maximumProfilesPerOwner)%nat) →
  store_inv (mkV st' pending' (v_trace v ++ evs)).
Proof.
  intros Hinv Hm Hn Hother Hev Hnew Ht Hroom. split; cbn.
  - intros k e. rewrite Hm. destruct (decide (k = key)) as [->|Hk].
    + rewrite lookup_partial_alter_eq. apply Hnew.
    + rewrite lookup_partial_alter_ne by done. intros Hl. eapply entry_frame; [by apply Hinv|done| |].
      * intros id Hid. by apply (Hother k e).
      * eapply Forall_impl; [done|]. intros ev H. by apply H.
  - intros k1 k2 e1 e2 id. rewrite !Hm. destruct (decide (k1 = key)) as [->|H1], (decide (k2 = key)) as [->|H2]; [done|..];
      rewrite ?lookup_partial_alter_eq, ?lookup_partial_alter_ne by done; intros L1 L2 P1 P2.
    + exfalso. by apply (proj2 (Hother k2 e2 id H2 L2 P2) e1 L1).
    + exfalso. by apply (proj2 (Hother k1 e1 id H1 L1 P1) e2 L2).
    + by apply (si_plans v Hinv k1 k2 e1 e2 id).
  - done.
  - rewrite Hm. pose proof (si_total v Hinv) as Hs. destruct o as [e|].
    + change (partial_alter (λ _, Some e) key ?m) with (<[key := e]> m).
      destruct (ms_profiles (v_store v) !! key) as [e0|] eqn:E.
      * by rewrite map_size_insert_Some by eauto.
      * rewrite map_size_insert_None by done. destruct (Hroom ltac:(eauto) eq_refl). lia.
    + change (partial_alter (λ _, None) key ?m) with (delete key m).
      etrans; [|apply Hs]. apply map_subseteq_size, delete_subseteq.
  - intros owner. rewrite ownerCount_filter, Hm. pose proof (si_owner v Hinv owner) as Hs. rewrite ownerCount_filter in Hs.
    destruct o as [e|].
    + change (partial_alter (λ _, Some e) key ?m) with (<[key := e]> m). etrans; [apply ofOwner_insert|].
      case_bool_decide as Hb; [|lia]. destruct Hb as [<- Hb]. destruct (Hroom ltac:(eauto) Hb) as [_ H].
      rewrite ownerCount_filter in H. lia.
    + change (partial_alter (λ _, None) key ?m) with (delete key m). etrans; [apply ofOwner_delete|done].
Qed.

Lemma invalidatePlan_other entry plans id : sp_plan entry ≠ Some id → invalidatePlan entry plans !! id = plans !! id.
Proof. unfold invalidatePlan. intros H. destruct (sp_plan entry); [|done]. apply lookup_insert_ne. congruence. Qed.

Lemma inv_closed v pending' evs :
  store_inv v → (∀ t, t ∈ pending' → t ∈ v_pending v) → store_inv (mkV (closeLocked (v_store v)) pending' (v_trace v ++ evs)) ∨ ms_closed (v_store v) = true.
Proof.
  intros Hinv Ht. unfold closeLocked. destruct (ms_closed (v_store v)); [by right|left]. split; cbn; try done.
  - intros t Hin. destruct (si_tickets v Hinv t (Ht t Hin)) as (? & ? & _). done.
  - rewrite map_size_empty. lia.
  - intros owner. rewrite ownerCount_filter. cbn. unfold ofOwner. rewrite map_filter_empty, map_size_empty. lia.
Qed.

(** A closed store is empty. *)
Definition closed_empty (st : MemoryStore) : Prop := ms_closed st = true → ms_profiles st = ∅.

(** Nothing changes but the history, which cannot touch an entry that is there. *)
Lemma inv_same v pending' evs :
  store_inv v → (∀ t, t ∈ pending' → t ∈ v_pending v) →
  (∀ k entry, ms_profiles (v_store v) !! k = Some entry → Forall (λ e, ¬ touches k e) evs) →
  store_inv (mkV (v_store v) pending' (v_trace v ++ evs)).
Proof.
  intros Hinv Ht He. split; cbn; try apply Hinv.
  - intros key entry Hl. eapply entry_frame; [by apply Hinv|lia|done|by eapply He].
  - intros t Hin. by apply Hinv, Ht.
Qed.

Lemma inv_import unicodeLower protected owner name source status err st st' pending trace :
  store_inv (mkV st pending trace) → closed_empty st →
  Import unicodeLower protected owner name source st = ((status, err), st') →
  store_inv (mkV st' pending (trace ++ match err with None => [EvImport (owner, name)] | Some storeClosed => [EvClose] | _ => [] end))
  ∧ closed_empty st'.
Proof.
  intros Hinv Hc H. set (v := mkV st pending trace) in *.
  assert (∀ e, e ≠ storeClosed → store_inv (mkV st pending (trace ++ match Some e with None => [EvImport (owner, name)] | Some storeClosed => [EvClose] | _ => [] end))) as Hsame.
  { intros e He. destruct e; try done; apply (inv_same v); done. }
  unfold Import in H. destruct (negb (profileNamePattern name)); [simplify_eq; split; [by apply (Hsame invalidProfile)|done]|].
  destruct (ParseSecret unicodeLower protected source) as [parsed|e] eqn:Eparse.
  2: { simplify_eq. split; [|done]. apply (Hsame e). unfold ParseSecret, Parse, parse in Eparse.
       repeat (case_match; simplify_eq; try done). }
  assert (goodProfile parsed) as Hgood.
  { unfold ParseSecret, Parse in Eparse. destruct source as [reads|]; [|done]. destruct (readLoop reads "" 0) as [raw|]; [|done].
    destruct (_ || _) in Eparse; [done|]. by eapply parse_good. }
  destruct (ms_closed st) eqn:Ecl.
  { simplify_eq. split; [|done]. apply (inv_same v); [done..|]. cbn. intros k e. by rewrite (Hc Ecl), lookup_empty. }
  cbv zeta in H. destruct (_ && _) eqn:Elimit; [simplify_eq; split; [by apply (Hsame profileLimit)|done]|].
  destruct (add64 _ 1 =? 0)%Z.
  { simplify_eq. unfold closeLocked. rewrite Ecl. split; [|done].
    destruct (inv_closed v pending [EvClose] Hinv ltac:(done)) as [Hx|Hx]; cbn in Hx; [|congruence].
    unfold closeLocked in Hx. by rewrite Ecl in Hx. }
  injection H as <- <- <-. split; [|done].
  set (entry := mkStored _ _ _ _ _ _).
  apply (inv_update v _ pending [EvImport (owner, name)] (owner, name) (Some entry)); try done.
  - cbn. lia.
  - intros k e id Hk Hl Hid. split; [|by intros e' [= <-]]. cbn.
    destruct (ms_profiles st !! (owner, name)) as [o|] eqn:Eo; [|done]. apply invalidatePlan_other. intros Ho.
    apply Hk. by apply (si_plans v Hinv k (owner, name) e o id).
  - apply Forall_singleton. intros k Hk E. by apply Hk.
  - intros e' [= <-]. split; cbn; [done|lia|done].
  - intros t Hin. destruct (si_tickets v Hinv t Hin) as (He & Hlt & Hp). cbn in *. split_and!; [done|lia|].
    intros e. destruct (decide (tk_key t = (owner, name))) as [->|Hk].
    + rewrite lookup_insert_eq. intros [= <-] E. cbn in E. lia.
    + rewrite lookup_insert_ne by done. apply Hp.
  - intros _ Hnone. change (ms_profiles (v_store v)) with (ms_profiles st) in Hnone. rewrite bool_decide_eq_true_2 in Elimit by exact Hnone.
    cbn [andb] in Elimit. apply orb_false_iff in Elimit as [E1 E2]. split; by apply Nat.leb_gt.
Qed.

Lemma inv_begin owner name r st st' pending trace :
  store_inv (mkV st pending trace) → closed_empty st → resolveBegin owner name st = (r, st') →
  store_inv (mkV st' (match r with inr t => t :: pending | inl _ => pending end)
               (trace ++ match r with inl (_, profileNotFound) => [] | _ => [EvBegin (owner, name)] end)) ∧
  closed_empty st'.
Proof.
  intros Hinv Hc H. set (v := mkV st pending trace) in *. unfold resolveBegin in H.
  destruct (negb (profileNamePattern name)); [simplify_eq; split; [by apply (inv_same v)|done]|].
  destruct (ms_closed st) eqn:Ecl.
  { simplify_eq. split; [|done]. apply (inv_same v); [done..|]. cbn. intros k e. by rewrite (Hc Ecl), lookup_empty. }
  cbv zeta in H. destruct (ms_profiles st !! (owner, name)) as [entry|] eqn:El.
  2: { simplify_eq. split; [by apply (inv_same v)|done]. }
  pose proof (si_entries v Hinv _ _ El) as [Hp Hid Hplan].
  assert (∀ st2 e2, ms_profiles st2 = <[(owner, name) := e2]> (ms_profiles st) → sp_id e2 = sp_id entry → sp_profile e2 = sp_profile entry →
    ms_next st2 = ms_next st → ∀ t, t ∈ pending → tk_epoch t ≠ 0%Z ∧ (tk_entry t < ms_next st2)%nat ∧
     ∀ e, ms_profiles st2 !! tk_key t = Some e → sp_id e = tk_entry t → sp_profile e = tk_profile t) as Htk.
  { intros st2 e2 Hm Hi Hpr Hn t Hin. destruct (si_tickets v Hinv t Hin) as (He & Hlt & Hq). rewrite Hn. split_and!; [done..|].
    intros e. rewrite Hm. destruct (decide (tk_key t = (owner, name))) as [Hk|Hk].
    - rewrite Hk, lookup_insert_eq. intros [= <-]. rewrite Hi, Hpr. apply Hq. by rewrite Hk.
    - rewrite lookup_insert_ne by done. apply Hq. }
  destruct (add64 (sp_epoch entry) 1 =? 0)%Z eqn:Ez; simplify_eq; (split; [|unfold closed_empty; cbn; congruence]).
  - apply (inv_update v _ _ [EvBegin (owner, name)] (owner, name)
      (Some (mkStored (sp_id entry) (sp_profile entry) (sp_generation entry) 0 (sp_rotation entry) (sp_plan entry)))); try done.
    + intros k e id Hk Hl Hi. split; [done|]. intros e' [= <-] Hs. apply Hk. cbn in Hs.
      by apply (si_plans v Hinv k (owner, name) e entry id).
    + apply Forall_singleton. intros k Hk E. by apply Hk.
    + intros e' [= <-]. split; cbn; [done..|]. intros id Hi. destruct (Hplan id Hi) as (Hlt & p & Hlp & Hz & _).
      split; [done|]. exists p. split_and!; done.
    + by eapply Htk.
    + intros _ E. pose proof (eq_trans (eq_sym E) El) as Hx. discriminate Hx.
  - apply (inv_update v _ _ [EvBegin (owner, name)] (owner, name)
      (Some (mkStored (sp_id entry) (sp_profile entry) (sp_generation entry) (add64 (sp_epoch entry) 1)
               RotationResolutionNeeded None))); try done.
    + intros k e id Hk Hl Hi. split; [|by intros e' [= <-]]. apply invalidatePlan_other. intros Ho. apply Hk.
      by apply (si_plans v Hinv k (owner, name) e entry id).
    + apply Forall_singleton. intros k Hk E. by apply Hk.
    + intros e' [= <-]. by split.
    + intros t [->|Hin]%elem_of_cons; [|by eapply Htk]. cbn. apply Z.eqb_neq in Ez. split_and!; [done..|].
      intros e. rewrite lookup_insert_eq. by intros [= <-].
    + intros _ E. pose proof (eq_trans (eq_sym E) El) as Hx. discriminate Hx.
Qed.

Lemma inv_commit t lookup outcome cancelled plan status err st st' pending trace :
  store_inv (mkV st pending trace) → closed_empty st → t ∈ pending → goodLookup lookup →
  (outcome = resolve lookup (tk_profile t) ∨ ∃ e, outcome = Err e) →
  resolveCommit t outcome cancelled st = ((plan, status, err), st') →
  store_inv (mkV st' pending
    (trace ++ match plan, outcome with Some id, Ok endpoints => [EvIssue (tk_key t) id endpoints] | _, _ => [] end)) ∧
  closed_empty st'.
Proof.
  intros Hinv Hc Hin Hl Ho H. set (v := mkV st pending trace) in *. unfold resolveCommit in H.
  destruct (ms_closed st) eqn:Ecl; [simplify_eq; split; [by apply (inv_same v)|done]|].
  destruct (ms_profiles st !! tk_key t) as [current|] eqn:El; [|simplify_eq; split; [by apply (inv_same v)|done]].
  destruct (_ || _) eqn:Eb in H; [simplify_eq; split; [by apply (inv_same v)|done]|].
  apply orb_false_iff in Eb as [[Eid%negb_false_iff Egen%negb_false_iff]%orb_false_iff Eep%negb_false_iff].
  apply bool_decide_eq_true in Eid. apply Z.eqb_eq in Egen, Eep.
  pose proof (si_entries v Hinv _ _ El) as [Hp Hid Hplan].
  destruct (si_tickets v Hinv t Hin) as (Hep & Hlt & Hprof). specialize (Hprof current El Eid).
  assert (∀ st2 e2, ms_profiles st2 = <[tk_key t := e2]> (ms_profiles st) → sp_id e2 = sp_id current →
    sp_profile e2 = sp_profile current → (ms_next st ≤ ms_next st2)%nat → ∀ u, u ∈ pending → tk_epoch u ≠ 0%Z ∧
     (tk_entry u < ms_next st2)%nat ∧
     ∀ e, ms_profiles st2 !! tk_key u = Some e → sp_id e = tk_entry u → sp_profile e = tk_profile u) as Htk.
  { intros st2 e2 Hm Hi Hpr Hn u Hu. destruct (si_tickets v Hinv u Hu) as (He & Hlu & Hq). cbn in Hlu. split_and!; [done|lia|].
    intros e. rewrite Hm. destruct (decide (tk_key u = tk_key t)) as [Hk|Hk].
    - rewrite Hk, lookup_insert_eq. intros [= <-]. rewrite Hi, Hpr. apply Hq. by rewrite Hk.
    - rewrite lookup_insert_ne by done. apply Hq. }
  cbv zeta in H.
  assert (∀ (e : result profile_error (list resolvedEndpoint)) r, plan = None → st' = setEntry (tk_key t) (mkStored (sp_id current) (sp_profile current) (sp_generation current)
      (sp_epoch current) r (sp_plan current)) (ms_plans st) st →
    store_inv (mkV st' pending (trace ++ match plan, e with Some id, Ok endpoints => [EvIssue (tk_key t) id endpoints] | _, _ => [] end))
    ∧ closed_empty st') as Hfail.
  { intros e r -> ->. split; [|unfold closed_empty; cbn; congruence].
    apply (inv_update v _ _ [] (tk_key t) (Some (mkStored (sp_id current) (sp_profile current) (sp_generation current)
      (sp_epoch current) r (sp_plan current)))); try done.
    - intros k e0 id Hk Hlk Hi. split; [done|]. intros e' [= <-] Hs. apply Hk. cbn in Hs.
      by apply (si_plans v Hinv k (tk_key t) e0 current id).
    - intros e' [= <-]. rewrite app_nil_r. by split.
    - by eapply Htk.
    - intros _ E. pose proof (eq_trans (eq_sym E) El) as Hx. discriminate Hx. }
  destruct outcome as [endpoints|e]; [|injection H as <- <- <- <-; by eapply (Hfail (Err e))].
  destruct cancelled; [injection H as <- <- <- <-; by eapply (Hfail (Ok endpoints))|].
  injection H as <- <- <- <-. split; [|unfold closed_empty; cbn; congruence].
  assert (goodEndpoints (sp_profile current) endpoints) as Hgood.
  { destruct Ho as [Ho|[e Ho]]; [|done]. rewrite Hprof. eapply resolve_good; [by rewrite <- Hprof|done|done]. }
  apply (inv_update v _ _ [EvIssue (tk_key t) (ms_next st) endpoints] (tk_key t)
    (Some (mkStored (sp_id current) (sp_profile current) (sp_generation current) (sp_epoch current) RotationCurrent (Some (ms_next st))))).
  - done.
  - done.
  - cbn. lia.
  - intros k e id Hk Hlk Hi. destruct (si_entries v Hinv k e Hlk) as [_ _ Hpl]. destruct (Hpl id Hi) as [Hlt' _]. cbn in Hlt'.
    cbn. split; [apply lookup_insert_ne; lia|]. intros e' [= <-] [= Hs]. lia.
  - apply Forall_singleton. intros k Hk E. by apply Hk.
  - intros e' [= <-]. split; cbn; [done|cbn in Hid; lia|]. intros id [= <-]. split; [lia|]. eexists. rewrite lookup_insert_eq.
    split_and!; [done|done|]. intros _. split; [|done]. exists trace, []. split; [done|constructor].
  - eapply Htk; [done..|cbn; lia].
  - intros _ E. pose proof (eq_trans (eq_sym E) El) as Hx. discriminate Hx.
Qed.

Lemma inv_remove owner name st pending trace :
  store_inv (mkV st pending trace) → closed_empty st →
  store_inv (mkV (Remove owner name st) pending (trace ++ [EvRemove (owner, name)])) ∧ closed_empty (Remove owner name st).
Proof.
  intros Hinv Hc. set (v := mkV st pending trace) in *. unfold Remove.
  destruct (ms_profiles st !! (owner, name)) as [entry|] eqn:El.
  - split.
    + apply (inv_update v _ _ [EvRemove (owner, name)] (owner, name) None); try done.
      * intros k e id Hk Hl Hi. split; [|done]. apply invalidatePlan_other. intros Ho. apply Hk.
        by apply (si_plans v Hinv k (owner, name) e entry id).
      * apply Forall_singleton. intros k Hk E. by apply Hk.
      * intros t Hin. destruct (si_tickets v Hinv t Hin) as (He & Hlt & Hq). split_and!; [done..|]. intros e.
        cbn. intros [_ Hl]%lookup_delete_Some. by apply Hq.
    + unfold closed_empty. cbn. intros E. by rewrite (Hc E), delete_empty.
  - split; [|done]. apply (inv_same v); [done..|]. intros k e Hl. apply Forall_singleton. intros E. cbn in E, Hl. subst k.
    pose proof (eq_trans (eq_sym Hl) El) as Hx. discriminate Hx.
Qed.

Lemma inv_close st pending trace :
  store_inv (mkV st pending trace) → closed_empty st →
  store_inv (mkV (Close st) pending (trace ++ [EvClose])) ∧ closed_empty (Close st).
Proof.
  intros Hinv Hc. set (v := mkV st pending trace) in *. unfold Close. split.
  - destruct (inv_closed v pending [EvClose] Hinv ltac:(done)) as [Hx|Hx]; [done|].
    cbn in Hx. unfold closeLocked. rewrite Hx. apply (inv_same v); [done..|]. intros k e. cbn. by rewrite (Hc Hx), lookup_empty.
  - unfold closeLocked, closed_empty. destruct (ms_closed st) eqn:E; cbn; [by intros; apply Hc|done].
Qed.

Definition v_reachable (unicodeLower : N → N) : vstate → Prop := rtc (vstep unicodeLower) v_initial.

Lemma reachable_store_inv unicodeLower v : v_reachable unicodeLower v → store_inv v ∧ closed_empty (v_store v).
Proof.
  intros H. unfold v_reachable in H. remember v_initial as v0 eqn:E0.
  assert (store_inv v0 ∧ closed_empty (v_store v0)) as H0.
  { subst v0. split; [|done]. split; cbn; try done.
    - intros t Hin. by apply not_elem_of_nil in Hin.
    - rewrite map_size_empty. lia.
    - intros owner. rewrite ownerCount_filter. cbn. unfold ofOwner. rewrite map_filter_empty, map_size_empty. lia. }
  clear E0. induction H as [v|v1 v2 v3 Hs _ IH]; [done|]. apply IH. clear IH. destruct H0 as [Hinv Hc].
  destruct Hs; cbn in Hc.
  - by eapply inv_import.
  - by eapply inv_begin.
  - by eapply inv_commit.
  - by apply inv_remove.
  - by apply inv_close.
Qed.

(** ** Properties *)

(** A plan is usable only while it is current.  Through any interleaving of
    imports, resolutions, removals and closing, a consumer that is given a
    profile through a plan sees the endpoints that were issued under that very
    plan, and since it was issued nothing was imported, resolved, removed or
    closed under its name; the endpoints are between 1 and 16 distinct public
    addresses with the profile's port, the configuration for the guest renders
    and parses back, and the store never exceeds its limits. *)
Theorem plan_use_is_current unicodeLower v cancelled owner name plan view :
  v_reachable unicodeLower v → UsePlan cancelled owner name plan (v_store v) = Ok view →
  (∃ before after, v_trace v = before ++ EvIssue (owner, name) plan (Endpoints view) :: after ∧
     Forall (λ e, ¬ touches (owner, name) e) after) ∧
  goodEndpoints (rv_profile view) (Endpoints view) ∧
  (∃ first rest text, Endpoints view = first :: rest ∧ WithGuestConfig false view = Ok text ∧
     Parse unicodeLower true [(text, EOF)] =
       Ok (withEndpoint (rv_profile view) (mkEndpoint "" (re_address first) (re_port first)))) ∧
  (size (ms_profiles (v_store v)) ≤ maximumStoredProfiles)%nat ∧
  (∀ o, (ownerCount (v_store v) o ≤ maximumProfilesPerOwner)%nat).
Proof.
  intros [Hinv _]%reachable_store_inv H. unfold UsePlan in H. destruct (negb _); [done|]. destruct (ms_closed _); [done|].
  destruct (ms_profiles (v_store v) !! (owner, name)) as [entry|] eqn:El; [|done].
  destruct (ms_plans (v_store v) !! plan) as [p|] eqn:Ep; [|done]. destruct (_ || _) eqn:Eb in H; [done|].
  destruct cancelled; [done|]. injection H as <-. bool_hyps. unfold Endpoints. cbn [rv_plan rv_profile].
  destruct (si_entries v Hinv _ _ El) as [Hp _ Hplan].
  match goal with Hs : sp_plan entry = Some plan |- _ => destruct (Hplan plan Hs) as (_ & p' & Hp' & _ & Hlast) end.
  rewrite Ep in Hp'. injection Hp' as <-.
  match goal with Hs : pl_epoch p = sp_epoch entry |- _ => destruct (Hlast Hs) as [Hi Hg] end.
  split_and!; [done|done| |apply Hinv|apply Hinv]. unfold WithGuestConfig. cbn [rv_plan rv_profile].
  destruct Hg as [Hn _ _ Hv]. destruct (pl_endpoints p) as [|first rest]; [done|]. apply Forall_cons in Hv as [(Hv & Hw & Hport) _].
  destruct (config_roundtrip unicodeLower (sp_profile entry) first Hp Hw Hv Hport) as (text & Ht & _ & _ & Hparse).
  by exists first, rest, text.
Qed.

(** ** An imported and resolved profile *)

Definition demoImport := Import (λ cp, cp) true 1000 "proton" (Some [(demoText, EOF)]) NewMemoryStore.
Definition demoBegin := resolveBegin 1000 "proton" demoImport.2.
Definition demoTicket : ticket :=
  match demoBegin.1 with inr t => t | inl _ => mkTicket (0%Z, "") 0 0 0 demoProfile end.
Definition demoLookup : lookupOutcome := mkLookup false (Some [Addr4 3117809414; Addr4 16843009; Addr4 3117809414]) false false.
Definition demoCommit := resolveCommit demoTicket (resolve demoLookup (tk_profile demoTicket)) false demoBegin.2.

Lemma step_import unicodeLower protected owner name source st pending trace r :
  r = Import unicodeLower protected owner name source st →
  ∃ evs, vstep unicodeLower (mkV st pending trace) (mkV r.2 pending (trace ++ evs)).
Proof. destruct r as [[status err] st']. intros E. eexists. by eapply v_import. Qed.

Lemma step_begin unicodeLower owner name st pending trace t r :
  r = resolveBegin owner name st → r.1 = inr t →
  ∃ evs, vstep unicodeLower (mkV st pending trace) (mkV r.2 (t :: pending) (trace ++ evs)).
Proof.
  destruct r as [r st']. intros E. cbn. intros ->. eexists.
  exact (v_begin unicodeLower owner name (inr t) st st' pending trace (eq_sym E)).
Qed.

Lemma step_commit unicodeLower t lookup cancelled st pending trace r :
  t ∈ pending → goodLookup lookup → r = resolveCommit t (resolve lookup (tk_profile t)) cancelled st →
  ∃ evs, vstep unicodeLower (mkV st pending trace) (mkV r.2 pending (trace ++ evs)).
Proof.
  intros Hin Hl. destruct r as [[[plan status] err] st']. intros E. eexists. by eapply v_commit; [| |left|].
Qed.

Lemma demo_reachable : ∃ trace, v_reachable (λ cp, cp) (mkV demoCommit.2 [demoTicket] trace).
Proof.
  destruct (step_import (λ cp, cp) true 1000 "proton" (Some [(demoText, EOF)]) NewMemoryStore [] [] demoImport ltac:(unfold demoImport; reflexivity)) as [t1 H1].
  destruct (step_begin (λ cp, cp) 1000 "proton" demoImport.2 [] ([] ++ t1) demoTicket demoBegin ltac:(unfold demoBegin; reflexivity)) as [t2 H2];
    [vm_compute; reflexivity|].
  destruct (step_commit (λ cp, cp) demoTicket demoLookup false demoBegin.2 [demoTicket] (([] ++ t1) ++ t2) demoCommit) as [t3 H3].
  { apply list_elem_of_here. }
  { unfold goodLookup. cbn. repeat constructor; unfold wellFormedAddr, two32; lia. }
  { unfold demoCommit. reflexivity. }
  eexists. eapply rtc_l; [exact H1|]. eapply rtc_l; [exact H2|]. eapply rtc_l; [exact H3|]. apply rtc_refl.
Qed.

Lemma plan_use_is_current_witness :
  ∃ plan view, demoCommit.1.1.1 = Some plan ∧ UsePlan false 1000 "proton" plan demoCommit.2 = Ok view ∧
    Endpoints view = [mkResolved (Addr4 16843009) 51820; mkResolved (Addr4 3117809414) 51820] ∧
    goodEndpoints (rv_profile view) (Endpoints view).
Proof.
  destruct demo_reachable as [trace Hr].
  assert (∃ plan view, demoCommit.1.1.1 = Some plan ∧ UsePlan false 1000 "proton" plan demoCommit.2 = Ok view ∧
    Endpoints view = [mkResolved (Addr4 16843009) 51820; mkResolved (Addr4 3117809414) 51820]) as (plan & view & Hp & Hu & He)
    by (eexists _, _; split; [vm_compute; reflexivity|split; [vm_compute; reflexivity|vm_compute; reflexivity]]).
  exists plan, view. split; [exact Hp|]. split; [exact Hu|]. split; [exact He|].
  apply (plan_use_is_current _ _ _ _ _ _ _ Hr Hu).
Defined.
