(* ===== verification/NetPolicy.v ===== *)
(** * Session network plans and endpoint policies

    Models [src/internal/network/model.go] and [policy.go]: the addresses and
    names derived from a session, the endpoint allowlist, and the two nftables
    tables that enforce it.  The tables are built twice: as the text the code
    writes ([namespaceRules], [hostRules]) and as syntax ([namespaceTableOf],
    [hostTableOf]) whose rendering is that text.  [hook] gives the syntax the
    documented meaning of nftables: the base chains of a hook see a packet in
    the order of their priorities, [drop] is final, and [accept] ends only the
    chain it stands in. *)

From Stdlib Require Import ZArith Lia Ascii.
From stdpp Require Import strings base tactics option sorting list.
From S2P Require Import Prelude GoText Sha256 Netip VpnProfile.

Open Scope string_scope.
Open Scope list_scope.

(** ** The plan of a session network *)

Definition maximumAllocationAttempts : Z := 64.
Definition maximumEndpointTuples : Z := 16.
Definition interfaceNameLimit : nat := 15.

Record topologySpec := mkSpec {
  namespace : string;
  hostVeth : string;
  namespaceVeth : string;
  tap : string;
  namespaceTable : string;
  hostTable : string;
  guestNetwork4 : Prefix;
  guestGateway4 : Prefix;
  guestAddress4 : Prefix;
  uplinkNetwork4 : Prefix;
  hostUplink4 : Prefix;
  namespaceUplink4 : Prefix;
  guestNetwork6 : Prefix;
  guestGateway6 : Prefix;
  guestAddress6 : Prefix;
  uplinkNetwork6 : Prefix;
  hostUplink6 : Prefix;
  namespaceUplink6 : Prefix;
  slot : Z
}.

Definition byteOf (value : Z) (shift : Z) : Z := Z.land (Z.shiftr value shift) 255.

Definition address4 (value : Z) : Addr :=
  AddrFrom4 [byteOf value 24; byteOf value 16; byteOf value 8; byteOf value 0].

(** [uint32] arithmetic is that of SHA-256's words. *)
Definition candidateFor (sessionID : string) (attempt : Z) : topologySpec :=
  let digest := sha256 (bytesOf (sessionID +:+ ":" +:+ decimal attempt)) in
  let suffix := hexEncode (textOf (take 5 digest)) in
  let slot := bigEndianValue (take 2 (drop 5 digest)) in
  let v4Base := word (0x0af00000 + word (slot * 8)) in
  let guestBase4 := address4 v4Base in
  let uplinkBase4 := address4 (word (v4Base + 4)) in
  let v6Base last := [0xfd; 0x70; 0x76; 0x6d; byteOf slot 8; byteOf slot 0; 0; 0; 0; 0; 0; 0; 0; 0; 0; last]%Z in
  let guestBase6 := AddrFrom16 (v6Base 0%Z) in
  let uplinkBase6 := AddrFrom16 (v6Base 4%Z) in
  mkSpec ("pvmn-" +:+ suffix) ("pvh" +:+ suffix) ("pvn" +:+ suffix) ("pvt" +:+ suffix)
    ("pvm_" +:+ suffix) ("pvmh_" +:+ suffix)
    (PrefixFrom guestBase4 30) (PrefixFrom (Next guestBase4) 30) (PrefixFrom (Next (Next guestBase4)) 30)
    (PrefixFrom uplinkBase4 30) (PrefixFrom (Next uplinkBase4) 30) (PrefixFrom (Next (Next uplinkBase4)) 30)
    (PrefixFrom guestBase6 126) (PrefixFrom (Next guestBase6) 126) (PrefixFrom (Next (Next guestBase6)) 126)
    (PrefixFrom uplinkBase6 126) (PrefixFrom (Next uplinkBase6) 126) (PrefixFrom (Next (Next uplinkBase6)) 126)
    slot.

(** ** The endpoint allowlist *)

Record endpointTuple := mkTuple { et_address : Addr; et_port : Z }.

#[global] Instance endpointTuple_eq_dec : EqDecision endpointTuple.
Proof. solve_decision. Defined.

Record endpointPolicy := mkEndpoints { v4s : list endpointTuple; v6s : list endpointTuple }.

Definition endpointTupleFor (address : Addr) (port : Z) : endpointTuple := mkTuple address port.

(** The application errors of [errors.go]; [PlanError] passes an error of the
    VPN store through, [ContextError] and [CallbackError] those of the caller's
    context and callback. *)
Inductive network_error :=
| invalidRequest | topologyExists | collisionExhausted | topologyFailed | policyFailed | policyAuditFailed
| topologyNotReady | cleanupIncomplete | ContextError | CallbackError | PlanError (e : profile_error).

Definition tupleLess (left right : endpointTuple) : bool :=
  if addrDiffers (et_address left) (et_address right) then addrLess (et_address left) (et_address right)
  else (et_port left <? et_port right)%Z.

Definition tupleBefore (left right : endpointTuple) : Prop := tupleLess right left = false.

#[global] Instance tupleBefore_dec : RelDecision tupleBefore.
Proof. unfold RelDecision, tupleBefore. intros. apply _. Defined.

Definition badEndpoint (endpoint : endpointTuple) : bool :=
  negb (IsValid (et_address endpoint)) || negb (bool_decide (Zone (et_address endpoint) = "")) ||
  Is4In6 (et_address endpoint) || negb (IsGlobalUnicast (et_address endpoint)) || (et_port endpoint =? 0)%Z.

Fixpoint collectLoop (endpoints seen : list endpointTuple) (policy : endpointPolicy) :
    result network_error endpointPolicy :=
  match endpoints with
  | [] => Ok policy
  | endpoint :: rest =>
      fail_if (badEndpoint endpoint) with invalidRequest ;;
      if bool_decide (endpoint ∈ seen) then collectLoop rest seen policy
      else if Is4 (et_address endpoint)
      then collectLoop rest (endpoint :: seen) (mkEndpoints (v4s policy ++ [endpoint]) (v6s policy))
      else collectLoop rest (endpoint :: seen) (mkEndpoints (v4s policy) (v6s policy ++ [endpoint]))
  end.

Definition collectPolicy (endpoints : list endpointTuple) : result network_error endpointPolicy :=
  fail_if ((len endpoints =? 0)%Z || (maximumEndpointTuples <? len endpoints)%Z) with invalidRequest ;;
  policy <-! collectLoop endpoints [] (mkEndpoints [] []) ;;
  Ok (mkEndpoints (merge_sort tupleBefore (v4s policy)) (merge_sort tupleBefore (v6s policy))).

(** ** The text of the rules *)

Definition policyOwnerComment := "private-vm:session-network-policy:v1".
Definition policyAuditChain := "egress_audit".
Definition auditForbiddenIPv4 := "private-vm:audit:forbidden-ipv4".
Definition auditForbiddenIPv6 := "private-vm:audit:forbidden-ipv6".
Definition auditForbiddenDNS := "private-vm:audit:forbidden-dns".
Definition auditForbiddenLANIPv4 := "private-vm:audit:forbidden-lan-ipv4".
Definition auditForbiddenLANIPv6 := "private-vm:audit:forbidden-lan-ipv6".
Definition auditUnrelatedPublic := "private-vm:audit:unrelated-public".

Definition auditCounterComments : list string :=
  [auditForbiddenIPv4; auditForbiddenIPv6; auditForbiddenDNS; auditForbiddenLANIPv4; auditForbiddenLANIPv6;
   auditUnrelatedPublic].

(** The double quote and the newline. *)
Definition dq : string := String "034" "".
Definition nl : string := String "010" "".

(** A [bytes.Buffer] that is only written to is the text written so far. *)
Definition write (destination : string) (values : list string) : string :=
  destination +:+ String.concat "" values.

Definition writeLine (destination : string) (values : list string) : string := write destination values +:+ nl.

Definition guest4 (spec : topologySpec) : string := addrString (pf_Addr (guestAddress4 spec)).
Definition guest6 (spec : topologySpec) : string := addrString (pf_Addr (guestAddress6 spec)).

Fixpoint writeElements (destination : string) (first : bool) (values : list endpointTuple) : string :=
  match values with
  | [] => destination
  | value :: rest =>
      let destination := if first then destination else write destination [", "] in
      writeElements (write destination [AppendTo (et_address value); " . "; decimal (et_port value)]) false rest
  end.

Definition writeEndpointSet (destination name addressType : string) (values : list endpointTuple) : string :=
  let destination := write destination [" set "; name; " { type "; addressType; " . inet_service; elements = { "] in
  writeLine (writeElements destination true values) [" } }"].

(** [if len(values) > 0 { ... }] on the buffer. *)
Definition whenNonEmpty {A} (values : list A) (body : string → string) (destination : string) : string :=
  if isNil values then destination else body destination.

Definition writeEndpointSets (destination : string) (policy : endpointPolicy) : string :=
  let destination := whenNonEmpty (v4s policy)
    (λ b, writeEndpointSet b "proton4" "ipv4_addr" (v4s policy)) destination in
  whenNonEmpty (v6s policy) (λ b, writeEndpointSet b "proton6" "ipv6_addr" (v6s policy)) destination.

Definition writeEndpointAcceptRules (destination : string) (spec : topologySpec) (policy : endpointPolicy) : string :=
  let destination := whenNonEmpty (v4s policy)
    (λ b, writeLine b ["  iifname "; dq; tap spec; dq; " oifname "; dq; namespaceVeth spec; dq; " ip saddr "; guest4 spec;
                       " ip daddr . udp dport @proton4 accept"]) destination in
  whenNonEmpty (v6s policy)
    (λ b, writeLine b ["  iifname "; dq; tap spec; dq; " oifname "; dq; namespaceVeth spec; dq; " ip6 saddr "; guest6 spec;
                       " ip6 daddr . udp dport @proton6 accept"]) destination.

Definition writeHostEndpointAcceptRules (destination : string) (spec : topologySpec) (policy : endpointPolicy) : string :=
  let destination := whenNonEmpty (v4s policy)
    (λ b, writeLine b ["  iifname "; dq; hostVeth spec; dq; " ip saddr "; guest4 spec;
                       " ip daddr . udp dport @proton4 accept"]) destination in
  whenNonEmpty (v6s policy)
    (λ b, writeLine b ["  iifname "; dq; hostVeth spec; dq; " ip6 saddr "; guest6 spec;
                       " ip6 daddr . udp dport @proton6 accept"]) destination.

Definition writeMasqueradeRules (destination : string) (spec : topologySpec) (policy : endpointPolicy) : string :=
  let destination := whenNonEmpty (v4s policy)
    (λ b, writeLine b ["  iifname "; dq; hostVeth spec; dq; " ip saddr "; guest4 spec;
                       " ip daddr . udp dport @proton4 masquerade"]) destination in
  whenNonEmpty (v6s policy)
    (λ b, writeLine b ["  iifname "; dq; hostVeth spec; dq; " ip6 saddr "; guest6 spec;
                       " ip6 daddr . udp dport @proton6 masquerade"]) destination.

Definition writeAuditChain (destination inputInterface : string) (spec : topologySpec) (policy : endpointPolicy) : string :=
  let b := writeLine destination [" chain "; policyAuditChain; " {"] in
  let b := writeLine b ["  type filter hook forward priority filter + 1; policy drop;"] in
  let b := whenNonEmpty (v4s policy)
    (λ b, writeLine b ["  iifname "; dq; inputInterface; dq; " ip saddr "; guest4 spec;
                       " ip daddr . udp dport @proton4 accept"]) b in
  let b := whenNonEmpty (v6s policy)
    (λ b, writeLine b ["  iifname "; dq; inputInterface; dq; " ip6 saddr "; guest6 spec;
                       " ip6 daddr . udp dport @proton6 accept"]) b in
  let b := writeLine b ["  iifname "; dq; inputInterface; dq; " meta nfproto ipv4 counter comment "; dq; auditForbiddenIPv4; dq] in
  let b := writeLine b ["  iifname "; dq; inputInterface; dq; " meta nfproto ipv6 counter comment "; dq; auditForbiddenIPv6; dq] in
  let b := writeLine b ["  iifname "; dq; inputInterface; dq;
    " meta l4proto { tcp, udp } th dport 53 counter return comment "; dq; auditForbiddenDNS; dq] in
  let b := writeLine b ["  iifname "; dq; inputInterface; dq;
    " ip daddr { 0.0.0.0/8, 10.0.0.0/8, 100.64.0.0/10, 127.0.0.0/8, 169.254.0.0/16, 172.16.0.0/12, 192.0.0.0/24, 192.0.2.0/24, 192.168.0.0/16, 198.18.0.0/15, 198.51.100.0/24, 203.0.113.0/24, 224.0.0.0/4, 240.0.0.0/4 } counter return comment ";
    dq; auditForbiddenLANIPv4; dq] in
  let b := writeLine b ["  iifname "; dq; inputInterface; dq;
    " ip6 daddr { ::/128, ::1/128, 100::/64, 2001:db8::/32, fc00::/7, fe80::/10, ff00::/8 } counter return comment ";
    dq; auditForbiddenLANIPv6; dq] in
  let b := writeLine b ["  iifname "; dq; inputInterface; dq; " counter comment "; dq; auditUnrelatedPublic; dq] in
  writeLine b [" }"].

Definition namespaceRules (spec : topologySpec) (policy : endpointPolicy) : string :=
  let b := writeLine "" ["table inet "; namespaceTable spec; " {"] in
  let b := writeLine b [" comment "; dq; policyOwnerComment; dq] in
  let b := writeEndpointSets b policy in
  let b := writeLine b [" chain input {"] in
  let b := writeLine b ["  type filter hook input priority filter; policy drop;"] in
  let b := writeLine b ["  iifname { "; dq; tap spec; dq; ", "; dq; namespaceVeth spec; dq;
    " } ip6 nexthdr icmpv6 icmpv6 type { nd-neighbor-solicit, nd-neighbor-advert } accept"] in
  let b := writeLine b [" }"] in
  let b := writeLine b [" chain output {"] in
  let b := writeLine b ["  type filter hook output priority filter; policy drop;"] in
  let b := writeLine b ["  oifname { "; dq; tap spec; dq; ", "; dq; namespaceVeth spec; dq;
    " } ip6 nexthdr icmpv6 icmpv6 type { nd-neighbor-solicit, nd-neighbor-advert } accept"] in
  let b := writeLine b [" }"] in
  let b := writeLine b [" chain forward {"] in
  let b := writeLine b ["  type filter hook forward priority filter; policy drop;"] in
  let b := writeLine b ["  iifname "; dq; namespaceVeth spec; dq; " oifname "; dq; tap spec; dq; " ip daddr "; guest4 spec;
    " ct state { established, related } accept"] in
  let b := writeLine b ["  iifname "; dq; namespaceVeth spec; dq; " oifname "; dq; tap spec; dq; " ip6 daddr "; guest6 spec;
    " ct state { established, related } accept"] in
  let b := writeEndpointAcceptRules b spec policy in
  let b := writeLine b [" }"] in
  let b := writeAuditChain b (tap spec) spec policy in
  writeLine b ["}"].

Definition hostRules (spec : topologySpec) (policy : endpointPolicy) : string :=
  let b := writeLine "" ["table inet "; hostTable spec; " {"] in
  let b := writeLine b [" comment "; dq; policyOwnerComment; dq] in
  let b := writeEndpointSets b policy in
  let b := writeLine b [" chain forward {"] in
  let b := writeLine b ["  type filter hook forward priority filter; policy accept;"] in
  let b := writeLine b ["  oifname "; dq; hostVeth spec; dq; " ip daddr "; guest4 spec;
    " ct state { established, related } accept"] in
  let b := writeLine b ["  oifname "; dq; hostVeth spec; dq; " ip6 daddr "; guest6 spec;
    " ct state { established, related } accept"] in
  let b := writeHostEndpointAcceptRules b spec policy in
  let b := writeLine b ["  iifname "; dq; hostVeth spec; dq; " drop"] in
  let b := writeLine b ["  oifname "; dq; hostVeth spec; dq; " drop"] in
  let b := writeLine b [" }"] in
  let b := writeLine b [" chain postrouting {"] in
  let b := writeLine b ["  type nat hook postrouting priority srcnat; policy accept;"] in
  let b := writeMasqueradeRules b spec policy in
  let b := writeLine b [" }"] in
  let b := writeAuditChain b (hostVeth spec) spec policy in
  writeLine b ["}"].

Definition deleteTableRules (table : string) : string := "delete table inet " +:+ table +:+ nl.

(** ** nftables: syntax and meaning *)

Inductive hookName := HookInput | HookOutput | HookForward | HookPostrouting.
Inductive verdict := Accept | Drop | Return | Masquerade.
Inductive l4 := Tcp (dport : Z) | Udp (dport : Z) | Icmp6 (type : Z) | OtherL4.
Inductive ctState := CtNew | CtEstablished | CtRelated | CtInvalid.

#[global] Instance hookName_eq_dec : EqDecision hookName.
Proof. solve_decision. Defined.

Record packet := mkPacket {
  p_iif : string;
  p_oif : string;
  p_src : Addr;
  p_dst : Addr;
  p_l4 : l4;
  p_ct : ctState
}.

Inductive clause :=
| iifname (names : list string)
| oifname (names : list string)
| saddr (a : Addr)
| daddr (a : Addr)
| daddrIn (six : bool) (prefixes : list Prefix)
| ctReply                                   (* ct state { established, related } *)
| endpointIn (six : bool) (set : string)    (* daddr . udp dport @set *)
| neighbourDiscovery
| nfproto (six : bool)
| dnsPort.

Record rule := mkRule {
  r_clauses : list clause;
  r_counter : bool;
  r_verdict : option verdict;
  r_comment : option string
}.

(** [priority] is an offset to the hook's standard priority: [filter] for the
    filter chains, [srcnat] for the NAT chain. *)
Record chain := mkChain {
  c_name : string;
  c_nat : bool;
  c_hook : hookName;
  c_priority : nat;
  c_policy : verdict;
  c_rules : list rule
}.

Record nftSet := mkSet { s_name : string; s_six : bool; s_elements : list endpointTuple }.

Record table := mkTable { t_name : string; t_comment : string; t_sets : list nftSet; t_chains : list chain }.

(** *** Meaning *)

Definition elementsOf (t : table) (name : string) : list endpointTuple :=
  concat (map s_elements (List.filter (λ s, bool_decide (s_name s = name)) (t_sets t))).

Definition familyOf (six : bool) (a : Addr) : bool := if six then Is6 a else Is4 a.

Definition clauseMatches (t : table) (p : packet) (c : clause) : bool :=
  match c with
  | iifname names => bool_decide (p_iif p ∈ names)
  | oifname names => bool_decide (p_oif p ∈ names)
  | saddr a => bool_decide (p_src p = a)
  | daddr a => bool_decide (p_dst p = a)
  | daddrIn six prefixes => familyOf six (p_dst p) && existsb (λ f, MaskedContains f (p_dst p)) prefixes
  | ctReply => match p_ct p with CtEstablished | CtRelated => true | _ => false end
  | endpointIn six set =>
      familyOf six (p_dst p) &&
      match p_l4 p with
      | Udp dport => bool_decide (mkTuple (p_dst p) dport ∈ elementsOf t set)
      | _ => false
      end
  | neighbourDiscovery =>
      Is6 (p_dst p) && match p_l4 p with Icmp6 type => (type =? 135)%Z || (type =? 136)%Z | _ => false end
  | nfproto six => familyOf six (p_dst p)
  | dnsPort => match p_l4 p with Tcp dport | Udp dport => (dport =? 53)%Z | _ => false end
  end.

Definition ruleMatches (t : table) (p : packet) (r : rule) : bool := forallb (clauseMatches t p) (r_clauses r).

Definition counted (r : rule) : list string :=
  if r_counter r then match r_comment r with Some comment => [comment] | None => [] end else [].

(** The verdict of a base chain and the comments of the counters it raised. *)
Fixpoint evalRules (t : table) (p : packet) (policy : verdict) (rules : list rule) : verdict * list string :=
  match rules with
  | [] => (policy, [])
  | r :: rest =>
      if ruleMatches t p r then
        match r_verdict r with
        | Some Return => (policy, counted r)
        | Some v => (v, counted r)
        | None => let '(v, raised) := evalRules t p policy rest in (v, counted r ++ raised)
        end
      else evalRules t p policy rest
  end.

Definition evalChain (t : table) (p : packet) (c : chain) : verdict * list string :=
  evalRules t p (c_policy c) (c_rules c).

(** A packet passes a hook when no chain drops it; later chains do not see a
    dropped packet. *)
Fixpoint evalChains (t : table) (p : packet) (chains : list chain) : bool * list string :=
  match chains with
  | [] => (true, [])
  | c :: rest =>
      match evalChain t p c with
      | (Drop, raised) => (false, raised)
      | (_, raised) => let '(passed, more) := evalChains t p rest in (passed, raised ++ more)
      end
  end.

Definition earlier (a b : chain) : Prop := (c_priority a ≤ c_priority b)%nat.

#[global] Instance earlier_dec : RelDecision earlier.
Proof. unfold RelDecision, earlier. intros. apply _. Defined.

Definition hook (t : table) (h : hookName) (p : packet) : bool * list string :=
  evalChains t p (merge_sort earlier (List.filter (λ c, bool_decide (c_hook c = h)) (t_chains t))).

(** The packet passes the hook. *)
Definition passes (t : table) (h : hookName) (p : packet) : bool := fst (hook t h p).

(** *** Text *)

Definition quoted (s : string) : string := dq +:+ s +:+ dq.

Definition braced (items : list string) : string := "{ " +:+ String.concat ", " items +:+ " }".

Definition renderNames (names : list string) : string :=
  match names with [n] => quoted n | _ => braced (map quoted names) end.

Definition ipWord (six : bool) : string := if six then "ip6" else "ip".

Definition renderClause (c : clause) : string :=
  match c with
  | iifname names => "iifname " +:+ renderNames names
  | oifname names => "oifname " +:+ renderNames names
  | saddr a => ipWord (Is6 a) +:+ " saddr " +:+ addrString a
  | daddr a => ipWord (Is6 a) +:+ " daddr " +:+ addrString a
  | daddrIn six prefixes => ipWord six +:+ " daddr " +:+ braced (map prefixString prefixes)
  | ctReply => "ct state { established, related }"
  | endpointIn six set => ipWord six +:+ " daddr . udp dport @" +:+ set
  | neighbourDiscovery => "ip6 nexthdr icmpv6 icmpv6 type { nd-neighbor-solicit, nd-neighbor-advert }"
  | nfproto six => "meta nfproto " +:+ (if six then "ipv6" else "ipv4")
  | dnsPort => "meta l4proto { tcp, udp } th dport 53"
  end.

Definition verdictWord (v : verdict) : string :=
  match v with Accept => "accept" | Drop => "drop" | Return => "return" | Masquerade => "masquerade" end.

Definition renderRule (r : rule) : string :=
  "  " +:+ String.concat " "
    (map renderClause (r_clauses r) ++
     (if r_counter r then ["counter"] else []) ++
     match r_verdict r with Some v => [verdictWord v] | None => [] end ++
     match r_comment r with Some c => ["comment " +:+ quoted c] | None => [] end) +:+ nl.

Definition hookWord (h : hookName) : string :=
  match h with HookInput => "input" | HookOutput => "output" | HookForward => "forward" | HookPostrouting => "postrouting" end.

Definition priorityWord (c : chain) : string :=
  (if c_nat c then "srcnat" else "filter") +:+
  match c_priority c with O => "" | S n => " + " +:+ decimal (Z.of_nat (S n)) end.

Definition renderChain (c : chain) : string :=
  " chain " +:+ c_name c +:+ " {" +:+ nl +:+
  "  type " +:+ (if c_nat c then "nat" else "filter") +:+ " hook " +:+ hookWord (c_hook c) +:+
  " priority " +:+ priorityWord c +:+ "; policy " +:+ verdictWord (c_policy c) +:+ ";" +:+ nl +:+
  String.concat "" (map renderRule (c_rules c)) +:+ " }" +:+ nl.

Definition renderElement (e : endpointTuple) : string := AppendTo (et_address e) +:+ " . " +:+ decimal (et_port e).

Definition renderElements (values : list endpointTuple) : string := String.concat ", " (map renderElement values).

Definition renderSet (s : nftSet) : string :=
  " set " +:+ s_name s +:+ " { type " +:+ (if s_six s then "ipv6_addr" else "ipv4_addr") +:+
  " . inet_service; elements = " +:+ "{ " +:+ renderElements (s_elements s) +:+ " }" +:+ " }" +:+ nl.

Definition renderTable (t : table) : string :=
  "table inet " +:+ t_name t +:+ " {" +:+ nl +:+
  " comment " +:+ quoted (t_comment t) +:+ nl +:+
  String.concat "" (map renderSet (t_sets t)) +:+
  String.concat "" (map renderChain (t_chains t)) +:+ "}" +:+ nl.

(** *** The two tables of a session *)

Definition ruleOf (clauses : list clause) (v : verdict) : rule := mkRule clauses false (Some v) None.

Definition perFamily {A} (policy : endpointPolicy) (four six : A) : list A :=
  (if isNil (v4s policy) then [] else [four]) ++ (if isNil (v6s policy) then [] else [six]).

Definition setsOf (policy : endpointPolicy) : list nftSet :=
  perFamily policy (mkSet "proton4" false (v4s policy)) (mkSet "proton6" true (v6s policy)).

(** [source] restricts where the packet comes from. *)
Definition endpointRules (source : list clause) (spec : topologySpec) (policy : endpointPolicy) (v : verdict) : list rule :=
  perFamily policy
    (ruleOf (source ++ [saddr (pf_Addr (guestAddress4 spec)); endpointIn false "proton4"]) v)
    (ruleOf (source ++ [saddr (pf_Addr (guestAddress6 spec)); endpointIn true "proton6"]) v).

Definition replyRules (source : list clause) (spec : topologySpec) : list rule :=
  [ruleOf (source ++ [daddr (pf_Addr (guestAddress4 spec)); ctReply]) Accept;
   ruleOf (source ++ [daddr (pf_Addr (guestAddress6 spec)); ctReply]) Accept].

Definition cidr4 (a b c d bits : Z) : Prefix := mkPrefix (AddrFrom4 [a; b; c; d]) bits.
Definition cidr6 (v bits : Z) : Prefix := mkPrefix (Addr6 v "") bits.

Definition forbiddenLAN4 : list Prefix := Eval vm_compute in
  [cidr4 0 0 0 0 8; cidr4 10 0 0 0 8; cidr4 100 64 0 0 10; cidr4 127 0 0 0 8; cidr4 169 254 0 0 16;
   cidr4 172 16 0 0 12; cidr4 192 0 0 0 24; cidr4 192 0 2 0 24; cidr4 192 168 0 0 16; cidr4 198 18 0 0 15;
   cidr4 198 51 100 0 24; cidr4 203 0 113 0 24; cidr4 224 0 0 0 4; cidr4 240 0 0 0 4].

Definition forbiddenLAN6 : list Prefix := Eval vm_compute in
  [cidr6 0 128; cidr6 1 128; cidr6 (0x0100 * 2 ^ 112) 64; cidr6 (0x20010db8 * 2 ^ 96) 32; cidr6 (0xfc00 * 2 ^ 112) 7;
   cidr6 (0xfe80 * 2 ^ 112) 10; cidr6 (0xff00 * 2 ^ 112) 8].

(** [return] is [None] for the counters that fall through. *)
Definition counterRule (clauses : list clause) (v : option verdict) (comment : string) : rule :=
  mkRule clauses true v (Some comment).

Definition auditChain (input : string) (spec : topologySpec) (policy : endpointPolicy) : chain :=
  mkChain policyAuditChain false HookForward 1 Drop
    (endpointRules [iifname [input]] spec policy Accept ++
     [counterRule [iifname [input]; nfproto false] None auditForbiddenIPv4;
      counterRule [iifname [input]; nfproto true] None auditForbiddenIPv6;
      counterRule [iifname [input]; dnsPort] (Some Return) auditForbiddenDNS;
      counterRule [iifname [input]; daddrIn false forbiddenLAN4] (Some Return) auditForbiddenLANIPv4;
      counterRule [iifname [input]; daddrIn true forbiddenLAN6] (Some Return) auditForbiddenLANIPv6;
      counterRule [iifname [input]] None auditUnrelatedPublic]).

Definition namespaceForward (spec : topologySpec) (policy : endpointPolicy) : chain :=
  mkChain "forward" false HookForward 0 Drop
    (replyRules [iifname [namespaceVeth spec]; oifname [tap spec]] spec ++
     endpointRules [iifname [tap spec]; oifname [namespaceVeth spec]] spec policy Accept).

Definition namespaceTableOf (spec : topologySpec) (policy : endpointPolicy) : table :=
  mkTable (namespaceTable spec) policyOwnerComment (setsOf policy)
    [mkChain "input" false HookInput 0 Drop [ruleOf [iifname [tap spec; namespaceVeth spec]; neighbourDiscovery] Accept];
     mkChain "output" false HookOutput 0 Drop [ruleOf [oifname [tap spec; namespaceVeth spec]; neighbourDiscovery] Accept];
     namespaceForward spec policy;
     auditChain (tap spec) spec policy].

Definition hostForward (spec : topologySpec) (policy : endpointPolicy) : chain :=
  mkChain "forward" false HookForward 0 Accept
    (replyRules [oifname [hostVeth spec]] spec ++
     endpointRules [iifname [hostVeth spec]] spec policy Accept ++
     [ruleOf [iifname [hostVeth spec]] Drop; ruleOf [oifname [hostVeth spec]] Drop]).

Definition hostTableOf (spec : topologySpec) (policy : endpointPolicy) : table :=
  mkTable (hostTable spec) policyOwnerComment (setsOf policy)
    [hostForward spec policy;
     mkChain "postrouting" true HookPostrouting 0 Accept (endpointRules [iifname [hostVeth spec]] spec policy Masquerade);
     auditChain (hostVeth spec) spec policy].

(** ** The text is the rendering of the syntax *)

Lemma writeElements_later b values :
  writeElements b false values = b +:+ String.concat "" (map (λ e, ", " +:+ renderElement e) values).
Proof.
  revert b. induction values as [|e rest IH]; intros b; [by rewrite append_nil_r|].
  cbn [writeElements map]. rewrite IH, concat_cons_nil. unfold write, renderElement. simpl.
  by rewrite !append_assoc.
Qed.

Lemma writeElements_text b values : writeElements b true values = b +:+ renderElements values.
Proof.
  unfold renderElements.
  destruct values as [|e rest]; [by rewrite append_nil_r|].
  cbn [writeElements map]. rewrite writeElements_later, concat_sep, map_map.
  unfold write, renderElement. simpl. by rewrite !append_assoc.
Qed.

(** The guest addresses have the families their rules name. *)
Definition guestFamilies (spec : topologySpec) : Prop :=
  Is4 (pf_Addr (guestAddress4 spec)) = true ∧ Is6 (pf_Addr (guestAddress6 spec)) = true.

Lemma is6_of_is4 a : Is4 a = true → Is6 a = false.
Proof. by destruct a. Qed.

(** Concatenations as trees, to compare them up to associativity. *)
Inductive cat := Leaf (s : string) | Cat (a b : cat).

Fixpoint catText (c : cat) : string :=
  match c with Leaf s => s | Cat a b => catText a +:+ catText b end.

Fixpoint catOnto (c : cat) (rest : string) : string :=
  match c with Leaf s => s +:+ rest | Cat a b => catOnto a (catOnto b rest) end.

Lemma catOnto_text c rest : catOnto c rest = catText c +:+ rest.
Proof. revert rest. induction c as [s|a IHa b IHb]; intros rest; simpl; [done|]. by rewrite IHa, IHb, append_assoc. Qed.

Lemma cat_equal a b : catOnto a "" = catOnto b "" → catText a = catText b.
Proof. by rewrite !catOnto_text, !append_nil_r. Qed.

Ltac quote_text t :=
  lazymatch t with
  | String.append ?a ?b => let qa := quote_text a in let qb := quote_text b in constr:(Cat qa qb)
  | _ => constr:(Leaf t)
  end.

Ltac same_text :=
  match goal with |- ?a = ?b =>
    let qa := quote_text a in let qb := quote_text b in apply (cat_equal qa qb); reflexivity
  end.

(** Evaluates both texts around the names, the guest addresses and the
    endpoint elements, and compares them as right-nested concatenations. *)
Ltac compare_texts spec H4 H6 :=
  cbv beta zeta iota delta [whenNonEmpty isNil v4s v6s writeEndpointSets writeEndpointSet];
  rewrite ?writeElements_text;
  cbv -[String.append addrString prefixString renderElements pf_Addr guestAddress4 guestAddress6 Is6 namespaceTable
        hostTable tap namespaceVeth hostVeth];
  rewrite ?(is6_of_is4 _ H4), ?H6;
  generalize (addrString (pf_Addr (guestAddress4 spec))) (addrString (pf_Addr (guestAddress6 spec))); intros ? ?;
  cbv -[String.append renderElements tap namespaceVeth hostVeth namespaceTable hostTable];
  repeat match goal with |- context [renderElements ?l] => generalize (renderElements l); intros ? end;
  same_text.

Lemma text_of_namespace spec policy :
  guestFamilies spec → namespaceRules spec policy = renderTable (namespaceTableOf spec policy).
Proof.
  intros [H4 H6]. unfold namespaceRules.
  destruct policy as [[|e4 l4] [|e6 l6]]; compare_texts spec H4 H6.
Qed.

Lemma text_of_host spec policy :
  guestFamilies spec → hostRules spec policy = renderTable (hostTableOf spec policy).
Proof.
  intros [H4 H6]. unfold hostRules.
  destruct policy as [[|e4 l4] [|e6 l6]]; compare_texts spec H4 H6.
Qed.

(** ** What the allowlist holds *)

Definition endpointsOf (policy : endpointPolicy) : list endpointTuple := v4s policy ++ v6s policy.

(** What a collected policy guarantees about the endpoints it was made from. *)
Record collected (endpoints : list endpointTuple) (policy : endpointPolicy) : Prop := {
  col_same : ∀ e, e ∈ endpointsOf policy ↔ e ∈ endpoints;
  col_good : Forall (λ e, badEndpoint e = false) endpoints;
  col_four : Forall (λ e, Is4 (et_address e) = true) (v4s policy);
  col_six : Forall (λ e, Is6 (et_address e) = true) (v6s policy);
  col_nodup : NoDup (endpointsOf policy)
}.

Lemma goodEndpoint_family e : badEndpoint e = false → Is6 (et_address e) = negb (Is4 (et_address e)).
Proof. intros H. destruct e as [[|v|v z] port]; [discriminate H|reflexivity..]. Qed.

Lemma collectLoop_collected endpoints seen policy done_ policy' :
  collectLoop endpoints seen policy = Ok policy' →
  collected done_ policy → (∀ e, e ∈ seen ↔ e ∈ done_) → collected (done_ ++ endpoints) policy'.
Proof.
  revert seen policy done_. induction endpoints as [|e rest IH]; intros seen policy done_ H Hc Hs; cbn [collectLoop] in H.
  { injection H as <-. by rewrite app_nil_r. }
  destruct (badEndpoint e) eqn:Hb; [done|]. pose proof (goodEndpoint_family e Hb) as Hf.
  rewrite cons_middle, app_assoc. destruct Hc as [Hsame Hgood H4 H6 Hnd].
  assert (Forall (λ e, badEndpoint e = false) (done_ ++ [e])) as Hgood'.
  { by apply Forall_app_2; [|apply Forall_singleton]. }
  case_bool_decide as Hin.
  { apply (IH _ _ _ H); [split; try done|]; intros x; rewrite ?Hsame, ?Hs, elem_of_app, list_elem_of_singleton;
      rewrite Hs in Hin; intuition congruence. }
  assert (e ∉ endpointsOf policy) as Hnew by (by rewrite Hsame, <- Hs).
  unfold endpointsOf in *. rewrite elem_of_app in Hnew.
  destruct (Is4 (et_address e)) eqn:E4; refine (IH _ _ _ H _ _);
    try (intros x; rewrite elem_of_cons, Hs, elem_of_app, list_elem_of_singleton; tauto);
    split; unfold endpointsOf in *; cbn [v4s v6s] in *; try done;
    try (apply Forall_app_2; [done|]; by apply Forall_singleton).
  1, 3: intros x; specialize (Hsame x); revert Hsame; rewrite !elem_of_app, list_elem_of_singleton; tauto.
  - rewrite <- app_assoc, (Permutation_app_comm [e]), app_assoc. apply NoDup_snoc; [done|]. by rewrite elem_of_app.
  - rewrite app_assoc. apply NoDup_snoc; [done|]. by rewrite elem_of_app.
Qed.

Lemma collected_permuted endpoints policy l4 l6 :
  collected endpoints policy → l4 ≡ₚ v4s policy → l6 ≡ₚ v6s policy → collected endpoints (mkEndpoints l4 l6).
Proof.
  intros [Hsame Hgood H4 H6 Hnd] P4 P6. split; unfold endpointsOf in *; cbn [v4s v6s].
  - intros e. rewrite P4, P6. apply Hsame.
  - done.
  - by rewrite P4.
  - by rewrite P6.
  - by rewrite P4, P6.
Qed.

Lemma collectPolicy_collected endpoints policy : collectPolicy endpoints = Ok policy → collected endpoints policy.
Proof.
  unfold collectPolicy. intros H. destruct (_ || _); [done|].
  destruct (collectLoop endpoints [] _) as [p|] eqn:Hl; [|done]. injection H as <-.
  eapply collected_permuted; [|apply merge_sort_Permutation..].
  apply (collectLoop_collected _ _ _ [] _ Hl); [|done]. split; cbn; try done. apply NoDup_nil_2.
Qed.

(** ** What the chains decide *)

(** Traffic the plan allows: from the guest's own address, over UDP, to an
    address and port of the allowlist. *)
Definition plannedIn (six : bool) (guest : Addr) (endpoints : list endpointTuple) (p : packet) : bool :=
  bool_decide (p_src p = guest) && (familyOf six (p_dst p) &&
  match p_l4 p with Udp dport => bool_decide (mkTuple (p_dst p) dport ∈ endpoints) | _ => false end).

Definition planned (spec : topologySpec) (policy : endpointPolicy) (p : packet) : bool :=
  plannedIn false (pf_Addr (guestAddress4 spec)) (v4s policy) p ||
  plannedIn true (pf_Addr (guestAddress6 spec)) (v6s policy) p.

(** Return traffic: addressed to the guest, of a known connection. *)
Definition replying (spec : topologySpec) (p : packet) : bool :=
  (bool_decide (p_dst p = pf_Addr (guestAddress4 spec)) || bool_decide (p_dst p = pf_Addr (guestAddress6 spec))) &&
  match p_ct p with CtEstablished | CtRelated => true | _ => false end.

Lemma elementsOf_sets t policy :
  t_sets t = setsOf policy → elementsOf t "proton4" = v4s policy ∧ elementsOf t "proton6" = v6s policy.
Proof.
  unfold elementsOf. intros ->. unfold setsOf, perFamily.
  destruct policy as [[|e4 l4] [|e6 l6]]; cbn [isNil v4s v6s app List.filter s_name];
    repeat case_bool_decide; try done; cbn [map concat s_elements app]; by rewrite ?app_nil_r.
Qed.

Lemma plannedIn_nil six guest p : plannedIn six guest [] p = false.
Proof.
  unfold plannedIn. destruct (p_l4 p) as [|dport| |]; by rewrite ?andb_false_r.
Qed.

(** A rule without counter either decides or is skipped. *)
Lemma plain_rule_eval t p policy_ clauses v rest :
  v ≠ Return →
  evalRules t p policy_ (ruleOf clauses v :: rest) =
  if forallb (clauseMatches t p) clauses then (v, []) else evalRules t p policy_ rest.
Proof.
  intros Hv. unfold ruleOf. cbn [evalRules]. unfold ruleMatches, counted. cbn [r_clauses r_verdict r_counter].
  destruct (forallb _ _); [|done]. by destruct v.
Qed.

Lemma endpointRules_eval t p policy_ source spec policy v rest :
  t_sets t = setsOf policy → v ≠ Return →
  evalRules t p policy_ (endpointRules source spec policy v ++ rest) =
  if forallb (clauseMatches t p) source && planned spec policy p then (v, []) else evalRules t p policy_ rest.
Proof.
  intros Ht Hv. destruct (elementsOf_sets t policy Ht) as [He4 He6].
  assert (∀ six set guest l k, elementsOf t set = l →
    evalRules t p policy_ ((if isNil l then [] else [ruleOf (source ++ [saddr guest; endpointIn six set]) v]) ++ k) =
    if forallb (clauseMatches t p) source && plannedIn six guest l p then (v, []) else evalRules t p policy_ k) as Hr.
  { intros six set guest [|e l] k Hl; cbn [isNil app]; [by rewrite plannedIn_nil, andb_false_r|].
    rewrite plain_rule_eval, forallb_app by done. cbn [forallb clauseMatches]. rewrite Hl, andb_true_r. done. }
  unfold endpointRules, perFamily. rewrite <- app_assoc, Hr, Hr by done. unfold planned.
  destruct (forallb _ source); simpl; [|done]. by destruct (plannedIn false _ _ _).
Qed.

Lemma replyRules_eval t p policy_ source spec rest :
  evalRules t p policy_ (replyRules source spec ++ rest) =
  if forallb (clauseMatches t p) source && replying spec p then (Accept, []) else evalRules t p policy_ rest.
Proof.
  unfold replyRules, replying. cbn [app]. rewrite !plain_rule_eval, !forallb_app by done. cbn [forallb clauseMatches].
  destruct (forallb _ source); simpl; [|done]. rewrite !andb_true_r.
  by destruct (bool_decide (p_dst p = _)), (bool_decide (p_dst p = _)), (p_ct p).
Qed.

Lemma clauseMatches_one t p n :
  clauseMatches t p (iifname [n]) = bool_decide (p_iif p = n) ∧ clauseMatches t p (oifname [n]) = bool_decide (p_oif p = n).
Proof. cbn [clauseMatches]. split; apply bool_decide_ext; apply list_elem_of_singleton. Qed.

(** The audit chain passes planned traffic that enters from [input], drops
    everything else, and counts only what enters from [input]. *)
Lemma auditChain_eval t p input spec policy :
  t_sets t = setsOf policy →
  (p_iif p = input → planned spec policy p = true → evalChain t p (auditChain input spec policy) = (Accept, [])) ∧
  (p_iif p = input → planned spec policy p = false → (evalChain t p (auditChain input spec policy)).1 = Drop) ∧
  (p_iif p ≠ input → evalChain t p (auditChain input spec policy) = (Drop, [])).
Proof.
  intros Ht. unfold evalChain, auditChain. cbn [c_policy c_rules]. rewrite endpointRules_eval by done.
  cbn [forallb]. destruct (clauseMatches_one t p input) as [-> _]. split_and!.
  - intros -> ->. by rewrite bool_decide_eq_true_2.
  - intros Hi ->. rewrite andb_false_r. unfold counterRule. cbn [evalRules].
    repeat (case_match; try done); simplify_eq/=; done.
  - intros Hi. rewrite bool_decide_eq_false_2 by done. cbn [andb]. unfold counterRule.
    assert (∀ cs c v m, ruleMatches t p (mkRule (iifname [input] :: cs) c v m) = false) as Hn.
    { intros. unfold ruleMatches. cbn [r_clauses forallb]. destruct (clauseMatches_one t p input) as [-> _].
      by rewrite bool_decide_eq_false_2. }
    cbn [evalRules]. by rewrite !Hn.
Qed.

(** ** The addresses and names of a session *)

Lemma word_small x : (0 ≤ x < 4294967296)%Z → word x = x.
Proof. intros H. unfold word. change 4294967295%Z with (Z.ones 32). rewrite Z.land_ones by done. by apply Z.mod_small. Qed.

Lemma byteOf_div value k : byteOf value (8 * Z.of_nat k) = ((value / 256 ^ Z.of_nat k) mod 256)%Z.
Proof.
  unfold byteOf. change 255%Z with (Z.ones 8). rewrite Z.land_ones, Z.shiftr_div_pow2, Z.pow_mul_r by lia. done.
Qed.

Lemma address4_value value : (0 ≤ value < two32)%Z → address4 value = Addr4 value.
Proof.
  intros H. unfold address4, AddrFrom4, bigEndianValue, two32 in *. cbn [foldl]. f_equal.
  pose proof (byteOf_div value 3) as H3. pose proof (byteOf_div value 2) as H2.
  pose proof (byteOf_div value 1) as H1. pose proof (byteOf_div value 0) as H0.
  change (256 ^ Z.of_nat 3)%Z with 16777216%Z in H3. change (256 ^ Z.of_nat 2)%Z with 65536%Z in H2.
  change (256 ^ Z.of_nat 1)%Z with 256%Z in H1. change (256 ^ Z.of_nat 0)%Z with 1%Z in H0.
  change (8 * Z.of_nat 3)%Z with 24%Z in H3. change (8 * Z.of_nat 2)%Z with 16%Z in H2.
  change (8 * Z.of_nat 1)%Z with 8%Z in H1. change (8 * Z.of_nat 0)%Z with 0%Z in H0.
  rewrite H3, H2, H1, H0. Z.div_mod_to_equations. lia.
Qed.

Definition base4 (slot : Z) : Z := (0x0af00000 + 8 * slot)%Z.
Definition base6 (slot : Z) : Z := (0xfd70766d * 2 ^ 96 + slot * 2 ^ 80)%Z.

Lemma slot_bytes slot : (0 ≤ slot < 65536)%Z → (byteOf slot 8 * 256 + byteOf slot 0 = slot)%Z.
Proof.
  intros H. pose proof (byteOf_div slot 1) as H1. pose proof (byteOf_div slot 0) as H0.
  change (256 ^ Z.of_nat 1)%Z with 256%Z in H1. change (256 ^ Z.of_nat 0)%Z with 1%Z in H0.
  change (8 * Z.of_nat 1)%Z with 8%Z in H1. change (8 * Z.of_nat 0)%Z with 0%Z in H0.
  rewrite H1, H0. Z.div_mod_to_equations. lia.
Qed.

(** A session's plan with its addresses written as numbers. *)
Definition planOf (suffix : string) (slot : Z) : topologySpec :=
  let a4 k := mkPrefix (Addr4 (base4 slot + k)) 30 in
  let a6 k := mkPrefix (Addr6 (base6 slot + k) "") 126 in
  mkSpec ("pvmn-" +:+ suffix) ("pvh" +:+ suffix) ("pvn" +:+ suffix) ("pvt" +:+ suffix) ("pvm_" +:+ suffix)
    ("pvmh_" +:+ suffix)
    (a4 0) (a4 1) (a4 2) (a4 4) (a4 5) (a4 6) (a6 0) (a6 1) (a6 2) (a6 4) (a6 5) (a6 6) slot.

Lemma Next4 v : (v + 1 ≠ two32)%Z → Next (Addr4 v) = Addr4 (v + 1).
Proof. intros H. unfold Next. by rewrite (proj2 (Z.eqb_neq _ _) H). Qed.

Lemma Next6 v : (v + 1 ≠ two128)%Z → Next (Addr6 v "") = Addr6 (v + 1) "".
Proof. intros H. unfold Next. by rewrite (proj2 (Z.eqb_neq _ _) H). Qed.

Lemma byte_bounds x : (0 ≤ Z.land x 255 < 256)%Z.
Proof. change 255%Z with (Z.ones 8). rewrite Z.land_ones by done. by apply Z.mod_pos_bound. Qed.

Lemma bigEndian_bytes n x : Forall (λ b, 0 ≤ b < 256)%Z (bigEndian n x).
Proof. induction n as [|n IH]; cbn [bigEndian]; constructor; [apply byte_bounds|done]. Qed.

Lemma sha256_bytes msg : Forall (λ b, 0 ≤ b < 256)%Z (sha256 msg).
Proof.
  unfold sha256. cbv zeta. cbn [concat map]. repeat apply Forall_app_2; try apply bigEndian_bytes. constructor.
Qed.

Lemma digest_slot msg : (0 ≤ bigEndianValue (take 2 (drop 5 (sha256 msg))) < 65536)%Z.
Proof.
  pose proof (sha256_bytes msg) as Hb. pose proof (sha256_length msg) as Hl.
  destruct (sha256 msg) as [|a0 [|a1 [|a2 [|a3 [|a4 [|a5 [|a6 rest]]]]]]]; try done.
  rewrite !Forall_cons in Hb. cbv beta in Hb. unfold bigEndianValue. cbn [drop take foldl]. rewrite firstn_O. cbn [foldl]. lia.
Qed.

(** Every candidate is a plan for a 16-bit slot and a ten-digit suffix. *)
Lemma candidateFor_plan sessionID attempt :
  let c := candidateFor sessionID attempt in
  (0 ≤ slot c < 65536)%Z ∧ ∃ suffix, String.length suffix = 10%nat ∧ c = planOf suffix (slot c).
Proof.
  unfold candidateFor. cbv zeta. set (msg := bytesOf _). cbn [slot].
  pose proof (digest_slot msg) as Hs. set (sl := bigEndianValue _) in *. split; [done|].
  exists (hexEncode (textOf (take 5 (sha256 msg)))). split.
  { pose proof (sha256_length msg) as Hl. set (d := sha256 msg) in *. clearbody d.
    by destruct d as [|a0 [|a1 [|a2 [|a3 [|a4 rest]]]]]. }
  rewrite (word_small (sl * 8)) by lia. rewrite word_small by lia. rewrite (word_small (_ + 4)) by lia.
  rewrite !address4_value by (unfold two32; lia). unfold AddrFrom16, bigEndianValue. cbn [foldl].
  assert (byteOf sl 8 * 256 + byteOf sl 0 = sl)%Z as Hsl by (by apply slot_bytes).
  assert (∀ last, (((((((((((((((0 * 256 + 253) * 256 + 112) * 256 + 118) * 256 + 109) * 256 + byteOf sl 8) * 256 + byteOf sl 0) * 256 +
    0) * 256 + 0) * 256 + 0) * 256 + 0) * 256 + 0) * 256 + 0) * 256 + 0) * 256 + 0) * 256 + 0) * 256 + last = base6 sl + last)%Z as Hb6.
  { intros last. unfold base6. lia. }
  rewrite !Hb6. unfold base4, base6.
  rewrite !Next4 by (unfold two32; lia). rewrite !Next6 by (unfold two128; lia).
  unfold planOf, base4, base6. cbn [PrefixFrom bitLen]. f_equal; unfold PrefixFrom; cbn [bitLen]; f_equal; f_equal; lia.
Qed.

(** ** What the tables let through *)

(** The traffic the VPN plan permits, in terms of the resolved endpoints. *)
Definition allowed (spec : topologySpec) (endpoints : list endpointTuple) (p : packet) : Prop :=
  ∃ dport, p_l4 p = Udp dport ∧ mkTuple (p_dst p) dport ∈ endpoints ∧
    ((Is4 (p_dst p) = true ∧ p_src p = pf_Addr (guestAddress4 spec)) ∨
     (Is6 (p_dst p) = true ∧ p_src p = pf_Addr (guestAddress6 spec))).

Lemma planned_allowed spec endpoints policy p :
  collected endpoints policy → planned spec policy p = true ↔ allowed spec endpoints p.
Proof.
  intros [Hsame _ H4 H6 _]. unfold planned, plannedIn, allowed, familyOf.
  rewrite Forall_forall in H4, H6. rewrite orb_true_iff, !andb_true_iff, !bool_decide_eq_true. split.
  - intros [(Hs & Hf & Hm)|(Hs & Hf & Hm)]; destruct (p_l4 p) as [|dport| |]; try discriminate Hm;
      apply bool_decide_eq_true in Hm; exists dport; rewrite <- Hsame; unfold endpointsOf; rewrite elem_of_app; auto 10.
  - intros (dport & Hl & Hin & Hf). rewrite Hl, !bool_decide_eq_true.
    rewrite <- Hsame in Hin. apply elem_of_app in Hin as [Hin|Hin].
    + specialize (H4 _ Hin). cbn in H4. pose proof (is6_of_is4 _ H4). left.
      destruct Hf as [[? ?]|[? ?]]; [done|congruence].
    + specialize (H6 _ Hin). cbn in H6. right. destruct Hf as [[Hf ?]|[? ?]]; [|done].
      apply is6_of_is4 in Hf. congruence.
Qed.

Lemma namespace_forward t p spec policy :
  t = namespaceTableOf spec policy →
  hook t HookForward p = evalChains t p [namespaceForward spec policy; auditChain (tap spec) spec policy].
Proof. by intros ->. Qed.

Lemma host_forward t p spec policy :
  t = hostTableOf spec policy →
  hook t HookForward p = evalChains t p [hostForward spec policy; auditChain (hostVeth spec) spec policy].
Proof. by intros ->. Qed.

Lemma namespaceForward_eval t p spec policy :
  t_sets t = setsOf policy →
  evalChain t p (namespaceForward spec policy) =
  (if (bool_decide (p_iif p = namespaceVeth spec) && bool_decide (p_oif p = tap spec) && replying spec p) ||
      (bool_decide (p_iif p = tap spec) && bool_decide (p_oif p = namespaceVeth spec) && planned spec policy p)
   then Accept else Drop, []).
Proof.
  intros Ht. unfold evalChain, namespaceForward. cbn [c_policy c_rules].
  rewrite replyRules_eval, <- (app_nil_r (endpointRules _ _ _ _)), endpointRules_eval by done. cbn [forallb evalRules].
  destruct (clauseMatches_one t p (tap spec)) as [-> ->], (clauseMatches_one t p (namespaceVeth spec)) as [-> ->].
  rewrite !andb_true_r. by repeat case_match.
Qed.

Lemma hostForward_eval t p spec policy :
  t_sets t = setsOf policy →
  evalChain t p (hostForward spec policy) =
  (if (bool_decide (p_oif p = hostVeth spec) && replying spec p) ||
      (bool_decide (p_iif p = hostVeth spec) && planned spec policy p) ||
      negb (bool_decide (p_iif p = hostVeth spec) || bool_decide (p_oif p = hostVeth spec))
   then Accept else Drop, []).
Proof.
  intros Ht. unfold evalChain, hostForward. cbn [c_policy c_rules].
  rewrite replyRules_eval, endpointRules_eval, !plain_rule_eval by done. cbn [forallb evalRules].
  destruct (clauseMatches_one t p (hostVeth spec)) as [-> ->]. rewrite !andb_true_r.
  destruct (bool_decide (p_iif p = _)), (bool_decide (p_oif p = _)), (replying spec p), (planned spec policy p); done.
Qed.

(** Interface names of one plan differ. *)
Lemma plan_names suffix sl : tap (planOf suffix sl) ≠ namespaceVeth (planOf suffix sl).
Proof. unfold planOf. cbn [tap namespaceVeth]. rewrite !append_cons. discriminate. Qed.

(** A primary chain that decides by [accepts], followed by the audit chain. *)
Lemma audited_hook t p primary accepts input spec policy :
  t_sets t = setsOf policy → evalChain t p primary = (if accepts : bool then Accept else Drop, []) →
  let r := evalChains t p [primary; auditChain input spec policy] in
  (r.1 = true ↔ accepts = true ∧ p_iif p = input ∧ planned spec policy p = true) ∧
  ((accepts = true → p_iif p = input → planned spec policy p = true) → r.2 = []).
Proof.
  intros Ht Hp. destruct (auditChain_eval t p input spec policy Ht) as (Ha & Hb & Hc).
  cbv zeta. cbn [evalChains]. rewrite Hp. destruct accepts; [|by split; [split; [done|intros (? & _)]|]].
  destruct (decide (p_iif p = input)) as [Hi|Hi]; [|rewrite (Hc Hi); naive_solver].
  destruct (planned spec policy p) eqn:E; [rewrite (Ha Hi eq_refl); naive_solver|].
  specialize (Hb Hi eq_refl). destruct (evalChain t p (auditChain _ _ _)) as [v raised]. simpl in Hb. subst v.
  split; [naive_solver|]. intros H. discriminate (H eq_refl Hi).
Qed.

Lemma namespace_passes spec policy p :
  tap spec ≠ namespaceVeth spec →
  (passes (namespaceTableOf spec policy) HookForward p = true ↔
   p_iif p = tap spec ∧ p_oif p = namespaceVeth spec ∧ planned spec policy p = true) ∧
  (hook (namespaceTableOf spec policy) HookForward p).2 = [].
Proof.
  intros Hn. unfold passes. rewrite (namespace_forward _ _ spec policy eq_refl).
  set (t := namespaceTableOf spec policy).
  destruct (audited_hook t p _ _ (tap spec) spec policy eq_refl (namespaceForward_eval t p spec policy eq_refl)) as [-> Hr].
  rewrite orb_true_iff, !andb_true_iff, !bool_decide_eq_true in *. split; [|apply Hr]; naive_solver congruence.
Qed.

Lemma host_passes spec policy p :
  (passes (hostTableOf spec policy) HookForward p = true ↔ p_iif p = hostVeth spec ∧ planned spec policy p = true) ∧
  (p_iif p ≠ hostVeth spec ∨ p_oif p ≠ hostVeth spec → (hook (hostTableOf spec policy) HookForward p).2 = []).
Proof.
  unfold passes. rewrite (host_forward _ _ spec policy eq_refl). set (t := hostTableOf spec policy).
  destruct (audited_hook t p _ _ (hostVeth spec) spec policy eq_refl (hostForward_eval t p spec policy eq_refl)) as [-> Hr].
  rewrite !orb_true_iff, !andb_true_iff, negb_true_iff, orb_false_iff, !bool_decide_eq_true, !bool_decide_eq_false in *.
  split; [naive_solver|]. intros H. apply Hr. naive_solver.
Qed.

Lemma candidate_names sessionID attempt :
  let spec := candidateFor sessionID attempt in tap spec ≠ namespaceVeth spec ∧ guestFamilies spec.
Proof.
  destruct (candidateFor_plan sessionID attempt) as (_ & suffix & _ & H). cbv zeta in *. rewrite H.
  split; [apply plan_names|done].
Qed.

(** A hook with one chain of one accepting rule. *)
Lemma single_rule_hook t p h name c P :
  hook t h p = evalChains t p [mkChain name false h 0 Drop [ruleOf [c; neighbourDiscovery] Accept]] →
  (clauseMatches t p c = true ↔ P) →
  passes t h p = true ↔ P ∧ clauseMatches t p neighbourDiscovery = true.
Proof.
  unfold passes. intros -> <-. cbn [evalChains]. unfold evalChain. cbn [c_policy c_rules].
  rewrite plain_rule_eval by done. cbn [forallb evalRules].
  destruct (clauseMatches t p c), (clauseMatches t p neighbourDiscovery); naive_solver.
Qed.

(** C13: guest traffic leaves the host exactly when the VPN plan permits it.
    For the policy collected from a plan's endpoints and the network of any
    session, the text handed to nft is the rendering of tables under which a
    packet from the guest's tap crosses the namespace and the host veth if and
    only if it comes from the guest's own address and goes over UDP to an
    address and port of the endpoints; the namespace itself accepts and sends
    nothing but neighbour discovery on its two interfaces, and no packet that
    crosses it raises a forbidden-traffic counter. *)
Theorem egress_is_exactly_the_plan sessionID attempt endpoints policy :
  collectPolicy endpoints = Ok policy →
  let spec := candidateFor sessionID attempt in
  let inner := namespaceTableOf spec policy in
  let outer := hostTableOf spec policy in
  namespaceRules spec policy = renderTable inner ∧ hostRules spec policy = renderTable outer ∧
  (∀ p, passes inner HookForward p = true ↔
        p_iif p = tap spec ∧ p_oif p = namespaceVeth spec ∧ allowed spec endpoints p) ∧
  (∀ p, p_iif p = hostVeth spec → passes outer HookForward p = true ↔ allowed spec endpoints p) ∧
  (∀ p, passes inner HookInput p = true ↔
        (p_iif p = tap spec ∨ p_iif p = namespaceVeth spec) ∧ clauseMatches inner p neighbourDiscovery = true) ∧
  (∀ p, passes inner HookOutput p = true ↔
        (p_oif p = tap spec ∨ p_oif p = namespaceVeth spec) ∧ clauseMatches inner p neighbourDiscovery = true) ∧
  (∀ p, (hook inner HookForward p).2 = []).
Proof.
  intros H%collectPolicy_collected spec inner outer.
  assert (tap spec ≠ namespaceVeth spec ∧ guestFamilies spec) as [Hn Hf] by apply candidate_names.
  split_and!; [by apply text_of_namespace|by apply text_of_host|..]; intros p.
  - unfold inner. rewrite (proj1 (namespace_passes spec policy p Hn)). by rewrite (planned_allowed _ _ _ _ H).
  - intros Hi. unfold outer. rewrite (proj1 (host_passes spec policy p)), (planned_allowed _ _ _ _ H). tauto.
  - apply (single_rule_hook inner p HookInput "input" (iifname [tap spec; namespaceVeth spec])); [done|].
    cbn [clauseMatches]. rewrite bool_decide_eq_true, elem_of_cons, list_elem_of_singleton. done.
  - apply (single_rule_hook inner p HookOutput "output" (oifname [tap spec; namespaceVeth spec])); [done|].
    cbn [clauseMatches]. rewrite bool_decide_eq_true, elem_of_cons, list_elem_of_singleton. done.
  - by apply namespace_passes.
Qed.

(** The audit hook drops return traffic.  Both primary chains accept the
    packets of an established connection addressed to the guest, and the host's
    primary chain accepts traffic that does not touch the session's veth; but
    the later audit hook has policy drop and accepts only outgoing planned
    packets, so in both tables every such packet is dropped. *)
Theorem audit_hook_drops_replies sessionID attempt policy p :
  let spec := candidateFor sessionID attempt in
  let inner := namespaceTableOf spec policy in
  let outer := hostTableOf spec policy in
  (p_iif p = namespaceVeth spec → p_oif p = tap spec → replying spec p = true →
     (evalChain inner p (namespaceForward spec policy)).1 = Accept ∧ passes inner HookForward p = false) ∧
  (p_iif p ≠ hostVeth spec → passes outer HookForward p = false ∧
     (replying spec p = true ∨ p_oif p ≠ hostVeth spec → (evalChain outer p (hostForward spec policy)).1 = Accept)).
Proof.
  intros spec inner outer. assert (tap spec ≠ namespaceVeth spec) as Hn by apply candidate_names.
  rewrite (namespaceForward_eval inner p spec policy eq_refl), (hostForward_eval outer p spec policy eq_refl).
  cbn [fst]. split.
  - intros Hi Ho Hr. rewrite !bool_decide_eq_true_2, Hr by done. split; [done|].
    apply not_true_is_false. unfold inner. rewrite (proj1 (namespace_passes spec policy p Hn)). intros [? _]. congruence.
  - intros Hi. split.
    + apply not_true_is_false. unfold outer. rewrite (proj1 (host_passes spec policy p)). by intros [? _].
    + rewrite (bool_decide_eq_false_2 (p_iif p = _)) by done. destruct (bool_decide_reflect (p_oif p = hostVeth spec)); [|done].
      by intros [->|?].
Qed.

(** ** A session with one endpoint of each family *)

Definition demoEndpoints : list endpointTuple :=
  [mkTuple (Addr6 0x26064700470000000000000000001111 "") 51820; mkTuple (Addr4 16843009) 51820;
   mkTuple (Addr4 16843009) 51820].

Definition demoPolicy : endpointPolicy :=
  mkEndpoints [mkTuple (Addr4 16843009) 51820] [mkTuple (Addr6 0x26064700470000000000000000001111 "") 51820].

Definition demoSpec : topologySpec := candidateFor "s-0123456789abcdef" 0.

Definition demoPacket (l : l4) : packet :=
  mkPacket (tap demoSpec) (namespaceVeth demoSpec) (pf_Addr (guestAddress4 demoSpec)) (Addr4 16843009) l CtNew.

Definition demoReply : packet :=
  mkPacket (namespaceVeth demoSpec) (tap demoSpec) (Addr4 16843009) (pf_Addr (guestAddress4 demoSpec)) (Udp 40000)
    CtEstablished.

Lemma egress_is_exactly_the_plan_witness :
  collectPolicy demoEndpoints = Ok demoPolicy ∧
  passes (namespaceTableOf demoSpec demoPolicy) HookForward (demoPacket (Udp 51820)) = true ∧
  passes (namespaceTableOf demoSpec demoPolicy) HookForward (demoPacket (Udp 53)) = false ∧
  allowed demoSpec demoEndpoints (demoPacket (Udp 51820)).
Proof.
  assert (collectPolicy demoEndpoints = Ok demoPolicy) as H by (by vm_compute).
  destruct (egress_is_exactly_the_plan "s-0123456789abcdef" 0 _ _ H) as (_ & _ & Hp & _).
  assert (passes (namespaceTableOf demoSpec demoPolicy) HookForward (demoPacket (Udp 51820)) = true) as Hpass
    by (vm_compute; reflexivity).
  split; [done|]. split; [done|]. split; [vm_compute; reflexivity|]. apply (proj1 (Hp _) Hpass).
Defined.

Lemma audit_hook_drops_replies_witness :
  replying demoSpec demoReply = true ∧ passes (namespaceTableOf demoSpec demoPolicy) HookForward demoReply = false ∧
  passes (hostTableOf demoSpec demoPolicy) HookForward demoReply = false.
Proof.
  destruct (audit_hook_drops_replies "s-0123456789abcdef" 0 demoPolicy demoReply) as [Hn Hh].
  assert (replying demoSpec demoReply = true) as Hr by (vm_compute; reflexivity).
  split; [done|]. split; [by apply (Hn eq_refl eq_refl Hr)|]. apply Hh. vm_compute. discriminate.
Defined.
