(* ===== verification/SessionModel.v ===== *)
(** * Session records: lifecycle, workflows and the volatile journal

    Models [src/internal/session/model.go] and the identifier pattern of
    [src/internal/session/store.go]: roles, phases, the closed transition
    tables, the in-memory [Session], and the validator that every journal must
    pass before it is written to or accepted from the runtime directory. *)

From Stdlib Require Import ZArith Lia Ascii.
From stdpp Require Import strings base tactics option gmap relations list.
From S2P Require Import Prelude.

Open Scope string_scope.
Open Scope list_scope.

(** ** Constants and data *)

Definition maxSessionEvents : Z := 4096.
Definition cleanupEventReserve : Z := 3.

(** A Go [Role] is a string; [RoleOther] stands for every string that is not
    one of the four declared constants. *)
Inductive Role :=
| RoleWorkstation
| RoleDownloader
| RoleScanner
| RoleExporter
| RoleOther (name : string).

(** A Go [Phase] is a string; [PhaseOther] stands for every undeclared one. *)
Inductive Phase :=
| PhaseCreated
| PhasePreflighted
| PhaseImagesVerified
| PhaseStorageReady
| PhaseActive
| PhaseStopping
| PhaseAborting
| PhaseDestroying
| PhaseDestroyed
| PhaseOther (name : string).

#[global] Instance Role_eq_dec : EqDecision Role.
Proof. solve_decision. Defined.
#[global] Instance Phase_eq_dec : EqDecision Phase.
Proof. solve_decision. Defined.

(** Instants are nanoseconds since Go's zero time; [IsZero] is [= 0] and
    [UTC()] does not change the instant. *)
Abbreviation Time := Z (only parsing).

Inductive session_error :=
| ErrInvalidTransition
| ErrInvalidWorkflow
| ErrUnauthorized
| ErrNotFound
| ErrQuotaExceeded
| ErrCleanupIncomplete
| ErrEventLimit
| ErrEventCursor
| ErrSubscriberSlow
| ErrDuplicateResource
| ErrResourceRegistrationEnd
| ErrManagerShuttingDown
| ErrExist                                (* fs.ErrExist *)
| ErrContext                              (* ctx.Err() *)
| ErrMessage (text : string)              (* errors.New without a sentinel *)
| ErrJoin (left right : session_error).   (* errors.Join *)

(** [lifecycleTransitions[from][to]] *)
Definition lifecycleTransitions (from to : Phase) : bool :=
  match from, to with
  | PhaseCreated, (PhasePreflighted | PhaseAborting)
  | PhasePreflighted, (PhaseImagesVerified | PhaseAborting)
  | PhaseImagesVerified, (PhaseStorageReady | PhaseAborting)
  | PhaseStorageReady, (PhaseActive | PhaseAborting)
  | PhaseActive, (PhaseStopping | PhaseAborting)
  | PhaseStopping, (PhaseDestroying | PhaseAborting)
  | PhaseAborting, PhaseDestroying
  | PhaseDestroying, PhaseDestroyed => true
  | _, _ => false
  end.

(** [lifecycleEvents[phase]]: stable code and safe message. *)
Definition lifecycleEvents (p : Phase) : option (string * string) :=
  match p with
  | PhasePreflighted => Some ("SESSION_PREFLIGHTED", "Host preflight completed.")
  | PhaseImagesVerified => Some ("SESSION_IMAGES_VERIFIED", "Guest image verification completed.")
  | PhaseStorageReady => Some ("SESSION_STORAGE_READY", "Session storage is ready.")
  | PhaseActive => Some ("SESSION_ACTIVE", "The session is active.")
  | PhaseStopping => Some ("SESSION_STOPPING", "A protected stop was requested.")
  | PhaseAborting => Some ("SESSION_ABORTING", "Session cleanup was requested.")
  | PhaseDestroying => Some ("SESSION_DESTROYING", "Owned resources are being released.")
  | PhaseDestroyed => Some ("SESSION_DESTROYED", "The resource absence audit completed.")
  | _ => None
  end.

(** The keys of [lifecycleEvents], for the loops that range over the map. *)
Definition lifecycleEventPhases : list Phase :=
  [PhasePreflighted; PhaseImagesVerified; PhaseStorageReady; PhaseActive;
   PhaseStopping; PhaseAborting; PhaseDestroying; PhaseDestroyed].

(** ** Role workflows: [map[string]map[string]bool] tables *)

Definition table_get (t : gmap string (gmap string bool)) (from to : string) : bool :=
  match t !! from with
  | Some row => default false (row !! to)
  | None => false
  end.

Definition linearWorkflow (states : list string) : gmap string (gmap string bool) :=
  (fold_left (λ acc state, (<[acc.2 := {[state := true]}]> acc.1, state)) states (∅, "")).1.

Definition workstationWorkflow : gmap string (gmap string bool) :=
  let result := linearWorkflow
    ["PLANNED"; "IMAGE_READY"; "STORAGE_READY"; "NETWORK_READY"; "VM_BOOTING";
     "GUEST_AUTHENTICATED"; "VPN_CONFIGURED"; "VPN_VERIFIED"; "DISPLAY_READY";
     "WORKING"; "EXPORT_REQUIRED"; "STOP_REQUESTED"; "OUTPUT_VERIFIED";
     "VM_STOPPED"; "SESSION_DESTROYED"] in
  let result := <["WORKING" := <["EXPORT_REQUIRED" := true]> {["CLEAN" := true]}]> result in
  <["CLEAN" := {["STOP_REQUESTED" := true]}]> result.

Definition scannerWorkflow : gmap string (gmap string bool) :=
  let result := linearWorkflow
    ["UPDATE_VM_BOOTING"; "DEFINITIONS_UPDATING"; "DEFINITIONS_VERIFIED";
     "UPDATE_VM_STOPPED"; "SCAN_VM_BOOTING_OFFLINE"; "OFFLINE_VERIFIED";
     "QUARANTINE_ATTACHED_READ_ONLY"; "INVENTORY_COMPLETE"; "MALWARE_SCAN_COMPLETE";
     "RECONSTRUCTION_COMPLETE"; "REPORT_COMPLETE"; "POLICY_APPROVED"; "SCAN_VM_STOPPED"] in
  let result := <["REPORT_COMPLETE" := <["POLICY_APPROVED" := true]> {["POLICY_REJECTED" := true]}]> result in
  <["POLICY_REJECTED" := {["SCAN_VM_STOPPED" := true]}]> result.

Definition downloaderWorkflow : gmap string (gmap string bool) :=
  let result := linearWorkflow
    ["PLANNED"; "SCANNER_UPDATE_PREPARED"; "DOWNLOADER_BOOTING"; "GUEST_AUTHENTICATED";
     "VPN_CONFIGURED"; "VPN_VERIFIED"; "METADATA_FETCHING"; "METADATA_READY";
     "FILE_SELECTION_REQUIRED"; "CAPACITY_VERIFIED"; "DOWNLOADING"; "DOWNLOAD_COMPLETE";
     "DOWNLOADER_STOPPED"; "QUARANTINE_SEALED"] in
  let result := <["DOWNLOADING" := <["DOWNLOAD_PAUSED" := true]> {["DOWNLOAD_COMPLETE" := true]}]> result in
  <["DOWNLOAD_PAUSED" := <["DOWNLOADING" := true]> {["DOWNLOAD_COMPLETE" := true]}]> result.

Definition exporterWorkflow : gmap string (gmap string bool) :=
  linearWorkflow
    ["PLANNED"; "USB_IDENTIFIED"; "USB_CLAIMED"; "EXPORTER_BOOTING";
     "GUEST_AUTHENTICATED"; "NO_NETWORK_VERIFIED"; "USB_ATTACHED";
     "DESTINATION_PREPARED"; "STREAMING"; "STREAM_COMPLETE"; "FLUSHED";
     "POST_WRITE_VERIFIED"; "USB_UNMOUNTED"; "USB_DETACHED"; "EXPORTER_STOPPED"].

(** [workflowTransitions[role]] *)
Definition workflowTable (role : Role) : gmap string (gmap string bool) :=
  match role with
  | RoleWorkstation => workstationWorkflow
  | RoleDownloader => downloaderWorkflow
  | RoleScanner => scannerWorkflow
  | RoleExporter => exporterWorkflow
  | RoleOther _ => ∅
  end.

(** [workflowTransitions[role][from][to]] *)
Definition workflowTransitions (role : Role) (from to : string) : bool :=
  table_get (workflowTable role) from to.

(** [^[A-Z][A-Z0-9_]{2,63}$] *)
Definition eventCodePattern (s : string) : bool :=
  match_head_tail is_upper (λ c, is_upper c || is_digit c || char_eqb c "_") 2 63 s.

(** [^pvm-[a-f0-9]{32}$] *)
Definition sessionIDPattern (s : string) : bool :=
  match_prefix_exact "pvm-" is_lower_hex 32 s.

(** ** Records *)

Record Event := mkEvent {
  ev_Sequence : Z;
  ev_Code : string;
  ev_Phase : Phase;
  ev_WorkflowState : string;
  ev_Message : string;
  ev_Time : Z
}.

Record Snapshot := mkSnapshot {
  snap_SchemaVersion : Z;
  snap_ID : string;
  snap_OwnerUID : Z;
  snap_Role : Role;
  snap_Phase : Phase;
  snap_WorkflowState : string;
  snap_Sequence : Z;
  snap_CreatedAt : Z;
  snap_UpdatedAt : Z;
  snap_Events : list Event
}.

(** The fields of [Session] other than its mutex. *)
Record Session := mkSession {
  s_id : string;
  s_ownerUID : Z;
  s_role : Role;
  s_phase : Phase;
  s_workflowState : string;
  s_sequence : Z;
  s_createdAt : Z;
  s_updatedAt : Z;
  s_events : list Event
}.

(** ** Operations *)

Definition ValidateID (id : string) : result session_error unit :=
  fail_if (negb (sessionIDPattern id)) with (ErrMessage "invalid internal session identifier") ;;
  Ok tt.

Definition ValidateRole (role : Role) : result session_error unit :=
  match role with
  | RoleWorkstation | RoleDownloader | RoleScanner | RoleExporter => Ok tt
  | RoleOther _ => Err (ErrMessage "unknown role")
  end.

Definition validPhase (phase : Phase) : bool :=
  match phase with
  | PhaseCreated | PhasePreflighted | PhaseImagesVerified | PhaseStorageReady
  | PhaseActive | PhaseStopping | PhaseAborting | PhaseDestroying | PhaseDestroyed => true
  | PhaseOther _ => false
  end.

Definition creationEvent (now : Z) : Event :=
  mkEvent 1 "SESSION_CREATED" PhaseCreated "" "Session record created." now.

Definition newOwned (id : string) (ownerUID : Z) (role : Role) (now : Z)
  : result session_error Session :=
  _ <-! ValidateRole role ;;
  _ <-! ValidateID id ;;
  fail_if (bool_decide (now = 0%Z)) with (ErrMessage "session creation time is required") ;;
  Ok (mkSession id ownerUID role PhaseCreated "" 1 now now [creationEvent now]).

Definition requireEventRoom (s : Session) (cleanupOwned : bool) : result session_error unit :=
  let limit := if cleanupOwned then maxSessionEvents
               else (maxSessionEvents - cleanupEventReserve)%Z in
  fail_if (limit <=? len (s_events s))%Z with ErrEventLimit ;;
  Ok tt.

(** [appendEventLocked]: the event records the phase and workflow the session
    already has; the sequence counter is a [uint64]. *)
Definition appendEvent (s : Session) (c message : string) (now : Z) : Session * Event :=
  let sequence := add64 (s_sequence s) 1 in
  let event := mkEvent sequence c (s_phase s) (s_workflowState s) message now in
  (mkSession (s_id s) (s_ownerUID s) (s_role s) (s_phase s) (s_workflowState s)
     sequence (s_createdAt s) now (s_events s ++ [event]), event).

Definition withPhase (s : Session) (p : Phase) : Session :=
  mkSession (s_id s) (s_ownerUID s) (s_role s) p (s_workflowState s)
    (s_sequence s) (s_createdAt s) (s_updatedAt s) (s_events s).

Definition withWorkflow (s : Session) (wf : string) : Session :=
  mkSession (s_id s) (s_ownerUID s) (s_role s) (s_phase s) wf
    (s_sequence s) (s_createdAt s) (s_updatedAt s) (s_events s).

Definition cleanupPhase (p : Phase) : bool :=
  match p with
  | PhaseStopping | PhaseAborting | PhaseDestroying | PhaseDestroyed => true
  | _ => false
  end.

(** Every error return of [transitionLifecycle] precedes its first assignment,
    so an error leaves the session as it was. *)
Definition transitionLifecycle (s : Session) (to : Phase) (cleanupOwned : bool) (now : Z)
  : result session_error (Session * Event) :=
  fail_if (negb (lifecycleTransitions (s_phase s) to)) with ErrInvalidTransition ;;
  fail_if (negb cleanupOwned && (bool_decide (to = PhaseDestroying) || bool_decide (to = PhaseDestroyed)))
    with ErrInvalidTransition ;;
  _ <-! requireEventRoom s cleanupOwned ;;
  match lifecycleEvents to with
  | None => Err ErrInvalidTransition
  | Some (c, message) => Ok (appendEvent (withPhase s to) c message now)
  end.

Definition transitionWorkflow (s : Session) (to : string) (now : Z)
  : result session_error (Session * Event) :=
  fail_if (cleanupPhase (s_phase s)) with ErrInvalidWorkflow ;;
  fail_if (negb (workflowTransitions (s_role s) (s_workflowState s) to)) with ErrInvalidWorkflow ;;
  _ <-! requireEventRoom s false ;;
  Ok (appendEvent (withWorkflow s to) "WORKFLOW_STATE_CHANGED" "Role workflow advanced." now).

(** [Session.Snapshot]; the copy of the event slice is a value here. *)
Definition snapshotOf (s : Session) : Snapshot :=
  mkSnapshot 1 (s_id s) (s_ownerUID s) (s_role s) (s_phase s) (s_workflowState s)
    (s_sequence s) (s_createdAt s) (s_updatedAt s) (s_events s).

(** [Session.restore] *)
Definition restore (s : Session) (snap : Snapshot) : Session :=
  mkSession (s_id s) (s_ownerUID s) (s_role s) (snap_Phase snap) (snap_WorkflowState snap)
    (snap_Sequence snap) (s_createdAt s) (snap_UpdatedAt snap) (snap_Events snap).

(** ** The journal validator *)

Definition safeEventMessages : gmap string string :=
  fold_left (λ result p,
    match lifecycleEvents p with
    | Some (c, message) => <[c := message]> result
    | None => result
    end) lifecycleEventPhases
    (<["SESSION_CREATED" := "Session record created."]>
      {["WORKFLOW_STATE_CHANGED" := "Role workflow advanced."]}).

Definition validateEvent (c message : string) : result session_error unit :=
  fail_if (negb (eventCodePattern c)) with (ErrMessage "event code must be a stable uppercase identifier") ;;
  fail_if (negb (bool_decide (safeEventMessages !! c = Some message)))
    with (ErrMessage "event message is not from the safe event catalog") ;;
  Ok tt.

(** The loop variables [currentPhase], [currentWorkflow], [previousTime]. *)
Record cursor := mkCursor {
  cur_phase : Phase;
  cur_workflow : string;
  cur_time : Z
}.

(** The body of the loop for an event after the first, from the [switch] on. *)
Definition validateTransition (role : Role) (event : Event) (cur : cursor)
  : result session_error cursor :=
  if bool_decide (ev_Code event = "WORKFLOW_STATE_CHANGED") then
    fail_if (negb (bool_decide (ev_Phase event = cur_phase cur)) ||
             negb (workflowTransitions role (cur_workflow cur) (ev_WorkflowState event)))
      with (ErrMessage "invalid volatile workflow event transition") ;;
    fail_if (cleanupPhase (cur_phase cur))
      with (ErrMessage "volatile workflow event occurs after cleanup started") ;;
    Ok (mkCursor (cur_phase cur) (ev_WorkflowState event) (ev_Time event))
  else
    fail_if (negb (bool_decide (lifecycleEvents (ev_Phase event) = Some (ev_Code event, ev_Message event))) ||
             negb (bool_decide (ev_WorkflowState event = cur_workflow cur)) ||
             negb (lifecycleTransitions (cur_phase cur) (ev_Phase event)))
      with (ErrMessage "invalid volatile lifecycle event transition") ;;
    Ok (mkCursor (ev_Phase event) (cur_workflow cur) (ev_Time event)).

(** One iteration of the loop over [snapshot.Events]. *)
Definition validateStep (role : Role) (updatedAt : Z) (index : nat) (event : Event) (cur : cursor)
  : result session_error cursor :=
  fail_if (negb (bool_decide (ev_Sequence event = Z.of_nat (S index))))
    with (ErrMessage "invalid volatile session event sequence") ;;
  _ <-! validateEvent (ev_Code event) (ev_Message event) ;;
  fail_if ((ev_Time event <? cur_time cur)%Z || (updatedAt <? ev_Time event)%Z)
    with (ErrMessage "invalid volatile session event timestamp") ;;
  if bool_decide (index = 0%nat) then Ok cur
  else validateTransition role event cur.

Fixpoint validateEvents (role : Role) (updatedAt : Z) (index : nat) (events : list Event) (cur : cursor)
  : result session_error cursor :=
  match events with
  | [] => Ok cur
  | event :: rest =>
      cur' <-! validateStep role updatedAt index event cur ;;
      validateEvents role updatedAt (S index) rest cur'
  end.

Definition validCreation (snap : Snapshot) (first : Event) : bool :=
  bool_decide (ev_Sequence first = 1%Z) && bool_decide (ev_Code first = "SESSION_CREATED") &&
  bool_decide (ev_Phase first = PhaseCreated) && bool_decide (ev_WorkflowState first = "") &&
  bool_decide (ev_Message first = "Session record created.") &&
  bool_decide (ev_Time first = snap_CreatedAt snap).

Definition validateSnapshot (snap : Snapshot) : result session_error unit :=
  fail_if (negb (bool_decide (snap_SchemaVersion snap = 1%Z)))
    with (ErrMessage "unsupported volatile session schema version") ;;
  _ <-! ValidateID (snap_ID snap) ;;
  _ <-! ValidateRole (snap_Role snap) ;;
  fail_if (negb (validPhase (snap_Phase snap))) with (ErrMessage "invalid volatile session phase") ;;
  fail_if (bool_decide (snap_CreatedAt snap = 0%Z) || (snap_UpdatedAt snap <? snap_CreatedAt snap)%Z)
    with (ErrMessage "invalid volatile session timestamps") ;;
  fail_if ((len (snap_Events snap) =? 0)%Z || (maxSessionEvents <? len (snap_Events snap))%Z)
    with (ErrMessage "invalid volatile session event count") ;;
  match snap_Events snap, last (snap_Events snap) with
  | first :: _, Some lst =>
      fail_if (negb (validCreation snap first))
        with (ErrMessage "volatile session journal has an invalid creation event") ;;
      cur <-! validateEvents (snap_Role snap) (snap_UpdatedAt snap) 0 (snap_Events snap)
                (mkCursor PhaseCreated "" (ev_Time first)) ;;
      fail_if (negb (bool_decide (snap_Sequence snap = ev_Sequence lst)) ||
               negb (bool_decide (snap_Phase snap = cur_phase cur)) ||
               negb (bool_decide (snap_WorkflowState snap = cur_workflow cur)) ||
               negb (bool_decide (snap_UpdatedAt snap = ev_Time lst)))
        with (ErrMessage "volatile session snapshot does not match its final event") ;;
      Ok tt
  | _, _ => Err (ErrMessage "invalid volatile session event count")
  end.

#[global] Arguments safeEventMessages : simpl never.
#[global] Arguments validateEvent : simpl never.
#[global] Arguments validateStep : simpl never.
#[global] Arguments workflowTable : simpl never.
#[global] Arguments workflowTransitions : simpl never.
#[global] Arguments ValidateID : simpl never.
#[global] Arguments add64 : simpl never.

(** * Properties *)

(** ** What an accepted journal is *)

Section Journal.

Lemma validateEvents_app role upd i l1 l2 cur :
  validateEvents role upd i (l1 ++ l2) cur =
  (cur' <-! validateEvents role upd i l1 cur ;; validateEvents role upd (i + length l1) l2 cur').
Proof.
  revert i cur. induction l1 as [|e l1 IH]; intros i cur; simpl.
  { by rewrite Nat.add_0_r. }
  destruct (validateStep role upd i e cur); [|done].
  rewrite IH. by replace (S i + length l1) with (i + S (length l1)) by lia.
Qed.

Lemma validateStep_weaken role upd upd' i e cur cur' :
  (upd ≤ upd')%Z →
  validateStep role upd i e cur = Ok cur' → validateStep role upd' i e cur = Ok cur'.
Proof.
  unfold validateStep. intros Hle H.
  case_match; [done|]. case_match; [|done].
  destruct ((ev_Time e <? cur_time cur)%Z || (upd <? ev_Time e)%Z) eqn:Hg; [done|].
  bool_hyps. replace ((ev_Time e <? cur_time cur)%Z || (upd' <? ev_Time e)%Z) with false; [done|].
  symmetry. apply orb_false_iff. split; apply Z.ltb_ge; lia.
Qed.

Lemma validateEvents_weaken role upd upd' i l cur cur' :
  (upd ≤ upd')%Z →
  validateEvents role upd i l cur = Ok cur' → validateEvents role upd' i l cur = Ok cur'.
Proof.
  intros Hle. revert i cur. induction l as [|e l IH]; intros i cur; simpl; [done|].
  destruct (validateStep role upd i e cur) eqn:E; [|done].
  rewrite (validateStep_weaken _ _ _ _ _ _ _ Hle E). apply IH.
Qed.

Lemma validateEvents_time role upd i l cur cur' :
  validateEvents role upd i l cur = Ok cur' → (cur_time cur ≤ cur_time cur')%Z.
Proof.
  revert i cur. induction l as [|e l IH]; intros i cur; simpl; [by intros [= ->]|].
  destruct (validateStep role upd i e cur) as [cur1|] eqn:E; [|done].
  intros H. apply IH in H. unfold validateStep, validateTransition in E.
  guards; lia.
Qed.

(** The facts [validateSnapshot] establishes, as one proposition. *)
Definition accepted (snap : Snapshot) : Prop :=
  snap_SchemaVersion snap = 1%Z ∧ ValidateID (snap_ID snap) = Ok tt ∧
  ValidateRole (snap_Role snap) = Ok tt ∧ validPhase (snap_Phase snap) = true ∧
  snap_CreatedAt snap ≠ 0%Z ∧ (snap_CreatedAt snap ≤ snap_UpdatedAt snap)%Z ∧
  (len (snap_Events snap) ≤ maxSessionEvents)%Z ∧
  ∃ rest lst cur,
    snap_Events snap = creationEvent (snap_CreatedAt snap) :: rest ∧
    last (snap_Events snap) = Some lst ∧
    validateEvents (snap_Role snap) (snap_UpdatedAt snap) 0 (snap_Events snap)
      (mkCursor PhaseCreated "" (snap_CreatedAt snap)) = Ok cur ∧
    snap_Sequence snap = ev_Sequence lst ∧ snap_Phase snap = cur_phase cur ∧
    snap_WorkflowState snap = cur_workflow cur ∧ snap_UpdatedAt snap = ev_Time lst.

Lemma validCreation_iff snap first :
  validCreation snap first = true ↔ first = creationEvent (snap_CreatedAt snap).
Proof.
  unfold validCreation, creationEvent. split.
  - intros H. destruct first; simpl in *. bool_hyps. by subst.
  - intros ->. simpl. by rewrite bool_decide_true.
Qed.

Lemma validateSnapshot_accepted snap : validateSnapshot snap = Ok tt ↔ accepted snap.
Proof.
  unfold validateSnapshot, accepted. split.
  - intros H.
    destruct (ValidateID (snap_ID snap)) as [[]|]; [|by go_inv].
    destruct (ValidateRole (snap_Role snap)) as [[]|]; [|by go_inv].
    destruct (snap_Events snap) as [|first rest] eqn:Hev; [by guards|].
    destruct (last (first :: rest)) as [lst|] eqn:Hl; [|by guards].
    destruct (validCreation snap first) eqn:Hc; [|by guards].
    pose proof (proj1 (validCreation_iff _ _) Hc) as Hf. clear Hc.
    assert (ev_Time first = snap_CreatedAt snap) as Ht by (by rewrite Hf). rewrite Ht in H.
    assert (∃ v, validateEvents (snap_Role snap) (snap_UpdatedAt snap) 0 (first :: rest)
      (mkCursor PhaseCreated "" (snap_CreatedAt snap)) = v) as [v Hv] by eauto.
    rewrite Hv in H. revert Hf Hv. destruct v as [cur|]; [|by guards].
    guards. intros Hf Hv. do 7 (split; [done || lia|]).
    exists rest, lst, cur. by rewrite Hf at 1.
  - intros (-> & -> & -> & -> & Hz & Hle & Hlen & rest & lst & cur & Hev & Hl & Hv & -> & -> & -> & Hu).
    rewrite (bool_decide_true (1%Z = 1%Z)) by done. simpl.
    rewrite bool_decide_false by done. simpl.
    replace (snap_UpdatedAt snap <? snap_CreatedAt snap)%Z with false by (symmetry; by apply Z.ltb_ge).
    rewrite Hl, Hev in *.
    replace ((len (creationEvent (snap_CreatedAt snap) :: rest) =? 0)%Z) with false
      by (symmetry; apply Z.eqb_neq; unfold len; simpl; lia).
    replace (maxSessionEvents <? len (creationEvent (snap_CreatedAt snap) :: rest))%Z with false
      by (symmetry; by apply Z.ltb_ge). cbn [orb].
    rewrite (proj2 (validCreation_iff snap _) eq_refl). cbn [negb].
    replace (ev_Time (creationEvent (snap_CreatedAt snap))) with (snap_CreatedAt snap) by done.
    rewrite Hv, Hu, !bool_decide_true by done. done.
Qed.

(** ** The abstract state machine a journal records *)

(** One recorded step: a lifecycle or a workflow transition taken at a time
    not before the last one, while the journal has room. *)
Inductive journal_step : Session → Session → Prop :=
| journal_lifecycle s to c message now :
    lifecycleTransitions (s_phase s) to = true →
    lifecycleEvents to = Some (c, message) →
    (len (s_events s) < maxSessionEvents)%Z → (s_updatedAt s ≤ now)%Z →
    journal_step s (appendEvent (withPhase s to) c message now).1
| journal_workflow s to now :
    cleanupPhase (s_phase s) = false →
    workflowTransitions (s_role s) (s_workflowState s) to = true →
    (len (s_events s) < maxSessionEvents)%Z → (s_updatedAt s ≤ now)%Z →
    journal_step s (appendEvent (withWorkflow s to)
      "WORKFLOW_STATE_CHANGED" "Role workflow advanced." now).1.

(** The session agrees with the cursor the validator reaches on its journal. *)
Definition at_cursor (s : Session) (cur : cursor) : Prop :=
  s_phase s = cur_phase cur ∧ s_workflowState s = cur_workflow cur ∧
  s_updatedAt s = cur_time cur ∧ s_sequence s = len (s_events s) ∧
  (1 ≤ len (s_events s))%Z.

Definition same_identity (s s' : Session) : Prop :=
  s_id s' = s_id s ∧ s_ownerUID s' = s_ownerUID s ∧ s_role s' = s_role s ∧
  s_createdAt s' = s_createdAt s.

Lemma lifecycle_event_valid p c message :
  lifecycleEvents p = Some (c, message) →
  validateEvent c message = Ok tt ∧ c ≠ "WORKFLOW_STATE_CHANGED" ∧ validPhase p = true.
Proof. intros H. destruct p; simplify_eq/=; repeat split; by vm_compute. Qed.

Lemma workflow_event_valid message :
  validateEvent "WORKFLOW_STATE_CHANGED" message = Ok tt ↔ message = "Role workflow advanced.".
Proof.
  unfold validateEvent.
  replace (eventCodePattern "WORKFLOW_STATE_CHANGED") with true by (by vm_compute). cbn [negb].
  replace (safeEventMessages !! "WORKFLOW_STATE_CHANGED") with (Some "Role workflow advanced.")
    by (by vm_compute).
  split; intros H; [by guards|]. by rewrite H, bool_decide_true.
Qed.

Lemma journal_step_identity s s' : journal_step s s' → same_identity s s'.
Proof. by destruct 1. Qed.

Lemma next_sequence s cur :
  at_cursor s cur → (len (s_events s) < maxSessionEvents)%Z →
  add64 (s_sequence s) 1 = (len (s_events s) + 1)%Z.
Proof.
  intros (_ & _ & _ & -> & ?) ?. unfold maxSessionEvents in *.
  apply add64_small. unfold u64, two64. lia.
Qed.

(** Completeness of a step: what the machine appends, the validator accepts. *)
Lemma journal_step_accepted s s' cur upd :
  at_cursor s cur → journal_step s s' → (s_updatedAt s' ≤ upd)%Z →
  ∃ e cur', s_events s' = s_events s ++ [e] ∧
    validateStep (s_role s) upd (length (s_events s)) e cur = Ok cur' ∧
    at_cursor s' cur' ∧ ev_Sequence e = s_sequence s' ∧ ev_Time e = s_updatedAt s'.
Proof.
  intros Hat Hstep Hupd. pose proof (next_sequence s cur Hat) as Hseq.
  destruct Hat as (Hp & Hw & Ht & Hs & Hl).
  assert (length (s_events s) ≠ 0%nat) as Hne by (unfold len in Hl; lia).
  destruct Hstep as [s to c message now Htr Hev Hlen Hle|s to now Hc Htr Hlen Hle]; simpl in *.
  - destruct (lifecycle_event_valid _ _ _ Hev) as (Hval & Hcode & _).
    eexists _, (mkCursor to (cur_workflow cur) now). split; [done|].
    unfold validateStep, validateTransition; simpl. rewrite (Hseq Hlen).
    rewrite bool_decide_true by (unfold len; lia). rewrite Hval. simpl.
    rewrite <- Ht, <- Hp.
    rewrite (proj2 (Z.ltb_ge _ _) Hle), (proj2 (Z.ltb_ge _ _) Hupd). simpl.
    rewrite !(bool_decide_false _) by done. rewrite !bool_decide_true by done.
    rewrite Htr. simpl. unfold at_cursor; simpl. rewrite len_app.
    repeat split; try done. unfold len in *; simpl; lia.
  - eexists _, (mkCursor (cur_phase cur) to now). split; [done|].
    unfold validateStep, validateTransition; simpl. rewrite (Hseq Hlen).
    rewrite bool_decide_true by (unfold len; lia).
    rewrite (proj2 (workflow_event_valid _) eq_refl). simpl.
    rewrite <- Ht, <- Hp, <- Hw.
    rewrite (proj2 (Z.ltb_ge _ _) Hle), (proj2 (Z.ltb_ge _ _) Hupd). simpl.
    rewrite (bool_decide_false (length _ = _)) by done. rewrite !bool_decide_true by done.
    rewrite Htr, Hc. simpl. unfold at_cursor; simpl. rewrite len_app.
    repeat split; try done. unfold len in *; simpl; lia.
Qed.

(** Soundness of a step: what the validator accepts, the machine can do. *)
Lemma validateStep_sound s cur upd e cur' :
  at_cursor s cur → (len (s_events s) < maxSessionEvents)%Z →
  validateStep (s_role s) upd (length (s_events s)) e cur = Ok cur' →
  ∃ s', journal_step s s' ∧ s_events s' = s_events s ++ [e] ∧ at_cursor s' cur' ∧
        ev_Sequence e = s_sequence s' ∧ ev_Time e = s_updatedAt s'.
Proof.
  intros Hat Hlen H. pose proof (next_sequence s cur Hat Hlen) as Hseq.
  destruct Hat as (Hp & Hw & Ht & Hs & Hl).
  unfold validateStep in H.
  destruct (validateEvent (ev_Code e) (ev_Message e)) as [[]|] eqn:Hval; [|by go_inv].
  unfold validateTransition in H. destruct e as [sq c p wf m tm]; simpl in *.
  assert (length (s_events s) ≠ 0%nat) as Hne by (unfold len in Hl; lia).
  rewrite (bool_decide_false _ Hne) in H.
  destruct (bool_decide (c = "WORKFLOW_STATE_CHANGED")) eqn:Hc.
  - bool_hyps. subst c. apply workflow_event_valid in Hval as ->. guards.
    eexists. split; [apply (journal_workflow s wf tm); [congruence..|lia]|].
    simpl. rewrite Hseq. unfold at_cursor; simpl. rewrite len_app, Hp.
    replace (Z.of_nat (S (length (s_events s)))) with (len (s_events s) + 1)%Z by (unfold len; lia).
    repeat split; try done. unfold len in *; simpl; lia.
  - guards.
    eexists. split; [apply (journal_lifecycle s p c m tm); [congruence..|lia]|].
    simpl. rewrite Hseq. unfold at_cursor; simpl. rewrite len_app, Hw.
    replace (Z.of_nat (S (length (s_events s)))) with (len (s_events s) + 1)%Z by (unfold len; lia).
    repeat split; try done. unfold len in *; simpl; lia.
Qed.

(** Everything the machine can reach from a freshly created record. *)
Definition reachable_session (s : Session) : Prop :=
  ∃ id ownerUID role now s0, newOwned id ownerUID role now = Ok s0 ∧ rtc journal_step s0 s.

(** The invariant carried along a run. *)
Definition journal_inv (s : Session) : Prop :=
  ValidateID (s_id s) = Ok tt ∧ ValidateRole (s_role s) = Ok tt ∧
  validPhase (s_phase s) = true ∧ s_createdAt s ≠ 0%Z ∧
  (len (s_events s) ≤ maxSessionEvents)%Z ∧
  (∃ rest, s_events s = creationEvent (s_createdAt s) :: rest) ∧
  (∃ lst, last (s_events s) = Some lst ∧ ev_Sequence lst = s_sequence s ∧
          ev_Time lst = s_updatedAt s) ∧
  ∃ cur, at_cursor s cur ∧
    validateEvents (s_role s) (s_updatedAt s) 0 (s_events s)
      (mkCursor PhaseCreated "" (s_createdAt s)) = Ok cur.

Lemma newOwned_inv id ownerUID role now s :
  newOwned id ownerUID role now = Ok s → journal_inv s.
Proof.
  unfold newOwned. intros H.
  destruct (ValidateRole role) as [[]|] eqn:Hr; [|done].
  destruct (ValidateID id) as [[]|] eqn:Hi; [|done].
  destruct (bool_decide (now = 0%Z)) eqn:Hz; [done|]. bool_hyps. injection H as <-.
  unfold journal_inv, at_cursor, maxSessionEvents; simpl.
  do 5 (split; [done || (unfold len; simpl; lia)|]). split; [by eexists|].
  split; [by eexists|].
  eexists (mkCursor PhaseCreated "" now). split; [done|].
  unfold validateStep; simpl.
  replace (validateEvent "SESSION_CREATED" "Session record created.") with (@Ok session_error _ tt)
    by (by vm_compute).
  by rewrite Z.ltb_irrefl.
Qed.

Lemma journal_step_inv s s' : journal_inv s → journal_step s s' → journal_inv s'.
Proof.
  intros (Hi & Hr & Hp & Hc & Hl & [rest Hrest] & _ & cur & Hat & Hv) Hstep.
  pose proof (journal_step_identity _ _ Hstep) as (E1 & E2 & E3 & E4).
  destruct (journal_step_accepted s s' cur (s_updatedAt s') Hat Hstep) as
    (e & cur' & Hev & Hst & Hat' & Hes & Het); [done|].
  assert (s_updatedAt s ≤ s_updatedAt s')%Z as Hmono by (by destruct Hstep).
  assert (len (s_events s) < maxSessionEvents)%Z as Hroom by (by destruct Hstep).
  assert (validPhase (s_phase s') = true) as Hp'.
  { destruct Hstep; simpl; [|done]. by eapply lifecycle_event_valid. }
  unfold journal_inv. rewrite E1, E3, E4, Hev, len_app, last_snoc.
  do 4 (split; [done|]). split; [unfold len at 2; simpl; lia|].
  split; [by rewrite Hrest; eexists|]. split; [by eexists|].
  exists cur'. split; [done|].
  rewrite validateEvents_app, (validateEvents_weaken _ _ _ _ _ _ _ Hmono Hv). simpl.
  by rewrite Hst.
Qed.

Lemma reachable_inv s : reachable_session s → journal_inv s.
Proof.
  intros (id & uid & role & now & s0 & Hnew & Hsteps).
  pose proof (newOwned_inv _ _ _ _ _ Hnew) as Hinv. clear Hnew.
  induction Hsteps as [|s1 s2 s3 H12 _ IH]; [done|]. eauto using journal_step_inv.
Qed.

Lemma journal_inv_accepted s : journal_inv s → accepted (snapshotOf s).
Proof.
  intros (Hi & Hr & Hp & Hc & Hl & [rest Hrest] & (lst & Hlst & Hseq & Ht) & cur & (A & B & C & D & E) & Hv).
  unfold accepted; simpl. do 5 (split; [done|]).
  split. { apply validateEvents_time in Hv. simpl in Hv. lia. }
  split; [done|]. exists rest, lst, cur. by repeat split.
Qed.

(** Replaying an accepted journal from a session that is at the cursor. *)
Lemma replay_sound s cur upd l cur' :
  at_cursor s cur → (len (s_events s ++ l) ≤ maxSessionEvents)%Z →
  validateEvents (s_role s) upd (length (s_events s)) l cur = Ok cur' →
  ∃ s', rtc journal_step s s' ∧ s_events s' = s_events s ++ l ∧ at_cursor s' cur' ∧
    same_identity s s'.
Proof.
  revert s cur. induction l as [|e l IH]; intros s cur Hat Hlen Hv; simpl in Hv.
  { injection Hv as <-. exists s. by rewrite app_nil_r. }
  destruct (validateStep _ _ _ _ _) as [cur1|] eqn:Hst; [|done].
  destruct (validateStep_sound s cur upd e cur1) as (s1 & Hstep & Hev & Hat1 & _); [done| |done|].
  { rewrite len_app in Hlen. unfold len in *; simpl in *; lia. }
  pose proof (journal_step_identity _ _ Hstep) as Hid1.
  destruct (IH s1 cur1) as (s2 & Hrtc & Hev2 & Hat2 & Hid2); [done| | |].
  - rewrite Hev, <- app_assoc. done.
  - destruct Hid1 as (_ & _ & -> & _). rewrite Hev, length_app. simpl.
    by rewrite Nat.add_comm.
  - exists s2. split; [by eapply rtc_l|]. split; [by rewrite Hev2, Hev, <- app_assoc|].
    split; [done|]. destruct Hid1 as (?&?&?&?), Hid2 as (?&?&?&?). unfold same_identity. repeat split; congruence.
Qed.

(** The last event of an accepted journal carries its sequence and time. *)
Lemma validateEvents_last role upd i l e cur cur' :
  validateEvents role upd i (l ++ [e]) cur = Ok cur' →
  ev_Sequence e = Z.of_nat (S (i + length l)) ∧
  (i + length l ≠ 0%nat → ev_Time e = cur_time cur').
Proof.
  rewrite validateEvents_app. destruct (validateEvents role upd i l cur) as [cur1|]; [|done].
  simpl. destruct (validateStep _ _ _ _ _) as [cur2|] eqn:E; [|done]. intros [= <-].
  unfold validateStep, validateTransition in E. guards; done.
Qed.

Lemma accepted_reachable snap :
  accepted snap → ∃ s, reachable_session s ∧ snapshotOf s = snap.
Proof.
  intros (Hv1 & Hi & Hr & Hp & Hz & Hle & Hlen & rest & lst & cur & Hev & Hl & Hv & Hs & Hph & Hwf & Hu).
  set (s0 := mkSession (snap_ID snap) (snap_OwnerUID snap) (snap_Role snap) PhaseCreated "" 1
               (snap_CreatedAt snap) (snap_CreatedAt snap) [creationEvent (snap_CreatedAt snap)]).
  assert (newOwned (snap_ID snap) (snap_OwnerUID snap) (snap_Role snap) (snap_CreatedAt snap) = Ok s0) as Hnew.
  { unfold newOwned. rewrite Hr, Hi, bool_decide_false by done. done. }
  pose proof (newOwned_inv _ _ _ _ _ Hnew) as (_ & _ & _ & _ & _ & _ & _ & cur0 & Hat0 & Hv0).
  pose proof Hv as Hvv. rewrite Hev in Hv.
  change (creationEvent (snap_CreatedAt snap) :: rest) with (s_events s0 ++ rest) in Hv.
  rewrite validateEvents_app in Hv.
  pose proof (validateEvents_weaken _ _ _ _ _ _ _ Hle Hv0) as Hv0'.
  cbn [s_role s_createdAt s_updatedAt s0] in Hv0'. rewrite Hv0' in Hv.
  destruct (replay_sound s0 cur0 (snap_UpdatedAt snap) rest cur Hat0) as
    (s & Hrtc & Hsev & (A & B & C & D & E) & (I1 & I2 & I3 & I4)); [by rewrite Hev in Hlen|done|].
  exists s. split; [by exists (snap_ID snap), (snap_OwnerUID snap), (snap_Role snap), (snap_CreatedAt snap), s0|].
  assert (s_events s = snap_Events snap) as Hse by (by rewrite Hsev, Hev).
  clear Hv0 Hv0' Hnew Hrtc. apply last_Some in Hl as [l' Hl']. rewrite Hl' in Hvv.
  apply validateEvents_last in Hvv as [Hseq Htime].
  assert (snap_UpdatedAt snap = cur_time cur) as Hut.
  { destruct rest as [|r rest].
    - rewrite Hl' in Hev. destruct l' as [|x l'']; [|by destruct l''].
      simpl in Hev. injection Hev as ->. simpl in Hv. injection Hv as <-.
      destruct Hat0 as (_ & _ & <- & _). done.
    - rewrite Hu. apply Htime. rewrite Hl' in Hev. destruct l'; [by injection Hev as _ ?|simpl; lia]. }
  assert (snap_Sequence snap = len (snap_Events snap)) as Hsq.
  { rewrite Hs, Hl', len_app, Hseq. unfold len; simpl; lia. }
  destruct snap; unfold snapshotOf; simpl in *. f_equal; congruence.
Qed.

End Journal.

(** ** Every operation of [model.go] is a recorded step *)

Lemma transitionLifecycle_step s to cleanupOwned now s' e :
  transitionLifecycle s to cleanupOwned now = Ok (s', e) → (s_updatedAt s ≤ now)%Z →
  journal_step s s'.
Proof.
  unfold transitionLifecycle, requireEventRoom, maxSessionEvents, cleanupEventReserve.
  intros H Hle. guards; apply (journal_lifecycle s to s0 s1 now); try done;
    unfold maxSessionEvents; lia.
Qed.

Lemma transitionWorkflow_step s to now s' e :
  transitionWorkflow s to now = Ok (s', e) → (s_updatedAt s ≤ now)%Z → journal_step s s'.
Proof.
  unfold transitionWorkflow, requireEventRoom, maxSessionEvents, cleanupEventReserve.
  intros H Hle. guards. apply (journal_workflow s to now); try done;
    unfold maxSessionEvents; lia.
Qed.

Lemma accepted_step s s' :
  validateSnapshot (snapshotOf s) = Ok tt → journal_step s s' →
  validateSnapshot (snapshotOf s') = Ok tt.
Proof.
  intros Hv Hstep. apply validateSnapshot_accepted, accepted_reachable in Hv as (s1 & H1 & Heq).
  apply validateSnapshot_accepted, journal_inv_accepted.
  apply (journal_step_inv s); [|done].
  assert (s1 = s) as -> by (destruct s1, s; unfold snapshotOf in Heq; simpl in Heq; congruence).
  by apply reachable_inv.
Qed.

(** A transition of the code, taken at a time not before the last update. *)
Inductive recorded : Session → Session → Prop :=
| recorded_lifecycle s to cleanupOwned now s' e :
    transitionLifecycle s to cleanupOwned now = Ok (s', e) → (s_updatedAt s ≤ now)%Z → recorded s s'
| recorded_workflow s to now s' e :
    transitionWorkflow s to now = Ok (s', e) → (s_updatedAt s ≤ now)%Z → recorded s s'.

(** The sessions the code can make: a created record and its transitions. *)
Definition recorded_session (s : Session) : Prop :=
  ∃ id ownerUID role now s0, newOwned id ownerUID role now = Ok s0 ∧ rtc recorded s0 s.

(** The entries kept for the clean-up hold no workflow event. *)
Definition sparesReserve (events : list Event) : Prop :=
  ∀ i e, events !! i = Some e → (maxSessionEvents - cleanupEventReserve ≤ Z.of_nat i)%Z →
  ev_Code e ≠ "WORKFLOW_STATE_CHANGED".

Lemma recorded_journal s s' : recorded s s' → journal_step s s'.
Proof. destruct 1; eauto using transitionLifecycle_step, transitionWorkflow_step. Qed.

Lemma journal_step_event s s' : journal_step s s' → ∃ e, s_events s' = s_events s ++ [e].
Proof. destruct 1; by eexists. Qed.

Lemma sparesReserve_app a b : sparesReserve (a ++ b) → sparesReserve a.
Proof. intros H i e Hi. apply (H i). by apply lookup_app_l_Some. Qed.

(** What the code appends never takes the reserve for a workflow event. *)
Lemma recorded_spares s s' : recorded s s' → sparesReserve (s_events s) → sparesReserve (s_events s').
Proof.
  intros Hr Hs. assert (∃ e, s_events s' = s_events s ++ [e] ∧
    ((maxSessionEvents - cleanupEventReserve ≤ len (s_events s))%Z → ev_Code e ≠ "WORKFLOW_STATE_CHANGED")) as (e & -> & He).
  { destruct Hr as [s to co now s' e H _|s to now s' e H _].
    - unfold transitionLifecycle in H. guards. eexists. split; [done|]. intros _. cbn.
      by eapply (lifecycle_event_valid to).
    - unfold transitionWorkflow, requireEventRoom in H. guards. eexists. split; [done|]. lia. }
  intros i x Hi Hle. apply lookup_app_Some in Hi as [Hi|[Hge Hi]]; [by apply (Hs i)|].
  destruct (i - length (s_events s))%nat eqn:E; [|done]. injection Hi as <-. apply He. unfold len. lia.
Qed.

(** A recorded step that spares the reserve is a transition of the code. *)
Lemma journal_recorded s s' : journal_step s s' → sparesReserve (s_events s') → recorded s s'.
Proof.
  intros Hj Hs. destruct Hj as [s to c message now Htr Hev Hlen Hle|s to now Hc Htr Hlen Hle].
  - apply (recorded_lifecycle s to true now _ (appendEvent (withPhase s to) c message now).2); [|done].
    unfold transitionLifecycle, requireEventRoom. rewrite Htr, Hev. cbn [negb andb].
    by rewrite (proj2 (Z.leb_gt _ _) Hlen).
  - apply (recorded_workflow s to now _ (appendEvent (withWorkflow s to) "WORKFLOW_STATE_CHANGED" "Role workflow advanced." now).2); [|done].
    unfold transitionWorkflow, requireEventRoom. rewrite Hc, Htr. cbn [negb].
    destruct (Z.leb_spec (maxSessionEvents - cleanupEventReserve) (len (s_events s))) as [Hge|]; [|done].
    exfalso. apply (Hs (length (s_events s)) (mkEvent (add64 (s_sequence s) 1) "WORKFLOW_STATE_CHANGED" (s_phase s) to "Role workflow advanced." now)); [|done|done].
    cbn. by rewrite lookup_app_r, Nat.sub_diag by lia.
Qed.

Lemma rtc_journal_events s s' : rtc journal_step s s' → ∃ l, s_events s' = s_events s ++ l.
Proof.
  induction 1 as [s|s1 s2 s3 H _ [l Hl]]; [exists []; by rewrite app_nil_r|].
  destruct (journal_step_event _ _ H) as [e He]. exists (e :: l). by rewrite Hl, He, <- app_assoc.
Qed.

Lemma rtc_journal_recorded s s' : rtc journal_step s s' → sparesReserve (s_events s') → rtc recorded s s'.
Proof.
  intros H Hs. induction H as [s|s1 s2 s3 H12 H23 IH]; [done|]. eapply rtc_l; [|by apply IH].
  apply journal_recorded; [done|]. destruct (rtc_journal_events _ _ H23) as [l Hl]. rewrite Hl in Hs. by eapply sparesReserve_app.
Qed.

Lemma rtc_recorded_journal s s' : rtc recorded s s' → sparesReserve (s_events s) → rtc journal_step s s' ∧ sparesReserve (s_events s').
Proof.
  induction 1 as [s|s1 s2 s3 H12 _ IH]; [done|]. intros Hs. destruct IH as [IH1 IH2]; [by eapply recorded_spares|].
  split; [|done]. eapply rtc_l; [by apply recorded_journal|done].
Qed.

Lemma newOwned_spares id ownerUID role now s : newOwned id ownerUID role now = Ok s → sparesReserve (s_events s).
Proof. unfold newOwned. intros H. guards. intros [|[|i]] e Hi; cbn in Hi; simplify_eq. by intros _. Qed.

(** C1: the journal validator accepts exactly the journals the code writes, up to
    the entries kept for the clean-up.  Under a clock that does not go back, the
    snapshots of the sessions that the creation, the lifecycle transitions and the
    workflow transitions of the code make are exactly those the validator accepts
    whose last entries, the reserve of the clean-up, hold no workflow event: the
    validator neither rejects a journal the daemon wrote nor admits one that skips,
    reorders or invents a transition, and the only journals it admits that the code
    cannot write have a workflow event in the reserve. *)
Theorem validateSnapshot_iff_reachable (snap : Snapshot) :
  (∃ s, recorded_session s ∧ snapshotOf s = snap) ↔
  validateSnapshot snap = Ok tt ∧ sparesReserve (snap_Events snap).
Proof.
  rewrite validateSnapshot_accepted. split.
  - intros (s & (id & uid & role & now & s0 & Hnew & Hrtc) & <-).
    destruct (rtc_recorded_journal _ _ Hrtc (newOwned_spares _ _ _ _ _ Hnew)) as [Hj Hs]. split; [|done].
    apply journal_inv_accepted, reachable_inv. by exists id, uid, role, now, s0.
  - intros [Ha Hs]. destruct (accepted_reachable _ Ha) as (s & (id & uid & role & now & s0 & Hnew & Hrtc) & <-).
    exists s. split; [|done]. exists id, uid, role, now, s0. split; [done|]. by apply rtc_journal_recorded.
Qed.

(** A lifecycle or workflow transition of a session with a valid journal,
    taken at a time not before the last update, leaves a valid journal, so the
    store's validation never rejects a transition the manager performed. *)
Theorem transitions_keep_journal_valid (s s' : Session) (e : Event) (now : Z) :
  validateSnapshot (snapshotOf s) = Ok tt → (s_updatedAt s ≤ now)%Z →
  (∃ to cleanupOwned, transitionLifecycle s to cleanupOwned now = Ok (s', e)) ∨
  (∃ to, transitionWorkflow s to now = Ok (s', e)) →
  validateSnapshot (snapshotOf s') = Ok tt.
Proof.
  intros Hv Hle [(to & co & H)|(to & H)]; eapply accepted_step; try done;
    eauto using transitionLifecycle_step, transitionWorkflow_step.
Qed.

(** ** Lifecycle order *)

(** The phases the journal records outside workflow events, in order. *)
Definition lifecycleTrace (events : list Event) : list Phase :=
  map ev_Phase (List.filter (λ e, negb (bool_decide (ev_Code e = "WORKFLOW_STATE_CHANGED"))) events).

(** The phases a session not yet cleaning up has gone through. *)
Definition phasesUpTo (p : Phase) : option (list Phase) :=
  match p with
  | PhaseCreated => Some [PhaseCreated]
  | PhasePreflighted => Some [PhaseCreated; PhasePreflighted]
  | PhaseImagesVerified => Some [PhaseCreated; PhasePreflighted; PhaseImagesVerified]
  | PhaseStorageReady =>
      Some [PhaseCreated; PhasePreflighted; PhaseImagesVerified; PhaseStorageReady]
  | PhaseActive =>
      Some [PhaseCreated; PhasePreflighted; PhaseImagesVerified; PhaseStorageReady; PhaseActive]
  | PhaseStopping =>
      Some [PhaseCreated; PhasePreflighted; PhaseImagesVerified; PhaseStorageReady; PhaseActive; PhaseStopping]
  | _ => None
  end.

Definition phaseRank (p : Phase) : nat :=
  match p with
  | PhaseCreated => 1 | PhasePreflighted => 2 | PhaseImagesVerified => 3
  | PhaseStorageReady => 4 | PhaseActive => 5 | PhaseStopping => 6
  | PhaseAborting => 7 | PhaseDestroying => 8 | PhaseDestroyed => 9
  | PhaseOther _ => 0
  end.

Lemma lifecycleTrace_app l1 l2 :
  lifecycleTrace (l1 ++ l2) = lifecycleTrace l1 ++ lifecycleTrace l2.
Proof. unfold lifecycleTrace. by rewrite List.filter_app, List.map_app. Qed.

Lemma lifecycleTrace_workflow q c p w m t :
  c = "WORKFLOW_STATE_CHANGED" → lifecycleTrace [mkEvent q c p w m t] = [].
Proof. by intros ->. Qed.

Lemma lifecycleTrace_lifecycle q c p w m t :
  c ≠ "WORKFLOW_STATE_CHANGED" → lifecycleTrace [mkEvent q c p w m t] = [p].
Proof. intros H. unfold lifecycleTrace; simpl. by rewrite bool_decide_false. Qed.

Lemma phaseRank_increases from to :
  lifecycleTransitions from to = true → (phaseRank from < phaseRank to)%nat.
Proof. by destruct from, to; simpl; intros ?; simplify_eq; lia. Qed.

Lemma phasesUpTo_step from to l :
  lifecycleTransitions from to = true → phasesUpTo to = Some l →
  ∃ l', phasesUpTo from = Some l' ∧ l = l' ++ [to].
Proof. by destruct from, to; simpl; intros ??; simplify_eq; eauto. Qed.

Lemma reachable_trace s :
  reachable_session s →
  (∀ l, phasesUpTo (s_phase s) = Some l → lifecycleTrace (s_events s) = l) ∧
  (length (lifecycleTrace (s_events s)) ≤ phaseRank (s_phase s))%nat.
Proof.
  intros (id & uid & role & now & s0 & Hnew & Hsteps).
  assert ((∀ l, phasesUpTo (s_phase s0) = Some l → lifecycleTrace (s_events s0) = l) ∧
          (length (lifecycleTrace (s_events s0)) ≤ phaseRank (s_phase s0))%nat) as Hinv.
  { unfold newOwned in Hnew. go_inv. split; [by intros ? [= <-]|done]. }
  clear Hnew. induction Hsteps as [|s1 s2 s3 H12 _ IH]; [done|]. apply IH. clear IH.
  destruct Hinv as [Hp Hr].
  destruct H12 as [s to c m t Htr Hev _ _|s to t _ _ _ _]; simpl; rewrite lifecycleTrace_app.
  - apply lifecycle_event_valid in Hev as (_ & Hc & _).
    rewrite lifecycleTrace_lifecycle, length_app by done. simpl.
    split; [|apply phaseRank_increases in Htr; lia].
    intros l Hl. destruct (phasesUpTo_step _ _ _ Htr Hl) as (l' & Hl' & ->).
    by rewrite (Hp _ Hl').
  - by rewrite lifecycleTrace_workflow, app_nil_r by done.
Qed.

(** A valid journal whose session is ACTIVE (or at any phase before
    cleanup) records exactly the phases in their documented order: no session
    becomes ACTIVE without host preflight, image verification and storage
    setup, each recorded once. *)
Theorem active_only_after_all_gates (snap : Snapshot) (phases : list Phase) :
  validateSnapshot snap = Ok tt → phasesUpTo (snap_Phase snap) = Some phases →
  lifecycleTrace (snap_Events snap) = phases.
Proof.
  rewrite validateSnapshot_accepted. intros Ha Hp.
  apply accepted_reachable in Ha as (s & Hs & <-). by apply reachable_trace in Hs as [H _]; apply H.
Qed.

(** The lifecycle always ends: every transition strictly raises the rank
    of the phase, DESTROYED has no successor, and a valid journal holds at most
    nine lifecycle events. *)
Theorem lifecycle_terminates (snap : Snapshot) :
  (∀ from to, lifecycleTransitions from to = true → (phaseRank from < phaseRank to ≤ 9)%nat) ∧
  (∀ to, lifecycleTransitions PhaseDestroyed to = false) ∧
  (validateSnapshot snap = Ok tt → (length (lifecycleTrace (snap_Events snap)) ≤ 9)%nat).
Proof.
  split; [|split].
  - intros from to H. split; [by apply phaseRank_increases|destruct to; simpl; lia].
  - by destruct to.
  - rewrite validateSnapshot_accepted. intros Ha.
    apply accepted_reachable in Ha as (s & Hs & <-). apply reachable_trace in Hs as [_ H].
    simpl. etrans; [done|]. destruct (s_phase s); simpl; lia.
Qed.

(** ** Workflow gates *)

(** [gateCheck t gate target]: some set of states contains the start, is closed
    under every edge that does not enter [gate], and misses [target].  The set
    is computed by iterating the successor function. *)
Definition successorsAvoiding (t : gmap string (gmap string bool)) (gate : string) (states : gset string)
  : gset string :=
  set_fold (λ from acc,
    acc ∪ filter (λ to, to ≠ gate ∧ table_get t from to = true)
            (match t !! from with Some row => dom row | None => ∅ end)) states states.

Fixpoint reachAvoiding (fuel : nat) (t : gmap string (gmap string bool)) (gate : string) (states : gset string)
  : gset string :=
  match fuel with
  | O => states
  | S n => reachAvoiding n t gate (successorsAvoiding t gate states)
  end.

Definition closedAvoiding (t : gmap string (gmap string bool)) (gate : string) (states : gset string) : bool :=
  bool_decide (map_Forall (λ from row,
    from ∈ states → map_Forall (λ to (b : bool), b = true → to ≠ gate → to ∈ states) row) t).

Definition gateCheck (t : gmap string (gmap string bool)) (gate target : string) : bool :=
  let states := reachAvoiding 32 t gate {[""]} in
  closedAvoiding t gate states && bool_decide ("" ∈ states) && bool_decide (target ∉ states).

(** The workflow states the journal has recorded. *)
Definition visited (events : list Event) (state : string) : Prop :=
  ∃ e, e ∈ events ∧ ev_WorkflowState e = state.

Lemma closedAvoiding_step t gate states from to :
  closedAvoiding t gate states = true → from ∈ states → to ≠ gate →
  table_get t from to = true → to ∈ states.
Proof.
  unfold closedAvoiding, table_get. intros Hc Hf Hg Ht. bool_hyps.
  destruct (t !! from) as [row|] eqn:Er; [|done].
  destruct (row !! to) as [b|] eqn:Eb; [|done]. simpl in Ht. subst b.
  by apply (Hc from row Er Hf to true Eb).
Qed.

Lemma visited_app l1 l2 st : visited (l1 ++ l2) st ↔ visited l1 st ∨ visited l2 st.
Proof. unfold visited. setoid_rewrite elem_of_app. firstorder. Qed.

Lemma reachable_gate s gate states :
  reachable_session s → closedAvoiding (workflowTable (s_role s)) gate states = true →
  "" ∈ states → visited (s_events s) gate ∨ s_workflowState s ∈ states.
Proof.
  intros (id & uid & role & now & s0 & Hnew & Hsteps).
  assert (s_workflowState s0 = "") as H0 by (unfold newOwned in Hnew; by go_inv).
  revert H0. clear Hnew. intros H0 Hc Hin.
  assert (s_role s0 = s_role s) as Hrole.
  { clear -Hsteps. induction Hsteps as [|? ? ? H _ IH]; [done|]. by destruct H. }
  rewrite <- Hrole in Hc.
  assert (visited (s_events s0) gate ∨ s_workflowState s0 ∈ states) as Hinv by (right; by rewrite H0).
  clear H0 Hin Hrole. induction Hsteps as [|s1 s2 s3 H12 _ IH]; [done|].
  apply IH; [by destruct H12|]. clear IH.
  destruct H12 as [s to c m t Htr Hev _ _|s to t _ Htr _ _]; simpl; rewrite visited_app.
  - destruct Hinv; auto.
  - destruct Hinv as [Hv|Hs]; [by left; left|].
    destruct (decide (to = gate)) as [->|Hne].
    + left; right. eexists. split; [by apply list_elem_of_singleton|]. done.
    + right. by apply (closedAvoiding_step (workflowTable (s_role s)) gate states (s_workflowState s)).
Qed.

Lemma gate_visited snap gate target :
  validateSnapshot snap = Ok tt → gateCheck (workflowTable (snap_Role snap)) gate target = true →
  snap_WorkflowState snap = target → visited (snap_Events snap) gate.
Proof.
  rewrite validateSnapshot_accepted. intros Ha Hg Hw.
  apply accepted_reachable in Ha as (s & Hs & <-). simpl in *.
  unfold gateCheck in Hg. bool_hyps.
  destruct (reachable_gate s gate _ Hs H H1) as [Hv|Hin]; [done|]. by rewrite Hw in Hin.
Qed.

(** The role workflows enforce their safety gates: in any valid journal a
    download has a verified VPN and a verified capacity plan behind it, a
    malware scan an offline-verified scanner and a read-only quarantine, a
    policy approval a completed report, a USB stream a verified absence of
    network and a prepared destination, and a workstation display a verified
    VPN. *)
Theorem workflow_gates_enforced (snap : Snapshot) (gate target : string) :
  validateSnapshot snap = Ok tt → snap_WorkflowState snap = target →
  (snap_Role snap, target, gate) ∈
    [(RoleDownloader, "DOWNLOADING", "VPN_VERIFIED");
     (RoleDownloader, "DOWNLOADING", "CAPACITY_VERIFIED");
     (RoleDownloader, "QUARANTINE_SEALED", "DOWNLOADER_STOPPED");
     (RoleScanner, "MALWARE_SCAN_COMPLETE", "OFFLINE_VERIFIED");
     (RoleScanner, "MALWARE_SCAN_COMPLETE", "QUARANTINE_ATTACHED_READ_ONLY");
     (RoleScanner, "POLICY_APPROVED", "REPORT_COMPLETE");
     (RoleExporter, "STREAMING", "NO_NETWORK_VERIFIED");
     (RoleExporter, "STREAMING", "DESTINATION_PREPARED");
     (RoleWorkstation, "DISPLAY_READY", "VPN_VERIFIED")] →
  visited (snap_Events snap) gate.
Proof.
  intros Hv Hw Hin. apply (gate_visited snap gate target); [done| |done].
  repeat (apply elem_of_cons in Hin as [Hin|Hin]; [injection Hin as -> -> ->; by vm_compute|]).
  by apply elem_of_nil in Hin.
Qed.

(** ** The event reserve *)

(** The journal room each phase may have used: ordinary transitions stop three
    events short of the limit, and the three cleanup transitions use one each. *)
Definition roomBound (p : Phase) : Z :=
  match p with
  | PhaseAborting => maxSessionEvents - 2
  | PhaseDestroying => maxSessionEvents - 1
  | PhaseDestroyed => maxSessionEvents
  | _ => maxSessionEvents - cleanupEventReserve
  end.

Definition cleanupTarget (to : Phase) : bool :=
  match to with PhaseAborting | PhaseDestroying | PhaseDestroyed => true | _ => false end.

(** The transitions the daemon performs: user commands are not cleanup-owned,
    and cleanup only aborts, destroys or completes destruction. *)
Inductive daemon_step : Session → Session → Prop :=
| daemon_lifecycle s to now s' e :
    transitionLifecycle s to false now = Ok (s', e) → daemon_step s s'
| daemon_workflow s to now s' e :
    transitionWorkflow s to now = Ok (s', e) → daemon_step s s'
| daemon_cleanup s to now s' e :
    cleanupTarget to = true → transitionLifecycle s to true now = Ok (s', e) → daemon_step s s'.

Lemma daemon_step_room s s' :
  daemon_step s s' → (len (s_events s) ≤ roomBound (s_phase s))%Z →
  (len (s_events s') ≤ roomBound (s_phase s'))%Z.
Proof.
  intros Hstep Hr. destruct Hstep as [s to now s' e H|s to now s' e H|s to now s' e Ht H].
  - unfold transitionLifecycle, requireEventRoom in H. guards; simpl; rewrite len_app;
      unfold roomBound, maxSessionEvents, cleanupEventReserve in *; simpl in *;
      change (len [_]) with 1%Z; destruct to; lia.
  - unfold transitionWorkflow, requireEventRoom in H. guards; simpl; rewrite len_app;
      unfold roomBound, maxSessionEvents, cleanupEventReserve in *; simpl in *;
      change (len [_]) with 1%Z; destruct (s_phase s); simpl in *; try done; lia.
  - unfold transitionLifecycle, requireEventRoom in H. guards; simpl; rewrite len_app;
      unfold roomBound, maxSessionEvents, cleanupEventReserve in *; simpl in *;
      change (len [_]) with 1%Z;
      destruct to; try done; destruct (s_phase s); simpl in *; try done; lia.
Qed.

(** With the reserve intact, a cleanup transition the table allows succeeds. *)
Lemma room_cleanup_transition s to now :
  (len (s_events s) ≤ roomBound (s_phase s))%Z → cleanupTarget to = true →
  lifecycleTransitions (s_phase s) to = true →
  ∃ s' e, transitionLifecycle s to true now = Ok (s', e) ∧ s_phase s' = to ∧
    (len (s_events s') ≤ roomBound (s_phase s'))%Z.
Proof.
  intros Hroom Ht Htr.
  assert (∃ s' e, transitionLifecycle s to true now = Ok (s', e) ∧ s_phase s' = to) as (s' & e & H & Hp).
  { unfold transitionLifecycle, requireEventRoom. rewrite Htr. cbn [negb andb].
    replace (maxSessionEvents <=? len (s_events s))%Z with false.
    - destruct to; simplify_eq/=; eauto.
    - symmetry. apply Z.leb_gt. unfold roomBound, maxSessionEvents, cleanupEventReserve in *.
      destruct (s_phase s), to; simplify_eq/=; lia. }
  exists s', e. split_and!; [done..|]. eapply daemon_step_room; [|done]. by eapply daemon_cleanup.
Qed.

Lemma transitionLifecycle_updated s to co now s' e :
  transitionLifecycle s to co now = Ok (s', e) → s_updatedAt s' = now.
Proof. unfold transitionLifecycle. intros H. by go_inv. Qed.

(** C2: cleanup can always be journaled: however many events the daemon's own
    transitions have recorded since creation, the reserve leaves room for every
    remaining cleanup transition, so an exhausted journal can never keep a
    session from being aborted, destroyed and recorded as destroyed. *)
Theorem cleanup_never_out_of_room (s0 s : Session) (id : string) (uid created : Z) (role : Role)
    (to : Phase) (now : Z) :
  newOwned id uid role created = Ok s0 → rtc daemon_step s0 s →
  cleanupTarget to = true → lifecycleTransitions (s_phase s) to = true →
  ∃ s' e, transitionLifecycle s to true now = Ok (s', e) ∧ s_phase s' = to.
Proof.
  intros Hnew Hsteps Ht Htr.
  assert (len (s_events s) ≤ roomBound (s_phase s))%Z as Hroom.
  { assert (len (s_events s0) ≤ roomBound (s_phase s0))%Z as H0.
    { unfold newOwned in Hnew. go_inv. unfold len, maxSessionEvents, cleanupEventReserve; simpl; lia. }
    clear -H0 Hsteps. induction Hsteps; eauto using daemon_step_room. }
  destruct (room_cleanup_transition s to now Hroom Ht Htr) as (s' & e & H & Hp & _). eauto.
Qed.

(** ** Concrete runs *)

Definition demoID : string := "pvm-0123456789abcdef0123456789abcdef".

Inductive demo_command := DemoLifecycle (to : Phase) | DemoWorkflow (to : string).

(** Runs a list of transitions, one per nanosecond; a refused one is skipped. *)
Fixpoint demoRun (s : Session) (cs : list demo_command) : Session :=
  match cs with
  | [] => s
  | DemoLifecycle to :: cs' =>
      match transitionLifecycle s to false (s_updatedAt s + 1) with
      | Ok (s', _) => demoRun s' cs'
      | Err _ => demoRun s cs'
      end
  | DemoWorkflow to :: cs' =>
      match transitionWorkflow s to (s_updatedAt s + 1) with
      | Ok (s', _) => demoRun s' cs'
      | Err _ => demoRun s cs'
      end
  end.

Definition demoCreated (role : Role) : Session :=
  mkSession demoID 1000 role PhaseCreated "" 1 7 7 [creationEvent 7].

Definition demoActive : Session :=
  demoRun (demoCreated RoleDownloader)
    [DemoLifecycle PhasePreflighted; DemoLifecycle PhaseImagesVerified;
     DemoLifecycle PhaseStorageReady; DemoLifecycle PhaseActive].

Definition demoDownloading : Session :=
  demoRun demoActive
    (map DemoWorkflow ["PLANNED"; "SCANNER_UPDATE_PREPARED"; "DOWNLOADER_BOOTING"; "GUEST_AUTHENTICATED";
     "VPN_CONFIGURED"; "VPN_VERIFIED"; "METADATA_FETCHING"; "METADATA_READY";
     "FILE_SELECTION_REQUIRED"; "CAPACITY_VERIFIED"; "DOWNLOADING"]).

Lemma transitions_keep_journal_valid_witness :
  validateSnapshot (snapshotOf (demoRun demoActive [DemoLifecycle PhaseStopping])) = Ok tt.
Proof.
  apply (transitions_keep_journal_valid demoActive _
    (mkEvent 6 "SESSION_STOPPING" PhaseStopping "" "A protected stop was requested." 12) 12).
  - by vm_compute.
  - by vm_compute.
  - left. exists PhaseStopping, false. by vm_compute.
Defined.

Lemma active_only_after_all_gates_witness :
  lifecycleTrace (snap_Events (snapshotOf demoDownloading)) =
  [PhaseCreated; PhasePreflighted; PhaseImagesVerified; PhaseStorageReady; PhaseActive].
Proof. apply (active_only_after_all_gates (snapshotOf demoDownloading)); by vm_compute. Defined.

Lemma lifecycle_terminates_witness :
  (length (lifecycleTrace (snap_Events (snapshotOf demoDownloading))) ≤ 9)%nat.
Proof. apply (lifecycle_terminates (snapshotOf demoDownloading)). by vm_compute. Defined.

Lemma workflow_gates_enforced_witness :
  visited (snap_Events (snapshotOf demoDownloading)) "VPN_VERIFIED".
Proof.
  apply (workflow_gates_enforced (snapshotOf demoDownloading) "VPN_VERIFIED" "DOWNLOADING").
  - by vm_compute.
  - by vm_compute.
  - replace (snap_Role (snapshotOf demoDownloading)) with RoleDownloader by (by vm_compute).
    apply elem_of_cons. by left.
Defined.

Lemma cleanup_never_out_of_room_witness :
  ∃ s' e, transitionLifecycle (demoCreated RoleScanner) PhaseAborting true 8 = Ok (s', e) ∧
    s_phase s' = PhaseAborting.
Proof.
  apply (cleanup_never_out_of_room (demoCreated RoleScanner) (demoCreated RoleScanner)
    demoID 1000 7 RoleScanner); [by vm_compute|apply rtc_refl|done|done].
Defined.
