(* ===== verification/SessionManager.v ===== *)
(** * The session manager: one actor per session, resources and subscribers

    Models [src/internal/session/manager.go].  An [entry] is one session's
    actor: the session, the registered cleanup steps, the subscribers and the
    cleanup attempt in flight.  The commands of an entry are executed one at a
    time by its goroutine ([Manager.run]), so each is one function on the
    entry; everything outside the manager (the store, the clock, the random
    source, host resources reached by allocators) is a state [W] threaded
    through the calls, with the calls the manager makes stated as interfaces. *)

From Stdlib Require Import ZArith Lia Ascii.
From stdpp Require Import strings base tactics option gmap relations sorting list.
From S2P Require Import Prelude SessionModel.

Open Scope string_scope.
Open Scope list_scope.

(** ** Constants *)

Definition maxSubscribersPerSession : Z := 32.
Definition maxSubscriberQueue : Z := 64.
Definition maxIDAttempts : nat := 8.
Definition maxTombstones : Z := 1024.

(** [^[a-z][a-z0-9.-]{0,63}$] *)
Definition resourceNamePattern (s : string) : bool :=
  match_head_tail is_lower
    (λ c, is_lower c || is_digit c || char_eqb c "." || char_eqb c "-") 0 63 s.

(** ** What the manager calls *)

(** The operations of [*Store] the manager uses. *)
Class StoreOps (W : Type) := {
  store_Create : Snapshot → W → result session_error unit * W;
  store_Save : Snapshot → W → result session_error unit * W;
  store_Remove : string → W → result session_error unit * W
}.

(** [m.now] and [m.newID]. *)
Class HostOps (W : Type) := {
  host_now : W → Z * W;
  host_newID : W → result session_error string * W
}.

Section Manager.
Context {W : Type} `{!StoreOps W} `{!HostOps W}.

(** [ctx.Err()] as a reading of the world at the moment of the call. *)
Definition Ctx : Type := W → option session_error.

(** [CleanupFunc] and [AuditFunc]; their context is part of the world. *)
Definition CleanupFunc : Type := W → result session_error unit * W.
Definition AuditFunc : Type := W → result session_error unit * W.

(** [AllocateFunc] returns possibly nil functions and a possibly nil error. *)
Definition AllocateFunc : Type :=
  W → (option CleanupFunc * option AuditFunc * option session_error) * W.

Record cleanupStep := mkStep {
  step_name : string;
  step_cleanup : CleanupFunc;
  step_audit : AuditFunc;
  step_done : bool
}.

(** [subscriberState]: the buffered channel, the cancel signal, and, once
    [finish] has run, the error it was given. *)
Record subscriberState := mkSub {
  sub_id : Z;
  sub_events : list Event;
  sub_cancel : bool;
  sub_finished : option (option session_error)
}.

(** [Subscription]: what the subscriber received at subscription time. *)
Record Subscription := mkSubscription {
  subn_snapshot : Snapshot;
  subn_replay : list Event;
  subn_id : Z
}.

Record commandResult := mkCommandResult {
  res_snapshot : Snapshot;
  res_err : option session_error
}.

(** [entry].  [e_finished] keeps the states of removed subscribers, which their
    [Subscription] still reads; [e_cleanup] is the attempt in flight and
    [e_attempts] the results of the completed ones. *)
Record entry := mkEntry {
  e_session : Session;
  e_steps : list cleanupStep;
  e_subscribers : gmap Z subscriberState;
  e_finished : gmap Z subscriberState;
  e_nextSubID : Z;
  e_accepting : bool;
  e_done : bool;
  e_cleanup : option nat;
  e_attempts : list (nat * commandResult);
  e_nextAttempt : nat
}.

Definition withSession (item : entry) (s : Session) : entry :=
  mkEntry s (e_steps item) (e_subscribers item) (e_finished item) (e_nextSubID item)
    (e_accepting item) (e_done item) (e_cleanup item) (e_attempts item) (e_nextAttempt item).

Definition withSteps (item : entry) (steps : list cleanupStep) : entry :=
  mkEntry (e_session item) steps (e_subscribers item) (e_finished item) (e_nextSubID item)
    (e_accepting item) (e_done item) (e_cleanup item) (e_attempts item) (e_nextAttempt item).

Definition withSubscribers (item : entry) (subs finished : gmap Z subscriberState) (next : Z) : entry :=
  mkEntry (e_session item) (e_steps item) subs finished next
    (e_accepting item) (e_done item) (e_cleanup item) (e_attempts item) (e_nextAttempt item).

Definition stopAccepting (item : entry) : entry :=
  mkEntry (e_session item) (e_steps item) (e_subscribers item) (e_finished item) (e_nextSubID item)
    false (e_done item) (e_cleanup item) (e_attempts item) (e_nextAttempt item).

Definition closeDone (item : entry) : entry :=
  mkEntry (e_session item) (e_steps item) (e_subscribers item) (e_finished item) (e_nextSubID item)
    (e_accepting item) true (e_cleanup item) (e_attempts item) (e_nextAttempt item).

Definition withCleanup (item : entry) (c : option nat) (done : list (nat * commandResult)) (next : nat) : entry :=
  mkEntry (e_session item) (e_steps item) (e_subscribers item) (e_finished item) (e_nextSubID item)
    (e_accepting item) (e_done item) c done next.

(** ** Subscribers *)

(** [subscriberState.finish]: only the first call has an effect. *)
Definition subFinish (s : subscriberState) (err : option session_error) : subscriberState :=
  match sub_finished s with
  | Some _ => s
  | None => mkSub (sub_id s) (sub_events s) (sub_cancel s) (Some err)
  end.

Definition removeSubscriber (item : entry) (id : Z) (err : option session_error) : entry :=
  match e_subscribers item !! id with
  | None => item
  | Some state =>
      withSubscribers item (delete id (e_subscribers item))
        (<[id := subFinish state err]> (e_finished item)) (e_nextSubID item)
  end.

(** The body of [publish] for one subscriber: a cancelled one is removed, a
    full channel drops its subscriber as too slow. *)
Definition publishTo (event : Event) (item : entry) (p : Z * subscriberState) : entry :=
  let '(id, subscriber) := p in
  if sub_cancel subscriber then removeSubscriber item id None
  else if (len (sub_events subscriber) <? maxSubscriberQueue)%Z then
    withSubscribers item
      (<[id := mkSub (sub_id subscriber) (sub_events subscriber ++ [event])
                 (sub_cancel subscriber) (sub_finished subscriber)]> (e_subscribers item))
      (e_finished item) (e_nextSubID item)
  else removeSubscriber item id (Some ErrSubscriberSlow).

Definition publish (item : entry) (event : Event) : entry :=
  fold_left (publishTo event) (map_to_list (e_subscribers item)) item.

Definition closeSubscribers (item : entry) (err : option session_error) : entry :=
  fold_left (λ it p, removeSubscriber it p.1 err) (map_to_list (e_subscribers item)) item.

Definition subscribe (item : entry) (after : Z) : result session_error Subscription * entry :=
  let snapshot := snapshotOf (e_session item) in
  if (snap_Sequence snapshot <? after)%Z then (Err ErrEventCursor, item)
  else if (maxSubscribersPerSession <=? Z.of_nat (size (e_subscribers item)))%Z then
    (Err ErrSubscriberSlow, item)
  else
    let next := add64 (e_nextSubID item) 1 in
    let state := mkSub next [] false None in
    let replay := List.filter (λ event, (after <? ev_Sequence event)%Z) (snap_Events snapshot) in
    (Ok (mkSubscription snapshot replay next),
     withSubscribers item (<[next := state]> (e_subscribers item)) (e_finished item) next).

(** ** Commands of one entry *)

Definition transition (item : entry) (to : Phase) (cleanupOwned : bool) (w : W)
  : (Snapshot * option session_error) * entry * W :=
  let before := snapshotOf (e_session item) in
  let '(t, w) := host_now w in
  match transitionLifecycle (e_session item) to cleanupOwned t with
  | Err err => ((before, Some err), item, w)
  | Ok (s, event) =>
      let after := snapshotOf s in
      match store_Save after w with
      | (Err err, w) => ((before, Some err), withSession item (restore s before), w)
      | (Ok _, w) => ((after, None), publish (withSession item s) event, w)
      end
  end.

Definition workflow (item : entry) (to : string) (w : W)
  : (Snapshot * option session_error) * entry * W :=
  let before := snapshotOf (e_session item) in
  let '(t, w) := host_now w in
  match transitionWorkflow (e_session item) to t with
  | Err err => ((before, Some err), item, w)
  | Ok (s, event) =>
      let after := snapshotOf s in
      match store_Save after w with
      | (Err err, w) => ((before, Some err), withSession item (restore s before), w)
      | (Ok _, w) => ((after, None), publish (withSession item s) event, w)
      end
  end.

Definition addStep (item : entry) (step : cleanupStep) : entry :=
  withSteps item (e_steps item ++ [step]).

Definition acquire (item : entry) (resource : string) (allocate : AllocateFunc) (operation : Ctx) (w : W)
  : option session_error * entry * W :=
  if negb (e_accepting item) then (Some ErrResourceRegistrationEnd, item, w)
  else if cleanupPhase (snap_Phase (snapshotOf (e_session item))) then
    (Some ErrResourceRegistrationEnd, item, w)
  else if existsb (λ step, bool_decide (step_name step = resource)) (e_steps item) then
    (Some ErrDuplicateResource, item, w)
  else
    let '(cleanup, audit, aerr, w) := allocate w in
    match aerr, cleanup, audit with
    | Some err, None, None => (Some err, item, w)
    | Some err, Some c, Some a =>
        (Some (ErrJoin err ErrCleanupIncomplete), addStep item (mkStep resource c a false), w)
    | Some err, _, _ =>
        (Some (ErrJoin err (ErrMessage "allocator returned an incomplete partial-resource contract")), item, w)
    | None, Some c, Some a =>
        let step := mkStep resource c a false in
        match operation w with
        | Some err =>
            match c w with
            | (Err _, w) => (Some ErrCleanupIncomplete, addStep item step, w)
            | (Ok _, w) =>
                match a w with
                | (Err _, w) => (Some ErrCleanupIncomplete, addStep item step, w)
                | (Ok _, w) => (Some err, item, w)
                end
            end
        | None => (None, addStep item step, w)
        end
    | None, _, _ => (Some (ErrMessage "allocator returned an incomplete resource contract"), item, w)
    end.

(** The loop of [cleanupEntry] from the last step to the first; [false] is the
    early return. *)
Fixpoint cleanupSteps (steps : list cleanupStep) (w : W) : bool * list cleanupStep * W :=
  match steps with
  | [] => (true, [], w)
  | step :: rest =>
      let '(ok, rest', w) := cleanupSteps rest w in
      if negb ok then (false, step :: rest', w)
      else if step_done step then (true, step :: rest', w)
      else
        match step_cleanup step w with
        | (Err _, w) => (false, step :: rest', w)
        | (Ok _, w) =>
            match step_audit step w with
            | (Err _, w) => (false, step :: rest', w)
            | (Ok _, w) =>
                (true, mkStep (step_name step) (step_cleanup step) (step_audit step) true :: rest', w)
            end
        end
  end.

(** The part of [cleanupEntry] after the phase transitions. *)
Definition releaseEntry (item : entry) (w : W) : (Snapshot * option session_error) * entry * W :=
  let '(ok, steps, w) := cleanupSteps (e_steps item) w in
  let item := withSteps item steps in
  if negb ok then ((snapshotOf (e_session item), Some ErrCleanupIncomplete), item, w)
  else
    match store_Remove (s_id (e_session item)) w with
    | (Err _, w) => ((snapshotOf (e_session item), Some ErrCleanupIncomplete), item, w)
    | (Ok _, w) =>
        let '(t, w) := host_now w in
        match transitionLifecycle (e_session item) PhaseDestroyed true t with
        | Err err => ((snapshotOf (e_session item), Some err), item, w)
        | Ok (s, event) =>
            let item := publish (withSession item s) event in
            ((snapshotOf (e_session item), None), item, w)
        end
    end.

Definition cleanupEntry (item : entry) (w : W) : (Snapshot * option session_error) * entry * W :=
  let item := stopAccepting item in
  let current := snapshotOf (e_session item) in
  let '((current, err), item, w) :=
    if bool_decide (snap_Phase current = PhaseStopping) || bool_decide (snap_Phase current = PhaseAborting) ||
       bool_decide (snap_Phase current = PhaseDestroying)
    then ((current, None), item, w)
    else transition item PhaseAborting true w in
  match err with
  | Some e => ((current, Some e), item, w)
  | None =>
      let '((current, err), item, w) :=
        if bool_decide (snap_Phase current = PhaseDestroying) then ((current, None), item, w)
        else transition item PhaseDestroying true w in
      match err with
      | Some e => ((current, Some e), item, w)
      | None => releaseEntry item w
      end
  end.

(** [beginCleanup]: callers that find an attempt in flight join it. *)
Definition beginCleanup (item : entry) : nat * bool * entry :=
  match e_cleanup item with
  | Some attempt => (attempt, false, item)
  | None =>
      (e_nextAttempt item, true,
       withCleanup item (Some (e_nextAttempt item)) (e_attempts item) (S (e_nextAttempt item)))
  end.

Definition completeCleanup (item : entry) (attempt : nat) (res : commandResult) : entry :=
  if bool_decide (e_cleanup item = Some attempt)
  then withCleanup item None ((attempt, res) :: e_attempts item) (e_nextAttempt item)
  else item.

(** ** The manager *)

Record Manager := mkManager {
  m_maxPerOwner : Z;
  m_entries : gmap string entry;
  m_destroyed : gmap string Snapshot;
  m_shuttingDown : bool
}.

Definition withEntries (m : Manager) (entries : gmap string entry) : Manager :=
  mkManager (m_maxPerOwner m) entries (m_destroyed m) (m_shuttingDown m).

Definition NewManager (maxPerOwner : Z) : result session_error Manager :=
  fail_if ((maxPerOwner <? 1)%Z || (64 <? maxPerOwner)%Z)
    with (ErrMessage "per-owner session quota must be between 1 and 64") ;;
  Ok (mkManager maxPerOwner ∅ ∅ false).

Definition newEntry (s : Session) : entry := mkEntry s [] ∅ ∅ 0 true false None [] 0.

(** The sessions of one owner that still have an entry. *)
Definition ownedBy (m : Manager) (uid : Z) : gmap string entry :=
  filter (λ p, snap_OwnerUID (snapshotOf (e_session p.2)) = uid) (m_entries m).

(** The identifier loop of [Create]; [fuel] is the remaining attempts. *)
Fixpoint createLoop (fuel : nat) (m : Manager) (ownerUID : Z) (role : Role) (w : W)
  : result session_error Snapshot * Manager * W :=
  match fuel with
  | O => (Err (ErrMessage "could not allocate a collision-free session identifier"), m, w)
  | S attempts =>
      match host_newID w with
      | (Err err, w) => (Err err, m, w)
      | (Ok id, w) =>
          match m_entries m !! id with
          | Some _ => createLoop attempts m ownerUID role w
          | None =>
              let '(t, w) := host_now w in
              match newOwned id ownerUID role t with
              | Err err => (Err err, m, w)
              | Ok s =>
                  match store_Create (snapshotOf s) w with
                  | (Err ErrExist, w) => createLoop attempts m ownerUID role w
                  | (Err err, w) => (Err err, m, w)
                  | (Ok _, w) =>
                      (Ok (snapshotOf s), withEntries m (<[id := newEntry s]> (m_entries m)), w)
                  end
              end
          end
      end
  end.

Definition Create (m : Manager) (ownerUID : Z) (role : Role) (w : W)
  : result session_error Snapshot * Manager * W :=
  match ValidateRole role with
  | Err err => (Err err, m, w)
  | Ok _ =>
      if m_shuttingDown m then (Err ErrManagerShuttingDown, m, w)
      else if (m_maxPerOwner m <=? Z.of_nat (size (ownedBy m ownerUID)))%Z then
        (Err ErrQuotaExceeded, m, w)
      else createLoop maxIDAttempts m ownerUID role w
  end.

Definition authorizedEntry (m : Manager) (id : string) (requesterUID : Z) : result session_error entry :=
  match ValidateID id with
  | Err _ => Err ErrNotFound
  | Ok _ =>
      match m_entries m !! id with
      | None => Err ErrNotFound
      | Some item =>
          let owner := snap_OwnerUID (snapshotOf (e_session item)) in
          fail_if (negb (bool_decide (requesterUID = 0%Z)) && negb (bool_decide (requesterUID = owner)))
            with ErrUnauthorized ;;
          Ok item
      end
  end.

Definition destroyedSnapshot (m : Manager) (id : string) (requesterUID : Z) : option Snapshot :=
  match m_destroyed m !! id with
  | None => None
  | Some snapshot =>
      if negb (bool_decide (requesterUID = 0%Z)) && negb (bool_decide (requesterUID = snap_OwnerUID snapshot))
      then None else Some snapshot
  end.

Definition Get (m : Manager) (id : string) (requesterUID : Z) : result session_error Snapshot :=
  match authorizedEntry m id requesterUID with
  | Ok item => Ok (snapshotOf (e_session item))
  | Err ErrNotFound =>
      match destroyedSnapshot m id requesterUID with
      | Some snapshot => Ok snapshot
      | None => Err ErrNotFound
      end
  | Err err => Err err
  end.

(** The order of [List]: creation time, then identifier. *)
Definition snapshotBefore (a b : Snapshot) : Prop :=
  (snap_CreatedAt a < snap_CreatedAt b)%Z ∨
  (snap_CreatedAt a = snap_CreatedAt b ∧ string_le (snap_ID a) (snap_ID b)).

#[global] Instance snapshotBefore_dec : RelDecision snapshotBefore.
Proof. unfold RelDecision, snapshotBefore. intros a b. apply _. Defined.

Definition List_ (m : Manager) (requesterUID : Z) : list Snapshot :=
  merge_sort snapshotBefore
    (List.filter (λ snapshot, bool_decide (requesterUID = 0%Z) ||
                              bool_decide (snap_OwnerUID snapshot = requesterUID))
       (map (λ p, snapshotOf (e_session p.2)) (map_to_list (m_entries m)))).

(** The oldest tombstone, as the loop of [finish] finds it. *)
Definition oldestTombstone (l : list (string * Snapshot)) : string :=
  (fold_left (λ acc p,
     if bool_decide (acc.1 = "") || (snap_UpdatedAt p.2 <? acc.2)%Z
     then (p.1, snap_UpdatedAt p.2) else acc) l ("", 0%Z)).1.

Definition tombstoneOf (snapshot : Snapshot) : Snapshot :=
  mkSnapshot (snap_SchemaVersion snapshot) (snap_ID snapshot) (snap_OwnerUID snapshot)
    (snap_Role snapshot) (snap_Phase snapshot) (snap_WorkflowState snapshot)
    (snap_Sequence snapshot) (snap_CreatedAt snapshot) (snap_UpdatedAt snapshot) [].

(** [finish].  An identifier names one entry for as long as its actor lives
    ([Create] refuses a taken one), so the pointer test is the presence test. *)
Definition finish (m : Manager) (snapshot : Snapshot) : Manager :=
  let destroyed :=
    if (maxTombstones <=? Z.of_nat (size (m_destroyed m)))%Z
    then delete (oldestTombstone (map_to_list (m_destroyed m))) (m_destroyed m)
    else m_destroyed m in
  mkManager (m_maxPerOwner m) (delete (snap_ID snapshot) (m_entries m))
    (<[snap_ID snapshot := tombstoneOf snapshot]> destroyed) (m_shuttingDown m).

Inductive command :=
| commandTransition (to : Phase)
| commandWorkflow (state : string)
| commandAcquire (resource : string) (allocate : AllocateFunc) (operation : Ctx)
| commandSubscribe (after : Z)
| commandCleanup (cleanupRun : nat)
| unsubscribe (subscriberID : Z).

Record response := mkResponse {
  resp_snapshot : Snapshot;
  resp_subscription : option Subscription;
  resp_err : option session_error
}.

(** One iteration of [Manager.run] on the entry of session [id]. *)
Definition runCommand (m : Manager) (id : string) (item : entry) (cmd : command) (w : W)
  : response * Manager * W :=
  let keep item := withEntries m (<[id := item]> (m_entries m)) in
  match cmd with
  | unsubscribe subscriberID =>
      let item := removeSubscriber item subscriberID None in
      (mkResponse (snapshotOf (e_session item)) None None, keep item, w)
  | commandTransition to =>
      let '((snapshot, err), item, w) := transition item to false w in
      (mkResponse snapshot None err, keep item, w)
  | commandWorkflow state =>
      let '((snapshot, err), item, w) := workflow item state w in
      (mkResponse snapshot None err, keep item, w)
  | commandAcquire resource allocate operation =>
      let '(err, item, w) := acquire item resource allocate operation w in
      (mkResponse (snapshotOf (e_session item)) None err, keep item, w)
  | commandSubscribe after =>
      match subscribe item after with
      | (Ok subscription, item) =>
          (mkResponse (snapshotOf (e_session item)) (Some subscription) None, keep item, w)
      | (Err err, item) => (mkResponse (snapshotOf (e_session item)) None (Some err), keep item, w)
      end
  | commandCleanup attempt =>
      let '((snapshot, err), item, w) := cleanupEntry item w in
      let res := mkCommandResult snapshot err in
      match err with
      | None =>
          let item := closeDone (closeSubscribers (completeCleanup item attempt res) None) in
          (mkResponse snapshot None None, finish m snapshot, w)
      | Some _ =>
          (mkResponse snapshot None err, keep (completeCleanup item attempt res), w)
      end
  end.

(** How long the caller of [send] stays: until the response, until its context
    ends before the command is queued, or until it ends while waiting. *)
Inductive patience := WaitsForResponse | GivesUpBeforeQueue | GivesUpWaiting.

Definition send (m : Manager) (id : string) (requesterUID : Z) (cmd : command) (p : patience) (w : W)
  : response * Manager * W :=
  let empty := mkSnapshot 0 "" 0 (RoleOther "") (PhaseOther "") "" 0 0 0 [] in
  match authorizedEntry m id requesterUID with
  | Err err => (mkResponse empty None (Some err), m, w)
  | Ok item =>
      match p with
      | GivesUpBeforeQueue => (mkResponse empty None (Some ErrContext), m, w)
      | GivesUpWaiting =>
          let '(_, m, w) := runCommand m id item cmd w in
          (mkResponse empty None (Some ErrContext), m, w)
      | WaitsForResponse => runCommand m id item cmd w
      end
  end.

Definition TransitionWorkflow (m : Manager) (id : string) (requesterUID : Z) (to : string) (p : patience) (w : W)
  : response * Manager * W :=
  let empty := mkSnapshot 0 "" 0 (RoleOther "") (PhaseOther "") "" 0 0 0 [] in
  if negb (eventCodePattern to) then (mkResponse empty None (Some ErrInvalidWorkflow), m, w)
  else send m id requesterUID (commandWorkflow to) p w.

Definition AcquireResource (m : Manager) (id : string) (requesterUID : Z) (name : string)
    (allocate : AllocateFunc) (operation : Ctx) (p : patience) (w : W) : option session_error * Manager * W :=
  if negb (resourceNamePattern name) then
    (Some (ErrMessage "resource name and allocator are required"), m, w)
  else
    let '(r, m, w) := send m id requesterUID (commandAcquire name allocate operation) p w in
    (resp_err r, m, w).

(** [Cleanup]: a destroyed session answers from its tombstone; otherwise the
    request joins or starts a cleanup attempt, whose command the actor runs
    whether or not the caller keeps waiting. *)
Definition Cleanup (m : Manager) (id : string) (requesterUID : Z) (p : patience) (w : W)
  : result session_error Snapshot * Manager * W :=
  match destroyedSnapshot m id requesterUID with
  | Some snapshot => (Ok snapshot, m, w)
  | None =>
      match authorizedEntry m id requesterUID with
      | Err err => (Err err, m, w)
      | Ok item =>
          let '(attempt, _, item) := beginCleanup item in
          let m := withEntries m (<[id := item]> (m_entries m)) in
          let '(r, m, w) := runCommand m id item (commandCleanup attempt) w in
          match p with
          | WaitsForResponse =>
              (match resp_err r with None => Ok (resp_snapshot r) | Some e => Err e end, m, w)
          | _ => (Err ErrContext, m, w)
          end
      end
  end.

(** The cleanup commands of [Shutdown] in the order it waits for them, with the
    error of each attempt. *)
Fixpoint shutdownLoop (ids : list string) (m : Manager) (w : W) : list (option session_error) * Manager * W :=
  match ids with
  | [] => ([], m, w)
  | id :: rest =>
      match m_entries m !! id with
      | None => shutdownLoop rest m w
      | Some item =>
          let '(attempt, _, item) := beginCleanup item in
          let '(r, m, w) := runCommand m id item (commandCleanup attempt) w in
          let '(errs, m, w) := shutdownLoop rest m w in
          (resp_err r :: errs, m, w)
      end
  end.

(** The errors [Shutdown] collects: all but [ErrNotFound]. *)
Definition cleanupErrors (results : list (option session_error)) : list session_error :=
  omap (λ r, match r with Some ErrNotFound => None | _ => r end) results.

(** [Shutdown]: no further session is admitted, every actor's cleanup is
    admitted before any is awaited, and the actors finish their cleanup even
    when the caller's context ends first; [patience] is how many attempts the
    caller waits for before its context ends, if it does. *)
Definition Shutdown (m : Manager) (patience : option nat) (w : W) : option session_error * Manager * W :=
  let ids := merge_sort string_le (map fst (map_to_list (m_entries m))) in
  let '(results, m, w) :=
    shutdownLoop ids (mkManager (m_maxPerOwner m) (m_entries m) (m_destroyed m) true) w in
  let errs :=
    match patience with
    | Some n => if (n <? length results)%nat then cleanupErrors (take n results) ++ [ErrContext]
                else cleanupErrors results
    | None => cleanupErrors results
    end in
  match errs with
  | [] => (None, m, w)
  | _ => (Some (fold_left ErrJoin errs ErrCleanupIncomplete), m, w)
  end.

Definition Transition (m : Manager) (id : string) (requesterUID : Z) (to : Phase) (p : patience) (w : W)
  : response * Manager * W :=
  send m id requesterUID (commandTransition to) p w.

Definition Subscribe (m : Manager) (id : string) (requesterUID : Z) (after : Z) (p : patience) (w : W)
  : result session_error (option Subscription) * Manager * W :=
  let '(r, m, w) := send m id requesterUID (commandSubscribe after) p w in
  (match resp_err r with None => Ok (resp_subscription r) | Some e => Err e end, m, w).

End Manager.

Arguments CleanupFunc W : clear implicits.
Arguments AuditFunc W : clear implicits.
Arguments AllocateFunc W : clear implicits.
Arguments cleanupStep W : clear implicits.
Arguments entry W : clear implicits.
Arguments Manager W : clear implicits.
Arguments command W : clear implicits.
#[global] Arguments runCommand : simpl never.
#[global] Arguments cleanupEntry : simpl never.

(** ** The store's contract

    What the manager relies on: [stored] is the set of records on disk.  A
    failed save may have installed the new record or kept the old one, but it
    never touches another session's record. *)
Class StoreSpec (W : Type) `{!StoreOps W} `{!HostOps W} := {
  stored : W → gmap string Snapshot;
  save_ok snap w w' : store_Save snap w = (Ok tt, w') → stored w' = <[snap_ID snap := snap]> (stored w);
  save_err snap w e w' : store_Save snap w = (Err e, w') →
    stored w' = stored w ∨ stored w' = <[snap_ID snap := snap]> (stored w);
  remove_ok id w w' : store_Remove id w = (Ok tt, w') → stored w' = delete id (stored w);
  now_stored w : stored (host_now w).2 = stored w
}.

(** The clock does not run backwards, and saving does not turn it back. *)
Class ClockSpec (W : Type) `{!StoreOps W} `{!HostOps W} := {
  clock : W → Z;
  now_clock w : (clock w ≤ (host_now w).1 ≤ clock (host_now w).2)%Z;
  save_clock snap w : (clock w ≤ clock (store_Save snap w).2)%Z
}.

(** * Properties *)

Section Properties.
Context {W : Type} `{!StoreOps W} `{!HostOps W}.
Implicit Types (item : entry W) (w : W) (m : Manager W) (steps : list (cleanupStep W)).

(** Everything but the subscriber tables. *)
Definition subscribers_only item item' : Prop :=
  e_session item' = e_session item ∧ e_steps item' = e_steps item ∧
  e_nextSubID item' = e_nextSubID item ∧ e_accepting item' = e_accepting item ∧
  e_done item' = e_done item ∧ e_cleanup item' = e_cleanup item ∧
  e_attempts item' = e_attempts item ∧ e_nextAttempt item' = e_nextAttempt item.

#[local] Instance subscribers_only_preorder : PreOrder subscribers_only.
Proof.
  split; [by intros ?|]. intros x y z (?&?&?&?&?&?&?&?) (?&?&?&?&?&?&?&?).
  repeat split; congruence.
Qed.

Lemma removeSubscriber_only item id err : subscribers_only item (removeSubscriber item id err).
Proof. unfold removeSubscriber. by case_match. Qed.

Lemma publishTo_only event item p : subscribers_only item (publishTo event item p).
Proof.
  destruct p as [id sub]; simpl. repeat case_match; try apply removeSubscriber_only. done.
Qed.

Lemma publish_only item event : subscribers_only item (publish item event).
Proof.
  unfold publish. generalize (map_to_list (e_subscribers item)) as l. intros l. revert item.
  induction l as [|p l IH]; intros item; simpl; [done|].
  etrans; [apply publishTo_only|apply IH].
Qed.

Lemma closeSubscribers_only item err : subscribers_only item (closeSubscribers item err).
Proof.
  unfold closeSubscribers. generalize (map_to_list (e_subscribers item)) as l. intros l. revert item.
  induction l as [|p l IH]; intros item; simpl; [done|].
  etrans; [apply removeSubscriber_only|apply IH].
Qed.

Lemma publish_session item event : e_session (publish item event) = e_session item.
Proof. apply publish_only. Qed.

Lemma publish_steps item event : e_steps (publish item event) = e_steps item.
Proof. apply publish_only. Qed.

Lemma publish_accepting item event : e_accepting (publish item event) = e_accepting item.
Proof. apply publish_only. Qed.

(** Rolling back restores the session exactly. *)
Lemma restore_before s s' :
  same_identity s s' → restore s' (snapshotOf s) = s.
Proof.
  intros (H1 & H2 & H3 & H4). destruct s, s'; unfold restore, snapshotOf; simpl in *. by subst.
Qed.

Lemma transitionLifecycle_shape s to co now s' e :
  transitionLifecycle s to co now = Ok (s', e) →
  same_identity s s' ∧ s_phase s' = to ∧ s_events s' = s_events s ++ [e] ∧
  ev_Sequence e = add64 (s_sequence s) 1 ∧ s_sequence s' = add64 (s_sequence s) 1 ∧
  (len (s_events s) < maxSessionEvents)%Z ∧ lifecycleTransitions (s_phase s) to = true.
Proof.
  unfold transitionLifecycle, requireEventRoom, maxSessionEvents, cleanupEventReserve.
  intros H. guards; repeat split; try done; lia.
Qed.

Lemma transitionWorkflow_shape s to now s' e :
  transitionWorkflow s to now = Ok (s', e) →
  same_identity s s' ∧ s_phase s' = s_phase s ∧ s_events s' = s_events s ++ [e] ∧
  ev_Sequence e = add64 (s_sequence s) 1 ∧ s_sequence s' = add64 (s_sequence s) 1 ∧
  (len (s_events s) < maxSessionEvents)%Z.
Proof.
  unfold transitionWorkflow, requireEventRoom, maxSessionEvents, cleanupEventReserve.
  intros H. guards; repeat split; try done; lia.
Qed.

Lemma withSession_restore item s :
  same_identity (e_session item) s →
  withSession item (restore s (snapshotOf (e_session item))) = item.
Proof. intros H. rewrite restore_before by done. by destruct item. Qed.

(** What a successful or failed transition command does to its entry. *)
Lemma transition_cases item to co w r item' w' :
  transition item to co w = (r, item', w') →
  (∃ err, r = (snapshotOf (e_session item), Some err) ∧ item' = item) ∨
  (∃ s e t w1, host_now w = (t, w1) ∧ transitionLifecycle (e_session item) to co t = Ok (s, e) ∧
     store_Save (snapshotOf s) w1 = (Ok tt, w') ∧ r = (snapshotOf s, None) ∧
     item' = publish (withSession item s) e).
Proof.
  unfold transition. intros H. destruct (host_now w) as [t w1] eqn:Hnow.
  destruct (transitionLifecycle _ _ _ _) as [[s e]|err] eqn:Ht; [|by simplify_eq; left; eexists].
  destruct (store_Save _ _) as [[[]|err] w2] eqn:Hs; simplify_eq.
  - right. by exists s, e, t, w1.
  - left. exists err. split; [done|]. apply transitionLifecycle_shape in Ht as [Hid _].
    by apply withSession_restore.
Qed.

Lemma workflow_cases item to w r item' w' :
  workflow item to w = (r, item', w') →
  (∃ err, r = (snapshotOf (e_session item), Some err) ∧ item' = item) ∨
  (∃ s e t w1, host_now w = (t, w1) ∧ transitionWorkflow (e_session item) to t = Ok (s, e) ∧
     store_Save (snapshotOf s) w1 = (Ok tt, w') ∧ r = (snapshotOf s, None) ∧
     item' = publish (withSession item s) e).
Proof.
  unfold workflow. intros H. destruct (host_now w) as [t w1] eqn:Hnow.
  destruct (transitionWorkflow _ _ _) as [[s e]|err] eqn:Ht; [|by simplify_eq; left; eexists].
  destruct (store_Save _ _) as [[[]|err] w2] eqn:Hs; simplify_eq.
  - right. by exists s, e, t, w1.
  - left. exists err. split; [done|]. apply transitionWorkflow_shape in Ht as [Hid _].
    by apply withSession_restore.
Qed.

(** ** Cleanup of the registered steps *)

Definition markDone (step : cleanupStep W) : cleanupStep W :=
  mkStep (step_name step) (step_cleanup step) (step_audit step) true.

Lemma markDone_done step : step_done step = true → markDone step = step.
Proof. destruct step; simpl. by intros ->. Qed.

Lemma cleanupSteps_success steps w steps' w' :
  cleanupSteps steps w = (true, steps', w') → steps' = map markDone steps.
Proof.
  revert steps' w'. induction steps as [|s steps IH]; intros steps' w'; simpl; [by intros [= <- <-]|].
  destruct (cleanupSteps steps w) as [[[] rest] w1] eqn:E; simpl; [|done].
  rewrite (IH _ _ eq_refl). destruct (step_done s) eqn:Hd.
  { intros [= <- <-]. by rewrite markDone_done. }
  destruct (step_cleanup s w1) as [[] w2]; [|done].
  destruct (step_audit s w2) as [[] w3]; [|done]. by intros [= <- <-].
Qed.

(** What a run of the clean-up loop did: from the last registered step to the
    first, the clean-up function of every step that was not done before was
    called and answered without an error, and then its audit function was,
    each in the world the call before it left. *)
Inductive Released : list (cleanupStep W) → W → W → Prop :=
| released_none w : Released [] w w
| released_before step newer w w1 :
    Released newer w w1 → step_done step = true → Released (step :: newer) w w1
| released_now step newer w w1 w2 w3 :
    Released newer w w1 → step_done step = false →
    step_cleanup step w1 = (Ok tt, w2) → step_audit step w2 = (Ok tt, w3) →
    Released (step :: newer) w w3.

Lemma cleanupSteps_released steps w steps' w' :
  cleanupSteps steps w = (true, steps', w') → Released steps w w'.
Proof.
  revert steps' w'. induction steps as [|s steps IH]; intros steps' w'; simpl; [intros [= <- <-]; constructor|].
  destruct (cleanupSteps steps w) as [[[] rest] w1] eqn:E; simpl; [|done].
  destruct (step_done s) eqn:Hd.
  { intros [= <- <-]. eapply released_before; [by eapply IH|done]. }
  destruct (step_cleanup s w1) as [[[]|] w2] eqn:Hc; [|done].
  destruct (step_audit s w2) as [[[]|] w3] eqn:Ha; [|done]. intros [= <- <-].
  eapply released_now; [by eapply IH|done..].
Qed.

(** A failed run stops at one step: every newer step is done, every older one
    is untouched, and the step itself stays retryable. *)
Lemma cleanupSteps_failure steps w steps' w' :
  cleanupSteps steps w = (false, steps', w') →
  ∃ older step newer, steps = older ++ step :: newer ∧ step_done step = false ∧
    steps' = older ++ step :: map markDone newer.
Proof.
  revert steps' w'. induction steps as [|s steps IH]; intros steps' w'; simpl; [done|].
  destruct (cleanupSteps steps w) as [[[] rest] w1] eqn:E; simpl.
  - apply cleanupSteps_success in E as ->.
    destruct (step_done s) eqn:Hd; [done|].
    destruct (step_cleanup s w1) as [[] w2]; [destruct (step_audit s w2) as [[] w3]|];
      intros [= <- <-]; by exists [], s, steps.
  - destruct (IH _ _ eq_refl) as (older & st & newer & -> & Hd & ->).
    intros [= <- <-]. by exists (s :: older), st, newer.
Qed.

(** A step whose functions succeed in every world. *)
Definition releasable (step : cleanupStep W) : Prop :=
  step_done step = true ∨ ∀ w, (step_cleanup step w).1 = Ok tt ∧ (step_audit step w).1 = Ok tt.

Lemma cleanupSteps_converges steps w :
  Forall releasable steps → ∃ w', cleanupSteps steps w = (true, map markDone steps, w').
Proof.
  induction 1 as [|s steps Hs _ IH]; simpl; [by eexists|].
  destruct IH as [w1 ->]. simpl. destruct (step_done s) eqn:Hd.
  { eexists. by rewrite markDone_done. }
  destruct Hs as [Hs|Hs]; [congruence|].
  destruct (step_cleanup s w1) as [r2 w2] eqn:E2.
  pose proof (proj1 (Hs w1)) as Hc. rewrite E2 in Hc; simpl in Hc. subst r2.
  destruct (step_audit s w2) as [r3 w3] eqn:E3.
  pose proof (proj2 (Hs w2)) as Ha. rewrite E3 in Ha; simpl in Ha. subst r3.
  by eexists.
Qed.

(** ** [cleanupEntry] as a whole *)

(** The phase transitions at the start of [cleanupEntry]. *)
Definition enterDestroying item w : (Snapshot * option session_error) * entry W * W :=
  let item := stopAccepting item in
  let current := snapshotOf (e_session item) in
  let '((current, err), item, w) :=
    if bool_decide (snap_Phase current = PhaseStopping) || bool_decide (snap_Phase current = PhaseAborting) ||
       bool_decide (snap_Phase current = PhaseDestroying)
    then ((current, None), item, w)
    else transition item PhaseAborting true w in
  match err with
  | Some e => ((current, Some e), item, w)
  | None =>
      if bool_decide (snap_Phase current = PhaseDestroying) then ((current, None), item, w)
      else transition item PhaseDestroying true w
  end.

Lemma cleanupEntry_split item w :
  cleanupEntry item w =
  (let '((current, err), item, w) := enterDestroying item w in
   match err with Some e => ((current, Some e), item, w) | None => releaseEntry item w end).
Proof.
  unfold cleanupEntry, enterDestroying.
  destruct (if bool_decide _ || _ || _ then _ else _) as [[[current err] item1] w1].
  by destruct err.
Qed.

(** Entering destruction keeps the registered steps and the identity, and ends
    in DESTROYING when it succeeds. *)
Lemma transition_keeps item to co w r item' w' :
  transition item to co w = (r, item', w') →
  e_steps item' = e_steps item ∧ e_accepting item' = e_accepting item ∧
  same_identity (e_session item) (e_session item') ∧
  (r.2 = None → s_phase (e_session item') = to ∧ r.1 = snapshotOf (e_session item')) ∧
  (r.2 ≠ None → item' = item).
Proof.
  intros H. apply transition_cases in H as [(err & -> & ->)|(s & e & t & w1 & _ & Ht & _ & -> & ->)].
  { simpl. split_and!; done. }
  apply transitionLifecycle_shape in Ht as (Hid & Hp & _).
  rewrite publish_steps, publish_accepting, publish_session. simpl. split_and!; done.
Qed.

Lemma enterDestroying_keeps item w r item' w' :
  enterDestroying item w = (r, item', w') →
  e_steps item' = e_steps item ∧ e_accepting item' = false ∧
  same_identity (e_session item) (e_session item') ∧
  (r.2 = None → s_phase (e_session item') = PhaseDestroying).
Proof.
  unfold enterDestroying.
  destruct (bool_decide _ || bool_decide _ || bool_decide _) eqn:Hb; simpl.
  - destruct (bool_decide (s_phase _ = PhaseDestroying)) eqn:Hd.
    + intros H; simplify_eq/=. bool_hyps. split_and!; done.
    + intros H. apply transition_keeps in H as (-> & -> & Hid & Hp & _).
      simpl. repeat split; try apply Hid. by intros [? _]%Hp.
  - destruct (transition _ PhaseAborting true w) as [[[cur err] item1] w1] eqn:H1.
    apply transition_keeps in H1 as (S1 & A1 & I1 & P1 & F1); simpl in *.
    destruct err as [e|].
    { intros ?; simplify_eq/=. rewrite F1 by done. simpl. split_and!; done. }
    destruct (P1 eq_refl) as [Hph ->]. simpl. rewrite bool_decide_false by (by rewrite Hph).
    intros H. apply transition_keeps in H as (-> & -> & I2 & P2 & _). rewrite S1, A1.
    repeat split; try (by intros [? _]%P2);
      destruct I1 as (?&?&?&?), I2 as (?&?&?&?); simpl in *; congruence.
Qed.

Lemma releaseEntry_success item w snap item' w' :
  releaseEntry item w = ((snap, None), item', w') →
  ∃ w1 w2, cleanupSteps (e_steps item) w = (true, map markDone (e_steps item), w1) ∧
    store_Remove (s_id (e_session item)) w1 = (Ok tt, w2) ∧ w' = (host_now w2).2 ∧
    e_steps item' = map markDone (e_steps item) ∧ e_accepting item' = e_accepting item ∧
    same_identity (e_session item) (e_session item') ∧
    s_phase (e_session item') = PhaseDestroyed ∧ snap = snapshotOf (e_session item').
Proof.
  unfold releaseEntry. intros H.
  destruct (cleanupSteps (e_steps item) w) as [[[] steps'] w1] eqn:Hc; simpl in H; [|done].
  rewrite (cleanupSteps_success _ _ _ _ Hc) in *.
  destruct (store_Remove _ w1) as [[[]|] w2] eqn:Hr; [|done].
  destruct (host_now w2) as [t w3] eqn:Hn.
  destruct (transitionLifecycle _ _ _ _) as [[s e]|] eqn:Ht; [|done].
  simplify_eq. apply transitionLifecycle_shape in Ht as (Hid & Hp & _).
  rewrite publish_session, publish_steps, publish_accepting.
  exists w1, w2. rewrite Hn. simpl in *. split_and!; done.
Qed.

Lemma releaseEntry_failure item w snap err item' w' :
  releaseEntry item w = ((snap, Some err), item', w') →
  e_session item' = e_session item ∧ e_accepting item' = e_accepting item ∧
  ((∃ older step newer, e_steps item = older ++ step :: newer ∧ step_done step = false ∧
      e_steps item' = older ++ step :: map markDone newer) ∨
   e_steps item' = map markDone (e_steps item)).
Proof.
  unfold releaseEntry. intros H.
  destruct (cleanupSteps (e_steps item) w) as [[ok steps'] w1] eqn:Hc.
  destruct ok; simpl in H.
  - rewrite (cleanupSteps_success _ _ _ _ Hc) in *.
    destruct (store_Remove _ w1) as [[[]|] w2] eqn:Hr.
    + destruct (host_now w2) as [t w3] eqn:Hn.
      destruct (transitionLifecycle _ _ _ _) as [[s e]|] eqn:Ht; simplify_eq. by split_and!; [..|right].
    + simplify_eq. by split_and!; [..|right].
  - simplify_eq. split_and!; [done..|left]. by eapply cleanupSteps_failure.
Qed.

(** C3: a lifecycle command is all or nothing: when it succeeds the new phase
    is journaled on disk with exactly one new event; when the transition or its
    save is refused, the session, its steps and its subscribers are exactly as
    before and no event is published.  Other sessions' records never change. *)
Theorem transition_persisted_or_rolled_back `{!StoreSpec W} item to cleanupOwned w r item' w' :
  transition item to cleanupOwned w = (r, item', w') →
  (∀ id, id ≠ s_id (e_session item) → stored w' !! id = stored w !! id) ∧
  ((∃ err, r = (snapshotOf (e_session item), Some err) ∧ item' = item) ∨
   (r = (snapshotOf (e_session item'), None) ∧ s_phase (e_session item') = to ∧
    (∃ e, s_events (e_session item') = s_events (e_session item) ++ [e]) ∧
    stored w' !! s_id (e_session item) = Some (snapshotOf (e_session item')))).
Proof.
  intros H. pose proof (now_stored w) as Hn. split.
  - intros id Hid. unfold transition in H. destruct (host_now w) as [t w1] eqn:Hnow; simpl in Hn.
    destruct (transitionLifecycle _ _ _ _) as [[s e]|err] eqn:Ht; [|simplify_eq; by rewrite Hn].
    apply transitionLifecycle_shape in Ht as ((Hi & _) & _).
    destruct (store_Save _ _) as [[[]|err] w2] eqn:Hs; simplify_eq.
    + apply save_ok in Hs as ->. rewrite Hn. simpl. by rewrite lookup_insert_ne by congruence.
    + apply save_err in Hs as [-> | ->]; rewrite Hn; [done|]. simpl.
      by rewrite lookup_insert_ne by congruence.
  - apply transition_cases in H as [(err & -> & ->)|(s & e & t & w1 & Hnow & Ht & Hs & -> & ->)].
    { left. by eexists. }
    right. rewrite publish_session. simpl.
    apply transitionLifecycle_shape in Ht as ((Hi & _) & Hp & He & _).
    apply save_ok in Hs as ->. rewrite <- Hi. simpl. split_and!; [done..|by eexists|].
    by rewrite lookup_insert_eq.
Qed.

(** No allocated resource is lost: when an allocator hands back a cleanup
    and an audit function, the step is registered for cleanup, or the cancelled
    acquisition has released it and audited its absence.  Success is reported
    exactly when the step was registered without an allocation error, and a
    refused request does not call the allocator at all. *)
Theorem acquire_never_leaks item resource (allocate : AllocateFunc W) operation w err item' w' :
  acquire item resource allocate operation w = (err, item', w') →
  (item' = item ∧ w' = w ∧ (err = Some ErrResourceRegistrationEnd ∨ err = Some ErrDuplicateResource)) ∨
  (e_accepting item = true ∧ cleanupPhase (s_phase (e_session item)) = false ∧
   ¬ In resource (map step_name (e_steps item)) ∧
   ∃ c a aerr w1, allocate w = ((c, a, aerr), w1) ∧
   match c, a with
   | Some cf, Some af =>
       (item' = addStep item (mkStep resource cf af false) ∧ (err = None → aerr = None)) ∨
       (item' = item ∧ err ≠ None ∧ ∃ w2, cf w1 = (Ok tt, w2) ∧ af w2 = (Ok tt, w'))
   | _, _ => item' = item ∧ err ≠ None ∧ w' = w1
   end).
Proof.
  unfold acquire. intros H.
  destruct (e_accepting item) eqn:Ha; simpl in H; [|simplify_eq; left; auto].
  destruct (cleanupPhase (s_phase (e_session item))) eqn:Hp; [simplify_eq; left; auto|].
  destruct (existsb _ _) eqn:He; [simplify_eq; left; auto|].
  right. split; [done|]. split; [done|]. split.
  { intros Hin. apply in_map_iff in Hin as (st & Hn & Hin).
    apply Bool.not_true_iff_false in He. apply He, existsb_exists. exists st.
    split; [done|]. by apply bool_decide_eq_true. }
  destruct (allocate w) as [[[c a] aerr] w1] eqn:Hal. exists c, a, aerr, w1. split; [done|].
  destruct c as [cf|], a as [af|], aerr as [ae|]; simplify_eq/=; try by split_and!.
  - left. by split.
  - destruct (operation w1) as [oe|]; [|simplify_eq; by left].
    destruct (cf w1) as [[[]|] w2] eqn:Hc; [|simplify_eq; by left].
    destruct (af w2) as [[[]|] w3] eqn:Haf; simplify_eq; [|by left].
    right. split_and!; [done..|]. by exists w2.
Qed.

(** C4: when cleanup reports success, it is complete: from the last
    registered resource to the first, the clean-up and then the audit function of
    every resource that an earlier attempt had not released were called and
    answered without an error; only then the volatile record was removed from
    disk.  Every step is marked done, the record is gone, and the session is
    DESTROYED and accepts no further resource. *)
Theorem cleanup_success_is_complete `{!StoreSpec W} item w snap item' w' :
  cleanupEntry item w = ((snap, None), item', w') →
  (∃ w1 w2 w3, w1 = (enterDestroying item w).2 ∧
     Released (e_steps item) w1 w2 ∧ store_Remove (s_id (e_session item)) w2 = (Ok tt, w3) ∧
     w' = (host_now w3).2) ∧
  map step_name (e_steps item') = map step_name (e_steps item) ∧
  Forall (λ step, step_done step = true) (e_steps item') ∧
  stored w' !! s_id (e_session item) = None ∧
  s_phase (e_session item') = PhaseDestroyed ∧ e_accepting item' = false ∧
  snap = snapshotOf (e_session item').
Proof.
  rewrite cleanupEntry_split. destruct (enterDestroying item w) as [[[cur err] item1] w1] eqn:He.
  apply enterDestroying_keeps in He as (Hst & Hac & Hid & _). destruct err; [done|].
  intros H. apply releaseEntry_success in H as (w2 & w3 & Hc & Hr & -> & Hs & Ha & Hid' & Hp & ->).
  destruct Hid as (Hi & _). apply cleanupSteps_released in Hc. rewrite Hst in Hc. rewrite Hi in Hr.
  rewrite Hs, Hst, Ha, now_stored. split_and!; try done.
  - by exists w1, w2, w3.
  - by rewrite map_map.
  - apply Forall_forall. intros st Hin. apply list_elem_of_In, in_map_iff in Hin as (x & <- & _). done.
  - apply remove_ok in Hr as ->. by rewrite lookup_delete_eq.
Qed.

(** Cleanup releases resources strictly in reverse order of acquisition:
    an incomplete cleanup has either not started releasing, or stopped at one
    step that stays retryable, with every resource acquired after it released
    and audited and every resource acquired before it untouched, or released
    all of them and could not remove the record. *)
Theorem cleanup_failure_keeps_dependency_order item w snap err item' w' :
  cleanupEntry item w = ((snap, Some err), item', w') →
  e_accepting item' = false ∧
  (e_steps item' = e_steps item ∨
   e_steps item' = map markDone (e_steps item) ∨
   ∃ older step newer, e_steps item = older ++ step :: newer ∧ step_done step = false ∧
     e_steps item' = older ++ step :: map markDone newer).
Proof.
  rewrite cleanupEntry_split. destruct (enterDestroying item w) as [[[cur err1] item1] w1] eqn:He.
  apply enterDestroying_keeps in He as (Hst & Hac & Hid & _). destruct err1 as [e|].
  { intros ?; simplify_eq. auto. }
  intros H. apply releaseEntry_failure in H as (_ & Ha & Hs). rewrite Ha. split; [done|].
  rewrite Hst in Hs. destruct Hs; auto.
Qed.

(** ** Cleanup converges *)

(** A session that can still be cleaned up: its journal is valid, has the
    cleanup reserve left, and does not end in DESTROYED. *)
Definition cleanable item w `{!ClockSpec W} : Prop :=
  validateSnapshot (snapshotOf (e_session item)) = Ok tt ∧
  (s_updatedAt (e_session item) ≤ clock w)%Z ∧
  (len (s_events (e_session item)) ≤ roomBound (s_phase (e_session item)))%Z ∧
  s_phase (e_session item) ≠ PhaseDestroyed.

(** A store that saves every valid journal and removes every record. *)
Definition healthyStore : Prop :=
  (∀ snap w, validateSnapshot snap = Ok tt → (store_Save snap w).1 = Ok tt) ∧
  (∀ id w, (store_Remove id w).1 = Ok tt).

Lemma valid_phase_of item :
  validateSnapshot (snapshotOf (e_session item)) = Ok tt → validPhase (s_phase (e_session item)) = true.
Proof. by intros (_ & _ & _ & H & _)%validateSnapshot_accepted. Qed.

Lemma cleanup_transition_ok `{!ClockSpec W} item w to :
  healthyStore → cleanable item w → cleanupTarget to = true →
  lifecycleTransitions (s_phase (e_session item)) to = true →
  ∃ item' w', transition item to true w = ((snapshotOf (e_session item'), None), item', w') ∧
    s_phase (e_session item') = to ∧ e_steps item' = e_steps item ∧
    (to ≠ PhaseDestroyed → cleanable item' w').
Proof.
  intros Hh (Hv & Hc & Hr & Hd) Ht Htr.
  destruct (room_cleanup_transition (e_session item) to (host_now w).1 Hr Ht Htr) as (s & e & Hok & Hp & Hr').
  pose proof (now_clock w) as Hnow.
  assert (validateSnapshot (snapshotOf s) = Ok tt) as Hv'.
  { eapply accepted_step; [done|]. eapply transitionLifecycle_step; [done|lia]. }
  assert (s_updatedAt s = (host_now w).1) as Hu by (by eapply transitionLifecycle_updated).
  destruct Hh as [Hsave _]. unfold transition, cleanable.
  destruct (host_now w) as [t w1]; simpl in *. rewrite Hok.
  pose proof (Hsave _ w1 Hv') as Hs. pose proof (save_clock (snapshotOf s) w1) as Hsc.
  destruct (store_Save (snapshotOf s) w1) as [r w2]; simpl in *. subst r.
  exists (publish (withSession item s) e), w2. rewrite publish_session, publish_steps. simpl.
  split_and!; try done. intros ?. split_and!; try done; [lia|by rewrite Hp].
Qed.

Lemma enterDestroying_ok `{!ClockSpec W} item w :
  healthyStore → cleanable item w →
  ∃ item1 w1, enterDestroying item w = ((snapshotOf (e_session item1), None), item1, w1) ∧
    s_phase (e_session item1) = PhaseDestroying ∧ e_steps item1 = e_steps item ∧ cleanable item1 w1.
Proof.
  intros Hh Hcl. change (cleanable item w) with (cleanable (stopAccepting item) w) in Hcl.
  unfold enterDestroying. change (e_steps item) with (e_steps (stopAccepting item)).
  generalize dependent (stopAccepting item). clear item. intros item Hcl.
  pose proof (valid_phase_of item (proj1 Hcl)) as Hvp.
  pose proof (proj2 (proj2 (proj2 Hcl))) as Hnd. simpl.
  destruct (decide (s_phase (e_session item) = PhaseDestroying)) as [Hd|Hd].
  { rewrite (bool_decide_true (_ = PhaseDestroying)) by done. rewrite orb_true_r. exists item, w. simpl.
    by rewrite bool_decide_true. }
  assert (∃ item1 w1,
    (if bool_decide (s_phase (e_session item) = PhaseStopping) || bool_decide (s_phase (e_session item) = PhaseAborting)
        || bool_decide (s_phase (e_session item) = PhaseDestroying)
     then ((snapshotOf (e_session item), None), item, w) else transition item PhaseAborting true w) =
    ((snapshotOf (e_session item1), None), item1, w1) ∧ e_steps item1 = e_steps item ∧ cleanable item1 w1 ∧
    (s_phase (e_session item1) = PhaseStopping ∨ s_phase (e_session item1) = PhaseAborting))
    as (item1 & w1 & -> & Hs1 & Hcl1 & Hp1).
  { destruct (bool_decide _ || bool_decide _ || bool_decide _) eqn:Hb.
    - exists item, w. split_and!; [done..|].
      destruct (s_phase (e_session item)); simpl in *; try done; auto.
    - destruct (cleanup_transition_ok item w PhaseAborting Hh Hcl) as (i1 & w1 & -> & Hp & Hs & Hc); [done| |].
      { destruct (s_phase (e_session item)); simpl in *; try done. }
      exists i1, w1. split_and!; auto. }
  simpl. rewrite bool_decide_false by (destruct Hp1 as [-> | ->]; done).
  destruct (cleanup_transition_ok item1 w1 PhaseDestroying Hh Hcl1) as (i2 & w2 & -> & Hp & Hs & Hc); [done| |].
  { destruct Hp1 as [-> | ->]; done. }
  exists i2, w2. split_and!; [done..|congruence|auto].
Qed.

(** Cleanup converges: for a session whose journal is valid and keeps its
    reserve, with a working store and resources whose cleanup and audit
    succeed, one cleanup request ends with the session destroyed, whatever
    phase it was in and however many steps earlier attempts already released. *)
Theorem cleanup_converges `{!ClockSpec W} item w :
  healthyStore → cleanable item w → Forall releasable (e_steps item) →
  ∃ snap item' w', cleanupEntry item w = ((snap, None), item', w') ∧
    s_phase (e_session item') = PhaseDestroyed.
Proof.
  intros Hh Hcl Hrel. rewrite cleanupEntry_split.
  assert (∃ item1 w1, enterDestroying item w = ((snapshotOf (e_session item1), None), item1, w1) ∧
            s_phase (e_session item1) = PhaseDestroying ∧ e_steps item1 = e_steps item ∧
            cleanable item1 w1) as (item1 & w1 & -> & Hp1 & Hs1 & Hcl1).
  { by apply enterDestroying_ok. }
  unfold releaseEntry. rewrite Hs1.
  destruct (cleanupSteps_converges _ w1 Hrel) as [w2 ->]. simpl.
  destruct Hh as [_ Hrem]. pose proof (Hrem (s_id (e_session item1)) w2) as Hr.
  destruct (store_Remove _ w2) as [r w3]; simpl in Hr; subst r.
  destruct (host_now w3) as [t w4].
  destruct (room_cleanup_transition (e_session item1) PhaseDestroyed t) as (s & e & -> & Hp & _);
    [apply Hcl1|done|by rewrite Hp1|].
  eexists _, _, _. split; [done|]. by rewrite publish_session.
Qed.

(** ** The manager's maps *)

(** Owner and identifier of every entry; commands never change them. *)
Definition owners m : gmap string Z :=
  (λ item, s_ownerUID (e_session item)) <$> m_entries m.

Lemma ownedBy_size m uid :
  size (ownedBy m uid) = size (filter (λ p : string * Z, p.2 = uid) (owners m)).
Proof. unfold ownedBy, owners. rewrite map_filter_fmap, map_size_fmap. done. Qed.

Lemma cleanupEntry_identity item w r item' w' :
  cleanupEntry item w = (r, item', w') → same_identity (e_session item) (e_session item') ∧
    (r.2 = None → r.1 = snapshotOf (e_session item')).
Proof.
  rewrite cleanupEntry_split. destruct (enterDestroying item w) as [[[cur err] item1] w1] eqn:He.
  apply enterDestroying_keeps in He as (_ & _ & Hid & _). destruct err as [e|].
  { intros ?; simplify_eq. by split. }
  destruct (releaseEntry item1 w1) as [[[snap err] item2] w2] eqn:Hr. intros ?; simplify_eq.
  destruct err as [e|].
  - apply releaseEntry_failure in Hr as (-> & _). by split.
  - apply releaseEntry_success in Hr as (_ & _ & _ & _ & _ & _ & _ & Hid2 & _ & ->).
    split; [|done]. destruct Hid as (?&?&?&?), Hid2 as (?&?&?&?). repeat split; congruence.
Qed.

Lemma acquire_session item resource (allocate : AllocateFunc W) operation w err item' w' :
  acquire item resource allocate operation w = (err, item', w') → e_session item' = e_session item.
Proof.
  intros H. assert ((acquire item resource allocate operation w).1.2 = item') as <- by (by rewrite H).
  clear H. unfold acquire. repeat case_match; done.
Qed.

(** A command leaves the entry in place with its identity, or, for a
    successful cleanup, removes it and leaves a tombstone. *)
Lemma runCommand_maps m id item cmd w r m' w' :
  s_id (e_session item) = id →
  runCommand m id item cmd w = (r, m', w') →
  (∃ item', m' = withEntries m (<[id := item']> (m_entries m)) ∧
     same_identity (e_session item) (e_session item')) ∨
  (∃ snap, m' = finish m snap ∧ snap_ID snap = id).
Proof.
  intros Hid H. unfold runCommand in H. destruct cmd; simpl in H.
  - destruct (transition item to false w) as [[[snap err] item1] w1] eqn:Ht.
    apply transition_keeps in Ht as (_ & _ & ? & _). simplify_eq. left; eauto.
  - destruct (workflow item state w) as [[[snap err] item1] w1] eqn:Ht.
    simplify_eq. left. eexists. split; [done|].
    apply workflow_cases in Ht as [(? & ? & ->)|(s & e & t & w2 & _ & Ht & _ & _ & ->)]; [done|].
    rewrite publish_session. by apply transitionWorkflow_shape in Ht as [? _].
  - destruct (acquire item resource allocate operation w) as [[err item1] w1] eqn:Ha.
    apply acquire_session in Ha. simplify_eq. left. eexists. split; [done|]. by rewrite Ha.
  - unfold subscribe in H. left. repeat (case_hyp; simplify_eq/=); eexists; done.
  - destruct (cleanupEntry item w) as [[[snap err] item1] w1] eqn:Hc.
    apply cleanupEntry_identity in Hc as [Hsame Hsnap]. destruct err; simplify_eq.
    + left. eexists. split; [done|]. unfold completeCleanup. by case_bool_decide.
    + right. exists snap. split; [done|]. simpl in Hsnap. rewrite Hsnap by done. simpl.
      by destruct Hsame as (-> & _).
  - simplify_eq. left. eexists. split; [done|].
    by rewrite (proj1 (removeSubscriber_only item subscriberID None)).
Qed.

(** The quota, the tombstone bound and the key discipline of the maps. *)
Definition manager_inv m : Prop :=
  (∀ id item, m_entries m !! id = Some item → s_id (e_session item) = id ∧ id ≠ "") ∧
  (∀ id snap, m_destroyed m !! id = Some snap → id ≠ "") ∧
  (∀ uid, (Z.of_nat (size (ownedBy m uid)) ≤ m_maxPerOwner m)%Z) ∧
  (Z.of_nat (size (m_destroyed m)) ≤ maxTombstones)%Z.

Lemma manager_inv_keep m id item item' :
  m_entries m !! id = Some item → same_identity (e_session item) (e_session item') →
  manager_inv m → manager_inv (withEntries m (<[id := item']> (m_entries m))).
Proof.
  intros Hl (Hi & Ho & _) (Hk & Hd & Hq & Ht). split_and!; simpl; [|done| |done].
  - intros i it Hit. destruct (decide (i = id)) as [->|Hne].
    + rewrite lookup_insert_eq in Hit. simplify_eq. rewrite Hi. by apply Hk.
    + rewrite lookup_insert_ne in Hit by done. by apply Hk.
  - intros uid. rewrite ownedBy_size. unfold owners. simpl. rewrite fmap_insert, Ho, insert_id.
    + specialize (Hq uid). by rewrite ownedBy_size in Hq.
    + by rewrite lookup_fmap, Hl.
Qed.

Lemma oldestTombstone_fold (l : list (string * Snapshot)) acc :
  Forall (λ p, p.1 ≠ "") l → acc.1 ≠ "" →
  let r := fold_left (λ acc p,
      if bool_decide (acc.1 = "") || (snap_UpdatedAt p.2 <? acc.2)%Z
      then (p.1, snap_UpdatedAt p.2) else acc) l acc in
  r.1 = acc.1 ∨ In r.1 (map fst l).
Proof.
  intros Hl. revert acc. induction Hl as [|p l Hp _ IH]; intros acc Ha; simpl; [by left|].
  destruct (bool_decide (acc.1 = "") || _).
  - destruct (IH (p.1, snap_UpdatedAt p.2) Hp) as [H|H]; right; [left; by rewrite H|by right].
  - destruct (IH acc Ha) as [H|H]; [by left|by right; right].
Qed.

Lemma oldestTombstone_in (d : gmap string Snapshot) :
  d ≠ ∅ → (∀ id snap, d !! id = Some snap → id ≠ "") → is_Some (d !! oldestTombstone (map_to_list d)).
Proof.
  intros Hne Hk.
  assert (Forall (λ p : string * Snapshot, p.1 ≠ "") (map_to_list d)) as Hall.
  { apply Forall_forall. intros [k v] Hin. apply elem_of_map_to_list in Hin. by eapply Hk. }
  assert (In (oldestTombstone (map_to_list d)) (map fst (map_to_list d))) as Hin.
  { destruct (map_to_list d) as [|p l] eqn:Hl; [by apply map_to_list_empty_iff in Hl|].
    inversion Hall as [|? ? Hp Hrest]; subst. unfold oldestTombstone; simpl.
    destruct (oldestTombstone_fold l (p.1, snap_UpdatedAt p.2) Hrest Hp) as [H|H];
      [left; by rewrite H|by right]. }
  apply in_map_iff in Hin as ([k v] & Heq & Hin). simpl in Heq. rewrite <- Heq.
  apply list_elem_of_In, elem_of_map_to_list in Hin. by eexists.
Qed.

Lemma manager_inv_finish m id item snap :
  m_entries m !! id = Some item → snap_ID snap = id → manager_inv m → manager_inv (finish m snap).
Proof.
  intros Hl Hid (Hk & Hd & Hq & Ht). unfold finish. subst id.
  assert (snap_ID snap ≠ "") as Hne by (by eapply Hk).
  set (d := if (maxTombstones <=? Z.of_nat (size (m_destroyed m)))%Z then _ else _).
  assert ((∀ id s, d !! id = Some s → id ≠ "") ∧ (Z.of_nat (size d) < maxTombstones)%Z) as [Hd' Hs].
  { subst d. destruct (maxTombstones <=? Z.of_nat (size (m_destroyed m)))%Z eqn:E; bool_hyps.
    - assert (m_destroyed m ≠ ∅) as Hn.
      { intros Hem. rewrite Hem, map_size_empty in E. unfold maxTombstones in E. lia. }
      destruct (oldestTombstone_in _ Hn Hd) as [s0 Hs0].
      split; [intros i s [_ Hi]%lookup_delete_Some; by eapply Hd|].
      rewrite map_size_delete_Some by (by eexists). unfold maxTombstones in *. lia.
    - done. }
  split_and!; simpl.
  - intros i it [_ Hi]%lookup_delete_Some. by apply Hk.
  - intros i s [[<- _]|[_ Hi]]%lookup_insert_Some; [done|]. by eapply Hd'.
  - intros uid. specialize (Hq uid). rewrite ownedBy_size in *. unfold owners in *. simpl.
    rewrite fmap_delete, map_filter_delete. etrans; [|exact Hq].
    apply inj_le, map_subseteq_size, delete_subseteq.
  - destruct (d !! snap_ID snap) as [s|] eqn:E.
    + rewrite map_size_insert_Some by eauto. lia.
    + rewrite map_size_insert_None by done. lia.
Qed.

Lemma createLoop_cases fuel m uid role w r m' w' :
  createLoop fuel m uid role w = (r, m', w') →
  (∃ err, r = Err err ∧ m' = m) ∨
  (∃ id s t, m_entries m !! id = None ∧ newOwned id uid role t = Ok s ∧ r = Ok (snapshotOf s) ∧
     m' = withEntries m (<[id := newEntry s]> (m_entries m))).
Proof.
  revert w. induction fuel as [|fuel IH]; intros w; simpl; [intros; simplify_eq; left; eauto|].
  destruct (host_newID w) as [[id|err] w1]; [|intros; simplify_eq; left; eauto].
  destruct (m_entries m !! id) eqn:Hl; [by apply IH|].
  destruct (host_now w1) as [t w2].
  destruct (newOwned id uid role t) as [s|err] eqn:Hn; [|intros; simplify_eq; left; eauto].
  destruct (store_Create _ w2) as [[[]|err] w3]; [intros; simplify_eq; right; by exists id, s, t|].
  destruct err; intros H; try (simplify_eq; left; by eauto). by eapply IH.
Qed.

Lemma newOwned_shape id uid role t s :
  newOwned id uid role t = Ok s → s_id s = id ∧ s_ownerUID s = uid ∧ id ≠ "".
Proof.
  unfold newOwned, ValidateID. intros H. destruct (sessionIDPattern id) eqn:E; simpl in H; [|by go_inv].
  go_inv. split_and!; [done..|]. intros ->. by vm_compute in E.
Qed.

Lemma manager_inv_Create m uid role w r m' w' :
  Create m uid role w = (r, m', w') → manager_inv m → manager_inv m'.
Proof.
  unfold Create. intros H Hinv.
  destruct (ValidateRole role); [|by simplify_eq]. destruct (m_shuttingDown m); [by simplify_eq|].
  destruct (m_maxPerOwner m <=? Z.of_nat (size (ownedBy m uid)))%Z eqn:Hq; [by simplify_eq|]. bool_hyps.
  apply createLoop_cases in H as [(err & _ & ->)|(id & s & t & Hl & Hn & _ & ->)]; [done|].
  destruct (newOwned_shape _ _ _ _ _ Hn) as (Hi & Ho & Hne).
  destruct Hinv as (Hk & Hd & Hquota & Ht). split_and!; simpl; [|done| |done].
  - intros i it [[<- <-]|[_ Hit]]%lookup_insert_Some; [done|by apply Hk].
  - intros uid'. specialize (Hquota uid'). rewrite ownedBy_size in *. unfold owners in *. simpl.
    rewrite fmap_insert. simpl. rewrite Ho.
    destruct (decide (uid = uid')) as [->|Hu].
    + rewrite map_filter_insert_True by done.
      rewrite map_size_insert_None; [lia|].
      apply map_lookup_filter_None. left. by rewrite lookup_fmap, Hl.
    + rewrite map_filter_insert_False by done. rewrite delete_id by (by rewrite lookup_fmap, Hl).
      done.
Qed.

(** One API call, or one command executed by an entry's actor. *)
Inductive manager_step : Manager W → Manager W → Prop :=
| step_Create m uid role w r m' w' :
    Create m uid role w = (r, m', w') → manager_step m m'
| step_send m id uid cmd p w r m' w' :
    send m id uid cmd p w = (r, m', w') → manager_step m m'
| step_Cleanup m id uid p w r m' w' :
    Cleanup m id uid p w = (r, m', w') → manager_step m m'
| step_run m id item cmd w r m' w' :
    m_entries m !! id = Some item → runCommand m id item cmd w = (r, m', w') → manager_step m m'
| step_Shutdown m patient w r m' w' :
    Shutdown m patient w = (r, m', w') → manager_step m m'.

Lemma manager_inv_run m id item0 item cmd w r m' w' :
  m_entries m !! id = Some item0 → e_session item = e_session item0 →
  runCommand m id item cmd w = (r, m', w') → manager_inv m → manager_inv m'.
Proof.
  intros Hl Hses H Hinv.
  destruct (runCommand_maps m id item cmd w r m' w') as [(it & -> & Hs)|(snap & -> & Hid)];
    [by rewrite Hses; apply (proj1 Hinv)|done| |].
  - eapply manager_inv_keep; [done| |done]. by rewrite <- Hses.
  - by eapply manager_inv_finish.
Qed.

Lemma beginCleanup_session item attempt first item' :
  beginCleanup item = (attempt, first, item') → e_session item' = e_session item.
Proof. unfold beginCleanup. intros H. by go_inv. Qed.

Lemma manager_inv_shutdownLoop ids m w errs m' w' :
  shutdownLoop ids m w = (errs, m', w') → manager_inv m → manager_inv m'.
Proof.
  revert m w errs m' w'. induction ids as [|id ids IH]; intros m w errs m' w'; simpl; [by intros; simplify_eq|].
  destruct (m_entries m !! id) as [item|] eqn:Hl; [|by eauto].
  destruct (beginCleanup item) as [[attempt first] item1] eqn:Hb. apply beginCleanup_session in Hb.
  destruct (runCommand m id item1 (commandCleanup attempt) w) as [[r1 m1] w1] eqn:Hr.
  destruct (shutdownLoop ids m1 w1) as [[errs2 m2] w2] eqn:Hs.
  intros H Hinv. injection H as _ <- <-. eapply IH; [exact Hs|]. by eapply manager_inv_run.
Qed.

Lemma authorizedEntry_lookup m id uid item :
  authorizedEntry m id uid = Ok item → m_entries m !! id = Some item.
Proof. unfold authorizedEntry. intros H. by guards. Qed.

Lemma manager_inv_step m m' : manager_step m m' → manager_inv m → manager_inv m'.
Proof.
  intros Hstep Hinv.
  destruct Hstep as [m uid role w r m' w' H|m id uid cmd p w r m' w' H|m id uid p w r m' w' H
                    |m id item cmd w r m' w' Hl H|m patient w r m' w' H].
  - by eapply manager_inv_Create.
  - unfold send in H. destruct (authorizedEntry m id uid) as [item|] eqn:Ha; [|by simplify_eq].
    apply authorizedEntry_lookup in Ha.
    destruct p; simplify_eq; [by eapply manager_inv_run|done|].
    destruct (runCommand m id item cmd w) as [[r1 m1] w1] eqn:Hr. simplify_eq.
    by eapply manager_inv_run.
  - unfold Cleanup in H. destruct (destroyedSnapshot m id uid); [by simplify_eq|].
    destruct (authorizedEntry m id uid) as [item|] eqn:Ha; [|by simplify_eq].
    apply authorizedEntry_lookup in Ha.
    destruct (beginCleanup item) as [[attempt first] item1] eqn:Hb.
    apply beginCleanup_session in Hb as Hses.
    destruct (runCommand _ id item1 _ w) as [[r1 m1] w1] eqn:Hr.
    assert (manager_inv m1) as Hm1.
    { eapply (manager_inv_run (withEntries m (<[id:=item1]> (m_entries m))) id item1 item1);
        [by apply lookup_insert_eq|done|done|].
      eapply manager_inv_keep; [done| |done]. by rewrite Hses. }
    destruct p; by simplify_eq.
  - by eapply manager_inv_run.
  - unfold Shutdown in H. destruct (shutdownLoop _ _ w) as [[errs m1] w1] eqn:Hs.
    apply manager_inv_shutdownLoop in Hs; [|done]. case_match; by simplify_eq/=.
Qed.

Lemma runCommand_max m id item cmd w r m' w' :
  runCommand m id item cmd w = (r, m', w') → m_maxPerOwner m' = m_maxPerOwner m.
Proof.
  intros H. assert ((runCommand m id item cmd w).1.2 = m') as <- by (by rewrite H). clear H.
  unfold runCommand. destruct cmd; repeat case_match; done.
Qed.

Lemma shutdownLoop_max ids m w errs m' w' :
  shutdownLoop ids m w = (errs, m', w') → m_maxPerOwner m' = m_maxPerOwner m.
Proof.
  revert m w errs m' w'. induction ids as [|id ids IH]; intros m w errs m' w'; simpl; [by intros; simplify_eq|].
  destruct (m_entries m !! id) as [item|] eqn:Hl; [|by eauto].
  destruct (beginCleanup item) as [[attempt first] item1].
  destruct (runCommand m id item1 (commandCleanup attempt) w) as [[r1 m1] w1] eqn:Hr. apply runCommand_max in Hr.
  destruct (shutdownLoop ids m1 w1) as [[errs2 m2] w2] eqn:Hs.
  intros H. injection H as _ <- <-. apply IH in Hs. congruence.
Qed.

Lemma manager_step_max m m' : manager_step m m' → m_maxPerOwner m' = m_maxPerOwner m.
Proof.
  intros Hstep.
  destruct Hstep as [m uid role w r m' w' H|m id uid cmd p w r m' w' H|m id uid p w r m' w' H
                    |m id item cmd w r m' w' Hl H|m patient w r m' w' H].
  - unfold Create in H. destruct (ValidateRole role); [|by simplify_eq].
    destruct (m_shuttingDown m); [by simplify_eq|].
    destruct (m_maxPerOwner m <=? _)%Z; [by simplify_eq|].
    by apply createLoop_cases in H as [(err & _ & ->)|(id & s & t & _ & _ & _ & ->)].
  - unfold send in H. destruct (authorizedEntry m id uid); [|by simplify_eq].
    destruct p; simplify_eq; [by eapply runCommand_max|done|].
    destruct (runCommand m id a cmd w) as [[r1 m1] w1] eqn:Hr. simplify_eq. by eapply runCommand_max.
  - unfold Cleanup in H. destruct (destroyedSnapshot m id uid); [by simplify_eq|].
    destruct (authorizedEntry m id uid); [|by simplify_eq].
    destruct (beginCleanup a) as [[attempt first] item1].
    destruct (runCommand _ id item1 _ w) as [[r1 m1] w1] eqn:Hr. apply runCommand_max in Hr.
    destruct p; by simplify_eq.
  - by eapply runCommand_max.
  - unfold Shutdown in H. destruct (shutdownLoop _ _ w) as [[errs m1] w1] eqn:Hs.
    apply shutdownLoop_max in Hs. case_match; by simplify_eq/=.
Qed.

(** In every state the manager can reach, no owner has more sessions than
    the configured quota, at most 1024 tombstones are kept, and every entry is
    filed under its session's own identifier. *)
Theorem manager_quota_and_bounds (quota : Z) m0 m :
  NewManager quota = Ok m0 → rtc manager_step m0 m →
  (∀ uid, (Z.of_nat (size (ownedBy m uid)) ≤ m_maxPerOwner m ≤ 64)%Z) ∧
  (Z.of_nat (size (m_destroyed m)) ≤ 1024)%Z ∧
  (∀ id item, m_entries m !! id = Some item → s_id (e_session item) = id).
Proof.
  intros Hnew Hsteps.
  assert (manager_inv m0 ∧ (m_maxPerOwner m0 ≤ 64)%Z) as [H0 Hmax0].
  { unfold NewManager in Hnew. guards; simpl in *. split; [|lia].
    unfold manager_inv, maxTombstones; simpl. split_and!; try done.
    intros uid. rewrite ownedBy_size. unfold owners; simpl.
    rewrite fmap_empty, map_filter_empty, map_size_empty. lia. }
  clear Hnew. assert (manager_inv m ∧ m_maxPerOwner m = m_maxPerOwner m0) as [(Hk & _ & Hq & Ht) Hmax].
  { induction Hsteps as [|m1 m2 m3 H12 _ IH]; [done|].
    assert (m_maxPerOwner m2 = m_maxPerOwner m1) as Heq by (by eapply manager_step_max).
    destruct IH as [? ?]; [by eapply manager_inv_step|by rewrite Heq|]. split; congruence || done. }
  split_and!; [|done|].
  - intros uid. specialize (Hq uid). lia.
  - intros id item Hl. by apply Hk in Hl as [? _].
Qed.

(** ** Authorization *)

(** A user who is neither root nor the owner learns and changes nothing:
    reading, commanding and cleaning up another owner's session are refused
    without touching the manager or the world, the listing shows only the
    caller's own sessions, and another owner's tombstone is not found. *)
Theorem strangers_are_refused m uid :
  uid ≠ 0%Z →
  (∀ snap, In snap (List_ m uid) → snap_OwnerUID snap = uid) ∧
  (∀ id item, ValidateID id = Ok tt → m_entries m !! id = Some item → m_destroyed m !! id = None →
     s_ownerUID (e_session item) ≠ uid →
     Get m id uid = Err ErrUnauthorized ∧
     (∀ cmd p w, resp_err (send m id uid cmd p w).1.1 = Some ErrUnauthorized ∧
                 (send m id uid cmd p w).1.2 = m ∧ (send m id uid cmd p w).2 = w) ∧
     (∀ p w, Cleanup m id uid p w = (Err ErrUnauthorized, m, w))) ∧
  (∀ id snap, m_entries m !! id = None → m_destroyed m !! id = Some snap → snap_OwnerUID snap ≠ uid →
     Get m id uid = Err ErrNotFound).
Proof.
  intros Hu. split_and!.
  - intros snap Hin. unfold List_ in Hin.
    apply (Permutation_in snap (merge_sort_Permutation _ _)) in Hin.
    apply filter_In in Hin as [_ Hp]. rewrite bool_decide_false in Hp by done. simpl in Hp. by bool_hyps.
  - intros id item Hid Hl Hd Ho.
    assert (authorizedEntry m id uid = Err ErrUnauthorized) as Ha.
    { unfold authorizedEntry. rewrite Hid, Hl. simpl.
      by rewrite !bool_decide_false by congruence. }
    assert (destroyedSnapshot m id uid = None) as Hds by (unfold destroyedSnapshot; by rewrite Hd).
    split_and!.
    + unfold Get. by rewrite Ha.
    + intros cmd p w. unfold send. by rewrite Ha.
    + intros p w. unfold Cleanup. by rewrite Hds, Ha.
  - intros id snap Hl Hd Ho. unfold Get.
    assert (authorizedEntry m id uid = Err ErrNotFound) as ->.
    { unfold authorizedEntry. destruct (ValidateID id); [|done]. by rewrite Hl. }
    unfold destroyedSnapshot. rewrite Hd. by rewrite !bool_decide_false by congruence.
Qed.

(** ** Subscriptions *)

(** What publishing an event does to one subscriber. *)
Definition pushed (event : Event) (s : subscriberState) : option subscriberState :=
  if sub_cancel s then None
  else if (len (sub_events s) <? maxSubscriberQueue)%Z
  then Some (mkSub (sub_id s) (sub_events s ++ [event]) (sub_cancel s) (sub_finished s))
  else None.

Lemma publishTo_lookup event item k s i :
  e_subscribers item !! k = Some s →
  e_subscribers (publishTo event item (k, s)) !! i =
  if decide (i = k) then pushed event s else e_subscribers item !! i.
Proof.
  intros Hk. unfold publishTo, pushed, removeSubscriber. rewrite Hk.
  destruct (sub_cancel s); [|destruct (len (sub_events s) <? maxSubscriberQueue)%Z]; simpl;
    (destruct (decide (i = k)) as [->|Hne];
      [by rewrite ?lookup_delete_eq, ?lookup_insert_eq
      |by rewrite ?lookup_delete_ne, ?lookup_insert_ne by done]).
Qed.

Lemma publish_lookup item event i :
  e_subscribers (publish item event) !! i = e_subscribers item !! i ≫= pushed event.
Proof.
  assert (∀ (l : list (Z * subscriberState)) (it : entry W), NoDup l.*1 → (∀ k s, (k, s) ∈ l → e_subscribers it !! k = Some s) →
    e_subscribers (fold_left (publishTo event) l it) !! i =
    if decide (i ∈ l.*1) then e_subscribers it !! i ≫= pushed event else e_subscribers it !! i) as Hgen.
  { induction l as [|[k s] l IH]; intros it Hnd Hl; cbn [fold_left fmap list_fmap fst].
    { by rewrite decide_False by apply not_elem_of_nil. }
    apply NoDup_cons in Hnd as [Hk Hnd]. simpl in Hk.
    assert (e_subscribers it !! k = Some s) as Hks by (apply Hl; left).
    rewrite IH; [|done|].
    - rewrite (publishTo_lookup _ _ _ _ _ Hks). destruct (decide (i = k)) as [->|Hne].
      + rewrite decide_False by done. rewrite decide_True by (by left). by rewrite Hks.
      + destruct (decide (i ∈ l.*1)) as [Hin|Hin];
          [rewrite decide_True by (by right)|rewrite decide_False by (rewrite elem_of_cons; tauto)]; done.
    - intros k' s' Hin. rewrite (publishTo_lookup _ _ _ _ _ Hks). rewrite decide_False.
      + apply Hl. by right.
      + intros ->. apply Hk. apply list_elem_of_fmap. by exists (k, s'). }
  unfold publish. rewrite Hgen.
  - destruct (decide (i ∈ _)) as [Hin|Hin]; [done|].
    destruct (e_subscribers item !! i) as [s|] eqn:Hi; [|done].
    exfalso. apply Hin. apply list_elem_of_fmap. exists (i, s). split; [done|].
    by apply elem_of_map_to_list.
  - apply NoDup_fst_map_to_list.
  - intros k s Hin. by apply elem_of_map_to_list in Hin.
Qed.

(** The life of one subscription: [seen] is the replay it was given followed by
    what it has received from its channel. *)
Inductive watch (after : Z) (id : Z) : entry W → list Event → Prop :=
| watch_subscribe item subn item' :
    s_sequence (e_session item) = len (s_events (e_session item)) →
    subscribe item after = (Ok subn, item') → subn_id subn = id →
    watch after id item' (subn_replay subn)
| watch_transition item seen to co w r item' w' :
    watch after id item seen → transition item to co w = (r, item', w') → watch after id item' seen
| watch_workflow item seen to w r item' w' :
    watch after id item seen → workflow item to w = (r, item', w') → watch after id item' seen
| watch_acquire item seen resource allocate operation w err item' w' :
    watch after id item seen → acquire item resource allocate operation w = (err, item', w') →
    watch after id item' seen
| watch_receive item seen s e rest :
    watch after id item seen → e_subscribers item !! id = Some s → sub_events s = e :: rest →
    watch after id
      (withSubscribers item
         (<[id := mkSub (sub_id s) rest (sub_cancel s) (sub_finished s)]> (e_subscribers item))
         (e_finished item) (e_nextSubID item))
      (seen ++ [e]).

Lemma watch_start after item snap replay id item' :
  s_sequence (e_session item) = len (s_events (e_session item)) →
  subscribe item after = (Ok (mkSubscription snap replay id), item') → watch after id item' replay.
Proof. intros Hs Hsub. exact (watch_subscribe after id item _ item' Hs Hsub eq_refl). Qed.

Definition watch_inv (after : Z) (id : Z) item (seen : list Event) : Prop :=
  s_sequence (e_session item) = len (s_events (e_session item)) ∧
  (after ≤ s_sequence (e_session item))%Z ∧
  ∀ s, e_subscribers item !! id = Some s →
    seen ++ sub_events s =
    List.filter (λ event, (after <? ev_Sequence event)%Z) (s_events (e_session item)).

Lemma watch_append after id item seen s e :
  watch_inv after id item seen →
  s_events s = s_events (e_session item) ++ [e] →
  ev_Sequence e = add64 (s_sequence (e_session item)) 1 →
  s_sequence s = add64 (s_sequence (e_session item)) 1 →
  (len (s_events (e_session item)) < maxSessionEvents)%Z →
  watch_inv after id (publish (withSession item s) e) seen.
Proof.
  intros (Hs & Ha & Hw) Hev Hes Hss Hlen.
  assert (add64 (s_sequence (e_session item)) 1 = len (s_events (e_session item)) + 1)%Z as Hadd.
  { rewrite Hs. apply add64_small. unfold u64, two64, maxSessionEvents, len in *. lia. }
  unfold watch_inv. rewrite publish_session. simpl. rewrite Hev, Hss, Hadd, len_app.
  split; [done|]. split; [lia|].
  intros s' Hs'. rewrite publish_lookup in Hs'. simpl in Hs'.
  destruct (e_subscribers item !! id) as [s0|] eqn:H0; [|done]. simpl in Hs'.
  unfold pushed in Hs'. destruct (sub_cancel s0); [done|].
  destruct (len (sub_events s0) <? maxSubscriberQueue)%Z; [|done]. simplify_eq/=.
  rewrite List.filter_app. simpl. rewrite Hes, Hadd.
  replace (after <? len (s_events (e_session item)) + 1)%Z with true by (symmetry; apply Z.ltb_lt; lia).
  rewrite app_assoc, (Hw _ eq_refl). done.
Qed.

Lemma watch_inv_holds after id item seen : watch after id item seen → watch_inv after id item seen.
Proof.
  induction 1 as [item subn item' Hseq Hsub Hid|item seen to co w r item' w' _ IH Ht
    |item seen to w r item' w' _ IH Ht|item seen resource allocate operation w err item' w' _ IH Ha
    |item seen s e rest _ IH Hl He].
  - unfold subscribe in Hsub. simpl in Hsub.
    destruct (s_sequence (e_session item) <? after)%Z eqn:Hc; [done|].
    destruct (maxSubscribersPerSession <=? _)%Z; [done|]. simplify_eq/=. bool_hyps.
    split_and!; [done..|]. intros s Hs. simpl in *. rewrite lookup_insert_eq in Hs. simplify_eq/=.
    by rewrite app_nil_r.
  - apply transition_cases in Ht as [(err & _ & ->)|(s & e & t & w1 & _ & Ht & _ & _ & ->)]; [done|].
    apply transitionLifecycle_shape in Ht as (_ & _ & ? & ? & ? & ? & _). by eapply watch_append.
  - apply workflow_cases in Ht as [(err & _ & ->)|(s & e & t & w1 & _ & Ht & _ & _ & ->)]; [done|].
    apply transitionWorkflow_shape in Ht as (_ & _ & ? & ? & ? & ?). by eapply watch_append.
  - assert (e_subscribers item' = e_subscribers item ∧ e_session item' = e_session item) as [Hs He].
    { split; [|by eapply acquire_session].
      assert ((acquire item resource allocate operation w).1.2 = item') as <- by (by rewrite Ha).
      clear Ha. unfold acquire. repeat case_match; done. }
    unfold watch_inv. by rewrite Hs, He.
  - destruct IH as (Hs & Ha & Hw). split_and!; [done..|]. simpl. intros s' Hs'.
    rewrite lookup_insert_eq in Hs'. simplify_eq/=. rewrite <- (Hw _ Hl), He.
    by rewrite <- app_assoc.
Qed.

(** A subscriber that has not been dropped misses nothing: what it was
    replayed, what it has received and what waits in its channel are together
    exactly the session's events after its cursor, in order and without
    duplicates, across any transitions, workflow changes and acquisitions. *)
Theorem subscription_is_gap_free after id item seen s :
  watch after id item seen → e_subscribers item !! id = Some s →
  seen ++ sub_events s =
  List.filter (λ event, (after <? ev_Sequence event)%Z) (s_events (e_session item)).
Proof. intros Hw Hs. by apply watch_inv_holds in Hw as (_ & _ & H); apply H. Qed.

End Properties.

(** * An in-memory world

    Records in a map, a counting clock and counting identifiers; [mem_broken]
    makes every store operation fail.  It discharges both interfaces. *)

Record MemWorld := mkMem {
  mem_stored : gmap string Snapshot;
  mem_clock : Z;
  mem_ids : list string;
  mem_broken : bool;
  mem_held : list string
}.

#[global] Instance mem_store : StoreOps MemWorld := {
  store_Create snap w :=
    if mem_broken w then (Err (ErrMessage "storage failure"), w)
    else match mem_stored w !! snap_ID snap with
         | Some _ => (Err ErrExist, w)
         | None => (Ok tt, mkMem (<[snap_ID snap := snap]> (mem_stored w)) (mem_clock w) (mem_ids w) false (mem_held w))
         end;
  store_Save snap w :=
    if mem_broken w then (Err (ErrMessage "storage failure"), w)
    else (Ok tt, mkMem (<[snap_ID snap := snap]> (mem_stored w)) (mem_clock w) (mem_ids w) false (mem_held w));
  store_Remove id w :=
    if mem_broken w then (Err (ErrMessage "storage failure"), w)
    else (Ok tt, mkMem (delete id (mem_stored w)) (mem_clock w) (mem_ids w) false (mem_held w))
}.

#[global] Instance mem_host : HostOps MemWorld := {
  host_now w := (mem_clock w, mkMem (mem_stored w) (mem_clock w + 1) (mem_ids w) (mem_broken w) (mem_held w));
  host_newID w :=
    match mem_ids w with
    | [] => (Err (ErrMessage "random source failed"), w)
    | id :: ids => (Ok id, mkMem (mem_stored w) (mem_clock w) ids (mem_broken w) (mem_held w))
    end
}.

#[global] Instance mem_spec : StoreSpec MemWorld.
Proof.
  refine {| stored := mem_stored |}; simpl.
  - intros snap w w' H. by guards.
  - intros snap w e w' H. guards. by left.
  - intros id w w' H. by guards.
  - done.
Defined.

#[global] Instance mem_clockspec : ClockSpec MemWorld.
Proof.
  refine {| clock := mem_clock |}; simpl.
  - intros w. lia.
  - intros snap w. destruct (mem_broken w); simpl; lia.
Defined.

(** Holding and releasing one named resource of the world. *)
Definition memAllocate (name : string) : AllocateFunc MemWorld := λ w,
  ((Some (λ w, (Ok tt, mkMem (mem_stored w) (mem_clock w) (mem_ids w) (mem_broken w)
                         (List.filter (λ x, negb (bool_decide (x = name))) (mem_held w)))),
    Some (λ w, (if bool_decide (name ∈ mem_held w) then Err (ErrMessage "still present") else Ok tt, w)),
    None),
   mkMem (mem_stored w) (mem_clock w) (mem_ids w) (mem_broken w) (name :: mem_held w)).

Definition memWorld : MemWorld :=
  mkMem {[demoID := snapshotOf demoActive]} 100 [demoID] false [].

Definition memEntry : entry MemWorld := newEntry demoActive.

(** The entry after acquiring two resources. *)
Definition memRunning : entry MemWorld * MemWorld :=
  let '(_, item, w) := acquire memEntry "network" (memAllocate "network") (λ _, None) memWorld in
  let '(_, item, w) := acquire item "disk" (memAllocate "disk") (λ _, None) w in
  (item, w).

Lemma transition_persisted_or_rolled_back_witness :
  let '(r, item', w') := transition memEntry PhaseStopping false memWorld in
  r.2 = None ∧ (∀ id, id ≠ demoID → stored w' !! id = stored memWorld !! id).
Proof.
  assert ((transition memEntry PhaseStopping false memWorld).1.1.2 = None) as Hr by (by vm_compute).
  destruct (transition memEntry PhaseStopping false memWorld) as [[r item'] w'] eqn:H.
  split; [done|]. apply (transition_persisted_or_rolled_back _ _ _ _ _ _ _ H).
Defined.

(** A cancelled acquisition releases what it allocated. *)
Lemma acquire_never_leaks_witness :
  let '(err, item', w') := acquire memEntry "network" (memAllocate "network") (λ _, Some ErrContext) memWorld in
  err ≠ None ∧ item' = memEntry ∧ mem_held w' = [].
Proof.
  assert ((acquire memEntry "network" (memAllocate "network") (λ _, Some ErrContext) memWorld).1.1 = Some ErrContext ∧
          e_steps (acquire memEntry "network" (memAllocate "network") (λ _, Some ErrContext) memWorld).1.2 = [])
    as [Her Hst] by (by vm_compute).
  destruct (acquire memEntry "network" (memAllocate "network") (λ _, Some ErrContext) memWorld)
    as [[err item'] w'] eqn:H. simpl in Her, Hst.
  destruct (acquire_never_leaks _ _ _ _ _ _ _ _ H) as [(_ & _ & He)|(_ & _ & _ & c & a & aerr & w1 & Hal & Hr)].
  - by destruct He; simplify_eq.
  - unfold memAllocate in Hal. simplify_eq/=. destruct Hr as [[Hi Hn]|(Hi & He & w2 & Hc & Ha)].
    + by rewrite Hi in Hst.
    + split_and!; [done..|]. simplify_eq/=. by vm_compute.
Defined.

Lemma cleanup_success_is_complete_witness :
  let '(r, item', w') := cleanupEntry memRunning.1 memRunning.2 in
  r.2 = None ∧ map step_name (e_steps item') = ["network"; "disk"] ∧
  stored w' !! demoID = None ∧ mem_held w' = [].
Proof.
  assert ((cleanupEntry memRunning.1 memRunning.2).1.1.2 = None ∧
          mem_held (cleanupEntry memRunning.1 memRunning.2).2 = []) as [He Hh] by (by vm_compute).
  destruct (cleanupEntry memRunning.1 memRunning.2) as [[[snap err] item'] w'] eqn:H.
  simpl in He, Hh. subst err.
  destruct (cleanup_success_is_complete _ _ _ _ _ H) as (_ & Hn & _ & Hs & _). split_and!; try done.
Defined.

(** A world whose disk resource cannot be released. *)
Definition memStuck : entry MemWorld :=
  withSteps memRunning.1
    [mkStep "network" (λ w, (Ok tt, w)) (λ w, (Ok tt, w)) false;
     mkStep "disk" (λ w, (Err (ErrMessage "busy"), w)) (λ w, (Ok tt, w)) false;
     mkStep "guest" (λ w, (Ok tt, w)) (λ w, (Ok tt, w)) false].

Lemma cleanup_failure_keeps_dependency_order_witness :
  let '(r, item', w') := cleanupEntry memStuck memRunning.2 in
  r.2 = Some ErrCleanupIncomplete ∧ e_accepting item' = false ∧
  map step_done (e_steps item') = [false; false; true].
Proof.
  assert ((cleanupEntry memStuck memRunning.2).1.1.2 = Some ErrCleanupIncomplete ∧
          map step_done (e_steps (cleanupEntry memStuck memRunning.2).1.2) = [false; false; true])
    as [He Hd] by (by vm_compute).
  destruct (cleanupEntry memStuck memRunning.2) as [[[snap err] item'] w'] eqn:H.
  simpl in He, Hd. subst err.
  destruct (cleanup_failure_keeps_dependency_order _ _ _ _ _ _ H) as [Ha _]. by split_and!.
Defined.

(** ** A world that cannot fail *)

Record CalmWorld := mkCalm { calm_stored : gmap string Snapshot; calm_clock : Z }.

#[global] Instance calm_store : StoreOps CalmWorld := {
  store_Create snap w := (Ok tt, mkCalm (<[snap_ID snap := snap]> (calm_stored w)) (calm_clock w));
  store_Save snap w := (Ok tt, mkCalm (<[snap_ID snap := snap]> (calm_stored w)) (calm_clock w));
  store_Remove id w := (Ok tt, mkCalm (delete id (calm_stored w)) (calm_clock w))
}.

#[global] Instance calm_host : HostOps CalmWorld := {
  host_now w := (calm_clock w, mkCalm (calm_stored w) (calm_clock w + 1));
  host_newID w := (Ok demoID, w)
}.

#[global] Instance calm_clockspec : ClockSpec CalmWorld.
Proof. refine {| clock := calm_clock |}; simpl; intros; lia. Defined.

Lemma cleanup_converges_witness :
  ∃ snap item' w',
    cleanupEntry (withSteps (newEntry demoActive)
                    [mkStep "network" (λ w : CalmWorld, (Ok tt, w)) (λ w, (Ok tt, w)) false])
      (mkCalm ∅ 100) = ((snap, None), item', w') ∧ s_phase (e_session item') = PhaseDestroyed.
Proof.
  apply cleanup_converges.
  - by split.
  - unfold cleanable. split_and!; by vm_compute.
  - repeat constructor; by intros.
Defined.

Definition memManager : Manager MemWorld := mkManager 4 ∅ ∅ false.

Lemma manager_quota_and_bounds_witness :
  let m := (Create memManager 1000 RoleScanner (mkMem ∅ 7 [demoID] false [])).1.2 in
  size (m_entries m) = 1%nat ∧ (Z.of_nat (size (ownedBy m 1000)) ≤ 64)%Z.
Proof.
  set (m := (Create memManager 1000 RoleScanner (mkMem ∅ 7 [demoID] false [])).1.2).
  assert (size (m_entries m) = 1%nat) as Hsize by (by vm_compute).
  assert (NewManager 4 = Ok memManager) as Hnew by done.
  assert (rtc manager_step memManager m) as Hstep.
  { apply rtc_once. destruct (Create memManager 1000 RoleScanner (mkMem ∅ 7 [demoID] false []))
      as [[r m'] w'] eqn:H. by apply (step_Create _ _ _ _ _ _ _ H). }
  destruct (manager_quota_and_bounds 4 memManager m Hnew Hstep) as [Hq _].
  split; [done|]. specialize (Hq 1000%Z). lia.
Defined.

Definition memTwoOwners : Manager MemWorld := mkManager 4 {[demoID := memEntry]} ∅ false.

Lemma strangers_are_refused_witness :
  Get memTwoOwners demoID 1000 = Ok (snapshotOf demoActive) ∧
  Get memTwoOwners demoID 1001 = Err ErrUnauthorized ∧
  Cleanup memTwoOwners demoID 1001 WaitsForResponse memWorld = (Err ErrUnauthorized, memTwoOwners, memWorld).
Proof.
  split; [by vm_compute|].
  assert (1001%Z ≠ 0%Z) as Hu by done.
  destruct (strangers_are_refused memTwoOwners 1001 Hu) as (_ & H & _).
  destruct (H demoID memEntry) as (Hg & _ & Hc); [by vm_compute..|]. by split.
Defined.

Definition memWatched : entry MemWorld := (subscribe memEntry 1).2.
Definition memReplay : list Event :=
  match (subscribe memEntry 1).1 with Ok s => subn_replay s | Err _ => [] end.

(** A subscriber with cursor 1 across one transition. *)
Lemma subscription_is_gap_free_witness :
  let item' := (transition memWatched PhaseStopping false memWorld).1.2 in
  match e_subscribers item' !! 1%Z with
  | Some s => memReplay ++ sub_events s =
      List.filter (λ event, (1 <? ev_Sequence event)%Z) (s_events (e_session item')) ∧
      len (memReplay ++ sub_events s) = 5%Z
  | None => False
  end.
Proof.
  assert (∃ s, e_subscribers (transition memWatched PhaseStopping false memWorld).1.2 !! 1%Z = Some s ∧
            len (memReplay ++ sub_events s) = 5%Z) as (s & Hs & Hl).
  { eexists. split; by vm_compute. }
  assert (watch 1 1 memWatched memReplay) as Hw.
  { assert (subscribe memEntry 1 = (Ok (mkSubscription (snapshotOf demoActive) memReplay 1), memWatched))
      as Hsub by (vm_compute; reflexivity).
    assert (s_sequence (e_session memEntry) = len (s_events (e_session memEntry))) as Hseq
      by (vm_compute; reflexivity).
    exact (watch_start _ _ _ _ _ _ Hseq Hsub). }
  destruct (transition memWatched PhaseStopping false memWorld) as [[r item'] w'] eqn:Ht.
  simpl in Hs. simpl. rewrite Hs. split; [|done].
  apply (subscription_is_gap_free 1 1 item' memReplay s); [|done].
  by apply (watch_transition 1 1 _ _ _ _ _ _ _ _ Hw Ht).
Defined.
