(* ===== verification/SessionStore.v ===== *)
(** * The volatile session store

    Models [src/internal/session/store.go]: the journal of one session per
    directory beneath the runtime root, written through a temporary file and a
    rename.  The file system is concrete: the entries of the pinned root
    directory and the files of each session directory.  Every system call first
    meets the next fault of a list: it runs, it fails (a write after some of its
    bytes), or the path of the root has meanwhile been replaced.  A directory
    descriptor is the directory's current name, so a rename moves it.  The JSON
    codec of the standard library is the pair [Marshal], [Unmarshal]; the
    descriptors' own closing has no effect on the files. *)

From Stdlib Require Import ZArith Lia Ascii.
From stdpp Require Import strings base tactics option gmap sorting list.
From S2P Require Import Prelude GoText SessionModel SessionManager.

Open Scope string_scope.
Open Scope list_scope.

Definition runtimeRootMode : Z := 0x1e8. (* 0o750 *)
Definition sessionDirMode : Z := 0x1c0. (* 0o700 *)
Definition metadataMode : Z := 0x180. (* 0o600 *)
Definition controlSockMode : Z := 0x1b0. (* 0o660 *)
Definition maxMetadataSize : Z := 1048576.

Definition documentedSessionDirectories : list string := ["qmp"; "spice"; "events"; "secrets"; "mount"; "locks"].

(** ** The file system *)

Record stat := mkStat {
  st_Mode : Z;
  st_Uid : Z;
  st_Gid : Z;
  st_Nlink : Z;
  st_Dev : Z;
  st_Ino : Z
}.

Definition S_IFMT : Z := 0xf000.
Definition S_IFDIR : Z := 0x4000.
Definition S_IFREG : Z := 0x8000.
Definition S_IFSOCK : Z := 0xc000.
Definition permMask : Z := 0xfff. (* 0o7777 *)

Definition fileType (s : stat) : Z := Z.land (st_Mode s) S_IFMT.
Definition permissions (s : stat) : Z := Z.land (st_Mode s) permMask.

Record file := mkFile { f_stat : stat; f_data : list Z }.

(** An entry of the root: a directory with its files, or anything else. *)
Inductive node :=
| Dir (s : stat) (files : gmap string file)
| Other (s : stat).

Definition nodeStat (n : node) : stat := match n with Dir s _ => s | Other s => s end.

Inductive errno := ENOENT | EEXIST | ENOTDIR | EISDIR | ENOTEMPTY | EIO.

Inductive fault :=
| Fine
| Fails (written : nat)
| PathLeadsTo (s : option stat).

Record world := mkWorld {
  w_faults : list fault;
  w_path : option stat;          (* what the root's path leads to *)
  w_tree : gmap string node;     (* the entries of the pinned root *)
  w_euid : Z;
  w_egid : Z;
  w_umask : Z;
  w_clock : Z;
  w_ids : list string            (* identifiers the generator will return *)
}.

Definition setTree (w : world) (t : gmap string node) : world :=
  mkWorld (w_faults w) (w_path w) t (w_euid w) (w_egid w) (w_umask w) (w_clock w) (w_ids w).

(** ** Errors and the monad of system calls *)

Inductive store_error :=
| Sys (e : errno)
| Message (m : string)
| Invalid (e : session_error)
| Join (a b : store_error).

(** [errors.Is(err, fs.ErrNotExist) || errors.Is(err, unix.ENOENT)] *)
Fixpoint isNotExist (e : store_error) : bool :=
  match e with
  | Sys ENOENT => true
  | Join a b => isNotExist a || isNotExist b
  | _ => false
  end.

Definition io (A : Type) : Type := world → result store_error A * world.

#[global] Instance io_ret : MRet io := λ A a w, (Ok a, w).
#[global] Instance io_bind : MBind io := λ A B k c w,
  match c w with
  | (Ok a, w') => k a w'
  | (Err e, w') => (Err e, w')
  end.

Definition fail {A} (e : store_error) : io A := λ w, (Err e, w).
Definition lift {A} (r : result store_error A) : io A := λ w, (r, w).

(** A function with a deferred rollback that runs when it fails. *)
Definition onError {A} (c : io A) (rollback : io unit) : io A := λ w,
  match c w with
  | (Ok a, w') => (Ok a, w')
  | (Err e, w') => (Err e, (rollback w').2)
  end.

(** The same, with the rollback's own error joined. *)
Definition orRollback (c rollback : io unit) : io unit := λ w,
  match c w with
  | (Ok _, w') => (Ok tt, w')
  | (Err e, w') =>
      match rollback w' with
      | (Ok _, w'') => (Err e, w'')
      | (Err e', w'') => (Err (Join e e'), w'')
      end
  end.

(** A missing object is no error: the rest is skipped. *)
Definition unlessMissing (c k : io unit) : io unit := λ w,
  match c w with
  | (Ok _, w') => k w'
  | (Err e, w') => if isNotExist e then (Ok tt, w') else (Err e, w')
  end.

(** [_ = c] *)
Definition ignore (c : io unit) : io unit := λ w, (Ok tt, (c w).2).

(** The next fault, taken from the world. *)
Definition nextFault (w : world) : fault * world :=
  match w_faults w with
  | [] => (Fine, w)
  | f :: rest =>
      (f, mkWorld rest (match f with PathLeadsTo s => s | _ => w_path w end) (w_tree w) (w_euid w) (w_egid w)
            (w_umask w) (w_clock w) (w_ids w))
  end.

(** A system call that reads or changes the tree, or fails with no effect. *)
Definition sys {A} (op : world → result errno (A * gmap string node)) : io A := λ w,
  let '(f, w) := nextFault w in
  match f with
  | Fails _ => (Err (Sys EIO), w)
  | _ => match op w with
         | Ok (a, t) => (Ok a, setTree w t)
         | Err e => (Err (Sys e), w)
         end
  end.

Definition reading {A} (op : world → result errno A) : io A :=
  sys (λ w, match op w with Ok a => Ok (a, w_tree w) | Err e => Err e end).

(** ** System calls *)

Definition openAbsoluteDirectory : io stat :=
  reading (λ w, match w_path w with Some s => Ok s | None => Err ENOENT end).

(** A call that only reports success: [Fsync], [Close], [Dup]. *)
Definition effectless : io unit := reading (λ _, Ok tt).

Definition newMode (w : world) (type mode : Z) : Z := Z.lor type (Z.land mode (Z.lxor (w_umask w) permMask)).

Definition Mkdirat (name : string) (mode : Z) : io unit :=
  sys (λ w, match w_tree w !! name with
            | Some _ => Err EEXIST
            | None => Ok (tt, <[name := Dir (mkStat (newMode w S_IFDIR mode) (w_euid w) (w_egid w) 2 0 0) ∅]> (w_tree w))
            end).

Definition openDirectoryAt (name : string) : io unit :=
  reading (λ w, match w_tree w !! name with
                | None => Err ENOENT
                | Some (Other _) => Err ENOTDIR
                | Some (Dir _ _) => Ok tt
                end).

(** [f] on the files of the directory [name]. *)
Definition onDir {A} (name : string) (f : stat → gmap string file → result errno (A * (stat * gmap string file))) : io A :=
  sys (λ w, match w_tree w !! name with
            | Some (Dir s files) =>
                match f s files with
                | Ok (a, (s', files')) => Ok (a, <[name := Dir s' files']> (w_tree w))
                | Err e => Err e
                end
            | _ => Err ENOENT
            end).

Definition readDir {A} (name : string) (f : stat → gmap string file → result errno A) : io A :=
  reading (λ w, match w_tree w !! name with
                | Some (Dir s files) => f s files
                | _ => Err ENOENT
                end).

Definition Fstat (name : string) : io stat := readDir name (λ s _, Ok s).

Definition withOwner (s : stat) (uid gid : Z) : stat := mkStat (st_Mode s) uid gid (st_Nlink s) (st_Dev s) (st_Ino s).
Definition withMode (s : stat) (mode : Z) : stat :=
  mkStat (Z.lor (fileType s) mode) (st_Uid s) (st_Gid s) (st_Nlink s) (st_Dev s) (st_Ino s).

Definition FchownDir (name : string) (uid gid : Z) : io unit := onDir name (λ s fs, Ok (tt, (withOwner s uid gid, fs))).
Definition FchmodDir (name : string) (mode : Z) : io unit := onDir name (λ s fs, Ok (tt, (withMode s mode, fs))).

(** [f] on one file of the directory. *)
Definition onFile (dir name : string) (f : file → file) : io unit :=
  onDir dir (λ s fs, match fs !! name with
                     | Some x => Ok (tt, (s, <[name := f x]> fs))
                     | None => Err ENOENT
                     end).

Definition Fchown (dir name : string) (uid gid : Z) : io unit :=
  onFile dir name (λ x, mkFile (withOwner (f_stat x) uid gid) (f_data x)).
Definition Fchmod (dir name : string) (mode : Z) : io unit :=
  onFile dir name (λ x, mkFile (withMode (f_stat x) mode) (f_data x)).

Definition Fstatat (dir name : string) : io stat :=
  readDir dir (λ _ fs, match fs !! name with Some x => Ok (f_stat x) | None => Err ENOENT end).

Definition FstatatRoot (name : string) : io stat :=
  reading (λ w, match w_tree w !! name with Some n => Ok (nodeStat n) | None => Err ENOENT end).

Definition Readdirnames (dir : string) : io (list string) := readDir dir (λ _ fs, Ok (map fst (map_to_list fs))).
Definition ReaddirnamesRoot : io (list string) := reading (λ w, Ok (map fst (map_to_list (w_tree w)))).

Definition Unlinkat (dir name : string) : io unit :=
  onDir dir (λ s fs, match fs !! name with
                     | None => Err ENOENT
                     | Some x => if (fileType (f_stat x) =? S_IFDIR)%Z then Err EISDIR else Ok (tt, (s, delete name fs))
                     end).

(** [Unlinkat] of a root entry with [AT_REMOVEDIR]. *)
Definition Rmdirat (name : string) : io unit :=
  sys (λ w, match w_tree w !! name with
            | None => Err ENOENT
            | Some (Other _) => Err ENOTDIR
            | Some (Dir _ fs) => if bool_decide (fs = ∅) then Ok (tt, delete name (w_tree w)) else Err ENOTEMPTY
            end).

(** [Openat] with [O_CREAT|O_EXCL] *)
Definition OpenExclusive (dir name : string) (mode : Z) : io unit := λ w,
  onDir dir (λ s fs, match fs !! name with
                     | Some _ => Err EEXIST
                     | None => Ok (tt, (s, <[name := mkFile (mkStat (newMode w S_IFREG mode) (w_euid w) (w_egid w) 1 0 0) []]> fs))
                     end) w.

(** [file.Write]: all bytes, or some of them and an error. *)
Definition Write (dir name : string) (data : list Z) : io nat := λ w,
  let '(f, w) := nextFault w in
  match w_tree w !! dir with
  | Some (Dir s fs) =>
      match fs !! name with
      | Some x =>
          let n := match f with Fails n => n | _ => length data end in
          let w := setTree w (<[dir := Dir s (<[name := mkFile (f_stat x) (f_data x ++ take n data)]> fs)]> (w_tree w)) in
          (match f with Fails _ => Err (Sys EIO) | _ => Ok (length data) end, w)
      | None => (Err (Sys ENOENT), w)
      end
  | _ => (Err (Sys ENOENT), w)
  end.

(** [Renameat] of root entries. *)
Definition RenameatRoot (from to : string) : io unit :=
  sys (λ w, match w_tree w !! from with
            | None => Err ENOENT
            | Some n =>
                match w_tree w !! to with
                | None => Ok (tt, <[to := n]> (delete from (w_tree w)))
                | Some (Dir _ fs) => if bool_decide (fs = ∅) then Ok (tt, <[to := n]> (delete from (w_tree w))) else Err ENOTEMPTY
                | Some (Other _) => Err ENOTDIR
                end
            end).

(** [Renameat] of files of one directory. *)
Definition Renameat (dir from to : string) : io unit :=
  onDir dir (λ s fs, match fs !! from with
                     | None => Err ENOENT
                     | Some x =>
                         match fs !! to with
                         | Some y => if (fileType (f_stat y) =? S_IFDIR)%Z then Err EISDIR
                                     else Ok (tt, (s, <[to := x]> (delete from fs)))
                         | None => Ok (tt, (s, <[to := x]> (delete from fs)))
                         end
                     end).

Definition ReadAll (dir name : string) : io (list Z) :=
  readDir dir (λ _ fs, match fs !! name with Some x => Ok (f_data x) | None => Err ENOENT end).

(** ** The store *)

(** [Store] without its mutex: an operation holds it from start to end. *)
Record Store := mkStore { so_uid : Z; so_gid : Z; so_dev : Z; so_ino : Z }.

Definition verifyOwnedDirectory (s : stat) (uid gid mode : Z) : result store_error unit :=
  fail_if (negb (fileType s =? S_IFDIR)%Z) with (Message "is not a real directory") ;;
  fail_if (negb (st_Uid s =? uid)%Z || negb (st_Gid s =? gid)%Z) with (Message "owner or group does not match the daemon") ;;
  fail_if (negb (permissions s =? mode)%Z) with (Message "mode must be exact") ;;
  Ok tt.

Definition verifyOwnedRegular (s : stat) (uid gid mode : Z) : result store_error unit :=
  fail_if (negb (fileType s =? S_IFREG)%Z || negb (st_Nlink s =? 1)%Z) with (Message "is not a singly-linked regular file") ;;
  fail_if (negb (st_Uid s =? uid)%Z || negb (st_Gid s =? gid)%Z) with (Message "owner or group does not match the daemon") ;;
  fail_if (negb (permissions s =? mode)%Z) with (Message "mode must be exact") ;;
  Ok tt.

Definition setOwnedModeDir (name : string) (uid gid mode : Z) : io unit :=
  _ ← FchownDir name uid gid; FchmodDir name mode.

Definition setOwnedMode (dir name : string) (uid gid mode : Z) : io unit :=
  _ ← Fchown dir name uid gid; Fchmod dir name mode.

Definition syncFD : io unit := effectless.

(** [writeAll]; a [Write] without error returns the whole length, so the loop
    ends after one round unless the data is empty. *)
Fixpoint writeAllLoop (fuel : nat) (dir name : string) (data : list Z) : io unit :=
  match data, fuel with
  | [], _ => mret tt
  | _, O => fail (Message "short write")
  | _, S fuel =>
      written ← Write dir name data;
      if (written =? 0)%nat then fail (Message "short write")
      else writeAllLoop fuel dir name (drop written data)
  end.

Definition writeAll (dir name : string) (data : list Z) : io unit := writeAllLoop (length data) dir name data.

(** One iteration of the loop of [verifySessionEntries]. *)
Definition verifyEntry (dir : string) (uid gid : Z) (allowTemp allowResourceDirectories : bool) (name : string) : io unit :=
  if bool_decide (name ∈ documentedSessionDirectories) && allowResourceDirectories then
    s ← Fstatat dir name;
    lift (verifyOwnedDirectory s uid gid sessionDirMode)
  else if negb (bool_decide (name = "metadata.json")) && negb (allowTemp && bool_decide (name = ".metadata.tmp")) then
    fail (Message "unexpected path in volatile session directory")
  else
    s ← Fstatat dir name;
    lift (verifyOwnedRegular s uid gid metadataMode).

Fixpoint verifyEntries (dir : string) (uid gid : Z) (allowTemp allowResourceDirectories : bool) (names : list string) : io unit :=
  match names with
  | [] => mret tt
  | name :: rest =>
      _ ← verifyEntry dir uid gid allowTemp allowResourceDirectories name;
      verifyEntries dir uid gid allowTemp allowResourceDirectories rest
  end.

Definition readDirectoryNames (dir : string) : io (list string) := _ ← effectless; Readdirnames dir.

Definition verifySessionEntries (dir : string) (uid gid : Z) (allowTemp allowResourceDirectories : bool) : io (list string) :=
  names ← readDirectoryNames dir;
  _ ← verifyEntries dir uid gid allowTemp allowResourceDirectories names;
  mret (merge_sort string_le names).

Definition containsName (names : list string) (expected : string) : bool := existsb (λ n, bool_decide (n = expected)) names.

Definition ensureMissingAt (name : string) : io unit := λ w,
  match FstatatRoot name w with
  | (Err (Sys ENOENT), w) => (Ok tt, w)
  | (Err e, w) => (Err e, w)
  | (Ok _, w) => (Err (Message "volatile session removal staging path already exists"), w)
  end.

Section Operations.
Context (Marshal : Snapshot → option (list Z)) (Unmarshal : list Z → option Snapshot) (s : Store).

Definition openRoot : io unit :=
  _ ← openAbsoluteDirectory;
  found ← reading (λ w, match w_path w with Some found => Ok found | None => Err ENOENT end);
  _ ← lift (verifyOwnedDirectory found (so_uid s) (so_gid s) runtimeRootMode);
  if negb (st_Dev found =? so_dev s)%Z || negb (st_Ino found =? so_ino s)%Z
  then fail (Message "runtime root identity changed") else mret tt.

Definition verifyRootPathIdentity : io unit := _ ← openRoot; effectless.

Definition verifySessionFD (dir : string) : io unit :=
  found ← Fstat dir;
  lift (verifyOwnedDirectory found (so_uid s) (so_gid s) sessionDirMode).

Definition validID (id : string) : io unit :=
  match ValidateID id with Ok _ => mret tt | Err e => fail (Invalid e) end.

Definition openSession (id : string) : io unit :=
  _ ← validID id;
  _ ← openDirectoryAt id;
  verifySessionFD id.

Definition encodeSnapshot (snapshot : Snapshot) : result store_error (list Z) :=
  match validateSnapshot snapshot with
  | Err e => Err (Invalid e)
  | Ok _ =>
      match Marshal snapshot with
      | None => Err (Message "encode volatile session record")
      | Some data =>
          fail_if (maxMetadataSize <? len data)%Z with (Message "volatile session record exceeds 1 MiB") ;;
          Ok data
      end
  end.

(** [Unmarshal] is the strict decoding: no duplicate or unknown field and no
    trailing data. *)
Definition decodeSnapshot (data : list Z) (expectedID : string) : result store_error Snapshot :=
  match Unmarshal data with
  | None => Err (Message "decode volatile session record")
  | Some snapshot =>
      match validateSnapshot snapshot with
      | Err e => Err (Invalid e)
      | Ok _ =>
          fail_if (negb (bool_decide (snap_ID snapshot = expectedID)))
            with (Message "volatile session record identity does not match its directory") ;;
          Ok snapshot
      end
  end.

(** Dropping a temporary file an earlier save left. *)
Fixpoint dropTemp (dir : string) (names : list string) : io unit :=
  match names with
  | [] => mret tt
  | name :: rest =>
      _ ← (if bool_decide (name = ".metadata.tmp") then Unlinkat dir name else mret tt);
      dropTemp dir rest
  end.

(** The part of [saveAt] in which the temporary file exists. *)
Definition installTemp (dir : string) (data : list Z) : io unit :=
  _ ← setOwnedMode dir ".metadata.tmp" (so_uid s) (so_gid s) metadataMode;
  _ ← writeAll dir ".metadata.tmp" data;
  _ ← effectless; (* Sync *)
  _ ← effectless; (* Close *)
  _ ← verifyRootPathIdentity;
  Renameat dir ".metadata.tmp" "metadata.json".

Definition saveAt (dir : string) (data : list Z) : io unit :=
  _ ← verifySessionFD dir;
  entries ← verifySessionEntries dir (so_uid s) (so_gid s) true true;
  _ ← dropTemp dir entries;
  _ ← OpenExclusive dir ".metadata.tmp" metadataMode;
  _ ← onError (installTemp dir data) (Unlinkat dir ".metadata.tmp");
  _ ← syncFD;
  verifyRootPathIdentity.

Definition rollbackSessionCreate (id : string) : io unit := λ w,
  let w := match openDirectoryAt id w with
           | (Ok _, w) => (ignore (Unlinkat id "metadata.json") (ignore (Unlinkat id ".metadata.tmp") w).2).2
           | (Err _, w) => w
           end in
  let '(removed, w) := Rmdirat id w in
  let '(synced, w) := effectless w in
  match removed, synced with
  | Ok _, Ok _ | Err (Sys ENOENT), Ok _ => (Ok tt, w)
  | Ok _, Err e | Err (Sys ENOENT), Err e => (Err e, w)
  | Err e, Ok _ => (Err e, w)
  | Err e, Err e' => (Err (Join e e'), w)
  end.

(** [Create] after the directory was made. *)
Definition fillSession (id : string) (data : list Z) : io unit :=
  _ ← openDirectoryAt id;
  _ ← setOwnedModeDir id (so_uid s) (so_gid s) sessionDirMode;
  _ ← saveAt id data;
  _ ← effectless; (* Close *)
  _ ← syncFD;
  verifyRootPathIdentity.

Definition Create (snapshot : Snapshot) : io unit :=
  data ← lift (encodeSnapshot snapshot);
  _ ← openRoot;
  _ ← Mkdirat (snap_ID snapshot) sessionDirMode;
  orRollback (fillSession (snap_ID snapshot) data) (rollbackSessionCreate (snap_ID snapshot)).

Definition Save (snapshot : Snapshot) : io unit :=
  data ← lift (encodeSnapshot snapshot);
  _ ← openRoot;
  _ ← openSession (snap_ID snapshot);
  saveAt (snap_ID snapshot) data.

Definition openRegularAt (dir name : string) (mode : Z) : io unit :=
  found ← Fstatat dir name;
  lift (verifyOwnedRegular found (so_uid s) (so_gid s) mode).

Definition loadAt (id : string) : io Snapshot :=
  _ ← openSession id;
  entries ← verifySessionEntries id (so_uid s) (so_gid s) false true;
  if negb (containsName entries "metadata.json")
  then fail (Message "volatile session directory does not contain metadata.json")
  else
    _ ← openRegularAt id "metadata.json" metadataMode;
    size ← readDir id (λ _ fs, match fs !! "metadata.json" with Some x => Ok (len (f_data x)) | None => Err ENOENT end);
    if (size <? 1)%Z || (maxMetadataSize <? size)%Z
    then fail (Message "volatile session record size is outside the allowed range")
    else
      data ← ReadAll id "metadata.json";
      if (maxMetadataSize <? len data)%Z then fail (Message "volatile session record exceeds 1 MiB")
      else lift (decodeSnapshot data id).

Definition Load (id : string) : io Snapshot :=
  _ ← validID id;
  _ ← openRoot;
  snapshot ← loadAt id;
  _ ← verifyRootPathIdentity;
  mret snapshot.

Fixpoint unlinkEntries (dir : string) (names : list string) : io unit :=
  match names with
  | [] => mret tt
  | name :: rest => λ w,
      match Unlinkat dir name w with
      | (Err (Sys ENOENT), w) | (Ok _, w) => unlinkEntries dir rest w
      | (Err e, w) => (Err e, w)
      end
  end.

Definition removingName (id : string) : string := ".removing-" +:+ id.

(** [Remove] after the directory was isolated, up to its removal. *)
Definition destroyIsolated (id : string) (entries : list string) : io unit :=
  _ ← syncFD;
  _ ← verifyRootPathIdentity;
  _ ← unlinkEntries (removingName id) entries;
  Rmdirat (removingName id).

Definition isolateAndDestroy (id : string) : io unit :=
  entries ← verifySessionEntries id (so_uid s) (so_gid s) true false;
  _ ← ensureMissingAt (removingName id);
  _ ← RenameatRoot id (removingName id);
  _ ← onError (destroyIsolated id entries)
        (_ ← ignore (RenameatRoot (removingName id) id); ignore effectless);
  _ ← syncFD;
  verifyRootPathIdentity.

Definition Remove (id : string) : io unit :=
  _ ← validID id;
  _ ← openRoot;
  unlessMissing (openSession id) (isolateAndDestroy id).

Definition verifyControlSocket (controlGID : Z) : io unit :=
  found ← FstatatRoot "control.sock";
  if negb (fileType found =? S_IFSOCK)%Z || negb (st_Uid found =? so_uid s)%Z || negb (st_Gid found =? controlGID)%Z ||
     negb (permissions found =? controlSockMode)%Z
  then fail (Message "daemon control socket has an unsafe type, owner, group, or mode") else mret tt.

Fixpoint listEntries (controlGID : Z) (names : list string) : io (list string) :=
  match names with
  | [] => mret []
  | name :: rest =>
      if bool_decide (name = "control.sock") then
        _ ← verifyControlSocket controlGID; listEntries controlGID rest
      else
        match ValidateID name with
        | Err _ => fail (Message "unexpected path in volatile session root")
        | Ok _ => _ ← loadAt name; ids ← listEntries controlGID rest; mret (name :: ids)
        end
  end.

Definition listIDs (controlGID : Z) : io (list string) :=
  _ ← openRoot;
  _ ← effectless;
  names ← ReaddirnamesRoot;
  ids ← listEntries controlGID names;
  _ ← verifyRootPathIdentity;
  mret (merge_sort string_le ids).

Definition ListIDs : io (list string) := listIDs (so_gid s).
Definition ListIDsForRecovery (controlGID : Z) : io (list string) := listIDs controlGID.

End Operations.

(** ** A program logic for the file system

    [triple P c Q E]: from a world in [P], [c] ends in [Q] of its result or,
    with an error, in [E]. *)

Definition triple {A} (P : world → Prop) (c : io A) (Q : A → world → Prop) (E : world → Prop) : Prop :=
  ∀ w, P w → match c w with (Ok a, w') => Q a w' | (Err _, w') => E w' end.

Create HintDb store.

Lemma triple_bind {A B} P (c : io A) Q E (k : A → io B) R :
  triple P c Q E → (∀ a, triple (Q a) (k a) R E) → triple P (mbind k c) R E.
Proof.
  intros Hc Hk w Hw. specialize (Hc w Hw). unfold mbind, io_bind. destruct (c w) as [[a|e] w']; [|done].
  exact (Hk a w' Hc).
Qed.

Lemma triple_weaken {A} P P' (c : io A) Q Q' E E' :
  triple P c Q E → (∀ w, P' w → P w) → (∀ a w, Q a w → Q' a w) → (∀ w, E w → E' w) → triple P' c Q' E'.
Proof.
  intros Hc HP HQ HE w Hw. specialize (Hc w (HP w Hw)). destruct (c w) as [[a|e] w']; auto.
Qed.

Lemma triple_ret {A} (P : world → Prop) (a : A) (Q : A → world → Prop) E :
  (∀ w, P w → Q a w) → triple P (mret a) Q E.
Proof. intros HQ w Hw. exact (HQ w Hw). Qed.

Lemma triple_onError {A} P (c : io A) Q E rollback E' :
  triple P c Q E → triple E rollback (λ _, E') E' → triple P (onError c rollback) Q E'.
Proof.
  intros Hc Hr w Hw. specialize (Hc w Hw). unfold onError. destruct (c w) as [[a|e] w']; [done|].
  specialize (Hr w' Hc). by destruct (rollback w') as [[]].
Qed.

(** Calls that leave the files alone. *)
Definition pure_ {A} (c : io A) : Prop := ∀ w, w_tree (c w).2 = w_tree w.

(** Assertions about the files only. *)
Definition tree_only (P : world → Prop) : Prop := ∀ w w', w_tree w' = w_tree w → P w → P w'.

Lemma triple_pure {A} P (c : io A) : tree_only P → pure_ c → triple P c (λ _, P) P.
Proof.
  intros HP Hc w Hw. specialize (Hc w). destruct (c w) as [[a|e] w'] eqn:He; simpl in Hc; exact (HP _ _ Hc Hw).
Qed.

Lemma nextFault_tree w : w_tree (nextFault w).2 = w_tree w.
Proof. unfold nextFault. by destruct (w_faults w). Qed.

Lemma pure_reading {A} (op : world → result errno A) : pure_ (reading op).
Proof.
  intros w. unfold reading, sys. pose proof (nextFault_tree w) as Hn. destruct (nextFault w) as [f w']; simpl in Hn.
  destruct f; simpl; try done; by destruct (op w').
Qed.

Lemma pure_bind {A B} (c : io A) (k : A → io B) : pure_ c → (∀ a, pure_ (k a)) → pure_ (mbind k c).
Proof.
  intros Hc Hk w. specialize (Hc w). unfold mbind, io_bind. destruct (c w) as [[a|e] w']; simpl in Hc; [|done].
  by rewrite Hk.
Qed.

Lemma pure_ret {A} (a : A) : pure_ (mret a).
Proof. done. Qed.

Lemma pure_lift {A} (r : result store_error A) : pure_ (lift r).
Proof. done. Qed.

Lemma pure_fail {A} e : pure_ (fail (A:=A) e).
Proof. done. Qed.

#[global] Hint Resolve pure_reading pure_bind pure_ret pure_lift pure_fail : store.

Lemma pure_openRoot s : pure_ (openRoot s).
Proof. repeat (apply pure_bind; [eauto with store|intros ?]). by destruct (_ || _). Qed.

Lemma pure_verifyRootPathIdentity s : pure_ (verifyRootPathIdentity s).
Proof. apply pure_bind; [apply pure_openRoot|intros; apply pure_reading]. Qed.

Lemma pure_validID id : pure_ (validID id).
Proof. unfold validID. by destruct (ValidateID id). Qed.

Lemma pure_openSession s id : pure_ (openSession s id).
Proof.
  apply pure_bind; [apply pure_validID|intros]. apply pure_bind; [apply pure_reading|intros].
  apply pure_bind; [apply pure_reading|intros; apply pure_lift].
Qed.

Lemma pure_verifySessionFD s dir : pure_ (verifySessionFD s dir).
Proof. apply pure_bind; [apply pure_reading|intros; apply pure_lift]. Qed.

Lemma pure_verifyEntries dir uid gid t r names : pure_ (verifyEntries dir uid gid t r names).
Proof.
  induction names as [|n names IH]; [done|]. apply pure_bind; [|done].
  unfold verifyEntry. destruct (_ && _); [apply pure_bind; eauto with store|]. destruct (_ && _); [done|].
  apply pure_bind; eauto with store.
Qed.

Lemma pure_verifySessionEntries dir uid gid t r : pure_ (verifySessionEntries dir uid gid t r).
Proof.
  apply pure_bind; [apply pure_bind; [apply pure_reading|intros; apply pure_reading]|intros names].
  apply pure_bind; [apply pure_verifyEntries|done].
Qed.

Lemma pure_ensureMissingAt name : pure_ (ensureMissingAt name).
Proof.
  intros w. unfold ensureMissingAt. pose proof (pure_reading (λ w, match w_tree w !! name with Some n => Ok (nodeStat n) | None => Err ENOENT end) w) as Hp.
  unfold FstatatRoot. destruct (reading _ w) as [[x|[[]| | |]] w']; simpl in *; done.
Qed.

#[global] Hint Resolve pure_openRoot pure_verifyRootPathIdentity pure_validID pure_openSession pure_verifySessionFD
  pure_verifySessionEntries pure_ensureMissingAt : store.

(** ** The state of one directory

    The directory [dir] holds [files], everything else of the root is [rest]. *)
Definition at_ (rest : gmap string node) (dir : string) (s : stat) (files : gmap string file) (w : world) : Prop :=
  delete dir (w_tree w) = rest ∧ w_tree w !! dir = Some (Dir s files).

Lemma at_tree_only rest dir s files : tree_only (at_ rest dir s files).
Proof. intros w w' Hw [H1 H2]. unfold at_. by rewrite Hw. Qed.

Lemma at_insert rest dir s files s' files' w t :
  at_ rest dir s files w → t = <[dir := Dir s' files']> (w_tree w) → at_ rest dir s' files' (setTree w t).
Proof.
  intros [<- Hd] ->. split; simpl; [by rewrite delete_insert_eq|by rewrite lookup_insert_eq].
Qed.

(** A change of the directory's files. *)
Lemma triple_onDir {A} rest dir s files (f : stat → gmap string file → result errno (A * (stat * gmap string file))) Q (E : world → Prop) :
  (∀ a s' files', f s files = Ok (a, (s', files')) → ∀ w, at_ rest dir s' files' w → Q a w) →
  (∀ w, at_ rest dir s files w → E w) →
  triple (at_ rest dir s files) (onDir dir f) Q E.
Proof.
  intros HQ HE w Hw. unfold onDir, sys.
  pose proof (at_tree_only rest dir s files w (nextFault w).2 (nextFault_tree w) Hw) as Hw'.
  destruct (nextFault w) as [flt w1]; simpl in Hw'. pose proof Hw' as [_ Hd].
  destruct flt; try (by apply HE); rewrite Hd; destruct (f s files) as [[a [s' files']]|e] eqn:Hf; try (by apply HE);
    apply (HQ _ _ _ eq_refl); by eapply at_insert.
Qed.

Definition tmp : string := ".metadata.tmp".
Definition meta : string := "metadata.json".

(** The files apart from the temporary one. *)
Definition settled (files files' : gmap string file) : Prop := delete tmp files' = delete tmp files.

(** Somewhere in a save that has not installed its record yet. *)
Definition unsettled rest dir s files (w : world) : Prop :=
  ∃ files', settled files files' ∧ at_ rest dir s files' w.

Lemma unsettled_refl rest dir s files w : at_ rest dir s files w → unsettled rest dir s files w.
Proof. intros. by exists files. Qed.

Lemma unsettled_tmp rest dir s files x w :
  at_ rest dir s (<[tmp := x]> (delete tmp files)) w → unsettled rest dir s files w.
Proof.
  intros Hw. eexists. split; [|exact Hw]. unfold settled. rewrite delete_insert_eq. by rewrite delete_delete_eq.
Qed.

Lemma unsettled_drop rest dir s files w : at_ rest dir s (delete tmp files) w → unsettled rest dir s files w.
Proof. intros Hw. eexists. split; [|exact Hw]. unfold settled. by rewrite delete_delete_eq. Qed.

Lemma triple_dropTemp rest dir s names files :
  triple (at_ rest dir s files) (dropTemp dir names)
    (λ _, at_ rest dir s (if bool_decide (tmp ∈ names) then delete tmp files else files))
    (unsettled rest dir s files).
Proof.
  revert files. induction names as [|n names IH]; intros files; [by apply triple_ret|].
  cbn [dropTemp]. destruct (bool_decide (n = ".metadata.tmp")) eqn:Hn; bool_hyps.
  - subst n. eapply triple_bind; [|intros []].
    + apply triple_onDir with (Q := λ _, at_ rest dir s (delete tmp files)); [|apply unsettled_refl].
      intros a s' files' He w Hw. destruct (files !! ".metadata.tmp"); [|done].
      destruct (_ =? _)%Z; [done|]. by injection He as <- <- <-.
    + eapply triple_weaken; [apply IH|done| |].
      * intros ? w Hw. rewrite bool_decide_eq_true_2 by (left; done).
        destruct (bool_decide _); [by rewrite delete_delete_eq in Hw|done].
      * intros w (files' & Hs & Hw). exists files'. split; [|done]. unfold settled in *. by rewrite delete_delete_eq in Hs.
  - eapply triple_bind; [by apply (triple_ret _ _ (λ _, at_ rest dir s files))|intros []].
    eapply triple_weaken; [apply IH|done| |done].
    intros ? w Hw. rewrite (bool_decide_ext _ (tmp ∈ n :: names)) in Hw; [done|].
    split; [by right|]. intros [?|?]%elem_of_cons; [by subst|done].
Qed.

Definition ownedStat (st : stat) (uid gid mode : Z) : stat := withMode (withOwner st uid gid) mode.

Lemma triple_onFile rest dir s files name x f :
  files !! name = Some x →
  triple (at_ rest dir s files) (onFile dir name f)
    (λ _, at_ rest dir s (<[name := f x]> files)) (at_ rest dir s files).
Proof.
  intros Hx. apply triple_onDir; [|done]. intros a s' files' He w Hw. rewrite Hx in He. by injection He as <- <- <-.
Qed.

Lemma triple_setOwnedMode rest dir s files x uid gid mode :
  triple (at_ rest dir s (<[tmp := x]> (delete tmp files))) (setOwnedMode dir tmp uid gid mode)
    (λ _, at_ rest dir s (<[tmp := mkFile (ownedStat (f_stat x) uid gid mode) (f_data x)]> (delete tmp files)))
    (unsettled rest dir s files).
Proof.
  eapply triple_bind; [|intros []].
  - eapply triple_weaken; [apply triple_onFile, lookup_insert_eq|done|intros ? w Hw; exact Hw|apply unsettled_tmp].
  - rewrite insert_insert_eq.
    eapply triple_weaken; [apply triple_onFile, lookup_insert_eq|done| |apply unsettled_tmp].
    intros ? w Hw. by rewrite insert_insert_eq in Hw.
Qed.

Lemma triple_Write rest dir s files x data :
  triple (at_ rest dir s (<[tmp := x]> (delete tmp files))) (Write dir tmp data)
    (λ n w, n = length data ∧ at_ rest dir s (<[tmp := mkFile (f_stat x) (f_data x ++ data)]> (delete tmp files)) w)
    (unsettled rest dir s files).
Proof.
  intros w Hw. unfold Write.
  pose proof (at_tree_only _ _ _ _ w (nextFault w).2 (nextFault_tree w) Hw) as Hw'.
  destruct (nextFault w) as [flt w1]; simpl in Hw'. pose proof Hw' as [_ Hd]. rewrite Hd, lookup_insert_eq.
  destruct flt as [|n|ps].
  - split; [done|]. eapply at_insert; [exact Hw'|]. by rewrite firstn_all, insert_insert_eq.
  - apply (unsettled_tmp _ _ _ _ (mkFile (f_stat x) (f_data x ++ take n data))).
    eapply at_insert; [exact Hw'|]. by rewrite insert_insert_eq.
  - split; [done|]. eapply at_insert; [exact Hw'|]. by rewrite firstn_all, insert_insert_eq.
Qed.

Lemma triple_writeAll rest dir s files x data :
  f_data x = [] →
  triple (at_ rest dir s (<[tmp := x]> (delete tmp files))) (writeAll dir tmp data)
    (λ _, at_ rest dir s (<[tmp := mkFile (f_stat x) data]> (delete tmp files)))
    (unsettled rest dir s files).
Proof.
  intros Hx. unfold writeAll. destruct data as [|b data].
  { apply triple_ret. intros w Hw. destruct x as [st d]; simpl in *. by subst. }
  cbn [length writeAllLoop]. eapply triple_bind; [apply triple_Write|]. intros n. rewrite Hx. simpl.
  intros w [-> Hw]. rewrite drop_ge by done. cbn. by destruct (length data).
Qed.

Section SaveLemmas.
Context (st : Store).

Definition savedFile (st0 : stat) (data : list Z) : file :=
  mkFile (ownedStat st0 (so_uid st) (so_gid st) metadataMode) data.

Definition saved (files : gmap string file) (st0 : stat) (data : list Z) : gmap string file :=
  <[meta := savedFile st0 data]> (delete tmp files).

Lemma triple_installTemp rest dir s files st0 data :
  triple (at_ rest dir s (<[tmp := mkFile st0 []]> (delete tmp files))) (installTemp st dir data)
    (λ _, at_ rest dir s (saved files st0 data)) (unsettled rest dir s files).
Proof.
  assert (∀ A (c : io A) x, pure_ c → triple (at_ rest dir s (<[tmp := x]> (delete tmp files))) c
            (λ _, at_ rest dir s (<[tmp := x]> (delete tmp files))) (unsettled rest dir s files)) as Hp.
  { intros A c x Hc. eapply triple_weaken; [eapply triple_pure; [apply at_tree_only|exact Hc]|done|done|apply unsettled_tmp]. }
  eapply triple_bind; [apply triple_setOwnedMode|intros []].
  eapply triple_bind; [by apply triple_writeAll|intros []].
  do 2 (eapply triple_bind; [apply Hp, pure_reading|intros []]).
  eapply triple_bind; [apply Hp, pure_verifyRootPathIdentity|intros []].
  apply triple_onDir; [|apply unsettled_tmp].
  intros a s' files' He w Hw. change ".metadata.tmp" with tmp in He. change "metadata.json" with meta in He.
  rewrite lookup_insert_eq, delete_insert_eq in He. rewrite lookup_insert_ne in He by done.
  rewrite delete_delete_eq in He. destruct (delete tmp files !! meta) as [y|]; [destruct (_ =? _)%Z; [done|]|];
    by injection He as _ <- <-.
Qed.

(** The names verified are those of the directory. *)
Lemma triple_entries rest dir s files uid gid t r E :
  (∀ w, at_ rest dir s files w → E w) →
  triple (at_ rest dir s files) (verifySessionEntries dir uid gid t r)
    (λ names w, (∀ n, n ∈ names ↔ is_Some (files !! n)) ∧ at_ rest dir s files w) E.
Proof.
  intros HE w Hw.
  assert (at_ rest dir s files (verifySessionEntries dir uid gid t r w).2) as Hw'.
  { by apply (at_tree_only _ _ _ _ w); [apply pure_verifySessionEntries|]. }
  destruct (verifySessionEntries dir uid gid t r w) as [[names|e] w'] eqn:He; [|by apply HE]. split; [|done].
  unfold verifySessionEntries, readDirectoryNames, mbind, io_bind in He.
  destruct (effectless w) as [[[]|e] w1] eqn:H1; [|done].
  assert (at_ rest dir s files w1) as Hw1.
  { pose proof (pure_reading (λ _, Ok tt) w) as Hp. unfold effectless in H1. rewrite H1 in Hp. by apply (at_tree_only _ _ _ _ w). }
  destruct (Readdirnames dir w1) as [[ns|e] w2] eqn:H2; [|done].
  destruct (verifyEntries dir uid gid t r ns w2) as [[[]|e] w3]; [|done]. injection He as <- _.
  unfold Readdirnames, readDir, reading, sys in H2.
  pose proof (at_tree_only _ _ _ _ w1 (nextFault w1).2 (nextFault_tree w1) Hw1) as Hw2.
  destruct (nextFault w1) as [flt w4]; simpl in Hw2. destruct Hw2 as [_ Hd].
  intros n. rewrite merge_sort_Permutation.
  assert (ns = map fst (map_to_list files)) as ->.
  { destruct flt; rewrite ?Hd in H2; by injection H2. }
  rewrite list_elem_of_fmap. split.
  - intros ([i x] & -> & Hin). apply elem_of_map_to_list in Hin. by exists x.
  - intros [x Hx]. exists (n, x). split; [done|]. by apply elem_of_map_to_list.
Qed.

(** A new file is regular: the type bits lie outside every permission mask. *)
Lemma newMode_type w type mode :
  Z.land type S_IFMT = type → Z.land mode S_IFMT = 0%Z → Z.land (newMode w type mode) S_IFMT = type.
Proof.
  intros Ht Hm. unfold newMode. rewrite Z.land_lor_distr_l, Ht, <- Z.land_assoc, (Z.land_comm _ S_IFMT), Z.land_assoc, Hm.
  apply Z.lor_0_r.
Qed.

Lemma triple_OpenExclusive rest dir s files data :
  triple (at_ rest dir s (delete tmp files)) (OpenExclusive dir tmp metadataMode)
    (λ _ w, ∃ st0, fileType st0 = S_IFREG ∧ st_Nlink st0 = 1%Z ∧ at_ rest dir s (<[tmp := mkFile st0 []]> (delete tmp files)) w)
    (λ w, unsettled rest dir s files w ∨ ∃ st0, at_ rest dir s (saved files st0 data) w).
Proof.
  intros w0. unfold OpenExclusive. revert w0.
  intros w0 Hw0. apply (triple_onDir rest dir s (delete tmp files)); [| |done].
  - intros a s' files' He w Hw. rewrite lookup_delete_eq in He. injection He as <- <- <-.
    eexists. split; [|split; [|exact Hw]]; [by apply newMode_type|done].
  - intros w Hw. left. by apply unsettled_drop.
Qed.

(** The deferred removal of the temporary file. *)
Lemma triple_undo rest dir s files :
  triple (unsettled rest dir s files) (Unlinkat dir tmp) (λ _, unsettled rest dir s files) (unsettled rest dir s files).
Proof.
  intros w (files' & Hs & Hw). revert w Hw. apply triple_onDir.
  - intros a s' files2 He w Hw. destruct (files' !! tmp); [|done]. destruct (_ =? _)%Z; [done|].
    injection He as <- <- <-. exists (delete tmp files'). split; [|done]. unfold settled in *. by rewrite delete_delete_eq.
  - intros w Hw. by exists files'.
Qed.

(** A save in a directory either installs the record, and then the temporary
    file is gone and nothing else changed, or changes the temporary file only. *)
Lemma triple_saveAt rest dir s files data :
  triple (at_ rest dir s files) (saveAt st dir data)
    (λ _ w, ∃ st0, fileType st0 = S_IFREG ∧ st_Nlink st0 = 1%Z ∧ at_ rest dir s (saved files st0 data) w)
    (λ w, unsettled rest dir s files w ∨ ∃ st0, at_ rest dir s (saved files st0 data) w).
Proof.
  assert (∀ A (c : io A) files', settled files files' → pure_ c → triple (at_ rest dir s files') c
            (λ _, at_ rest dir s files') (λ w, unsettled rest dir s files w ∨ ∃ st0, at_ rest dir s (saved files st0 data) w)) as Hp.
  { intros A c files' Hs Hc. eapply triple_weaken; [eapply triple_pure; [apply at_tree_only|exact Hc]|done|done|].
    intros w Hw. left. by exists files'. }
  eapply triple_bind; [apply Hp; [done|apply pure_verifySessionFD]|intros []].
  eapply triple_bind; [apply triple_entries; intros w Hw; left; by apply unsettled_refl|intros entries].
  intros w [Hin Hw].
  pose proof (triple_dropTemp rest dir s entries files w Hw) as Hd. unfold mbind at 1, io_bind at 1.
  destruct (dropTemp dir entries w) as [[[]|e] w1]; [|by left].
  rewrite (bool_decide_ext _ (is_Some (files !! tmp))) in Hd by done.
  assert (at_ rest dir s (delete tmp files) w1) as Hw1.
  { case_bool_decide as Ht; [done|]. rewrite delete_id; [done|]. by apply eq_None_not_Some. }
  clear Hd Hw Hin w. revert w1 Hw1.
  change (triple (at_ rest dir s (delete tmp files))
    (_ ← OpenExclusive dir tmp metadataMode; _ ← onError (installTemp st dir data) (Unlinkat dir tmp); _ ← syncFD;
     verifyRootPathIdentity st)
    (λ _ w, ∃ st0, fileType st0 = S_IFREG ∧ st_Nlink st0 = 1%Z ∧ at_ rest dir s (saved files st0 data) w)
    (λ w, unsettled rest dir s files w ∨ ∃ st0, at_ rest dir s (saved files st0 data) w)).
  eapply triple_bind; [apply triple_OpenExclusive|]. intros [] w (st0 & Hty & Hnl & Hw). revert w Hw.
  eapply triple_bind.
  { eapply triple_weaken; [eapply triple_onError; [apply triple_installTemp|apply triple_undo]|done|intros ? w Hw; exact Hw|].
    intros w Hw. by left. }
  intros ?. assert (∀ A (c : io A), pure_ c → triple (at_ rest dir s (saved files st0 data)) c
            (λ _, at_ rest dir s (saved files st0 data))
            (λ w, unsettled rest dir s files w ∨ ∃ st0, at_ rest dir s (saved files st0 data) w)) as Hq.
  { intros A c Hc. eapply triple_weaken; [eapply triple_pure; [apply at_tree_only|exact Hc]|done|done|].
    intros w Hw. right. by exists st0. }
  eapply triple_bind; [apply Hq, pure_reading|intros []].
  eapply triple_weaken; [apply Hq, pure_verifyRootPathIdentity|done| |done].
  intros ? w Hw. by exists st0.
Qed.

End SaveLemmas.

(** ** Checked directories *)

(** What [verifySessionEntries] requires of an entry. *)
Definition entryOk (uid gid : Z) (allowTemp : bool) (name : string) (x : file) : Prop :=
  if bool_decide (name ∈ documentedSessionDirectories)
  then verifyOwnedDirectory (f_stat x) uid gid sessionDirMode = Ok tt
  else (name = meta ∨ (allowTemp = true ∧ name = tmp)) ∧ verifyOwnedRegular (f_stat x) uid gid metadataMode = Ok tt.

Lemma readDir_at {A} rest dir s files (f : stat → gmap string file → result errno A) w :
  at_ rest dir s files w →
  (∀ a w', readDir dir f w = (Ok a, w') → f s files = Ok a ∧ at_ rest dir s files w') ∧
  (w_faults w = [] → readDir dir f w = (match f s files with Ok a => Ok a | Err e => Err (Sys e) end, w)).
Proof.
  intros Hw. split.
  - intros a w' He. pose proof (pure_reading (λ w, match w_tree w !! dir with Some (Dir s files) => f s files | _ => Err ENOENT end) w) as Hp.
    unfold readDir in He. rewrite He in Hp. split; [|by apply (at_tree_only _ _ _ _ w)].
    unfold reading, sys in He. pose proof (at_tree_only _ _ _ _ w (nextFault w).2 (nextFault_tree w) Hw) as [_ Hd].
    destruct (nextFault w) as [flt w1]; simpl in Hd. rewrite Hd in He.
    destruct flt; [|done|]; destruct (f s files); by simplify_eq.
  - intros Hf. unfold readDir, reading, sys, nextFault. rewrite Hf. destruct Hw as [_ Hd]. rewrite Hd.
    destruct (f s files); [|done]. by destruct w.
Qed.

Lemma verifyEntries_sound rest dir s files uid gid t names w w' :
  at_ rest dir s files w → verifyEntries dir uid gid t true names w = (Ok tt, w') →
  ∀ n x, n ∈ names → files !! n = Some x → entryOk uid gid t n x.
Proof.
  revert w. induction names as [|m names IH]; intros w Hw He n x Hn Hx; [by apply elem_of_nil in Hn|].
  cbn [verifyEntries] in He. unfold mbind at 1, io_bind at 1 in He.
  destruct (verifyEntry dir uid gid t true m w) as [[[]|e] w1] eqn:H1; [|done].
  assert (at_ rest dir s files w1 ∧ (∀ y, files !! m = Some y → entryOk uid gid t m y)) as [Hw1 Hm].
  { unfold entryOk. unfold verifyEntry in H1. rewrite andb_true_r in H1. destruct (bool_decide (m ∈ _)).
    - unfold mbind, io_bind in H1. destruct (Fstatat dir m w) as [[y|e] w2] eqn:H2; [|done].
      apply (proj1 (readDir_at _ _ _ _ _ _ Hw)) in H2 as [H2 Hw2]. injection H1 as Hv <-. split; [done|].
      intros z Hz. rewrite Hz in H2. by injection H2 as <-.
    - destruct (negb _ && _) eqn:Hg; [done|]. unfold mbind, io_bind in H1.
      destruct (Fstatat dir m w) as [[y|e] w2] eqn:H2; [|done].
      apply (proj1 (readDir_at _ _ _ _ _ _ Hw)) in H2 as [H2 Hw2]. injection H1 as Hv <-. split; [done|].
      intros z Hz. rewrite Hz in H2. injection H2 as <-. split; [|done].
      apply andb_false_iff in Hg as [Hg|Hg]; bool_hyps; [by left|]. by right. }
  apply elem_of_cons in Hn as [->|Hn]; [auto|]. by apply (IH w1 Hw1 He).
Qed.

Lemma verifyEntries_complete rest dir s files uid gid t names w :
  at_ rest dir s files w → w_faults w = [] → (∀ n, n ∈ names → ∃ x, files !! n = Some x ∧ entryOk uid gid t n x) →
  verifyEntries dir uid gid t true names w = (Ok tt, w).
Proof.
  intros Hw Hf. induction names as [|m names IH]; intros Hall; [done|]. cbn [verifyEntries].
  destruct (Hall m) as (x & Hx & Hok); [by left|]. unfold mbind at 1, io_bind at 1.
  assert (Fstatat dir m w = (Ok (f_stat x), w)) as Hst.
  { unfold Fstatat. rewrite (proj2 (readDir_at _ _ _ _ _ _ Hw) Hf). by rewrite Hx. }
  assert (verifyEntry dir uid gid t true m w = (Ok tt, w)) as ->.
  { unfold entryOk in Hok. unfold verifyEntry. rewrite andb_true_r. destruct (bool_decide (m ∈ _)).
    - unfold mbind, io_bind. rewrite Hst. unfold lift. by rewrite Hok.
    - destruct Hok as [Hm Hr].
      assert (negb (bool_decide (m = "metadata.json")) && negb (t && bool_decide (m = ".metadata.tmp")) = false) as ->.
      { destruct Hm as [->|[-> ->]]; by destruct t || done. }
      unfold mbind, io_bind. rewrite Hst. unfold lift. by rewrite Hr. }
  apply IH. intros n Hn. apply Hall. by right.
Qed.

(** What a successful save has checked. *)
Lemma saveAt_checked st rest dir s files data w w' :
  at_ rest dir s files w → saveAt st dir data w = (Ok tt, w') →
  verifyOwnedDirectory s (so_uid st) (so_gid st) sessionDirMode = Ok tt ∧
  (∀ n x, files !! n = Some x → entryOk (so_uid st) (so_gid st) true n x).
Proof.
  intros Hw He. unfold saveAt in He. unfold mbind at 1, io_bind at 1 in He.
  destruct (verifySessionFD st dir w) as [[[]|e] w1] eqn:H1; [|done].
  unfold verifySessionFD, mbind, io_bind in H1. destruct (Fstat dir w) as [[y|e] w2] eqn:H2; [|done].
  apply (proj1 (readDir_at _ _ _ _ _ _ Hw)) in H2 as [H2 Hw2]. injection H2 as <-. injection H1 as Hv <-.
  split; [done|]. unfold mbind at 1, io_bind at 1 in He.
  destruct (verifySessionEntries dir (so_uid st) (so_gid st) true true w2) as [[names|e] w3] eqn:H3; [|done]. clear He.
  pose proof (triple_entries rest dir s files (so_uid st) (so_gid st) true true (λ _, True)) as Ht.
  specialize (Ht ltac:(done) w2 Hw2). rewrite H3 in Ht. destruct Ht as [Hnames _].
  unfold verifySessionEntries, mbind at 1, io_bind at 1 in H3.
  destruct (readDirectoryNames dir w2) as [[ns|e] w4] eqn:H4; [|done].
  assert (at_ rest dir s files w4) as Hw4.
  { assert (pure_ (readDirectoryNames dir)) as Hp by (apply pure_bind; intros; apply pure_reading).
    specialize (Hp w2). rewrite H4 in Hp. by apply (at_tree_only _ _ _ _ w2). }
  unfold mbind, io_bind in H3.
  destruct (verifyEntries dir (so_uid st) (so_gid st) true true ns w4) as [[[]|e] w5] eqn:H5; [|done].
  injection H3 as <- _. intros n x Hx. apply (verifyEntries_sound _ _ _ _ _ _ _ _ _ _ Hw4 H5); [|done].
  rewrite <- (merge_sort_Permutation string_le). apply Hnames. by exists x.
Qed.

(** ** The records on disk *)

Definition recordOf (n : node) : option (list Z) :=
  match n with Dir _ files => f_data <$> files !! meta | Other _ => None end.

(** What the store relies on of the JSON codec. *)
Class Codec (Marshal : Snapshot → option (list Z)) (Unmarshal : list Z → option Snapshot) : Prop := {
  Unmarshal_Marshal snap data : validateSnapshot snap = Ok tt → Marshal snap = Some data → Unmarshal data = Some snap;
  Marshal_nonempty snap data : Marshal snap = Some data → data ≠ []
}.

Section Refinement.
Context (Marshal : Snapshot → option (list Z)) (Unmarshal : list Z → option Snapshot).
Context {codec : Codec Marshal Unmarshal} (st : Store).

Definition decodeRecord (id : string) (n : node) : option Snapshot :=
  data ← recordOf n;
  match decodeSnapshot Unmarshal data id with Ok snap => Some snap | Err _ => None end.

(** The abstract state: the valid record of every session directory. *)
Definition storedRecords (w : world) : gmap string Snapshot := map_imap decodeRecord (w_tree w).

Lemma storedRecords_lookup w id : storedRecords w !! id = w_tree w !! id ≫= decodeRecord id.
Proof. unfold storedRecords. by rewrite map_lookup_imap. Qed.

Lemma encodeSnapshot_ok snap data :
  encodeSnapshot Marshal snap = Ok data →
  decodeSnapshot Unmarshal data (snap_ID snap) = Ok snap ∧ data ≠ [] ∧ (len data ≤ maxMetadataSize)%Z.
Proof.
  unfold encodeSnapshot. destruct (validateSnapshot snap) as [[]|] eqn:Hv; [|done].
  destruct (Marshal snap) as [d|] eqn:Hm; [|done]. destruct (_ <? _)%Z eqn:Hs; [done|]. intros [= <-]. bool_hyps.
  split_and!; [|by apply (Marshal_nonempty snap)|done].
  unfold decodeSnapshot. rewrite (Unmarshal_Marshal _ _ Hv Hm), Hv. by rewrite bool_decide_eq_true_2.
Qed.

Lemma at_other rest dir s files w id : at_ rest dir s files w → id ≠ dir → w_tree w !! id = rest !! id.
Proof. intros [<- _] Hn. by rewrite lookup_delete_ne. Qed.

(** Worlds that differ in one directory's record. *)
Lemma stored_same rest dir s s' files files' w w' :
  at_ rest dir s files w → at_ rest dir s' files' w' → f_data <$> files' !! meta = f_data <$> files !! meta →
  storedRecords w' = storedRecords w.
Proof.
  intros Hw Hw' Hm. apply map_eq. intros id. rewrite !storedRecords_lookup.
  destruct (decide (id = dir)) as [->|Hn].
  - rewrite (proj2 Hw), (proj2 Hw'). simpl. unfold decodeRecord. simpl. by rewrite Hm.
  - by rewrite (at_other _ _ _ _ _ _ Hw Hn), (at_other _ _ _ _ _ _ Hw' Hn).
Qed.

Lemma stored_insert rest dir s s' files files' w w' data snap :
  at_ rest dir s files w → at_ rest dir s' files' w' → f_data <$> files' !! meta = Some data →
  decodeSnapshot Unmarshal data dir = Ok snap → storedRecords w' = <[dir := snap]> (storedRecords w).
Proof.
  intros Hw Hw' Hm Hd. apply map_eq. intros id. destruct (decide (id = dir)) as [->|Hn].
  - rewrite lookup_insert_eq, storedRecords_lookup, (proj2 Hw'). simpl. unfold decodeRecord. simpl.
    rewrite Hm. simpl. by rewrite Hd.
  - rewrite lookup_insert_ne, !storedRecords_lookup by done.
    by rewrite (at_other _ _ _ _ _ _ Hw Hn), (at_other _ _ _ _ _ _ Hw' Hn).
Qed.

Lemma saved_meta files st0 data : f_data <$> saved st files st0 data !! meta = Some data.
Proof. unfold saved. by rewrite lookup_insert_eq. Qed.

Lemma settled_meta files files' : settled files files' → files' !! meta = files !! meta.
Proof.
  intros Hs. rewrite <- (lookup_delete_ne files' tmp meta), <- (lookup_delete_ne files tmp meta) by done. by rewrite Hs.
Qed.

(** The directory an [openSession] found. *)
Lemma openSession_at id w w' :
  openSession st id w = (Ok tt, w') →
  w_tree w' = w_tree w ∧ ∃ s files, at_ (delete id (w_tree w)) id s files w'.
Proof.
  intros He. pose proof (pure_openSession st id w) as Hp. rewrite He in Hp. simpl in Hp. split; [done|].
  unfold openSession in He. unfold mbind at 1, io_bind at 1 in He.
  destruct (validID id w) as [[[]|e] w1] eqn:H1; [|done].
  assert (w_tree w1 = w_tree w) as Ht1 by (pose proof (pure_validID id w) as Hq; by rewrite H1 in Hq).
  unfold mbind at 1, io_bind at 1 in He. destruct (openDirectoryAt id w1) as [[[]|e] w2] eqn:H2; [|done].
  unfold openDirectoryAt, reading, sys in H2. pose proof (nextFault_tree w1) as Hn.
  destruct (nextFault w1) as [flt w3]; simpl in Hn.
  destruct (w_tree w3 !! id) as [[s files|s]|] eqn:Hd; [|by destruct flt..].
  exists s, files. split; rewrite Hp; [done|]. by rewrite <- Ht1, <- Hn.
Qed.

Lemma saveAt_records id data snap rest s files w r w' :
  snap_ID snap = id → encodeSnapshot Marshal snap = Ok data → at_ rest id s files w →
  saveAt st id data w = (r, w') →
  match r with
  | Ok _ => storedRecords w' = <[id := snap]> (storedRecords w)
  | Err _ => storedRecords w' = storedRecords w ∨ storedRecords w' = <[id := snap]> (storedRecords w)
  end ∧ delete id (w_tree w') = rest.
Proof.
  intros <- Henc Hw He. destruct (encodeSnapshot_ok _ _ Henc) as (Hd & _).
  pose proof (triple_saveAt st rest (snap_ID snap) s files data w Hw) as Ht. rewrite He in Ht.
  destruct r as [[]|e].
  - destruct Ht as (st0 & _ & _ & Hw'). split; [|by apply Hw']. by eapply stored_insert, Hd; [..|apply saved_meta].
  - destruct Ht as [(files' & Hs & Hw')|[st0 Hw']]; (split; [|by apply Hw']).
    + left. eapply stored_same; [exact Hw|exact Hw'|]. by rewrite (settled_meta _ _ Hs).
    + right. by eapply stored_insert, Hd; [..|apply saved_meta].
Qed.

Lemma stored_pure w w' : w_tree w' = w_tree w → storedRecords w' = storedRecords w.
Proof. unfold storedRecords. by intros ->. Qed.

(** [Save] writes the record or leaves the old one. *)
Lemma Save_refines snap w r w' :
  Save Marshal st snap w = (r, w') →
  match r with
  | Ok _ => storedRecords w' = <[snap_ID snap := snap]> (storedRecords w)
  | Err _ => storedRecords w' = storedRecords w ∨ storedRecords w' = <[snap_ID snap := snap]> (storedRecords w)
  end.
Proof.
  unfold Save. unfold mbind at 1, io_bind at 1, lift.
  destruct (encodeSnapshot Marshal snap) as [data|e] eqn:Henc; [|intros [= <- <-]; by left].
  unfold mbind at 1, io_bind at 1. pose proof (pure_openRoot st w) as Hp1.
  destruct (openRoot st w) as [[[]|e] w1]; simpl in Hp1; [|intros [= <- <-]; left; by apply stored_pure].
  unfold mbind at 1, io_bind at 1. pose proof (pure_openSession st (snap_ID snap) w1) as Hp2.
  destruct (openSession st (snap_ID snap) w1) as [[[]|e] w2] eqn:H2; simpl in Hp2;
    [|intros [= <- <-]; left; apply stored_pure; by rewrite Hp2].
  destruct (openSession_at _ _ _ H2) as (_ & s & files & Hat). intros He.
  destruct (saveAt_records _ _ _ _ _ _ _ _ _ eq_refl Henc Hat He) as [Hr _].
  rewrite (stored_pure w w2) in Hr by (by rewrite Hp2). done.
Qed.

(** ** Creating a record *)

(** Between [Mkdirat] and the end of [Create] or of its rollback: the other
    entries are [rest], and the new directory is missing, has no record, or has
    the new one. *)
Definition creating (rest : gmap string node) (id : string) (data : list Z) (w : world) : Prop :=
  w_tree w = rest ∨
  ∃ s files, at_ rest id s files w ∧ (f_data <$> files !! meta = None ∨ f_data <$> files !! meta = Some data).

Definition stays (P : world → Prop) {A} (c : io A) : Prop := triple P c (λ _, P) P.

Lemma creating_tree_only rest id data : tree_only (creating rest id data).
Proof.
  intros w w' Hw [Hr|(s & files & Ha & Hm)]; [left; by rewrite Hw|right].
  exists s, files. split; [|done]. by apply (at_tree_only _ _ _ _ w).
Qed.

Lemma stays_bind P {A B} (c : io A) (k : A → io B) : stays P c → (∀ a, stays P (k a)) → stays P (mbind k c).
Proof. intros Hc Hk. by eapply triple_bind. Qed.

Lemma stays_Unlinkat rest id data name : rest !! id = None → stays (creating rest id data) (Unlinkat id name).
Proof.
  intros Hid w [Hr|(s & files & Ha & Hm)].
  - unfold Unlinkat, onDir, sys. pose proof (nextFault_tree w) as Hn. destruct (nextFault w) as [flt w1]; simpl in Hn.
    rewrite Hn, Hr, Hid. destruct flt; left; by rewrite Hn.
  - revert w Ha. apply triple_onDir.
    + intros a s' files' He w Hw. destruct (files !! name); [|done]. destruct (_ =? _)%Z; [done|].
      injection He as <- <- <-. right. exists s, (delete name files). split; [done|].
      destruct (decide (name = meta)) as [->|Hn]; [left; by rewrite lookup_delete_eq|]. by rewrite lookup_delete_ne.
    + intros w Hw. right. by exists s, files.
Qed.

Lemma stays_Rmdirat rest id data : rest !! id = None → stays (creating rest id data) (Rmdirat id).
Proof.
  intros Hid w Hw. unfold Rmdirat, sys.
  pose proof (creating_tree_only _ _ _ w (nextFault w).2 (nextFault_tree w) Hw) as Hw'.
  destruct (nextFault w) as [flt w1]; simpl in Hw'.
  assert (creating rest id data (setTree w1 (delete id (w_tree w1)))) as Hdel.
  { left. simpl. destruct Hw' as [->|(s & files & [Ha _] & _)]; [by apply delete_id|done]. }
  destruct flt; try done; (destruct (w_tree w1 !! id) as [[? ?|?]|]; try done; by destruct (bool_decide _)).
Qed.

Lemma stays_rollback rest id data : rest !! id = None → stays (creating rest id data) (rollbackSessionCreate id).
Proof.
  intros Hid w Hw. unfold rollbackSessionCreate.
  assert (creating rest id data
    (match openDirectoryAt id w with
     | (Ok _, w) => (ignore (Unlinkat id "metadata.json") (ignore (Unlinkat id ".metadata.tmp") w).2).2
     | (Err _, w) => w
     end)) as H1.
  { pose proof (creating_tree_only _ _ _ w (openDirectoryAt id w).2 (pure_reading _ w) Hw) as Hw1.
    destruct (openDirectoryAt id w) as [[[]|e] w1]; [|done]. unfold ignore. simpl in *.
    pose proof (stays_Unlinkat rest id data ".metadata.tmp" Hid w1 Hw1) as Hw2.
    destruct (Unlinkat id ".metadata.tmp" w1) as [r2 w2]. assert (creating rest id data w2) as Hw2' by (by destruct r2).
    pose proof (stays_Unlinkat rest id data "metadata.json" Hid w2 Hw2') as Hw3. simpl.
    destruct (Unlinkat id "metadata.json" w2) as [r3 w3]. by destruct r3. }
  revert H1. generalize (match openDirectoryAt id w with
     | (Ok _, w) => (ignore (Unlinkat id "metadata.json") (ignore (Unlinkat id ".metadata.tmp") w).2).2
     | (Err _, w) => w
     end). intros w1 Hw1.
  pose proof (stays_Rmdirat rest id data Hid w1 Hw1) as Hw2. destruct (Rmdirat id w1) as [r2 w2].
  assert (creating rest id data w2) as Hw2' by (by destruct r2).
  pose proof (creating_tree_only _ _ _ w2 (effectless w2).2 (pure_reading _ w2) Hw2') as Hw3.
  destruct (effectless w2) as [r3 w3]. destruct r2 as [|[[]| | |]], r3; done.
Qed.

Lemma creating_stored rest id data snap w0 w :
  w_tree w0 = rest → rest !! id = None → decodeSnapshot Unmarshal data id = Ok snap → creating rest id data w →
  storedRecords w = storedRecords w0 ∨ storedRecords w = <[id := snap]> (storedRecords w0).
Proof.
  intros Hw0 Hid Hd Hc.
  assert (∀ s files, at_ rest id s files w → ∀ j, j ≠ id → storedRecords w !! j = storedRecords w0 !! j) as Hother.
  { intros s files Ha j Hj. rewrite !storedRecords_lookup. by rewrite (at_other _ _ _ _ _ _ Ha Hj), Hw0. }
  destruct Hc as [Hr|(s & files & Ha & [Hm|Hm])]; [left; apply stored_pure; congruence| |].
  - left. apply map_eq. intros j. destruct (decide (j = id)) as [->|Hn]; [|by eapply Hother].
    rewrite !storedRecords_lookup, (proj2 Ha), Hw0, Hid. simpl. unfold decodeRecord. simpl. by rewrite Hm.
  - right. apply map_eq. intros j. destruct (decide (j = id)) as [->|Hn].
    + rewrite lookup_insert_eq, storedRecords_lookup, (proj2 Ha). simpl. unfold decodeRecord. simpl. rewrite Hm. simpl. by rewrite Hd.
    + rewrite lookup_insert_ne by done. by eapply Hother.
Qed.

(** The directory made and filled. *)
Lemma fillSession_creating rest id data s w :
  rest !! id = None → at_ rest id s ∅ w →
  match fillSession st id data w with
  | (Ok _, w') => ∃ s' files, at_ rest id s' files w' ∧ f_data <$> files !! meta = Some data
  | (Err _, w') => creating rest id data w'
  end.
Proof.
  intros Hid Hw.
  set (Q := λ (_ : unit) w', ∃ s' files, at_ rest id s' files w' ∧ f_data <$> files !! meta = Some data).
  change (match fillSession st id data w with (Ok a, w') => Q a w' | (Err _, w') => creating rest id data w' end).
  assert (∀ s' w', at_ rest id s' ∅ w' → creating rest id data w') as Hempty.
  { intros s' w' Ha. right. exists s', ∅. split; [done|]. left. by rewrite lookup_empty. }
  revert w Hw. unfold fillSession.
  eapply triple_bind; [eapply triple_weaken; [eapply triple_pure; [apply at_tree_only|apply pure_reading]|done|intros ? w Hw; exact Hw|apply Hempty]|intros []].
  eapply triple_bind; [|intros []].
  { eapply triple_weaken with (P := at_ rest id s ∅) (Q := λ _ w, ∃ s', at_ rest id s' ∅ w); [|done|intros ? w Hw; exact Hw|apply (λ w H, H)].
    eapply triple_bind; [eapply triple_onDir with (Q := λ _ w, ∃ s', at_ rest id s' ∅ w)|intros []].
    - intros a s' files' He w Hw. injection He as <- <- <-. by eexists.
    - apply Hempty.
    - intros w [s' Hw]. revert w Hw. apply triple_onDir; [|apply Hempty].
      intros a s2 files' He w Hw. injection He as <- <- <-. by eexists. }
  assert (∀ A (c : io A), pure_ c → triple (Q tt) c (λ _, Q tt) (creating rest id data)) as Hp.
  { intros A c Hc. eapply triple_weaken; [eapply (triple_pure (Q tt)); [|exact Hc]|done|done|].
    - intros w w' Ht (s' & files & Ha & Hm). exists s', files. split; [|done]. by apply (at_tree_only _ _ _ _ w).
    - intros w (s' & files & Ha & Hm). right. exists s', files. by split; [|right]. }
  eapply (triple_bind _ _ Q); [|intros []].
  { intros w [s' Hw]. pose proof (triple_saveAt st rest id s' ∅ data w Hw) as Ht.
    destruct (saveAt st id data w) as [[[]|e] w'].
    - destruct Ht as (st0 & _ & _ & Ha). exists s', (saved st ∅ st0 data). split; [exact Ha|apply saved_meta].
    - right. destruct Ht as [(files' & Hs & Ha)|[st0 Ha]].
      + exists s', files'. split; [done|]. left. by rewrite (settled_meta _ _ Hs), lookup_empty.
      + exists s', (saved st ∅ st0 data). split; [done|]. right. apply saved_meta. }
  eapply triple_bind; [apply Hp, pure_reading|intros []].
  eapply triple_bind; [apply Hp, pure_reading|intros []].
  apply Hp, pure_verifyRootPathIdentity.
Qed.

(** [Create] adds a new record; if it fails, the record was rolled back or, when
    the rollback failed too, is there. *)
Lemma Create_refines snap w r w' :
  Create Marshal st snap w = (r, w') →
  match r with
  | Ok _ => w_tree w !! snap_ID snap = None ∧ storedRecords w' = <[snap_ID snap := snap]> (storedRecords w)
  | Err _ => storedRecords w' = storedRecords w ∨ storedRecords w' = <[snap_ID snap := snap]> (storedRecords w)
  end.
Proof.
  unfold Create. unfold mbind at 1, io_bind at 1, lift.
  destruct (encodeSnapshot Marshal snap) as [data|e] eqn:Henc; [|intros [= <- <-]; by left].
  destruct (encodeSnapshot_ok _ _ Henc) as (Hd & _).
  unfold mbind at 1, io_bind at 1. pose proof (pure_openRoot st w) as Hp1.
  destruct (openRoot st w) as [[[]|e] w1]; simpl in Hp1; [|intros [= <- <-]; left; by apply stored_pure].
  unfold mbind, io_bind. destruct (Mkdirat (snap_ID snap) sessionDirMode w1) as [r2 w2] eqn:H2.
  unfold Mkdirat, sys in H2. pose proof (nextFault_tree w1) as Hn. destruct (nextFault w1) as [flt w3]; simpl in Hn.
  assert ((∃ e, r2 = Err e ∧ w2 = w3) ∨
          (r2 = Ok tt ∧ w_tree w3 !! snap_ID snap = None ∧ ∃ s, at_ (w_tree w) (snap_ID snap) s ∅ w2)) as [(e & -> & ->)|(-> & Hid & s & Ha)].
  { destruct flt; try (left; injection H2 as <- <-; by eexists);
      (destruct (w_tree w3 !! snap_ID snap) eqn:Hid; [left; injection H2 as <- <-; by eexists|]);
      right; injection H2 as <- <-; (split; [done|]); (split; [done|]); eexists; (split; simpl; [|by rewrite lookup_insert_eq]);
      rewrite delete_insert_id by done; by rewrite Hn, Hp1. }
  { intros [= <- <-]. left. apply stored_pure. by rewrite Hn, Hp1. }
  rewrite Hn, Hp1 in Hid. unfold orRollback.
  pose proof (fillSession_creating (w_tree w) (snap_ID snap) data s w2 Hid Ha) as Hf.
  destruct (fillSession st (snap_ID snap) data w2) as [[[]|e] w4].
  - intros [= <- <-]. split; [done|]. destruct Hf as (s' & files & Ha' & Hm).
    assert (creating (w_tree w) (snap_ID snap) data w4) as Hc by (right; exists s', files; by split; [|right]).
    apply map_eq. intros j. destruct (decide (j = snap_ID snap)) as [->|Hj].
    + rewrite lookup_insert_eq, storedRecords_lookup, (proj2 Ha'). simpl. unfold decodeRecord. simpl. rewrite Hm. simpl. by rewrite Hd.
    + rewrite lookup_insert_ne, !storedRecords_lookup by done. by rewrite (at_other _ _ _ _ _ _ Ha' Hj).
  - pose proof (stays_rollback (w_tree w) (snap_ID snap) data Hid w4 Hf) as Hr.
    destruct (rollbackSessionCreate (snap_ID snap) w4) as [[[]|e'] w5]; intros [= <- <-];
      by apply (creating_stored (w_tree w) (snap_ID snap) data).
Qed.

(** ** Removing a record *)

Lemma pure_run {A} (c : io A) w r w' : pure_ c → c w = (r, w') → w_tree w' = w_tree w.
Proof. intros Hc He. specialize (Hc w). by rewrite He in Hc. Qed.

Lemma bind_ok {A B} (c : io A) (k : A → io B) w b w' :
  mbind k c w = (Ok b, w') → ∃ a w1, c w = (Ok a, w1) ∧ k a w1 = (Ok b, w').
Proof. unfold mbind, io_bind. destruct (c w) as [[a|e] w1]; [|done]. intros He. by exists a, w1. Qed.

Lemma openSession_missing id w e w' :
  openSession st id w = (Err e, w') → isNotExist e = true → w_tree w !! id = None.
Proof.
  unfold openSession. unfold mbind at 1, io_bind at 1. destruct (validID id w) as [[[]|e1] w1] eqn:H1.
  2:{ intros [= <- <-]. unfold validID in H1. destruct (ValidateID id); [done|]. by injection H1 as <- _. }
  apply pure_run in H1; [|apply pure_validID]. rewrite <- H1.
  unfold mbind at 1, io_bind at 1. destruct (openDirectoryAt id w1) as [[[]|e2] w2] eqn:H2.
  - pose proof (pure_run _ _ _ _ (pure_reading _) H2) as Ht.
    unfold openDirectoryAt, reading, sys in H2. pose proof (nextFault_tree w1) as Hn.
    destruct (nextFault w1) as [flt w3]; simpl in Hn. rewrite Hn in H2.
    destruct (w_tree w1 !! id) as [[s files|s]|] eqn:Hd; [|by destruct flt..].
    unfold verifySessionFD, mbind, io_bind. destruct (Fstat id w2) as [[y|e3] w4] eqn:H4.
    + unfold lift, verifyOwnedDirectory. destruct (negb _); [intros [= <- _]; done|].
      destruct (_ || _); [intros [= <- _]; done|]. destruct (negb _); [intros [= <- _]; done|done].
    + intros [= <- _] He. unfold Fstat, readDir, reading, sys in H4. pose proof (nextFault_tree w2) as Hn2.
      destruct (nextFault w2) as [flt2 w5]; simpl in Hn2. rewrite Hn2, Ht, Hd in H4.
      destruct flt2; [done| |done]. by injection H4 as <- _.
  - intros [= <- <-] He. unfold openDirectoryAt, reading, sys in H2. pose proof (nextFault_tree w1) as Hn.
    destruct (nextFault w1) as [flt w3]; simpl in Hn. rewrite Hn in H2.
    destruct (w_tree w1 !! id) as [[s files|s]|] eqn:Hd; [| |done].
    + destruct flt; [done| |done]. by injection H2 as <- _.
    + destruct flt; by injection H2 as <- _.
Qed.

Lemma onDir_frame {A} dir (f : stat → gmap string file → result errno (A * (stat * gmap string file))) w r w' :
  onDir dir f w = (r, w') → delete dir (w_tree w') = delete dir (w_tree w).
Proof.
  unfold onDir, sys. pose proof (nextFault_tree w) as Hn. destruct (nextFault w) as [flt w1]; simpl in Hn.
  destruct flt; try (intros [= <- <-]; by rewrite Hn);
    (destruct (w_tree w1 !! dir) as [[s1 files1|?]|]; [|intros [= <- <-]; by rewrite Hn..]);
    (destruct (f s1 files1) as [[a [s' files']]|e]; intros [= <- <-]; simpl; rewrite ?delete_insert_eq; by rewrite Hn).
Qed.

Lemma unlinkEntries_frame dir names w r w' :
  unlinkEntries dir names w = (r, w') → delete dir (w_tree w') = delete dir (w_tree w).
Proof.
  revert w. induction names as [|n names IH]; intros w He; cbn [unlinkEntries] in He; [by injection He as <- <-|].
  destruct (Unlinkat dir n w) as [r1 w1] eqn:H1. apply onDir_frame in H1. rewrite <- H1.
  destruct r1 as [[]|[[]| | |]]; try (by injection He as <- <-); by apply IH.
Qed.

Lemma Rmdirat_ok name w w' : Rmdirat name w = (Ok tt, w') → w_tree w' = delete name (w_tree w).
Proof.
  unfold Rmdirat, sys. pose proof (nextFault_tree w) as Hn. destruct (nextFault w) as [flt w1]; simpl in Hn.
  destruct flt; try done; (destruct (w_tree w1 !! name) as [[? ?|?]|]; try done);
    (destruct (bool_decide _); [|done]); intros [= <-]; simpl; by rewrite Hn.
Qed.

Lemma ensureMissing_ok name w w' : ensureMissingAt name w = (Ok tt, w') → w_tree w !! name = None.
Proof.
  unfold ensureMissingAt, FstatatRoot, reading, sys. pose proof (nextFault_tree w) as Hn.
  destruct (nextFault w) as [flt w1]; simpl in Hn. rewrite <- Hn.
  destruct flt; try done; by destruct (w_tree w1 !! name).
Qed.

Lemma RenameatRoot_ok from to w w' :
  RenameatRoot from to w = (Ok tt, w') → ∃ n, w_tree w' = <[to := n]> (delete from (w_tree w)).
Proof.
  unfold RenameatRoot, sys. pose proof (nextFault_tree w) as Hn. destruct (nextFault w) as [flt w1]; simpl in Hn.
  destruct flt; try done; (destruct (w_tree w1 !! from) as [n|]; [|done]);
    (destruct (w_tree w1 !! to) as [[? ?|?]|]; [destruct (bool_decide _); [|done]|done|]);
    intros [= <-]; exists n; simpl; by rewrite Hn.
Qed.

(** [Remove] takes the session's directory away and leaves the rest. *)
Lemma Remove_refines id w w' : Remove st id w = (Ok tt, w') → w_tree w' = delete id (w_tree w).
Proof.
  unfold Remove. intros ([] & w1 & H1 & He)%bind_ok. apply pure_run in H1; [|apply pure_validID].
  apply bind_ok in He as ([] & w2 & H2 & He). apply pure_run in H2; [|apply pure_openRoot].
  assert (w_tree w2 = w_tree w) as Ht by congruence. rewrite <- Ht. clear H1 H2 Ht. revert He. unfold unlessMissing.
  destruct (openSession st id w2) as [[[]|e] w3] eqn:H3.
  2:{ destruct (isNotExist e) eqn:Hm; [|done]. intros [= <-]. rewrite delete_id; [|by eapply openSession_missing].
      by apply pure_run in H3; [|apply pure_openSession]. }
  apply pure_run in H3; [|apply pure_openSession]. rewrite <- H3. unfold isolateAndDestroy. clear H3 w2.
  intros (entries & w4 & H4 & He)%bind_ok. apply pure_run in H4; [|apply pure_verifySessionEntries].
  apply bind_ok in He as ([] & w5 & H5 & He). pose proof (ensureMissing_ok _ _ _ H5) as Hmiss.
  apply pure_run in H5; [|apply pure_ensureMissingAt].
  apply bind_ok in He as ([] & w6 & H6 & He). apply RenameatRoot_ok in H6 as [n H6].
  apply bind_ok in He as ([] & w7 & H7 & He).
  assert (w_tree w' = w_tree w7) as ->.
  { apply bind_ok in He as ([] & w8 & H8 & He). apply pure_run in H8; [|apply pure_reading].
    apply pure_run in He; [|apply pure_verifyRootPathIdentity]. congruence. }
  unfold onError in H7. destruct (destroyIsolated st id entries w6) as [[[]|e] w9] eqn:H9; [|done].
  injection H7 as <-. unfold destroyIsolated in H9.
  apply bind_ok in H9 as ([] & w10 & Ha & H9). apply pure_run in Ha; [|apply pure_reading].
  apply bind_ok in H9 as ([] & w11 & Hb & H9). apply pure_run in Hb; [|apply pure_verifyRootPathIdentity].
  apply bind_ok in H9 as ([] & w12 & Hc & H9). apply unlinkEntries_frame in Hc. apply Rmdirat_ok in H9.
  rewrite H9, Hc, Hb, Ha, H6, delete_insert_eq, H5, H4, delete_id; [done|].
  rewrite lookup_delete_ne; [by rewrite <- H4|]. unfold removingName. intros Heq.
  apply (f_equal String.length) in Heq. rewrite append_length in Heq. simpl in Heq. lia.
Qed.

(** ** Loading what was saved *)

(** The root's path leads to the pinned directory, as it was recorded. *)
Definition rootInPlace (w : world) : Prop :=
  ∃ found, w_path w = Some found ∧ verifyOwnedDirectory found (so_uid st) (so_gid st) runtimeRootMode = Ok tt ∧
    st_Dev found = so_dev st ∧ st_Ino found = so_ino st.

Lemma reading_calm {A} (op : world → result errno A) w :
  w_faults w = [] → reading op w = (match op w with Ok a => Ok a | Err e => Err (Sys e) end, w).
Proof. intros Hf. unfold reading, sys, nextFault. rewrite Hf. destruct (op w); [|done]. by destruct w. Qed.

Lemma bind_run {A B} (c : io A) (k : A → io B) w a : c w = (Ok a, w) → mbind k c w = k a w.
Proof. intros Hc. unfold mbind, io_bind. by rewrite Hc. Qed.

Lemma openRoot_calm w : w_faults w = [] → rootInPlace w → openRoot st w = (Ok tt, w).
Proof.
  intros Hf (found & Hp & Hv & Hd & Hi). unfold openRoot, openAbsoluteDirectory.
  rewrite (bind_run _ _ w found) by (rewrite reading_calm by done; by rewrite Hp).
  rewrite (bind_run _ _ w found) by (rewrite reading_calm by done; by rewrite Hp).
  rewrite (bind_run _ _ w tt) by (unfold lift; by rewrite Hv).
  by rewrite Hd, Hi, !Z.eqb_refl.
Qed.

Lemma savedFile_ok st0 data :
  fileType st0 = S_IFREG → st_Nlink st0 = 1%Z →
  verifyOwnedRegular (f_stat (savedFile st st0 data)) (so_uid st) (so_gid st) metadataMode = Ok tt.
Proof.
  intros Hty Hnl. unfold verifyOwnedRegular, savedFile, ownedStat, withMode, withOwner, fileType, permissions in *. simpl.
  rewrite Hty, Hnl, !Z.eqb_refl. done.
Qed.

(** The directory a save leaves passes the checks of a load. *)
Lemma saved_entries files st0 data n x :
  (∀ n x, files !! n = Some x → entryOk (so_uid st) (so_gid st) true n x) →
  fileType st0 = S_IFREG → st_Nlink st0 = 1%Z → saved st files st0 data !! n = Some x →
  entryOk (so_uid st) (so_gid st) false n x.
Proof.
  intros Hall Hty Hnl Hx. unfold saved in Hx. apply lookup_insert_Some in Hx as [[<- <-]|[Hn Hx]].
  - unfold entryOk. rewrite bool_decide_eq_false_2 by (unfold documentedSessionDirectories, meta; set_solver).
    split; [by left|]. by apply savedFile_ok.
  - apply lookup_delete_Some in Hx as [Ht Hx]. specialize (Hall n x Hx). unfold entryOk in *.
    destruct (bool_decide _); [done|]. destruct Hall as [[->|[_ ->]] Hr]; done.
Qed.

Lemma Load_saved snap data rest s files st0 w :
  encodeSnapshot Marshal snap = Ok data → at_ rest (snap_ID snap) s (saved st files st0 data) w →
  w_faults w = [] → rootInPlace w → verifyOwnedDirectory s (so_uid st) (so_gid st) sessionDirMode = Ok tt →
  (∀ n x, files !! n = Some x → entryOk (so_uid st) (so_gid st) true n x) →
  fileType st0 = S_IFREG → st_Nlink st0 = 1%Z →
  Load Unmarshal st (snap_ID snap) w = (Ok snap, w).
Proof.
  intros Henc Ha Hf Hroot Hv Hall Hty Hnl. destruct (encodeSnapshot_ok _ _ Henc) as (Hd & Hne & Hlen).
  assert (validID (snap_ID snap) w = (Ok tt, w)) as Hid.
  { unfold encodeSnapshot in Henc. destruct (validateSnapshot snap) as [[]|] eqn:Hs; [|done].
    unfold validateSnapshot in Hs. destruct (negb _); [done|]. unfold validID. by destruct (ValidateID (snap_ID snap)). }
  assert (∀ A (f : stat → gmap string file → result errno A),
    readDir (snap_ID snap) f w = (match f s (saved st files st0 data) with Ok a => Ok a | Err e => Err (Sys e) end, w)) as Hread.
  { intros A f. by apply (proj2 (readDir_at _ _ _ _ f _ Ha)). }
  assert (saved st files st0 data !! meta = Some (savedFile st st0 data)) as Hmeta by apply lookup_insert_eq.
  unfold Load. rewrite (bind_run _ _ w tt Hid), (bind_run _ _ w tt (openRoot_calm w Hf Hroot)).
  rewrite (bind_run _ _ w snap).
  2:{ unfold loadAt. rewrite (bind_run _ _ w tt).
      2:{ unfold openSession. rewrite (bind_run _ _ w tt Hid).
          rewrite (bind_run _ _ w tt) by (unfold openDirectoryAt; rewrite reading_calm by done; by rewrite (proj2 Ha)).
          unfold verifySessionFD, Fstat. rewrite (bind_run _ _ w s) by apply Hread. unfold lift. by rewrite Hv. }
      rewrite (bind_run _ _ w (merge_sort string_le (map fst (map_to_list (saved st files st0 data))))).
      2:{ unfold verifySessionEntries. rewrite (bind_run _ _ w (map fst (map_to_list (saved st files st0 data)))).
          2:{ unfold readDirectoryNames. rewrite (bind_run _ _ w tt) by (unfold effectless; by rewrite reading_calm). apply Hread. }
          rewrite (bind_run _ _ w tt); [done|]. apply (verifyEntries_complete _ _ _ _ _ _ _ _ _ Ha Hf).
          intros n ([i x] & -> & Hin)%list_elem_of_fmap. apply elem_of_map_to_list in Hin. exists x. split; [done|].
          by apply (saved_entries files st0 data). }
      assert (containsName (merge_sort string_le (map fst (map_to_list (saved st files st0 data)))) "metadata.json" = true) as ->.
      { apply existsb_exists. exists meta. split; [|done]. apply list_elem_of_In.
        rewrite merge_sort_Permutation. apply list_elem_of_fmap. exists (meta, savedFile st st0 data).
        split; [done|]. by apply elem_of_map_to_list. }
      cbn [negb]. change "metadata.json" with meta.
      rewrite (bind_run _ _ w tt).
      2:{ unfold openRegularAt, Fstatat. rewrite (bind_run _ _ w (f_stat (savedFile st st0 data))) by (rewrite Hread; by rewrite Hmeta).
          unfold lift. by rewrite savedFile_ok. }
      rewrite (bind_run _ _ w (len data)) by (rewrite Hread; by rewrite Hmeta).
      rewrite (proj2 (Z.ltb_ge _ _)) by (unfold len; destruct data; [done|]; simpl; lia).
      rewrite (proj2 (Z.ltb_ge maxMetadataSize (len data))) by lia. cbn [orb].
      rewrite (bind_run _ _ w data) by (unfold ReadAll; rewrite Hread; by rewrite Hmeta).
      rewrite (proj2 (Z.ltb_ge maxMetadataSize (len data))) by lia. unfold lift. by rewrite Hd. }
  rewrite (bind_run _ _ w tt); [done|]. unfold verifyRootPathIdentity.
  rewrite (bind_run _ _ w tt (openRoot_calm w Hf Hroot)). unfold effectless. by rewrite reading_calm.
Qed.

Lemma Save_then_Load snap w w' :
  Save Marshal st snap w = (Ok tt, w') → w_faults w' = [] → rootInPlace w' →
  Load Unmarshal st (snap_ID snap) w' = (Ok snap, w').
Proof.
  unfold Save. intros (data & w1 & H1 & He)%bind_ok. injection H1 as Henc <-.
  apply bind_ok in He as ([] & w2 & _ & He). apply bind_ok in He as ([] & w3 & H3 & He).
  destruct (openSession_at _ _ _ H3) as (_ & s & files & Ha).
  destruct (saveAt_checked _ _ _ _ _ _ _ _ Ha He) as [Hv Hall].
  pose proof (triple_saveAt st _ _ s files data w3 Ha) as Ht. rewrite He in Ht. destruct Ht as (st0 & Hty & Hnl & Ha').
  intros Hf Hroot. by eapply Load_saved.
Qed.

(** ** The store as the manager's store *)

Definition exported {A} (r : result store_error A) : result session_error A :=
  match r with
  | Ok a => Ok a
  | Err (Invalid e) => Err e
  | Err _ => Err (ErrMessage "volatile session store")
  end.

Definition exportIO {A} (c : io A) (w : world) : result session_error A * world :=
  let '(r, w) := c w in (exported r, w).

#[local] Instance fileStore : StoreOps world := {|
  store_Create snap := exportIO (Create Marshal st snap);
  store_Save snap := exportIO (Save Marshal st snap);
  store_Remove id := exportIO (Remove st id)
|}.

#[local] Instance fileHost : HostOps world := {|
  host_now w := (w_clock w, mkWorld (w_faults w) (w_path w) (w_tree w) (w_euid w) (w_egid w) (w_umask w) (w_clock w + 1) (w_ids w));
  host_newID w := match w_ids w with
                  | [] => (Err (ErrMessage "no identifier"), w)
                  | id :: ids => (Ok id, mkWorld (w_faults w) (w_path w) (w_tree w) (w_euid w) (w_egid w) (w_umask w) (w_clock w) ids)
                  end
|}.

Lemma exportIO_ok {A} (c : io A) w a w' : exportIO c w = (Ok a, w') → c w = (Ok a, w').
Proof. unfold exportIO. destruct (c w) as [[b|[| | |]] w1]; intros [= <- <-]; done. Qed.

Lemma exportIO_err {A} (c : io A) w e w' : exportIO c w = (Err e, w') → ∃ e', c w = (Err e', w').
Proof. unfold exportIO. destruct (c w) as [[b|e'] w1]; [done|]. intros [= _ <-]. by exists e'. Qed.

Lemma storedRecords_delete w w' id : w_tree w' = delete id (w_tree w) → storedRecords w' = delete id (storedRecords w).
Proof.
  intros Ht. apply map_eq. intros j. destruct (decide (j = id)) as [->|Hn].
  - by rewrite storedRecords_lookup, Ht, !lookup_delete_eq.
  - by rewrite lookup_delete_ne, !storedRecords_lookup, Ht, lookup_delete_ne by done.
Qed.

(** The store keeps the contract the session manager is proved against. *)
#[local] Instance fileStoreSpec : StoreSpec world.
Proof.
  refine {| stored := storedRecords |}.
  - intros snap w w' He%exportIO_ok. exact (Save_refines _ _ _ _ He).
  - intros snap w e w' [e' He]%exportIO_err. exact (Save_refines _ _ _ _ He).
  - intros id w w' He%exportIO_ok. by apply storedRecords_delete, Remove_refines.
  - done.
Defined.

(** C12: the store implements the contract of an atomic map from session
    identifiers to records, under any sequence of failing system calls and
    replacements of the root's path.  A save that succeeds stores exactly the
    record, which a load then returns; one that fails keeps the old record or has
    stored the new one, never a torn or a foreign one; a create succeeds only for
    an unused name and stores the record; a remove that succeeds deletes exactly
    that session's entry from the root. *)
Theorem store_refines_map snap id w r w' :
  (Save Marshal st snap w = (r, w') →
     match r with
     | Ok _ => storedRecords w' = <[snap_ID snap := snap]> (storedRecords w) ∧
               (w_faults w' = [] → rootInPlace w' → Load Unmarshal st (snap_ID snap) w' = (Ok snap, w'))
     | Err _ => storedRecords w' = storedRecords w ∨ storedRecords w' = <[snap_ID snap := snap]> (storedRecords w)
     end) ∧
  (Create Marshal st snap w = (r, w') →
     match r with
     | Ok _ => w_tree w !! snap_ID snap = None ∧ storedRecords w' = <[snap_ID snap := snap]> (storedRecords w)
     | Err _ => storedRecords w' = storedRecords w ∨ storedRecords w' = <[snap_ID snap := snap]> (storedRecords w)
     end) ∧
  (Remove st id w = (Ok tt, w') →
     w_tree w' = delete id (w_tree w) ∧ storedRecords w' = delete id (storedRecords w)).
Proof.
  split_and!.
  - intros He. pose proof (Save_refines _ _ _ _ He) as Hr. destruct r as [[]|e]; [|done].
    split; [done|]. by apply Save_then_Load with (w := w).
  - apply Create_refines.
  - intros He. pose proof (Remove_refines _ _ _ He) as Ht. split; [done|]. by apply storedRecords_delete.
Qed.

End Refinement.

(** ** Witness: two records and a disk that fails in the middle of a write *)

#[local] Instance Event_eq_dec : EqDecision Event.
Proof. solve_decision. Defined.

#[local] Instance Snapshot_eq_dec : EqDecision Snapshot.
Proof. solve_decision. Defined.

Definition demoNew : Snapshot := snapshotOf (demoCreated RoleDownloader).
Definition demoLater : Snapshot := snapshotOf demoActive.

Definition demoMarshal (snap : Snapshot) : option (list Z) :=
  if bool_decide (snap = demoNew) then Some [110; 101; 119]%Z
  else if bool_decide (snap = demoLater) then Some [108; 97; 116; 101; 114]%Z else None.

Definition demoUnmarshal (data : list Z) : option Snapshot :=
  if bool_decide (data = [110; 101; 119]%Z) then Some demoNew
  else if bool_decide (data = [108; 97; 116; 101; 114]%Z) then Some demoLater else None.

#[local] Instance demoCodec : Codec demoMarshal demoUnmarshal.
Proof.
  unfold demoMarshal. split; intros snap data.
  - intros _. repeat case_bool_decide; [..|done]; intros [= <-]; by subst.
  - repeat case_bool_decide; [..|done]; by intros [= <-].
Qed.

Definition demoStore : Store := mkStore 990 990 8 2.
Definition demoDisk (faults : list fault) : world :=
  mkWorld faults (Some (mkStat 0x41e8 990 990 3 8 2)) ∅ 990 990 0x12 7 [].

(** A created session, and a save of a later state that fails in its write:
    the old record is still the one on disk. *)
Definition demoFilled : world := (Create demoMarshal demoStore demoNew (demoDisk [])).2.
Definition demoTorn : world :=
  mkWorld (replicate 11 Fine ++ [Fails 2]) (w_path demoFilled) (w_tree demoFilled) 990 990 0x12 7 [].

Lemma store_refines_map_witness :
  (∃ e w', Save demoMarshal demoStore demoLater demoTorn = (Err e, w') ∧
     (storedRecords demoUnmarshal w' = storedRecords demoUnmarshal demoTorn ∨
      storedRecords demoUnmarshal w' = <[snap_ID demoLater := demoLater]> (storedRecords demoUnmarshal demoTorn))) ∧
  storedRecords demoUnmarshal (Save demoMarshal demoStore demoLater demoTorn).2 !! demoID = Some demoNew.
Proof.
  split; [|by vm_compute].
  destruct (Save demoMarshal demoStore demoLater demoTorn) as [r w'] eqn:He.
  assert ((Save demoMarshal demoStore demoLater demoTorn).1 = Err (Sys EIO)) as Hr by (by vm_compute).
  rewrite He in Hr. simpl in Hr. subst r. exists (Sys EIO), w'. split; [done|].
  exact (proj1 (store_refines_map demoMarshal demoUnmarshal demoStore demoLater "" demoTorn (Err (Sys EIO)) w') He).
Defined.
