(* ===== verification/Capacity.v ===== *)
(** * The capacity pool

    Models [src/internal/storage/planner.go]: the scratch-mode planner, the pool
    that reserves one immutable host snapshot between sessions, and the parsers
    of the host evidence ([/proc/meminfo], [/proc/swaps], statfs).  A
    [*CapacityReservation] is shared between the pool's map and its holder, so
    the pool keeps a heap of reservations and the map holds references. *)

From Stdlib Require Import ZArith Lia Ascii.
From stdpp Require Import strings base tactics option gmap fin_maps relations list.
From S2P Require Import Prelude GoText.

Open Scope string_scope.
Open Scope list_scope.

(** ** Data *)

Inductive ScratchMode := ScratchModeRAM | ScratchModeLUKS.

#[global] Instance ScratchMode_eq_dec : EqDecision ScratchMode.
Proof. solve_decision. Defined.

Record HostCapacity := mkHost {
  TotalRAMBytes : Z;
  AvailableRAMBytes : Z;
  RuntimeFreeBytes : Z;
  ScratchFreeBytes : Z;
  RuntimeIsTmpfs : bool;
  DiskBackedSwap : bool
}.

Record CapacityRequest := mkRequest {
  GuestRAMBytes : Z;
  ExpectedWritesBytes : Z;
  SmallScratchMax : Z
}.

Record CapacityPlan := mkPlan {
  plan_Mode : ScratchMode;
  plan_HostReserveBytes : Z;
  plan_ReservedBytes : Z
}.

Record CapacityReservation := mkReservation {
  r_sessionID : string;
  r_plan : CapacityPlan;
  r_ramBytes : Z;
  r_runtimeBytes : Z;
  r_scratchBytes : Z;
  r_released : bool
}.

Record CapacityPool := mkPool {
  p_host : HostCapacity;
  p_reservations : gmap string nat;
  p_ramBytes : Z;
  p_runtimeBytes : Z;
  p_scratchBytes : Z;
  p_heap : gmap nat CapacityReservation;
  p_next : nat
}.

(** The errors, one per message. *)
Inductive capacity_error :=
| PoolEvidence | SessionRequired | AlreadyReserved
| MemoryExceeds | RuntimeExceeds | ScratchExceeds
| ReservationOverflow | MemoryOverflow | RuntimeOverflow | ScratchOverflow
| ReservationInvalid | OwnershipInconsistent | RemainsActive
| SwapBlocks | RuntimeNotTmpfs | ZeroInputs | NoCapacity
| MemoryMalformed | MemoryDuplicate | MemoryIncomplete | MemoryUnavailable
| SwapHeader | SwapEntry | SwapUnavailable | PathsRejected | RuntimeUnavailable | ScratchUnavailable.

(** [^pvm-[a-f0-9]{32}$] *)
Definition storageSessionPattern (s : string) : bool := match_prefix_exact "pvm-" is_lower_hex 32 s.

(** ** Arithmetic *)

Definition addCapacity (left right : Z) : Z * bool :=
  let result := add64 left right in (result, (left <=? result)%Z).

Definition subtractCapacity (total used : Z) : Z * bool :=
  if (total <? used)%Z then (0%Z, false) else (sub64 total used, true).

Definition add3 (a b c : Z) : Z * bool :=
  let first := add64 a b in
  if (first <? a)%Z then (0%Z, true)
  else let result := add64 first c in (result, (result <? first)%Z).

#[global] Arguments addCapacity : simpl never.
#[global] Arguments add3 : simpl never.

(** ** The planner *)

Definition minimumReserve : Z := 4294967296.

Definition hostReserve (total : Z) : Z :=
  let reserve := (total / 5)%Z in if (reserve <? minimumReserve)%Z then minimumReserve else reserve.

Definition PlanCapacity (host : HostCapacity) (request : CapacityRequest)
  : result capacity_error CapacityPlan :=
  fail_if (DiskBackedSwap host) with SwapBlocks ;;
  fail_if (negb (RuntimeIsTmpfs host)) with RuntimeNotTmpfs ;;
  fail_if ((TotalRAMBytes host =? 0)%Z || (AvailableRAMBytes host =? 0)%Z ||
           (TotalRAMBytes host <? AvailableRAMBytes host)%Z || (GuestRAMBytes request =? 0)%Z ||
           (ExpectedWritesBytes request =? 0)%Z || (SmallScratchMax request =? 0)%Z) with ZeroInputs ;;
  let reserve := hostReserve (TotalRAMBytes host) in
  let '(ramRequired, overflow) := add3 (GuestRAMBytes request) (ExpectedWritesBytes request) reserve in
  if negb overflow && (ExpectedWritesBytes request <=? SmallScratchMax request)%Z &&
     (ramRequired <=? AvailableRAMBytes host)%Z && (ExpectedWritesBytes request <=? RuntimeFreeBytes host)%Z
  then Ok (mkPlan ScratchModeRAM reserve (ExpectedWritesBytes request))
  else
    let '(guestRequired, guestOK) := addCapacity (GuestRAMBytes request) reserve in
    if guestOK && (guestRequired <=? AvailableRAMBytes host)%Z &&
       (ExpectedWritesBytes request <=? ScratchFreeBytes host)%Z
    then Ok (mkPlan ScratchModeLUKS reserve (ExpectedWritesBytes request))
    else Err NoCapacity.

(** ** The pool *)

Definition NewCapacityPool (host : HostCapacity) : result capacity_error CapacityPool :=
  fail_if (DiskBackedSwap host || negb (RuntimeIsTmpfs host) || (TotalRAMBytes host =? 0)%Z ||
           (AvailableRAMBytes host =? 0)%Z || (TotalRAMBytes host <? AvailableRAMBytes host)%Z ||
           ((RuntimeFreeBytes host =? 0)%Z && (ScratchFreeBytes host =? 0)%Z)) with PoolEvidence ;;
  Ok (mkPool host ∅ 0 0 0 ∅ 0).

Definition withSums (p : CapacityPool) (ram runtime scratch : Z) : CapacityPool :=
  mkPool (p_host p) (p_reservations p) ram runtime scratch (p_heap p) (p_next p).

(** The amounts the chosen mode reserves. *)
Definition reservationFor (sessionID : string) (request : CapacityRequest) (plan : CapacityPlan)
  : result capacity_error CapacityReservation :=
  match plan_Mode plan with
  | ScratchModeRAM =>
      let '(ram, ok) := addCapacity (GuestRAMBytes request) (ExpectedWritesBytes request) in
      fail_if (negb ok) with ReservationOverflow ;;
      Ok (mkReservation sessionID plan ram (ExpectedWritesBytes request) 0 false)
  | ScratchModeLUKS =>
      Ok (mkReservation sessionID plan (GuestRAMBytes request) 0 (ExpectedWritesBytes request) false)
  end.

(** The three sums are updated in turn; a failed addition leaves the wrapped
    sum behind, as the assignment [p.ramBytes, ok = ...] does. *)
Definition commitReservation (p : CapacityPool) (sessionID : string) (r : CapacityReservation)
  : result capacity_error nat * CapacityPool :=
  let '(ram, ok) := addCapacity (p_ramBytes p) (r_ramBytes r) in
  let p := withSums p ram (p_runtimeBytes p) (p_scratchBytes p) in
  if negb ok then (Err MemoryOverflow, p)
  else
    let '(runtime, ok) := addCapacity (p_runtimeBytes p) (r_runtimeBytes r) in
    let p := withSums p (p_ramBytes p) runtime (p_scratchBytes p) in
    if negb ok then
      (Err RuntimeOverflow, withSums p (sub64 (p_ramBytes p) (r_ramBytes r)) runtime (p_scratchBytes p))
    else
      let '(scratch, ok) := addCapacity (p_scratchBytes p) (r_scratchBytes r) in
      let p := withSums p (p_ramBytes p) (p_runtimeBytes p) scratch in
      if negb ok then
        (Err ScratchOverflow,
         withSums p (sub64 (p_ramBytes p) (r_ramBytes r)) (sub64 (p_runtimeBytes p) (r_runtimeBytes r)) scratch)
      else
        (Ok (p_next p),
         mkPool (p_host p) (<[sessionID := p_next p]> (p_reservations p))
           (p_ramBytes p) (p_runtimeBytes p) (p_scratchBytes p)
           (<[p_next p := r]> (p_heap p)) (S (p_next p))).

(** What remains of the snapshot. *)
Definition effectiveHost (p : CapacityPool) : result capacity_error HostCapacity :=
  let host := p_host p in
  let '(ram, ok) := subtractCapacity (AvailableRAMBytes host) (p_ramBytes p) in
  fail_if (negb ok) with MemoryExceeds ;;
  let '(runtime, ok) := subtractCapacity (RuntimeFreeBytes host) (p_runtimeBytes p) in
  fail_if (negb ok) with RuntimeExceeds ;;
  let '(scratch, ok) := subtractCapacity (ScratchFreeBytes host) (p_scratchBytes p) in
  fail_if (negb ok) with ScratchExceeds ;;
  Ok (mkHost (TotalRAMBytes host) ram runtime scratch (RuntimeIsTmpfs host) (DiskBackedSwap host)).

Definition Reserve (p : CapacityPool) (sessionID : string) (request : CapacityRequest)
  : result capacity_error nat * CapacityPool :=
  if negb (storageSessionPattern sessionID) then (Err SessionRequired, p)
  else
    match p_reservations p !! sessionID with
    | Some _ => (Err AlreadyReserved, p)
    | None =>
        match effectiveHost p with
        | Err e => (Err e, p)
        | Ok effective =>
            match PlanCapacity effective request with
            | Err e => (Err e, p)
            | Ok plan =>
                match reservationFor sessionID request plan with
                | Err e => (Err e, p)
                | Ok r => commitReservation p sessionID r
                end
            end
        end
    end.

Definition Plan (p : CapacityPool) (ref : nat) : option CapacityPlan := r_plan <$> p_heap p !! ref.

Definition markReleased (r : CapacityReservation) : CapacityReservation :=
  mkReservation (r_sessionID r) (r_plan r) (r_ramBytes r) (r_runtimeBytes r) (r_scratchBytes r) true.

Definition Destroy (p : CapacityPool) (ref : nat) : result capacity_error unit * CapacityPool :=
  match p_heap p !! ref with
  | None => (Err ReservationInvalid, p)
  | Some r =>
      if r_released r then (Ok tt, p)
      else if negb (bool_decide (p_reservations p !! r_sessionID r = Some ref)) ||
              (p_ramBytes p <? r_ramBytes r)%Z || (p_runtimeBytes p <? r_runtimeBytes r)%Z ||
              (p_scratchBytes p <? r_scratchBytes r)%Z
      then (Err OwnershipInconsistent, p)
      else
        (Ok tt,
         mkPool (p_host p) (delete (r_sessionID r) (p_reservations p))
           (sub64 (p_ramBytes p) (r_ramBytes r)) (sub64 (p_runtimeBytes p) (r_runtimeBytes r))
           (sub64 (p_scratchBytes p) (r_scratchBytes r))
           (<[ref := markReleased r]> (p_heap p)) (p_next p))
  end.

Definition Audit (p : CapacityPool) (ref : nat) : result capacity_error unit :=
  match p_heap p !! ref with
  | None => Err ReservationInvalid
  | Some r =>
      fail_if (negb (r_released r) || bool_decide (p_reservations p !! r_sessionID r = Some ref))
        with RemainsActive ;;
      Ok tt
  end.

(** ** Host evidence *)

Definition maxEvidenceBytes : Z := 65536.

(** [readBoundedCapacityFile] of a file with the given content; [None] when it
    cannot be opened or read. *)
Definition readBoundedCapacityFile (content : option string) (limit : Z) : option string :=
  data ← content; if (limit <? Z.of_nat (String.length data))%Z then None else Some data.

(** The fields seen so far: the total and the available memory. *)
Record memoryScan := mkScan { scan_total : option Z; scan_available : option Z }.

Definition readMemoryLine (acc : memoryScan) (line : string) : result capacity_error memoryScan :=
  match Fields line with
  | [name; number; unit] =>
      if bool_decide (unit = "kB") then
        match ParseUint number 64 with
        | None => Err MemoryMalformed
        | Some value =>
            fail_if (max64 / 1024 <? value)%Z with MemoryMalformed ;;
            if bool_decide (name = "MemTotal:") then
              match scan_total acc with
              | Some _ => Err MemoryDuplicate
              | None => Ok (mkScan (Some (mul64 value 1024)) (scan_available acc))
              end
            else if bool_decide (name = "MemAvailable:") then
              match scan_available acc with
              | Some _ => Err MemoryDuplicate
              | None => Ok (mkScan (scan_total acc) (Some (mul64 value 1024)))
              end
            else Ok acc
        end
      else Ok acc
  | _ => Ok acc
  end.

Fixpoint readMemoryLines (acc : memoryScan) (lines : list string) : result capacity_error memoryScan :=
  match lines with
  | [] => Ok acc
  | line :: rest => acc <-! readMemoryLine acc line ;; readMemoryLines acc rest
  end.

Definition newline : ascii := "010".

Definition readMemoryCapacity (content : option string) : result capacity_error (Z * Z) :=
  match readBoundedCapacityFile content maxEvidenceBytes with
  | None => Err MemoryUnavailable
  | Some data =>
      acc <-! readMemoryLines (mkScan None None) (Split newline data) ;;
      let total := default 0%Z (scan_total acc) in
      let available := default 0%Z (scan_available acc) in
      fail_if ((total =? 0)%Z || (available =? 0)%Z || (total <? available)%Z) with MemoryIncomplete ;;
      Ok (total, available)
  end.

Record Statfs := mkStatfs { stat_Type : Z; stat_Bsize : Z; stat_Bavail : Z }.

Definition TMPFS_MAGIC : Z := 16914836.

Definition statfsAvailable (stat : Statfs) : Z :=
  let blockSize := wrap64 (stat_Bsize stat) in
  if (blockSize =? 0)%Z || (max64 / blockSize <? stat_Bavail stat)%Z then 0%Z
  else mul64 (stat_Bavail stat) blockSize.

(** One entry of [/proc/swaps]: [None] for a blank line, [Some true] for swap
    that is not compressed memory. *)
Definition parseSwapLine (line : string) : result capacity_error (option bool) :=
  match Fields line with
  | [] => Ok None
  | device :: rest =>
      fail_if ((len (device :: rest) <? 5)%Z || negb (IsAbs device)) with SwapEntry ;;
      let name := TrimPrefix device "/dev/zram" in
      if bool_decide (name = "") then Ok (Some true)
      else match ParseUint name 31 with
           | None => Ok (Some true)
           | Some _ => Ok (Some false)
           end
  end.

Fixpoint parseSwapLines (lines : list string) : result capacity_error bool :=
  match lines with
  | [] => Ok false
  | line :: rest =>
      entry <-! parseSwapLine line ;;
      match entry with
      | Some true => Ok true
      | _ => parseSwapLines rest
      end
  end.

Definition parseDiskBackedSwap (data : string) : result capacity_error bool :=
  match Split newline data with
  | [] => Err SwapHeader
  | first :: rest =>
      match Fields first with
      | h0 :: h1 :: hs =>
          fail_if ((len (h0 :: h1 :: hs) <? 5)%Z || negb (bool_decide (h0 = "Filename")) ||
                   negb (bool_decide (h1 = "Type"))) with SwapHeader ;;
          parseSwapLines rest
      | _ => Err SwapHeader
      end
  end.

Definition hasDiskBackedSwap (data : string) : bool :=
  match parseDiskBackedSwap data with Err _ => true | Ok result => result end.

(** What the host answers: the two [/proc] files and statfs of a directory
    opened without following symbolic links. *)
Record hostProbe := mkProbe {
  probe_meminfo : option string;
  probe_swaps : option string;
  probe_statfs : string → option Statfs
}.

Definition narrowPath (path : string) : bool :=
  IsAbs path && bool_decide (Clean path = path) && negb (bool_decide (path = "/")).

Definition ProbeHostCapacity (probe : hostProbe) (runtimeRoot scratchRoot : string)
  : result capacity_error HostCapacity :=
  fail_if (negb (narrowPath runtimeRoot) || negb (narrowPath scratchRoot)) with PathsRejected ;;
  mem <-! readMemoryCapacity (probe_meminfo probe) ;;
  match probe_statfs probe runtimeRoot with
  | None => Err RuntimeUnavailable
  | Some runtimeStat =>
      match probe_statfs probe scratchRoot with
      | None => Err ScratchUnavailable
      | Some scratchStat =>
          match readBoundedCapacityFile (probe_swaps probe) maxEvidenceBytes with
          | None => Err SwapUnavailable
          | Some swaps =>
              diskBackedSwap <-! parseDiskBackedSwap swaps ;;
              Ok (mkHost mem.1 mem.2 (statfsAvailable runtimeStat) (statfsAvailable scratchStat)
                    (stat_Type runtimeStat =? TMPFS_MAGIC)%Z diskBackedSwap)
          end
      end
  end.

(** * Properties *)

(** Fields of machine words. *)
Definition hostWords (h : HostCapacity) : Prop :=
  u64 (TotalRAMBytes h) ∧ u64 (AvailableRAMBytes h) ∧ u64 (RuntimeFreeBytes h) ∧ u64 (ScratchFreeBytes h).

Definition requestWords (r : CapacityRequest) : Prop :=
  u64 (GuestRAMBytes r) ∧ u64 (ExpectedWritesBytes r) ∧ u64 (SmallScratchMax r).

Lemma hostReserve_bounds total : u64 total → (minimumReserve ≤ hostReserve total < two64)%Z.
Proof.
  unfold u64, hostReserve, minimumReserve, two64. intros H.
  destruct (Z.ltb_spec (total / 5) 4294967296); [lia|].
  split; [done|]. apply Z.div_lt_upper_bound; lia.
Qed.

Lemma hostReserve_max total : hostReserve total = Z.max minimumReserve (total / 5).
Proof. unfold hostReserve. destruct (Z.ltb_spec (total / 5) minimumReserve); lia. Qed.

Lemma addCapacity_ok a b s :
  u64 a → u64 b → addCapacity a b = (s, true) → s = (a + b)%Z ∧ u64 s.
Proof.
  unfold addCapacity. intros Ha Hb H. simplify_eq/=. bool_hyps.
  destruct (add64_cases a b Ha Hb) as [[? Heq]|[? Heq]]; rewrite Heq in *; unfold u64 in *; lia.
Qed.

Lemma addCapacity_fits a b : u64 a → u64 b → (a + b < two64)%Z → addCapacity a b = ((a + b)%Z, true).
Proof.
  unfold addCapacity. intros Ha Hb H. rewrite add64_small by (unfold u64 in *; lia).
  f_equal. apply Z.leb_le. unfold u64 in *. lia.
Qed.

Lemma addCapacity_overflows a b : u64 a → u64 b → (two64 ≤ a + b)%Z → (addCapacity a b).2 = false.
Proof.
  unfold addCapacity. intros Ha Hb H. simpl. apply Z.leb_gt.
  destruct (add64_cases a b Ha Hb) as [[? Heq]|[? Heq]]; rewrite Heq; unfold u64 in *; lia.
Qed.

Lemma add3_spec a b c :
  u64 a → u64 b → u64 c →
  (add3 a b c).2 = bool_decide (two64 ≤ a + b + c)%Z ∧
  ((a + b + c < two64)%Z → (add3 a b c).1 = (a + b + c)%Z).
Proof.
  intros Ha Hb Hc. unfold add3.
  destruct (add64_cases a b Ha Hb) as [[H1 ->]|[H1 ->]].
  - destruct (Z.ltb_spec (a + b) a); [unfold u64 in *; lia|].
    assert (u64 (a + b)) as Hab by (unfold u64 in *; lia).
    destruct (add64_cases (a + b) c Hab Hc) as [[H2 ->]|[H2 ->]]; simpl.
    + rewrite bool_decide_false by lia. split; [|done]. apply Z.ltb_ge. unfold u64 in *. lia.
    + rewrite bool_decide_true by lia. split; [|lia]. apply Z.ltb_lt. unfold u64 in *. lia.
  - destruct (Z.ltb_spec (a + b - two64) a); [|unfold u64, two64 in *; lia]. simpl.
    rewrite bool_decide_true by (unfold u64 in *; lia). split; [done|]. unfold u64 in *. lia.
Qed.

(** ** The planner decides exactly *)

(** The planning rule over unbounded integers. *)
Definition usable (host : HostCapacity) (request : CapacityRequest) : Prop :=
  (DiskBackedSwap host = false ∧ RuntimeIsTmpfs host = true ∧
   0 < AvailableRAMBytes host ≤ TotalRAMBytes host ∧
   0 < GuestRAMBytes request ∧ 0 < ExpectedWritesBytes request ∧ 0 < SmallScratchMax request)%Z.

Definition fitsRAM (host : HostCapacity) (request : CapacityRequest) : Prop :=
  (ExpectedWritesBytes request ≤ SmallScratchMax request ∧
   ExpectedWritesBytes request ≤ RuntimeFreeBytes host ∧
   GuestRAMBytes request + ExpectedWritesBytes request + hostReserve (TotalRAMBytes host)
     ≤ AvailableRAMBytes host)%Z.

Definition fitsLUKS (host : HostCapacity) (request : CapacityRequest) : Prop :=
  (ExpectedWritesBytes request ≤ ScratchFreeBytes host ∧
   GuestRAMBytes request + hostReserve (TotalRAMBytes host) ≤ AvailableRAMBytes host)%Z.

#[global] Instance usable_dec host request : Decision (usable host request).
Proof. unfold usable. apply _. Defined.
#[global] Instance fitsRAM_dec host request : Decision (fitsRAM host request).
Proof. unfold fitsRAM. apply _. Defined.
#[global] Instance fitsLUKS_dec host request : Decision (fitsLUKS host request).
Proof. unfold fitsLUKS. apply _. Defined.

Definition planSpec (host : HostCapacity) (request : CapacityRequest) : option CapacityPlan :=
  let plan mode := Some (mkPlan mode (hostReserve (TotalRAMBytes host)) (ExpectedWritesBytes request)) in
  if decide (usable host request) then
    if decide (fitsRAM host request) then plan ScratchModeRAM
    else if decide (fitsLUKS host request) then plan ScratchModeLUKS
    else None
  else None.

Definition to_option {E A} (r : result E A) : option A := match r with Ok a => Some a | Err _ => None end.

Lemma ram_fits a b c avail :
  u64 a → u64 b → u64 c → u64 avail →
  negb (add3 a b c).2 && ((add3 a b c).1 <=? avail)%Z = bool_decide (a + b + c ≤ avail)%Z.
Proof.
  intros Ha Hb Hc Hv. destruct (add3_spec a b c Ha Hb Hc) as [-> Hs].
  destruct (decide (two64 ≤ a + b + c)%Z).
  - rewrite !bool_decide_true by done. simpl. symmetry. apply bool_decide_false. unfold u64 in *. lia.
  - rewrite bool_decide_false by done. rewrite Hs by lia. simpl.
    destruct (Z.leb_spec (a + b + c) avail); symmetry; [by apply bool_decide_true|].
    apply bool_decide_false. lia.
Qed.

Lemma guest_fits a b avail :
  u64 a → u64 b → u64 avail →
  (addCapacity a b).2 && ((addCapacity a b).1 <=? avail)%Z = bool_decide (a + b ≤ avail)%Z.
Proof.
  intros Ha Hb Hv. destruct (decide (two64 ≤ a + b)%Z).
  - rewrite addCapacity_overflows by done. simpl. symmetry. apply bool_decide_false. unfold u64 in *. lia.
  - rewrite addCapacity_fits by (done || lia). simpl.
    destruct (Z.leb_spec (a + b) avail); symmetry; [by apply bool_decide_true|].
    apply bool_decide_false. lia.
Qed.

Lemma bool_decide_lebs (x y : Z) : (x <=? y)%Z = bool_decide (x ≤ y)%Z.
Proof. destruct (Z.leb_spec x y); symmetry; [by apply bool_decide_true|apply bool_decide_false; lia]. Qed.

Lemma plan_inputs host request :
  hostWords host → requestWords request →
  ((TotalRAMBytes host =? 0)%Z || (AvailableRAMBytes host =? 0)%Z ||
   (TotalRAMBytes host <? AvailableRAMBytes host)%Z || (GuestRAMBytes request =? 0)%Z ||
   (ExpectedWritesBytes request =? 0)%Z || (SmallScratchMax request =? 0)%Z) = false ↔
  (0 < AvailableRAMBytes host ≤ TotalRAMBytes host ∧ 0 < GuestRAMBytes request ∧
   0 < ExpectedWritesBytes request ∧ 0 < SmallScratchMax request)%Z.
Proof. unfold hostWords, requestWords, u64. intros. rewrite !orb_false_iff, !Z.eqb_neq, Z.ltb_ge. lia. Qed.

Lemma planned host request :
  hostWords host → requestWords request →
  to_option (PlanCapacity host request) = planSpec host request.
Proof.
  intros Hh Hr. pose proof (plan_inputs host request Hh Hr) as Hin.
  destruct Hh as (Ht & Ha & Hrt & Hs), Hr as (Hg & He & Hm).
  assert (u64 (hostReserve (TotalRAMBytes host))) as Hres.
  { pose proof (hostReserve_bounds _ Ht). unfold minimumReserve, u64 in *. lia. }
  unfold PlanCapacity, planSpec.
  destruct (DiskBackedSwap host) eqn:Hsw.
  { rewrite (decide_False (P:=usable host request)); [done|]. intros [Hx _]. congruence. }
  destruct (RuntimeIsTmpfs host) eqn:Htm.
  2:{ rewrite (decide_False (P:=usable host request)); [done|]. intros (_ & Hx & _). congruence. }
  simpl negb. cbv iota.
  destruct (_ || _) eqn:Hz.
  { rewrite (decide_False (P:=usable host request)); [done|]. intros (_ & _ & Hx). discriminate (proj2 Hin Hx). }
  rewrite (decide_True (P:=usable host request)) by (split_and!; try done; by apply Hin).
  pose proof (ram_fits _ _ _ _ Hg He Hres Ha) as Hf1. pose proof (guest_fits _ _ _ Hg Hres Ha) as Hf2.
  destruct (add3 _ _ _) as [rr ov]. destruct (addCapacity _ _) as [gr gok]. simpl in Hf1, Hf2.
  assert (∀ a b c d : bool, a && b && c && d = b && d && (a && c)) as Hcomm by (by intros [] [] [] []).
  rewrite Hcomm, Hf1, Hf2, !bool_decide_lebs, <- !bool_decide_and.
  destruct (bool_decide ((_ ∧ _) ∧ _)) eqn:Hc1; bool_hyps.
  { rewrite (decide_True (P:=fitsRAM host request)); [done|]. unfold fitsRAM. tauto. }
  rewrite (decide_False (P:=fitsRAM host request)) by (unfold fitsRAM; tauto).
  destruct (bool_decide (_ ∧ _)) eqn:Hc2; bool_hyps.
  - rewrite decide_True; [done|]. unfold fitsLUKS. tauto.
  - rewrite decide_False; [done|]. unfold fitsLUKS. tauto.
Qed.

(** C5: the planner's 64-bit arithmetic never misjudges: for every snapshot
    and request it returns exactly the plan that the rule gives over unbounded
    integers, so no overflow ever makes a request look as if it fitted, and a
    request that fits is never refused. *)
Theorem PlanCapacity_exact host request :
  hostWords host → requestWords request →
  to_option (PlanCapacity host request) = planSpec host request.
Proof. apply planned. Qed.

(** What an accepted plan guarantees. *)
Lemma PlanCapacity_fits host request plan :
  hostWords host → requestWords request → PlanCapacity host request = Ok plan →
  usable host request ∧
  ((plan_Mode plan = ScratchModeRAM ∧ fitsRAM host request) ∨
   (plan_Mode plan = ScratchModeLUKS ∧ fitsLUKS host request)).
Proof.
  intros Hh Hr Hp. pose proof (planned host request Hh Hr) as He. rewrite Hp in He. unfold planSpec in He.
  destruct (decide (usable host request)); [|done]. split; [done|].
  destruct (decide (fitsRAM host request)); [left|destruct (decide (fitsLUKS host request)); [right|done]];
    simpl in He; simplify_eq; done.
Qed.

(** ** The pool's invariant *)

(** The amount a reservation still holds. *)
Definition held (f : CapacityReservation → Z) (r : CapacityReservation) : Z :=
  if r_released r then 0%Z else f r.

Definition liveSum (f : CapacityReservation → Z) (heap : gmap nat CapacityReservation) : Z :=
  map_fold (λ _ r acc, (held f r + acc)%Z) 0%Z heap.

Lemma liveSum_insert f heap ref r :
  heap !! ref = None → liveSum f (<[ref := r]> heap) = (held f r + liveSum f heap)%Z.
Proof. intros H. unfold liveSum. rewrite map_fold_insert_L; [done| |done]. intros. lia. Qed.

Lemma liveSum_update f heap ref r r' :
  heap !! ref = Some r →
  liveSum f (<[ref := r']> heap) = (liveSum f heap - held f r + held f r')%Z.
Proof.
  intros H. rewrite <- insert_delete_eq. rewrite liveSum_insert by apply lookup_delete_eq.
  assert (liveSum f heap = held f r + liveSum f (delete ref heap))%Z as ->; [|lia].
  rewrite <- (insert_delete_id heap ref r H) at 1. by rewrite liveSum_insert by apply lookup_delete_eq.
Qed.

Lemma liveSum_le f heap ref r :
  (∀ k x, heap !! k = Some x → (0 ≤ f x)%Z) → heap !! ref = Some r → (held f r ≤ liveSum f heap)%Z.
Proof.
  intros Hn Hr. rewrite <- (insert_delete_id heap ref r Hr), liveSum_insert by apply lookup_delete_eq.
  assert (0 ≤ liveSum f (delete ref heap))%Z; [|lia].
  assert (∀ k x, delete ref heap !! k = Some x → (0 ≤ f x)%Z) as Hd.
  { intros k x Hk. apply lookup_delete_Some in Hk as [_ Hk]. by eapply Hn. }
  revert Hd. generalize (delete ref heap) as h. intros h. unfold liveSum.
  induction h as [|k x h Hk IH] using map_ind; intros Hd; [by rewrite map_fold_empty|].
  rewrite map_fold_insert_L; [|intros; lia|done].
  assert (0 ≤ f x)%Z by (by eapply Hd, lookup_insert_eq).
  assert (0 ≤ map_fold (λ _ r acc, (held f r + acc)%Z) 0%Z h)%Z.
  { apply IH. intros k' x' Hk'. eapply (Hd k'). rewrite lookup_insert_ne; [done|congruence]. }
  assert (0 ≤ held f x)%Z by (unfold held; destruct (r_released x); lia). lia.
Qed.

Record pool_inv (p : CapacityPool) : Prop := {
  inv_host : hostWords (p_host p) ∧ (AvailableRAMBytes (p_host p) ≤ TotalRAMBytes (p_host p))%Z;
  inv_live sid ref : p_reservations p !! sid = Some ref ↔
    ∃ r, p_heap p !! ref = Some r ∧ r_sessionID r = sid ∧ r_released r = false;
  inv_next ref : is_Some (p_heap p !! ref) → (ref < p_next p)%nat;
  inv_amounts ref r : p_heap p !! ref = Some r →
    u64 (r_ramBytes r) ∧ u64 (r_runtimeBytes r) ∧ u64 (r_scratchBytes r);
  inv_ram : p_ramBytes p = liveSum r_ramBytes (p_heap p);
  inv_runtime : p_runtimeBytes p = liveSum r_runtimeBytes (p_heap p);
  inv_scratch : p_scratchBytes p = liveSum r_scratchBytes (p_heap p);
  inv_bounds : (0 ≤ p_ramBytes p)%Z ∧ (0 ≤ p_runtimeBytes p ≤ RuntimeFreeBytes (p_host p))%Z ∧
    (0 ≤ p_scratchBytes p ≤ ScratchFreeBytes (p_host p))%Z ∧
    (p_reservations p = ∅ ∧ p_ramBytes p = 0 ∨
     p_ramBytes p + hostReserve (TotalRAMBytes (p_host p)) ≤ AvailableRAMBytes (p_host p))%Z
}.

Lemma inv_ram_fits p : pool_inv p → (0 ≤ p_ramBytes p ≤ AvailableRAMBytes (p_host p))%Z.
Proof.
  intros Hi. destruct (inv_bounds p Hi) as (? & _ & _ & Hr). destruct (inv_host p Hi) as [(Ht & Ha & _) _].
  pose proof (hostReserve_bounds _ Ht). unfold u64, minimumReserve in *.
  destruct Hr as [[_ ?]|?]; lia.
Qed.

Lemma effectiveHost_ok p :
  pool_inv p →
  let h := p_host p in
  effectiveHost p = Ok (mkHost (TotalRAMBytes h) (AvailableRAMBytes h - p_ramBytes p)
    (RuntimeFreeBytes h - p_runtimeBytes p) (ScratchFreeBytes h - p_scratchBytes p)
    (RuntimeIsTmpfs h) (DiskBackedSwap h)).
Proof.
  intros Hi h. pose proof (inv_ram_fits p Hi) as Hr.
  destruct (inv_bounds p Hi) as (_ & Hrt & Hs & _). destruct (inv_host p Hi) as [(Ht & Ha & Hf & Hc) _].
  unfold effectiveHost, subtractCapacity. fold h in Hr, Hrt, Hs, Ht, Ha, Hf, Hc |- *.
  unfold u64 in *.
  repeat match goal with |- context [(?a <? ?b)%Z] => destruct (Z.ltb_spec a b); [lia|]; simpl end.
  by rewrite !sub64_small by (unfold u64; lia).
Qed.

(** A reservation the planner accepts on what remains fits every sum. *)
Lemma accepted_fits p sid request plan r host :
  pool_inv p → requestWords request → effectiveHost p = Ok host →
  PlanCapacity host request = Ok plan → reservationFor sid request plan = Ok r →
  r_sessionID r = sid ∧ r_plan r = plan ∧ r_released r = false ∧
  u64 (r_ramBytes r) ∧ u64 (r_runtimeBytes r) ∧ u64 (r_scratchBytes r) ∧
  (p_ramBytes p + r_ramBytes r + hostReserve (TotalRAMBytes (p_host p)) ≤ AvailableRAMBytes (p_host p))%Z ∧
  (p_runtimeBytes p + r_runtimeBytes r ≤ RuntimeFreeBytes (p_host p))%Z ∧
  (p_scratchBytes p + r_scratchBytes r ≤ ScratchFreeBytes (p_host p))%Z.
Proof.
  intros Hi Hq He Hp Hr. rewrite effectiveHost_ok in He by done. simplify_eq.
  pose proof (inv_ram_fits p Hi) as Hram. destruct (inv_bounds p Hi) as (_ & Hrt & Hsc & _).
  destruct (inv_host p Hi) as [(Ht & Ha & Hf & Hc) _].
  apply PlanCapacity_fits in Hp; [|unfold hostWords, u64 in *; simpl; lia|done].
  unfold fitsRAM, fitsLUKS in Hp. simpl in Hp. destruct Hq as (Hg & Hw & _).
  unfold reservationFor in Hr. destruct Hp as [_ [[Hm Hfit]|[Hm Hfit]]]; rewrite Hm in Hr.
  - destruct (addCapacity _ _) as [ram ok] eqn:Hadd. destruct ok; simplify_eq/=.
    apply addCapacity_ok in Hadd as [-> ?]; [|done..]. unfold u64, two64 in *. split_and!; lia || done.
  - simplify_eq/=. unfold u64, two64 in *. split_and!; lia || done.
Qed.

Lemma commit_ok p sid r :
  pool_inv p → u64 (r_ramBytes r) → u64 (r_runtimeBytes r) → u64 (r_scratchBytes r) →
  (p_ramBytes p + r_ramBytes r < two64)%Z → (p_runtimeBytes p + r_runtimeBytes r < two64)%Z →
  (p_scratchBytes p + r_scratchBytes r < two64)%Z →
  commitReservation p sid r =
  (Ok (p_next p),
   mkPool (p_host p) (<[sid := p_next p]> (p_reservations p))
     (p_ramBytes p + r_ramBytes r) (p_runtimeBytes p + r_runtimeBytes r)
     (p_scratchBytes p + r_scratchBytes r) (<[p_next p := r]> (p_heap p)) (S (p_next p))).
Proof.
  intros Hi H1 H2 H3 B1 B2 B3. destruct (inv_bounds p Hi) as (? & ? & ? & _).
  unfold commitReservation.
  rewrite (addCapacity_fits (p_ramBytes p)) by (unfold u64 in *; lia || done).
  cbn [negb withSums p_ramBytes p_runtimeBytes p_scratchBytes].
  rewrite (addCapacity_fits (p_runtimeBytes p)) by (unfold u64 in *; lia || done).
  cbn [negb withSums p_ramBytes p_runtimeBytes p_scratchBytes].
  by rewrite (addCapacity_fits (p_scratchBytes p)) by (unfold u64 in *; lia || done).
Qed.

(** Every way [Reserve] can end on a consistent pool: refused without a change,
    or committed in full. *)
Lemma Reserve_cases p sid request res p' :
  pool_inv p → requestWords request → Reserve p sid request = (res, p') →
  (∃ e, res = Err e ∧ p' = p ∧
     (e = SessionRequired ∨ e = AlreadyReserved ∨
      ∃ host, effectiveHost p = Ok host ∧ PlanCapacity host request = Err e)) ∨
  (∃ host plan r, storageSessionPattern sid = true ∧ p_reservations p !! sid = None ∧
     effectiveHost p = Ok host ∧ PlanCapacity host request = Ok plan ∧
     reservationFor sid request plan = Ok r ∧ res = Ok (p_next p) ∧
     p' = mkPool (p_host p) (<[sid := p_next p]> (p_reservations p))
            (p_ramBytes p + r_ramBytes r) (p_runtimeBytes p + r_runtimeBytes r)
            (p_scratchBytes p + r_scratchBytes r) (<[p_next p := r]> (p_heap p)) (S (p_next p))).
Proof.
  intros Hi Hq H. unfold Reserve in H.
  destruct (storageSessionPattern sid); simpl in H; [|simplify_eq; left; eauto 10].
  destruct (p_reservations p !! sid) eqn:Hl; [simplify_eq; left; eauto 10|].
  destruct (effectiveHost p) as [host|e] eqn:He; [|by rewrite effectiveHost_ok in He].
  destruct (PlanCapacity host request) as [plan|e] eqn:Hp; [|simplify_eq; left; eauto 10].
  destruct (reservationFor sid request plan) as [r|e] eqn:Hr.
  - right. exists host, plan, r.
    destruct (accepted_fits p sid request plan r host Hi Hq He Hp Hr) as (_ & _ & _ & U1 & U2 & U3 & B1 & B2 & B3).
    destruct (inv_host p Hi) as [(Ht & Ha & Hf & Hc) _]. pose proof (hostReserve_bounds _ Ht).
    rewrite commit_ok in H by (done || unfold u64, minimumReserve in *; lia).
    by simplify_eq.
  - exfalso. clear H. rewrite effectiveHost_ok in He by done. simplify_eq.
    pose proof (inv_ram_fits p Hi) as Hram. destruct (inv_bounds p Hi) as (_ & Hrt & Hsc & _).
    destruct (inv_host p Hi) as [(Ht & Ha & Hf & Hc) _]. destruct Hq as (Hg & Hw & Hm).
    apply PlanCapacity_fits in Hp; [|unfold hostWords, u64 in *; simpl; lia|done].
    pose proof (hostReserve_bounds _ Ht). unfold reservationFor in Hr.
    destruct Hp as [_ [[Hmode Hfit]|[Hmode Hfit]]]; rewrite Hmode in Hr; [|done].
    unfold fitsRAM in Hfit; simpl in Hfit.
    rewrite addCapacity_fits in Hr by (done || unfold u64, minimumReserve in *; lia). done.
Qed.

Lemma pool_inv_new host p :
  hostWords host → NewCapacityPool host = Ok p → pool_inv p.
Proof.
  intros Hh H. unfold NewCapacityPool in H. guards. unfold hostWords, u64 in Hh.
  split; simpl; try done.
  - intros sid ref. rewrite lookup_empty. split; [done|]. by intros (r & Hr & _).
  - intros ref [? Hx]. done.
  - split_and!; lia || by left.
Qed.

Lemma pool_inv_commit p sid r :
  pool_inv p → p_reservations p !! sid = None → r_sessionID r = sid → r_released r = false →
  u64 (r_ramBytes r) → u64 (r_runtimeBytes r) → u64 (r_scratchBytes r) →
  (p_ramBytes p + r_ramBytes r + hostReserve (TotalRAMBytes (p_host p)) ≤ AvailableRAMBytes (p_host p))%Z →
  (p_runtimeBytes p + r_runtimeBytes r ≤ RuntimeFreeBytes (p_host p))%Z →
  (p_scratchBytes p + r_scratchBytes r ≤ ScratchFreeBytes (p_host p))%Z →
  pool_inv (mkPool (p_host p) (<[sid := p_next p]> (p_reservations p))
    (p_ramBytes p + r_ramBytes r) (p_runtimeBytes p + r_runtimeBytes r)
    (p_scratchBytes p + r_scratchBytes r) (<[p_next p := r]> (p_heap p)) (S (p_next p))).
Proof.
  intros Hi Hl Hid Hrel U1 U2 U3 B1 B2 B3.
  assert (p_heap p !! p_next p = None) as Hfresh.
  { destruct (p_heap p !! p_next p) eqn:Hx; [|done]. assert (p_next p < p_next p)%nat; [|lia].
    apply (inv_next p Hi). by rewrite Hx. }
  split; simpl.
  - apply (inv_host p Hi).
  - intros s ref. destruct (decide (ref = p_next p)) as [->|Hne].
    + rewrite lookup_insert_eq. destruct (decide (s = sid)) as [->|Hs].
      * rewrite lookup_insert_eq. split; [by eauto|done].
      * rewrite lookup_insert_ne by done. split.
        -- intros Hx. apply (inv_live p Hi) in Hx as (x & Hx & _). congruence.
        -- intros (x & Hx & Hxs & _). congruence.
    + rewrite (lookup_insert_ne (p_heap p)) by done. rewrite <- (inv_live p Hi).
      destruct (decide (s = sid)) as [->|Hs]; [|by rewrite lookup_insert_ne].
      rewrite lookup_insert_eq. split; intros Hx; congruence.
  - intros ref [x Hx]. apply lookup_insert_Some in Hx as [[<- _]|[_ Hx]]; [lia|].
    assert (ref < p_next p)%nat; [|lia]. apply (inv_next p Hi). by rewrite Hx.
  - intros ref x Hx. apply lookup_insert_Some in Hx as [[_ <-]|[_ Hx]]; [done|]. by eapply (inv_amounts p Hi).
  - rewrite liveSum_insert, (inv_ram p Hi) by done. unfold held. rewrite Hrel. lia.
  - rewrite liveSum_insert, (inv_runtime p Hi) by done. unfold held. rewrite Hrel. lia.
  - rewrite liveSum_insert, (inv_scratch p Hi) by done. unfold held. rewrite Hrel. lia.
  - destruct (inv_bounds p Hi) as (? & ? & ? & _). unfold u64 in *. split_and!; try lia.
Qed.

(** On a consistent pool a live reservation can always be destroyed. *)
Definition afterDestroy (p : CapacityPool) (ref : nat) (r : CapacityReservation) : CapacityPool :=
  mkPool (p_host p) (delete (r_sessionID r) (p_reservations p))
    (p_ramBytes p - r_ramBytes r) (p_runtimeBytes p - r_runtimeBytes r)
    (p_scratchBytes p - r_scratchBytes r) (<[ref := markReleased r]> (p_heap p)) (p_next p).

Lemma live_below p ref r :
  pool_inv p → p_heap p !! ref = Some r → r_released r = false →
  (r_ramBytes r ≤ p_ramBytes p)%Z ∧ (r_runtimeBytes r ≤ p_runtimeBytes p)%Z ∧
  (r_scratchBytes r ≤ p_scratchBytes p)%Z.
Proof.
  intros Hi Hr Hl. rewrite (inv_ram p Hi), (inv_runtime p Hi), (inv_scratch p Hi).
  assert (∀ f, held f r = f r) as Hh by (intros f; unfold held; by rewrite Hl).
  split_and!; rewrite <- Hh; (eapply liveSum_le; [|done]);
    intros k x Hx; destruct (inv_amounts p Hi k x Hx) as ([? ?] & [? ?] & [? ?]); done.
Qed.

Lemma Destroy_live p ref r :
  pool_inv p → p_heap p !! ref = Some r → r_released r = false →
  Destroy p ref = (Ok tt, afterDestroy p ref r).
Proof.
  intros Hi Hr Hl. unfold Destroy, afterDestroy. rewrite Hr, Hl.
  destruct (live_below p ref r Hi Hr Hl) as (B1 & B2 & B3).
  assert (p_reservations p !! r_sessionID r = Some ref) as Hx by (apply (inv_live p Hi); eauto).
  rewrite bool_decide_true by done.
  destruct (inv_bounds p Hi) as (? & ? & ? & _). destruct (inv_amounts p Hi ref r Hr) as ([? ?] & [? ?] & [? ?]).
  pose proof (inv_ram_fits p Hi). destruct (inv_host p Hi) as [([? ?] & [? ?] & [? ?] & [? ?]) _].
  repeat match goal with |- context [(?a <? ?b)%Z] => destruct (Z.ltb_spec a b); [lia|]; simpl end.
  by rewrite !sub64_small by (unfold u64; lia).
Qed.

Lemma pool_inv_destroy p ref r :
  pool_inv p → p_heap p !! ref = Some r → r_released r = false → pool_inv (afterDestroy p ref r).
Proof.
  intros Hi Hr Hl. destruct (live_below p ref r Hi Hr Hl) as (B1 & B2 & B3).
  destruct (inv_amounts p Hi ref r Hr) as ([? ?] & [? ?] & [? ?]).
  destruct (inv_bounds p Hi) as (? & ? & ? & Hram).
  assert (p_reservations p !! r_sessionID r = Some ref) as Hx by (apply (inv_live p Hi); eauto).
  split; simpl.
  - apply (inv_host p Hi).
  - intros s k. destruct (decide (k = ref)) as [->|Hk].
    + rewrite lookup_insert_eq. destruct (decide (s = r_sessionID r)) as [->|Hs].
      * rewrite lookup_delete_eq. split; [done|]. intros (x & ? & _ & ?). by simplify_eq.
      * rewrite lookup_delete_ne by done. rewrite (inv_live p Hi). split.
        -- intros (x & ? & ? & _). by simplify_eq.
        -- intros (x & ? & ? & ?). by simplify_eq.
    + rewrite (lookup_insert_ne (p_heap p)) by done. rewrite <- (inv_live p Hi).
      destruct (decide (s = r_sessionID r)) as [->|Hs]; [|by rewrite lookup_delete_ne].
      rewrite lookup_delete_eq. split; intros; congruence.
  - intros k [x Hk]. apply lookup_insert_Some in Hk as [[<- _]|[_ Hk]]; apply (inv_next p Hi); eauto.
  - intros k x Hk. apply lookup_insert_Some in Hk as [[_ <-]|[_ Hk]]; [done|]. by eapply (inv_amounts p Hi).
  - rewrite (liveSum_update _ _ _ r), (inv_ram p Hi) by done. unfold held; simpl. rewrite Hl. lia.
  - rewrite (liveSum_update _ _ _ r), (inv_runtime p Hi) by done. unfold held; simpl. rewrite Hl. lia.
  - rewrite (liveSum_update _ _ _ r), (inv_scratch p Hi) by done. unfold held; simpl. rewrite Hl. lia.
  - split_and!; try lia. right. destruct Hram as [[He _]|?]; [|lia]. rewrite He in Hx. done.
Qed.

(** The pool's operations, by any sequence of holders. *)
Inductive pool_step : CapacityPool → CapacityPool → Prop :=
| step_Reserve p sid request res p' :
    requestWords request → Reserve p sid request = (res, p') → pool_step p p'
| step_Destroy p ref res p' : Destroy p ref = (res, p') → pool_step p p'.

Lemma pool_inv_step p p' : pool_step p p' → pool_inv p → pool_inv p'.
Proof.
  intros Hs Hi. destruct Hs as [p sid request res p' Hq H|p ref res p' H].
  - apply Reserve_cases in H as [(e & _ & -> & _)|(host & plan & r & _ & Hl & He & Hp & Hr & _ & ->)]; [done| |done..].
    destruct (accepted_fits p sid request plan r host Hi Hq He Hp Hr) as (? & _ & ? & ? & ? & ? & ? & ? & ?).
    by apply pool_inv_commit.
  - destruct (p_heap p !! ref) as [r|] eqn:Hr; [destruct (r_released r) eqn:Hl|].
    + unfold Destroy in H. rewrite Hr, Hl in H. by simplify_eq.
    + rewrite (Destroy_live p ref r) in H by done. simplify_eq. by apply pool_inv_destroy.
    + unfold Destroy in H. rewrite Hr in H. by simplify_eq.
Qed.

Lemma pool_inv_reachable host p0 p :
  hostWords host → NewCapacityPool host = Ok p0 → rtc pool_step p0 p →
  pool_inv p ∧ p_host p = host.
Proof.
  intros Hh Hnew Hsteps. assert (pool_inv p0 ∧ p_host p0 = host) as Hstart.
  { split; [by eapply pool_inv_new|]. unfold NewCapacityPool in Hnew. by guards. }
  clear Hnew. induction Hsteps as [|p1 p2 p3 H12 _ IH]; [done|]. apply IH.
  destruct Hstart as [Hi He]. split; [by eapply pool_inv_step|]. rewrite <- He.
  destruct H12 as [p sid request res p' Hq H|p ref res p' H].
  - apply Reserve_cases in H as [(e & _ & -> & _)|(? & ? & ? & _ & _ & _ & _ & _ & _ & ->)]; done.
  - unfold Destroy in H. by guards.
Qed.

(** The pool never overcommits the host: in every state reachable by
    reservations and releases the three sums are exactly what the live
    reservations hold, runtime and scratch stay within the snapshot, and while
    any reservation is live the memory it holds leaves the host's reserve
    (a fifth of the memory, at least 4 GiB) untouched. *)
Theorem pool_never_overcommits host p0 p :
  hostWords host → NewCapacityPool host = Ok p0 → rtc pool_step p0 p →
  p_ramBytes p = liveSum r_ramBytes (p_heap p) ∧
  p_runtimeBytes p = liveSum r_runtimeBytes (p_heap p) ∧
  p_scratchBytes p = liveSum r_scratchBytes (p_heap p) ∧
  (p_runtimeBytes p ≤ RuntimeFreeBytes host)%Z ∧ (p_scratchBytes p ≤ ScratchFreeBytes host)%Z ∧
  (p_reservations p ≠ ∅ →
   (p_ramBytes p + Z.max minimumReserve (TotalRAMBytes host / 5) ≤ AvailableRAMBytes host)%Z).
Proof.
  intros Hh Hnew Hs. destruct (pool_inv_reachable host p0 p Hh Hnew Hs) as [Hi <-].
  destruct (inv_bounds p Hi) as (? & ? & ? & Hram).
  split_and!; [by apply inv_ram|by apply inv_runtime|by apply inv_scratch|lia|lia|].
  intros Hne. destruct Hram as [[? _]|Hram]; [done|].
  by rewrite hostReserve_max in Hram.
Qed.

Lemma destroy_live_roundtrip q ref r :
  pool_inv q → p_heap q !! ref = Some r → r_released r = false →
  Audit q ref = Err RemainsActive ∧ Destroy q ref = (Ok tt, afterDestroy q ref r) ∧
  Audit (afterDestroy q ref r) ref = Ok tt ∧
  Destroy (afterDestroy q ref r) ref = (Ok tt, afterDestroy q ref r).
Proof.
  intros Hi Hr Hl. split_and!; [|by apply Destroy_live|..].
  - unfold Audit. by rewrite Hr, Hl.
  - unfold Audit, afterDestroy. cbn [p_heap p_reservations].
    rewrite lookup_insert_eq. cbn [markReleased r_released r_sessionID]. by rewrite lookup_delete_eq.
  - unfold Destroy. assert (p_heap (afterDestroy q ref r) !! ref = Some (markReleased r)) as ->.
    { unfold afterDestroy. cbn [p_heap]. by rewrite lookup_insert_eq. }
    done.
Qed.

(** A reservation is all or nothing and fully reversible.  On a reachable
    pool, a refused request changes nothing and is refused only for a malformed
    identifier, a session that already holds one, or by the planner on what
    remains (the overflow branches are dead); an accepted one holds exactly the
    planned amounts until its release, which always succeeds, restores every
    sum and map, passes the audit, and has no effect when repeated. *)
Theorem reserve_then_destroy host p0 p sid request res p' :
  hostWords host → NewCapacityPool host = Ok p0 → rtc pool_step p0 p → requestWords request →
  Reserve p sid request = (res, p') →
  match res with
  | Err e => p' = p ∧ (e = SessionRequired ∨ e = AlreadyReserved ∨
      ∃ rest, effectiveHost p = Ok rest ∧ PlanCapacity rest request = Err e)
  | Ok ref =>
      Audit p' ref = Err RemainsActive ∧
      ∃ p'', Destroy p' ref = (Ok tt, p'') ∧ Audit p'' ref = Ok tt ∧ Destroy p'' ref = (Ok tt, p'') ∧
        p_reservations p'' = p_reservations p ∧ p_ramBytes p'' = p_ramBytes p ∧
        p_runtimeBytes p'' = p_runtimeBytes p ∧ p_scratchBytes p'' = p_scratchBytes p
  end.
Proof.
  intros Hh Hnew Hs Hq H. destruct (pool_inv_reachable host p0 p Hh Hnew Hs) as [Hi _].
  assert (pool_inv p') as Hi' by (eapply pool_inv_step; [by eapply step_Reserve|done]).
  apply Reserve_cases in H as [(e & -> & -> & He)|(rest & plan & r & _ & Hl & He & Hp & Hr & -> & ->)];
    [by split| |done..].
  destruct (accepted_fits p sid request plan r rest Hi Hq He Hp Hr) as (<- & _ & Hrel & _).
  set (q := mkPool _ _ _ _ _ _ _) in *.
  assert (p_heap q !! p_next p = Some r) as Hq' by (unfold q; cbn [p_heap]; by rewrite lookup_insert_eq).
  destruct (destroy_live_roundtrip q (p_next p) r Hi' Hq' Hrel) as (Ha & Hd & Ha' & Hd').
  split; [done|]. exists (afterDestroy q (p_next p) r). split_and!; try done.
  all: unfold afterDestroy, q; cbn [p_reservations p_ramBytes p_runtimeBytes p_scratchBytes]; try lia.
  by rewrite delete_insert_id.
Qed.

(** ** Swap evidence *)

(** A compressed-memory swap device: [/dev/zram] and a 31-bit number. *)
Definition zramDevice (device : string) : Prop :=
  ∃ number value, device = String.append "/dev/zram" number ∧ ParseUint number 31 = Some value.

Definition harmlessSwapLine (line : string) : Prop :=
  Fields line = [] ∨ ∃ device rest, Fields line = device :: rest ∧ (5 ≤ len (device :: rest))%Z ∧ zramDevice device.

Lemma parseSwapLine_iff line :
  (parseSwapLine line = Ok None ∨ parseSwapLine line = Ok (Some false)) ↔ harmlessSwapLine line.
Proof.
  unfold parseSwapLine, harmlessSwapLine. destruct (Fields line) as [|d rest].
  { split; [by left|by left]. }
  split.
  - intros H. right. exists d, rest. split; [done|].
    destruct (Z.ltb_spec (len (d :: rest)) 5); simpl in H; [by destruct H|].
    destruct (IsAbs d) eqn:Habs; simpl in H; [|by destruct H]. split; [done|].
    destruct (bool_decide (TrimPrefix d "/dev/zram" = "")) eqn:Hn; [by destruct H|].
    destruct (ParseUint (TrimPrefix d "/dev/zram") 31) as [v|] eqn:Hv; [|by destruct H].
    unfold TrimPrefix in Hv. destruct (HasPrefix d "/dev/zram") eqn:Hp.
    + apply prefix_drop in Hp. eexists _, v. by split.
    + apply IsAbs_head in Habs as [r ->]. by unfold ParseUint in Hv.
  - intros [?|(d' & r' & Heq & Hlen & n & v & -> & Hv)]; [done|]. right. simplify_eq.
    destruct (Z.ltb_spec (len (String.append "/dev/zram" n :: r')) 5); [lia|]. rewrite TrimPrefix_append.
    assert (IsAbs (String.append "/dev/zram" n) = true) as -> by (apply IsAbs_head; by eexists).
    simpl negb. simpl orb. cbv iota.
    destruct (bool_decide (n = "")) eqn:Hn; [bool_hyps; by subst|]. by rewrite Hv.
Qed.

Lemma parseSwapLines_iff lines : parseSwapLines lines = Ok false ↔ Forall harmlessSwapLine lines.
Proof.
  induction lines as [|line lines IH]; simpl; [done|].
  rewrite Forall_cons, <- IH, <- parseSwapLine_iff. clear IH.
  destruct (parseSwapLine line) as [[[]|]|]; simpl; split; intros H; auto; try done; by destruct H as [[]].
Qed.

(** Swap evidence fails closed: the host counts as free of disk-backed swap
    only when the table has its documented header and every entry is complete
    and names a numbered compressed-memory device; anything else, malformed
    text included, blocks volatile sessions. *)
Theorem swap_evidence_fails_closed data :
  hasDiskBackedSwap data = false ↔
  ∃ header columns entries, Split newline data = header :: entries ∧
    Fields header = "Filename" :: "Type" :: columns ∧ (3 ≤ len columns)%Z ∧ Forall harmlessSwapLine entries.
Proof.
  unfold hasDiskBackedSwap, parseDiskBackedSwap.
  destruct (Split newline data) as [|first rest]; [split; [done|by intros (? & ? & ? & ? & _)]|].
  destruct (Fields first) as [|h0 [|h1 hs]] eqn:Hf.
  1,2: split; [done|]; intros (? & ? & ? & ? & ? & _); simplify_eq; congruence.
  assert (len (h0 :: h1 :: hs) = 2 + len hs)%Z as -> by (unfold len; simpl; lia).
  split.
  - intros H. destruct (_ || _) eqn:Hc; [done|]. bool_hyps. subst.
    exists first, hs, rest. split_and!; [done|done|lia|].
    apply parseSwapLines_iff. by destruct (parseSwapLines rest) as [[]|].
  - intros (header & columns & entries & Heq & Hfh & Hl & Hh). injection Heq as <- <-.
    rewrite Hf in Hfh. injection Hfh as -> -> ->.
    destruct (Z.ltb_spec (2 + len columns) 5); [lia|].
    rewrite !bool_decide_true by done. simpl. by apply parseSwapLines_iff in Hh as ->.
Qed.

(** ** Concrete hosts *)

(** 32 GiB with 24 available, 16 GiB of tmpfs, 500 GiB of scratch. *)
Definition demoHost : HostCapacity :=
  mkHost 34359738368 25769803776 17179869184 536870912000 true false.

(** A 4 GiB guest writing 2 GiB. *)
Definition demoRequest : CapacityRequest := mkRequest 4294967296 2147483648 8589934592.

Definition demoPool : CapacityPool := mkPool demoHost ∅ 0 0 0 ∅ 0.
Definition demoSession : string := "pvm-00112233445566778899aabbccddeeff".

Lemma PlanCapacity_exact_witness :
  PlanCapacity demoHost demoRequest = Ok (mkPlan ScratchModeRAM 6871947673 2147483648) ∧
  planSpec demoHost demoRequest = Some (mkPlan ScratchModeRAM 6871947673 2147483648).
Proof.
  assert (PlanCapacity demoHost demoRequest = Ok (mkPlan ScratchModeRAM 6871947673 2147483648)) as Hp
    by (by vm_compute).
  split; [done|]. rewrite <- (PlanCapacity_exact demoHost demoRequest); [by rewrite Hp|by vm_compute..].
Defined.

Definition demoReserved : CapacityPool := (Reserve demoPool demoSession demoRequest).2.

Lemma demoReserved_step : pool_step demoPool demoReserved.
Proof. apply (step_Reserve demoPool demoSession demoRequest (Ok 0%nat)); by vm_compute. Qed.

Lemma pool_never_overcommits_witness :
  p_ramBytes demoReserved = 6442450944%Z ∧
  (p_ramBytes demoReserved + Z.max minimumReserve (34359738368 / 5) ≤ 25769803776)%Z.
Proof.
  split; [by vm_compute|].
  apply (pool_never_overcommits demoHost demoPool demoReserved); [by vm_compute..| |by vm_compute].
  apply rtc_once, demoReserved_step.
Defined.

Lemma reserve_then_destroy_witness :
  Reserve demoPool demoSession demoRequest = (Ok 0%nat, demoReserved) ∧
  Audit demoReserved 0 = Err RemainsActive ∧
  ∃ p'', Destroy demoReserved 0 = (Ok tt, p'') ∧ Audit p'' 0 = Ok tt.
Proof.
  assert (Reserve demoPool demoSession demoRequest = (Ok 0%nat, demoReserved)) as Hr by (by vm_compute).
  assert (hostWords demoHost) as Hw by (by vm_compute).
  assert (requestWords demoRequest) as Hq by (by vm_compute).
  assert (NewCapacityPool demoHost = Ok demoPool) as Hn by (by vm_compute).
  destruct (reserve_then_destroy demoHost demoPool demoPool demoSession demoRequest _ _ Hw Hn (rtc_refl _ _) Hq Hr)
    as (Ha & p'' & Hd & Hb & _).
  split_and!; [done|done|]. by exists p''.
Defined.

Example swap_examples :
  hasDiskBackedSwap (String.append "Filename Type Size Used Priority" (String newline "/dev/zram0 partition 8 0 100")) = false ∧
  hasDiskBackedSwap (String.append "Filename Type Size Used Priority" (String newline "/dev/sda2 partition 8 0 -2")) = true ∧
  hasDiskBackedSwap (String.append "Filename Type Size Used Priority" (String newline "/dev/zram partition 8 0 100")) = true.
Proof. by vm_compute. Qed.
