(* ===== verification/TorrentModel.v ===== *)
(** * Torrent inputs, metadata, manifests and selection planning

    Models [src/internal/torrent/model.go], [input.go] and [capacity.go]: the
    bounded magnet and metainfo gate, the validation of client-reported
    metadata, the type classification, and the capacity plan of a selection.
    Unicode normalization (golang.org/x/text) and the case mapping of non-ASCII
    code points are parameters of the definitions that use them. *)

From Stdlib Require Import ZArith Lia Ascii.
From stdpp Require Import strings base tactics option gmap sorting list.
From S2P Require Import Prelude GoText.

Open Scope string_scope.
Open Scope list_scope.

(** ** Constants and errors *)

Definition MaximumFiles : Z := 100000.
Definition MaximumPathBytes : Z := 1024.
Definition MaximumDisplayName : Z := 255.
Definition MaximumMagnetBytes : Z := 8192.
Definition MaximumMetainfoBytes : Z := 16777216.

(** The constructors of [errors.go]; a context error or another cause passed
    through. *)
Inductive torrent_error :=
| invalidRequest | invalidInput | inputTooLarge | metadataUnavailable | unsafeMetadata
| invalidSelection | blockedType | insufficientCapacity | capacityEvidenceUnavailable
| notApproved | downloadFailed | downloadStalled | vpnLost | sealFailed | cleanupIncomplete
| contextError | otherError.

(** NUL, carriage return, line feed and tab. *)
Definition NUL : ascii := "000".
Definition CR : ascii := "013".
Definition LF : ascii := "010".
Definition TAB : ascii := "009".

(** ** Handles *)

Definition NewHandle (value : string) : result torrent_error string :=
  fail_if (negb (slen value =? 40)%Z && negb (slen value =? 64)%Z) with invalidRequest ;;
  fail_if (negb (string_forallb is_lower_hex value)) with invalidRequest ;;
  Ok value.

Definition validHandle (value : string) : bool := is_Ok (NewHandle value).

(** ** Data *)

Record RawFile := mkRawFile { rf_Index : Z; rf_Path : string; rf_Size : Z }.

Record RawMetadata := mkRawMetadata {
  rm_Available : bool;
  rm_PayloadRead : Z;
  rm_DisplayName : string;
  rm_Files : list RawFile
}.

Record File := mkFile {
  f_Index : Z;
  f_DisplayPath : string;
  f_SizeBytes : Z;
  f_Selected : bool;
  f_SuspectedType : string;
  f_HazardCodes : list string
}.

Record Metadata := mkMetadata {
  md_DisplayName : string;
  md_Files : list File;
  md_TotalSizeBytes : Z;
  md_SelectedSizeBytes : Z;
  md_PayloadPaused : bool
}.

Definition emptyMetadata : Metadata := mkMetadata "" [] 0 0 false.

Record CapacityBudget := mkBudget {
  QuarantineAvailableBytes : Z;
  ScanAvailableBytes : Z;
  ReconstructionAvailable : Z;
  DestinationAvailable : Z;
  RootOverlayBudgetBytes : Z;
  ArchiveExpansionBytes : Z;
  ReconstructionBytes : Z;
  MaximumOutputBytes : Z;
  MaximumSelectedBytes : Z
}.

Inductive Destination := DestinationWorkstation | DestinationUSB | DestinationOther (name : string).

(** [CapacityEvidence] has the budget's fields except the quarantine probe. *)
Record CapacityEvidence := mkEvidence {
  ev_Destination : Destination;
  ev_ScanAvailableBytes : Z;
  ev_ReconstructionAvailable : Z;
  ev_DestinationAvailable : Z;
  ev_RootOverlayBudgetBytes : Z;
  ev_ArchiveExpansionBytes : Z;
  ev_ReconstructionBytes : Z;
  ev_MaximumOutputBytes : Z;
  ev_MaximumSelectedBytes : Z
}.

Record CapacityPlan := mkPlan {
  SelectedBytes : Z;
  QuarantineRequired : Z;
  ScanRequired : Z;
  ReconstructionNeed : Z;
  DestinationRequired : Z;
  SessionRequired : Z;
  SafetyMargin : Z;
  QuarantineMargin : Z;
  ScanMargin : Z;
  ReconstructionMargin : Z;
  DestinationMargin : Z
}.

Definition emptyPlan : CapacityPlan := mkPlan 0 0 0 0 0 0 0 0 0 0 0.

Record FileDigest := mkDigest {
  fd_Path : string;
  fd_SizeBytes : Z;
  fd_SHA256 : string;
  fd_SourceIndex : Z
}.

Definition checkedAdd (left right : Z) : Z * bool :=
  let result := add64 left right in (result, (result <? left)%Z).

Definition allZero (value : string) : bool := string_forallb (λ c, (code c =? 0)%N) value.

(** ** Paths *)

Section Unicode.
(** [norm.NFC.String], and [unicode.ToLower] beyond ASCII. *)
Context (NFC : string → string) (unicodeLower : N → N).

Definition windowsReservedName (value : string) : bool :=
  let base := TrimSuffix (ToLower unicodeLower value) (Ext value) in
  bool_decide (base ∈ ["con"; "prn"; "aux"; "nul"; "clock$"]) ||
  ((slen base =? 4)%Z && (HasPrefix base "com" || HasPrefix base "lpt") &&
   match String.get 3 base with Some c => between "1" "9" c | None => false end).

Definition badElement (element : string) : bool :=
  bool_decide (element = "") || bool_decide (element = ".") || bool_decide (element = "..") ||
  (255 <? slen element)%Z || windowsReservedName element.

Definition validateRelativePath (value : string) : result torrent_error unit :=
  fail_if (bool_decide (value = "") || (MaximumPathBytes <? slen value)%Z || negb (ValidString value) ||
           ContainsAny value (String NUL (String CR (String LF "\"))) || HasPrefix value "/" ||
           negb (bool_decide (Clean value = value))) with unsafeMetadata ;;
  fail_if (existsb badElement (Split "/" value)) with unsafeMetadata ;;
  Ok tt.

(** The type classes in the order of the switch. *)
Definition typeTable : list (list string * (string * list string)) :=
  [([".exe"; ".com"; ".scr"; ".dll"; ".msi"; ".appimage"; ".apk"], ("executable", ["TYPE_EXECUTABLE"]));
   ([".bat"; ".cmd"; ".ps1"; ".sh"; ".js"; ".vbs"; ".py"; ".pl"], ("script", ["TYPE_SCRIPT"]));
   ([".deb"; ".rpm"; ".pkg"; ".jar"], ("package", ["TYPE_PACKAGE"]));
   ([".iso"; ".img"; ".vhd"; ".vhdx"; ".vmdk"; ".qcow"; ".qcow2"], ("disk-image", ["TYPE_DISK_IMAGE"]));
   ([".zip"; ".tar"; ".gz"; ".bz2"; ".xz"; ".7z"; ".rar"], ("archive", ["TYPE_ARCHIVE"]));
   ([".pdf"; ".doc"; ".docx"; ".xls"; ".xlsx"; ".ppt"; ".pptx"; ".odt"; ".ods"; ".odp"], ("document", []));
   ([".jpg"; ".jpeg"; ".png"; ".gif"; ".webp"; ".tif"; ".tiff"; ".bmp"], ("image", []));
   ([".mp3"; ".wav"; ".flac"; ".ogg"; ".mp4"; ".mkv"; ".webm"; ".mov"], ("media", []));
   ([".txt"; ".md"; ".csv"], ("text", []))].

Definition classifyPath (value : string) : string * list string :=
  let extension := ToLower unicodeLower (Ext value) in
  match List.find (λ row, bool_decide (extension ∈ row.1)) typeTable with
  | Some row => row.2
  | None => ("unknown", ["TYPE_UNKNOWN"])
  end.

(** ** Metadata *)

Definition validateFile (expectedIndex : nat) (rawFile : RawFile) (seen seenFolded : gset string)
  : result torrent_error (File * string * string) :=
  fail_if (negb (rf_Index rawFile =? Z.of_nat expectedIndex)%Z || (rf_Size rawFile =? 0)%Z) with unsafeMetadata ;;
  _ <-! validateRelativePath (rf_Path rawFile) ;;
  let normalized := NFC (rf_Path rawFile) in
  let folded := ToLower unicodeLower normalized in
  fail_if (bool_decide (normalized ∈ seen)) with unsafeMetadata ;;
  fail_if (bool_decide (folded ∈ seenFolded)) with unsafeMetadata ;;
  let '(fileType, hazards) := classifyPath normalized in
  Ok (mkFile (rf_Index rawFile) normalized (rf_Size rawFile) false fileType hazards, normalized, folded).

Fixpoint validateFiles (expectedIndex : nat) (raws : list RawFile) (seen seenFolded : gset string)
    (files : list File) (total : Z) : result torrent_error (list File * Z) :=
  match raws with
  | [] => Ok (files, total)
  | rawFile :: rest =>
      match validateFile expectedIndex rawFile seen seenFolded with
      | Err e => Err e
      | Ok (file, normalized, folded) =>
          let '(total, overflow) := checkedAdd total (rf_Size rawFile) in
          fail_if overflow with unsafeMetadata ;;
          validateFiles (S expectedIndex) rest ({[normalized]} ∪ seen) ({[folded]} ∪ seenFolded)
            (files ++ [file]) total
      end
  end.

Definition validateMetadata (raw : RawMetadata) : result torrent_error Metadata :=
  fail_if (negb (rm_Available raw) || negb (rm_PayloadRead raw =? 0)%Z || (slen (rm_DisplayName raw) =? 0)%Z ||
           (MaximumDisplayName <? slen (rm_DisplayName raw))%Z || negb (ValidString (rm_DisplayName raw)) ||
           ContainsAny (rm_DisplayName raw) (String NUL (String CR (String LF ""))) ||
           (len (rm_Files raw) =? 0)%Z || (MaximumFiles <? len (rm_Files raw))%Z) with unsafeMetadata ;;
  r <-! validateFiles 0 (rm_Files raw) ∅ ∅ [] 0 ;;
  Ok (mkMetadata (rm_DisplayName raw) r.1 r.2 0 true).

(** ** Manifests *)

Definition badDigest (file : FileDigest) : bool :=
  (fd_SizeBytes file =? 0)%Z || negb (is_Ok (validateRelativePath (fd_Path file))) || allZero (fd_SHA256 file).

Definition newManifest (files : list FileDigest) : result torrent_error (list FileDigest) :=
  fail_if ((len files =? 0)%Z || (MaximumFiles <? len files)%Z) with sealFailed ;;
  fail_if (existsb badDigest files) with sealFailed ;;
  Ok files.

End Unicode.

Definition hasHazard (code : string) (file : File) : bool := bool_decide (code ∈ f_HazardCodes file).

Definition hasBlockedType (file : File) : bool :=
  hasHazard "TYPE_EXECUTABLE" file || hasHazard "TYPE_SCRIPT" file ||
  hasHazard "TYPE_PACKAGE" file || hasHazard "TYPE_DISK_IMAGE" file.

Definition hasArchive (file : File) : bool := hasHazard "TYPE_ARCHIVE" file.

#[global] Arguments windowsReservedName : simpl never.
#[global] Arguments validateRelativePath : simpl never.
#[global] Arguments classifyPath : simpl never.

(** ** Inputs *)

Inductive InputKind := InputMagnet | InputMetainfo | InputOther (name : string).

Definition inputMaximum (kind : InputKind) : Z :=
  match kind with
  | InputMagnet => MaximumMagnetBytes
  | InputMetainfo => MaximumMetainfoBytes
  | InputOther _ => 0
  end.

Definition is_btih_hex (c : ascii) : bool := is_digit c || between "a" "f" c || between "A" "F" c.
Definition is_btih_base32 (c : ascii) : bool := is_upper c || between "2" "7" c.

Definition validBTIH (value : string) : bool :=
  if (slen value =? 40)%Z then string_forallb is_btih_hex value
  else if (slen value =? 32)%Z then string_forallb is_btih_base32 value
  else false.

Definition magnetPrefix : string := "magnet:?".
Definition btihPrefix : string := "urn:btih:".
Definition magnetForbidden : string :=
  String NUL (String CR (String LF (String TAB " #"))).

(** One field of the query: the number of [xt] fields it contributes. *)
Definition magnetField (field : string) : result torrent_error Z :=
  let '(key, value, found) := Cut "=" field in
  fail_if (negb found || (slen key =? 0)%Z || (slen value =? 0)%Z) with invalidInput ;;
  if bool_decide (key = "xt") then
    fail_if (negb (HasPrefix value btihPrefix) ||
             negb (validBTIH (drop_string (String.length btihPrefix) value))) with invalidInput ;;
    Ok 1%Z
  else Ok 0%Z.

(** The loop [for len(query) > 0]; every iteration removes at least one byte,
    so the query's length is enough fuel. *)
Fixpoint magnetFields (fuel : nat) (query : string) (xtCount : Z) : option (result torrent_error Z) :=
  match query with
  | EmptyString => Some (Ok xtCount)
  | _ =>
      match fuel with
      | O => None
      | S fuel =>
          let '(field, rest, found) := Cut "&" query in
          match magnetField field with
          | Err e => Some (Err e)
          | Ok n => magnetFields fuel (if found then rest else EmptyString) (xtCount + n)
          end
      end
  end.

Definition validateMagnet (raw : string) : option (result torrent_error unit) :=
  if (MaximumMagnetBytes <? slen raw)%Z then Some (Err inputTooLarge)
  else if negb (HasPrefix raw magnetPrefix) || ContainsAny raw magnetForbidden then Some (Err invalidInput)
  else
    let query := drop_string (String.length magnetPrefix) raw in
    if (slen query =? 0)%Z then Some (Err invalidInput)
    else
      r ← magnetFields (String.length query) query 0;
      Some (match r with
            | Err e => Err e
            | Ok xtCount => fail_if (negb (xtCount =? 1)%Z) with invalidInput ;; Ok tt
            end).

Fixpoint lastByte (s : string) : option ascii :=
  match s with
  | EmptyString => None
  | String c EmptyString => Some c
  | String _ r => lastByte r
  end.

Definition looksLikeMetainfo (raw : string) : bool :=
  (2 <=? slen raw)%Z && bool_decide (String.get 0 raw = Some "d"%char) &&
  bool_decide (lastByte raw = Some "e"%char) && negb (string_existsb (char_eqb NUL) raw).

(** [NewInput]; [secretNew] is the protected-memory constructor. *)
Definition NewInput (secretNew : string → bool) (kind : InputKind) (raw : string)
  : option (result torrent_error (InputKind * string)) :=
  if (slen raw =? 0)%Z then Some (Err invalidInput)
  else if (inputMaximum kind =? 0)%Z then Some (Err invalidRequest)
  else if (inputMaximum kind <? slen raw)%Z then Some (Err inputTooLarge)
  else
    checked ← match kind with
              | InputMagnet => validateMagnet raw
              | _ => Some (if looksLikeMetainfo raw then Ok tt else Err invalidInput)
              end;
    Some (match checked with
          | Err e => Err e
          | Ok _ => if secretNew raw then Ok (kind, raw) else Err invalidInput
          end).

(** ** Selection planning *)

Definition budget (evidence : CapacityEvidence) (quarantineAvailable : Z) : result torrent_error CapacityBudget :=
  fail_if (match ev_Destination evidence with DestinationOther _ => true | _ => false end ||
           (quarantineAvailable =? 0)%Z || (ev_ScanAvailableBytes evidence =? 0)%Z ||
           (ev_ReconstructionAvailable evidence =? 0)%Z || (ev_DestinationAvailable evidence =? 0)%Z ||
           (ev_RootOverlayBudgetBytes evidence =? 0)%Z || (ev_ReconstructionBytes evidence =? 0)%Z ||
           (ev_MaximumOutputBytes evidence =? 0)%Z || (ev_MaximumSelectedBytes evidence =? 0)%Z)
    with capacityEvidenceUnavailable ;;
  Ok (mkBudget quarantineAvailable (ev_ScanAvailableBytes evidence) (ev_ReconstructionAvailable evidence)
        (ev_DestinationAvailable evidence) (ev_RootOverlayBudgetBytes evidence)
        (ev_ArchiveExpansionBytes evidence) (ev_ReconstructionBytes evidence)
        (ev_MaximumOutputBytes evidence) (ev_MaximumSelectedBytes evidence)).

Definition mebibyte64 : Z := 67108864.
Definition minimumSafetyMargin : Z := 4294967296.
Definition minimumQuarantineMargin : Z := mebibyte64.
Definition minimumScanMargin : Z := mebibyte64.
Definition minimumReconstructionMargin : Z := mebibyte64.
Definition minimumDestinationMargin : Z := mebibyte64.

Definition stageMargin (value minimum : Z) : Z :=
  let margin := (value / 10)%Z in if (margin <? minimum)%Z then minimum else margin.

Fixpoint sumFrom (result : Z) (values : list Z) : Z * bool :=
  match values with
  | [] => (result, false)
  | value :: rest =>
      let '(result, overflow) := checkedAdd result value in
      if overflow then (0%Z, true) else sumFrom result rest
  end.

Definition sum (values : list Z) : Z * bool := sumFrom 0 values.

Definition selectFile (file : File) : File :=
  mkFile (f_Index file) (f_DisplayPath file) (f_SizeBytes file) true (f_SuspectedType file) (f_HazardCodes file).

(** The selection loop: the files with their flags, the selected size, whether
    an archive was selected. *)
Fixpoint selectLoop (safePolicy : bool) (indexes : list Z) (selected : gset Z)
    (files : list File) (size : Z) (archive : bool) : result torrent_error (list File * Z * bool) :=
  match indexes with
  | [] => Ok (files, size, archive)
  | index :: rest =>
      match files !! Z.to_nat index with
      | None => Err invalidSelection
      | Some file =>
          fail_if (bool_decide (index ∈ selected)) with invalidSelection ;;
          fail_if (safePolicy && hasBlockedType file) with blockedType ;;
          let archive := archive || hasArchive file in
          let '(size, overflow) := checkedAdd size (f_SizeBytes file) in
          fail_if overflow with insufficientCapacity ;;
          selectLoop safePolicy rest ({[index]} ∪ selected)
            (<[Z.to_nat index := selectFile file]> files) size archive
      end
  end.

Definition zeroBudget (budget : CapacityBudget) : bool :=
  (QuarantineAvailableBytes budget =? 0)%Z || (ScanAvailableBytes budget =? 0)%Z ||
  (ReconstructionAvailable budget =? 0)%Z || (DestinationAvailable budget =? 0)%Z ||
  (RootOverlayBudgetBytes budget =? 0)%Z || (ReconstructionBytes budget =? 0)%Z ||
  (MaximumOutputBytes budget =? 0)%Z || (MaximumSelectedBytes budget =? 0)%Z.

Definition overhead (value : Z) : Z :=
  let o := (value / 20)%Z in if (o <? mebibyte64)%Z then mebibyte64 else o.

(** The stage sums of [planSelection] for a selected size. *)
Definition planStages (selectedSize : Z) (archive : bool) (budget : CapacityBudget)
  : result torrent_error CapacityPlan :=
  fail_if ((selectedSize =? 0)%Z || (MaximumSelectedBytes budget <? selectedSize)%Z) with insufficientCapacity ;;
  let quarantineMargin := stageMargin selectedSize minimumQuarantineMargin in
  let '(quarantineRequired, overflow) := sum [selectedSize; overhead selectedSize; quarantineMargin] in
  fail_if overflow with insufficientCapacity ;;
  fail_if (archive && (ArchiveExpansionBytes budget =? 0)%Z) with insufficientCapacity ;;
  let expansion := if archive then ArchiveExpansionBytes budget else 0%Z in
  let scanMargin := stageMargin selectedSize minimumScanMargin in
  let '(scanRequired, overflow) := sum [selectedSize; scanMargin] in
  fail_if overflow with insufficientCapacity ;;
  let reconstructionMargin := stageMargin (ReconstructionBytes budget) minimumReconstructionMargin in
  let '(reconstructionRequired, overflow) := sum [expansion; ReconstructionBytes budget; reconstructionMargin] in
  fail_if overflow with insufficientCapacity ;;
  let destinationMargin := stageMargin (MaximumOutputBytes budget) minimumDestinationMargin in
  let '(destinationRequired, overflow) :=
    sum [MaximumOutputBytes budget; overhead (MaximumOutputBytes budget); destinationMargin] in
  fail_if overflow with insufficientCapacity ;;
  let safetyMargin := stageMargin selectedSize minimumSafetyMargin in
  let '(sessionRequired, overflow) :=
    sum [RootOverlayBudgetBytes budget; quarantineRequired; reconstructionRequired; safetyMargin] in
  fail_if (overflow || (QuarantineAvailableBytes budget <? quarantineRequired)%Z ||
           (ScanAvailableBytes budget <? scanRequired)%Z ||
           (ReconstructionAvailable budget <? reconstructionRequired)%Z ||
           (DestinationAvailable budget <? destinationRequired)%Z) with insufficientCapacity ;;
  Ok (mkPlan selectedSize quarantineRequired scanRequired reconstructionRequired destinationRequired
        sessionRequired safetyMargin quarantineMargin scanMargin reconstructionMargin destinationMargin).

Definition planSelection (metadata : Metadata) (indexes : list Z) (budget : CapacityBudget) (safePolicy : bool)
  : result torrent_error (Metadata * CapacityPlan) :=
  fail_if (negb (md_PayloadPaused metadata) || (len (md_Files metadata) =? 0)%Z || (len indexes =? 0)%Z ||
           (len (md_Files metadata) <? len indexes)%Z || zeroBudget budget) with invalidSelection ;;
  match selectLoop safePolicy indexes ∅ (md_Files metadata) 0 false with
  | Err e => Err e
  | Ok (files, size, archive) =>
      plan <-! planStages size archive budget ;;
      Ok (mkMetadata (md_DisplayName metadata) files (md_TotalSizeBytes metadata) size
            (md_PayloadPaused metadata), plan)
  end.

Definition PlanSelection (metadata : Metadata) (indexes : list Z) (evidence : CapacityEvidence)
    (quarantineAvailable : Z) (safePolicy : bool) : result torrent_error (Metadata * CapacityPlan) :=
  b <-! budget evidence quarantineAvailable ;;
  planSelection metadata indexes b safePolicy.

(** * Properties *)

(** ** The magnet grammar *)

(** One [key=value] field, with the number of info hashes it names. *)
Definition goodField (field : string) (n : Z) : Prop :=
  ∃ key value, field = String.append key (String "=" value) ∧ noByte "=" key ∧ key ≠ "" ∧ value ≠ "" ∧
    ((key = "xt" ∧ n = 1%Z ∧ ∃ hash, value = String.append btihPrefix hash ∧ validBTIH hash = true) ∨
     (key ≠ "xt" ∧ n = 0%Z)).

(** Fields separated by [&], a trailing separator allowed. *)
Inductive magnetQuery : string → Z → Prop :=
| query_end : magnetQuery "" 0
| query_last field n : noByte "&" field → goodField field n → magnetQuery field n
| query_more field n rest m :
    noByte "&" field → goodField field n → magnetQuery rest m →
    magnetQuery (String.append field (String "&" rest)) (n + m).

Lemma slen_zero s : (slen s =? 0)%Z = false ↔ s ≠ "".
Proof. unfold slen. rewrite Z.eqb_neq. by destruct s; simpl; split; intros; (done || lia). Qed.

Lemma magnetField_iff field n : magnetField field = Ok n ↔ goodField field n.
Proof.
  unfold magnetField, goodField. destruct (Cut "=" field) as [[key value] found] eqn:Hcut. split.
  - intros H. destruct found; simpl in H; [|done]. apply Cut_found in Hcut as [-> Hn].
    exists key, value. destruct (slen key =? 0)%Z eqn:Hk; [done|]. destruct (slen value =? 0)%Z eqn:Hv; [done|].
    apply slen_zero in Hk, Hv. simpl in H. split_and!; try done.
    destruct (bool_decide (key = "xt")) eqn:Hx; bool_hyps; [left|right; by simplify_eq].
    destruct (HasPrefix value btihPrefix) eqn:Hp; [|done].
    destruct (validBTIH _) eqn:Hb; [|done]. injection H as <-. split_and!; try done.
    eexists. split; [by apply prefix_drop|done].
  - intros (k & v & -> & Hn & Hk & Hv & Hcase). 
    rewrite (proj2 (Cut_found "=" _ k v) (conj eq_refl Hn)) in Hcut. injection Hcut as <- <- <-.
    apply slen_zero in Hk, Hv. rewrite Hk, Hv. cbn [negb orb].
    destruct Hcase as [(-> & -> & h & -> & Hb)|[Hx ->]].
    + by rewrite bool_decide_true, HasPrefix_append, drop_append, Hb.
    + by rewrite bool_decide_false.
Qed.

Lemma Cut_shorter sep s a b found :
  Cut sep s = (a, b, found) → (String.length (if found then b else "") < String.length s ∨ s = "")%nat.
Proof.
  destruct found; intros H.
  - apply Cut_found in H as [-> _]. left. rewrite append_length. simpl. lia.
  - destruct s; [by right|left; simpl; lia].
Qed.

(** Enough fuel always gives an answer. *)
Lemma magnetFields_total fuel query xt :
  (String.length query ≤ fuel)%nat → ∃ r, magnetFields fuel query xt = Some r.
Proof.
  revert query xt. induction fuel as [|fuel IH]; intros [|c query] xt Hf; simpl in Hf; try lia;
    [by eexists..|]. cbn [magnetFields].
  destruct (Cut "&" (String c query)) as [[field rest] found] eqn:Hcut.
  destruct (magnetField field) as [n|e]; [|by eexists].
  apply IH. apply Cut_shorter in Hcut as [Hl|?]; [|done]. simpl in Hl. lia.
Qed.

Lemma magnetFields_iff fuel query xt n :
  (String.length query ≤ fuel)%nat →
  magnetFields fuel query xt = Some (Ok n) ↔ magnetQuery query (n - xt).
Proof.
  revert query xt. induction fuel as [|fuel IH]; intros query xt Hf.
  - destruct query; simpl in *; [|lia]. split.
    + intros. simplify_eq. rewrite Z.sub_diag. constructor.
    + intros H. inversion H as [Hz|f k _ Hg|f k r j _ _ _ Hz]; subst; [do 2 f_equal; lia| |by destruct f].
      destruct Hg as (key & v & Hz & _). by destruct key.
  - destruct query as [|c q].
    { simpl. split.
      + intros. simplify_eq. rewrite Z.sub_diag. constructor.
      + intros H. inversion H as [Hz|f k _ Hg|f k r j _ _ _ Hz]; subst; [do 2 f_equal; lia| |by destruct f].
        destruct Hg as (key & v & Hz & _). by destruct key. }
    cbn [magnetFields]. destruct (Cut "&" (String c q)) as [[field rest] found] eqn:Hcut.
    pose proof (Cut_shorter _ _ _ _ _ Hcut) as [Hl|?]; [|done].
    assert (String.length (if found then rest else "") ≤ fuel)%nat as Hf' by (simpl in *; lia).
    split.
    + destruct (magnetField field) as [k|e] eqn:Hm; [|done]. apply magnetField_iff in Hm.
      intros H. apply IH in H; [|done]. destruct found.
      * apply Cut_found in Hcut as [-> Hn]. replace (n - xt)%Z with (k + (n - (xt + k)))%Z by lia.
        by constructor.
      * apply Cut_missing in Hcut as (-> & -> & Hn). simpl in H.
        inversion H as [Hz|f k' _ Hg|f k' r j _ _ _ Hz]; [|destruct Hg as (key & v & Hz & _); by destruct key|by destruct f].
        replace (n - xt)%Z with k by lia. by constructor.
    + intros H. inversion H as [Hz|f k Hn Hg|f k r j Hn Hg Hr Hz]; subst.
      * rewrite (proj2 (Cut_missing "&" _ (String c q) "") (conj eq_refl (conj eq_refl Hn))) in Hcut.
        injection Hcut as <- <- <-. apply magnetField_iff in Hg as ->. apply IH; [done|].
        replace (n - (xt + (n - xt)))%Z with 0%Z by lia. constructor.
      * rewrite <- Hz in Hcut. rewrite (proj2 (Cut_found "&" _ f r) (conj eq_refl Hn)) in Hcut.
        injection Hcut as <- <- <-. apply magnetField_iff in Hg as ->. apply IH; [done|].
        by replace (n - (xt + k))%Z with j by lia.
Qed.

(** The magnet gate terminates on every input and accepts exactly the
    bounded sources of its grammar: the magnet prefix, non-empty [key=value]
    fields without control bytes, and exactly one info hash in one of the two
    encodings. *)
Theorem validateMagnet_exact raw :
  validateMagnet raw ≠ None ∧
  (validateMagnet raw = Some (Ok tt) ↔
   ∃ query, raw = String.append magnetPrefix query ∧ query ≠ "" ∧ (slen raw ≤ MaximumMagnetBytes)%Z ∧
     ContainsAny raw magnetForbidden = false ∧ magnetQuery query 1).
Proof.
  unfold validateMagnet. set (query := drop_string (String.length magnetPrefix) raw).
  destruct (magnetFields_total (String.length query) query 0 (le_n _)) as [r Hr].
  pose proof (magnetFields_iff (String.length query) query 0 1 (le_n _)) as Hiff.
  rewrite Hr in Hiff |- *. change (1 - 0)%Z with 1%Z in Hiff.
  destruct (Z.ltb_spec MaximumMagnetBytes (slen raw)) as [Hmax|Hmax].
  { split; [done|]. split; [done|]. intros (q & _ & _ & ? & _). lia. }
  destruct (HasPrefix raw magnetPrefix) eqn:Hp.
  2:{ split; [done|]. split; [done|]. intros (q & -> & _). by rewrite HasPrefix_append in Hp. }
  destruct (ContainsAny raw magnetForbidden) eqn:Hc; cbn [negb orb].
  { split; [done|]. split; [done|]. intros (q & _ & _ & _ & ? & _). done. }
  assert (raw = String.append magnetPrefix query) as Hraw by (by apply prefix_drop).
  assert (∀ q, raw = String.append magnetPrefix q → q = query) as Huniq.
  { intros q Hq. unfold query. rewrite Hq. by rewrite drop_append. }
  destruct (slen query =? 0)%Z eqn:Hz.
  { split; [done|]. split; [done|]. intros (q & Hq & Hne & _). apply Huniq in Hq as ->.
    apply slen_zero in Hne. congruence. }
  apply slen_zero in Hz. cbn [mbind option_bind]. split; [done|]. split.
  - intros Hok. exists query. split_and!; try done. apply Hiff. destruct r as [n|]; [|done].
    destruct (n =? 1)%Z eqn:Hn; [|done]. apply Z.eqb_eq in Hn. by rewrite Hn.
  - intros (q & Hq & _ & _ & _ & Hm). apply Huniq in Hq as ->. by apply Hiff in Hm as [= ->].
Qed.

(** ** Safe relative paths *)

Section Paths.
Context (unicodeLower : N → N).
#[local] Abbreviation valid := (validateRelativePath unicodeLower).

Lemma validateRelativePath_elements p :
  valid p = Ok tt →
  HasPrefix p "/" = false ∧ ContainsAny p (String NUL (String CR (String LF "\"))) = false ∧
  (slen p ≤ MaximumPathBytes)%Z ∧ ValidString p = true ∧ Clean p = p ∧
  Forall (λ e, badElement unicodeLower e = false) (Split "/" p).
Proof.
  unfold validateRelativePath. intros H. destruct (_ || _) eqn:Hg in H; [done|].
  destruct (existsb _ _) eqn:He in H; [done|]. clear H. bool_hyps.
  split_and!; try done. apply Forall_forall. intros e Hin.
  destruct (badElement unicodeLower e) eqn:Hb; [|done]. apply list_elem_of_In in Hin.
  assert (existsb (badElement unicodeLower) (Split "/" p) = true) as Hx by (apply existsb_exists; eauto).
  congruence.
Qed.

Lemma badElement_plain e : badElement unicodeLower e = false → plainElement e.
Proof. unfold badElement, plainElement. intros H. bool_hyps. done. Qed.

(** A validated path cannot leave the directory it is placed in: joined
    below any absolute directory, lexical resolution yields that directory's
    elements followed by the path's own, unchanged; no element is empty, a
    reference to a directory or longer than 255 bytes, and the path has no NUL,
    line break or backslash. *)
Theorem validated_path_stays_inside p :
  valid p = Ok tt →
  Forall (λ e, plainElement e ∧ (slen e ≤ 255)%Z) (Split "/" p) ∧
  ContainsAny p (String NUL (String CR (String LF "\"))) = false ∧
  ∀ dir, IsAbs dir = true →
    cleanElements true (Split "/" (String.append dir (String "/" p))) =
    cleanElements true (Split "/" dir) ++ Split "/" p.
Proof.
  intros H. apply validateRelativePath_elements in H as (_ & Hc & _ & _ & _ & He). split_and!.
  - eapply Forall_impl; [done|]. intros e Hb. split; [by apply badElement_plain|].
    unfold badElement in Hb. bool_hyps. lia.
  - done.
  - intros dir _. rewrite Split_app. apply clean_below. eapply Forall_impl; [done|]. apply badElement_plain.
Qed.

End Paths.

(** The reserved-name check is defeated by an extension in upper case: the
    lower-cased name keeps the suffix that [path.Ext] returned in its original
    case, so [con.txt] is refused and [CON.TXT] is accepted, although both name
    the same device. *)
Theorem reserved_name_case_gap (unicodeLower : N → N) :
  validateRelativePath unicodeLower "docs/con.txt" = Err unsafeMetadata ∧
  validateRelativePath unicodeLower "docs/CON" = Err unsafeMetadata ∧
  validateRelativePath unicodeLower "docs/CON.TXT" = Ok tt.
Proof. by vm_compute. Qed.

(** ** Metadata *)

Definition sumSizes (files : list File) : Z := foldr (λ f acc, (f_SizeBytes f + acc)%Z) 0%Z files.

Lemma sumSizes_app a b : sumSizes (a ++ b) = (sumSizes a + sumSizes b)%Z.
Proof. induction a; simpl; lia. Qed.

Lemma checkedAdd_ok a b s : u64 a → u64 b → checkedAdd a b = (s, false) → s = (a + b)%Z ∧ u64 s.
Proof.
  unfold checkedAdd. intros Ha Hb H. simplify_eq/=. bool_hyps.
  destruct (add64_cases a b Ha Hb) as [[? Heq]|[? Heq]]; rewrite Heq in *; unfold u64 in *; lia.
Qed.

Section MetadataSound.
Context (NFC : string → string) (unicodeLower : N → N).

(** What the loop of [validateMetadata] maintains. *)
Record files_inv (files : list File) (total : Z) (seen seenFolded : gset string) : Prop := {
  fi_index i f : files !! i = Some f → f_Index f = Z.of_nat i;
  fi_fresh : Forall (λ f, f_Selected f = false ∧ (0 < f_SizeBytes f)%Z) files;
  fi_names : NoDup (map f_DisplayPath files);
  fi_folded : NoDup (map (λ f, ToLower unicodeLower (f_DisplayPath f)) files);
  fi_seen f : f ∈ files → (f_DisplayPath f ∈ seen) ∧ (ToLower unicodeLower (f_DisplayPath f) ∈ seenFolded);
  fi_total : total = sumSizes files ∧ u64 total
}.

Lemma validateFile_ok k rawFile seen seenFolded file normalized folded :
  validateFile NFC unicodeLower k rawFile seen seenFolded = Ok (file, normalized, folded) →
  f_Index file = Z.of_nat k ∧ f_DisplayPath file = NFC (rf_Path rawFile) ∧ normalized = f_DisplayPath file ∧
  folded = ToLower unicodeLower (f_DisplayPath file) ∧ f_SizeBytes file = rf_Size rawFile ∧
  rf_Size rawFile ≠ 0%Z ∧ f_Selected file = false ∧ (normalized ∉ seen) ∧ (folded ∉ seenFolded) ∧
  validateRelativePath unicodeLower (rf_Path rawFile) = Ok tt.
Proof.
  unfold validateFile. intros H. destruct (_ || _) eqn:Hg in H; [done|].
  destruct (validateRelativePath _ _) as [[]|] eqn:Hp; [|done].
  destruct (bool_decide _) eqn:H1 in H; [done|]. destruct (bool_decide _) eqn:H2 in H; [done|].
  destruct (classifyPath _ _) as [ty hz]. simplify_eq/=. bool_hyps. done.
Qed.

Lemma files_inv_snoc files total seen seenFolded k rawFile file normalized folded total' :
  files_inv files total seen seenFolded → length files = k → u64 (rf_Size rawFile) →
  validateFile NFC unicodeLower k rawFile seen seenFolded = Ok (file, normalized, folded) →
  checkedAdd total (rf_Size rawFile) = (total', false) →
  files_inv (files ++ [file]) total' ({[normalized]} ∪ seen) ({[folded]} ∪ seenFolded).
Proof.
  intros Hi Hk Hu Hv Hadd. destruct (fi_total _ _ _ _ Hi) as [Ht Htu].
  apply checkedAdd_ok in Hadd as [Htot Hu']; [|done..].
  apply validateFile_ok in Hv as (Hx & _ & -> & -> & Hs & Hnz & Hsel & Hn & Hf & _).
  split.
  - intros i f Hl. apply lookup_app_Some in Hl as [Hl|[Hge Hl]]; [by eapply fi_index|].
    apply list_lookup_singleton_Some in Hl as [Hz <-]. rewrite Hx. lia.
  - apply Forall_app. split; [by eapply fi_fresh|]. apply Forall_singleton. unfold u64 in *. split; [done|lia].
  - rewrite map_app. apply NoDup_snoc; [by eapply fi_names|]. intros Hin.
    apply list_elem_of_fmap in Hin as (f & Heq & Hin). apply (fi_seen _ _ _ _ Hi) in Hin as [Hin _]. congruence.
  - rewrite map_app. apply NoDup_snoc; [by eapply fi_folded|]. intros Hin.
    apply list_elem_of_fmap in Hin as (f & Heq & Hin). apply (fi_seen _ _ _ _ Hi) in Hin as [_ Hin].
    simpl in Heq. congruence.
  - intros f Hin. apply elem_of_app in Hin as [Hin| ->%list_elem_of_singleton]; [|set_solver].
    apply (fi_seen _ _ _ _ Hi) in Hin as [? ?]. set_solver.
  - split; [|done]. rewrite sumSizes_app. simpl. lia.
Qed.

Lemma validateFiles_inv raws : ∀ k seen seenFolded files total files' total',
  files_inv files total seen seenFolded → length files = k → Forall (λ r, u64 (rf_Size r)) raws →
  validateFiles NFC unicodeLower k raws seen seenFolded files total = Ok (files', total') →
  (∃ s1 s2, files_inv files' total' s1 s2) ∧ length files' = (k + length raws)%nat ∧
  ∃ added, files' = files ++ added ∧
    Forall2 (λ r f, f_DisplayPath f = NFC (rf_Path r) ∧ f_SizeBytes f = rf_Size r ∧
               validateRelativePath unicodeLower (rf_Path r) = Ok tt) raws added.
Proof.
  induction raws as [|r raws IH]; intros k seen seenFolded files total files' total' Hi Hk Hu H;
    cbn [validateFiles] in H.
  { simplify_eq. split_and!; [by eauto|simpl; lia|]. exists []. by rewrite app_nil_r. }
  destruct (validateFile _ _ _ _ _ _) as [[[file normalized] folded]|] eqn:Hv; [|done].
  destruct (checkedAdd _ _) as [tot ov] eqn:Hadd. destruct ov; [done|].
  apply Forall_cons in Hu as [Hr Hu].
  apply IH in H as (Hinv & Hl & added & -> & Hf); [| |by rewrite length_app; simpl; lia|done].
  - split_and!; [done|simpl; lia|]. exists (file :: added). split; [by rewrite <- app_assoc|].
    constructor; [|done]. apply validateFile_ok in Hv as (_ & ? & _ & _ & ? & _ & _ & _ & _ & ?). done.
  - by eapply files_inv_snoc.
Qed.

(** Accepted metadata is safe to show and to plan with: the files are
    numbered by position, non-empty and all unselected, their names come from
    validated paths and are pairwise distinct even after case folding, the
    total is the true sum of the sizes, and no payload byte has been read. *)
Theorem validateMetadata_sound raw md :
  Forall (λ r, u64 (rf_Size r)) (rm_Files raw) →
  validateMetadata NFC unicodeLower raw = Ok md →
  rm_PayloadRead raw = 0%Z ∧ md_PayloadPaused md = true ∧
  (1 ≤ len (md_Files md) ≤ MaximumFiles)%Z ∧
  (∀ i f, md_Files md !! i = Some f → f_Index f = Z.of_nat i) ∧
  Forall (λ f, f_Selected f = false ∧ (0 < f_SizeBytes f)%Z) (md_Files md) ∧
  Forall2 (λ r f, f_DisplayPath f = NFC (rf_Path r) ∧ f_SizeBytes f = rf_Size r ∧
             validateRelativePath unicodeLower (rf_Path r) = Ok tt) (rm_Files raw) (md_Files md) ∧
  NoDup (map (λ f, ToLower unicodeLower (f_DisplayPath f)) (md_Files md)) ∧
  md_TotalSizeBytes md = sumSizes (md_Files md).
Proof.
  intros Hu H. unfold validateMetadata in H. destruct (_ || _) eqn:Hg in H; [done|].
  destruct (validateFiles _ _ _ _ _ _ _ _) as [[files total]|] eqn:Hv; [|done]. injection H as <-.
  bool_hyps. apply validateFiles_inv in Hv as ((s1 & s2 & Hi) & Hl & added & Hadd & Hf); [| |done..].
  2:{ split; simpl; try done; try by constructor. set_solver. }
  simpl in *. subst files. unfold MaximumFiles, len in *. split_and!; try done; try lia.
  - apply (fi_index _ _ _ _ Hi).
  - by apply (fi_fresh _ _ _ _ Hi).
  - by apply (fi_folded _ _ _ _ Hi).
  - by apply (fi_total _ _ _ _ Hi).
Qed.

End MetadataSound.

(** ** Selection planning *)

Definition sizeAt (files : list File) (index : Z) : Z :=
  match files !! Z.to_nat index with Some f => f_SizeBytes f | None => 0%Z end.

Definition sumAt (files : list File) (indexes : list Z) : Z :=
  foldr (λ i acc, (sizeAt files i + acc)%Z) 0%Z indexes.

(** The flags after selecting [indexes]. *)
Definition flagged (indexes : list Z) (k : nat) (f : File) : File :=
  if bool_decide (Z.of_nat k ∈ indexes) then selectFile f else f.

Lemma flagged_nil files : imap (flagged []) files = files.
Proof.
  apply list_eq. intros k. rewrite list_lookup_imap. by destruct (files !! k).
Qed.

Lemma flagged_cons files i rest f :
  (0 ≤ i)%Z → files !! Z.to_nat i = Some f → (i ∉ rest) →
  imap (flagged rest) (<[Z.to_nat i := selectFile f]> files) = imap (flagged (i :: rest)) files.
Proof.
  intros H0 Hf Hn. apply list_eq. intros k. rewrite !list_lookup_imap.
  destruct (decide (k = Z.to_nat i)) as [->|Hk].
  - rewrite list_lookup_insert_eq by (by eapply lookup_lt_Some). rewrite Hf. simpl. f_equal. unfold flagged.
    rewrite Z2Nat.id by done. rewrite bool_decide_false by done. rewrite bool_decide_true by set_solver. done.
  - rewrite list_lookup_insert_ne by congruence. destruct (files !! k) as [g|]; simpl; [|done]. f_equal. unfold flagged.
    assert (Z.of_nat k ≠ i) by lia. by rewrite (bool_decide_ext (Z.of_nat k ∈ rest) (Z.of_nat k ∈ i :: rest)) by set_solver.
Qed.

Lemma sizeAt_insert files i f j :
  files !! Z.to_nat i = Some f → sizeAt (<[Z.to_nat i := selectFile f]> files) j = sizeAt files j.
Proof.
  intros Hf. unfold sizeAt. destruct (decide (Z.to_nat j = Z.to_nat i)) as [->|Hk].
  - by rewrite list_lookup_insert_eq, Hf by (by eapply lookup_lt_Some).
  - by rewrite list_lookup_insert_ne by congruence.
Qed.

Lemma sumAt_insert files i f idx :
  files !! Z.to_nat i = Some f → sumAt (<[Z.to_nat i := selectFile f]> files) idx = sumAt files idx.
Proof. intros Hf. induction idx as [|j idx IH]; simpl; [done|]. by rewrite IH, sizeAt_insert. Qed.

Lemma selectLoop_sound safe idx : ∀ sel files size archive files' size' archive',
  Forall (λ i, (0 ≤ i)%Z) idx → Forall (λ f, u64 (f_SizeBytes f)) files → u64 size →
  selectLoop safe idx sel files size archive = Ok (files', size', archive') →
  NoDup idx ∧ (∀ i, i ∈ idx → (i ∉ sel) ∧ (i < len files)%Z) ∧
  files' = imap (flagged idx) files ∧ size' = (size + sumAt files idx)%Z ∧ u64 size' ∧
  (safe = true → ∀ i f, i ∈ idx → files !! Z.to_nat i = Some f → hasBlockedType f = false).
Proof.
  induction idx as [|i idx IH]; intros sel files size archive files' size' archive' H0 Hu Hs H;
    cbn [selectLoop] in H.
  { simplify_eq. rewrite flagged_nil. split_and!; try done; try set_solver; [constructor|simpl; lia]. }
  apply Forall_cons in H0 as [Hi H0].
  destruct (files !! Z.to_nat i) as [f|] eqn:Hf; [|done].
  destruct (bool_decide (i ∈ sel)) eqn:Hsel; [done|]. destruct (safe && hasBlockedType f) eqn:Hb; [done|].
  destruct (checkedAdd size (f_SizeBytes f)) as [sz ov] eqn:Hadd. destruct ov; [done|]. bool_hyps.
  assert (u64 (f_SizeBytes f)) as Huf by (eapply (Forall_lookup_1 (λ f, u64 (f_SizeBytes f))); done).
  apply checkedAdd_ok in Hadd as [-> Hu']; [|done..].
  apply IH in H as (Hnd & Hin & -> & -> & Hu'' & Hsafe); [|done| |done].
  2:{ apply Forall_insert; done. }
  assert (i ∉ idx) as Hni by (intros Hx; apply Hin in Hx as [Hx _]; set_solver).
  split_and!.
  - by constructor.
  - intros j [->|Hj]%elem_of_cons.
    + split; [done|]. apply lookup_lt_Some in Hf. unfold len. lia.
    + apply Hin in Hj as [? Hl]. unfold len in *. rewrite length_insert in Hl. set_solver.
  - by apply flagged_cons.
  - rewrite sumAt_insert by done. change (sumAt files (i :: idx)) with (sizeAt files i + sumAt files idx)%Z.
    assert (sizeAt files i = f_SizeBytes f) as -> by (unfold sizeAt; by rewrite Hf). lia.
  - done.
  - intros -> j g [->|Hj]%elem_of_cons Hg; [by simplify_eq/=|].
    assert (Z.to_nat j ≠ Z.to_nat i).
    { intros Heq. apply Z2Nat.inj in Heq; [by subst| |done]. by apply (proj1 (Forall_forall _ _) H0 j Hj). }
    apply (Hsafe eq_refl j g Hj). by rewrite list_lookup_insert_ne by congruence.
Qed.

Lemma sumFrom_ok values : ∀ start s,
  u64 start → Forall u64 values → sumFrom start values = (s, false) →
  s = foldr Z.add start values ∧ u64 s.
Proof.
  induction values as [|v values IH]; intros start s Hs Hv H; cbn [sumFrom] in H; [by simplify_eq|].
  apply Forall_cons in Hv as [Hv Hvs]. destruct (checkedAdd start v) as [r ov] eqn:Hadd.
  destruct ov; [done|]. apply checkedAdd_ok in Hadd as [-> Hu]; [|done..].
  apply IH in H as [-> Hu']; [|done..]. split; [|done]. simpl. clear. revert v.
  induction values as [|x xs IH]; intros v; simpl; [lia|]. rewrite IH. lia.
Qed.

Lemma stageMargin_max value minimum : stageMargin value minimum = Z.max minimum (value / 10).
Proof. unfold stageMargin. destruct (Z.ltb_spec (value / 10) minimum); lia. Qed.

Lemma overhead_max value : overhead value = Z.max mebibyte64 (value / 20).
Proof. unfold overhead. destruct (Z.ltb_spec (value / 20) mebibyte64); lia. Qed.

Definition budgetWords (b : CapacityBudget) : Prop :=
  u64 (ArchiveExpansionBytes b) ∧ u64 (ReconstructionBytes b) ∧ u64 (MaximumOutputBytes b) ∧
  u64 (RootOverlayBudgetBytes b).

(** The four stages fit, over unbounded integers. *)
Definition stagesFit (size : Z) (archive : bool) (b : CapacityBudget) : Prop :=
  (0 < size ≤ MaximumSelectedBytes b ∧
   size + Z.max mebibyte64 (size / 20) + Z.max mebibyte64 (size / 10) ≤ QuarantineAvailableBytes b ∧
   size + Z.max mebibyte64 (size / 10) ≤ ScanAvailableBytes b ∧
   (if archive then ArchiveExpansionBytes b else 0) + ReconstructionBytes b +
     Z.max mebibyte64 (ReconstructionBytes b / 10) ≤ ReconstructionAvailable b ∧
   (archive = true → 0 < ArchiveExpansionBytes b) ∧
   MaximumOutputBytes b + Z.max mebibyte64 (MaximumOutputBytes b / 20) +
     Z.max mebibyte64 (MaximumOutputBytes b / 10) ≤ DestinationAvailable b)%Z.

Lemma div_u64 x k : u64 x → (0 < k)%Z → u64 (Z.max mebibyte64 (x / k)).
Proof.
  unfold u64, mebibyte64, two64. intros Hx Hk. split; [lia|]. apply Z.max_lub_lt; [lia|].
  apply Z.div_lt_upper_bound; [lia|]. nia.
Qed.

#[local] Ltac words := repeat (apply Forall_cons_2; [try done|]); [..|apply Forall_nil_2].

Lemma planStages_sound size archive b plan :
  u64 size → budgetWords b → planStages size archive b = Ok plan →
  SelectedBytes plan = size ∧ stagesFit size archive b.
Proof.
  intros Hs (Ha & Hr & Hm & Ho) H. unfold planStages in H.
  rewrite !overhead_max, !stageMargin_max in H.
  unfold minimumQuarantineMargin, minimumScanMargin, minimumReconstructionMargin, minimumDestinationMargin in H.
  destruct (_ || _) eqn:Hz in H; [done|].
  destruct (sum [size; Z.max mebibyte64 (size / 20); _]) as [q ov] eqn:H1. destruct ov; [done|].
  destruct (archive && _) eqn:Hx in H; [done|].
  destruct (sum [size; Z.max mebibyte64 (size / 10)]) as [sc ov] eqn:H2. destruct ov; [done|].
  destruct (sum [if archive then _ else _; _; _]) as [rc ov] eqn:H3. destruct ov; [done|].
  destruct (sum [MaximumOutputBytes b; _; _]) as [ds ov] eqn:H4. destruct ov; [done|].
  destruct (sum [RootOverlayBudgetBytes b; _; _; _]) as [se ov] eqn:H5.
  destruct (_ || _) eqn:Hf in H; [done|]. injection H as <-. bool_hyps.
  assert (u64 0) as Hzero by done. unfold sum in *.
  pose proof (div_u64 size 20 Hs ltac:(lia)). pose proof (div_u64 size 10 Hs ltac:(lia)).
  pose proof (div_u64 (ReconstructionBytes b) 10 Hr ltac:(lia)).
  pose proof (div_u64 (MaximumOutputBytes b) 20 Hm ltac:(lia)).
  pose proof (div_u64 (MaximumOutputBytes b) 10 Hm ltac:(lia)).
  apply sumFrom_ok in H1 as [-> _]; [|done|by words].
  apply sumFrom_ok in H2 as [-> _]; [|done|by words].
  apply sumFrom_ok in H3 as [-> _]; [|done|by words; destruct archive].
  apply sumFrom_ok in H4 as [-> _]; [|done|by words].
  simpl in *. split; [done|]. unfold stagesFit, u64 in *. split_and!; try lia.
  intros ->. simpl in Hx. bool_hyps. lia.
Qed.

(** An approved selection is honest and fits.  Each index names a distinct
    existing file, the selected size is the true sum of those files' sizes, the
    safe policy admits no executable, script, package or disk image, and the
    size with its overheads fits quarantine, scan, reconstruction (with an
    archive's expansion) and destination over unbounded integers.  The new
    metadata differs from the old one in the selected size and in the flags of
    the selected files only. *)
Theorem planSelection_sound md indexes b safe md' plan :
  Forall (λ i, (0 ≤ i)%Z) indexes → Forall (λ f, u64 (f_SizeBytes f)) (md_Files md) → budgetWords b →
  planSelection md indexes b safe = Ok (md', plan) →
  indexes ≠ [] ∧ NoDup indexes ∧ (∀ i, i ∈ indexes → (i < len (md_Files md))%Z) ∧
  SelectedBytes plan = sumAt (md_Files md) indexes ∧ md_SelectedSizeBytes md' = SelectedBytes plan ∧
  md_Files md' = imap (flagged indexes) (md_Files md) ∧
  (safe = true → ∀ i f, i ∈ indexes → md_Files md !! Z.to_nat i = Some f → hasBlockedType f = false) ∧
  ∃ archive, stagesFit (SelectedBytes plan) archive b.
Proof.
  intros H0 Hu Hb H. unfold planSelection in H. destruct (_ || _) eqn:Hg in H; [done|].
  destruct (selectLoop _ _ _ _ _ _) as [[[files size] archive]|] eqn:Hl; [|done].
  destruct (planStages _ _ _) as [p|] eqn:Hp; [|done]. injection H as <- <-. bool_hyps.
  apply selectLoop_sound in Hl as (Hnd & Hin & -> & -> & Hsz & Hsafe); [|done..].
  apply planStages_sound in Hp as [Hsel Hfit]; [|done..]. simpl. rewrite Hsel in *.
  split_and!; try done.
  - by destruct indexes.
  - intros i Hi. by apply Hin.
  - eauto.
Qed.

(** Files selected in earlier attempts. *)
Definition selectedFiles (md : Metadata) : list File := List.filter f_Selected (md_Files md).

Definition demoFile (i : Z) (path : string) (size : Z) : File :=
  mkFile i path size false "text" [].
Definition demoMetadata : Metadata :=
  mkMetadata "demo" [demoFile 0 "a.txt" 1000; demoFile 1 "b.txt" 3000] 4000 0 true.
Definition demoBudget : CapacityBudget :=
  mkBudget 1000000000 1000000000 1000000000 1000000000 1000000000 0 1000 1000 1000000000.

Definition demoSelect (md : Metadata) (indexes : list Z) : Metadata * CapacityPlan :=
  match planSelection md indexes demoBudget true with Ok r => r | Err _ => (emptyMetadata, emptyPlan) end.

(** Selecting again does not forget the earlier selection: after choosing
    the first file and then, instead, the second, the size counts the second
    alone but both files stay marked as selected. *)
Theorem reselection_keeps_stale_flags :
  ∃ first plan1 second plan2,
    planSelection demoMetadata [0%Z] demoBudget true = Ok (first, plan1) ∧
    planSelection first [1%Z] demoBudget true = Ok (second, plan2) ∧
    SelectedBytes plan2 = 3000%Z ∧ sumSizes (selectedFiles second) = 4000%Z.
Proof.
  set (first := demoSelect demoMetadata [0%Z]). set (second := demoSelect first.1 [1%Z]).
  exists first.1, first.2, second.1, second.2. split_and!; by vm_compute.
Qed.

(** ** Witnesses *)

Lemma validated_path_stays_inside_witness :
  validateRelativePath (λ cp, cp) "disc 1/track-01.flac" = Ok tt ∧
  cleanElements true (Split "/" "/mnt/quarantine/payload/disc 1/track-01.flac") =
  ["mnt"; "quarantine"; "payload"; "disc 1"; "track-01.flac"].
Proof.
  assert (validateRelativePath (λ cp, cp) "disc 1/track-01.flac" = Ok tt) as Hv by (by vm_compute).
  split; [done|].
  destruct (validated_path_stays_inside _ _ Hv) as (_ & _ & Hd).
  exact (Hd "/mnt/quarantine/payload" eq_refl).
Defined.

Definition demoRaw : RawMetadata :=
  mkRawMetadata true 0 "demo" [mkRawFile 0 "a.txt" 1000; mkRawFile 1 "sub/B.zip" 3000].

Lemma validateMetadata_sound_witness :
  match validateMetadata (λ s, s) (λ cp, cp) demoRaw with
  | Ok md => md_TotalSizeBytes md = 4000%Z ∧ sumSizes (md_Files md) = 4000%Z
  | Err _ => False
  end.
Proof.
  destruct (validateMetadata (λ s, s) (λ cp, cp) demoRaw) as [md|e] eqn:H; [|by vm_compute in H].
  assert (md_TotalSizeBytes md = 4000%Z) as Ht by (vm_compute in H; by simplify_eq).
  assert (Forall (λ r, u64 (rf_Size r)) (rm_Files demoRaw)) as Hu
    by (repeat (apply Forall_cons_2; [done|]); apply Forall_nil_2).
  destruct (validateMetadata_sound _ _ _ _ Hu H) as (_ & _ & _ & _ & _ & _ & _ & Hs).
  split; congruence.
Defined.

Lemma planSelection_sound_witness :
  SelectedBytes (demoSelect demoMetadata [0; 1]%Z).2 = 4000%Z ∧ NoDup [0; 1]%Z.
Proof.
  assert (planSelection demoMetadata [0; 1]%Z demoBudget true =
          Ok ((demoSelect demoMetadata [0; 1]%Z).1, (demoSelect demoMetadata [0; 1]%Z).2)) as H by (by vm_compute).
  split; [by vm_compute|].
  apply planSelection_sound in H; [apply H| | |by vm_compute].
  - repeat (apply Forall_cons_2; [done|]); apply Forall_nil_2.
  - repeat (apply Forall_cons_2; [done|]); apply Forall_nil_2.
Defined.
