(* ===== verification/TorrentController.v ===== *)
(** * The torrent controller

    Models [src/internal/torrent/controller.go]: the payload state machine of
    the downloader guest.  The qBittorrent client, the quarantine file system,
    the waiter and the destroyer are interfaces over a world [W]; each call
    returns its error and the next world.  Operations hold the controller's
    mutex for their whole duration, except [Monitor], which releases it around
    [emit] and [Wait]: its locked section is [monitorIteration] and the pause it
    performs after re-locking is [pauseAfterFailureLocked], so that other
    operations can be interleaved between them. *)

From Stdlib Require Import ZArith Lia Ascii.
From stdpp Require Import strings base tactics option gmap relations sorting list.
From S2P Require Import Prelude GoText TorrentModel.

Open Scope string_scope.
Open Scope list_scope.

Inductive State :=
| StateEmpty | StateMetadataFetching | StateSelectionRequired | StateCapacityVerified
| StateDownloading | StatePaused | StateDownloadComplete | StateSealing | StateSealed.

#[global] Instance State_eq_dec : EqDecision State.
Proof. solve_decision. Defined.

Inductive ClientState := ClientMetadata | ClientPaused | ClientRunning | ClientComplete | ClientError.

#[global] Instance ClientState_eq_dec : EqDecision ClientState.
Proof. solve_decision. Defined.

Record ClientStatus := mkClientStatus { cs_State : ClientState; cs_CompletedBytes : Z; cs_TotalBytes : Z }.

(** An error of an interface call: a context error or another one. *)
Inductive call_error := CallContext | CallFailed.

Definition isContextError (e : call_error) : bool := match e with CallContext => true | CallFailed => false end.

Definition metadataError (e : call_error) : torrent_error :=
  if isContextError e then contextError else metadataUnavailable.

(** A context: its deadline, if it has one, in nanoseconds of the clock.  A
    context may also be cancelled before, at any time. *)
Definition Context_ := option Z.

(** [boundedContext]: the earlier of the parent's deadline and [maximum] from
    [now]. *)
Definition boundedContext (parent : Context_) (maximum now : Z) : Context_ :=
  let deadline := (now + maximum)%Z in
  match parent with
  | Some current => if (current <? deadline)%Z then parent else Some deadline
  | None => Some deadline
  end.

(** [Backend], [Quarantine] and [DownloaderDestroyer], the clock, and the
    language's choice between a context that ends and a timer that fires at an
    instant, which answers as [timerWaiter] does: the context's error, or none
    when the timer was chosen. *)
Class Backend (W : Type) := {
  be_AddPaused : W → result call_error string * W;
  be_Metadata : string → W → result call_error RawMetadata * W;
  be_SetSelection : string → list Z → Z → W → result call_error unit * W;
  be_Start : string → W → result call_error unit * W;
  be_Pause : string → W → result call_error unit * W;
  be_Status : string → W → result call_error ClientStatus * W;
  be_VerifyCompleted : string → Metadata → W → result call_error (list FileDigest) * W;
  be_Shutdown : W → result call_error unit * W;
  q_CapacityBytes : W → result call_error Z * W;
  q_SyncAndUnmount : W → result call_error unit * W;
  w_Select : Context_ → Z → W → result call_error unit * W;
  w_Now : W → Z;
  d_DestroyAndAudit : W → result call_error unit * W
}.

Record Progress := mkProgress { CompletedBytes : Z; TotalBytes : Z }.

Record Config := mkConfig {
  SafePolicy : bool;
  MetadataTimeout : Z;
  PollInterval : Z;
  StallTimeout : Z
}.

(** The controller's fields; [backend], [quarantine] and [waiter] are the
    interface instance. *)
Record Controller := mkController {
  config : Config;
  state : State;
  handle : string;
  metadata : Metadata;
  plan : CapacityPlan;
  progress : Progress;
  manifest : list FileDigest;
  clientDown : bool;
  closed : bool
}.

Definition withState (c : Controller) (s : State) : Controller :=
  mkController (config c) s (handle c) (metadata c) (plan c) (progress c) (manifest c) (clientDown c) (closed c).

Definition withHandle (c : Controller) (h : string) : Controller :=
  mkController (config c) (state c) h (metadata c) (plan c) (progress c) (manifest c) (clientDown c) (closed c).

Definition withMetadata (c : Controller) (md : Metadata) : Controller :=
  mkController (config c) (state c) (handle c) md (plan c) (progress c) (manifest c) (clientDown c) (closed c).

Definition withPlan (c : Controller) (p : CapacityPlan) : Controller :=
  mkController (config c) (state c) (handle c) (metadata c) p (progress c) (manifest c) (clientDown c) (closed c).

Definition withProgress (c : Controller) (p : Progress) : Controller :=
  mkController (config c) (state c) (handle c) (metadata c) (plan c) p (manifest c) (clientDown c) (closed c).

Definition withManifest (c : Controller) (m : list FileDigest) : Controller :=
  mkController (config c) (state c) (handle c) (metadata c) (plan c) (progress c) m (clientDown c) (closed c).

Definition withClientDown (c : Controller) : Controller :=
  mkController (config c) (state c) (handle c) (metadata c) (plan c) (progress c) (manifest c) true (closed c).

(** Durations in nanoseconds. *)
Definition second : Z := 1000000000.
Definition defaultMetadataTimeout : Z := 120 * second.
Definition defaultPollInterval : Z := second.
Definition defaultStallTimeout : Z := 300 * second.
Definition maximumOperation : Z := 600 * second.

Definition orDefault (value default : Z) : Z := if (value =? 0)%Z then default else value.

Definition newController (cfg : Config) : result torrent_error Controller :=
  let cfg := mkConfig (SafePolicy cfg) (orDefault (MetadataTimeout cfg) defaultMetadataTimeout)
               (orDefault (PollInterval cfg) defaultPollInterval)
               (orDefault (StallTimeout cfg) defaultStallTimeout) in
  fail_if ((MetadataTimeout cfg <? second)%Z || (maximumOperation <? MetadataTimeout cfg)%Z ||
           (PollInterval cfg <=? 0)%Z || (60 * second <? PollInterval cfg)%Z ||
           (StallTimeout cfg <? second)%Z || (maximumOperation <? StallTimeout cfg)%Z) with invalidRequest ;;
  Ok (mkController cfg StateEmpty "" emptyMetadata emptyPlan (mkProgress 0 0) [] false false).

(** ** Matching a manifest with the selection *)

(** The loop over the manifest, deleting each matched file. *)
Fixpoint matchManifest (files : list FileDigest) (selected : gmap Z File) : result torrent_error (gmap Z File) :=
  match files with
  | [] => Ok selected
  | file :: rest =>
      match selected !! fd_SourceIndex file with
      | None => Err sealFailed
      | Some expected =>
          fail_if (negb (bool_decide (f_DisplayPath expected = fd_Path file)) ||
                   negb (f_SizeBytes expected =? fd_SizeBytes file)%Z) with sealFailed ;;
          matchManifest rest (delete (fd_SourceIndex file) selected)
      end
  end.

Definition selectedMap (md : Metadata) : gmap Z File :=
  fold_left (λ acc f, if f_Selected f then <[f_Index f := f]> acc else acc) (md_Files md) ∅.

Definition verifyManifestMatchesSelection (files : list FileDigest) (md : Metadata) : result torrent_error unit :=
  let selected := selectedMap md in
  fail_if (negb (Z.of_nat (size selected) =? len files)%Z) with sealFailed ;;
  rest <-! matchManifest files selected ;;
  fail_if (negb (Z.of_nat (size rest) =? 0)%Z) with sealFailed ;;
  Ok tt.

(** ** Status *)

Record Status := mkStatus {
  SchemaVersion : Z;
  st_State : State;
  st_Progress : Progress;
  st_Code : string;
  st_Remediation : string
}.

Definition statusText (s : State) : string * string :=
  match s with
  | StateEmpty => ("TORRENT_INPUT_REQUIRED", "Submit one bounded torrent source through the secure input path.")
  | StateMetadataFetching =>
      ("TORRENT_METADATA_FETCHING", "Wait for bounded metadata retrieval while payload remains paused.")
  | StateSelectionRequired =>
      ("TORRENT_SELECTION_REQUIRED", "Review hazards and explicitly select permitted files.")
  | StateCapacityVerified =>
      ("TORRENT_CAPACITY_VERIFIED", "Start payload transfer only while the VPN remains verified.")
  | StateDownloading =>
      ("TORRENT_DOWNLOADING", "Keep the VPN verified and continue bounded progress monitoring.")
  | StatePaused => ("TORRENT_DOWNLOAD_PAUSED", "Re-verify VPN health before an explicit resume.")
  | StateDownloadComplete =>
      ("TORRENT_DOWNLOAD_COMPLETE",
       "Verify, sync, unmount, and seal quarantine before destroying the downloader.")
  | StateSealing =>
      ("QUARANTINE_SEALING", "Keep scanner attachment blocked until sealing and downloader cleanup complete.")
  | StateSealed => ("QUARANTINE_SEALED", "Destroy and audit the downloader before scanner attachment.")
  end.

Definition statusLocked (c : Controller) (completed total : Z) : Status :=
  let '(code, remediation) := statusText (state c) in
  mkStatus 1 (state c) (mkProgress completed total) code remediation.

Section Operations.
Context {W : Type} `{!Backend W}.
Context (NFC : string → string) (unicodeLower : N → N).

(** [timerWaiter.Wait]: a timer of [duration] from now against the context. *)
Definition Wait (ctx : Context_) (duration : Z) (w : W) : result call_error unit * W :=
  w_Select ctx (w_Now w + duration) w.

(** The polling loop of [Add]; [None] when [fuel] polls were not enough. *)
Fixpoint addLoop (fuel : nat) (ctx : Context_) (c : Controller) (h : string) (w : W)
  : option (result torrent_error Metadata * Controller * W) :=
  match fuel with
  | O => None
  | S fuel =>
      match be_Pause h w with
      | (Err e, w) => Some (Err (metadataError e), c, w)
      | (Ok _, w) =>
          match be_Metadata h w with
          | (Err e, w) => Some (Err (metadataError e), c, w)
          | (Ok raw, w) =>
              if negb (rm_PayloadRead raw =? 0)%Z then Some (Err unsafeMetadata, c, w)
              else if rm_Available raw then
                match validateMetadata NFC unicodeLower raw with
                | Err e => Some (Err e, c, w)
                | Ok md =>
                    match be_SetSelection h [] (len (md_Files md)) w with
                    | (Err e, w) => Some (Err (metadataError e), c, w)
                    | (Ok _, w) => Some (Ok md, withState (withMetadata c md) StateSelectionRequired, w)
                    end
                end
              else
                match Wait ctx (PollInterval (config c)) w with
                | (Err e, w) => Some (Err (metadataError e), c, w)
                | (Ok _, w) => addLoop fuel ctx c h w
                end
          end
      end
  end.

Definition Add (fuel : nat) (ctx : Context_) (c : Controller) (w : W)
  : option (result torrent_error Metadata * Controller * W) :=
  if closed c || negb (bool_decide (state c = StateEmpty)) then Some (Err invalidRequest, c, w)
  else
    let operationCtx := boundedContext ctx (MetadataTimeout (config c)) (w_Now w) in
    match be_AddPaused w with
    | (Err _, w) => Some (Err invalidInput, c, w)
    | (Ok h, w) =>
        if negb (validHandle h) then Some (Err invalidInput, c, w)
        else addLoop fuel operationCtx (withState (withHandle c h) StateMetadataFetching) h w
    end.

Definition Metadata_ (c : Controller) : result torrent_error Metadata :=
  fail_if (closed c || bool_decide (state c = StateEmpty) || bool_decide (state c = StateMetadataFetching))
    with invalidRequest ;;
  Ok (metadata c).

Definition Select (c : Controller) (indexes : list Z) (evidence : CapacityEvidence) (w : W)
  : result torrent_error (Metadata * CapacityPlan) * Controller * W :=
  if closed c || (negb (bool_decide (state c = StateSelectionRequired)) &&
                  negb (bool_decide (state c = StateCapacityVerified))) then (Err invalidRequest, c, w)
  else
    match q_CapacityBytes w with
    | (Err e, w) => (Err (if isContextError e then contextError else capacityEvidenceUnavailable), c, w)
    | (Ok quarantineAvailable, w) =>
        match PlanSelection (metadata c) indexes evidence quarantineAvailable (SafePolicy (config c)) with
        | Err e => (Err e, c, w)
        | Ok (md, p) =>
            match be_SetSelection (handle c) indexes (len (md_Files md)) w with
            | (Err _, w) => (Err invalidSelection, c, w)
            | (Ok _, w) =>
                (Ok (md, p),
                 withState (withProgress (withPlan (withMetadata c md) p) (mkProgress 0 (SelectedBytes p)))
                   StateCapacityVerified, w)
            end
        end
    end.

Definition Start (c : Controller) (w : W) : result torrent_error unit * Controller * W :=
  if closed c || (negb (bool_decide (state c = StateCapacityVerified)) && negb (bool_decide (state c = StatePaused))) ||
     (SelectedBytes (plan c) =? 0)%Z then (Err notApproved, c, w)
  else
    match be_Start (handle c) w with
    | (Err _, w) => (Err downloadFailed, c, w)
    | (Ok _, w) => (Ok tt, withState c StateDownloading, w)
    end.

Definition Pause (c : Controller) (w : W) : result torrent_error unit * Controller * W :=
  if closed c || (negb (bool_decide (state c = StateDownloading)) && negb (bool_decide (state c = StatePaused)))
  then (Err invalidRequest, c, w)
  else
    match be_Pause (handle c) w with
    | (Err _, w) => (Err downloadFailed, c, w)
    | (Ok _, w) => (Ok tt, withState c StatePaused, w)
    end.

Definition pauseAfterFailureLocked (c : Controller) (w : W) : Controller * W :=
  let '(_, w) := be_Pause (handle c) w in (withState c StatePaused, w).

(** How the locked section of [Monitor] ends: a return, a status to emit
    before returning, or a status to emit before the next poll. *)
Inductive monitorOutcome :=
| MonitorReturn (e : torrent_error)
| MonitorComplete (s : Status)
| MonitorEmit (s : Status) (completed : Z).

Definition monitorIteration (c : Controller) (w : W) : monitorOutcome * Controller * W :=
  if closed c then (MonitorReturn invalidRequest, c, w)
  else if bool_decide (state c = StatePaused) then (MonitorReturn vpnLost, c, w)
  else if negb (bool_decide (state c = StateDownloading)) then (MonitorReturn notApproved, c, w)
  else
    match be_Status (handle c) w with
    | (Err e, w) =>
        let '(c, w) := pauseAfterFailureLocked c w in
        (MonitorReturn (if isContextError e then contextError else downloadFailed), c, w)
    | (Ok status, w) =>
        if negb (cs_TotalBytes status =? SelectedBytes (plan c))%Z || (cs_TotalBytes status <? cs_CompletedBytes status)%Z
        then let '(c, w) := pauseAfterFailureLocked c w in (MonitorReturn downloadFailed, c, w)
        else
          let c := withProgress c (mkProgress (cs_CompletedBytes status) (cs_TotalBytes status)) in
          if bool_decide (cs_State status = ClientError)
          then let '(c, w) := pauseAfterFailureLocked c w in (MonitorReturn downloadFailed, c, w)
          else if bool_decide (cs_State status = ClientComplete) && (cs_CompletedBytes status =? cs_TotalBytes status)%Z then
            match be_Pause (handle c) w with
            | (Err _, w) => (MonitorReturn downloadFailed, c, w)
            | (Ok _, w) =>
                let c := withState c StateDownloadComplete in
                (MonitorComplete (statusLocked c (cs_CompletedBytes status) (cs_TotalBytes status)), c, w)
            end
          else (MonitorEmit (statusLocked c (cs_CompletedBytes status) (cs_TotalBytes status))
                  (cs_CompletedBytes status), c, w)
    end.

(** [Monitor] without interference; [emit] may fail, [lastChange] is the clock
    reading of the last progress.  [None] when [fuel] polls were not enough. *)
Fixpoint monitorLoop (fuel : nat) (ctx : Context_) (emit : Status → W → result torrent_error unit * W)
    (lastProgress lastChange : Z) (c : Controller) (w : W)
  : option (result torrent_error unit * Controller * W) :=
  match fuel with
  | O => None
  | S fuel =>
      match monitorIteration c w with
      | (MonitorReturn e, c, w) => Some (Err e, c, w)
      | (MonitorComplete s, c, w) =>
          match emit s w with
          | (Err e, w) => Some (Err e, c, w)
          | (Ok _, w) => Some (Ok tt, c, w)
          end
      | (MonitorEmit s completed, c, w) =>
          let '(lastProgress, lastChange) :=
            if (lastProgress <? completed)%Z then (completed, w_Now w) else (lastProgress, lastChange) in
          match emit s w with
          | (Err e, w) => let '(c, w) := pauseAfterFailureLocked c w in Some (Err e, c, w)
          | (Ok _, w) =>
              if (StallTimeout (config c) <=? w_Now w - lastChange)%Z
              then let '(c, w) := pauseAfterFailureLocked c w in Some (Err downloadStalled, c, w)
              else
                match Wait ctx (PollInterval (config c)) w with
                | (Err e, w) =>
                    let '(c, w) := pauseAfterFailureLocked c w in
                    Some (Err (if isContextError e then contextError else otherError), c, w)
                | (Ok _, w) => monitorLoop fuel ctx emit lastProgress lastChange c w
                end
          end
      end
  end.

Definition Monitor (fuel : nat) (ctx : Context_) (emit : Status → W → result torrent_error unit * W) (c : Controller) (w : W)
  : option (result torrent_error unit * Controller * W) :=
  if closed c || negb (bool_decide (state c = StateDownloading)) then Some (Err notApproved, c, w)
  else monitorLoop fuel ctx emit 0 (w_Now w) c w.

Definition Status_ (c : Controller) (w : W) : result torrent_error Status * Controller * W :=
  if closed c then (Err invalidRequest, c, w)
  else if negb (bool_decide (state c = StateDownloading))
  then (Ok (statusLocked c (CompletedBytes (progress c)) (TotalBytes (progress c))), c, w)
  else
    match be_Status (handle c) w with
    | (Err _, w) => (Err downloadFailed, c, w)
    | (Ok status, w) =>
        if negb (cs_TotalBytes status =? SelectedBytes (plan c))%Z || (cs_TotalBytes status <? cs_CompletedBytes status)%Z
        then (Err downloadFailed, c, w)
        else
          let c := withProgress c (mkProgress (cs_CompletedBytes status) (cs_TotalBytes status)) in
          (Ok (statusLocked c (cs_CompletedBytes status) (cs_TotalBytes status)), c, w)
    end.

Definition OnVPNLoss (c : Controller) (w : W) : result torrent_error unit * Controller * W :=
  if negb (bool_decide (state c = StateDownloading)) then (Ok tt, c, w)
  else
    match be_Pause (handle c) w with
    | (Err _, w) => (Err downloadFailed, c, w)
    | (Ok _, w) => (Ok tt, withState c StatePaused, w)
    end.

(** The part of [Seal] that runs while the client is up. *)
Definition sealClient (c : Controller) (w : W) : result torrent_error Controller * W :=
  match be_VerifyCompleted (handle c) (metadata c) w with
  | (Err _, w) => (Err sealFailed, w)
  | (Ok files, w) =>
      match newManifest unicodeLower files with
      | Err e => (Err e, w)
      | Ok m =>
          match verifyManifestMatchesSelection m (metadata c) with
          | Err e => (Err e, w)
          | Ok _ =>
              match be_Shutdown w with
              | (Err _, w) => (Err sealFailed, w)
              | (Ok _, w) => (Ok (withClientDown (withManifest c m)), w)
              end
          end
      end
  end.

Definition Seal (c : Controller) (w : W) : result torrent_error (list FileDigest) * Controller * W :=
  if closed c ||
     (negb (bool_decide (state c = StateDownloadComplete)) &&
      negb (bool_decide (state c = StateSealing) && clientDown c && (0 <? len (manifest c))%Z))
  then (Err notApproved, c, w)
  else
    let c := withState c StateSealing in
    let '(r, w) := if clientDown c then (Ok c, w) else sealClient c w in
    match r with
    | Err e => (Err e, withState c StateDownloadComplete, w)
    | Ok c =>
        match q_SyncAndUnmount w with
        | (Err _, w) => (Err sealFailed, c, w)
        | (Ok _, w) => let c := withState c StateSealed in (Ok (manifest c), c, w)
        end
    end.

(** [Close]: both the pause and the shutdown are attempted; the controller is
    cleared only when neither failed. *)
Definition Close (c : Controller) (w : W) : result torrent_error unit * Controller * W :=
  if closed c then (Ok tt, c, w)
  else
    let '(pauseFailed, w) :=
      if validHandle (handle c) && negb (bool_decide (state c = StateSealed))
      then match be_Pause (handle c) w with (Err _, w) => (true, w) | (Ok _, w) => (false, w) end
      else (false, w) in
    let '(shutdownFailed, c, w) :=
      if validHandle (handle c) && negb (clientDown c)
      then match be_Shutdown w with
           | (Err _, w) => (true, c, w)
           | (Ok _, w) => (false, withClientDown c, w)
           end
      else if negb (validHandle (handle c)) then (false, withClientDown c, w)
      else (false, c, w) in
    if pauseFailed || shutdownFailed then (Err cleanupIncomplete, c, w)
    else (Ok tt, mkController (config c) (state c) "" emptyMetadata emptyPlan (mkProgress 0 0) [] (clientDown c) true, w).

(** ** The coordinator *)

Record SealedReceipt := mkReceipt { rcpt_manifest : list FileDigest; rcpt_ready : bool }.

Record Coordinator := mkCoordinator { co_controller : Controller; co_receipt : option SealedReceipt }.

Definition sealedManifest (c : Controller) : result torrent_error (list FileDigest) :=
  fail_if (closed c || negb (bool_decide (state c = StateSealed)) || (len (manifest c) =? 0)%Z) with invalidRequest ;;
  Ok (manifest c).

Definition SealAndDestroy (co : Coordinator) (w : W) : result torrent_error SealedReceipt * Coordinator * W :=
  match co_receipt co with
  | Some (mkReceipt m true) => (Ok (mkReceipt m true), co, w)
  | _ =>
      let '(m, c, w) :=
        match sealedManifest (co_controller co) with
        | Ok m => (Ok m, co_controller co, w)
        | Err _ => Seal (co_controller co) w
        end in
      match m with
      | Err e => (Err e, mkCoordinator c (co_receipt co), w)
      | Ok m =>
          match d_DestroyAndAudit w with
          | (Err _, w) => (Err cleanupIncomplete, mkCoordinator c (co_receipt co), w)
          | (Ok _, w) => (Ok (mkReceipt m true), mkCoordinator c (Some (mkReceipt m true)), w)
          end
      end
  end.

End Operations.

#[global] Arguments validHandle : simpl never.

(** * Properties *)

(** ** The manifest is the selection *)

Definition digestKey (d : FileDigest) : Z * string * Z := (fd_SourceIndex d, fd_Path d, fd_SizeBytes d).
Definition fileKey (f : File) : Z * string * Z := (f_Index f, f_DisplayPath f, f_SizeBytes f).

Lemma matchManifest_ok files : ∀ selected rest,
  (∀ i f, selected !! i = Some f → f_Index f = i) → matchManifest files selected = Ok rest →
  ∃ matched : list (Z * File),
    map_to_list selected ≡ₚ matched ++ map_to_list rest ∧ map digestKey files = map (λ p, fileKey p.2) matched.
Proof.
  induction files as [|d files IH]; intros selected rest Hk H; cbn [matchManifest] in H.
  { simplify_eq. by exists []. }
  destruct (selected !! fd_SourceIndex d) as [f|] eqn:Hl; [|done].
  destruct (_ || _) eqn:Hg in H; [done|]. bool_hyps.
  apply IH in H as (matched & Hp & Hm).
  - exists ((fd_SourceIndex d, f) :: matched). split.
    + rewrite <- (map_to_list_delete selected _ f Hl). simpl. by rewrite Hp.
    + simpl. rewrite Hm. f_equal. unfold digestKey, fileKey. apply Hk in Hl. simpl. congruence.
  - intros i g Hi. apply lookup_delete_Some in Hi as [_ Hi]. by apply Hk.
Qed.

Lemma selectedMap_list md :
  selectedMap md = list_to_map (map (λ f, (f_Index f, f)) (List.filter f_Selected (rev (md_Files md)))).
Proof.
  unfold selectedMap. rewrite <- fold_left_rev_right. induction (rev (md_Files md)) as [|f l IH]; simpl; [done|].
  rewrite IH. by destruct (f_Selected f).
Qed.

Lemma filter_rev {A} (p : A → bool) l : List.filter p (rev l) = rev (List.filter p l).
Proof.
  induction l as [|x l IH]; simpl; [done|]. rewrite List.filter_app, IH. simpl.
  destruct (p x); simpl; [done|]. by rewrite app_nil_r.
Qed.

Lemma filter_sublist {A} (p : A → bool) l : sublist (List.filter p l) l.
Proof. induction l as [|x l IH]; simpl; [constructor|]. destruct (p x); by constructor. Qed.

Lemma selectedMap_keys md :
  NoDup (map f_Index (md_Files md)) →
  map_to_list (selectedMap md) ≡ₚ map (λ f, (f_Index f, f)) (selectedFiles md).
Proof.
  intros Hn. rewrite selectedMap_list, map_to_list_to_map.
  - rewrite filter_rev. unfold selectedFiles. by rewrite (Permutation_rev (List.filter f_Selected (md_Files md))) at 2.
  - rewrite <- list_fmap_compose. rewrite filter_rev.
    apply (sublist_NoDup _ (map f_Index (rev (md_Files md)))).
    + rewrite map_rev. rewrite <- Permutation_rev. done.
    + rewrite <- filter_rev. apply (fmap_sublist f_Index). apply filter_sublist.
Qed.

(** A manifest that passes the check lists exactly the selected files. *)
Lemma verify_permutation files md :
  NoDup (map f_Index (md_Files md)) → verifyManifestMatchesSelection files md = Ok tt →
  map digestKey files ≡ₚ map fileKey (selectedFiles md).
Proof.
  intros Hn H. unfold verifyManifestMatchesSelection in H.
  destruct (negb _) eqn:Hs in H; [done|]. destruct (matchManifest _ _) as [rest|] eqn:Hm; [|done].
  destruct (negb _) eqn:Hr in H; [done|]. bool_hyps.
  apply matchManifest_ok in Hm as (matched & Hp & ->).
  - assert (rest = ∅) as -> by (apply map_size_empty_inv; lia).
    rewrite map_to_list_empty, app_nil_r, selectedMap_keys in Hp by done.
    rewrite <- Hp. by rewrite map_map.
  - intros i f Hi. rewrite selectedMap_list in Hi. apply elem_of_list_to_map_2 in Hi.
    apply list_elem_of_fmap in Hi as (g & ? & _). by simplify_eq.
Qed.

Section Properties.
Context {W : Type} `{!Backend W}.
Context (NFC : string → string) (unicodeLower : N → N).
Implicit Types (c : Controller) (w : W).

(** ** Sealing *)

Lemma sealClient_ok c w c' w' :
  sealClient unicodeLower c w = (Ok c', w') →
  ∃ files w1, be_VerifyCompleted (handle c) (metadata c) w = (Ok files, w1) ∧
    newManifest unicodeLower files = Ok files ∧
    verifyManifestMatchesSelection files (metadata c) = Ok tt ∧
    be_Shutdown w1 = (Ok tt, w') ∧ c' = withClientDown (withManifest c files).
Proof.
  unfold sealClient. intros H. destruct (be_VerifyCompleted _ _ w) as [[files|] w1] eqn:Hv; [|done].
  destruct (newManifest unicodeLower files) as [m|] eqn:Hm; [|done].
  assert (m = files) as -> by (unfold newManifest in Hm; by guards).
  destruct (verifyManifestMatchesSelection files _) as [[]|] eqn:Hc; [|done].
  destruct (be_Shutdown w1) as [[[]|] w2] eqn:Hs; [|done]. injection H as <- <-. by exists files, w1.
Qed.

(** C6: sealing is earned: when sealing succeeds on a running client, the
    returned manifest was verified by the client, lists exactly the selected
    files (index, path and size, each once) with non-zero digests and safe
    paths, the client was shut down after that verification, and the file
    system was synced and unmounted after the shutdown, as the last call. *)
Theorem seal_is_verified c w m c' w' :
  NoDup (map f_Index (md_Files (metadata c))) → clientDown c = false →
  Seal unicodeLower c w = (Ok m, c', w') →
  closed c = false ∧ state c = StateDownloadComplete ∧ state c' = StateSealed ∧
  manifest c' = m ∧ clientDown c' = true ∧
  map digestKey m ≡ₚ map fileKey (selectedFiles (metadata c)) ∧
  Forall (λ d, badDigest unicodeLower d = false) m ∧
  ∃ w1 w2, be_VerifyCompleted (handle c) (metadata c) w = (Ok m, w1) ∧ be_Shutdown w1 = (Ok tt, w2) ∧
    q_SyncAndUnmount w2 = (Ok tt, w').
Proof.
  intros Hn Hd H. unfold Seal in H. destruct (_ || _) eqn:Hg in H; [done|]. simpl in H. rewrite Hd in H, Hg.
  rewrite andb_false_r in Hg. simpl in Hg. rewrite andb_true_r in Hg. bool_hyps.
  destruct (sealClient _ _ _) as [[c1|] w1] eqn:Hs; [|done].
  apply sealClient_ok in Hs as (files & w2 & Hv & Hm & Hk & Hsh & ->). simpl in *.
  destruct (q_SyncAndUnmount w1) as [[[]|] w3] eqn:Hq; [|done]. simplify_eq/=.
  split_and!; try done.
  - by apply verify_permutation.
  - unfold newManifest in Hm. destruct (_ || _) in Hm; [done|]. destruct (existsb _ _) eqn:He in Hm; [done|].
    apply Forall_forall. intros d Hin. destruct (badDigest unicodeLower d) eqn:Hb; [|done].
    assert (existsb (badDigest unicodeLower) m = true) as Hx; [|congruence].
    apply existsb_exists. exists d. split; [by apply list_elem_of_In|done].
  - by exists w2, w1.
Qed.

(** ** Gates before payload *)

Definition noBlockedFlag (files : list File) : Prop :=
  Forall (λ f, f_Selected f = true → hasBlockedType f = false) files.

Lemma selectLoop_noBlocked idx : ∀ sel files size archive files' size' archive',
  selectLoop true idx sel files size archive = Ok (files', size', archive') →
  noBlockedFlag files → noBlockedFlag files'.
Proof.
  induction idx as [|i idx IH]; intros sel files size archive files' size' archive' H Hf; cbn [selectLoop] in H.
  { by simplify_eq. }
  destruct (files !! Z.to_nat i) as [f|] eqn:Hl; [|done].
  destruct (bool_decide (i ∈ sel)); [done|]. destruct (true && hasBlockedType f) eqn:Hb; [done|].
  destruct (checkedAdd _ _) as [sz ov]. destruct ov; [done|]. apply IH in H; [done|].
  apply Forall_insert; [done|]. intros _. exact Hb.
Qed.

Lemma planSelection_noBlocked md idx b md' p :
  planSelection md idx b true = Ok (md', p) → noBlockedFlag (md_Files md) → noBlockedFlag (md_Files md').
Proof.
  unfold planSelection. intros H Hf. destruct (_ || _) in H; [done|].
  destruct (selectLoop _ _ _ _ _ _) as [[[files size] archive]|] eqn:Hl; [|done].
  destruct (planStages _ _ _); [|done]. simplify_eq/=. by eapply selectLoop_noBlocked.
Qed.

Definition unselected (files : list File) : Prop := Forall (λ f, f_Selected f = false) files.

Lemma unselected_noBlocked files : unselected files → noBlockedFlag files.
Proof. intros H. eapply Forall_impl; [exact H|]. intros f Hf. by rewrite Hf. Qed.

Lemma validateFiles_unselected raws : ∀ k seen seenFolded files total files' total',
  validateFiles NFC unicodeLower k raws seen seenFolded files total = Ok (files', total') →
  unselected files → unselected files'.
Proof.
  induction raws as [|r raws IH]; intros k seen seenFolded files total files' total' H Hf;
    cbn [validateFiles] in H; [by simplify_eq|].
  destruct (validateFile _ _ _ _ _ _) as [[[file nn] fo]|] eqn:Hv; [|done].
  destruct (checkedAdd _ _) as [tot ov]. destruct ov; [done|]. apply IH in H; [done|].
  apply Forall_app. split; [done|]. apply Forall_singleton.
  apply validateFile_ok in Hv as (_ & _ & _ & _ & _ & _ & Hs & _). congruence.
Qed.

Lemma validateMetadata_unselected raw md :
  validateMetadata NFC unicodeLower raw = Ok md → md_PayloadPaused md = true ∧ unselected (md_Files md).
Proof.
  unfold validateMetadata. intros H. destruct (_ || _) in H; [done|].
  destruct (validateFiles _ _ _ _ _ _ _ _) as [[files total]|] eqn:Hv; [|done]. simplify_eq/=.
  split; [done|]. eapply validateFiles_unselected; [done|by apply Forall_nil_2].
Qed.

(** What the payload states rest on: a validated handle, a plan approved for
    exactly this metadata under the configured policy, and, under the safe
    policy, no blocked type among the selected files. *)
Definition approved c : Prop :=
  validHandle (handle c) = true ∧ SelectedBytes (plan c) ≠ 0%Z ∧
  (∃ md0 indexes evidence available,
     PlanSelection md0 indexes evidence available (SafePolicy (config c)) = Ok (metadata c, plan c)) ∧
  (SafePolicy (config c) = true → noBlockedFlag (md_Files (metadata c))).

Definition beforeApproval (s : State) : bool :=
  match s with StateEmpty | StateMetadataFetching | StateSelectionRequired => true | _ => false end.

Definition gates c : Prop :=
  closed c = true ∨
  ((state c = StateSelectionRequired ∨ beforeApproval (state c) = false →
    validHandle (handle c) = true ∧ (SafePolicy (config c) = true → noBlockedFlag (md_Files (metadata c)))) ∧
   (beforeApproval (state c) = false → approved c)).

(** A controller and the monitors that are emitting or waiting without the lock. *)
Inductive tstep : Controller * nat → Controller * nat → Prop :=
| ts_Add fuel ctx c n w r c' w' : Add NFC unicodeLower fuel ctx c w = Some (r, c', w') → tstep (c, n) (c', n)
| ts_Select c n idx ev w r c' w' : Select c idx ev w = (r, c', w') → tstep (c, n) (c', n)
| ts_Start c n w r c' w' : Start c w = (r, c', w') → tstep (c, n) (c', n)
| ts_Pause c n w r c' w' : Pause c w = (r, c', w') → tstep (c, n) (c', n)
| ts_Status c n w r c' w' : Status_ c w = (r, c', w') → tstep (c, n) (c', n)
| ts_Loss c n w r c' w' : OnVPNLoss c w = (r, c', w') → tstep (c, n) (c', n)
| ts_Seal c n w r c' w' : Seal unicodeLower c w = (r, c', w') → tstep (c, n) (c', n)
| ts_Close c n w r c' w' : Close c w = (r, c', w') → tstep (c, n) (c', n)
| ts_Poll c n w s k c' w' : monitorIteration c w = (MonitorEmit s k, c', w') → tstep (c, n) (c', S n)
| ts_PollEnd c n w r c' w' :
    monitorIteration c w = (r, c', w') → (∀ s k, r ≠ MonitorEmit s k) → tstep (c, n) (c', n)
| ts_Resume c n : tstep (c, S n) (c, n)
| ts_Fail c n w c' w' : pauseAfterFailureLocked c w = (c', w') → tstep (c, S n) (c', n).

Lemma approved_gates c : approved c → gates c.
Proof. intros (Hh & Hp & Hx & Hb). right. split; [by split|]. intros _. by repeat split. Qed.

Lemma addLoop_gates fuel ctx c h w r c' w' :
  addLoop NFC unicodeLower fuel ctx c h w = Some (r, c', w') →
  handle c = h → validHandle h = true → state c = StateMetadataFetching → gates c'.
Proof.
  revert w. induction fuel as [|fuel IH]; intros w H Hh Hv Hs; cbn [addLoop] in H; [done|].
  assert (gates c) as Hg by (right; rewrite Hs; split; [by intros [?|?]|done]).
  destruct (be_Pause h w) as [[[]|] w1]; [|by simplify_eq].
  destruct (be_Metadata h w1) as [[raw|] w2]; [|by simplify_eq].
  destruct (negb _) in H; [by simplify_eq|]. destruct (rm_Available raw).
  - destruct (validateMetadata _ _ _) as [md|] eqn:Hm; [|by simplify_eq].
    destruct (be_SetSelection _ _ _ w2) as [[[]|] w3]; [|by simplify_eq]. simplify_eq.
    apply validateMetadata_unselected in Hm as [_ Hn%unselected_noBlocked]. right. simpl. by split.
  - destruct (Wait ctx _ w2) as [[[]|] w3]; [by eapply IH|by simplify_eq].
Qed.

(** Steps that leave handle, metadata, plan, policy and [closed] alone. *)
Definition same_core c c' : Prop :=
  config c' = config c ∧ handle c' = handle c ∧ metadata c' = metadata c ∧ plan c' = plan c ∧ closed c' = closed c.

Lemma approved_core c c' : same_core c c' → approved c → approved c'.
Proof. intros (H1 & H2 & H3 & H4 & _). unfold approved. by rewrite H1, H2, H3, H4. Qed.

(** Steps that keep the core and stay on their side of the approval. *)
Definition keeps c c' : Prop :=
  same_core c c' ∧
  (state c' = state c ∨ (beforeApproval (state c) = false ∧ beforeApproval (state c') = false)).

Lemma gates_keeps c c' : keeps c c' → gates c → gates c'.
Proof.
  intros [Hc Hs] [Hcl|[H1 H2]]; [left; destruct Hc as (_ & _ & _ & _ & ->); done|].
  destruct Hs as [Hs|[Hs _]]; [|by eapply approved_gates, approved_core, H2].
  right. rewrite Hs. split; [|intros Hb; by eapply approved_core, H2].
  intros Hx. destruct Hc as (-> & -> & -> & _). by apply H1.
Qed.

(** No monitor is in flight before a plan was approved. *)
Definition flight_inv (s : Controller * nat) : Prop :=
  gates s.1 ∧ (s.2 ≠ 0%nat → closed s.1 = true ∨ beforeApproval (state s.1) = false).

Lemma flight_keeps c c' n : keeps c c' → flight_inv (c, n) → flight_inv (c', n).
Proof.
  intros Hk [Hg Hn]. split; [by eapply gates_keeps|]. simpl in *. intros Hz. destruct Hk as [Hc Hs].
  destruct (Hn Hz) as [Hcl|Hb]; [left; destruct Hc as (_ & _ & _ & _ & ->); done|right].
  destruct Hs as [->|[_ ?]]; done.
Qed.

#[local] Ltac kept := simplify_eq/=; split; [done|]; (by left) || (right; split; done).

Lemma monitorIteration_keeps c w r c' w' :
  monitorIteration c w = (r, c', w') →
  keeps c c' ∧ ((∃ s k, r = MonitorEmit s k) → beforeApproval (state c') = false).
Proof.
  unfold monitorIteration, pauseAfterFailureLocked. intros H.
  destruct (closed c) eqn:Hc; [split; [kept|simplify_eq; by intros (? & ? & ?)]|].
  destruct (bool_decide (state c = StatePaused)); [split; [kept|simplify_eq; by intros (? & ? & ?)]|].
  destruct (bool_decide (state c = StateDownloading)) eqn:Hd; cbn [negb] in H;
    [|split; [kept|simplify_eq; by intros (? & ? & ?)]].
  bool_hyps. assert (beforeApproval (state c) = false) as Hb by (by rewrite Hd).
  destruct (be_Status _ w) as [[status|e] w1].
  2:{ destruct (be_Pause _ w1). split; [kept|by simplify_eq]. }
  destruct (_ || _) in H; [destruct (be_Pause _ w1); split; [kept|by simplify_eq]|].
  destruct (bool_decide _) in H; [destruct (be_Pause _ w1); split; [kept|by simplify_eq]|].
  destruct (_ && _) in H; [|split; [kept|by simplify_eq]].
  destruct (be_Pause _ w1) as [[[]|] w2]; split; try kept; by simplify_eq.
Qed.

Lemma Select_gates c idx ev w r c' w' :
  Select c idx ev w = (r, c', w') → gates c → c' = c ∨ (approved c' ∧ beforeApproval (state c') = false).
Proof.
  unfold Select. intros H Hg. destruct (_ || _) eqn:Hs in H; [by simplify_eq; left|]. bool_hyps.
  destruct (q_CapacityBytes w) as [[q|] w1]; [|by simplify_eq; left].
  destruct (PlanSelection _ _ _ _ _) as [[md p]|] eqn:Hp; [|by simplify_eq; left].
  destruct (be_SetSelection _ _ _ w1) as [[[]|] w2]; [|by simplify_eq; left]. simplify_eq. right.
  split; [|done]. destruct Hg as [Hg|[Hg _]]; [congruence|].
  assert (validHandle (handle c) = true ∧
          (SafePolicy (config c) = true → noBlockedFlag (md_Files (metadata c)))) as [Hv Hb].
  { apply Hg. destruct (state c); simpl in *; auto. }
  unfold approved; simpl. split_and!; try done.
  - unfold PlanSelection, planSelection, planStages in Hp. destruct (budget ev q); [|done].
    destruct (_ || _) in Hp; [done|]. destruct (selectLoop _ _ _ _ _ _) as [[[fs sz] ar]|]; [|done].
    destruct (_ || _) eqn:Hz in Hp; [done|]. bool_hyps. by guards.
  - eauto.
  - intros Hsafe. unfold PlanSelection in Hp. destruct (budget ev q); [|done]. rewrite Hsafe in Hp.
    eapply planSelection_noBlocked; [done|auto].
Qed.

Lemma Close_cases c w r c' w' : Close c w = (r, c', w') → closed c' = true ∨ keeps c c'.
Proof.
  unfold Close. intros H. destruct (closed c) eqn:Hc; [by simplify_eq; left|].
  destruct (if validHandle (handle c) && negb (bool_decide (state c = StateSealed)) then _ else _) as [pf w1] eqn:Hp.
  destruct (if validHandle (handle c) && negb (clientDown c) then _ else _) as [[sf c1] w2] eqn:Hq.
  destruct (pf || sf); [|by simplify_eq; left]. injection H as _ <- _. right. clear Hp.
  destruct (validHandle (handle c)), (clientDown c); simpl in Hq; try kept.
  destruct (be_Shutdown w1) as [[[]|] w3]; kept.
Qed.

Lemma Seal_keeps c w r c' w' : Seal unicodeLower c w = (r, c', w') → keeps c c'.
Proof.
  unfold Seal. intros H. destruct (_ || _) eqn:Hg in H; [kept|].
  assert (beforeApproval (state c) = false) as Hb.
  { destruct (bool_decide (state c = StateDownloadComplete)) eqn:Hst1; bool_hyps; [by rewrite Hst1|].
    destruct (bool_decide (state c = StateSealing)) eqn:Hst2; bool_hyps; [by rewrite Hst2|].
    simpl in *. by bool_hyps. }
  simpl in H. destruct (clientDown c).
  - destruct (q_SyncAndUnmount w) as [[[]|] w2]; kept.
  - destruct (sealClient _ _ _) as [[c1|] w1] eqn:Hs; [|kept].
    apply sealClient_ok in Hs as (files & w2 & _ & _ & _ & _ & ->).
    destruct (q_SyncAndUnmount w1) as [[[]|] w3]; kept.
Qed.

Lemma Start_keeps c w r c' w' : Start c w = (r, c', w') → keeps c c'.
Proof.
  unfold Start. intros H. destruct (_ || _) eqn:Hg in H; [kept|].
  assert (beforeApproval (state c) = false) as Hb.
  { apply orb_false_iff in Hg as [Hg _]. apply orb_false_iff in Hg as [_ Hg]. by destruct (state c). }
  destruct (be_Start _ w) as [[[]|] w1]; kept.
Qed.

Lemma Pause_keeps c w r c' w' : Pause c w = (r, c', w') → keeps c c'.
Proof.
  unfold Pause. intros H. destruct (_ || _) eqn:Hg in H; [kept|].
  assert (beforeApproval (state c) = false) as Hb.
  { apply orb_false_iff in Hg as [_ Hg]. by destruct (state c). }
  destruct (be_Pause _ w) as [[[]|] w1]; kept.
Qed.

Lemma OnVPNLoss_keeps c w r c' w' : OnVPNLoss c w = (r, c', w') → keeps c c'.
Proof.
  unfold OnVPNLoss. intros H. destruct (negb _) eqn:Hg in H; [kept|].
  assert (beforeApproval (state c) = false) as Hb by (by destruct (state c)).
  destruct (be_Pause _ w) as [[[]|] w1]; kept.
Qed.

Lemma Status_keeps c w r c' w' : Status_ c w = (r, c', w') → keeps c c'.
Proof.
  unfold Status_. intros H. destruct (closed c) eqn:Hc; [kept|]. destruct (negb _) in H; [kept|].
  destruct (be_Status _ w) as [[st|] w1]; [|kept]. destruct (_ || _) in H; kept.
Qed.

Lemma tstep_gates s s' : tstep s s' → flight_inv s → flight_inv s'.
Proof.
  intros Hs. destruct Hs as [fuel ctx c n w r c' w' H|c n idx ev w r c' w' H|c n w r c' w' H|c n w r c' w' H
    |c n w r c' w' H|c n w r c' w' H|c n w r c' w' H|c n w r c' w' H|c n w x k c' w' H
    |c n w r c' w' H _|c n|c n w c' w' H]; intros Hi.
  - destruct Hi as [Hg Hn]. unfold Add in H. destruct (_ || _) eqn:He in H; [by simplify_eq|]. bool_hyps.
    destruct (be_AddPaused w) as [[h|] w1]; [|by simplify_eq].
    destruct (validHandle h) eqn:Hv; cbn [negb] in H; [|by simplify_eq].
    assert (n = 0%nat) as ->.
    { destruct n; [done|]. exfalso. simpl in Hn. destruct (Hn ltac:(done)) as [Hc|Hb]; [congruence|].
      by match goal with He : state c = StateEmpty |- _ => rewrite He in Hb end. }
    apply addLoop_gates in H; [|done..]. by split.
  - destruct (Select_gates c idx ev w r c' w' H (proj1 Hi)) as [->|[Ha Hb]]; [done|].
    split; [by apply approved_gates|]. by right.
  - eapply flight_keeps; [by eapply Start_keeps|done].
  - eapply flight_keeps; [by eapply Pause_keeps|done].
  - eapply flight_keeps; [by eapply Status_keeps|done].
  - eapply flight_keeps; [by eapply OnVPNLoss_keeps|done].
  - eapply flight_keeps; [by eapply Seal_keeps|done].
  - apply Close_cases in H as [Hc|Hk]; [by split; left|by eapply flight_keeps].
  - apply monitorIteration_keeps in H as [Hk Hb].
    split; [eapply gates_keeps; [done|apply Hi]|]. right. apply Hb. eauto.
  - apply monitorIteration_keeps in H as [Hk _]. by eapply flight_keeps.
  - split; [apply Hi|]. intros _. by apply Hi.
  - unfold pauseAfterFailureLocked in H. destruct (be_Pause _ w) as [r w1]. simplify_eq.
    destruct Hi as [Hg Hn]. simpl in Hn. destruct (Hn ltac:(done)) as [Hc|Hb]; [by split; left|].
    assert (keeps c (withState c StatePaused)) as Hk by (split; [done|by right]).
    split; [by eapply gates_keeps|by right].
Qed.

(** C7: payload moves only behind its gates: whatever order operations,
    monitors and failures interleave in, a controller that is downloading or
    past it (and not closed) has a validated handle and a capacity plan that
    was approved for exactly its metadata under the configured policy, and
    under the safe policy no selected file is an executable, script, package
    or disk image. *)
Theorem payload_only_behind_gates cfg c0 c n :
  newController cfg = Ok c0 → rtc tstep (c0, 0%nat) (c, n) →
  closed c = false → beforeApproval (state c) = false →
  validHandle (handle c) = true ∧ SelectedBytes (plan c) ≠ 0%Z ∧
  (∃ md0 indexes evidence available,
     PlanSelection md0 indexes evidence available (SafePolicy (config c)) = Ok (metadata c, plan c)) ∧
  (SafePolicy (config c) = true → noBlockedFlag (md_Files (metadata c))).
Proof.
  intros Hnew Hs Hc Hb.
  assert (flight_inv (c0, 0%nat)) as H0.
  { unfold newController in Hnew. destruct (_ || _) in Hnew; [done|]. injection Hnew as <-.
    split; [|done]. right. simpl. split; [by intros [?|?]|done]. }
  assert (flight_inv (c, n)) as [Hg _].
  { clear Hnew Hc Hb. remember (c0, 0%nat) as s0 eqn:E0. remember (c, n) as s1 eqn:E1. clear E0 E1.
    induction Hs as [|x y z Hxy _ IH]; [done|]. apply IH. by eapply tstep_gates. }
  destruct Hg as [Hg|[_ Hg]]; [simpl in Hg; congruence|]. by apply Hg.
Qed.

(** ** Adding terminates *)

(** The clock is monotonic, and the language chooses only among what can
    proceed: a timer that was chosen has fired, and when the context has already
    ended while the timer has not fired, the context is chosen. *)
Class MonotonicClock := {
  select_fired ctx timer w w' : w_Select ctx timer w = (Ok tt, w') → (timer ≤ w_Now w')%Z;
  select_ended deadline timer w w' :
    (deadline ≤ w_Now w < timer)%Z → w_Select (Some deadline) timer w ≠ (Ok tt, w');
  pause_clock h w : (w_Now w ≤ w_Now (be_Pause h w).2)%Z;
  metadata_clock h w : (w_Now w ≤ w_Now (be_Metadata h w).2)%Z;
  add_clock w : (w_Now w ≤ w_Now (be_AddPaused w).2)%Z
}.

(** [n] polls that found no metadata: each paused the client, saw that no byte
    of the payload had been read, and waited for the interval. *)
Inductive Polled (ctx : Context_) (interval : Z) (h : string) : nat → W → W → Prop :=
| polled_none w : Polled ctx interval h 0 w w
| polled_more n w w1 raw w2 w3 w4 :
    be_Pause h w = (Ok tt, w1) → be_Metadata h w1 = (Ok raw, w2) →
    rm_PayloadRead raw = 0%Z → rm_Available raw = false →
    Wait ctx interval w2 = (Ok tt, w3) → Polled ctx interval h n w3 w4 →
    Polled ctx interval h (S n) w w4.

(** The last poll: the client was paused, the metadata was there and valid with
    no byte of the payload read, and every file was deselected. *)
Definition Fetched (h : string) (md : Metadata) (w w' : W) : Prop :=
  ∃ w1 raw w2, be_Pause h w = (Ok tt, w1) ∧ be_Metadata h w1 = (Ok raw, w2) ∧
    rm_PayloadRead raw = 0%Z ∧ rm_Available raw = true ∧ validateMetadata NFC unicodeLower raw = Ok md ∧
    be_SetSelection h [] (len (md_Files md)) w2 = (Ok tt, w').

Lemma addLoop_total `{!MonotonicClock} n deadline c h w :
  (0 < PollInterval (config c))%Z → (deadline ≤ w_Now w + PollInterval (config c) * Z.of_nat n)%Z →
  ∃ r, addLoop NFC unicodeLower (S n) (Some deadline) c h w = Some r.
Proof.
  intros Hi. revert w. induction n as [|n IH]; intros w Hd; cbn [addLoop];
    pose proof (pause_clock h w) as Hp; destruct (be_Pause h w) as [[[]|] w1]; try (by eexists);
    pose proof (metadata_clock h w1) as Hm; destruct (be_Metadata h w1) as [[raw|] w2]; try (by eexists);
    simpl in *; (destruct (negb _); [by eexists|]); (destruct (rm_Available raw);
      [destruct (validateMetadata _ _ _); [|by eexists]; destruct (be_SetSelection _ _ _ w2) as [[[]|] w3]; by eexists|]);
    destruct (Wait _ _ w2) as [[[]|] w3] eqn:Hw; try (by eexists); unfold Wait in Hw.
  - exfalso. by eapply select_ended; [|exact Hw]; lia.
  - apply select_fired in Hw. apply IH. lia.
Qed.

Lemma addLoop_fetched fuel ctx c h w md c' w' :
  addLoop NFC unicodeLower fuel ctx c h w = Some (Ok md, c', w') →
  ∃ n w1, (n < fuel)%nat ∧ Polled ctx (PollInterval (config c)) h n w w1 ∧ Fetched h md w1 w' ∧
    c' = withState (withMetadata c md) StateSelectionRequired.
Proof.
  revert w. induction fuel as [|fuel IH]; intros w Hadd; cbn [addLoop] in Hadd; [done|].
  destruct (be_Pause h w) as [[[]|] w2] eqn:Hp; [|done]. destruct (be_Metadata h w2) as [[raw|] w3] eqn:Hm; [|done].
  destruct (negb _) eqn:Hr in Hadd; [done|]. apply negb_false_iff, Z.eqb_eq in Hr. destruct (rm_Available raw) eqn:Hv.
  - destruct (validateMetadata _ _ _) as [md'|] eqn:Hvm; [|done].
    destruct (be_SetSelection _ _ _ w3) as [[[]|] w4] eqn:Hs; [|done]. simplify_eq.
    exists 0%nat, w. split_and!; [lia|constructor|by exists w2, raw, w3|done].
  - destruct (Wait _ _ w3) as [[[]|] w4] eqn:Hw; [|done]. apply IH in Hadd as (n & w5 & Hn & Hpo & Hf & ->).
    exists (S n), w5. split_and!; [lia|by econstructor|done..].
Qed.

(** Enough polls to outlast the metadata timeout. *)
Definition pollBound (cfg : Config) : nat :=
  Z.to_nat ((MetadataTimeout cfg + PollInterval cfg - 1) / PollInterval cfg).

Lemma pollBound_enough cfg :
  (0 < PollInterval cfg)%Z → (MetadataTimeout cfg ≤ PollInterval cfg * Z.of_nat (pollBound cfg))%Z.
Proof.
  intros Hi. unfold pollBound. pose proof (Z.div_mod (MetadataTimeout cfg + PollInterval cfg - 1) (PollInterval cfg)) as Hd.
  pose proof (Z.mod_pos_bound (MetadataTimeout cfg + PollInterval cfg - 1) (PollInterval cfg) Hi) as Hm.
  set (q := ((MetadataTimeout cfg + PollInterval cfg - 1) / PollInterval cfg)%Z) in *. nia.
Qed.

(** C8: adding a torrent always ends.  Whatever deadline the caller's context
    has or has not, and whatever the client answers, [Add] of a controller with
    the configuration of a new one returns after at most as many waits of the poll
    interval as its metadata timeout has room for, because it waits under a
    context that ends with that timeout.  When it succeeds, every poll
    found the client paused and no byte of the payload read, the last one returned
    the metadata that validated, every file was deselected, and the controller
    asks for a selection. *)
Theorem Add_terminates `{!MonotonicClock} cfg c0 ctx c w :
  newController cfg = Ok c0 → config c = config c0 →
  ∃ r c' w', Add NFC unicodeLower (S (pollBound (config c))) ctx c w = Some (r, c', w') ∧
  (∀ md, r = Ok md →
     (∃ h n w1 w2, be_AddPaused w = (Ok h, w1) ∧ validHandle h = true ∧ (n ≤ pollBound (config c))%nat ∧
        Polled (boundedContext ctx (MetadataTimeout (config c)) (w_Now w)) (PollInterval (config c)) h n w1 w2 ∧
        Fetched h md w2 w' ∧ handle c' = h) ∧
     state c' = StateSelectionRequired ∧ metadata c' = md ∧
     unselected (md_Files md)).
Proof.
  intros Hnew Hc. assert (0 < PollInterval (config c))%Z as Hi.
  { rewrite Hc. unfold newController in Hnew. destruct (_ || _) eqn:Hb in Hnew; [done|]. injection Hnew as <-.
    by bool_hyps. }
  assert (∃ r c' w', Add NFC unicodeLower (S (pollBound (config c))) ctx c w = Some (r, c', w')) as (r & c' & w' & Hadd).
  { unfold Add. destruct (_ || _); [by eexists _, _, _|].
    pose proof (add_clock w) as Ha. destruct (be_AddPaused w) as [[h|] w1]; [|by eexists _, _, _].
    destruct (negb _); [by eexists _, _, _|]. simpl in Ha.
    assert (∃ deadline, boundedContext ctx (MetadataTimeout (config c)) (w_Now w) = Some deadline ∧
              (deadline ≤ w_Now w + MetadataTimeout (config c))%Z) as (deadline & -> & Hd).
    { unfold boundedContext. destruct ctx as [current|]; [destruct (current <? _)%Z eqn:Hl|];
        eexists; (split; [done|]); lia. }
    pose proof (pollBound_enough _ Hi) as Hb.
    destruct (addLoop_total (pollBound (config c)) deadline (withState (withHandle c h) StateMetadataFetching) h w1)
      as [[[r c'] w'] Hr]; [done|simpl; lia|]. by eexists _, _, _. }
  exists r, c', w'. split; [done|]. intros md ->. unfold Add in Hadd. destruct (_ || _) in Hadd; [done|].
  destruct (be_AddPaused w) as [[h|] w1]; [|done]. destruct (validHandle h) eqn:Hv; [|done]. cbn [negb] in Hadd.
  apply addLoop_fetched in Hadd as (n & w2 & Hn & Hp & Hf & ->). split_and!; [|done..|].
  - exists h, n, w1, w2. split_and!; [done..|lia|done|done|done].
  - destruct Hf as (w3 & raw & w4 & _ & _ & _ & _ & Hm & _). by apply validateMetadata_unselected in Hm as [_ ?].
Qed.

(** ** The scanner gate *)

(** A new scanner-ready receipt is given out only after the quarantine was
    sealed and the downloader's destruction was audited, as the last call; its
    manifest is the sealed controller's; on any error the stored receipt does
    not change, so the scanner stays blocked. *)
Theorem receipt_after_seal_and_destroy co w r co' w' :
  (∀ m, co_receipt co ≠ Some (mkReceipt m true)) →
  SealAndDestroy unicodeLower co w = (r, co', w') →
  match r with
  | Err _ => co_receipt co' = co_receipt co
  | Ok receipt =>
      rcpt_ready receipt = true ∧ state (co_controller co') = StateSealed ∧
      closed (co_controller co') = false ∧ rcpt_manifest receipt = manifest (co_controller co') ∧
      co_receipt co' = Some receipt ∧ ∃ w1, d_DestroyAndAudit w1 = (Ok tt, w')
  end.
Proof.
  intros Hno H. unfold SealAndDestroy in H.
  assert ((let '(m, c, w) := match sealedManifest (co_controller co) with
             | Ok m => (Ok m, co_controller co, w) | Err _ => Seal unicodeLower (co_controller co) w end in
           match m with
           | Err e => (Err e, mkCoordinator c (co_receipt co), w)
           | Ok m => match d_DestroyAndAudit w with
                     | (Err _, w) => (Err cleanupIncomplete, mkCoordinator c (co_receipt co), w)
                     | (Ok _, w) => (Ok (mkReceipt m true), mkCoordinator c (Some (mkReceipt m true)), w)
                     end
           end) = (r, co', w')) as H'.
  { destruct (co_receipt co) as [[m []]|] eqn:Hr; [by destruct (Hno m)|done|done]. }
  clear H. destruct (match sealedManifest _ with Ok _ => _ | Err _ => _ end) as [[m c] w1] eqn:Hm.
  assert (∀ x, m = Ok x → state c = StateSealed ∧ closed c = false ∧ manifest c = x) as Hsealed.
  { intros x ->. unfold sealedManifest in Hm. destruct (_ || _) eqn:Hg in Hm; [|by simplify_eq; bool_hyps].
    unfold Seal in Hm. destruct (_ || _) eqn:Hs in Hm; [done|]. apply orb_false_iff in Hs as [Hc _].
    simpl in Hm. destruct (clientDown _).
    - destruct (q_SyncAndUnmount w) as [[[]|] w2]; by simplify_eq/=.
    - destruct (sealClient _ _ _) as [[c1|] w2] eqn:Hx; [|done].
      apply sealClient_ok in Hx as (? & ? & _ & _ & _ & _ & ->).
      destruct (q_SyncAndUnmount w2) as [[[]|] w3]; by simplify_eq/=. }
  destruct m as [m|e]; [|by simplify_eq].
  destruct (Hsealed m eq_refl) as (? & ? & ?).
  destruct (d_DestroyAndAudit w1) as [[[]|] w2] eqn:Hd; simplify_eq/=; [|done].
  split_and!; try done. by exists w1.
Qed.

End Properties.

(** * A scripted client *)

Record Client := mkClient {
  cl_log : list string;
  cl_pauseFails : bool;
  cl_completed : Z;
  cl_now : Z
}.

Definition logged (w : Client) (call : string) : Client :=
  mkClient (cl_log w ++ [call]) (cl_pauseFails w) (cl_completed w) (cl_now w).

Definition demoHandle : string := "0123456789abcdef0123456789abcdef01234567".

Definition demoTorrent : RawMetadata :=
  mkRawMetadata true 0 "demo" [mkRawFile 0 "a.txt" 1000; mkRawFile 1 "b.txt" 3000].

Definition digestOf (f : File) : FileDigest :=
  mkDigest (f_DisplayPath f) (f_SizeBytes f) "0123456789abcdef0123456789abcdef" (f_Index f).

#[global] Instance client_backend : Backend Client := {
  be_AddPaused w := (Ok demoHandle, logged w "AddPaused");
  be_Metadata _ w := (Ok demoTorrent, logged w "Metadata");
  be_SetSelection _ _ _ w := (Ok tt, logged w "SetSelection");
  be_Start _ w := (Ok tt, logged w "Start");
  be_Pause _ w := (if cl_pauseFails w then Err CallFailed else Ok tt, logged w "Pause");
  be_Status _ w :=
    (Ok (mkClientStatus (if (cl_completed w =? 4000)%Z then ClientComplete else ClientRunning)
           (cl_completed w) 4000), logged w "Status");
  be_VerifyCompleted _ md w := (Ok (map digestOf (selectedFiles md)), logged w "VerifyCompleted");
  be_Shutdown w := (Ok tt, logged w "Shutdown");
  q_CapacityBytes w := (Ok 1000000000%Z, logged w "CapacityBytes");
  q_SyncAndUnmount w := (Ok tt, logged w "SyncAndUnmount");
  w_Select ctx timer w :=
    if match ctx with Some deadline => (deadline <=? timer)%Z | None => false end then (Err CallContext, w)
    else (Ok tt, mkClient (cl_log w) (cl_pauseFails w) (cl_completed w) (Z.max timer (cl_now w)));
  w_Now w := cl_now w;
  d_DestroyAndAudit w := (Ok tt, logged w "DestroyAndAudit")
}.

#[global] Instance client_clock : MonotonicClock (W:=Client).
Proof.
  split; simpl; try done.
  - intros ctx timer w w' H. destruct (match ctx with Some _ => _ | None => _ end); simplify_eq/=. lia.
  - intros deadline timer w w' [Hd Ht]. by rewrite (proj2 (Z.leb_le deadline timer)) by lia.
Defined.

Definition demoEvidence : CapacityEvidence :=
  mkEvidence DestinationUSB 1000000000 1000000000 1000000000 1000000000 0 1000 1000 1000000000.

Definition idle : Client := mkClient [] false 0 3.
Definition finished : Client := mkClient [] false 4000 3.
Definition broken : Client := mkClient [] true 4000 3.

Definition demoEmpty : Controller :=
  mkController (mkConfig true defaultMetadataTimeout defaultPollInterval defaultStallTimeout)
    StateEmpty "" emptyMetadata emptyPlan (mkProgress 0 0) [] false false.
Definition demoAdded : Controller :=
  match Add (λ s, s) (λ cp, cp) 4 None demoEmpty idle with Some (_, c, _) => c | None => demoEmpty end.
Definition demoSelected : Controller := (Select demoAdded [0; 1]%Z demoEvidence idle).1.2.
Definition demoDownloading : Controller := (Start demoSelected idle).1.2.
Definition demoPolled : Controller := (monitorIteration demoDownloading idle).1.2.
Definition demoComplete : Controller := (monitorIteration demoPolled finished).1.2.
Definition demoSealed : Controller := (Seal (λ cp, cp) demoComplete finished).1.2.

#[local] Abbreviation step := (tstep (W:=Client) (λ s, s) (λ cp, cp)).

Lemma demo_downloading_reachable : rtc step (demoEmpty, 0%nat) (demoDownloading, 0%nat).
Proof.
  apply (rtc_l _ _ (demoAdded, 0%nat)).
  { eapply (ts_Add _ _ 4 None demoEmpty 0 idle); vm_compute; reflexivity. }
  apply (rtc_l _ _ (demoSelected, 0%nat)).
  { eapply (ts_Select _ _ demoAdded 0 [0; 1]%Z demoEvidence idle); vm_compute; reflexivity. }
  apply rtc_once. eapply (ts_Start _ _ demoSelected 0 idle). vm_compute; reflexivity.
Qed.

(** The race of a second monitor: one has emitted and is about to fail while
    the other completes the download and the quarantine is sealed; the first
    one's failure then overwrites the sealed state with a paused one, from
    which payload can be started again. *)
Theorem sealed_state_can_be_lost :
  ∃ c1 c2 c3, rtc step (demoEmpty, 0%nat) (c1, 1%nat) ∧ state c1 = StateSealed ∧
    step (c1, 1%nat) (c2, 0%nat) ∧ state c2 = StatePaused ∧
    step (c2, 0%nat) (c3, 0%nat) ∧ state c3 = StateDownloading.
Proof.
  exists demoSealed, (withState demoSealed StatePaused), (withState demoSealed StateDownloading).
  split_and!; try (vm_compute; reflexivity).
  - etrans; [apply demo_downloading_reachable|].
    apply (rtc_l _ _ (demoPolled, 1%nat)).
    { eapply (ts_Poll _ _ demoDownloading 0 idle); vm_compute; reflexivity. }
    apply (rtc_l _ _ (demoComplete, 1%nat)).
    { eapply (ts_PollEnd _ _ demoPolled 1 finished); [vm_compute; reflexivity|done]. }
    apply rtc_once. eapply (ts_Seal _ _ demoComplete 1 finished); vm_compute; reflexivity.
  - eapply (ts_Fail _ _ demoSealed 0 finished). vm_compute; reflexivity.
  - eapply (ts_Start _ _ (withState demoSealed StatePaused) 0 finished). vm_compute; reflexivity.
Qed.

(** A failed close defeats the seal: when [Close] cannot pause the client but
    shuts it down, it reports failure and keeps the session open with the
    client marked as down; sealing then skips the verification and hands out a
    scanner-ready receipt with an empty manifest. *)
Theorem seal_after_failed_close_is_unverified :
  let '(r1, c1, w1) := Close demoComplete broken in
  let '(r2, co, w2) := SealAndDestroy (λ cp, cp) (mkCoordinator c1 None) w1 in
  r1 = Err cleanupIncomplete ∧ closed c1 = false ∧ r2 = Ok (mkReceipt [] true) ∧
  cl_log w2 = ["Pause"; "Shutdown"; "SyncAndUnmount"; "DestroyAndAudit"].
Proof. vm_compute. by split_and!. Qed.

Lemma demo_indexes : NoDup [0; 1]%Z.
Proof. repeat constructor; set_solver. Qed.

Lemma seal_is_verified_witness :
  let '(r, c', w') := Seal (λ cp, cp) demoComplete finished in
  cl_log w' = ["VerifyCompleted"; "Shutdown"; "SyncAndUnmount"] ∧ state c' = StateSealed ∧
  map digestKey (manifest c') ≡ₚ map fileKey (selectedFiles (metadata demoComplete)).
Proof.
  assert (is_Ok (Seal (λ cp, cp) demoComplete finished).1.1 = true ∧
          cl_log (Seal (λ cp, cp) demoComplete finished).2 = ["VerifyCompleted"; "Shutdown"; "SyncAndUnmount"])
    as [Hok Hlog] by (by vm_compute).
  destruct (Seal (λ cp, cp) demoComplete finished) as [[[m|e] c'] w'] eqn:H; [|done].
  assert (NoDup (map f_Index (md_Files (metadata demoComplete)))) as Hn.
  { replace (map f_Index (md_Files (metadata demoComplete))) with [0; 1]%Z by (by vm_compute).
    apply demo_indexes. }
  assert (clientDown demoComplete = false) as Hd by (by vm_compute).
  destruct (seal_is_verified _ _ _ _ _ _ Hn Hd H) as (_ & _ & Hs & Hm & _ & Hp & _).
  split_and!; [done|done|]. by rewrite Hm.
Defined.

Lemma payload_only_behind_gates_witness :
  validHandle (handle demoDownloading) = true ∧ SelectedBytes (plan demoDownloading) ≠ 0%Z.
Proof.
  assert (newController (mkConfig true 0 0 0) = Ok demoEmpty) as Hnew by (by vm_compute).
  destruct (payload_only_behind_gates _ _ _ _ demoDownloading 0 Hnew demo_downloading_reachable) as (Hh & Hp & _);
    [by vm_compute..|]. by split.
Defined.

Lemma receipt_after_seal_and_destroy_witness :
  let '(r, co, w) := SealAndDestroy (λ cp, cp) (mkCoordinator demoComplete None) finished in
  match r with
  | Ok receipt => rcpt_ready receipt = true ∧ len (rcpt_manifest receipt) = 2%Z
  | Err _ => False
  end.
Proof.
  assert (match (SealAndDestroy (λ cp, cp) (mkCoordinator demoComplete None) finished).1.1 with
          | Ok receipt => len (rcpt_manifest receipt) = 2%Z | Err _ => False end) as Hl by (by vm_compute).
  destruct (SealAndDestroy (λ cp, cp) (mkCoordinator demoComplete None) finished) as [[r co] w] eqn:H.
  assert (∀ m, co_receipt (mkCoordinator demoComplete None) ≠ Some (mkReceipt m true)) as Hno by (intros m Hx; discriminate Hx).
  pose proof (receipt_after_seal_and_destroy _ _ _ _ _ _ Hno H) as Hr.
  destruct r as [receipt|e]; [|done]. destruct Hr as [Hr _]. by split.
Defined.

Lemma Add_terminates_witness :
  ∃ r c' w', Add (λ s, s) (λ cp, cp) 121 None demoEmpty idle = Some (r, c', w') ∧ state demoAdded = StateSelectionRequired.
Proof.
  assert (newController (mkConfig true 0 0 0) = Ok demoEmpty) as Hnew by (by vm_compute).
  destruct (Add_terminates (λ s, s) (λ cp, cp) _ _ None demoEmpty idle Hnew eq_refl) as (r & c' & w' & H & _).
  exists r, c', w'. split; [exact H|by vm_compute].
Defined.
