(* ===== verification/GuestVPN.v ===== *)
(** * The guest VPN controller

    Models [src/internal/guestvpn/controller.go] and [model.go]: the fail-closed
    network state machine of an online guest.  The nftables and WireGuard
    backend, the verifier, the local online service and the loss responder are
    interfaces over a world [W]; profile inspection and set-up delivery are the
    fields of a [Profile]. *)

From Stdlib Require Import ZArith Lia Ascii.
From stdpp Require Import strings base tactics option relations list.
From S2P Require Import Prelude Netip SessionModel.

Open Scope string_scope.
Open Scope list_scope.

Inductive State :=
| StateUnconfigured | StateKillSwitchArmed | StateConfigured | StateVerified | StateDegraded | StateStopped.

#[global] Instance State_eq_dec : EqDecision State.
Proof. solve_decision. Defined.

Inductive vpn_error :=
| invalidRequest | killSwitchFailed | configurationFailed | verificationFailed | cleanupIncomplete
| tunnelLost | contextError.

(** An error of an interface call. *)
Inductive call_error := CallContext | CallFailed.

Definition isContextError (e : call_error) : bool := match e with CallContext => true | CallFailed => false end.

(** The wrappers of [errors.go] pass a context error through. *)
Definition wrap (e : call_error) (other : vpn_error) : vpn_error :=
  if isContextError e then contextError else other.

(** ** Policies and addresses *)

Record RolePolicy := mkPolicy {
  pol_Role : Role;
  ScannerUpdate : bool;
  RequireTorrentBinding : bool;
  RequireIPv6Tunnel : bool
}.

Definition validatePolicy (policy : RolePolicy) : result vpn_error unit :=
  match pol_Role policy with
  | RoleWorkstation => Ok tt
  | RoleDownloader => fail_if (negb (RequireTorrentBinding policy)) with invalidRequest ;; Ok tt
  | RoleScanner => fail_if (negb (ScannerUpdate policy) || RequireTorrentBinding policy) with invalidRequest ;; Ok tt
  | _ => Err invalidRequest
  end.

Record Underlay := mkUnderlay {
  IPv4Address : Prefix;
  IPv4Gateway : Addr;
  IPv6Address : Prefix;
  IPv6Gateway : Addr
}.

Definition validateUnderlay (u : Underlay) : result vpn_error unit :=
  fail_if (negb (PrefixIsValid (IPv4Address u)) || negb (Is4 (pf_Addr (IPv4Address u))) ||
           negb (pf_Bits (IPv4Address u) =? 30)%Z || negb (Is4 (IPv4Gateway u)) ||
           negb (MaskedContains (IPv4Address u) (IPv4Gateway u)) ||
           negb (PrefixIsValid (IPv6Address u)) || negb (Is6 (pf_Addr (IPv6Address u))) ||
           negb (pf_Bits (IPv6Address u) =? 126)%Z || negb (Is6 (IPv6Gateway u)) ||
           negb (MaskedContains (IPv6Address u) (IPv6Gateway u)) ||
           bool_decide (pf_Addr (IPv4Address u) = IPv4Gateway u) ||
           bool_decide (pf_Addr (IPv6Address u) = IPv6Gateway u)) with invalidRequest ;;
  Ok tt.

Definition NewUnderlay (ipv4 : Prefix) (gw4 : Addr) (ipv6 : Prefix) (gw6 : Addr) : result vpn_error Underlay :=
  let u := mkUnderlay ipv4 gw4 ipv6 gw6 in
  _ <-! validateUnderlay u ;; Ok u.

Record Proof_ := mkProof {
  Handshake : bool;
  DNSThroughTunnel : bool;
  DNSBypassBlocked : bool;
  IPv4ThroughTunnel : bool;
  IPv6ThroughTunnel : bool;
  IPv4BypassBlocked : bool;
  IPv6BypassBlocked : bool;
  TorrentBound : bool
}.

Definition emptyProof : Proof_ := mkProof false false false false false false false false.

Definition complete (proof : Proof_) (requireIPv6 requireTorrent : bool) : bool :=
  Handshake proof && DNSThroughTunnel proof && DNSBypassBlocked proof && IPv4ThroughTunnel proof &&
  IPv4BypassBlocked proof && IPv6BypassBlocked proof &&
  (negb requireIPv6 || IPv6ThroughTunnel proof) && (negb requireTorrent || TorrentBound proof).

(** ** The controller *)

(** [Backend], [Verifier], [OnlineService] and [LossResponder]. *)
Class GuestNet (W : Type) := {
  ArmKillSwitch : W → result call_error unit * W;
  ConfigureTunnel : Underlay → W → result call_error unit * W;
  RemoveTunnel : W → result call_error unit * W;
  RemoveKillSwitch : W → result call_error unit * W;
  VerifyNet : RolePolicy → W → Proof_ * option call_error * W;
  OnlineStart : W → result call_error unit * W;
  OnlineStop : W → result call_error unit * W;
  OnVPNLoss : W → result call_error unit * W
}.

(** What [Configure] reads of a profile: its inspection, and whether each of
    the two deliveries of the guest set-up reaches its callback. *)
Record Profile := mkProfile {
  prof_Inspect : result call_error bool;
  prof_deliver : nat → option call_error
}.

Record Controller := mkController {
  online : bool;
  policy : RolePolicy;
  underlay : Underlay;
  state : State;
  proof : Proof_;
  requireIPv6 : bool;
  killSwitchArmed : bool;
  configured : bool;
  onlineActive : bool
}.

Definition set_state (c : Controller) (s : State) : Controller :=
  mkController (online c) (policy c) (underlay c) s (proof c) (requireIPv6 c) (killSwitchArmed c) (configured c) (onlineActive c).
Definition set_proof (c : Controller) (p : Proof_) : Controller :=
  mkController (online c) (policy c) (underlay c) (state c) p (requireIPv6 c) (killSwitchArmed c) (configured c) (onlineActive c).
Definition set_requireIPv6 (c : Controller) (b : bool) : Controller :=
  mkController (online c) (policy c) (underlay c) (state c) (proof c) b (killSwitchArmed c) (configured c) (onlineActive c).
Definition set_armed (c : Controller) (b : bool) : Controller :=
  mkController (online c) (policy c) (underlay c) (state c) (proof c) (requireIPv6 c) b (configured c) (onlineActive c).
Definition set_configured (c : Controller) (b : bool) : Controller :=
  mkController (online c) (policy c) (underlay c) (state c) (proof c) (requireIPv6 c) (killSwitchArmed c) b (onlineActive c).
Definition set_onlineActive (c : Controller) (b : bool) : Controller :=
  mkController (online c) (policy c) (underlay c) (state c) (proof c) (requireIPv6 c) (killSwitchArmed c) (configured c) b.

Definition newController (hasOnline : bool) (policy : RolePolicy) (underlay : Underlay) : result vpn_error Controller :=
  _ <-! validatePolicy policy ;;
  _ <-! validateUnderlay underlay ;;
  Ok (mkController hasOnline policy underlay StateUnconfigured emptyProof false false false false).

Definition verificationPolicyLocked (c : Controller) : RolePolicy :=
  mkPolicy (pol_Role (policy c)) (ScannerUpdate (policy c)) (RequireTorrentBinding (policy c)) (requireIPv6 c).

Record Status := mkStatus {
  SchemaVersion : Z;
  st_State : State;
  st_KillSwitchArmed : bool;
  st_Configured : bool;
  st_Proof : Proof_;
  st_Code : string;
  st_Remediation : string
}.

Definition statusLocked (c : Controller) : Status :=
  let '(code, remediation) :=
    match state c with
    | StateVerified =>
        ("GUEST_VPN_VERIFIED", "No action is required while continuous verification remains healthy.")
    | StateDegraded =>
        ("GUEST_VPN_DEGRADED", "Keep the kill switch armed, pause network work, and reconnect or stop the session.")
    | StateKillSwitchArmed | StateConfigured =>
        ("GUEST_VPN_NOT_VERIFIED", "Do not start network applications until every VPN verification gate passes.")
    | StateStopped =>
        ("GUEST_VPN_STOPPED", "Configure and verify a new tunnel before starting network applications.")
    | StateUnconfigured =>
        ("GUEST_VPN_UNCONFIGURED", "Configure and verify the guest VPN before starting network applications.")
    end in
  mkStatus 1 (state c) (killSwitchArmed c) (configured c) (proof c) code remediation.

Section Operations.
Context {W : Type} `{!GuestNet W}.

Definition stopOnlineDetached (c : Controller) (w : W) : Controller * W :=
  if negb (online c) || negb (onlineActive c) then (c, w)
  else match OnlineStop w with
       | (Ok _, w) => (set_onlineActive c false, w)
       | (Err _, w) => (c, w)
       end.

Definition removeTunnelDetached (w : W) : W := (RemoveTunnel w).2.

(** [profile.WithGuestSetup]: an undelivered set-up is an error and the
    callback is not called. *)
Definition WithGuestSetup (profile : Profile) (k : nat) (callback : W → result call_error unit * W) (w : W)
  : result call_error unit * W :=
  match prof_deliver profile k with
  | Some e => (Err e, w)
  | None => callback w
  end.

(** The common end of [Configure] and [Verify]. *)
Definition runVerifier (c : Controller) (detach : bool) (w : W) : option vpn_error * Controller * W :=
  let '(p, err, w) := VerifyNet (verificationPolicyLocked c) w in
  let c := set_proof c p in
  let failed :=
    match err with
    | Some e => Some (wrap e verificationFailed)
    | None => if complete p (requireIPv6 c) (RequireTorrentBinding (policy c)) then None else Some verificationFailed
    end in
  match failed with
  | Some e =>
      let c := set_state c StateDegraded in
      let '(c, w) := if detach then stopOnlineDetached c w else (c, w) in
      (Some e, c, w)
  | None => (None, set_state c StateVerified, w)
  end.

(** Starting the online service. *)
Definition startOnline (c : Controller) (w : W) : option vpn_error * Controller * W :=
  let c := set_onlineActive c true in
  match OnlineStart w with
  | (Err e, w) =>
      let '(c, w) := stopOnlineDetached (set_state c StateDegraded) w in
      (Some (wrap e verificationFailed), c, w)
  | (Ok _, w) => (None, c, w)
  end.

Definition Configure (c : Controller) (profile : Profile) (w : W) : option vpn_error * Controller * W :=
  if negb (bool_decide (state c = StateUnconfigured)) && negb (bool_decide (state c = StateStopped))
  then (Some invalidRequest, c, w)
  else
    match prof_Inspect profile with
    | Err _ => (Some invalidRequest, c, w)
    | Ok ipv6Enabled =>
        let c := set_requireIPv6 c ipv6Enabled in
        match WithGuestSetup profile 0 ArmKillSwitch w with
        | (Err e, w) => (Some (wrap e killSwitchFailed), c, w)
        | (Ok _, w) =>
            let c := set_armed (set_state c StateKillSwitchArmed) true in
            match WithGuestSetup profile 1 (ConfigureTunnel (underlay c)) w with
            | (Err e, w) => (Some (wrap e configurationFailed), c, removeTunnelDetached w)
            | (Ok _, w) =>
                let c := set_configured (set_state c StateConfigured) true in
                let '(err, c, w) := if online c then startOnline c w else (None, c, w) in
                match err with
                | Some e => (Some e, c, w)
                | None => runVerifier c true w
                end
            end
        end
    end.

Definition Verify (c : Controller) (w : W) : option vpn_error * Controller * W :=
  if negb (bool_decide (state c = StateConfigured)) && negb (bool_decide (state c = StateVerified)) &&
     negb (bool_decide (state c = StateDegraded))
  then (Some invalidRequest, c, w)
  else
    let '(err, c, w) := if online c && negb (onlineActive c) then startOnline c w else (None, c, w) in
    match err with
    | Some e => (Some e, c, w)
    | None => runVerifier c false w
    end.

Definition Stop (c : Controller) (w : W) : option vpn_error * Controller * W :=
  if bool_decide (state c = StateUnconfigured) || bool_decide (state c = StateStopped) then
    let finish c w :=
      (None, set_configured (set_armed (set_requireIPv6 (set_proof (set_state c StateStopped) emptyProof) false) false) false, w) in
    if online c && onlineActive c then
      match OnlineStop w with
      | (Err _, w) => (Some cleanupIncomplete, c, w)
      | (Ok _, w) => finish (set_onlineActive c false) w
      end
    else finish c w
  else
    let '(err, c, w) :=
      if online c && onlineActive c then
        match OnlineStop w with
        | (Err _, w) => (Some cleanupIncomplete, set_state c StateDegraded, w)
        | (Ok _, w) => (None, set_onlineActive c false, w)
        end
      else (None, c, w) in
    match err with
    | Some e => (Some e, c, w)
    | None =>
        match RemoveTunnel w with
        | (Err _, w) => (Some cleanupIncomplete, set_state c StateDegraded, w)
        | (Ok _, w) =>
            let c := set_state (set_configured (set_requireIPv6 (set_proof c emptyProof) false) false) StateKillSwitchArmed in
            match RemoveKillSwitch w with
            | (Err _, w) => (Some cleanupIncomplete, set_state c StateDegraded, w)
            | (Ok _, w) => (None, set_state (set_armed c false) StateStopped, w)
            end
        end
    end.

(** [Monitor] over the sequence of its wake-ups: [true] a tick, [false] the end
    of the caller's context.  [None] while it still waits. *)
Fixpoint monitorLoop (wakeups : list bool) (c : Controller) (w : W) : option vpn_error * Controller * W :=
  match wakeups with
  | [] => (None, c, w)
  | false :: _ => (Some contextError, c, w)
  | true :: rest =>
      match Verify c w with
      | (None, c, w) => monitorLoop rest c w
      | (Some contextError, c, w) => (Some contextError, c, w)
      | (Some _, c, w) =>
          match OnVPNLoss w with
          | (Err CallContext, w) => (Some contextError, c, w)
          | (_, w) => (Some tunnelLost, c, w)
          end
      end
  end.

Definition Monitor (intervalOK : bool) (wakeups : list bool) (c : Controller) (w : W) : option vpn_error * Controller * W :=
  if negb intervalOK || negb (bool_decide (state c = StateVerified)) then (Some invalidRequest, c, w)
  else monitorLoop wakeups c w.

End Operations.

(** ** What the backend and the verifier promise

    [tunnel] and [armed] observe the guest's network: whether the tunnel
    interface is up, and whether traffic outside it is blocked. *)
Class GuestNetSpec (W : Type) `{!GuestNet W} := {
  tunnel : W → bool;
  armed : W → bool;
  arm_ok w w' : ArmKillSwitch w = (Ok tt, w') → armed w' = true;
  arm_tunnel w : tunnel (ArmKillSwitch w).2 = tunnel w;
  configure_armed u w : armed (ConfigureTunnel u w).2 = armed w;
  removeTunnel_ok w w' : RemoveTunnel w = (Ok tt, w') → tunnel w' = false;
  removeTunnel_armed w : armed (RemoveTunnel w).2 = armed w;
  removeTunnel_down w : tunnel (RemoveTunnel w).2 = true → tunnel w = true;
  removeKillSwitch_tunnel w : tunnel (RemoveKillSwitch w).2 = tunnel w;
  verify_observes p w : tunnel (VerifyNet p w).2 = tunnel w ∧ armed (VerifyNet p w).2 = armed w;
  verify_through p w pr : (VerifyNet p w).1 = (pr, None) →
    Handshake pr = true → IPv4ThroughTunnel pr = true → tunnel w = true;
  verify_blocked p w pr : (VerifyNet p w).1 = (pr, None) →
    DNSBypassBlocked pr = true → IPv4BypassBlocked pr = true → IPv6BypassBlocked pr = true → armed w = true;
  start_observes w : tunnel (OnlineStart w).2 = tunnel w ∧ armed (OnlineStart w).2 = armed w;
  stop_observes w : tunnel (OnlineStop w).2 = tunnel w ∧ armed (OnlineStop w).2 = armed w;
  loss_observes w : tunnel (OnVPNLoss w).2 = tunnel w ∧ armed (OnVPNLoss w).2 = armed w
}.

(** * Properties *)

Section Properties.
Context {W : Type} `{!GuestNet W} `{!GuestNetSpec W}.
Implicit Types (c : Controller) (w : W).

Definition idle (s : State) : bool :=
  match s with StateUnconfigured | StateStopped => true | _ => false end.

(** The network facts that online services and probes leave alone. *)
Definition same_net w w' : Prop := tunnel w' = tunnel w ∧ armed w' = armed w.

Lemma stopOnlineDetached_spec c w c' w' :
  stopOnlineDetached c w = (c', w') →
  same_net w w' ∧ state c' = state c ∧ killSwitchArmed c' = killSwitchArmed c ∧
  proof c' = proof c ∧ requireIPv6 c' = requireIPv6 c ∧ policy c' = policy c ∧
  online c' = online c ∧ (onlineActive c = false → onlineActive c' = false).
Proof.
  unfold stopOnlineDetached. intros H. destruct (_ || _); [by simplify_eq|].
  pose proof (stop_observes w) as Ho. destruct (OnlineStop w) as [[[]|] w1]; by simplify_eq/=.
Qed.

Lemma startOnline_spec c w r c' w' :
  startOnline c w = (r, c', w') →
  same_net w w' ∧ killSwitchArmed c' = killSwitchArmed c ∧ requireIPv6 c' = requireIPv6 c ∧ policy c' = policy c ∧
  online c' = online c ∧ (r = None ∧ state c' = state c ∨ r ≠ None ∧ state c' = StateDegraded).
Proof.
  unfold startOnline. intros H. pose proof (start_observes w) as [Ht Ha].
  destruct (OnlineStart w) as [[[]|e] w1]; simpl in *.
  - simplify_eq/=. by split_and!; auto.
  - destruct (stopOnlineDetached _ w1) as [c2 w2] eqn:Hs.
    apply stopOnlineDetached_spec in Hs as ([Ht' Ha'] & Hst & Hk & _ & Hi & Hp & Ho & _). simplify_eq/=.
    split_and!; try done; [split; congruence|]. right. split; [by destruct e|done].
Qed.

Lemma runVerifier_spec c d w r c' w' :
  runVerifier c d w = (r, c', w') →
  same_net w w' ∧ killSwitchArmed c' = killSwitchArmed c ∧ requireIPv6 c' = requireIPv6 c ∧ policy c' = policy c ∧
  online c' = online c ∧ (onlineActive c = false → onlineActive c' = false) ∧
  (r = None ∧ state c' = StateVerified ∧
     complete (proof c') (requireIPv6 c) (RequireTorrentBinding (policy c)) = true ∧
     tunnel w' = true ∧ armed w' = true
   ∨ r ≠ None ∧ state c' = StateDegraded).
Proof.
  unfold runVerifier. intros H.
  pose proof (verify_observes (verificationPolicyLocked c) w) as [Ht Ha].
  pose proof (verify_through (verificationPolicyLocked c) w) as Hth.
  pose proof (verify_blocked (verificationPolicyLocked c) w) as Hbl.
  destruct (VerifyNet _ w) as [[p err] w1]; simpl in *.
  assert (∀ e, (let '(c2, w2) := if d then stopOnlineDetached (set_state (set_proof c p) StateDegraded) w1
                else (set_state (set_proof c p) StateDegraded, w1) in (Some e, c2, w2)) = (r, c', w') →
    same_net w w' ∧ killSwitchArmed c' = killSwitchArmed c ∧ requireIPv6 c' = requireIPv6 c ∧ policy c' = policy c ∧
    online c' = online c ∧ (onlineActive c = false → onlineActive c' = false) ∧
    (r ≠ None ∧ state c' = StateDegraded)) as Hfail.
  { intros e Hx. destruct d.
    - destruct (stopOnlineDetached _ w1) as [c2 w2] eqn:Hs.
      apply stopOnlineDetached_spec in Hs as ([Ht' Ha'] & Hst & Hk & _ & Hi & Hp & Ho & Hoa). simplify_eq/=.
      split_and!; try done; split; congruence.
    - simplify_eq/=. split_and!; try done. }
  destruct err as [e|]; [apply Hfail in H as (?&?&?&?&?&?&?); by split_and!; auto|].
  destruct (complete p _ _) eqn:Hc; [|apply Hfail in H as (?&?&?&?&?&?&?); by split_and!; auto].
  simplify_eq/=. split_and!; try done. left. unfold complete in Hc. bool_hyps.
  specialize (Hth p eq_refl). specialize (Hbl p eq_refl). split_and!; try done.
  - unfold complete. repeat (apply andb_true_iff; split); done.
  - rewrite Ht. auto.
  - rewrite Ha. auto.
Qed.

(** The controller's view, relative to the network. *)
Record vpn_inv c w : Prop := {
  vi_closed : tunnel w = true → armed w = true;
  vi_idle : idle (state c) = true → tunnel w = false ∧ onlineActive c = false;
  vi_online : online c = false → onlineActive c = false;
  vi_flag : killSwitchArmed c = negb (idle (state c));
  vi_proof : state c = StateVerified →
    complete (proof c) (requireIPv6 c) (RequireTorrentBinding (policy c)) = true
}.

(** One operation, or the tunnel going down by itself. *)
Inductive vstep : Controller * W → Controller * W → Prop :=
| vs_Configure c w profile r c' w' : Configure c profile w = (r, c', w') → vstep (c, w) (c', w')
| vs_Verify c w r c' w' : Verify c w = (r, c', w') → vstep (c, w) (c', w')
| vs_Stop c w r c' w' : Stop c w = (r, c', w') → vstep (c, w) (c', w')
| vs_Loss c w w' : (tunnel w' = true → tunnel w = true) → armed w' = armed w → vstep (c, w) (c, w').

Lemma verify_tail c d w r c' w' :
  runVerifier c d w = (r, c', w') → (online c = false → onlineActive c = false) →
  (tunnel w = true → armed w = true) → killSwitchArmed c = true → vpn_inv c' w'.
Proof.
  intros H Ho Hc Hk. apply runVerifier_spec in H as ([Ht Ha] & Hk' & Hi & Hp & Hon & Hoa & Hr).
  destruct Hr as [(_ & Hs & Hcomp & _ & _)|[_ Hs]]; split; rewrite ?Hs, ?Ht, ?Ha, ?Hi, ?Hp, ?Hon; simpl;
    try done; auto; congruence.
Qed.

Lemma online_tail c w r c' w' :
  startOnline c w = (Some r, c', w') → online c = true →
  (tunnel w = true → armed w = true) → killSwitchArmed c = true → vpn_inv c' w'.
Proof.
  intros H Hon Hc Hk. apply startOnline_spec in H as ([Ht Ha] & Hk' & Hi & Hp & Ho & Hr).
  destruct Hr as [[? _]|[_ Hs]]; [done|]. split; rewrite ?Hs, ?Ht, ?Ha, ?Ho; simpl; try done; congruence.
Qed.

Lemma Configure_inv c profile w r c' w' :
  Configure c profile w = (r, c', w') → vpn_inv c w → vpn_inv c' w'.
Proof.
  intros H [Hcl Hid Hnon Hfl Hpr]. unfold Configure in H. destruct (_ && _) eqn:Hg in H; [by simplify_eq|].
  assert (idle (state c) = true) as Hidle by (destruct (state c); vm_compute in Hg |- *; done).
  destruct (Hid Hidle) as [Htun Hon].
  destruct (prof_Inspect profile) as [v6|e]; [|by simplify_eq].
  unfold WithGuestSetup in H. destruct (prof_deliver profile 0).
  { simplify_eq. split; simpl; try done. intros Hs. by rewrite Hs in Hidle. }
  pose proof (arm_tunnel w) as Hat. destruct (ArmKillSwitch w) as [[[]|e] w1] eqn:Harm; simpl in Hat.
  2:{ simplify_eq. split; simpl; try done; [congruence|by rewrite Hat|].
      intros Hs. by rewrite Hs in Hidle. }
  apply arm_ok in Harm. destruct (prof_deliver profile 1).
  { simplify_eq. unfold removeTunnelDetached. split; simpl; try done.
    intros _. by rewrite removeTunnel_armed. }
  simpl in H. pose proof (configure_armed (underlay c) w1) as Hca.
  destruct (ConfigureTunnel (underlay c) w1) as [[[]|e] w2]; simpl in Hca.
  2:{ simplify_eq. unfold removeTunnelDetached. split; simpl; try done.
      intros _. by rewrite removeTunnel_armed, Hca. }
  assert (tunnel w2 = true → armed w2 = true) as Hc2 by congruence.
  destruct (if online c then _ else _) as [[err c2] w3] eqn:Hon2. destruct err as [e|].
  - simplify_eq. destruct (online c) eqn:Hoc; [|done]. by eapply online_tail.
  - destruct (online c) eqn:Hoc; simplify_eq; [|by eapply verify_tail].
    apply startOnline_spec in Hon2 as ([Ht Ha] & Hk & _ & _ & Ho & _).
    eapply verify_tail; [done|simpl in Ho; congruence|by rewrite Ht, Ha|done].
Qed.

Lemma Verify_inv c w r c' w' : Verify c w = (r, c', w') → vpn_inv c w → vpn_inv c' w'.
Proof.
  intros H Hi. unfold Verify in H. destruct (_ && _) eqn:Hg in H; [by simplify_eq|].
  assert (idle (state c) = false) as Hidle by (destruct (state c); vm_compute in Hg |- *; done).
  destruct Hi as [Hcl Hid Hnon Hfl Hpr]. rewrite Hidle in Hfl. simpl in Hfl.
  destruct (online c && negb (onlineActive c)) eqn:Hoa; bool_hyps.
  - destruct (startOnline c w) as [[[e|] c2] w2] eqn:Hs; [simplify_eq; by eapply online_tail|].
    apply startOnline_spec in Hs as ([Ht Ha] & Hk & _ & _ & Ho & _).
    eapply verify_tail; [done|congruence|by rewrite Ht, Ha|congruence].
  - by eapply verify_tail.
Qed.

Lemma Stop_inv c w r c' w' : Stop c w = (r, c', w') → vpn_inv c w → vpn_inv c' w'.
Proof.
  intros H Hi. pose proof Hi as [Hcl Hid Hnon Hfl Hpr]. unfold Stop in H. destruct (_ || _) eqn:Hg in H.
  - assert (idle (state c) = true) as Hidle by (destruct (state c); vm_compute in Hg |- *; done).
    destruct (Hid Hidle) as [Htun Hon]. rewrite Hon, andb_false_r in H. simplify_eq. split; simpl; done.
  - assert (idle (state c) = false) as Hidle by (destruct (state c); vm_compute in Hg |- *; done).
    rewrite Hidle in Hfl. simpl in Hfl.
    destruct (if online c && onlineActive c then _ else _) as [[err c1] w1] eqn:Hon.
    assert (same_net w w1 ∧ killSwitchArmed c1 = true ∧ (online c1 = false → onlineActive c1 = false) ∧
            (err ≠ None → state c1 = StateDegraded) ∧ (err = None → onlineActive c1 = false))
      as ([Ht Ha] & Hk & Hoc & Hs & Hoff).
    { destruct (online c && onlineActive c) eqn:Hoa.
      - pose proof (stop_observes w) as Ho. destruct (OnlineStop w) as [[[]|] w2]; simplify_eq/=; split_and!; done.
      - simplify_eq. split_and!; try done. intros _. destruct (online c1); [by destruct (onlineActive c1)|auto]. }
    destruct err as [e|].
    { simplify_eq. specialize (Hs ltac:(done)). split; rewrite ?Hs, ?Ht, ?Ha; done. }
    specialize (Hoff eq_refl). clear Hs Hon.
    pose proof (removeTunnel_armed w1) as Hra. pose proof (removeTunnel_down w1) as Hrd.
    destruct (RemoveTunnel w1) as [[[]|e] w2] eqn:Hrt; simpl in Hra, Hrd.
    2:{ simplify_eq. split; simpl; try done. intros Hx. rewrite Hra, Ha. apply Hcl. rewrite <- Ht. auto. }
    apply removeTunnel_ok in Hrt. pose proof (removeKillSwitch_tunnel w2) as Hkt.
    destruct (RemoveKillSwitch w2) as [[[]|e] w3]; simpl in Hkt; simplify_eq; split; simpl; try done;
      intros; try split; congruence.
Qed.

Lemma vpn_inv_step s s' : vstep s s' → vpn_inv s.1 s.2 → vpn_inv s'.1 s'.2.
Proof.
  destruct 1 as [c w profile r c' w' H|c w r c' w' H|c w r c' w' H|c w w' Ht Ha]; simpl; intros Hi.
  - by eapply Configure_inv.
  - by eapply Verify_inv.
  - by eapply Stop_inv.
  - destruct Hi as [Hcl Hid Hnon Hfl Hpr]. split; try done.
    + intros Hx. rewrite Ha. auto.
    + intros Hx. destruct (Hid Hx) as [Hy ?]. split; [|done]. destruct (tunnel w'); [|done]. by rewrite Ht in Hy.
Qed.

(** C9: the guest fails closed: starting from a guest without a tunnel, after
    any sequence of configurations, verifications, stops and tunnel losses,
    with any of the calls failing, a tunnel is never up while traffic outside
    it is unblocked; before configuration and after a successful stop there is
    no tunnel and no online service, and the recorded kill-switch flag is set
    exactly in the other states; the verified state always rests on a complete
    proof for the profile's and the role's requirements. *)
Theorem vpn_fails_closed hasOnline pol under c0 w0 c w :
  newController hasOnline pol under = Ok c0 → tunnel w0 = false → rtc vstep (c0, w0) (c, w) →
  (tunnel w = true → armed w = true) ∧
  (idle (state c) = true → tunnel w = false ∧ onlineActive c = false) ∧
  killSwitchArmed c = negb (idle (state c)) ∧
  (state c = StateVerified → complete (proof c) (requireIPv6 c) (RequireTorrentBinding (policy c)) = true).
Proof.
  intros Hnew Hw Hs. assert (vpn_inv c0 w0) as H0.
  { unfold newController in Hnew. destruct (validatePolicy _); [|done]. destruct (validateUnderlay _); [|done].
    injection Hnew as <-. split; simpl; try done. congruence. }
  assert (vpn_inv (c, w).1 (c, w).2) as [? ? _ ? ?]; [|done].
  change (vpn_inv (c0, w0).1 (c0, w0).2) in H0. clear Hnew Hw. revert H0.
  induction Hs as [|x y z Hxy _ IH]; [done|]. intros H0. apply IH. by eapply vpn_inv_step.
Qed.

(** Success is proof: when configuration or verification reports no error,
    the controller is verified, its proof is complete, the tunnel is up and
    traffic outside it is blocked at that moment. *)
Theorem verified_means_protected c profile w c' w' :
  Configure c profile w = (None, c', w') ∨ Verify c w = (None, c', w') →
  state c' = StateVerified ∧ tunnel w' = true ∧ armed w' = true ∧
  complete (proof c') (requireIPv6 c') (RequireTorrentBinding (policy c')) = true.
Proof.
  assert (∀ c1 d w1, runVerifier c1 d w1 = (None, c', w') →
    state c' = StateVerified ∧ tunnel w' = true ∧ armed w' = true ∧
    complete (proof c') (requireIPv6 c') (RequireTorrentBinding (policy c')) = true) as Hv.
  { intros c1 d w1 H. apply runVerifier_spec in H as (_ & _ & Hi & Hp & _ & _ & [(_ & ? & ? & ? & ?)|[? _]]); [|done].
    rewrite Hi, Hp. done. }
  intros [H|H].
  - unfold Configure, WithGuestSetup in H. destruct (_ && _) in H; [done|].
    destruct (prof_Inspect profile); [|done]. destruct (prof_deliver profile 0); [done|].
    destruct (ArmKillSwitch w) as [[[]|] w1]; [|done]. destruct (prof_deliver profile 1); [done|].
    destruct (ConfigureTunnel _ w1) as [[[]|] w2]; [|done].
    destruct (if online _ then _ else _) as [[[e|] c2] w3]; [done|]. by eapply Hv.
  - unfold Verify in H. destruct (_ && _) in H; [done|].
    destruct (if _ && _ then _ else _) as [[[e|] c2] w3]; [done|]. by eapply Hv.
Qed.

End Properties.

(** * A simulated guest *)

Record Guest := mkGuest {
  g_tunnel : bool;
  g_armed : bool;
  g_log : list string;
  g_removeKillSwitchFails : bool;
  g_verifyTimesOut : bool
}.

Definition gset (w : Guest) (t a : bool) (call : string) : Guest :=
  mkGuest t a (g_log w ++ [call]) (g_removeKillSwitchFails w) (g_verifyTimesOut w).

Definition observed (w : Guest) : Proof_ :=
  mkProof (g_tunnel w) (g_tunnel w) (g_armed w) (g_tunnel w) (g_tunnel w) (g_armed w) (g_armed w) (g_tunnel w).

#[global] Instance guest_net : GuestNet Guest := {
  ArmKillSwitch w := (Ok tt, gset w (g_tunnel w) true "ArmKillSwitch");
  ConfigureTunnel _ w := (Ok tt, gset w true (g_armed w) "ConfigureTunnel");
  RemoveTunnel w := (Ok tt, gset w false (g_armed w) "RemoveTunnel");
  RemoveKillSwitch w :=
    if g_removeKillSwitchFails w then (Err CallFailed, gset w (g_tunnel w) false "RemoveKillSwitch")
    else (Ok tt, gset w (g_tunnel w) false "RemoveKillSwitch");
  VerifyNet _ w :=
    if g_verifyTimesOut w then (emptyProof, Some CallContext, gset w (g_tunnel w) (g_armed w) "Verify")
    else (observed w, None, gset w (g_tunnel w) (g_armed w) "Verify");
  OnlineStart w := (Ok tt, gset w (g_tunnel w) (g_armed w) "OnlineStart");
  OnlineStop w := (Ok tt, gset w (g_tunnel w) (g_armed w) "OnlineStop");
  OnVPNLoss w := (Ok tt, gset w (g_tunnel w) (g_armed w) "OnVPNLoss")
}.

#[global] Instance guest_spec : GuestNetSpec Guest.
Proof.
  refine {| tunnel := g_tunnel; armed := g_armed |}; simpl; try done.
  - intros w w' H. by simplify_eq/=.
  - intros w w' H. by simplify_eq/=.
  - intros w. by destruct (g_removeKillSwitchFails w).
  - intros _ w. by destruct (g_verifyTimesOut w).
  - intros _ w pr H. destruct (g_verifyTimesOut w); by simplify_eq/=.
  - intros _ w pr H. destruct (g_verifyTimesOut w); by simplify_eq/=.
Defined.

Definition demoPolicy : RolePolicy := mkPolicy RoleDownloader false true false.
Definition demoUnderlay : Underlay :=
  mkUnderlay (mkPrefix (Addr4 167772162) 30) (Addr4 167772161) (mkPrefix (Addr6 2 "") 126) (Addr6 1 "").
Definition demoProfile : Profile := mkProfile (Ok true) (λ _, None).
Definition demoNew : Controller :=
  mkController true demoPolicy demoUnderlay StateUnconfigured emptyProof false false false false.
Definition freshGuest : Guest := mkGuest false false [] false false.
Definition stuckGuest : Guest := mkGuest false false [] true false.

Definition demoConfigured : Controller := (Configure demoNew demoProfile freshGuest).1.2.

Lemma vpn_fails_closed_witness :
  state demoConfigured = StateVerified ∧
  (tunnel (Configure demoNew demoProfile freshGuest).2 = true →
   armed (Configure demoNew demoProfile freshGuest).2 = true) ∧
  g_log (Configure demoNew demoProfile freshGuest).2 = ["ArmKillSwitch"; "ConfigureTunnel"; "OnlineStart"; "Verify"].
Proof.
  split; [by vm_compute|]. split; [|by vm_compute].
  assert (newController true demoPolicy demoUnderlay = Ok demoNew) as Hnew by (by vm_compute).
  assert (tunnel freshGuest = false) as Hd by (by vm_compute).
  assert (rtc vstep (demoNew, freshGuest) (demoConfigured, (Configure demoNew demoProfile freshGuest).2)) as Hs.
  { apply rtc_once. eapply (vs_Configure demoNew freshGuest demoProfile). vm_compute. reflexivity. }
  apply (vpn_fails_closed true demoPolicy demoUnderlay demoNew freshGuest _ _ Hnew Hd Hs).
Defined.

Lemma verified_means_protected_witness :
  tunnel (Configure demoNew demoProfile freshGuest).2 = true ∧ state demoConfigured = StateVerified.
Proof.
  assert (Configure demoNew demoProfile freshGuest =
          (None, demoConfigured, (Configure demoNew demoProfile freshGuest).2)) as H by (by vm_compute).
  destruct (verified_means_protected _ _ _ _ _ (or_introl H)) as (Hs & Ht & _). by split.
Defined.

(** When a stop removes the tunnel but fails to remove the kill switch, the
    controller is degraded; verifying from there starts the online application
    again although no tunnel is configured. *)
Theorem online_service_restarts_without_tunnel :
  let '(_, c1, w1) := Configure demoNew demoProfile stuckGuest in
  let '(r2, c2, w2) := Stop c1 w1 in
  let '(r3, c3, w3) := Verify c2 w2 in
  r2 = Some cleanupIncomplete ∧ configured c2 = false ∧ tunnel w2 = false ∧
  onlineActive c3 = true ∧ tunnel w3 = false ∧
  g_log w3 = ["ArmKillSwitch"; "ConfigureTunnel"; "OnlineStart"; "Verify"; "OnlineStop"; "RemoveTunnel";
              "RemoveKillSwitch"; "OnlineStart"; "Verify"].
Proof. vm_compute. by split_and!. Qed.

(** A verification that runs into its own deadline ends the monitor as if the
    caller had cancelled it: the loss response is not performed, although the
    caller's context is alive and the controller is degraded. *)
Theorem monitor_timeout_skips_loss_response :
  let w := mkGuest true true [] false true in
  let '(r, c, w') := Monitor true [true; true] demoConfigured w in
  r = Some contextError ∧ state c = StateDegraded ∧ g_log w' = ["Verify"].
Proof. vm_compute. by split_and!. Qed.
