(* ===== verification/NetManager.v ===== *)
(** * The session network manager

    Models [src/internal/network/manager.go]: the allocation, provisioning,
    handoff and cleanup of one network per session.  A [networkState] is shared
    by the manager's table and the handles given out, so the states live in a
    heap and are named by references.  The backend that talks to the kernel is
    an interface over a world [W], with the expiry of the bounded contexts; the
    VPN store is the one of [VpnStore], whose lock a plan's consumer holds. *)

From Stdlib Require Import ZArith Lia Ascii.
From stdpp Require Import strings base tactics option gmap relations sorting list.
From S2P Require Import GuestVPN.
From S2P Require Import Prelude GoText Netip VpnProfile VpnStore NetPolicy SessionModel.

Open Scope string_scope.
Open Scope list_scope.

Create HintDb network.

(** ** Data *)

Record networkState := mkNet {
  ns_sessionID : string;
  ns_owner : Z;
  ns_profileName : string;
  ns_plan : nat;
  ns_spec : topologySpec;
  ns_policy : endpointPolicy;
  ns_ready : bool;
  ns_namespaceAttempted : bool;
  ns_vethAttempted : bool;
  ns_tapAttempted : bool;
  ns_namespacePolicyAttempted : bool;
  ns_hostPolicyAttempted : bool;
  ns_tapFile : option nat
}.

Record Manager := mkManager {
  nm_states : gmap string nat;
  nm_reservations : gmap Z string;
  nm_names : gmap string string;
  nm_heap : gmap nat networkState;
  nm_next : nat
}.

Definition newManager : Manager := mkManager ∅ ∅ ∅ ∅ 0.

Record PolicyAudit := mkAudit {
  NamespacePolicyPresent : bool;
  HostPolicyPresent : bool;
  ForbiddenEgressZero : bool
}.

Record NetInspection := mkNetInspection {
  ni_SchemaVersion : Z;
  ni_Ready : bool;
  ni_IPv4EndpointCount : Z;
  ni_IPv6EndpointCount : Z;
  ni_TAPReady : bool
}.

(** A failing call: the context's error, or another one. *)
Inductive call_error := CallContext | CallFailed.

(** [topologyFailed], [policyFailed] and [policyAuditFailed] pass context errors
    through. *)
Definition wrapCall (other : network_error) (e : call_error) : network_error :=
  match e with CallContext => ContextError | CallFailed => other end.

(** The backend; [Expired] is whether the operation's context has ended. *)
Class Backend (W : Type) := {
  Available : topologySpec → W → result call_error bool * W;
  CreateNamespace : topologySpec → W → result call_error unit * W;
  CreateVeth : topologySpec → W → result call_error unit * W;
  ConfigureHost : topologySpec → W → result call_error unit * W;
  ConfigureNamespace : topologySpec → W → result call_error unit * W;
  CreateTAP : topologySpec → W → result call_error nat * W;
  ConfigureTAP : topologySpec → W → result call_error unit * W;
  ApplyNamespacePolicy : topologySpec → endpointPolicy → W → result call_error unit * W;
  ApplyHostPolicy : topologySpec → endpointPolicy → W → result call_error unit * W;
  AuditPolicyCall : topologySpec → W → result call_error PolicyAudit * W;
  DisableEgress : topologySpec → W → result call_error unit * W;
  DeleteHostPolicy : topologySpec → W → result call_error unit * W;
  DeleteNamespacePolicy : topologySpec → W → result call_error unit * W;
  DeleteTAP : topologySpec → W → result call_error unit * W;
  DeleteVeth : topologySpec → W → result call_error unit * W;
  DeleteNamespace : topologySpec → W → result call_error unit * W;
  AuditAbsent : topologySpec → W → result call_error bool * W;
  CloseFile : nat → W → result call_error unit * W;
  DuplicateTAP : nat → W → result call_error nat * W;
  Expired : W → bool * W
}.

(** ** The monad of the manager's operations *)

Section Manager.
Context {W : Type} `{Backend W}.

Definition net (A : Type) : Type := Manager * W → result network_error A * (Manager * W).

#[global] Instance net_ret : MRet net := λ A a s, (Ok a, s).
#[global] Instance net_bind : MBind net := λ A B k c s,
  match c s with
  | (Ok a, s') => k a s'
  | (Err e, s') => (Err e, s')
  end.

Definition failNet {A} (e : network_error) : net A := λ s, (Err e, s).

(** A backend call whose error becomes the given one. *)
Definition call {A} (c : W → result call_error A * W) (other : network_error) : net A := λ '(m, w),
  match c w with
  | (Ok a, w') => (Ok a, (m, w'))
  | (Err e, w') => (Err (wrapCall other e), (m, w'))
  end.

(** [if err := ctx.Err(); err != nil { return err }] *)
Definition checkContext : net unit := λ '(m, w),
  let '(expired, w') := Expired w in (if expired then Err ContextError else Ok tt, (m, w')).

Definition onHeap (id : nat) (f : networkState → networkState) (m : Manager) : Manager :=
  mkManager (nm_states m) (nm_reservations m) (nm_names m) (alter f id (nm_heap m)) (nm_next m).

Definition setState (id : nat) (f : networkState → networkState) : net unit := λ '(m, w), (Ok tt, (onHeap id f m, w)).

(** *** Fields of a state *)

Definition markNamespace (s : networkState) : networkState :=
  mkNet (ns_sessionID s) (ns_owner s) (ns_profileName s) (ns_plan s) (ns_spec s) (ns_policy s) (ns_ready s)
    true (ns_vethAttempted s) (ns_tapAttempted s) (ns_namespacePolicyAttempted s) (ns_hostPolicyAttempted s) (ns_tapFile s).
Definition markVeth (s : networkState) : networkState :=
  mkNet (ns_sessionID s) (ns_owner s) (ns_profileName s) (ns_plan s) (ns_spec s) (ns_policy s) (ns_ready s)
    (ns_namespaceAttempted s) true (ns_tapAttempted s) (ns_namespacePolicyAttempted s) (ns_hostPolicyAttempted s) (ns_tapFile s).
Definition markTAP (s : networkState) : networkState :=
  mkNet (ns_sessionID s) (ns_owner s) (ns_profileName s) (ns_plan s) (ns_spec s) (ns_policy s) (ns_ready s)
    (ns_namespaceAttempted s) (ns_vethAttempted s) true (ns_namespacePolicyAttempted s) (ns_hostPolicyAttempted s) (ns_tapFile s).
Definition setTAP (file : option nat) (s : networkState) : networkState :=
  mkNet (ns_sessionID s) (ns_owner s) (ns_profileName s) (ns_plan s) (ns_spec s) (ns_policy s) (ns_ready s)
    (ns_namespaceAttempted s) (ns_vethAttempted s) (ns_tapAttempted s) (ns_namespacePolicyAttempted s) (ns_hostPolicyAttempted s)
    file.
Definition markNamespacePolicy (s : networkState) : networkState :=
  mkNet (ns_sessionID s) (ns_owner s) (ns_profileName s) (ns_plan s) (ns_spec s) (ns_policy s) (ns_ready s)
    (ns_namespaceAttempted s) (ns_vethAttempted s) (ns_tapAttempted s) true (ns_hostPolicyAttempted s) (ns_tapFile s).
Definition markHostPolicy (s : networkState) : networkState :=
  mkNet (ns_sessionID s) (ns_owner s) (ns_profileName s) (ns_plan s) (ns_spec s) (ns_policy s) (ns_ready s)
    (ns_namespaceAttempted s) (ns_vethAttempted s) (ns_tapAttempted s) (ns_namespacePolicyAttempted s) true (ns_tapFile s).
Definition setReady (ready : bool) (s : networkState) : networkState :=
  mkNet (ns_sessionID s) (ns_owner s) (ns_profileName s) (ns_plan s) (ns_spec s) (ns_policy s) ready
    (ns_namespaceAttempted s) (ns_vethAttempted s) (ns_tapAttempted s) (ns_namespacePolicyAttempted s) (ns_hostPolicyAttempted s)
    (ns_tapFile s).

Definition emptyPolicy : endpointPolicy := mkEndpoints [] [].

(** The end of a complete cleanup. *)
Definition clearState (s : networkState) : networkState :=
  mkNet (ns_sessionID s) (ns_owner s) (ns_profileName s) (ns_plan s) (ns_spec s) emptyPolicy (ns_ready s)
    false false false false false (ns_tapFile s).

(** ** Reservation *)

(** The slot or the name is reserved. *)
Definition taken (spec : topologySpec) (m : Manager) : bool :=
  bool_decide (is_Some (nm_reservations m !! slot spec)) || bool_decide (is_Some (nm_names m !! namespace spec)).

(** The insertion under the manager's lock; [None] when something is taken. *)
Definition reserveInsert (sessionID : string) (owner : Z) (profileName : string) (plan : nat) (spec : topologySpec)
    (policy : endpointPolicy) (m : Manager) : option (nat * Manager) :=
  if bool_decide (is_Some (nm_states m !! sessionID)) || taken spec m then None
  else
    let id := nm_next m in
    Some (id, mkManager (<[sessionID := id]> (nm_states m)) (<[slot spec := sessionID]> (nm_reservations m))
                (<[namespace spec := sessionID]> (nm_names m))
                (<[id := mkNet sessionID owner profileName plan spec policy false false false false false false None]> (nm_heap m))
                (S id)).

Fixpoint reserveLoop (attempts : list nat) (sessionID : string) (owner : Z) (profileName : string) (plan : nat)
    (policy : endpointPolicy) (s : Manager * W) : result network_error nat * (Manager * W) :=
  match attempts with
  | [] => (Err collisionExhausted, s)
  | attempt :: rest =>
      let next := reserveLoop rest sessionID owner profileName plan policy in
      match checkContext s with
      | (Err e, s) => (Err e, s)
      | (Ok _, s) =>
          let spec := candidateFor sessionID (Z.of_nat attempt) in
          if taken spec s.1 then next s
          else
            match call (Available spec) topologyFailed s with
            | (Err e, s) => (Err e, s)
            | (Ok false, s) => next s
            | (Ok true, (m, w)) =>
                match reserveInsert sessionID owner profileName plan spec policy m with
                | None => next (m, w)
                | Some (id, m') => (Ok id, (m', w))
                end
            end
      end
  end.

Definition reserve : string → Z → string → nat → endpointPolicy → net nat :=
  reserveLoop (seq 0 (Z.to_nat maximumAllocationAttempts)).

(** ** Provisioning *)

Definition provision (id : nat) (spec : topologySpec) (policy : endpointPolicy) : net unit :=
  setState id markNamespace ≫= λ _,
  call (CreateNamespace spec) topologyFailed ≫= λ _,
  setState id markVeth ≫= λ _,
  call (CreateVeth spec) topologyFailed ≫= λ _,
  call (ConfigureHost spec) topologyFailed ≫= λ _,
  call (ConfigureNamespace spec) topologyFailed ≫= λ _,
  setState id markTAP ≫= λ _,
  call (CreateTAP spec) topologyFailed ≫= λ tapFile,
  setState id (setTAP (Some tapFile)) ≫= λ _,
  call (ConfigureTAP spec) topologyFailed ≫= λ _,
  setState id markNamespacePolicy ≫= λ _,
  call (ApplyNamespacePolicy spec policy) policyFailed ≫= λ _,
  setState id markHostPolicy ≫= λ _,
  call (ApplyHostPolicy spec policy) policyFailed ≫= λ _,
  checkContext ≫= λ _,
  setState id (setReady true).

(** ** Cleanup *)

(** A cleanup call: its failure is remembered and cleanup goes on. *)
Definition attempt (condition : bool) (c : W → result call_error unit * W) (failed : bool) (w : W) : bool * W :=
  if condition then match c w with (Ok _, w') => (failed, w') | (Err _, w') => (true, w') end else (failed, w).

Definition releaseState (id : nat) (s : networkState) (m : Manager) : Manager :=
  mkManager
    (if bool_decide (nm_states m !! ns_sessionID s = Some id) then delete (ns_sessionID s) (nm_states m) else nm_states m)
    (if bool_decide (nm_reservations m !! slot (ns_spec s) = Some (ns_sessionID s))
     then delete (slot (ns_spec s)) (nm_reservations m) else nm_reservations m)
    (if bool_decide (nm_names m !! namespace (ns_spec s) = Some (ns_sessionID s))
     then delete (namespace (ns_spec s)) (nm_names m) else nm_names m)
    (nm_heap m) (nm_next m).

Definition cleanupState (id : nat) : net unit := λ '(m, w),
  match nm_heap m !! id with
  | None => (Ok tt, (m, w))
  | Some s =>
      let spec := ns_spec s in
      let m := onHeap id (λ s, setTAP None (setReady false s)) m in
      let '(failed, w) := attempt (ns_vethAttempted s) (DisableEgress spec) false w in
      let '(failed, w) := attempt (ns_vethAttempted s) (DeleteVeth spec) failed w in
      let '(failed, w) := attempt (ns_hostPolicyAttempted s) (DeleteHostPolicy spec) failed w in
      let '(failed, w) := attempt (ns_namespacePolicyAttempted s) (DeleteNamespacePolicy spec) failed w in
      let '(failed, w) :=
        match ns_tapFile s with Some file => attempt true (CloseFile file) failed w | None => (failed, w) end in
      let '(failed, w) := attempt (ns_tapAttempted s) (DeleteTAP spec) failed w in
      let '(failed, w) := attempt (ns_namespaceAttempted s) (DeleteNamespace spec) failed w in
      let '(absent, w) := AuditAbsent spec w in
      let failed := failed || negb (match absent with Ok true => true | _ => false end) in
      let '(expired, w) := Expired w in
      if failed || expired then (Err cleanupIncomplete, (m, w))
      else (Ok tt, (releaseState id s (onHeap id clearState m), w))
  end.

Definition Cleanup (sessionID : string) : net unit := λ '(m, w),
  match ValidateID sessionID with
  | Err _ => (Err invalidRequest, (m, w))
  | Ok _ =>
      match nm_states m !! sessionID with
      | None => (Ok tt, (m, w))
      | Some id => cleanupState id (m, w)
      end
  end.

(** ** Creation *)

(** The endpoints of the plan, one by one, at most sixteen. *)
Fixpoint gatherEndpoints (endpoints : list resolvedEndpoint) (gathered : list endpointTuple) : net (list endpointTuple) :=
  match endpoints with
  | [] => mret gathered
  | e :: rest =>
      checkContext ≫= λ _,
      if (maximumEndpointTuples <=? len gathered)%Z then failNet invalidRequest
      else gatherEndpoints rest (gathered ++ [endpointTupleFor (re_address e) (re_port e)])
  end.

(** The errors of the VPN store: its application errors pass through, and so
    does the context's; anything else is wrapped. *)
Definition planError (e : profile_error) : network_error :=
  match e with
  | profileContextError => ContextError
  | ErrCallbackRequired | profileCallbackError => topologyFailed
  | _ => PlanError e
  end.

(** A handoff passes the store's errors on. *)
Definition handoffError (e : profile_error) : network_error :=
  match e with profileContextError => ContextError | _ => PlanError e end.

(** The callback of [UsePlan]: what it reserved, if anything, and its result. *)
Definition createBody (sessionID : string) (owner : Z) (profileName : string) (plan : nat) (view : resolvedProfile)
    (s : Manager * W) : option nat * result network_error unit * (Manager * W) :=
  match gatherEndpoints (Endpoints view) [] s with
  | (Err e, s) => (None, Err e, s)
  | (Ok endpoints, s) =>
      match collectPolicy endpoints with
      | Err e => (None, Err e, s)
      | Ok policy =>
          match reserve sessionID owner profileName plan policy s with
          | (Err e, s) => (None, Err e, s)
          | (Ok id, s) =>
              match nm_heap s.1 !! id with
              | None => (Some id, Ok tt, s)
              | Some st => let '(r, s) := provision id (ns_spec st) policy s in (Some id, r, s)
              end
          end
      end
  end.

Definition Create (sessionID : string) (owner : Z) (profileName : string) (store : MemoryStore) (plan : nat) : net nat := λ '(m, w),
  match ValidateID sessionID with
  | Err _ => (Err invalidRequest, (m, w))
  | Ok _ =>
      if bool_decide (is_Some (nm_states m !! sessionID)) then (Err topologyExists, (m, w))
      else
        let '(cancelled, w) := Expired w in
        match UsePlan cancelled owner profileName plan store with
        | Err e => (Err (planError e), (m, w))
        | Ok view =>
            match createBody sessionID owner profileName plan view (m, w) with
            | (Some id, Ok _, s) => (Ok id, s)
            | (Some id, Err e, s) =>
                match cleanupState id s with
                | (Err c, s) => (Err c, s)
                | (Ok _, s) => (Err e, s)
                end
            | (None, Ok _, s) => (Ok 0%nat, s)
            | (None, Err e, s) => (Err e, s)
            end
        end
  end.

(** ** Handles *)

Definition InspectNet (id : nat) (m : Manager) : NetInspection :=
  match nm_heap m !! id with
  | None => mkNetInspection 1 false 0 0 false
  | Some s =>
      mkNetInspection 1 (ns_ready s) (len (v4s (ns_policy s))) (len (v6s (ns_policy s)))
        (ns_ready s && bool_decide (is_Some (ns_tapFile s)))
  end.

(** The current plan is leased for the time of the handoff. *)
Definition withPlan {A} (id : nat) (store : MemoryStore) (body : networkState → resolvedProfile → net A) : net A := λ '(m, w),
  match nm_heap m !! id with
  | None => (Err invalidRequest, (m, w))
  | Some s =>
      let '(cancelled, w) := Expired w in
      match UsePlan cancelled (ns_owner s) (ns_profileName s) (ns_plan s) store with
      | Err e => (Err (handoffError e), (m, w))
      | Ok view => body s view (m, w)
      end
  end.

Definition AuditPolicy (id : nat) (store : MemoryStore) : net PolicyAudit := λ '(m, w),
  match withPlan id store (λ s _, λ '(m, w),
    let owned := bool_decide (nm_states m !! ns_sessionID s = Some id) in
    let ready := ns_ready s && ns_namespacePolicyAttempted s && ns_hostPolicyAttempted s in
    if negb owned || negb ready then (Err policyAuditFailed, (m, w))
    else
      (call (AuditPolicyCall (ns_spec s)) policyAuditFailed ≫= λ proof,
       if negb (NamespacePolicyPresent proof) || negb (HostPolicyPresent proof) || negb (ForbiddenEgressZero proof)
       then failNet policyAuditFailed
       else checkContext ≫= λ _, mret proof) (m, w)) (m, w) with
  | (Err ContextError, s) => (Err ContextError, s)
  | (Err _, s) => (Err policyAuditFailed, s)
  | (Ok proof, s) => (Ok proof, s)
  end.

(** The callbacks are interface calls over the world.  The duplicate is closed
    when the callback has returned. *)
Definition lend (fn : nat → W → result call_error unit * W) (duplicate : nat) : net unit := λ '(m, w),
  match fn duplicate w with
  | (Err e, w) => let '(_, w) := CloseFile duplicate w in (Err (wrapCall CallbackError e), (m, w))
  | (Ok _, w) =>
      let '(expired, w) := Expired w in
      let '(_, w) := CloseFile duplicate w in (if expired then Err ContextError else Ok tt, (m, w))
  end.

Definition WithTAP (id : nat) (store : MemoryStore) (fn : nat → W → result call_error unit * W) : net unit :=
  withPlan id store (λ s _,
    match ns_ready s, ns_tapFile s with
    | true, Some file =>
        call (DuplicateTAP file) topologyFailed ≫= λ duplicate, lend fn duplicate
    | _, _ => failNet topologyNotReady
    end).

Record guestAddressing := mkAddressing { ga_IPv4Address : Prefix; ga_IPv4Gateway : Addr; ga_IPv6Address : Prefix; ga_IPv6Gateway : Addr }.

Definition addressingOf (spec : topologySpec) : guestAddressing :=
  mkAddressing (guestAddress4 spec) (pf_Addr (guestGateway4 spec)) (guestAddress6 spec) (pf_Addr (guestGateway6 spec)).

Definition WithGuestAddressing (id : nat) (store : MemoryStore) (fn : guestAddressing → W → result call_error unit * W) : net unit :=
  withPlan id store (λ s _,
    if ns_ready s then call (fn (addressingOf (ns_spec s))) CallbackError ≫= λ _, checkContext
    else failNet topologyNotReady).

(** The rendered configuration of the leased plan. *)
Definition withConfig (view : resolvedProfile) : net string := λ '(m, w),
  let '(cancelled, w) := Expired w in
  match WithGuestConfig cancelled view with
  | Err e => (Err (handoffError e), (m, w))
  | Ok text => (Ok text, (m, w))
  end.

Definition WithGuestVPNConfig (id : nat) (store : MemoryStore) (fn : string → W → result call_error unit * W) : net unit :=
  withPlan id store (λ s view,
    if ns_ready s then withConfig view ≫= λ text, call (fn text) CallbackError ≫= λ _, checkContext
    else failNet topologyNotReady).

Definition HandleCleanup (id : nat) : net unit := λ '(m, w),
  match nm_heap m !! id with None => (Ok tt, (m, w)) | Some s => Cleanup (ns_sessionID s) (m, w) end.

(** ** A program logic for one state

    [runs id c P Q E]: started on a heap whose state [id] satisfies [P], the
    program [c] changes at most that state, ending in [Q] with its value or in
    [E] with an error; the tables and the other states stay. *)

Definition put (id : nat) (s : networkState) (m : Manager) : Manager :=
  mkManager (nm_states m) (nm_reservations m) (nm_names m) (<[id := s]> (nm_heap m)) (nm_next m).

Definition runs {A} (id : nat) (c : net A) (s0 : networkState) (Q : A → networkState → Prop)
    (E : network_error → networkState → Prop) : Prop :=
  ∀ m w, nm_heap m !! id = Some s0 →
    ∃ s', (c (m, w)).2.1 = put id s' m ∧ match (c (m, w)).1 with Ok a => Q a s' | Err e => E e s' end.

Lemma put_same id s m : nm_heap m !! id = Some s → put id s m = m.
Proof. destruct m. unfold put. cbn. intros. by rewrite insert_id. Qed.

Lemma put_put id s s' m : put id s (put id s' m) = put id s m.
Proof. unfold put. cbn. by rewrite insert_insert_eq. Qed.

Lemma put_heap id s m : nm_heap (put id s m) !! id = Some s.
Proof. apply lookup_insert_eq. Qed.

Lemma onHeap_put id f s m : nm_heap m !! id = Some s → onHeap id f m = put id (f s) m.
Proof. intros H0. unfold onHeap, put. f_equal. apply map_eq. intros j. destruct (decide (j = id)) as [->|].
  - by rewrite lookup_alter_eq, lookup_insert_eq, H0.
  - by rewrite lookup_alter_ne, lookup_insert_ne by done. Qed.

Lemma runs_bind {A B} id (c : net A) (k : A → net B) s0 Q R E :
  runs id c s0 Q E → (∀ a s, Q a s → runs id (k a) s R E) → runs id (c ≫= k) s0 R E.
Proof.
  intros Hc Hk m w Hs. destruct (Hc m w Hs) as (s1 & Hm & Hr). unfold mbind, net_bind.
  destruct (c (m, w)) as [[a|e] [m1 w1]]; cbn [fst snd] in *; subst m1; [|eauto].
  destruct (Hk a s1 Hr (put id s1 m) w1 (put_heap _ _ _)) as (s2 & Hm2 & Hr2). exists s2. by rewrite Hm2, put_put.
Qed.

Lemma runs_set {B} id f (k : unit → net B) s0 R E : runs id (k tt) (f s0) R E → runs id (setState id f ≫= k) s0 R E.
Proof.
  intros Hk. apply runs_bind with (Q := λ _ s, s = f s0); [|by intros [] ? ->].
  intros m w Hs. exists (f s0). cbn. by rewrite (onHeap_put _ _ _ _ Hs).
Qed.

Lemma runs_backend {A B} id (c : W → result call_error A * W) other (k : A → net B) s0 R (E : network_error → networkState → Prop) :
  (∀ a, runs id (k a) s0 R E) → (∀ e, E e s0) → runs id (call c other ≫= k) s0 R E.
Proof.
  intros Hk HE. apply runs_bind with (Q := λ _ s, s = s0); [|by intros a ? ->].
  intros m w Hs. exists s0. unfold call. destruct (c w) as [[a|e] w']; cbn; rewrite put_same by done; auto.
Qed.

Lemma runs_context {B} id (k : unit → net B) s0 R (E : network_error → networkState → Prop) :
  runs id (k tt) s0 R E → (∀ e, E e s0) → runs id (checkContext ≫= k) s0 R E.
Proof.
  intros Hk HE. apply runs_bind with (Q := λ _ s, s = s0); [|by intros [] ? ->].
  intros m w Hs. exists s0. unfold checkContext. destruct (Expired w) as [[] w']; cbn; rewrite put_same by done; auto.
Qed.

Lemma runs_done id f s0 (R : unit → networkState → Prop) E : R tt (f s0) → runs id (setState id f) s0 R E.
Proof. intros HR m w Hs. exists (f s0). cbn. by rewrite (onHeap_put _ _ _ _ Hs). Qed.

(** What provisioning leaves: the identity of the state; when it succeeds the
    network is ready, with every resource recorded for cleanup. *)
Record sameIdentity (s s' : networkState) : Prop := {
  si_session : ns_sessionID s' = ns_sessionID s;
  si_owner : ns_owner s' = ns_owner s;
  si_profile : ns_profileName s' = ns_profileName s;
  si_plan : ns_plan s' = ns_plan s;
  si_spec : ns_spec s' = ns_spec s;
  si_policy : ns_policy s' = ns_policy s
}.

Record provisioned (s : networkState) : Prop := {
  pv_ready : ns_ready s = true;
  pv_namespace : ns_namespaceAttempted s = true;
  pv_veth : ns_vethAttempted s = true;
  pv_tap : ns_tapAttempted s = true;
  pv_namespacePolicy : ns_namespacePolicyAttempted s = true;
  pv_hostPolicy : ns_hostPolicyAttempted s = true;
  pv_file : is_Some (ns_tapFile s)
}.

Lemma provision_runs id spec policy s0 :
  ns_ready s0 = false →
  runs id (provision id spec policy) s0 (λ _ s, sameIdentity s0 s ∧ provisioned s)
    (λ _ s, sameIdentity s0 s ∧ ns_ready s = false).
Proof.
  intros Hr. unfold provision.
  repeat first [apply runs_set | apply runs_backend; [intros ?|intros ?; by repeat split] | apply runs_context; [|intros ?; by repeat split]].
  apply runs_done. by repeat split.
Qed.

(** ** The reservation, cleanup and creation contracts *)

Definition freshState (sessionID : string) (owner : Z) (profileName : string) (plan : nat) (spec : topologySpec)
    (policy : endpointPolicy) : networkState :=
  mkNet sessionID owner profileName plan spec policy false false false false false false None.

Definition registered (s : networkState) (m : Manager) : Manager :=
  mkManager (<[ns_sessionID s := nm_next m]> (nm_states m)) (<[slot (ns_spec s) := ns_sessionID s]> (nm_reservations m))
    (<[namespace (ns_spec s) := ns_sessionID s]> (nm_names m)) (<[nm_next m := s]> (nm_heap m)) (S (nm_next m)).

(** A reservation registers a fresh state under a free session, slot and name. *)
Record admits (s : networkState) (m : Manager) : Prop := {
  ad_session : nm_states m !! ns_sessionID s = None;
  ad_slot : nm_reservations m !! slot (ns_spec s) = None;
  ad_name : nm_names m !! namespace (ns_spec s) = None;
  ad_candidate : ∃ attempt, (attempt < Z.to_nat maximumAllocationAttempts)%nat ∧
    ns_spec s = candidateFor (ns_sessionID s) (Z.of_nat attempt)
}.

Lemma reserveInsert_some sessionID owner profileName plan spec policy m id m' :
  reserveInsert sessionID owner profileName plan spec policy m = Some (id, m') →
  nm_states m !! sessionID = None ∧ nm_reservations m !! slot spec = None ∧ nm_names m !! namespace spec = None ∧
  id = nm_next m ∧ m' = registered (freshState sessionID owner profileName plan spec policy) m.
Proof.
  unfold reserveInsert, taken. destruct (_ || _) eqn:E; [done|]. intros [= <- <-].
  rewrite !orb_false_iff, !bool_decide_eq_false, <- !eq_None_not_Some in E. destruct E as (H1 & H2 & H3). done.
Qed.

Lemma reserveLoop_spec attempts sessionID owner profileName plan policy m w r m' w' :
  Forall (λ a, a < Z.to_nat maximumAllocationAttempts)%nat attempts →
  reserveLoop attempts sessionID owner profileName plan policy (m, w) = (r, (m', w')) →
  match r with
  | Err _ => m' = m
  | Ok id => id = nm_next m ∧ ∃ spec, let s := freshState sessionID owner profileName plan spec policy in
      admits s m ∧ m' = registered s m
  end.
Proof.
  intros Hall. revert w. induction Hall as [|a rest Ha _ IH]; intros w; cbn [reserveLoop]; [by intros [= <- <- <-]|].
  unfold checkContext at 1. destruct (Expired w) as [[] w1]; [by intros [= <- <- <-]|]. cbv zeta. cbn [fst].
  destruct (taken _ m); [apply IH|]. unfold call. destruct (Available _ w1) as [[[]|e] w2]; [|apply IH|by intros [= <- <- <-]].
  destruct (reserveInsert _ _ _ _ _ _ m) as [[id m1]|] eqn:Ei; [|apply IH]. intros [= <- <- <-].
  apply reserveInsert_some in Ei as (H1 & H2 & H3 & -> & ->). split; [done|].
  exists (candidateFor sessionID (Z.of_nat a)). cbv zeta. split; [|done]. split; cbn; eauto.
Qed.

Lemma reserve_spec sessionID owner profileName plan policy m w r m' w' :
  reserve sessionID owner profileName plan policy (m, w) = (r, (m', w')) →
  match r with
  | Err _ => m' = m
  | Ok id => id = nm_next m ∧ ∃ spec, let s := freshState sessionID owner profileName plan spec policy in
      admits s m ∧ m' = registered s m
  end.
Proof. apply reserveLoop_spec, Forall_forall. intros a Ha%elem_of_seq. lia. Qed.

(** Cleanup disables the handle at once; the tables change only after a complete
    teardown that the audit confirmed within its time. *)
Definition severed (s : networkState) : networkState := setTAP None (setReady false s).

Lemma cleanupState_spec id m w r m' w' s :
  nm_heap m !! id = Some s → cleanupState id (m, w) = (r, (m', w')) →
  match r with
  | Ok _ => m' = releaseState id s (put id (clearState (severed s)) m) ∧
      ∃ w1 w2, AuditAbsent (ns_spec s) w1 = (Ok true, w2) ∧ Expired w2 = (false, w')
  | Err e => e = cleanupIncomplete ∧ m' = put id (severed s) m
  end.
Proof.
  intros Hs. unfold cleanupState. rewrite Hs. cbv zeta. rewrite (onHeap_put _ _ _ _ Hs).
  repeat match goal with |- context [attempt ?c ?f ?b ?w] => destruct (attempt c f b w) as [? ?] end.
  destruct (ns_tapFile s); repeat match goal with |- context [attempt ?c ?f ?b ?w] => destruct (attempt c f b w) as [? ?] end.
  all: destruct (AuditAbsent _ _) as [[[]|] wa] eqn:Ea; destruct (Expired wa) as [[] wx] eqn:Ex;
    rewrite ?orb_true_r, ?orb_false_r; try (intros [= <- <- <-]; by split).
  all: cbn [negb orb]; rewrite ?orb_false_r;
    match goal with |- context [if ?b then _ else _] => destruct b end; intros [= <- <- <-]; [by split|];
    rewrite (onHeap_put _ _ _ _ (put_heap _ _ _)), put_put; eauto 6.
Qed.

(** ** The invariant of the tables *)

Record state_inv (m : Manager) (sid : string) (id : nat) (s : networkState) : Prop := {
  st_found : nm_heap m !! id = Some s;
  st_session : ns_sessionID s = sid;
  st_slot : nm_reservations m !! slot (ns_spec s) = Some sid;
  st_name : nm_names m !! namespace (ns_spec s) = Some sid;
  st_candidate : ∃ attempt, ns_spec s = candidateFor sid attempt
}.

Record net_inv (m : Manager) : Prop := {
  ni_old : ∀ id s, nm_heap m !! id = Some s → (id < nm_next m)%nat;
  ni_states : ∀ sid id, nm_states m !! sid = Some id → ∃ s, state_inv m sid id s;
  ni_slots : ∀ sl sid, nm_reservations m !! sl = Some sid →
    ∃ id s, nm_states m !! sid = Some id ∧ nm_heap m !! id = Some s ∧ slot (ns_spec s) = sl;
  ni_names : ∀ name sid, nm_names m !! name = Some sid →
    ∃ id s, nm_states m !! sid = Some id ∧ nm_heap m !! id = Some s ∧ namespace (ns_spec s) = name;
  ni_ready_registered : ∀ id s, nm_heap m !! id = Some s → ns_ready s = true →
    nm_states m !! ns_sessionID s = Some id ∧ provisioned s
}.

Lemma inv_initial : net_inv newManager.
Proof. by split. Qed.

Lemma inv_registered s m : net_inv m → admits s m → ns_ready s = false → net_inv (registered s m).
Proof.
  intros [Ho Hs Hr Hn Hy] [A1 A2 A3 (a & _ & A4)] Hready. assert (nm_heap m !! nm_next m = None) as Hnew.
  { destruct (nm_heap m !! nm_next m) as [x|] eqn:E; [|done]. apply Ho in E. lia. }
  split; cbn [registered nm_heap nm_next nm_states nm_reservations nm_names].
  - intros id x [[<- <-]|[? Hx]]%lookup_insert_Some; [lia|]. apply Ho in Hx. lia.
  - intros sid id [[<- <-]|[Hne Hx]]%lookup_insert_Some.
    + exists s. split; cbn; rewrite ?lookup_insert_eq; eauto.
    + destruct (Hs _ _ Hx) as (x & [X1 X2 X3 X4 X5]). exists x. split; cbn; [|done| | |done]; rewrite lookup_insert_ne; congruence.
  - intros sl sid [[<- <-]|[Hne Hx]]%lookup_insert_Some; [exists (nm_next m), s; by rewrite !lookup_insert_eq|].
    destruct (Hr _ _ Hx) as (id & x & X1 & X2 & X3). exists id, x. rewrite !lookup_insert_ne by congruence. done.
  - intros name sid [[<- <-]|[Hne Hx]]%lookup_insert_Some; [exists (nm_next m), s; by rewrite !lookup_insert_eq|].
    destruct (Hn _ _ Hx) as (id & x & X1 & X2 & X3). exists id, x. rewrite !lookup_insert_ne by congruence. done.
  - intros id x [[<- <-]|[Hne Hx]]%lookup_insert_Some Hrx; [congruence|].
    destruct (Hy _ _ Hx Hrx) as [X1 X2]. rewrite lookup_insert_ne by congruence. done.
Qed.

Lemma inv_put id s s' m :
  net_inv m → nm_heap m !! id = Some s → ns_sessionID s' = ns_sessionID s → ns_spec s' = ns_spec s →
  (ns_ready s' = true → nm_states m !! ns_sessionID s = Some id ∧ provisioned s') → net_inv (put id s' m).
Proof.
  intros [Ho Hs Hr Hn Hy] Hid Esid Espec Hready.
  assert (∀ j x, nm_heap m !! j = Some x → ∃ x', <[id := s']> (nm_heap m) !! j = Some x' ∧
            ns_sessionID x' = ns_sessionID x ∧ ns_spec x' = ns_spec x) as Hkeep.
  { intros j x Hx. destruct (decide (j = id)) as [->|]; [|rewrite lookup_insert_ne by done; eauto].
    exists s'. rewrite lookup_insert_eq. assert (x = s) as -> by congruence. done. }
  split; cbn [put nm_heap nm_next nm_states nm_reservations nm_names].
  - intros j x [[<- <-]|[_ Hx]]%lookup_insert_Some; eauto.
  - intros sid j Hx. destruct (Hs _ _ Hx) as (x & [X1 X2 X3 X4 X5]). destruct (Hkeep _ _ X1) as (x' & K1 & K2 & K3).
    exists x'. split; cbn; rewrite ?K3; congruence.
  - intros sl sid Hx. destruct (Hr _ _ Hx) as (j & x & X1 & X2 & X3). destruct (Hkeep _ _ X2) as (x' & K1 & _ & K3).
    exists j, x'. rewrite K3. done.
  - intros sl sid Hx. destruct (Hn _ _ Hx) as (j & x & X1 & X2 & X3). destruct (Hkeep _ _ X2) as (x' & K1 & _ & K3).
    exists j, x'. rewrite K3. done.
  - intros j x [[<- <-]|[_ Hx]]%lookup_insert_Some Hrx; [rewrite Esid|]; auto.
Qed.

Definition released (s : networkState) (m : Manager) : Manager :=
  mkManager (delete (ns_sessionID s) (nm_states m)) (delete (slot (ns_spec s)) (nm_reservations m))
    (delete (namespace (ns_spec s)) (nm_names m)) (nm_heap m) (nm_next m).

(** The guards of the release hold for a registered state. *)
Lemma releaseState_owned id s m : state_inv m (ns_sessionID s) id s → nm_states m !! ns_sessionID s = Some id →
  releaseState id s m = released s m.
Proof. intros [_ _ H1 H2 _] H3. unfold releaseState. rewrite H1, H2, H3. by rewrite !bool_decide_eq_true_2. Qed.

Lemma inv_released id s m :
  net_inv m → nm_states m !! ns_sessionID s = Some id → nm_heap m !! id = Some s → ns_ready s = false → net_inv (released s m).
Proof.
  intros [Ho Hs Hr Hn Hy] Hid Hheap Hready. split; cbn [released nm_heap nm_next nm_states nm_reservations nm_names]; [done|..].
  - intros sid j [Hne Hx]%lookup_delete_Some. destruct (Hs _ _ Hx) as (x & [X1 X2 X3 X4 X5]).
    exists x. split; cbn; try done; apply lookup_delete_Some; (split; [|done]); intros E; rewrite <- E in *.
    + destruct (Hs _ _ Hid) as (y & [Y1 Y2 Y3 Y4 _]). assert (y = s) as -> by congruence. congruence.
    + destruct (Hs _ _ Hid) as (y & [Y1 Y2 Y3 Y4 _]). assert (y = s) as -> by congruence. congruence.
  - intros sl sid [Hne Hx]%lookup_delete_Some. destruct (Hr _ _ Hx) as (j & x & X1 & X2 & X3). exists j, x.
    split; [|done]. apply lookup_delete_Some. split; [|done]. intros <-. congruence.
  - intros sl sid [Hne Hx]%lookup_delete_Some. destruct (Hn _ _ Hx) as (j & x & X1 & X2 & X3). exists j, x.
    split; [|done]. apply lookup_delete_Some. split; [|done]. intros <-. congruence.
  - intros j x Hx Hrx. destruct (Hy _ _ Hx Hrx) as [X1 X2]. split; [|done].
    apply lookup_delete_Some. split; [|done]. intros E. rewrite <- E in X1. congruence.
Qed.

Lemma cleanup_registered id s m w r m' w' :
  net_inv m → nm_states m !! ns_sessionID s = Some id → nm_heap m !! id = Some s →
  cleanupState id (m, w) = (r, (m', w')) →
  net_inv m' ∧
  match r with
  | Ok _ => m' = released s (put id (clearState (severed s)) m) ∧
      ∃ w1 w2, AuditAbsent (ns_spec s) w1 = (Ok true, w2) ∧ Expired w2 = (false, w')
  | Err e => e = cleanupIncomplete ∧ m' = put id (severed s) m
  end.
Proof.
  intros Hi Hid Hs Hc. pose proof (cleanupState_spec _ _ _ _ _ _ _ Hs Hc) as Hr.
  assert (net_inv (put id (severed s) m)) as Hput by (by apply (inv_put id s)).
  assert (net_inv (put id (clearState (severed s)) m)) as Hput' by (by apply (inv_put id s)).
  destruct r as [[]|e]; [|destruct Hr as [-> ->]; done]. destruct Hr as [-> Ha].
  destruct (ni_states _ Hi _ _ Hid) as (x & [X1 _ X3 X4 X5]). assert (x = s) as -> by congruence.
  set (m1 := put id (clearState (severed s)) m) in *.
  assert (releaseState id s m1 = released s m1) as ->.
  { unfold releaseState, released, m1. cbn [put nm_states nm_reservations nm_names].
    rewrite X3, X4, Hid. by rewrite !bool_decide_eq_true_2. }
  split; [|done]. apply (inv_released id (clearState (severed s)) m1 Hput' Hid (put_heap _ _ _)). done.
Qed.

Lemma gatherEndpoints_spec endpoints gathered m w r m' w' :
  gatherEndpoints endpoints gathered (m, w) = (r, (m', w')) →
  m' = m ∧ match r with
    | Ok all => all = gathered ++ map (λ e, endpointTupleFor (re_address e) (re_port e)) endpoints
    | Err _ => True
    end.
Proof.
  revert gathered w. induction endpoints as [|e rest IH]; intros gathered w; cbn [gatherEndpoints].
  { intros [= <- <- <-]. by rewrite app_nil_r. }
  unfold mbind, net_bind, checkContext. destruct (Expired w) as [[] w1]; [by intros [= <- <- <-]|].
  destruct (_ <=? _)%Z; [by intros [= <- <- <-]|]. intros Hg. apply IH in Hg as [-> Hg]. split; [done|].
  destruct r; [|done]. rewrite Hg. cbn [map]. by rewrite <- app_assoc.
Qed.

(** What a creation that reserved [id] leaves before any cleanup. *)
Lemma createBody_spec sessionID owner profileName plan view m w o r m' w' :
  net_inv m →
  createBody sessionID owner profileName plan view (m, w) = (o, r, (m', w')) →
  match o with
  | None => m' = m ∧ ∃ e, r = Err e
  | Some id => ∃ spec policy s,
      let s0 := freshState sessionID owner profileName plan spec policy in
      id = nm_next m ∧ admits s0 m ∧ sameIdentity s0 s ∧ m' = put id s (registered s0 m) ∧
      collected (map (λ e, endpointTupleFor (re_address e) (re_port e)) (Endpoints view)) policy ∧
      match r with Ok _ => provisioned s | Err _ => ns_ready s = false end
  end.
Proof.
  intros Hi. unfold createBody. destruct (gatherEndpoints _ _ _) as [[all|e] [m1 w1]] eqn:Eg;
    apply gatherEndpoints_spec in Eg as [-> Hg]; [|intros [= <- <- <- <-]; eauto]. cbn [app] in Hg. subst all.
  destruct (collectPolicy _) as [policy|e] eqn:Ec; [|intros [= <- <- <- <-]; eauto]. apply collectPolicy_collected in Ec.
  destruct (reserve _ _ _ _ _ _) as [[id|e] [m2 w2]] eqn:Er; apply reserve_spec in Er; [|subst; intros [= <- <- <- <-]; eauto].
  destruct Er as (-> & spec & Had & ->). cbn [fst]. set (s0 := freshState _ _ _ _ _ _) in *.
  rewrite (lookup_insert_eq (nm_heap m) (nm_next m) s0 : nm_heap (registered s0 m) !! nm_next m = Some s0).
  destruct (provision_runs (nm_next m) (ns_spec s0) policy s0 eq_refl (registered s0 m) w2) as (s & Hm & Hr).
  { apply lookup_insert_eq. }
  destruct (provision _ _ _ _) as [r' [m3 w3]]. cbn [fst snd] in *. intros [= <- <- <- <-].
  exists spec, policy, s. cbv zeta. fold s0. destruct r'; destruct Hr; eauto 10.
Qed.

Definition tables (m : Manager) : gmap string nat * gmap Z string * gmap string string :=
  (nm_states m, nm_reservations m, nm_names m).

(** The other sessions' networks stay as they are. *)
Record untouched (sid : string) (m m' : Manager) : Prop := {
  un_states : ∀ other, other ≠ sid → nm_states m' !! other = nm_states m !! other;
  un_heap : nm_heap m ⊆ nm_heap m'
}.

(** A network that is ready under exactly the leased plan. *)
Record createdFor (sid : string) (owner : Z) (name : string) (plan : nat) (view : resolvedProfile) (m' : Manager)
    (id : nat) (s : networkState) : Prop := {
  cf_registered : nm_states m' !! sid = Some id;
  cf_state : nm_heap m' !! id = Some s;
  cf_identity : (ns_sessionID s, ns_owner s, ns_profileName s, ns_plan s) = (sid, owner, name, plan);
  cf_provisioned : provisioned s;
  cf_candidate : ∃ attempt, (attempt < Z.to_nat maximumAllocationAttempts)%nat ∧ ns_spec s = candidateFor sid (Z.of_nat attempt);
  cf_policy : collected (map (λ e, endpointTupleFor (re_address e) (re_port e)) (Endpoints view)) (ns_policy s)
}.

(** A network whose cleanup has to be retried. *)
Record stranded (sid : string) (m' : Manager) (id : nat) (s : networkState) : Prop := {
  sd_registered : nm_states m' !! sid = Some id;
  sd_state : nm_heap m' !! id = Some s;
  sd_ready : ns_ready s = false;
  sd_tap : ns_tapFile s = None
}.

Lemma UsePlan_live cancelled owner name plan store view :
  UsePlan cancelled owner name plan store = Ok view → UsePlan false owner name plan store = Ok view.
Proof.
  unfold UsePlan. destruct (negb _); [done|]. destruct (ms_closed store); [done|].
  destruct (ms_profiles store !! _) as [entry|]; [|done]. destruct (ms_plans store !! _); [|done].
  destruct (_ || _); [done|]. by destruct cancelled.
Qed.

Lemma untouched_refl sid m : untouched sid m m.
Proof. by split. Qed.

Lemma heap_fresh m s : net_inv m → nm_heap m ⊆ <[nm_next m := s]> (nm_heap m).
Proof.
  intros Hi. apply insert_subseteq. destruct (nm_heap m !! nm_next m) as [x|] eqn:E; [|done].
  apply (ni_old _ Hi) in E. lia.
Qed.

(** Releasing what was just registered restores the tables. *)
Lemma released_registered s s1 s2 m :
  admits s m → ns_sessionID s1 = ns_sessionID s → ns_spec s1 = ns_spec s →
  tables (released s1 (put (nm_next m) s2 (registered s m))) = tables m.
Proof.
  intros [A1 A2 A3 _] E1 E2. unfold tables, released. cbn [put registered nm_states nm_reservations nm_names].
  by rewrite E1, E2, !delete_insert_id.
Qed.

Lemma Create_spec sid owner name store plan m w r m' w' :
  net_inv m → Create sid owner name store plan (m, w) = (r, (m', w')) →
  net_inv m' ∧ untouched sid m m' ∧
  match r with
  | Ok id => nm_states m !! sid = None ∧ ∃ view s, UsePlan false owner name plan store = Ok view ∧
      createdFor sid owner name plan view m' id s
  | Err e => tables m' = tables m ∨ e = cleanupIncomplete ∧ ∃ id s, stranded sid m' id s
  end.
Proof.
  intros Hi. unfold Create. destruct (ValidateID sid); [|intros [= <- <- <-]; eauto using untouched_refl].
  destruct (bool_decide _); [intros [= <- <- <-]; eauto using untouched_refl|]. destruct (Expired w) as [cancelled w1].
  destruct (UsePlan _ _ _ _ _) as [view|e] eqn:Eu; [|intros [= <- <- <-]; eauto using untouched_refl].
  apply UsePlan_live in Eu. destruct (createBody _ _ _ _ _ _) as [[o r1] [m1 w2]] eqn:Eb.
  apply createBody_spec in Eb; [|done]. destruct o as [id|]; [|destruct Eb as (-> & e & ->); intros [= <- <- <-]; eauto using untouched_refl].
  destruct Eb as (spec & policy & s & -> & Had & [I1 I2 I3 I4 I5 I6] & -> & Hcol & Hr).
  set (s0 := freshState _ _ _ _ _ _) in *. pose proof (inv_registered _ _ Hi Had eq_refl) as Hreg.
  assert (nm_heap (registered s0 m) !! nm_next m = Some s0) as Hs0 by apply lookup_insert_eq.
  assert (nm_states (registered s0 m) !! sid = Some (nm_next m)) as Hsid by apply lookup_insert_eq.
  assert (net_inv (put (nm_next m) s (registered s0 m))) as Hput.
  { apply (inv_put _ s0); try done. destruct r1; [done|congruence]. }
  assert (∀ x, nm_heap m ⊆ <[nm_next m := x]> (<[nm_next m := s0]> (nm_heap m))) as Hsub.
  { intros x. rewrite insert_insert_eq. by apply heap_fresh. }
  assert (∀ x, untouched sid m (put (nm_next m) x (registered s0 m))) as Hun.
  { intros x. split; [|apply Hsub]. intros other Hne. cbn. by rewrite lookup_insert_ne. }
  destruct r1 as [[]|e].
  { intros [= <- <- <-]. split; [done|]. split; [apply Hun|]. split; [apply Had|]. exists view, s. split; [done|].
    destruct Had as [_ _ _ (k & Ha & Hspec)].
    split; cbn; rewrite ?lookup_insert_eq, ?I1, ?I2, ?I3, ?I4, ?I5, ?I6; eauto. }
  destruct (cleanupState _ _) as [r2 [m2 w3]] eqn:Ec.
  apply (cleanup_registered _ s) in Ec; [|done|by rewrite I1|apply put_heap]. destruct Ec as [Hi2 Hc]. rewrite !put_put in Hc.
  destruct r2 as [[]|e2]; intros [= <- <- <-]; (split; [done|]).
  - destruct Hc as [-> _]. split; [|left; by apply released_registered].
    split; [|apply Hsub]. intros other Hne. cbn. rewrite I1, lookup_delete_ne, lookup_insert_ne; done.
  - destruct Hc as [-> ->]. split; [apply Hun|]. right. split; [done|]. exists (nm_next m), (severed s).
    split; cbn; rewrite ?lookup_insert_eq; done.
Qed.

(** ** Runs of the manager *)

(** The handoffs and the audit do not change the manager. *)
Definition reads {A} (c : net A) : Prop := ∀ m w, (c (m, w)).2.1 = m.

Lemma reads_bind {A B} (c : net A) (k : A → net B) : reads c → (∀ a, reads (k a)) → reads (c ≫= k).
Proof.
  intros Hc Hk m w. unfold mbind, net_bind. specialize (Hc m w). destruct (c (m, w)) as [[a|e] [m1 w1]]; cbn in *; subst; [apply Hk|done].
Qed.

Lemma reads_call {A} (c : W → result call_error A * W) other : reads (call c other).
Proof. intros m w. unfold call. by destruct (c w) as [[]]. Qed.

Lemma reads_context : reads checkContext.
Proof. intros m w. unfold checkContext. by destruct (Expired w). Qed.

Lemma reads_fail {A} e : reads (failNet (A := A) e).
Proof. done. Qed.

Lemma reads_ret {A} (a : A) : reads (mret a : net A).
Proof. done. Qed.

Lemma reads_lend fn duplicate : reads (lend fn duplicate).
Proof.
  intros m w. unfold lend. destruct (fn duplicate w) as [[] w1]; [destruct (Expired w1) as [? w2]; by destruct (CloseFile duplicate w2)|].
  by destruct (CloseFile duplicate w1).
Qed.

Lemma reads_withConfig view : reads (withConfig view).
Proof. intros m w. unfold withConfig. destruct (Expired w). by destruct (WithGuestConfig _ _). Qed.

Lemma reads_withPlan {A} id store (body : networkState → resolvedProfile → net A) :
  (∀ s view, reads (body s view)) → reads (withPlan id store body).
Proof.
  intros Hb m w. unfold withPlan. destruct (nm_heap m !! id); [|done]. destruct (Expired w). by destruct (UsePlan _ _ _ _ _); [apply Hb|].
Qed.

Hint Resolve reads_bind reads_call reads_context reads_fail reads_ret reads_lend reads_withConfig reads_withPlan : network.

Lemma reads_WithTAP id store fn : reads (WithTAP id store fn).
Proof. apply reads_withPlan. intros s view. destruct (ns_ready s), (ns_tapFile s); auto 6 with network. Qed.

Lemma reads_WithGuestAddressing id store fn : reads (WithGuestAddressing id store fn).
Proof. apply reads_withPlan. intros s view. destruct (ns_ready s); auto 6 with network. Qed.

Lemma reads_WithGuestVPNConfig id store fn : reads (WithGuestVPNConfig id store fn).
Proof. apply reads_withPlan. intros s view. destruct (ns_ready s); auto 8 with network. Qed.

Lemma reads_AuditPolicy id store : reads (AuditPolicy id store).
Proof.
  intros m w. unfold AuditPolicy.
  match goal with |- context [withPlan id store ?b (m, w)] => assert (reads (withPlan id store b)) as Hr end.
  { apply reads_withPlan. intros s view m1 w1. destruct (_ || _); [done|].
    apply (reads_bind _ _ (reads_call _ _)). intros proof. destruct (_ || _); auto with network. }
  specialize (Hr m w). destruct (withPlan _ _ _ _) as [[|[]] [m1 w1]]; exact Hr.
Qed.

(** Every operation, on any store and world. *)
Inductive nstep : Manager → Manager → Prop :=
| n_create sid owner name store plan m w : nstep m (Create sid owner name store plan (m, w)).2.1
| n_cleanup sid m w : nstep m (Cleanup sid (m, w)).2.1
| n_handle_cleanup id m w : nstep m (HandleCleanup id (m, w)).2.1
| n_audit id store m w : nstep m (AuditPolicy id store (m, w)).2.1
| n_tap id store fn m w : nstep m (WithTAP id store fn (m, w)).2.1
| n_addressing id store fn m w : nstep m (WithGuestAddressing id store fn (m, w)).2.1
| n_config id store fn m w : nstep m (WithGuestVPNConfig id store fn (m, w)).2.1.

Definition n_reachable : Manager → Prop := rtc nstep newManager.

Lemma inv_Cleanup sid m w : net_inv m → net_inv (Cleanup sid (m, w)).2.1.
Proof.
  intros Hi. unfold Cleanup. destruct (ValidateID sid); [|done]. destruct (nm_states m !! sid) as [id|] eqn:E; [|done].
  destruct (ni_states _ Hi _ _ E) as (s & [X1 X2 X3 X4 X5]). destruct (cleanupState id (m, w)) as [r [m' w']] eqn:Ec.
  apply (cleanup_registered _ s) in Ec; [apply Ec|done|by rewrite X2|done].
Qed.

Lemma inv_step m m' : nstep m m' → net_inv m → net_inv m'.
Proof.
  intros Hs Hi. destruct Hs.
  - destruct (Create _ _ _ _ _ _) as [r [m' w']] eqn:E. by apply Create_spec in E as [? _].
  - by apply inv_Cleanup.
  - unfold HandleCleanup. destruct (nm_heap m !! id); [by apply inv_Cleanup|done].
  - by rewrite reads_AuditPolicy.
  - by rewrite reads_WithTAP.
  - by rewrite reads_WithGuestAddressing.
  - by rewrite reads_WithGuestVPNConfig.
Qed.

Lemma reachable_net_inv m : n_reachable m → net_inv m.
Proof. apply (rtc_ind_r net_inv newManager inv_initial). eauto using inv_step. Qed.

(** An address on one of the session's four links. *)
Definition onLinks (spec : topologySpec) (a : Addr) : bool :=
  MaskedContains (guestNetwork4 spec) a || MaskedContains (uplinkNetwork4 spec) a ||
  MaskedContains (guestNetwork6 spec) a || MaskedContains (uplinkNetwork6 spec) a.

Lemma onLinks_slot suffix sl a : (0 ≤ sl < 65536)%Z → onLinks (planOf suffix sl) a = true →
  match a with
  | Addr4 v => v / 8 = base4 0 / 8 + sl
  | Addr6 v _ => v / 2 ^ 80 = base6 0 / 2 ^ 80 + sl
  | AddrZero => False
  end%Z.
Proof.
  intros Hsl. unfold onLinks, planOf, MaskedContains.
  cbn [guestNetwork4 uplinkNetwork4 guestNetwork6 uplinkNetwork6 pf_Addr pf_Bits]. destruct a as [|v|v zone]; [done|..].
  - rewrite !orb_false_r, orb_true_iff, !Z.eqb_eq, !Z.shiftr_div_pow2 by lia. unfold base4.
    change (2 ^ (32 - 30))%Z with 4%Z. Z.div_mod_to_equations. lia.
  - rewrite !orb_false_l, orb_true_iff, !andb_true_iff, !Z.eqb_eq, !Z.shiftr_div_pow2 by lia. unfold base6.
    change (2 ^ (128 - 126))%Z with 4%Z. change (2 ^ 80)%Z with (1208925819614629174706176)%Z.
    change (2 ^ 96)%Z with (79228162514264337593543950336)%Z. intros [[_ E]|[_ E]]; Z.div_mod_to_equations; lia.
Qed.

(** Two plans that share nothing. *)
Definition disjointPlans (x y : topologySpec) : Prop :=
  slot x ≠ slot y ∧ namespace x ≠ namespace y ∧ hostVeth x ≠ hostVeth y ∧ tap x ≠ tap y ∧
  namespaceTable x ≠ namespaceTable y ∧ hostTable x ≠ hostTable y ∧
  ∀ addr, onLinks x addr = true → onLinks y addr = false.

Lemma plans_disjoint x y a k b l :
  x = candidateFor a k → y = candidateFor b l → slot x ≠ slot y → namespace x ≠ namespace y → disjointPlans x y.
Proof.
  intros Ex Ey Hslot Hname. destruct (candidateFor_plan a k) as (Ba & sa & _ & Ea).
  destruct (candidateFor_plan b l) as (Bb & sb & _ & Eb). cbv zeta in *. rewrite <- Ex in *. rewrite <- Ey in *. clear Ex Ey.
  set (i := slot x) in *. set (j := slot y) in *. clearbody i j. subst x y. assert (sa ≠ sb) by (by intros ->; apply Hname).
  unfold disjointPlans. split_and!; [done|done|..]; try (cbn; rewrite ?append_cons, ?append_nil_l; congruence).
  intros addr Hx%onLinks_slot; [|done]. apply not_true_iff_false. intros Hy%onLinks_slot; [|done].
  destruct addr; [done|lia|lia].
Qed.

(** C15: two registered sessions never share anything: their namespaces, links,
    TAP devices and nftables tables have different names, and no address lies
    on links of both.  It holds after any sequence of creations, cleanups,
    audits and handoffs, with any backend. *)
Theorem sessions_isolated m a b i j :
  n_reachable m → nm_states m !! a = Some i → nm_states m !! b = Some j → a ≠ b →
  ∃ s t, nm_heap m !! i = Some s ∧ nm_heap m !! j = Some t ∧ disjointPlans (ns_spec s) (ns_spec t).
Proof.
  intros Hr%reachable_net_inv Hi Hj Hab.
  destruct (ni_states _ Hr _ _ Hi) as (s & [S1 S2 S3 S4 [k S5]]). destruct (ni_states _ Hr _ _ Hj) as (t & [T1 T2 T3 T4 [l T5]]).
  exists s, t. split; [done|]. split; [done|]. apply (plans_disjoint _ _ a k b l S5 T5); intros E;
    [rewrite E in S3|rewrite E in S4]; congruence.
Qed.

(** Creation is all or nothing.  A handle is returned only for a session
    without a network, registered and provisioned in full under the leased
    current plan, with the policy of exactly that plan's endpoints.  An error
    leaves the tables as they were, or is the cleanup's own error, with the
    network registered for a retry, not ready and its TAP descriptor dropped.
    Other sessions are not touched. *)
Theorem create_all_or_nothing sid owner name store plan m w r m' w' :
  n_reachable m → Create sid owner name store plan (m, w) = (r, (m', w')) →
  untouched sid m m' ∧
  match r with
  | Ok id => nm_states m !! sid = None ∧ ∃ view s, UsePlan false owner name plan store = Ok view ∧
      createdFor sid owner name plan view m' id s
  | Err e => tables m' = tables m ∨ e = cleanupIncomplete ∧ ∃ id s, stranded sid m' id s
  end.
Proof. intros Hr%reachable_net_inv Hc. by apply (Create_spec _ _ _ _ _ _ _ _ _ _ Hr) in Hc as [_ Hc]. Qed.

(** Cleanup reports success only when the session has no network: either it
    had none, or the backend's audit found every resource absent in time, and
    then the session, its slot and its name are free again and its handle is
    dead.  Otherwise nothing is released: the same state stays registered, not
    ready and without a descriptor, remembering all it has to tear down. *)
Theorem cleanup_frees_only_absent sid m w r m' w' :
  n_reachable m → ValidateID sid = Ok tt → Cleanup sid (m, w) = (r, (m', w')) →
  match nm_states m !! sid with
  | None => r = Ok tt ∧ m' = m ∧ w' = w
  | Some id => ∃ s, nm_heap m !! id = Some s ∧
      match r with
      | Ok _ => (∃ w1 w2, AuditAbsent (ns_spec s) w1 = (Ok true, w2) ∧ Expired w2 = (false, w')) ∧
          tables m' = (delete sid (nm_states m), delete (slot (ns_spec s)) (nm_reservations m),
                       delete (namespace (ns_spec s)) (nm_names m)) ∧
          nm_heap m' = <[id := clearState (severed s)]> (nm_heap m)
      | Err e => e = cleanupIncomplete ∧ tables m' = tables m ∧ nm_heap m' = <[id := severed s]> (nm_heap m)
      end
  end.
Proof.
  intros Hr%reachable_net_inv Hv. unfold Cleanup. rewrite Hv. destruct (nm_states m !! sid) as [id|] eqn:E; [|by intros [= <- <- <-]].
  destruct (ni_states _ Hr _ _ E) as (s & [X1 X2 X3 X4 X5]). intros Hc. exists s. split; [done|].
  subst sid. apply (cleanup_registered _ s) in Hc as [_ Hc]; [|done|done|done].
  destruct r as [[]|e]; destruct Hc as [-> Hc]; [done|by rewrite Hc].
Qed.

(** The network behind a handle while its plan is leased. *)
Definition leased (id : nat) (store : MemoryStore) (m : Manager) : Prop :=
  ∃ s view, nm_heap m !! id = Some s ∧ nm_states m !! ns_sessionID s = Some id ∧ provisioned s ∧
    UsePlan false (ns_owner s) (ns_profileName s) (ns_plan s) store = Ok view.

(** Without a lease the operation fails and has only looked at its context. *)
Definition gated {A} (id : nat) (store : MemoryStore) (c : net A) (m : Manager) : Prop :=
  ∀ w r m' w', c (m, w) = (r, (m', w')) →
    m' = m ∧ (leased id store m ∨ (∃ e, r = Err e) ∧ (w' = w ∨ w' = (Expired w).2)).

Lemma gated_withPlan {A} id store (body : networkState → resolvedProfile → net A) m :
  net_inv m → reads (withPlan id store body) →
  (∀ s view w, ns_ready s = false → ∃ e, body s view (m, w) = (Err e, (m, w))) →
  gated id store (withPlan id store body) m.
Proof.
  intros Hi Hreads Hb w r m' w' Hc. pose proof (Hreads m w) as Hm. rewrite Hc in Hm. cbn in Hm. split; [done|].
  revert Hc. unfold withPlan. destruct (nm_heap m !! id) as [s|] eqn:Es; [|intros [= <- _ <-]; right; eauto].
  destruct (Expired w) as [cancelled w1] eqn:Ex. destruct (UsePlan _ _ _ _ _) as [view|e] eqn:Eu; [|intros [= <- _ <-]; right; eauto].
  apply UsePlan_live in Eu. destruct (ns_ready s) eqn:Er.
  - intros _. left. destruct (ni_ready_registered _ Hi _ _ Es Er). exists s, view. done.
  - destruct (Hb s view w1 Er) as [e ->]. intros [= <- _ <-]. right. eauto.
Qed.

(** Every handoff is gated: the TAP descriptor, the guest addressing, the
    guest's VPN configuration and the policy audit reach their consumer only
    for a network that is registered and provisioned in full, while the exact
    plan it was created for is still the store's current one; otherwise the
    call fails with no effect but a look at its context.  An audit that
    succeeds proved all three facts. *)
Theorem handoffs_are_gated id store m :
  n_reachable m →
  (∀ fn, gated id store (WithTAP id store fn) m) ∧
  (∀ fn, gated id store (WithGuestAddressing id store fn) m) ∧
  (∀ fn, gated id store (WithGuestVPNConfig id store fn) m) ∧
  gated id store (AuditPolicy id store) m ∧
  (∀ w proof s', AuditPolicy id store (m, w) = (Ok proof, s') → proof = mkAudit true true true).
Proof.
  intros Hi%reachable_net_inv. split_and!.
  - intros fn. apply gated_withPlan; [done|apply reads_WithTAP|]. intros s view w ->. by eexists.
  - intros fn. apply gated_withPlan; [done|apply reads_WithGuestAddressing|]. intros s view w ->. by eexists.
  - intros fn. apply gated_withPlan; [done|apply reads_WithGuestVPNConfig|]. intros s view w ->. by eexists.
  - intros w r m' w' Hc. pose proof (reads_AuditPolicy id store m w) as Hm. rewrite Hc in Hm. cbn in Hm. split; [done|].
    revert Hc. unfold AuditPolicy.
    match goal with |- context [withPlan id store ?b (m, w)] => assert (gated id store (withPlan id store b) m) as Hg end.
    { apply gated_withPlan; [done| |].
      - apply reads_withPlan. intros s view m1 w1. destruct (_ || _); [done|].
        apply (reads_bind _ _ (reads_call _ _)). intros proof. destruct (_ || _); auto with network.
      - intros s view w1 ->. rewrite orb_true_r. by eexists. }
    destruct (withPlan _ _ _ _) as [r1 [m1 w1]] eqn:Ew. apply Hg in Ew as [_ [?|[[e ->] ?]]]; [by left|].
    destruct e; intros [= <- _ <-]; right; eauto.
  - intros w proof s'. unfold AuditPolicy, withPlan. destruct (nm_heap m !! id); [|done]. destruct (Expired w) as [? w1].
    destruct (UsePlan _ _ _ _ _) as [view|e]; [|by destruct (handoffError e)].
    destruct (_ || _); [done|]. unfold mbind, net_bind, call. destruct (AuditPolicyCall _ w1) as [[[p1 p2 p3]|e] w2]; [|by destruct e].
    cbn [NamespacePolicyPresent HostPolicyPresent ForbiddenEgressZero]. destruct p1, p2, p3; try done. cbn.
    destruct (Expired w2) as [[] w3]; [done|]. by intros [= <- _].
Qed.

End Manager.

(** C16: the addressing the host hands to a guest is always one the guest's
    controller accepts: for every session and attempt the underlay validates. *)
Theorem guest_addressing_accepted sessionID attempt :
  let a := addressingOf (candidateFor sessionID attempt) in
  GuestVPN.NewUnderlay (ga_IPv4Address a) (ga_IPv4Gateway a) (ga_IPv6Address a) (ga_IPv6Gateway a) =
    Ok (GuestVPN.mkUnderlay (ga_IPv4Address a) (ga_IPv4Gateway a) (ga_IPv6Address a) (ga_IPv6Gateway a)).
Proof.
  destruct (candidateFor_plan sessionID attempt) as (Hs & suffix & _ & E). cbv zeta in *.
  generalize dependent (slot (candidateFor sessionID attempt)). intros sl Hs ->.
  unfold NewUnderlay, validateUnderlay, addressingOf, planOf.
  cbn [ga_IPv4Address ga_IPv4Gateway ga_IPv6Address ga_IPv6Gateway guestAddress4 guestAddress6 guestGateway4 guestGateway6
       pf_Addr pf_Bits IPv4Address IPv4Gateway IPv6Address IPv6Gateway PrefixIsValid MaskedContains bitLen Is4 Is6].
  unfold base4, base6. rewrite !Z.shiftr_div_pow2 by lia. change (2 ^ (32 - 30))%Z with 4%Z. change (2 ^ (128 - 126))%Z with 4%Z.
  rewrite (bool_decide_eq_false_2 (Addr4 _ = Addr4 _)), (bool_decide_eq_false_2 (Addr6 _ _ = Addr6 _ _)) by (intros [=]; lia).
  rewrite (proj2 (Z.eqb_eq ((0x0af00000 + _ + _) / _) _)%Z), (proj2 (Z.eqb_eq ((_ * 2 ^ 96 + _ + _) / _) _)%Z)
    by (Z.div_mod_to_equations; lia).
  done.
Qed.


(** ** A run with a backend that always succeeds *)

Definition demoBackend : Backend unit :=
  {| Available _ w := (Ok true, w); CreateNamespace _ w := (Ok tt, w); CreateVeth _ w := (Ok tt, w);
     ConfigureHost _ w := (Ok tt, w); ConfigureNamespace _ w := (Ok tt, w); CreateTAP _ w := (Ok 7%nat, w);
     ConfigureTAP _ w := (Ok tt, w); ApplyNamespacePolicy _ _ w := (Ok tt, w); ApplyHostPolicy _ _ w := (Ok tt, w);
     AuditPolicyCall _ w := (Ok (mkAudit true true true), w); DisableEgress _ w := (Ok tt, w);
     DeleteHostPolicy _ w := (Ok tt, w); DeleteNamespacePolicy _ w := (Ok tt, w); DeleteTAP _ w := (Ok tt, w);
     DeleteVeth _ w := (Ok tt, w); DeleteNamespace _ w := (Ok tt, w); AuditAbsent _ w := (Ok true, w);
     CloseFile _ w := (Ok tt, w); DuplicateTAP _ w := (Ok 8%nat, w); Expired w := (false, w) |}.

#[local] Existing Instance demoBackend.

Definition demoA := "pvm-00112233445566778899aabbccddeeff".
Definition demoB := "pvm-ffeeddccbbaa99887766554433221100".
Definition demoCreate (sid : string) (m : Manager) := Create sid 1000 "proton" demoCommit.2 1 (m, tt).
Definition demoOne := demoCreate demoA newManager.
Definition demoTwo := demoCreate demoB demoOne.2.1.

Lemma demo_one : n_reachable demoOne.2.1.
Proof. eapply rtc_r; [apply rtc_refl|]. apply n_create. Qed.

Lemma demo_two : n_reachable demoTwo.2.1.
Proof. eapply rtc_r; [apply demo_one|]. apply n_create. Qed.

Lemma sessions_isolated_witness :
  ∃ i j s t, nm_states demoTwo.2.1 !! demoA = Some i ∧ nm_states demoTwo.2.1 !! demoB = Some j ∧
    nm_heap demoTwo.2.1 !! i = Some s ∧ nm_heap demoTwo.2.1 !! j = Some t ∧ disjointPlans (ns_spec s) (ns_spec t).
Proof.
  assert (nm_states demoTwo.2.1 !! demoA = Some 0%nat) as Ha by (vm_compute; reflexivity).
  assert (nm_states demoTwo.2.1 !! demoB = Some 1%nat) as Hb by (vm_compute; reflexivity).
  destruct (sessions_isolated _ _ _ _ _ demo_two Ha Hb) as (s & t & Hs & Ht & Hd); [discriminate|].
  exact (ex_intro _ 0%nat (ex_intro _ 1%nat (ex_intro _ s (ex_intro _ t (conj Ha (conj Hb (conj Hs (conj Ht Hd)))))))).
Defined.

Lemma create_all_or_nothing_witness :
  demoOne.1 = Ok 0%nat ∧ ∃ view s, UsePlan false 1000 "proton" 1 demoCommit.2 = Ok view ∧
    createdFor demoA 1000 "proton" 1 view demoOne.2.1 0 s.
Proof.
  assert (demoOne.1 = Ok 0%nat) as H1 by (vm_compute; reflexivity). split; [exact H1|].
  destruct (create_all_or_nothing demoA 1000 "proton" demoCommit.2 1 newManager tt demoOne.1 demoOne.2.1 demoOne.2.2) as [_ H2];
    [apply rtc_refl|unfold demoOne, demoCreate; destruct (Create _ _ _ _ _ _) as [? [? ?]]; reflexivity|].
  rewrite H1 in H2. apply H2.
Defined.

Definition demoCleanup := Cleanup demoA (demoOne.2.1, tt).

Lemma cleanup_frees_only_absent_witness :
  demoCleanup.1 = Ok tt ∧ ∃ s, tables demoCleanup.2.1 =
    (delete demoA (nm_states demoOne.2.1), delete (slot (ns_spec s)) (nm_reservations demoOne.2.1),
     delete (namespace (ns_spec s)) (nm_names demoOne.2.1)).
Proof.
  assert (demoCleanup.1 = Ok tt) as H1 by (vm_compute; reflexivity). split; [exact H1|].
  assert (nm_states demoOne.2.1 !! demoA = Some 0%nat) as Ha by (vm_compute; reflexivity).
  pose proof (cleanup_frees_only_absent demoA demoOne.2.1 tt demoCleanup.1 demoCleanup.2.1 demoCleanup.2.2 demo_one) as H2.
  rewrite Ha, H1 in H2. destruct H2 as (s & _ & _ & H2 & _); [vm_compute; reflexivity| |exists s; exact H2].
  rewrite <- H1. unfold demoCleanup. destruct (Cleanup _ _) as [? [? ?]]; reflexivity.
Defined.

Lemma handoffs_are_gated_witness :
  (WithTAP 0 demoCommit.2 (λ _ w, (Ok tt, w)) (demoOne.2.1, tt)).1 = Ok tt ∧ leased 0 demoCommit.2 demoOne.2.1 ∧
  (WithTAP 0 demoCommit.2 (λ _ w, (Ok tt, w)) (demoCleanup.2.1, tt)).1 = Err topologyNotReady.
Proof.
  assert ((WithTAP 0 demoCommit.2 (λ _ w, (Ok tt, w)) (demoOne.2.1, tt)).1 = Ok tt) as H1 by (vm_compute; reflexivity).
  split; [exact H1|]. split; [|vm_compute; reflexivity].
  destruct (handoffs_are_gated 0 demoCommit.2 demoOne.2.1 demo_one) as [Ht _].
  specialize (Ht (λ _ w, (Ok tt, w)) tt). destruct (WithTAP _ _ _ _) as [r [m' w']]. cbn in H1. subst r.
  destruct (Ht _ _ _ eq_refl) as [_ [Hl|[[e He] _]]]; [exact Hl|discriminate He].
Defined.

(** ** A stale cleanup

    Two concurrent cleanups of a session may both have read its state before
    either ran.  When the session gets a new network after the first, and the
    second runs between its reservation and its provisioning, the second finds
    everything absent and releases by session name: the new network stays
    registered without its slot and name. *)
Definition staleManager : Manager :=
  (cleanupState 0 (reserve demoA 1000 "proton" 1 emptyPolicy (demoCleanup.2.1, tt)).2).2.1.

Theorem stale_cleanup_drops_reservation :
  nm_states staleManager !! demoA = Some 1%nat ∧ nm_reservations staleManager = ∅ ∧ nm_names staleManager = ∅.
Proof. split; [vm_compute; reflexivity|]. split; vm_compute; reflexivity. Qed.
