(* ===== verification/UsbIdentity.v ===== *)
(** * USB identities, enrollments and discovery

    Models [src/internal/usb/identity.go], the validation of [enrollment.go] and
    [enumerator.go]: normalized identities, what may be enrolled, and the
    resolution of an enrollment to exactly one connected device.  The
    kernel snapshot and the Unicode case table are parameters. *)

From Stdlib Require Import ZArith Lia Ascii.
From stdpp Require Import strings base tactics option gmap sorting pretty list.
From S2P Require Import Prelude GoText Sha256.

Open Scope string_scope.
Open Scope list_scope.

(** [ErrorCode], and errors without a code. *)
Inductive usb_error :=
| CodeNotEnrolled | CodeIdentityMismatch | CodeAmbiguous | CodeComposite | CodeHostFilesystem
| CodeMounted | CodeTooSmall | CodeWriteFailed | CodeHashMismatch | CodeReadOnly | CodeConfirmation
| CodeClaimConflict | CodeDiscoveryFailed | CodeCleanupIncomplete
| ContextError | UncodedError (message : string).

#[global] Instance usb_error_eq_dec : EqDecision usb_error.
Proof. solve_decision. Defined.

(** ** Patterns *)

Definition hexIDPattern (s : string) : bool := (String.length s =? 4)%nat && string_forallb is_lower_hex s.

Definition hexPair (s : string) : bool := (String.length s =? 2)%nat && string_forallb is_lower_hex s.

Definition interfacePattern (s : string) : bool :=
  match Split ":" s with [a; b; c] => hexPair a && hexPair b && hexPair c | _ => false end.

Definition digits1 (s : string) : bool := negb (bool_decide (s = "")) && string_forallb is_digit s.

Definition portPattern (s : string) : bool :=
  let '(bus, ports, found) := Cut "-" s in
  found && digits1 bus && forallb digits1 (Split "." ports).

Definition is_hash_char (c : ascii) : bool :=
  is_upper c || is_lower c || is_digit c || existsb (char_eqb c) ["+"; "/"; "="; "_"; "-"]%char.

Definition usbGuardHashPattern (s : string) : bool :=
  (16 <=? String.length s)%nat && (String.length s <=? 256)%nat && string_forallb is_hash_char s.

Definition deviceIDPattern (s : string) : bool := match_prefix_exact "usbdev-" is_lower_hex 16 s.
Definition enrollmentIDPattern (s : string) : bool := match_prefix_exact "usb-" is_lower_hex 16 s.

Definition labelPattern (s : string) : bool :=
  match_head_tail (λ c, is_upper c || is_digit c)
    (λ c, is_upper c || is_digit c || char_eqb c "_" || char_eqb c "-") 0 31 s.

Definition MassStorageClass : string := "08".

(** NUL, carriage return and line feed. *)
Definition controlBytes : string := String "000" (String "013" (String "010" "")).

(** ** Identities *)

Record Identity := mkIdentity {
  VendorID : string;
  ProductID : string;
  Serial : string;
  USBGuardHash : string;
  Interfaces : list string;
  Capacity : Z;
  PortPath : string;
  PortBound : bool;
  Model : string
}.

#[global] Instance Identity_eq_dec : EqDecision Identity.
Proof. solve_decision. Defined.

Record Device := mkDevice {
  DeviceID : string;
  dev_Identity : Identity;
  SysfsPath : string;
  BlockPath : string;
  Bus : Z;
  Address : Z;
  Mounted : bool;
  ReadOnly : bool;
  HostFilesystem : bool
}.

Record Enrollment := mkEnrollment {
  SchemaVersion : Z;
  EnrollmentID : string;
  Label : string;
  en_Identity : Identity;
  Filesystem : string
}.

Definition DefaultFilesystem : string := "luks2-ext4".

Section Usb.
(** The case table beyond ASCII. *)
Context (unicodeLower : N → N).

Definition lowered (s : string) : string := ToLower unicodeLower (TrimSpace s).

Definition normalized (i : Identity) : Identity :=
  mkIdentity (lowered (VendorID i)) (lowered (ProductID i)) (TrimSpace (Serial i)) (TrimSpace (USBGuardHash i))
    (merge_sort string_le (map lowered (Interfaces i))) (Capacity i) (TrimSpace (PortPath i)) (PortBound i)
    (TrimSpace (Model i)).

(** The interface loop, with the previous descriptor. *)
Fixpoint checkInterfaces (previous : option string) (ifaces : list string) : result usb_error unit :=
  match ifaces with
  | [] => Ok tt
  | iface :: rest =>
      fail_if (negb (interfacePattern iface)) with (UncodedError "USB interface descriptor is invalid") ;;
      fail_if (negb (HasPrefix iface (String.append MassStorageClass ":")))
        with (UncodedError "non-storage USB interface is forbidden") ;;
      fail_if (bool_decide (previous = Some iface))
        with (UncodedError "duplicate USB interface descriptor is forbidden") ;;
      checkInterfaces (Some iface) rest
  end.

Definition ValidateForEnrollment (raw : Identity) : result usb_error unit :=
  let i := normalized raw in
  fail_if (negb (hexIDPattern (VendorID i)) || negb (hexIDPattern (ProductID i)))
    with (UncodedError "USB vendor and product IDs must each be four hexadecimal digits") ;;
  fail_if (negb (portPattern (PortPath i))) with (UncodedError "a bounded physical USB port path is required") ;;
  fail_if (bool_decide (Serial i = "") && negb (PortBound i))
    with (UncodedError "a device without a serial requires explicit physical-port binding") ;;
  fail_if ((256 <? String.length (Serial i))%nat || ContainsAny (Serial i) controlBytes)
    with (UncodedError "USB serial is invalid") ;;
  fail_if (negb (usbGuardHashPattern (USBGuardHash i)))
    with (UncodedError "a valid USBGuard identity hash is required") ;;
  fail_if (Capacity i =? 0)%Z with (UncodedError "capacity must be nonzero") ;;
  fail_if ((len (Interfaces i) =? 0)%Z || (32 <? len (Interfaces i))%Z)
    with (UncodedError "a bounded USB interface list is required") ;;
  _ <-! checkInterfaces None (Interfaces i) ;;
  fail_if ((256 <? String.length (Model i))%nat || ContainsAny (Model i) controlBytes)
    with (UncodedError "USB model is invalid") ;;
  Ok tt.

Definition Matches (i current : Identity) : bool :=
  let i := normalized i in
  let current := normalized current in
  bool_decide (VendorID i = VendorID current) && bool_decide (ProductID i = ProductID current) &&
  bool_decide (Serial i = Serial current) && bool_decide (USBGuardHash i = USBGuardHash current) &&
  bool_decide (PortPath i = PortPath current) && bool_decide (PortBound i = PortBound current) &&
  bool_decide (Capacity i = Capacity current) && bool_decide (Model i = Model current) &&
  bool_decide (Interfaces i = Interfaces current).

Definition canonical (i : Identity) : string :=
  String.concat (String "000" "")
    [VendorID i; ProductID i; Serial i; USBGuardHash i; PortPath i;
     if PortBound i then "true" else "false"; pretty (Z.to_N (Capacity i)); Model i;
     String.concat "," (Interfaces i)].

Definition fingerprint (raw : Identity) : result usb_error string :=
  let i := normalized raw in
  _ <-! ValidateForEnrollment i ;;
  Ok (Sum256 (canonical i)).

Definition Fingerprint (i : Identity) : result usb_error string :=
  sum <-! fingerprint i ;; Ok (hexEncode sum).

Definition enrollmentIDOf (sum : string) : string :=
  String.append "usb-" (hexEncode (String.substring 0 8 sum)).

Definition ValidateEnrollment (e : Enrollment) : result usb_error unit :=
  fail_if (negb (SchemaVersion e =? 1)%Z) with (UncodedError "unsupported USB enrollment schema version") ;;
  fail_if (negb (enrollmentIDPattern (EnrollmentID e))) with (UncodedError "USB enrollment ID is invalid") ;;
  fail_if (negb (labelPattern (Label e))) with (UncodedError "USB enrollment label is invalid") ;;
  fail_if (negb (bool_decide (Filesystem e = DefaultFilesystem)))
    with (UncodedError "USB enrollment filesystem is unsupported") ;;
  _ <-! ValidateForEnrollment (en_Identity e) ;;
  sum <-! fingerprint (en_Identity e) ;;
  fail_if (negb (bool_decide (EnrollmentID e = enrollmentIDOf sum)))
    with (UncodedError "USB enrollment ID does not match its identity") ;;
  Ok tt.

Definition NewEnrollment (raw : Identity) (label : string) : result usb_error Enrollment :=
  let identity := normalized raw in
  _ <-! ValidateForEnrollment identity ;;
  sum <-! fingerprint identity ;;
  let enrollment := mkEnrollment 1 (enrollmentIDOf sum) (TrimSpace label) identity DefaultFilesystem in
  _ <-! ValidateEnrollment enrollment ;;
  Ok enrollment.

(** ** Discovery *)

Definition validateObservedDevice (device : Device) : result usb_error unit :=
  fail_if (negb (deviceIDPattern (DeviceID device))) with (UncodedError "invalid USB snapshot identifier") ;;
  fail_if (bool_decide (SysfsPath device = "") || bool_decide (BlockPath device = "") ||
           (Bus device =? 0)%Z || (Address device =? 0)%Z) with (UncodedError "incomplete USB kernel observation") ;;
  let identity := normalized (dev_Identity device) in
  fail_if (negb (hexIDPattern (VendorID identity)) || negb (hexIDPattern (ProductID identity)) ||
           negb (portPattern (PortPath identity)) || negb (usbGuardHashPattern (USBGuardHash identity)) ||
           (Capacity identity =? 0)%Z || (len (Interfaces identity) =? 0)%Z || (32 <? len (Interfaces identity))%Z)
    with (UncodedError "invalid USB identity observation") ;;
  fail_if (negb (forallb interfacePattern (Interfaces identity)))
    with (UncodedError "invalid USB interface observation") ;;
  Ok tt.

Definition validateSelectable (device : Device) : result usb_error unit :=
  match validateObservedDevice device with
  | Err _ => Err CodeIdentityMismatch
  | Ok _ =>
      fail_if (HostFilesystem device) with CodeHostFilesystem ;;
      fail_if (Mounted device) with CodeMounted ;;
      fail_if (ReadOnly device) with CodeReadOnly ;;
      fail_if (existsb (λ iface, negb (HasPrefix (ToLower unicodeLower iface) (String.append MassStorageClass ":")))
                 (Interfaces (dev_Identity device))) with CodeComposite ;;
      Ok tt
  end.

Fixpoint checkDevices (seen : gset string) (devices : list Device) : result usb_error unit :=
  match devices with
  | [] => Ok tt
  | device :: rest =>
      match validateObservedDevice device with
      | Err _ => Err CodeDiscoveryFailed
      | Ok _ =>
          fail_if (bool_decide (DeviceID device ∈ seen)) with CodeAmbiguous ;;
          checkDevices ({[DeviceID device]} ∪ seen) rest
      end
  end.

Definition deviceBefore (a b : Device) : Prop := string_le (DeviceID a) (DeviceID b).

#[global] Instance deviceBefore_dec : RelDecision deviceBefore.
Proof. unfold RelDecision, deviceBefore. intros a b. apply _. Defined.

(** [Enumerator.List] of a kernel snapshot; [None] when it could not be taken. *)
Definition List_ (snapshot : option (list Device)) : result usb_error (list Device) :=
  match snapshot with
  | None => Err CodeDiscoveryFailed
  | Some devices => _ <-! checkDevices ∅ devices ;; Ok (merge_sort deviceBefore devices)
  end.

Definition Inspect (snapshot : option (list Device)) (deviceID : string) : result usb_error Device :=
  fail_if (negb (deviceIDPattern deviceID)) with CodeIdentityMismatch ;;
  devices <-! List_ snapshot ;;
  match List.filter (λ d, bool_decide (DeviceID d = deviceID)) devices with
  | [device] => _ <-! validateSelectable device ;; Ok device
  | [] => Err CodeIdentityMismatch
  | _ => Err CodeAmbiguous
  end.

Definition withPortBound (i : Identity) (bound : bool) : Identity :=
  mkIdentity (VendorID i) (ProductID i) (Serial i) (USBGuardHash i) (Interfaces i) (Capacity i) (PortPath i) bound (Model i).

Definition NewEnrollmentFromDevice (device : Device) (label : string) (acceptPortBinding : bool)
  : result usb_error Enrollment :=
  _ <-! validateSelectable device ;;
  let identity := normalized (dev_Identity device) in
  let identity := withPortBound identity (bool_decide (Serial identity = "") && acceptPortBinding) in
  fail_if (bool_decide (Serial identity = "") && negb (PortBound identity)) with CodeIdentityMismatch ;;
  NewEnrollment identity label.

Definition enrolledMatch (enrollment : Enrollment) (device : Device) : bool :=
  Matches (en_Identity enrollment) (withPortBound (dev_Identity device) (PortBound (en_Identity enrollment))).

Definition ResolveEnrollment (snapshot : option (list Device)) (enrollment : Enrollment) : result usb_error Device :=
  match ValidateEnrollment enrollment with
  | Err _ => Err CodeNotEnrolled
  | Ok _ =>
      devices <-! List_ snapshot ;;
      match List.filter (enrolledMatch enrollment) devices with
      | [device] => _ <-! validateSelectable device ;; Ok device
      | [] => Err CodeIdentityMismatch
      | _ => Err CodeAmbiguous
      end
  end.

(** * Properties *)

Lemma Matches_eq i j : Matches i j = true ↔ normalized i = normalized j.
Proof.
  unfold Matches. split.
  - intros H. bool_hyps. destruct (normalized i), (normalized j); simpl in *; by subst.
  - intros ->. by rewrite !bool_decide_true.
Qed.

(** What an enrollment resolves to: on success exactly one connected device
    matches the enrolled identity in every field, that device is not mounted,
    not read-only and not a host file system, each of its interfaces is mass
    storage, and the enrollment is well formed; when two connected devices
    match, the resolution is refused as ambiguous. *)
Theorem ResolveEnrollment_exact devices enrollment device :
  ResolveEnrollment (Some devices) enrollment = Ok device →
  ValidateEnrollment enrollment = Ok tt ∧ device ∈ devices ∧
  normalized (en_Identity enrollment) =
    normalized (withPortBound (dev_Identity device) (PortBound (en_Identity enrollment))) ∧
  (∀ other, other ∈ devices → enrolledMatch enrollment other = true → other = device) ∧
  HostFilesystem device = false ∧ Mounted device = false ∧ ReadOnly device = false ∧
  Forall (λ f, HasPrefix (ToLower unicodeLower f) "08:" = true) (Interfaces (dev_Identity device)).
Proof.
  unfold ResolveEnrollment, List_. intros H. destruct (ValidateEnrollment enrollment) as [[]|]; [|done].
  destruct (checkDevices _ _) as [[]|]; [|done].
  destruct (List.filter _ _) as [|d [|]] eqn:Hf in H; [done| |done].
  assert (validateSelectable d = Ok tt ∧ d = device) as [Hs ->].
  { destruct (validateSelectable d) as [[]|]; by simplify_eq. }
  assert (∀ x, x ∈ devices ∧ enrolledMatch enrollment x = true ↔ x = device) as Hx.
  { intros x. rewrite <- (list_elem_of_singleton x device), <- Hf, !list_elem_of_In, filter_In, <- !list_elem_of_In.
    by rewrite (merge_sort_Permutation deviceBefore devices). }
  destruct (proj2 (Hx device) eq_refl) as [Hin Hm].
  unfold validateSelectable in Hs. destruct (validateObservedDevice device); [|done].
  destruct (HostFilesystem device), (Mounted device), (ReadOnly device); try done.
  destruct (existsb _ _) eqn:He in Hs; [done|].
  split_and!; try done.
  - by apply Matches_eq.
  - intros other Ho Hom. by apply Hx.
  - apply Forall_forall. intros f Hin'. destruct (HasPrefix _ _) eqn:Hp; [done|].
    assert (existsb (λ iface, negb (HasPrefix (ToLower unicodeLower iface) (String.append MassStorageClass ":")))
              (Interfaces (dev_Identity device)) = true) as Hc; [|congruence].
    apply existsb_exists. exists f. split; [by apply list_elem_of_In|]. apply negb_true_iff. exact Hp.
Qed.

End Usb.

#[global] Arguments normalized : simpl never.

(** ** A connected stick *)

Definition demoIdentity : Identity :=
  mkIdentity "0951" "1666" "60A44C4252D9" "kHiGhEnTrOpYhAsH0123" ["08:06:50"] 15728640000 "1-4.2" false "DataTraveler".

Definition demoStick : Device :=
  mkDevice "usbdev-0011223344556677" demoIdentity "/sys/bus/usb/devices/1-4.2" "/dev/sdb" 1 7 false false false.

Definition otherStick : Device :=
  mkDevice "usbdev-8899aabbccddeeff"
    (mkIdentity "0951" "1666" "0000000000AA" "kHiGhEnTrOpYhAsH4567" ["08:06:50"] 15728640000 "1-4.3" false "DataTraveler")
    "/sys/bus/usb/devices/1-4.3" "/dev/sdc" 1 8 false false false.

Definition demoEnrollment : Enrollment :=
  mkEnrollment 1 "usb-5c2beafeb12418c4" "TRANSFER" demoIdentity DefaultFilesystem.

Lemma ResolveEnrollment_exact_witness :
  ResolveEnrollment (λ cp, cp) (Some [otherStick; demoStick]) demoEnrollment = Ok demoStick ∧
  Mounted demoStick = false.
Proof.
  assert (ResolveEnrollment (λ cp, cp) (Some [otherStick; demoStick]) demoEnrollment = Ok demoStick) as H
    by (by vm_compute).
  split; [done|]. apply (ResolveEnrollment_exact _ _ _ _ H).
Defined.
