(* ===== verification/UsbClaim.v ===== *)
(** * USB claims and approved sources

    Models [src/internal/usb/claim.go] and [source_registry.go].  The claim
    manager's tables change only inside its mutex; between the reservation and
    the commit of one claim the adapter runs unlocked, so a claim is two locked
    sections, [claimReserve] and [claimFinish], around [acquireDevice].  A release
    calls the adapter first, [releaseCall], under the claim's own mutex, and then
    takes the claim out of the tables, [releaseFinish].  Other callers' sections
    may come between them ([cstep]). *)

From Stdlib Require Import ZArith Lia Ascii.
From stdpp Require Import strings base tactics option gmap relations sorting list.
From S2P Require Import Prelude GoText UsbIdentity SessionModel.

Open Scope string_scope.
Open Scope list_scope.

(** ** Data *)

(** The adapter's handle of a claimed device is an opaque reference. *)
Definition Handle : Type := nat.

Record Claim := mkClaim {
  cl_ID : string;
  cl_EnrollmentID : string;
  cl_SessionID : string;
  cl_OwnerUID : Z;
  cl_Device : Device;
  cl_handle : option Handle
}.

Definition hashOf (d : Device) : string := USBGuardHash (dev_Identity d).

(** [devices] maps a device's hash to its claim; the empty string marks an
    acquisition in progress. *)
Record ClaimManager := mkClaimManager {
  claims : gmap string Claim;
  devices : gmap string string
}.

Definition NewClaimManager : ClaimManager := mkClaimManager ∅ ∅.

Definition publicClaim (claim : Claim) : Claim :=
  mkClaim (cl_ID claim) (cl_EnrollmentID claim) (cl_SessionID claim) (cl_OwnerUID claim) (cl_Device claim) None.

Section Manager.
Context (unicodeLower : N → N).

Definition sameKernelObservation (a b : Device) : bool :=
  bool_decide (DeviceID a = DeviceID b) && bool_decide (SysfsPath a = SysfsPath b) &&
  bool_decide (BlockPath a = BlockPath b) && (Bus a =? Bus b)%Z && (Address a =? Address b)%Z &&
  Matches unicodeLower (dev_Identity a) (dev_Identity b) &&
  bool_decide (Mounted a = Mounted b) && bool_decide (ReadOnly a = ReadOnly b) &&
  bool_decide (HostFilesystem a = HostFilesystem b).

(** ** Locked sections *)

Definition claimReserve (m : ClaimManager) (device : Device) : result usb_error ClaimManager :=
  match devices m !! hashOf device with
  | Some _ => Err CodeClaimConflict
  | None => Ok (mkClaimManager (claims m) (<[hashOf device := ""]> (devices m)))
  end.

Definition dropReservation (m : ClaimManager) (device : Device) : ClaimManager :=
  mkClaimManager (claims m) (delete (hashOf device) (devices m)).

(** [retainFailedClaim], and the tables' part of a successful claim. *)
Definition recordClaim (m : ClaimManager) (claim : Claim) : ClaimManager :=
  mkClaimManager (<[cl_ID claim := claim]> (claims m)) (<[hashOf (cl_Device claim) := cl_ID claim]> (devices m)).

(** What happened between reservation and commit. *)
Inductive acquisition :=
| AcquireFailed                      (* an error and nothing to clean, or cleaned *)
| AcquireFailedDirty (h : Handle)    (* an error, and its cleanup failed *)
| AcquireNil                         (* no error and no handle *)
| CancelledClean (e : usb_error)     (* cancelled and released *)
| CancelledDirty (h : Handle)        (* cancelled, and the release failed *)
| Acquired (h : Handle).

Definition claimFinish (m : ClaimManager) (claimID sessionID : string) (ownerUID : Z) (enrollmentID : string)
    (device : Device) (outcome : acquisition) : result usb_error Claim * ClaimManager :=
  let claim h := mkClaim claimID enrollmentID sessionID ownerUID device (Some h) in
  match outcome with
  | AcquireFailed | AcquireNil => (Err CodeIdentityMismatch, dropReservation m device)
  | AcquireFailedDirty h | CancelledDirty h => (Err CodeCleanupIncomplete, recordClaim m (claim h))
  | CancelledClean e => (Err e, dropReservation m device)
  | Acquired h => (Ok (publicClaim (claim h)), recordClaim m (claim h))
  end.

(** ** Operations against the adapters *)

(** Discovery, the device claimer, the context and the random source. *)
Class UsbAdapters (W : Type) := {
  kernelSnapshot : W → option (list Device) * W;
  adapterAcquire : Device → W → option Handle * option usb_error * W;
  adapterRelease : Handle → W → result usb_error unit * W;
  adapterAudit : Handle → W → result usb_error unit * W;
  randomClaimID : W → option string * W;
  contextErr : W → option usb_error
}.

Context {W : Type} `{!UsbAdapters W}.

Definition releaseAndAudit (h : Handle) (w : W) : result usb_error unit * W :=
  match adapterRelease h w with
  | (Err e, w) => (Err e, w)
  | (Ok _, w) => adapterAudit h w
  end.

(** The unlocked part of [Claim]. *)
Definition acquireDevice (device : Device) (w : W) : acquisition * W :=
  let '(handle, err, w) := adapterAcquire device w in
  match err, handle with
  | Some _, None => (AcquireFailed, w)
  | Some _, Some h =>
      match releaseAndAudit h w with
      | (Ok _, w) => (AcquireFailed, w)
      | (Err _, w) => (AcquireFailedDirty h, w)
      end
  | None, None => (AcquireNil, w)
  | None, Some h =>
      match contextErr w with
      | None => (Acquired h, w)
      | Some e =>
          match releaseAndAudit h w with
          | (Ok _, w) => (CancelledClean e, w)
          | (Err _, w) => (CancelledDirty h, w)
          end
      end
  end.

Definition Claim_ (m : ClaimManager) (sessionID : string) (ownerUID : Z) (enrollment : Enrollment) (w : W)
  : result usb_error Claim * ClaimManager * W :=
  if bool_decide (sessionID = "") then (Err (UncodedError "USB claim requires a session"), m, w)
  else
    let '(snapshot, w) := kernelSnapshot w in
    match ResolveEnrollment unicodeLower snapshot enrollment with
    | Err e => (Err e, m, w)
    | Ok device =>
        match contextErr w with
        | Some e => (Err e, m, w)
        | None =>
            match randomClaimID w with
            | (None, w) => (Err (UncodedError "generate USB claim identifier"), m, w)
            | (Some claimID, w) =>
                match claimReserve m device with
                | Err e => (Err e, m, w)
                | Ok m =>
                    let '(outcome, w) := acquireDevice device w in
                    let '(r, m) := claimFinish m claimID sessionID ownerUID (EnrollmentID enrollment) device outcome in
                    (r, m, w)
                end
            end
        end
    end.

Definition getOwned (m : ClaimManager) (claimID sessionID : string) (ownerUID : Z) : result usb_error Claim :=
  match claims m !! claimID with
  | None => Err CodeNotEnrolled
  | Some claim =>
      fail_if (negb (bool_decide (cl_SessionID claim = sessionID)) || negb (cl_OwnerUID claim =? ownerUID)%Z)
        with CodeIdentityMismatch ;;
      Ok claim
  end.

Definition Revalidate (m : ClaimManager) (claimID sessionID : string) (ownerUID : Z) (enrollment : Enrollment) (w : W)
  : result usb_error Claim * W :=
  match getOwned m claimID sessionID ownerUID with
  | Err e => (Err e, w)
  | Ok claim =>
      let '(snapshot, w) := kernelSnapshot w in
      match ResolveEnrollment unicodeLower snapshot enrollment with
      | Err e => (Err e, w)
      | Ok current =>
          if negb (sameKernelObservation (cl_Device claim) current) then (Err CodeIdentityMismatch, w)
          else (Ok (publicClaim claim), w)
      end
  end.

(** The identifiers of the claims of one session and owner. *)
Definition sessionClaims (m : ClaimManager) (sessionID : string) (ownerUID : Z) : list string :=
  map fst (List.filter (λ p, bool_decide (cl_SessionID p.2 = sessionID) && (cl_OwnerUID p.2 =? ownerUID)%Z)
             (map_to_list (claims m))).

Definition RevalidateOnlySessionClaim (m : ClaimManager) (sessionID : string) (ownerUID : Z)
    (enrollment : Enrollment) (w : W) : result usb_error Claim * W :=
  if negb (is_Ok (ValidateID sessionID)) || negb (is_Ok (ValidateEnrollment unicodeLower enrollment))
  then (Err CodeIdentityMismatch, w)
  else
    match contextErr w with
    | Some e => (Err e, w)
    | None =>
        match sessionClaims m sessionID ownerUID with
        | [] => (Err CodeNotEnrolled, w)
        | [claimID] =>
            match getOwned m claimID sessionID ownerUID with
            | Err e => (Err e, w)
            | Ok claim =>
                if negb (bool_decide (cl_EnrollmentID claim = EnrollmentID enrollment)) then (Err CodeIdentityMismatch, w)
                else Revalidate m (cl_ID claim) sessionID ownerUID enrollment w
            end
        | _ => (Err CodeAmbiguous, w)
        end
    end.

(** The tables' part of a completed release. *)
Definition dropClaim (m : ClaimManager) (claim : Claim) : ClaimManager :=
  mkClaimManager (delete (cl_ID claim) (claims m)) (delete (hashOf (cl_Device claim)) (devices m)).

(** How the unlocked part of a release ended. *)
Inductive releasing :=
| ReleaseReturned (r : result usb_error unit)   (* it returned without releasing *)
| Released (claim : Claim).                     (* the handle is released and audited *)

(** The unlocked part of [Release]. *)
Definition releaseCall (m : ClaimManager) (claimID sessionID : string) (ownerUID : Z) (w : W) : releasing * W :=
  match getOwned m claimID sessionID ownerUID with
  | Err CodeNotEnrolled => (ReleaseReturned (Ok tt), w)
  | Err e => (ReleaseReturned (Err e), w)
  | Ok claim =>
      match cl_handle claim with
      | None => (ReleaseReturned (Err CodeCleanupIncomplete), w)
      | Some h =>
          match releaseAndAudit h w with
          | (Err _, w) => (ReleaseReturned (Err CodeCleanupIncomplete), w)
          | (Ok _, w) => (Released claim, w)
          end
      end
  end.

Definition releaseFinish (m : ClaimManager) (outcome : releasing) : result usb_error unit * ClaimManager :=
  match outcome with
  | ReleaseReturned r => (r, m)
  | Released claim => (Ok tt, dropClaim m claim)
  end.

Definition Release (m : ClaimManager) (claimID sessionID : string) (ownerUID : Z) (w : W)
  : result usb_error unit * ClaimManager * W :=
  let '(outcome, w) := releaseCall m claimID sessionID ownerUID w in
  let '(r, m) := releaseFinish m outcome in
  (r, m, w).

Fixpoint releaseAll (ids : list string) (m : ClaimManager) (sessionID : string) (ownerUID : Z) (w : W)
  : result usb_error unit * ClaimManager * W :=
  match ids with
  | [] => (Ok tt, m, w)
  | claimID :: rest =>
      match Release m claimID sessionID ownerUID w with
      | (Err e, m, w) => (Err e, m, w)
      | (Ok _, m, w) => releaseAll rest m sessionID ownerUID w
      end
  end.

Definition CleanupSession (m : ClaimManager) (sessionID : string) (ownerUID : Z) (w : W)
  : result usb_error unit * ClaimManager * W :=
  releaseAll (merge_sort string_le (sessionClaims m sessionID ownerUID)) m sessionID ownerUID w.

Definition AuditAbsent (m : ClaimManager) (claimID sessionID : string) (ownerUID : Z) (w : W) : result usb_error unit :=
  match contextErr w with
  | Some e => Err e
  | None =>
      match claims m !! claimID with
      | None => Ok tt
      | Some claim =>
          fail_if (negb (bool_decide (cl_SessionID claim = sessionID)) || negb (cl_OwnerUID claim =? ownerUID)%Z)
            with CodeIdentityMismatch ;;
          Err CodeCleanupIncomplete
      end
  end.

Definition AuditSessionAbsent (m : ClaimManager) (sessionID : string) (ownerUID : Z) (w : W) : result usb_error unit :=
  match contextErr w with
  | Some e => Err e
  | None =>
      match sessionClaims m sessionID ownerUID with
      | [] => Ok tt
      | _ => Err CodeCleanupIncomplete
      end
  end.

End Manager.

(** * Properties *)

(** ** Interleaved claims *)

Section Interleaving.
Context {W : Type} `{!UsbAdapters W}.

(** What the claim adapter promises of the devices it holds, by the handle that
    holds each: an acquisition that answers no handle holds nothing new, one that
    answers a handle may hold the device under that new handle, a release may or
    may not let go of its handle, whatever it answers, and an audit that answers
    without an error has found its handle holding nothing. *)
Class ClaimerSpec := {
  held : W → gmap Handle string;
  acquire_none d w err w' : adapterAcquire d w = (None, err, w') → held w' = held w;
  acquire_some d w h err w' : adapterAcquire d w = (Some h, err, w') →
    held w !! h = None ∧ (held w' = held w ∨ held w' = <[h := hashOf d]> (held w));
  release_held h w : held (adapterRelease h w).2 = held w ∨ held (adapterRelease h w).2 = delete h (held w);
  audit_held h w : held (adapterAudit h w).2 = held w;
  audit_absent h w w' : adapterAudit h w = (Ok tt, w') → held w !! h = None
}.

Context {claimer : ClaimerSpec}.

(** A claim between its two locked sections: the identifier it drew, for whom,
    and how the acquisition ended once it has. *)
Record claiming := mkClaiming {
  pc_id : string;
  pc_session : string;
  pc_owner : Z;
  pc_enrollment : string;
  pc_device : Device;
  pc_outcome : option acquisition
}.

Definition acquiredHandle (outcome : acquisition) : option Handle :=
  match outcome with
  | AcquireFailedDirty h | CancelledDirty h | Acquired h => Some h
  | _ => None
  end.

(** The manager, the claims and the releases in progress, by caller, and the
    world. *)
Record cstate := mkCState {
  cs_manager : ClaimManager;
  cs_pending : gmap nat claiming;
  cs_releasing : gmap nat releasing;
  cs_world : W
}.

(** An identifier no claim has and no pending claim has drawn. *)
Definition freshID (s : cstate) (id : string) : Prop :=
  id ≠ "" ∧ claims (cs_manager s) !! id = None ∧ ∀ k p, cs_pending s !! k = Some p → pc_id p ≠ id.

(** The sections of [Claim_] and [Release] of any number of callers; a release
    calls the adapter only when no other release of the same claim has its
    mutex. *)
Inductive cstep : cstate → cstate → Prop :=
| cs_reserve s k id sessionID ownerUID enrollmentID device m' :
    cs_pending s !! k = None → freshID s id → claimReserve (cs_manager s) device = Ok m' →
    cstep s (mkCState m' (<[k := mkClaiming id sessionID ownerUID enrollmentID device None]> (cs_pending s))
               (cs_releasing s) (cs_world s))
| cs_acquire s k p outcome w' :
    cs_pending s !! k = Some p → pc_outcome p = None →
    acquireDevice (pc_device p) (cs_world s) = (outcome, w') →
    cstep s (mkCState (cs_manager s)
               (<[k := mkClaiming (pc_id p) (pc_session p) (pc_owner p) (pc_enrollment p) (pc_device p) (Some outcome)]>
                  (cs_pending s)) (cs_releasing s) w')
| cs_finish s k p outcome r m' :
    cs_pending s !! k = Some p → pc_outcome p = Some outcome →
    claimFinish (cs_manager s) (pc_id p) (pc_session p) (pc_owner p) (pc_enrollment p) (pc_device p) outcome = (r, m') →
    cstep s (mkCState m' (delete k (cs_pending s)) (cs_releasing s) (cs_world s))
| cs_call s k id sessionID ownerUID outcome w' :
    cs_releasing s !! k = None →
    (∀ k' c, cs_releasing s !! k' = Some (Released c) → cl_ID c ≠ id) →
    releaseCall (cs_manager s) id sessionID ownerUID (cs_world s) = (outcome, w') →
    cstep s (mkCState (cs_manager s) (cs_pending s) (<[k := outcome]> (cs_releasing s)) w')
| cs_done s k outcome r m' :
    cs_releasing s !! k = Some outcome → releaseFinish (cs_manager s) outcome = (r, m') →
    cstep s (mkCState m' (cs_pending s) (delete k (cs_releasing s)) (cs_world s)).

(** Who answers for a handle: a claim in progress whose acquisition kept it, or
    a recorded claim that no release has given back. *)
Definition answersFor (s : cstate) (h : Handle) (hash : string) : Prop :=
  (∃ k p outcome, cs_pending s !! k = Some p ∧ pc_outcome p = Some outcome ∧
     acquiredHandle outcome = Some h ∧ hashOf (pc_device p) = hash) ∨
  (∃ id c, claims (cs_manager s) !! id = Some c ∧ cl_handle c = Some h ∧ hashOf (cl_Device c) = hash ∧
     ∀ k, cs_releasing s !! k ≠ Some (Released c)).

Record claim_inv (s : cstate) : Prop := {
  ci_claim id c : claims (cs_manager s) !! id = Some c →
    cl_ID c = id ∧ id ≠ "" ∧ is_Some (cl_handle c) ∧ devices (cs_manager s) !! hashOf (cl_Device c) = Some id;
  ci_pending k p : cs_pending s !! k = Some p →
    devices (cs_manager s) !! hashOf (pc_device p) = Some "" ∧ pc_id p ≠ "" ∧ claims (cs_manager s) !! pc_id p = None;
  ci_apart k1 k2 p1 p2 : cs_pending s !! k1 = Some p1 → cs_pending s !! k2 = Some p2 →
    k1 ≠ k2 → hashOf (pc_device p1) ≠ hashOf (pc_device p2) ∧ pc_id p1 ≠ pc_id p2;
  ci_released k c : cs_releasing s !! k = Some (Released c) → claims (cs_manager s) !! cl_ID c = Some c;
  ci_mutex k1 k2 c1 c2 : cs_releasing s !! k1 = Some (Released c1) → cs_releasing s !! k2 = Some (Released c2) →
    k1 ≠ k2 → cl_ID c1 ≠ cl_ID c2;
  ci_held h hash : held (cs_world s) !! h = Some hash → answersFor s h hash
}.

(** The reservation of one pending claim belongs to it alone. *)
Lemma pending_not_claimed s k p i c :
  claim_inv s → cs_pending s !! k = Some p → claims (cs_manager s) !! i = Some c →
  hashOf (cl_Device c) ≠ hashOf (pc_device p) ∧ i ≠ pc_id p.
Proof.
  intros Hi Hk Hc. destruct (ci_pending s Hi k p Hk) as (Hx & _ & Hn).
  destruct (ci_claim s Hi i c Hc) as (_ & ? & _ & Hy). split; congruence.
Qed.

Lemma claim_inv_reserve s k id sid uid eid device m' :
  claim_inv s → cs_pending s !! k = None → freshID s id → claimReserve (cs_manager s) device = Ok m' →
  claim_inv (mkCState m' (<[k := mkClaiming id sid uid eid device None]> (cs_pending s)) (cs_releasing s) (cs_world s)).
Proof.
  intros Hi Hk (Hne & Hfc & Hfp) Hr. unfold claimReserve in Hr.
  destruct (devices (cs_manager s) !! hashOf device) eqn:Hd; [done|]. injection Hr as <-. split; simpl.
  - intros i c Hc. destruct (ci_claim s Hi i c Hc) as (? & ? & ? & Hx). split_and!; try done.
    rewrite lookup_insert_ne; [done|congruence].
  - intros j p Hj. apply lookup_insert_Some in Hj as [[<- <-]|[Hn Hj]].
    + by rewrite lookup_insert_eq.
    + destruct (ci_pending s Hi j p Hj) as (Hx & ? & ?). split_and!; try done.
      rewrite lookup_insert_ne; [done|congruence].
  - intros j1 j2 p1 p2 H1 H2 Hn.
    apply lookup_insert_Some in H1 as [[<- <-]|[Hn1 H1]], H2 as [[<- <-]|[Hn2 H2]]; simpl; try done.
    + split; [|by intros ?%eq_sym%(Hfp _ _ H2)]. intros He. apply (ci_pending s Hi) in H2 as [Hx _]. congruence.
    + split; [|by apply (Hfp _ _ H1)]. intros He. apply (ci_pending s Hi) in H1 as [Hx _]. congruence.
    + by eapply (ci_apart s Hi j1 j2).
  - apply (ci_released s Hi).
  - apply (ci_mutex s Hi).
  - intros h hash Hh. destruct (ci_held s Hi h hash Hh) as [(j & p & o & Hj & Ho)|Hc]; [|by right].
    left. exists j, p, o. split; [|done]. simpl. rewrite lookup_insert_ne; [done|congruence].
Qed.

(** Releasing and auditing never holds anything new, and lets go of the handle
    when it answers without an error. *)
Lemma releaseAndAudit_held h w r w' :
  releaseAndAudit h w = (r, w') →
  (∀ h' hash, held w' !! h' = Some hash → held w !! h' = Some hash) ∧ (r = Ok tt → held w' !! h = None).
Proof.
  unfold releaseAndAudit. intros H. pose proof (release_held h w) as Hr.
  assert (∀ h' hash, held (adapterRelease h w).2 !! h' = Some hash → held w !! h' = Some hash) as Hs.
  { intros h' hash. destruct Hr as [-> | ->]; [done|]. by intros [_ ?]%lookup_delete_Some. }
  destruct (adapterRelease h w) as [[[]|] w1]; simpl in *; [|by simplify_eq].
  pose proof (audit_held h w1) as Ha. rewrite H in Ha. simpl in Ha. rewrite Ha. split; [done|].
  intros ->. by apply audit_absent in H.
Qed.

(** What the adapter holds after the acquisition of a device is what it held
    before, and possibly the device under the handle the acquisition kept. *)
Lemma acquireDevice_held d w outcome w' :
  acquireDevice d w = (outcome, w') →
  ∀ h hash, held w' !! h = Some hash → held w !! h = Some hash ∨ (acquiredHandle outcome = Some h ∧ hash = hashOf d).
Proof.
  unfold acquireDevice. destruct (adapterAcquire d w) as [[handle err] w1] eqn:Ha. intros H h hash.
  destruct handle as [h0|].
  2: { apply acquire_none in Ha. assert (w' = w1) as -> by (by destruct err; simplify_eq). rewrite Ha. by left. }
  apply acquire_some in Ha as [Hn Ha].
  assert (∀ h hash, held w1 !! h = Some hash → held w !! h = Some hash ∨ (h = h0 ∧ hash = hashOf d)) as Hw.
  { intros h1 hash1. destruct Ha as [-> | ->]; [by left|].
    intros [[<- <-]|[_ ?]]%lookup_insert_Some; [by right|by left]. }
  assert (∀ e w2, releaseAndAudit h0 w1 = (Err e, w2) → ∀ h hash, held w2 !! h = Some hash →
            held w !! h = Some hash ∨ (h = h0 ∧ hash = hashOf d)) as Hdirty.
  { intros e w2 [Hs _]%releaseAndAudit_held h1 hash1 Hx. by apply Hw, Hs. }
  assert (∀ w2, releaseAndAudit h0 w1 = (Ok tt, w2) → ∀ h hash, held w2 !! h = Some hash → held w !! h = Some hash) as Hclean.
  { intros w2 [Hs Hno]%releaseAndAudit_held h1 hash1 Hx. destruct (Hw _ _ (Hs _ _ Hx)) as [?|[-> _]]; [done|].
    rewrite Hno in Hx; done. }
  destruct err as [e|]; [|destruct (contextErr w1)];
    [destruct (releaseAndAudit h0 w1) as [[[]|] w2] eqn:Hr..|]; injection H as <- <-; intros Hx; simpl;
    first [left; by eapply Hclean | destruct (Hdirty _ _ eq_refl _ _ Hx) as [?|[-> ->]]; auto | destruct (Hw _ _ Hx) as [?|[-> ->]]; auto].
Qed.

Lemma claim_inv_acquire s k p outcome w' :
  claim_inv s → cs_pending s !! k = Some p → pc_outcome p = None →
  acquireDevice (pc_device p) (cs_world s) = (outcome, w') →
  claim_inv (mkCState (cs_manager s)
               (<[k := mkClaiming (pc_id p) (pc_session p) (pc_owner p) (pc_enrollment p) (pc_device p) (Some outcome)]>
                  (cs_pending s)) (cs_releasing s) w').
Proof.
  intros Hi Hk Hp Ha. split; simpl.
  - apply (ci_claim s Hi).
  - intros j q Hj. apply lookup_insert_Some in Hj as [[<- <-]|[_ Hj]]; [by apply (ci_pending s Hi) in Hk|by eapply ci_pending].
  - intros j1 j2 p1 p2 H1 H2 Hn.
    apply lookup_insert_Some in H1 as [[<- <-]|[Hn1 H1]], H2 as [[<- <-]|[Hn2 H2]]; simpl; try done;
      eapply (ci_apart s Hi); eauto.
  - apply (ci_released s Hi).
  - apply (ci_mutex s Hi).
  - intros h hash Hh. apply (acquireDevice_held _ _ _ _ Ha) in Hh as [Hh|[Ho ->]].
    + destruct (ci_held s Hi h hash Hh) as [(j & q & o & Hj & Hq & Ho)|Hc]; [|by right].
      left. exists j, q, o. split_and!; try apply Ho; [|done]. simpl. rewrite lookup_insert_ne; [done|congruence].
    + left. exists k. eexists _, outcome. simpl. rewrite lookup_insert_eq. by split_and!.
Qed.

Lemma claim_inv_drop s k p outcome :
  claim_inv s → cs_pending s !! k = Some p → pc_outcome p = Some outcome → acquiredHandle outcome = None →
  claim_inv (mkCState (dropReservation (cs_manager s) (pc_device p)) (delete k (cs_pending s)) (cs_releasing s) (cs_world s)).
Proof.
  intros Hi Hk Hp Hno. split; simpl.
  - intros i c Hc. destruct (pending_not_claimed s k p i c Hi Hk Hc) as [Hn _].
    destruct (ci_claim s Hi i c Hc) as (? & ? & ? & ?). by rewrite lookup_delete_ne by congruence.
  - intros j q Hj. apply lookup_delete_Some in Hj as [Hn Hj].
    destruct (ci_apart s Hi k j p q Hk Hj Hn) as [Hne _].
    rewrite lookup_delete_ne by done. by eapply ci_pending.
  - intros j1 j2 p1 p2 [_ H1]%lookup_delete_Some [_ H2]%lookup_delete_Some. by eapply ci_apart.
  - apply (ci_released s Hi).
  - apply (ci_mutex s Hi).
  - intros h hash Hh. destruct (ci_held s Hi h hash Hh) as [(j & q & o & Hj & Hq & Ho & He)|Hc]; [|by right].
    left. exists j, q, o. split_and!; try done. simpl. rewrite lookup_delete_ne; [done|]. intros ->. congruence.
Qed.

Lemma claim_inv_record s k p outcome h c :
  claim_inv s → cs_pending s !! k = Some p → pc_outcome p = Some outcome → acquiredHandle outcome = Some h →
  cl_ID c = pc_id p → cl_Device c = pc_device p → cl_handle c = Some h →
  claim_inv (mkCState (recordClaim (cs_manager s) c) (delete k (cs_pending s)) (cs_releasing s) (cs_world s)).
Proof.
  intros Hi Hk Hp Hacq Hid Hdev Hh. destruct (ci_pending s Hi _ _ Hk) as (Hd & Hne & Hfree).
  rewrite <- Hid in Hne, Hfree. split; simpl; rewrite ?Hdev.
  - intros i c' Hc. apply lookup_insert_Some in Hc as [[<- <-]|[Hn Hc]].
    + rewrite Hdev, lookup_insert_eq. by split_and!.
    + destruct (pending_not_claimed s k _ i c' Hi Hk Hc) as [Hx _].
      destruct (ci_claim s Hi i c' Hc) as (? & ? & ? & ?). by rewrite lookup_insert_ne by congruence.
  - intros j q [Hn Hj]%lookup_delete_Some. destruct (ci_apart s Hi _ _ _ _ Hk Hj Hn) as [Hx Hy].
    destruct (ci_pending s Hi j q Hj) as (? & ? & ?). rewrite !lookup_insert_ne by congruence. done.
  - intros j1 j2 p1 p2 [_ H1]%lookup_delete_Some [_ H2]%lookup_delete_Some. by eapply ci_apart.
  - intros j c' Hc. apply (ci_released s Hi) in Hc. rewrite lookup_insert_ne; [done|congruence].
  - apply (ci_mutex s Hi).
  - intros h' hash Hx. destruct (ci_held s Hi h' hash Hx) as [(j & q & o & Hj & Hq & Ho & He)|(i & c' & Hc & Hhc & He & Hr)].
    + destruct (decide (j = k)) as [->|Hjk].
      * right. exists (cl_ID c), c. simpl. rewrite lookup_insert_eq, Hdev. split_and!; [done|congruence|congruence|].
        intros j' Hrel. apply (ci_released s Hi) in Hrel. congruence.
      * left. exists j, q, o. simpl. by rewrite lookup_delete_ne.
    + right. exists i, c'. simpl. rewrite lookup_insert_ne by congruence. done.
Qed.

Lemma claim_inv_finish s k p outcome r m' :
  claim_inv s → cs_pending s !! k = Some p → pc_outcome p = Some outcome →
  claimFinish (cs_manager s) (pc_id p) (pc_session p) (pc_owner p) (pc_enrollment p) (pc_device p) outcome = (r, m') →
  claim_inv (mkCState m' (delete k (cs_pending s)) (cs_releasing s) (cs_world s)).
Proof.
  intros Hi Hk Hp Hf. destruct outcome; simpl in Hf; injection Hf as <- <-;
    first [by eapply claim_inv_drop | by eapply claim_inv_record].
Qed.

(** Which claims a release gives back. *)
Lemma releaseCall_held m id sid uid w outcome w' :
  releaseCall m id sid uid w = (outcome, w') →
  (∀ h hash, held w' !! h = Some hash → held w !! h = Some hash) ∧
  (∀ c, outcome = Released c → claims m !! id = Some c ∧ ∃ h, cl_handle c = Some h ∧ held w' !! h = None).
Proof.
  unfold releaseCall, getOwned. intros H. destruct (claims m !! id) as [c|]; [|by simplify_eq].
  destruct (_ || _); [by simplify_eq|]. destruct (cl_handle c) as [h|] eqn:Hh; [|by simplify_eq].
  destruct (releaseAndAudit h w) as [r w1] eqn:Hr. apply releaseAndAudit_held in Hr as [Hs Hn].
  destruct r as [[]|]; simplify_eq; (split; [done|]); intros c' Hc; simplify_eq. eauto.
Qed.

Lemma claim_inv_call s k id sid uid outcome w' :
  claim_inv s → cs_releasing s !! k = None →
  (∀ k' c, cs_releasing s !! k' = Some (Released c) → cl_ID c ≠ id) →
  releaseCall (cs_manager s) id sid uid (cs_world s) = (outcome, w') →
  claim_inv (mkCState (cs_manager s) (cs_pending s) (<[k := outcome]> (cs_releasing s)) w').
Proof.
  intros Hi Hk Hlock [Hs Hr]%releaseCall_held.
  assert (∀ c, outcome = Released c → claims (cs_manager s) !! cl_ID c = Some c ∧ cl_ID c = id) as Hid.
  { intros c [Hc _]%Hr. by destruct (ci_claim s Hi id c Hc) as (-> & _). }
  split; simpl.
  - apply (ci_claim s Hi).
  - apply (ci_pending s Hi).
  - apply (ci_apart s Hi).
  - intros j c Hj. apply lookup_insert_Some in Hj as [[<- Hj]|[_ Hj]]; [by apply Hid|by apply (ci_released s Hi) in Hj].
  - intros j1 j2 c1 c2 H1 H2 Hn.
    apply lookup_insert_Some in H1 as [[<- H1]|[_ H1]], H2 as [[<- H2]|[_ H2]]; try done.
    + apply Hid in H1 as [_ ->]. intros He. by apply (Hlock _ _ H2).
    + apply Hid in H2 as [_ ->]. by apply (Hlock _ _ H1).
    + by eapply (ci_mutex s Hi j1 j2).
  - intros h hash Hh. destruct (ci_held s Hi h hash (Hs _ _ Hh)) as [?|(i & c & Hc & Hhc & He & Hno)]; [by left|].
    right. exists i, c. split_and!; try done. simpl. intros j Hj.
    apply lookup_insert_Some in Hj as [[<- Hj]|[_ Hj]]; [|by apply (Hno j)].
    destruct (Hr c Hj) as (_ & h' & Hh' & Hnone). congruence.
Qed.

Lemma claim_inv_done s k outcome r m' :
  claim_inv s → cs_releasing s !! k = Some outcome → releaseFinish (cs_manager s) outcome = (r, m') →
  claim_inv (mkCState m' (cs_pending s) (delete k (cs_releasing s)) (cs_world s)).
Proof.
  intros Hi Hk Hf. destruct outcome as [r'|c]; simpl in Hf; injection Hf as <- <-.
  { destruct Hi as [H1 H2 H3 H4 H5 H6]. split; simpl; try done.
    - intros j c [_ Hj]%lookup_delete_Some. by apply H4 in Hj.
    - intros j1 j2 c1 c2 [_ Hj1]%lookup_delete_Some [_ Hj2]%lookup_delete_Some. by eapply H5.
    - intros h hash Hh. destruct (H6 h hash Hh) as [?|(i & c & Hc & Hhc & He & Hno)]; [by left|].
      right. exists i, c. split_and!; try done. simpl. intros j [_ Hj]%lookup_delete_Some. by apply (Hno j). }
  pose proof (ci_released s Hi k c Hk) as Hc. destruct (ci_claim s Hi _ c Hc) as (_ & Hne & _ & Hd).
  assert (∀ i c', claims (cs_manager s) !! i = Some c' → i ≠ cl_ID c → hashOf (cl_Device c') ≠ hashOf (cl_Device c)) as Hun.
  { intros i c' Hc' Hn He. apply (ci_claim s Hi) in Hc' as (_ & _ & _ & Hx). congruence. }
  split; simpl.
  - intros i c' [Hn Hc']%lookup_delete_Some. pose proof (Hun i c' Hc' ltac:(congruence)).
    destruct (ci_claim s Hi i c' Hc') as (? & ? & ? & ?). by rewrite lookup_delete_ne by congruence.
  - intros j p Hj. destruct (pending_not_claimed s j p _ c Hi Hj Hc) as [Hx Hy].
    destruct (ci_pending s Hi j p Hj) as (? & ? & Hf). rewrite lookup_delete_ne by done. split_and!; try done.
    by apply lookup_delete_None; right.
  - apply (ci_apart s Hi).
  - intros j c' [Hn Hj]%lookup_delete_Some. pose proof (ci_mutex s Hi _ _ _ _ Hk Hj Hn) as Hx.
    apply (ci_released s Hi) in Hj. by rewrite lookup_delete_ne.
  - intros j1 j2 c1 c2 [_ H1]%lookup_delete_Some [_ H2]%lookup_delete_Some. by eapply (ci_mutex s Hi).
  - intros h hash Hh. destruct (ci_held s Hi h hash Hh) as [?|(i & c' & Hc' & Hhc & He & Hno)]; [by left|].
    right. exists i, c'. split_and!; try done; simpl.
    + rewrite lookup_delete_ne; [done|]. intros <-. rewrite Hc in Hc'. simplify_eq. by apply (Hno k).
    + intros j [_ Hj]%lookup_delete_Some. by apply (Hno j).
Qed.

Lemma claim_inv_step s s' : cstep s s' → claim_inv s → claim_inv s'.
Proof.
  destruct 1; intros Hi; [by apply claim_inv_reserve|by eapply claim_inv_acquire|by eapply claim_inv_finish
    |by eapply claim_inv_call|by eapply claim_inv_done].
Qed.

(** C10: a device is claimed by at most one session.  However the sections of
    concurrent claims and releases interleave, whatever the adapter answers
    (failed, half-finished and cancelled acquisitions, releases that fail or do
    nothing): two claims never name the same device, a claim in progress never
    overlaps another one or a recorded claim, the adapter never holds one device
    under two handles, and every handle that still holds a device is kept by the
    claim in progress that will record it or is the handle of a recorded claim
    that no release has given back, so that a failed release leaves it where
    session cleanup finds it. *)
Theorem claims_are_exclusive w0 s :
  held w0 = ∅ → rtc cstep (mkCState NewClaimManager ∅ ∅ w0) s →
  (∀ id1 id2 c1 c2, claims (cs_manager s) !! id1 = Some c1 → claims (cs_manager s) !! id2 = Some c2 →
     hashOf (cl_Device c1) = hashOf (cl_Device c2) → id1 = id2) ∧
  (∀ k p, cs_pending s !! k = Some p →
     (∀ id c, claims (cs_manager s) !! id = Some c → hashOf (cl_Device c) ≠ hashOf (pc_device p)) ∧
     (∀ k' p', cs_pending s !! k' = Some p' → hashOf (pc_device p') = hashOf (pc_device p) → k' = k)) ∧
  (∀ h1 h2 hash, held (cs_world s) !! h1 = Some hash → held (cs_world s) !! h2 = Some hash → h1 = h2) ∧
  (∀ h hash, held (cs_world s) !! h = Some hash → answersFor s h hash).
Proof.
  intros Hw Hs. assert (claim_inv s) as Hi.
  { assert (claim_inv (mkCState NewClaimManager ∅ ∅ w0)) as H0 by (split; simpl; try done; by rewrite Hw).
    revert H0. induction Hs as [|x y z Hxy _ IH]; [done|]. intros H0. apply IH. by eapply claim_inv_step. }
  assert (∀ i1 i2 c1 c2, claims (cs_manager s) !! i1 = Some c1 → claims (cs_manager s) !! i2 = Some c2 →
            hashOf (cl_Device c1) = hashOf (cl_Device c2) → i1 = i2) as Hone.
  { intros i1 i2 c1 c2 H1 H2 He. apply (ci_claim s Hi) in H1 as (_ & _ & _ & H1), H2 as (_ & _ & _ & H2). congruence. }
  assert (∀ k k' p p', cs_pending s !! k = Some p → cs_pending s !! k' = Some p' →
            hashOf (pc_device p') = hashOf (pc_device p) → k' = k) as Hpend.
  { intros k k' p p' Hk Hk' He. destruct (decide (k' = k)); [done|]. by destruct (ci_apart s Hi _ _ _ _ Hk' Hk n). }
  split_and!; [done| | |apply (ci_held s Hi)].
  - intros k p Hk. split; [|by eauto]. intros i c Hc. by destruct (pending_not_claimed s k p i c Hi Hk Hc).
  - intros h1 h2 hash H1 H2.
    destruct (ci_held s Hi _ _ H1) as [(k1 & p1 & o1 & Hk1 & Hp1 & Ho1 & He1)|(i1 & c1 & Hc1 & Hh1 & He1 & _)],
      (ci_held s Hi _ _ H2) as [(k2 & p2 & o2 & Hk2 & Hp2 & Ho2 & He2)|(i2 & c2 & Hc2 & Hh2 & He2 & _)].
    + assert (k2 = k1) as -> by (eapply Hpend; eauto; congruence). congruence.
    + destruct (pending_not_claimed s k1 p1 i2 c2 Hi Hk1 Hc2). congruence.
    + destruct (pending_not_claimed s k2 p2 i1 c1 Hi Hk2 Hc1). congruence.
    + assert (i1 = i2) as -> by (eapply Hone; eauto; congruence). congruence.
Qed.

End Interleaving.

(** ** Session cleanup *)

Section Cleanup.
Context {W : Type} `{!UsbAdapters W}.
Implicit Types (m : ClaimManager) (w : W).

Definition ownedBy (sessionID : string) (ownerUID : Z) (c : Claim) : bool :=
  bool_decide (cl_SessionID c = sessionID) && (cl_OwnerUID c =? ownerUID)%Z.

(** Claims are filed under their own identifiers. *)
Definition filed m : Prop := ∀ id c, claims m !! id = Some c → cl_ID c = id.

Lemma sessionClaims_elem m sid uid id :
  id ∈ sessionClaims m sid uid ↔ ∃ c, claims m !! id = Some c ∧ ownedBy sid uid c = true.
Proof.
  unfold sessionClaims. rewrite list_elem_of_fmap. split.
  - intros ([i c] & -> & Hin). rewrite list_elem_of_In, filter_In, <- list_elem_of_In, elem_of_map_to_list in Hin.
    by exists c.
  - intros (c & Hc & Ho). exists (id, c). split; [done|].
    rewrite list_elem_of_In, filter_In, <- list_elem_of_In, elem_of_map_to_list. done.
Qed.

Lemma Release_ok m id sid uid w m' w' :
  filed m → Release m id sid uid w = (Ok tt, m', w') →
  (claims m !! id = None ∧ m' = m) ∨
  (∃ c h w1, claims m !! id = Some c ∧ ownedBy sid uid c = true ∧ cl_handle c = Some h ∧
     adapterRelease h w = (Ok tt, w1) ∧ adapterAudit h w1 = (Ok tt, w') ∧ claims m' = delete id (claims m)).
Proof.
  unfold Release, releaseCall, releaseFinish, getOwned, releaseAndAudit. intros Hf H.
  destruct (claims m !! id) as [c|] eqn:Hc; [|left; by simplify_eq]. right.
  destruct (_ || _) eqn:Ho in H; [done|]. bool_hyps. destruct (cl_handle c) as [h|] eqn:Hh; [|done].
  destruct (adapterRelease h w) as [[[]|] w1] eqn:Hr; [|done].
  destruct (adapterAudit h w1) as [[[]|] w2] eqn:Ha; [|done]. simplify_eq. exists c, h, w1. split_and!; try done.
  - unfold ownedBy. rewrite bool_decide_true by done. simpl. by apply Z.eqb_eq.
  - simpl. by rewrite (Hf id c Hc).
Qed.

Lemma releaseAll_ok ids : ∀ m sid uid w m' w',
  filed m → releaseAll ids m sid uid w = (Ok tt, m', w') →
  filed m' ∧ (∀ id c, claims m' !! id = Some c ↔ claims m !! id = Some c ∧ id ∉ ids).
Proof.
  induction ids as [|i ids IH]; intros m sid uid w m' w' Hf H; cbn [releaseAll] in H.
  { simplify_eq. split; [done|]. intros id c. set_solver. }
  destruct (Release m i sid uid w) as [[[[]|] m1] w1] eqn:Hr; [|done].
  apply Release_ok in Hr as [[Hn ->]|(c & h & w2 & Hc & _ & _ & _ & _ & Hd)]; [| |done].
  - apply IH in H as [Hf' Hx]; [|done]. split; [done|]. intros id c. rewrite Hx, not_elem_of_cons.
    split; [intros [Hid ?]; split_and!; try done; congruence|]. intros (? & ? & ?). done.
  - assert (filed m1) as Hf1 by (intros id c' Hx; rewrite Hd in Hx; apply lookup_delete_Some in Hx as [_ Hx]; by apply Hf).
    apply IH in H as [Hf' Hx]; [|done]. split; [done|]. intros id c'. rewrite Hx, Hd, lookup_delete_Some, not_elem_of_cons.
    split; [intros [[? ?] ?]|intros (? & ? & ?)]; split_and!; try done; congruence.
Qed.

(** A successful session cleanup is complete and exact: afterwards no claim
    of that session and owner is left, so the session audit passes, while every
    other claim is as before; releasing a claim that is already gone succeeds
    without touching anything. *)
Theorem session_cleanup_is_complete m sid uid w m' w' :
  filed m → CleanupSession m sid uid w = (Ok tt, m', w') →
  (∀ id c, claims m' !! id = Some c ↔ claims m !! id = Some c ∧ ownedBy sid uid c = false) ∧
  (∀ w2, contextErr w2 = None → AuditSessionAbsent m' sid uid w2 = Ok tt) ∧
  (∀ id w2, claims m' !! id = None → Release m' id sid uid w2 = (Ok tt, m', w2)).
Proof.
  intros Hf H. unfold CleanupSession in H. apply releaseAll_ok in H as [Hf' Hx]; [|done].
  assert (∀ id c, claims m' !! id = Some c ↔ claims m !! id = Some c ∧ ownedBy sid uid c = false) as Hy.
  { intros id c. rewrite Hx, merge_sort_Permutation, sessionClaims_elem. split.
    - intros [Hc Hn]. split; [done|]. destruct (ownedBy sid uid c) eqn:Ho; [|done]. exfalso. eauto.
    - intros [Hc Ho]. split; [done|]. intros (c' & Hc' & Ho'). congruence. }
  split_and!; [done| |].
  - intros w2 Hw. unfold AuditSessionAbsent. rewrite Hw. destruct (sessionClaims m' sid uid) as [|i l] eqn:Hs; [done|].
    exfalso. assert (i ∈ sessionClaims m' sid uid) as Hi by (rewrite Hs; set_solver).
    apply sessionClaims_elem in Hi as (c & Hc & Ho). apply Hy in Hc as [_ ?]. congruence.
  - intros id w2 Hn. unfold Release, releaseCall, getOwned. by rewrite Hn.
Qed.

End Cleanup.

(** * Approved sources *)

(** [SourceSelection]: role, session identifier, output identifier. *)
Definition SourceSelection : Type := string * string * string.

Definition SourceScanner : string := "scanner".
Definition SourceWorkstation : string := "workstation".

Definition is_output_char (c : ascii) : bool := is_upper c || is_lower c || is_digit c.

Definition sourceOutputIDPattern (s : string) : bool :=
  match_head_tail is_output_char
    (λ c, is_output_char c || existsb (char_eqb c) ["."; "_"; ":"; "@"; "+"; "-"]%char) 7 127 s.

Definition validateSelection (s : SourceSelection) : bool :=
  let '(role, sessionID, outputID) := s in
  (bool_decide (role = SourceScanner) || bool_decide (role = SourceWorkstation)) &&
  is_Ok (ValidateID sessionID) && sourceOutputIDPattern outputID.

(** A factory is an opaque reference; each registration brings its own. *)
Definition Factory : Type := nat.

Abbreviation Registry := (gmap SourceSelection Factory).

Definition Register (reg : Registry) (sel : SourceSelection) (f : Factory) : result usb_error Registry :=
  fail_if (negb (validateSelection sel)) with (UncodedError "approved source registration is invalid") ;;
  match reg !! sel with
  | Some _ => Err (UncodedError "approved source is already registered")
  | None => Ok (<[sel := f]> reg)
  end.

Definition Replace (reg : Registry) (sel : SourceSelection) (f : Factory) : result usb_error Registry :=
  fail_if (negb (validateSelection sel)) with (UncodedError "approved source registration is invalid") ;;
  Ok (<[sel := f]> reg).

Definition Remove (reg : Registry) (sel : SourceSelection) : Registry := delete sel reg.

Definition RemoveSession (reg : Registry) (role sessionID : string) : Registry :=
  if negb (bool_decide (role = SourceScanner)) && negb (bool_decide (role = SourceWorkstation)) ||
     negb (is_Ok (ValidateID sessionID))
  then reg
  else filter (λ p, ¬ (p.1.1.1 = role ∧ p.1.1.2 = sessionID)) reg.

(** The locked part of [OpenApproved]: the factory is taken out before it is
    called, whatever its call then returns. *)
Definition OpenApproved (reg : Registry) (sel : SourceSelection) : result usb_error Factory * Registry :=
  if negb (validateSelection sel) then (Err (UncodedError "approved source selection is invalid"), reg)
  else match reg !! sel with
       | None => (Err (UncodedError "approved source is unavailable"), reg)
       | Some f => (Ok f, delete sel reg)
       end.

Inductive source_op :=
| OpRegister (sel : SourceSelection) (f : Factory)
| OpReplace (sel : SourceSelection) (f : Factory)
| OpRemove (sel : SourceSelection)
| OpRemoveSession (role sessionID : string)
| OpOpen (sel : SourceSelection).

(** One operation; [opened] are the factories called so far with the selection
    they were called for. *)
Definition runSource (st : Registry * list (SourceSelection * Factory)) (op : source_op)
  : Registry * list (SourceSelection * Factory) :=
  let '(reg, opened) := st in
  match op with
  | OpRegister sel f => (match Register reg sel f with Ok reg' => reg' | Err _ => reg end, opened)
  | OpReplace sel f => (match Replace reg sel f with Ok reg' => reg' | Err _ => reg end, opened)
  | OpRemove sel => (Remove reg sel, opened)
  | OpRemoveSession role sessionID => (RemoveSession reg role sessionID, opened)
  | OpOpen sel =>
      match OpenApproved reg sel with
      | (Ok f, reg') => (reg', opened ++ [(sel, f)])
      | (Err _, reg') => (reg', opened)
      end
  end.

(** The registrations an operation brings. *)
Definition brought (op : source_op) : list (SourceSelection * Factory) :=
  match op with OpRegister sel f | OpReplace sel f => [(sel, f)] | _ => [] end.

Definition source_inv (st : Registry * list (SourceSelection * Factory)) (all : list (SourceSelection * Factory)) : Prop :=
  (∀ sel f, st.1 !! sel = Some f → (sel, f) ∈ all ∧ f ∉ map snd st.2) ∧
  (∀ sel1 sel2 f, st.1 !! sel1 = Some f → st.1 !! sel2 = Some f → sel1 = sel2) ∧
  (∀ p, p ∈ st.2 → p ∈ all) ∧ NoDup (map snd st.2).

Lemma source_inv_sub reg reg' opened all :
  (∀ sel f, reg' !! sel = Some f → reg !! sel = Some f) → source_inv (reg, opened) all → source_inv (reg', opened) all.
Proof. intros Hs (H1 & H2 & H3 & H4). split_and!; simpl in *; eauto. Qed.

Lemma source_inv_insert reg opened all sel f :
  source_inv (reg, opened) all → f ∉ map snd all → source_inv (<[sel := f]> reg, opened) (all ++ [(sel, f)]).
Proof.
  intros (H1 & H2 & H3 & H4) Hf. simpl in *.
  assert (∀ s, reg !! s ≠ Some f) as Hno.
  { intros s Hs. apply H1 in Hs as [Hin _]. apply Hf, list_elem_of_fmap. by exists (s, f). }
  split_and!; simpl.
  - intros s g Hg. apply lookup_insert_Some in Hg as [[<- <-]|[_ Hg]].
    + split; [set_solver|]. intros Hin. apply list_elem_of_fmap in Hin as (p & -> & Hp).
      apply Hf, list_elem_of_fmap. exists p. auto.
    + apply H1 in Hg as [? ?]. set_solver.
  - intros s1 s2 g Hg1 Hg2. apply lookup_insert_Some in Hg1 as [[<- <-]|[? Hg1]], Hg2 as [[<- ?]|[? Hg2]]; try done.
    + by apply Hno in Hg2.
    + subst. by apply Hno in Hg1.
    + by eapply H2.
  - intros p Hp. apply H3 in Hp. set_solver.
  - done.
Qed.

Lemma source_inv_weaken st all extra : source_inv st all → source_inv st (all ++ extra).
Proof.
  intros (H1 & H2 & H3 & H4). split_and!; try done.
  - intros s f Hs. apply H1 in Hs as [? ?]. set_solver.
  - intros p Hp. apply H3 in Hp. set_solver.
Qed.

Lemma source_inv_step st all op :
  source_inv st all → NoDup (map snd (all ++ brought op)) → source_inv (runSource st op) (all ++ brought op).
Proof.
  intros Hi Hn. destruct st as [reg opened].
  assert (∀ sel f, brought op = [(sel, f)] → f ∉ map snd all) as Hfresh.
  { intros sel f Hb. rewrite Hb, map_app in Hn. apply NoDup_app in Hn as (_ & Hd & _). intros Hin.
    apply Hd in Hin. set_solver. }
  destruct op as [sel f|sel f|sel|role sid|sel]; simpl in *.
  - unfold Register. destruct (negb _); [by apply source_inv_weaken|].
    destruct (reg !! sel); [by apply source_inv_weaken|]. apply source_inv_insert; [done|by eapply Hfresh].
  - unfold Replace. destruct (negb _); [by apply source_inv_weaken|].
    apply source_inv_insert; [done|by eapply Hfresh].
  - rewrite app_nil_r. eapply source_inv_sub; [|done]. intros s f Hs. unfold Remove in Hs. by apply lookup_delete_Some in Hs as [_ ?].
  - rewrite app_nil_r. unfold RemoveSession. destruct (_ || _); [done|]. eapply source_inv_sub; [|done].
    intros s f Hs. by apply map_lookup_filter_Some in Hs as [? _].
  - rewrite app_nil_r. unfold OpenApproved. destruct (negb _); [done|]. destruct (reg !! sel) as [f|] eqn:Hl; [|done].
    destruct Hi as (H1 & H2 & H3 & H4). simpl in *. split_and!; simpl.
    + intros s g [Hs Hg]%lookup_delete_Some. pose proof Hg as Hg'. apply H1 in Hg as [? Hx]. split; [done|].
      rewrite map_app, elem_of_app. intros [?|Hy]; [done|]. simpl in Hy. apply list_elem_of_singleton in Hy as ->.
      apply Hs. by eapply H2.
    + intros s1 s2 g [_ Hg1]%lookup_delete_Some [_ Hg2]%lookup_delete_Some. by eapply H2.
    + intros p Hp. apply elem_of_app in Hp as [Hp|Hp]; [by apply H3|].
      apply list_elem_of_singleton in Hp as ->. by apply H1 in Hl as [? _].
    + rewrite map_app. apply NoDup_app. split_and!; [done| |by apply NoDup_singleton].
      intros x Hx Hy. apply list_elem_of_singleton in Hy as ->. by apply H1 in Hl as [_ ?].
Qed.

(** An approved source is a one-use handoff: over any sequence of
    registrations, replacements, removals and openings in which every
    registration brings its own factory, no factory is ever called twice, and a
    factory is only called for the selection it was registered under. *)
Theorem source_opened_at_most_once ops :
  NoDup (map snd (ops ≫= brought)) →
  NoDup (map snd (foldl runSource (∅, []) ops).2) ∧
  (∀ p, p ∈ (foldl runSource (∅, []) ops).2 → p ∈ ops ≫= brought).
Proof.
  intros Hn. assert (source_inv (foldl runSource (∅, []) ops) (ops ≫= brought)) as (_ & _ & H3 & H4); [|done].
  induction ops as [|op ops IH] using rev_ind.
  { split_and!; simpl; try done; by constructor. }
  rewrite bind_app in Hn |- *. rewrite foldl_app. simpl in *. rewrite app_nil_r in Hn |- *.
  apply source_inv_step; [|done]. apply IH. rewrite map_app in Hn. by apply NoDup_app in Hn as [? _].
Qed.

(** ** Witnesses *)

(** Adapters that always succeed. *)
Record Bench := mkBench { bench_log : list string; bench_held : gmap Handle string }.

#[global] Instance bench_adapters : UsbAdapters Bench := {
  kernelSnapshot w := (Some [demoStick; otherStick], w);
  adapterAcquire d w :=
    let h := fresh (dom (bench_held w)) in (Some h, None, mkBench (bench_log w ++ ["acquire"]) (<[h := hashOf d]> (bench_held w)));
  adapterRelease h w := (Ok tt, mkBench (bench_log w ++ ["release"]) (delete h (bench_held w)));
  adapterAudit h w :=
    (match bench_held w !! h with Some _ => Err CodeCleanupIncomplete | None => Ok tt end,
     mkBench (bench_log w ++ ["audit"]) (bench_held w));
  randomClaimID w := (Some "usbclaim-1", w);
  contextErr _ := None
}.

#[global] Instance bench_claimer : ClaimerSpec (W:=Bench).
Proof.
  refine {| held := bench_held |}; simpl; try done.
  - intros d w h err w' H. simplify_eq. split; [|by right]. apply not_elem_of_dom, is_fresh.
  - auto.
  - intros h w w' H. by destruct (bench_held w !! h).
Defined.

Definition bench : Bench := mkBench [] ∅.

Definition demoSessionID : string := "pvm-00112233445566778899aabbccddeeff".

Definition demoClaimed : ClaimManager :=
  (Claim_ (λ cp, cp) NewClaimManager demoSessionID 1000 demoEnrollment bench).1.2.

Definition demoPending : claiming := mkClaiming "usbclaim-1" demoSessionID 1000 "usb-5c2beafeb12418c4" demoStick None.

Definition demoReserved : cstate (W:=Bench) :=
  mkCState (mkClaimManager ∅ {[hashOf demoStick := ""]}) {[0%nat := demoPending]} ∅ bench.

Definition demoHolding : cstate (W:=Bench) :=
  mkCState (mkClaimManager ∅ {[hashOf demoStick := ""]})
    {[0%nat := mkClaiming "usbclaim-1" demoSessionID 1000 "usb-5c2beafeb12418c4" demoStick (Some (Acquired 0))]} ∅
    (mkBench ["acquire"] {[0%nat := hashOf demoStick]}).

Lemma claims_are_exclusive_witness :
  held (cs_world demoHolding) !! 0%nat = Some (hashOf demoStick) ∧ answersFor demoHolding 0 (hashOf demoStick).
Proof.
  assert (rtc cstep (mkCState NewClaimManager ∅ ∅ bench) demoHolding) as Hs.
  { apply (rtc_l _ _ demoReserved).
    - apply (cs_reserve (mkCState NewClaimManager ∅ ∅ bench) 0 "usbclaim-1" demoSessionID 1000 "usb-5c2beafeb12418c4" demoStick);
        try done.
    - apply rtc_once. by apply (cs_acquire demoReserved 0 demoPending (Acquired 0)). }
  assert (held bench = ∅) as He by reflexivity.
  destruct (claims_are_exclusive bench demoHolding He Hs) as (_ & _ & _ & Hh).
  split; [reflexivity|]. apply Hh. reflexivity.
Defined.

Lemma session_cleanup_is_complete_witness :
  claims demoClaimed !! "usbclaim-1" ≠ None ∧
  AuditSessionAbsent (CleanupSession demoClaimed demoSessionID 1000 bench).1.2 demoSessionID 1000 bench = Ok tt.
Proof.
  split; [by vm_compute|].
  assert ((CleanupSession demoClaimed demoSessionID 1000 bench).1.1 = Ok tt) as Hok by (by vm_compute).
  assert (filed demoClaimed) as Hf.
  { intros id c Hc.
    assert (claims demoClaimed = {["usbclaim-1" := mkClaim "usbclaim-1" "usb-5c2beafeb12418c4" demoSessionID 1000 demoStick (Some 0%nat)]})
      as He by (by vm_compute).
    rewrite He in Hc. apply lookup_singleton_Some in Hc as [<- <-]. done. }
  destruct (CleanupSession demoClaimed demoSessionID 1000 bench) as [[r m'] w'] eqn:H.
  simpl in Hok |- *. subst r.
  destruct (session_cleanup_is_complete _ _ _ _ _ _ Hf H) as (_ & Ha & _). by apply Ha.
Defined.

Definition demoSelection : SourceSelection := (SourceScanner, demoSessionID, "report-0001").

Lemma source_opened_at_most_once_witness :
  let ops := [OpRegister demoSelection 1; OpOpen demoSelection; OpOpen demoSelection;
              OpReplace demoSelection 2; OpOpen demoSelection] in
  (foldl runSource (∅, []) ops).2 = [(demoSelection, 1%nat); (demoSelection, 2%nat)] ∧
  NoDup (map snd (foldl runSource (∅, []) ops).2).
Proof.
  intros ops. split; [by vm_compute|].
  apply (source_opened_at_most_once ops). simpl. apply NoDup_cons. split; [set_solver|]. apply NoDup_singleton.
Defined.
