(* ===== verification/Recovery.v ===== *)
(** * Startup recovery of orphaned sessions

    Models [src/internal/recovery/reconciler.go] and [report.go]: the daemon's
    startup reconciliation, which removes what a previous daemon left behind.
    The host backend, the session registry, the key evidence and the base-image
    auditor are interfaces over a world [W]; a timeout or a cancellation is an
    error such a call returns.  The log records every interface call with its
    answer, in order, and is read only by the theorems. *)

From Stdlib Require Import ZArith Lia Ascii.
From stdpp Require Import strings base tactics option gmap relations sorting list.
From S2P Require Import Prelude GoText SessionModel.

Open Scope string_scope.
Open Scope list_scope.

Definition defaultMaxCandidates : Z := 4096.
Definition defaultMaxSessions : Z := 255.

(** ** Kinds, candidates and evidence *)

Definition KindQEMUProcess : string := "qemu_process".
Definition KindCgroup : string := "cgroup".
Definition KindQMPSocket : string := "qmp_socket".
Definition KindSPICESocket : string := "spice_socket".
Definition KindVSOCKCID : string := "vsock_cid".
Definition KindTAP : string := "tap".
Definition KindVeth : string := "veth".
Definition KindNetNS : string := "network_namespace".
Definition KindNFTables : string := "nftables".
Definition KindUSBClaim : string := "usb_claim".
Definition KindMount : string := "outer_mount".
Definition KindMapper : string := "device_mapper".
Definition KindLoop : string := "loop_device".
Definition KindCiphertext : string := "ciphertext".
Definition KindRuntimePath : string := "runtime_path".

Definition cleanupOrder : list string :=
  [KindQEMUProcess; KindCgroup; KindQMPSocket; KindSPICESocket; KindVSOCKCID;
   KindTAP; KindVeth; KindNetNS; KindNFTables; KindUSBClaim;
   KindMount; KindMapper; KindLoop; KindCiphertext; KindRuntimePath].

(** The map [init] fills: a kind's position in [cleanupOrder]. *)
Definition knownKind (kind : string) : option nat := fst <$> list_find (λ k, k = kind) cleanupOrder.

(** What [errors.Is] answers for an error: the classes [classifyFailure] asks for. *)
Record error := mkError { isCanceled : bool; isDeadlineExceeded : bool; isActiveOwner : bool }.

(** [errors.New] of this package: none of the classes. *)
Definition plainError : error := mkError false false false.

Definition OriginVolatileRecord : string := "volatile_record".
Definition OriginKernel : string := "kernel_inventory".
Definition OriginScratch : string := "scratch_inventory".

Record Identity := mkIdentity { Fingerprint : string; OwnerUID : Z; OwnerGID : Z }.

#[global] Instance Identity_eq_dec : EqDecision Identity.
Proof. solve_decision. Defined.

Record Candidate := mkCandidate {
  ca_SessionID : string;
  ca_Kind : string;
  ca_Origin : string;
  ca_Locator : string;
  ca_Identity : Identity
}.

#[global] Instance Candidate_eq_dec : EqDecision Candidate.
Proof. solve_decision. Defined.

Definition KeyUnavailable : string := "unavailable".
Definition KeyPresent : string := "present".
Definition KeyUnknown : string := "unknown".

Record BaseImageSeal := mkSeal { Count : Z; seal_Fingerprint : string }.

(** Durations are nanoseconds. *)
Record Config := mkConfig {
  DaemonUID : Z;
  InventoryTimeout : Z;
  StepTimeout : Z;
  SessionTimeout : Z;
  MaxCandidates : Z;
  MaxSessions : Z
}.

Definition second : Z := 1000000000.

(** [New], given which of the four collaborators are present. *)
Definition New (backend registry keys bases : bool) (config : Config) : result string Config :=
  fail_if (negb backend || negb registry || negb keys || negb bases) with
    "recovery backend, registry, key evidence, and base-image auditor are required" ;;
  fail_if ((InventoryTimeout config <=? 0)%Z || (30 * second <? InventoryTimeout config)%Z ||
           (StepTimeout config <=? 0)%Z || (30 * second <? StepTimeout config)%Z ||
           (SessionTimeout config <? StepTimeout config)%Z || (300 * second <? SessionTimeout config)%Z) with
    "recovery timeouts are outside supported bounds" ;;
  let config := mkConfig (DaemonUID config) (InventoryTimeout config) (StepTimeout config) (SessionTimeout config)
    (if (MaxCandidates config =? 0)%Z then defaultMaxCandidates else MaxCandidates config)
    (if (MaxSessions config =? 0)%Z then defaultMaxSessions else MaxSessions config) in
  fail_if ((MaxCandidates config <? 1)%Z || (defaultMaxCandidates <? MaxCandidates config)%Z ||
           (MaxSessions config <? 1)%Z || (defaultMaxSessions <? MaxSessions config)%Z) with
    "recovery inventory limits are outside supported bounds" ;;
  Ok config.

(** ** The report *)

Definition StatusComplete : string := "complete".
Definition StatusIncomplete : string := "incomplete".

Record ArtifactCounts := mkCounts {
  QEMUProcess : Z;
  Cgroup : Z;
  QMPSocket : Z;
  SPICESocket : Z;
  VSOCKCID : Z;
  TAP : Z;
  Veth : Z;
  NetNS : Z;
  NFTables : Z;
  USBClaim : Z;
  Mount : Z;
  Mapper : Z;
  Loop : Z;
  Ciphertext : Z;
  RuntimePath : Z
}.

Definition noArtifacts : ArtifactCounts := mkCounts 0 0 0 0 0 0 0 0 0 0 0 0 0 0 0.

Definition add (counts : ArtifactCounts) (kind : string) : ArtifactCounts :=
  let 'mkCounts a b c d e f g h i j k l m n o := counts in
  if bool_decide (kind = KindQEMUProcess) then mkCounts (a + 1) b c d e f g h i j k l m n o else
  if bool_decide (kind = KindCgroup) then mkCounts a (b + 1) c d e f g h i j k l m n o else
  if bool_decide (kind = KindQMPSocket) then mkCounts a b (c + 1) d e f g h i j k l m n o else
  if bool_decide (kind = KindSPICESocket) then mkCounts a b c (d + 1) e f g h i j k l m n o else
  if bool_decide (kind = KindVSOCKCID) then mkCounts a b c d (e + 1) f g h i j k l m n o else
  if bool_decide (kind = KindTAP) then mkCounts a b c d e (f + 1) g h i j k l m n o else
  if bool_decide (kind = KindVeth) then mkCounts a b c d e f (g + 1) h i j k l m n o else
  if bool_decide (kind = KindNetNS) then mkCounts a b c d e f g (h + 1) i j k l m n o else
  if bool_decide (kind = KindNFTables) then mkCounts a b c d e f g h (i + 1) j k l m n o else
  if bool_decide (kind = KindUSBClaim) then mkCounts a b c d e f g h i (j + 1) k l m n o else
  if bool_decide (kind = KindMount) then mkCounts a b c d e f g h i j (k + 1) l m n o else
  if bool_decide (kind = KindMapper) then mkCounts a b c d e f g h i j k (l + 1) m n o else
  if bool_decide (kind = KindLoop) then mkCounts a b c d e f g h i j k l (m + 1) n o else
  if bool_decide (kind = KindCiphertext) then mkCounts a b c d e f g h i j k l m (n + 1) o else
  if bool_decide (kind = KindRuntimePath) then mkCounts a b c d e f g h i j k l m n (o + 1) else
  counts.

Record Failure := mkFailure {
  fl_Code : string;
  fl_Kind : string;
  fl_SafeMessage : string;
  fl_Remediation : string;
  fl_Retryable : bool
}.

Record Report := mkReport {
  SchemaVersion : Z;
  rp_Code : string;
  rp_Status : string;
  SessionsDiscovered : Z;
  SessionsRecovered : Z;
  KeyLossVerifiedSessions : Z;
  BaseImagesVerified : bool;
  ArtifactsDiscovered : ArtifactCounts;
  ArtifactsRecovered : ArtifactCounts;
  Failures : list Failure
}.

Definition newReport : Report :=
  mkReport 1 "RECOVERY_COMPLETED" StatusComplete 0 0 0 false noArtifacts noArtifacts [].

Definition addFailure (r : Report) (failure : Failure) : Report :=
  mkReport (SchemaVersion r) "ORPHAN_CLEANUP_FAILED" StatusIncomplete (SessionsDiscovered r) (SessionsRecovered r)
    (KeyLossVerifiedSessions r) (BaseImagesVerified r) (ArtifactsDiscovered r) (ArtifactsRecovered r)
    (Failures r ++ [failure]).

(** [finish]; a nil [Failures] slice is the empty list already. *)
Definition finish (r : Report) : Report :=
  if negb (bool_decide (length (Failures r) = 0%nat)) || negb (SessionsRecovered r =? SessionsDiscovered r)%Z
     || negb (BaseImagesVerified r)
  then mkReport (SchemaVersion r) "ORPHAN_CLEANUP_FAILED" StatusIncomplete (SessionsDiscovered r)
         (SessionsRecovered r) (KeyLossVerifiedSessions r) (BaseImagesVerified r) (ArtifactsDiscovered r)
         (ArtifactsRecovered r) (Failures r)
  else r.

Definition newFailure (code message : string) : Failure :=
  mkFailure code "" message
    "Preserve volatile recovery evidence, correct the host condition, and retry startup cleanup." true.

Definition withKind (failure : Failure) (kind : string) : Failure :=
  match knownKind kind with
  | Some _ => mkFailure (fl_Code failure) kind (fl_SafeMessage failure) (fl_Remediation failure) (fl_Retryable failure)
  | None => failure
  end.

Definition classifyFailure (err : error) (fallbackCode fallbackMessage : string) : Failure :=
  if isCanceled err
  then newFailure "RECOVERY_CANCELED" "Startup recovery was canceled before absence could be proven."
  else if isDeadlineExceeded err
  then newFailure "RECOVERY_TIMEOUT" "A bounded startup recovery operation timed out before absence could be proven."
  else if isActiveOwner err
  then let failure := newFailure "RECOVERY_REGISTRY_CONFLICT" "A candidate session still has a current registry owner." in
       mkFailure (fl_Code failure) (fl_Kind failure) (fl_SafeMessage failure) (fl_Remediation failure) false
  else newFailure fallbackCode fallbackMessage.

Definition setSessionsDiscovered (r : Report) (n : Z) : Report :=
  mkReport (SchemaVersion r) (rp_Code r) (rp_Status r) n (SessionsRecovered r) (KeyLossVerifiedSessions r)
    (BaseImagesVerified r) (ArtifactsDiscovered r) (ArtifactsRecovered r) (Failures r).

Definition addSessionRecovered (r : Report) : Report :=
  mkReport (SchemaVersion r) (rp_Code r) (rp_Status r) (SessionsDiscovered r) (SessionsRecovered r + 1)
    (KeyLossVerifiedSessions r) (BaseImagesVerified r) (ArtifactsDiscovered r) (ArtifactsRecovered r) (Failures r).

Definition addKeyLossVerified (r : Report) : Report :=
  mkReport (SchemaVersion r) (rp_Code r) (rp_Status r) (SessionsDiscovered r) (SessionsRecovered r)
    (KeyLossVerifiedSessions r + 1) (BaseImagesVerified r) (ArtifactsDiscovered r) (ArtifactsRecovered r) (Failures r).

Definition setBaseImagesVerified (r : Report) : Report :=
  mkReport (SchemaVersion r) (rp_Code r) (rp_Status r) (SessionsDiscovered r) (SessionsRecovered r)
    (KeyLossVerifiedSessions r) true (ArtifactsDiscovered r) (ArtifactsRecovered r) (Failures r).

Definition addDiscovered (r : Report) (kind : string) : Report :=
  mkReport (SchemaVersion r) (rp_Code r) (rp_Status r) (SessionsDiscovered r) (SessionsRecovered r)
    (KeyLossVerifiedSessions r) (BaseImagesVerified r) (add (ArtifactsDiscovered r) kind) (ArtifactsRecovered r)
    (Failures r).

Definition addRecovered (r : Report) (kind : string) : Report :=
  mkReport (SchemaVersion r) (rp_Code r) (rp_Status r) (SessionsDiscovered r) (SessionsRecovered r)
    (KeyLossVerifiedSessions r) (BaseImagesVerified r) (ArtifactsDiscovered r) (add (ArtifactsRecovered r) kind)
    (Failures r).

(** ** Validation and grouping *)

Definition fingerprintPattern : string → bool := match_prefix_exact "" is_lower_hex 64.

Definition validateCandidate (candidate : Candidate) (daemonUID : Z) : result error unit :=
  match ValidateID (ca_SessionID candidate) with
  | Err _ => Err plainError
  | Ok _ =>
  match knownKind (ca_Kind candidate) with
  | None => Err plainError
  | Some _ =>
  fail_if (negb (bool_decide (ca_Origin candidate = OriginVolatileRecord)) &&
           negb (bool_decide (ca_Origin candidate = OriginKernel)) &&
           negb (bool_decide (ca_Origin candidate = OriginScratch))) with plainError ;;
  fail_if ((String.length (ca_Locator candidate) =? 0)%nat || (512 <? String.length (ca_Locator candidate))%nat ||
           negb (bool_decide (TrimSpace (ca_Locator candidate) = ca_Locator candidate)) ||
           hasControl (ca_Locator candidate)) with plainError ;;
  fail_if (negb (OwnerUID (ca_Identity candidate) =? daemonUID)%Z ||
           negb (fingerprintPattern (Fingerprint (ca_Identity candidate)))) with plainError ;;
  Ok tt
  end end.

(** The key of the duplicate check: three parts separated by NUL. *)
Definition artifactKey (c : Candidate) : string :=
  ca_SessionID c +:+ String "000" (ca_Kind c +:+ String "000" (ca_Locator c)).

Definition groupAppend (grouped : gmap string (list Candidate)) (c : Candidate) : gmap string (list Candidate) :=
  <[ca_SessionID c := default [] (grouped !! ca_SessionID c) ++ [c]]> grouped.

Fixpoint validateAndGroup (daemonUID : Z) (candidates : list Candidate) (seen : gset string)
    (grouped : gmap string (list Candidate)) (report : Report) :
    result error (gmap string (list Candidate)) * Report :=
  match candidates with
  | [] => (Ok grouped, report)
  | candidate :: rest =>
      match validateCandidate candidate daemonUID with
      | Err err =>
          (Err err, addFailure report (withKind (classifyFailure err "RECOVERY_IDENTITY_REJECTED"
             "An orphan inventory entry failed its closed identity contract.") (ca_Kind candidate)))
      | Ok _ =>
          if bool_decide (artifactKey candidate ∈ seen)
          then (Err plainError, addFailure report (withKind (newFailure "RECOVERY_INVENTORY_DUPLICATE"
                  "The orphan inventory contained a duplicate object.") (ca_Kind candidate)))
          else validateAndGroup daemonUID rest ({[artifactKey candidate]} ∪ seen) (groupAppend grouped candidate)
                 (addDiscovered report (ca_Kind candidate))
      end
  end.

Definition sortedSessionIDs (grouped : gmap string (list Candidate)) : list string :=
  merge_sort string_le (map fst (map_to_list grouped)).

Definition priority (c : Candidate) : nat := default 0%nat (knownKind (ca_Kind c)).

(** The order [sortCandidates] sorts by: [before a b] is [!less(b, a)]. *)
Definition before (a b : Candidate) : Prop :=
  (priority a < priority b)%nat ∨ (priority a = priority b ∧ string_le (ca_Locator a) (ca_Locator b)).

#[global] Instance before_dec : RelDecision before.
Proof. unfold RelDecision, before. intros a b. apply _. Defined.

Definition sortCandidates (candidates : list Candidate) : list Candidate := merge_sort before candidates.

Definition isStorage (kind : string) : bool :=
  bool_decide (kind = KindMount) || bool_decide (kind = KindMapper) || bool_decide (kind = KindLoop) ||
  bool_decide (kind = KindCiphertext).

Definition hasStorage (candidates : list Candidate) : bool := existsb (λ c, isStorage (ca_Kind c)) candidates.

(** ** Interfaces and the log of calls *)

(** A recovery claim is an opaque handle; [None] is a nil interface value. *)
Class RecoveryWorld (W : Type) := {
  Inventory : W → result error (list Candidate) * W;
  RevalidateOwned : Candidate → W → result error unit * W;
  Cleanup : Candidate → W → result error unit * W;
  AuditAbsent : Candidate → W → result error unit * W;
  AuditSessionAbsent : string → W → result error unit * W;
  ClaimRecovery : string → W → result error (option nat) * W;
  Release : nat → W → W;
  KeyState : string → W → result error string * W;
  BasesSnapshot : W → result error BaseImageSeal * W;
  BasesVerify : BaseImageSeal → W → result error unit * W;
  ContextErr : W → option error
}.

(** An interface call and its answer. *)
Inductive Call :=
| CallSnapshot (r : result error BaseImageSeal)
| CallInventory (r : result error (list Candidate))
| CallClaim (id : string) (r : result error (option nat))
| CallKeyState (id : string) (r : result error string)
| CallRevalidate (c : Candidate) (r : result error unit)
| CallCleanup (c : Candidate) (r : result error unit)
| CallAudit (c : Candidate) (r : result error unit)
| CallAuditSession (id : string) (r : result error unit)
| CallRelease (id : string)
| CallVerify (seal : BaseImageSeal) (r : result error unit).

Section Reconciler.
Context {W : Type} `{RecoveryWorld W}.

(** The state a run threads: the world, the report it writes through its
    pointer, and the log. *)
Record st := mkSt { st_world : W; st_report : Report; st_log : list Call }.

Definition M (A : Type) : Type := st → result error A * st.

#[local] Instance M_ret : MRet M := λ A a s, (Ok a, s).
#[local] Instance M_bind : MBind M := λ A B k c s,
  match c s with
  | (Ok a, s') => k a s'
  | (Err e, s') => (Err e, s')
  end.

Definition call {A} (op : W → result error A * W) (entry : result error A → Call) : M A := λ s,
  let '(r, w) := op (st_world s) in (r, mkSt w (st_report s) (st_log s ++ [entry r])).

Definition modify (f : Report → Report) : M unit := λ s,
  (Ok tt, mkSt (st_world s) (f (st_report s)) (st_log s)).

Definition throw {A} (e : error) : M A := λ s, (Err e, s).

(** [if err != nil { report.addFailure(f(err)); return err }] *)
Definition orFail {A} (c : M A) (f : error → Failure) : M A := λ s,
  match c s with
  | (Ok a, s') => (Ok a, s')
  | (Err e, s') => (Err e, mkSt (st_world s') (addFailure (st_report s') (f e)) (st_log s'))
  end.

Definition revalidate (candidate : Candidate) : M unit :=
  call (RevalidateOwned candidate) (CallRevalidate candidate).

(** The key-loss gate of [recoverSession]. *)
Definition checkKeys (id : string) (candidates : list Candidate) : M unit :=
  if hasStorage candidates then
    state ← orFail (call (KeyState id) (CallKeyState id))
              (λ e, classifyFailure e "RECOVERY_KEY_STATE_UNKNOWN" "Volatile session-key loss could not be verified.");
    if negb (bool_decide (state = KeyUnavailable)) then
      _ ← modify (λ r, addFailure r (newFailure "RECOVERY_KEY_STATE_UNKNOWN"
                                       "Volatile session-key loss could not be verified."));
      throw plainError
    else modify addKeyLossVerified
  else mret tt.

(** Pinning the entire ownership set before the first mutation. *)
Fixpoint pinAll (candidates : list Candidate) : M unit :=
  match candidates with
  | [] => mret tt
  | candidate :: rest =>
      _ ← orFail (revalidate candidate)
            (λ e, withKind (classifyFailure e "RECOVERY_IDENTITY_REJECTED"
                    "An orphan identity or private-vm ownership proof was rejected.") (ca_Kind candidate));
      pinAll rest
  end.

Definition cleanOne (candidate : Candidate) : M unit :=
  _ ← orFail (revalidate candidate)
        (λ e, withKind (classifyFailure e "RECOVERY_IDENTITY_CHANGED"
                "An orphan identity changed immediately before cleanup.") (ca_Kind candidate));
  _ ← orFail (call (Cleanup candidate) (CallCleanup candidate))
        (λ e, withKind (classifyFailure e "RECOVERY_CLEANUP_FAILED" "An owned orphan could not be removed.")
                (ca_Kind candidate));
  _ ← orFail (call (AuditAbsent candidate) (CallAudit candidate))
        (λ e, withKind (classifyFailure e "RECOVERY_ABSENCE_UNPROVEN" "An owned orphan could not be proven absent.")
                (ca_Kind candidate));
  modify (λ r, addRecovered r (ca_Kind candidate)).

Fixpoint cleanAll (candidates : list Candidate) : M unit :=
  match candidates with
  | [] => mret tt
  | candidate :: rest => _ ← cleanOne candidate; cleanAll rest
  end.

(** [recoverSession] once the claim is held. *)
Definition recoverClaimed (id : string) (candidates : list Candidate) : M unit :=
  _ ← checkKeys id candidates;
  _ ← pinAll candidates;
  _ ← cleanAll (sortCandidates candidates);
  _ ← orFail (call (AuditSessionAbsent id) (CallAuditSession id))
        (λ e, classifyFailure e "RECOVERY_SESSION_ABSENCE_UNPROVEN"
                "The complete session resource set could not be proven absent.");
  modify addSessionRecovered.

Definition registryConflict (e : error) : Failure :=
  classifyFailure e "RECOVERY_REGISTRY_CONFLICT" "An orphan could not be excluded from the live session registry.".

(** [defer claim.Release()] runs on every path once the claim is held. *)
Definition recoverSession (id : string) (candidates : list Candidate) : M unit := λ s,
  match call (ClaimRecovery id) (CallClaim id) s with
  | (Err e, s) => (Err e, mkSt (st_world s) (addFailure (st_report s) (registryConflict e)) (st_log s))
  | (Ok None, s) =>
      (Err plainError, mkSt (st_world s) (addFailure (st_report s) (registryConflict plainError)) (st_log s))
  | (Ok (Some claim), s) =>
      let '(r, s) := recoverClaimed id candidates s in
      (r, mkSt (Release claim (st_world s)) (st_report s) (st_log s ++ [CallRelease id]))
  end.

(** The session loop of [Run]; the result is [runErrors]. *)
Fixpoint recoverAll (grouped : gmap string (list Candidate)) (ids : list string) (s : st) : list error * st :=
  match ids with
  | [] => ([], s)
  | id :: rest =>
      match ContextErr (st_world s) with
      | Some err =>
          ([err], mkSt (st_world s) (addFailure (st_report s) (classifyFailure err "RECOVERY_CANCELED"
                    "Startup recovery was canceled before all sessions were audited.")) (st_log s))
      | None =>
          match recoverSession id (default [] (grouped !! id)) s with
          | (Ok _, s) => recoverAll grouped rest s
          | (Err err, s) => let '(errs, s) := recoverAll grouped rest s in (err :: errs, s)
          end
      end
  end.

Definition snapshotBases (config : Config) : M BaseImageSeal :=
  seal ← call BasesSnapshot CallSnapshot;
  if (Count seal =? 0)%Z || (MaxCandidates config <? Count seal)%Z || negb (fingerprintPattern (seal_Fingerprint seal))
  then throw plainError
  else mret seal.

Definition basesChanged (e : error) : Failure :=
  classifyFailure e "RECOVERY_BASE_IMAGE_CHANGED" "Immutable base-image identity changed during recovery.".

(** The end of a run, with or without an earlier failure: verify the seal and
    record the answer. *)
Definition verifyBases (seal : BaseImageSeal) : M unit :=
  _ ← orFail (call (BasesVerify seal) (CallVerify seal)) basesChanged;
  modify setBaseImagesVerified.

(** What [Run] returns: the report and, for an error, its joined causes. *)
Definition outcome : Type := Report * option (list error).

(** [report.addFailure(failure); r.verifyBasesAfterFailure(seal, &report);
    return report.finish(), incompleteError(err)] *)
Definition verifyBasesAfterFailure (seal : BaseImageSeal) (s : st) (err : error) : outcome * st :=
  let '(_, s) := verifyBases seal s in ((finish (st_report s), Some [err]), s).

Definition failWith (failure : Failure) (s : st) : st :=
  mkSt (st_world s) (addFailure (st_report s) failure) (st_log s).

(** [Run] after a valid inventory: every session, then the base images. *)
Definition runSessions (seal : BaseImageSeal) (grouped : gmap string (list Candidate)) (s : st) : outcome * st :=
  let '(runErrors, s) := recoverAll grouped (sortedSessionIDs grouped) s in
  let '(verified, s) := verifyBases seal s in
  let runErrors := match verified with Ok _ => runErrors | Err e => runErrors ++ [e] end in
  let report := finish (st_report s) in
  if negb (bool_decide (length runErrors = 0%nat)) || negb (bool_decide (length (Failures report) = 0%nat))
  then ((report, Some runErrors), s)
  else ((report, None), s).

Definition Run (config : Config) (w : W) : outcome * st :=
  let s := mkSt w newReport [] in
  match snapshotBases config s with
  | (Err err, s) =>
      let s := failWith (classifyFailure err "RECOVERY_BASE_IMAGE_AUDIT_FAILED"
                 "Immutable base-image identity could not be captured before recovery.") s in
      ((finish (st_report s), Some [err]), s)
  | (Ok seal, s) =>
  match call Inventory CallInventory s with
  | (Err err, s) =>
      verifyBasesAfterFailure seal (failWith (classifyFailure err "RECOVERY_INVENTORY_FAILED"
        "The private-vm orphan inventory could not be completed.") s) err
  | (Ok candidates, s) =>
  if (MaxCandidates config <? len candidates)%Z then
    verifyBasesAfterFailure seal (failWith (newFailure "RECOVERY_INVENTORY_LIMIT"
      "The private-vm orphan inventory exceeded its fixed bound.") s) plainError
  else
  let '(grouping, report) := validateAndGroup (DaemonUID config) candidates ∅ ∅ (st_report s) in
  let s := mkSt (st_world s) report (st_log s) in
  match grouping with
  | Err err => verifyBasesAfterFailure seal s err
  | Ok grouped =>
  let s := mkSt (st_world s) (setSessionsDiscovered (st_report s) (Z.of_nat (size grouped))) (st_log s) in
  if (MaxSessions config <? Z.of_nat (size grouped))%Z then
    verifyBasesAfterFailure seal (failWith (newFailure "RECOVERY_INVENTORY_LIMIT"
      "The private-vm orphan session inventory exceeded its fixed bound.") s) plainError
  else runSessions seal grouped s
  end end end.

End Reconciler.

(** ** Calls follow the plan *)

(** The same call, whatever the answer. *)
Definition sameCall (a b : Call) : Prop :=
  match a, b with
  | CallSnapshot _, CallSnapshot _ | CallInventory _, CallInventory _ => True
  | CallClaim i _, CallClaim j _ | CallKeyState i _, CallKeyState j _ | CallAuditSession i _, CallAuditSession j _ => i = j
  | CallRevalidate c _, CallRevalidate d _ | CallCleanup c _, CallCleanup d _ | CallAudit c _, CallAudit d _ => c = d
  | CallRelease i, CallRelease j => i = j
  | CallVerify s _, CallVerify t _ => s = t
  | _, _ => False
  end.

(** [follows plan calls ok]: the calls are those of the plan with the answers
    the plan asks for, up to the end ([ok]) or to the first other answer. *)
Inductive follows : list Call → list Call → bool → Prop :=
| follows_done : follows [] [] true
| follows_stop p x plan : sameCall x p → x ≠ p → follows (p :: plan) [x] false
| follows_next p plan l ok : follows plan l ok → follows (p :: plan) (p :: l) ok.

Lemma follows_app_ok p1 p2 l1 l2 ok : follows p1 l1 true → follows p2 l2 ok → follows (p1 ++ p2) (l1 ++ l2) ok.
Proof.
  remember true as b eqn:Hb. intros Hf. revert Hb. induction Hf; intros Hb ?; simplify_eq/=; [done|].
  constructor. auto.
Qed.

Lemma follows_app_stop p1 p2 l : follows p1 l false → follows (p1 ++ p2) l false.
Proof.
  remember false as b eqn:Hb. intros Hf. revert Hb. induction Hf; intros Hb; simplify_eq/=; by constructor; auto.
Qed.

Lemma follows_all plan l : follows plan l true → l = plan.
Proof.
  remember true as b eqn:Hb. intros Hf. revert Hb. induction Hf; intros Hb; simplify_eq/=; [done|]. f_equal. auto.
Qed.

(** A call of the log that is not the last one of a stopped plan, or has the
    planned answer, was made after all the calls the plan puts before it. *)
Lemma follows_split plan l ok pre x post :
  follows plan l ok → l = pre ++ x :: post → ∃ y rest, plan = pre ++ y :: rest ∧ sameCall x y.
Proof.
  intros Hf. revert pre x post. induction Hf as [|p y plan Hs Hne|p plan l ok Hf IH]; intros pre x post Hl.
  - by destruct pre.
  - destruct pre as [|z pre]; simplify_eq/=; [by exists p, plan|by destruct pre].
  - destruct pre as [|z pre]; simplify_eq/=.
    + exists x, plan. split; [done|]. by destruct x.
    + destruct (IH pre x post eq_refl) as (y & rest & -> & ?). by exists y, rest.
Qed.

Section Runs.
Context {W : Type} `{RecoveryWorld W}.

Definition runs {A} (c : M (W:=W) A) (plan : list Call) : Prop :=
  ∀ s r s', c s = (r, s') → ∃ l, st_log s' = st_log s ++ l ∧ follows plan l (is_Ok r).

Lemma runs_then {A B} (c : M A) (k : M B) p1 p2 :
  runs c p1 → runs k p2 → runs (M_bind _ _ (λ _, k) c) (p1 ++ p2).
Proof.
  intros Hc Hk s r s' He. unfold M_bind in He. destruct (c s) as [[a|e] s1] eqn:H1.
  - destruct (Hc _ _ _ H1) as (l1 & Hl1 & Hf1), (Hk _ _ _ He) as (l2 & Hl2 & Hf2).
    exists (l1 ++ l2). rewrite Hl2, Hl1, app_assoc. split; [done|]. by apply follows_app_ok.
  - injection He as <- <-. destruct (Hc _ _ _ H1) as (l1 & Hl1 & Hf1). exists l1. split; [done|].
    by apply follows_app_stop.
Qed.

Lemma runs_orFail {A} (c : M A) f plan : runs c plan → runs (orFail c f) plan.
Proof.
  intros Hc s r s' He. unfold orFail in He. destruct (c s) as [[a|e] s1] eqn:H1; injection He as <- <-;
    by apply (Hc _ _ _ H1).
Qed.

Lemma runs_modify f : runs (modify f) [].
Proof. intros s r s' He. injection He as <- <-. exists []. by rewrite app_nil_r; split; [|constructor]. Qed.

Lemma runs_ret {A} (a : A) : runs (M_ret A a) [].
Proof. intros s r s' He. injection He as <- <-. exists []. by rewrite app_nil_r; split; [|constructor]. Qed.

Lemma runs_call op (entry : result error unit → Call) :
  (∀ r, sameCall (entry r) (entry (Ok tt))) → (∀ e, entry (Err e) ≠ entry (Ok tt)) →
  runs (call op entry) [entry (Ok tt)].
Proof.
  intros Hs Hn s r s' He. unfold call in He. destruct (op (st_world s)) as [q w]. injection He as <- <-.
  exists [entry q]. split; [done|]. destruct q as [[]|e]; simpl; [repeat constructor|].
  apply follows_stop; auto.
Qed.

(** The plan of a claimed session. *)
Definition keyPlan (id : string) (candidates : list Candidate) : list Call :=
  if hasStorage candidates then [CallKeyState id (Ok KeyUnavailable)] else [].
Definition pinPlan (candidates : list Candidate) : list Call := map (λ c, CallRevalidate c (Ok tt)) candidates.
Definition cleanPlan (candidates : list Candidate) : list Call :=
  flat_map (λ c, [CallRevalidate c (Ok tt); CallCleanup c (Ok tt); CallAudit c (Ok tt)]) candidates.
Definition claimedPlan (id : string) (candidates : list Candidate) : list Call :=
  keyPlan id candidates ++ pinPlan candidates ++ cleanPlan (sortCandidates candidates) ++ [CallAuditSession id (Ok tt)].

Lemma runs_checkKeys id candidates : runs (checkKeys id candidates) (keyPlan id candidates).
Proof.
  unfold checkKeys, keyPlan. destruct (hasStorage candidates); [|apply runs_ret].
  intros s r s' He. unfold mbind, M_bind, orFail, call in He.
  destruct (KeyState id (st_world s)) as [[q|e] w].
  - exists [CallKeyState id (Ok q)]. case_bool_decide as Hq; simpl in He; injection He as <- <-; (split; [done|]).
    + subst q. repeat constructor.
    + apply follows_stop; [done|]. by intros [= ->].
  - injection He as <- <-. exists [CallKeyState id (Err e)]. split; [done|]. by apply follows_stop.
Qed.

Lemma runs_pinAll candidates : runs (pinAll candidates) (pinPlan candidates).
Proof.
  induction candidates as [|c rest IH]; [apply runs_ret|].
  apply (runs_then _ _ [_]); [|done]. by apply runs_orFail, runs_call.
Qed.

Lemma runs_cleanAll candidates : runs (cleanAll candidates) (cleanPlan candidates).
Proof.
  induction candidates as [|c rest IH]; [apply runs_ret|].
  apply (runs_then _ _ [_; _; _]); [|done].
  apply (runs_then _ _ [_] [_; _]); [by apply runs_orFail, runs_call|].
  apply (runs_then _ _ [_] [_]); [by apply runs_orFail, runs_call|].
  apply (runs_then _ _ [_] []); [by apply runs_orFail, runs_call|apply runs_modify].
Qed.

Lemma runs_recoverClaimed id candidates : runs (recoverClaimed id candidates) (claimedPlan id candidates).
Proof.
  apply runs_then; [apply runs_checkKeys|]. apply runs_then; [apply runs_pinAll|].
  apply runs_then; [apply runs_cleanAll|]. rewrite <- (app_nil_r [_]).
  apply runs_then; [by apply runs_orFail, runs_call|apply runs_modify].
Qed.

(** The calls of one session: a refused claim, or the claimed plan between
    the claim and its release. *)
Inductive sessionCalls (id : string) (candidates : list Candidate) : list Call → bool → Prop :=
| session_refused r : (∀ h, r ≠ Ok (Some h)) → sessionCalls id candidates [CallClaim id r] false
| session_claimed h l ok : follows (claimedPlan id candidates) l ok →
    sessionCalls id candidates (CallClaim id (Ok (Some h)) :: l ++ [CallRelease id]) ok.

Lemma recoverSession_calls id candidates s r s' :
  recoverSession id candidates s = (r, s') →
  ∃ l, st_log s' = st_log s ++ l ∧ sessionCalls id candidates l (is_Ok r).
Proof.
  unfold recoverSession, call. destruct (ClaimRecovery id (st_world s)) as [[[h|]|e] w].
  - destruct (recoverClaimed id candidates _) as [q s1] eqn:Hc. intros [= <- <-].
    destruct (runs_recoverClaimed _ _ _ _ _ Hc) as (l & Hl & Hf). simpl in *.
    exists (CallClaim id (Ok (Some h)) :: l ++ [CallRelease id]). split; [|by constructor].
    by rewrite Hl, <- !app_assoc.
  - intros [= <- <-]. exists [CallClaim id (Ok None)]. split; [done|]. by constructor.
  - intros [= <- <-]. exists [CallClaim id (Err e)]. split; [done|]. by constructor.
Qed.

End Runs.

(** ** What a session writes into the report *)

(** The fields that [finish] and the callers read, apart from the failures. *)
Definition sameTotals (r r' : Report) : Prop :=
  SessionsDiscovered r' = SessionsDiscovered r ∧ SessionsRecovered r' = SessionsRecovered r ∧
  BaseImagesVerified r' = BaseImagesVerified r ∧ ArtifactsDiscovered r' = ArtifactsDiscovered r.

(** One failure more, and the same totals. *)
Definition oneFailure (r r' : Report) : Prop :=
  sameTotals r r' ∧ (∃ f, Failures r' = Failures r ++ [f]) ∧ rp_Status r' = StatusIncomplete ∧
  rp_Code r' = "ORPHAN_CLEANUP_FAILED".

Definition quiet (F : Report → Report) : Prop := ∀ r, sameTotals r (F r) ∧ Failures (F r) = Failures r ∧ rp_Status (F r) = rp_Status r.

Lemma addFailure_one r f : oneFailure r (addFailure r f).
Proof. split_and!; try done. by exists f. Qed.

Lemma oneFailure_after F r r' : quiet F → oneFailure (F r) r' → oneFailure r r'.
Proof.
  intros HF ((? & ? & ? & ?) & [f Hf] & ? & ?). destruct (HF r) as [(? & ? & ? & ?) [Hr _]].
  split_and!; try done; [split_and!; congruence|]. exists f. by rewrite Hf, Hr.
Qed.

Section Effects.
Context {W : Type} `{RecoveryWorld W}.

Definition effect {A} (c : M (W:=W) A) (F : Report → Report) : Prop :=
  ∀ s r s', c s = (r, s') →
  match r with Ok _ => st_report s' = F (st_report s) | Err _ => oneFailure (st_report s) (st_report s') end.

Lemma effect_then {A B} (c : M A) (k : M B) F G :
  quiet F → effect c F → effect k G → effect (M_bind _ _ (λ _, k) c) (λ r, G (F r)).
Proof.
  intros HF Hc Hk s r s' He. unfold M_bind in He. destruct (c s) as [[a|e] s1] eqn:H1.
  - pose proof (Hc _ _ _ H1) as Hr. specialize (Hk _ _ _ He). rewrite Hr in Hk. destruct r; [done|].
    by apply (oneFailure_after F).
  - injection He as <- <-. exact (Hc _ _ _ H1).
Qed.

Lemma effect_call {A} op (entry : result error A → Call) f : effect (orFail (call op entry) f) id.
Proof.
  intros s r s' He. unfold orFail, call in He. destruct (op (st_world s)) as [[a|e] w]; injection He as <- <-;
    [done|]. apply addFailure_one.
Qed.

Lemma effect_modify F : effect (modify F) F.
Proof. intros s r s' He. by injection He as <- <-. Qed.

Lemma quiet_id : quiet id.
Proof. by repeat split. Qed.

Lemma effect_checkKeys id candidates :
  effect (checkKeys id candidates) (if hasStorage candidates then addKeyLossVerified else λ r, r).
Proof.
  unfold checkKeys. destruct (hasStorage candidates); intros s r s' He; [|by injection He as <- <-].
  unfold mbind, M_bind, orFail, call in He. destruct (KeyState id (st_world s)) as [[q|e] w].
  - case_bool_decide; simpl in He; injection He as <- <-; [done|]. apply addFailure_one.
  - injection He as <- <-. apply addFailure_one.
Qed.

Lemma quiet_checkKeys candidates : quiet (if hasStorage candidates then addKeyLossVerified else λ r, r).
Proof. by destruct (hasStorage candidates). Qed.

Lemma effect_pinAll candidates : effect (pinAll candidates) (λ r, r).
Proof.
  induction candidates as [|c rest IH]; [intros s r s' He; by injection He as <- <-|].
  apply (effect_then _ _ id (λ r, r)); [apply quiet_id|apply effect_call|done].
Qed.

Lemma effect_cleanOne c : effect (cleanOne c) (λ r, addRecovered r (ca_Kind c)).
Proof.
  apply (effect_then _ _ id); [apply quiet_id|apply effect_call|].
  apply (effect_then _ _ id); [apply quiet_id|apply effect_call|].
  apply (effect_then _ _ id); [apply quiet_id|apply effect_call|apply effect_modify].
Qed.

Definition addAllRecovered (candidates : list Candidate) (r : Report) : Report :=
  foldl (λ r c, addRecovered r (ca_Kind c)) r candidates.

Lemma quiet_addAllRecovered candidates : quiet (addAllRecovered candidates).
Proof.
  induction candidates as [|c rest IH]; [apply quiet_id|]. intros r.
  destruct (IH (addRecovered r (ca_Kind c))) as [(? & ? & ? & ?) [? ?]]. by split; [split_and!|].
Qed.

Lemma effect_cleanAll candidates : effect (cleanAll candidates) (addAllRecovered candidates).
Proof.
  induction candidates as [|c rest IH]; [intros s r s' He; by injection He as <- <-|].
  apply (effect_then _ _ (λ r, addRecovered r (ca_Kind c)) (addAllRecovered rest)); [done|apply effect_cleanOne|done].
Qed.

Definition sessionReport (candidates : list Candidate) (r : Report) : Report :=
  addSessionRecovered (addAllRecovered (sortCandidates candidates)
    ((if hasStorage candidates then addKeyLossVerified else λ r, r) r)).

Lemma effect_recoverSession id candidates : effect (recoverSession id candidates) (sessionReport candidates).
Proof.
  assert (effect (recoverClaimed id candidates) (sessionReport candidates)) as Hr.
  { apply (effect_then _ _ (if hasStorage candidates then addKeyLossVerified else λ r, r)
             (λ r, addSessionRecovered (addAllRecovered (sortCandidates candidates) r)));
      [apply quiet_checkKeys|apply effect_checkKeys|].
    apply (effect_then _ _ Datatypes.id); [apply quiet_id|apply effect_pinAll|].
    apply (effect_then _ _ _ addSessionRecovered); [apply quiet_addAllRecovered|apply effect_cleanAll|].
    apply (effect_then _ _ Datatypes.id); [apply quiet_id|apply effect_call|apply effect_modify]. }
  intros s r s' He. unfold recoverSession, call in He.
  destruct (ClaimRecovery id (st_world s)) as [[[h|]|e] w];
    [|injection He as <- <-; apply addFailure_one..].
  destruct (recoverClaimed id candidates _) as [q s1] eqn:Hc. injection He as <- <-. exact (Hr _ _ _ Hc).
Qed.

Lemma sessionReport_totals candidates r :
  SessionsDiscovered (sessionReport candidates r) = SessionsDiscovered r ∧
  SessionsRecovered (sessionReport candidates r) = (SessionsRecovered r + 1)%Z ∧
  BaseImagesVerified (sessionReport candidates r) = BaseImagesVerified r ∧
  ArtifactsDiscovered (sessionReport candidates r) = ArtifactsDiscovered r ∧
  Failures (sessionReport candidates r) = Failures r ∧
  rp_Status (sessionReport candidates r) = rp_Status r.
Proof.
  unfold sessionReport. destruct (quiet_checkKeys candidates r) as [(H1 & H2 & H3 & H4) [H5 H6]].
  destruct (quiet_addAllRecovered (sortCandidates candidates)
              ((if hasStorage candidates then addKeyLossVerified else λ r, r) r)) as [(K1 & K2 & K3 & K4) [K5 K6]].
  simpl. split_and!; congruence.
Qed.

(** The loop over sessions adds one failure per error, and counts a recovery
    for every session without one. *)
Lemma recoverAll_report grouped ids s errs s' :
  recoverAll grouped ids s = (errs, s') →
  length (Failures (st_report s')) = (length (Failures (st_report s)) + length errs)%nat ∧
  (length errs ≤ length ids)%nat ∧
  SessionsDiscovered (st_report s') = SessionsDiscovered (st_report s) ∧
  BaseImagesVerified (st_report s') = BaseImagesVerified (st_report s) ∧
  ArtifactsDiscovered (st_report s') = ArtifactsDiscovered (st_report s) ∧
  (errs = [] → SessionsRecovered (st_report s') = (SessionsRecovered (st_report s) + len ids)%Z ∧
     rp_Status (st_report s') = rp_Status (st_report s)).
Proof.
  revert s errs s'. induction ids as [|id rest IH]; intros s errs s' He; simpl in He.
  { injection He as <- <-. unfold len. simpl. split_and!; try done; try lia;
      intros _; split; [lia|done]. }
  destruct (ContextErr (st_world s)).
  { injection He as <- <-. simpl. rewrite length_app. simpl. split_and!; try done; lia. }
  destruct (recoverSession id _ s) as [[[]|e] s1] eqn:Hs; pose proof (effect_recoverSession _ _ _ _ _ Hs) as Hr;
    simpl in Hr.
  - destruct (IH _ _ _ He) as (K1 & K2 & K3 & K4 & K5 & K6). rewrite Hr in K1, K3, K4, K5, K6.
    destruct (sessionReport_totals (default [] (grouped !! id)) (st_report s)) as (T1 & T2 & T3 & T4 & T5 & T6).
    rewrite ?T1, ?T3, ?T4, ?T5 in *. unfold len in *. simpl. split_and!; try done; [lia|].
    intros Hn. destruct (K6 Hn) as [-> ->]. rewrite T2, T6. split; [lia|done].
  - destruct (recoverAll grouped rest s1) as [errs1 s2] eqn:H2. injection He as <- <-.
    destruct (IH _ _ _ H2) as (K1 & K2 & K3 & K4 & K5 & _).
    destruct Hr as ((T1 & T2 & T3 & T4) & [f Hf] & _). rewrite Hf, length_app in K1. simpl in *.
    split_and!; try done; [lia|lia|congruence..].
Qed.

End Effects.

(** ** Grouping and sorting *)

Definition group (candidates : list Candidate) (id : string) : list Candidate :=
  filter (λ c, ca_SessionID c = id) candidates.

Definition addAllDiscovered (candidates : list Candidate) (r : Report) : Report :=
  foldl (λ r c, addDiscovered r (ca_Kind c)) r candidates.

Lemma groupAppend_lookup grouped c id :
  default [] (groupAppend grouped c !! id) = default [] (grouped !! id) ++ group [c] id ∧
  (is_Some (groupAppend grouped c !! id) ↔ is_Some (grouped !! id) ∨ ca_SessionID c = id).
Proof.
  unfold groupAppend, group. destruct (decide (ca_SessionID c = id)) as [<-|Hn].
  - rewrite lookup_insert_eq, filter_cons_True by done. split; [done|].
    split; [by right|by exists (default [] (grouped !! ca_SessionID c) ++ [c])].
  - rewrite lookup_insert_ne, filter_cons_False by done. rewrite filter_nil, app_nil_r. split; [done|].
    split; [by left|by intros [?|?]].
Qed.

(** [validateAndGroup] succeeds exactly on an inventory of valid entries with
    pairwise distinct keys, and then files every entry under its session. *)
Lemma validateAndGroup_ok uid candidates seen grouped r grouped' r' :
  validateAndGroup uid candidates seen grouped r = (Ok grouped', r') →
  r' = addAllDiscovered candidates r ∧ Forall (λ c, validateCandidate c uid = Ok tt) candidates ∧
  (∀ id, default [] (grouped' !! id) = default [] (grouped !! id) ++ group candidates id) ∧
  (∀ id, is_Some (grouped' !! id) ↔ is_Some (grouped !! id) ∨ id ∈ map ca_SessionID candidates) ∧
  NoDup (map artifactKey candidates) ∧ (∀ c, c ∈ candidates → artifactKey c ∉ seen).
Proof.
  revert seen grouped r. induction candidates as [|c rest IH]; intros seen grouped r He; simpl in He.
  { injection He as <- <-. split_and!; [done|by constructor|intros; by rewrite app_nil_r| |constructor|set_solver].
    intros id. split; [by left|]. intros [?|?]; [done|set_solver]. }
  destruct (validateCandidate c uid) as [[]|e] eqn:Hv; [|done].
  case_bool_decide as Hs; [done|]. destruct (IH _ _ _ He) as (-> & Hall & Hg & Hsome & Hnd & Hfresh).
  split_and!; [done|by constructor| | | |].
  - intros id. rewrite Hg. destruct (groupAppend_lookup grouped c id) as [-> _]. rewrite <- app_assoc. f_equal.
    unfold group. by rewrite <- (filter_app _ [c] rest).
  - intros id. rewrite Hsome. destruct (groupAppend_lookup grouped c id) as [_ ->]. simpl. set_solver.
  - simpl. constructor; [|done]. intros (d & Hd & Hin)%list_elem_of_fmap. apply (Hfresh d Hin).
    rewrite <- Hd. set_solver.
  - intros d [->|Hd]%elem_of_cons; [done|]. specialize (Hfresh d Hd). set_solver.
Qed.

Lemma validateAndGroup_err uid candidates seen grouped r e r' :
  validateAndGroup uid candidates seen grouped r = (Err e, r') →
  length (Failures r') = S (length (Failures r)).
Proof.
  revert seen grouped r. induction candidates as [|c rest IH]; intros seen grouped r He; simpl in He; [done|].
  destruct (validateCandidate c uid); [case_bool_decide|].
  - injection He as <- <-. simpl. rewrite length_app. simpl. lia.
  - by rewrite (IH _ _ _ He).
  - injection He as <- <-. simpl. rewrite length_app. simpl. lia.
Qed.

#[global] Instance before_total : Total before.
Proof.
  intros a b. unfold before. destruct (total string_le (ca_Locator a) (ca_Locator b));
    destruct (Nat.lt_trichotomy (priority a) (priority b)) as [?|[?|?]]; auto.
Qed.

#[global] Instance before_trans : Transitive before.
Proof.
  intros a b c [H1|[H1 L1]] [H2|[H2 L2]]; unfold before; [left; lia..|].
  right. split; [lia|]. by etrans.
Qed.

Lemma sortCandidates_elem c candidates : c ∈ sortCandidates candidates ↔ c ∈ candidates.
Proof. unfold sortCandidates. by rewrite merge_sort_Permutation. Qed.

(** What sorts before an element precedes it. *)
Lemma sortCandidates_order candidates done c rest d :
  sortCandidates candidates = done ++ c :: rest → d ∈ candidates → (priority d < priority c)%nat → d ∈ done.
Proof.
  intros Hs Hd Hlt. pose proof (StronglySorted_merge_sort before candidates) as Hss.
  unfold sortCandidates in Hs. rewrite Hs in Hss. apply sortCandidates_elem in Hd. unfold sortCandidates in Hd.
  rewrite Hs in Hd. apply elem_of_app in Hd as [?|[->|Hr]%elem_of_cons]; [done|lia|exfalso].
  apply StronglySorted_app_1_r in Hss. apply StronglySorted_inv in Hss as [_ Hall].
  rewrite Forall_forall in Hall. destruct (Hall d Hr) as [?|[? _]]; lia.
Qed.

Lemma sortedSessionIDs_elem grouped id : id ∈ sortedSessionIDs grouped ↔ is_Some (grouped !! id).
Proof.
  unfold sortedSessionIDs. rewrite merge_sort_Permutation, list_elem_of_fmap. split.
  - intros ([i l] & -> & Hin). apply elem_of_map_to_list in Hin. by exists l.
  - intros [l Hl]. exists (id, l). split; [done|]. by apply elem_of_map_to_list.
Qed.

Lemma sortedSessionIDs_NoDup grouped : NoDup (sortedSessionIDs grouped).
Proof. unfold sortedSessionIDs. rewrite merge_sort_Permutation. apply NoDup_fst_map_to_list. Qed.

Lemma sortedSessionIDs_length grouped : len (sortedSessionIDs grouped) = Z.of_nat (size grouped).
Proof.
  unfold len, sortedSessionIDs. rewrite merge_sort_Permutation. rewrite length_map, length_map_to_list. done.
Qed.

(** ** Artifact counts *)

Definition countList (c : ArtifactCounts) : list Z :=
  [QEMUProcess c; Cgroup c; QMPSocket c; SPICESocket c; VSOCKCID c; TAP c; Veth c; NetNS c; NFTables c;
   USBClaim c; Mount c; Mapper c; Loop c; Ciphertext c; RuntimePath c].

Lemma countList_inj c d : countList c = countList d → c = d.
Proof. destruct c, d. unfold countList. simpl. by intros [= -> -> -> -> -> -> -> -> -> -> -> -> -> -> ->]. Qed.

(** [add] counts under the kind's position in the cleanup order. *)
Lemma add_countList c kind :
  countList (add c kind) = match knownKind kind with Some i => alter (λ n, n + 1)%Z i (countList c) | None => countList c end.
Proof.
  destruct c. unfold add. repeat (case_bool_decide; [subst kind; reflexivity|]).
  destruct (knownKind kind) as [i|] eqn:Hk; [|done]. exfalso. unfold knownKind in Hk.
  apply fmap_Some in Hk as ([j k] & Hf%list_find_Some & ->). destruct Hf as (Hl & -> & _).
  apply list_elem_of_lookup_2 in Hl. unfold cleanupOrder in Hl. set_solver.
Qed.

Lemma add_comm c k1 k2 : add (add c k1) k2 = add (add c k2) k1.
Proof.
  apply countList_inj. rewrite !add_countList.
  destruct (knownKind k1) as [i|], (knownKind k2) as [j|]; try done.
  destruct (decide (i = j)) as [->|]; [done|]. by apply list_alter_alter_ne.
Qed.

Definition addAll (candidates : list Candidate) (c : ArtifactCounts) : ArtifactCounts :=
  foldl (λ c d, add c (ca_Kind d)) c candidates.

#[global] Instance addAll_proper : Proper ((≡ₚ) ==> (=) ==> (=)) addAll.
Proof.
  intros l1 l2 Hp c ? <-. revert c. induction Hp as [|d l1 l2 _ IH|d e l|l1 l2 l3 _ IH1 _ IH2]; intros c; simpl; auto.
  - by rewrite add_comm.
  - by rewrite IH1.
Qed.

Lemma addAll_app l1 l2 c : addAll (l1 ++ l2) c = addAll l2 (addAll l1 c).
Proof. unfold addAll. by rewrite foldl_app. Qed.

Lemma addAllRecovered_counts l r : ArtifactsRecovered (addAllRecovered l r) = addAll l (ArtifactsRecovered r).
Proof. revert r. induction l as [|c l IH]; intros r; [done|]. simpl. unfold addAllRecovered in *. simpl. by rewrite IH. Qed.

Lemma addAllDiscovered_fields l r :
  ArtifactsDiscovered (addAllDiscovered l r) = addAll l (ArtifactsDiscovered r) ∧
  ArtifactsRecovered (addAllDiscovered l r) = ArtifactsRecovered r ∧
  Failures (addAllDiscovered l r) = Failures r ∧ SessionsRecovered (addAllDiscovered l r) = SessionsRecovered r ∧
  BaseImagesVerified (addAllDiscovered l r) = BaseImagesVerified r ∧ rp_Status (addAllDiscovered l r) = rp_Status r.
Proof.
  revert r. induction l as [|c l IH]; intros r; [done|].
  destruct (IH (addDiscovered r (ca_Kind c))) as (H1 & H2 & H3 & H4 & H5 & H6).
  unfold addAllDiscovered in *. simpl. by rewrite H1, H2, H3, H4, H5, H6.
Qed.

Lemma sessionReport_recovered l r : ArtifactsRecovered (sessionReport l r) = addAll l (ArtifactsRecovered r).
Proof.
  unfold sessionReport. simpl. rewrite addAllRecovered_counts. unfold sortCandidates.
  rewrite merge_sort_Permutation. by destruct (hasStorage l).
Qed.

(** The groups of the sessions are a partition of the inventory. *)
Lemma groups_partition ids candidates :
  NoDup ids → (∀ c, c ∈ candidates → ca_SessionID c ∈ ids) →
  concat (map (group candidates) ids) ≡ₚ candidates.
Proof.
  revert candidates. induction ids as [|id rest IH]; intros candidates Hnd Hin; simpl.
  { destruct candidates as [|c l]; [done|]. specialize (Hin c). set_solver. }
  apply NoDup_cons in Hnd as [Hid Hnd].
  etrans; [|apply (filter_app_complement (λ c, ca_SessionID c = id) candidates)]. apply Permutation_app_head.
  etrans; [|apply (IH (filter (λ c, ¬ ca_SessionID c = id) candidates)); [done|]].
  - apply reflexive_eq. f_equal. apply list_fmap_ext. intros i id' Hi. apply list_elem_of_lookup_2 in Hi. unfold group.
    symmetry. apply list_filter_filter_l. intros c <- Heq. by rewrite Heq in Hi.
  - intros c Hc. apply list_elem_of_filter in Hc as [Hne Hc]. specialize (Hin c Hc). set_solver.
Qed.

(** ** Runs *)

Section Run.
Context {W : Type} `{RecoveryWorld W}.

(** The calls of the session loop are one segment per session, in order. *)
Lemma recoverAll_calls grouped ids s errs s' :
  recoverAll (W:=W) grouped ids s = (errs, s') →
  ∃ segments : list (string * list Call),
    st_log s' = st_log s ++ concat (map snd segments) ∧ map fst segments `prefix_of` ids ∧
    Forall (λ seg, ∃ ok, sessionCalls seg.1 (default [] (grouped !! seg.1)) seg.2 ok) segments ∧
    (errs = [] → map fst segments = ids ∧
       Forall (λ seg, sessionCalls seg.1 (default [] (grouped !! seg.1)) seg.2 true) segments).
Proof.
  revert s errs s'. induction ids as [|id rest IH]; intros s errs s' He; simpl in He.
  { injection He as <- <-. exists []. rewrite app_nil_r. by split_and!; [|done|constructor|]. }
  destruct (ContextErr (st_world s)).
  { injection He as <- <-. exists []. rewrite app_nil_r. split_and!; [done|apply prefix_nil|constructor|done]. }
  destruct (recoverSession id _ s) as [[[]|e] s1] eqn:Hs;
    destruct (recoverSession_calls _ _ _ _ _ Hs) as (l & Hl & Hc); simpl in Hc.
  - destruct (IH _ _ _ He) as (segs & Hlog & Hpre & Hall & Hok). exists ((id, l) :: segs). simpl.
    rewrite Hlog, Hl, app_assoc. split_and!; [done|by apply prefix_cons|constructor; [by exists true|done]|].
    intros Hn. destruct (Hok Hn) as [-> ?]. split; [done|by constructor].
  - destruct (recoverAll grouped rest s1) as [errs1 s2] eqn:H2. injection He as <- <-.
    destruct (IH _ _ _ H2) as (segs & Hlog & Hpre & Hall & _). exists ((id, l) :: segs). simpl.
    rewrite Hlog, Hl, app_assoc. split_and!; [done|by apply prefix_cons|constructor; [by exists false|done]|done].
Qed.

(** The artifacts of the recovered sessions are counted. *)
Lemma recoverAll_recovered grouped ids s s' :
  recoverAll (W:=W) grouped ids s = ([], s') →
  ArtifactsRecovered (st_report s') =
    addAll (concat (map (λ id, default [] (grouped !! id)) ids)) (ArtifactsRecovered (st_report s)).
Proof.
  revert s. induction ids as [|id rest IH]; intros s He; simpl in He; [by injection He as <-|].
  destruct (ContextErr (st_world s)); [done|].
  destruct (recoverSession id _ s) as [[[]|e] s1] eqn:Hs; [|by destruct (recoverAll grouped rest s1)].
  pose proof (effect_recoverSession _ _ _ _ _ Hs) as Hr. simpl in Hr. rewrite (IH _ He), Hr, sessionReport_recovered.
  simpl. by rewrite addAll_app.
Qed.

(** A run that stops before the session loop: at least one failure and at most
    two, and no backend call beyond the inventory. *)
Definition stopped (out : outcome) (s : st (W:=W)) : Prop :=
  out.2 ≠ None ∧ rp_Status out.1 = StatusIncomplete ∧ rp_Code out.1 = "ORPHAN_CLEANUP_FAILED" ∧
  Failures out.1 ≠ [] ∧ (length (Failures out.1) ≤ 2)%nat ∧ (∀ c r, CallCleanup c r ∉ st_log s).

(** A run whose inventory was accepted: the state at the session loop. *)
Record atLoop (config : Config) (seal : BaseImageSeal) (candidates : list Candidate)
    (grouped : gmap string (list Candidate)) (s : st (W:=W)) : Prop := {
  al_log : st_log s = [CallSnapshot (Ok seal); CallInventory (Ok candidates)];
  al_report : st_report s =
    setSessionsDiscovered (addAllDiscovered candidates newReport) (Z.of_nat (size grouped));
  al_bound : (Z.of_nat (size grouped) ≤ MaxSessions config)%Z;
  al_valid : Forall (λ c, validateCandidate c (DaemonUID config) = Ok tt) candidates;
  al_keys : NoDup (map artifactKey candidates);
  al_group id : default [] (grouped !! id) = group candidates id;
  al_dom id : is_Some (grouped !! id) ↔ id ∈ map ca_SessionID candidates
}.

Lemma finish_failed r : Failures r ≠ [] →
  rp_Status (finish r) = StatusIncomplete ∧ rp_Code (finish r) = "ORPHAN_CLEANUP_FAILED" ∧
  Failures (finish r) = Failures r.
Proof. unfold finish. by destruct (Failures r). Qed.

Lemma finish_Failures r : Failures (finish r) = Failures r.
Proof. unfold finish. by destruct (_ || _). Qed.

Lemma verifyBases_spec seal (s : st (W:=W)) r s' :
  verifyBases seal s = (r, s') →
  st_log s' = st_log s ++ [CallVerify seal (match r with Ok _ => Ok tt | Err e => Err e end)] ∧
  match r with
  | Ok _ => st_report s' = setBaseImagesVerified (st_report s)
  | Err _ => oneFailure (st_report s) (st_report s')
  end.
Proof.
  unfold verifyBases, mbind, M_bind, orFail, call. destruct (BasesVerify seal (st_world s)) as [[[]|e] w];
    intros [= <- <-]; (split; [done|]); [done|apply addFailure_one].
Qed.

Lemma verifyBasesAfterFailure_stopped seal (s : st (W:=W)) err out s' :
  verifyBasesAfterFailure seal s err = (out, s') → length (Failures (st_report s)) = 1%nat →
  (∀ c r, CallCleanup c r ∉ st_log s) → stopped out s'.
Proof.
  unfold verifyBasesAfterFailure. destruct (verifyBases seal s) as [r s1] eqn:Hv. intros [= <- <-] Hf Hno.
  destruct (verifyBases_spec _ _ _ _ Hv) as [Hlog Hr].
  assert (Failures (st_report s1) ≠ [] ∧ (length (Failures (st_report s1)) ≤ 2)%nat) as [Hne Hle].
  { destruct r as [|e]; [rewrite Hr; simpl; split; [by destruct (Failures (st_report s))|lia]|].
    destruct Hr as (_ & [f ->] & _). rewrite length_app. simpl. split; [by destruct (Failures _)|lia]. }
  destruct (finish_failed _ Hne) as (H1 & H2 & H3). unfold stopped. simpl. rewrite H1, H2, H3.
  split_and!; try done. intros c q. rewrite Hlog, not_elem_of_app. split; [done|]. set_solver.
Qed.

(** Every run either stops before the loop or reaches it with its inventory
    validated and grouped. *)
Lemma Run_cases config (w : W) out s' :
  Run config w = (out, s') →
  stopped out s' ∨
  ∃ seal candidates grouped s, atLoop config seal candidates grouped s ∧ runSessions seal grouped s = (out, s').
Proof.
  unfold Run, snapshotBases, mbind, M_bind, call. simpl.
  destruct (BasesSnapshot w) as [[seal|e] w1]; [|intros [= <- <-]; left; split_and!; simpl; [done..|lia|set_solver]].
  destruct ((_ || _) || _); [intros [= <- <-]; left; split_and!; simpl; [done..|lia|set_solver]|].
  simpl. destruct (Inventory w1) as [[candidates|e] w2]; simpl;
    [|intros He; left; by apply (verifyBasesAfterFailure_stopped _ _ _ _ _ He); simpl; [|set_solver]].
  destruct (MaxCandidates config <? len candidates)%Z;
    [intros He; left; by apply (verifyBasesAfterFailure_stopped _ _ _ _ _ He); simpl; [|set_solver]|].
  destruct (validateAndGroup _ _ _ _ _) as [[grouped|e] r] eqn:Hg.
  - destruct (validateAndGroup_ok _ _ _ _ _ _ _ Hg) as (-> & Hv & Hgr & Hd & Hk & _).
    destruct (addAllDiscovered_fields candidates newReport) as (_ & _ & Hf & _).
    destruct (MaxSessions config <? Z.of_nat (size grouped))%Z eqn:Hm; intros He.
    + left. apply (verifyBasesAfterFailure_stopped _ _ _ _ _ He); simpl; [|set_solver].
      by rewrite Hf.
    + right. exists seal, candidates, grouped. eexists. split; [|exact He]. apply Z.ltb_ge in Hm.
      split; try done. intros id. rewrite Hd, lookup_empty. split; [|by right].
      by intros [[? ?]|?].
  - intros He. left. apply (verifyBasesAfterFailure_stopped _ _ _ _ _ He); simpl; [|set_solver].
    by rewrite (validateAndGroup_err _ _ _ _ _ _ _ Hg).
Qed.

End Run.

Section Theorems.
Context {W : Type} `{RecoveryWorld W}.

(** The outcome of the session loop and the final audit. *)
Lemma runSessions_spec config seal candidates grouped (s : st (W:=W)) report err s' :
  atLoop config seal candidates grouped s → runSessions seal grouped s = ((report, err), s') →
  ∃ errs s1 verified, recoverAll grouped (sortedSessionIDs grouped) s = (errs, s1) ∧
    st_log s' = st_log s1 ++ [CallVerify seal verified] ∧
    (length (Failures report) ≤ S (length errs))%nat ∧
    match err with
    | None => errs = [] ∧ verified = Ok tt ∧ report = setBaseImagesVerified (st_report s1)
    | Some _ => Failures report ≠ [] ∧ rp_Status report = StatusIncomplete ∧ rp_Code report = "ORPHAN_CLEANUP_FAILED"
    end.
Proof.
  intros Hal He. unfold runSessions in He.
  destruct (recoverAll grouped (sortedSessionIDs grouped) s) as [errs s1] eqn:Hr.
  destruct (verifyBases seal s1) as [v s2] eqn:Hv. destruct (verifyBases_spec _ _ _ _ Hv) as [Hlog Hrep].
  destruct (recoverAll_report _ _ _ _ _ Hr) as (K1 & _ & K3 & _ & _ & K6). rewrite (al_report _ _ _ _ _ Hal) in *.
  destruct (addAllDiscovered_fields candidates newReport) as (_ & _ & F1 & F2 & _ & _). simpl in K1, K3, K6.
  rewrite F1 in K1. rewrite F2 in K6. simpl in K1, K6.
  exists errs, s1, (match v with Ok _ => Ok tt | Err e => Err e end). split; [done|].
  destruct errs as [|e errs]; [destruct v as [[]|e]|]; simpl in He.
  - assert (finish (st_report s2) = setBaseImagesVerified (st_report s1)) as Hfin.
    { rewrite Hrep. unfold finish. simpl. destruct (K6 eq_refl) as [-> _]. rewrite K3, sortedSessionIDs_length, K1.
      simpl. by rewrite Z.eqb_refl. }
    rewrite Hfin in He. simpl in He. rewrite K1 in He. simpl in He.
    assert (s2 = s' ∧ setBaseImagesVerified (st_report s1) = report ∧ err = None) as (<- & <- & ->)
      by (by injection He).
    simpl. rewrite Hlog, K1. split_and!; try done. simpl. lia.
  - injection He as <- <- <-. destruct Hrep as (_ & [f Hf] & _).
    assert (Failures (st_report s2) ≠ []) as Hne by (rewrite Hf; by intros [_ ?]%app_nil).
    destruct (finish_failed _ Hne) as (-> & -> & ->). rewrite Hlog, Hf, length_app, K1. simpl.
    split_and!; try done; by intros [_ ?]%app_nil.
  - assert (Failures (st_report s2) ≠ [] ∧ (length (Failures (st_report s2)) ≤ S (length (e :: errs)))%nat) as [Hne Hle].
    { destruct v as [|e']; [rewrite Hrep; simpl|destruct Hrep as (_ & [f ->] & _); rewrite length_app].
      - simpl in K1. split; [by destruct (Failures (st_report s1))|lia].
      - simpl in *. split; [by intros [_ ?]%app_nil|lia]. }
    assert (s2 = s' ∧ finish (st_report s2) = report ∧ is_Some err) as (<- & <- & [x ->])
      by (destruct v; simpl in He; injection He as <- <- <-; split_and!; try done; by eexists).
    destruct (finish_failed _ Hne) as (-> & -> & ->). rewrite Hlog. by split_and!.
Qed.

Lemma session_ids config seal candidates grouped (s : st (W:=W)) :
  atLoop config seal candidates grouped s →
  NoDup (sortedSessionIDs grouped) ∧
  (∀ id, id ∈ sortedSessionIDs grouped ↔ id ∈ map ca_SessionID candidates) ∧
  concat (map (λ id, default [] (grouped !! id)) (sortedSessionIDs grouped)) ≡ₚ candidates.
Proof.
  intros Hal. assert (∀ id, id ∈ sortedSessionIDs grouped ↔ id ∈ map ca_SessionID candidates) as Hids.
  { intros id. rewrite sortedSessionIDs_elem. apply (al_dom _ _ _ _ _ Hal). }
  split_and!; [apply sortedSessionIDs_NoDup|done|].
  rewrite (map_ext _ (group candidates)) by (intros id; apply (al_group _ _ _ _ _ Hal)).
  apply groups_partition; [apply sortedSessionIDs_NoDup|]. intros c Hc. apply Hids. by apply list_elem_of_fmap_2.
Qed.

(** C11: recovery that reports success is complete: every interface call of
    the run succeeded and they are exactly the snapshot of the base images, the
    inventory, then for each session found, once, its claim, the proof that its
    key is lost if it holds storage, the revalidation of everything it owns,
    revalidate-clean-audit of each object in the cleanup order, the audit of the
    session and the release, and last the verification of the base images; and
    the report says so, with as many objects recovered of each kind as found. *)
Theorem recovery_success_is_complete config (w : W) report s :
  Run config w = ((report, None), s) →
  ∃ seal candidates ids segments,
    NoDup ids ∧ (∀ id, id ∈ ids ↔ id ∈ map ca_SessionID candidates) ∧
    Forall2 (λ id calls, ∃ h, calls =
      CallClaim id (Ok (Some h)) :: claimedPlan id (group candidates id) ++ [CallRelease id]) ids segments ∧
    st_log s = [CallSnapshot (Ok seal); CallInventory (Ok candidates)] ++ concat segments ++
               [CallVerify seal (Ok tt)] ∧
    rp_Status report = StatusComplete ∧ Failures report = [] ∧ BaseImagesVerified report = true ∧
    SessionsRecovered report = len ids ∧ SessionsDiscovered report = len ids ∧
    ArtifactsRecovered report = ArtifactsDiscovered report.
Proof.
  intros He. destruct (Run_cases _ _ _ _ He) as [[Hn _]|(seal & candidates & grouped & s0 & Hal & Hrs)]; [done|].
  destruct (runSessions_spec _ _ _ _ _ _ _ _ Hal Hrs) as (errs & s1 & v & Hr & Hlog & _ & -> & -> & ->).
  destruct (session_ids _ _ _ _ _ Hal) as (Hnd & Hids & Hpart).
  destruct (recoverAll_calls _ _ _ _ _ Hr) as (segs & Hl1 & _ & _ & Hok). destruct (Hok eq_refl) as [Hfst Hsegs].
  destruct (recoverAll_report _ _ _ _ _ Hr) as (K1 & _ & K3 & _ & K5 & K6). destruct (K6 eq_refl) as [K7 K8].
  pose proof (recoverAll_recovered _ _ _ _ Hr) as K9. rewrite Hpart in K9.
  rewrite (al_report _ _ _ _ _ Hal) in K1, K3, K5, K7, K8, K9. simpl in *.
  destruct (addAllDiscovered_fields candidates newReport) as (F1 & F2 & F3 & F4 & _ & F6).
  exists seal, candidates, (sortedSessionIDs grouped), (map snd segs). split_and!; try done.
  - rewrite <- Hfst. clear -Hsegs Hal. induction Hsegs as [|[id l] segs Hs _ IH]; simpl; constructor; [|done].
    simpl in Hs. inversion Hs as [|h l' ok Hf]; subst. exists h.
    by rewrite (follows_all _ _ Hf), (al_group _ _ _ _ _ Hal).
  - by rewrite Hlog, Hl1, (al_log _ _ _ _ _ Hal), <- app_assoc.
  - by rewrite K8, F6.
  - rewrite F3 in K1. simpl in K1. by destruct (Failures (st_report s1)).
  - by rewrite K7, F4.
  - by rewrite K3, sortedSessionIDs_length.
  - by rewrite K9, K5, F1, F2.
Qed.

(** Where a cleanup call stands in a session's plan. *)
Lemma cleanPlan_split l pre c q rest :
  cleanPlan l = pre ++ CallCleanup c q :: rest →
  ∃ cleaned todo, l = cleaned ++ c :: todo ∧ pre = cleanPlan cleaned ++ [CallRevalidate c (Ok tt)].
Proof.
  revert pre. induction l as [|d l IH]; intros pre He; [by destruct pre|]. simpl in He.
  destruct pre as [|p1 [|p2 [|p3 pre]]]; simpl in He; try done.
  { injection He as <- -> _ _. by exists [], l. }
  injection He as <- <- <- He. destruct (IH pre He) as (cleaned & todo & -> & ->). by exists (d :: cleaned), todo.
Qed.

Lemma claimedPlan_split id l pre c q rest :
  claimedPlan id l = pre ++ CallCleanup c q :: rest →
  ∃ cleaned todo, sortCandidates l = cleaned ++ c :: todo ∧
    pre = keyPlan id l ++ pinPlan l ++ cleanPlan cleaned ++ [CallRevalidate c (Ok tt)].
Proof.
  unfold claimedPlan. intros He.
  apply split_after in He as (p1 & -> & He); [|unfold keyPlan; destruct (hasStorage l); set_solver].
  apply split_after in He as (p2 & -> & He); [|by intros (? & ? & _)%list_elem_of_fmap].
  apply split_before in He as (r1 & He & _); [|set_solver].
  destruct (cleanPlan_split _ _ _ _ _ He) as (cleaned & todo & ? & ->). by exists cleaned, todo.
Qed.

(** A cleanup call of a session's calls. *)
Lemma sessionCalls_cleanup id l calls ok pre c q rest :
  sessionCalls id l calls ok → calls = pre ++ CallCleanup c q :: rest →
  ∃ h cleaned todo, sortCandidates l = cleaned ++ c :: todo ∧
    pre = CallClaim id (Ok (Some h)) :: keyPlan id l ++ pinPlan l ++ cleanPlan cleaned ++ [CallRevalidate c (Ok tt)].
Proof.
  intros [r _|h k ok' Hf] He; [destruct pre as [|? [|]]; done|].
  destruct pre as [|x pre]; [done|]. simpl in He. injection He as <- He.
  apply split_before in He as (k' & -> & _); [|set_solver].
  destruct (follows_split _ _ _ _ _ _ Hf eq_refl) as (y & rest' & Hp & Hy).
  destruct y; try done. simpl in Hy. subst.
  destruct (claimedPlan_split _ _ _ _ _ _ Hp) as (cleaned & todo & ? & ->). by exists h, cleaned, todo.
Qed.

(** A cleanup call of the loop lies in one session's segment. *)
Lemma segments_cleanup (segments : list (string * list Call)) pre x rest :
  concat (map snd segments) = pre ++ x :: rest →
  ∃ earlier seg pre' rest', seg ∈ segments ∧ seg.2 = pre' ++ x :: rest' ∧ pre = earlier ++ pre'.
Proof.
  revert pre. induction segments as [|seg segs IH]; intros pre He; simpl in He; [by destruct pre|].
  apply app_eq_inv in He as [(k & Hs & Hk)|(k & -> & Hk)].
  - destruct k as [|y k]; simpl in Hk.
    + destruct (IH [] (eq_sym Hk)) as (e & sg & p & r & ? & ? & Hp). symmetry in Hp. apply app_nil in Hp as [-> ->].
      exists pre, sg, [], r. rewrite app_nil_r. split_and!; [set_solver|done|done].
    + injection Hk as <- _. exists [], seg, pre, k. split_and!; [set_solver|done|done].
  - destruct (IH k Hk) as (e & sg & p & r & ? & ? & ->). exists (seg.2 ++ e), sg, p, r. rewrite app_assoc.
    split_and!; [set_solver|done|done].
Qed.

(** Nothing is removed on a guess.  In every run, also a failing or a
    cancelled one, a cleanup call is for an inventory entry with a valid
    identity of the daemon, and comes directly after a successful revalidation
    of that entry, and before it, since the session was claimed and with the
    claim still held: the key was reported unavailable if the session has
    storage, everything the session owns was revalidated, and whatever precedes
    the entry in the cleanup order was removed and proven absent. *)
Theorem cleanup_is_guarded config (w : W) out s pre c q rest :
  Run config w = (out, s) → st_log s = pre ++ CallCleanup c q :: rest →
  ∃ candidates earlier h cleaned,
    let owned := group candidates (ca_SessionID c) in
    CallInventory (Ok candidates) ∈ earlier ∧ c ∈ candidates ∧ validateCandidate c (DaemonUID config) = Ok tt ∧
    pre = earlier ++ CallClaim (ca_SessionID c) (Ok (Some h)) :: keyPlan (ca_SessionID c) owned ++ pinPlan owned ++
          cleanPlan cleaned ++ [CallRevalidate c (Ok tt)] ∧
    (∀ d, d ∈ owned → (priority d < priority c)%nat → d ∈ cleaned).
Proof.
  intros Hrun Hlog.
  destruct (Run_cases _ _ _ _ Hrun) as [(_ & _ & _ & _ & _ & Hno)|(seal & candidates & grouped & s0 & Hal & Hrs)].
  { exfalso. apply (Hno c q). rewrite Hlog. set_solver. }
  destruct out as [report err].
  destruct (runSessions_spec _ _ _ _ _ _ _ _ Hal Hrs) as (errs & s1 & v & Hr & Hl & _).
  destruct (recoverAll_calls _ _ _ _ _ Hr) as (segs & Hl1 & _ & Hall & _).
  rewrite Hl, Hl1, (al_log _ _ _ _ _ Hal) in Hlog.
  apply split_before in Hlog as (r1 & Hlog & _); [|set_solver].
  apply split_after in Hlog as (p1 & -> & Hlog); [|set_solver].
  destruct (segments_cleanup _ _ _ _ Hlog) as (earlier & seg & p2 & r2 & Hin & Hseg & ->).
  rewrite Forall_forall in Hall. destruct (Hall seg Hin) as [ok Hs].
  destruct (sessionCalls_cleanup _ _ _ _ _ _ _ _ Hs Hseg) as (h & cleaned & todo & Hsort & ->).
  rewrite (al_group _ _ _ _ _ Hal) in *.
  assert (c ∈ group candidates seg.1) as Hc by (apply sortCandidates_elem; rewrite Hsort; set_solver).
  apply list_elem_of_filter in Hc as [Hid Hc].
  exists candidates, ([CallSnapshot (Ok seal); CallInventory (Ok candidates)] ++ earlier), h, cleaned. simpl.
  rewrite Hid. split_and!; try done; [set_solver| |].
  - pose proof (al_valid _ _ _ _ _ Hal) as Hv. rewrite Forall_forall in Hv. by apply Hv.
  - intros d Hd Hlt. by apply (sortCandidates_order _ _ _ _ _ Hsort).
Qed.

Lemma New_limit raw config : New true true true true raw = Ok config → (MaxSessions config ≤ 255)%Z.
Proof.
  unfold New. cbv zeta. change (negb true || negb true || negb true || negb true) with false. cbv iota.
  destruct (_ || (300 * second <? _)%Z); [done|]. destruct (_ || (defaultMaxSessions <? _)%Z) eqn:Hb; [done|].
  intros [= <-]. apply orb_false_iff in Hb as [_ Hb]. by apply Z.ltb_ge in Hb.
Qed.

(** The report and the error agree: [Run] returns no error exactly when
    the report says complete; with an error the report says incomplete, under
    the cleanup-failure code and with at least one failure; and the failures
    never exceed one per session plus the final audit, 256 at the default limits
    [New] enforces. *)
Theorem report_agrees_with_error raw config (w : W) report err s :
  New true true true true raw = Ok config → Run config w = ((report, err), s) →
  (err = None ↔ rp_Status report = StatusComplete) ∧
  (is_Some err → Failures report ≠ [] ∧ rp_Status report = StatusIncomplete ∧ rp_Code report = "ORPHAN_CLEANUP_FAILED") ∧
  (length (Failures report) ≤ 256)%nat.
Proof.
  intros Hnew Hrun.
  pose proof (New_limit _ _ Hnew) as Hmax.
  assert ((is_Some err → Failures report ≠ [] ∧ rp_Status report = StatusIncomplete ∧
            rp_Code report = "ORPHAN_CLEANUP_FAILED") ∧
          (err = None → rp_Status report = StatusComplete) ∧ (length (Failures report) ≤ 256)%nat) as (H1 & H2 & H3).
  { destruct (Run_cases _ _ _ _ Hrun) as [(Hne & ? & ? & ? & ? & _)|(seal & candidates & grouped & s0 & Hal & Hrs)].
    { simpl in *. split_and!; [done|done|lia]. }
    destruct (runSessions_spec _ _ _ _ _ _ _ _ Hal Hrs) as (errs & s1 & v & Hr & _ & Hlen & Herr).
    destruct (recoverAll_report _ _ _ _ _ Hr) as (_ & K2 & _ & _ & _ & K6).
    pose proof (sortedSessionIDs_length grouped) as Hids. pose proof (al_bound _ _ _ _ _ Hal). unfold len in Hids.
    split_and!; [| |lia].
    - intros [x ->]. done.
    - intros ->. destruct Herr as (-> & _ & ->). simpl. destruct (K6 eq_refl) as [_ ->].
      rewrite (al_report _ _ _ _ _ Hal). simpl. by destruct (addAllDiscovered_fields candidates newReport) as (_ & _ & _ & _ & _ & ->). }
  split_and!; try done. split; [done|]. intros Hc. destruct err as [x|]; [|done].
  destruct H1 as (_ & Hi & _); [by eexists|]. by rewrite Hi in Hc.
Qed.

End Theorems.

(** ** Witnesses: a host that holds a list of orphans and behaves as asked *)

Definition absent (gone : bool) : result error unit := if gone then Ok tt else Err plainError.

#[local] Instance MemHost : RecoveryWorld (list Candidate) := {|
  Inventory w := (Ok w, w);
  RevalidateOwned c w := (absent (bool_decide (c ∈ w)), w);
  Cleanup c w := (Ok tt, filter (λ d, d ≠ c) w);
  AuditAbsent c w := (absent (negb (bool_decide (c ∈ w))), w);
  AuditSessionAbsent id w := (absent (negb (bool_decide (id ∈ map ca_SessionID w))), w);
  ClaimRecovery _ w := (Ok (Some 1%nat), w);
  Release _ w := w;
  KeyState _ w := (Ok KeyUnavailable, w);
  BasesSnapshot w := (Ok (mkSeal 3 "00112233445566778899aabbccddeeff00112233445566778899aabbccddeeff"), w);
  BasesVerify _ w := (Ok tt, w);
  ContextErr _ := None
|}.

Definition demoOrphan (kind locator : string) : Candidate :=
  mkCandidate "pvm-00112233445566778899aabbccddeeff" kind OriginKernel locator
    (mkIdentity "ffeeddccbbaa99887766554433221100ffeeddccbbaa99887766554433221100" 990 990).

Definition demoHost : list Candidate :=
  [demoOrphan KindCiphertext "/scratch/a"; demoOrphan KindQEMUProcess "4242"; demoOrphan KindLoop "/dev/loop3"].

Definition demoConfig : Config := mkConfig 990 (10 * second) (5 * second) (60 * second) 4096 255.

Definition demoRun := Run demoConfig demoHost.

Lemma recovery_success_is_complete_witness :
  demoRun.1.2 = None ∧ ArtifactsRecovered demoRun.1.1 = ArtifactsDiscovered demoRun.1.1 ∧
  Ciphertext (ArtifactsRecovered demoRun.1.1) = 1%Z.
Proof.
  assert (demoRun = ((demoRun.1.1, None), demoRun.2)) as Hrun by (by vm_compute).
  split_and!; [by vm_compute| |by vm_compute].
  destruct (recovery_success_is_complete demoConfig demoHost demoRun.1.1 demoRun.2 Hrun)
    as (? & ? & ? & ? & _ & _ & _ & _ & _ & _ & _ & _ & _ & Ha). exact Ha.
Defined.

(** The ciphertext goes last, after the loop device is gone. *)
Definition demoPrefix : list Call := take 14 (st_log demoRun.2).
Definition demoLoop : Candidate := demoOrphan KindLoop "/dev/loop3".
Definition demoCiphertext : Candidate := demoOrphan KindCiphertext "/scratch/a".

Lemma cleanup_is_guarded_witness :
  length demoPrefix = 14%nat ∧
  ∃ cleaned, demoLoop ∈ cleaned ∧ CallAudit demoLoop (Ok tt) ∈ demoPrefix ∧
    cleanPlan cleaned ++ [CallRevalidate demoCiphertext (Ok tt)] `suffix_of` demoPrefix.
Proof.
  split; [by vm_compute|].
  assert (demoRun = (demoRun.1, demoRun.2)) as Hrun by (by vm_compute).
  assert (st_log demoRun.2 = demoPrefix ++ CallCleanup demoCiphertext (Ok tt) :: drop 15 (st_log demoRun.2)) as Hlog
    by (by vm_compute).
  destruct (cleanup_is_guarded demoConfig demoHost demoRun.1 demoRun.2 demoPrefix demoCiphertext (Ok tt)
              (drop 15 (st_log demoRun.2)) Hrun Hlog) as (cs & earlier & h & cleaned & Hinv & Hc & _ & Hpre & Hord).
  assert (cs = demoHost) as ->.
  { assert (Forall (λ x, match x with CallInventory (Ok l) => l = demoHost | _ => True end) demoPrefix) as Hf
      by (vm_compute; repeat constructor).
    rewrite Forall_forall in Hf. apply (Hf (CallInventory (Ok cs))). rewrite Hpre. apply elem_of_app. by left. }
  exists cleaned. split_and!.
  - apply Hord; [|by apply Nat.ltb_lt]. apply list_elem_of_filter. split; [done|].
    by apply list_elem_of_lookup_2 with 2%nat.
  - apply list_elem_of_lookup_2 with 12%nat. by vm_compute.
  - rewrite Hpre. exists (earlier ++ CallClaim (ca_SessionID demoCiphertext) (Ok (Some h)) ::
      keyPlan (ca_SessionID demoCiphertext) (group demoHost (ca_SessionID demoCiphertext)) ++
      pinPlan (group demoHost (ca_SessionID demoCiphertext))).
    rewrite <- !app_assoc, <- app_comm_cons, <- !app_assoc. done.
Defined.

Lemma report_agrees_with_error_witness :
  demoRun.1.2 = None ∧ rp_Status demoRun.1.1 = StatusComplete.
Proof.
  split; [by vm_compute|].
  apply (report_agrees_with_error demoConfig demoConfig demoHost demoRun.1.1 demoRun.1.2 demoRun.2); by vm_compute.
Defined.
