(* ===== verification/Transfer.v ===== *)
(** * File transfer

    Models [src/internal/transfer/frame.go] and [source.go]: the receiver of a
    chunked stream, and the source that streams one host file.  The writer, the
    open file, the caller's context and the send callback are interfaces over a
    world; the hash is [Sha256.sha256] of the bytes written to it. *)

From Stdlib Require Import ZArith Lia Ascii.
From stdpp Require Import strings base tactics option list.
From S2P Require Import Prelude GoText Sha256.

Open Scope string_scope.
Open Scope list_scope.

Definition DefaultMaxChunk : Z := 1048576.

Inductive transfer_error :=
| UnsafeName | ControlCharacter | SizeExceedsLimit | InvalidMediaType
| NonContiguousOffset | ChunkExceedsMaximum | StreamExceedsSize | WriterError | ShortStream | DigestMismatch
| PathNotCanonical | OpenError | NotBoundedRegularFile | SourceExceedsBound | SourceChangedHashing | SeekError
| StreamUnavailable | ContextError | ReadError | SourceExceedsSize | SendError | SourceChangedTransfer.

Record Header := mkHeader {
  h_Name : string;
  h_Size : Z;
  h_SHA256 : list Z;
  h_MediaType : string
}.

(** NUL, CR, LF *)
Definition lineBreaks : string := String "000" (String "013" (String "010" EmptyString)).

Definition Validate (h : Header) (maxSize : Z) : result transfer_error unit :=
  fail_if (bool_decide (h_Name h = "") || bool_decide (h_Name h = ".") || bool_decide (h_Name h = "..") ||
           (255 <? String.length (h_Name h))%nat || ContainsAny (h_Name h) ("/\" +:+ lineBreaks)) with UnsafeName ;;
  fail_if (hasControl (h_Name h)) with ControlCharacter ;;
  fail_if (maxSize <? h_Size h)%Z with SizeExceedsLimit ;;
  fail_if ((255 <? String.length (h_MediaType h))%nat || ContainsAny (h_MediaType h) lineBreaks) with InvalidMediaType ;;
  Ok tt.

(** Constant-time comparison: every difference is collected before the answer. *)
Definition equal (a b : list Z) : bool :=
  if negb (length a =? length b)%nat then false
  else (foldl (λ mismatch xy, Z.lor mismatch (Z.lxor xy.1 xy.2)) 0 (zip a b) =? 0)%Z.

(** ** The receiver *)

(** [io.Writer]; the receiver reads only the error. *)
Class Writer (V : Type) := { Write : list Z → V → result unit unit * V }.

(** The receiver without its writer, which is the world; the hash state is the
    bytes written to the hash. *)
Record Receiver := mkReceiver {
  rc_expected : Header;
  rc_written : Z;
  rc_hash : list Z
}.

(** [NewReceiver] with a non-nil writer. *)
Definition NewReceiver (header : Header) (maxSize : Z) : result transfer_error Receiver :=
  _ <-! Validate header maxSize ;;
  Ok (mkReceiver header 0 []).

Section Receive.
Context {V : Type} `{Writer V}.

Definition WriteChunk (r : Receiver) (offset : Z) (data : list Z) (v : V) : option transfer_error * Receiver * V :=
  if negb (offset =? rc_written r)%Z then (Some NonContiguousOffset, r, v)
  else if (DefaultMaxChunk <? len data)%Z then (Some ChunkExceedsMaximum, r, v)
  else if (h_Size (rc_expected r) <? add64 (rc_written r) (len data))%Z then (Some StreamExceedsSize, r, v)
  else
    match Write data v with
    | (Err _, v) => (Some WriterError, r, v)
    | (Ok _, v) =>
        (None, mkReceiver (rc_expected r) (add64 (rc_written r) (len data)) (rc_hash r ++ data), v)
    end.

(** A caller's loop over chunks: it stops at the first error. *)
Fixpoint writeChunks (r : Receiver) (chunks : list (Z * list Z)) (v : V) : option transfer_error * Receiver * V :=
  match chunks with
  | [] => (None, r, v)
  | (offset, data) :: rest =>
      match WriteChunk r offset data v with
      | (Some e, r, v) => (Some e, r, v)
      | (None, r, v) => writeChunks r rest v
      end
  end.

End Receive.

Definition Finish (r : Receiver) : result transfer_error unit :=
  fail_if (negb (rc_written r =? h_Size (rc_expected r))%Z) with ShortStream ;;
  fail_if (negb (equal (sha256 (rc_hash r)) (h_SHA256 (rc_expected r)))) with DigestMismatch ;;
  Ok tt.

(** ** The source *)

(** [os.FileInfo]: the identity [os.SameFile] compares, mode, size, time. *)
Record FileInfo := mkInfo {
  fi_Device : Z;
  fi_Inode : Z;
  fi_Mode : Z;
  fi_Size : Z;
  fi_ModTime : Z
}.

(** [os.ModeType]: directory, link, pipe, socket, device and irregular bits. *)
Definition ModeType : Z := 0x8f280000.
Definition IsRegular (info : FileInfo) : bool := (Z.land (fi_Mode info) ModeType =? 0)%Z.

Definition sameFileState (before after : FileInfo) : bool :=
  (fi_Device before =? fi_Device after)%Z && (fi_Inode before =? fi_Inode after)%Z &&
  (fi_Mode before =? fi_Mode after)%Z && (fi_Size before =? fi_Size after)%Z &&
  (fi_ModTime before =? fi_ModTime after)%Z.

(** The error part of a [Read]. *)
Inductive readEnd := ReadMore | ReadEOF | ReadFailed.

(** The open file, the context and the send callback.  [ContextErr] is a poll
    of [ctx.Err()]. *)
Class SourceWorld (W : Type) := {
  openSourceNoFollow : string → W → result unit unit * W;
  FileRead : W → (list Z * readEnd) * W;
  FileStat : W → result unit FileInfo * W;
  SeekStart : W → result unit unit * W;
  CloseFiles : W → result unit unit * W;
  ContextErr : W → bool * W;
  Send : Z → list Z → W → result unit unit * W
}.

Record Source := mkSource {
  src_open : bool;
  src_header : Header;
  src_info : FileInfo;
  src_used : bool
}.

(** [filepath.Base] of a path without trailing slashes other than the root's. *)
Definition Base (path : string) : string :=
  if bool_decide (path = "") then "."
  else let name := List.last (Split "/" path) "" in
       if bool_decide (name = "") then "/" else name.

Section SourceOps.
Context {W : Type} `{SourceWorld W}.

(** The read loop of [hashOpenFile]; [None] is out of fuel. *)
Fixpoint hashLoop (fuel : nat) (maximum total : Z) (hash : list Z) (w : W) :
    option (result transfer_error (list Z)) * W :=
  match fuel with
  | O => (None, w)
  | S fuel =>
      let '(cancelled, w) := ContextErr w in
      if cancelled : bool then (Some (Err ContextError), w)
      else
        let '((data, ending), w) := FileRead w in
        if (0 <? len data)%Z && (sub64 maximum total <? len data)%Z then (Some (Err SourceExceedsBound), w)
        else
          let total := add64 total (len data) in
          let hash := hash ++ data in
          match ending with
          | ReadEOF => (Some (Ok hash), w)
          | ReadFailed => (Some (Err ReadError), w)
          | ReadMore => hashLoop fuel maximum total hash w
          end
  end.

Definition hashOpenFile (fuel : nat) (maximum : Z) (w : W) : option (result transfer_error (list Z)) * W :=
  match hashLoop fuel maximum 0 [] w with
  | (Some (Ok hash), w) => (Some (Ok (sha256 hash)), w)
  | (r, w) => (r, w)
  end.

(** [OpenSource] once [filepath.Abs] answered ([None] is its error); every
    failure after the open closes both files. *)
Definition OpenSource (fuel : nat) (absolute : option string) (maximum : Z) (w : W) :
    option (result transfer_error Source) * W :=
  match absolute with
  | None => (Some (Err PathNotCanonical), w)
  | Some absolute =>
  if negb (bool_decide (Clean absolute = absolute)) then (Some (Err PathNotCanonical), w)
  else
  match openSourceNoFollow absolute w with
  | (Err _, w) => (Some (Err OpenError), w)
  | (Ok _, w) =>
  match FileStat w with
  | (Err _, w) => (Some (Err NotBoundedRegularFile), (CloseFiles w).2)
  | (Ok info, w) =>
  if negb (IsRegular info) || (fi_Size info <? 0)%Z || (maximum <? fi_Size info)%Z
  then (Some (Err NotBoundedRegularFile), (CloseFiles w).2)
  else
  match Validate (mkHeader (Base absolute) (fi_Size info) (replicate 32 0%Z) "") maximum with
  | Err e => (Some (Err e), (CloseFiles w).2)
  | Ok _ =>
  match hashOpenFile fuel maximum w with
  | (None, w) => (None, w)
  | (Some (Err e), w) => (Some (Err e), (CloseFiles w).2)
  | (Some (Ok digest), w) =>
  match FileStat w with
  | (Err _, w) => (Some (Err SourceChangedHashing), (CloseFiles w).2)
  | (Ok after, w) =>
  if negb (sameFileState info after) then (Some (Err SourceChangedHashing), (CloseFiles w).2)
  else
  match SeekStart w with
  | (Err _, w) => (Some (Err SeekError), (CloseFiles w).2)
  | (Ok _, w) => (Some (Ok (mkSource true (mkHeader (Base absolute) (fi_Size info) digest "") info false)), w)
  end end end end end end end.

(** The loop of [Stream]; [sent] collects what the callback was given. *)
Fixpoint streamLoop (fuel : nat) (size sequence total : Z) (hash : list Z) (sent : list (Z * list Z)) (w : W) :
    option (result transfer_error (Z * list Z)) * list (Z * list Z) * W :=
  match fuel with
  | O => (None, sent, w)
  | S fuel =>
      let '(cancelled, w) := ContextErr w in
      if cancelled : bool then (Some (Err ContextError), sent, w)
      else
        let '((data, ending), w) := FileRead w in
        let finish sequence total hash sent w :=
          match ending with
          | ReadEOF => (Some (Ok (total, hash)), sent, w)
          | ReadFailed => (Some (Err ReadError), sent, w)
          | ReadMore => streamLoop fuel size sequence total hash sent w
          end in
        if (0 <? len data)%Z then
          if (sub64 size total <? len data)%Z then (Some (Err SourceExceedsSize), sent, w)
          else
            let '(r, w) := Send sequence data w in
            let sent := sent ++ [(sequence, data)] in
            match r with
            | Err _ => (Some (Err SendError), sent, w)
            | Ok _ => finish (add64 sequence 1) (add64 total (len data)) (hash ++ data) sent w
            end
        else finish sequence total hash sent w
  end.

Definition Stream (fuel : nat) (source : Source) (w : W) :
    option (result transfer_error unit) * Source * list (Z * list Z) * W :=
  if negb (src_open source) || src_used source then (Some (Err StreamUnavailable), source, [], w)
  else
    let source := mkSource (src_open source) (src_header source) (src_info source) true in
    match streamLoop fuel (h_Size (src_header source)) 0 0 [] [] w with
    | (None, sent, w) => (None, source, sent, w)
    | (Some (Err e), sent, w) => (Some (Err e), source, sent, w)
    | (Some (Ok (total, hash)), sent, w) =>
        match FileStat w with
        | (Err _, w) => (Some (Err SourceChangedTransfer), source, sent, w)
        | (Ok after, w) =>
            if negb (sameFileState (src_info source) after) || negb (total =? h_Size (src_header source))%Z ||
               negb (equal (sha256 hash) (h_SHA256 (src_header source)))
            then (Some (Err SourceChangedTransfer), source, sent, w)
            else (Some (Ok tt), source, sent, w)
        end
    end.

Definition Close (source : Source) (w : W) : result unit unit * Source * W :=
  let '(r, w) := if src_open source then CloseFiles w else (Ok tt, w) in
  (r, mkSource false (src_header source) (src_info source) (src_used source), w).

End SourceOps.

(** ** Lemmas *)

Lemma mismatch_zero (l : list (Z * Z)) m :
  foldl (λ mismatch xy, Z.lor mismatch (Z.lxor xy.1 xy.2)) m l = 0%Z ↔ m = 0%Z ∧ Forall (λ xy, xy.1 = xy.2) l.
Proof.
  revert m. induction l as [|[x y] l IH]; intros m; simpl; [split; [by split; [|constructor]|by intros []]|].
  rewrite IH, Z.lor_eq_0_iff, Z.lxor_eq_0_iff, Forall_cons. simpl. tauto.
Qed.

(** The constant-time comparison decides equality. *)
Lemma equal_spec a b : equal a b = true ↔ a = b.
Proof.
  unfold equal. destruct (length a =? length b)%nat eqn:Hl; simpl.
  2:{ apply Nat.eqb_neq in Hl. split; [done|]. by intros ->. }
  apply Nat.eqb_eq in Hl. rewrite Z.eqb_eq, mismatch_zero. split.
  - intros [_ Hf]. revert b Hl Hf. induction a as [|x a IH]; intros [|y b] Hl Hf; try done.
    simpl in Hf. apply Forall_cons in Hf as [Hxy Hf]. simpl in Hxy. subst y. f_equal. apply IH; [by injection Hl|done].
  - intros ->. split; [done|]. clear Hl. induction b as [|x b IH]; simpl; constructor; done.
Qed.

Lemma Finish_ok r :
  Finish r = Ok tt ↔ rc_written r = h_Size (rc_expected r) ∧ sha256 (rc_hash r) = h_SHA256 (rc_expected r).
Proof.
  unfold Finish. rewrite <- equal_spec. destruct (rc_written r =? h_Size (rc_expected r))%Z eqn:Hs; simpl.
  - apply Z.eqb_eq in Hs. destruct (equal _ _); simpl; split; try done; by intros [].
  - apply Z.eqb_neq in Hs. split; [done|]. by intros [].
Qed.

(** The chunks with the offsets a caller counts up from [offset]. *)
Fixpoint atOffsets (offset : Z) (datas : list (list Z)) : list (Z * list Z) :=
  match datas with
  | [] => []
  | data :: rest => (offset, data) :: atOffsets (offset + len data)%Z rest
  end.

(** What an [io.Writer] promises: a nil error means everything was written. *)
Class WriterSpec (V : Type) `{Writer V} := {
  contents : V → list Z;
  Write_ok data v v' : Write data v = (Ok tt, v') → contents v' = contents v ++ data
}.

(** A receiver that counted what it wrote, for a size that leaves room for one
    more chunk in a [uint64]. *)
Record receiving (r : Receiver) : Prop := {
  rg_written : rc_written r = len (rc_hash r);
  rg_size : (len (rc_hash r) ≤ h_Size (rc_expected r))%Z;
  rg_room : (h_Size (rc_expected r) + DefaultMaxChunk < two64)%Z
}.

(** An accepted chunk was contiguous, bounded, written and hashed; this holds
    for any writer. *)
Lemma WriteChunk_accepts {V : Type} `{Writer V} r offset data (v : V) r' v' :
  receiving r → WriteChunk r offset data v = (None, r', v') →
  receiving r' ∧ offset = len (rc_hash r) ∧ rc_expected r' = rc_expected r ∧ rc_hash r' = rc_hash r ++ data ∧
  (len data ≤ DefaultMaxChunk)%Z ∧ Write data v = (Ok tt, v').
Proof.
  intros [Hw Hs Hr]. unfold WriteChunk. destruct (offset =? rc_written r)%Z eqn:Ho; simpl; [|done].
  destruct (DefaultMaxChunk <? len data)%Z eqn:Hm; [done|]. destruct (_ <? add64 _ _)%Z eqn:Ha; [done|].
  destruct (Write data v) as [[[]|e] v1] eqn:Hwr; [|done]. intros [= <- <-].
  bool_hyps. pose proof (len_nonneg (rc_hash r)). pose proof (len_nonneg data).
  rewrite Hw, add64_small in * by (unfold u64, two64 in *; lia).
  split_and!; try done. split; simpl; [by rewrite len_app|rewrite len_app; lia|done].
Qed.

Section ReceiverLemmas.
Context {V : Type} `{WriterSpec V}.

Lemma WriteChunk_ok r offset data v r' v' :
  receiving r → WriteChunk r offset data v = (None, r', v') →
  receiving r' ∧ offset = len (rc_hash r) ∧ rc_expected r' = rc_expected r ∧ rc_hash r' = rc_hash r ++ data ∧
  contents v' = contents v ++ data ∧ (len data ≤ DefaultMaxChunk)%Z.
Proof.
  intros Hr He. destruct (WriteChunk_accepts _ _ _ _ _ _ Hr He) as (? & ? & ? & ? & ? & Hw).
  split_and!; try done. by apply (Write_ok data v).
Qed.

Lemma writeChunks_ok r chunks v r' v' :
  receiving r → writeChunks r chunks v = (None, r', v') →
  receiving r' ∧ chunks = atOffsets (len (rc_hash r)) (map snd chunks) ∧ rc_expected r' = rc_expected r ∧
  rc_hash r' = rc_hash r ++ concat (map snd chunks) ∧ contents v' = contents v ++ concat (map snd chunks).
Proof.
  revert r v. induction chunks as [|[o d] chunks IH]; intros r v Hr He; simpl in He.
  { injection He as <- <-. simpl. by rewrite !app_nil_r. }
  destruct (WriteChunk r o d v) as [[[e|] r1] v1] eqn:Hw; [done|].
  destruct (WriteChunk_ok _ _ _ _ _ _ Hr Hw) as (Hr1 & -> & He1 & Hh1 & Hc1 & _).
  destruct (IH _ _ Hr1 He) as (Hr' & Hch & He' & Hh' & Hc'). simpl.
  rewrite Hh1, len_app in Hch. split_and!; [done|by rewrite <- Hch|congruence| |].
  - by rewrite Hh', Hh1, app_assoc.
  - by rewrite Hc', Hc1, app_assoc.
Qed.

(** The chunks of a stream that fits are accepted, by a writer without errors. *)
Lemma writeChunks_complete r datas v :
  receiving r → (∀ d u, ∃ u', Write d u = (Ok tt, u')) →
  Forall (λ d, len d ≤ DefaultMaxChunk)%Z datas → (len (rc_hash r) + len (concat datas) ≤ h_Size (rc_expected r))%Z →
  ∃ r' v', writeChunks r (atOffsets (len (rc_hash r)) datas) v = (None, r', v').
Proof.
  intros Hr Hwr. revert r v Hr. induction datas as [|d datas IH]; intros r v Hr Hall Hfit; simpl; [by eauto|].
  apply Forall_cons in Hall as [Hd Hall]. simpl in Hfit. rewrite len_app in Hfit.
  destruct (Hwr d v) as [v1 Hv1]. pose proof (len_nonneg (concat datas)). pose proof (len_nonneg d).
  pose proof (len_nonneg (rc_hash r)).
  assert (WriteChunk r (len (rc_hash r)) d v =
          (None, mkReceiver (rc_expected r) (add64 (rc_written r) (len d)) (rc_hash r ++ d), v1)) as Hw.
  { unfold WriteChunk. rewrite (rg_written r Hr), Z.eqb_refl. simpl.
    destruct (DefaultMaxChunk <? len d)%Z eqn:Hm; [bool_hyps; lia|].
    rewrite add64_small by (unfold u64; pose proof (rg_room r Hr); unfold DefaultMaxChunk in *; lia).
    rewrite (proj2 (Z.ltb_ge _ _)) by lia. rewrite Hv1. reflexivity. }
  rewrite Hw. destruct (WriteChunk_ok _ _ _ _ _ _ Hr Hw) as (Hr1 & _).
  destruct (IH _ v1 Hr1) as (r' & v' & He); [done|simpl; rewrite len_app; lia|].
  simpl in He. rewrite len_app in He. by exists r', v'.
Qed.

End ReceiverLemmas.

(** What [os.File.Read] promises for a non-empty buffer of [DefaultMaxChunk]
    bytes: at most that many bytes, and at least one when the error is nil. *)
Class ReadSpec (W : Type) `{SourceWorld W} := {
  Read_bound w data ending w' : FileRead w = ((data, ending), w') → (len data ≤ DefaultMaxChunk)%Z;
  Read_progress w data w' : FileRead w = ((data, ReadMore), w') → data ≠ []
}.

Section SourceLemmas.
Context {W : Type} `{ReadSpec W}.

(** Chunks numbered from zero, none of them empty or oversized. *)
Definition wellNumbered (sent : list (Z * list Z)) : Prop :=
  map fst sent = map Z.of_nat (seq 0 (length sent)) ∧
  Forall (λ c, 0 < len c.2 ≤ DefaultMaxChunk)%Z sent.

(** The state of the loop: [sequence] and [total] count what was sent. *)
Record streaming (size sequence total : Z) (hash : list Z) (sent : list (Z * list Z)) : Prop := {
  sg_sequence : sequence = len sent;
  sg_total : total = len hash;
  sg_hash : hash = concat (map snd sent);
  sg_count : (len sent ≤ len hash)%Z;
  sg_fits : (len hash ≤ size)%Z;
  sg_sent : wellNumbered sent
}.

Lemma wellNumbered_snoc sent data :
  wellNumbered sent → (0 < len data ≤ DefaultMaxChunk)%Z → wellNumbered (sent ++ [(len sent, data)]).
Proof.
  intros [Hn Hs] Hd. split.
  - rewrite map_app, length_app, Hn. simpl. rewrite seq_app, map_app. done.
  - apply Forall_app. split; [done|]. by constructor.
Qed.

Lemma streaming_send size sequence total hash sent data :
  (size < two64)%Z → streaming size sequence total hash sent → (0 < len data ≤ DefaultMaxChunk)%Z →
  (sub64 size total <? len data)%Z = false →
  streaming size (add64 sequence 1) (add64 total (len data)) (hash ++ data) (sent ++ [(sequence, data)]).
Proof.
  intros Hsz [-> -> Hh Hc Hf Hn] Hd Hb. bool_hyps. pose proof (len_nonneg hash). pose proof (len_nonneg sent).
  rewrite sub64_small in * by (unfold u64; lia). rewrite !add64_small by (unfold u64; lia).
  split; [by rewrite len_app|by rewrite len_app| | | |by apply wellNumbered_snoc].
  - rewrite map_app, concat_app, Hh. simpl. by rewrite app_nil_r.
  - rewrite !len_app. change (len [_]) with 1%Z. lia.
  - rewrite len_app. lia.
Qed.

Lemma streamLoop_ok fuel size sequence total hash sent w total' hash' sent' w' :
  (size < two64)%Z → streaming size sequence total hash sent →
  streamLoop fuel size sequence total hash sent w = (Some (Ok (total', hash')), sent', w') →
  streaming size (len sent') total' hash' sent'.
Proof.
  intros Hsz. revert sequence total hash sent w.
  induction fuel as [|fuel IH]; intros sequence total hash sent w Hs He; simpl in He; [done|].
  destruct (ContextErr w) as [[|] w1]; [done|].
  destruct (FileRead w1) as [[data ending] w2] eqn:Hr. pose proof (Read_bound _ _ _ _ Hr) as Hb.
  destruct (0 <? len data)%Z eqn:Hd; bool_hyps.
  - destruct (sub64 size total <? len data)%Z eqn:Hbig; [done|].
    destruct (Send sequence data w2) as [[[]|e] w3]; [|done].
    pose proof (streaming_send _ _ _ _ _ _ Hsz Hs (conj Hd Hb) Hbig) as Hs'.
    destruct ending; [by apply IH in He| |done].
    injection He as <- <- <- <-. by rewrite <- (sg_sequence _ _ _ _ _ Hs').
  - destruct ending; [by apply IH in He| |done]. injection He as <- <- <- <-. by rewrite <- (sg_sequence _ _ _ _ _ Hs).
Qed.

(** Every read that is not the last one brings the total closer to the size,
    so [size + 1] iterations are enough. *)
Lemma streamLoop_returns fuel size sequence total hash sent w :
  (size < two64)%Z → streaming size sequence total hash sent → (Z.to_nat (size - total) < fuel)%nat →
  (streamLoop fuel size sequence total hash sent w).1.1 ≠ None.
Proof.
  intros Hsz. revert sequence total hash sent w.
  induction fuel as [|fuel IH]; intros sequence total hash sent w Hs Hf; [lia|]. simpl.
  destruct (ContextErr w) as [[|] w1]; [done|].
  destruct (FileRead w1) as [[data ending] w2] eqn:Hr. pose proof (Read_bound _ _ _ _ Hr) as Hb.
  destruct (0 <? len data)%Z eqn:Hd; bool_hyps.
  - destruct (sub64 size total <? len data)%Z eqn:Hbig; [done|].
    destruct (Send sequence data w2) as [[[]|e] w3]; [|done]. destruct ending; [|done|done].
    pose proof (streaming_send _ _ _ _ _ _ Hsz Hs (conj Hd Hb) Hbig) as Hs'. apply IH; [done|].
    pose proof (sg_total _ _ _ _ _ Hs) as Ht. rewrite (sg_total _ _ _ _ _ Hs'), len_app.
    pose proof (sg_fits _ _ _ _ _ Hs'). rewrite len_app in *. pose proof (len_nonneg hash). lia.
  - destruct ending; [|done|done]. exfalso. apply Read_progress in Hr. destruct data; [done|].
    unfold len in Hd. simpl in Hd. lia.
Qed.

Lemma streaming_start size : (0 ≤ size)%Z → streaming size 0 0 [] [].
Proof. intros. by split. Qed.

End SourceLemmas.

(** The receiver accepts exactly the declared file.  After any chunks it
    accepted in sequence, they were contiguous from offset zero, the writer
    holds their bytes in order after what it held before, never more than the
    declared size, and [Finish] succeeds if and only if they have the declared
    size and SHA-256.  A rejected chunk leaves the receiver as it was and, unless
    the writer itself failed, has not been written. *)
Theorem receiver_exact {V : Type} `{WriterSpec V} header maxSize r0 chunks (v : V) r v' :
  NewReceiver header maxSize = Ok r0 → (0 ≤ h_Size header)%Z → (h_Size header + DefaultMaxChunk < two64)%Z →
  writeChunks r0 chunks v = (None, r, v') →
  let data := concat (map snd chunks) in
  chunks = atOffsets 0 (map snd chunks) ∧ contents v' = contents v ++ data ∧ (len data ≤ h_Size header)%Z ∧
  (Finish r = Ok tt ↔ len data = h_Size header ∧ sha256 data = h_SHA256 header) ∧
  (∀ offset chunk e r' v'', WriteChunk r offset chunk v' = (Some e, r', v'') →
     r' = r ∧ (e = WriterError ∨ v'' = v')).
Proof.
  intros Hn Hnn Hroom He data. unfold NewReceiver in Hn. destruct (Validate header maxSize); [|done]. injection Hn as <-.
  assert (receiving (mkReceiver header 0 [])) as Hr by (by split).
  destruct (writeChunks_ok _ _ _ _ _ Hr He) as ([Hw Hs Hro] & Hch & Hx & Hh & Hc). simpl in Hch, Hx, Hh.
  rewrite Finish_ok, Hw, Hx, Hh in *. split_and!; try done.
  intros offset chunk e r' v'' Hwc. unfold WriteChunk in Hwc.
  destruct (negb _); [injection Hwc as <- <- <-; by split; [|right]|].
  destruct (_ <? _)%Z; [injection Hwc as <- <- <-; by split; [|right]|].
  destruct (_ <? add64 _ _)%Z; [injection Hwc as <- <- <-; by split; [|right]|].
  destruct (Write chunk v') as [[|] v1]; [done|]. injection Hwc as <- <- <-. by split; [|left].
Qed.

(** What a source streams is what it declared, and a receiver gets it
    whole.  [Stream] returns within [size + 1] reads; if it reports success, it
    handed the callback non-empty chunks of at most the maximum size, numbered
    from zero, whose bytes have the size and SHA-256 of the header taken at
    [OpenSource]; a receiver for that header then accepts the chunks at their
    running offsets, writes exactly these bytes and finishes without error; and
    the source cannot be streamed again. *)
Theorem stream_roundtrip {W V : Type} `{ReadSpec W} `{WriterSpec V} source (w : W) fuel :
  (0 ≤ h_Size (src_header source))%Z → (h_Size (src_header source) + DefaultMaxChunk < two64)%Z →
  (Z.to_nat (h_Size (src_header source)) < fuel)%nat →
  ∃ r source' sent w', Stream fuel source w = (Some r, source', sent, w') ∧
    (r = Ok tt →
       let data := concat (map snd sent) in
       map fst sent = map Z.of_nat (seq 0 (length sent)) ∧
       Forall (λ c, 0 < len c.2 ≤ DefaultMaxChunk)%Z sent ∧
       len data = h_Size (src_header source) ∧ sha256 data = h_SHA256 (src_header source) ∧
       (∀ maxSize r0 (v : V), NewReceiver (src_header source) maxSize = Ok r0 →
          (∀ d u, ∃ u', Write (V:=V) d u = (Ok tt, u')) →
          ∃ r' v', writeChunks r0 (atOffsets 0 (map snd sent)) v = (None, r', v') ∧ Finish r' = Ok tt ∧
            contents v' = contents v ++ data) ∧
       (∀ fuel' w'', (Stream fuel' source' w'').1.1.1 = Some (Err StreamUnavailable))).
Proof.
  intros Hnn Hroom Hfuel. unfold Stream at 1.
  destruct (negb (src_open source) || src_used source); [by do 4 eexists|]. simpl.
  pose proof (streaming_start (h_Size (src_header source)) Hnn) as Hs0.
  assert (h_Size (src_header source) < two64)%Z as Hsz by (unfold DefaultMaxChunk in *; lia).
  pose proof (streamLoop_returns fuel _ _ _ _ _ w Hsz Hs0) as Hret. rewrite Z.sub_0_r in Hret.
  destruct (streamLoop fuel _ 0 0 [] [] w) as [[[[[total hash]|e]|] sent] w1] eqn:Hl;
    [|by do 4 eexists|by destruct (Hret Hfuel)].
  pose proof (streamLoop_ok _ _ _ _ _ _ _ _ _ _ _ Hsz Hs0 Hl) as Hs. clear Hret Hl.
  destruct (FileStat w1) as [[after|e] w2]; [|by do 4 eexists].
  destruct ((negb _ || _) || _) eqn:Hg; [by do 4 eexists|].
  do 4 eexists. split; [done|]. intros _. set (data := concat (map snd sent)). bool_hyps.
  destruct Hs as [_ Ht Hh _ Hf [Hnum Hall]]. rewrite Hh in *.
  assert (sha256 data = h_SHA256 (src_header source)) as Hsha by (by apply equal_spec).
  assert (len data = h_Size (src_header source)) as Hlen by (unfold data; lia).
  split_and!; try done.
  - intros maxSize r0 v Hn Hwr. unfold NewReceiver in Hn. destruct (Validate _ _); [|done]. injection Hn as <-.
    assert (receiving (mkReceiver (src_header source) 0 [])) as Hr by (by split).
    destruct (writeChunks_complete _ (map snd sent) v Hr Hwr) as (r' & v' & He).
    { rewrite Forall_map. eapply Forall_impl; [exact Hall|]. simpl. lia. }
    { simpl. fold data. rewrite Hlen. done. }
    change (len (rc_hash (mkReceiver (src_header source) 0 []))) with 0%Z in He.
    destruct (writeChunks_ok _ _ _ _ _ Hr He) as ([Hw _ _] & _ & Hx & Hh' & Hc). simpl in *.
    assert (map snd (atOffsets 0 (map snd sent)) = map snd sent) as Hsnd.
    { generalize 0%Z. generalize (map snd sent). clear. induction l as [|d l IH]; intros z; simpl; [done|]. by rewrite IH. }
    rewrite Hsnd in Hh', Hc. exists r', v'. split; [done|]. split; [|done].
    apply Finish_ok. rewrite Hw, Hx, Hh'. by split.
  - intros fuel' w''. unfold Stream. simpl. by rewrite orb_true_r.
Qed.

(** ** Witnesses: a writer that keeps what it is given, a file read in pieces *)

#[local] Instance MemWriter : Writer (list Z) := {| Write data v := (Ok tt, v ++ data) |}.

#[local] Instance MemWriterSpec : WriterSpec (list Z).
Proof. refine {| contents v := v |}. intros data v v'. simpl. by intros [= <-]. Defined.

(** The file: its remaining pieces, of which a read returns at most four bytes. *)
Definition piece (d : list Z) : list Z := take 4 d.
#[local] Arguments piece : simpl never.

Definition demoInfo : FileInfo := mkInfo 1 2 0 5 1700000000.

#[local] Instance MemFile : SourceWorld (list (list Z)) := {|
  openSourceNoFollow _ w := (Ok tt, w);
  FileRead w := match w with
                | [] => (([], ReadEOF), [])
                | d :: rest => match piece d with
                               | [] => (([], ReadEOF), rest)
                               | t => ((t, ReadMore), rest)
                               end
                end;
  FileStat w := (Ok demoInfo, w);
  SeekStart w := (Ok tt, w);
  CloseFiles w := (Ok tt, w);
  ContextErr w := (false, w);
  Send _ _ w := (Ok tt, w)
|}.

#[local] Instance MemFileSpec : ReadSpec (list (list Z)).
Proof.
  split.
  - intros [|d w] data ending w'; simpl; [by intros [= <- <- <-]|].
    assert (len (piece d) ≤ 4)%Z as Hl by (unfold len, piece; rewrite length_take; lia).
    destruct (piece d) as [|x t]; intros [= <- <- <-]; [done|]. unfold DefaultMaxChunk. lia.
  - intros [|d w] data w'; simpl; [done|]. destruct (piece d) as [|x t]; [done|]. by intros [= <- <-].
Defined.

Definition demoHeader : Header := mkHeader "note.txt" 5 (sha256 (bytesOf "hello")) "".
Definition demoChunks : list (Z * list Z) := [(0%Z, bytesOf "he"); (2%Z, bytesOf "llo")].

Lemma receiver_exact_witness :
  ∃ r, writeChunks (mkReceiver demoHeader 0 []) demoChunks [] = (None, r, bytesOf "hello") ∧ Finish r = Ok tt.
Proof.
  exists (mkReceiver demoHeader 5 (bytesOf "hello")).
  assert (writeChunks (mkReceiver demoHeader 0 []) demoChunks [] =
          (None, mkReceiver demoHeader 5 (bytesOf "hello"), bytesOf "hello")) as He by (by vm_compute).
  split; [exact He|].
  assert (NewReceiver demoHeader 100 = Ok (mkReceiver demoHeader 0 [])) as Hn by (by vm_compute).
  assert (0 ≤ h_Size demoHeader)%Z as H1 by (by vm_compute).
  assert (h_Size demoHeader + DefaultMaxChunk < two64)%Z as H2 by (by vm_compute).
  destruct (receiver_exact demoHeader 100 (mkReceiver demoHeader 0 []) demoChunks [] _ (bytesOf "hello") Hn H1 H2 He)
    as (_ & _ & _ & Hf & _).
  apply Hf. split; vm_compute; reflexivity.
Defined.

Definition demoSource : Source := mkSource true demoHeader demoInfo false.

Lemma stream_roundtrip_witness :
  ∃ source' sent w', Stream 6 demoSource [bytesOf "he"; bytesOf "llo"] = (Some (Ok tt), source', sent, w') ∧
    sha256 (concat (map snd sent)) = h_SHA256 demoHeader.
Proof.
  assert (0 ≤ h_Size (src_header demoSource))%Z as H1 by (by vm_compute).
  assert (h_Size (src_header demoSource) + DefaultMaxChunk < two64)%Z as H2 by (by vm_compute).
  assert (Z.to_nat (h_Size (src_header demoSource)) < 6)%nat as H3 by (vm_compute; lia).
  destruct (stream_roundtrip (V:=list Z) demoSource [bytesOf "he"; bytesOf "llo"] 6 H1 H2 H3)
    as (r & source' & sent & w' & He & Hok).
  assert ((Stream 6 demoSource [bytesOf "he"; bytesOf "llo"]).1.1.1 = Some (Ok tt)) as Hr by (by vm_compute).
  rewrite He in Hr. simpl in Hr. injection Hr as ->.
  exists source', sent, w'. split; [exact He|]. destruct (Hok eq_refl) as (_ & _ & _ & Hs & _). exact Hs.
Defined.
