(* ===== verification/ScanReport.v ===== *)
(** * Scanner definitions, reports and the promotion gate

    Models [src/internal/scan/definitions.go], [finding.go] and [report.go], and
    the approval checks of [src/internal/orchestrator/scanner_promotion.go]: the
    evidence that a scan ran offline with current definitions, the report that
    carries it out of the scanner, its authentication, and the source that a
    report approves for promotion.  [encoding/json] is a pair of parameters. *)

From Stdlib Require Import ZArith Lia Ascii.
From stdpp Require Import strings base tactics option relations sorting list.
From S2P Require Import Transfer.
From S2P Require Import Prelude GoText Sha256 SessionModel.

Open Scope string_scope.
Open Scope list_scope.

(** ** Values of the standard library *)

(** A [time.Time]: its instant in nanoseconds since the zero time, and the
    offset it is shown in. *)
Record Time := mkTime { t_nanos : Z; t_offset : Z }.

Definition IsZero (t : Time) : bool := (t_nanos t =? 0)%Z.
Definition After (a b : Time) : bool := (t_nanos b <? t_nanos a)%Z.
Definition AddDuration (t : Time) (d : Z) : Time := mkTime (t_nanos t + d) (t_offset t).

(** [Time.Sub] saturates at the limits of a [time.Duration]. *)
Definition Sub (a b : Time) : Z := Z.max (-9223372036854775808) (Z.min 9223372036854775807 (t_nanos a - t_nanos b)).

Definition millisecond : Z := 1000000.
Definition minute : Z := 60000000000.
Definition hour : Z := 3600000000000.

(** A slice; [None] is the nil slice, which JSON tells from an empty one. *)
Definition slice (A : Type) : Type := option (list A).
Definition elems {A} (s : slice A) : list A := default [] s.

(** NUL, CR and LF. *)
Definition breaks : string := String "000" (String "013" (String "010" EmptyString)).

(** ** Identities and findings *)

(** The code of a scan error. *)
Definition scan_error : Type := string.

Definition maximumIdentityLength : Z := 256.
Definition MaximumInventoryPathBytes : Z := 4096.
Definition DefaultMaximumDefinitionAge : Z := 24 * hour.

Definition validIdentity (value : string) : bool :=
  negb (bool_decide (value = "")) && (slen value <=? maximumIdentityLength)%Z && negb (ContainsAny value breaks).

Definition validMIME (value : string) : bool :=
  if bool_decide (value = "") || (255 <? slen value)%Z || ContainsAny value (breaks +:+ " ;") then false
  else let '(major, minor, found) := Cut "/" value in found && negb (bool_decide (major = "")) && negb (bool_decide (minor = "")).

Inductive Severity := SeverityInfo | SeverityWarning | SeverityBlocking | SeverityOther (text : string).

#[global] Instance Severity_eq_dec : EqDecision Severity.
Proof. solve_decision. Defined.

Record Finding := mkFinding {
  f_Code : string;
  f_Severity : Severity;
  f_RelativePath : string;
  f_Detail : string;
  f_Identifier : string
}.

Definition validFinding (finding : Finding) : bool :=
  validIdentity (f_Code finding) &&
  (bool_decide (f_Severity finding = SeverityInfo) || bool_decide (f_Severity finding = SeverityWarning) ||
   bool_decide (f_Severity finding = SeverityBlocking)) &&
  negb (bool_decide (f_Detail finding = "")) && (slen (f_Detail finding) <=? 1024)%Z &&
  (slen (f_RelativePath finding) <=? MaximumInventoryPathBytes)%Z &&
  (bool_decide (f_Identifier finding = "") || validIdentity (f_Identifier finding)).

(** ** Definitions and boot evidence *)

Inductive BootPhase := PhaseUpdate | PhaseOffline | PhaseOther (text : string).

#[global] Instance BootPhase_eq_dec : EqDecision BootPhase.
Proof. solve_decision. Defined.

Record DefinitionEvidence := mkEvidence {
  de_EngineVersion : string;
  de_DatabaseVersion : string;
  de_UpdatedAt : Time;
  de_Official : bool;
  de_Compatible : bool;
  de_Complete : bool
}.

Record InterfaceEvidence := mkInterface { if_Name : string; if_Loopback : bool }.

Record QuarantineEvidence := mkQuarantine { q_Attached : bool; q_ReadOnly : bool; q_MountOptions : list string }.

Record BootEvidence := mkBoot {
  b_Phase : BootPhase;
  b_OverlayIdentity : string;
  b_VPNVerified : bool;
  b_Interfaces : list InterfaceEvidence;
  b_Quarantine : QuarantineEvidence
}.

Record UpdateReceipt := mkReceipt { ur_OverlayIdentity : string; ur_Definitions : DefinitionEvidence }.

(** [ValidateCurrent] of a manager with the given clock and age. *)
Definition ValidateCurrent (now : Time) (configuredAge : Z) (evidence : DefinitionEvidence) : result scan_error unit :=
  let maximumAge := if (configuredAge =? 0)%Z then DefaultMaximumDefinitionAge else configuredAge in
  fail_if ((maximumAge <? minute) || (30 * 24 * hour <? maximumAge))%Z with "SCANNER_POLICY_INVALID" ;;
  fail_if (negb (validIdentity (de_EngineVersion evidence)) || negb (validIdentity (de_DatabaseVersion evidence)) ||
           negb (de_Complete evidence) || negb (de_Official evidence) || negb (de_Compatible evidence) ||
           IsZero (de_UpdatedAt evidence)) with "SCANNER_DEFINITIONS_INVALID" ;;
  fail_if (After (de_UpdatedAt evidence) (AddDuration now (5 * minute)) || (maximumAge <? Sub now (de_UpdatedAt evidence))%Z)
    with "SCANNER_DEFINITIONS_STALE" ;;
  Ok tt.

Definition validateUpdateBoot (boot : BootEvidence) : result scan_error unit :=
  fail_if (negb (bool_decide (b_Phase boot = PhaseUpdate))) with "SCANNER_PHASE_INVALID" ;;
  fail_if (negb (validIdentity (b_OverlayIdentity boot))) with "SCANNER_OVERLAY_INVALID" ;;
  fail_if (q_Attached (b_Quarantine boot)) with "SCANNER_UPDATE_QUARANTINE_PRESENT" ;;
  fail_if (negb (b_VPNVerified boot)) with "VPN_HANDSHAKE_FAILED" ;;
  fail_if (negb (existsb (λ i, negb (if_Loopback i)) (b_Interfaces boot))) with "SCANNER_UPDATE_NETWORK_ABSENT" ;;
  Ok tt.

(** An ended context: cancelled, or past its deadline. *)
Inductive context := Live | Cancelled | DeadlineExceeded.

Definition contextScanError (c : context) : scan_error :=
  match c with DeadlineExceeded => "SCAN_TIMEOUT" | _ => "SCAN_CANCELLED" end.

(** [Update]; [run] is the outcome of the updater, [None] its absence. *)
Definition Update (ctx : context) (boot : BootEvidence) (run : option (option DefinitionEvidence)) (now : Time) (age : Z) :
    result scan_error UpdateReceipt :=
  _ <-! validateUpdateBoot boot ;;
  match run with
  | None => Err "SCANNER_UPDATE_FAILED"
  | Some outcome =>
      match ctx with
      | Live =>
          match outcome with
          | None => Err "SCANNER_UPDATE_FAILED"
          | Some evidence => _ <-! ValidateCurrent now age evidence ;; Ok (mkReceipt (b_OverlayIdentity boot) evidence)
          end
      | ended => Err (contextScanError ended)
      end
  end.

(** [slices.Compact] after sorting keeps one of each run. *)
Fixpoint Compact (l : list string) : list string :=
  match l with
  | a :: ((b :: _) as rest) => if bool_decide (a = b) then Compact rest else a :: Compact rest
  | _ => l
  end.

Definition quarantineOptions : list string := ["nodev"; "noexec"; "nosuid"; "ro"].

Definition VerifyOfflineBoot (boot : BootEvidence) (receipt : UpdateReceipt) (now : Time) (age : Z) : result scan_error unit :=
  fail_if (negb (bool_decide (b_Phase boot = PhaseOffline))) with "SCANNER_PHASE_INVALID" ;;
  fail_if (negb (validIdentity (b_OverlayIdentity boot)) || negb (bool_decide (b_OverlayIdentity boot = ur_OverlayIdentity receipt)))
    with "SCANNER_OVERLAY_MISMATCH" ;;
  fail_if (existsb (λ i, negb (if_Loopback i)) (b_Interfaces boot)) with "SCANNER_NETWORK_PRESENT" ;;
  fail_if (negb (q_Attached (b_Quarantine boot)) || negb (q_ReadOnly (b_Quarantine boot))) with "QUARANTINE_NOT_READ_ONLY" ;;
  fail_if (negb (bool_decide (Compact (merge_sort string_le (q_MountOptions (b_Quarantine boot))) = quarantineOptions)))
    with "QUARANTINE_MOUNT_UNSAFE" ;;
  ValidateCurrent now age (ur_Definitions receipt).

(** ** Reports *)

Definition ScanReportSchemaVersion : Z := 1.
Definition MaximumScanReportBytes : Z := 4194304.
Definition ScanReportMACBytes : nat := 32.

Definition reportSessionIDPattern : string → bool := match_prefix_exact "pvm-" is_lower_hex 32.
Definition reportDigestPattern : string → bool := match_prefix_exact "" is_lower_hex 64.
Definition reportImagePattern : string → bool := match_prefix_exact "sha256:" is_lower_hex 64.
Definition reportCommitPattern : string → bool := match_prefix_exact "" is_lower_hex 40.
Definition reportOutputIDPattern : string → bool := match_prefix_exact "scan-out-" is_lower_hex 32.

Record ReportScannerIdentity := mkScanner { si_ImageDigest : string; si_SourceCommit : string; si_GuestdVersion : string }.

Record ReportDefinitions := mkReportDefinitions {
  rd_EngineVersion : string;
  rd_DatabaseVersion : string;
  rd_UpdatedAt : Time;
  rd_Official : bool;
  rd_Compatible : bool
}.

Record ReportIsolation := mkIsolation { ri_NoNetwork : bool; ri_QuarantineReadOnly : bool; ri_MountOptions : slice string }.

Record ReportPhases := mkPhases {
  DefinitionsVerified : bool;
  OfflineVerified : bool;
  InventoryComplete : bool;
  MalwareScanComplete : bool;
  ArchiveInspectionComplete : bool;
  ReconstructionComplete : bool;
  OutputRescanComplete : bool
}.

Record ReportInput := mkInput {
  in_LogicalName : string;
  in_SizeBytes : Z;
  in_SHA256 : string;
  in_DetectedMIME : string;
  in_ExtensionMIME : string;
  in_ExtensionAgreement : bool;
  in_ClamAVVerdict : string
}.

Inductive ArchiveFormat := ArchiveZIP | ArchiveTAR | ArchiveOther (text : string).

#[global] Instance ArchiveFormat_eq_dec : EqDecision ArchiveFormat.
Proof. solve_decision. Defined.

Record ReportArchive := mkReportArchive {
  ra_SourceSHA256 : string;
  ra_Format : ArchiveFormat;
  ra_Depth : Z;
  ra_EntryCount : Z;
  ra_ExpandedBytes : Z;
  ra_Complete : bool
}.

Record ReportSanitizedOutput := mkOutput {
  so_OutputID : string;
  so_LogicalName : string;
  so_SourceSHA256 : string;
  so_SizeBytes : Z;
  so_SHA256 : string;
  so_DetectedMIME : string;
  so_Transformation : string;
  so_RescanVerdict : string
}.

Record ToolEvidence := mkTool { te_Name : string; te_Version : string }.

Definition validTool (evidence : ToolEvidence) : bool := validIdentity (te_Name evidence) && validIdentity (te_Version evidence).

Record ScanReport := mkReport {
  SchemaVersion : Z;
  SessionID : string;
  Policy : string;
  StartedAt : Time;
  CompletedAt : Time;
  DurationMillis : Z;
  Scanner : ReportScannerIdentity;
  Definitions : ReportDefinitions;
  Isolation : ReportIsolation;
  Phases : ReportPhases;
  Inputs : slice ReportInput;
  Archives : slice ReportArchive;
  Findings : slice Finding;
  SanitizedOutputs : slice ReportSanitizedOutput;
  Tools : slice ToolEvidence;
  Result_ : string;
  Complete : bool
}.

(** ** Validation *)

Definition validLogicalName (value : string) : bool :=
  negb (bool_decide (value = "")) && (slen value <=? MaximumInventoryPathBytes)%Z &&
  negb (ContainsAny value (String "000" "\")) && negb (HasPrefix value "/") && bool_decide (Clean value = value) &&
  negb (bool_decide (value = ".")) && negb (bool_decide (value = "..")).

(** Each element is before the next. *)
Fixpoint strictly {A} (before : A → A → bool) (values : list A) : bool :=
  match values with
  | a :: ((b :: _) as rest) => before a b && strictly before rest
  | _ => true
  end.

Definition strictlySortedInputs : list ReportInput → bool :=
  strictly (λ a b, String.ltb (in_LogicalName a) (in_LogicalName b)).

Definition strictlySortedArchives : list ReportArchive → bool :=
  strictly (λ l r, negb (String.ltb (ra_SourceSHA256 r) (ra_SourceSHA256 l) ||
    (bool_decide (ra_SourceSHA256 l = ra_SourceSHA256 r) && (ra_Depth r <=? ra_Depth l)%Z))).

Definition findingKey (f : Finding) : string :=
  f_RelativePath f +:+ String "000" (f_Code f +:+ String "000" (f_Identifier f)).

Definition strictlySortedFindings : list Finding → bool := strictly (λ a b, String.ltb (findingKey a) (findingKey b)).
Definition strictlySortedOutputs : list ReportSanitizedOutput → bool :=
  strictly (λ a b, String.ltb (so_OutputID a) (so_OutputID b)).
Definition strictlySortedTools : list ToolEvidence → bool := strictly (λ a b, String.ltb (te_Name a) (te_Name b)).

Definition million : Z := 1000000.

Definition goodInput (input : ReportInput) : bool :=
  validLogicalName (in_LogicalName input) && negb (in_SizeBytes input =? 0)%Z && reportDigestPattern (in_SHA256 input) &&
  validMIME (in_DetectedMIME input) &&
  (bool_decide (in_ExtensionMIME input = "") || validMIME (in_ExtensionMIME input)) && validIdentity (in_ClamAVVerdict input).

Definition goodArchive (archive : ReportArchive) : bool :=
  reportDigestPattern (ra_SourceSHA256 archive) &&
  (bool_decide (ra_Format archive = ArchiveZIP) || bool_decide (ra_Format archive = ArchiveTAR)) &&
  (ra_Depth archive <=? 10)%Z && negb (ra_EntryCount archive =? 0)%Z && negb (ra_ExpandedBytes archive =? 0)%Z &&
  ra_Complete archive.

Definition goodFinding (finding : Finding) : bool :=
  validFinding finding && (bool_decide (f_RelativePath finding = "") || validLogicalName (f_RelativePath finding)).

Definition goodOutput (output : ReportSanitizedOutput) : bool :=
  reportOutputIDPattern (so_OutputID output) && validLogicalName (so_LogicalName output) &&
  reportDigestPattern (so_SourceSHA256 output) && negb (so_SizeBytes output =? 0)%Z && reportDigestPattern (so_SHA256 output) &&
  validMIME (so_DetectedMIME output) && validIdentity (so_Transformation output) &&
  bool_decide (so_RescanVerdict output = "CLAMAV_CLEAN").

(** The tools whose evidence a reconstruction needs. *)
Definition requiredTools (transformation : string) : option (list string) :=
  if bool_decide (transformation = "pdf-raster-rebuild-v1") then Some ["ghostscript"; "poppler-utils"]
  else if bool_decide (transformation = "office-render-pdf-raster-rebuild-v1") then Some ["ghostscript"; "libreoffice"; "poppler-utils"]
  else if bool_decide (transformation = "media-full-decode-aac-v1") || bool_decide (transformation = "media-full-decode-h264-aac-v1")
  then Some ["ffmpeg"]
  else if bool_decide (transformation = "image-decode-strip-reencode-png-v1") then Some ["go-image-png"]
  else if bool_decide (transformation = "text-utf8-line-normalize-v1") then Some ["private-vm-text-normalizer"]
  else None.

Definition present (tools : list ToolEvidence) (name : string) : bool := bool_decide (name ∈ map te_Name tools).

Definition toolsFor (tools : list ToolEvidence) (output : ReportSanitizedOutput) : bool :=
  match requiredTools (so_Transformation output) with Some names => forallb (present tools) names | None => false end.

Definition allPhases (p : ReportPhases) : bool :=
  DefinitionsVerified p && OfflineVerified p && InventoryComplete p && MalwareScanComplete p &&
  ArchiveInspectionComplete p && ReconstructionComplete p && OutputRescanComplete p.

Definition isBlocking (f : Finding) : bool := bool_decide (f_Severity f = SeverityBlocking).

Definition reportInvalid : scan_error := "REPORT_INCOMPLETE".

Definition validResult (r : ScanReport) : bool :=
  let blocking := existsb isBlocking (elems (Findings r)) in
  let none := isNil (elems (SanitizedOutputs r)) in
  if bool_decide (Result_ r = "approved") then
    Complete r && bool_decide (Policy r = "safe") && allPhases (Phases r) && negb blocking && negb none &&
    (Sub (CompletedAt r) (rd_UpdatedAt (Definitions r)) <=? DefaultMaximumDefinitionAge)%Z
  else if bool_decide (Result_ r = "rejected") then Complete r && allPhases (Phases r) && blocking && none
  else if bool_decide (Result_ r = "error") then negb (Complete r) && none
  else false.

Definition ValidateReport (r : ScanReport) : result scan_error unit :=
  fail_if (negb (SchemaVersion r =? ScanReportSchemaVersion)%Z || negb (reportSessionIDPattern (SessionID r)) ||
           negb (bool_decide (Policy r = "safe") || bool_decide (Policy r = "quarantine"))) with reportInvalid ;;
  fail_if (IsZero (StartedAt r) || IsZero (CompletedAt r) || negb (After (CompletedAt r) (StartedAt r)) ||
           (24 * hour <? Sub (CompletedAt r) (StartedAt r))%Z ||
           negb (Z.quot (Sub (CompletedAt r) (StartedAt r)) millisecond =? DurationMillis r)%Z) with reportInvalid ;;
  fail_if (negb (reportImagePattern (si_ImageDigest (Scanner r))) || negb (reportCommitPattern (si_SourceCommit (Scanner r))) ||
           negb (validIdentity (si_GuestdVersion (Scanner r)))) with reportInvalid ;;
  fail_if (negb (validIdentity (rd_EngineVersion (Definitions r))) || negb (validIdentity (rd_DatabaseVersion (Definitions r))) ||
           IsZero (rd_UpdatedAt (Definitions r)) || negb (rd_Official (Definitions r)) || negb (rd_Compatible (Definitions r)) ||
           After (rd_UpdatedAt (Definitions r)) (AddDuration (CompletedAt r) (5 * minute))) with reportInvalid ;;
  fail_if (negb (ri_NoNetwork (Isolation r)) || negb (ri_QuarantineReadOnly (Isolation r)) ||
           negb (bool_decide (elems (ri_MountOptions (Isolation r)) = quarantineOptions))) with reportInvalid ;;
  let inputs := elems (Inputs r) in
  fail_if (isNil inputs || (million <? len inputs)%Z || negb (strictlySortedInputs inputs)) with reportInvalid ;;
  fail_if (negb (forallb goodInput inputs)) with reportInvalid ;;
  let archives := elems (Archives r) in
  fail_if ((million <? len archives)%Z || negb (strictlySortedArchives archives)) with reportInvalid ;;
  fail_if (negb (forallb goodArchive archives)) with reportInvalid ;;
  let findings := elems (Findings r) in
  fail_if ((million <? len findings)%Z || negb (strictlySortedFindings findings)) with reportInvalid ;;
  fail_if (negb (forallb goodFinding findings)) with reportInvalid ;;
  let outputs := elems (SanitizedOutputs r) in
  fail_if ((million <? len outputs)%Z || negb (strictlySortedOutputs outputs)) with reportInvalid ;;
  fail_if (negb (forallb goodOutput outputs)) with reportInvalid ;;
  let tools := elems (Tools r) in
  fail_if (isNil tools || (256 <? len tools)%Z || negb (strictlySortedTools tools)) with reportInvalid ;;
  fail_if (negb (forallb validTool tools)) with reportInvalid ;;
  fail_if (negb (forallb (present tools) ["clamav"; "file"])) with reportInvalid ;;
  fail_if (negb (forallb (toolsFor tools) outputs)) with reportInvalid ;;
  fail_if (negb (validResult r)) with reportInvalid ;;
  Ok tt.

(** ** Authentication *)

(** The key's bytes; [None] is a missing or destroyed key. *)
Definition reportMAC (key : option (list Z)) (message : string) : result scan_error (list Z) :=
  match key with
  | None => Err "REPORT_KEY_UNAVAILABLE"
  | Some bytes =>
      fail_if (negb (length bytes =? ScanReportMACBytes)%nat) with "REPORT_KEY_UNAVAILABLE" ;;
      Ok (hmacSHA256 bytes (bytesOf message))
  end.

Record AuthenticatedReport := mkEnvelope { CanonicalJSON : string; AuthenticationTag : list Z; env_Complete : bool }.

Section Codec.

(** [json.Marshal], and a strict decoder's first value with whether anything
    but white space follows it. *)
Context (Marshal : ScanReport → option string) (DecodeStrict : string → option (ScanReport * bool)).

Definition canonicalJSON (r : ScanReport) : result scan_error string :=
  _ <-! ValidateReport r ;;
  match Marshal r with
  | None => Err "REPORT_TOO_LARGE"
  | Some encoded => fail_if (MaximumScanReportBytes <? slen encoded)%Z with "REPORT_TOO_LARGE" ;; Ok encoded
  end.

Definition SignReport (r : ScanReport) (key : option (list Z)) : result scan_error AuthenticatedReport :=
  canonical <-! canonicalJSON r ;;
  tag <-! reportMAC key canonical ;;
  Ok (mkEnvelope canonical tag (Complete r)).

Definition decodeCanonicalReport (encoded : string) : result scan_error ScanReport :=
  match DecodeStrict encoded with
  | None => Err reportInvalid
  | Some (r, trailing) =>
      fail_if trailing with reportInvalid ;;
      _ <-! ValidateReport r ;;
      fail_if (negb (bool_decide (Marshal r = Some encoded))) with reportInvalid ;;
      Ok r
  end.

Definition VerifyReport (envelope : AuthenticatedReport) (key : option (list Z)) : result scan_error ScanReport :=
  fail_if ((slen (CanonicalJSON envelope) =? 0)%Z || (MaximumScanReportBytes <? slen (CanonicalJSON envelope))%Z ||
           negb (length (AuthenticationTag envelope) =? ScanReportMACBytes)%nat) with "REPORT_AUTHENTICATION_FAILED" ;;
  expected <-! reportMAC key (CanonicalJSON envelope) ;;
  fail_if (negb (bool_decide (expected = AuthenticationTag envelope))) with "REPORT_AUTHENTICATION_FAILED" ;;
  r <-! decodeCanonicalReport (CanonicalJSON envelope) ;;
  fail_if (negb (Bool.eqb (Complete r) (env_Complete envelope))) with "REPORT_AUTHENTICATION_FAILED" ;;
  Ok r.

Definition VerifyApproval (envelope : AuthenticatedReport) (key : option (list Z)) : result scan_error ScanReport :=
  r <-! VerifyReport envelope key ;;
  fail_if (negb (Complete r) || negb (bool_decide (Result_ r = "approved"))) with "REPORT_INCOMPLETE" ;;
  Ok r.

End Codec.

(** ** The promotion gate *)

(** [hex.DecodeString] *)
Definition hexValue (c : ascii) : option Z :=
  if is_digit c then Some (Z.of_N (code c - 48))
  else if between "a" "f" c then Some (Z.of_N (code c - 87))
  else if between "A" "F" c then Some (Z.of_N (code c - 55))
  else None.

Fixpoint hexDecode (s : string) : option (list Z) :=
  match s with
  | EmptyString => Some []
  | String a (String b rest) =>
      x ← hexValue a; y ← hexValue b; bytes ← hexDecode rest; Some (16 * x + y :: bytes)%Z
  | _ => None
  end.

Inductive promotion_error := ErrScannerPromotionPending | ErrWorkspaceTransfer.

Record approvedSource := mkSource { as_output : ReportSanitizedOutput; as_header : Header }.

Definition promotionLimit : Z := 8589934592.

(** [newApprovedScannerWorkspaceSource], but for the random transfer identifier. *)
Definition newApprovedScannerWorkspaceSource (scannerID : string) (r : ScanReport) : result promotion_error approvedSource :=
  match ValidateReport r, elems (SanitizedOutputs r) with
  | Ok _, [output] =>
      fail_if (negb (Complete r) || negb (bool_decide (Result_ r = "approved")) || negb (bool_decide (Policy r = "safe")) ||
               negb (bool_decide (SessionID r = scannerID))) with ErrWorkspaceTransfer ;;
      match hexDecode (so_SHA256 output) with
      | None => Err ErrWorkspaceTransfer
      | Some digest =>
          fail_if (negb (length digest =? 32)%nat) with ErrWorkspaceTransfer ;;
          let header := mkHeader (so_LogicalName output) (so_SizeBytes output) digest (so_DetectedMIME output) in
          fail_if (bool_decide (so_OutputID output = "") || negb (is_Ok (Transfer.Validate header promotionLimit)))
            with ErrWorkspaceTransfer ;;
          Ok (mkSource output header)
      end
  | _, _ => Err ErrWorkspaceTransfer
  end.

(** The checks of [Promote] before the relay starts. *)
Definition promotionSource (scanner workstation : Snapshot) (destination : string) (r : ScanReport) :
    result promotion_error approvedSource :=
  fail_if (negb (bool_decide (destination = "workstation")) || negb (bool_decide (snap_Role scanner = RoleScanner)) ||
           negb (bool_decide (snap_Phase scanner = PhaseActive)) || negb (bool_decide (snap_WorkflowState scanner = "REPORT_COMPLETE")) ||
           negb (bool_decide (snap_Role workstation = RoleWorkstation)) || negb (bool_decide (snap_Phase workstation = PhaseActive)) ||
           negb (bool_decide (snap_WorkflowState workstation = "WORKING")) ||
           negb (snap_OwnerUID workstation =? snap_OwnerUID scanner)%Z || bool_decide (snap_ID workstation = snap_ID scanner) ||
           negb (snap_CreatedAt scanner <? snap_CreatedAt workstation)%Z) with ErrScannerPromotionPending ;;
  newApprovedScannerWorkspaceSource (snap_ID scanner) r.

(** ** What validation means *)

Lemma string_ltb_compare a b : String.ltb a b = true ↔ String.compare a b = Lt.
Proof. unfold String.ltb. by destruct (String.compare a b). Qed.

Lemma string_compare_self a : String.compare a a = Eq.
Proof. pose proof (String.compare_antisym a a) as H. by destruct (String.compare a a). Qed.

Lemma string_lt_trans a b c : String.compare a b = Lt → String.compare b c = Lt → String.compare a c = Lt.
Proof.
  intros H1 H2. pose proof (string_compare_trans a b c) as Ht. rewrite H1, H2 in Ht.
  destruct (String.compare a c) eqn:E; [|done|by destruct Ht].
  apply String.compare_eq_iff in E as ->. rewrite String.compare_antisym, H2 in H1. done.
Qed.

(** A strictly sorted list has distinct keys. *)
Lemma strictly_cons {A} (key : A → string) a l :
  strictly (λ a b, String.ltb (key a) (key b)) (a :: l) = true →
  strictly (λ a b, String.ltb (key a) (key b)) l = true ∧ Forall (λ b, String.compare (key a) (key b) = Lt) l.
Proof.
  revert a. induction l as [|b l IH]; intros a; [by repeat constructor|]. cbn [strictly]. intros [Hab Hl]%andb_true_iff.
  split; [done|]. apply string_ltb_compare in Hab. constructor; [done|]. apply IH in Hl as [_ Hb].
  eapply Forall_impl; [exact Hb|]. intros c. by apply string_lt_trans.
Qed.

Lemma strictly_NoDup {A} (key : A → string) l : strictly (λ a b, String.ltb (key a) (key b)) l = true → NoDup (map key l).
Proof.
  induction l as [|a l IH]; [constructor|]. intros [Hl Ha]%strictly_cons. cbn [map]. constructor; [|auto].
  intros (c & Hc & Hin)%list_elem_of_fmap. rewrite Forall_forall in Ha. specialize (Ha c Hin).
  by rewrite Hc, string_compare_self in Ha.
Qed.

(** The checks of [ValidateReport], one by one. *)
Record checked (r : ScanReport) : Prop := {
  ck_policy : Policy r = "safe" ∨ Policy r = "quarantine";
  ck_session : reportSessionIDPattern (SessionID r) = true;
  ck_order : (t_nanos (StartedAt r) < t_nanos (CompletedAt r) ≤ t_nanos (StartedAt r) + 24 * hour)%Z;
  ck_duration : DurationMillis r = Z.quot (t_nanos (CompletedAt r) - t_nanos (StartedAt r)) millisecond;
  ck_definitions : rd_Official (Definitions r) = true ∧ rd_Compatible (Definitions r) = true ∧
    (t_nanos (rd_UpdatedAt (Definitions r)) ≤ t_nanos (CompletedAt r) + 5 * minute)%Z;
  ck_isolation : ri_NoNetwork (Isolation r) = true ∧ ri_QuarantineReadOnly (Isolation r) = true ∧
    elems (ri_MountOptions (Isolation r)) = quarantineOptions;
  ck_inputs : elems (Inputs r) ≠ [] ∧ NoDup (map in_LogicalName (elems (Inputs r))) ∧
    Forall (λ i, goodInput i = true) (elems (Inputs r));
  ck_archives : Forall (λ a, goodArchive a = true) (elems (Archives r));
  ck_findings : NoDup (map findingKey (elems (Findings r))) ∧ Forall (λ f, goodFinding f = true) (elems (Findings r));
  ck_outputs : NoDup (map so_OutputID (elems (SanitizedOutputs r))) ∧
    Forall (λ o, goodOutput o = true ∧ toolsFor (elems (Tools r)) o = true) (elems (SanitizedOutputs r));
  ck_tools : NoDup (map te_Name (elems (Tools r))) ∧ Forall (λ t, validTool t = true) (elems (Tools r)) ∧
    "clamav" ∈ map te_Name (elems (Tools r)) ∧ "file" ∈ map te_Name (elems (Tools r));
  ck_result : validResult r = true
}.

Lemma forallb_Forall_true {A} (f : A → bool) l : forallb f l = true → Forall (λ a, f a = true) l.
Proof. induction l as [|a l IH]; [constructor|]. cbn. intros [? ?]%andb_true_iff. constructor; auto. Qed.

Lemma isNil_false {A} (l : list A) : isNil l = false → l ≠ [].
Proof. by destruct l. Qed.

Lemma ValidateReport_checked r : ValidateReport r = Ok tt → checked r.
Proof.
  unfold ValidateReport. cbv zeta. intros H.
  pass_guards H. clear H.
  bool_hyps. repeat match goal with E : forallb _ _ = true |- _ => apply forallb_Forall_true in E end.
  unfold After, AddDuration in *. cbn [t_nanos] in *. bool_hyps.
  assert (Sub (CompletedAt r) (StartedAt r) = t_nanos (CompletedAt r) - t_nanos (StartedAt r))%Z as Esub.
  { unfold Sub, hour in *. lia. }
  rewrite Esub in *.
  match goal with E : bool_decide _ || bool_decide _ = true |- _ => apply orb_true_iff in E; rewrite !bool_decide_eq_true in E end.
  match goal with E : Forall _ ["clamav"; "file"] |- _ => rewrite !Forall_cons in E; destruct E as (? & ? & _) end.
  unfold present in *. bool_hyps.
  split; split_and?; try done; try lia; auto using strictly_NoDup, isNil_false. by apply Forall_and.
Qed.

(** What a report that carries promotable output proves. *)
Record promotable (r : ScanReport) : Prop := {
  pm_result : Result_ r = "approved";
  pm_complete : Complete r = true;
  pm_policy : Policy r = "safe";
  pm_phases : allPhases (Phases r) = true;
  pm_findings : Forall (λ f, f_Severity f ≠ SeverityBlocking) (elems (Findings r));
  pm_outputs : elems (SanitizedOutputs r) ≠ [];
  pm_fresh : (t_nanos (CompletedAt r) - t_nanos (rd_UpdatedAt (Definitions r)) ≤ DefaultMaximumDefinitionAge)%Z;
  pm_checked : checked r
}.

Lemma no_blocking l : existsb isBlocking l = false → Forall (λ f, f_Severity f ≠ SeverityBlocking) l.
Proof.
  intros H. apply Forall_forall. intros f Hf Hb. assert (existsb isBlocking l = true); [|congruence].
  apply existsb_exists. exists f. split; [by apply list_elem_of_In|]. unfold isBlocking. by rewrite bool_decide_eq_true.
Qed.

Lemma checked_promotable r : checked r → elems (SanitizedOutputs r) ≠ [] ∨ Result_ r = "approved" → promotable r.
Proof.
  intros Hc Hor. pose proof (ck_result r Hc) as Hv. unfold validResult in Hv. cbv zeta in Hv.
  destruct (bool_decide (Result_ r = "approved")) eqn:E1.
  - bool_hyps. split; auto using no_blocking, isNil_false. unfold Sub in *. unfold DefaultMaximumDefinitionAge, hour in *. lia.
  - apply bool_decide_eq_false in E1. destruct Hor as [Hne|Ha]; [|done]. exfalso.
    assert (isNil (elems (SanitizedOutputs r)) = true) as Hn; [|by destruct (elems (SanitizedOutputs r))].
    destruct (bool_decide (Result_ r = "rejected")); [by bool_hyps|].
    destruct (bool_decide (Result_ r = "error")); [by bool_hyps|done].
Qed.

Section Gate.
Context (Marshal : ScanReport → option string) (DecodeStrict : string → option (ScanReport * bool)).

(** A valid report is exactly what its envelope decodes to. *)
Lemma decodeCanonicalReport_iff encoded r :
  decodeCanonicalReport Marshal DecodeStrict encoded = Ok r ↔
  DecodeStrict encoded = Some (r, false) ∧ ValidateReport r = Ok tt ∧ Marshal r = Some encoded.
Proof.
  unfold decodeCanonicalReport. destruct (DecodeStrict encoded) as [[r' trailing]|]; [|naive_solver].
  destruct trailing; [naive_solver|]. split.
  - destruct (ValidateReport r') as [[]|] eqn:Ev; [|done].
    destruct (bool_decide (Marshal r' = Some encoded)) eqn:Em; [|done]. intros [= <-]. by apply bool_decide_eq_true in Em.
  - intros ([= ->] & Hv & Hm). rewrite Hv. by rewrite bool_decide_eq_true_2.
Qed.

Lemma SignReport_iff r key envelope :
  SignReport Marshal r key = Ok envelope ↔
  ValidateReport r = Ok tt ∧ Marshal r = Some (CanonicalJSON envelope) ∧ (slen (CanonicalJSON envelope) ≤ MaximumScanReportBytes)%Z ∧
  reportMAC key (CanonicalJSON envelope) = Ok (AuthenticationTag envelope) ∧ env_Complete envelope = Complete r.
Proof.
  unfold SignReport, canonicalJSON. destruct (ValidateReport r) as [[]|]; [|naive_solver]. destruct (Marshal r) as [j|]; [|naive_solver].
  split.
  - destruct (_ <? _)%Z eqn:El; [done|]. destruct (reportMAC key j) as [tag|] eqn:Em; [|done]. intros [= <-]. bool_hyps. done.
  - intros (_ & [= ->] & Hl & Hm & Hc). destruct (_ <? _)%Z eqn:El; [apply Z.ltb_lt in El; lia|]. rewrite Hm, <- Hc. by destruct envelope.
Qed.

Lemma reportMAC_length key message tag : reportMAC key message = Ok tag → length tag = ScanReportMACBytes.
Proof. unfold reportMAC. destruct key as [bytes|]; [|done]. destruct (negb _); [done|]. intros [= <-]. apply sha256_length. Qed.

Lemma VerifyReport_iff envelope key r :
  VerifyReport Marshal DecodeStrict envelope key = Ok r ↔
  SignReport Marshal r key = Ok envelope ∧ CanonicalJSON envelope ≠ "" ∧ DecodeStrict (CanonicalJSON envelope) = Some (r, false).
Proof.
  rewrite SignReport_iff. unfold VerifyReport. split.
  - destruct (_ || _) eqn:Eg; [done|]. bool_hyps. destruct (reportMAC _ _) as [tag|] eqn:Em; [|done].
    destruct (bool_decide (tag = _)) eqn:Et; [|done]. bool_hyps. subst tag.
    destruct (decodeCanonicalReport _ _ _) as [r'|] eqn:Ed; [|done]. apply decodeCanonicalReport_iff in Ed as (Hd & Hv & Hj).
    destruct (Bool.eqb _ _) eqn:Eb; [|done]. apply Bool.eqb_prop in Eb. intros [= ->]. split_and!; try done.
    intros E0. rewrite E0 in *. done.
  - intros ((Hv & Hm & Hl & Ht & Hc) & Hne & Hd). rewrite (proj2 (decodeCanonicalReport_iff _ _) (conj Hd (conj Hv Hm))).
    rewrite Ht, Hc, bool_decide_eq_true_2, Bool.eqb_reflx by done. rewrite (reportMAC_length _ _ _ Ht), Nat.eqb_refl.
    destruct (_ || _) eqn:Eg; [|done]. rewrite orb_false_r in Eg. apply orb_true_iff in Eg as [E0|E0]; bool_hyps; [|lia].
    destruct (CanonicalJSON envelope); [done|]. unfold slen in E0. cbn in E0. lia.
Qed.

(** C17: the promotion gate accepts exactly what the scanner signs: an envelope
    verifies to a report as an approval if and only if signing that report with
    the session's key yields this very envelope, byte for byte and tag for tag,
    the report's result is approved, and the envelope decodes to the report
    with nothing after it. *)
Theorem promotion_gate_exact envelope key r :
  VerifyApproval Marshal DecodeStrict envelope key = Ok r ↔
  SignReport Marshal r key = Ok envelope ∧ Result_ r = "approved" ∧
  CanonicalJSON envelope ≠ "" ∧ DecodeStrict (CanonicalJSON envelope) = Some (r, false).
Proof.
  assert (VerifyApproval Marshal DecodeStrict envelope key = Ok r ↔
    VerifyReport Marshal DecodeStrict envelope key = Ok r ∧ Complete r = true ∧ Result_ r = "approved") as ->.
  { unfold VerifyApproval. destruct (VerifyReport _ _ _ _) as [r'|]; [|naive_solver].
    destruct (_ || _) eqn:Eg; split; try done.
    - intros ([= ->] & Hc & Hr). rewrite Hc, bool_decide_eq_true_2 in Eg by done. done.
    - intros [= ->]. by bool_hyps.
    - by intros ([= ->] & _). }
  rewrite VerifyReport_iff. split; [naive_solver|]. intros (Hs & Hr & Hj & Hd). split; [done|]. split; [|done].
  apply SignReport_iff in Hs as (Hv & _). apply ValidateReport_checked in Hv. by apply checked_promotable; [|right].
Qed.

End Gate.

(** ** The promoted file *)

Lemma lower_hex_value c : is_lower_hex c = true → ∃ v, hexValue c = Some v ∧ (0 ≤ v < 16)%Z ∧ hexDigit (Z.to_N v) = c.
Proof.
  intros H. assert (match hexValue c with
    | Some v => (0 <=? v)%Z && (v <? 16)%Z && char_eqb (hexDigit (Z.to_N v)) c | None => false end = true) as E.
  { destruct c as [[] [] [] [] [] [] [] []]; vm_compute in H |- *; congruence. }
  destruct (hexValue c) as [v|]; [|done]. unfold char_eqb in E. bool_hyps. eauto.
Qed.

Lemma hexDecode_text s bytes :
  string_forallb is_lower_hex s = true → hexDecode s = Some bytes → hexEncode (textOf bytes) = s.
Proof.
  revert bytes. induction s as [s IH] using (induction_ltof1 _ String.length). intros bytes Hs.
  destruct s as [|a [|b rest]]; [by intros [= <-]|done|]. cbn [hexDecode]. cbn [string_forallb] in Hs.
  apply andb_true_iff in Hs as [Ha Hs]. apply andb_true_iff in Hs as [Hb Hs].
  destruct (lower_hex_value a Ha) as (x & -> & Hx & Ea). destruct (lower_hex_value b Hb) as (y & -> & Hy & Eb).
  cbn [mbind option_bind]. destruct (hexDecode rest) as [tail|] eqn:Et; [|done]. cbn [mbind option_bind]. intros [= <-].
  unfold textOf. cbn [map String.string_of_list_ascii hexEncode]. fold (textOf tail).
  rewrite (IH rest) with (bytes := tail); [|unfold ltof; cbn; lia|done|done].
  unfold code. rewrite N_ascii_embedding by lia.
  replace (Z.to_N (16 * x + y) / 16)%N with (Z.to_N x) by (rewrite <- (Z2N.inj_div _ 16) by lia; f_equal; Z.div_mod_to_equations; lia).
  replace (Z.to_N (16 * x + y) mod 16)%N with (Z.to_N y) by (rewrite <- (Z2N.inj_mod _ 16) by lia; f_equal; Z.div_mod_to_equations; lia).
  by rewrite Ea, Eb.
Qed.

(** The sessions a promotion joins. *)
Record promotionEnds (scanner workstation : Snapshot) : Prop := {
  pe_scanner : snap_Role scanner = RoleScanner ∧ snap_Phase scanner = PhaseActive ∧ snap_WorkflowState scanner = "REPORT_COMPLETE";
  pe_workstation : snap_Role workstation = RoleWorkstation ∧ snap_Phase workstation = PhaseActive ∧
    snap_WorkflowState workstation = "WORKING";
  pe_owner : snap_OwnerUID workstation = snap_OwnerUID scanner;
  pe_fresh : snap_ID workstation ≠ snap_ID scanner ∧ (snap_CreatedAt scanner < snap_CreatedAt workstation)%Z
}.

Lemma promotionSource_ends scanner workstation destination r src :
  promotionSource scanner workstation destination r = Ok src →
  promotionEnds scanner workstation ∧ newApprovedScannerWorkspaceSource (snap_ID scanner) r = Ok src.
Proof. unfold promotionSource. destruct (_ || _) eqn:Eg; [done|]. bool_hyps. intros Hsrc. split; [|done]. by split. Qed.

Lemma newApprovedSource_spec scannerID r src :
  newApprovedScannerWorkspaceSource scannerID r = Ok src →
  ValidateReport r = Ok tt ∧ SessionID r = scannerID ∧ elems (SanitizedOutputs r) = [as_output src] ∧
  ∃ digest, hexDecode (so_SHA256 (as_output src)) = Some digest ∧ length digest = 32%nat ∧
    as_header src = mkHeader (so_LogicalName (as_output src)) (so_SizeBytes (as_output src)) digest (so_DetectedMIME (as_output src)) ∧
    Transfer.Validate (as_header src) promotionLimit = Ok tt.
Proof.
  unfold newApprovedScannerWorkspaceSource. destruct (ValidateReport r) as [[]|]; [|done].
  destruct (elems (SanitizedOutputs r)) as [|output [|]]; [done| |done]. destruct (_ || _) eqn:Eg; [done|].
  destruct (hexDecode _) as [digest|] eqn:Eh; [|done]. destruct (negb (_ =? _)%nat) eqn:El; [done|].
  destruct (bool_decide (so_OutputID output = "") || _) eqn:Ev; [done|]. intros [= <-]. cbn [as_output as_header].
  bool_hyps. destruct (Transfer.Validate _ _) as [[]|] eqn:Et; [|done]. eauto 10.
Qed.

(** A header's name is one element below any directory. *)
Lemma header_name_inside h maxSize : Transfer.Validate h maxSize = Ok tt →
  plainElement (h_Name h) ∧ (h_Size h ≤ maxSize)%Z ∧
  ∀ dir, cleanElements true (Split "/" (dir +:+ String "/" (h_Name h))) = cleanElements true (Split "/" dir) ++ [h_Name h].
Proof.
  unfold Transfer.Validate. destruct (_ || _) eqn:Eg; [done|]. destruct (hasControl _); [done|]. destruct (_ <? _)%Z eqn:El; [done|].
  intros _. bool_hyps. assert (plainElement (h_Name h)) as Hp by done. split_and!; [done|done|]. intros dir.
  rewrite Split_app, (Split_none "/" (h_Name h)) by (eapply ContainsAny_noByte; [eassumption|done]).
  apply clean_below. by constructor.
Qed.

(** C18: a file is promoted to a workstation only on a complete proof: the
    scanner and the fresh workstation are active sessions of one owner, the
    report is this scanner's, approved under the safe policy with every phase
    complete, no blocking finding and definitions at most a day old; the single
    output was rescanned clean by evidenced tools; and the transfer is bound to
    the output's size and digest, under a name that is one path element below
    whatever directory receives it. *)
Theorem promotion_is_proved scanner workstation destination r src :
  promotionSource scanner workstation destination r = Ok src →
  promotionEnds scanner workstation ∧ promotable r ∧ SessionID r = snap_ID scanner ∧
  elems (SanitizedOutputs r) = [as_output src] ∧
  so_RescanVerdict (as_output src) = "CLAMAV_CLEAN" ∧ toolsFor (elems (Tools r)) (as_output src) = true ∧
  h_Size (as_header src) = so_SizeBytes (as_output src) ∧ (h_Size (as_header src) ≤ promotionLimit)%Z ∧
  hexEncode (textOf (h_SHA256 (as_header src))) = so_SHA256 (as_output src) ∧
  h_Name (as_header src) = so_LogicalName (as_output src) ∧
  ∀ dir, cleanElements true (Split "/" (dir +:+ String "/" (h_Name (as_header src)))) =
    cleanElements true (Split "/" dir) ++ [h_Name (as_header src)].
Proof.
  intros [He Hs]%promotionSource_ends. apply newApprovedSource_spec in Hs as (Hv & Hid & Hout & digest & Hd & _ & Hh & Ht).
  apply ValidateReport_checked in Hv. pose proof (header_name_inside _ _ Ht) as (_ & Hsize & Hdir).
  assert (promotable r) as Hp by (apply checked_promotable; [done|left; by rewrite Hout]).
  pose proof (ck_outputs r Hv) as [_ Ho]. rewrite Hout in Ho. apply Forall_singleton in Ho as [Hg Htools].
  unfold goodOutput in Hg. bool_hyps. unfold reportDigestPattern, match_prefix_exact in *. bool_hyps. cbn [drop_string String.length] in *.
  split_and!; try done; try (by rewrite Hh). rewrite Hh. cbn [h_SHA256]. by apply hexDecode_text.
Qed.

(** Quarantined content and a network are never present in one boot: the update
    boot has a verified tunnel and no quarantine, the scan boot of the same
    overlay has only loopback interfaces and the quarantine read-only, and its
    definitions are within their age. *)
Theorem quarantine_never_online ctx update run now age receipt offline now' age' :
  Update ctx update run now age = Ok receipt → VerifyOfflineBoot offline receipt now' age' = Ok tt →
  b_OverlayIdentity offline = b_OverlayIdentity update ∧
  (b_VPNVerified update = true ∧ q_Attached (b_Quarantine update) = false) ∧
  Forall (λ i, if_Loopback i = true) (b_Interfaces offline) ∧
  q_ReadOnly (b_Quarantine offline) = true ∧
  Compact (merge_sort string_le (q_MountOptions (b_Quarantine offline))) = quarantineOptions ∧
  de_Official (ur_Definitions receipt) = true ∧ de_Complete (ur_Definitions receipt) = true.
Proof.
  unfold Update. destruct (validateUpdateBoot update) as [[]|] eqn:Hb; [|done]. destruct run as [[evidence|]|]; [|by destruct ctx|done].
  destruct ctx; [|done|done]. destruct (ValidateCurrent now age evidence); [|done]. intros [= <-]. revert Hb. unfold validateUpdateBoot.
  intros Hb. pass_guards Hb.
  unfold VerifyOfflineBoot, ValidateCurrent. cbv zeta. cbn [ur_OverlayIdentity ur_Definitions]. intros Ho.
  pass_guards Ho. bool_hyps.
  split_and!; try done. apply Forall_forall. intros i Hi. apply list_elem_of_In in Hi.
  match goal with E : existsb _ (b_Interfaces offline) = false |- _ =>
    destruct (if_Loopback i) eqn:Ei; [done|]; rewrite (proj2 (existsb_exists _ _)) in E; [done|] end.
  exists i. by rewrite Ei.
Qed.

(** ** A promoted report *)

Definition digestA := "e3b0c44298fc1c149afbf4c8996fb92427ae41e4649b934ca495991b7852b855".
Definition digestB := "ba7816bf8f01cfea414140de5dae2223b00361a396177a9cb410ff61f20015ad".

Definition demoOutput (name source : string) : ReportSanitizedOutput :=
  mkOutput "scan-out-00112233445566778899aabbccddeeff" name source 120 digestB "text/plain" "text-utf8-line-normalize-v1" "CLAMAV_CLEAN".

Definition demoReport (name source : string) : ScanReport :=
  mkReport 1 "pvm-00112233445566778899aabbccddeeff" "safe" (mkTime 1000000000000 0) (mkTime 1002000000000 0) 2000
    (mkScanner ("sha256:" +:+ digestA) "0123456789abcdef0123456789abcdef01234567" "guestd 1.0")
    (mkReportDefinitions "1.4.1" "27300" (mkTime 999000000000 0) true true)
    (mkIsolation true true (Some quarantineOptions))
    (mkPhases true true true true true true true)
    (Some [mkInput "notes.txt" 130 digestA "text/plain" "text/plain" true "CLAMAV_CLEAN"]) None None
    (Some [demoOutput name source])
    (Some [mkTool "clamav" "1.4.1"; mkTool "file" "5.45"; mkTool "private-vm-text-normalizer" "1"])
    "approved" true.

Definition demoEnd (role : Role) (id workflow : string) (created : Z) : Snapshot :=
  mkSnapshot 1 id 1000 role PhaseActive workflow 9 created created [].

Definition demoScanner := demoEnd RoleScanner "pvm-00112233445566778899aabbccddeeff" "REPORT_COMPLETE" 5.
Definition demoWorkstation := demoEnd RoleWorkstation "pvm-ffeeddccbbaa99887766554433221100" "WORKING" 6.

Lemma promotion_is_proved_witness :
  ∃ src, promotionSource demoScanner demoWorkstation "workstation" (demoReport "notes.txt" digestA) = Ok src ∧
    promotable (demoReport "notes.txt" digestA) ∧ hexEncode (textOf (h_SHA256 (as_header src))) = digestB.
Proof.
  assert (∃ src, promotionSource demoScanner demoWorkstation "workstation" (demoReport "notes.txt" digestA) = Ok src ∧
    so_SHA256 (as_output src) = digestB) as (src & Hs & Hd) by (eexists; split; [vm_compute; reflexivity|reflexivity]).
  exists src. split; [exact Hs|]. destruct (promotion_is_proved _ _ _ _ _ Hs) as (_ & Hp & _ & _ & _ & _ & _ & _ & He & _).
  split; [exact Hp|]. rewrite <- Hd. exact He.
Defined.

(** The gate opens for a signed report, and not for another key. *)
Example promotion_gate_example :
  let r := demoReport "notes.txt" digestA in
  let Marshal := λ _ : ScanReport, Some "{}" in
  let DecodeStrict := λ _ : string, Some (r, false) in
  let key := Some (replicate 32 7%Z) in
  match SignReport Marshal r key with
  | Ok envelope => VerifyApproval Marshal DecodeStrict envelope key = Ok r ∧
      VerifyApproval Marshal DecodeStrict envelope (Some (replicate 32 8%Z)) = Err "REPORT_AUTHENTICATION_FAILED"
  | Err _ => False
  end.
Proof. vm_compute. split; reflexivity. Qed.

(** The validator does not tie an output to an input: the hash of the source of
    an output need not be that of any scanned input. *)
Theorem output_source_unchecked :
  ValidateReport (demoReport "notes.txt" digestB) = Ok tt ∧ digestB ∉ map in_SHA256 (elems (Inputs (demoReport "notes.txt" digestB))).
Proof. split; [vm_compute; reflexivity|]. apply (bool_decide_unpack _). vm_compute. exact I. Qed.

(** A logical name may leave its directory: cleaning keeps leading parent
    references, and only a name that is one is refused. *)
Theorem parent_names_pass_validation :
  validLogicalName "../evil.txt" = true ∧ ValidateReport (demoReport "../evil.txt" digestA) = Ok tt ∧
  promotionSource demoScanner demoWorkstation "workstation" (demoReport "../evil.txt" digestA) = Err ErrWorkspaceTransfer.
Proof. split_and!; vm_compute; reflexivity. Qed.
