(* ===== verification/ScanPolicy.v ===== *)
(** * The content policy

    Models [src/internal/policy/decision.go] and [loader.go]: the policy file's
    strict loader with its migrations, the bounds and the mandatory rules of a
    policy, and the approval of a scan summary.  The TOML library is a record of
    parameters; a decoded document is a tree of tables, arrays and integers.
    A float64 is the standard library's [spec_float] with binary64's precision. *)

From Stdlib Require Import ZArith Lia Ascii.
From Stdlib Require Import Floats.SpecFloat.
From stdpp Require Import strings base tactics option list.
From S2P Require Import Prelude GoText.

Open Scope string_scope.
Open Scope list_scope.

(** ** Binary64 *)

Definition float64 (v : Z) : spec_float := binary_normalize 53 1024 v 0 false.
Definition divide (a b : spec_float) : spec_float := SFdiv 53 1024 a b.
Definition less (a b : spec_float) : bool := SFltb a b.
Definition IsNaN (f : spec_float) : bool := match f with S754_nan => true | _ => false end.
Definition IsInf (f : spec_float) : bool := match f with S754_infinity _ => true | _ => false end.

(** ** Decisions *)

Inductive FindingSeverity := Info | Warning | Blocking | OtherSeverity (text : string).

#[global] Instance FindingSeverity_eq_dec : EqDecision FindingSeverity.
Proof. solve_decision. Defined.

Record PolicyFinding := mkPolicyFinding { pf_Code : string; pf_Path : string; pf_Severity : FindingSeverity; pf_Detail : string }.

Record ScanSummary := mkSummary {
  MalwareDetected : bool;
  ScanErrors : Z;
  SkippedFiles : Z;
  EncryptedFiles : Z;
  BlockedTypes : Z;
  ss_Findings : list PolicyFinding
}.

Record Rules := mkRules {
  validated : bool;
  rejectOnMalware : bool;
  rejectOnScanError : bool;
  rejectOnSkippedFile : bool;
  rejectEncrypted : bool;
  blockExecutables : bool;
  blockScripts : bool;
  blockDiskImages : bool;
  sanitizeDocuments : bool;
  reencodeMedia : bool;
  stripMetadata : bool
}.

Definition acceptableFinding (f : PolicyFinding) : bool :=
  negb (negb (bool_decide (pf_Severity f = Info)) && negb (bool_decide (pf_Severity f = Warning)) &&
        negb (bool_decide (pf_Severity f = Blocking))) &&
  negb (bool_decide (pf_Severity f = Blocking)).

Definition Approve (r : Rules) (s : ScanSummary) : bool :=
  if negb (validated r) || (ScanErrors s <? 0)%Z || (SkippedFiles s <? 0)%Z || (EncryptedFiles s <? 0)%Z || (BlockedTypes s <? 0)%Z
  then false
  else if rejectOnMalware r && MalwareDetected s then false
  else if rejectOnScanError r && (0 <? ScanErrors s)%Z then false
  else if rejectOnSkippedFile r && (0 <? SkippedFiles s)%Z then false
  else if rejectEncrypted r && (0 <? EncryptedFiles s)%Z then false
  else if (blockExecutables r || blockScripts r || blockDiskImages r) && (0 <? BlockedTypes s)%Z then false
  else forallb acceptableFinding (ss_Findings s).

(** ** Policies *)

Definition SchemaVersion : Z := 1.
Definition maximumPolicySize : Z := 1048576.
Definition maximumInputBytes : Z := 1099511627776.
Definition maximumSingleFile : Z := 4294967296.
Definition maximumFiles : Z := 1000000.
Definition maximumExpanded : Z := 4294967296.
Definition maximumRatio : spec_float := Eval vm_compute in float64 1000.
Definition maximumTimeout : Z := 300.

Definition is_name_char (c : ascii) : bool := is_lower c || is_digit c || char_eqb c "-".

(** [^[a-z][a-z0-9-]{1,31}$] *)
Definition policyNamePattern : string → bool := match_head_tail is_lower is_name_char 1 31.

Record Limits := mkLimits {
  maxInputBytes : Z;
  maxSingleFileBytes : Z;
  maxFiles : Z;
  maxArchiveDepth : Z;
  maxExpansionRatio : spec_float;
  maxExpandedBytes : Z;
  scanTimeoutSeconds : Z
}.

(** [Mode] is a string type; the constants are [ModeSafe] and [ModeQuarantine]. *)
Definition ModeSafe : string := "safe".
Definition ModeQuarantine : string := "quarantine".

Record Policy := mkPolicy {
  p_schemaVersion : Z;
  p_name : string;
  p_mode : string;
  p_limits : Limits;
  p_rules : Rules
}.

(** A decoded policy file: the wire form has the rules without the mark. *)
Record wireRules := mkWireRules {
  w_RejectOnMalware : bool;
  w_RejectOnScanError : bool;
  w_RejectOnSkippedFile : bool;
  w_RejectEncrypted : bool;
  w_BlockExecutables : bool;
  w_BlockScripts : bool;
  w_BlockDiskImages : bool;
  w_SanitizeDocuments : bool;
  w_ReencodeMedia : bool;
  w_StripMetadata : bool
}.

Record wirePolicy := mkWire {
  w_SchemaVersion : Z;
  w_Name : string;
  w_Mode : string;
  w_Limits : Limits;
  w_Rules : wireRules
}.

Definition policyFromWire (value : wirePolicy) : Policy :=
  let r := w_Rules value in
  mkPolicy (w_SchemaVersion value) (w_Name value) (w_Mode value) (w_Limits value)
    (mkRules true (w_RejectOnMalware r) (w_RejectOnScanError r) (w_RejectOnSkippedFile r) (w_RejectEncrypted r)
       (w_BlockExecutables r) (w_BlockScripts r) (w_BlockDiskImages r) (w_SanitizeDocuments r) (w_ReencodeMedia r)
       (w_StripMetadata r)).

Definition wire (p : Policy) : wirePolicy :=
  let r := p_rules p in
  mkWire (p_schemaVersion p) (p_name p) (p_mode p) (p_limits p)
    (mkWireRules (rejectOnMalware r) (rejectOnScanError r) (rejectOnSkippedFile r) (rejectEncrypted r) (blockExecutables r)
       (blockScripts r) (blockDiskImages r) (sanitizeDocuments r) (reencodeMedia r) (stripMetadata r)).

Inductive policy_error :=
| POLICY_SCHEMA_VERSION | POLICY_INVALID | POLICY_LIMIT | POLICY_WEAKENING | POLICY_MIGRATION | POLICY_READ
| POLICY_TOO_LARGE | POLICY_SECRET_FIELD | POLICY_PARSE.

Definition badLimits (l : Limits) : bool :=
  (maxInputBytes l =? 0)%Z || (maximumInputBytes <? maxInputBytes l)%Z ||
  (maxSingleFileBytes l =? 0)%Z || (maximumSingleFile <? maxSingleFileBytes l)%Z ||
  (maxInputBytes l <? maxSingleFileBytes l)%Z ||
  (maxFiles l =? 0)%Z || (maximumFiles <? maxFiles l)%Z ||
  (10 <? maxArchiveDepth l)%Z ||
  IsNaN (maxExpansionRatio l) || IsInf (maxExpansionRatio l) ||
  less (maxExpansionRatio l) (float64 1) || less maximumRatio (maxExpansionRatio l) ||
  (maxExpandedBytes l =? 0)%Z || (maximumExpanded <? maxExpandedBytes l)%Z ||
  (scanTimeoutSeconds l <? 30)%Z || (maximumTimeout <? scanTimeoutSeconds l)%Z.

Definition reconstructs (r : Rules) : list bool :=
  [blockExecutables r; blockScripts r; blockDiskImages r; sanitizeDocuments r; reencodeMedia r; stripMetadata r].

Definition ValidatePolicy (p : Policy) : result policy_error unit :=
  let rules := p_rules p in
  fail_if (negb (p_schemaVersion p =? SchemaVersion)%Z) with POLICY_SCHEMA_VERSION ;;
  fail_if (negb (policyNamePattern (p_name p)) || negb (bool_decide (p_mode p = p_name p))) with POLICY_INVALID ;;
  fail_if (negb (bool_decide (p_mode p = ModeSafe)) && negb (bool_decide (p_mode p = ModeQuarantine))) with POLICY_INVALID ;;
  fail_if (badLimits (p_limits p)) with POLICY_LIMIT ;;
  fail_if (negb (rejectOnMalware rules) || negb (rejectOnScanError rules) || negb (rejectOnSkippedFile rules) ||
           negb (rejectEncrypted rules)) with POLICY_WEAKENING ;;
  fail_if (bool_decide (p_mode p = ModeSafe) && existsb negb (reconstructs rules)) with POLICY_WEAKENING ;;
  fail_if (bool_decide (p_mode p = ModeQuarantine) && existsb (λ b, b) (reconstructs rules)) with POLICY_INVALID ;;
  Ok tt.

(** ** Documents *)

Inductive doc :=
| DTable (fields : list (string * doc))
| DArray (items : list doc)
| DInteger (v : Z)
| DOther.

Definition document : Type := list (string * doc).

Definition fieldOf (d : document) (name : string) : option doc :=
  match List.find (λ f, bool_decide (f.1 = name)) d with Some f => Some f.2 | None => None end.

Section Names.
Context (unicodeLower : N → N).

Fixpoint underscored (s : string) : string :=
  match s with
  | EmptyString => EmptyString
  | String c r => String (if char_eqb c "-" then "_"%char else c) (underscored r)
  end.

Definition secretPolicyFieldName (key : string) : bool :=
  let normalized := ToLower unicodeLower (underscored key) in
  existsb (Contains normalized) ["private_key"; "password"; "passphrase"; "secret"; "token"; "magnet"; "credential"] ||
  bool_decide (normalized = "key") || HasPrefix normalized "key_" || HasSuffix normalized "_key".

Fixpoint containsSecretField (value : doc) : bool :=
  match value with
  | DTable fields =>
      (fix walk (fs : list (string * doc)) :=
         match fs with
         | [] => false
         | (key, child) :: rest => secretPolicyFieldName key || containsSecretField child || walk rest
         end) fields
  | DArray items =>
      (fix walk (vs : list doc) := match vs with [] => false | child :: rest => containsSecretField child || walk rest end) items
  | _ => false
  end.

(** The version is a non-negative integer; an [int] has 64 bits. *)
Definition policyDocumentVersion (d : document) : result policy_error Z :=
  match fieldOf d "schema_version" with
  | Some (DInteger version) => fail_if (version <? 0)%Z with POLICY_SCHEMA_VERSION ;; Ok version
  | _ => Err POLICY_SCHEMA_VERSION
  end.

Definition hasAll (d : document) (names : list string) : bool := forallb (λ name, bool_decide (is_Some (List.find (λ f, bool_decide (f.1 = name)) d))) names.

Definition completePolicyDocument (d : document) : bool :=
  hasAll d ["schema_version"; "name"; "mode"; "limits"; "rules"] &&
  match fieldOf d "limits" with
  | Some (DTable limits) =>
      hasAll limits ["max_input_bytes"; "max_single_file_bytes"; "max_files"; "max_archive_depth"; "max_expansion_ratio";
                     "max_expanded_bytes"; "scan_timeout_seconds"]
  | _ => false
  end &&
  match fieldOf d "rules" with
  | Some (DTable rules) =>
      hasAll rules ["reject_on_malware"; "reject_on_scan_error"; "reject_on_skipped_file"; "reject_encrypted_archives";
                    "block_executables"; "block_scripts"; "block_disk_images"; "sanitize_documents"; "reencode_media"; "strip_metadata"]
  | _ => false
  end.

(** ** Loading *)

(** The TOML library: [Unmarshal] into a document, [Marshal], and a decoder that
    refuses unknown fields. *)
Record Toml := mkToml {
  Unmarshal : string → option document;
  MarshalDoc : document → option string;
  DecodeWire : string → option wirePolicy
}.

Context (toml : Toml).

(** A migration gives the next document; [None] is an error or a nil document. *)
Definition Migration : Type := document → option document.

Definition Loader : Type := list (Z * option Migration).

(** The registry takes one-version migrations only. *)
Definition NewLoader (migrations : Loader) : result policy_error Loader :=
  fail_if (existsb (λ m, (m.1 <? 0)%Z || (SchemaVersion <=? m.1)%Z || bool_decide (m.2 = None)) migrations)
    with POLICY_MIGRATION ;;
  Ok migrations.

Definition lookupMigration (loader : Loader) (version : Z) : option Migration :=
  match List.find (λ m, (m.1 =? version)%Z) loader with Some (_, migration) => migration | None => None end.

(** One migration step: exactly one version further, with no secret field. *)
Definition migrateOnce (loader : Loader) (version : Z) (d : document) : result policy_error (Z * document) :=
  match lookupMigration loader version with
  | None => Err POLICY_MIGRATION
  | Some migration =>
      match migration d with
      | None => Err POLICY_MIGRATION
      | Some next =>
          fail_if (containsSecretField (DTable next)) with POLICY_SECRET_FIELD ;;
          match policyDocumentVersion next with
          | Err _ => Err POLICY_MIGRATION
          | Ok nextVersion => fail_if (negb (nextVersion =? version + 1)%Z) with POLICY_MIGRATION ;; Ok (nextVersion, next)
          end
      end
  end.

(** [for version < SchemaVersion]; [None] when the fuel runs out. *)
Fixpoint migrateLoop (fuel : nat) (loader : Loader) (version : Z) (d : document) : option (result policy_error (Z * document)) :=
  if (version <? SchemaVersion)%Z then
    match fuel with
    | O => None
    | S fuel' =>
        match migrateOnce loader version d with
        | Err e => Some (Err e)
        | Ok (next, d') => migrateLoop fuel' loader next d'
        end
    end
  else Some (Ok (version, d)).

(** The end of [Decode], on the migrated document. *)
Definition finishDecode (version : Z) (d : document) : result policy_error Policy :=
  fail_if (negb (version =? SchemaVersion)%Z) with POLICY_SCHEMA_VERSION ;;
  match MarshalDoc toml d with
  | None => Err POLICY_PARSE
  | Some migrated =>
      fail_if (maximumPolicySize <? slen migrated)%Z with POLICY_TOO_LARGE ;;
      fail_if (negb (completePolicyDocument d)) with POLICY_PARSE ;;
      match DecodeWire toml migrated with
      | None => Err POLICY_PARSE
      | Some w => let p := policyFromWire w in _ <-! ValidatePolicy p ;; Ok p
      end
  end.

(** [data] is what the limited reader gave, [None] a failed read. *)
Definition Decode (loader : Loader) (data : option string) : option (result policy_error Policy) :=
  match data with
  | None => Some (Err POLICY_READ)
  | Some data =>
      if (maximumPolicySize <? slen data)%Z then Some (Err POLICY_TOO_LARGE)
      else
        match Unmarshal toml data with
        | None => Some (Err POLICY_PARSE)
        | Some d =>
            if containsSecretField (DTable d) then Some (Err POLICY_SECRET_FIELD)
            else
              match policyDocumentVersion d with
              | Err e => Some (Err e)
              | Ok version =>
                  match migrateLoop (Z.to_nat SchemaVersion) loader version d with
                  | None => None
                  | Some (Err e) => Some (Err e)
                  | Some (Ok (version, d)) => Some (finishDecode version d)
                  end
              end
        end
  end.

(** An opened policy file. *)
Record policyFile := mkFile { fl_stat : option (bool * Z); fl_data : option string; fl_closes : bool }.

Definition Load (opened : option policyFile) : option (result policy_error Policy) :=
  match opened with
  | None => Some (Err POLICY_READ)
  | Some file =>
      match fl_stat file with
      | None => Some (Err POLICY_READ)
      | Some (regular, size) =>
          if negb regular || (size <? 0)%Z then Some (Err POLICY_READ)
          else if (maximumPolicySize <? size)%Z then Some (Err POLICY_TOO_LARGE)
          else if fl_closes file then Decode [] (fl_data file) else Some (Err POLICY_READ)
      end
  end.

(** ** Loaded policies fail closed *)

Lemma migrateLoop_total loader version d :
  (0 ≤ version)%Z → ∃ r, migrateLoop (Z.to_nat SchemaVersion) loader version d = Some r.
Proof.
  intros Hv. change (Z.to_nat SchemaVersion) with 1%nat. cbn [migrateLoop]. destruct (version <? SchemaVersion)%Z eqn:E; [|eauto].
  unfold migrateOnce. destruct (lookupMigration _ _) as [f|]; [|eauto]. destruct (f d) as [next|]; [|eauto].
  destruct (containsSecretField _); [eauto|]. destruct (policyDocumentVersion next) as [n|]; [|eauto].
  destruct (negb _) eqn:En; [eauto|]. bool_hyps. subst n. unfold SchemaVersion in *.
  destruct (version + 1 <? 1)%Z eqn:E2; [|eauto]. bool_hyps. lia.
Qed.

(** What a summary must show to pass. *)
Record clean (mode : string) (s : ScanSummary) : Prop := {
  cl_malware : MalwareDetected s = false;
  cl_errors : ScanErrors s = 0%Z;
  cl_skipped : SkippedFiles s = 0%Z;
  cl_encrypted : EncryptedFiles s = 0%Z;
  cl_blocked : (0 ≤ BlockedTypes s)%Z ∧ (mode = ModeSafe → BlockedTypes s = 0%Z);
  cl_findings : Forall (λ f, pf_Severity f = Info ∨ pf_Severity f = Warning) (ss_Findings s)
}.

Lemma acceptableFinding_iff f : acceptableFinding f = true ↔ pf_Severity f = Info ∨ pf_Severity f = Warning.
Proof. unfold acceptableFinding. destruct (pf_Severity f); repeat case_bool_decide; naive_solver. Qed.

(** The rules of a valid policy. *)
Lemma ValidatePolicy_rules p :
  ValidatePolicy p = Ok tt →
  (p_mode p = ModeSafe ∨ p_mode p = ModeQuarantine) ∧ badLimits (p_limits p) = false ∧
  p_rules p = let b := bool_decide (p_mode p = ModeSafe) in mkRules (validated (p_rules p)) true true true true b b b b b b.
Proof.
  unfold ValidatePolicy. cbv zeta. intros H.
  pass_guards H. clear H.
  destruct (p_rules p) as [v [] [] [] [] b1 b2 b3 b4 b5 b6]; try discriminate.
  unfold reconstructs in *. cbn [existsb validated blockExecutables blockScripts blockDiskImages sanitizeDocuments reencodeMedia stripMetadata] in *.
  destruct (decide (p_mode p = ModeSafe)) as [E|E].
  - rewrite !(bool_decide_eq_true_2 (p_mode p = ModeSafe)) in * by done. destruct b1, b2, b3, b4, b5, b6; try discriminate. auto.
  - rewrite !(bool_decide_eq_false_2 (p_mode p = ModeSafe)) in * by done. 
    destruct (decide (p_mode p = ModeQuarantine)) as [E2|E2]; [|rewrite (bool_decide_eq_false_2 _ E2) in *; discriminate].
    rewrite (bool_decide_eq_true_2 _ E2) in *. destruct b1, b2, b3, b4, b5, b6; try discriminate. auto.
Qed.

Lemma Approve_iff p s :
  ValidatePolicy p = Ok tt → validated (p_rules p) = true → Approve (p_rules p) s = true ↔ clean (p_mode p) s.
Proof.
  intros (Hm & _ & Hr)%ValidatePolicy_rules Hv. rewrite Hv in Hr. rewrite Hr. unfold Approve.
  cbn [validated rejectOnMalware rejectOnScanError rejectOnSkippedFile rejectEncrypted blockExecutables blockScripts blockDiskImages].
  rewrite !orb_diag. split.
  - repeat match goal with |- context [if ?b then _ else _] => destruct b eqn:?; [done|] end. intros Hf.
    cbn [negb orb andb] in *. bool_hyps. split; try lia; try done.
    + split; [lia|]. intros E. rewrite bool_decide_eq_true_2 in * by done. cbn [andb] in *. bool_hyps. lia.
    + apply Forall_forall. intros f Hin. apply acceptableFinding_iff. rewrite forallb_forall in Hf.
      apply Hf. by apply list_elem_of_In.
  - intros [-> -> -> -> [Hb Hbs] Hf]. cbn [negb orb andb Z.ltb Z.compare].
    destruct (BlockedTypes s <? 0)%Z eqn:E; [apply Z.ltb_lt in E; lia|].
    destruct (bool_decide (p_mode p = ModeSafe)) eqn:E2; [apply bool_decide_eq_true in E2; rewrite (Hbs E2)|];
      cbn [andb Z.ltb Z.compare]; apply forallb_forall; intros f Hin; apply acceptableFinding_iff;
      rewrite Forall_forall in Hf; apply Hf; by apply list_elem_of_In.
Qed.

(** A policy that can be trusted, or an error. *)
Definition failsClosed (r : result policy_error Policy) : Prop :=
  match r with
  | Err _ => True
  | Ok p => (p_mode p = ModeSafe ∨ p_mode p = ModeQuarantine) ∧ badLimits (p_limits p) = false ∧
      policyFromWire (wire p) = p ∧ ∀ s, Approve (p_rules p) s = true ↔ clean (p_mode p) s
  end.

Lemma finishDecode_closed version d : failsClosed (finishDecode version d).
Proof.
  unfold finishDecode. destruct (negb _); [done|]. destruct (MarshalDoc toml d) as [j|]; [|done]. destruct (_ <? _)%Z; [done|].
  destruct (negb _); [done|]. destruct (DecodeWire toml j) as [w|]; [|done]. cbv zeta.
  destruct (ValidatePolicy (policyFromWire w)) as [[]|] eqn:Ev; [|done]. cbn [failsClosed].
  destruct (ValidatePolicy_rules _ Ev) as (Hm & Hl & _). split_and!; [done|done|by destruct w as [? ? ? ? []]|].
  intros s. by apply Approve_iff.
Qed.

Lemma policyDocumentVersion_nonneg d version : policyDocumentVersion d = Ok version → (0 ≤ version)%Z.
Proof.
  unfold policyDocumentVersion. destruct (fieldOf _ _) as [[]|]; try done. destruct (_ <? _)%Z eqn:E; [done|].
  intros [= <-]. bool_hyps. lia.
Qed.

Lemma Decode_closed loader data : ∃ r, Decode loader data = Some r ∧ failsClosed r.
Proof.
  unfold Decode. destruct data as [data|]; [|by eexists]. destruct (_ <? _)%Z; [by eexists|].
  destruct (Unmarshal toml data) as [d|]; [|by eexists]. destruct (containsSecretField _); [by eexists|].
  destruct (policyDocumentVersion d) as [version|] eqn:Ev; [|by eexists]. apply policyDocumentVersion_nonneg in Ev.
  destruct (migrateLoop_total loader version d Ev) as [[[version' d']|e] ->]; [|by eexists].
  eexists. split; [done|]. apply finishDecode_closed.
Qed.

(** Loading always returns, and a policy it returns fails closed: the mode
    is safe or quarantine, every limit is within its bounds, and the policy
    approves a scan summary exactly when nothing malicious, unscanned, skipped
    or encrypted was found, no finding blocks, and, for the safe policy, no
    blocked type was seen.  No migration and no file content can weaken it. *)
Theorem loaded_policy_fails_closed loader data opened :
  (∃ r, Decode loader data = Some r ∧ failsClosed r) ∧ (∃ r, Load opened = Some r ∧ failsClosed r).
Proof.
  split; [apply Decode_closed|]. unfold Load. destruct opened as [[stat data' closes]|]; [|by eexists].
  cbn [fl_stat fl_data fl_closes]. destruct stat as [[regular size]|]; [|by eexists].
  destruct (_ || _); [by eexists|]. destruct (_ <? _)%Z; [by eexists|]. destruct closes; [apply Decode_closed|by eexists].
Qed.

End Names.

(** The installed safe policy, through a codec that knows one document. *)
Definition safeLimits : Limits := mkLimits 536870912000 4294967296 100000 3 (float64 100) 4294967296 300.

Definition safeWire : wirePolicy :=
  mkWire 1 "safe" "safe" safeLimits (mkWireRules true true true true true true true true true true).

Example safe_policy_validates : ValidatePolicy (policyFromWire safeWire) = Ok tt.
Proof. vm_compute. reflexivity. Qed.

Example weakened_policy_refused :
  ValidatePolicy (policyFromWire (mkWire 1 "safe" "safe" safeLimits (mkWireRules true true false true true true true true true true))) =
  Err POLICY_WEAKENING.
Proof. vm_compute. reflexivity. Qed.

Example secret_field_names :
  map (secretPolicyFieldName (λ cp, cp)) ["api-Token"; "max_files"; "KEY"; "key_id"; "monkey"] = [true; false; true; true; false].
Proof. vm_compute. reflexivity. Qed.
