(* ===== verification/ScanArchive.v ===== *)
(** * Archive inspection

    Models the inspection half of [src/internal/scan/archive.go]: the limits of
    an archive, the checks of every member of a ZIP or TAR archive, the size
    accounting on 64-bit integers and the expansion ratio on binary64 floats.
    The archive libraries' readers are the member lists they deliver. *)

From Stdlib Require Import ZArith Lia Ascii.
From Stdlib Require Import Floats.SpecFloat.
From stdpp Require Import strings base tactics option list.
From S2P Require Import ScanReport.
From S2P Require Import Prelude GoText ScanPolicy.

Open Scope string_scope.
Open Scope list_scope.

Record ArchiveLimits := mkArchiveLimits {
  MaxDepth : Z;
  MaxEntries : Z;
  MaxPathBytes : Z;
  MaxFileBytes : Z;
  MaxExpandedBytes : Z;
  MaxExpansionRatio : spec_float
}.

Record ArchiveEntry := mkEntry {
  ae_RelativePath : string;
  ae_Directory : bool;
  ae_SizeBytes : Z;
  ae_CompressedBytes : Z
}.

Record ArchivePlan := mkArchivePlan {
  ap_Format : ArchiveFormat;
  ap_Depth : Z;
  ap_Entries : list ArchiveEntry;
  ap_ExpandedBytes : Z;
  ap_CompressedBytes : Z
}.

Definition validateArchiveLimits (limits : ArchiveLimits) (depth : Z) : result scan_error ArchiveLimits :=
  fail_if ((10 <? MaxDepth limits) || (MaxDepth limits <? depth))%Z with "ARCHIVE_LIMIT_REACHED" ;;
  fail_if ((MaxEntries limits =? 0)%Z || (1000000 <? MaxEntries limits)%Z || (MaxFileBytes limits =? 0)%Z ||
           (1099511627776 <? MaxFileBytes limits)%Z || (MaxExpandedBytes limits =? 0)%Z ||
           (4398046511104 <? MaxExpandedBytes limits)%Z ||
           less (MaxExpansionRatio limits) (float64 1) || less (float64 1000) (MaxExpansionRatio limits))
    with "SCAN_LIMIT_INVALID" ;;
  let maxPath := if (MaxPathBytes limits =? 0)%Z then MaximumInventoryPathBytes else MaxPathBytes limits in
  fail_if ((maxPath <? 64) || (MaximumInventoryPathBytes <? maxPath))%Z with "SCAN_LIMIT_INVALID" ;;
  Ok (mkArchiveLimits (MaxDepth limits) (MaxEntries limits) maxPath (MaxFileBytes limits) (MaxExpandedBytes limits)
        (MaxExpansionRatio limits)).

Definition unsafeComponent (component : string) : bool :=
  bool_decide (component = "") || bool_decide (component = ".") || bool_decide (component = "..") || Contains component ":".

Definition validateArchivePath (value : string) (maximum : Z) : result scan_error string :=
  fail_if (negb (ValidString value) || bool_decide (value = "") || (maximum <? slen value)%Z ||
           ContainsAny value (String "000" "\") || HasPrefix value "/") with "ARCHIVE_PATH_UNSAFE" ;;
  let trimmed := TrimSuffix value "/" in
  fail_if (bool_decide (trimmed = "") || negb (bool_decide (Clean trimmed = trimmed))) with "ARCHIVE_PATH_UNSAFE" ;;
  fail_if (existsb unsafeComponent (Split "/" trimmed)) with "ARCHIVE_PATH_UNSAFE" ;;
  Ok trimmed.

(** The member's entry and the accounts after it; [seen] are the paths so far. *)
Definition addArchiveEntry (plan : ArchivePlan) (seen : list string) (name : string) (directory : bool) (size compressed : Z)
    (limits : ArchiveLimits) : result scan_error (ArchivePlan * list string) :=
  normalized <-! validateArchivePath name (MaxPathBytes limits) ;;
  fail_if (bool_decide (normalized ∈ seen)) with "ARCHIVE_DUPLICATE_PATH" ;;
  fail_if ((MaxEntries limits <=? len (ap_Entries plan))%Z || (MaxFileBytes limits <? size)%Z ||
           (sub64 (MaxExpandedBytes limits) (ap_ExpandedBytes plan) <? size)%Z) with "ARCHIVE_LIMIT_REACHED" ;;
  fail_if (sub64 max64 (ap_CompressedBytes plan) <? compressed)%Z with "ARCHIVE_LIMIT_REACHED" ;;
  Ok (mkArchivePlan (ap_Format plan) (ap_Depth plan) (ap_Entries plan ++ [mkEntry normalized directory size compressed])
        (add64 (ap_ExpandedBytes plan) size) (add64 (ap_CompressedBytes plan) compressed),
      normalized :: seen).

Definition validateExpansion (plan : ArchivePlan) (limits : ArchiveLimits) : result scan_error unit :=
  fail_if (MaxExpandedBytes limits <? ap_ExpandedBytes plan)%Z with "ARCHIVE_LIMIT_REACHED" ;;
  fail_if ((0 <? ap_ExpandedBytes plan)%Z && (ap_CompressedBytes plan =? 0)%Z && bool_decide (ap_Format plan = ArchiveZIP))
    with "ARCHIVE_LIMIT_REACHED" ;;
  fail_if ((0 <? ap_CompressedBytes plan)%Z &&
           less (MaxExpansionRatio limits) (divide (float64 (ap_ExpandedBytes plan)) (float64 (ap_CompressedBytes plan))))
    with "ARCHIVE_LIMIT_REACHED" ;;
  Ok tt.

(** ** ZIP *)

Inductive fileKind := Regular | Directory | Symlink | Special.

#[global] Instance fileKind_eq_dec : EqDecision fileKind.
Proof. solve_decision. Defined.

Record zipFile := mkZip { z_Name : string; z_Encrypted : bool; z_Kind : fileKind; z_Size : Z; z_Compressed : Z }.

(** [ctx] is the state of the context at each check. *)
Fixpoint zipLoop (ctx : nat → context) (index : nat) (files : list zipFile) (plan : ArchivePlan) (seen : list string)
    (limits : ArchiveLimits) : result scan_error ArchivePlan :=
  match files with
  | [] => Ok plan
  | file :: rest =>
      match ctx index with
      | Live =>
          fail_if (z_Encrypted file) with "ARCHIVE_ENCRYPTED" ;;
          fail_if (bool_decide (z_Kind file = Symlink)) with "ARCHIVE_LINK_REJECTED" ;;
          fail_if (negb (bool_decide (z_Kind file = Regular)) && negb (bool_decide (z_Kind file = Directory)))
            with "ARCHIVE_SPECIAL_FILE_REJECTED" ;;
          next <-! addArchiveEntry plan seen (z_Name file) (bool_decide (z_Kind file = Directory)) (z_Size file) (z_Compressed file) limits ;;
          zipLoop ctx (S index) rest (fst next) (snd next) limits
      | ended => Err (contextScanError ended)
      end
  end.

(** [archive] is the parsed directory of the archive, [None] when it is malformed. *)
Definition InspectZIP (ctx : nat → context) (archive : option (list zipFile)) (archiveBytes depth : Z) (limits : ArchiveLimits) :
    result scan_error ArchivePlan :=
  limits <-! validateArchiveLimits limits depth ;;
  fail_if ((archiveBytes <? 0) || (MaxFileBytes limits <? archiveBytes))%Z with "ARCHIVE_LIMIT_REACHED" ;;
  match archive with
  | None => Err "ARCHIVE_INVALID"
  | Some files =>
      plan <-! zipLoop ctx 0 files (mkArchivePlan ArchiveZIP depth [] 0 0) [] limits ;;
      _ <-! validateExpansion plan limits ;;
      Ok plan
  end.

(** ** TAR *)

Inductive typeFlag := TypeReg | TypeDir | TypeSymlink | TypeLink | TypeOther.

#[global] Instance typeFlag_eq_dec : EqDecision typeFlag.
Proof. solve_decision. Defined.

Record tarHeader := mkTar { h_Name : string; h_Typeflag : typeFlag; h_Size : Z }.

(** What [Next] gives after the members: the end, or an error with the state of
    the context then. *)
Inductive tarEnd := TarEOF | TarError (ctx : context).

Fixpoint tarLoop (headers : list tarHeader) (last : tarEnd) (plan : ArchivePlan) (seen : list string) (limits : ArchiveLimits) :
    result scan_error ArchivePlan :=
  match headers with
  | [] =>
      match last with
      | TarEOF => Ok plan
      | TarError Live => Err "ARCHIVE_INVALID"
      | TarError ended => Err (contextScanError ended)
      end
  | header :: rest =>
      fail_if (h_Size header <? 0)%Z with "ARCHIVE_INVALID" ;;
      fail_if (bool_decide (h_Typeflag header = TypeSymlink) || bool_decide (h_Typeflag header = TypeLink))
        with "ARCHIVE_LINK_REJECTED" ;;
      fail_if (negb (bool_decide (h_Typeflag header = TypeReg)) && negb (bool_decide (h_Typeflag header = TypeDir)))
        with "ARCHIVE_SPECIAL_FILE_REJECTED" ;;
      next <-! addArchiveEntry plan seen (h_Name header) (bool_decide (h_Typeflag header = TypeDir)) (h_Size header) 0 limits ;;
      tarLoop rest last (fst next) (snd next) limits
  end.

Definition InspectTAR (headers : list tarHeader) (last : tarEnd) (archiveBytes depth : Z) (limits : ArchiveLimits) :
    result scan_error ArchivePlan :=
  limits <-! validateArchiveLimits limits depth ;;
  fail_if (MaxFileBytes limits <? archiveBytes)%Z with "ARCHIVE_LIMIT_REACHED" ;;
  plan <-! tarLoop headers last (mkArchivePlan ArchiveTAR depth [] 0 archiveBytes) [] limits ;;
  _ <-! validateExpansion plan limits ;;
  Ok plan.

(** ** Accounts *)

Definition sizes (entries : list ArchiveEntry) : Z := foldr Z.add 0%Z (map ae_SizeBytes entries).
Definition compressedSizes (entries : list ArchiveEntry) : Z := foldr Z.add 0%Z (map ae_CompressedBytes entries).

Lemma total_app l x : foldr Z.add 0%Z (l ++ [x]) = (foldr Z.add 0%Z l + x)%Z.
Proof. induction l as [|y l IH]; cbn; [lia|]. rewrite IH. lia. Qed.

(** A member's path names something strictly below the extraction directory. *)
Definition insidePath (path : string) : Prop :=
  Forall plainElement (Split "/" path) ∧
  ∀ dir, cleanElements true (Split "/" (dir +:+ String "/" path)) = cleanElements true (Split "/" dir) ++ Split "/" path.

(** The state of an inspection, with [base] the bytes charged before its members. *)
Record accounted (limits : ArchiveLimits) (base : Z) (plan : ArchivePlan) (seen : list string) : Prop := {
  ac_seen : ∀ path, path ∈ seen ↔ path ∈ map ae_RelativePath (ap_Entries plan);
  ac_distinct : NoDup (map ae_RelativePath (ap_Entries plan));
  ac_paths : Forall (λ e, insidePath (ae_RelativePath e)) (ap_Entries plan);
  ac_files : Forall (λ e, 0 ≤ ae_SizeBytes e ≤ MaxFileBytes limits)%Z (ap_Entries plan);
  ac_count : (len (ap_Entries plan) ≤ MaxEntries limits)%Z;
  ac_expanded : ap_ExpandedBytes plan = sizes (ap_Entries plan) ∧ (0 ≤ ap_ExpandedBytes plan ≤ MaxExpandedBytes limits)%Z;
  ac_compressed : ap_CompressedBytes plan = (base + compressedSizes (ap_Entries plan))%Z ∧ u64 (ap_CompressedBytes plan)
}.

Definition boundedLimits (limits : ArchiveLimits) : Prop :=
  (0 ≤ MaxEntries limits ∧ 0 ≤ MaxFileBytes limits ≤ 1099511627776 ∧ 0 ≤ MaxExpandedBytes limits ≤ 4398046511104)%Z.

Lemma unsafeComponent_plain e : unsafeComponent e = false → plainElement e.
Proof. unfold unsafeComponent, plainElement. intros H. bool_hyps. done. Qed.

Lemma validateArchivePath_inside value maximum path :
  validateArchivePath value maximum = Ok path → path = TrimSuffix value "/" ∧ insidePath path.
Proof.
  unfold validateArchivePath. cbv zeta. destruct (_ || _); [done|]. destruct (_ || _); [done|]. destruct (existsb _ _) eqn:E; [done|].
  intros [= <-]. split; [done|]. assert (Forall plainElement (Split "/" (TrimSuffix value "/"))) as Hp.
  { apply Forall_forall. intros e He. apply unsafeComponent_plain. destruct (unsafeComponent e) eqn:Eu; [|done].
    assert (existsb unsafeComponent (Split "/" (TrimSuffix value "/")) = true); [|congruence].
    apply existsb_exists. exists e. split; [by apply list_elem_of_In|done]. }
  split; [done|]. intros dir. rewrite Split_app. by apply clean_below.
Qed.

Lemma addArchiveEntry_accounted limits base plan seen name directory size compressed plan' seen' :
  boundedLimits limits → accounted limits base plan seen → u64 size → u64 compressed →
  addArchiveEntry plan seen name directory size compressed limits = Ok (plan', seen') →
  accounted limits base plan' seen' ∧
  ap_Entries plan' = ap_Entries plan ++ [mkEntry (TrimSuffix name "/") directory size compressed] ∧
  ap_Format plan' = ap_Format plan ∧ ap_Depth plan' = ap_Depth plan.
Proof.
  intros (B1 & B2 & B3) [S1 S2 S3 S4 S5 [S6 S7] [S8 S9]] Hsize Hcomp. unfold addArchiveEntry.
  destruct (validateArchivePath name _) as [path|] eqn:Ep; [|done]. apply validateArchivePath_inside in Ep as [-> Hp].
  destruct (bool_decide _) eqn:Ed; [done|]. destruct (_ || _) eqn:El; [done|]. destruct (sub64 max64 _ <? _)%Z eqn:Ec; [done|].
  intros [= <- <-]. bool_hyps. cbn [ap_Entries ap_Format ap_Depth ap_ExpandedBytes ap_CompressedBytes]. split; [|done].
  unfold u64, two64, max64 in *. rewrite sub64_small in * by (unfold u64, two64; lia). unfold sizes, compressedSizes in *.
  assert (add64 (ap_ExpandedBytes plan) size = ap_ExpandedBytes plan + size)%Z as Ea by (apply add64_small; unfold u64, two64; lia).
  assert (add64 (ap_CompressedBytes plan) compressed = ap_CompressedBytes plan + compressed)%Z as Eb by (apply add64_small; unfold u64, two64; lia).
  split; cbn [ap_Entries ap_ExpandedBytes ap_CompressedBytes]; rewrite ?map_app, ?Ea, ?Eb; cbn [map ae_RelativePath ae_SizeBytes ae_CompressedBytes].
  - intros p. rewrite elem_of_cons, elem_of_app, list_elem_of_singleton, S1. naive_solver.
  - apply NoDup_snoc; [done|]. by rewrite <- S1.
  - apply Forall_app. split; [done|]. by constructor.
  - apply Forall_app. split; [done|]. constructor; [cbn; lia|done].
  - unfold len in *. rewrite length_app. cbn [length]. lia.
  - unfold sizes. rewrite map_app. cbn [map ae_SizeBytes]. rewrite total_app. lia.
  - unfold compressedSizes. rewrite map_app. cbn [map ae_CompressedBytes]. rewrite total_app. unfold u64, two64. lia.
Qed.

(** ** What an accepted archive is *)

Definition zipMember (file : zipFile) (e : ArchiveEntry) : Prop :=
  z_Encrypted file = false ∧ (z_Kind file = Regular ∨ z_Kind file = Directory) ∧
  e = mkEntry (TrimSuffix (z_Name file) "/") (bool_decide (z_Kind file = Directory)) (z_Size file) (z_Compressed file).

Definition tarMember (header : tarHeader) (e : ArchiveEntry) : Prop :=
  (h_Typeflag header = TypeReg ∨ h_Typeflag header = TypeDir) ∧
  e = mkEntry (TrimSuffix (h_Name header) "/") (bool_decide (h_Typeflag header = TypeDir)) (h_Size header) 0.

Lemma zipLoop_accounted ctx index files plan seen limits plan' :
  boundedLimits limits → Forall (λ f, u64 (z_Size f) ∧ u64 (z_Compressed f)) files → accounted limits 0 plan seen →
  zipLoop ctx index files plan seen limits = Ok plan' →
  (∃ seen', accounted limits 0 plan' seen') ∧ ap_Format plan' = ap_Format plan ∧ ap_Depth plan' = ap_Depth plan ∧
  ∃ entries, ap_Entries plan' = ap_Entries plan ++ entries ∧ Forall2 zipMember files entries.
Proof.
  intros Hb Hu. revert index plan seen. induction Hu as [|file rest [Hs Hc] _ IH]; intros index plan seen Ha; cbn [zipLoop].
  { intros [= <-]. split; [eauto|]. split_and!; [done|done|]. exists []. by rewrite app_nil_r. }
  destruct (ctx index); [|done|done]. destruct (z_Encrypted file) eqn:Ee; [done|]. destruct (bool_decide (_ = Symlink)); [done|].
  destruct (negb _ && negb _) eqn:Ek; [done|]. destruct (addArchiveEntry _ _ _ _ _ _ _) as [[plan1 seen1]|] eqn:Ea; [|done].
  apply (addArchiveEntry_accounted _ 0) in Ea as (Ha1 & He1 & Hf1 & Hd1); [|done..]. cbn [fst snd]. intros Hl.
  apply IH in Hl as (Hseen & Hf & Hd & entries & He & H2); [|done]. split; [done|]. rewrite Hf, Hd, Hf1, Hd1. split_and!; [done|done|].
  exists (mkEntry (TrimSuffix (z_Name file) "/") (bool_decide (z_Kind file = Directory)) (z_Size file) (z_Compressed file) :: entries).
  rewrite He, He1, <- app_assoc. split; [done|]. constructor; [|done]. split; [done|]. split; [|done].
  apply andb_false_iff in Ek as [Ek|Ek]; bool_hyps; auto.
Qed.

Lemma tarLoop_accounted base headers last plan seen limits plan' :
  boundedLimits limits → Forall (λ h, h_Size h < 2 ^ 63)%Z headers → accounted limits base plan seen →
  tarLoop headers last plan seen limits = Ok plan' →
  (∃ seen', accounted limits base plan' seen') ∧ ap_Format plan' = ap_Format plan ∧ ap_Depth plan' = ap_Depth plan ∧ last = TarEOF ∧
  ∃ entries, ap_Entries plan' = ap_Entries plan ++ entries ∧ Forall2 tarMember headers entries.
Proof.
  intros Hb Hu. revert plan seen. induction Hu as [|header rest Hs _ IH]; intros plan seen Ha; cbn [tarLoop].
  { destruct last as [|[]]; try done. intros [= <-]. split; [eauto|]. split_and!; [done|done|done|]. exists []. by rewrite app_nil_r. }
  destruct (h_Size header <? 0)%Z eqn:En; [done|]. destruct (_ || _) eqn:El; [done|]. bool_hyps.
  destruct (negb _ && negb _) eqn:Ek; [done|]. destruct (addArchiveEntry _ _ _ _ _ _ _) as [[plan1 seen1]|] eqn:Ea; [|done].
  apply (addArchiveEntry_accounted _ base) in Ea as (Ha1 & He1 & Hf1 & Hd1); [|done|done|unfold u64, two64; lia|unfold u64, two64; lia].
  cbn [fst snd]. intros Hl.
  apply IH in Hl as (Hseen & Hf & Hd & Hlast & entries & He & H2); [|done]. split; [done|]. rewrite Hf, Hd, Hf1, Hd1.
  split_and!; [done|done|done|].
  exists (mkEntry (TrimSuffix (h_Name header) "/") (bool_decide (h_Typeflag header = TypeDir)) (h_Size header) 0 :: entries).
  rewrite He, He1, <- app_assoc. split; [done|]. constructor; [|done]. split; [|done].
  apply andb_false_iff in Ek as [Ek|Ek]; bool_hyps; auto.
Qed.

(** Unsigned limits, as their types say. *)
Definition unsignedLimits (limits : ArchiveLimits) : Prop :=
  (0 ≤ MaxEntries limits ∧ 0 ≤ MaxFileBytes limits ∧ 0 ≤ MaxExpandedBytes limits)%Z.

Lemma validateArchiveLimits_ok limits depth limits' :
  unsignedLimits limits → validateArchiveLimits limits depth = Ok limits' →
  boundedLimits limits' ∧ (depth ≤ MaxDepth limits' ≤ 10)%Z ∧ MaxEntries limits' = MaxEntries limits ∧
  MaxFileBytes limits' = MaxFileBytes limits ∧ MaxExpandedBytes limits' = MaxExpandedBytes limits ∧
  MaxExpansionRatio limits' = MaxExpansionRatio limits.
Proof.
  intros (U1 & U2 & U3). unfold validateArchiveLimits. cbv zeta. intros H. pass_guards H. injection H as <-. bool_hyps. split; [unfold boundedLimits; cbn; lia|]. by cbn.
Qed.

(** An archive that can be extracted within its limits. *)
Record boundedPlan (limits : ArchiveLimits) (plan : ArchivePlan) : Prop := {
  bp_depth : (ap_Depth plan ≤ 10)%Z;
  bp_distinct : NoDup (map ae_RelativePath (ap_Entries plan));
  bp_paths : Forall (λ e, insidePath (ae_RelativePath e)) (ap_Entries plan);
  bp_files : Forall (λ e, 0 ≤ ae_SizeBytes e ≤ MaxFileBytes limits)%Z (ap_Entries plan);
  bp_count : (len (ap_Entries plan) ≤ MaxEntries limits)%Z;
  bp_expanded : ap_ExpandedBytes plan = sizes (ap_Entries plan) ∧ (ap_ExpandedBytes plan ≤ MaxExpandedBytes limits)%Z;
  bp_ratio : (0 < ap_CompressedBytes plan)%Z →
    less (MaxExpansionRatio limits) (divide (float64 (ap_ExpandedBytes plan)) (float64 (ap_CompressedBytes plan))) = false
}.

Lemma accounted_bounded limits limits' base plan seen :
  accounted limits' base plan seen → (ap_Depth plan ≤ 10)%Z →
  MaxEntries limits' = MaxEntries limits ∧ MaxFileBytes limits' = MaxFileBytes limits ∧
    MaxExpandedBytes limits' = MaxExpandedBytes limits ∧ MaxExpansionRatio limits' = MaxExpansionRatio limits →
  validateExpansion plan limits' = Ok tt →
  boundedPlan limits plan ∧ (ap_Format plan = ArchiveZIP → (0 < ap_ExpandedBytes plan)%Z → (0 < ap_CompressedBytes plan)%Z).
Proof.
  intros [S1 S2 S3 S4 S5 [S6 S7] [S8 S9]] Hd (E1 & E2 & E3 & E4). unfold validateExpansion. rewrite E3, E4.
  intros Hv. pass_guards Hv. clear Hv. rename Heqb0 into Ez, Heqb1 into Er. split.
  - split; rewrite <- ?E1, <- ?E2, <- ?E3; try done; [split; [done|lia]|].
    intros Hp. apply andb_false_iff in Er as [Er|Er]; [bool_hyps; lia|done].
  - intros Hf He. unfold u64 in S9. rewrite (bool_decide_eq_true_2 _ Hf), andb_true_r in Ez.
    apply andb_false_iff in Ez as [Ez|Ez]; bool_hyps; lia.
Qed.

Lemma start_accounted limits format depth base :
  boundedLimits limits → u64 base → accounted limits base (mkArchivePlan format depth [] 0 base) [].
Proof.
  intros (B1 & B2 & B3) Hb. split; cbn; [done|constructor|constructor|constructor|done|lia|split; [lia|done]].
Qed.

(** C19: an archive that passes inspection can be extracted within its limits:
    its members are exactly the entries, in order; none is encrypted, a link or
    a special file; their paths are distinct and name something strictly below
    whatever directory they are extracted to; each size, the number of entries
    and the true sum of the sizes are within the limits, with no overflow in
    the 64-bit accounts; and the expansion ratio was not above its limit. *)
Theorem inspected_archive_is_bounded limits depth :
  unsignedLimits limits →
  (∀ ctx files archiveBytes plan, Forall (λ f, u64 (z_Size f) ∧ u64 (z_Compressed f)) files →
    InspectZIP ctx (Some files) archiveBytes depth limits = Ok plan →
    boundedPlan limits plan ∧ Forall2 zipMember files (ap_Entries plan) ∧
    ap_CompressedBytes plan = compressedSizes (ap_Entries plan) ∧ (0 < ap_ExpandedBytes plan → 0 < ap_CompressedBytes plan)%Z) ∧
  (∀ headers last archiveBytes plan, Forall (λ h, h_Size h < 2 ^ 63)%Z headers → (0 ≤ archiveBytes)%Z →
    InspectTAR headers last archiveBytes depth limits = Ok plan →
    boundedPlan limits plan ∧ Forall2 tarMember headers (ap_Entries plan) ∧ last = TarEOF ∧ ap_CompressedBytes plan =
      (archiveBytes + compressedSizes (ap_Entries plan))%Z).
Proof.
  intros Hu. split.
  - intros ctx files archiveBytes plan Hs. unfold InspectZIP. destruct (validateArchiveLimits _ _) as [limits'|] eqn:El; [|done].
    apply validateArchiveLimits_ok in El as (Hb & Hd & Hsame); [|done]. destruct (_ || _); [done|].
    destruct (zipLoop _ _ _ _ _ _) as [plan'|] eqn:Ez; [|done].
    apply zipLoop_accounted in Ez as ((seen & Ha) & Hf & Hdepth & entries & He & H2); [|done|done|by apply start_accounted].
    destruct (validateExpansion _ _) as [[]|] eqn:Ev; [|done]. intros [= <-]. cbn [ap_Format ap_Depth ap_Entries app] in *.
    destruct (accounted_bounded limits limits' 0 plan' seen Ha) as [Hp Hz]; [lia|done|done|]. rewrite He. split_and!; [done|done| |auto].
    rewrite <- He. apply Ha.
  - intros headers last archiveBytes plan Hs Hpos. unfold InspectTAR. destruct (validateArchiveLimits _ _) as [limits'|] eqn:El; [|done].
    apply validateArchiveLimits_ok in El as (Hb & Hd & Hsame); [|done]. destruct (_ <? _)%Z eqn:Ea; [done|]. bool_hyps.
    destruct (tarLoop _ _ _ _ _) as [plan'|] eqn:Ez; [|done].
    apply (tarLoop_accounted archiveBytes) in Ez as ((seen & Ha) & Hf & Hdepth & Hlast & entries & He & H2);
      [|done|done|apply start_accounted; [done|destruct Hb as (_ & Hb & _); unfold u64, two64; lia]].
    destruct (validateExpansion _ _) as [[]|] eqn:Ev; [|done]. intros [= <-]. cbn [ap_Format ap_Depth ap_Entries app] in *.
    destruct (accounted_bounded limits limits' archiveBytes plan' seen Ha) as [Hp _]; [lia|done|done|]. rewrite He. split_and!; [done|done|done|].
    rewrite <- He. apply Ha.
Qed.

(** ** An inspected archive *)

Definition demoLimits : ArchiveLimits := mkArchiveLimits 3 100 0 1000000 2000000 (float64 100).

Definition demoZip : list zipFile :=
  [mkZip "docs/" false Directory 0 0; mkZip "docs/a.txt" false Regular 5000 400; mkZip "b.txt" false Regular 700 300].

Definition demoPlan := InspectZIP (λ _, Live) (Some demoZip) 2000 1 demoLimits.

Lemma inspected_archive_is_bounded_witness :
  ∃ plan, demoPlan = Ok plan ∧ ap_ExpandedBytes plan = 5700%Z ∧ boundedPlan demoLimits plan.
Proof.
  assert (∃ plan, demoPlan = Ok plan ∧ ap_ExpandedBytes plan = 5700%Z) as (plan & Hp & He)
    by (eexists; split; [vm_compute; reflexivity|reflexivity]).
  exists plan. split; [exact Hp|]. split; [exact He|].
  destruct (inspected_archive_is_bounded demoLimits 1) as [Hz _]; [unfold unsignedLimits; cbn; lia|].
  destruct (Hz (λ _, Live) demoZip 2000%Z plan) as [Hb _]; [|exact Hp|exact Hb].
  repeat constructor; unfold two64; cbn; lia.
Defined.

Example inspection_refusals :
  map (λ f, match InspectZIP (λ _, Live) (Some [f]) 2000 0 demoLimits with Ok _ => "" | Err e => e end)
    [mkZip "../a" false Regular 1 1; mkZip "/a" false Regular 1 1; mkZip "a" true Regular 1 1; mkZip "a" false Symlink 1 1;
     mkZip "a" false Special 1 1; mkZip "a" false Regular 100000 10; mkZip "a" false Regular 10 0; mkZip "c:/x" false Regular 1 1] =
  ["ARCHIVE_PATH_UNSAFE"; "ARCHIVE_PATH_UNSAFE"; "ARCHIVE_ENCRYPTED"; "ARCHIVE_LINK_REJECTED"; "ARCHIVE_SPECIAL_FILE_REJECTED";
   "ARCHIVE_LIMIT_REACHED"; "ARCHIVE_LIMIT_REACHED"; "ARCHIVE_PATH_UNSAFE"].
Proof. vm_compute. reflexivity. Qed.

(** The limits of an archive accept a ratio that is not a number, and no
    expansion is then above it; the policy loader refuses such a ratio. *)
Theorem ratio_nan_disables_expansion_limit :
  let limits := mkArchiveLimits 3 100 0 1000000 2000000 S754_nan in
  is_Ok (validateArchiveLimits limits 0) = true ∧
  is_Ok (InspectZIP (λ _, Live) (Some [mkZip "a" false Regular 1000000 1]) 2000 0 limits) = true ∧
  badLimits (mkLimits 1000000 1000000 100 3 S754_nan 2000000 60) = true.
Proof. split_and!; vm_compute; reflexivity. Qed.
