(* ===== verification/Workspace.v ===== *)
(** * The workstation's file server

    Models [src/internal/workstation/server.go]: the guest service that receives
    files into the workspace's Inbox and streams files out of its Export
    directory.

    The surroundings are an [Env]: a function of the number of calls made so
    far.  It says which call fails, what a context poll answers, where a path
    leads and what the Export directory and its files hold at that moment, so
    the guest's user may change them between any two calls.  The Inbox is
    state, since the server writes it: a call on it happens or fails, and a
    failing write may leave some of its bytes.  Closing descriptors has no
    effect on files; opening a pipe, which blocks in the code, is taken to
    return. *)

From Stdlib Require Import ZArith Lia Ascii.
From stdpp Require Import strings base tactics option gmap relations sorting list.
From S2P Require Import Prelude GoText Sha256 Transfer.

Open Scope string_scope.
Open Scope list_scope.

Definition defaultMaxFileBytes : Z := 8589934592.
Definition defaultMaxWorkspaceBytes : Z := 17179869184.
Definition maxWorkspaceEntries : Z := 1024.
Definition maxWorkspaceFrames : Z := 8194.

(** ** Messages *)

Record Hash := mkHash { hash_Algorithm : string; hash_Value : list Z }.

Record FileDescriptor := mkDescriptor {
  fd_LogicalName : string;
  fd_SizeBytes : Z;
  fd_DetectedMime : string;
  fd_Digest : option Hash
}.

(** The frames of a transfer, a begin frame with whether it carries a request
    context; [FNone] is a frame without content. *)
Inductive TransferFrame :=
| FBegin (HasContext : bool) (TransferId : string) (Descriptor : option FileDescriptor)
| FChunk (Sequence : Z) (Data : list Z)
| FEnd (TotalSize : Z) (Digest : option Hash)
| FNone.

Record TransferReceipt := mkTransferReceipt {
  tr_TransferId : string;
  tr_Descriptor : option FileDescriptor;
  tr_ReceiverDigest : Hash
}.

Record WorkspaceEntry := mkEntry {
  we_OutputId : string;
  we_SizeBytes : Z;
  we_Exported : bool;
  we_ChangedSinceExport : bool
}.

Record WorkspaceState := mkState { ws_State : string; ws_Entries : list WorkspaceEntry }.

#[global] Instance hash_eq_dec : EqDecision Hash.
Proof. solve_decision. Defined.
#[global] Instance descriptor_eq_dec : EqDecision FileDescriptor.
Proof. solve_decision. Defined.
#[global] Instance frame_eq_dec : EqDecision TransferFrame.
Proof. solve_decision. Defined.
#[global] Instance workspace_header_eq_dec : EqDecision Header.
Proof. solve_decision. Defined.

(** ** Errors *)

Inductive Code := Canceled | InvalidArgument | DeadlineExceeded | NotFound | AlreadyExists | ResourceExhausted
  | FailedPrecondition | Internal.

Inductive workspace_error :=
| WorkspaceError (status : Code) (code : string)
| StreamError.

Inductive context_error := ContextCanceled | ContextDeadline.

Definition workspaceError (status : Code) (code : string) : workspace_error := WorkspaceError status code.

Definition transferFailure (code : string) : workspace_error := workspaceError InvalidArgument code.

Definition workspaceContextError (e : context_error) : workspace_error :=
  match e with
  | ContextDeadline => workspaceError DeadlineExceeded "TRANSFER_TIMEOUT"
  | ContextCanceled => workspaceError Canceled "TRANSFER_CANCELED"
  end.

Definition inboxChanged : workspace_error := workspaceError FailedPrecondition "WORKSPACE_INBOX_CHANGED".
Definition exportChanged : workspace_error := workspaceError FailedPrecondition "WORKSPACE_EXPORT_CHANGED".
Definition entryUnsafe : workspace_error := workspaceError FailedPrecondition "WORKSPACE_ENTRY_UNSAFE".

(** ** The surroundings *)

(** What [fstat] tells of a directory, and of an entry of Export: its type bits
    and which file it is. *)
Record identity := mkIdentity { id_Dev : Z; id_Ino : Z; id_Mode : Z }.
Record dirent := mkDirent { de_Mode : Z; de_File : Z }.

Record Env := mkEnv {
  fails : nat → bool;
  shortWrite : nat → nat;                             (* bytes a failing write leaves *)
  contextErr : nat → option context_error;
  pathAt : nat → string → option identity;            (* an absolute path without links *)
  childAt : nat → identity → string → option identity;
  exportAt : nat → gmap string dirent;                (* the pinned Export directory *)
  dataAt : nat → Z → list Z;                          (* the bytes of a file *)
  readLimit : nat → nat                               (* a read returns at most one more *)
}.

(** ** Pinned directories *)

Record pinnedDirectory := mkPinned {
  pd_path : string;
  pd_fd : Z;
  pd_device : Z;
  pd_inode : Z;
  pd_closed : bool
}.

Record directoryLease := mkLease { dl_path : string; dl_device : Z; dl_inode : Z }.

Definition S_IFMT : Z := 0xf000.
Definition S_IFDIR : Z := 0x4000.

Definition byName (a b : string * dirent) : Prop := string_le a.1 b.1.

#[global] Instance byName_dec : RelDecision byName.
Proof. intros a b. unfold byName. apply _. Defined.

Section Server.
Context (e : Env).

Definition openDirectoryPath (path : string) (t : nat) : option identity * nat :=
  (if fails e t then None else pathAt e t path, S t).

Definition pinDirectoryAt (parent : identity) (path name : string) (t : nat) : option pinnedDirectory * nat :=
  match (if fails e t then None else childAt e t parent name) with
  | None => (None, S t)
  | Some id =>
      if fails e (S t) || negb (Z.land (id_Mode id) S_IFMT =? S_IFDIR)%Z then (None, S (S t))
      else (Some (mkPinned path (Z.of_nat t) (id_Dev id) (id_Ino id) false), S (S t))
  end.

Definition lease (d : pinnedDirectory) (t : nat) : option directoryLease * nat :=
  if pd_closed d || (pd_fd d <? 0)%Z then (None, t)
  else if fails e t then (None, S t)
  else (Some (mkLease (pd_path d) (pd_device d) (pd_inode d)), S t).

Definition closePinned (d : pinnedDirectory) (t : nat) : bool * pinnedDirectory * nat :=
  if pd_closed d then (true, d, t)
  else (negb (fails e t), mkPinned (pd_path d) (-1) (pd_device d) (pd_inode d) true, S t).

Definition verifyPath (l : directoryLease) (t : nat) : bool * nat :=
  match openDirectoryPath (dl_path l) t with
  | (None, t) => (false, t)
  | (Some current, t) =>
      if fails e t then (false, S t)
      else ((id_Dev current =? dl_device l)%Z && (id_Ino current =? dl_inode l)%Z, S t)
  end.

(** ** The server *)

Record receipt := mkReceipt { rc_digest : list Z; rc_size : Z }.

Record exportFile := mkExportFile { ef_id : string; ef_name : string; ef_size : Z; ef_digest : list Z }.

Record Server := mkServer {
  inbox : pinnedDirectory;
  export : pinnedDirectory;
  maxFile : Z;
  maxTotal : Z;
  key : list Z;
  verified : gmap string receipt;
  sent : gmap string receipt
}.

#[local] Instance receipt_eq_dec : EqDecision receipt.
Proof. solve_decision. Defined.

Record Config := mkConfig { c_Root : string; c_MaxFileBytes : Z; c_MaxWorkspaceBytes : Z }.

Inductive new_error := RootNotClean | LimitsInvalid | ErrWorkspaceRoot | ErrWorkspaceInbox | ErrWorkspaceExport
  | KeyNotGenerated.

Definition CloseServer (s : Server) (t : nat) : bool * Server * nat :=
  let '(a, ib, t) := closePinned (inbox s) t in
  let '(b, ex, t) := closePinned (export s) t in
  (a && b, mkServer ib ex (maxFile s) (maxTotal s) (replicate 32 0%Z) (verified s) (sent s), t).

(** [random] is what [rand.Read] fills the key with, or its failure. *)
Definition New (config : Config) (random : option (list Z)) (t : nat) : result new_error Server * nat :=
  if negb (IsAbs (c_Root config)) || negb (bool_decide (Clean (c_Root config) = c_Root config)) ||
     bool_decide (c_Root config = "/")
  then (Err RootNotClean, t)
  else
  let mf := if (c_MaxFileBytes config =? 0)%Z then defaultMaxFileBytes else c_MaxFileBytes config in
  let mt := if (c_MaxWorkspaceBytes config =? 0)%Z then defaultMaxWorkspaceBytes else c_MaxWorkspaceBytes config in
  if (mf =? 0)%Z || (mt <? mf)%Z then (Err LimitsInvalid, t)
  else
  match openDirectoryPath (c_Root config) t with
  | (None, t) => (Err ErrWorkspaceRoot, t)
  | (Some root, t) =>
  match pinDirectoryAt root (Clean (c_Root config +:+ "/" +:+ "Inbox")) "Inbox" t with
  | (None, t) => (Err ErrWorkspaceInbox, t)
  | (Some ib, t) =>
  match pinDirectoryAt root (Clean (c_Root config +:+ "/" +:+ "Export")) "Export" t with
  | (None, t) => (Err ErrWorkspaceExport, (closePinned ib t).2)
  | (Some ex, t) =>
  match random with
  | None => (Err KeyNotGenerated, (CloseServer (mkServer ib ex mf mt [] ∅ ∅) t).2)
  | Some k => (Ok (mkServer ib ex mf mt k ∅ ∅), t)
  end end end end.

(** ** Helpers *)

Definition outputID (s : Server) (name : string) : string :=
  "output-" +:+ hexEncode (textOf (take 16 (hmacSHA256 (key s) (bytesOf name)))).

Definition sha256Size : nat := 32.

Definition descriptorHeader (descriptor : option FileDescriptor) (maximum : Z) : result workspace_error Header :=
  match descriptor with
  | None => Err (transferFailure "TRANSFER_DESCRIPTOR_INVALID")
  | Some d =>
  match fd_Digest d with
  | None => Err (transferFailure "TRANSFER_DESCRIPTOR_INVALID")
  | Some h =>
      fail_if (negb (bool_decide (hash_Algorithm h = "sha256")) || negb (length (hash_Value h) =? sha256Size)%nat)
        with (transferFailure "TRANSFER_DESCRIPTOR_INVALID") ;;
      let header := mkHeader (fd_LogicalName d) (fd_SizeBytes d) (hash_Value h) (fd_DetectedMime d) in
      match Validate header maximum with
      | Err _ => Err (transferFailure "TRANSFER_DESCRIPTOR_INVALID")
      | Ok _ => Ok header
      end
  end end.

Definition validHash (value : option Hash) (expected : list Z) : bool :=
  match value with
  | None => false
  | Some h => bool_decide (hash_Algorithm h = "sha256") && bool_decide (hash_Value h = expected)
  end.

Definition protoHash (value : list Z) : Hash := mkHash "sha256" value.

Definition opaqueChar (c : ascii) : bool := is_lower c || is_digit c || char_eqb c "-".

Definition validOpaqueID (value : string) : bool :=
  negb ((slen value <? 8)%Z || (128 <? slen value)%Z || negb (HasPrefix value "transfer-")) &&
  string_forallb opaqueChar value.

(** ** Importing *)

(** An entry of the Inbox: a regular file with its bytes, or anything else. *)
Inductive inboxEntry := Regular (data : list Z) | Special.

(** The Inbox, the number of calls made, and what the client still sends. *)
Record ImportWorld := mkImportWorld {
  iw_inbox : gmap string inboxEntry;
  iw_calls : nat;
  iw_frames : list TransferFrame;
  iw_closed : bool                      (* the client half-closes after its frames *)
}.

Definition tick (w : ImportWorld) : ImportWorld :=
  mkImportWorld (iw_inbox w) (S (iw_calls w)) (iw_frames w) (iw_closed w).
Definition setInbox (w : ImportWorld) (d : gmap string inboxEntry) : ImportWorld :=
  mkImportWorld d (S (iw_calls w)) (iw_frames w) (iw_closed w).
Definition atCall (w : ImportWorld) (t : nat) : ImportWorld :=
  mkImportWorld (iw_inbox w) t (iw_frames w) (iw_closed w).

(** A call that changes nothing the model keeps: sync, close, fsync, send. *)
Definition plainCall (w : ImportWorld) : bool * ImportWorld := (negb (fails e (iw_calls w)), tick w).

Inductive received := RFrame (f : TransferFrame) | REOF | RError.

Definition Recv (w : ImportWorld) : received * ImportWorld :=
  if fails e (iw_calls w) then (RError, tick w)
  else match iw_frames w with
       | f :: rest => (RFrame f, mkImportWorld (iw_inbox w) (S (iw_calls w)) rest (iw_closed w))
       | [] => (if iw_closed w then REOF else RError, tick w)
       end.

Definition contextPoll (w : ImportWorld) : option context_error * ImportWorld := (contextErr e (iw_calls w), tick w).

Definition verifyInbox (l : directoryLease) (w : ImportWorld) : bool * ImportWorld :=
  let '(ok, t) := verifyPath l (iw_calls w) in (ok, atCall w t).

Definition openExclusiveAt (name : string) (w : ImportWorld) : bool * ImportWorld :=
  if fails e (iw_calls w) || bool_decide (is_Some (iw_inbox w !! name)) then (false, tick w)
  else (true, setInbox w (<[name := Regular []]> (iw_inbox w))).

(** A write to the open staging file: all of it, or some of it and an error. *)
Definition fileWrite (name : string) (data : list Z) (w : ImportWorld) : result unit unit * ImportWorld :=
  match iw_inbox w !! name with
  | Some (Regular d) =>
      if fails e (iw_calls w)
      then (Err tt, setInbox w (<[name := Regular (d ++ take (shortWrite e (iw_calls w)) data)]> (iw_inbox w)))
      else (Ok tt, setInbox w (<[name := Regular (d ++ data)]> (iw_inbox w)))
  | _ => (Err tt, tick w)
  end.

Definition fileWriter (name : string) : Writer ImportWorld := {| Write := fileWrite name |}.

(** [renameat2] with [RENAME_NOREPLACE] *)
Definition renameNoReplace (old new : string) (w : ImportWorld) : bool * ImportWorld :=
  match iw_inbox w !! old with
  | Some entry =>
      if fails e (iw_calls w) || bool_decide (is_Some (iw_inbox w !! new)) then (false, tick w)
      else (true, setInbox w (<[new := entry]> (delete old (iw_inbox w))))
  | None => (false, tick w)
  end.

Definition unlink (name : string) (w : ImportWorld) : ImportWorld :=
  if fails e (iw_calls w) then tick w else setInbox w (delete name (iw_inbox w)).

(** The loop up to a matching final frame; [n] is what is left of the frame
    limit. *)
Fixpoint receiveLoop (n : nat) (partialName : string) (header : Header) (receiver : Receiver) (sequence offset : Z)
    (w : ImportWorld) : result workspace_error Receiver * ImportWorld :=
  match n with
  | O => (Err (workspaceError ResourceExhausted "TRANSFER_FRAME_LIMIT"), w)
  | S n =>
  match contextPoll w with
  | (Some err, w) => (Err (workspaceContextError err), w)
  | (None, w) =>
  match Recv w with
  | (RFrame (FChunk seq data), w) =>
      if negb (seq =? sequence)%Z then (Err (transferFailure "TRANSFER_SEQUENCE_INVALID"), w)
      else if (len data =? 0)%Z || (DefaultMaxChunk <? len data)%Z
      then (Err (transferFailure "TRANSFER_CHUNK_INVALID"), w)
      else
        match WriteChunk (H := fileWriter partialName) receiver offset data w with
        | (Some _, _, w) => (Err (transferFailure "TRANSFER_CHUNK_INVALID"), w)
        | (None, receiver, w) =>
            receiveLoop n partialName header receiver (add64 sequence 1) (add64 offset (len data)) w
        end
  | (RFrame (FEnd total digest), w) =>
      if negb (total =? h_Size header)%Z || negb (validHash digest (h_SHA256 header))
      then (Err (transferFailure "TRANSFER_END_INVALID"), w)
      else (Ok receiver, w)
  | (RFrame _, w) => (Err (transferFailure "TRANSFER_END_INVALID"), w)
  | (_, w) =>
      match contextPoll w with
      | (Some err, w) => (Err (workspaceContextError err), w)
      | (None, w) => (Err (workspaceError InvalidArgument "TRANSFER_INCOMPLETE"), w)
      end
  end end end.

(** What follows the final frame; the flag is [published]. *)
Definition publishImport (transferID : string) (descriptor : option FileDescriptor) (partialName : string)
    (header : Header) (l : directoryLease) (receiver : Receiver) (w : ImportWorld) :
    result workspace_error TransferReceipt * bool * ImportWorld :=
  match Recv w with
  | (RFrame _, w) | (RError, w) =>
      match contextPoll w with
      | (Some err, w) => (Err (workspaceContextError err), false, w)
      | (None, w) => (Err (transferFailure "TRANSFER_TRAILING_FRAME"), false, w)
      end
  | (REOF, w) =>
  match Finish receiver with
  | Err _ => (Err (transferFailure "TRANSFER_DIGEST_MISMATCH"), false, w)
  | Ok _ =>
  match plainCall w with
  | (false, w) => (Err (transferFailure "TRANSFER_SYNC_FAILED"), false, w)
  | (true, w) =>
  match plainCall w with
  | (false, w) => (Err (transferFailure "TRANSFER_SYNC_FAILED"), false, w)
  | (true, w) =>
  match verifyInbox l w with
  | (false, w) => (Err inboxChanged, false, w)
  | (true, w) =>
  match renameNoReplace partialName (h_Name header) w with
  | (false, w) => (Err (workspaceError AlreadyExists "IMPORT_TARGET_EXISTS"), false, w)
  | (true, w) =>
  match plainCall w with
  | (false, w) => (Err (transferFailure "TRANSFER_SYNC_FAILED"), true, w)
  | (true, w) =>
  match verifyInbox l w with
  | (false, w) => (Err inboxChanged, true, w)
  | (true, w) =>
  match plainCall w with
  | (false, w) => (Err StreamError, true, w)
  | (true, w) => (Ok (mkTransferReceipt transferID descriptor (protoHash (h_SHA256 header))), true, w)
  end end end end end end end end end.

Definition partialOf (transferID : string) : string := "." +:+ transferID +:+ ".partial".

(** The call from the open staging file on; [published] is as above. *)
Definition importOpened (s : Server) (transferID : string) (descriptor : option FileDescriptor) (partialName : string)
    (header : Header) (l : directoryLease) (w : ImportWorld) :
    result workspace_error TransferReceipt * bool * ImportWorld :=
  match NewReceiver header (maxFile s) with
  | Err _ => (Err (transferFailure "TRANSFER_DESCRIPTOR_INVALID"), false, w)
  | Ok receiver =>
      match receiveLoop (Z.to_nat (maxWorkspaceFrames - 1)) partialName header receiver 0 0 w with
      | (Err err, w) => (Err err, false, w)
      | (Ok receiver, w) => publishImport transferID descriptor partialName header l receiver w
      end
  end.

Definition ImportFile (s : Server) (w : ImportWorld) : result workspace_error TransferReceipt * ImportWorld :=
  match Recv w with
  | (RFrame (FBegin _ transferID descriptor), w) =>
      if negb (validOpaqueID transferID) then (Err (workspaceError InvalidArgument "TRANSFER_ID_INVALID"), w)
      else
      match descriptorHeader descriptor (maxFile s) with
      | Err err => (Err err, w)
      | Ok header =>
      match lease (inbox s) (iw_calls w) with
      | (None, t) => (Err inboxChanged, atCall w t)
      | (Some l, t) =>
      match verifyInbox l (atCall w t) with
      | (false, w) => (Err inboxChanged, w)
      | (true, w) =>
      let partialName := partialOf transferID in
      match openExclusiveAt partialName w with
      | (false, w) => (Err (workspaceError AlreadyExists "IMPORT_STAGING_CONFLICT"), w)
      | (true, w) =>
          let '(r, published, w) := importOpened s transferID descriptor partialName header l w in
          (* the deferred close and cleanup; [keep] is set just before success *)
          let w := (plainCall w).2 in
          match r with
          | Ok _ => (r, w)
          | Err _ => (r, tick (unlink (if published : bool then h_Name header else partialName) w))
          end
      end end end end
  | (_, w) => (Err (workspaceError InvalidArgument "TRANSFER_BEGIN_REQUIRED"), w)
  end.

(** ** The inventory of Export *)

(** [file.Read] at an offset into a buffer of one chunk. *)
Definition readAt (file offset : Z) (t : nat) : list Z :=
  take (Nat.min (S (readLimit e t)) (Z.to_nat DefaultMaxChunk)) (drop (Z.to_nat offset) (dataAt e t file)).

Inductive read_outcome := RData (data : list Z) | RDone | RFailed.

Definition fileRead (file offset : Z) (t : nat) : read_outcome * nat :=
  (if fails e t then RFailed else match readAt file offset t with [] => RDone | data => RData data end, S t).

(** Go's conversion of a [uint64] to an [int64]. *)
Definition toInt64 (x : Z) : Z := if (x <? 9223372036854775808)%Z then x else (x - two64)%Z.

(** [openRegularAt]: the file and the size it has when it is opened. *)
Definition openRegularAt (name : string) (maximum : Z) (t : nat) : option (Z * Z) * nat :=
  match (if fails e t then None else exportAt e t !! name) with
  | None => (None, S t)
  | Some d =>
      if negb (Z.land (de_Mode d) 0x8000000 =? 0)%Z then (None, S t)   (* O_NOFOLLOW *)
      else
        let size := len (dataAt e (S t) (de_File d)) in
        if fails e (S t) || negb (Z.land (de_Mode d) ModeType =? 0)%Z || (size <? 0)%Z || (maximum <? size)%Z
        then (None, S (S t))
        else (Some (de_File d, size), S (S t))
  end.

(** The loop of [hashFile]; [None] is out of fuel, the value the bytes hashed. *)
Fixpoint hashBytes (fuel : nat) (file maximum total : Z) (hash : list Z) (t : nat) :
    option (result unit (list Z)) * nat :=
  match fuel with
  | O => (None, t)
  | S fuel =>
      if bool_decide (is_Some (contextErr e t)) then (Some (Err tt), S t)
      else
        match fileRead file (len hash) (S t) with
        | (RDone, t) => (Some (Ok hash), t)
        | (RFailed, t) => (Some (Err tt), t)
        | (RData data, t) =>
            if (sub64 maximum total <? len data)%Z then (Some (Err tt), t)
            else hashBytes fuel file maximum (add64 total (len data)) (hash ++ data) t
        end
  end.

Definition hashFile (file maximum : Z) (t : nat) : option (result unit (list Z)) * nat :=
  match hashBytes (S (Z.to_nat maximum)) file maximum 0 [] t with
  | (Some (Ok bytes), t) => (Some (Ok (sha256 bytes)), t)
  | (Some (Err _), t) => (Some (Err tt), t)
  | (None, t) => (None, t)
  end.

(** [readDirectoryEntries]: open, read and close. *)
Definition readDirectoryEntries (t : nat) : option (list (string * dirent)) * nat :=
  if fails e t then (None, S t)
  else if fails e (S t) || fails e (S (S t)) then (None, S (S (S t)))
  else (Some (map_to_list (exportAt e (S t))), S (S (S t))).

Definition isDirOrLink (mode : Z) : bool := negb (Z.land mode 0x88000000 =? 0)%Z.

(** The loop over the sorted entries. *)
Fixpoint inventoryLoop (s : Server) (entries : list (string * dirent)) (total : Z) (files : list exportFile) (t : nat) :
    option (result workspace_error (list exportFile)) * nat :=
  match entries with
  | [] => (Some (Ok files), t)
  | (name, entry) :: rest =>
      if bool_decide (is_Some (contextErr e t))
      then (Some (Err (workspaceError Canceled "WORKSPACE_INVENTORY_CANCELED")), S t)
      else if isDirOrLink (de_Mode entry) ||
              negb (is_Ok (Validate (mkHeader name 0 (replicate 32 0%Z) "") (maxFile s)))
      then (Some (Err entryUnsafe), S t)
      else
      match openRegularAt name (toInt64 (maxFile s)) (S t) with
      | (None, t) => (Some (Err entryUnsafe), t)
      | (Some (file, size), t) =>
      match hashFile file (maxFile s) t with
      | (None, t) => (None, t)
      | (Some (Err _), t) => (Some (Err (workspaceError Internal "WORKSPACE_HASH_FAILED")), S t)
      | (Some (Ok digest), t) =>
          if fails e t then (Some (Err (workspaceError Internal "WORKSPACE_HASH_FAILED")), S t)
          else if (sub64 (maxTotal s) total <? size)%Z
          then (Some (Err (workspaceError ResourceExhausted "WORKSPACE_CAPACITY_EXCEEDED")), S t)
          else inventoryLoop s rest (add64 total size) (files ++ [mkExportFile (outputID s name) name size digest]) (S t)
      end end
  end.

Definition inventory (s : Server) (t : nat) : option (result workspace_error (list exportFile)) * nat :=
  match lease (export s) t with
  | (None, t) => (Some (Err exportChanged), t)
  | (Some l, t) =>
  match verifyPath l t with
  | (false, t) => (Some (Err exportChanged), t)
  | (true, t) =>
  match readDirectoryEntries t with
  | (None, t) => (Some (Err (workspaceError FailedPrecondition "WORKSPACE_INVENTORY_FAILED")), t)
  | (Some entries, t) =>
  if (maxWorkspaceEntries <? len entries)%Z
  then (Some (Err (workspaceError FailedPrecondition "WORKSPACE_INVENTORY_FAILED")), t)
  else
  match inventoryLoop s (merge_sort byName entries) 0 [] t with
  | (Some (Ok files), t) =>
      match verifyPath l t with
      | (false, t) => (Some (Err exportChanged), t)
      | (true, t) => (Some (Ok files), t)
      end
  | (r, t) => (r, t)
  end end end end.

(** ** The state of the workspace *)

Definition isExported (s : Server) (f : exportFile) : bool :=
  match verified s !! ef_id f with
  | Some v => (rc_size v =? ef_size f)%Z && bool_decide (rc_digest v = ef_digest f)
  | None => false
  end.

Definition isChanged (s : Server) (f : exportFile) : bool :=
  match verified s !! ef_id f with
  | Some v => negb (rc_size v =? ef_size f)%Z || negb (bool_decide (rc_digest v = ef_digest f))
  | None => false
  end.

(** The section under the lock, given the inventory. *)
Definition classify (s : Server) (files : list exportFile) : WorkspaceState :=
  let entries := map (λ f, mkEntry (ef_id f) (ef_size f) (isExported s f) (isChanged s f)) files in
  mkState (if existsb we_ChangedSinceExport entries then "CHANGED"
           else if existsb (λ x, negb (we_Exported x)) entries then "UNEXPORTED"
           else if (0 <? len files)%Z then "READY" else "CLEAN") entries.

Definition workspaceState (s : Server) (t : nat) : option (result workspace_error WorkspaceState) * nat :=
  match inventory s t with
  | (None, t) => (None, t)
  | (Some (Err err), t) => (Some (Err err), t)
  | (Some (Ok files), t) => (Some (Ok (classify s files)), t)
  end.

(** ** Exporting *)

Definition selectFile (files : list exportFile) (id : string) : option exportFile :=
  snd <$> list_find (λ f, ef_id f = id) files.

(** The read and send loop; a send that fails ends the call. *)
Fixpoint streamFile (fuel : nat) (file : Z) (sequence offset : Z) (frames : list TransferFrame) (t : nat) :
    option (result workspace_error unit) * list TransferFrame * nat :=
  match fuel with
  | O => (None, frames, t)
  | S fuel =>
      match fileRead file offset t with
      | (RDone, t) => (Some (Ok tt), frames, t)
      | (RFailed, t) => (Some (Err (transferFailure "TRANSFER_READ_FAILED")), frames, t)
      | (RData data, t) =>
          if fails e t then (Some (Err StreamError), frames, S t)
          else streamFile fuel file (add64 sequence 1) (offset + len data)%Z (frames ++ [FChunk sequence data]) (S t)
      end
  end.

(** The frames are those the stream accepted.  The final section under the lock
    is the update of [sent]; nothing before it depends on the tables. *)
Definition ExportFile (fuel : nat) (s : Server) (id : string) (t : nat) :
    option (result workspace_error unit) * list TransferFrame * Server * nat :=
  match inventory s t with
  | (None, t) => (None, [], s, t)
  | (Some (Err err), t) => (Some (Err err), [], s, t)
  | (Some (Ok files), t) =>
  match selectFile files id with
  | None => (Some (Err (workspaceError NotFound "WORKSPACE_OUTPUT_NOT_FOUND")), [], s, t)
  | Some selected =>
  match lease (export s) t with
  | (None, t) => (Some (Err exportChanged), [], s, t)
  | (Some l, t) =>
  match verifyPath l t with
  | (false, t) => (Some (Err exportChanged), [], s, t)
  | (true, t) =>
  match openRegularAt (ef_name selected) (toInt64 (maxFile s)) t with
  | (None, t) => (Some (Err (workspaceError FailedPrecondition "WORKSPACE_OUTPUT_CHANGED")), [], s, t)
  | (Some (file, size), t) =>
  if negb (size =? ef_size selected)%Z
  then (Some (Err (workspaceError FailedPrecondition "WORKSPACE_OUTPUT_CHANGED")), [], s, t)
  else if fails e t then (Some (Err StreamError), [], s, S t)
  else
  let begin := FBegin false (ef_id selected)
    (Some (mkDescriptor (ef_name selected) (ef_size selected) "" (Some (protoHash (ef_digest selected))))) in
  match streamFile fuel file 0 0 [begin] (S t) with
  | (None, frames, t) => (None, frames, s, t)
  | (Some (Err err), frames, t) => (Some (Err err), frames, s, t)
  | (Some (Ok _), frames, t) =>
  if fails e t then (Some (Err StreamError), frames, s, S t)
  else
  let frames := frames ++ [FEnd (ef_size selected) (Some (protoHash (ef_digest selected)))] in
  match verifyPath l (S t) with
  | (false, t) => (Some (Err exportChanged), frames, s, t)
  | (true, t) =>
      (Some (Ok tt), frames,
       mkServer (inbox s) (export s) (maxFile s) (maxTotal s) (key s) (verified s)
         (<[ef_id selected := mkReceipt (ef_digest selected) (ef_size selected)]> (sent s)), t)
  end end end end end end end.

Definition MarkExportVerified (s : Server) (id : string) (digest : option Hash) (t : nat) :
    option (result workspace_error WorkspaceState) * Server * nat :=
  match inventory s t with
  | (None, t) => (None, s, t)
  | (Some (Err err), t) => (Some (Err err), s, t)
  | (Some (Ok files), t) =>
  match selectFile files id with
  | None => (Some (Err (workspaceError FailedPrecondition "EXPORT_VERIFICATION_MISMATCH")), s, t)
  | Some current =>
  if negb (validHash digest (ef_digest current))
  then (Some (Err (workspaceError FailedPrecondition "EXPORT_VERIFICATION_MISMATCH")), s, t)
  else
  match sent s !! ef_id current with
  | Some r =>
      if bool_decide (rc_digest r = ef_digest current) && (rc_size r =? ef_size current)%Z
      then
        let s := mkServer (inbox s) (export s) (maxFile s) (maxTotal s) (key s)
                   (<[ef_id current := r]> (verified s)) (sent s) in
        let '(r, t) := workspaceState s t in (r, s, t)
      else (Some (Err (workspaceError FailedPrecondition "EXPORT_NOT_STREAMED")), s, t)
  | None => (Some (Err (workspaceError FailedPrecondition "EXPORT_NOT_STREAMED")), s, t)
  end end end.

End Server.

#[global] Arguments validOpaqueID : simpl never.
#[global] Arguments descriptorHeader : simpl never.
#[global] Arguments outputID : simpl never.
#[global] Arguments readAt : simpl never.
#[global] Arguments fileRead : simpl never.
#[global] Arguments openRegularAt : simpl never.
#[global] Arguments hashFile : simpl never.
#[global] Arguments inventory : simpl never.

(** Data in frames numbered from [sequence]. *)
Fixpoint chunkFrames (sequence : Z) (datas : list (list Z)) : list TransferFrame :=
  match datas with
  | [] => []
  | data :: rest => FChunk sequence data :: chunkFrames (add64 sequence 1) rest
  end.

Lemma descriptorHeader_ok descriptor maximum header :
  descriptorHeader descriptor maximum = Ok header →
  ∃ d h, descriptor = Some d ∧ fd_Digest d = Some h ∧ hash_Algorithm h = "sha256" ∧
    length (hash_Value h) = 32%nat ∧
    header = mkHeader (fd_LogicalName d) (fd_SizeBytes d) (hash_Value h) (fd_DetectedMime d) ∧
    Validate header maximum = Ok tt.
Proof.
  unfold descriptorHeader. intros H. destruct descriptor as [d|]; [|done]. destruct (fd_Digest d) as [h|] eqn:Hh; [|done].
  pass_guards H. destruct (Validate _ maximum) as [[]|] eqn:Hv; [|done]. injection H as <-.
  exists d, h. bool_hyps. split_and!; try done.
Qed.

Lemma validHash_ok value expected :
  validHash value expected = true ↔ value = Some (protoHash expected).
Proof.
  unfold validHash, protoHash. destruct value as [[a v]|]; [|by split]. simpl.
  rewrite andb_true_iff, !bool_decide_eq_true. split; [by intros [-> ->]|]. by intros [= -> ->].
Qed.

Lemma Validate_size h maximum : Validate h maximum = Ok tt → (h_Size h ≤ maximum)%Z.
Proof. unfold Validate. intros H. pass_guards H. bool_hyps. lia. Qed.

Lemma sha256_hash h : hash_Algorithm h = "sha256" → h = protoHash (hash_Value h).
Proof. destruct h as [a v]. simpl. by intros ->. Qed.

(** ** Importing: what a call does to the Inbox *)

Section ImportLemmas.
Context (e : Env).

Lemma Recv_inbox w r w' :
  Recv e w = (r, w') → iw_inbox w' = iw_inbox w ∧
    match r with
    | RFrame f => iw_frames w = f :: iw_frames w'
    | REOF => iw_frames w = [] ∧ iw_closed w = true
    | RError => True
    end ∧ iw_closed w' = iw_closed w.
Proof.
  unfold Recv. destruct (fails e _); [by intros [= <- <-]|].
  destruct (iw_frames w) as [|f rest] eqn:Hf; [|by intros [= <- <-]]. intros [= <- <-]. simpl.
  by destruct (iw_closed w).
Qed.

Lemma fileWrite_staging I p d data w o w' :
  iw_inbox w = <[p := Regular d]> I → fileWrite e p data w = (o, w') →
  ∃ d', iw_inbox w' = <[p := Regular d']> I ∧ (o = Ok tt → d' = d ++ data) ∧
    iw_frames w' = iw_frames w ∧ iw_closed w' = iw_closed w.
Proof.
  intros Hi. unfold fileWrite. rewrite Hi, lookup_insert_eq.
  destruct (fails e _); intros [= <- <-]; simpl; rewrite insert_insert_eq; by eexists.
Qed.

#[local] Instance fileWriterSpec p : @WriterSpec ImportWorld (fileWriter e p).
Proof.
  refine {| contents w := match iw_inbox w !! p with Some (Regular d) => d | _ => [] end |}.
  intros data w w'. simpl. unfold fileWrite. destruct (iw_inbox w !! p) as [[d|]|]; [|done|done].
  destruct (fails e _); [done|]. intros [= <-]. simpl. by rewrite lookup_insert_eq.
Defined.

Lemma WriteChunk_staging I p r offset data w o r' w' :
  iw_inbox w = <[p := Regular (rc_hash r)]> I →
  WriteChunk (H := fileWriter e p) r offset data w = (o, r', w') →
  ∃ d', iw_inbox w' = <[p := Regular d']> I ∧ (o = None → d' = rc_hash r ++ data) ∧
    iw_frames w' = iw_frames w ∧ iw_closed w' = iw_closed w.
Proof.
  intros Hi. unfold WriteChunk. destruct (negb _); [intros [= <- <- <-]; by eexists|].
  destruct (_ <? len _)%Z; [intros [= <- <- <-]; by eexists|].
  destruct (_ <? add64 _ _)%Z; [intros [= <- <- <-]; by eexists|].
  destruct (Write data w) as [o' w1] eqn:Hw. simpl in Hw.
  destruct (fileWrite_staging _ _ _ _ _ _ _ Hi Hw) as (d' & Hd & Ho & Hf).
  destruct o' as [[]|]; intros [= <- <- <-]; exists d'; (split; [done|]); (split; [naive_solver|done]).
Qed.

(** The loop touches only the staging file; when it reaches a matching end, the
    staging file holds the bytes of the frames it consumed. *)
Lemma receiveLoop_staging I p header n r sequence offset w res w' :
  receiving r → iw_inbox w = <[p := Regular (rc_hash r)]> I →
  receiveLoop e n p header r sequence offset w = (res, w') →
  iw_closed w' = iw_closed w ∧
  ∃ d, iw_inbox w' = <[p := Regular d]> I ∧
    ∀ r', res = Ok r' → d = rc_hash r' ∧ receiving r' ∧ rc_expected r' = rc_expected r ∧
      ∃ datas, rc_hash r' = rc_hash r ++ concat datas ∧
        iw_frames w = chunkFrames sequence datas ++
          FEnd (h_Size header) (Some (protoHash (h_SHA256 header))) :: iw_frames w'.
Proof.
  revert r sequence offset w. induction n as [|n IH]; intros r sequence offset w Hr Hi He; simpl in He.
  { injection He as <- <-. by split; [|eexists]. }
  destruct (contextErr e (iw_calls w)); [injection He as <- <-; by split; [|eexists]|].
  destruct (Recv e (tick w)) as [rc w1] eqn:Hrc. apply Recv_inbox in Hrc as (Hi1 & Hf1 & Hc1).
  simpl in Hi1, Hf1, Hc1. rewrite Hi in Hi1.
  destruct rc as [[ctx id d|seq data|total digest| ]| | ].
  1,4: injection He as <- <-; by split; [|eexists].
  3,4: destruct (contextErr e (iw_calls w1)); injection He as <- <-; by split; [|eexists].
  - destruct (seq =? sequence)%Z eqn:Hseq; simpl in He; [|injection He as <- <-; by split; [|eexists]].
    destruct (_ || _); [injection He as <- <-; by split; [|eexists]|].
    destruct (WriteChunk r offset data w1) as [[o r1] w2] eqn:Hw.
    destruct (WriteChunk_staging _ _ _ _ _ _ _ _ _ Hi1 Hw) as (d' & Hd & Ho & Hf2 & Hc2).
    destruct o as [err|]; [injection He as <- <-; split; [congruence|by exists d']|].
    destruct (WriteChunk_ok r offset data w1 r1 w2 Hr Hw) as (Hr1 & _ & Hx & Hh & _).
    rewrite Ho, <- Hh in Hd by done.
    destruct (IH _ _ _ _ Hr1 Hd He) as (Hc & d1 & Hd1 & Hok). split; [congruence|].
    exists d1. split; [done|]. intros r' Hres. destruct (Hok r' Hres) as (-> & Hr' & Hx' & datas & Hh' & Hf).
    split_and!; [done|done|congruence|]. apply Z.eqb_eq in Hseq as ->.
    exists (data :: datas). split; [simpl; by rewrite Hh', Hh, app_assoc|]. rewrite Hf1. simpl. by rewrite <- Hf2, Hf.
  - destruct (negb (total =? h_Size header)%Z || negb (validHash digest (h_SHA256 header))) eqn:Hg;
      injection He as <- <-; (split; [done|]); exists (rc_hash r); (split; [done|]); [done|].
    intros r' [= <-]. apply orb_false_iff in Hg as [Ht Hd]. rewrite negb_false_iff in Ht, Hd.
    apply Z.eqb_eq in Ht as ->. apply validHash_ok in Hd as ->.
    split_and!; try done. exists []. simpl. by rewrite app_nil_r.
Qed.

Lemma renameNoReplace_staging I p d new w ok w' :
  I !! p = None → iw_inbox w = <[p := Regular d]> I → renameNoReplace e p new w = (ok, w') →
  if ok then I !! new = None ∧ iw_inbox w' = <[new := Regular d]> I else iw_inbox w' = <[p := Regular d]> I.
Proof.
  intros Hn Hi. unfold renameNoReplace. rewrite Hi, lookup_insert_eq.
  destruct (fails e _ || _) eqn:Hg; intros [= <- <-]; [done|]. bool_hyps. simpl.
  rewrite delete_insert_id by done. apply eq_None_not_Some in H0. by apply lookup_insert_None in H0 as [? _].
Qed.

Lemma verifyInbox_inbox l w ok w' :
  verifyInbox e l w = (ok, w') → iw_inbox w' = iw_inbox w.
Proof. unfold verifyInbox. destruct (verifyPath e l (iw_calls w)). by intros [= <- <-]. Qed.

Lemma verifyInbox_stream l w ok w' :
  verifyInbox e l w = (ok, w') → iw_frames w' = iw_frames w ∧ iw_closed w' = iw_closed w.
Proof. unfold verifyInbox. destruct (verifyPath e l (iw_calls w)). by intros [= <- <-]. Qed.

(** Publishing moves the verified staging file to a name that was free. *)
Lemma publishImport_staging I p id descriptor header l r w res published w' :
  I !! p = None → iw_inbox w = <[p := Regular (rc_hash r)]> I →
  publishImport e id descriptor p header l r w = (res, published, w') →
  (if published
   then Finish r = Ok tt ∧ I !! h_Name header = None ∧ iw_inbox w' = <[h_Name header := Regular (rc_hash r)]> I
   else iw_inbox w' = <[p := Regular (rc_hash r)]> I) ∧
  (∀ receipt, res = Ok receipt → published = true ∧ iw_frames w = [] ∧ iw_closed w = true ∧
     receipt = mkTransferReceipt id descriptor (protoHash (h_SHA256 header))).
Proof.
  intros Hn Hi. unfold publishImport.
  destruct (Recv e w) as [rc w1] eqn:Hrc. apply Recv_inbox in Hrc as (Hi1 & Hf1 & Hc1). rewrite Hi in Hi1.
  destruct rc as [f| | ].
  1,3: unfold contextPoll; destruct (contextErr e (iw_calls w1)); intros [= <- <- <-]; by split.
  destruct Hf1 as [Hf1 Hcl]. destruct (Finish r) as [[]|err] eqn:Hfin; [|intros [= <- <- <-]; by split].
  unfold plainCall. destruct (fails e (iw_calls w1)); simpl; [intros [= <- <- <-]; by split|].
  destruct (fails e (S (iw_calls w1))); simpl; [intros [= <- <- <-]; by split|].
  destruct (verifyInbox e l (tick (tick w1))) as [ok w2] eqn:Hv. apply verifyInbox_inbox in Hv. simpl in Hv.
  rewrite Hi1 in Hv. destruct ok; [|intros [= <- <- <-]; by split].
  destruct (renameNoReplace e p (h_Name header) w2) as [ok w3] eqn:Hren.
  pose proof (renameNoReplace_staging I p _ _ _ _ _ Hn Hv Hren) as Hmoved. clear Hren. destruct ok; [|intros [= <- <- <-]; by split].
  destruct (fails e (iw_calls w3)); simpl; [intros [= <- <- <-]; by split|].
  destruct (verifyInbox e l (tick w3)) as [ok w4] eqn:Hv2. apply verifyInbox_inbox in Hv2. simpl in Hv2.
  destruct Hmoved as [Hfree Hmoved]. rewrite Hmoved in Hv2.
  destruct ok; [|intros [= <- <- <-]; by split].
  destruct (fails e (iw_calls w4)); simpl; intros [= <- <- <-]; (split; [by split_and!|]); [done|].
  intros receipt [= <-]. by split_and!.
Qed.

Lemma unlink_insert I name d w :
  I !! name = None → iw_inbox w = <[name := Regular d]> I →
  iw_inbox (unlink e name w) = I ∨
  (fails e (iw_calls w) = true ∧ iw_inbox (unlink e name w) = <[name := Regular d]> I).
Proof.
  intros Hn Hi. unfold unlink. destruct (fails e (iw_calls w)) eqn:Hf; [by right|]. left. simpl.
  by rewrite Hi, delete_insert_id.
Qed.

(** A call with an open, empty staging file ends with that file holding some
    bytes, or published with the declared ones. *)
Lemma importOpened_staging s I p id descriptor header l w res published w' :
  I !! p = None → iw_inbox w = <[p := Regular []]> I → (0 ≤ h_Size header)%Z → (h_Size header + DefaultMaxChunk < two64)%Z →
  importOpened e s id descriptor p header l w = (res, published, w') →
  ∃ data,
    (if published
     then len data = h_Size header ∧ sha256 data = h_SHA256 header ∧ I !! h_Name header = None ∧
       iw_inbox w' = <[h_Name header := Regular data]> I
     else iw_inbox w' = <[p := Regular data]> I) ∧
    (∀ receipt, res = Ok receipt → published = true ∧ iw_closed w = true ∧
       receipt = mkTransferReceipt id descriptor (protoHash (h_SHA256 header)) ∧
       ∃ datas, data = concat datas ∧
         iw_frames w = chunkFrames 0 datas ++ [FEnd (h_Size header) (Some (protoHash (h_SHA256 header)))]).
Proof.
  intros Hn Hi Hnn Hroom. unfold importOpened, NewReceiver.
  destruct (Validate header (maxFile s)); [|intros [= <- <- <-]; by exists []].
  generalize (Z.to_nat (maxWorkspaceFrames - 1)). intros n.
  destruct (receiveLoop e n p header _ 0 0 w) as [res1 w1] eqn:Hl.
  apply (receiveLoop_staging I) in Hl as (Hc & d & Hd & Hok); [|by split|done].
  destruct res1 as [r1|err]; [|intros [= <- <- <-]; by exists d].
  destruct (Hok r1 eq_refl) as (-> & [Hw Hs Hr] & Hx & datas & Hh & Hf). intros Hp. simpl in *.
  apply (publishImport_staging I) in Hp as [Hp Hrec]; [|done|done]. exists (rc_hash r1). split.
  - destruct published; [|done]. destruct Hp as (Hfin & Hfree & Hp). apply Finish_ok in Hfin as [Hsz Hsha].
    rewrite Hx in Hsz, Hsha. simpl in *. split_and!; [lia|done|done|done].
  - intros receipt Hres. destruct (Hrec receipt Hres) as (-> & Hnil & Hcl & ->).
    split_and!; [done|congruence|done|]. exists datas. rewrite Hh. split; [done|]. by rewrite Hf, Hnil.
Qed.

End ImportLemmas.

#[global] Arguments importOpened : simpl never.


(** An unfinished import: what it may leave behind is one new name, and only if
    the unlink of the deferred cleanup failed. *)
Definition leftBehind (e : Env) (before after : gmap string inboxEntry) (name : string) (data : list Z) : Prop :=
  (∃ t, fails e t = true) ∧ before !! name = None ∧ after = <[name := Regular data]> before.

(** An import is all or nothing.  Whatever calls fail on the way, a
    successful call received a begin frame, the numbered chunks and a matching
    end with nothing after it; the Inbox then holds exactly one file more, under
    the declared safe name, which was free before, with the bytes of the chunks,
    which have the declared size (within the limit) and SHA-256; the receipt
    says so.  A call that fails leaves the Inbox as it was, unless removing its
    own file failed too: then it left a hidden staging file, or the complete
    verified file under its declared name.  No other name is ever touched. *)
Theorem ImportFile_spec (e : Env) (s : Server) (w : ImportWorld) r w' :
  (0 ≤ maxFile s)%Z → (maxFile s + DefaultMaxChunk < two64)%Z →
  (∀ ctx id d rest, iw_frames w = FBegin ctx id (Some d) :: rest → (0 ≤ fd_SizeBytes d)%Z) →
  ImportFile e s w = (r, w') →
  match r with
  | Ok receipt =>
      ∃ ctx id d datas, let data := concat datas in
        iw_frames w = FBegin ctx id (Some d) :: chunkFrames 0 datas ++
          [FEnd (fd_SizeBytes d) (Some (protoHash (sha256 data)))] ∧ iw_closed w = true ∧
        fd_Digest d = Some (protoHash (sha256 data)) ∧ len data = fd_SizeBytes d ∧ (len data ≤ maxFile s)%Z ∧
        Validate (mkHeader (fd_LogicalName d) (len data) (sha256 data) (fd_DetectedMime d)) (maxFile s) = Ok tt ∧
        iw_inbox w !! fd_LogicalName d = None ∧
        iw_inbox w' = <[fd_LogicalName d := Regular data]> (iw_inbox w) ∧
        receipt = mkTransferReceipt id (Some d) (protoHash (sha256 data))
  | Err _ =>
      iw_inbox w' = iw_inbox w ∨
      ∃ ctx id d rest name data, iw_frames w = FBegin ctx id (Some d) :: rest ∧
        leftBehind e (iw_inbox w) (iw_inbox w') name data ∧
        (name = partialOf id ∨
         (name = fd_LogicalName d ∧ len data = fd_SizeBytes d ∧ fd_Digest d = Some (protoHash (sha256 data))))
  end.
Proof.
  intros H0 Hroom Hu64. unfold ImportFile.
  destruct (Recv e w) as [rc w1] eqn:Hrc. apply Recv_inbox in Hrc as (Hi1 & Hf1 & Hc1).
  destruct rc as [[ctx id descriptor|seq data|total digest| ]| | ]; [|intros [= <- <-]; by left..].
  destruct (negb (validOpaqueID id)); [intros [= <- <-]; by left|].
  destruct (descriptorHeader descriptor (maxFile s)) as [header|err] eqn:Hh; [|intros [= <- <-]; by left].
  apply descriptorHeader_ok in Hh as (d & h & -> & Hdig & Halg & Hlen & -> & Hval).
  destruct (lease e (inbox s) (iw_calls w1)) as [[l|] t]; [|intros [= <- <-]; by left].
  destruct (verifyInbox e l (atCall w1 t)) as [ok w2] eqn:Hv.
  destruct (verifyInbox_stream _ _ _ _ _ Hv) as [Hf2 Hc2]. apply verifyInbox_inbox in Hv. simpl in Hv, Hf2, Hc2.
  rewrite Hi1 in Hv. destruct ok; [|intros [= <- <-]; by left].
  unfold openExclusiveAt. destruct (fails e (iw_calls w2) || _) eqn:Hex; [intros [= <- <-]; by left|].
  bool_hyps. rewrite Hv in *. match goal with H : ¬ is_Some _ |- _ => apply eq_None_not_Some in H as Hpart end.
  rewrite (sha256_hash h Halg) in Hdig. apply Validate_size in Hval as Hmax. simpl in Hmax.
  destruct (importOpened e s id (Some d) _ _ l _) as [[res published] w3] eqn:Hop.
  pose proof (Hu64 _ _ _ _ Hf1) as Hnn.
  apply (importOpened_staging e s (iw_inbox w)) in Hop as (data & Hfin & Hok); [|done|done|done|simpl; lia].
  simpl in Hfin, Hok. rewrite Hf2, Hc2 in Hok. destruct res as [receipt|err]; intros [= <- <-]; simpl.
  - destruct (Hok receipt eq_refl) as (-> & Hcl & -> & datas & -> & Hfr). destruct Hfin as (Hsz & Hsha & Hfree & Hin).
    exists ctx, id, d, datas. rewrite Hf1, Hfr, Hsha, Hsz, <- Hc1. by split_and!.
  - destruct published.
    + destruct Hfin as (Hsz & Hsha & Hfree & Hin).
      destruct (unlink_insert e _ _ _ (tick w3) Hfree Hin) as [Hu|[Ht Hu]]; [by left|right].
      exists ctx, id, d, (iw_frames w1), (fd_LogicalName d), data. rewrite Hsha.
      split; [done|]. split; [by split_and!; [eexists| |]|by right].
    + destruct (unlink_insert e _ _ _ (tick w3) Hpart Hfin) as [Hu|[Ht Hu]]; [by left|right].
      exists ctx, id, d, (iw_frames w1), (partialOf id), data. split; [done|]. split; [by split_and!; [eexists| |]|by left].
Qed.

(** ** The inventory *)

Section InventoryLemmas.
Context (e : Env).

Lemma fileRead_data file offset t data t' :
  fileRead e file offset t = (RData data, t') → data ≠ [] ∧ data = readAt e file offset t ∧ t' = S t.
Proof.
  unfold fileRead. destruct (fails e t); [done|]. destruct (readAt e file offset t); [done|]. intros [= <- <-]. by split_and!.
Qed.

Lemma fileRead_after file offset t out t' : fileRead e file offset t = (out, t') → t' = S t.
Proof. unfold fileRead. by intros [= _ <-]. Qed.

Lemma readAt_chunk file offset t : (len (readAt e file offset t) ≤ DefaultMaxChunk)%Z.
Proof. unfold readAt, len. rewrite length_take. unfold DefaultMaxChunk. lia. Qed.

Lemma read_positive n : (0 < Nat.min (S n) (Z.to_nat DefaultMaxChunk))%nat.
Proof. unfold DefaultMaxChunk. lia. Qed.

Lemma hashBytes_returns fuel file maximum hash t :
  (0 ≤ maximum < two64)%Z → (len hash ≤ maximum)%Z → (Z.to_nat (maximum - len hash) < fuel)%nat →
  (hashBytes e fuel file maximum (len hash) hash t).1 ≠ None.
Proof.
  intros Hm. revert hash t. induction fuel as [|fuel IH]; intros hash t Hl Hf; [lia|]. cbn [hashBytes].
  destruct (bool_decide _); [done|].
  destruct (fileRead e file (len hash) (S t)) as [[data| | ] t'] eqn:Hr; [|done|done].
  apply fileRead_data in Hr as (Hne & _ & _). pose proof (len_nonneg hash).
  assert (0 < len data)%Z by (destruct data; [done|unfold len; simpl; lia]).
  destruct (sub64 maximum (len hash) <? len data)%Z eqn:Hs; [done|]. bool_hyps.
  rewrite sub64_small in Hs by (unfold u64; lia). rewrite add64_small by (unfold u64; lia).
  rewrite <- len_app. apply IH; rewrite len_app; lia.
Qed.

Lemma hashBytes_after fuel file maximum total hash t :
  (t ≤ (hashBytes e fuel file maximum total hash t).2)%nat.
Proof.
  revert total hash t. induction fuel as [|fuel IH]; intros total hash t; cbn [hashBytes]; [done|].
  destruct (bool_decide _); [simpl; lia|].
  destruct (fileRead e file (len hash) (S t)) as [out t'] eqn:Hr. apply fileRead_after in Hr as ->.
  destruct out; simpl; [|lia|lia]. destruct (_ <? _)%Z; simpl; [lia|]. etrans; [|apply IH]. lia.
Qed.

(** Bytes hashed from a file that does not change meanwhile are the file's. *)
Lemma hashBytes_stable fuel file maximum total hash rest t bytes t' :
  (∀ u, t ≤ u ≤ t' → dataAt e u file = hash ++ rest)%nat →
  hashBytes e fuel file maximum total hash t = (Some (Ok bytes), t') → bytes = hash ++ rest.
Proof.
  revert total hash rest t. induction fuel as [|fuel IH]; intros total hash rest t Hst He; cbn [hashBytes] in He; [done|].
  destruct (bool_decide _); [done|].
  destruct (fileRead e file (len hash) (S t)) as [out t1] eqn:Hr.
  apply fileRead_after in Hr as Ht1. subst t1.
  assert (S t ≤ t')%nat as Hin.
  { destruct out as [data| | ]; [|injection He as _ <-; lia|done].
    destruct (_ <? _)%Z; [done|]. pose proof (hashBytes_after fuel file maximum (add64 total (len data)) (hash ++ data) (S (S t))) as Ha.
    rewrite He in Ha. simpl in Ha. lia. }
  assert (readAt e file (len hash) (S t) = take (Nat.min (S (readLimit e (S t))) (Z.to_nat DefaultMaxChunk)) rest) as Hread.
  { unfold readAt. rewrite Hst by lia. unfold len. by rewrite Nat2Z.id, drop_app_length. }
  pose proof (read_positive (readLimit e (S t))) as Hpos. set (k := Nat.min _ _) in *.
  destruct out as [data| | ]; [| |done].
  - apply fileRead_data in Hr as (_ & -> & _). destruct (_ <? _)%Z; [done|].
    rewrite Hread in He. apply (IH _ _ (drop k rest)) in He; [by rewrite <- app_assoc, take_drop in He|].
    intros u Hu. rewrite <- app_assoc, take_drop. apply Hst. lia.
  - injection He as <- <-. unfold fileRead in Hr. destruct (fails e (S t)); [done|]. rewrite Hread in Hr.
    destruct rest as [|x rest]; [by rewrite app_nil_r|]. destruct k; [lia|]. done.
Qed.

Lemma hashFile_returns file maximum t :
  (0 ≤ maximum < two64)%Z → (hashFile e file maximum t).1 ≠ None.
Proof.
  intros Hm. unfold hashFile.
  pose proof (hashBytes_returns (S (Z.to_nat maximum)) file maximum [] t Hm) as H. change (len []) with 0%Z in H.
  destruct (hashBytes e _ file maximum 0 [] t) as [[[bytes|]|] t']; [done|done|].
  simpl in H. exfalso. apply H; [lia|lia|done].
Qed.

(** A file listed between two moments, with the file behind its name when it was
    opened: its digest is the content's, if that did not change meanwhile. *)
Definition listedFrom (s : Server) (t0 t1 : nat) (f : exportFile) : Prop :=
  ef_id f = outputID s (ef_name f) ∧ (0 ≤ ef_size f ≤ maxFile s)%Z ∧
  is_Ok (Validate (mkHeader (ef_name f) 0 (replicate 32 0%Z) "") (maxFile s)) = true ∧
  ∃ t entry, (t0 ≤ t ≤ t1)%nat ∧ exportAt e t !! ef_name f = Some entry ∧ Z.land (de_Mode entry) ModeType = 0%Z ∧
    ef_size f = len (dataAt e (S t) (de_File entry)) ∧
    (∀ content, (∀ u, t ≤ u ≤ t1 → dataAt e u (de_File entry) = content)%nat → ef_digest f = sha256 content).

Lemma openRegularAt_ok name maximum t file size t' :
  openRegularAt e name maximum t = (Some (file, size), t') →
  t' = S (S t) ∧ (0 ≤ size ≤ maximum)%Z ∧
  ∃ entry, exportAt e t !! name = Some entry ∧ de_File entry = file ∧ Z.land (de_Mode entry) ModeType = 0%Z ∧
    size = len (dataAt e (S t) file).
Proof.
  unfold openRegularAt. destruct (fails e t); [done|]. destruct (exportAt e t !! name) as [d|] eqn:Hd; [|done].
  destruct (negb _); [done|]. destruct (((fails e (S t) || _) || _) || _) eqn:Hg; [done|]. intros [= <- <- <-].
  bool_hyps. split; [done|]. split; [lia|]. by exists d.
Qed.

Lemma toInt64_le x y : (0 ≤ x < two64)%Z → (0 ≤ y ≤ toInt64 x)%Z → (y ≤ x)%Z.
Proof. unfold toInt64, two64. destruct (_ <? _)%Z; lia. Qed.

Definition sizes (files : list exportFile) : Z := foldr (λ f n, ef_size f + n)%Z 0%Z files.

Lemma inventoryLoop_returns s entries total files t :
  (0 ≤ maxFile s < two64)%Z → (inventoryLoop e s entries total files t).1 ≠ None.
Proof.
  intros Hm. revert total files t. induction entries as [|[name entry] entries IH]; intros total files t; simpl; [done|].
  destruct (bool_decide _); [done|]. destruct (_ || _); [done|].
  destruct (openRegularAt e name _ (S t)) as [[[file size]|] t1]; [|done].
  pose proof (hashFile_returns file (maxFile s) t1 Hm) as Hh.
  destruct (hashFile e file (maxFile s) t1) as [[[digest|]|] t2]; [|done|done].
  destruct (fails e t2); [done|]. destruct (_ <? _)%Z; [done|]. apply IH.
Qed.

Lemma hashFile_ok file maximum t digest t' :
  hashFile e file maximum t = (Some (Ok digest), t') →
  (t ≤ t')%nat ∧ ∀ content, (∀ u, t ≤ u ≤ t' → dataAt e u file = content)%nat → digest = sha256 content.
Proof.
  unfold hashFile. pose proof (hashBytes_after (S (Z.to_nat maximum)) file maximum 0 [] t) as Ha.
  destruct (hashBytes e _ file maximum 0 [] t) as [[[bytes|]|] t1] eqn:Hb; [|done|done]. intros [= <- <-].
  split; [done|]. intros content Hst. by apply (hashBytes_stable _ _ _ _ _ content) in Hb as ->.
Qed.

Lemma inventoryLoop_after s entries total files t : (t ≤ (inventoryLoop e s entries total files t).2)%nat.
Proof.
  revert total files t. induction entries as [|[name entry] entries IH]; intros total files t; simpl; [done|].
  destruct (bool_decide _); simpl; [lia|]. destruct (_ || _); simpl; [lia|].
  assert (S t ≤ (openRegularAt e name (toInt64 (maxFile s)) (S t)).2)%nat as Ho.
  { unfold openRegularAt. repeat case_match; simpl; lia. }
  destruct (openRegularAt e name _ (S t)) as [[[file size]|] t1]; simpl in *; [|lia].
  pose proof (hashBytes_after (S (Z.to_nat (maxFile s))) file (maxFile s) 0 [] t1) as Ha. unfold hashFile.
  destruct (hashBytes e _ file (maxFile s) 0 [] t1) as [[[bytes|]|] t2]; simpl in *; [|lia..].
  destruct (fails e t2); simpl; [lia|]. destruct (_ <? _)%Z; simpl; [lia|]. etrans; [|apply IH]. lia.
Qed.

Lemma listedFrom_earlier s t0 t0' t1 f : (t0' ≤ t0)%nat → listedFrom s t0 t1 f → listedFrom s t0' t1 f.
Proof.
  intros Ht (Hid & Hs & Hv & u & en & Hu & Hrest). do 3 (split; [done|]). exists u, en. split; [lia|done].
Qed.

Lemma inventoryLoop_ok s entries total files t result t' :
  (0 ≤ maxFile s < two64)%Z → (0 ≤ total ≤ maxTotal s)%Z → (maxTotal s < two64)%Z →
  inventoryLoop e s entries total files t = (Some (Ok result), t') →
  ∃ new, result = files ++ new ∧ map ef_name new = map fst entries ∧ Forall (listedFrom s t t') new ∧
    (total + sizes new ≤ maxTotal s)%Z.
Proof.
  intros Hm. revert total files t. induction entries as [|[name entry] entries IH]; intros total files t Ht Hmt He; simpl in He.
  { injection He as <- <-. exists []. rewrite app_nil_r. split_and!; try done. unfold sizes. simpl. lia. }
  destruct (bool_decide _); [done|]. destruct (isDirOrLink (de_Mode entry) || negb _) eqn:Hsafe; [done|].
  destruct (openRegularAt e name _ (S t)) as [[[file size]|] t1] eqn:Hop; [|done].
  apply openRegularAt_ok in Hop as (-> & Hsz & entry' & Hent & Hfile & Hmode & Hlen).
  destruct (hashFile e file (maxFile s) (S (S (S t)))) as [[[digest|]|] t2] eqn:Hh; [|done|done].
  apply hashFile_ok in Hh as [Haft Hdig].
  destruct (fails e t2); [done|]. destruct (sub64 _ _ <? _)%Z eqn:Hcap; [done|]. bool_hyps.
  rewrite sub64_small in Hcap by (unfold u64; lia). rewrite add64_small in He by (unfold u64; lia).
  apply toInt64_le in Hsz as Hszm; [|done].
  match type of He with inventoryLoop _ _ _ ?a ?b ?c = _ =>
    pose proof (inventoryLoop_after s entries a b c) as Hend end. rewrite He in Hend. simpl in Hend.
  apply IH in He as (new & -> & Hnames & Hall & Hsum); [|lia|done].
  eexists (_ :: new). rewrite <- app_assoc. split; [done|]. simpl. split; [by f_equal|].
  split; [|unfold sizes in *; simpl; lia]. constructor.
  - split_and!; simpl; try done; [lia|]. exists (S t), entry'. split_and!; [lia|lia|done|done|congruence|].
    intros content Hst. apply Hdig. intros u Hu. rewrite <- Hfile. apply Hst. lia.
  - eapply Forall_impl; [exact Hall|]. intros f. apply listedFrom_earlier. lia.
Qed.

Lemma verifyPath_after l t ok t' : verifyPath e l t = (ok, t') → (t ≤ t')%nat.
Proof. unfold verifyPath, openDirectoryPath. repeat case_match; intros [= <- <-]; simplify_eq; lia. Qed.

Lemma lease_after d t l t' : lease e d t = (l, t') → (t ≤ t')%nat.
Proof. unfold lease. repeat case_match; intros [= <- <-]; lia. Qed.

#[local] Instance byName_total : Total byName.
Proof. intros a b. unfold byName. apply string_le_total. Qed.

Lemma sorted_names l : Sorted string_le (merge_sort byName l).*1.
Proof. apply (Sorted_fmap fst byName string_le); [done|]. apply Sorted_merge_sort. apply _. Qed.

Lemma inventory_returns s t : (0 ≤ maxFile s < two64)%Z → (inventory e s t).1 ≠ None.
Proof.
  intros Hm. unfold inventory. destruct (lease e (export s) t) as [[l|] t1]; [|done].
  destruct (verifyPath e l t1) as [[|] t2]; [|done]. destruct (readDirectoryEntries e t2) as [[entries|] t3]; [|done].
  destruct (_ <? _)%Z; [done|]. pose proof (inventoryLoop_returns s (merge_sort byName entries) 0 [] t3 Hm) as Hr.
  destruct (inventoryLoop e s _ 0 [] t3) as [[[files|]|] t4]; [|done|done]. by destruct (verifyPath e l t4) as [[|] t5].
Qed.

(** What a successful inventory lists. *)
Lemma inventory_ok s t files t' :
  (0 ≤ maxFile s < two64)%Z → (0 ≤ maxTotal s < two64)%Z → inventory e s t = (Some (Ok files), t') →
  (∃ u, (t ≤ u ≤ t')%nat ∧ map ef_name files ≡ₚ (map_to_list (exportAt e u)).*1) ∧
  Sorted string_le (map ef_name files) ∧ (len files ≤ maxWorkspaceEntries)%Z ∧ (sizes files ≤ maxTotal s)%Z ∧
  Forall (listedFrom s t t') files.
Proof.
  intros Hm Hmt. unfold inventory. destruct (lease e (export s) t) as [[l|] t1] eqn:Hl; [|done].
  apply lease_after in Hl. destruct (verifyPath e l t1) as [[|] t2] eqn:Hv; [|done]. apply verifyPath_after in Hv.
  unfold readDirectoryEntries. destruct (fails e t2); [done|]. destruct (_ || _); [done|].
  set (entries := map_to_list (exportAt e (S t2))). destruct (maxWorkspaceEntries <? len entries)%Z eqn:Hmax; [done|].
  destruct (inventoryLoop e s _ 0 [] _) as [[[files'|]|] t4] eqn:Hloop; [|done|done].
  destruct (verifyPath e l t4) as [[|] t5] eqn:Hv2; [|done]. apply verifyPath_after in Hv2. intros [= -> ->].
  pose proof (inventoryLoop_after s (merge_sort byName entries) 0 [] (S (S (S t2)))) as Hend.
  rewrite Hloop in Hend. simpl in Hend. bool_hyps.
  apply inventoryLoop_ok in Hloop as (new & Hnew & Hnames & Hall & Hsum); [|done|lia|lia].
  simpl in Hnew. subst new. rewrite Hnames. split_and!.
  - exists (S t2). split; [lia|]. by rewrite (merge_sort_Permutation byName entries).
  - apply sorted_names.
  - apply (f_equal length) in Hnames. rewrite !length_map, (merge_sort_Permutation byName entries) in Hnames.
    unfold len in *. lia.
  - lia.
  - eapply Forall_impl; [exact Hall|]. intros f Hf. apply (listedFrom_earlier _ (S (S (S t2)))); [lia|].
    destruct Hf as (Hid & Hs & Hvf & u & en & Hu & Hen & Hmode & Hsize & Hdig).
    do 3 (split; [done|]). exists u, en. do 3 (split; [done || lia|]). split; [done|].
    intros content Hst. apply Hdig. intros u' Hu'. apply Hst. lia.
Qed.

End InventoryLemmas.

(** An inventory is complete, ordered and bounded, and it always returns.
    While the guest's user changes Export at will, a successful inventory lists
    every name one reading of the directory showed, once, in order; at most 1024
    of them, all single safe path components that led to regular files within
    the file limit, their sizes together within the workspace limit; and each
    digest is the SHA-256 of the file's content, if that content did not change
    between opening and the end of the inventory. *)
Theorem inventory_complete_and_bounded (e : Env) (s : Server) (t : nat) :
  (0 ≤ maxFile s < two64)%Z → (0 ≤ maxTotal s < two64)%Z →
  ∃ r t', inventory e s t = (Some r, t') ∧
    ∀ files, r = Ok files →
      (∃ u, (t ≤ u ≤ t')%nat ∧ map ef_name files ≡ₚ (map_to_list (exportAt e u)).*1) ∧
      Sorted string_le (map ef_name files) ∧ NoDup (map ef_name files) ∧
      (len files ≤ maxWorkspaceEntries)%Z ∧ (sizes files ≤ maxTotal s)%Z ∧ Forall (listedFrom e s t t') files.
Proof.
  intros Hm Hmt. pose proof (inventory_returns e s t Hm) as Hr.
  destruct (inventory e s t) as [[r|] t'] eqn:Hi; [|done]. exists r, t'. split; [done|]. intros files ->.
  destruct (inventory_ok e s t files t' Hm Hmt Hi) as ((u & Hu & Hperm) & Hs & Hl & Hsum & Hall).
  split_and!; try done; [by exists u|]. rewrite Hperm. apply NoDup_fst_map_to_list.
Qed.

(** ** Exporting *)

Section ExportLemmas.
Context (e : Env).

(** The stream carries the bytes in non-empty numbered chunks. *)
Lemma streamFile_frames fuel file sequence offset frames t r frames' t' :
  streamFile e fuel file sequence offset frames t = (r, frames', t') →
  ∃ datas, frames' = frames ++ chunkFrames sequence datas ∧ Forall (λ d, 0 < len d ≤ DefaultMaxChunk)%Z datas.
Proof.
  revert sequence offset frames t. induction fuel as [|fuel IH]; intros sequence offset frames t; cbn [streamFile].
  { intros [= <- <- <-]. exists []. by rewrite app_nil_r. }
  destruct (fileRead e file offset t) as [[data| | ] t1] eqn:Hr.
  2,3: intros [= <- <- <-]; exists []; by rewrite app_nil_r.
  apply fileRead_data in Hr as (Hne & Hd & ->). pose proof (readAt_chunk e file offset t) as Hb. rewrite <- Hd in Hb.
  destruct (fails e (S t)); [intros [= <- <- <-]; exists []; by rewrite app_nil_r|].
  intros He. destruct (IH _ _ _ _ He) as (datas & -> & Hall). exists (data :: datas).
  rewrite <- app_assoc. split; [done|]. constructor; [|done]. split; [|done].
  destruct data; [done|]. unfold len. simpl. lia.
Qed.

Lemma selectFile_ok files id f : selectFile files id = Some f → f ∈ files ∧ ef_id f = id.
Proof.
  unfold selectFile. destruct (list_find _ files) as [[i g]|] eqn:Hl; [|done]. simpl. intros [= ->].
  apply list_find_Some in Hl as (Hl & Hid & _). split; [|done]. by apply (list_elem_of_lookup_2 files i).
Qed.

(** The parts of a server that no request changes, and on which alone the
    inventory depends. *)
Definition sameSetup (s s' : Server) : Prop :=
  inbox s' = inbox s ∧ export s' = export s ∧ maxFile s' = maxFile s ∧ maxTotal s' = maxTotal s ∧ key s' = key s.

Lemma inventory_setup s s' t : sameSetup s s' → inventory e s' t = inventory e s t.
Proof.
  intros (_ & Hex & Hf & Ht & Hk). unfold inventory. rewrite Hex.
  assert (∀ entries total files u, inventoryLoop e s' entries total files u = inventoryLoop e s entries total files u) as Hloop.
  { induction entries as [|[name entry] entries IH]; intros total files u; simpl; [done|].
    unfold outputID. rewrite Hf, Ht, Hk. repeat (case_match; try done). }
  destruct (lease e (export s) t) as [[l|] t1]; [|done]. destruct (verifyPath e l t1) as [[|] t2]; [|done].
  destruct (readDirectoryEntries e t2) as [[entries|] t3]; [|done]. by rewrite Hloop.
Qed.

(** An export either changes nothing, or ends with the complete frames of one
    listed file, which it records as sent. *)
Lemma ExportFile_ok fuel s id t r frames s' t' :
  ExportFile e fuel s id t = (Some r, frames, s', t') →
  match r with
  | Err _ => s' = s
  | Ok _ => ∃ f datas,
      frames = FBegin false id (Some (mkDescriptor (ef_name f) (ef_size f) "" (Some (protoHash (ef_digest f))))) ::
        chunkFrames 0 datas ++ [FEnd (ef_size f) (Some (protoHash (ef_digest f)))] ∧
      sameSetup s s' ∧ verified s' = verified s ∧ sent s' = <[id := mkReceipt (ef_digest f) (ef_size f)]> (sent s)
  end.
Proof.
  unfold ExportFile. destruct (inventory e s t) as [[[files|]|] t1]; [|by intros [= <- <- <- <-]|done].
  destruct (selectFile files id) as [f|] eqn:Hsel; [|by intros [= <- <- <- <-]].
  apply selectFile_ok in Hsel as [_ <-].
  destruct (lease e (export s) t1) as [[l|] t2]; [|by intros [= <- <- <- <-]].
  destruct (verifyPath e l t2) as [[|] t3]; [|by intros [= <- <- <- <-]].
  destruct (openRegularAt e _ _ t3) as [[[file size]|] t4]; [|by intros [= <- <- <- <-]].
  destruct (negb _); [by intros [= <- <- <- <-]|]. destruct (fails e t4); [by intros [= <- <- <- <-]|].
  destruct (streamFile e fuel file 0 0 _ (S t4)) as [[[[[]|]|] frames1] t5] eqn:Hst; [|by intros [= <- <- <- <-]|done].
  apply streamFile_frames in Hst as (datas & -> & _). destruct (fails e t5); [by intros [= <- <- <- <-]|].
  destruct (verifyPath e l (S t5)) as [[|] t6]; [|by intros [= <- <- <- <-]].
  intros [= <- <- <- <-]. exists f, datas. by split_and!.
Qed.

(** A begin frame declares the size the file had. *)
Lemma ExportFile_begin fuel s id t r frames s' t' ctx i d rest :
  ExportFile e fuel s id t = (r, frames, s', t') → frames = FBegin ctx i (Some d) :: rest → (0 ≤ fd_SizeBytes d)%Z.
Proof.
  unfold ExportFile. destruct (inventory e s t) as [[[files|]|] t1]; [|by intros [= <- <- <- <-]..].
  destruct (selectFile files id) as [f|]; [|by intros [= <- <- <- <-]].
  destruct (lease e (export s) t1) as [[l|] t2]; [|by intros [= <- <- <- <-]].
  destruct (verifyPath e l t2) as [[|] t3]; [|by intros [= <- <- <- <-]].
  destruct (openRegularAt e _ _ t3) as [[[file size]|] t4] eqn:Hop; [|by intros [= <- <- <- <-]].
  apply openRegularAt_ok in Hop as (_ & Hsz & _).
  destruct (size =? ef_size f)%Z eqn:Hs; [|by intros [= <- <- <- <-]]. apply Z.eqb_eq in Hs as ->. cbn [negb].
  destruct (fails e t4); [by intros [= <- <- <- <-]|].
  destruct (streamFile e fuel file 0 0 _ (S t4)) as [[sr frames1] t5] eqn:Hst.
  apply streamFile_frames in Hst as (datas & -> & _).
  intros He ->. by repeat case_match; simplify_eq/=; lia.
Qed.

(** Marking records, at most, a receipt of a completed stream of the very digest
    the request names. *)
Lemma MarkExportVerified_ok s id digest t r s' t' :
  MarkExportVerified e s id digest t = (r, s', t') →
  s' = s ∨ ∃ rc, digest = Some (protoHash (rc_digest rc)) ∧ sent s !! id = Some rc ∧ sameSetup s s' ∧
    sent s' = sent s ∧ verified s' = <[id := rc]> (verified s).
Proof.
  unfold MarkExportVerified. destruct (inventory e s t) as [[[files|]|] t1]; [|by intros [= <- <- <-]; left..].
  destruct (selectFile files id) as [f|] eqn:Hsel; [|by intros [= <- <- <-]; left].
  apply selectFile_ok in Hsel as [_ <-].
  destruct (validHash digest (ef_digest f)) eqn:Hh; [|by intros [= <- <- <-]; left].
  cbn [negb]. destruct (sent s !! ef_id f) as [rc|] eqn:Hs; [|by intros [= <- <- <-]; left].
  destruct (bool_decide (rc_digest rc = ef_digest f) && _) eqn:Hg; [|by intros [= <- <- <-]; left].
  destruct (workspaceState e _ t1) as [r1 t2]. intros [= <- <- <-]. right. exists rc.
  apply andb_true_iff in Hg as [Hd _]. rewrite bool_decide_eq_true in Hd. rewrite Hd.
  apply validHash_ok in Hh. by split_and!.
Qed.

End ExportLemmas.

Lemma isExported_ok s f :
  isExported s f = true ↔ verified s !! ef_id f = Some (mkReceipt (ef_digest f) (ef_size f)).
Proof.
  unfold isExported. destruct (verified s !! ef_id f) as [[d n]|]; [|by split]. simpl.
  rewrite andb_true_iff, Z.eqb_eq, bool_decide_eq_true. split; [by intros [-> ->]|]. by intros [= -> ->].
Qed.

Lemma isExported_unchanged s f : isExported s f = true → isChanged s f = false.
Proof. unfold isExported, isChanged. destruct (verified s !! ef_id f); [|done]. by intros [-> ->]%andb_true_iff. Qed.

(** The answer is READY exactly when there is a file and every file's size and
    digest are those of a verified receipt. *)
Lemma classify_ready s files :
  ws_State (classify s files) = "READY" ↔
  files ≠ [] ∧ ∀ f, f ∈ files → verified s !! ef_id f = Some (mkReceipt (ef_digest f) (ef_size f)).
Proof.
  setoid_rewrite <- isExported_ok. unfold classify. cbn [ws_State]. set (entries := map _ files).
  assert (existsb (λ x, negb (we_Exported x)) entries = false ↔ ∀ f, f ∈ files → isExported s f = true) as Hex.
  { rewrite <- not_true_iff_false, existsb_exists. unfold entries. setoid_rewrite in_map_iff. split.
    - intros Hno f Hf. destruct (isExported s f) eqn:He; [done|]. destruct Hno.
      eexists. split; [exists f; split; [done|by apply list_elem_of_In]|]. simpl. by rewrite He.
    - intros Hall (x & (f & <- & Hf%list_elem_of_In) & Hx). simpl in Hx. by rewrite (Hall f Hf) in Hx. }
  destruct (existsb we_ChangedSinceExport entries) eqn:Hch.
  { split; [done|]. intros [_ Hall]. apply existsb_exists in Hch as (x & Hx & Hc). unfold entries in Hx.
    apply in_map_iff in Hx as (f & <- & Hf%list_elem_of_In). simpl in Hc.
    by rewrite (isExported_unchanged s f (Hall f Hf)) in Hc. }
  destruct (existsb (λ x, negb (we_Exported x)) entries); rewrite <- Hex; [split; [done|by intros []]|].
  destruct files as [|f files]; [by split; [|intros []]|]. by split.
Qed.

(** ** Witnesses: a workspace with one file, nothing failing *)

Definition demoIdentity (ino : Z) : identity := mkIdentity 1 ino 0x4000.

Definition demoEnv : Env := {|
  fails _ := false;
  shortWrite _ := 0%nat;
  contextErr _ := None;
  pathAt _ path := if bool_decide (path = "/w/Inbox") then Some (demoIdentity 2)
                   else if bool_decide (path = "/w/Export") then Some (demoIdentity 3) else Some (demoIdentity 1);
  childAt _ _ name := if bool_decide (name = "Inbox") then Some (demoIdentity 2) else Some (demoIdentity 3);
  exportAt _ := {[ "note.txt" := mkDirent 0 7 ]};
  dataAt _ _ := bytesOf "hello";
  readLimit _ := 2%nat
|}.

Definition demoServer : Server :=
  mkServer (mkPinned "/w/Inbox" 1 1 2 false) (mkPinned "/w/Export" 3 1 3 false) 100 200 (replicate 32 7%Z) ∅ ∅.

(** The demo server is what [New] makes of its configuration. *)
Example demo_new : (New demoEnv (mkConfig "/w" 100 200) (Some (replicate 32 7%Z)) 0).1 = Ok demoServer.
Proof. by vm_compute. Qed.

Lemma inventory_complete_and_bounded_witness :
  ∃ files t', inventory demoEnv demoServer 0 = (Some (Ok files), t') ∧
    map ef_name files = ["note.txt"] ∧ NoDup (map ef_name files).
Proof.
  destruct (inventory_complete_and_bounded demoEnv demoServer 0) as (r & t' & Hi & Hok);
    [by vm_compute|by vm_compute|].
  destruct (inventory demoEnv demoServer 0) as [[[files|]|] u] eqn:Hc; [|vm_compute in Hc; done..].
  injection Hi as <- <-. exists files, u. split; [exact eq_refl|].
  destruct (Hok files eq_refl) as (_ & _ & Hnd & _). split; [|exact Hnd]. vm_compute in Hc. by injection Hc as <- _.
Defined.

Definition demoDescriptor : FileDescriptor :=
  mkDescriptor "note.txt" 5 "" (Some (protoHash (sha256 (bytesOf "hello")))).

Definition demoInput : list TransferFrame :=
  [FChunk 0 (bytesOf "he"); FChunk 1 (bytesOf "llo"); FEnd 5 (Some (protoHash (sha256 (bytesOf "hello"))))].

(** A failing directory sync after the rename: the published file is removed. *)
Example import_removed_after_failed_sync :
  let e := mkEnv (λ t, bool_decide (t = 19%nat)) (shortWrite demoEnv) (contextErr demoEnv) (pathAt demoEnv)
             (childAt demoEnv) (exportAt demoEnv) (dataAt demoEnv) (readLimit demoEnv) in
  let '(r, w) := ImportFile e demoServer
      (mkImportWorld {[ "kept" := Special ]} 0 (FBegin false "transfer-1" (Some demoDescriptor) :: demoInput) true) in
  r = Err (transferFailure "TRANSFER_SYNC_FAILED") ∧ iw_inbox w = {[ "kept" := Special ]}.
Proof. by vm_compute. Qed.
