(* ===== verification/WorkspaceRelay.v ===== *)
(** * The host's workstation relay

    Models the transfers of [src/internal/orchestrator/workstation_relay.go]: the
    host's side of a workstation connection, which passes an import on to the
    guest, an export on to the caller, and a verification back to the guest.
    What the peers send is a list of frames with the end of the stream; a send
    may fail.  The guest's answer to a closed import and to a verification is an
    argument, which the theorems instantiate with the guest's own server of
    [Workspace].  Finding the connection of a session is not modelled. *)

From Stdlib Require Import ZArith Lia Ascii.
From stdpp Require Import strings base tactics option gmap relations list.
From S2P Require Import Prelude GoText Sha256 Transfer Workspace.

Open Scope string_scope.
Open Scope list_scope.

Definition maximumWorkspaceFrames : Z := 8194.
Definition relayLimit : Z := 8589934592.

Inductive relay_error := ErrWorkspaceTransfer | GuestContextError | RelayStreamError | GuestError (e : workspace_error).

(** The fields of [vsockGuestConnection] the relay uses. *)
Record connection := mkConnection {
  cn_isWorkstation : bool;
  cn_workspaceExports : gmap string (list Z)
}.

(** [io.Discard] *)
#[local] Instance Discard : Writer unit := {| Write _ u := (Ok tt, u) |}.

(** ** Helpers *)

Definition sameProtoHash (value : option Hash) (expected : list Z) : bool :=
  match value with
  | None => false
  | Some h => bool_decide (hash_Algorithm h = "sha256") && (length (hash_Value h) =? sha256Size)%nat &&
              equal (hash_Value h) expected
  end.

Definition equalProtoHashes (left right : option Hash) : bool :=
  match left, right with
  | Some l, Some r => bool_decide (hash_Algorithm l = "sha256") && bool_decide (hash_Algorithm r = "sha256") &&
                      (length (hash_Value l) =? sha256Size)%nat && equal (hash_Value l) (hash_Value r)
  | _, _ => false
  end.

Definition relayHeader (descriptor : option FileDescriptor) : result relay_error Header :=
  match descriptor with
  | None => Err ErrWorkspaceTransfer
  | Some d =>
  match fd_Digest d with
  | None => Err ErrWorkspaceTransfer
  | Some h =>
      fail_if (negb (bool_decide (hash_Algorithm h = "sha256")) || negb (length (hash_Value h) =? sha256Size)%nat)
        with ErrWorkspaceTransfer ;;
      let header := mkHeader (fd_LogicalName d) (fd_SizeBytes d) (hash_Value h) (fd_DetectedMime d) in
      match Validate header relayLimit with
      | Err _ => Err ErrWorkspaceTransfer
      | Ok _ => Ok header
      end
  end end.

Definition validReceipt (receipt : TransferReceipt) (id : string) (header : Header) : bool :=
  bool_decide (tr_TransferId receipt = id) && sameProtoHash (Some (tr_ReceiverDigest receipt)) (h_SHA256 header) &&
  match relayHeader (tr_Descriptor receipt) with
  | Ok received => bool_decide (received = header)
  | Err _ => false
  end.

(** ** Passing frames on *)

(** The loop both directions share: [input] is what the source still sends, with
    [eof] its orderly end; [sent] what the sink was given, and [sendOK] whether
    the sink takes its next frame.  The final frame goes out last. *)
Fixpoint relayLoop (n : nat) (header : Header) (receiver : Receiver) (sequence offset : Z)
    (input : list TransferFrame) (eof : bool) (sendOK : nat → bool) (sent : list TransferFrame) :
    result relay_error unit * list TransferFrame :=
  match n with
  | O => (Err ErrWorkspaceTransfer, sent)
  | S n =>
  match input with
  | FChunk seq data :: rest =>
      if (len data =? 0)%Z || negb (seq =? sequence)%Z then (Err ErrWorkspaceTransfer, sent)
      else
      match WriteChunk receiver offset data tt with
      | (Some _, _, _) => (Err ErrWorkspaceTransfer, sent)
      | (None, receiver, _) =>
          if sendOK (length sent)
          then relayLoop n header receiver (add64 sequence 1) (add64 offset (len data)) rest eof sendOK
                 (sent ++ [FChunk seq data])
          else (Err RelayStreamError, sent)
      end
  | FEnd total digest :: rest =>
      if negb (total =? h_Size header)%Z || negb (sameProtoHash digest (h_SHA256 header)) || negb (is_Ok (Finish receiver))
      then (Err ErrWorkspaceTransfer, sent)
      else if negb (isNil rest) || negb eof then (Err ErrWorkspaceTransfer, sent)
      else if sendOK (length sent) then (Ok tt, sent ++ [FEnd total digest])
      else (Err RelayStreamError, sent)
  | _ => (Err ErrWorkspaceTransfer, sent)
  end end.

(** The code ignores [NewReceiver]'s error, which [relayHeader] has excluded
    ([relayHeader_receiver] below). *)
Definition relayFrames (header : Header) (input : list TransferFrame) (eof : bool) (sendOK : nat → bool)
    (sent : list TransferFrame) : result relay_error unit * list TransferFrame :=
  match NewReceiver header (h_Size header) with
  | Err _ => (Err ErrWorkspaceTransfer, sent)
  | Ok receiver => relayLoop (Z.to_nat (maximumWorkspaceFrames - 1)) header receiver 0 0 input eof sendOK sent
  end.

(** ** The relay's operations *)

(** What the surroundings decide: whether the guest's request context exists,
    whether the guest opens a stream, and which sends succeed. *)
Record Relaying := mkRelaying { ry_context : bool; ry_opened : bool; ry_sendOK : nat → bool }.

(** [begin] is the caller's begin frame; [answer] is what the guest returns for
    the frames it received once the stream is closed.  The second component is
    what was sent to the guest, the third whether the stream was closed. *)
Definition Import (c : connection) (y : Relaying) (begin : option (string * option FileDescriptor))
    (input : list TransferFrame) (eof : bool)
    (answer : list TransferFrame → result workspace_error TransferReceipt) :
    result relay_error TransferReceipt * list TransferFrame * bool :=
  match begin with
  | None => (Err ErrWorkspaceTransfer, [], false)
  | Some (id, descriptor) =>
  if negb (cn_isWorkstation c) then (Err ErrWorkspaceTransfer, [], false)
  else
  match relayHeader descriptor with
  | Err err => (Err err, [], false)
  | Ok header =>
  if bool_decide (id = "") then (Err ErrWorkspaceTransfer, [], false)
  else if negb (ry_context y) then (Err GuestContextError, [], false)
  else if negb (ry_opened y) then (Err RelayStreamError, [], false)
  else if negb (ry_sendOK y 0%nat) then (Err RelayStreamError, [], false)
  else
  match relayFrames header input eof (ry_sendOK y) [FBegin true id descriptor] with
  | (Err err, sent) => (Err err, sent, false)
  | (Ok _, sent) =>
      match answer sent with
      | Err err => (Err (GuestError err), sent, true)
      | Ok receipt =>
          if validReceipt receipt id header then (Ok receipt, sent, true) else (Err ErrWorkspaceTransfer, sent, true)
      end
  end end end.

(** [input] is what the guest streams.  The second component is what the caller
    was sent. *)
Definition Export (c : connection) (y : Relaying) (outputID : string) (input : list TransferFrame) (eof : bool) :
    result relay_error TransferReceipt * list TransferFrame * connection :=
  if negb (cn_isWorkstation c) || bool_decide (outputID = "") then (Err ErrWorkspaceTransfer, [], c)
  else if negb (ry_context y) then (Err GuestContextError, [], c)
  else if negb (ry_opened y) then (Err RelayStreamError, [], c)
  else
  match input with
  | FBegin hasContext id descriptor :: rest =>
      if hasContext || negb (bool_decide (id = outputID)) then (Err ErrWorkspaceTransfer, [], c)
      else
      match relayHeader descriptor with
      | Err err => (Err err, [], c)
      | Ok header =>
          if negb (ry_sendOK y 0%nat) then (Err ErrWorkspaceTransfer, [], c)
          else
          match relayFrames header rest eof (ry_sendOK y) [FBegin hasContext id descriptor] with
          | (Err err, sent) => (Err err, sent, c)
          | (Ok _, sent) =>
              (Ok (mkTransferReceipt outputID descriptor (protoHash (h_SHA256 header))), sent,
               mkConnection (cn_isWorkstation c) (<[outputID := h_SHA256 header]> (cn_workspaceExports c)))
          end
      end
  | _ => (Err ErrWorkspaceTransfer, [], c)
  end.

(** [mark] is the guest's [MarkExportVerified] on its state. *)
Definition Verify {G : Type} (c : connection) (y : Relaying) (outputID : string)
    (daemonDigest receiverDigest : option Hash)
    (mark : string → option Hash → G → result workspace_error WorkspaceState * G) (g : G) :
    result relay_error WorkspaceState * connection * G :=
  if negb (cn_isWorkstation c) || bool_decide (outputID = "") || negb (equalProtoHashes daemonDigest receiverDigest)
  then (Err ErrWorkspaceTransfer, c, g)
  else
  match cn_workspaceExports c !! outputID with
  | None => (Err ErrWorkspaceTransfer, c, g)
  | Some pending =>
      if negb (sameProtoHash daemonDigest pending) then (Err ErrWorkspaceTransfer, c, g)
      else if negb (ry_context y) then (Err GuestContextError, c, g)
      else
      match mark outputID receiverDigest g with
      | (Err err, g) => (Err (GuestError err), c, g)
      | (Ok state, g) =>
          (Ok state, mkConnection (cn_isWorkstation c) (delete outputID (cn_workspaceExports c)), g)
      end
  end.

#[global] Arguments relayFrames : simpl never.
#[global] Arguments relayHeader : simpl never.

(** ** Lemmas *)

Lemma equal_refl a : equal a a = true.
Proof. by apply equal_spec. Qed.

Lemma sameProtoHash_ok value expected :
  length expected = 32%nat → sameProtoHash value expected = true ↔ value = Some (protoHash expected).
Proof.
  intros Hl. unfold sameProtoHash, protoHash. destruct value as [[a v]|]; [|by split]. simpl.
  rewrite !andb_true_iff, bool_decide_eq_true, equal_spec. split; [by intros [[-> _] ->]|].
  intros [= -> ->]. by rewrite Hl.
Qed.

Lemma equalProtoHashes_ok left right :
  equalProtoHashes left right = true → left = right ∧ ∃ v, left = Some (protoHash v) ∧ length v = 32%nat.
Proof.
  unfold equalProtoHashes. destruct left as [[a v]|], right as [[b u]|]; try done. simpl.
  rewrite !andb_true_iff, !bool_decide_eq_true, equal_spec. intros [[[-> ->] Hl] ->]. split; [done|].
  exists u. split; [done|]. by apply Nat.eqb_eq.
Qed.

Lemma relayHeader_ok descriptor header :
  relayHeader descriptor = Ok header →
  ∃ d, descriptor = Some d ∧ fd_Digest d = Some (protoHash (h_SHA256 header)) ∧ length (h_SHA256 header) = 32%nat ∧
    header = mkHeader (fd_LogicalName d) (fd_SizeBytes d) (h_SHA256 header) (fd_DetectedMime d) ∧
    Validate header relayLimit = Ok tt.
Proof.
  unfold relayHeader. intros H. destruct descriptor as [d|]; [|done]. destruct (fd_Digest d) as [h|] eqn:Hh; [|done].
  pass_guards H. destruct (Validate _ relayLimit) as [[]|] eqn:Hv; [|done]. injection H as <-. bool_hyps.
  exists d. simpl. split_and!; try done. rewrite Hh. f_equal. by apply sha256_hash.
Qed.

(** A header accepted under some limit is accepted under its own size. *)
Lemma relayHeader_receiver descriptor header :
  relayHeader descriptor = Ok header → NewReceiver header (h_Size header) = Ok (mkReceiver header 0 []).
Proof.
  intros (d & _ & _ & _ & _ & Hv)%relayHeader_ok. unfold NewReceiver.
  assert (Validate header (h_Size header) = Ok tt) as ->; [|done].
  unfold Validate in *. pass_guards Hv.
  repeat match goal with H : ?b = false |- context [if ?b then _ else _] => rewrite H end.
  by rewrite Z.ltb_irrefl.
Qed.

(** What the loop lets through is the whole declared file, in order. *)
Lemma relayLoop_ok n header receiver sequence offset input eof sendOK sent sent' :
  receiving receiver → rc_expected receiver = header → length (h_SHA256 header) = 32%nat →
  relayLoop n header receiver sequence offset input eof sendOK sent = (Ok tt, sent') →
  ∃ datas, input = chunkFrames sequence datas ++ [FEnd (h_Size header) (Some (protoHash (h_SHA256 header)))] ∧
    sent' = sent ++ input ∧ eof = true ∧ len (rc_hash receiver ++ concat datas) = h_Size header ∧
    sha256 (rc_hash receiver ++ concat datas) = h_SHA256 header ∧
    Forall (λ d, 0 < len d ≤ DefaultMaxChunk)%Z datas.
Proof.
  revert receiver sequence offset input sent.
  induction n as [|n IH]; intros receiver sequence offset input sent Hr Hx Hl He; simpl in He; [done|].
  destruct input as [|[ctx id d|seq data|total digest| ] rest]; try done.
  - destruct ((len data =? 0)%Z || negb (seq =? sequence)%Z) eqn:Hg; [done|]. bool_hyps. subst seq.
    destruct (WriteChunk receiver offset data ()) as [[[err|] r1] []] eqn:Hw; [done|].
    destruct (sendOK (length sent)); [|done].
    destruct (WriteChunk_accepts _ _ _ _ _ _ Hr Hw) as (Hr1 & _ & Hx1 & Hh & Hmax & _).
    apply IH in He as (datas & -> & -> & -> & Hlen & Hsha & Hall); [|done|congruence|done].
    exists (data :: datas). rewrite <- app_assoc. rewrite Hh, <- app_assoc in Hlen, Hsha.
    pose proof (len_nonneg data). split_and!; try done. constructor; [lia|done].
  - destruct ((negb (total =? _)%Z || negb (sameProtoHash _ _)) || negb (is_Ok _)) eqn:Hg; [done|].
    destruct (negb (isNil rest) || negb eof) eqn:He2; [done|]. destruct (sendOK (length sent)); [|done].
    injection He as <-. bool_hyps. destruct rest; [|done]. subst total.
    destruct (Finish receiver) as [[]|] eqn:Hf; [|done]. apply Finish_ok in Hf as [Hsz Hsha]. rewrite Hx in Hsz, Hsha.
    match goal with H : sameProtoHash _ _ = true |- _ => apply sameProtoHash_ok in H as ->; [|done] end.
    exists []. simpl. rewrite app_nil_r. rewrite (rg_written _ Hr) in Hsz. by split_and!.
Qed.

Lemma chunkFrames_inj sequence datas datas' x x' h h' :
  chunkFrames sequence datas ++ [FEnd x h] = chunkFrames sequence datas' ++ [FEnd x' h'] → datas = datas'.
Proof.
  revert sequence datas'. induction datas as [|d datas IH]; intros sequence [|d' datas'] H; try done; simpl in H.
  injection H as -> H. by apply IH in H as ->.
Qed.

Lemma relayLoop_prefix n header receiver sequence offset input eof sendOK sent r sent' :
  relayLoop n header receiver sequence offset input eof sendOK sent = (r, sent') → ∃ more, sent' = sent ++ more.
Proof.
  revert receiver sequence offset input sent. induction n as [|n IH]; intros receiver sequence offset input sent; simpl.
  { intros [= _ <-]. exists []. by rewrite app_nil_r. }
  assert (∃ more, sent = sent ++ more) as Hnone by (exists []; by rewrite app_nil_r).
  destruct input as [|[ctx id d|seq data|total digest| ] rest]; try (by intros [= _ <-]).
  - destruct (_ || _); [by intros [= _ <-]|].
    destruct (WriteChunk receiver offset data ()) as [[[err|] r1] u]; [by intros [= _ <-]|].
    destruct (sendOK _); [|by intros [= _ <-]]. intros He. apply IH in He as [more ->].
    eexists. by rewrite <- app_assoc.
  - destruct (_ || _); [by intros [= _ <-]|]. destruct (_ || _); [by intros [= _ <-]|].
    destruct (sendOK _); [|by intros [= _ <-]]. intros [= _ <-]. by eexists.
Qed.

Lemma relayFrames_ok descriptor header input eof sendOK sent sent' :
  relayHeader descriptor = Ok header → (0 ≤ h_Size header)%Z →
  relayFrames header input eof sendOK sent = (Ok tt, sent') →
  ∃ datas, input = chunkFrames 0 datas ++ [FEnd (h_Size header) (Some (protoHash (h_SHA256 header)))] ∧
    sent' = sent ++ input ∧ eof = true ∧ len (concat datas) = h_Size header ∧
    sha256 (concat datas) = h_SHA256 header ∧ Forall (λ d, 0 < len d ≤ DefaultMaxChunk)%Z datas.
Proof.
  intros Hh Hnn. unfold relayFrames. rewrite (relayHeader_receiver _ _ Hh).
  apply relayHeader_ok in Hh as (d & _ & _ & Hl & _ & Hv). apply Validate_size in Hv.
  intros He. apply relayLoop_ok in He; [done| |done|done].
  split; simpl; [done|done|]. unfold relayLimit, DefaultMaxChunk, two64 in *. lia.
Qed.

(** What the guest is sent starts with the caller's begin frame; a stream is
    closed only after the whole declared file, and then the answer is the
    guest's. *)
Lemma Import_frames c y begin input eof answer r frames closed :
  (∀ id d, begin = Some (id, Some d) → (0 ≤ fd_SizeBytes d)%Z) →
  Import c y begin input eof answer = (r, frames, closed) →
  (frames = [] ∨ ∃ id d rest, begin = Some (id, Some d) ∧ frames = FBegin true id (Some d) :: rest) ∧
  (if closed
   then ∃ id d datas, let data := concat datas in
     begin = Some (id, Some d) ∧ fd_Digest d = Some (protoHash (sha256 data)) ∧ len data = fd_SizeBytes d ∧ eof = true ∧
     input = chunkFrames 0 datas ++ [FEnd (fd_SizeBytes d) (Some (protoHash (sha256 data)))] ∧
     frames = FBegin true id (Some d) :: input ∧
     (∀ receipt, answer frames = Ok receipt → receipt = mkTransferReceipt id (Some d) (protoHash (sha256 data)) →
        r = Ok receipt) ∧
     (∀ receipt, r = Ok receipt → answer frames = Ok receipt)
   else ∃ err, r = Err err).
Proof.
  intros Hnn. unfold Import. destruct begin as [[id descriptor]|]; [|intros [= <- <- <-]; by split; [left|eexists]].
  destruct (negb _); [intros [= <- <- <-]; by split; [left|eexists]|].
  destruct (relayHeader descriptor) as [header|err] eqn:Hh; [|intros [= <- <- <-]; by split; [left|eexists]].
  do 4 (destruct (_ : bool); [intros [= <- <- <-]; by split; [left|eexists]|]).
  destruct (relayHeader_ok _ _ Hh) as (d & -> & Hdig & Hl & Heq & Hv).
  destruct (relayFrames header input eof _ _) as [[[]|err] sent'] eqn:Hf.
  2:{ intros [= <- <- <-]. split; [|by eexists]. right. unfold relayFrames in Hf.
      rewrite (relayHeader_receiver _ _ Hh) in Hf. apply relayLoop_prefix in Hf as [more ->]. by exists id, d, more. }
  assert (h_Size header = fd_SizeBytes d) as Hsize by (by rewrite Heq).
  apply (relayFrames_ok _ _ _ _ _ _ _ Hh) in Hf as (datas & Hin & -> & -> & Hlen & Hsha & _);
    [|rewrite Hsize; by eapply Hnn].
  intros He. split.
  { right. exists id, d, input. split; [done|]. by repeat case_match; injection He as <- <- <-. }
  assert (frames = FBegin true id (Some d) :: input ∧ closed = true) as [-> ->].
  { by repeat case_match; injection He as <- <- <-. }
  exists id, d, datas. rewrite Hsha, <- Hsize. split_and!; try done.
  - intros receipt Hans ->. simpl in He. rewrite Hans in He.
    assert (validReceipt (mkTransferReceipt id (Some d) (protoHash (h_SHA256 header))) id header = true) as Hvr.
    { unfold validReceipt. simpl. rewrite bool_decide_true by done. rewrite Hl, equal_refl, Hh. simpl.
      by apply bool_decide_true. }
    rewrite Hvr in He. by injection He as <-.
  - intros receipt ->. simpl in He. destruct (answer _) as [receipt'|]; [|done].
    destruct (validReceipt _ _ _); [|done]. by injection He as ->.
Qed.

(** ** The two ends together *)

(** An import through the relay into the guest's server [s], whose Inbox is
    [files]: the guest receives what the relay sent, and its answer reaches the
    relay unless it is lost on the way ([delivered]). *)
Definition importThrough (e : Env) (s : Server) (t : nat) (files : gmap string inboxEntry) (c : connection) (y : Relaying)
    (delivered : bool) (begin : option (string * option FileDescriptor)) (input : list TransferFrame) (eof : bool) :
    result relay_error TransferReceipt * gmap string inboxEntry :=
  let answer frames :=
    if delivered then (ImportFile e s (mkImportWorld files t frames true)).1 else Err StreamError in
  let '(r, frames, closed) := Import c y begin input eof answer in
  (r, iw_inbox (ImportFile e s (mkImportWorld files t frames closed)).2).

(** The declared bytes of a descriptor. *)
Definition declares (d : FileDescriptor) (data : list Z) : Prop :=
  fd_Digest d = Some (protoHash (sha256 data)) ∧ len data = fd_SizeBytes d.

(** An import from the host into a workstation is all or nothing, end to
    end.  Whatever the caller sends and whatever calls fail, a successful import
    came from numbered chunks and a matching end with nothing after it, and the
    guest's Inbox then holds exactly one file more: the caller's bytes, of the
    declared size and SHA-256, under the declared name, which was free before.
    A failed import leaves the Inbox as it was, except in two cases: the guest
    could not unlink its own new file, which is then the hidden staging file or
    the complete verified file; or the import was complete and only its receipt
    was lost.  No other name is ever touched. *)
Theorem import_all_or_nothing e s t files c y delivered begin input eof r files' :
  (0 ≤ maxFile s)%Z → (maxFile s + DefaultMaxChunk < two64)%Z →
  (∀ id d, begin = Some (id, Some d) → (0 ≤ fd_SizeBytes d)%Z) →
  importThrough e s t files c y delivered begin input eof = (r, files') →
  match r with
  | Ok receipt =>
      ∃ id d datas, let data := concat datas in
        begin = Some (id, Some d) ∧ declares d data ∧ (len data ≤ maxFile s)%Z ∧ eof = true ∧
        input = chunkFrames 0 datas ++ [FEnd (len data) (Some (protoHash (sha256 data)))] ∧
        files !! fd_LogicalName d = None ∧ files' = <[fd_LogicalName d := Regular data]> files ∧
        receipt = mkTransferReceipt id (Some d) (protoHash (sha256 data))
  | Err _ =>
      files' = files ∨
      ∃ id d name data, begin = Some (id, Some d) ∧ files !! name = None ∧ files' = <[name := Regular data]> files ∧
        ((name = partialOf id ∧ ∃ u, fails e u = true) ∨
         (name = fd_LogicalName d ∧ declares d data ∧ (delivered = false ∨ ∃ u, fails e u = true)))
  end.
Proof.
  intros H0 Hroom Hnn. unfold importThrough.
  destruct (Import c y begin input eof _) as [[r1 frames] closed] eqn:Himp. intros [= <- <-].
  apply Import_frames in Himp as [Hfr Himp]; [|done].
  destruct (ImportFile e s (mkImportWorld files t frames closed)) as [gr w'] eqn:Hg. simpl.
  assert (∀ ctx id d rest, frames = FBegin ctx id (Some d) :: rest → begin = Some (id, Some d)) as Hbegin.
  { intros ctx id d rest ->. destruct Hfr as [|(? & ? & ? & -> & [= _ -> -> ->])]; done. }
  pose proof (ImportFile_spec e s (mkImportWorld files t frames closed) gr w' H0 Hroom) as Hspec. simpl in Hspec.
  specialize (Hspec (λ ctx id d rest Hf, Hnn id d (Hbegin _ _ _ _ Hf)) Hg).
  destruct r1 as [receipt|err].
  - destruct closed; [|by destruct Himp].
    destruct Himp as (id & d & datas & -> & Hdig & Hlen & -> & -> & -> & _ & Hans).
    specialize (Hans receipt eq_refl). destruct delivered; [|done]. rewrite Hg in Hans. simpl in Hans. subst gr.
    destruct Hspec as (ctx & id' & d' & datas' & Hf & _ & Hdig' & Hlen' & Hmax & _ & Hfree & Hin & ->).
    injection Hf as _ <- <- Hf. apply chunkFrames_inj in Hf as <-.
    exists id, d, datas. rewrite Hlen in Hmax |- *. by split_and!.
  - destruct gr as [receipt|gerr].
    + right. destruct Hspec as (ctx & id & d & datas & Hf & -> & Hdig & Hlen & Hmax & _ & Hfree & Hin & ->).
      exists id, d, (fd_LogicalName d), (concat datas). split; [by eapply Hbegin|]. do 2 (split; [done|]). right.
      split; [done|]. split; [done|]. left.
      destruct Himp as (id' & d' & datas' & -> & _ & _ & _ & -> & -> & Hans & _).
      injection Hf as _ -> -> Hf. destruct delivered; [|done]. rewrite Hg in Hans. simpl in Hans.
      apply chunkFrames_inj in Hf as ->. by specialize (Hans _ eq_refl eq_refl).
    + destruct Hspec as [Hsame|(ctx & id & d & rest & name & data & Hf & ([u Hu] & Hfree & Hin) & Hname)]; [by left|right].
      exists id, d, name, data. split; [by eapply Hbegin|]. do 2 (split; [done|]).
      destruct Hname as [->|(-> & Hl & Hd)]; [left|right]; [by split; [|exists u]|].
      split; [done|]. split; [done|]. right. by exists u.
Qed.

(** The frames of one complete file. *)
Definition completeFile (id : string) (d : FileDescriptor) (datas : list (list Z)) : list TransferFrame :=
  FBegin false id (Some d) :: chunkFrames 0 datas ++ [FEnd (fd_SizeBytes d) (fd_Digest d)].

(** What an export lets through, whatever the guest streams. *)
Lemma Export_ok c y id input eof r out c' :
  (∀ ctx i d rest, input = FBegin ctx i (Some d) :: rest → (0 ≤ fd_SizeBytes d)%Z) →
  Export c y id input eof = (r, out, c') →
  match r with
  | Err _ => c' = c
  | Ok receipt => ∃ d datas,
      input = completeFile id d datas ∧ out = input ∧ eof = true ∧ declares d (concat datas) ∧
      (fd_SizeBytes d ≤ relayLimit)%Z ∧ Forall (λ x, 0 < len x ≤ DefaultMaxChunk)%Z datas ∧
      receipt = mkTransferReceipt id (Some d) (protoHash (sha256 (concat datas))) ∧
      c' = mkConnection (cn_isWorkstation c) (<[id := sha256 (concat datas)]> (cn_workspaceExports c))
  end.
Proof.
  intros Hnn. unfold Export. do 3 (destruct (_ : bool); [by intros [= <- <- <-]|]).
  destruct input as [|[ctx i descriptor| | | ] rest]; try (by intros [= <- <- <-]). destruct ctx; [by intros [= <- <- <-]|].
  destruct (bool_decide (i = id)) eqn:Hid; [|by intros [= <- <- <-]]. rewrite bool_decide_eq_true in Hid. subst i.
  cbn [negb]. destruct (relayHeader descriptor) as [header|err] eqn:Hh; [|by intros [= <- <- <-]].
  destruct (negb _); [by intros [= <- <- <-]|].
  destruct (relayFrames header rest eof _ _) as [[[]|err] sent'] eqn:Hf; [|by intros [= <- <- <-]].
  intros [= <- <- <-]. destruct (relayHeader_ok _ _ Hh) as (d & -> & Hdig & Hl & Heq & Hv).
  apply Validate_size in Hv. assert (h_Size header = fd_SizeBytes d) as Hsize by (by rewrite Heq).
  apply (relayFrames_ok _ _ _ _ _ _ _ Hh) in Hf as (datas & -> & -> & -> & Hlen & Hsha & Hall);
    [|rewrite Hsize; by eapply Hnn].
  exists d, datas. unfold completeFile, declares. rewrite Hdig, Hsha, <- Hsize. by split_and!.
Qed.

(** C20: the relay does not trust the guest.  Whatever frames a workstation
    streams, and however the stream ends, an export that reports success gave
    the caller exactly the guest's frames: a begin with the requested identity
    and a safe name, non-empty numbered chunks of bounded size, and an end; the
    chunks' bytes have the declared size, at most 8 GiB, and the declared
    SHA-256, which the receipt repeats and which is remembered for the
    verification.  A failed export remembers nothing; a verification reaches the
    guest only with the digest remembered for that output. *)
Theorem export_does_not_trust_the_guest c y id input eof r out c' :
  (∀ ctx i d rest, input = FBegin ctx i (Some d) :: rest → (0 ≤ fd_SizeBytes d)%Z) →
  Export c y id input eof = (r, out, c') →
  match r with
  | Err _ => c' = c
  | Ok receipt => ∃ d datas,
      out = completeFile id d datas ∧ input = out ∧ eof = true ∧ declares d (concat datas) ∧
      (fd_SizeBytes d ≤ relayLimit)%Z ∧ Forall (λ x, 0 < len x ≤ DefaultMaxChunk)%Z datas ∧
      receipt = mkTransferReceipt id (Some d) (protoHash (sha256 (concat datas))) ∧
      c' = mkConnection (cn_isWorkstation c) (<[id := sha256 (concat datas)]> (cn_workspaceExports c))
  end ∧
  (∀ G y' daemon receiver (mark : string → option Hash → G → result workspace_error WorkspaceState * G) g,
     (∀ v, receiver = Some (protoHash v) → cn_workspaceExports c' !! id ≠ Some v) →
     ∃ err, Verify c' y' id daemon receiver mark g = (Err err, c', g)).
Proof.
  intros Hnn He. split.
  - apply Export_ok in He; [|done]. destruct r as [receipt|]; [|done].
    destruct He as (d & datas & -> & -> & He). by exists d, datas.
  - intros G y' daemon receiver mark g Hno. unfold Verify.
    destruct (_ || negb (equalProtoHashes daemon receiver)) eqn:Hg; [by eexists|]. apply orb_false_iff in Hg as [_ Hg].
    rewrite negb_false_iff in Hg. apply equalProtoHashes_ok in Hg as (-> & v & -> & Hl).
    destruct (cn_workspaceExports c' !! id) as [pending|] eqn:Hp; [|by eexists].
    destruct (sameProtoHash (Some (protoHash v)) pending) eqn:Hs; [|by eexists].
    unfold sameProtoHash in Hs. simpl in Hs. rewrite andb_true_iff, equal_spec in Hs. destruct Hs as [_ ->].
    by destruct (Hno pending eq_refl).
Qed.

(** ** Reachable states of a workstation and its relay *)

(** The guest's server, the host's connection, and what callers were given by
    successful exports. *)
Record System := mkSystem {
  sy_guest : Server;
  sy_connection : connection;
  sy_delivered : list (list TransferFrame)
}.

(** The guest's marking as one call; its inventory always returns. *)
Definition guestMark (e : Env) (t : nat) (id : string) (digest : option Hash) (s : Server) :
    result workspace_error WorkspaceState * Server :=
  let '(r, s, _) := MarkExportVerified e s id digest t in
  (match r with Some r => r | None => Err StreamError end, s).

(** Each step is one request, at some moment and in some surroundings.  The
    guest's tables change in one locked section at the end of a request that
    otherwise depends only on the surroundings, so overlapping requests are
    sequences of these steps; a verification is any the daemon may ask for. *)
Inductive system_step : System → System → Prop :=
| step_export g c log e t fuel y id r frames g' t' res out c' :
    ExportFile e fuel g id t = (Some r, frames, g', t') →
    Export c y id frames (is_Ok r) = (res, out, c') →
    system_step (mkSystem g c log) (mkSystem g' c' (if is_Ok res then log ++ [out] else log))
| step_verify g c log e t y id daemon receiver res c' g' :
    Verify c y id daemon receiver (guestMark e t) g = (res, c', g') →
    system_step (mkSystem g c log) (mkSystem g' c' log).

(** A new server and a new connection. *)
Definition fresh (y : System) : Prop :=
  verified (sy_guest y) = ∅ ∧ sent (sy_guest y) = ∅ ∧ cn_workspaceExports (sy_connection y) = ∅ ∧ sy_delivered y = [].

(** A caller received a complete file under this identity with this digest. *)
Definition delivered (log : list (list TransferFrame)) (id : string) (digest : list Z) : Prop :=
  ∃ d datas, completeFile id d datas ∈ log ∧ declares d (concat datas) ∧ sha256 (concat datas) = digest.

Record accounted (y : System) : Prop := {
  ac_pending id digest :
    cn_workspaceExports (sy_connection y) !! id = Some digest → delivered (sy_delivered y) id digest;
  ac_verified id rc : verified (sy_guest y) !! id = Some rc → delivered (sy_delivered y) id (rc_digest rc)
}.

Lemma delivered_more log out id digest : delivered log id digest → delivered (log ++ [out]) id digest.
Proof. intros (d & datas & Hin & H). exists d, datas. split; [|done]. apply elem_of_app. by left. Qed.

Lemma accounted_fresh y : fresh y → accounted y.
Proof. intros (Hv & _ & Hp & _). split; intros id x; [rewrite Hp|rewrite Hv]; done. Qed.

Lemma accounted_step y y' : accounted y → system_step y y' → accounted y'.
Proof.
  intros [Hp Hv] Hs. destruct Hs as [g c log e t fuel y id r frames g' t' res out c' Hg Hc|g c log e t y id daemon receiver res c' g' Hc].
  - simpl in *. assert (verified g' = verified g) as Hvg.
    { apply ExportFile_ok in Hg. destruct r; [|by subst g']. by destruct Hg as (f & datas & _ & _ & -> & _). }
    apply Export_ok in Hc; [|by intros ctx i d rest; apply (ExportFile_begin _ _ _ _ _ _ _ _ _ _ _ _ _ Hg)].
    destruct res as [receipt|]; [|subst c'; simpl; split; simpl; [done|by rewrite Hvg]].
    destruct Hc as (d & datas & -> & -> & _ & Hd & _ & _ & _ & ->). simpl. split; simpl.
    + intros i digest. destruct (decide (i = id)) as [->|Hne].
      * rewrite lookup_insert_eq. intros [= <-]. exists d, datas. split; [|done]. apply elem_of_app. right. by left.
      * rewrite lookup_insert_ne by done. intros Hi. by apply delivered_more, Hp.
    + intros i rc. rewrite Hvg. intros Hi. by apply delivered_more, Hv.
  - simpl in *. unfold Verify in Hc. destruct (_ || negb (equalProtoHashes _ _)) eqn:Hg; [by injection Hc as <- <- <-|].
    apply orb_false_iff in Hg as [_ Hg]. rewrite negb_false_iff in Hg.
    apply equalProtoHashes_ok in Hg as (-> & v & -> & Hl).
    destruct (cn_workspaceExports c !! id) as [pending|] eqn:Hpend; [|by injection Hc as <- <- <-].
    destruct (sameProtoHash _ pending) eqn:Hs; [|by injection Hc as <- <- <-]. cbn [negb] in Hc.
    assert (v = pending) as ->.
    { unfold sameProtoHash in Hs. simpl in Hs. rewrite andb_true_iff, equal_spec in Hs. by destruct Hs. }
    destruct (negb _); [by injection Hc as <- <- <-|]. unfold guestMark in Hc.
    destruct (MarkExportVerified e g id _ t) as [[mr g1] t1] eqn:Hm.
    assert (g' = g1 ∧ (∀ i digest, cn_workspaceExports c' !! i = Some digest → cn_workspaceExports c !! i = Some digest))
      as [-> Hsub].
    { destruct mr as [[state|]|]; injection Hc as <- <- <-; (split; [done|]); try done. simpl. intros i digest.
      by intros [_ ?]%lookup_delete_Some. }
    split; simpl; [naive_solver|]. intros i rc Hi.
    apply MarkExportVerified_ok in Hm as [->|(rc' & Hdig & _ & _ & _ & Hver)]; [by apply Hv|].
    rewrite Hver in Hi. destruct (decide (i = id)) as [->|Hne].
    + rewrite lookup_insert_eq in Hi. injection Hi as <-. injection Hdig as <-. by apply Hp.
    + rewrite lookup_insert_ne in Hi by done. by apply Hv.
Qed.

Lemma accounted_reachable y y' : fresh y → rtc system_step y y' → accounted y'.
Proof.
  intros Hf Hr. apply accounted_fresh in Hf. induction Hr as [|a b c Hs _ IH]; [done|].
  apply IH. by apply (accounted_step a).
Qed.

(** A workstation that reports READY has been exported.  Start from a new
    server and connection, let exports and verifications happen in any number and
    order, while the guest's user edits Export at will, calls fail, and whatever
    digests the daemon asks to verify.  If the workstation then answers READY,
    its inventory is not empty, and for every file of it some caller was handed
    that output's complete frames by a successful export, with bytes whose
    SHA-256 is the digest of the file as it is now. *)
Theorem ready_means_exported y0 y e t state t' :
  fresh y0 → rtc system_step y0 y →
  workspaceState e (sy_guest y) t = (Some (Ok state), t') → ws_State state = "READY" →
  ∃ files, inventory e (sy_guest y) t = (Some (Ok files), t') ∧ files ≠ [] ∧
    map we_OutputId (ws_Entries state) = map ef_id files ∧
    ∀ f, f ∈ files → delivered (sy_delivered y) (ef_id f) (ef_digest f).
Proof.
  intros Hf Hr Hs Hready. pose proof (accounted_reachable _ _ Hf Hr) as [_ Hv].
  unfold workspaceState in Hs. destruct (inventory e (sy_guest y) t) as [[[files|]|] t1]; [|done|done].
  injection Hs as <- <-. apply classify_ready in Hready as [Hne Hall]. exists files. split_and!; try done.
  - unfold classify. simpl. rewrite map_map. by apply map_ext.
  - intros f Hin. apply (Hv _ _ (Hall f Hin)).
Qed.

(** ** Witnesses *)

Definition demoConnection : connection := mkConnection true ∅.
Definition demoRelaying : Relaying := mkRelaying true true (λ _, true).

Lemma import_all_or_nothing_witness :
  ∃ receipt files' datas, importThrough demoEnv demoServer 0 {[ "kept" := Special ]} demoConnection demoRelaying true
      (Some ("transfer-1", Some demoDescriptor)) demoInput true = (Ok receipt, files') ∧
    demoInput = chunkFrames 0 datas ++ [FEnd 5 (Some (protoHash (sha256 (concat datas))))] ∧
    files' = <["note.txt" := Regular (concat datas)]> {[ "kept" := Special ]}.
Proof.
  destruct (importThrough demoEnv demoServer 0 {[ "kept" := Special ]} demoConnection demoRelaying true
            (Some ("transfer-1", Some demoDescriptor)) demoInput true) as [[receipt|err] files'] eqn:Hr;
    [|exfalso; vm_compute in Hr; discriminate Hr].
  assert (0 ≤ maxFile demoServer)%Z as H0 by (by vm_compute).
  assert (maxFile demoServer + DefaultMaxChunk < two64)%Z as H1 by (by vm_compute).
  assert (∀ id d, Some ("transfer-1", Some demoDescriptor) = Some (id, Some d) → (0 ≤ fd_SizeBytes d)%Z) as H2
    by (intros id d [= _ <-]; by vm_compute).
  destruct (import_all_or_nothing _ _ _ _ _ _ _ _ _ _ _ _ H0 H1 H2 Hr)
    as (id & d & datas & Hb & [_ Hlen] & _ & _ & Hin & _ & Hf & _).
  injection Hb as _ <-. exists receipt, files', datas. split; [reflexivity|].
  change (fd_SizeBytes demoDescriptor) with 5%Z in Hlen. rewrite Hlen in Hin. split; [exact Hin|exact Hf].
Defined.

Lemma export_does_not_trust_the_guest_witness :
  ∃ receipt c', Export demoConnection demoRelaying "output-1" (FBegin false "output-1" (Some demoDescriptor) :: demoInput) true =
      (Ok receipt, FBegin false "output-1" (Some demoDescriptor) :: demoInput, c') ∧
    tr_TransferId receipt = "output-1".
Proof.
  destruct (Export demoConnection demoRelaying "output-1" (FBegin false "output-1" (Some demoDescriptor) :: demoInput) true)
    as [[r out] c'] eqn:He.
  assert (∀ ctx i d rest, FBegin false "output-1" (Some demoDescriptor) :: demoInput = FBegin ctx i (Some d) :: rest → (0 ≤ fd_SizeBytes d)%Z)
    as H1 by (intros ctx i d rest [= _ _ <- _]; by vm_compute).
  destruct (export_does_not_trust_the_guest _ _ _ _ _ _ _ _ H1 He) as [Hok _].
  assert (is_Ok (Export demoConnection demoRelaying "output-1" (FBegin false "output-1" (Some demoDescriptor) :: demoInput) true).1.1
          = true) as Hr by (vm_compute; reflexivity).
  rewrite He in Hr. destruct r as [receipt|]; [|discriminate Hr].
  destruct Hok as (d & datas & Hout & Hin & _ & _ & _ & _ & -> & _). exists (mkTransferReceipt "output-1" (Some d) (protoHash (sha256 (concat datas)))), c'.
  split; [by rewrite Hin|reflexivity].
Defined.

(** One file, exported and verified. *)
Definition demoID : string := outputID demoServer "note.txt".
Definition demoExport := ExportFile demoEnv 100 demoServer demoID 0.
Definition demoRelayed := Export demoConnection demoRelaying demoID demoExport.1.1.2 true.
Definition demoDigest : option Hash := Some (protoHash (sha256 (bytesOf "hello"))).
Definition demoVerified := Verify demoRelayed.2 demoRelaying demoID demoDigest demoDigest (guestMark demoEnv 0) demoExport.1.2.

Definition demoStart : System := mkSystem demoServer demoConnection [].
Definition demoExported : System := mkSystem demoExport.1.2 demoRelayed.2 [demoRelayed.1.2].
Definition demoReady : System := mkSystem demoVerified.2 demoVerified.1.2 [demoRelayed.1.2].

Lemma ready_means_exported_witness :
  rtc system_step demoStart demoReady ∧
  ∃ files t', inventory demoEnv (sy_guest demoReady) 0 = (Some (Ok files), t') ∧ files ≠ [] ∧
    ∀ f, f ∈ files → delivered (sy_delivered demoReady) (ef_id f) (ef_digest f).
Proof.
  assert (fresh demoStart) as Hf by (by split_and!).
  assert (rtc system_step demoStart demoReady) as Hr.
  { apply rtc_l with demoExported.
    - assert (demoRelayed.1.1 = Ok (mkTransferReceipt demoID (Some demoDescriptor) (protoHash (sha256 (bytesOf "hello"))))) as Hres
        by (vm_compute; reflexivity).
      pose proof (step_export demoServer demoConnection [] demoEnv 0 100 demoRelaying demoID (Ok tt) demoExport.1.1.2
        demoExport.1.2 demoExport.2 demoRelayed.1.1 demoRelayed.1.2 demoRelayed.2) as Hst.
      rewrite Hres in Hst. apply Hst; vm_compute; reflexivity.
    - apply rtc_once. apply (step_verify _ _ _ demoEnv 0 demoRelaying demoID demoDigest demoDigest demoVerified.1.1).
      vm_compute. reflexivity. }
  split; [exact Hr|].
  destruct (workspaceState demoEnv (sy_guest demoReady) 0) as [[[state|]|] t'] eqn:Hs; [|vm_compute in Hs; discriminate Hs..].
  assert (ws_State state = "READY") as Hready by (vm_compute in Hs; by injection Hs as <- _).
  destruct (ready_means_exported _ _ _ _ _ _ Hf Hr Hs Hready) as (files & Hi & Hne & _ & Hall).
  exists files, t'. split; [exact Hi|]. split; [exact Hne|exact Hall].
Defined.
