(* ===== verification/GuestBoundary.v ===== *)
(** * The boundary between host and guest

    Models [src/internal/guest/]: [cid.go] (context identifiers of virtual
    machines), [token.go] (the per-boot capability in request metadata),
    [capabilities.go], [context.go] and [server.go] (a guest's identity, its
    interceptors and registered services) and [handshake.go] (the host's check of
    a booted guest).  A token is its protected bytes until it is
    destroyed; a remote call is a function from the metadata and the request to the answer.
    The vsock sockets themselves are not modelled. *)

From Stdlib Require Import ZArith Lia Ascii.
From stdpp Require Import strings base tactics option gmap relations sorting list.
From S2P Require Import Prelude GoText Sha256 SessionModel.

Open Scope string_scope.
Open Scope list_scope.

(** ** Context identifiers *)

Definition MinimumGuestCID : Z := 3.
Definition MaximumGuestCID : Z := 0x7fffffff.

Record CIDAllocator := mkAllocator { al_min : Z; al_max : Z; al_next : Z; al_used : gset Z }.

Inductive cid_error := InvalidRange | ErrCIDUnavailable | OutsideRange | Collision.

Definition NewCIDAllocator (minimum maximum : Z) : result cid_error CIDAllocator :=
  fail_if ((minimum <? MinimumGuestCID)%Z || (maximum <? minimum)%Z || (MaximumGuestCID <? maximum)%Z) with InvalidRange ;;
  Ok (mkAllocator minimum maximum minimum ∅).

Definition advance (a : CIDAllocator) : CIDAllocator :=
  mkAllocator (al_min a) (al_max a)
    (if (al_next a =? al_max a)%Z then al_min a else (al_next a + 1) mod 4294967296)%Z (al_used a).

Fixpoint allocateLoop (attempts : nat) (a : CIDAllocator) : result cid_error Z * CIDAllocator :=
  match attempts with
  | O => (Err ErrCIDUnavailable, a)
  | S attempts =>
      let candidate := al_next a in
      let a := advance a in
      if bool_decide (candidate ∈ al_used a) then allocateLoop attempts a
      else (Ok candidate, mkAllocator (al_min a) (al_max a) (al_next a) ({[candidate]} ∪ al_used a))
  end.

Definition Allocate (a : CIDAllocator) : result cid_error Z * CIDAllocator :=
  allocateLoop (Z.to_nat (al_max a - al_min a + 1)) a.

Definition Reserve (cid : Z) (a : CIDAllocator) : result cid_error unit * CIDAllocator :=
  if (cid <? al_min a)%Z || (al_max a <? cid)%Z then (Err OutsideRange, a)
  else if bool_decide (cid ∈ al_used a) then (Err Collision, a)
  else (Ok tt, mkAllocator (al_min a) (al_max a) (al_next a) ({[cid]} ∪ al_used a)).

Definition Release (cid : Z) (a : CIDAllocator) : bool * CIDAllocator :=
  if negb (bool_decide (cid ∈ al_used a)) then (false, a)
  else (true, mkAllocator (al_min a) (al_max a) (al_next a) (al_used a ∖ {[cid]})).

Definition Reserved (cid : Z) (a : CIDAllocator) : bool := bool_decide (cid ∈ al_used a).

(** ** Base64 without padding, URL alphabet *)

Definition base64Char (v : Z) : ascii :=
  if (v <? 26)%Z then ascii_of_N (Z.to_N (65 + v))
  else if (v <? 52)%Z then ascii_of_N (Z.to_N (71 + v))
  else if (v <? 62)%Z then ascii_of_N (Z.to_N (v - 4))
  else if (v =? 62)%Z then "-"%char else "_"%char.

Definition base64Value (c : ascii) : option Z :=
  let n := Z.of_N (code c) in
  if is_upper c then Some (n - 65)%Z
  else if is_lower c then Some (n - 71)%Z
  else if is_digit c then Some (n + 4)%Z
  else if char_eqb c "-" then Some 62%Z
  else if char_eqb c "_" then Some 63%Z else None.

Fixpoint base64Digits (bytes : list Z) : list Z :=
  match bytes with
  | a :: b :: c :: rest =>
      [a / 4; a mod 4 * 16 + b / 16; b mod 16 * 4 + c / 64; c mod 64]%Z ++ base64Digits rest
  | [a; b] => [a / 4; a mod 4 * 16 + b / 16; b mod 16 * 4]%Z
  | [a] => [a / 4; a mod 4 * 16]%Z
  | [] => []
  end.

Definition EncodeToString (bytes : list Z) : string :=
  String.string_of_list_ascii (map base64Char (base64Digits bytes)).

(** The decoder is not strict: it ignores what is left of the last digit. *)
Fixpoint base64Bytes (digits : list Z) : option (list Z) :=
  match digits with
  | a :: b :: c :: d :: rest =>
      bytes ← base64Bytes rest;
      Some ([a * 4 + b / 16; b mod 16 * 16 + c / 4; c mod 4 * 64 + d] ++ bytes)%Z
  | [a; b; c] => Some [a * 4 + b / 16; b mod 16 * 16 + c / 4]%Z
  | [a; b] => Some [a * 4 + b / 16]%Z
  | [_] => None
  | [] => Some []
  end.

(** Line breaks are skipped. *)
Definition isBreak (c : ascii) : bool := char_eqb c "010" || char_eqb c "013".

Definition DecodeString (s : string) : option (list Z) :=
  digits ← mapM base64Value (filter (λ c, isBreak c = false) (String.list_ascii_of_string s));
  base64Bytes digits.

(** [RawURLEncoding.EncodedLen] *)
Definition EncodedLen (n : Z) : Z := (n / 3 * 4 + (n mod 3 * 8 + 5) / 6)%Z.

(** ** The capability of a boot *)

Definition TokenSize : nat := 32.

(** No token, a destroyed one, or one with its protected bytes. *)
Inductive Token := TokenNil | TokenDestroyed | TokenLive (bytes : list Z).

Inductive guest_error := RPCError (code : string) | PlainError (m : string) | SessionError (e : session_error).

Definition guestRPCError (code : string) : guest_error := RPCError code.

(** [stored] is whether protected memory could be allocated. *)
Definition TokenFromBytes (stored : bool) (value : list Z) : result guest_error Token :=
  fail_if (negb (length value =? TokenSize)%nat) with (PlainError "size") ;;
  fail_if (negb stored) with (PlainError "store") ;;
  Ok (TokenLive value).

(** [random] is what the system's generator returns. *)
Definition NewToken (stored : bool) (random : option (list Z)) : result guest_error Token :=
  match random with
  | None => Err (PlainError "generate")
  | Some value => TokenFromBytes stored value
  end.

(** [ReadToken]: the file's bytes, or the failure to open or read it; the read
    after the token must return nothing and end of file or no error. *)
Definition ReadToken (stored : bool) (path : string) (contents : option (list Z)) (extraError : bool) :
    result guest_error Token :=
  fail_if (bool_decide (path = "")) with (PlainError "path") ;;
  match contents with
  | None => Err (PlainError "open")
  | Some bytes =>
      fail_if (length bytes <? TokenSize)%nat with (PlainError "read") ;;
      fail_if (negb (isNil (drop TokenSize bytes)) || extraError) with (PlainError "length") ;;
      TokenFromBytes stored (take TokenSize bytes)
  end.

Definition DestroyToken (t : Token) : Token := match t with TokenNil => TokenNil | _ => TokenDestroyed end.

Definition encodeTokenReader (bytes : list Z) : option string :=
  if (length bytes =? TokenSize)%nat then Some (EncodeToString bytes) else None.

(** The values of the token's key, with the token's appended. *)
Definition outgoingContext (t : Token) (outgoing : list string) : result guest_error (list string) :=
  match t with
  | TokenNil | TokenDestroyed => Err (PlainError "unavailable")
  | TokenLive bytes =>
      match encodeTokenReader bytes with
      | None => Err (PlainError "length")
      | Some encoded => Ok (outgoing ++ [encoded])
      end
  end.

Definition authenticationFailed : guest_error := guestRPCError "GUEST_AUTHENTICATION_FAILED".

(** [metadata] is the incoming metadata's values of the token's key, [None]
    without metadata. *)
Definition authenticate (t : Token) (metadata : option (list string)) : result guest_error unit :=
  match t with
  | TokenNil | TokenDestroyed => Err authenticationFailed
  | TokenLive bytes =>
      match metadata with
      | Some [value] =>
          fail_if (negb (slen value =? EncodedLen (Z.of_nat TokenSize))%Z) with authenticationFailed ;;
          match DecodeString value with
          | None => Err authenticationFailed
          | Some presented =>
              fail_if (negb (length presented =? TokenSize)%nat) with authenticationFailed ;;
              fail_if (negb (bool_decide (bytes = presented))) with authenticationFailed ;;
              Ok tt
          end
      | _ => Err authenticationFailed
      end
  end.

(** ** Roles and capabilities *)

Definition APIMajor : Z := 1.
Definition APIMinor : Z := 0.

(** [GuestRole], an open enumeration of the protocol. *)
Definition GUEST_ROLE_WORKSTATION : Z := 1.
Definition GUEST_ROLE_DOWNLOADER : Z := 2.
Definition GUEST_ROLE_SCANNER : Z := 3.
Definition GUEST_ROLE_EXPORTER : Z := 4.

Definition commonCapabilities : list string := ["guest-events"; "guest-shutdown"; "guest-status"].

Definition roleCapabilities (role : Role) : list string :=
  match role with
  | RoleWorkstation => ["desktop"; "network-warning"; "vpn-verification"; "wireguard-config"; "workspace-export"; "workspace-import"]
  | RoleDownloader => ["quarantine-seal"; "torrent-download"; "torrent-metadata"; "vpn-verification"; "wireguard-config"]
  | RoleScanner => ["approved-export"; "definitions-update"; "inventory"; "offline-verification"; "reconstruct"; "scan";
                    "scan-report"; "vpn-verification"; "wireguard-config"]
  | RoleExporter => ["usb-finalize"; "usb-inspect"; "usb-prepare"; "usb-verify"; "usb-write"]
  | RoleOther _ => []
  end.

Definition Capabilities (role : Role) : result session_error (list string) :=
  _ <-! ValidateRole role ;;
  Ok (merge_sort string_le (commonCapabilities ++ roleCapabilities role)).

Definition ProtoRole (role : Role) : result guest_error Z :=
  match role with
  | RoleWorkstation => Ok GUEST_ROLE_WORKSTATION
  | RoleDownloader => Ok GUEST_ROLE_DOWNLOADER
  | RoleScanner => Ok GUEST_ROLE_SCANNER
  | RoleExporter => Ok GUEST_ROLE_EXPORTER
  | RoleOther _ => Err (PlainError "unsupported guest role")
  end.

Definition SessionRole (role : Z) : result guest_error Role :=
  if (role =? GUEST_ROLE_WORKSTATION)%Z then Ok RoleWorkstation
  else if (role =? GUEST_ROLE_DOWNLOADER)%Z then Ok RoleDownloader
  else if (role =? GUEST_ROLE_SCANNER)%Z then Ok RoleScanner
  else if (role =? GUEST_ROLE_EXPORTER)%Z then Ok RoleExporter
  else Err (PlainError "unsupported guest role").

(** ** Request contexts *)

Record ApiVersion := mkVersion { av_Major : Z; av_Minor : Z }.
Record RequestContext := mkRequestContext { rx_ApiVersion : option ApiVersion; rx_RequestId : string; rx_SessionId : string }.
Record GuestContext := mkGuestContext { gx_Context : option RequestContext; gx_ExpectedRole : Z }.

Definition is_id_char (c : ascii) : bool :=
  is_upper c || is_lower c || is_digit c || char_eqb c "." || char_eqb c "_" || char_eqb c "-".

(** [^[A-Za-z0-9][A-Za-z0-9._-]{7,127}$] and [^pvm-[a-f0-9]{32}$] *)
Definition guestRequestIDPattern : string → bool :=
  match_head_tail (λ c, is_upper c || is_lower c || is_digit c) is_id_char 7 127.
Definition guestSessionIDPattern : string → bool := match_prefix_exact "pvm-" is_lower_hex 32.

Definition ValidateRequestContext (request : option RequestContext) : result guest_error unit :=
  match request with
  | None => Err (guestRPCError "GUEST_CONTEXT_REQUIRED")
  | Some r =>
  match rx_ApiVersion r with
  | None => Err (guestRPCError "GUEST_CONTEXT_REQUIRED")
  | Some v =>
      fail_if (negb (av_Major v =? APIMajor)%Z || (APIMinor <? av_Minor v)%Z)
        with (guestRPCError "GUEST_PROTOCOL_VERSION_MISMATCH") ;;
      fail_if (negb (guestRequestIDPattern (rx_RequestId r)) || negb (guestSessionIDPattern (rx_SessionId r)))
        with (guestRPCError "GUEST_CONTEXT_INVALID") ;;
      Ok tt
  end end.

Definition ValidateGuestContext (context : option GuestContext) (role : Role) : result guest_error unit :=
  match context with
  | None => Err (guestRPCError "GUEST_CONTEXT_REQUIRED")
  | Some c =>
      _ <-! ValidateRequestContext (gx_Context c) ;;
      match ProtoRole role with
      | Err _ => Err (guestRPCError "GUEST_ROLE_MISMATCH")
      | Ok expected =>
          fail_if (negb (gx_ExpectedRole c =? expected)%Z) with (guestRPCError "GUEST_ROLE_MISMATCH") ;;
          Ok tt
      end
  end.

(** The request types that carry a guest context, and every other. *)
Inductive RequestKind := GuestHelloRequest | GuestStatusRequest | ShutdownRequest | ConfigureWireGuardRequest
  | VerifyVPNRequest | TorrentRequest | SelectTorrentFilesRequest | ScannerRequest | ExportApprovedFileRequest
  | WorkspaceStateRequest | GuestExportFileRequest | MarkExportVerifiedRequest | NetworkWarningRequest
  | ExporterRequest | VerifyExportRequest | UnsupportedRequest.

Record Request := mkRequest { rq_Kind : RequestKind; rq_Context : option GuestContext }.

Definition unaryGuestContext (request : Request) : result guest_error (option GuestContext) :=
  match rq_Kind request with
  | UnsupportedRequest => Err (guestRPCError "GUEST_CONTEXT_UNSUPPORTED")
  | _ => Ok (rq_Context request)
  end.

(** A message of a client stream: what its interceptor looks at. *)
Inductive StreamMessage :=
| TorrentInputMessage (context : option GuestContext)
| TransferMessage (begin : option (option RequestContext))
| PrepareUSBMessage (begin : option (option GuestContext))
| OtherMessage (request : Request).

(** [contextServerStream.RecvMsg] once the stream below it delivered a message;
    the state is [validated]. *)
Definition RecvMsg (role : Role) (validated : bool) (message : StreamMessage) : result guest_error unit * bool :=
  if validated then (Ok tt, true)
  else
    let finish r := match r with Ok _ => (Ok tt, true) | Err e => (Err e, false) end in
    match message with
    | TorrentInputMessage context => finish (ValidateGuestContext context role)
    | TransferMessage None => (Err (guestRPCError "TRANSFER_BEGIN_REQUIRED"), false)
    | TransferMessage (Some context) => finish (ValidateRequestContext context)
    | PrepareUSBMessage None => (Err (guestRPCError "USB_PREPARE_BEGIN_REQUIRED"), false)
    | PrepareUSBMessage (Some context) => finish (ValidateGuestContext context role)
    | OtherMessage request =>
        match unaryGuestContext request with
        | Err e => (Err e, false)
        | Ok context => finish (ValidateGuestContext context role)
        end
    end.

(** ** The guest's server *)

Definition BootNonceSize : nat := 32.
Definition DefaultMaxMessageSize : Z := 2097152.
Definition MaximumMessageSize : Z := 16777216.

Record Identity := mkIdentity {
  id_Role : Role;
  id_ImageDigest : string;
  id_SourceCommit : string;
  id_BootNonce : list Z;
  id_OSRelease : string;
  id_GuestdVersion : string
}.

Definition lineBreaks : string := String "000" (String "013" (String "010" EmptyString)).

Definition badText (value : string) : bool :=
  bool_decide (value = "") || (256 <? slen value)%Z || ContainsAny value lineBreaks.

Definition ValidateIdentity (i : Identity) : result guest_error unit :=
  match ValidateRole (id_Role i) with
  | Err e => Err (SessionError e)
  | Ok _ =>
      fail_if (negb (length (id_BootNonce i) =? BootNonceSize)%nat) with (PlainError "boot nonce") ;;
      fail_if (existsb badText [id_ImageDigest i; id_SourceCommit i; id_OSRelease i; id_GuestdVersion i])
        with (PlainError "identity") ;;
      Ok tt
  end.

Definition NewIdentity (role : Role) (imageDigest sourceCommit osRelease guestdVersion : string) (random : option (list Z)) :
    result guest_error Identity :=
  match random with
  | None => Err (PlainError "generate boot nonce")
  | Some nonce =>
      let identity := mkIdentity role imageDigest sourceCommit nonce osRelease guestdVersion in
      _ <-! ValidateIdentity identity ;;
      Ok identity
  end.

(** The services of the protocol: the common one and one per role. *)
Inductive Service := GuestCommonService | WorkstationService | DownloaderService | ScannerService | ExporterService.

#[global] Instance Service_eq_dec : EqDecision Service.
Proof. solve_decision. Defined.

Definition roleService (role : Role) : option Service :=
  match role with
  | RoleWorkstation => Some WorkstationService
  | RoleDownloader => Some DownloaderService
  | RoleScanner => Some ScannerService
  | RoleExporter => Some ExporterService
  | RoleOther _ => None
  end.

(** The handlers the configuration brings. *)
Record ServerConfig := mkServerConfig {
  sc_Identity : Identity;
  sc_Token : Token;
  sc_MaxMessageSize : Z;
  sc_Workstation : bool;
  sc_Downloader : bool;
  sc_Scanner : bool;
  sc_Exporter : bool
}.

Definition validateRoleHandlers (config : ServerConfig) : result guest_error unit :=
  let role := id_Role (sc_Identity config) in
  fail_if (existsb (λ p, p.2 && negb (bool_decide (p.1 = role)))
             [(RoleWorkstation, sc_Workstation config); (RoleDownloader, sc_Downloader config);
              (RoleScanner, sc_Scanner config); (RoleExporter, sc_Exporter config)])
    with (PlainError "handler for a different guest role cannot be registered") ;;
  Ok tt.

Record GuestServer := mkGuestServer {
  gs_Identity : Identity;
  gs_Token : Token;
  gs_MaxMessageSize : Z;
  gs_Services : list Service
}.

Definition newServer (config : ServerConfig) : result guest_error GuestServer :=
  _ <-! ValidateIdentity (sc_Identity config) ;;
  fail_if (match sc_Token config with TokenNil => true | _ => false end) with (PlainError "guest capability is required") ;;
  _ <-! validateRoleHandlers config ;;
  let maxMessageSize := if (sc_MaxMessageSize config =? 0)%Z then DefaultMaxMessageSize else sc_MaxMessageSize config in
  fail_if ((maxMessageSize <? 1048576)%Z || (MaximumMessageSize <? maxMessageSize)%Z) with (PlainError "message bound") ;;
  Ok (mkGuestServer (sc_Identity config) (sc_Token config) maxMessageSize
        (GuestCommonService :: option_list (roleService (id_Role (sc_Identity config))))).

(** A unary call: its service must be registered; then the interceptors run in
    the order of their chain, then the handler. *)
Definition serveUnary {A : Type} (s : GuestServer) (service : Service) (metadata : option (list string)) (request : Request)
    (handler : Request → result guest_error A) : result guest_error A :=
  fail_if (negb (bool_decide (service ∈ gs_Services s))) with (RPCError "UNIMPLEMENTED") ;;
  _ <-! authenticate (gs_Token s) metadata ;;
  context <-! unaryGuestContext request ;;
  _ <-! ValidateGuestContext context (id_Role (gs_Identity s)) ;;
  handler request.

(** A client stream: the messages the handler's receives deliver, up to the first
    that fails. *)
Fixpoint receiveAll (role : Role) (validated : bool) (messages : list StreamMessage) :
    list StreamMessage * option guest_error :=
  match messages with
  | [] => ([], None)
  | message :: rest =>
      match RecvMsg role validated message with
      | (Err e, _) => ([], Some e)
      | (Ok _, validated) => let '(more, e) := receiveAll role validated rest in (message :: more, e)
      end
  end.

Definition serveStream (s : GuestServer) (service : Service) (metadata : option (list string)) (messages : list StreamMessage) :
    result guest_error (list StreamMessage * option guest_error) :=
  fail_if (negb (bool_decide (service ∈ gs_Services s))) with (RPCError "UNIMPLEMENTED") ;;
  _ <-! authenticate (gs_Token s) metadata ;;
  Ok (receiveAll (id_Role (gs_Identity s)) false messages).

(** ** The handshake *)

Record GuestHelloResponse := mkHello {
  gh_ApiVersion : option ApiVersion;
  gh_Role : Z;
  gh_ImageDigest : string;
  gh_SourceCommit : string;
  gh_Capabilities : list string;
  gh_BootNonce : list Z;
  gh_OsRelease : string;
  gh_GuestdVersion : string
}.

Definition Hello (identity : Identity) (request : Request) : result guest_error GuestHelloResponse :=
  _ <-! ValidateGuestContext (rq_Context request) (id_Role identity) ;;
  match ProtoRole (id_Role identity) with
  | Err _ => Err (guestRPCError "GUEST_IDENTITY_INVALID")
  | Ok role =>
      match Capabilities (id_Role identity) with
      | Err _ => Err (guestRPCError "GUEST_CAPABILITIES_INVALID")
      | Ok capabilities =>
          Ok (mkHello (Some (mkVersion APIMajor APIMinor)) role (id_ImageDigest identity) (id_SourceCommit identity)
                capabilities (id_BootNonce identity) (id_OSRelease identity) (id_GuestdVersion identity))
      end
  end.

Record HandshakeExpectation := mkExpectation {
  he_SessionID : string;
  he_RequestID : string;
  he_Role : Role;
  he_ImageDigest : string;
  he_SourceCommit : string;
  he_Capabilities : list string;
  he_MinimumProtocolMinor : Z
}.

(** The comparison of two sorted lists, with the last element of the first. *)
Fixpoint sameSorted (previous : option string) (actual expected : list string) : bool :=
  match actual, expected with
  | [], [] => true
  | a :: actual, e :: expected =>
      if bool_decide (previous = Some a) then false
      else if negb (bool_decide (a = e)) then false
      else sameSorted (Some a) actual expected
  | _, _ => false
  end.

Definition sameCapabilities (actual expected : list string) : bool :=
  let a := merge_sort string_le actual in
  let e := merge_sort string_le expected in
  (length a =? length e)%nat && sameSorted None a e.

Definition allZero (value : list Z) : bool := (foldl Z.lor 0 value =? 0)%Z.

Definition VerifyHello (response : GuestHelloResponse) (expected : HandshakeExpectation) : result guest_error unit :=
  role <-! ProtoRole (he_Role expected) ;;
  match gh_ApiVersion response with
  | None => Err (guestRPCError "GUEST_PROTOCOL_VERSION_MISMATCH")
  | Some v =>
      fail_if (negb (av_Major v =? APIMajor)%Z || (av_Minor v <? he_MinimumProtocolMinor expected)%Z)
        with (guestRPCError "GUEST_PROTOCOL_VERSION_MISMATCH") ;;
      fail_if (negb (gh_Role response =? role)%Z) with (guestRPCError "GUEST_ROLE_MISMATCH") ;;
      fail_if (negb (bool_decide (gh_ImageDigest response = he_ImageDigest expected)) ||
               negb (bool_decide (gh_SourceCommit response = he_SourceCommit expected)))
        with (guestRPCError "GUEST_IMAGE_IDENTITY_MISMATCH") ;;
      fail_if (negb (sameCapabilities (gh_Capabilities response) (he_Capabilities expected)))
        with (guestRPCError "GUEST_CAPABILITY_MISMATCH") ;;
      fail_if (negb (length (gh_BootNonce response) =? BootNonceSize)%nat || allZero (gh_BootNonce response) ||
               bool_decide (gh_OsRelease response = "") || bool_decide (gh_GuestdVersion response = ""))
        with (guestRPCError "GUEST_IDENTITY_INCOMPLETE") ;;
      Ok tt
  end.

(** [hello] is the client's call. *)
Definition Handshake (hasDeadline : bool) (hello : Request → result guest_error GuestHelloResponse)
    (expected : HandshakeExpectation) : result guest_error GuestHelloResponse :=
  fail_if (negb hasDeadline) with (PlainError "guest handshake requires a deadline") ;;
  role <-! ProtoRole (he_Role expected) ;;
  response <-! hello (mkRequest GuestHelloRequest (Some (mkGuestContext
    (Some (mkRequestContext (Some (mkVersion APIMajor (he_MinimumProtocolMinor expected))) (he_RequestID expected)
      (he_SessionID expected))) role))) ;;
  _ <-! VerifyHello response expected ;;
  Ok response.

(** ** The host's client *)

Definition DefaultPort : Z := 4050.

(** [Dial]: the checks of the client's configuration, and the effective port and
    message bound. *)
Definition Dial (cid port : Z) (token : Token) (maxMessageSize : Z) : result guest_error (Z * Z * Z) :=
  fail_if ((cid <? MinimumGuestCID)%Z || (MaximumGuestCID <? cid)%Z) with (PlainError "cid") ;;
  let port := if (port =? 0)%Z then DefaultPort else port in
  fail_if (match token with TokenNil => true | _ => false end) with (PlainError "guest capability is required") ;;
  let size := if (maxMessageSize =? 0)%Z then DefaultMaxMessageSize else maxMessageSize in
  fail_if ((size <? 1048576)%Z || (MaximumMessageSize <? size)%Z) with (PlainError "message bound") ;;
  Ok (cid, port, size).

(** A unary call of a client with [token] to the guest's server. *)
Definition callUnary {A : Type} (token : Token) (s : GuestServer) (service : Service) (request : Request)
    (handler : Request → result guest_error A) : result guest_error A :=
  metadata <-! outgoingContext token [] ;;
  serveUnary s service (Some metadata) request handler.

#[global] Arguments guestRequestIDPattern : simpl never.
#[global] Arguments guestSessionIDPattern : simpl never.
#[global] Arguments EncodeToString : simpl never.
#[global] Arguments DecodeString : simpl never.
#[global] Arguments sameCapabilities : simpl never.
#[global] Arguments Capabilities : simpl never.

(** ** Context identifiers: the allocator hands out exactly the free ones *)

(** What [NewCIDAllocator] establishes and every operation keeps. *)
Record allocating (a : CIDAllocator) : Prop := {
  ag_min : (MinimumGuestCID ≤ al_min a)%Z;
  ag_max : (al_max a ≤ MaximumGuestCID)%Z;
  ag_next : (al_min a ≤ al_next a ≤ al_max a)%Z;
  ag_used c : c ∈ al_used a → (al_min a ≤ c ≤ al_max a)%Z
}.

(** The candidate of the [i]-th attempt. *)
Definition candidateAt (a : CIDAllocator) (i : nat) : Z :=
  (al_min a + (al_next a - al_min a + Z.of_nat i) mod (al_max a - al_min a + 1))%Z.

Lemma advance_next a : allocating a → al_next (advance a) = candidateAt a 1.
Proof.
  intros [H1 H2 H3 _]. unfold advance, candidateAt. cbn [al_next]. unfold MinimumGuestCID, MaximumGuestCID in *.
  destruct (al_next a =? al_max a)%Z eqn:E; bool_hyps.
  - rewrite E. replace (al_max a - al_min a + Z.of_nat 1)%Z with (al_max a - al_min a + 1)%Z by lia.
    rewrite Z_mod_same_full. lia.
  - rewrite !Z.mod_small by lia. lia.
Qed.

Lemma allocating_advance a : allocating a → allocating (advance a).
Proof.
  intros Ha. pose proof (advance_next a Ha) as Hn. destruct Ha as [H1 H2 H3 H4]. split; try done.
  rewrite Hn. unfold candidateAt. simpl.
  pose proof (Z.mod_pos_bound (al_next a - al_min a + Z.of_nat 1) (al_max a - al_min a + 1)). lia.
Qed.

Lemma candidateAt_advance a i : allocating a → candidateAt (advance a) i = candidateAt a (S i).
Proof.
  intros Ha. pose proof (advance_next a Ha) as Hn. destruct Ha as [H1 H2 H3 H4].
  unfold candidateAt at 1. rewrite Hn. unfold candidateAt. simpl al_min. simpl al_max.
  replace (al_min a + (al_next a - al_min a + Z.of_nat 1) mod (al_max a - al_min a + 1) - al_min a + Z.of_nat i)%Z
    with ((al_next a - al_min a + Z.of_nat 1) mod (al_max a - al_min a + 1) + Z.of_nat i)%Z by lia.
  rewrite Zplus_mod_idemp_l. do 2 f_equal. lia.
Qed.

Lemma allocateLoop_ok n a r a' :
  allocating a → allocateLoop n a = (r, a') →
  allocating a' ∧ al_min a' = al_min a ∧ al_max a' = al_max a ∧
  match r with
  | Ok c => (al_min a ≤ c ≤ al_max a)%Z ∧ (c ∉ al_used a) ∧ al_used a' = ({[c]} ∪ al_used a)
  | Err e => e = ErrCIDUnavailable ∧ al_used a' = al_used a ∧ ∀ i, (i < n)%nat → candidateAt a i ∈ al_used a
  end.
Proof.
  revert a. induction n as [|n IH]; intros a Ha He; simpl in He.
  { injection He as <- <-. split_and!; try done. lia. }
  destruct (bool_decide (al_next a ∈ al_used a)) eqn:Hu.
  - destruct (IH _ (allocating_advance a Ha) He) as (Ha' & Hmin & Hmax & Hr). split_and!; try done.
    destruct r as [c|e]; [done|]. destruct Hr as (-> & Hused & Hall). split_and!; try done.
    intros [|i] Hi; [|rewrite <- candidateAt_advance by done; apply Hall; lia].
    bool_hyps. destruct Ha as [? ? ? ?]. unfold candidateAt. rewrite Z.mod_small by lia.
    by replace (al_min a + (al_next a - al_min a + Z.of_nat 0))%Z with (al_next a) by lia.
  - injection He as <- <-. bool_hyps. destruct (allocating_advance a Ha) as [H1 H2 H3 H4]. destruct Ha as [? ? ? ?].
    split; [|simpl; split_and!; (done || lia)]. split; try done. simpl. intros c. rewrite elem_of_union, elem_of_singleton.
    intros [->|Hc]; [done|]. by apply H4.
Qed.

Lemma Allocate_ok a r a' :
  allocating a → Allocate a = (r, a') →
  allocating a' ∧ al_min a' = al_min a ∧ al_max a' = al_max a ∧
  match r with
  | Ok c => (al_min a ≤ c ≤ al_max a)%Z ∧ (c ∉ al_used a) ∧ al_used a' = ({[c]} ∪ al_used a)
  | Err e => e = ErrCIDUnavailable ∧ al_used a' = al_used a ∧ ∀ c, (al_min a ≤ c ≤ al_max a)%Z → c ∈ al_used a
  end.
Proof.
  intros Ha He. destruct (allocateLoop_ok _ _ _ _ Ha He) as (Ha' & Hmin & Hmax & Hr). split_and!; try done.
  destruct r as [c|e]; [done|]. destruct Hr as (-> & Hused & Hall). split_and!; try done. intros c Hc.
  destruct Ha as [? ? ? ?]. set (m := (al_max a - al_min a + 1)%Z) in *.
  assert (0 < m)%Z as Hm by lia. pose proof (Z.mod_pos_bound (c - al_next a) m Hm) as Hb.
  specialize (Hall (Z.to_nat ((c - al_next a) mod m))). unfold candidateAt in Hall. fold m in Hall.
  rewrite Z2Nat.id in Hall by lia. rewrite Zplus_mod_idemp_r in Hall.
  replace (al_next a - al_min a + (c - al_next a))%Z with (c - al_min a)%Z in Hall by lia.
  rewrite (Z.mod_small (c - al_min a) m) in Hall by lia. replace (al_min a + (c - al_min a))%Z with c in Hall by lia. apply Hall. lia.
Qed.

(** The allocator's operations, and the runs of a new one. *)
Inductive cid_step : CIDAllocator → CIDAllocator → Prop :=
| cid_allocate a : cid_step a (Allocate a).2
| cid_reserve a c : cid_step a (Reserve c a).2
| cid_release a c : cid_step a (Release c a).2.

Lemma allocating_new minimum maximum a : NewCIDAllocator minimum maximum = Ok a → allocating a.
Proof.
  unfold NewCIDAllocator. intros H. pass_guards H. injection H as <-. bool_hyps. split; simpl; try lia. set_solver.
Qed.

Lemma allocating_step a a' : allocating a → cid_step a a' → allocating a'.
Proof.
  intros Ha Hs. destruct Hs as [a|a c|a c].
  - destruct (Allocate a) as [r a'] eqn:He. by destruct (Allocate_ok _ _ _ Ha He).
  - unfold Reserve. destruct (_ || _) eqn:Hr; [done|]. destruct (bool_decide _); [done|]. bool_hyps.
    destruct Ha as [? ? ? H4]. split; simpl; try done. intros x. rewrite elem_of_union, elem_of_singleton.
    intros [->|Hx]; [lia|by apply H4].
  - unfold Release. destruct (negb _); [done|]. destruct Ha as [? ? ? H4]. split; simpl; try done.
    intros x [Hx _]%elem_of_difference. by apply H4.
Qed.

Lemma allocating_reachable a a' : allocating a → rtc cid_step a a' → allocating a'.
Proof. intros Ha Hr. induction Hr as [|x y z Hs _ IH]; [done|]. by apply IH, (allocating_step x). Qed.

(** Context identifiers are handed out exactly.  After any sequence of
    allocations, reservations and releases, an allocation succeeds if and only if
    some identifier of the range is free, within one pass over the range; it
    returns a free one, which is then held and is never one of the reserved
    0, 1 and 2.  A reservation succeeds exactly on a free identifier of the range
    and a release exactly on a held one; neither touches another. *)
Theorem cid_allocation_exact minimum maximum a0 a :
  NewCIDAllocator minimum maximum = Ok a0 → rtc cid_step a0 a →
  (is_Ok (Allocate a).1 = true ↔ ∃ c, (al_min a ≤ c ≤ al_max a)%Z ∧ (c ∉ al_used a)) ∧
  (∀ c a', Allocate a = (Ok c, a') →
     (3 ≤ c ≤ MaximumGuestCID)%Z ∧ (c ∉ al_used a) ∧ al_used a' = ({[c]} ∪ al_used a)) ∧
  (∀ c, is_Ok (Reserve c a).1 = true ↔ (al_min a ≤ c ≤ al_max a)%Z ∧ (c ∉ al_used a)) ∧
  (∀ c a', Reserve c a = (Ok tt, a') → al_used a' = ({[c]} ∪ al_used a)) ∧
  (∀ c, (Release c a).1 = true ↔ c ∈ al_used a) ∧
  (∀ c, al_used (Release c a).2 = (al_used a ∖ {[c]})).
Proof.
  intros Hn Hr. pose proof (allocating_reachable _ _ (allocating_new _ _ _ Hn) Hr) as Ha.
  destruct (Allocate a) as [r a'] eqn:He. destruct (Allocate_ok _ _ _ Ha He) as (_ & _ & _ & Hok).
  pose proof Ha as [H1 H2 _ _]. unfold MinimumGuestCID in H1. split_and!.
  - destruct r as [c|e]; simpl; split; try done.
    + intros _. exists c. by destruct Hok as (? & ? & _).
    + destruct Hok as (_ & _ & Hall). intros (c & Hc & Hfree). by destruct (Hfree (Hall c Hc)).
  - intros c a2 [= -> ->]. destruct Hok as (? & ? & ?). split_and!; [lia|lia|done|done].
  - intros c. unfold Reserve. destruct (_ || _) eqn:Hg; [|destruct (bool_decide _) eqn:Hb]; simpl; bool_hyps; split; try done.
    + intros [Hc _]. destruct (c <? al_min a)%Z eqn:E; bool_hyps; lia.
    + intros [_ Hf]. by destruct Hf.
  - intros c a2. unfold Reserve. destruct (_ || _); [done|]. destruct (bool_decide _); [done|]. by intros [= <-].
  - intros c. unfold Release. destruct (bool_decide _) eqn:Hb; simpl; bool_hyps; by split.
  - intros c. unfold Release. destruct (bool_decide _) eqn:Hb; simpl; bool_hyps; [done|]. set_solver.
Qed.

Lemma cid_allocation_exact_witness :
  ∃ a, rtc cid_step (mkAllocator 3 4 3 ∅) a ∧ al_used a = ({[4]} ∪ ({[3]} ∪ ∅)) ∧ is_Ok (Allocate a).1 = false.
Proof.
  exists (Allocate (Allocate (mkAllocator 3 4 3 ∅)).2).2.
  assert (rtc cid_step (mkAllocator 3 4 3 ∅) (Allocate (Allocate (mkAllocator 3 4 3 ∅)).2).2) as Hr
    by (eapply rtc_l; [apply cid_allocate|]; apply rtc_once, cid_allocate).
  split; [exact Hr|]. split; [vm_compute; reflexivity|].
  destruct (cid_allocation_exact 3 4 (mkAllocator 3 4 3 ∅) _ eq_refl Hr) as (Hiff & _).
  destruct (is_Ok _) eqn:He; [|reflexivity]. exfalso. vm_compute in He. discriminate He.
Defined.

(** ** Base64: decoding an encoding *)

Definition isByte (x : Z) : Prop := (0 ≤ x < 256)%Z.

Lemma base64Char_table :
  forallb (λ n, let v := Z.of_nat n in
     bool_decide (base64Value (base64Char v) = Some v) && negb (isBreak (base64Char v))) (seq 0 64) = true.
Proof. vm_compute. reflexivity. Qed.

Lemma base64Char_ok v : (0 ≤ v < 64)%Z → base64Value (base64Char v) = Some v ∧ isBreak (base64Char v) = false.
Proof.
  intros Hv. pose proof base64Char_table as Ht. rewrite forallb_forall in Ht. specialize (Ht (Z.to_nat v)).
  rewrite in_seq, Z2Nat.id in Ht by lia. specialize (Ht ltac:(lia)). cbv zeta in Ht.
  apply andb_true_iff in Ht as [H1 H2]. rewrite bool_decide_eq_true in H1. by rewrite negb_true_iff in H2.
Qed.

Lemma base64Digits_ok bytes :
  Forall isByte bytes → Forall (λ v, 0 ≤ v < 64)%Z (base64Digits bytes) ∧ base64Bytes (base64Digits bytes) = Some bytes.
Proof.
  unfold isByte. induction bytes as [bytes IH] using (induction_ltof1 _ (@length Z)). unfold ltof in IH.
  destruct bytes as [|a [|b [|c rest]]]; intros Hb; repeat (apply Forall_cons in Hb as [? Hb]).
  - by split; [constructor|].
  - split; [repeat constructor; Z.to_euclidean_division_equations; lia|]. simpl. do 2 f_equal.
    Z.to_euclidean_division_equations; lia.
  - split; [repeat constructor; Z.to_euclidean_division_equations; lia|]. simpl.
    f_equal. repeat f_equal; Z.to_euclidean_division_equations; lia.
  - destruct (IH rest) as [Hr Hd]; [simpl; lia|done|]. simpl. rewrite Hd. simpl.
    split; [repeat constructor; try done; Z.to_euclidean_division_equations; lia|].
    f_equal. f_equal; [|f_equal; [|f_equal]]; Z.to_euclidean_division_equations; lia.
Qed.

Lemma list_of_string_of l : String.list_ascii_of_string (String.string_of_list_ascii l) = l.
Proof. apply String.list_ascii_of_string_of_list_ascii. Qed.

Lemma decode_encode bytes : Forall isByte bytes → DecodeString (EncodeToString bytes) = Some bytes.
Proof.
  intros [Hd Hb]%base64Digits_ok. unfold DecodeString, EncodeToString. rewrite list_of_string_of.
  assert (filter (λ c, isBreak c = false) (map base64Char (base64Digits bytes)) = map base64Char (base64Digits bytes) ∧
          mapM base64Value (map base64Char (base64Digits bytes)) = Some (base64Digits bytes)) as [-> ->]; [|done].
  clear Hb. induction Hd as [|v ds Hv _ [IH1 IH2]]; [done|]. destruct (base64Char_ok v Hv) as [H1 H2]. simpl.
  rewrite H1. simpl in *. rewrite IH2. split; [|done]. rewrite filter_cons_True by done. by rewrite IH1.
Qed.

Lemma encode_length bytes : length bytes = TokenSize → slen (EncodeToString bytes) = 43%Z.
Proof.
  unfold TokenSize, slen, EncodeToString. intros Hl.
  do 33 (destruct bytes as [|? bytes]; [done|]). done.
Qed.

(** ** Authentication *)

Lemma authenticate_ok t metadata :
  authenticate t metadata = Ok tt ↔
  ∃ bytes value, t = TokenLive bytes ∧ metadata = Some [value] ∧ slen value = 43%Z ∧ DecodeString value = Some bytes ∧
    length bytes = TokenSize.
Proof.
  unfold authenticate. split.
  - intros H. destruct t as [| |bytes]; [done..|]. destruct metadata as [[|value [|]]|]; try done.
    pass_guards H. destruct (DecodeString value) as [presented|] eqn:Hd; [|done]. pass_guards H. bool_hyps. subst.
    by exists presented, value.
  - intros (bytes & value & -> & -> & Hl & Hd & Hb). rewrite Hl, Hd, Hb. simpl. by rewrite bool_decide_true.
Qed.

(** A client's metadata authenticates exactly against the same live token. *)
Lemma client_authenticates client server :
  (∀ bytes, client = TokenLive bytes → Forall isByte bytes) →
  (∃ metadata, outgoingContext client [] = Ok metadata ∧ authenticate server (Some metadata) = Ok tt) ↔
  ∃ bytes, client = TokenLive bytes ∧ server = TokenLive bytes ∧ length bytes = TokenSize.
Proof.
  intros Hwf. unfold outgoingContext, encodeTokenReader. split.
  - intros (metadata & Ho & Ha). destruct client as [| |bytes]; [done..|].
    destruct (length bytes =? TokenSize)%nat eqn:Hl; [|done]. injection Ho as <-. apply Nat.eqb_eq in Hl.
    apply authenticate_ok in Ha as (sb & value & -> & Hv & _ & Hd & _). simpl in Hv. injection Hv as <-.
    rewrite decode_encode in Hd by (by apply Hwf). injection Hd as <-. by exists bytes.
  - intros (bytes & -> & -> & Hl). rewrite Hl, Nat.eqb_refl. eexists. split; [done|].
    apply authenticate_ok. exists bytes, (EncodeToString bytes).
    split_and!; try done; [by apply encode_length|by apply decode_encode, Hwf].
Qed.

(** ** Contexts and roles *)

Lemma ProtoRole_ok role n : ProtoRole role = Ok n → SessionRole n = Ok role.
Proof. by destruct role; intros [= <-]. Qed.

Lemma ProtoRole_inj role role' n : ProtoRole role = Ok n → ProtoRole role' = Ok n → role = role'.
Proof. intros H1%ProtoRole_ok H2%ProtoRole_ok. by rewrite H1 in H2; injection H2. Qed.

Lemma ProtoRole_valid role : (∃ n, ProtoRole role = Ok n) ↔ ValidateRole role = Ok tt.
Proof. by destruct role; (split; [intros [? [=]]|intros [=]; eexists]). Qed.

(** A request context the guest accepts. *)
Definition acceptedContext (c : RequestContext) : Prop :=
  (∃ minor, rx_ApiVersion c = Some (mkVersion APIMajor minor) ∧ (minor ≤ APIMinor)%Z) ∧
  guestRequestIDPattern (rx_RequestId c) = true ∧ guestSessionIDPattern (rx_SessionId c) = true.

Lemma ValidateRequestContext_ok request :
  ValidateRequestContext request = Ok tt ↔ ∃ c, request = Some c ∧ acceptedContext c.
Proof.
  unfold ValidateRequestContext, acceptedContext. split.
  - intros H. destruct request as [c|]; [|done]. destruct (rx_ApiVersion c) as [[major minor]|] eqn:Hv; [|done].
    pass_guards H. bool_hyps. simpl in *. subst major. exists c. split_and!; try done. by exists minor.
  - intros (c & -> & (minor & -> & Hm) & Hr & Hs). simpl. rewrite Hr, Hs.
    unfold APIMinor in *. by rewrite (proj2 (Z.ltb_ge 0 minor) Hm).
Qed.

Lemma ValidateGuestContext_ok context role :
  ValidateGuestContext context role = Ok tt ↔
  ∃ c n, context = Some (mkGuestContext (Some c) n) ∧ acceptedContext c ∧ ProtoRole role = Ok n.
Proof.
  unfold ValidateGuestContext. split.
  - intros H. destruct context as [[rc n]|]; [|done]. simpl in H.
    destruct (ValidateRequestContext rc) as [[]|] eqn:Hv; [|done].
    apply ValidateRequestContext_ok in Hv as (c & -> & Hc).
    destruct (ProtoRole role) as [expected|] eqn:Hp; [|done]. pass_guards H. bool_hyps. subst. by exists c, expected.
  - intros (c & n & -> & Hc & Hp). cbn [gx_Context gx_ExpectedRole].
    rewrite (proj2 (ValidateRequestContext_ok (Some c))) by (by exists c).
    by rewrite Hp, Z.eqb_refl.
Qed.

(** ** Capability sets *)

#[local] Instance string_le_antisymm : AntiSymm (=) string_le.
Proof.
  intros a b. unfold string_le, String.leb. rewrite (String.compare_antisym b a).
  destruct (String.compare a b) eqn:E; try done. intros _ _. by apply String.compare_eq_iff.
Qed.

Lemma sameSorted_ok previous a e :
  Sorted string_le a → (∀ p, previous = Some p → Forall (string_le p) a) →
  sameSorted previous a e = true ↔ a = e ∧ NoDup a ∧ (∀ p, previous = Some p → p ∉ a).
Proof.
  intros Hs. revert previous e. induction a as [|x a IH]; intros previous [|y e] Hp; simpl.
  - split; [|done]. intros _. split_and!; [done|constructor|]. intros p _. apply not_elem_of_nil.
  - split; [done|]. by intros [].
  - split; [done|]. by intros [].
  - apply Sorted_inv in Hs as [Hs Hhd].
    assert (Forall (string_le x) a) as Hx.
    { pose proof (Sorted_StronglySorted string_le _ Hs) as Hss.
      destruct Hhd as [|z a Hz]; [constructor|]. constructor; [done|]. apply StronglySorted_cons in Hss as [Ha _].
      eapply Forall_impl; [exact Ha|]. intros w. by transitivity z. }
    assert ((∀ p, previous = Some p → p ∉ x :: a) ↔ previous ≠ Some x) as Hprev.
    { split; [intros Hno ->; by apply (Hno x eq_refl); left|]. intros Hne p -> [->|Hin]%elem_of_cons; [done|].
      specialize (Hp p eq_refl). apply Forall_cons in Hp as [Hpx Hpa]. rewrite Forall_forall in Hx.
      destruct Hne. f_equal. apply (anti_symm string_le); [done|]. by apply Hx. }
    destruct (bool_decide (previous = Some x)) eqn:Hd; bool_hyps; [rewrite Hprev; split; [done|by intros (_ & _ & ?)]|].
    destruct (bool_decide (x = y)) eqn:Hxy; simpl; bool_hyps; [subst y|split; [done|]; intros ([=] & _); congruence].
    rewrite IH; [|done|by intros p [= <-]]. rewrite Hprev, NoDup_cons. split.
    + intros (-> & Hn & Hnot). split_and!; try done. by apply Hnot.
    + intros ([= ->] & [Hnot Hn] & _). split_and!; try done. by intros p [= <-].
Qed.

Lemma sameCapabilities_ok actual expected : sameCapabilities actual expected = true ↔ NoDup actual ∧ actual ≡ₚ expected.
Proof.
  unfold sameCapabilities. rewrite andb_true_iff, Nat.eqb_eq.
  rewrite sameSorted_ok; [|apply Sorted_merge_sort; apply _|done]. split.
  - intros (_ & He & Hn & _). rewrite merge_sort_Permutation in Hn. split; [done|].
    by rewrite <- (merge_sort_Permutation string_le actual), He, merge_sort_Permutation.
  - intros [Hn Hp]. split_and!; [by rewrite !merge_sort_Permutation, Hp| |by rewrite merge_sort_Permutation|done].
    apply (Sorted_unique string_le); [apply Sorted_merge_sort; apply _..|]. by rewrite !merge_sort_Permutation.
Qed.

Lemma roleCapabilities_NoDup role : NoDup (commonCapabilities ++ roleCapabilities role).
Proof. destruct role; apply (bool_decide_unpack _); vm_compute; exact I. Qed.

(** ** What reaches a guest *)

(** A request is admitted: the service is the common one or the guest's own, the
    metadata is one encoding of the guest's token, and the request carries a
    complete context that expects the guest's role. *)
Definition admitted (s : GuestServer) (service : Service) (metadata : option (list string)) (context : option GuestContext) :
    Prop :=
  (service = GuestCommonService ∨ Some service = roleService (id_Role (gs_Identity s))) ∧
  (∃ bytes value, gs_Token s = TokenLive bytes ∧ metadata = Some [value] ∧ slen value = 43%Z ∧
     DecodeString value = Some bytes ∧ length bytes = TokenSize) ∧
  (∃ c n, context = Some (mkGuestContext (Some c) n) ∧ acceptedContext c ∧ ProtoRole (id_Role (gs_Identity s)) = Ok n).

Lemma newServer_ok config s :
  newServer config = Ok s →
  gs_Identity s = sc_Identity config ∧ gs_Token s = sc_Token config ∧ ValidateIdentity (gs_Identity s) = Ok tt ∧
  gs_Services s = GuestCommonService :: option_list (roleService (id_Role (gs_Identity s))) ∧
  (1048576 ≤ gs_MaxMessageSize s ≤ MaximumMessageSize)%Z.
Proof.
  unfold newServer. intros H. destruct (ValidateIdentity (sc_Identity config)) as [[]|] eqn:Hv; [|done].
  destruct (match sc_Token config with TokenNil => true | _ => false end); [done|].
  destruct (validateRoleHandlers config) as [[]|]; [|done]. pass_guards H. injection H as <-. bool_hyps.
  by split_and!.
Qed.

Lemma service_registered config s service :
  newServer config = Ok s →
  service ∈ gs_Services s ↔ service = GuestCommonService ∨ Some service = roleService (id_Role (gs_Identity s)).
Proof.
  intros (_ & _ & _ & -> & _)%newServer_ok. rewrite elem_of_cons.
  destruct (roleService _) as [own|]; simpl; [|rewrite elem_of_nil; naive_solver].
  rewrite list_elem_of_singleton. naive_solver.
Qed.

Lemma unaryGuestContext_ok request context :
  unaryGuestContext request = Ok context → rq_Kind request ≠ UnsupportedRequest ∧ context = rq_Context request.
Proof. unfold unaryGuestContext. intros H. by destruct (rq_Kind request); simplify_eq. Qed.

(** What the first message of a stream must carry. *)
Definition carriesContext (role : Role) (message : StreamMessage) : Prop :=
  match message with
  | TorrentInputMessage context | PrepareUSBMessage (Some context) => ValidateGuestContext context role = Ok tt
  | OtherMessage request => ValidateGuestContext (rq_Context request) role = Ok tt
  | TransferMessage (Some context) => ValidateRequestContext context = Ok tt
  | TransferMessage None | PrepareUSBMessage None => False
  end.

Lemma RecvMsg_first role message validated :
  RecvMsg role false message = (Ok tt, validated) → validated = true ∧ carriesContext role message.
Proof.
  unfold RecvMsg. destruct message as [context|[context|]|[context|]|request]; try done; simpl.
  1,3: by destruct (ValidateGuestContext context role) as [[]|]; intros [= <-].
  - by destruct (ValidateRequestContext context) as [[]|]; intros [= <-].
  - destruct (unaryGuestContext request) as [context|] eqn:Hu; [|done]. apply unaryGuestContext_ok in Hu as [_ ->].
    by destruct (ValidateGuestContext (rq_Context request) role) as [[]|]; intros [= <-].
Qed.

Lemma receiveAll_validated role messages : receiveAll role true messages = (messages, None).
Proof. induction messages as [|m l IH]; simpl; [done|by rewrite IH]. Qed.

(** Only the host that booted a guest reaches it, and only its own role's
    service.  For every guest server that starts, a unary request runs its
    handler exactly when it is admitted: the service is the common one or that of
    the guest's role, the metadata carries one encoding of the boot's token, and
    the context is complete and expects this role; any other request gets an
    error that does not depend on the handler.  A client stream delivers nothing
    to its handler unless the token matched and its first message passed the same
    check of its context. *)
Theorem requests_are_gated config s :
  newServer config = Ok s →
  (∀ A service metadata request (handler : Request → result guest_error A),
     rq_Kind request ≠ UnsupportedRequest → admitted s service metadata (rq_Context request) →
     serveUnary s service metadata request handler = handler request) ∧
  (∀ service metadata request,
     ¬ (rq_Kind request ≠ UnsupportedRequest ∧ admitted s service metadata (rq_Context request)) →
     ∃ e, ∀ A (handler : Request → result guest_error A), serveUnary s service metadata request handler = Err e) ∧
  (∀ service metadata first rest delivered e,
     serveStream s service metadata (first :: rest) = Ok (delivered, e) → delivered ≠ [] →
     (service = GuestCommonService ∨ Some service = roleService (id_Role (gs_Identity s))) ∧
     authenticate (gs_Token s) metadata = Ok tt ∧ delivered = first :: rest ∧
     carriesContext (id_Role (gs_Identity s)) first).
Proof.
  intros Hn. pose proof (service_registered config s) as Hreg. split_and!.
  - intros A service metadata request handler Hk (Hsv & Ha & Hc). unfold serveUnary.
    rewrite bool_decide_true by (by apply Hreg). rewrite (proj2 (authenticate_ok _ _) Ha).
    assert (unaryGuestContext request = Ok (rq_Context request)) as -> by (unfold unaryGuestContext; by destruct (rq_Kind request)).
    by rewrite (proj2 (ValidateGuestContext_ok _ _) Hc).
  - intros service metadata request Hno. unfold serveUnary.
    destruct (bool_decide (service ∈ gs_Services s)) eqn:Hs; [|by eexists]. rewrite bool_decide_eq_true, Hreg in Hs by done.
    destruct (authenticate (gs_Token s) metadata) as [[]|] eqn:Ha; [|by eexists]. apply authenticate_ok in Ha.
    destruct (unaryGuestContext request) as [context|] eqn:Hu; [|by eexists].
    apply unaryGuestContext_ok in Hu as [Hk ->].
    destruct (ValidateGuestContext _ _) as [[]|] eqn:Hv; [|by eexists]. apply ValidateGuestContext_ok in Hv.
    destruct Hno. split; [done|]. by split_and!.
  - intros service metadata first rest delivered e. unfold serveStream.
    destruct (bool_decide (service ∈ gs_Services s)) eqn:Hs; [|done]. rewrite bool_decide_eq_true, Hreg in Hs by done.
    cbn [negb receiveAll]. destruct (authenticate (gs_Token s) metadata) as [[]|]; [|done].
    destruct (RecvMsg (id_Role (gs_Identity s)) false first) as [r validated] eqn:Hr. destruct r as [[]|]; [|by intros [= <- <-]].
    apply RecvMsg_first in Hr as [-> Hc]. rewrite receiveAll_validated. intros [= <- <-] _. by split_and!.
Qed.

(** ** The handshake, end to end *)

Lemma ValidateIdentity_ok i :
  ValidateIdentity i = Ok tt →
  ValidateRole (id_Role i) = Ok tt ∧ length (id_BootNonce i) = BootNonceSize ∧ id_OSRelease i ≠ "" ∧ id_GuestdVersion i ≠ "".
Proof.
  unfold ValidateIdentity. intros H. destruct (ValidateRole (id_Role i)) as [[]|]; [|done]. pass_guards H. bool_hyps.
  split_and!; try done; intros E; simpl in *; rewrite E in *; simpl in *; by rewrite ?orb_true_r in *.
Qed.

Lemma Hello_ok identity request role :
  ProtoRole (id_Role identity) = Ok role → ValidateGuestContext (rq_Context request) (id_Role identity) = Ok tt →
  Hello identity request = Ok (mkHello (Some (mkVersion APIMajor APIMinor)) role (id_ImageDigest identity)
    (id_SourceCommit identity) (merge_sort string_le (commonCapabilities ++ roleCapabilities (id_Role identity)))
    (id_BootNonce identity) (id_OSRelease identity) (id_GuestdVersion identity)).
Proof.
  intros Hr Hc. unfold Hello, Capabilities. rewrite Hc, Hr.
  by rewrite (proj1 (ProtoRole_valid (id_Role identity)) (ex_intro _ role Hr)).
Qed.

(** The guest answers a hello exactly for the right token and context. *)
Lemma callHello_ok config s client request response :
  newServer config = Ok s → (∀ bytes, client = TokenLive bytes → Forall isByte bytes) →
  callUnary client s GuestCommonService request (Hello (gs_Identity s)) = Ok response →
  (∃ bytes, client = TokenLive bytes ∧ gs_Token s = TokenLive bytes ∧ length bytes = TokenSize) ∧
  ValidateGuestContext (rq_Context request) (id_Role (gs_Identity s)) = Ok tt ∧ Hello (gs_Identity s) request = Ok response.
Proof.
  intros Hn Hwf. unfold callUnary, serveUnary. destruct (outgoingContext client []) as [metadata|] eqn:Ho; [|done].
  destruct (negb _); [done|]. destruct (authenticate (gs_Token s) (Some metadata)) as [[]|] eqn:Ha; [|done].
  destruct (unaryGuestContext request) as [context|] eqn:Hu; [|done]. apply unaryGuestContext_ok in Hu as [_ ->].
  destruct (ValidateGuestContext _ _) as [[]|] eqn:Hv; [|done]. intros He. split_and!; try done.
  apply client_authenticates; [done|]. by exists metadata.
Qed.

(** What the host's expectation demands of a guest. *)
Definition meets (s : GuestServer) (expected : HandshakeExpectation) : Prop :=
  id_Role (gs_Identity s) = he_Role expected ∧ (he_MinimumProtocolMinor expected ≤ APIMinor)%Z ∧
  guestRequestIDPattern (he_RequestID expected) = true ∧ guestSessionIDPattern (he_SessionID expected) = true ∧
  id_ImageDigest (gs_Identity s) = he_ImageDigest expected ∧ id_SourceCommit (gs_Identity s) = he_SourceCommit expected ∧
  commonCapabilities ++ roleCapabilities (he_Role expected) ≡ₚ he_Capabilities expected ∧
  allZero (id_BootNonce (gs_Identity s)) = false.

Lemma VerifyHello_ok response expected :
  VerifyHello response expected = Ok tt ↔
  ∃ role v, ProtoRole (he_Role expected) = Ok role ∧ gh_ApiVersion response = Some v ∧ av_Major v = APIMajor ∧
    (he_MinimumProtocolMinor expected ≤ av_Minor v)%Z ∧ gh_Role response = role ∧
    gh_ImageDigest response = he_ImageDigest expected ∧ gh_SourceCommit response = he_SourceCommit expected ∧
    NoDup (gh_Capabilities response) ∧ gh_Capabilities response ≡ₚ he_Capabilities expected ∧
    length (gh_BootNonce response) = BootNonceSize ∧ allZero (gh_BootNonce response) = false ∧
    gh_OsRelease response ≠ "" ∧ gh_GuestdVersion response ≠ "".
Proof.
  unfold VerifyHello. split.
  - intros H. destruct (ProtoRole (he_Role expected)) as [role|]; [|done].
    destruct (gh_ApiVersion response) as [v|]; [|done]. pass_guards H. bool_hyps.
    match goal with H : sameCapabilities _ _ = true |- _ => apply sameCapabilities_ok in H as [? ?] end.
    exists role, v. by split_and!.
  - intros (role & v & -> & -> & Hm & Hmin & Hr & Hi & Hc & Hnd & Hp & Hl & Hz & Ho & Hg).
    rewrite Hm, Hr, Hi, Hc, Hl, Hz, !Z.eqb_refl, (proj2 (Z.ltb_ge _ _) Hmin), !bool_decide_true by done. simpl.
    rewrite (proj2 (sameCapabilities_ok _ _)) by done. simpl. by rewrite !bool_decide_false.
Qed.

(** C21: the handshake accepts exactly the guest that was planned.  For every guest
    server that starts and every client token, the host's handshake succeeds if
    and only if it has a deadline, host and guest hold the same live 32-byte
    token, the guest's compiled role is the expected one, its image digest and
    source commit are those of the verified manifest, the manifest lists exactly
    the role's capabilities, the protocol version is supported, the identifiers
    are well formed, and the boot nonce is not zero; the answer is then that
    guest's own identity. *)
Theorem handshake_exact config s client hasDeadline expected response :
  newServer config = Ok s → (∀ bytes, client = TokenLive bytes → Forall isByte bytes) →
  Handshake hasDeadline (λ request, callUnary client s GuestCommonService request (Hello (gs_Identity s))) expected =
    Ok response ↔
  hasDeadline = true ∧ (∃ bytes, client = TokenLive bytes ∧ gs_Token s = TokenLive bytes ∧ length bytes = TokenSize) ∧
  meets s expected ∧
  ∃ role, ProtoRole (he_Role expected) = Ok role ∧
    response = mkHello (Some (mkVersion APIMajor APIMinor)) role (id_ImageDigest (gs_Identity s))
      (id_SourceCommit (gs_Identity s)) (merge_sort string_le (commonCapabilities ++ roleCapabilities (he_Role expected)))
      (id_BootNonce (gs_Identity s)) (id_OSRelease (gs_Identity s)) (id_GuestdVersion (gs_Identity s)).
Proof.
  intros Hn Hwf. pose proof (newServer_ok _ _ Hn) as (_ & _ & Hid & _). apply ValidateIdentity_ok in Hid as (Hrole & Hnonce & Hos & Hgv).
  unfold Handshake. split.
  - intros H. destruct hasDeadline; [|done]. cbn [negb] in H. destruct (ProtoRole (he_Role expected)) as [role|] eqn:Hp; [|done].
    destruct (callUnary _ _ _ _ _) as [response'|] eqn:Hcall; [|done].
    destruct (VerifyHello response' expected) as [[]|] eqn:Hv; [|done]. injection H as ->.
    destruct (callHello_ok _ _ _ _ _ Hn Hwf Hcall) as (Htok & Hctx & Hhello).
    apply ValidateGuestContext_ok in Hctx as Hctx'. destruct Hctx' as (c & n & [= <- <-] & ((minor & [= <-] & Hmin) & Hrq & Hse) & Hpr).
    simpl in Hrq, Hse. pose proof (ProtoRole_inj _ _ _ Hpr Hp) as Hr.
    rewrite (Hello_ok _ _ _ Hpr Hctx) in Hhello. injection Hhello as <-.
    apply VerifyHello_ok in Hv as (role' & v & _ & _ & _ & _ & _ & Hi & Hc & _ & Hcap & _ & Hz & _). simpl in *.
    rewrite Hr, merge_sort_Permutation in Hcap. rewrite Hr. split_and!; try done. by exists role.
  - intros (-> & Htok & (Hr & Hmin & Hrq & Hse & Hi & Hc & Hcap & Hz) & role & Hp & ->). cbn [negb]. rewrite Hp.
    set (request := mkRequest _ _).
    assert (ValidateGuestContext (rq_Context request) (id_Role (gs_Identity s)) = Ok tt) as Hctx.
    { apply ValidateGuestContext_ok. eexists _, role. split; [reflexivity|]. rewrite Hr. split; [|done].
      split; [by eexists|]. by split. }
    apply client_authenticates in Htok as (metadata & Ho & Ha); [|done].
    assert (ProtoRole (id_Role (gs_Identity s)) = Ok role) as Hp' by (by rewrite Hr).
    unfold callUnary, serveUnary. rewrite Ho, Ha. rewrite bool_decide_true by (apply (service_registered _ _ _ Hn); by left).
    cbn [negb unaryGuestContext rq_Kind request]. fold request. rewrite Hctx, (Hello_ok _ _ _ Hp' Hctx), Hr.
    rewrite (proj2 (VerifyHello_ok _ _)); [done|]. exists role, (mkVersion APIMajor APIMinor). simpl.
    rewrite merge_sort_Permutation. split_and!; try done. apply roleCapabilities_NoDup.
Qed.

(** ** Witnesses *)

Definition demoToken : list Z := map Z.of_nat (seq 1 32).
Definition demoGuest : ServerConfig :=
  mkServerConfig (mkIdentity RoleWorkstation "sha256:aa" "commit" demoToken "nixos" "1.0") (TokenLive demoToken) 0
    true false false false.
Definition demoGuestServer : GuestServer :=
  mkGuestServer (sc_Identity demoGuest) (TokenLive demoToken) DefaultMaxMessageSize [GuestCommonService; WorkstationService].
Definition demoExpectation : HandshakeExpectation :=
  mkExpectation "pvm-00112233445566778899aabbccddeeff" "request-1" RoleWorkstation "sha256:aa" "commit"
    (roleCapabilities RoleWorkstation ++ commonCapabilities) 0.

Lemma handshake_exact_witness :
  newServer demoGuest = Ok demoGuestServer ∧
  ∃ response, Handshake true (λ request, callUnary (TokenLive demoToken) demoGuestServer GuestCommonService request
                (Hello (gs_Identity demoGuestServer))) demoExpectation = Ok response.
Proof.
  assert (newServer demoGuest = Ok demoGuestServer) as Hn by (vm_compute; reflexivity). split; [exact Hn|].
  assert (∀ bytes, TokenLive demoToken = TokenLive bytes → Forall isByte bytes) as Hwf.
  { intros bytes [= <-]. unfold demoToken. apply Forall_map, Forall_forall. intros x Hx%list_elem_of_In%in_seq.
    unfold isByte. simpl. lia. }
  eexists. apply (handshake_exact demoGuest demoGuestServer (TokenLive demoToken) true demoExpectation _ Hn Hwf).
  split; [reflexivity|]. split; [by exists demoToken|]. split; [|by exists GUEST_ROLE_WORKSTATION].
  unfold meets. split_and!; try (vm_compute; reflexivity); [by vm_compute|].
  apply (Permutation_app_comm commonCapabilities).
Defined.

Lemma requests_are_gated_witness :
  newServer demoGuest = Ok demoGuestServer ∧
  ∀ A (handler : Request → result guest_error A), ∃ e,
    serveUnary demoGuestServer ScannerService (Some [EncodeToString demoToken]) (mkRequest ScannerRequest None) handler = Err e.
Proof.
  assert (newServer demoGuest = Ok demoGuestServer) as Hn by (vm_compute; reflexivity). split; [exact Hn|].
  destruct (requests_are_gated demoGuest demoGuestServer Hn) as (_ & Hno & _).
  destruct (Hno ScannerService (Some [EncodeToString demoToken]) (mkRequest ScannerRequest None)) as [e He].
  { intros [_ [[Hs|Hs] _]]; discriminate Hs. }
  intros A handler. exists e. exact (He A handler).
Defined.
