(* ===== verification/UsbPrepare.v ===== *)
(** * Destructive USB preparation

    Models [src/internal/usb/prepare.go]: the plan with its challenge and two
    exact confirmations, and the coordinator that revalidates the claim, asks for
    authorization and only then lets the exporter format the device.  The
    exporter, the authorizer, the clock and the event sink are an interface over
    a world; the exporter may send events through the coordinator while it works.
    [log] is a ghost record of what the coordinator asked for, in order. *)

From Stdlib Require Import ZArith Lia Ascii.
From stdpp Require Import strings base tactics option gmap list.
From S2P Require Import Prelude GoText Sha256 UsbIdentity UsbClaim.

Open Scope string_scope.
Open Scope list_scope.

Definition PrepareSchemaVersion : Z := 1.
Definition prepareChallengeSize : nat := 16.
Definition maximumPrepareAge : Z := 300000000000. (* nanoseconds *)

(** Times in nanoseconds since the epoch; [time.Time]'s zero value. *)
Definition zeroTime : Z := -62135596800000000000.

Record PreparePlan := mkPlan {
  pp_SchemaVersion : Z;
  pp_EnrollmentID : string;
  pp_Fingerprint : string;
  pp_CapacityBytes : Z;
  pp_Filesystem : string;
  pp_Challenge : string;
  pp_CreatedAt : Z;
  pp_FirstPrompt : string;
  pp_SecondPrompt : string
}.

Record Confirmation := mkConfirmation { First : string; Second : string }.

Inductive PrepareState := PreparePlanned | PrepareConfirmed | PrepareCommitStarted | PrepareDestinationReady
  | PrepareCanceledPrecommit | PrepareIncomplete | PrepareOther (name : string).

#[global] Instance PrepareState_eq_dec : EqDecision PrepareState.
Proof. solve_decision. Defined.

Record PrepareEvent := mkPrepareEvent { pe_Sequence : Z; pe_State : PrepareState; pe_Code : string; pe_Message : string }.

Record PrepareReceipt := mkPrepareReceipt {
  pr_SchemaVersion : Z;
  pr_EnrollmentID : string;
  pr_Filesystem : string;
  pr_CapacityBytes : Z;
  pr_Fingerprint : string;
  pr_State : PrepareState
}.

Section Prepare.
Context (unicodeLower : N → N).

Definition firstPrompt (enrollmentID : string) : string := "ERASE " +:+ enrollmentID.
Definition secondPrompt (enrollmentID fingerprint challenge : string) : string :=
  "ERASE " +:+ enrollmentID +:+ " " +:+ String.substring 0 16 fingerprint +:+ " " +:+ challenge.

(** [random] is what [rand.Read] returns. *)
Definition NewPreparePlan (enrollment : Enrollment) (device : Device) (random : option (list Z)) (now : Z) :
    result usb_error PreparePlan :=
  _ <-! ValidateEnrollment unicodeLower enrollment ;;
  fail_if (negb (enrolledMatch unicodeLower enrollment device) || Mounted device || ReadOnly device || HostFilesystem device)
    with CodeIdentityMismatch ;;
  match random with
  | None => Err (UncodedError "generate USB preparation challenge")
  | Some bytes =>
      fp <-! Fingerprint unicodeLower (en_Identity enrollment) ;;
      let challenge := hexEncode (textOf bytes) in
      Ok (mkPlan PrepareSchemaVersion (EnrollmentID enrollment) fp (Capacity (en_Identity enrollment))
            (Filesystem enrollment) challenge now (firstPrompt (EnrollmentID enrollment))
            (secondPrompt (EnrollmentID enrollment) fp challenge))
  end.

(** [PreparePlan.Validate] *)
Definition ValidatePlan (p : PreparePlan) (enrollment : Enrollment) (confirmation : Confirmation) (now : Z) :
    result usb_error unit :=
  fail_if (negb (pp_SchemaVersion p =? PrepareSchemaVersion)%Z || negb (bool_decide (pp_Filesystem p = DefaultFilesystem)) ||
           negb (bool_decide (pp_EnrollmentID p = EnrollmentID enrollment)) ||
           negb (pp_CapacityBytes p =? Capacity (en_Identity enrollment))%Z ||
           negb (String.length (pp_Challenge p) =? prepareChallengeSize * 2)%nat || (pp_CreatedAt p =? zeroTime)%Z ||
           (now <? pp_CreatedAt p)%Z || (maximumPrepareAge <? now - pp_CreatedAt p)%Z)
    with CodeConfirmation ;;
  match Fingerprint unicodeLower (en_Identity enrollment) with
  | Err _ => Err CodeConfirmation
  | Ok fp =>
      fail_if (negb (bool_decide (pp_Fingerprint p = fp)) ||
               negb (bool_decide (pp_FirstPrompt p = firstPrompt (EnrollmentID enrollment))) ||
               negb (bool_decide (pp_SecondPrompt p = secondPrompt (EnrollmentID enrollment) fp (pp_Challenge p))))
        with CodeConfirmation ;;
      fail_if (negb (bool_decide (First confirmation = pp_FirstPrompt p)) ||
               negb (bool_decide (Second confirmation = pp_SecondPrompt p))) with CodeConfirmation ;;
      Ok tt
  end.

(** ** The coordinator *)

(** What the exporter does: it ends with a receipt or an error, or sends an event
    and goes on, knowing whether the event was taken. *)
Inductive backend_run :=
| BackendDone (r : option PrepareReceipt)
| BackendEvent (event : PrepareEvent) (next : bool → backend_run).

Class PrepareWorld (W : Type) := {
  Now : W → Z * W;
  RecordEvent : PrepareEvent → W → bool * W;
  AuthorizePrepare : W → bool * W;
  BackendPrepare : Claim → string → W → backend_run * W
}.

Context {W : Type} `{!UsbAdapters W} `{!PrepareWorld W}.

(** What the coordinator asked for. *)
Inductive prepare_call :=
| AskedEvent (event : PrepareEvent) (taken : bool)
| AskedRevalidate (claim : option Claim)
| AskedAuthorization (given : bool)
| AskedDestruction (claim : Claim) (filesystem : string).

(** The world, the sequence number and the ghost log. *)
Record PrepareSt := mkPrepareSt { ps_world : W; ps_sequence : Z; ps_log : list prepare_call }.

Definition emit (state : PrepareState) (code message : string) (s : PrepareSt) : bool * PrepareSt :=
  let event := mkPrepareEvent (add64 (ps_sequence s) 1) state code message in
  let '(taken, w) := RecordEvent event (ps_world s) in
  (taken, mkPrepareSt w (add64 (ps_sequence s) 1) (ps_log s ++ [AskedEvent event taken])).

Definition stateIsEmpty (state : PrepareState) : bool := bool_decide (state = PrepareOther "").

(** The callback given to the exporter. *)
Definition backendEvent (event : PrepareEvent) (s : PrepareSt) : bool * PrepareSt :=
  if negb (pe_Sequence event =? 0)%Z || stateIsEmpty (pe_State event) || bool_decide (TrimSpace (pe_Code event) = "") ||
     bool_decide (TrimSpace (pe_Message event) = "")
  then (false, s)
  else emit (pe_State event) (pe_Code event) (pe_Message event) s.

Fixpoint runBackend (run : backend_run) (s : PrepareSt) : option PrepareReceipt * PrepareSt :=
  match run with
  | BackendDone r => (r, s)
  | BackendEvent event next => let '(taken, s) := backendEvent event s in runBackend (next taken) s
  end.

Definition cancelPrecommit {A : Type} (e : usb_error) (s : PrepareSt) : result usb_error A * PrepareSt :=
  (Err e, (emit PrepareCanceledPrecommit "USB_PREPARE_CANCELED_PRECOMMIT"
             "USB preparation was canceled before the destructive commit." s).2).

Definition incomplete (e : usb_error) (message : string) (s : PrepareSt) : result usb_error PrepareReceipt * PrepareSt :=
  (Err e, (emit PrepareIncomplete "USB_PREPARE_INCOMPLETE" message s).2).

Definition receiptMatches (receipt : PrepareReceipt) (enrollment : Enrollment) (plan : PreparePlan) : bool :=
  (pr_SchemaVersion receipt =? PrepareSchemaVersion)%Z && bool_decide (pr_EnrollmentID receipt = EnrollmentID enrollment) &&
  bool_decide (pr_Filesystem receipt = DefaultFilesystem) && (pr_CapacityBytes receipt =? Capacity (en_Identity enrollment))%Z &&
  bool_decide (pr_Fingerprint receipt = pp_Fingerprint plan) && bool_decide (pr_State receipt = PrepareDestinationReady).

(** [Prepare] of a complete coordinator with an event sink, up to the event that
    announces the destructive phase; [passphrase] is whether one was given. *)
Definition precommit (m : ClaimManager) (claimID sessionID : string) (ownerUID : Z) (enrollment : Enrollment)
    (plan : PreparePlan) (confirmation : Confirmation) (passphrase : bool) (w : W) :
    result usb_error Claim * PrepareSt :=
  let '(now, w) := Now w in
  let s := mkPrepareSt w 0 [] in
  match ValidatePlan plan enrollment confirmation now with
  | Err e => (Err e, s)
  | Ok _ =>
  if negb passphrase then (Err CodeConfirmation, s)
  else
  match emit PrepareConfirmed "USB_PREPARE_CONFIRMED" "Both destructive USB confirmation steps were accepted." s with
  | (false, s) => (Err (UncodedError "event"), s)
  | (true, s) =>
  match contextErr (ps_world s) with
  | Some e => cancelPrecommit e s
  | None =>
  let '(claimed, w) := Revalidate unicodeLower m claimID sessionID ownerUID enrollment (ps_world s) in
  match claimed with
  | Err e => (Err e, mkPrepareSt w (ps_sequence s) (ps_log s ++ [AskedRevalidate None]))
  | Ok claim =>
  let '(given, w) := AuthorizePrepare w in
  let s := mkPrepareSt w (ps_sequence s) (ps_log s ++ [AskedRevalidate (Some claim); AskedAuthorization given]) in
  if negb given then (Err CodeConfirmation, s)
  else
  match contextErr (ps_world s) with
  | Some e => cancelPrecommit e s
  | None =>
  match emit PrepareCommitStarted "USB_PREPARE_COMMIT_STARTED" "Exporter USB preparation entered its destructive phase." s with
  | (false, s) => (Err (UncodedError "event"), s)
  | (true, s) => (Ok claim, s)
  end end end end end end.

(** The rest of [Prepare]: the destructive call and the check of its receipt. *)
Definition commit (claim : Claim) (enrollment : Enrollment) (plan : PreparePlan) (s : PrepareSt) :
    result usb_error PrepareReceipt * PrepareSt :=
  let '(run, w) := BackendPrepare claim DefaultFilesystem (ps_world s) in
  let s := mkPrepareSt w (ps_sequence s) (ps_log s ++ [AskedDestruction claim DefaultFilesystem]) in
  match runBackend run s with
  | (None, s) =>
      incomplete CodeWriteFailed
        "USB preparation did not complete; do not trust the destination until exporter verification succeeds." s
  | (Some receipt, s) =>
  if negb (receiptMatches receipt enrollment plan)
  then incomplete CodeIdentityMismatch "Exporter USB preparation returned incomplete identity evidence." s
  else
  match emit PrepareDestinationReady "USB_DESTINATION_PREPARED" "The exporter verified the prepared LUKS2 and ext4 destination." s with
  | (false, s) => (Err (UncodedError "event"), s)
  | (true, s) => (Ok receipt, s)
  end end.

Definition Prepare (m : ClaimManager) (claimID sessionID : string) (ownerUID : Z) (enrollment : Enrollment)
    (plan : PreparePlan) (confirmation : Confirmation) (passphrase : bool) (w : W) :
    result usb_error PrepareReceipt * PrepareSt :=
  match precommit m claimID sessionID ownerUID enrollment plan confirmation passphrase w with
  | (Err e, s) => (Err e, s)
  | (Ok claim, s) => commit claim enrollment plan s
  end.

End Prepare.

#[global] Arguments ValidatePlan : simpl never.
#[global] Arguments Revalidate : simpl never.

(** ** Lemmas *)

(** A plan and its confirmations are accepted exactly when the plan is fresh and
    is the enrollment's, and both phrases are the plan's. *)
Lemma ValidatePlan_ok unicodeLower p enrollment confirmation now :
  ValidatePlan unicodeLower p enrollment confirmation now = Ok tt ↔
  ∃ fp, Fingerprint unicodeLower (en_Identity enrollment) = Ok fp ∧
    (∃ created, p = mkPlan PrepareSchemaVersion (EnrollmentID enrollment) fp (Capacity (en_Identity enrollment))
       DefaultFilesystem (pp_Challenge p) created (firstPrompt (EnrollmentID enrollment))
       (secondPrompt (EnrollmentID enrollment) fp (pp_Challenge p)) ∧
       created ≠ zeroTime ∧ (created ≤ now ≤ created + maximumPrepareAge)%Z) ∧
    String.length (pp_Challenge p) = 32%nat ∧
    confirmation = mkConfirmation (firstPrompt (EnrollmentID enrollment))
                     (secondPrompt (EnrollmentID enrollment) fp (pp_Challenge p)).
Proof.
  unfold ValidatePlan. split.
  - intros H. pass_guards H. destruct (Fingerprint unicodeLower (en_Identity enrollment)) as [fp|]; [|done].
    pass_guards H. bool_hyps. exists fp. split; [done|]. destruct p, confirmation. simpl in *. subst.
    split_and!; try done. eexists. split; [done|]. split; [done|]. lia.
  - intros (fp & Hfp & (created & Hp & Hz & Ht) & Hl & ->). destruct p as [v i f c fs ch at_ p1 p2]. simpl in Hp, Hl.
    injection Hp as -> -> -> -> -> -> -> ->.
    cbn [pp_SchemaVersion pp_EnrollmentID pp_Fingerprint pp_CapacityBytes pp_Filesystem pp_Challenge pp_CreatedAt
      pp_FirstPrompt pp_SecondPrompt First Second]. rewrite Hfp, Hl, !Z.eqb_refl, !bool_decide_true by done.
    rewrite (proj2 (Z.eqb_neq _ _) Hz), (proj2 (Z.ltb_ge now created)), (proj2 (Z.ltb_ge maximumPrepareAge (now - created))) by lia.
    done.
Qed.

Lemma Revalidate_ok unicodeLower {W} `{!UsbAdapters W} m claimID sessionID ownerUID enrollment (w : W) claim w' :
  Revalidate unicodeLower m claimID sessionID ownerUID enrollment w = (Ok claim, w') →
  ∃ recorded device, claims m !! claimID = Some recorded ∧ cl_SessionID recorded = sessionID ∧
    cl_OwnerUID recorded = ownerUID ∧ ResolveEnrollment unicodeLower (kernelSnapshot w).1 enrollment = Ok device ∧
    sameKernelObservation unicodeLower (cl_Device recorded) device = true ∧ claim = publicClaim recorded ∧
    w' = (kernelSnapshot w).2.
Proof.
  unfold Revalidate, getOwned. destruct (claims m !! claimID) as [recorded|]; [|done].
  destruct (_ || _) eqn:Hg; [done|]. bool_hyps. destruct (kernelSnapshot w) as [snapshot w1]. simpl.
  destruct (ResolveEnrollment unicodeLower snapshot enrollment) as [device|] eqn:Hr; [|done].
  destruct (sameKernelObservation unicodeLower (cl_Device recorded) device) eqn:Hs; [|done]. intros [= <- <-].
  exists recorded, device. by split_and!.
Qed.

Section Lemmas.
Context (unicodeLower : N → N) {W : Type} `{!UsbAdapters W} `{!PrepareWorld W}.

(** The events of a log. *)
Definition eventsOf (log : list prepare_call) : list PrepareEvent :=
  concat (map (λ x, match x with AskedEvent event _ => [event] | _ => [] end) log).

(** Events are numbered from one, without gaps. *)
Record numbered (s : PrepareSt (W := W)) : Prop := {
  nb_events : map pe_Sequence (eventsOf (ps_log s)) = map (λ i, wrap64 (Z.of_nat i)) (seq 1 (length (eventsOf (ps_log s))));
  nb_sequence : ps_sequence s = wrap64 (len (eventsOf (ps_log s)))
}.

Lemma wrap64_succ n : add64 (wrap64 n) 1 = wrap64 (n + 1).
Proof. unfold add64, wrap64. by rewrite Zplus_mod_idemp_l. Qed.

Lemma emit_ok state code message (s : PrepareSt (W := W)) taken s' :
  emit state code message s = (taken, s') →
  ps_log s' = ps_log s ++ [AskedEvent (mkPrepareEvent (add64 (ps_sequence s) 1) state code message) taken] ∧
  ps_sequence s' = add64 (ps_sequence s) 1 ∧ (numbered s → numbered s').
Proof.
  unfold emit. destruct (RecordEvent _ (ps_world s)) as [t w]. intros [= <- <-]. simpl. split_and!; try done.
  intros [He Hs]. unfold eventsOf in *. split; unfold eventsOf; cbn [ps_log ps_sequence]; rewrite map_app, concat_app; simpl.
  - rewrite map_app, He, length_app. simpl. rewrite seq_app, map_app, Hs. simpl. do 2 f_equal.
    unfold len. rewrite wrap64_succ. do 2 f_equal. lia.
  - unfold len in *. by rewrite Hs, length_app, wrap64_succ, Nat2Z.inj_add.
Qed.

Lemma runBackend_ok run (s : PrepareSt (W := W)) r s' :
  runBackend run s = (r, s') →
  ∃ more, ps_log s' = ps_log s ++ more ∧ Forall (λ x, ∃ event taken, x = AskedEvent event taken) more ∧
    (numbered s → numbered s').
Proof.
  revert s. induction run as [r0|event next IH]; intros s; simpl.
  { intros [= <- <-]. exists []. rewrite app_nil_r. by split_and!. }
  destruct (backendEvent event s) as [taken s1] eqn:Hb. intros Hr.
  destruct (IH taken s1 Hr) as (more & -> & Hall & Hn). unfold backendEvent in Hb. destruct (_ || _).
  { injection Hb as <- <-. by exists more. }
  apply emit_ok in Hb as (-> & _ & Hn1). rewrite <- app_assoc. eexists. split; [done|]. split; [|by auto].
  simpl. constructor; [by eexists _, _|done].
Qed.

Definition onlyEvents (log : list prepare_call) : Prop := Forall (λ x, ∃ event taken, x = AskedEvent event taken) log.

(** No entry of the log is a destructive call. *)
Definition harmless (log : list prepare_call) : Prop := Forall (λ x, ∀ claim fs, x ≠ AskedDestruction claim fs) log.

Lemma emit_more state code message (s : PrepareSt (W := W)) :
  ∃ event taken, ps_log (emit state code message s).2 = ps_log s ++ [AskedEvent event taken].
Proof. destruct (emit state code message s) as [taken s'] eqn:He. apply emit_ok in He as (Hs & _ & _). by eexists _, _. Qed.

Lemma harmless_emit state code message (s : PrepareSt (W := W)) :
  harmless (ps_log s) → harmless (ps_log (emit state code message s).2).
Proof.
  intros Hh. destruct (emit_more state code message s) as (event & taken & ->). apply Forall_app. by split; [|repeat constructor].
Qed.

Lemma numbered_emit state code message (s : PrepareSt (W := W)) :
  numbered s → numbered (emit state code message s).2.
Proof. destruct (emit state code message s) as [taken s'] eqn:He. by apply emit_ok in He as (_ & _ & H). Qed.

Lemma numbered_quiet (s : PrepareSt (W := W)) w x :
  numbered s → eventsOf x = [] → numbered (mkPrepareSt w (ps_sequence s) (ps_log s ++ x)).
Proof.
  intros [He Hs] Hx. assert (eventsOf (ps_log s ++ x) = eventsOf (ps_log s)) as Heq.
  { unfold eventsOf in *. by rewrite map_app, concat_app, Hx, app_nil_r. }
  split; simpl; by rewrite Heq.
Qed.

End Lemmas.

Definition confirmedEvent : PrepareEvent :=
  mkPrepareEvent 1 PrepareConfirmed "USB_PREPARE_CONFIRMED" "Both destructive USB confirmation steps were accepted.".
Definition commitEvent : PrepareEvent :=
  mkPrepareEvent 2 PrepareCommitStarted "USB_PREPARE_COMMIT_STARTED"
    "Exporter USB preparation entered its destructive phase.".

(** What precedes the destructive call, and the call. *)
Definition upToDestruction (claim : Claim) : list prepare_call :=
  [AskedEvent confirmedEvent true; AskedRevalidate (Some claim); AskedAuthorization true; AskedEvent commitEvent true;
   AskedDestruction claim DefaultFilesystem].

Section Theorems.
Context (unicodeLower : N → N) {W : Type} `{!UsbAdapters W} `{!PrepareWorld W}.

(** Before the destructive phase nothing is destroyed, and the phase begins only
    after the fixed sequence of steps. *)
Lemma precommit_ok m claimID sessionID ownerUID enrollment plan confirmation passphrase (w : W) r s :
  precommit unicodeLower m claimID sessionID ownerUID enrollment plan confirmation passphrase w = (r, s) →
  numbered s ∧ harmless (ps_log s) ∧
  ∀ claim, r = Ok claim → ValidatePlan unicodeLower plan enrollment confirmation (Now w).1 = Ok tt ∧ passphrase = true ∧
    (∃ w1 w2, Revalidate unicodeLower m claimID sessionID ownerUID enrollment w1 = (Ok claim, w2)) ∧
    ps_log s ++ [AskedDestruction claim DefaultFilesystem] = upToDestruction claim.
Proof.
  unfold precommit. destruct (Now w) as [now w0]. cbn [fst].
  set (s0 := mkPrepareSt w0 0 []). assert (numbered s0) as Hn0 by (by split). assert (harmless (ps_log s0)) as Hh0 by constructor.
  destruct (ValidatePlan unicodeLower plan enrollment confirmation now) as [[]|e] eqn:Hv; [|by intros [= <- <-]].
  destruct passphrase; [|by intros [= <- <-]]. cbn [negb].
  destruct (emit PrepareConfirmed _ _ s0) as [taken s1] eqn:H1. apply emit_ok in H1 as (Hl1 & Hq1 & Hn1). specialize (Hn1 Hn0).
  change (ps_log s0 ++ _) with [AskedEvent confirmedEvent taken] in Hl1. change (add64 (ps_sequence s0) 1) with 1%Z in Hq1.
  assert (harmless (ps_log s1)) as Hh1 by (rewrite Hl1; by repeat constructor).
  destruct taken; [|by intros [= <- <-]]. destruct (contextErr (ps_world s1)) as [e|].
  { intros [= <- <-]. split_and!; [by apply numbered_emit|by apply harmless_emit|done]. }
  destruct (Revalidate _ m claimID sessionID ownerUID enrollment (ps_world s1)) as [[claim|e] w2] eqn:Hr.
  2:{ intros [= <- <-]. split_and!; [by apply numbered_quiet| |done]. simpl. rewrite Hl1. by repeat constructor. }
  destruct (AuthorizePrepare w2) as [given w3]. set (s2 := mkPrepareSt w3 _ _).
  assert (numbered s2) as Hn2 by (by apply numbered_quiet).
  assert (ps_log s2 = [AskedEvent confirmedEvent true; AskedRevalidate (Some claim); AskedAuthorization given]) as Hl2
    by (unfold s2; simpl; by rewrite Hl1).
  assert (harmless (ps_log s2)) as Hh2 by (rewrite Hl2; by repeat constructor).
  destruct given; [|by intros [= <- <-]]. cbn [negb]. destruct (contextErr (ps_world s2)) as [e|].
  { intros [= <- <-]. split_and!; [by apply numbered_emit|by apply harmless_emit|done]. }
  destruct (emit PrepareCommitStarted _ _ s2) as [taken s3] eqn:H3. apply emit_ok in H3 as (Hl3 & _ & Hn3).
  replace (add64 (ps_sequence s2) 1) with 2%Z in Hl3 by (unfold s2; simpl; by rewrite Hq1).
  rewrite Hl2 in Hl3. assert (harmless (ps_log s3)) as Hh3 by (rewrite Hl3; by repeat constructor).
  destruct taken; intros [= <- <-]; (split_and!; [by apply Hn3|done|]); [|done].
  intros c [= <-]. split_and!; try done; [by eexists _, _|]. by rewrite Hl3.
Qed.

(** After the destructive call only events follow. *)
Lemma prepare_commit_ok claim enrollment plan (s : PrepareSt (W := W)) r s' :
  commit claim enrollment plan s = (r, s') →
  (∃ more, ps_log s' = ps_log s ++ [AskedDestruction claim DefaultFilesystem] ++ more ∧ onlyEvents more) ∧
  (numbered s → numbered s') ∧ (∀ receipt, r = Ok receipt → receiptMatches receipt enrollment plan = true).
Proof.
  unfold commit. destruct (BackendPrepare claim DefaultFilesystem (ps_world s)) as [run w]. set (s1 := mkPrepareSt w _ _).
  destruct (runBackend run s1) as [receipt s2] eqn:Hb. apply runBackend_ok in Hb as (more & Hl & Hm & Hn).
  assert (numbered s → numbered s2) as Hn2 by (intros; by apply Hn, numbered_quiet).
  simpl in Hl. rewrite <- app_assoc in Hl.
  assert (∀ state code message, ∃ more', ps_log (emit state code message s2).2 =
    ps_log s ++ [AskedDestruction claim DefaultFilesystem] ++ more' ∧ onlyEvents more') as Hend.
  { intros state code message. destruct (emit_more state code message s2) as (event & taken & ->). rewrite Hl, <- !app_assoc.
    eexists. split; [done|]. apply Forall_app. split; [done|]. constructor; [by eexists _, _|constructor]. }
  destruct receipt as [receipt|]; [|intros [= <- <-]; split_and!; [apply Hend|intros; by apply numbered_emit, Hn2|done]].
  destruct (receiptMatches receipt enrollment plan) eqn:Hr; cbn [negb].
  2:{ intros [= <- <-]. split_and!; [apply Hend|intros; by apply numbered_emit, Hn2|done]. }
  pose proof (Hend PrepareDestinationReady "USB_DESTINATION_PREPARED"
    "The exporter verified the prepared LUKS2 and ext4 destination.") as Hlast.
  destruct (emit PrepareDestinationReady _ _ s2) as [taken s3] eqn:H3. apply emit_ok in H3 as (_ & _ & Hn3).
  destruct taken; intros [= <- <-]; split_and!; try done; [by auto|by intros ? [= <-]|by auto].
Qed.

(** C22: a USB device is erased only after both exact confirmations.  If a
    preparation makes its destructive call at all, it makes exactly one, for the
    enrolled file system; the plan was the enrollment's own and at most five
    minutes old, the user had typed both phrases of that plan, of which the
    second names the device's fingerprint and the plan's one-time challenge; and
    before it, in this order, the confirmation was recorded, the claim was
    revalidated as this session's and owner's with the one connected device that
    matches the enrollment and is the very device claimed, the action was
    authorized, and the start of the destructive phase was recorded.  Only events
    follow, numbered without gaps, and success means a receipt for this
    enrollment, capacity and fingerprint. *)
Theorem erasure_is_confirmed m claimID sessionID ownerUID enrollment plan confirmation passphrase (w : W) r s :
  Prepare unicodeLower m claimID sessionID ownerUID enrollment plan confirmation passphrase w = (r, s) →
  numbered s ∧
  ((∃ e, r = Err e) ∧ harmless (ps_log s) ∨
   ∃ claim recorded snapshot device fp more,
     ps_log s = upToDestruction claim ++ more ∧ onlyEvents more ∧
     Fingerprint unicodeLower (en_Identity enrollment) = Ok fp ∧
     First confirmation = firstPrompt (EnrollmentID enrollment) ∧
     Second confirmation = secondPrompt (EnrollmentID enrollment) fp (pp_Challenge plan) ∧
     pp_EnrollmentID plan = EnrollmentID enrollment ∧ pp_Fingerprint plan = fp ∧
     (pp_CreatedAt plan ≤ (Now w).1 ≤ pp_CreatedAt plan + maximumPrepareAge)%Z ∧
     claims m !! claimID = Some recorded ∧ cl_SessionID recorded = sessionID ∧ cl_OwnerUID recorded = ownerUID ∧
     ResolveEnrollment unicodeLower snapshot enrollment = Ok device ∧
     sameKernelObservation unicodeLower (cl_Device recorded) device = true ∧ claim = publicClaim recorded ∧
     (∀ receipt, r = Ok receipt → receiptMatches receipt enrollment plan = true)).
Proof.
  unfold Prepare. destruct (precommit unicodeLower m claimID sessionID ownerUID enrollment plan confirmation passphrase w) as [r1 s1] eqn:Hp.
  apply precommit_ok in Hp as (Hn & Hh & Hok). destruct r1 as [claim|e]; [|intros [= <- <-]; split; [done|left; by split; [eexists|]]].
  destruct (Hok claim eq_refl) as (Hv & _ & (w1 & w2 & Hr) & Hl). intros Hc.
  apply prepare_commit_ok in Hc as ((more & Hl' & Hm) & Hn' & Hrec). split; [by apply Hn'|]. right.
  apply ValidatePlan_ok in Hv as (fp & Hfp & (created & Hplan & _ & Ht) & _ & ->).
  apply Revalidate_ok in Hr as (recorded & device & Hrec1 & Hsid & Huid & Hres & Hsame & Hcl & _).
  exists claim, recorded, (kernelSnapshot w1).1, device, fp, more.
  assert (pp_CreatedAt plan = created) as <- by (by rewrite Hplan).
  rewrite Hl', app_assoc, Hl. split_and!; try done; [by rewrite Hplan|by rewrite Hplan|lia|lia].
Qed.

End Theorems.

(** ** A witness: one connected stick, everything answers *)

#[local] Instance DemoUsb : UsbAdapters unit := {|
  kernelSnapshot w := (Some [demoStick], w);
  adapterAcquire _ w := (Some 0%nat, None, w);
  adapterRelease _ w := (Ok tt, w);
  adapterAudit _ w := (Ok tt, w);
  randomClaimID w := (Some "claim-1", w);
  contextErr _ := None
|}.

Definition demoLower (n : N) : N := n.
Definition demoEnrollment : Enrollment :=
  match NewEnrollmentFromDevice demoLower demoStick "STICK" false with
  | Ok enrollment => enrollment
  | Err _ => mkEnrollment 0 "" "" demoIdentity ""
  end.
Definition demoFingerprint : string :=
  match Fingerprint demoLower (en_Identity demoEnrollment) with Ok fp => fp | Err _ => "" end.
Definition demoPlan : PreparePlan :=
  match NewPreparePlan demoLower demoEnrollment demoStick (Some (replicate 16 9%Z)) 1000 with
  | Ok plan => plan
  | Err _ => mkPlan 0 "" "" 0 "" "" 0 "" ""
  end.

#[local] Instance DemoPrepare : PrepareWorld unit := {|
  Now w := (2000%Z, w);
  RecordEvent _ w := (true, w);
  AuthorizePrepare w := (true, w);
  BackendPrepare _ fs w :=
    (BackendEvent (mkPrepareEvent 0 (PrepareOther "FORMATTING") "USB_FORMATTING" "Formatting.") (λ _,
       BackendDone (Some (mkPrepareReceipt 1 (EnrollmentID demoEnrollment) fs 15728640000 demoFingerprint PrepareDestinationReady))), w)
|}.

Definition demoClaims : ClaimManager :=
  mkClaimManager {["claim-1" := mkClaim "claim-1" (EnrollmentID demoEnrollment) "session" 1000 demoStick (Some 0%nat)]}
    {[hashOf demoStick := "claim-1"]}.

Definition demoPrepared :=
  Prepare demoLower demoClaims "claim-1" "session" 1000 demoEnrollment demoPlan
    (mkConfirmation (pp_FirstPrompt demoPlan) (pp_SecondPrompt demoPlan)) true tt.

Lemma erasure_is_confirmed_witness :
  is_Ok demoPrepared.1 = true ∧ ∃ claim more, ps_log demoPrepared.2 = upToDestruction claim ++ more ∧ onlyEvents more.
Proof.
  assert (is_Ok demoPrepared.1 = true) as Hr by (vm_compute; reflexivity). split; [exact Hr|].
  destruct (erasure_is_confirmed demoLower demoClaims "claim-1" "session" 1000 demoEnrollment demoPlan
    (mkConfirmation (pp_FirstPrompt demoPlan) (pp_SecondPrompt demoPlan)) true tt demoPrepared.1 demoPrepared.2)
    as [_ [[[e He] _]|(claim & _ & _ & _ & _ & more & Hl & Hm & _)]].
  - apply surjective_pairing.
  - rewrite He in Hr. discriminate Hr.
  - exists claim, more. split; [exact Hl|exact Hm].
Defined.
