(* ===== verification/UsbExport.v ===== *)
(** * The USB export operation

    Models [src/internal/usb/export.go]: one verified transfer of an approved
    output to a prepared USB device through a networkless exporter, and the
    retryable cleanup of whatever the transfer left.  The exporter's lifecycle,
    the destination, the source and the event sink are an interface over a world;
    the expiry of contexts is a failure of the calls that take them.  [xs_log] is
    a ghost record of the calls in order. *)

From Stdlib Require Import ZArith Lia Ascii.
From stdpp Require Import strings base tactics option gmap relations list.
From S2P Require Import Prelude GoText Sha256 UsbIdentity UsbClaim.

Open Scope string_scope.
Open Scope list_scope.

Definition ExportReceiptSchemaVersion : Z := 1.
Definition MaximumRelayChunk : Z := 1048576.
Definition maximumExportBytes : Z := 17592186044416.
Definition second : Z := 1000000000.
Definition maximumExportDuration : Z := 86400 * second.
Definition maximumIdleDuration : Z := 300 * second.

(** ** Outputs, options and receipts *)

Record ApprovedOutput := mkOutput {
  ao_SourceRole : string;
  ao_OutputID : string;
  ao_LogicalName : string;
  ao_MediaType : string;
  ao_Size : Z;
  ao_SourceDigest : list Z;
  ao_ReportAuthenticated : bool;
  ao_ReportComplete : bool;
  ao_PolicyApproved : bool;
  ao_Reconstructed : bool;
  ao_ExportStateAuthenticated : bool;
  ao_ExportStateReady : bool;
  ao_WorkspaceDestinationAuthorized : bool
}.

Definition lineBreaks : string := String "000" (String "013" (String "010" EmptyString)).

Definition digestIsZero (d : list Z) : bool := bool_decide (d = replicate 32 0%Z).

Definition ValidateOutput (o : ApprovedOutput) (maxBytes : Z) : result usb_error unit :=
  fail_if ((slen (ao_OutputID o) <? 8)%Z || (128 <? slen (ao_OutputID o))%Z || ContainsAny (ao_OutputID o) (lineBreaks +:+ "/\"))
    with (UncodedError "approved output identifier is invalid") ;;
  fail_if (bool_decide (ao_LogicalName o = "") || (255 <? slen (ao_LogicalName o))%Z || negb (ValidString (ao_LogicalName o)) ||
           ContainsAny (ao_LogicalName o) (lineBreaks +:+ "/\") || bool_decide (ao_LogicalName o = ".") ||
           bool_decide (ao_LogicalName o = "..")) with (UncodedError "approved output logical name is invalid") ;;
  fail_if (bool_decide (ao_MediaType o = "") || (255 <? slen (ao_MediaType o))%Z || ContainsAny (ao_MediaType o) lineBreaks)
    with (UncodedError "approved output media type is invalid") ;;
  fail_if ((ao_Size o =? 0)%Z || (maxBytes <? ao_Size o)%Z || digestIsZero (ao_SourceDigest o))
    with (UncodedError "approved output size or digest is invalid") ;;
  if bool_decide (ao_SourceRole o = SourceScanner) then
    fail_if (negb (ao_ReportAuthenticated o) || negb (ao_ReportComplete o) || negb (ao_PolicyApproved o) ||
             negb (ao_Reconstructed o)) with (UncodedError "approved scanner output lacks complete safe-policy evidence") ;;
    Ok tt
  else if bool_decide (ao_SourceRole o = SourceWorkstation) then
    fail_if (negb (ao_ExportStateAuthenticated o) || Bool.eqb (ao_ExportStateReady o) (ao_WorkspaceDestinationAuthorized o))
      with (UncodedError "workstation output lacks one authenticated export authorization") ;;
    Ok tt
  else Err (UncodedError "approved output source role is invalid").

Record ExportOptions := mkOptions { eo_MaxBytes : Z; eo_Timeout : Z; eo_IdleTimeout : Z }.

Definition normalizedOptions (o : ExportOptions) : result usb_error ExportOptions :=
  let maxBytes := if (eo_MaxBytes o =? 0)%Z then 4294967296%Z else eo_MaxBytes o in
  let timeout := if (eo_Timeout o =? 0)%Z then (7200 * second)%Z else eo_Timeout o in
  let idle := if (eo_IdleTimeout o =? 0)%Z then (30 * second)%Z else eo_IdleTimeout o in
  fail_if ((maximumExportBytes <? maxBytes)%Z || (timeout <=? 0)%Z || (maximumExportDuration <? timeout)%Z || (idle <=? 0)%Z ||
           (maximumIdleDuration <? idle)%Z || (timeout <? idle)%Z) with (UncodedError "USB export bounds are invalid") ;;
  Ok (mkOptions maxBytes timeout idle).

Record DestinationEvidence := mkEvidence {
  de_BytesWritten : Z;
  de_ReceivedDigest : list Z;
  de_RereadDigest : list Z;
  de_FileSynced : bool;
  de_FilesystemSynced : bool;
  de_AtomicRename : bool
}.

Record FinalizeEvidence := mkFinalEvidence { fe_Unmounted : bool; fe_LUKSClosed : bool }.

Inductive ExportState := ExportPlanned | ExportClaimVerified | ExportBooting | ExportNoNetworkVerified | ExportUSBAttached
  | ExportStreaming | ExportStreamComplete | ExportFlushed | ExportPostWriteVerified | ExportUSBUnmounted
  | ExportUSBDetached | ExportExporterStopped | ExportIncomplete.

Record ExportEvent := mkExportEvent { ee_Sequence : Z; ee_State : ExportState; ee_Code : string; ee_Current : Z; ee_Total : Z }.

Record ExportReceipt := mkExportReceipt {
  er_SchemaVersion : Z;
  er_EnrollmentID : string;
  er_BytesWritten : Z;
  er_ScannerRelayHashEqual : bool;
  er_RelayExporterHashEqual : bool;
  er_ExporterRereadHashEqual : bool;
  er_FileSynced : bool;
  er_FilesystemSynced : bool;
  er_AtomicRename : bool;
  er_USBUnmounted : bool;
  er_USBDetached : bool;
  er_ExporterStopped : bool;
  er_CleanupComplete : bool
}.

Definition ValidateReceipt (r : ExportReceipt) : bool :=
  (er_SchemaVersion r =? ExportReceiptSchemaVersion)%Z && enrollmentIDPattern (er_EnrollmentID r) &&
  negb (er_BytesWritten r =? 0)%Z && er_ScannerRelayHashEqual r && er_RelayExporterHashEqual r &&
  er_ExporterRereadHashEqual r && er_FileSynced r && er_FilesystemSynced r && er_AtomicRename r && er_USBUnmounted r &&
  er_USBDetached r && er_ExporterStopped r && er_CleanupComplete r.

(** ** The interface *)

(** The calls that return only an error. *)
Inductive external :=
| VerifyHostAndSourceIsolation (c : Claim)
| BootNetworkless
| VerifyNoNetwork
| AttachExactUSB (c : Claim)
| InspectAttachedUSB (c : Claim)
| DetachUSB
| StopExporter
| LifecycleAuditAbsent
| WriteChunk (sequence : Z) (data : list Z)
| AbortWriter
| CloseSource
| SendEvent (event : ExportEvent).

(** The result of [source.Next]. *)
Inductive next_chunk := Chunk (sequence : Z) (data : list Z) | NextEOF | NextError.

Class ExportWorld (W : Type) := {
  perform : external → W → bool * W;                                  (* a nil error *)
  destinationBegin : ApprovedOutput → W → (bool * bool) * W;           (* a writer, a nil error *)
  writerCommit : Z → list Z → W → option DestinationEvidence * W;
  destinationFinalize : W → option FinalizeEvidence * W;
  sourceNext : W → next_chunk * W
}.

(** ** The operation's state *)

Record Flags := mkFlags {
  writer : bool;
  booted : bool;
  attached : bool;
  destinationOpened : bool;
  committed : bool;
  finalized : bool;
  detached : bool;
  stopped : bool;
  released : bool;
  audited : bool
}.

Record ExportOperation := mkOperation {
  op_claimID : string;
  op_sessionID : string;
  op_ownerUID : Z;
  op_enrollment : Enrollment;
  op_options : ExportOptions;
  op_sequence : Z;
  op_flags : Flags;
  op_running : bool;
  op_finished : bool;
  op_verifiedReread : option (list Z)    (* with [rereadVerified] *)
}.

Definition noFlags : Flags := mkFlags false false false false false false false false false false.

(** The assignments to the flags. *)
Definition clearWriter (f : Flags) : Flags :=
  mkFlags false (booted f) (attached f) (destinationOpened f) (committed f) (finalized f) (detached f) (stopped f) (released f) (audited f).
Definition setBooted (f : Flags) : Flags :=
  mkFlags (writer f) true (attached f) (destinationOpened f) (committed f) (finalized f) (detached f) (stopped f) (released f) (audited f).
Definition setAttached (f : Flags) : Flags :=
  mkFlags (writer f) (booted f) true (destinationOpened f) (committed f) (finalized f) (detached f) (stopped f) (released f) (audited f).
Definition setOpened (f : Flags) : Flags :=
  mkFlags true (booted f) (attached f) true (committed f) (finalized f) (detached f) (stopped f) (released f) (audited f).
Definition setCommitted (f : Flags) : Flags :=
  mkFlags false (booted f) (attached f) (destinationOpened f) true (finalized f) (detached f) (stopped f) (released f) (audited f).
Definition setFinalized (f : Flags) : Flags :=
  mkFlags (writer f) (booted f) (attached f) false (committed f) true (detached f) (stopped f) (released f) (audited f).
Definition setDetached (f : Flags) : Flags :=
  mkFlags (writer f) (booted f) false (destinationOpened f) (committed f) (finalized f) true (stopped f) (released f) (audited f).
Definition setStopped (f : Flags) : Flags :=
  mkFlags (writer f) false (attached f) (destinationOpened f) (committed f) (finalized f) (detached f) true (released f) (audited f).
Definition setReleased (f : Flags) : Flags :=
  mkFlags (writer f) (booted f) (attached f) (destinationOpened f) (committed f) (finalized f) (detached f) (stopped f) true (audited f).
Definition setAudited (f : Flags) : Flags :=
  mkFlags (writer f) (booted f) (attached f) (destinationOpened f) (committed f) (finalized f) (detached f) (stopped f) (released f) true.

Definition NewExportOperation (unicodeLower : N → N) (options : ExportOptions) (claimID sessionID : string) (ownerUID : Z)
    (enrollment : Enrollment) : result usb_error ExportOperation :=
  normalized <-! normalizedOptions options ;;
  _ <-! ValidateEnrollment unicodeLower enrollment ;;
  fail_if (bool_decide (claimID = "") || bool_decide (sessionID = "")) with (UncodedError "USB export requires a claim and session") ;;
  Ok (mkOperation claimID sessionID ownerUID enrollment normalized 0 noFlags false false None).

(** What was called, with its outcome. *)
Inductive export_call :=
| Did (x : external) (ok : bool)
| DidRevalidate (claim : option Claim)
| DidBegin (output : ApprovedOutput) (writer ok : bool)
| DidCommit (written : Z) (digest : list Z) (evidence : option DestinationEvidence)
| DidFinalize (good : bool)
| DidRelease (ok : bool).

#[global] Instance Device_eq_dec : EqDecision Device.
Proof. solve_decision. Defined.
#[global] Instance Claim_eq_dec : EqDecision Claim.
Proof. solve_decision. Defined.

Section Operation.
Context (unicodeLower : N → N) {W : Type} `{!UsbAdapters W} `{!ExportWorld W}.

Record ExportSt := mkExportSt {
  xs_op : ExportOperation;
  xs_claims : ClaimManager;
  xs_world : W;
  xs_closed : bool;                (* [sourceClosed] *)
  xs_log : list export_call
}.

(** ** The monad of calls, with an error type *)

Definition X (E A : Type) : Type := ExportSt → result E A * ExportSt.

Definition ret {E A} (a : A) : X E A := λ s, (Ok a, s).
Definition throw {E A} (e : E) : X E A := λ s, (Err e, s).
Definition bind {E A B} (m : X E A) (k : A → X E B) : X E B := λ s,
  match m s with (Ok a, s) => k a s | (Err e, s) => (Err e, s) end.

#[local] Notation "'do' x := m ; k" := (bind m (λ x, k)) (at level 100, x binder, m at level 99, right associativity).

Definition check {E} (b : bool) (e : E) : X E unit := if b then ret tt else throw e.

Definition setFlags {E} (f : Flags → Flags) : X E unit := λ s,
  let o := xs_op s in
  (Ok tt, mkExportSt (mkOperation (op_claimID o) (op_sessionID o) (op_ownerUID o) (op_enrollment o) (op_options o)
     (op_sequence o) (f (op_flags o)) (op_running o) (op_finished o) (op_verifiedReread o))
     (xs_claims s) (xs_world s) (xs_closed s) (xs_log s)).

Definition call {E} (x : external) : X E bool := λ s,
  let '(ok, w) := perform x (xs_world s) in
  (Ok ok, mkExportSt (xs_op s) (xs_claims s) w (xs_closed s) (xs_log s ++ [Did x ok])).

(** [emit]: every event of the operation has a state, a code and a message, so
    only [current > total] is checked. *)
Definition emit {E} (state : ExportState) (code : string) (current total : Z) : X E bool := λ s,
  if (total <? current)%Z then (Ok false, s)
  else
    let o := xs_op s in
    let n := add64 (op_sequence o) 1 in
    call (SendEvent (mkExportEvent n state code current total))
      (mkExportSt (mkOperation (op_claimID o) (op_sessionID o) (op_ownerUID o) (op_enrollment o) (op_options o)
         n (op_flags o) (op_running o) (op_finished o) (op_verifiedReread o)) (xs_claims s) (xs_world s) (xs_closed s) (xs_log s)).

Definition finalizeCall {E} : X E bool := λ s,
  let '(evidence, w) := destinationFinalize (xs_world s) in
  let good := match evidence with Some ev => fe_Unmounted ev && fe_LUKSClosed ev | None => false end in
  (Ok good, mkExportSt (xs_op s) (xs_claims s) w (xs_closed s) (xs_log s ++ [DidFinalize good])).

Definition releaseCall {E} : X E (result usb_error unit) := λ s,
  let '(r, m, w) := Release (xs_claims s) (op_claimID (xs_op s)) (op_sessionID (xs_op s)) (op_ownerUID (xs_op s)) (xs_world s) in
  (Ok r, mkExportSt (xs_op s) m w (xs_closed s) (xs_log s ++ [DidRelease (is_Ok r)])).

(** ** Cleanup *)

Definition flagsOf {E} : X E Flags := λ s, (Ok (op_flags (xs_op s)), s).

Definition cleanupAbort : X usb_error unit :=
  do f := flagsOf ;
  if writer f && negb (committed f) then
    do ok := call AbortWriter ;
    do _ := check ok CodeCleanupIncomplete ;
    setFlags clearWriter
  else ret tt.

Definition cleanupFinalize : X usb_error unit :=
  do f := flagsOf ;
  if destinationOpened f && negb (finalized f) then
    do ok := finalizeCall ;
    do _ := check ok CodeCleanupIncomplete ;
    setFlags setFinalized
  else ret tt.

Definition cleanupDetach : X usb_error unit :=
  do f := flagsOf ;
  if attached f && negb (detached f) then
    do ok := call DetachUSB ;
    do _ := check ok CodeCleanupIncomplete ;
    setFlags setDetached
  else ret tt.

Definition cleanupStop : X usb_error unit :=
  do f := flagsOf ;
  if booted f && negb (stopped f) then
    do ok := call StopExporter ;
    do _ := check ok CodeCleanupIncomplete ;
    setFlags setStopped
  else ret tt.

Definition cleanupRelease : X usb_error unit :=
  do f := flagsOf ;
  if negb (released f) then
    do r := releaseCall ;
    match r with
    | Err e => throw e
    | Ok _ =>
        setFlags setReleased
    end
  else ret tt.

Definition cleanupAudit : X usb_error unit :=
  do f := flagsOf ;
  if negb (audited f) then
    do ok := call LifecycleAuditAbsent ;
    do _ := check ok CodeCleanupIncomplete ;
    setFlags setAudited
  else ret tt.

(** [cleanup]; [allowRunning] as in the code. *)
Definition cleanup (allowRunning : bool) : X usb_error unit := λ s,
  if op_running (xs_op s) && negb allowRunning
  then (Err (UncodedError "USB export cleanup is owned by the active operation"), s)
  else (do _ := cleanupAbort ; do _ := cleanupFinalize ; do _ := cleanupDetach ; do _ := cleanupStop ;
        do _ := cleanupRelease ; cleanupAudit) s.

Definition Cleanup : X usb_error unit := cleanup false.

(** ** The transfer *)

(** Why the transfer stopped: [fail] and [failAs] with their code, [hashFailure],
    a claim that no longer holds, or a loop out of fuel. *)
Inductive failure := Failed (code : usb_error) | HashFailed | ClaimLost (e : usb_error) | NoFuel.

Definition writeFailed : failure := Failed CodeWriteFailed.

Definition must (x : external) : X failure unit := do ok := call x ; check ok writeFailed.

Definition event (state : ExportState) (code : string) (current total : Z) : X failure unit :=
  do ok := emit state code current total ; check ok writeFailed.

Definition revalidate : X failure Claim := λ s,
  let '(r, w) := Revalidate unicodeLower (xs_claims s) (op_claimID (xs_op s)) (op_sessionID (xs_op s)) (op_ownerUID (xs_op s))
                   (op_enrollment (xs_op s)) (xs_world s) in
  let s' c := mkExportSt (xs_op s) (xs_claims s) w (xs_closed s) (xs_log s ++ [DidRevalidate c]) in
  match r with Ok claim => (Ok claim, s' (Some claim)) | Err e => (Err (ClaimLost e), s' None) end.

Definition begin (output : ApprovedOutput) : X failure unit := λ s,
  let '((hasWriter, ok), w) := destinationBegin output (xs_world s) in
  (do _ := (if hasWriter : bool
            then setFlags setOpened
            else ret tt) ;
   check (hasWriter && ok) writeFailed)
    (mkExportSt (xs_op s) (xs_claims s) w (xs_closed s) (xs_log s ++ [DidBegin output hasWriter ok])).

(** The relay loop; its value is the bytes hashed. *)
Fixpoint relay (fuel : nat) (output : ApprovedOutput) (written sequence : Z) (hashed : list Z) : X failure (Z * list Z) :=
  match fuel with
  | O => throw NoFuel
  | S fuel => λ s,
      let '(next, w) := sourceNext (xs_world s) in
      (match next with
       | NextEOF => ret (written, hashed)
       | NextError => throw writeFailed
       | Chunk seq data =>
           do _ := check (negb (negb (seq =? sequence)%Z || (len data =? 0)%Z || (MaximumRelayChunk <? len data)%Z ||
                                (ao_Size output <? written)%Z || (sub64 (ao_Size output) written <? len data)%Z)) writeFailed ;
           do _ := must (WriteChunk seq data) ;
           do _ := event ExportStreaming "USB_STREAM_PROGRESS" (add64 written (len data)) (ao_Size output) ;
           relay fuel output (add64 written (len data)) (add64 sequence 1) (hashed ++ data)
       end) (mkExportSt (xs_op s) (xs_claims s) w (xs_closed s) (xs_log s))
  end.

Definition closeSource : X failure unit := λ s,
  (do ok := call CloseSource ; check ok writeFailed)
    (mkExportSt (xs_op s) (xs_claims s) (xs_world s) true (xs_log s)).

Definition commitCall (written : Z) (digest : list Z) : X failure DestinationEvidence := λ s,
  let '(evidence, w) := writerCommit written digest (xs_world s) in
  let s := mkExportSt (xs_op s) (xs_claims s) w (xs_closed s) (xs_log s ++ [DidCommit written digest evidence]) in
  match evidence with Some ev => (Ok ev, s) | None => (Err writeFailed, s) end.

Definition keepReread (digest : list Z) : X failure unit := λ s,
  let o := xs_op s in
  (Ok tt, mkExportSt (mkOperation (op_claimID o) (op_sessionID o) (op_ownerUID o) (op_enrollment o) (op_options o)
     (op_sequence o) (op_flags o) (op_running o) (op_finished o) (Some digest))
     (xs_claims s) (xs_world s) (xs_closed s) (xs_log s)).

(** The body of [Run] after its guards; [NoFuel] is shown never to happen. *)
Definition runSteps (output : ApprovedOutput) (options : ExportOptions) (enrollment : Enrollment) : X failure ExportReceipt :=
  let size := ao_Size output in
  do _ := check (is_Ok (ValidateOutput output (eo_MaxBytes options))) writeFailed ;
  do _ := check (negb (Capacity (en_Identity enrollment) <? size)%Z) (Failed CodeTooSmall) ;
  do claim := revalidate ;
  do _ := event ExportClaimVerified "USB_CLAIM_VERIFIED" 0 size ;
  do _ := must (VerifyHostAndSourceIsolation claim) ;
  do _ := setFlags setBooted ;
  do _ := must BootNetworkless ;
  do _ := event ExportBooting "USB_EXPORTER_BOOTED" 0 size ;
  do _ := must VerifyNoNetwork ;
  do _ := event ExportNoNetworkVerified "USB_EXPORTER_OFFLINE" 0 size ;
  do _ := setFlags setAttached ;
  do _ := must (AttachExactUSB claim) ;
  do _ := must (InspectAttachedUSB claim) ;
  do _ := event ExportUSBAttached "USB_ATTACHED_EXACT" 0 size ;
  do _ := begin output ;
  do _ := event ExportStreaming "USB_STREAMING" 0 size ;
  do r := relay (S (Z.to_nat size)) output 0 0 [] ;
  let written := fst r in
  do _ := check (written =? size)%Z writeFailed ;
  do _ := closeSource ;
  let relayDigest := sha256 (snd r) in
  do _ := check (bool_decide (ao_SourceDigest output = relayDigest)) HashFailed ;
  do _ := event ExportStreamComplete "USB_STREAM_COMPLETE" written size ;
  do evidence := commitCall written relayDigest ;
  do _ := setFlags setCommitted ;
  do _ := check (negb (negb (de_BytesWritten evidence =? written)%Z || negb (de_FileSynced evidence) ||
                        negb (de_FilesystemSynced evidence) || negb (de_AtomicRename evidence))) writeFailed ;
  do _ := check (bool_decide (relayDigest = de_ReceivedDigest evidence) && bool_decide (relayDigest = de_RereadDigest evidence))
             HashFailed ;
  do _ := event ExportFlushed "USB_FLUSHED" written size ;
  do _ := event ExportPostWriteVerified "USB_POST_WRITE_VERIFIED" written size ;
  do good := finalizeCall ;
  do _ := check good writeFailed ;
  do _ := setFlags setFinalized ;
  do _ := event ExportUSBUnmounted "USB_UNMOUNTED" written size ;
  do _ := must DetachUSB ;
  do _ := setFlags setDetached ;
  do _ := event ExportUSBDetached "USB_DETACHED" written size ;
  do _ := must StopExporter ;
  do _ := setFlags setStopped ;
  do _ := event ExportExporterStopped "USB_EXPORTER_STOPPED" written size ;
  do r := releaseCall ;
  do _ := check (is_Ok r) writeFailed ;
  do _ := setFlags setReleased ;
  do _ := must LifecycleAuditAbsent ;
  do _ := setFlags setAudited ;
  do _ := keepReread (de_RereadDigest evidence) ;
  ret (mkExportReceipt ExportReceiptSchemaVersion (EnrollmentID enrollment) written
          true true true true true true true true true true).

Definition runBody (output : ApprovedOutput) : X failure ExportReceipt := λ s,
  runSteps output (op_options (xs_op s)) (op_enrollment (xs_op s)) s.

(** [fail], [failAs] and [hashFailure]: the incomplete event, then the cleanup,
    whose error comes first. *)
Definition cleanupThen (e : usb_error) : X usb_error ExportReceipt := do _ := cleanup true ; throw e.

Definition failAs (code : usb_error) (label : string) : X usb_error ExportReceipt :=
  do _ := emit ExportIncomplete label 0 0 ; cleanupThen code.

Definition recover (f : failure) : X usb_error ExportReceipt :=
  match f with
  | Failed code => failAs code "USB_EXPORT_INCOMPLETE"
  | HashFailed => failAs CodeHashMismatch "USB_HASH_MISMATCH"
  | ClaimLost e => cleanupThen e
  | NoFuel => throw (UncodedError "out of fuel")
  end.

Definition attempt (output : ApprovedOutput) : X usb_error ExportReceipt := λ s,
  match runBody output s with
  | (Ok receipt, s) => (Ok receipt, s)
  | (Err f, s) => recover f s
  end.

Definition setStatus (running finished : bool) (s : ExportSt) : ExportSt :=
  let o := xs_op s in
  mkExportSt (mkOperation (op_claimID o) (op_sessionID o) (op_ownerUID o) (op_enrollment o) (op_options o)
     (op_sequence o) (op_flags o) running finished (op_verifiedReread o)) (xs_claims s) (xs_world s) (xs_closed s) (xs_log s).

Definition openSource (s : ExportSt) : ExportSt :=
  mkExportSt (xs_op s) (xs_claims s) (xs_world s) false (xs_log s).

(** [Run]; no source is the nil source. *)
Definition Run (source : option ApprovedOutput) : X usb_error ExportReceipt := λ s,
  if op_running (xs_op s) || op_finished (xs_op s)
  then (Err (UncodedError "USB export operation cannot run twice"), s)
  else
    let s := setStatus true (op_finished (xs_op s)) s in
    let '(r, s) :=
      match source with
      | None => failAs CodeWriteFailed "USB_EXPORT_INCOMPLETE" s
      | Some output =>
          let '(r, s) := attempt output (openSource s) in
          if xs_closed s then (r, s) else (r, snd (call (E:=usb_error) CloseSource s))
      end in
    (r, setStatus false true s).

Definition VerifiedRereadDigest (s : ExportSt) : option (list Z) :=
  if op_finished (xs_op s) then op_verifiedReread (xs_op s) else None.

(** The entry points, in any sequence. *)
Inductive request := DoRun (source : option ApprovedOutput) | DoCleanup.

Definition serve (s : ExportSt) (r : request) : ExportSt :=
  match r with DoRun source => snd (Run source s) | DoCleanup => snd (Cleanup s) end.

(** ** The discipline of the device

    What the calls made so far hold, as an observer of the calls sees it; a call
    that would break the discipline has no successor. *)
Record held := mkHeld {
  h_claim : option Claim;     (* the claim last proved live *)
  h_isolated : bool;
  h_booted : bool;
  h_offline : bool;
  h_attached : bool;
  h_inspected : bool;
  h_writer : bool;            (* a partial file exists *)
  h_open : bool;              (* the destination file system is open *)
  h_released : bool;
  h_audited : bool
}.

Definition nothing : held := mkHeld None false false false false false false false false false.

Definition same_claim (c : Claim) (h : held) : bool :=
  match h_claim h with Some c' => bool_decide (c = c') | None => false end.

Definition guarded (b : bool) (h : held) : option held := if b then Some h else None.

Definition observe (h : held) (c : export_call) : option held :=
  let '(mkHeld claim isolated bootd offline attachd inspected wr op released audited) := h in
  match c with
  | DidRevalidate claim => Some (mkHeld claim isolated bootd offline attachd inspected wr op released audited)
  | Did (VerifyHostAndSourceIsolation c) ok =>
      guarded (same_claim c h) (mkHeld claim ok bootd offline attachd inspected wr op released audited)
  | Did BootNetworkless _ => guarded isolated (mkHeld claim isolated true false attachd inspected wr op released audited)
  | Did VerifyNoNetwork ok => guarded bootd (mkHeld claim isolated bootd ok attachd inspected wr op released audited)
  | Did (AttachExactUSB c) _ =>
      guarded (bootd && offline && same_claim c h) (mkHeld claim isolated bootd offline true false wr op released audited)
  | Did (InspectAttachedUSB c) ok =>
      guarded (attachd && same_claim c h) (mkHeld claim isolated bootd offline attachd ok wr op released audited)
  | DidBegin _ w _ => guarded (attachd && inspected && negb op) (mkHeld claim isolated bootd offline attachd inspected w w released audited)
  | Did (WriteChunk _ _) _ => guarded wr h
  | DidCommit _ _ (Some _) => guarded wr (mkHeld claim isolated bootd offline attachd inspected false op released audited)
  | DidCommit _ _ None => guarded wr h
  | Did AbortWriter ok => guarded wr (mkHeld claim isolated bootd offline attachd inspected (negb ok) op released audited)
  | DidFinalize good => guarded (op && negb wr) (mkHeld claim isolated bootd offline attachd inspected wr (negb good) released audited)
  | Did DetachUSB ok =>
      guarded (attachd && negb op && negb wr) (mkHeld claim isolated bootd offline (negb ok) inspected wr op released audited)
  | Did StopExporter ok =>
      guarded (bootd && negb attachd) (mkHeld claim isolated (negb ok) offline attachd inspected wr op released audited)
  | DidRelease ok =>
      guarded (negb bootd && negb attachd && negb op)
        (mkHeld claim isolated bootd offline attachd inspected wr op (released || ok) audited)
  | Did LifecycleAuditAbsent ok =>
      guarded (released && negb bootd && negb attachd && negb op)
        (mkHeld claim isolated bootd offline attachd inspected wr op released (audited || ok))
  | Did CloseSource _ | Did (SendEvent _) _ => Some h
  end.

Fixpoint watch (h : held) (log : list export_call) : option held :=
  match log with
  | [] => Some h
  | c :: log => h ← observe h c; watch h log
  end.

Definition clear_of_device (h : held) : bool :=
  negb (h_writer h) && negb (h_open h) && negb (h_attached h) && negb (h_booted h) && h_released h && h_audited h.

(** *** The flags agree with what is held *)

Definition consistent (h : held) (f : Flags) : Prop :=
  h_writer h = writer f && negb (committed f) ∧ h_open h = destinationOpened f && negb (finalized f) ∧
  h_attached h = attached f && negb (detached f) ∧ h_booted h = booted f && negb (stopped f) ∧
  h_released h = released f ∧ h_audited h = audited f.

Definition At (h : held) (f : Flags) (h' : held) (f' : Flags) : Prop := h' = h ∧ f' = f.

Definition flags (s : ExportSt) : Flags := op_flags (xs_op s).

Definition seen (s : ExportSt) (P : held → Flags → Prop) : Prop := ∃ h, watch nothing (xs_log s) = Some h ∧ P h (flags s).

(** From [P], [m] ends in [Q] or with an error in [R]. *)
Definition triple {E A} (P : held → Flags → Prop) (m : X E A) (Q : A → held → Flags → Prop) (R : held → Flags → Prop) : Prop :=
  ∀ s, seen s P → match m s with (Ok a, s') => seen s' (Q a) | (Err _, s') => seen s' R end.

Lemma watch_app h l1 l2 : watch h (l1 ++ l2) = (h' ← watch h l1; watch h' l2).
Proof. revert h; induction l1 as [|c l1 IH]; intros h; [done|]; cbn; destruct (observe h c); cbn; auto. Qed.

Lemma watch_snoc l h c : watch nothing l = Some h → watch nothing (l ++ [c]) = observe h c.
Proof. intros H; rewrite watch_app, H; cbn; destruct (observe h c); done. Qed.

Lemma export_bind {E A B} P Q R S (m : X E A) (k : A → X E B) :
  triple P m Q R → (∀ a, triple (Q a) (k a) S R) → triple P (bind m k) S R.
Proof. intros Hm Hk s Hs; unfold bind; specialize (Hm s Hs); destruct (m s) as [[a|e] s1]; [apply Hk|]; done. Qed.

Lemma triple_pre {E A} (P P' : held → Flags → Prop) Q R (m : X E A) :
  (∀ h f, P h f → P' h f) → triple P' m Q R → triple P m Q R.
Proof. intros Hp Hm s (h & Hw & HP); apply Hm; exists h; auto. Qed.

Lemma export_ret {E A} (P : held → Flags → Prop) Q R (a : A) : (∀ h f, P h f → Q a h f) → triple P (ret (E:=E) a) Q R.
Proof. intros HQ s (h & Hw & HP); exists h; auto. Qed.

Lemma triple_throw {E A} (P : held → Flags → Prop) (Q : A → held → Flags → Prop) R (e : E) :
  (∀ h f, P h f → R h f) → triple P (throw e) Q R.
Proof. intros HR s (h & Hw & HP); exists h; auto. Qed.

Lemma triple_check {E} (P : held → Flags → Prop) (Q : unit → held → Flags → Prop) R b (e : E) :
  (b = true → ∀ h f, P h f → Q tt h f) → (b = false → ∀ h f, P h f → R h f) → triple P (check b e) Q R.
Proof. intros H1 H2; destruct b; [apply export_ret|apply triple_throw]; auto. Qed.

Lemma triple_set {E} (P : held → Flags → Prop) (Q : unit → held → Flags → Prop) R g :
  (∀ h f, P h f → Q tt h (g f)) → triple P (setFlags (E:=E) g) Q R.
Proof. intros H s (h & Hw & HP); exists h; split; [done|]; apply H, HP. Qed.

(** One call, for each of its outcomes. *)
Lemma triple_call {E} (P : held → Flags → Prop) (Q : bool → held → Flags → Prop) R x :
  (∀ h f ok, P h f → ∃ h', observe h (Did x ok) = Some h' ∧ Q ok h' f) → triple P (call (E:=E) x) Q R.
Proof.
  intros H s (h & Hw & HP); unfold call; destruct (perform x (xs_world s)) as [ok w].
  destruct (H h _ ok HP) as (h' & Ho & HQ); exists h'; split; [|done]; cbn; rewrite (watch_snoc _ h); done.
Qed.

Lemma triple_must (P : held → Flags → Prop) (Q : unit → held → Flags → Prop) R x :
  (∀ h f, P h f → (∃ h', observe h (Did x true) = Some h' ∧ Q tt h' f) ∧ (∃ h', observe h (Did x false) = Some h' ∧ R h' f)) →
  triple P (must x) Q R.
Proof.
  intros H; apply (export_bind _ (λ ok h f, if ok : bool then Q tt h f else R h f)).
  - apply triple_call; intros h f [] HP; apply H, HP.
  - intros []; apply triple_check; done.
Qed.

Lemma triple_emit {E} (P : held → Flags → Prop) R state code current total :
  triple P (emit (E:=E) state code current total) (λ _, P) R.
Proof.
  intros s (h & Hw & HP); unfold emit; destruct (_ <? _)%Z; [by exists h|].
  apply (triple_call P (λ _, P)); [intros h0 f ok HP0; exists h0; split; [|done]; destruct h0; done|by exists h].
Qed.

Lemma triple_event (P : held → Flags → Prop) (R : held → Flags → Prop) state code current total :
  (∀ h f, P h f → R h f) → triple P (event state code current total) (λ _, P) R.
Proof.
  intros HR; eapply export_bind; [apply triple_emit|]; intros ok; cbn beta; apply triple_check; intros _; [auto|exact HR].
Qed.

Lemma triple_flags {E} (P : held → Flags → Prop) R : triple P (flagsOf (E:=E)) (λ g h f, P h f ∧ g = f) R.
Proof. intros s (h & Hw & HP); exists h; done. Qed.

Lemma triple_finalize {E} (P : held → Flags → Prop) (Q : bool → held → Flags → Prop) R :
  (∀ h f good, P h f → ∃ h', observe h (DidFinalize good) = Some h' ∧ Q good h' f) → triple P (finalizeCall (E:=E)) Q R.
Proof.
  intros H s (h & Hw & HP); unfold finalizeCall; destruct (destinationFinalize (xs_world s)) as [ev w]; cbn zeta.
  match goal with |- seen (mkExportSt _ _ _ _ (_ ++ [DidFinalize ?g])) _ => destruct (H h _ g HP) as (h' & Ho & HQ) end.
  exists h'; split; [|done]; cbn [xs_log]; rewrite (watch_snoc _ h); done.
Qed.

Lemma triple_release {E} (P : held → Flags → Prop) (Q : result usb_error unit → held → Flags → Prop) R :
  (∀ h f r, P h f → ∃ h', observe h (DidRelease (is_Ok r)) = Some h' ∧ Q r h' f) → triple P (releaseCall (E:=E)) Q R.
Proof.
  intros H s (h & Hw & HP); unfold releaseCall; destruct (Release _ _ _ _ _) as [[r m] w].
  destruct (H h _ r HP) as (h' & Ho & HQ); exists h'; split; [|done]; cbn [xs_log]; rewrite (watch_snoc _ h); done.
Qed.

(** What the blocks of the cleanup establish in turn. *)
Definition cleaned (n : nat) (h : held) (f : Flags) : Prop :=
  consistent h f ∧ ((1 ≤ n)%nat → h_writer h = false) ∧ ((2 ≤ n)%nat → h_open h = false) ∧ ((3 ≤ n)%nat → h_attached h = false) ∧
  ((4 ≤ n)%nat → h_booted h = false) ∧ ((5 ≤ n)%nat → h_released h = true) ∧ ((6 ≤ n)%nat → h_audited h = true).

#[local] Ltac held_open :=
  intros; repeat match goal with h : held |- _ => destruct h end; unfold cleaned, consistent, At in *; cbn in *;
  destruct_and?; simplify_eq;
  repeat match goal with H : (_ ≤ _)%nat → _ |- _ => first [specialize (H ltac:(lia)) | clear H] end.

#[local] Ltac held_close :=
  cbn; repeat match goal with
    | |- context [_ && false] => rewrite andb_false_r
    | |- context [_ || true] => rewrite orb_true_r
    | |- context [_ || false] => rewrite orb_false_r
    | H : _ = true |- context [_] => progress (rewrite H; cbn) | H : _ = false |- context [_] => progress (rewrite H; cbn)
    end; cbn; repeat split; intros; try lia; try done.

(** A block that makes one call and, when it succeeds, clears what it stands for. *)
Lemma cleanup_block (n : nat) (cond : Flags → bool) (m : X usb_error bool) (g : Flags → Flags) :
  (∀ h f, cleaned n h f → cond f = false → cleaned (S n) h f) →
  triple (λ h f, cleaned n h f ∧ cond f = true) m (λ ok h f, if ok : bool then cleaned (S n) h (g f) else consistent h f) consistent →
  triple (cleaned n)
    (bind flagsOf (λ f, if cond f then bind m (λ ok, bind (check ok CodeCleanupIncomplete) (λ _, setFlags g)) else ret tt))
    (λ _, cleaned (S n)) consistent.
Proof.
  intros Hskip Hm; eapply export_bind; [apply triple_flags|]; intros f0; cbn beta; destruct (cond f0) eqn:Hc.
  - eapply triple_pre; [|eapply export_bind; [apply Hm|]].
    + intros h f [? ->]; done.
    + intros ok; cbn beta; eapply (export_bind _ (λ _ h f, cleaned (S n) h (g f))).
      * apply triple_check; intros ->; auto.
      * intros _; apply triple_set; auto.
  - apply export_ret; intros h f [? ->]; auto.
Qed.

Lemma cleanupAbort_ok : triple (cleaned 0) cleanupAbort (λ _, cleaned 1) consistent.
Proof.
  apply (cleanup_block 0 (λ f, writer f && negb (committed f))); [held_open; held_close|apply triple_call].
  intros h f [] [Hc Hb]; held_open; eexists; held_close.
Qed.

Lemma cleanupFinalize_ok : triple (cleaned 1) cleanupFinalize (λ _, cleaned 2) consistent.
Proof.
  apply (cleanup_block 1 (λ f, destinationOpened f && negb (finalized f))); [held_open; held_close|apply triple_finalize].
  intros h f [] [Hc Hb]; held_open; eexists; held_close.
Qed.

Lemma cleanupDetach_ok : triple (cleaned 2) cleanupDetach (λ _, cleaned 3) consistent.
Proof.
  apply (cleanup_block 2 (λ f, attached f && negb (detached f))); [held_open; held_close|apply triple_call].
  intros h f [] [Hc Hb]; held_open; eexists; held_close.
Qed.

Lemma cleanupStop_ok : triple (cleaned 3) cleanupStop (λ _, cleaned 4) consistent.
Proof.
  apply (cleanup_block 3 (λ f, booted f && negb (stopped f))); [held_open; held_close|apply triple_call].
  intros h f [] [Hc Hb]; held_open; eexists; held_close.
Qed.

Lemma cleanupAudit_ok : triple (cleaned 5) cleanupAudit (λ _, cleaned 6) consistent.
Proof.
  apply (cleanup_block 5 (λ f, negb (audited f))); [|apply triple_call].
  - intros h f Hc Hb; apply negb_false_iff in Hb; held_open; held_close.
  - intros h f [] [Hc Hb]; held_open; eexists; held_close.
Qed.

Lemma cleanupRelease_ok : triple (cleaned 4) cleanupRelease (λ _, cleaned 5) consistent.
Proof.
  eapply export_bind; [apply triple_flags|]; intros f0; cbn beta; destruct (negb (released f0)) eqn:Hr.
  - eapply (export_bind _ (λ r h f, if is_Ok r then cleaned 5 h (setReleased f) else consistent h f)).
    + apply triple_release; intros h f [u|e] [Hc Hf]; subst f; held_open; eexists; held_close.
    + intros [u|e]; [apply triple_set|apply triple_throw]; done.
  - apply negb_false_iff in Hr; apply export_ret; intros h f [Hc Hf]; subst f; held_open; held_close.
Qed.

Lemma cleanup_ok b : triple consistent (cleanup b) (λ _, cleaned 6) consistent.
Proof.
  intros s Hs; unfold cleanup; destruct (_ && _); [done|].
  revert s Hs; change (triple consistent (do _ := cleanupAbort ; do _ := cleanupFinalize ; do _ := cleanupDetach ;
    do _ := cleanupStop ; do _ := cleanupRelease ; cleanupAudit) (λ _, cleaned 6) consistent).
  eapply triple_pre; [|eapply export_bind; [apply cleanupAbort_ok|intros []; cbn beta]].
  { intros h f H; split; [done|]; repeat split; lia. }
  eapply export_bind; [apply cleanupFinalize_ok|intros []; cbn beta].
  eapply export_bind; [apply cleanupDetach_ok|intros []; cbn beta].
  eapply export_bind; [apply cleanupStop_ok|intros []; cbn beta].
  eapply export_bind; [apply cleanupRelease_ok|intros []; cbn beta]; apply cleanupAudit_ok.
Qed.

(** *** The transfer keeps the discipline *)

Lemma triple_revalidate (P : held → Flags → Prop) (Q : Claim → held → Flags → Prop) (R : held → Flags → Prop) :
  (∀ h f c, P h f → ∃ h', observe h (DidRevalidate (Some c)) = Some h' ∧ Q c h' f) →
  (∀ h f, P h f → ∃ h', observe h (DidRevalidate None) = Some h' ∧ R h' f) → triple P revalidate Q R.
Proof.
  intros H1 H2 s (h & Hw & HP); unfold revalidate; destruct (Revalidate _ _ _ _ _ _ _) as [[c|e] w]; cbn zeta iota beta.
  - destruct (H1 h _ c HP) as (h' & Ho & HQ); exists h'; split; [|done]; cbn [xs_log]; rewrite (watch_snoc _ h); done.
  - destruct (H2 h _ HP) as (h' & Ho & HQ); exists h'; split; [|done]; cbn [xs_log]; rewrite (watch_snoc _ h); done.
Qed.

Lemma triple_begin (P : held → Flags → Prop) (Q : unit → held → Flags → Prop) (R : held → Flags → Prop) output :
  (∀ h f, P h f → ∃ h', observe h (DidBegin output true true) = Some h' ∧ Q tt h' (setOpened f)) →
  (∀ h f ok, P h f → ∃ h', observe h (DidBegin output true ok) = Some h' ∧ R h' (setOpened f)) →
  (∀ h f ok, P h f → ∃ h', observe h (DidBegin output false ok) = Some h' ∧ R h' f) → triple P (begin output) Q R.
Proof.
  intros H1 H2 H3 s (h & Hw & HP); unfold begin; destruct (destinationBegin _ _) as [[[] ok] w].
  - destruct ok; cbn.
    + destruct (H1 h _ HP) as (h' & Ho & HQ); exists h'; split; [|done]; cbn [xs_log]; rewrite (watch_snoc _ h); done.
    + destruct (H2 h _ false HP) as (h' & Ho & HQ); exists h'; split; [|done]; cbn [xs_log]; rewrite (watch_snoc _ h); done.
  - destruct (H3 h _ ok HP) as (h' & Ho & HQ); cbn; exists h'; split; [|done]; cbn [xs_log]; rewrite (watch_snoc _ h); done.
Qed.

Lemma triple_commit (P : held → Flags → Prop) (Q : DestinationEvidence → held → Flags → Prop) (R : held → Flags → Prop) written digest :
  (∀ h f ev, P h f → ∃ h', observe h (DidCommit written digest (Some ev)) = Some h' ∧ Q ev h' f) →
  (∀ h f, P h f → ∃ h', observe h (DidCommit written digest None) = Some h' ∧ R h' f) → triple P (commitCall written digest) Q R.
Proof.
  intros H1 H2 s (h & Hw & HP); unfold commitCall; destruct (writerCommit _ _ _) as [[ev|] w]; cbn zeta iota beta.
  - destruct (H1 h _ ev HP) as (h' & Ho & HQ); exists h'; split; [|done]; cbn [xs_log]; rewrite (watch_snoc _ h); done.
  - destruct (H2 h _ HP) as (h' & Ho & HQ); exists h'; split; [|done]; cbn [xs_log]; rewrite (watch_snoc _ h); done.
Qed.

Lemma triple_close (P : held → Flags → Prop) (R : held → Flags → Prop) :
  (∀ h f, P h f → R h f) → triple P closeSource (λ _, P) R.
Proof.
  intros HR s (h & Hw & HP); apply (triple_must P (λ _, P) R CloseSource); [|by exists h].
  intros h0 f0 HP0; split; exists h0; destruct h0; auto.
Qed.

Lemma triple_relay (P R : held → Flags → Prop) fuel output written sequence hashed :
  (∀ h f, P h f → R h f) → (∀ h f seq data ok, P h f → observe h (Did (WriteChunk seq data) ok) = Some h) →
  triple P (relay fuel output written sequence hashed) (λ _, P) R.
Proof.
  intros HR Ht; revert written sequence hashed; induction fuel as [|fuel IH]; intros written sequence hashed;
    [by apply triple_throw|].
  intros s (h & Hw & HP); cbn [relay]; destruct (sourceNext _) as [[seq data| |] w].
  2, 3: by (exists h; auto).
  match goal with |- match ?m ?s with _ => _ end => apply (λ H : triple P m (λ _, P) R, H s) end; [|by exists h].
  eapply (export_bind _ (λ _, P)); [by apply triple_check; auto|intros _].
  eapply (export_bind _ (λ _, P)); [|intros _].
  { apply triple_must; intros h0 f0 H0; split; exists h0; split; eauto. }
  eapply (export_bind _ (λ _, P)); [by apply triple_event|intros _]; apply IH.
Qed.

Lemma must_at h f x h1 h2 :
  observe h (Did x true) = Some h1 → observe h (Did x false) = Some h2 → consistent h2 f →
  triple (At h f) (must x) (λ _, At h1 f) consistent.
Proof. intros H1 H2 Hc; apply triple_must; intros ? ? [-> ->]; split; eexists; (split; [eassumption|done]). Qed.

Lemma event_at h f state code current total :
  consistent h f → triple (At h f) (event state code current total) (λ _, At h f) consistent.
Proof. intros Hc; apply triple_event; intros ? ? [-> ->]; done. Qed.

Lemma check_at h f b e : consistent h f → triple (At h f) (check (E:=failure) b e) (λ _, At h f) consistent.
Proof. intros Hc; apply triple_check; [done|intros _ ? ? [-> ->]; done]. Qed.

Lemma set_at {E} h f g R : triple (At h f) (setFlags (E:=E) g) (λ _, At h (g f)) R.
Proof. apply triple_set; intros ? ? [-> ->]; done. Qed.

Lemma keep_at h f d R : triple (At h f) (keepReread d) (λ _, At h f) R.
Proof. intros s (h0 & Hw & HP); exists h0; done. Qed.

(** A call that is checked afterwards. *)
Lemma checked_at {A} h f (m : X failure A) (ok : A → bool) h1 h2 e :
  triple (At h f) m (λ a, if ok a then At h1 f else At h2 f) consistent → consistent h2 f →
  triple (At h f) (do a := m ; check (ok a) e) (λ _, At h1 f) consistent.
Proof.
  intros Hm Hc; eapply export_bind; [exact Hm|]; intros a; cbn beta; destruct (ok a);
    [apply export_ret|apply triple_throw; intros ? ? [-> ->]]; done.
Qed.

Lemma bind_assoc {E A B C} (m : X E A) (k : A → X E B) (l : B → X E C) s : bind (bind m k) l s = bind m (λ a, bind (k a) l) s.
Proof. unfold bind; destruct (m s) as [[a|e] s1]; done. Qed.

Lemma triple_ext {E A} P Q R (m m' : X E A) : (∀ s, m s = m' s) → triple P m' Q R → triple P m Q R.
Proof. intros He Hm s Hs; rewrite He; apply Hm, Hs. Qed.

#[local] Ltac at_calc := cbn; rewrite ?bool_decide_eq_true_2 by done; cbn; reflexivity.
#[local] Ltac at_ok := unfold consistent; cbn; repeat split; rewrite ?orb_true_r, ?orb_false_r; done.
#[local] Ltac at_step :=
  eapply export_bind;
  [first [apply event_at; at_ok | apply set_at | apply check_at; at_ok | apply keep_at
         | eapply must_at; [at_calc | at_calc | at_ok]]
  |intros []; cbn beta].

(** The transfer, from a state in which nothing is held. *)
Lemma runSteps_disciplined output options enrollment c i o insp rel aud :
  triple (At (mkHeld c i false o false insp false false rel aud) (mkFlags false false false false false false false false rel aud))
    (runSteps output options enrollment) (λ _, cleaned 6) consistent.
Proof.
  unfold runSteps; cbv zeta; do 2 at_step.
  eapply (export_bind _ (λ claim, At (mkHeld (Some claim) i false o false insp false false rel aud) _)); [|intros claim; cbn beta].
  { apply triple_revalidate; intros ? ?; [intros claim|]; intros [-> ->]; eexists; (split; [reflexivity|at_ok]). }
  do 11 at_step.
  eapply (export_bind _ (λ _, At (mkHeld (Some claim) true true true true true true true rel aud)
                                (mkFlags true true true true false false false false rel aud))); [|intros []; cbn beta].
  { apply triple_begin; intros ? ?; [|intros ok|intros ok]; intros [-> ->]; eexists; (split; [at_calc|at_ok]). }
  at_step.
  eapply export_bind; [apply triple_relay|intros r; cbn beta].
  { intros ? ? [-> ->]; at_ok. }
  { intros ? ? seq data [] [-> ->]; reflexivity. }
  at_step.
  eapply export_bind; [apply triple_close; intros ? ? [-> ->]; at_ok|intros []; cbn beta].
  do 2 at_step.
  eapply (export_bind _ (λ _, At (mkHeld (Some claim) true true true true true false true rel aud) _)); [|intros ev; cbn beta].
  { apply triple_commit; intros ? ?; [intros ev|]; intros [-> ->]; eexists; (split; [reflexivity|at_ok]). }
  do 5 at_step.
  eapply (export_bind _ (λ good : bool, At (mkHeld (Some claim) true true true true true false (negb good) rel aud)
    (mkFlags false true true true true false false false rel aud)));
    [|intros good; cbn beta].
  { apply triple_finalize; intros ? ? good [-> ->]; eexists; (split; [reflexivity|done]). }
  eapply (export_bind _ (λ _, At (mkHeld (Some claim) true true true true true false false rel aud)
    (mkFlags false true true true true false false false rel aud))); [|intros []; cbn beta].
  { apply triple_check; intros ->; intros ? ? [-> ->]; at_ok. }
  do 8 at_step.
  eapply (export_bind _ (λ r, At (mkHeld (Some claim) true false true false true false false (rel || is_Ok r) aud)
    (mkFlags false false false false true true true true rel aud))); [|intros released; cbn beta].
  { apply triple_release; intros ? ? released [-> ->]; eexists; (split; [reflexivity|done]). }
  eapply (export_bind _ (λ _, At (mkHeld (Some claim) true false true false true false false true aud)
    (mkFlags false false false false true true true true rel aud))); [|intros []; cbn beta].
  { apply triple_check; intros Hr; rewrite Hr, ?orb_true_r, ?orb_false_r; intros ? ? [-> ->]; at_ok. }
  do 4 at_step; apply export_ret; intros ? ? [-> ->]; split; [at_ok|]; cbn; rewrite orb_true_r; done.
Qed.

(** *** Every sequence of requests *)

(** The flags before the transfer. *)
Definition idle (f : Flags) : Prop := f = mkFlags false false false false false false false false (released f) (audited f).

Definition resting (s : ExportSt) : Prop :=
  op_running (xs_op s) = false ∧ seen s consistent ∧ (op_finished (xs_op s) = false → idle (flags s)).

(** [m] leaves the status alone, and an idle operation idle. *)
Definition keeps {E A} (m : X E A) : Prop := ∀ s,
  op_running (xs_op (m s).2) = op_running (xs_op s) ∧ op_finished (xs_op (m s).2) = op_finished (xs_op s) ∧
  (idle (flags s) → idle (flags (m s).2)).

Lemma keeps_bind {E A B} (m : X E A) (k : A → X E B) : keeps m → (∀ a, keeps (k a)) → keeps (bind m k).
Proof.
  intros Hm Hk s; unfold bind; specialize (Hm s); destruct (m s) as [[a|e] s1]; [|done].
  destruct Hm as (H1 & H2 & H3), (Hk a s1) as (H4 & H5 & H6); cbn in *; rewrite H4, H5; auto.
Qed.

Lemma keeps_block {A} (cond : Flags → bool) (m : X usb_error A) (k : A → X usb_error unit) g :
  (∀ s, xs_op (m s).2 = xs_op s) → (∀ f, idle f → cond f = true → idle (g f)) →
  (∀ a, k a = setFlags g ∨ ∃ e, k a = throw e) →
  keeps (bind flagsOf (λ f, if cond f then bind m k else ret tt)).
Proof.
  intros Hm Hg Hk s; unfold bind, flagsOf; cbn; destruct (cond _) eqn:Hc; [|done].
  specialize (Hm s); destruct (m s) as [[a|e1] s1]; cbn in *; unfold flags in *; [|rewrite Hm; done].
  destruct (Hk a) as [-> | [e ->]]; cbn; rewrite !Hm; auto.
Qed.

#[local] Ltac idle_absurd := intros f -> Hf; cbn in Hf; rewrite ?andb_false_l in Hf; done.

Lemma call_op {E} x s : xs_op (call (E:=E) x s).2 = xs_op s.
Proof. unfold call; destruct (perform x _); done. Qed.

Lemma cleanup_keeps b : keeps (cleanup b).
Proof.
  intros s; unfold cleanup; destruct (_ && _); [done|]; revert s.
  change (keeps (do _ := cleanupAbort ; do _ := cleanupFinalize ; do _ := cleanupDetach ;
    do _ := cleanupStop ; do _ := cleanupRelease ; cleanupAudit)).
  assert (Hok : ∀ g (ok : bool), bind (check ok CodeCleanupIncomplete) (λ _, setFlags g) = setFlags g ∨
    ∃ e, bind (check ok CodeCleanupIncomplete) (λ _, setFlags g) = throw e) by (intros g []; [left|right; eexists]; reflexivity).
  apply keeps_bind; [eapply (keeps_block (λ f, writer f && _)); [intros; apply call_op|idle_absurd|apply Hok]|intros _].
  apply keeps_bind; [eapply (keeps_block (λ f, destinationOpened f && _)); [|idle_absurd|apply Hok]|intros _].
  { intros s; unfold finalizeCall; destruct (destinationFinalize _); done. }
  apply keeps_bind; [eapply (keeps_block (λ f, attached f && _)); [intros; apply call_op|idle_absurd|apply Hok]|intros _].
  apply keeps_bind; [eapply (keeps_block (λ f, booted f && _)); [intros; apply call_op|idle_absurd|apply Hok]|intros _].
  apply keeps_bind; [eapply (keeps_block (λ f, negb (released f)) releaseCall _ setReleased)|intros _].
  { intros s; unfold releaseCall; destruct (Release _ _ _ _ _) as [[r m] w]; done. }
  { intros f -> _; done. }
  { intros [u|e]; [left|right; eexists]; reflexivity. }
  eapply (keeps_block (λ f, negb (audited f)) _ _ setAudited); [intros; apply call_op|intros f -> _; done|apply Hok].
Qed.

Lemma failAs_ok code label : triple consistent (failAs code label) (λ _ _ _, False) consistent.
Proof.
  eapply export_bind; [apply triple_emit|intros ?; cbn beta]; eapply export_bind; [apply cleanup_ok|intros []; cbn beta].
  apply triple_throw; intros h f H; apply H.
Qed.

Lemma recover_ok f : triple consistent (recover f) (λ _ _ _, False) consistent.
Proof.
  destruct f; [apply failAs_ok|apply failAs_ok| |apply triple_throw; done].
  eapply export_bind; [apply cleanup_ok|intros []; cbn beta]; apply triple_throw; intros h f H; apply H.
Qed.

Lemma recover_never f s r s' : recover f s ≠ (Ok r, s').
Proof.
  assert (Ht : ∀ e s0, cleanupThen e s0 ≠ (Ok r, s')) by (intros e s0; unfold cleanupThen, bind, throw; destruct (cleanup true s0) as [[]]; done).
  destruct f; cbn [recover]; try (unfold failAs, bind at 1; match goal with |- context [emit ?a ?b ?c ?d ?s] => destruct (emit a b c d s) as [[]] end);
    first [apply Ht|done].
Qed.

Lemma idle_at h f :
  idle f → consistent h f → At (mkHeld (h_claim h) (h_isolated h) false (h_offline h) false (h_inspected h) false false (released f) (audited f))
    (mkFlags false false false false false false false false (released f) (audited f)) h f.
Proof.
  intros Hi Hc; split; [|exact Hi]; rewrite Hi in Hc; destruct h, Hc as (? & ? & ? & ? & ? & ?); cbn in *; congruence.
Qed.

Lemma attempt_ok output s :
  idle (flags s) → seen s consistent →
  match attempt output s with (Ok _, s') => seen s' (cleaned 6) | (Err _, s') => seen s' consistent end.
Proof.
  intros Hi (h & Hw & Hc); unfold attempt, runBody.
  pose proof (runSteps_disciplined output (op_options (xs_op s)) (op_enrollment (xs_op s)) (h_claim h) (h_isolated h)
    (h_offline h) (h_inspected h) (released (flags s)) (audited (flags s)) s
    (ex_intro _ h (conj Hw (idle_at h _ Hi Hc)))) as Hb.
  destruct (runSteps _ _ _ s) as [[r|f] s1]; [done|].
  pose proof (recover_ok f s1 Hb) as Hr; destruct (recover f s1) as [[r|e] s2]; [destruct Hr as (? & _ & [])|done].
Qed.

Lemma close_seen (P : held → Flags → Prop) s : seen s P → seen (call (E:=usb_error) CloseSource s).2 P.
Proof.
  intros H; pose proof (triple_call (E:=usb_error) P (λ _, P) P CloseSource) as Hc; unfold triple in Hc; specialize (Hc ltac:(
    intros h f ok HP; exists h; destruct h; done) s H); destruct (call CloseSource s) as [[a|e] s1]; done.
Qed.

Lemma Run_resting source s :
  resting s → resting (Run source s).2 ∧
  match Run source s with (Ok _, s') => seen s' (cleaned 6) | (Err _, _) => True end.
Proof.
  intros (Hr & Hs & Hi); unfold Run; rewrite Hr; cbn [orb]; destruct (op_finished (xs_op s)) eqn:Hf.
  { split; [split; [exact Hr|]; split; [exact Hs|]; cbn; congruence|exact I]. }
  specialize (Hi eq_refl).
  assert (Hend : ∀ (r : result usb_error ExportReceipt) s1, seen s1 consistent → (is_Ok r = true → seen s1 (cleaned 6)) →
    resting (setStatus false true s1) ∧ match r with Ok _ => seen (setStatus false true s1) (cleaned 6) | Err _ => True end)
    by (intros [a|e] s1 H1 H2; (split; [split; [reflexivity|]; split; [exact H1|discriminate 1]|]); [exact (H2 eq_refl)|exact I]).
  destruct source as [output|].
  - pose proof (attempt_ok output (openSource (setStatus true false s)) Hi Hs) as Ha.
    destruct (attempt output _) as [[a|e] s1]; cbv zeta beta iota in *.
    + assert (seen s1 consistent) by (destruct Ha as (h & Hw & Hc & _); exists h; done).
      destruct (xs_closed s1); apply (Hend (Ok a)); auto using close_seen.
    + destruct (xs_closed s1); apply (Hend (Err e)); auto using close_seen; done.
  - pose proof (failAs_ok CodeWriteFailed "USB_EXPORT_INCOMPLETE" (setStatus true false s) Hs) as Ha.
    destruct (failAs _ _ _) as [[a|e] s1]; [destruct Ha as (? & _ & [])|]; apply (Hend (Err e)); done.
Qed.

Lemma Cleanup_resting s :
  resting s → resting (Cleanup s).2 ∧ match Cleanup s with (Ok _, s') => seen s' (cleaned 6) | (Err _, _) => True end.
Proof.
  intros (Hr & Hs & Hi); unfold Cleanup; pose proof (cleanup_keeps false s) as (H1 & H2 & H3).
  pose proof (cleanup_ok false s Hs) as Hc; destruct (cleanup false s) as [[a|e] s1]; cbn [fst snd] in *;
    (split; [split; [congruence|]; split; [|rewrite H2; auto]|done]).
  - destruct Hc as (h & Hw & Hc & _); exists h; done.
  - exact Hc.
Qed.

(** A fresh operation, over the claims and the world. *)
Definition started (o : ExportOperation) (m : ClaimManager) (w : W) : ExportSt := mkExportSt o m w true [].

Lemma started_resting ul options claimID sessionID uid enrollment o m w :
  NewExportOperation ul options claimID sessionID uid enrollment = Ok o → resting (started o m w).
Proof.
  intros H; unfold NewExportOperation in H; destruct (normalizedOptions options); cbn in H; [|done].
  destruct (ValidateEnrollment ul enrollment); cbn in H; [|done]; destruct (_ || _); [done|]; simplify_eq.
  split; [done|]; split; [exists nothing; done|done].
Qed.

Lemma serve_resting requests s : resting s → resting (fold_left serve requests s).
Proof.
  revert s; induction requests as [|[source|] requests IH]; intros s Hs; [done| |]; apply IH;
    [apply Run_resting, Hs|apply Cleanup_resting, Hs].
Qed.

Lemma cleaned_clear s : seen s (cleaned 6) → ∃ h, watch nothing (xs_log s) = Some h ∧ clear_of_device h = true.
Proof.
  intros (h & Hw & _ & H1 & H2 & H3 & H4 & H5 & H6); exists h; split; [done|]; unfold clear_of_device.
  rewrite H1, H2, H3, H4, H5, H6 by lia; done.
Qed.

(** ** A receipt is proved *)

Definition is_event (c : export_call) : bool := match c with Did (SendEvent _) _ => true | _ => false end.

(** The calls other than events. *)
Fixpoint calls (log : list export_call) : list export_call :=
  match log with [] => [] | c :: log => if is_event c then calls log else c :: calls log end.

Fixpoint writes (sequence : Z) (chunks : list (list Z)) : list export_call :=
  match chunks with [] => [] | data :: chunks => Did (WriteChunk sequence data) true :: writes (sequence + 1) chunks end.

Definition transcript (output : ApprovedOutput) (claim : Claim) (chunks : list (list Z)) (ev : DestinationEvidence) : list export_call :=
  [DidRevalidate (Some claim); Did (VerifyHostAndSourceIsolation claim) true; Did BootNetworkless true; Did VerifyNoNetwork true;
   Did (AttachExactUSB claim) true; Did (InspectAttachedUSB claim) true; DidBegin output true true] ++ writes 0 chunks ++
  [Did CloseSource true; DidCommit (ao_Size output) (ao_SourceDigest output) (Some ev); DidFinalize true; Did DetachUSB true;
   Did StopExporter true; DidRelease true; Did LifecycleAuditAbsent true].

Definition durable (output : ApprovedOutput) (ev : DestinationEvidence) : Prop :=
  de_BytesWritten ev = ao_Size output ∧ de_ReceivedDigest ev = ao_SourceDigest output ∧
  de_RereadDigest ev = ao_SourceDigest output ∧ de_FileSynced ev = true ∧ de_FilesystemSynced ev = true ∧ de_AtomicRename ev = true.

Lemma calls_app l1 l2 : calls (l1 ++ l2) = calls l1 ++ calls l2.
Proof. induction l1 as [|c l1 IH]; [done|]; cbn; destruct (is_event c); cbn; rewrite IH; done. Qed.

(** [s'] differs from [s] by the calls [l] and the events; a closed source stays closed. *)
Definition made (s s' : ExportSt) (l : list export_call) : Prop :=
  calls (xs_log s') = calls (xs_log s) ++ l ∧ (xs_closed s = true → xs_closed s' = true).

Lemma made_nil s s' : xs_log s' = xs_log s → xs_closed s' = xs_closed s → made s s' [].
Proof. intros H1 H2; split; [rewrite H1, app_nil_r; done|rewrite H2; done]. Qed.

Lemma made_app s s' l : xs_log s' = xs_log s ++ l → xs_closed s' = xs_closed s → made s s' (calls l).
Proof. intros H1 H2; split; [rewrite H1, calls_app; done|rewrite H2; done]. Qed.

Lemma made_one s s' c : is_event c = false → xs_log s' = xs_log s ++ [c] → xs_closed s' = xs_closed s → made s s' [c].
Proof. intros Hc H1 H2; pose proof (made_app _ _ _ H1 H2) as H; cbn in H; rewrite Hc in H; exact H. Qed.

Lemma made_trans s s1 s2 l1 l2 : made s s1 l1 → made s1 s2 l2 → made s s2 (l1 ++ l2).
Proof. intros [H1 H2] [H3 H4]; split; [rewrite H3, H1, app_assoc; done|auto]. Qed.

Lemma bind_Ok {E A B} (m : X E A) (k : A → X E B) s b s' :
  bind m k s = (Ok b, s') → ∃ a s1, m s = (Ok a, s1) ∧ k a s1 = (Ok b, s').
Proof. unfold bind; destruct (m s) as [[a|e] s1]; [eauto|done]. Qed.

Lemma check_Ok {E} b (e : E) s u s' : check b e s = (Ok u, s') → b = true ∧ s' = s.
Proof. destruct b; unfold check, ret, throw; intros; simplify_eq; done. Qed.

Lemma call_Ok {E} x s ok s' : call (E:=E) x s = (Ok ok, s') → made s s' (calls [Did x ok]).
Proof. unfold call; destruct (perform x _) as [b w]; intros; simplify_eq; apply made_app; done. Qed.

Lemma must_Ok x s u s' : must x s = (Ok u, s') → made s s' (calls [Did x true]).
Proof. intros H; apply bind_Ok in H as (ok & s1 & H1 & H2); apply check_Ok in H2 as [-> ->]; apply (call_Ok _ _ _ _ H1). Qed.

Lemma event_Ok state code current total s u s' : event state code current total s = (Ok u, s') → made s s' [].
Proof.
  intros H; apply bind_Ok in H as (ok & s1 & H1 & H2); apply check_Ok in H2 as [-> ->]; revert H1; unfold emit.
  destruct (_ <? _)%Z; [done|]; intros H%call_Ok; exact H.
Qed.

Lemma setFlags_Ok {E} g s u s' : setFlags (E:=E) g s = (Ok u, s') → made s s' [].
Proof. unfold setFlags; intros; simplify_eq; apply made_nil; done. Qed.

Lemma revalidate_Ok s claim s' : revalidate s = (Ok claim, s') → made s s' [DidRevalidate (Some claim)] ∧
  (Revalidate unicodeLower (xs_claims s) (op_claimID (xs_op s)) (op_sessionID (xs_op s)) (op_ownerUID (xs_op s))
     (op_enrollment (xs_op s)) (xs_world s)).1 = Ok claim.
Proof.
  unfold revalidate; destruct (Revalidate _ _ _ _ _ _ _) as [[c|e] w]; intros; simplify_eq.
  split; [apply made_one|]; done.
Qed.

Lemma begin_Ok output s u s' : begin output s = (Ok u, s') → made s s' [DidBegin output true true].
Proof. unfold begin; destruct (destinationBegin _ _) as [[[] []] w]; cbn; unfold ret, throw; intros; simplify_eq; apply made_one; done. Qed.

Lemma closeSource_Ok s u s' : closeSource s = (Ok u, s') → made s s' [Did CloseSource true] ∧ xs_closed s' = true.
Proof.
  unfold closeSource, bind, call, check, ret, throw; destruct (perform _ _) as [[] w]; cbn; intros; simplify_eq; split; [|done].
  split; [cbn; rewrite calls_app|]; done.
Qed.

Lemma commit_Ok written digest s ev s' :
  commitCall written digest s = (Ok ev, s') → made s s' [DidCommit written digest (Some ev)].
Proof. unfold commitCall; destruct (writerCommit _ _ _) as [[c|] w]; intros; simplify_eq; apply made_one; done. Qed.

Lemma finalize_Ok {E} s good s' : finalizeCall (E:=E) s = (Ok good, s') → made s s' [DidFinalize good].
Proof. unfold finalizeCall; destruct (destinationFinalize _) as [c w]; intros; simplify_eq; apply made_one; done. Qed.

Lemma release_Ok {E} s r s' : releaseCall (E:=E) s = (Ok r, s') → made s s' [DidRelease (is_Ok r)].
Proof. unfold releaseCall; destruct (Release _ _ _ _ _) as [[c m] w]; intros; simplify_eq; apply made_one; done. Qed.

Lemma keepReread_Ok d s u s' : keepReread d s = (Ok u, s') → made s s' [] ∧ op_verifiedReread (xs_op s') = Some d.
Proof. unfold keepReread; intros; simplify_eq; split; [apply made_nil|]; done. Qed.

(** The relay writes exactly the chunks it hashes, in order, within the declared size. *)
Lemma relay_Ok fuel output written sequence hashed s r s' :
  (0 ≤ written ≤ ao_Size output)%Z → (ao_Size output < two64)%Z → (0 ≤ sequence ≤ written)%Z →
  relay fuel output written sequence hashed s = (Ok r, s') →
  ∃ chunks, made s s' (writes sequence chunks) ∧ r.2 = hashed ++ concat chunks ∧ r.1 = (written + len (concat chunks))%Z.
Proof.
  revert written sequence hashed s; induction fuel as [|fuel IH]; intros written sequence hashed s Hw Hs Hq; [done|].
  cbn [relay]; destruct (sourceNext _) as [[seq data| |] w]; [|unfold ret; intros; simplify_eq; exists []|done].
  2: { cbn; rewrite app_nil_r, Z.add_0_r; split; [apply made_nil|]; done. }
  intros H; apply bind_Ok in H as (? & s1 & H1 & H); apply check_Ok in H1 as [Hb ->].
  apply bind_Ok in H as (? & s2 & H2%must_Ok & H); apply bind_Ok in H as (? & s3 & H3%event_Ok & H).
  bool_hyps.
  assert (Hl : (0 < len data)%Z) by (unfold len in *; lia).
  rewrite sub64_small in * by (unfold u64; lia).
  rewrite !add64_small in H by (unfold u64; lia).
  apply IH in H as (chunks & Hm & Hc1 & Hc2); [|lia..].
  exists (data :: chunks); split; [|split].
  - pose proof (made_trans _ _ _ _ _ H2 (made_trans _ _ _ _ _ H3 Hm)) as Hall; cbn in *.
    replace seq with sequence in Hall by lia; exact Hall.
  - cbn; rewrite Hc1, app_assoc; done.
  - cbn; rewrite Hc2; unfold len in *; rewrite length_app; lia.
Qed.

#[local] Ltac add_step Hacc Hstep := apply (made_trans _ _ _ _ _ Hacc) in Hstep; clear Hacc; rename Hstep into Hacc; cbn [calls is_event] in Hacc.

(** One more step of the transfer, whose calls are added to [Hacc]. *)
#[local] Ltac run_step H Hacc :=
  let Hs := fresh "Hs" in
  apply bind_Ok in H as (? & ? & Hs & H);
  first [apply check_Ok in Hs as [Hs ->] | apply event_Ok in Hs; add_step Hacc Hs | apply setFlags_Ok in Hs; add_step Hacc Hs
        | apply must_Ok in Hs; add_step Hacc Hs | apply begin_Ok in Hs; add_step Hacc Hs | apply commit_Ok in Hs; add_step Hacc Hs
        | apply finalize_Ok in Hs; add_step Hacc Hs | apply release_Ok in Hs; add_step Hacc Hs].

Lemma ValidateOutput_size output maxBytes :
  is_Ok (ValidateOutput output maxBytes) = true → ao_Size output ≠ 0%Z ∧ (ao_Size output ≤ maxBytes)%Z.
Proof.
  destruct (ValidateOutput output maxBytes) eqn:H; [intros _|done]; unfold ValidateOutput in H; pass_guards H; bool_hyps; lia.
Qed.

Lemma runSteps_Ok output options enrollment s receipt s' :
  (0 ≤ ao_Size output)%Z → (eo_MaxBytes options ≤ maximumExportBytes)%Z →
  runSteps output options enrollment s = (Ok receipt, s') →
  is_Ok (ValidateOutput output (eo_MaxBytes options)) = true ∧ (ao_Size output ≤ Capacity (en_Identity enrollment))%Z ∧
  receipt = mkExportReceipt ExportReceiptSchemaVersion (EnrollmentID enrollment) (ao_Size output)
              true true true true true true true true true true ∧
  ∃ claim chunks ev,
    (Revalidate unicodeLower (xs_claims s) (op_claimID (xs_op s)) (op_sessionID (xs_op s)) (op_ownerUID (xs_op s))
       (op_enrollment (xs_op s)) (xs_world s)).1 = Ok claim ∧
    made s s' (transcript output claim chunks ev) ∧ xs_closed s' = true ∧
    ao_SourceDigest output = sha256 (concat chunks) ∧ len (concat chunks) = ao_Size output ∧ durable output ev ∧
    op_verifiedReread (xs_op s') = Some (ao_SourceDigest output).
Proof.
  intros Hz Hmax H; unfold runSteps in H; cbv zeta in H.
  assert (Hacc : made s s []) by (apply made_nil; done).
  do 2 run_step H Hacc.
  apply bind_Ok in H as (claim & s1 & [Hr Hclaim]%revalidate_Ok & H); add_step Hacc Hr.
  do 13 run_step H Hacc.
  apply bind_Ok in H as ([written hashed] & s2 & Hr & H).
  apply relay_Ok in Hr as (chunks & Hr & Hh & Hw);
    [|destruct (ValidateOutput_size _ _ Hs); unfold maximumExportBytes, two64 in *; lia..].
  cbn [fst snd] in *; rewrite Z.add_0_l in Hw; add_step Hacc Hr; run_step H Hacc; apply Z.eqb_eq in Hs1; subst written hashed.
  apply bind_Ok in H as (? & s3 & [Hr Hclosed]%closeSource_Ok & H); add_step Hacc Hr.
  assert (Hacc' : made s3 s3 []) by (apply made_nil; done).
  do 2 run_step H Hacc'; apply bool_decide_eq_true in Hs2; rewrite app_nil_l in Hs2, H; rewrite <- Hs2, Hs1 in H.
  apply bind_Ok in H as (ev & s4 & Hr%commit_Ok & H); add_step Hacc' Hr.
  run_step H Hacc'; apply bind_Ok in H as (? & ? & [Hev ->]%check_Ok & H); apply bind_Ok in H as (? & ? & [Hdg ->]%check_Ok & H).
  do 2 run_step H Hacc'; apply bind_Ok in H as (good & ? & Hr%finalize_Ok & H); add_step Hacc' Hr.
  apply bind_Ok in H as (? & ? & [-> ->]%check_Ok & H).
  do 8 run_step H Hacc'; apply bind_Ok in H as (r & ? & Hr%release_Ok & H); add_step Hacc' Hr.
  apply bind_Ok in H as (? & ? & [Hrel ->]%check_Ok & H); rewrite Hrel in Hacc'.
  do 3 run_step H Hacc'; apply bind_Ok in H as (? & s5 & [Hr Hread]%keepReread_Ok & H); add_step Hacc' Hr.
  unfold ret in H; simplify_eq; bool_hyps.
  split; [done|]; split; [lia|]; split; [done|]; exists claim, chunks, ev.
  split; [done|]; split; [|split; [apply Hacc', Hclosed|]].
  - pose proof (made_trans _ _ _ _ _ Hacc Hacc') as Hall; unfold transcript; revert Hall; rewrite <- ?app_assoc, ?app_nil_r; cbn.
    rewrite ?app_nil_r; intros Hall; exact Hall.
  - split; [done|]; split; [done|]; split; [|rewrite Hread; congruence]; unfold durable; repeat split; congruence || lia || done.
Qed.

(** *** The relay loop ends *)

Definition fuelled {A} (m : X failure A) : Prop := ∀ s s', m s ≠ (Err NoFuel, s').

Lemma fuelled_bind {A B} (m : X failure A) (k : A → X failure B) : fuelled m → (∀ a, fuelled (k a)) → fuelled (bind m k).
Proof. intros Hm Hk s s'; unfold bind; specialize (Hm s); destruct (m s) as [[a|e] s1]; [apply Hk|intros [= -> ->]; apply (Hm s'); done]. Qed.

Lemma fuelled_total {A} (m : X failure A) : (∀ s, ∃ a s', m s = (Ok a, s')) → fuelled m.
Proof. intros H s s'; destruct (H s) as (a & s1 & ->); done. Qed.

Lemma fuelled_check b e : e ≠ NoFuel → fuelled (check b e).
Proof. intros He s s'; destruct b; unfold check, ret, throw; congruence. Qed.

Lemma fuelled_must x : fuelled (must x).
Proof.
  apply fuelled_bind; [|intros; apply fuelled_check; done].
  apply fuelled_total; intros s; unfold call; destruct (perform x _); eauto.
Qed.

Lemma fuelled_event state code current total : fuelled (event state code current total).
Proof.
  apply fuelled_bind; [|intros; apply fuelled_check; done].
  apply fuelled_total; intros s; unfold emit, call; destruct (_ <? _)%Z; [|destruct (perform _ _)]; eauto.
Qed.

(** Every chunk has a byte and fits what is left of the declared size. *)
Lemma fuelled_relay fuel output written sequence hashed :
  (0 ≤ written ≤ ao_Size output)%Z → (ao_Size output < two64)%Z → (Z.to_nat (ao_Size output - written) < fuel)%nat →
  fuelled (relay fuel output written sequence hashed).
Proof.
  revert written sequence hashed; induction fuel as [|fuel IH]; intros written sequence hashed Hw Hs Hf; [lia|].
  intros s s'; cbn [relay]; destruct (sourceNext _) as [[seq data| |] w]; [|unfold ret; done|unfold throw; done].
  match goal with |- ?m ?s ≠ _ => generalize s; intros s0; unfold bind at 1, check at 1 end.
  destruct (negb _) eqn:Hb; [cbn|cbn; done]; bool_hyps; rewrite sub64_small in * by (unfold u64; lia).
  revert s0 s'; match goal with |- ∀ s0 s', ?m s0 ≠ _ => change (fuelled m) end.
  apply fuelled_bind; [apply fuelled_must|intros _]; apply fuelled_bind; [apply fuelled_event|intros _].
  apply IH; try done; rewrite add64_small by (unfold u64, len in *; lia); unfold len in *; lia.
Qed.

#[local] Ltac fuel_step :=
  first [apply fuelled_check; done | apply fuelled_must | apply fuelled_event
        | apply fuelled_total; intros ?; unfold setFlags, keepReread, finalizeCall, releaseCall;
          repeat match goal with |- context [let '(_, _) := ?x in _] => destruct x end; eauto ].

Lemma runSteps_fuelled output options enrollment :
  (0 ≤ ao_Size output)%Z → (eo_MaxBytes options ≤ maximumExportBytes)%Z → fuelled (runSteps output options enrollment).
Proof.
  intros Hz Hm s s'; unfold runSteps; cbv zeta; unfold bind at 1, check at 1.
  destruct (is_Ok _) eqn:Hv; [cbn [ret]|done]; apply ValidateOutput_size in Hv as [Hv1 Hv2].
  unfold ret at 1; revert s s'; match goal with |- ∀ s s', ?m s ≠ _ => change (fuelled m) end.
  assert (Hre : fuelled revalidate) by (intros s s'; unfold revalidate; destruct (Revalidate _ _ _ _ _ _ _) as [[]]; done).
  assert (Hbe : fuelled (begin output))
    by (intros s s'; unfold begin; destruct (destinationBegin _ _) as [[[] []] w]; cbn; unfold ret, throw; done).
  assert (Hcl : fuelled closeSource) by (intros s s'; apply fuelled_must).
  assert (Hco : ∀ n d, fuelled (commitCall n d))
    by (intros n d s s'; unfold commitCall; destruct (writerCommit _ _ _) as [[]]; done).
  assert (Hrl : fuelled (relay (S (Z.to_nat (ao_Size output))) output 0 0 []))
    by (apply fuelled_relay; unfold maximumExportBytes, two64 in *; lia).
  repeat (apply fuelled_bind; [first [done | apply Hco | fuel_step]|intros ?]); done.
Qed.

(** ** The claims *)

Lemma NewExportOperation_Ok ul options claimID sessionID uid enrollment o :
  NewExportOperation ul options claimID sessionID uid enrollment = Ok o →
  (eo_MaxBytes (op_options o) ≤ maximumExportBytes)%Z ∧ enrollmentIDPattern (EnrollmentID enrollment) = true ∧
  o = mkOperation claimID sessionID uid enrollment (op_options o) 0 noFlags false false None.
Proof.
  intros H; unfold NewExportOperation in H; destruct (normalizedOptions options) as [n|] eqn:Hn; cbn in H; [|done].
  destruct (ValidateEnrollment ul enrollment) as [u|] eqn:Hv; cbn in H; [|done]; destruct (_ || _); [done|]; simplify_eq.
  split; [|split; [|done]].
  - unfold normalizedOptions in Hn; pass_guards Hn; simplify_eq; cbn in *; bool_hyps; lia.
  - unfold ValidateEnrollment in Hv; pass_guards Hv; bool_hyps; done.
Qed.

(** C23: The discipline of the device.  For every sequence of runs and cleanups of
    an export operation, whatever the exporter, the destination, the source and
    the event sink answer, the calls never break the discipline [observe] states:
    the exporter starts only after the isolation of the claimed device is
    verified, the device is attached only to an exporter without a network,
    written only after its identity was inspected, never detached while its file
    system is open or a partial file remains, the exporter is never stopped with
    the device attached, the claim is released only when the exporter is stopped
    and the final audit made only after the release.  A run or a cleanup that
    succeeds leaves nothing held. *)
Theorem usb_is_never_pulled ul options claimID sessionID uid enrollment o m w requests :
  NewExportOperation ul options claimID sessionID uid enrollment = Ok o →
  let s := fold_left serve requests (started o m w) in
  (∃ h, watch nothing (xs_log s) = Some h) ∧
  (∀ source receipt s', Run source s = (Ok receipt, s') → ∃ h, watch nothing (xs_log s') = Some h ∧ clear_of_device h = true) ∧
  (∀ s', Cleanup s = (Ok tt, s') → ∃ h, watch nothing (xs_log s') = Some h ∧ clear_of_device h = true).
Proof.
  intros Ho s; pose proof (serve_resting requests _ (started_resting _ _ _ _ _ _ _ m w Ho)) as Hs; fold s in Hs.
  split; [|split].
  - destruct Hs as (_ & (h & Hw & _) & _); eauto.
  - intros source receipt s' H; destruct (Run_resting source s Hs) as [_ Hr]; rewrite H in Hr; apply cleaned_clear, Hr.
  - intros s' H; destruct (Cleanup_resting s Hs) as [_ Hr]; rewrite H in Hr; apply cleaned_clear, Hr.
Qed.

(** A receipt is proved.  The transfer of an output never runs the relay loop
    out of its bound; and a run that returns a receipt was given an eligible
    output that fits the device, the claim held when it started, the calls were
    exactly those of [transcript] in that order with every one succeeding, the
    bytes written are the declared number and have the declared digest, the
    exporter received and reread that digest after syncing and renaming the file,
    the receipt is complete, and only then is the reread digest available. *)
Theorem export_receipt_is_proved ul options claimID sessionID uid enrollment o m w output :
  NewExportOperation ul options claimID sessionID uid enrollment = Ok o → (0 ≤ ao_Size output)%Z →
  (∀ s', runBody output (started o m w) ≠ (Err NoFuel, s')) ∧
  (∀ receipt s', Run (Some output) (started o m w) = (Ok receipt, s') →
     is_Ok (ValidateOutput output (eo_MaxBytes (op_options o))) = true ∧
     (ao_Size output ≤ Capacity (en_Identity enrollment))%Z ∧ ValidateReceipt receipt = true ∧
     er_BytesWritten receipt = ao_Size output ∧ er_EnrollmentID receipt = EnrollmentID enrollment ∧
     VerifiedRereadDigest s' = Some (ao_SourceDigest output) ∧
     ∃ claim chunks ev,
       (Revalidate unicodeLower m claimID sessionID uid enrollment w).1 = Ok claim ∧
       calls (xs_log s') = transcript output claim chunks ev ∧
       sha256 (concat chunks) = ao_SourceDigest output ∧ len (concat chunks) = ao_Size output ∧ durable output ev).
Proof.
  intros Ho Hz; destruct (NewExportOperation_Ok _ _ _ _ _ _ _ Ho) as (Hmax & Hid & Heq).
  split; [intros s'; unfold runBody; apply runSteps_fuelled; done|].
  intros receipt s'; unfold Run; rewrite Heq; cbn [started xs_op op_running op_finished orb]; unfold attempt, runBody.
  destruct (runSteps _ _ _ _) as [[r|f] s1] eqn:Hr.
  - apply runSteps_Ok in Hr as (Hv & Hcap & -> & claim & chunks & ev & Hcl & [Hm _] & Hclosed & Hd & Hl & Hev & Hread); [|done..].
    rewrite Hclosed; intros [= <- <-]; cbn in Hm.
    repeat (split; [done|]); split.
    { unfold ValidateReceipt; cbn; rewrite Hid; destruct (ValidateOutput_size _ _ Hv); cbn.
      rewrite (proj2 (Z.eqb_neq _ _)) by done; done. }
    repeat (split; [done|]); exists claim, chunks, ev; done.
  - pose proof (recover_never f s1) as Hn; destruct (recover f s1) as [[r|e] s2]; [destruct (Hn r s2); done|].
    destruct (xs_closed s2); intros [=].
Qed.
End Operation.

(** ** Witnesses *)

(** A dock whose source has the given chunks left, whose first detachment fails
    when it is stuck, and whose destination keeps what is written to it. *)
Record Dock := mkDock { dock_chunks : list (list Z); dock_next : Z; dock_stuck : bool; dock_file : list Z }.

#[global] Instance dock_adapters : UsbAdapters Dock := {
  kernelSnapshot w := (Some [demoStick; otherStick], w);
  adapterAcquire _ w := (Some 7%nat, None, w);
  adapterRelease _ w := (Ok tt, w);
  adapterAudit _ w := (Ok tt, w);
  randomClaimID w := (Some "usbclaim-1", w);
  contextErr _ := None
}.

#[global] Instance dock_world : ExportWorld Dock := {
  perform x w :=
    match x with
    | DetachUSB => (negb (dock_stuck w), mkDock (dock_chunks w) (dock_next w) false (dock_file w))
    | WriteChunk _ data => (true, mkDock (dock_chunks w) (dock_next w) (dock_stuck w) (dock_file w ++ data))
    | _ => (true, w)
    end;
  destinationBegin _ w := ((true, true), w);
  writerCommit n _ w := (Some (mkEvidence (len (dock_file w)) (sha256 (dock_file w)) (sha256 (dock_file w)) true true true), w);
  destinationFinalize w := (Some (mkFinalEvidence true true), w);
  sourceNext w :=
    match dock_chunks w with
    | [] => (NextEOF, w)
    | data :: rest => (Chunk (dock_next w) data, mkDock rest (dock_next w + 1) (dock_stuck w) (dock_file w))
    end
}.

Definition demoBytes : list Z := [104; 101; 108; 108; 111]%Z.

Definition demoOutput : ApprovedOutput :=
  mkOutput SourceScanner "output-0001" "hello.txt" "text/plain" 5 (sha256 demoBytes) true true true true false false false.

Definition demoOptions : ExportOptions := mkOptions 0 0 0.

Definition demoOperation : ExportOperation :=
  mkOperation "usbclaim-1" demoSessionID 1000 demoEnrollment (mkOptions 4294967296 (7200 * second) (30 * second)) 0 noFlags false false None.

Definition demoDock (stuck : bool) : Dock := mkDock [[104; 101]%Z; [108; 108; 111]%Z] 0 stuck [].

Definition demoDockClaims : ClaimManager :=
  (Claim_ (λ cp, cp) NewClaimManager demoSessionID 1000 demoEnrollment (demoDock false)).1.2.

(** A device that refuses to detach once: the run fails and its cleanup, which
    detaches the device again, leaves nothing held; so does a later cleanup. *)
#[local] Abbreviation demoStuckRun :=
  (fold_left (serve (λ cp, cp)) [DoRun (Some demoOutput)] (started demoOperation demoDockClaims (demoDock true))).

#[local] Abbreviation demoStuckCleanup := (Cleanup demoStuckRun).

Lemma usb_is_never_pulled_witness :
  (xs_log demoStuckRun ≫= λ c, match c with Did DetachUSB ok => [ok] | _ => [] end) = [false; true] ∧
  ∃ h, watch nothing (xs_log demoStuckCleanup.2) = Some h ∧ clear_of_device h = true.
Proof.
  split; [vm_compute; reflexivity|].
  assert (Hok : is_Ok demoStuckCleanup.1 = true) by (vm_compute; reflexivity).
  destruct (usb_is_never_pulled (λ cp, cp) (λ cp, cp) demoOptions "usbclaim-1" demoSessionID 1000 demoEnrollment demoOperation
    demoDockClaims (demoDock true) [DoRun (Some demoOutput)] ltac:(vm_compute; reflexivity)) as (_ & _ & Hc).
  cbv zeta in Hc; specialize (Hc demoStuckCleanup.2).
  assert (Heq : demoStuckCleanup = (Ok tt, demoStuckCleanup.2)) by (destruct demoStuckCleanup as [[[]|e] s']; [done|discriminate Hok]).
  exact (Hc Heq).
Defined.

#[local] Abbreviation demoRun :=
  (Run (λ cp, cp) (Some demoOutput) (started demoOperation demoDockClaims (demoDock false))).

Lemma export_receipt_is_proved_witness :
  is_Ok demoRun.1 = true ∧ dock_file (xs_world demoRun.2) = demoBytes ∧
  VerifiedRereadDigest demoRun.2 = Some (ao_SourceDigest demoOutput).
Proof.
  assert (Hr : is_Ok demoRun.1 = true) by (vm_compute; reflexivity); split; [exact Hr|]; split; [vm_compute; reflexivity|].
  destruct (export_receipt_is_proved (λ cp, cp) (λ cp, cp) demoOptions "usbclaim-1" demoSessionID 1000 demoEnrollment demoOperation
    demoDockClaims (demoDock false) demoOutput ltac:(vm_compute; reflexivity) ltac:(vm_compute; discriminate)) as [_ Hp].
  assert (Heq : ∃ receipt, demoRun = (Ok receipt, demoRun.2)) by (destruct demoRun as [[receipt|e] s']; [by eexists|discriminate Hr]).
  destruct Heq as [receipt Heq]; destruct (Hp receipt demoRun.2 Heq) as (_ & _ & _ & _ & _ & Hread & _); exact Hread.
Defined.
