(* ===== verification/ScanService.v ===== *)
(** * The guest scanner service

    Models [src/internal/guest/scanner_service.go]: the phases of a scan as one
    guest process serves them, from current definitions to the signed report,
    and the export of an approved output.  The tools behind the phases, the
    policies, the clock, the streams and the output reader are an interface over
    a world in which any call may fail; contexts end at any moment.  [sv_log] is
    a ghost record of what the tools answered and of what was sent, in order.
    Requests are served one at a time, as the service's lock makes them. *)

From Stdlib Require Import ZArith Lia Ascii.
From stdpp Require Import strings base tactics option gmap relations sorting list.
From S2P Require Import GuestBoundary Workspace ScanPolicy.
From S2P Require Import Prelude GoText Sha256 SessionModel Transfer ScanReport.

Open Scope string_scope.
Open Scope list_scope.

Definition second : Z := 1000000000.
Definition defaultScannerCleanupTimeout : Z := 5 * second.
Definition maximumScannerCleanupTimeout : Z := 30 * second.
Definition defaultScannerControlTimeout : Z := 2 * minute.
Definition maximumScannerControlTimeout : Z := 10 * minute.
Definition defaultScannerExportTimeout : Z := 30 * minute.
Definition maximumScannerExportTimeout : Z := 24 * hour.
Definition defaultScannerExportBytes : Z := 1099511627776.
Definition maximumScannerExportBytes : Z := 4398046511104.

Inductive scannerRPCState := scannerStateBoot | scannerStateDefinitionsVerified | scannerStateOfflineVerified
  | scannerStateInventoryComplete | scannerStateScanComplete | scannerStateReportComplete | scannerStateClosed.

#[global] Instance scannerRPCState_eq_dec : EqDecision scannerRPCState.
Proof. solve_decision. Defined.

(** ** What the phases produce *)

Record InventoryEntry := mkEntry {
  ie_RelativePath : string;
  ie_SizeBytes : Z;
  ie_SHA256 : string;
  ie_DetectedMIME : string;
  ie_ExtensionMIME : string;
  ie_ExtensionAgreement : bool;
  ie_Mode : Z;
  ie_Device : Z;
  ie_Inode : Z
}.

Record Inventory := mkInventory { iv_Entries : list InventoryEntry; iv_TotalBytes : Z }.

Record ScanSummary := mkScanSummary { sm_Findings : list Finding; sm_ScannedFiles : Z; sm_Complete : bool }.

Record ScannerReconstruction := mkReconstruction {
  rc_Archives : list ReportArchive;
  rc_Findings : list Finding;
  rc_Outputs : list ReportSanitizedOutput;
  rc_Tools : list ToolEvidence;
  rc_ArchiveInspectionComplete : bool;
  rc_ReconstructionComplete : bool;
  rc_OutputRescanComplete : bool
}.

Definition noInventory : Inventory := mkInventory [] 0.
Definition noSummary : ScanSummary := mkScanSummary [] 0 false.
Definition noReconstruction : ScannerReconstruction := mkReconstruction [] [] [] [] false false false.
Definition noReport : AuthenticatedReport := mkEnvelope "" [] false.
Definition noReceipt : UpdateReceipt := mkReceipt "" (mkEvidence "" "" (mkTime 0 0) false false false).
Definition noBoot : BootEvidence := mkBoot (PhaseOther "") "" false [] (mkQuarantine false false []).

(** ** Errors *)

Inductive Code := Canceled | InvalidArgument | Deadline | NotFound | ResourceExhausted | FailedPrecondition | Unavailable | Internal.

#[global] Instance Code_eq_dec : EqDecision Code.
Proof. solve_decision. Defined.

(** An error of a tool: a context's, a [scan.Error] with whether it has its code,
    message and remediation, or any other. *)
Inductive tool_error := ContextCanceled | ContextDeadline | ScanError (code : string) (explained : bool) | OtherError.

#[global] Instance tool_error_eq_dec : EqDecision tool_error.
Proof. solve_decision. Defined.

(** An error of a handler: a status with its detail, an error of the guest's
    context check, or one of the stream passed on. *)
Inductive scanner_error :=
| StatusError (grpc : Code) (code : string) (retryable : bool) (state : scannerRPCState)
| ContextError (e : guest_error)
| StreamError (grpc : Code)
| OutOfFuel.

Definition scannerGRPCCode (code : string) : Code :=
  if bool_decide (code = "SCAN_CANCELLED") then Canceled
  else if bool_decide (code = "SCAN_TIMEOUT") then Deadline
  else if Contains code "LIMIT" then ResourceExhausted
  else if Contains code "UNAVAILABLE" || Contains code "UPDATE_FAILED" then Unavailable
  else if Contains code "INVALID" || Contains code "PATH_UNSAFE" then InvalidArgument
  else FailedPrecondition.

Definition rpcError (state : scannerRPCState) (e : tool_error) : scanner_error :=
  match e with
  | ContextCanceled => StatusError Canceled "SCAN_CANCELLED" true state
  | ContextDeadline => StatusError Deadline "SCAN_TIMEOUT" true state
  | ScanError code explained =>
      if bool_decide (code = "") || negb explained then StatusError Internal "SCAN_ERROR" false state
      else
        let grpc := scannerGRPCCode code in
        StatusError grpc code (bool_decide (grpc = Unavailable) || bool_decide (grpc = Deadline) || bool_decide (grpc = Canceled)) state
  | OtherError => StatusError Internal "SCAN_ERROR" false state
  end.

Definition contextError (c : context) : option tool_error :=
  match c with Live => None | Cancelled => Some ContextCanceled | DeadlineExceeded => Some ContextDeadline end.

(** [operationError] *)
Definition operationError (c : context) (e : tool_error) : tool_error := default e (contextError c).

Definition streamError (state : scannerRPCState) (c : context) (grpc : Code) : scanner_error :=
  match contextError c with
  | Some e => rpcError state e
  | None =>
      match grpc with
      | Canceled => rpcError state ContextCanceled
      | Deadline => rpcError state ContextDeadline
      | _ => StatusError Unavailable "SCAN_STREAM_FAILED" true state
      end
  end.

(** ** Pure parts *)

Definition hasBlockingFinding (findings : list Finding) : bool := existsb isBlocking findings.

Definition validScannerCode (code : string) : bool :=
  negb (bool_decide (code = "")) && (slen code <=? 64)%Z &&
  string_forallb (λ c, is_upper c || is_digit c || char_eqb c "_") code.

Definition goodVerdict (f : Finding) : bool :=
  negb (bool_decide (f_RelativePath f = "")) && validScannerCode (f_Code f) &&
  (if bool_decide (f_Code f = "CLAMAV_CLEAN") then bool_decide (f_Severity f = SeverityInfo)
   else bool_decide (f_Severity f = SeverityBlocking)).

(** The loop over the findings, with the paths seen. *)
Fixpoint verdictsSeen (seen : list string) (findings : list Finding) : result tool_error (list string) :=
  match findings with
  | [] => Ok seen
  | f :: rest =>
      fail_if (negb (goodVerdict f)) with (ScanError "SCAN_ERROR" true) ;;
      fail_if (bool_decide (f_RelativePath f ∈ seen)) with (ScanError "SCAN_ERROR" true) ;;
      verdictsSeen (f_RelativePath f :: seen) rest
  end.

Definition validateScanSummary (inventory : Inventory) (summary : ScanSummary) : result tool_error unit :=
  fail_if (negb (sm_Complete summary) || negb (sm_ScannedFiles summary =? len (iv_Entries inventory))%Z ||
           negb (len (sm_Findings summary) =? len (iv_Entries inventory))%Z) with (ScanError "SCAN_FILE_SKIPPED" true) ;;
  seen <-! verdictsSeen [] (sm_Findings summary) ;;
  fail_if (negb (forallb (λ e, bool_decide (ie_RelativePath e ∈ seen)) (iv_Entries inventory)))
    with (ScanError "SCAN_FILE_SKIPPED" true) ;;
  Ok tt.

(** The verdict map; a later finding replaces an earlier one. *)
Definition verdicts (findings : list Finding) : gmap string string :=
  foldl (λ m f, <[f_RelativePath f := f_Code f]> m) ∅ findings.

Definition reportInput (verdict : string) (e : InventoryEntry) : ReportInput :=
  mkInput (ie_RelativePath e) (ie_SizeBytes e) (ie_SHA256 e) (ie_DetectedMIME e) (ie_ExtensionMIME e) (ie_ExtensionAgreement e) verdict.

Fixpoint collectInputs (m : gmap string string) (entries : list InventoryEntry) : result tool_error (list ReportInput) :=
  match entries with
  | [] => Ok []
  | e :: rest =>
      let verdict := default "" (m !! ie_RelativePath e) in
      fail_if (bool_decide (verdict = "")) with (ScanError "REPORT_INCOMPLETE" true) ;;
      inputs <-! collectInputs m rest ;;
      Ok (reportInput verdict e :: inputs)
  end.

(** [sort.Slice] by a text key.  It is not stable, but every sorted list goes to
    [ValidateReport], which refuses equal keys. *)
Definition keyed_le {A} (key : A → string) (a b : A) : Prop := string_le (key a) (key b).

#[global] Instance keyed_le_dec {A} (key : A → string) : RelDecision (keyed_le key).
Proof. intros a b. unfold keyed_le. apply _. Defined.

Definition sortBy {A} (key : A → string) (l : list A) : list A := merge_sort (keyed_le key) l.

Definition reportInputs (inventory : Inventory) (summary : ScanSummary) : result tool_error (list ReportInput) :=
  inputs <-! collectInputs (verdicts (sm_Findings summary)) (iv_Entries inventory) ;;
  Ok (sortBy in_LogicalName inputs).

Definition archive_le (a b : ReportArchive) : Prop :=
  if bool_decide (ra_SourceSHA256 a = ra_SourceSHA256 b) then (ra_Depth a ≤ ra_Depth b)%Z
  else string_le (ra_SourceSHA256 a) (ra_SourceSHA256 b).

#[global] Instance archive_le_dec : RelDecision archive_le.
Proof. intros a b. unfold archive_le. destruct (bool_decide _); apply _. Defined.

Definition toolKey (t : ToolEvidence) : string := te_Name t +:+ String "000" (te_Version t).

#[global] Instance ToolEvidence_eq_dec : EqDecision ToolEvidence.
Proof. solve_decision. Defined.

(** A value is kept when the last kept one differs from it. *)
Fixpoint compactTools (previous : option ToolEvidence) (l : list ToolEvidence) : list ToolEvidence :=
  match l with
  | [] => []
  | t :: rest => if bool_decide (previous = Some t) then compactTools previous rest else t :: compactTools (Some t) rest
  end.

Definition canonicalTools (values : list ToolEvidence) : list ToolEvidence := compactTools None (sortBy toolKey values).

Definition validScannerToolIdentity (value : string) : bool :=
  negb (slen value =? 0)%Z && (slen value <=? 256)%Z && ValidString value &&
  string_forallb (λ c, negb ((N_of_ascii c <? 32)%N || (N_of_ascii c =? 127)%N)) value.

Fixpoint validTools (previous : option ToolEvidence) (l : list ToolEvidence) : bool :=
  match l with
  | [] => true
  | t :: rest =>
      validScannerToolIdentity (te_Name t) && validScannerToolIdentity (te_Version t) &&
      negb (match previous with Some p => bool_decide (te_Name p = te_Name t) | None => false end) && validTools (Some t) rest
  end.

Definition validateConfiguredScannerTools (values : list ToolEvidence) : result string (list ToolEvidence) :=
  fail_if ((len values =? 0)%Z || (256 <? len values)%Z) with "scanner service requires bounded tool evidence" ;;
  let tools := canonicalTools values in
  fail_if (negb (length tools =? length values)%nat) with "scanner service tool evidence contains duplicates" ;;
  fail_if (negb (validTools None tools)) with "scanner service tool evidence is invalid" ;;
  Ok tools.

(** An appended slice is nil when it is empty. *)
Definition appended {A} (l : list A) : slice A := if isNil l then None else Some l.

(** ** The service *)

Record ScannerServiceConfig := mkConfig {
  cf_Identity : Identity;
  cf_Adapters : bool;            (* every adapter is given *)
  cf_Tools : list ToolEvidence;
  cf_CleanupTimeout : Z;
  cf_ControlTimeout : Z;
  cf_ExportTimeout : Z;
  cf_MaxExportBytes : Z
}.

Record ScannerService := mkService {
  ss_identity : Identity;
  ss_reportKey : Token;
  ss_tools : list ToolEvidence;
  ss_cleanupTimeout : Z;
  ss_controlTimeout : Z;
  ss_exportTimeout : Z;
  ss_maxExportBytes : Z;
  ss_state : scannerRPCState;
  ss_sessionID : string;
  ss_policyName : string;
  ss_startedAt : Time;
  ss_receipt : UpdateReceipt;
  ss_offline : BootEvidence;
  ss_inventory : Inventory;
  ss_scanSummary : ScanSummary;
  ss_reconstructed : ScannerReconstruction;
  ss_report : AuthenticatedReport;
  ss_closed : bool
}.

Definition defaulted (value standard : Z) : Z := if (value =? 0)%Z then standard else value.

Definition NewScannerService (config : ScannerServiceConfig) (reportKey : Token) : result string ScannerService :=
  fail_if (negb (bool_decide (id_Role (cf_Identity config) = RoleScanner)))
    with "scanner service requires the scanner compiled identity" ;;
  fail_if (negb (is_Ok (ValidateIdentity (cf_Identity config)))) with "scanner identity" ;;
  fail_if (match reportKey with TokenLive _ => false | _ => true end) with "scanner report capability is required" ;;
  fail_if (negb (cf_Adapters config)) with "scanner service requires every typed phase adapter" ;;
  tools <-! validateConfiguredScannerTools (cf_Tools config) ;;
  let cleanupTimeout := defaulted (cf_CleanupTimeout config) defaultScannerCleanupTimeout in
  fail_if ((cleanupTimeout <? millisecond)%Z || (maximumScannerCleanupTimeout <? cleanupTimeout)%Z)
    with "scanner cleanup timeout is outside supported bounds" ;;
  let controlTimeout := defaulted (cf_ControlTimeout config) defaultScannerControlTimeout in
  fail_if ((controlTimeout <? millisecond)%Z || (maximumScannerControlTimeout <? controlTimeout)%Z)
    with "scanner control timeout is outside supported bounds" ;;
  let exportTimeout := defaulted (cf_ExportTimeout config) defaultScannerExportTimeout in
  fail_if ((exportTimeout <? millisecond)%Z || (maximumScannerExportTimeout <? exportTimeout)%Z)
    with "scanner export timeout is outside supported bounds" ;;
  let maxExportBytes := defaulted (cf_MaxExportBytes config) defaultScannerExportBytes in
  fail_if (maximumScannerExportBytes <? maxExportBytes)%Z with "scanner export bound exceeds the supported maximum" ;;
  Ok (mkService (cf_Identity config) reportKey tools cleanupTimeout controlTimeout exportTimeout maxExportBytes
        scannerStateBoot "" "" (mkTime 0 0) noReceipt noBoot noInventory noSummary noReconstruction noReport false).

(** The key a token holds. *)
Definition keyOf (t : Token) : option (list Z) := match t with TokenLive bytes => Some bytes | _ => None end.

(** Updates of one or a few fields. *)
Definition with_session (id : string) (s : ScannerService) : ScannerService :=
  mkService (ss_identity s) (ss_reportKey s) (ss_tools s) (ss_cleanupTimeout s) (ss_controlTimeout s) (ss_exportTimeout s)
    (ss_maxExportBytes s) (ss_state s) id (ss_policyName s) (ss_startedAt s) (ss_receipt s) (ss_offline s) (ss_inventory s)
    (ss_scanSummary s) (ss_reconstructed s) (ss_report s) (ss_closed s).
Definition with_definitions (state : scannerRPCState) (receipt : UpdateReceipt) (s : ScannerService) : ScannerService :=
  mkService (ss_identity s) (ss_reportKey s) (ss_tools s) (ss_cleanupTimeout s) (ss_controlTimeout s) (ss_exportTimeout s)
    (ss_maxExportBytes s) state (ss_sessionID s) (ss_policyName s) (ss_startedAt s) receipt (ss_offline s) (ss_inventory s)
    (ss_scanSummary s) (ss_reconstructed s) (ss_report s) (ss_closed s).
Definition with_offline (evidence : BootEvidence) (startedAt : Time) (s : ScannerService) : ScannerService :=
  mkService (ss_identity s) (ss_reportKey s) (ss_tools s) (ss_cleanupTimeout s) (ss_controlTimeout s) (ss_exportTimeout s)
    (ss_maxExportBytes s) scannerStateOfflineVerified (ss_sessionID s) (ss_policyName s) startedAt (ss_receipt s) evidence
    (ss_inventory s) (ss_scanSummary s) (ss_reconstructed s) (ss_report s) (ss_closed s).
Definition with_inventory (inventory : Inventory) (policyName : string) (s : ScannerService) : ScannerService :=
  mkService (ss_identity s) (ss_reportKey s) (ss_tools s) (ss_cleanupTimeout s) (ss_controlTimeout s) (ss_exportTimeout s)
    (ss_maxExportBytes s) scannerStateInventoryComplete (ss_sessionID s) policyName (ss_startedAt s) (ss_receipt s)
    (ss_offline s) inventory (ss_scanSummary s) (ss_reconstructed s) (ss_report s) (ss_closed s).
Definition with_summary (summary : ScanSummary) (s : ScannerService) : ScannerService :=
  mkService (ss_identity s) (ss_reportKey s) (ss_tools s) (ss_cleanupTimeout s) (ss_controlTimeout s) (ss_exportTimeout s)
    (ss_maxExportBytes s) scannerStateScanComplete (ss_sessionID s) (ss_policyName s) (ss_startedAt s) (ss_receipt s)
    (ss_offline s) (ss_inventory s) summary (ss_reconstructed s) (ss_report s) (ss_closed s).
Definition with_reconstructed (reconstructed : ScannerReconstruction) (s : ScannerService) : ScannerService :=
  mkService (ss_identity s) (ss_reportKey s) (ss_tools s) (ss_cleanupTimeout s) (ss_controlTimeout s) (ss_exportTimeout s)
    (ss_maxExportBytes s) (ss_state s) (ss_sessionID s) (ss_policyName s) (ss_startedAt s) (ss_receipt s) (ss_offline s)
    (ss_inventory s) (ss_scanSummary s) reconstructed (ss_report s) (ss_closed s).
Definition with_report (report : AuthenticatedReport) (s : ScannerService) : ScannerService :=
  mkService (ss_identity s) (ss_reportKey s) (ss_tools s) (ss_cleanupTimeout s) (ss_controlTimeout s) (ss_exportTimeout s)
    (ss_maxExportBytes s) scannerStateReportComplete (ss_sessionID s) (ss_policyName s) (ss_startedAt s) (ss_receipt s)
    (ss_offline s) (ss_inventory s) (ss_scanSummary s) (ss_reconstructed s) report (ss_closed s).
Definition closedService (s : ScannerService) : ScannerService :=
  mkService (ss_identity s) (ss_reportKey s) (ss_tools s) (ss_cleanupTimeout s) (ss_controlTimeout s) (ss_exportTimeout s)
    (ss_maxExportBytes s) scannerStateClosed (ss_sessionID s) (ss_policyName s) (ss_startedAt s) (ss_receipt s) (ss_offline s)
    noInventory noSummary noReconstruction noReport true.

(** [buildReport], at the time its clock shows. *)
Definition buildReport (s : ScannerService) (sessionID : string) (selected : ScanPolicy.Policy) (completedAt : Time) :
    result tool_error ScanReport :=
  fail_if (negb (rc_ArchiveInspectionComplete (ss_reconstructed s)) || negb (rc_ReconstructionComplete (ss_reconstructed s)) ||
           negb (rc_OutputRescanComplete (ss_reconstructed s))) with (ScanError "REPORT_INCOMPLETE" true) ;;
  inputs <-! reportInputs (ss_inventory s) (ss_scanSummary s) ;;
  let findings := sortBy findingKey (sm_Findings (ss_scanSummary s) ++ rc_Findings (ss_reconstructed s)) in
  let archives := merge_sort archive_le (rc_Archives (ss_reconstructed s)) in
  let outputs := sortBy so_OutputID (rc_Outputs (ss_reconstructed s)) in
  let tools := canonicalTools (ss_tools s ++ rc_Tools (ss_reconstructed s)) in
  let blocked := hasBlockingFinding findings in
  let definitions := ur_Definitions (ss_receipt s) in
  let report := mkReport ScanReportSchemaVersion sessionID (p_name selected) (ss_startedAt s) completedAt
    (if After completedAt (ss_startedAt s) then Z.quot (Sub completedAt (ss_startedAt s)) millisecond else 0)
    (mkScanner (id_ImageDigest (ss_identity s)) (id_SourceCommit (ss_identity s)) (id_GuestdVersion (ss_identity s)))
    (mkReportDefinitions (de_EngineVersion definitions) (de_DatabaseVersion definitions)
       (mkTime (t_nanos (de_UpdatedAt definitions)) 0) (de_Official definitions) (de_Compatible definitions))
    (mkIsolation true true (Some quarantineOptions)) (mkPhases true true true true true true true)
    (Some inputs) (appended archives) (appended findings) (if blocked then None else appended outputs) (appended tools)
    (if blocked then "rejected" else "approved") true in
  match ValidateReport report with
  | Ok _ => Ok report
  | Err code => Err (ScanError code true)
  end.

(** ** The interface *)

Inductive ScanEvent :=
| ProgressEvent (operation : string) (completed total : Z) (unit : string) (approved complete : bool)
| FindingEvent (code : string) (blocking : bool).

(** The context of an operation, with its own deadline, and that of the stream. *)
Inductive scope := OfOperation | OfStream.

Class ScannerWorld (W : Type) := {
  definitionsUpdate : W → result tool_error UpdateReceipt * W;
  definitionsStatus : W → result tool_error UpdateReceipt * W;
  isolationVerify : UpdateReceipt → W → result tool_error BootEvidence * W;
  inventoryTool : ScanPolicy.Policy → W → result tool_error Inventory * W;
  malwareTool : Inventory → ScanPolicy.Policy → W → result tool_error ScanSummary * W;
  reconstructTool : Inventory → ScanSummary → ScanPolicy.Policy → W → result tool_error ScannerReconstruction * W;
  reconstructCleanup : W → option tool_error * W;
  openApproved : string → W → result tool_error bool * W;               (* whether there is a reader *)
  policiesResolve : string → W → option ScanPolicy.Policy * W;
  scannerNow : W → Time * W;
  contextNow : scope → W → context * W;
  sendEvent : ScanEvent → W → option Code * W;                           (* [None]: sent *)
  sendFrame : Workspace.TransferFrame → W → option Code * W;
  readerTake : Z → W → list Z * W;            (* what the reader has, up to the number asked *)
  readerExtra : W → (list Z * readEnd) * W;   (* one [Read] of one byte *)
  readerClose : W → bool * W
}.

Inductive scan_call :=
| DidUpdate (r : result tool_error UpdateReceipt)
| DidStatus (r : result tool_error UpdateReceipt)
| DidVerify (receipt : UpdateReceipt) (r : result tool_error BootEvidence)
| DidInventory (p : ScanPolicy.Policy) (r : result tool_error Inventory)
| DidScan (inventory : Inventory) (p : ScanPolicy.Policy) (r : result tool_error ScanSummary)
| DidReconstruct (inventory : Inventory) (summary : ScanSummary) (p : ScanPolicy.Policy) (r : result tool_error ScannerReconstruction)
| DidCleanup (ok : bool)
| DidOpen (outputID : string) (ok : bool)
| DidClose (ok : bool)
| SentEvent (event : ScanEvent) (ok : bool)
| SentFrame (frame : Workspace.TransferFrame) (ok : bool).

Record ScannerRequest := mkScannerRequest { sr_Context : option GuestContext; sr_PolicyName : string }.

Section Service.
Context (Marshal : ScanReport → option string) (DecodeStrict : string → option (ScanReport * bool)).
Context {W : Type} `{!ScannerWorld W}.

Record St := mkSt { sv_service : ScannerService; sv_world : W; sv_log : list scan_call }.

(** ** The monad of handlers *)

Definition M (A : Type) : Type := St → result scanner_error A * St.

Definition ret {A} (a : A) : M A := λ s, (Ok a, s).
Definition throw {A} (e : scanner_error) : M A := λ s, (Err e, s).
Definition bind {A B} (m : M A) (k : A → M B) : M B := λ s,
  match m s with (Ok a, s) => k a s | (Err e, s) => (Err e, s) end.

#[local] Notation "'do' x := m ; k" := (bind m (λ x, k)) (at level 100, x binder, m at level 99, right associativity).

Definition service : M ScannerService := λ s, (Ok (sv_service s), s).
Definition update (f : ScannerService → ScannerService) : M unit := λ s, (Ok tt, mkSt (f (sv_service s)) (sv_world s) (sv_log s)).
Definition check (b : bool) (e : scanner_error) : M unit := if b then ret tt else throw e.

(** A call that is not recorded, and one that is. *)
Definition quiet {A} (f : W → A * W) : M A := λ s,
  let '(a, w) := f (sv_world s) in (Ok a, mkSt (sv_service s) w (sv_log s)).
Definition ask {A} (f : W → A * W) (record : A → scan_call) : M A := λ s,
  let '(a, w) := f (sv_world s) in (Ok a, mkSt (sv_service s) w (sv_log s ++ [record a])).

(** [scannerStatusError] with the state at the moment. *)
Definition refuse {A} (grpc : Code) (code : string) : M A := λ s, (Err (StatusError grpc code false (ss_state (sv_service s))), s).
Definition stateError {A} : M A := refuse FailedPrecondition "SCANNER_STATE_INVALID".
Definition rpcFail {A} (e : tool_error) : M A := λ s, (Err (rpcError (ss_state (sv_service s)) e), s).

(** A failed call: the context's error comes first. *)
Definition operationFail {A} (e : tool_error) : M A := do c := quiet (contextNow OfOperation) ; rpcFail (operationError c e).

(** [if err := operationContext.Err(); err != nil] *)
Definition checkOperation : M unit :=
  do c := quiet (contextNow OfOperation) ;
  match contextError c with Some e => rpcFail e | None => ret tt end.

Definition orFail {A} (r : result tool_error A) : M A := match r with Ok a => ret a | Err e => operationFail e end.

(** [if err := sendScanProgress(...); err != nil { return service.streamError(...) }] *)
Definition mustSend (event : ScanEvent) : M unit :=
  do sent := ask (sendEvent event) (λ o, SentEvent event (bool_decide (o = None))) ;
  match sent with
  | None => ret tt
  | Some grpc => do c := quiet (contextNow OfStream) ; do s := service ; throw (streamError (ss_state s) c grpc)
  end.

(** [return sendScanProgress(...)] *)
Definition lastSend (event : ScanEvent) : M unit :=
  do sent := ask (sendEvent event) (λ o, SentEvent event (bool_decide (o = None))) ;
  match sent with None => ret tt | Some grpc => throw (StreamError grpc) end.

(** ** Guards *)

Definition sessionOf (context : option GuestContext) : string :=
  default "" (c ← context; r ← gx_Context c; Some (rx_SessionId r)).

Definition bindContext (context : option GuestContext) : M unit :=
  match ValidateGuestContext context RoleScanner with
  | Err e => throw (ContextError e)
  | Ok _ =>
      do s := service ;
      if bool_decide (ss_sessionID s = "") then update (with_session (sessionOf context))
      else if bool_decide (ss_sessionID s = sessionOf context) then ret tt
      else refuse FailedPrecondition "SCANNER_SESSION_MISMATCH"
  end.

Definition contextRequired (context : option GuestContext) : M unit :=
  match context with None => refuse InvalidArgument "GUEST_CONTEXT_REQUIRED" | Some _ => ret tt end.

Definition validateRequestForStates (request : ScannerRequest) (policyName : string) (states : list scannerRPCState) : M unit :=
  do _ := contextRequired (sr_Context request) ;
  do _ := bindContext (sr_Context request) ;
  do s := service ;
  if negb (bool_decide (sr_PolicyName request = policyName)) then refuse InvalidArgument "SCANNER_POLICY_INVALID"
  else if ss_closed s || negb (bool_decide (ss_state s ∈ states)) then stateError
  else ret tt.

Definition validateRequest (request : ScannerRequest) (policyName : string) (state : scannerRPCState) : M unit :=
  validateRequestForStates request policyName [state].

Definition validatePolicyRequest (request : ScannerRequest) (state : scannerRPCState) : M ScanPolicy.Policy :=
  do _ := contextRequired (sr_Context request) ;
  do _ := bindContext (sr_Context request) ;
  do s := service ;
  if ss_closed s || negb (bool_decide (ss_state s = state)) then stateError
  else
    do resolved := quiet (policiesResolve (sr_PolicyName request)) ;
    match resolved with
    | None => refuse InvalidArgument "SCANNER_POLICY_INVALID"
    | Some selected =>
        if negb (is_Ok (ValidatePolicy selected)) || negb (bool_decide (p_name selected = sr_PolicyName request))
        then refuse InvalidArgument "SCANNER_POLICY_INVALID"
        else if negb (bool_decide (ss_policyName s = "")) && negb (bool_decide (ss_policyName s = p_name selected))
        then refuse FailedPrecondition "SCANNER_POLICY_CHANGED"
        else ret selected
    end.

(** ** The phases *)

Definition UpdateDefinitions (request : ScannerRequest) : M UpdateReceipt :=
  do _ := validateRequest request "" scannerStateBoot ;
  do r := ask definitionsUpdate DidUpdate ;
  do receipt := orFail r ;
  do _ := checkOperation ;
  do _ := update (with_definitions scannerStateDefinitionsVerified receipt) ;
  ret receipt.

Definition openStates : list scannerRPCState := [scannerStateBoot; scannerStateDefinitionsVerified; scannerStateOfflineVerified;
  scannerStateInventoryComplete; scannerStateScanComplete; scannerStateReportComplete].

Definition GetDefinitionsStatus (request : ScannerRequest) : M UpdateReceipt :=
  do _ := validateRequestForStates request "" openStates ;
  do r := ask definitionsStatus DidStatus ;
  do receipt := orFail r ;
  do _ := checkOperation ;
  do s := service ;
  do _ := update (with_definitions (if bool_decide (ss_state s = scannerStateBoot) then scannerStateDefinitionsVerified
                                    else ss_state s) receipt) ;
  ret receipt.

Definition VerifyOfflineMode (request : ScannerRequest) : M unit :=
  do _ := validateRequestForStates request "" [scannerStateBoot; scannerStateDefinitionsVerified] ;
  do r := ask definitionsStatus DidStatus ;
  do receipt := orFail r ;
  do v := ask (isolationVerify receipt) (DidVerify receipt) ;
  do evidence := orFail v ;
  do _ := checkOperation ;
  do s := service ;
  do _ := update (with_definitions (ss_state s) receipt) ;
  do now := quiet scannerNow ;
  update (with_offline evidence (mkTime (t_nanos now) 0)).

Definition RunInventory (request : ScannerRequest) : M unit :=
  do selected := validatePolicyRequest request scannerStateOfflineVerified ;
  do _ := mustSend (ProgressEvent "inventory" 0 1 "phase" false false) ;
  do r := ask (inventoryTool selected) (DidInventory selected) ;
  do inventory := orFail r ;
  do _ := checkOperation ;
  if (len (iv_Entries inventory) =? 0)%Z || (iv_TotalBytes inventory =? 0)%Z ||
     (maxFiles (p_limits selected) <? len (iv_Entries inventory))%Z || (maxInputBytes (p_limits selected) <? iv_TotalBytes inventory)%Z
  then rpcFail (ScanError "SCAN_INVENTORY_INVALID" true)
  else
    do _ := update (with_inventory inventory (p_name selected)) ;
    lastSend (ProgressEvent "inventory" 1 1 "phase" false true).

(** The findings that are not for information only are reported as they are. *)
Fixpoint sendFindings (findings : list Finding) : M unit :=
  match findings with
  | [] => ret tt
  | f :: rest =>
      if bool_decide (f_Severity f = SeverityInfo) then sendFindings rest
      else do _ := mustSend (FindingEvent (f_Code f) (isBlocking f)) ; sendFindings rest
  end.

Definition Scan (request : ScannerRequest) : M unit :=
  do selected := validatePolicyRequest request scannerStateInventoryComplete ;
  do s := service ;
  let inventory := ss_inventory s in
  do _ := mustSend (ProgressEvent "malware-scan" 0 (len (iv_Entries inventory)) "files" false false) ;
  do r := ask (malwareTool inventory selected) (DidScan inventory selected) ;
  do summary := orFail r ;
  do _ := checkOperation ;
  match validateScanSummary inventory summary with
  | Err e => rpcFail e
  | Ok _ =>
      do _ := update (with_summary summary) ;
      do _ := sendFindings (sm_Findings summary) ;
      lastSend (ProgressEvent "malware-scan" (sm_ScannedFiles summary) (len (iv_Entries inventory)) "files"
                  (negb (hasBlockingFinding (sm_Findings summary))) true)
  end.

(** [cleanupReconstruction] *)
Definition cleanupReconstruction : M (option tool_error) :=
  do failed := ask reconstructCleanup (λ o, DidCleanup (bool_decide (o = None))) ;
  match failed with
  | Some _ => ret (Some (ScanError "SANITIZED_OUTPUT_CLEANUP_INCOMPLETE" true))
  | None => do _ := update (with_reconstructed noReconstruction) ; ret None
  end.

(** Clean up, then fail with the error of the cleanup or with the given one. *)
Definition abandon {A} (e : M A) : M A :=
  do cleaned := cleanupReconstruction ;
  match cleaned with Some c => rpcFail c | None => e end.

Definition emptyReconstruction : ScannerReconstruction := mkReconstruction [] [] [] [] true true true.

(** The reconstruction of what the scan found clean. *)
Definition reconstructClean (selected : ScanPolicy.Policy) : M ScannerReconstruction :=
  do s := service ;
  if hasBlockingFinding (sm_Findings (ss_scanSummary s)) then ret emptyReconstruction
  else
    do r := ask (reconstructTool (ss_inventory s) (ss_scanSummary s) selected)
              (DidReconstruct (ss_inventory s) (ss_scanSummary s) selected) ;
    match r with
    | Err e => abandon (operationFail e)
    | Ok reconstructed =>
        do c := quiet (contextNow OfOperation) ;
        match contextError c with Some e => abandon (rpcFail e) | None => ret reconstructed end
    end.

(** The clock is read before the report is put together, which cannot be told
    from reading it in between. *)
Definition Reconstruct (request : ScannerRequest) : M unit :=
  do selected := validatePolicyRequest request scannerStateScanComplete ;
  do _ := (if bool_decide (p_mode selected = ModeSafe) then ret tt else refuse FailedPrecondition "SCANNER_POLICY_INVALID") ;
  do s := service ;
  let files := len (iv_Entries (ss_inventory s)) in
  do _ := mustSend (ProgressEvent "reconstruction" 0 files "files" false false) ;
  do reconstructed := reconstructClean selected ;
  do _ := update (with_reconstructed reconstructed) ;
  do now := quiet scannerNow ;
  do s := service ;
  match buildReport s (sessionOf (sr_Context request)) selected (mkTime (t_nanos now) 0) with
  | Err e => abandon (rpcFail e)
  | Ok report =>
      match SignReport Marshal report (keyOf (ss_reportKey s)) with
      | Err code => abandon (rpcFail (ScanError code true))
      | Ok authenticated =>
          do _ := update (with_report authenticated) ;
          lastSend (ProgressEvent "reconstruction" files files "files" (bool_decide (Result_ report = "approved")) true)
      end
  end.

Definition GetScanReport (request : ScannerRequest) : M AuthenticatedReport :=
  do _ := validatePolicyRequest request scannerStateReportComplete ;
  do s := service ;
  ret (ss_report s).

(** ** Export *)

(** [io.ReadFull]: the bytes read, and whether they are all that was asked for. *)
Definition ReadFull (n : Z) : M (list Z * bool) :=
  do data := quiet (readerTake n) ;
  ret (take (Z.to_nat n) data, (n <=? len data)%Z).

Definition closeReader : M bool := ask readerClose DidClose.

(** A failure that closes the reader first. *)
Definition closing {A} (m : M A) : M A := do _ := closeReader ; m.

Definition streamFail {A} (grpc : option Code) : M A :=
  do c := quiet (contextNow OfStream) ; do s := service ; throw (streamError (ss_state s) c (default Internal grpc)).

Definition sendOr {A} (frame : Workspace.TransferFrame) (failed : option Code → M A) (sent : M A) : M A :=
  do o := ask (sendFrame frame) (λ o, SentFrame frame (bool_decide (o = None))) ;
  match o with None => sent | Some _ => failed o end.

(** The loop; its value is the bytes sent, with their number. *)
Fixpoint exportLoop (fuel : nat) (size total sequence : Z) (hashed : list Z) : M (Z * list Z) :=
  if negb (total <? size)%Z then ret (total, hashed)
  else
  match fuel with
  | O => throw OutOfFuel
  | S fuel =>
      do c := quiet (contextNow OfOperation) ;
      match contextError c with
      | Some e => closing (rpcFail e)
      | None =>
          do r := ReadFull (Z.min DefaultMaxChunk (sub64 size total)) ;
          let '(data, complete) := r in
          let changed := closing (refuse FailedPrecondition "SANITIZED_OUTPUT_CHANGED") in
          if (len data =? 0)%Z then (if complete : bool then exportLoop fuel size total sequence hashed else changed)
          else
            sendOr (FChunk sequence data) (λ grpc, closing (streamFail grpc))
              (if complete : bool
               then exportLoop fuel size (add64 total (len data)) (add64 sequence 1) (hashed ++ data)
               else changed)
      end
  end.

Definition findOutput (r : ScanReport) (outputID : string) : option ReportSanitizedOutput :=
  List.find (λ o, bool_decide (so_OutputID o = outputID)) (elems (SanitizedOutputs r)).

Definition outputDescriptor (output : ReportSanitizedOutput) (digest : list Z) : Workspace.FileDescriptor :=
  mkDescriptor (so_LogicalName output) (so_SizeBytes output) (so_DetectedMIME output) (Some (mkHash "sha256" digest)).

(** The transfer of an opened output. *)
Definition exportOutput (output : ReportSanitizedOutput) (wantDigest : list Z) : M unit :=
  sendOr (FBegin true (so_OutputID output) (Some (outputDescriptor output wantDigest))) (λ grpc, closing (streamFail grpc))
    (do r := exportLoop (S (Z.to_nat (so_SizeBytes output))) (so_SizeBytes output) 0 0 [] ;
     let '(total, hashed) := r in
     do extra := quiet readerExtra ;
     do closed := closeReader ;
     let digest := sha256 hashed in
     if negb (len extra.1 =? 0)%Z || (match extra.2 with ReadFailed => true | _ => false end) || negb closed ||
        negb (bool_decide (digest = wantDigest))
     then refuse FailedPrecondition "SANITIZED_OUTPUT_CHANGED"
     else sendOr (FEnd total (Some (mkHash "sha256" digest))) streamFail (ret tt)).

Definition ExportApprovedFile (context : option GuestContext) (outputID : string) : M unit :=
  do _ := contextRequired context ;
  do _ := bindContext context ;
  do s := service ;
  if negb (bool_decide (ss_state s = scannerStateReportComplete)) || ss_closed s then stateError
  else
  match VerifyApproval Marshal DecodeStrict (ss_report s) (keyOf (ss_reportKey s)) with
  | Err code => rpcFail (ScanError code true)
  | Ok report =>
  match findOutput report outputID with
  | None => refuse NotFound "SANITIZED_OUTPUT_UNAVAILABLE"
  | Some output =>
  if (ss_maxExportBytes s <? so_SizeBytes output)%Z then refuse ResourceExhausted "SCAN_LIMIT_REACHED"
  else
  match hexDecode (so_SHA256 output) with
  | None => refuse FailedPrecondition "REPORT_INCOMPLETE"
  | Some wantDigest =>
  if negb (length wantDigest =? 32)%nat then refuse FailedPrecondition "REPORT_INCOMPLETE"
  else
    do r := ask (openApproved (so_OutputID output)) (λ r, DidOpen (so_OutputID output) (is_Ok r)) ;
    do reader := orFail r ;
    if reader : bool then exportOutput output wantDigest else refuse FailedPrecondition "SANITIZED_OUTPUT_UNAVAILABLE"
  end end end.

(** [Close] *)
Definition CloseService : M unit :=
  do s := service ;
  if ss_closed s then ret tt
  else
    do failed := ask reconstructCleanup (λ o, DidCleanup (bool_decide (o = None))) ;
    match failed with Some e => rpcFail e | None => update closedService end.

(** The requests of the host, and the owner's close. *)
Inductive scan_request :=
| AskUpdate (r : ScannerRequest) | AskStatus (r : ScannerRequest) | AskOffline (r : ScannerRequest)
| AskInventory (r : ScannerRequest) | AskScan (r : ScannerRequest) | AskReconstruct (r : ScannerRequest)
| AskReport (r : ScannerRequest) | AskExport (c : option GuestContext) (outputID : string) | AskClose.

Definition serve (s : St) (q : scan_request) : St :=
  match q with
  | AskUpdate r => (UpdateDefinitions r s).2 | AskStatus r => (GetDefinitionsStatus r s).2
  | AskOffline r => (VerifyOfflineMode r s).2 | AskInventory r => (RunInventory r s).2 | AskScan r => (Scan r s).2
  | AskReconstruct r => (Reconstruct r s).2 | AskReport r => (GetScanReport r s).2
  | AskExport c id => (ExportApprovedFile c id s).2 | AskClose => (CloseService s).2
  end.

(** ** What the service's state stands for *)

Definition recorded (l : list scan_call) (receipt : UpdateReceipt) : Prop := DidStatus (Ok receipt) ∈ l ∨ DidUpdate (Ok receipt) ∈ l.

(** A valid policy under the name the service is bound to. *)
Definition installed (sv : ScannerService) (p : ScanPolicy.Policy) : Prop :=
  ValidatePolicy p = Ok tt ∧ p_name p = ss_policyName sv.

Definition fits (p : ScanPolicy.Policy) (inventory : Inventory) : Prop :=
  iv_Entries inventory ≠ [] ∧ (len (iv_Entries inventory) ≤ maxFiles (p_limits p))%Z ∧
  (iv_TotalBytes inventory ≤ maxInputBytes (p_limits p))%Z.

(** The answers the phases rest on, in order. *)
Definition offlineTrail (receipt : UpdateReceipt) (evidence : BootEvidence) : list scan_call :=
  [DidStatus (Ok receipt); DidVerify receipt (Ok evidence)].

Definition inventoryTrail receipt evidence (p : ScanPolicy.Policy) (inventory : Inventory) : list scan_call :=
  offlineTrail receipt evidence ++ [DidInventory p (Ok inventory)].

Definition scanTrail receipt evidence p1 inventory (p2 : ScanPolicy.Policy) (summary : ScanSummary) : list scan_call :=
  inventoryTrail receipt evidence p1 inventory ++ [DidScan inventory p2 (Ok summary)].

Definition reportTrail receipt evidence p1 inventory p2 summary (p3 : ScanPolicy.Policy) (reconstructed : ScannerReconstruction) :
    list scan_call :=
  scanTrail receipt evidence p1 inventory p2 summary ++
  (if hasBlockingFinding (sm_Findings summary) then [] else [DidReconstruct inventory summary p3 (Ok reconstructed)]).

(** The report a service holds was built from what it recorded. *)
Record reported (sv : ScannerService) (l : list scan_call) (p3 : ScanPolicy.Policy) (reconstructed : ScannerReconstruction)
    (r : ScanReport) : Prop := {
  rp_policy : installed sv p3;
  rp_mode : p_mode p3 = ModeSafe;
  rp_blocked : hasBlockingFinding (sm_Findings (ss_scanSummary sv)) = true → reconstructed = emptyReconstruction;
  rp_session : ss_sessionID sv ≠ "";
  rp_built : ∃ receipt now, recorded l receipt ∧
    buildReport (with_reconstructed reconstructed (with_definitions (ss_state sv) receipt sv)) (ss_sessionID sv) p3 now = Ok r;
  rp_signed : SignReport Marshal r (keyOf (ss_reportKey sv)) = Ok (ss_report sv)
}.

(** What a trail must be for the service to be in its state. *)
Definition progress (sv : ScannerService) (l t : list scan_call) : Prop :=
  match ss_state sv with
  | scannerStateBoot | scannerStateDefinitionsVerified | scannerStateClosed => True
  | scannerStateOfflineVerified => ∃ receipt, t = offlineTrail receipt (ss_offline sv)
  | scannerStateInventoryComplete =>
      ∃ receipt p1, t = inventoryTrail receipt (ss_offline sv) p1 (ss_inventory sv) ∧ installed sv p1 ∧ fits p1 (ss_inventory sv)
  | scannerStateScanComplete =>
      ∃ receipt p1 p2, t = scanTrail receipt (ss_offline sv) p1 (ss_inventory sv) p2 (ss_scanSummary sv) ∧ installed sv p1 ∧
        fits p1 (ss_inventory sv) ∧ installed sv p2 ∧ validateScanSummary (ss_inventory sv) (ss_scanSummary sv) = Ok tt
  | scannerStateReportComplete =>
      ∃ receipt p1 p2 p3 reconstructed r,
        t = reportTrail receipt (ss_offline sv) p1 (ss_inventory sv) p2 (ss_scanSummary sv) p3 reconstructed ∧ installed sv p1 ∧
        fits p1 (ss_inventory sv) ∧ installed sv p2 ∧ validateScanSummary (ss_inventory sv) (ss_scanSummary sv) = Ok tt ∧
        reported sv l p3 reconstructed r
  end.

Definition Inv (sv : ScannerService) (l : list scan_call) : Prop :=
  ss_closed sv = bool_decide (ss_state sv = scannerStateClosed) ∧
  (ss_state sv ∉ [scannerStateBoot; scannerStateClosed] → recorded l (ss_receipt sv)) ∧
  ∃ t, t `sublist_of` l ∧ progress sv l t.

Lemma recorded_app l x receipt : recorded l receipt → recorded (l ++ x) receipt.
Proof. unfold recorded. set_solver. Qed.

Lemma sublist_more {A} (t l x : list A) : t `sublist_of` l → t `sublist_of` l ++ x.
Proof. intros H. apply sublist_inserts_r. done. Qed.

Lemma progress_more sv l x t : progress sv l t → progress sv (l ++ x) t.
Proof.
  unfold progress. destruct (ss_state sv); try done.
  intros (receipt & p1 & p2 & p3 & rc & r & H1 & H2 & H3 & H4 & H5 & [A B C D E F]).
  exists receipt, p1, p2, p3, rc, r. split_and!; try done. split; try done.
  destruct E as (receipt' & now & Hr & Hb). exists receipt', now. split; [by apply recorded_app|done].
Qed.

Lemma Inv_more sv l x : Inv sv l → Inv sv (l ++ x).
Proof.
  intros (Hc & Hk & t & Ht & Hp). split; [done|]. split; [intros H; by apply recorded_app, Hk|].
  exists t. split; [by apply sublist_more|by apply progress_more].
Qed.

(** ** Rules *)

(** From [P], [m] ends in [Q] or with an error in the invariant. *)
Definition triple {A} (P : ScannerService → list scan_call → Prop) (m : M A) (Q : A → ScannerService → list scan_call → Prop) : Prop :=
  ∀ s, P (sv_service s) (sv_log s) →
    match m s with (Ok a, s') => Q a (sv_service s') (sv_log s') | (Err _, s') => Inv (sv_service s') (sv_log s') end.

(** The service is [sv0], and the log has the trail [t]. *)
Definition Stay (sv0 : ScannerService) (t : list scan_call) (sv : ScannerService) (l : list scan_call) : Prop :=
  sv = sv0 ∧ Inv sv0 l ∧ t `sublist_of` l.

Lemma t_bind {A B} P Q R (m : M A) (k : A → M B) : triple P m Q → (∀ a, triple (Q a) (k a) R) → triple P (bind m k) R.
Proof. intros Hm Hk s Hs. unfold bind. specialize (Hm s Hs). destruct (m s) as [[a|e] s1]; [by apply Hk|done]. Qed.

Lemma t_ret {A} (P : ScannerService → list scan_call → Prop) Q (a : A) : (∀ sv l, P sv l → Q a sv l) → triple P (ret a) Q.
Proof. intros H s Hs. by apply H. Qed.

Lemma t_fail {A} (P : ScannerService → list scan_call → Prop) (Q : A → ScannerService → list scan_call → Prop) (m : M A) :
  (∀ s, ∃ e, m s = (Err e, s)) → (∀ sv l, P sv l → Inv sv l) → triple P m Q.
Proof. intros Hm H s Hs. destruct (Hm s) as [e ->]. by apply H. Qed.

Lemma t_quiet {A} (P : ScannerService → list scan_call → Prop) (f : W → A * W) Q :
  (∀ a sv l, P sv l → Q a sv l) → triple P (quiet f) Q.
Proof. intros H s Hs. unfold quiet. destruct (f (sv_world s)) as [a w]. by apply H. Qed.

Lemma t_ask {A} (P : ScannerService → list scan_call → Prop) (f : W → A * W) record Q :
  (∀ a sv l, P sv l → Q a sv (l ++ [record a])) → triple P (ask f record) Q.
Proof. intros H s Hs. unfold ask. destruct (f (sv_world s)) as [a w]. by apply H. Qed.

Lemma t_update (P : ScannerService → list scan_call → Prop) f Q :
  (∀ sv l, P sv l → Q tt (f sv) l) → triple P (update f) Q.
Proof. intros H s Hs. by apply H. Qed.

Lemma t_service (P : ScannerService → list scan_call → Prop) : triple P service (λ a sv l, P sv l ∧ a = sv).
Proof. intros s Hs. done. Qed.

Lemma t_pre {A} (P P' : ScannerService → list scan_call → Prop) Q (m : M A) :
  (∀ sv l, P sv l → P' sv l) → triple P' m Q → triple P m Q.
Proof. intros H Hm s Hs. by apply Hm, H. Qed.

Lemma refuse_err {A} grpc code s : ∃ e, refuse (A:=A) grpc code s = (Err e, s).
Proof. by eexists. Qed.

Lemma rpcFail_err {A} e s : ∃ e', rpcFail (A:=A) e s = (Err e', s).
Proof. by eexists. Qed.

Lemma throw_err {A} e (s : St) : ∃ e', throw (A:=A) e s = (Err e', s).
Proof. by eexists. Qed.


Lemma stay_inv sv0 t sv l : Stay sv0 t sv l → Inv sv l.
Proof. by intros (-> & H & _). Qed.

Lemma stay_more sv0 t sv l x : Stay sv0 t sv l → Stay sv0 t sv (l ++ x).
Proof. intros (-> & H & Hs). split; [done|]. split; [by apply Inv_more|by apply sublist_more]. Qed.

Lemma stay_ask {A} sv0 t (f : W → A * W) record : triple (Stay sv0 t) (ask f record) (λ a, Stay sv0 (t ++ [record a])).
Proof.
  apply t_ask. intros a sv l (-> & H & Hs). split; [done|]. split; [by apply Inv_more|]. by apply sublist_app.
Qed.

Lemma stay_forget {A} sv0 t (f : W → A * W) record : triple (Stay sv0 t) (ask f record) (λ _, Stay sv0 t).
Proof. apply t_ask. intros a sv l H. by apply stay_more. Qed.

Lemma stay_quiet {A} sv0 t (f : W → A * W) : triple (Stay sv0 t) (quiet f) (λ _, Stay sv0 t).
Proof. by apply t_quiet. Qed.

Lemma t_operationFail {A} sv0 t e (Q : A → ScannerService → list scan_call → Prop) : triple (Stay sv0 t) (operationFail e) Q.
Proof. eapply t_bind; [apply stay_quiet|]. intros c. apply t_fail; [apply rpcFail_err|apply stay_inv]. Qed.

Lemma stay_orFail {A} sv0 t (r : result tool_error A) : triple (Stay sv0 t) (orFail r) (λ a sv l, r = Ok a ∧ Stay sv0 t sv l).
Proof. destruct r as [a|e]; [by apply t_ret|apply t_operationFail]. Qed.

Lemma stay_operation sv0 t : triple (Stay sv0 t) checkOperation (λ _, Stay sv0 t).
Proof.
  eapply t_bind; [apply stay_quiet|]. intros c. cbn beta.
  destruct (contextError c); [apply t_fail; [apply rpcFail_err|apply stay_inv]|by apply t_ret].
Qed.

Lemma stay_send sv0 t event : triple (Stay sv0 t) (mustSend event) (λ _, Stay sv0 t).
Proof.
  eapply t_bind; [apply stay_forget|]. intros [grpc|]; cbn beta; [|by apply t_ret].
  eapply t_bind; [apply stay_quiet|]. intros c. cbn beta. eapply t_bind; [apply t_service|]. intros s. cbn beta.
  apply t_fail; [apply throw_err|]. intros sv l [H _]. by eapply stay_inv.
Qed.

Lemma inv_send event : triple Inv (mustSend event) (λ _, Inv).
Proof.
  eapply t_bind; [apply (t_ask _ _ _ (λ _, Inv)); intros; by apply Inv_more|]. intros [grpc|]; cbn beta; [|by apply t_ret].
  eapply t_bind; [by apply (t_quiet _ _ (λ _, Inv))|]. intros c. cbn beta. eapply t_bind; [apply t_service|]. intros s. cbn beta.
  apply t_fail; [apply throw_err|]. by intros sv l [H _].
Qed.

Lemma inv_last event : triple Inv (lastSend event) (λ _, Inv).
Proof.
  eapply t_bind; [apply (t_ask _ _ _ (λ _, Inv)); intros; by apply Inv_more|]. intros [grpc|]; cbn beta; [|by apply t_ret].
  apply t_fail; [apply throw_err|done].
Qed.

(** ** Guards *)

(** The session is bound to the one of the request. *)
Definition bound (context : option GuestContext) (sv : ScannerService) (l : list scan_call) : Prop :=
  Inv sv l ∧ ss_sessionID sv = sessionOf context ∧ ss_sessionID sv ≠ "".

Lemma context_session context : ValidateGuestContext context RoleScanner = Ok tt → sessionOf context ≠ "".
Proof.
  unfold ValidateGuestContext, ValidateRequestContext, sessionOf. destruct context as [[[r|] role]|]; cbn; try done.
  destruct (rx_ApiVersion r) as [v|]; [|done]. intros H. destruct (_ || _); [done|]. destruct (_ || _) eqn:Hg; [done|].
  bool_hyps. intros E. rewrite E in *. done.
Qed.

(** Binding a session that was not bound changes nothing else. *)
Lemma Inv_session id sv l : ss_sessionID sv = "" → Inv sv l → Inv (with_session id sv) l.
Proof.
  intros Hn (Hc & Hk & t & Ht & Hp). split; [done|]. split; [done|]. exists t. split; [done|].
  unfold progress in *. cbn. destruct (ss_state sv); try done.
  destruct Hp as (receipt & p1 & p2 & p3 & rc & r & _ & _ & _ & _ & _ & [_ _ _ D _ _]). done.
Qed.

Lemma t_bindContext context : triple Inv (bindContext context) (λ _, bound context).
Proof.
  unfold bindContext. destruct (ValidateGuestContext context RoleScanner) as [[]|e] eqn:Hv; [|by apply t_fail; [apply throw_err|]].
  apply context_session in Hv. eapply t_bind; [apply t_service|]. intros s. cbn beta.
  destruct (bool_decide (ss_sessionID s = "")) eqn:H1; [|destruct (bool_decide (ss_sessionID s = sessionOf context)) eqn:H2].
  - bool_hyps. apply t_update. intros sv l [Hi ->]. split; [by apply Inv_session|]. done.
  - bool_hyps. apply t_ret. intros sv l [Hi ->]. split; [done|]. by rewrite H2.
  - apply t_fail; [apply refuse_err|]. by intros sv l [Hi _].
Qed.

Lemma t_required context P : (∀ sv l, P sv l → Inv sv l) → triple P (contextRequired context) (λ _, P).
Proof. intros H. destruct context; [by apply t_ret|apply t_fail; [apply refuse_err|done]]. Qed.

Lemma t_validateRequest request policyName states :
  triple Inv (validateRequestForStates request policyName states)
    (λ _ sv l, bound (sr_Context request) sv l ∧ ss_closed sv = false ∧ ss_state sv ∈ states).
Proof.
  eapply t_bind; [by apply t_required|]. intros []. eapply t_bind; [apply t_bindContext|]. intros []. cbn beta.
  eapply t_bind; [apply t_service|]. intros s. cbn beta.
  destruct (negb (bool_decide (sr_PolicyName request = policyName))); [apply t_fail; [apply refuse_err|by intros sv l [[Hi _] _]]|].
  destruct (ss_closed s || negb (bool_decide (ss_state s ∈ states))) eqn:Hs;
    [apply t_fail; [apply refuse_err|by intros sv l [[Hi _] _]]|].
  apply t_ret. intros sv l [Hb ->]. bool_hyps. done.
Qed.

(** What a content request is accepted under. *)
Definition accepted (request : ScannerRequest) (state : scannerRPCState) (p : ScanPolicy.Policy) (sv : ScannerService)
    (l : list scan_call) : Prop :=
  bound (sr_Context request) sv l ∧ ss_closed sv = false ∧ ss_state sv = state ∧ ValidatePolicy p = Ok tt ∧
  p_name p = sr_PolicyName request ∧ (ss_policyName sv = "" ∨ ss_policyName sv = p_name p).

Lemma t_validatePolicy request state :
  triple Inv (validatePolicyRequest request state) (λ p, accepted request state p).
Proof.
  eapply t_bind; [by apply t_required|]. intros []. eapply t_bind; [apply t_bindContext|]. intros []. cbn beta.
  eapply t_bind; [apply t_service|]. intros s. cbn beta.
  destruct (ss_closed s || negb (bool_decide (ss_state s = state))) eqn:Hs;
    [apply t_fail; [apply refuse_err|by intros sv l [[Hi _] _]]|].
  eapply (t_bind _ (λ _ sv l, bound (sr_Context request) sv l ∧ s = sv)); [by apply t_quiet|]. intros [p|]; cbn beta.
  2: { apply t_fail; [apply refuse_err|by intros sv l [[Hi _] _]]. }
  destruct (negb (is_Ok (ValidatePolicy p)) || negb (bool_decide (p_name p = sr_PolicyName request))) eqn:Hp;
    [apply t_fail; [apply refuse_err|by intros sv l [[Hi _] _]]|].
  destruct (_ && _) eqn:Hn; [apply t_fail; [apply refuse_err|by intros sv l [[Hi _] _]]|].
  apply t_ret. intros sv l [Hb ->]. destruct (ValidatePolicy p) as [[]|] eqn:Hv; [|done]. bool_hyps.
  split; [done|]. split_and!; try done.
  apply andb_false_iff in Hn as [Hn|Hn]; apply negb_false_iff, bool_decide_eq_true in Hn; auto.
Qed.

(** ** The phases keep the invariant *)

Lemma Inv_definitions state receipt sv l :
  recorded l receipt → state = ss_state sv ∨ (ss_state sv = scannerStateBoot ∧ state = scannerStateDefinitionsVerified) →
  Inv sv l → Inv (with_definitions state receipt sv) l.
Proof.
  intros Hr Hst (Hc & Hk & t & Ht & Hp). split; [cbn; rewrite Hc; destruct Hst as [->|[-> ->]]; done|]. split; [done|].
  exists t. split; [done|]. destruct Hst as [->|[_ ->]]; [|done]. unfold progress in *. cbn. destruct (ss_state sv) eqn:He; try done.
  destruct Hp as (receipt0 & p1 & p2 & p3 & rc & r & Ht' & H2 & H3 & H4 & H5 & [A B C D (receipt' & now & Hre & Hb) F]).
  exists receipt0, p1, p2, p3, rc, r. split_and!; try done. split; try done. exists receipt', now. split; [done|].
  rewrite He in Hb. exact Hb.
Qed.

(** From an accepted state, with the service and its trail fixed. *)
Lemma t_fix {A} (P : ScannerService → list scan_call → Prop) (m : M A) Q :
  (∀ sv l, P sv l → Inv sv l) →
  (∀ sv0 l0 t, P sv0 l0 → progress sv0 l0 t → t `sublist_of` l0 → triple (Stay sv0 t) m Q) → triple P m Q.
Proof.
  intros Hi H s Hs. pose proof (Hi _ _ Hs) as Hinv. destruct Hinv as (Hc & Hk & t & Ht & Hp).
  apply (H (sv_service s) (sv_log s) t); try done. split; [done|]. split; [by apply Hi|done].
Qed.

Lemma recorded_sublist t l receipt : t `sublist_of` l → recorded t receipt → recorded l receipt.
Proof. intros Hs. unfold recorded. intros [H|H]; [left|right]; eapply elem_of_sublist; eauto. Qed.

#[local] Ltac guard_step := eapply t_bind; [|intros ?; cbn beta].

(** A tool's answer, recorded, or its failure. *)
Lemma t_tool {A B} sv0 t (f : W → result tool_error A * W) record (k : A → M B) Q :
  (∀ a, triple (Stay sv0 (t ++ [record (Ok a)])) (k a) Q) →
  triple (Stay sv0 t) (bind (ask f record) (λ r, bind (orFail r) k)) Q.
Proof.
  intros H. eapply t_bind; [apply stay_ask|]. intros [a|e]; cbn beta.
  - eapply t_bind; [by apply (t_ret _ (λ b sv l, b = a ∧ Stay sv0 (t ++ [record (Ok a)]) sv l))|].
    intros b s [-> Hs]. by apply H.
  - eapply (t_bind _ (λ _ _ _, False)); [apply t_operationFail|]. by intros a s [].
Qed.

Lemma UpdateDefinitions_ok request : triple Inv (UpdateDefinitions request) (λ _, Inv).
Proof.
  guard_step; [apply t_validateRequest|]. apply t_fix; [by intros sv l [[H _] _]|].
  intros sv0 l0 t (_ & _ & Hst) _ Ht. apply list_elem_of_singleton in Hst. apply t_tool. intros receipt.
  guard_step; [apply stay_operation|]. guard_step; [|by apply (t_ret Inv)].
  apply t_update. intros sv l (-> & Hi & Hs). apply Inv_definitions; [|by auto|done].
  eapply recorded_sublist; [exact Hs|]. right. set_solver.
Qed.

Lemma GetDefinitionsStatus_ok request : triple Inv (GetDefinitionsStatus request) (λ _, Inv).
Proof.
  guard_step; [apply t_validateRequest|]. apply t_fix; [by intros sv l [[H _] _]|].
  intros sv0 l0 t _ _ Ht. apply t_tool. intros receipt.
  guard_step; [apply stay_operation|]. guard_step; [apply t_service|]. guard_step; [|by apply (t_ret Inv)].
  apply t_update. intros sv l ((-> & Hi & Hs) & ->). apply Inv_definitions; [|case_bool_decide; auto|done].
  eapply recorded_sublist; [exact Hs|]. left. set_solver.
Qed.

Lemma VerifyOfflineMode_ok request : triple Inv (VerifyOfflineMode request) (λ _, Inv).
Proof.
  guard_step; [apply t_validateRequest|]. apply t_fix; [by intros sv l [[H _] _]|].
  intros sv0 l0 t (_ & Hc & Hst) _ Ht. eapply t_pre; [|apply (t_tool sv0 [])].
  { intros sv l (-> & Hi & _). split; [done|]. split; [done|apply sublist_nil_l]. }
  intros receipt. apply t_tool. intros evidence. guard_step; [apply stay_operation|]. guard_step; [apply t_service|].
  guard_step; [apply (t_update _ _ (λ _ sv l, sv = with_definitions (ss_state sv0) receipt sv0 ∧ offlineTrail receipt evidence `sublist_of` l))|].
  { intros sv l ((-> & Hi & Hs) & ->). done. }
  guard_step; [by apply (t_quiet _ _ (λ _ sv l, sv = with_definitions (ss_state sv0) receipt sv0 ∧ offlineTrail receipt evidence `sublist_of` l))|].
  apply t_update. intros sv l (-> & Hs). split; [done|]. split; [|exists (offlineTrail receipt evidence); split; [done|by exists receipt]].
  intros _. eapply recorded_sublist; [exact Hs|]. left. unfold offlineTrail. set_solver.
Qed.

Lemma t_fixed {A} sv0 t (k : ScannerService → M A) Q : triple (Stay sv0 t) (k sv0) Q → triple (Stay sv0 t) (bind service k) Q.
Proof. intros H s Hs. unfold bind, service. pose proof Hs as (-> & _). by apply H. Qed.

Lemma RunInventory_ok request : triple Inv (RunInventory request) (λ _, Inv).
Proof.
  guard_step; [apply t_validatePolicy|]. rename a into selected. apply t_fix; [by intros sv l [[H _] _]|].
  intros sv0 l0 t (_ & Hc & Hst & Hv & _) Hp Ht. unfold progress in Hp. rewrite Hst in Hp. destruct Hp as [receipt ->].
  guard_step; [apply stay_send|]. apply t_tool. intros inventory. guard_step; [apply stay_operation|].
  destruct (_ || _) eqn:Hb; [apply t_fail; [apply rpcFail_err|apply stay_inv]|].
  eapply (t_bind _ (λ _, Inv)); [|intros []; apply inv_last].
  apply t_update. intros sv l (-> & (_ & Hk & _) & Hs). split; [done|].
  split; [intros _; apply Hk; rewrite Hst; set_solver|]. exists (inventoryTrail receipt (ss_offline sv0) selected inventory).
  split; [done|]. exists receipt, selected. bool_hyps. split; [done|]. split; [done|].
  unfold fits. cbn [ss_inventory with_inventory]. split; [|lia].
  intros He. rewrite He in *. done.
Qed.

Lemma sendFindings_ok findings : triple Inv (sendFindings findings) (λ _, Inv).
Proof.
  induction findings as [|f rest IH]; [by apply t_ret|]. cbn [sendFindings]. destruct (bool_decide _); [done|].
  guard_step; [apply inv_send|done].
Qed.

Lemma Scan_ok request : triple Inv (Scan request) (λ _, Inv).
Proof.
  guard_step; [apply t_validatePolicy|]. rename a into selected. apply t_fix; [by intros sv l [[H _] _]|].
  intros sv0 l0 t (_ & Hc & Hst & Hv & _ & Hn) Hp Ht. unfold progress in Hp. rewrite Hst in Hp.
  destruct Hp as (receipt & p1 & -> & [Hv1 Hi1] & Hf).
  apply t_fixed.
  assert (Hn' : p_name selected = ss_policyName sv0).
  { destruct Hn as [Hn|Hn]; [|done]. exfalso. unfold ValidatePolicy in Hv1. pass_guards Hv1. rewrite Hi1, Hn in *. bool_hyps. done. }
  guard_step; [apply stay_send|]. apply t_tool. intros summary. guard_step; [apply stay_operation|].
  destruct (validateScanSummary _ summary) as [[]|e] eqn:Hsum; [|apply t_fail; [apply rpcFail_err|apply stay_inv]].
  eapply (t_bind _ (λ _, Inv)); [|intros []; eapply t_bind; [apply sendFindings_ok|intros []; apply inv_last]].
  apply t_update. intros sv l (-> & (_ & Hk & _) & Hs). split; [done|].
  split; [intros _; apply Hk; rewrite Hst; set_solver|].
  exists (scanTrail receipt (ss_offline sv0) p1 (ss_inventory sv0) selected summary). split; [done|].
  exists receipt, p1, selected. by split_and!.
Qed.

Lemma Inv_reconstructed rc sv l : Inv sv l → Inv (with_reconstructed rc sv) l.
Proof.
  intros (Hc & Hk & t & Ht & Hp). split; [done|]. split; [done|]. exists t. split; [done|].
  unfold progress in *. cbn. destruct (ss_state sv) eqn:He; try done.
  destruct Hp as (receipt0 & p1 & p2 & p3 & rc0 & r & Ht' & H2 & H3 & H4 & H5 & [A B C D E F]).
  exists receipt0, p1, p2, p3, rc0, r. split_and!; try done.
Qed.

Lemma t_abandon {A} (e : M A) Q : triple Inv e Q → triple Inv (abandon e) Q.
Proof.
  intros H. unfold abandon, cleanupReconstruction. eapply (t_bind _ (λ _, Inv)).
  - eapply t_bind; [apply (t_ask _ _ _ (λ _, Inv)); intros; by apply Inv_more|]. intros [c|]; cbn beta; [by apply t_ret|].
    eapply (t_bind _ (λ _, Inv)); [apply t_update; intros; by apply Inv_reconstructed|]. intros []. by apply t_ret.
  - intros [c|]; [apply t_fail; [apply rpcFail_err|done]|done].
Qed.

Lemma inv_rpcFail {A} e (Q : A → ScannerService → list scan_call → Prop) : triple Inv (rpcFail e) Q.
Proof. apply t_fail; [apply rpcFail_err|done]. Qed.

Lemma inv_operationFail {A} e (Q : A → ScannerService → list scan_call → Prop) : triple Inv (operationFail e) Q.
Proof. eapply (t_bind _ (λ _, Inv)); [by apply t_quiet|]. intros c. apply inv_rpcFail. Qed.

(** The trail gains the reconstruction, unless the scan blocked it. *)
Lemma reconstructClean_ok sv0 t selected :
  triple (Stay sv0 t) (reconstructClean selected) (λ rc sv l,
    (hasBlockingFinding (sm_Findings (ss_scanSummary sv0)) = true → rc = emptyReconstruction) ∧
    Stay sv0 (t ++ if hasBlockingFinding (sm_Findings (ss_scanSummary sv0)) then []
                   else [DidReconstruct (ss_inventory sv0) (ss_scanSummary sv0) selected (Ok rc)]) sv l).
Proof.
  apply t_fixed. destruct (hasBlockingFinding _) eqn:Hb; [apply t_ret; by rewrite app_nil_r|].
  guard_step; [apply stay_ask|]. destruct a as [rc|e].
  - guard_step; [apply stay_quiet|]. destruct (contextError _); [|by apply t_ret].
    eapply t_pre; [intros; by eapply stay_inv|]. apply t_abandon, inv_rpcFail.
  - eapply t_pre; [intros; by eapply stay_inv|]. apply t_abandon, inv_operationFail.
Qed.

Lemma Reconstruct_ok request : triple Inv (Reconstruct request) (λ _, Inv).
Proof.
  guard_step; [apply t_validatePolicy|]. rename a into selected. apply t_fix; [by intros sv l [[H _] _]|].
  intros sv0 l0 t ((_ & Hsess & Hne) & Hc & Hst & Hv & _ & Hn) Hp Ht. unfold progress in Hp. rewrite Hst in Hp.
  destruct Hp as (receipt & p1 & p2 & -> & [Hv1 Hi1] & Hf & [Hv2 Hi2] & Hsum).
  assert (Hn' : p_name selected = ss_policyName sv0).
  { destruct Hn as [Hn|Hn]; [|done]. exfalso. unfold ValidatePolicy in Hv1. pass_guards Hv1. rewrite Hi1, Hn in *. bool_hyps. done. }
  eapply (t_bind _ (λ _ sv l, p_mode selected = ModeSafe ∧ Stay sv0 (scanTrail receipt (ss_offline sv0) p1 (ss_inventory sv0) p2
    (ss_scanSummary sv0)) sv l)); [|intros [] s [Hm Hs]; revert s Hs].
  { destruct (bool_decide _) eqn:Hm; bool_hyps; [by apply t_ret|apply t_fail; [apply refuse_err|apply stay_inv]]. }
  match goal with |- ∀ s, Stay _ ?t _ _ → match ?m s with _ => _ end => change (triple (Stay sv0 t) m (λ _, Inv)) end.
  apply t_fixed. guard_step; [apply stay_send|]. guard_step; [apply reconstructClean_ok|]. rename a0 into rc.
  eapply (t_bind _ (λ _ sv l, sv = with_reconstructed rc sv0 ∧
    (hasBlockingFinding (sm_Findings (ss_scanSummary sv0)) = true → rc = emptyReconstruction) ∧ Inv sv0 l ∧
    reportTrail receipt (ss_offline sv0) p1 (ss_inventory sv0) p2 (ss_scanSummary sv0) selected rc `sublist_of` l)); [|intros []].
  { apply t_update. by intros sv l (Hb & -> & Hi & Hs). }
  guard_step; [by apply t_quiet; intros ? ? ? H; exact H|]. rename a0 into now. guard_step; [apply t_service|].
  intros s ((Hsv & Hb & Hi & Hs) & ->). rewrite Hsv. revert s Hsv Hi Hs.
  match goal with |- ∀ s, _ → _ → ?t `sublist_of` _ → match ?m s with _ => _ end =>
    cut (triple (λ sv l, sv = with_reconstructed rc sv0 ∧ Inv sv0 l ∧ t `sublist_of` l) m (λ _, Inv)) end.
  { intros H s Hsv Hi Hs. by apply H. }
  assert (Hgive : ∀ sv l, sv = with_reconstructed rc sv0 ∧ Inv sv0 l ∧ reportTrail receipt (ss_offline sv0) p1 (ss_inventory sv0) p2
    (ss_scanSummary sv0) selected rc `sublist_of` l → Inv sv l) by (intros sv l (-> & Hi & _); by apply Inv_reconstructed).
  destruct (buildReport _ _ _ _) as [report|e] eqn:Hrep; [|eapply t_pre; [exact Hgive|apply t_abandon, inv_rpcFail]].
  destruct (SignReport _ _ _) as [auth|code] eqn:Hsig; [|eapply t_pre; [exact Hgive|apply t_abandon, inv_rpcFail]].
  eapply (t_bind _ (λ _, Inv)); [|intros []; apply inv_last].
  apply t_update. intros sv l (-> & (_ & Hk & _) & Hs). split; [done|].
  assert (recorded l (ss_receipt sv0)) as Hrec by (apply Hk; rewrite Hst; set_solver).
  split; [done|]. eexists. split; [exact Hs|]. exists receipt, p1, p2, selected, rc, report. split_and!; try done.
  split; try done. exists (ss_receipt sv0), (mkTime (t_nanos now) 0). split; [done|]. cbn [ss_sessionID with_report with_reconstructed].
  rewrite Hsess. exact Hrep.
Qed.

Lemma GetScanReport_ok request : triple Inv (GetScanReport request) (λ _, Inv).
Proof.
  guard_step; [apply t_validatePolicy|]. guard_step; [apply t_service|]. apply t_ret. by intros sv l [[[H _] _] _].
Qed.

(** *** Export leaves the service alone *)

#[local] Abbreviation calm m := (triple Inv m (λ _, Inv)).

Lemma calm_bind {A B} (m : M A) (k : A → M B) : calm m → (∀ a, calm (k a)) → calm (bind m k).
Proof. intros Hm Hk. by eapply t_bind. Qed.

Lemma calm_quiet {A} (f : W → A * W) : calm (quiet f).
Proof. by apply t_quiet. Qed.

Lemma calm_ask {A} (f : W → A * W) record : calm (ask f record).
Proof. apply t_ask. intros. by apply Inv_more. Qed.

Lemma calm_ret {A} (a : A) : calm (ret a).
Proof. by apply t_ret. Qed.

Lemma calm_err {A} (m : M A) : (∀ s, ∃ e, m s = (Err e, s)) → calm m.
Proof. intros H. by apply t_fail. Qed.

Lemma calm_closing {A} (m : M A) : calm m → calm (closing m).
Proof. intros H. apply calm_bind; [apply calm_ask|done]. Qed.

Lemma calm_streamFail {A} grpc : calm (streamFail (A:=A) grpc).
Proof.
  apply calm_bind; [apply calm_quiet|]. intros c s Hs. exact Hs.
Qed.

Lemma calm_sendOr {A} frame (failed : option Code → M A) sent :
  (∀ o, calm (failed o)) → calm sent → calm (sendOr frame failed sent).
Proof. intros Hf Hs. apply calm_bind; [apply calm_ask|]. intros [c|]; auto. Qed.

Lemma calm_exportLoop fuel size total sequence hashed : calm (exportLoop fuel size total sequence hashed).
Proof.
  revert total sequence hashed. induction fuel as [|fuel IH]; intros total sequence hashed; cbn [exportLoop];
    (destruct (negb _); [apply calm_ret|]); [apply calm_err, throw_err|].
  apply calm_bind; [apply calm_quiet|]. intros c. destruct (contextError c); [apply calm_closing, inv_rpcFail|].
  assert (Hch : calm (closing (refuse (A:=Z * list Z) FailedPrecondition "SANITIZED_OUTPUT_CHANGED")))
    by apply calm_closing, calm_err, refuse_err.
  apply calm_bind; [apply calm_bind; [apply calm_quiet|intros; apply calm_ret]|]. intros [data complete]. cbn zeta.
  destruct (len data =? 0)%Z; [destruct complete; done|].
  apply calm_sendOr; [intros; apply calm_closing, calm_streamFail|destruct complete; done].
Qed.

Lemma calm_exportOutput output wantDigest : calm (exportOutput output wantDigest).
Proof.
  apply calm_sendOr; [intros; apply calm_closing, calm_streamFail|]. apply calm_bind; [apply calm_exportLoop|]. intros [total hashed].
  apply calm_bind; [apply calm_quiet|]. intros extra. apply calm_bind; [apply calm_ask|]. intros closed. cbn zeta.
  destruct (_ || _); [apply calm_err, refuse_err|]. apply calm_sendOr; [intros; apply calm_streamFail|apply calm_ret].
Qed.

Lemma ExportApprovedFile_ok context outputID : calm (ExportApprovedFile context outputID).
Proof.
  apply calm_bind; [by apply t_required|]. intros []. apply calm_bind.
  { eapply t_pre; [intros sv l H; exact H|]. intros s Hs. pose proof (t_bindContext context s Hs) as H.
    destruct (bindContext context s) as [[]]; [apply H|done]. }
  intros []. eapply t_bind; [apply t_service|]. intros s. cbn beta. eapply t_pre; [intros sv l [H _]; exact H|].
  destruct (_ || ss_closed s); [apply calm_err, refuse_err|].
  destruct (VerifyApproval _ _ _ _) as [report|]; [|apply inv_rpcFail].
  destruct (findOutput report outputID) as [output|]; [|apply calm_err, refuse_err].
  destruct (_ <? _)%Z; [apply calm_err, refuse_err|]. destruct (hexDecode _) as [d|]; [|apply calm_err, refuse_err].
  destruct (negb _); [apply calm_err, refuse_err|]. apply calm_bind; [apply calm_ask|]. intros r. apply calm_bind.
  { destruct r; [apply calm_ret|apply inv_operationFail]. }
  intros [|]; [apply calm_exportOutput|apply calm_err, refuse_err].
Qed.

Lemma CloseService_ok : calm CloseService.
Proof.
  eapply t_bind; [apply t_service|]. intros s. cbn beta. eapply t_pre; [intros sv l [H _]; exact H|].
  destruct (ss_closed s); [apply calm_ret|]. apply calm_bind; [apply calm_ask|]. intros [e|]; [apply inv_rpcFail|].
  apply t_update. intros sv l _. split; [done|]. split; [intros H; destruct H; cbn; set_solver|].
  exists []. split; [apply sublist_nil_l|done].
Qed.

Lemma calm_state {A} (m : M A) s : calm m → Inv (sv_service s) (sv_log s) → Inv (sv_service (m s).2) (sv_log (m s).2).
Proof. intros Hm Hs. specialize (Hm s Hs). destruct (m s) as [[]]; done. Qed.

Lemma serve_ok requests s :
  Inv (sv_service s) (sv_log s) → Inv (sv_service (fold_left serve requests s)) (sv_log (fold_left serve requests s)).
Proof.
  revert s. induction requests as [|q requests IH]; intros s Hs; [done|]. cbn [fold_left]. apply IH. destruct q; cbn [serve];
    apply calm_state; auto using UpdateDefinitions_ok, GetDefinitionsStatus_ok, VerifyOfflineMode_ok, RunInventory_ok, Scan_ok,
      Reconstruct_ok, GetScanReport_ok, ExportApprovedFile_ok, CloseService_ok.
Qed.

Definition started (sv : ScannerService) (w : W) : St := mkSt sv w [].

Lemma NewScannerService_Ok config token sv :
  NewScannerService config token = Ok sv →
  ∃ key, token = TokenLive key ∧ ss_reportKey sv = token ∧ (ss_maxExportBytes sv ≤ maximumScannerExportBytes)%Z ∧ Inv sv [].
Proof.
  unfold NewScannerService. intros H. pass_guards H. destruct (validateConfiguredScannerTools _) as [tools|]; [|done].
  cbv zeta in H. pass_guards H. destruct token as [| |key]; [done..|]. injection H as <-. exists key. bool_hyps. split_and!; try done.
  split; [done|]. split; [intros Hn; destruct Hn; cbn; set_solver|]. exists []. done.
Qed.

(** ** The key and the limits never change *)

Definition static (s : St) : Token * Z := (ss_reportKey (sv_service s), ss_maxExportBytes (sv_service s)).

Definition framed {A} (m : M A) : Prop := ∀ s, static (m s).2 = static s.

Lemma f_bind {A B} (m : M A) (k : A → M B) : framed m → (∀ a, framed (k a)) → framed (bind m k).
Proof. intros Hm Hk s. unfold bind. specialize (Hm s). destruct (m s) as [[a|e] s1]; [|done]. rewrite (Hk a s1). done. Qed.

Lemma f_same {A} (m : M A) : (∀ s, sv_service (m s).2 = sv_service s) → framed m.
Proof. intros H s. unfold static. by rewrite H. Qed.

Lemma f_quiet {A} (f : W → A * W) : framed (quiet f).
Proof. apply f_same. intros s. unfold quiet. by destruct (f _). Qed.

Lemma f_ask {A} (f : W → A * W) record : framed (ask f record).
Proof. apply f_same. intros s. unfold ask. by destruct (f _). Qed.

#[local] Ltac frame_step :=
  first
    [ apply f_quiet | apply f_ask | apply f_bind; [|intros ?]
    | match goal with |- framed (match ?x with _ => _ end) => destruct x end
    | intros ?; reflexivity ].

Lemma f_policy request state : framed (validatePolicyRequest request state).
Proof. unfold validatePolicyRequest, contextRequired, bindContext, stateError. repeat frame_step. Qed.

Lemma f_request request name states : framed (validateRequestForStates request name states).
Proof. unfold validateRequestForStates, contextRequired, bindContext, stateError. repeat frame_step. Qed.

Lemma f_orFail {A} (r : result tool_error A) : framed (orFail r).
Proof. unfold orFail, operationFail. repeat frame_step. Qed.

Lemma f_send event : framed (mustSend event).
Proof. unfold mustSend. repeat frame_step. Qed.

Lemma f_last event : framed (lastSend event).
Proof. unfold lastSend. repeat frame_step. Qed.

Lemma f_findings findings : framed (sendFindings findings).
Proof. induction findings; cbn [sendFindings]; [intros ?; reflexivity|]. destruct (bool_decide _); [done|]. by apply f_bind; [apply f_send|]. Qed.

Lemma f_operation : framed checkOperation.
Proof. unfold checkOperation. repeat frame_step. Qed.

Lemma f_abandon {A} (m : M A) : framed m → framed (abandon m).
Proof. intros H. unfold abandon, cleanupReconstruction. repeat frame_step; done. Qed.

Lemma f_loop fuel size total sequence hashed : framed (exportLoop fuel size total sequence hashed).
Proof.
  revert total sequence hashed. induction fuel as [|fuel IH]; intros; cbn [exportLoop]; unfold closing, closeReader, sendOr, streamFail, ReadFull;
    repeat first [apply IH | frame_step].
Qed.

Lemma f_serve s q : static (serve s q) = static s.
Proof.
  destruct q; cbn [serve];
    match goal with |- static (?m s).2 = _ => revert s; change (framed m) end;
    unfold UpdateDefinitions, GetDefinitionsStatus, VerifyOfflineMode, RunInventory, Scan, Reconstruct, GetScanReport,
      ExportApprovedFile, CloseService, validateRequest, contextRequired, bindContext, stateError, reconstructClean, exportOutput,
      operationFail, sendOr, streamFail, closing, closeReader;
    repeat first [apply f_request | apply f_policy | apply f_orFail | apply f_send | apply f_last | apply f_findings | apply f_operation
                 | apply f_loop | apply f_abandon | frame_step ].
Qed.

Lemma static_served requests s : static (fold_left serve requests s) = static s.
Proof. revert s. induction requests as [|q requests IH]; intros s; [done|]. cbn [fold_left]. by rewrite IH, f_serve. Qed.

(** ** What a report says *)

Lemma verdictsSeen_Ok seen findings out :
  verdictsSeen seen findings = Ok out → NoDup seen →
  Forall (λ f, goodVerdict f = true) findings ∧ NoDup (map f_RelativePath findings) ∧
  (∀ f, f ∈ findings → f_RelativePath f ∉ seen) ∧ (∀ x, x ∈ out ↔ x ∈ seen ∨ x ∈ map f_RelativePath findings).
Proof.
  revert seen. induction findings as [|f rest IH]; intros seen; cbn [verdictsSeen].
  { intros [= ->] _. split_and!; [constructor|constructor|set_solver|set_solver]. }
  destruct (goodVerdict f) eqn:Hg; [cbn [negb]|done]. destruct (bool_decide _) eqn:Hd; [done|]. bool_hyps. intros H Hn.
  destruct (IH _ H) as (H1 & H2 & H3 & H4); [by constructor|]. cbn [map]. split_and!.
  - by constructor.
  - constructor; [|done]. intros (g & Hg' & Hin)%list_elem_of_fmap. apply (H3 g Hin). rewrite <- Hg'. set_solver.
  - intros g [->|Hin]%elem_of_cons; [done|]. specialize (H3 g Hin). set_solver.
  - intros x. rewrite H4. set_solver.
Qed.

Lemma verdicts_lookup (m : gmap string string) findings f :
  NoDup (map f_RelativePath findings) → f ∈ findings →
  foldl (λ (m : gmap string string) f, <[f_RelativePath f := f_Code f]> m) m findings !! f_RelativePath f = Some (f_Code f).
Proof.
  induction findings as [|g rest IH] using rev_ind; [set_solver|]. rewrite map_app, foldl_app. cbn.
  intros (Hn & Hd & _)%NoDup_app [Hin| ->%list_elem_of_singleton]%elem_of_app; [|by rewrite lookup_insert_eq].
  rewrite lookup_insert_ne; [by apply IH|]. intros E. apply (Hd (f_RelativePath f)); [apply list_elem_of_fmap; eauto|rewrite <- E; set_solver].
Qed.

(** A scan covered the inventory: each entry has one verdict, with the severity of its code. *)
Definition covered (inventory : Inventory) (summary : ScanSummary) : Prop :=
  NoDup (map f_RelativePath (sm_Findings summary)) ∧
  ∀ e, e ∈ iv_Entries inventory → ∃ f, f ∈ sm_Findings summary ∧ f_RelativePath f = ie_RelativePath e ∧
    verdicts (sm_Findings summary) !! ie_RelativePath e = Some (f_Code f) ∧
    (f_Severity f ≠ SeverityBlocking ↔ f_Code f = "CLAMAV_CLEAN").

Lemma validateScanSummary_Ok inventory summary : validateScanSummary inventory summary = Ok tt → covered inventory summary.
Proof.
  unfold validateScanSummary. destruct (_ || _); [done|]. destruct (verdictsSeen [] (sm_Findings summary)) as [seen|] eqn:Hs; [|done].
  destruct (forallb _ _) eqn:Hf; [|done]. intros _. apply verdictsSeen_Ok in Hs as (Hg & Hn & _ & Hin); [|constructor].
  split; [done|]. intros e He. apply forallb_Forall_true in Hf. rewrite Forall_forall in Hf. specialize (Hf e He). bool_hyps.
  rewrite Hin in Hf. destruct Hf as [Hf|(f & Hp & Hf)%list_elem_of_fmap]; [set_solver|]. exists f. split; [done|]. split; [done|].
  split; [rewrite Hp; by apply verdicts_lookup|]. rewrite Forall_forall in Hg. specialize (Hg f Hf). unfold goodVerdict in Hg.
  bool_hyps. destruct (bool_decide (f_Code f = "CLAMAV_CLEAN")) eqn:Hc; bool_hyps; split; intros; try done.
  match goal with H : f_Severity f = SeverityInfo |- _ => by rewrite H end.
Qed.

Definition verdictFor (summary : ScanSummary) (e : InventoryEntry) : string :=
  default "" (verdicts (sm_Findings summary) !! ie_RelativePath e).

Lemma collectInputs_Ok (m : gmap string string) entries inputs :
  collectInputs m entries = Ok inputs → inputs = map (λ e, reportInput (default "" (m !! ie_RelativePath e)) e) entries.
Proof.
  revert inputs. induction entries as [|e rest IH]; intros inputs; cbn [collectInputs]; [by intros [= <-]|]. cbv zeta.
  destruct (bool_decide _); [done|]. destruct (collectInputs m rest) as [tail|]; [|done]. intros [= <-]. cbn [map]. by rewrite <- (IH tail).
Qed.

Lemma elems_appended {A} (l : list A) : elems (appended l) = l.
Proof. by destruct l. Qed.

Lemma buildReport_Ok sv sessionID p now r :
  buildReport sv sessionID p now = Ok r →
  ValidateReport r = Ok tt ∧ SessionID r = sessionID ∧ Policy r = p_name p ∧
  elems (Inputs r) ≡ₚ map (λ e, reportInput (verdictFor (ss_scanSummary sv) e) e) (iv_Entries (ss_inventory sv)) ∧
  elems (Findings r) ≡ₚ sm_Findings (ss_scanSummary sv) ++ rc_Findings (ss_reconstructed sv) ∧
  de_EngineVersion (ur_Definitions (ss_receipt sv)) = rd_EngineVersion (Definitions r) ∧
  de_DatabaseVersion (ur_Definitions (ss_receipt sv)) = rd_DatabaseVersion (Definitions r) ∧
  (if hasBlockingFinding (elems (Findings r)) then Result_ r = "rejected" ∧ elems (SanitizedOutputs r) = []
   else Result_ r = "approved" ∧ elems (SanitizedOutputs r) ≡ₚ rc_Outputs (ss_reconstructed sv)).
Proof.
  unfold buildReport, reportInputs. destruct (_ || _); [done|]. destruct (collectInputs _ _) as [inputs|] eqn:Hi; [|done]. cbv zeta.
  apply collectInputs_Ok in Hi. destruct (ValidateReport _) as [[]|] eqn:Hv; [|done]. intros [= <-].
  cbn [SessionID Policy Inputs Findings Definitions Result_ SanitizedOutputs rd_EngineVersion rd_DatabaseVersion].
  rewrite !elems_appended. split; [done|]. split; [done|]. split; [done|]. split.
  { cbn [elems default]. unfold sortBy. rewrite merge_sort_Permutation. rewrite Hi. done. }
  split; [unfold sortBy; by rewrite merge_sort_Permutation|]. split; [done|]. split; [done|].
  destruct (hasBlockingFinding _); [done|]. split; [done|]. rewrite elems_appended. unfold sortBy. apply merge_sort_Permutation.
Qed.

Lemma scan_bind_Ok {A B} (m : M A) (k : A → M B) s b s' :
  bind m k s = (Ok b, s') → ∃ a s1, m s = (Ok a, s1) ∧ k a s1 = (Ok b, s').
Proof. unfold bind. destruct (m s) as [[a|e] s1]; [eauto|done]. Qed.

(** A signed report: built from the trail, with its verdicts. *)
Definition earned (token : Token) (request : ScannerRequest) (log : list scan_call) (envelope : AuthenticatedReport) : Prop :=
  ∃ r receipt evidence p1 inventory p2 summary p3 reconstructed definitions,
    SignReport Marshal r (keyOf token) = Ok envelope ∧
    reportTrail receipt evidence p1 inventory p2 summary p3 reconstructed `sublist_of` log ∧
    SessionID r = sessionOf (sr_Context request) ∧
    Forall (λ p, ValidatePolicy p = Ok tt ∧ p_name p = Policy r) [p1; p2; p3] ∧ p_mode p3 = ModeSafe ∧
    fits p1 inventory ∧ covered inventory summary ∧
    elems (Inputs r) ≡ₚ map (λ e, reportInput (verdictFor summary e) e) (iv_Entries inventory) ∧
    elems (Findings r) ≡ₚ sm_Findings summary ++ rc_Findings reconstructed ∧
    recorded log definitions ∧ de_DatabaseVersion (ur_Definitions definitions) = rd_DatabaseVersion (Definitions r) ∧
    (Result_ r = "rejected" ∧ elems (SanitizedOutputs r) = [] ∨
     Result_ r = "approved" ∧ elems (SanitizedOutputs r) ≡ₚ rc_Outputs reconstructed ∧
       DidReconstruct inventory summary p3 (Ok reconstructed) ∈ log ∧
       (∀ e, e ∈ iv_Entries inventory → verdictFor summary e = "CLAMAV_CLEAN")).

Lemma not_blocking findings f : hasBlockingFinding findings = false → f ∈ findings → f_Severity f ≠ SeverityBlocking.
Proof. intros H%no_blocking Hf. rewrite Forall_forall in H. auto. Qed.

Lemma hasBlocking_perm l1 l2 : l1 ≡ₚ l2 → hasBlockingFinding l1 = hasBlockingFinding l2.
Proof.
  intros Hp. apply Bool.eq_iff_eq_true. unfold hasBlockingFinding. rewrite !existsb_exists.
  split; intros (f & Hf & Hb); exists f; (split; [|done]); apply list_elem_of_In; apply list_elem_of_In in Hf;
    [by rewrite <- Hp|by rewrite Hp].
Qed.

Lemma progress_earned sv l t request token :
  ss_state sv = scannerStateReportComplete → t `sublist_of` l → progress sv l t → ss_reportKey sv = token →
  ss_sessionID sv = sessionOf (sr_Context request) → earned token request l (ss_report sv).
Proof.
  intros Hst Hs Hp Hk Hid. unfold progress in Hp. rewrite Hst in Hp.
  destruct Hp as (receipt & p1 & p2 & p3 & rc & r & -> & [V1 N1] & Hf & [V2 N2] & Hsum & [[V3 N3] Hm Hb Hne (defs & now & Hd & Hbuild) Hsig]).
  apply buildReport_Ok in Hbuild as (_ & Hsess & Hpol & Hin & Hfi & _ & Hdb & Hres).
  cbn [ss_scanSummary ss_inventory ss_reconstructed ss_receipt with_reconstructed with_definitions] in *.
  apply validateScanSummary_Ok in Hsum. rewrite Hk in Hsig.
  exists r, receipt, (ss_offline sv), p1, (ss_inventory sv), p2, (ss_scanSummary sv), p3, rc, defs.
  split; [done|]. split; [done|]. split; [by rewrite Hsess|]. split; [rewrite !Forall_cons; split_and!; congruence || by constructor|].
  split; [done|]. split; [done|]. split; [done|]. split; [done|]. split; [done|]. split; [done|]. split; [done|].
  rewrite (hasBlocking_perm _ _ Hfi) in Hres. unfold hasBlockingFinding in Hres. rewrite existsb_app in Hres.
  destruct (existsb isBlocking (sm_Findings (ss_scanSummary sv))) eqn:Hbs; cbn [orb] in Hres; [by left|].
  destruct (existsb isBlocking (rc_Findings rc)) eqn:Hbr; [by left|]. right. destruct Hres as [Ha Ho]. split; [done|]. split; [done|].
  split.
  - eapply elem_of_sublist; [|exact Hs]. unfold reportTrail, hasBlockingFinding. rewrite Hbs. set_solver.
  - intros e He. destruct (proj2 Hsum e He) as (f & Hfm & Hpath & Hlook & Hclean). unfold verdictFor. rewrite Hlook. cbn.
    apply Hclean. eapply not_blocking; [exact Hbs|done].
Qed.

(** C24: A report is earned.  For every scanner service that starts and every
    sequence of requests and closes, with tools, policies, clock, streams and
    contexts behaving in any way, a report that is handed out was signed with the
    boot key over a report of the requester's session, and rests on answers the
    tools gave in order: current definitions, the offline verification of those
    definitions, an inventory within the limits of a valid policy, a malware scan
    of that very inventory with one verdict for each entry, and, unless the scan
    blocked it, a reconstruction of the same.  The inputs and findings of the
    report are exactly these; it is approved only when every inventoried file was
    found clean, its outputs are then those of the reconstruction, and otherwise
    it carries none. *)
Theorem reports_are_earned config token sv w requests request envelope s' :
  NewScannerService config token = Ok sv →
  GetScanReport request (fold_left serve requests (started sv w)) = (Ok envelope, s') →
  earned token request (sv_log s') envelope.
Proof.
  intros Hnew H. destruct (NewScannerService_Ok _ _ _ Hnew) as (key & _ & Hk & _ & Hi0).
  pose proof (serve_ok requests (started sv w) Hi0) as Hi. pose proof (static_served requests (started sv w)) as Hst0.
  set (s := fold_left serve requests (started sv w)) in *. apply scan_bind_Ok in H as (p & s1 & Hv & H).
  pose proof (t_validatePolicy request scannerStateReportComplete s Hi) as Ht. rewrite Hv in Ht.
  pose proof (f_policy request scannerStateReportComplete s) as Hfr. rewrite Hv, Hst0 in Hfr. injection Hfr as Hkey _.
  unfold bind, service, ret in H. injection H as <- <-.
  destruct Ht as (((_ & _ & t & Hsub & Hprog) & Hid & _) & _ & Hst & _). cbn in Hkey. rewrite Hk in Hkey.
  by eapply progress_earned.
Qed.


(** ** Exported bytes *)

(** The frames that were sent. *)
Definition framesOf (l : list scan_call) : list Workspace.TransferFrame :=
  l ≫= λ c, match c with SentFrame f true => [f] | _ => [] end.

Lemma framesOf_app l1 l2 : framesOf (l1 ++ l2) = framesOf l1 ++ framesOf l2.
Proof. apply bind_app. Qed.

Lemma sendOr_Ok {A} frame (failed : option Code → M A) sent s r s' :
  (∀ o s a s', failed o s ≠ (Ok a, s')) → sendOr frame failed sent s = (Ok r, s') →
  ∃ s1, sent s1 = (Ok r, s') ∧ framesOf (sv_log s1) = framesOf (sv_log s) ++ [frame].
Proof.
  intros Hf H. apply scan_bind_Ok in H as (o & s1 & Hs & H). unfold ask in Hs. destruct (sendFrame frame _) as [o' w].
  injection Hs as <- <-. destruct o' as [c|]; [by destruct (Hf _ _ _ _ H)|]. eexists. split; [exact H|]. cbn [sv_log].
  by rewrite framesOf_app.
Qed.

Lemma streamFail_never {A} o s (a : A) s' : streamFail o s ≠ (Ok a, s').
Proof. intros H. apply scan_bind_Ok in H as (c & s1 & _ & H). apply scan_bind_Ok in H as (sv & s2 & _ & H). done. Qed.

Lemma closing_never {A} (m : M A) s a s' : (∀ s a s', m s ≠ (Ok a, s')) → closing m s ≠ (Ok a, s').
Proof. intros Hm H. apply scan_bind_Ok in H as (b & s1 & _ & H). by apply Hm in H. Qed.

Lemma quiet_Ok {A} (f : W → A * W) s a s' : quiet f s = (Ok a, s') → sv_log s' = sv_log s.
Proof. unfold quiet. destruct (f _) as [b w]. by intros [= <- <-]. Qed.

Lemma ReadFull_Ok n s r s' : (0 ≤ n)%Z → ReadFull n s = (Ok r, s') → sv_log s' = sv_log s ∧ (len r.1 ≤ n)%Z ∧ (r.2 = true → len r.1 = n).
Proof.
  intros Hn H. apply scan_bind_Ok in H as (data & s1 & Hq & H). apply quiet_Ok in Hq. unfold ret in H. injection H as <- <-.
  cbn [fst snd]. unfold len. rewrite length_take. split; [done|]. split; [lia|]. intros ?%Z.leb_le. lia.
Qed.

(** Every chunk of the loop has a byte; the chunks are those hashed. *)
Lemma exportLoop_Ok fuel size total sequence hashed s r s' :
  (0 ≤ total ≤ size)%Z → (size < two64)%Z → (0 ≤ sequence ≤ total)%Z → exportLoop fuel size total sequence hashed s = (Ok r, s') →
  ∃ datas, framesOf (sv_log s') = framesOf (sv_log s) ++ chunkFrames sequence datas ∧ r = (size, hashed ++ concat datas) ∧
    (total + len (concat datas) = size)%Z ∧ Forall (λ d, 0 < len d ≤ DefaultMaxChunk)%Z datas.
Proof.
  revert total sequence hashed s. induction fuel as [|fuel IH]; intros total sequence hashed s Ht Hs Hq; cbn [exportLoop].
  all: destruct (total <? size)%Z eqn:Hlt; cbn [negb]; [apply Z.ltb_lt in Hlt|apply Z.ltb_ge in Hlt; unfold ret; intros [= <- <-]];
    [|exists []; cbn; rewrite !app_nil_r; unfold len; cbn; split_and!; [done|f_equal; lia|lia|constructor]].
  { done. }
  intros H. apply scan_bind_Ok in H as (c & s1 & Hc%quiet_Ok & H). destruct (contextError c).
  { by apply closing_never in H. }
  apply scan_bind_Ok in H as ([data complete] & s2 & Hr & H). rewrite sub64_small in Hr by (unfold u64; lia).
  apply ReadFull_Ok in Hr as (Hl & Hle & Hful); [|unfold DefaultMaxChunk in *; lia]. cbn [fst snd] in *.
  destruct (len data =? 0)%Z eqn:Hz.
  { destruct complete; [|by apply closing_never in H]. apply Z.eqb_eq in Hz. specialize (Hful eq_refl). unfold DefaultMaxChunk in *. lia. }
  apply sendOr_Ok in H as (s3 & H & Hfr); [|intros; apply closing_never; intros; apply streamFail_never].
  destruct complete; [|by apply closing_never in H]. specialize (Hful eq_refl). apply Z.eqb_neq in Hz.
  assert (0 < len data)%Z by (unfold len in *; lia). rewrite !add64_small in H by (unfold u64, DefaultMaxChunk in *; lia).
  apply IH in H as (datas & Hf & -> & Hlen & Hall); [|unfold DefaultMaxChunk in *; lia..].
  exists (data :: datas). rewrite Hf, Hfr, Hl, Hc. cbn [chunkFrames concat]. rewrite add64_small by (unfold u64; lia).
  rewrite <- !app_assoc. unfold len in *. rewrite length_app. split_and!; [done|done|lia|]. constructor; [lia|done].
Qed.

Definition fuelled {A} (m : M A) : Prop := ∀ s s', m s ≠ (Err OutOfFuel, s').

Lemma fu_bind {A B} (m : M A) (k : A → M B) : fuelled m → (∀ a, fuelled (k a)) → fuelled (bind m k).
Proof.
  intros Hm Hk s s'. unfold bind. specialize (Hm s). destruct (m s) as [[a|e] s1]; [apply Hk|intros [= -> ->]; by apply (Hm s')].
Qed.

Lemma fu_ask {A} (f : W → A * W) record : fuelled (ask f record).
Proof. intros s s'. unfold ask. by destruct (f _). Qed.

Lemma fu_quiet {A} (f : W → A * W) : fuelled (quiet f).
Proof. intros s s'. unfold quiet. by destruct (f _). Qed.

Lemma rpcError_status state e : ∃ g c r, rpcError state e = StatusError g c r state.
Proof. destruct e; cbn; eauto. destruct (_ || _); eauto. Qed.

Lemma fu_rpcFail {A} e : fuelled (rpcFail (A:=A) e).
Proof. intros s s'. unfold rpcFail. destruct (rpcError_status (ss_state (sv_service s)) e) as (g & c & r & ->). done. Qed.

Lemma fu_streamFail {A} o : fuelled (streamFail (A:=A) o).
Proof.
  apply fu_bind; [apply fu_quiet|]. intros c s s'. unfold bind, service, throw, streamError.
  destruct (contextError c) as [e|].
  - destruct (rpcError_status (ss_state (sv_service s)) e) as (g & k & r & ->). done.
  - by destruct (default Internal o).
Qed.

Lemma fu_sendOr {A} frame (failed : option Code → M A) sent : (∀ o, fuelled (failed o)) → fuelled sent → fuelled (sendOr frame failed sent).
Proof. intros Hf Hs. apply fu_bind; [apply fu_ask|]. intros [c|]; auto. Qed.

Lemma fu_closing {A} (m : M A) : fuelled m → fuelled (closing m).
Proof. intros H. apply fu_bind; [apply fu_ask|done]. Qed.

Lemma exportLoop_fuelled fuel size total sequence hashed :
  (0 ≤ total)%Z → (size < two64)%Z → (Z.to_nat (size - total) < fuel)%nat → fuelled (exportLoop fuel size total sequence hashed).
Proof.
  revert total sequence hashed. induction fuel as [|fuel IH]; intros total sequence hashed Ht Hs Hf; [lia|]. cbn [exportLoop].
  destruct (total <? size)%Z eqn:Hlt; cbn [negb]; [apply Z.ltb_lt in Hlt|by intros s s'].
  apply fu_bind; [apply fu_quiet|]. intros c. destruct (contextError c); [apply fu_closing, fu_rpcFail|].
  rewrite sub64_small by (unfold u64; lia). intros s s'. unfold bind.
  destruct (ReadFull (Z.min DefaultMaxChunk (size - total)) s) as [[[data complete]|e] s1] eqn:Hr.
  2: { unfold ReadFull, bind, quiet, ret in Hr. destruct (readerTake _ _). done. }
  apply ReadFull_Ok in Hr as (_ & Hle & Hful); [|unfold DefaultMaxChunk in *; lia]. cbn [fst snd] in *.
  assert (Hch : fuelled (closing (refuse (A:=Z * list Z) FailedPrecondition "SANITIZED_OUTPUT_CHANGED"))) by (apply fu_closing; by intros ? ?).
  revert s'. match goal with |- ∀ s', ?m s1 ≠ _ => cut (fuelled m); [intros H s'; apply H|] end.
  destruct (len data =? 0)%Z eqn:Hz.
  - apply Z.eqb_eq in Hz. destruct complete; [|done]. specialize (Hful eq_refl). unfold DefaultMaxChunk in *. lia.
  - apply Z.eqb_neq in Hz. apply fu_sendOr; [intros; apply fu_closing, fu_streamFail|]. destruct complete; [|done].
    assert (0 < len data)%Z by (unfold len in *; lia). rewrite add64_small by (unfold u64; lia). apply IH; lia.
Qed.


Lemma VerifyApproval_Ok envelope key r :
  VerifyApproval Marshal DecodeStrict envelope key = Ok r →
  SignReport Marshal r key = Ok envelope ∧ DecodeStrict (CanonicalJSON envelope) = Some (r, false) ∧ promotable r.
Proof.
  unfold VerifyApproval. destruct (VerifyReport _ _ _ _) as [r'|] eqn:Hv; [|done]. destruct (_ || _) eqn:Hg; [done|].
  intros [= ->]. bool_hyps. apply VerifyReport_iff in Hv as (Hs & _ & Hd). split; [done|]. split; [done|].
  apply (SignReport_iff Marshal DecodeStrict) in Hs as (Hval & _). apply checked_promotable; [by apply ValidateReport_checked|by right].
Qed.

Lemma findOutput_Some r id output : findOutput r id = Some output → output ∈ elems (SanitizedOutputs r) ∧ so_OutputID output = id.
Proof. intros [Hi Hb]%find_some. split; [by apply list_elem_of_In|]. by apply bool_decide_eq_true in Hb. Qed.

Lemma exportOutput_Ok output wantDigest s s' :
  (0 ≤ so_SizeBytes output < two64)%Z → exportOutput output wantDigest s = (Ok tt, s') →
  ∃ datas, framesOf (sv_log s') = framesOf (sv_log s) ++ FBegin true (so_OutputID output) (Some (outputDescriptor output wantDigest)) ::
      chunkFrames 0 datas ++ [FEnd (so_SizeBytes output) (Some (mkHash "sha256" wantDigest))] ∧
    sha256 (concat datas) = wantDigest ∧ len (concat datas) = so_SizeBytes output ∧ Forall (λ d, 0 < len d ≤ DefaultMaxChunk)%Z datas.
Proof.
  intros Hz H. apply sendOr_Ok in H as (s1 & H & Hf1); [|intros; apply closing_never; intros; apply streamFail_never].
  apply scan_bind_Ok in H as ([total hashed] & s2 & Hl & H). apply exportLoop_Ok in Hl as (datas & Hf2 & [= -> ->] & Hlen & Hall); [|lia..].
  apply scan_bind_Ok in H as (extra & s3 & Hx%quiet_Ok & H). apply scan_bind_Ok in H as (closed & s4 & Hc & H). cbv zeta in H.
  destruct (_ || _) eqn:Hg; [done|]. bool_hyps. apply sendOr_Ok in H as (s5 & H & Hf5); [|intros; apply streamFail_never].
  unfold ret in H. injection H as <-. exists datas. split; [|split_and!; done || lia].
  unfold closeReader, ask in Hc. destruct (readerClose _) as [b w]. injection Hc as <- <-. cbn [sv_log] in Hf5.
  rewrite Hf5, framesOf_app, Hx, Hf2, Hf1. cbn. rewrite <- !app_assoc. cbn. congruence.
Qed.

(** The guards of an export change neither the log nor the report. *)
Lemma guards_log context s s1 :
  bind (contextRequired context) (λ _, bindContext context) s = (Ok tt, s1) →
  sv_log s1 = sv_log s ∧ ss_report (sv_service s1) = ss_report (sv_service s) ∧ static s1 = static s.
Proof.
  intros H. apply scan_bind_Ok in H as ([] & s0 & H0 & H). destruct context as [c|]; [|done]. unfold contextRequired, ret in H0.
  injection H0 as <-. unfold bindContext in H. destruct (ValidateGuestContext _ _); [|done].
  unfold bind, service in H. destruct (bool_decide _); [unfold update in H; by injection H as <-|].
  destruct (bool_decide _); [unfold ret in H; by injection H as <-|done].
Qed.

(** An output the service would export has a size of the code's range. *)
Definition sized (s : St) : Prop := ∀ s1 r output,
  static s1 = static s → VerifyApproval Marshal DecodeStrict (ss_report (sv_service s1)) (keyOf (ss_reportKey (sv_service s1))) = Ok r →
  output ∈ elems (SanitizedOutputs r) → (ss_maxExportBytes (sv_service s1) <? so_SizeBytes output)%Z = false →
  (0 ≤ so_SizeBytes output < two64)%Z.

Lemma export_Ok s context outputID s' :
  sized s → ExportApprovedFile context outputID s = (Ok tt, s') →
  ∃ r output digest datas,
    VerifyApproval Marshal DecodeStrict (ss_report (sv_service s)) (keyOf (ss_reportKey (sv_service s))) = Ok r ∧
    output ∈ elems (SanitizedOutputs r) ∧ so_OutputID output = outputID ∧ hexDecode (so_SHA256 output) = Some digest ∧
    framesOf (sv_log s') = framesOf (sv_log s) ++ FBegin true outputID (Some (outputDescriptor output digest)) ::
      chunkFrames 0 datas ++ [FEnd (so_SizeBytes output) (Some (mkHash "sha256" digest))] ∧
    sha256 (concat datas) = digest ∧ len (concat datas) = so_SizeBytes output ∧ Forall (λ d, 0 < len d ≤ DefaultMaxChunk)%Z datas.
Proof.
  intros Hsize H. apply scan_bind_Ok in H as ([] & s0 & H0 & H). apply scan_bind_Ok in H as ([] & s1 & H1 & H).
  destruct (guards_log context s s1) as (Hlog & Hrep & Hsta); [by unfold bind; rewrite H0|].
  apply scan_bind_Ok in H as (sv & s2 & Hsv & H). unfold service in Hsv. injection Hsv as <- <-.
  destruct (_ || ss_closed _); [done|]. destruct (VerifyApproval _ _ _ _) as [r|] eqn:Hv; [|done].
  destruct (findOutput r outputID) as [output|] eqn:Hfo; [|done]. destruct (_ <? _)%Z eqn:Hle; [done|].
  destruct (hexDecode _) as [digest|] eqn:Hhex; [|done]. destruct (negb _); [done|].
  apply findOutput_Some in Hfo as [Hin Hid]. pose proof (Hsize s1 r output Hsta Hv Hin Hle) as Hz.
  apply scan_bind_Ok in H as (ro & s3 & Hro & H). unfold ask in Hro. destruct (openApproved _ _) as [ro' w]. injection Hro as <- <-.
  apply scan_bind_Ok in H as (reader & s4 & Hor & H). destruct ro' as [b|e].
  2: { unfold orFail, operationFail in Hor. apply scan_bind_Ok in Hor as (? & ? & _ & ?). done. }
  unfold orFail, ret in Hor. injection Hor as <- <-. destruct b; [|done]. apply exportOutput_Ok in H as (datas & Hf & Hrest); [|done].
  exists r, output, digest, datas. injection Hsta as Hkk _. rewrite Hrep, Hkk in Hv. split; [done|]. split; [done|]. split; [done|]. split; [done|].
  rewrite Hf, <- Hid. cbn [sv_log]. rewrite framesOf_app, Hlog. cbn. rewrite app_nil_r. done.
Qed.

Lemma export_fuelled s context outputID : sized s → ∀ s', ExportApprovedFile context outputID s ≠ (Err OutOfFuel, s').
Proof.
  intros Hsize s' H. unfold ExportApprovedFile, bind at 1 in H. destruct (contextRequired context s) as [[[]|e] s0] eqn:H0.
  2: { destruct context; unfold contextRequired in H0; [done|]. injection H0 as <- <-. done. }
  unfold bind at 1 in H. destruct (bindContext context s0) as [[[]|e] s1] eqn:H1.
  2: { revert s0 s1 H1 H0 H. unfold bindContext. intros s0 s1 H1 _ [= -> ->]. revert H1. destruct (ValidateGuestContext _ _); [|done].
       unfold bind, service. destruct (bool_decide _); [done|]. by destruct (bool_decide _). }
  destruct (guards_log context s s1) as (_ & _ & Hsta); [by unfold bind; rewrite H0|].
  unfold bind at 1, service at 1 in H. destruct (_ || ss_closed _); [done|].
  destruct (VerifyApproval _ _ _ _) as [r|code] eqn:Hv; [|by apply fu_rpcFail in H].
  destruct (findOutput r outputID) as [output|] eqn:Hfo; [|done]. destruct (_ <? _)%Z eqn:Hle; [done|].
  destruct (hexDecode _) as [digest|] eqn:Hhex; [|done]. destruct (negb _); [done|].
  apply findOutput_Some in Hfo as [Hin Hid]. pose proof (Hsize s1 r output Hsta Hv Hin Hle) as Hz. revert H.
  match goal with |- ?m s1 = _ → _ => cut (fuelled m); [intros Hfu H; by apply Hfu in H|] end.
  apply fu_bind; [apply fu_ask|]. intros ro. apply fu_bind.
  { destruct ro as [b|e]; [by intros ? ?|]. apply fu_bind; [apply fu_quiet|]. intros c. apply fu_rpcFail. }
  intros [|]; [|by intros ? ?]. apply fu_sendOr; [intros; apply fu_closing, fu_streamFail|].
  apply fu_bind; [apply exportLoop_fuelled; lia|]. intros [total hashed]. apply fu_bind; [apply fu_quiet|]. intros extra.
  apply fu_bind; [apply fu_ask|]. intros closed. cbv zeta. destruct (_ || _); [by intros ? ?|].
  apply fu_sendOr; [intros; apply fu_streamFail|by intros ? ?].
Qed.

(** Exported bytes are the approved ones.  For every scanner service that
    starts and every sequence of requests before, an export never runs its loop
    out of its bound, and an export that succeeds sent exactly a begin frame with
    the descriptor of an output of an approved report that the boot key signed,
    the output's bytes in non-empty numbered chunks of at most the chunk limit,
    and an end frame; the bytes have the size and the SHA-256 that the report
    gives for that output.  Sizes are unsigned numbers in the report's encoding. *)
Theorem exports_are_approved config token sv w requests context outputID :
  (∀ j r b, DecodeStrict j = Some (r, b) → Forall (λ o, 0 ≤ so_SizeBytes o)%Z (elems (SanitizedOutputs r))) →
  NewScannerService config token = Ok sv →
  let s := fold_left serve requests (started sv w) in
  (∀ s', ExportApprovedFile context outputID s ≠ (Err OutOfFuel, s')) ∧
  (∀ s', ExportApprovedFile context outputID s = (Ok tt, s') →
     ∃ r output digest datas,
       SignReport Marshal r (keyOf token) = Ok (ss_report (sv_service s)) ∧ promotable r ∧
       output ∈ elems (SanitizedOutputs r) ∧ so_OutputID output = outputID ∧ hexDecode (so_SHA256 output) = Some digest ∧
       framesOf (sv_log s') = framesOf (sv_log s) ++ FBegin true outputID (Some (outputDescriptor output digest)) ::
         chunkFrames 0 datas ++ [FEnd (so_SizeBytes output) (Some (mkHash "sha256" digest))] ∧
       sha256 (concat datas) = digest ∧ len (concat datas) = so_SizeBytes output ∧
       Forall (λ d, 0 < len d ≤ DefaultMaxChunk)%Z datas).
Proof.
  intros Hdec Hnew s. destruct (NewScannerService_Ok _ _ _ Hnew) as (key & _ & Hk & Hmax & Hi0).
  pose proof (static_served requests (started sv w)) as Hst. fold s in Hst. injection Hst as Hkey Hlim. rewrite Hk in Hkey.
  assert (Hsize : sized s).
  { intros s1 r output [= _ Hm] (_ & Hd & _)%VerifyApproval_Ok Hin Hle. apply Hdec in Hd. rewrite Forall_forall in Hd. specialize (Hd _ Hin).
    rewrite Hm, Hlim in Hle. cbn in Hle. apply Z.ltb_ge in Hle. unfold maximumScannerExportBytes, two64 in *. lia. }
  split.
  - apply (export_fuelled s context outputID Hsize).
  - intros s' H. apply (export_Ok s context outputID s' Hsize) in H as (r & output & digest & datas & Hver & H).
    rewrite Hkey in Hver. apply VerifyApproval_Ok in Hver as (Hs & _ & Hp). exists r, output, digest, datas. done.
Qed.

End Service.

(** ** Witnesses *)

(** A desk of tools that answer as they should; the clock moves at every look, and
    a newer database is there once it did. *)
Record Desk := mkDesk { dk_clock : Z; dk_left : list Z }.

Definition demoContent : list Z := bytesOf "hello".
Definition demoReceipt (version : string) : UpdateReceipt :=
  mkReceipt "overlay-1" (mkEvidence "ClamAV 1.4" version (mkTime 1000000000000000 0) true true true).
Definition demoInventory : Inventory := mkInventory [mkEntry "notes.txt" 5 digestA "text/plain" "text/plain" true 33152 1 2] 5.
Definition demoSummary (code : string) (severity : Severity) : ScanSummary :=
  mkScanSummary [mkFinding code severity "notes.txt" "The file was scanned." ""] 1 true.
Definition demoSanitized : ReportSanitizedOutput :=
  mkOutput "scan-out-00112233445566778899aabbccddeeff" "notes.txt" digestA 5 (hexEncode (textOf (sha256 demoContent))) "text/plain"
    "text-utf8-line-normalize-v1" "CLAMAV_CLEAN".
Definition demoReconstruction : ScannerReconstruction :=
  mkReconstruction [] [] [demoSanitized] [mkTool "private-vm-text-normalizer" "1"] true true true.

#[global] Instance desk_world : ScannerWorld Desk := {
  definitionsUpdate w := (Ok (demoReceipt "27500"), w);
  definitionsStatus w := (Ok (demoReceipt (if (dk_clock w =? 1000000005000000)%Z then "27500" else "27501")), w);
  isolationVerify _ w := (Ok (mkBoot PhaseOffline "overlay-1" false [] (mkQuarantine true true quarantineOptions)), w);
  inventoryTool _ w := (Ok demoInventory, w);
  malwareTool _ _ w := (Ok (demoSummary "CLAMAV_CLEAN" SeverityInfo), w);
  reconstructTool _ _ _ w := (Ok demoReconstruction, w);
  reconstructCleanup w := (None, w);
  openApproved _ w := (Ok true, mkDesk (dk_clock w) demoContent);
  policiesResolve name w := (if bool_decide (name = "safe") then Some (policyFromWire safeWire) else None, w);
  scannerNow w := (mkTime (dk_clock w) 0, mkDesk (dk_clock w + 5 * second) (dk_left w));
  contextNow _ w := (Live, w);
  sendEvent _ w := (None, w);
  sendFrame _ w := (None, w);
  readerTake n w := (take (Z.to_nat n) (dk_left w), mkDesk (dk_clock w) (drop (Z.to_nat n) (dk_left w)));
  readerExtra w := ((take 1 (dk_left w), ReadEOF), w);
  readerClose w := (true, w)
}.

Definition demoScanConfig : ScannerServiceConfig :=
  mkConfig (GuestBoundary.mkIdentity RoleScanner ("sha256:" +:+ digestA) (String.substring 0 40 digestA) demoToken "nixos" "1.0") true
    [mkTool "file" "5.45"; mkTool "clamav" "1.4"] 0 0 0 0.

Definition demoScanService : ScannerService :=
  match NewScannerService demoScanConfig (TokenLive demoToken) with
  | Ok sv => sv
  | Err _ => mkService (cf_Identity demoScanConfig) TokenNil [] 0 0 0 0 scannerStateClosed "" "" (mkTime 0 0) noReceipt noBoot
               noInventory noSummary noReconstruction noReport true
  end.

Definition demoContext : option GuestContext :=
  Some (mkGuestContext (Some (mkRequestContext (Some (mkVersion 1 0)) "request-1" "pvm-00112233445566778899aabbccddeeff")) GUEST_ROLE_SCANNER).

Definition demoRequests : list scan_request :=
  [AskUpdate (mkScannerRequest demoContext ""); AskOffline (mkScannerRequest demoContext "");
   AskInventory (mkScannerRequest demoContext "safe"); AskScan (mkScannerRequest demoContext "safe");
   AskReconstruct (mkScannerRequest demoContext "safe")].

(** A codec that knows one report, the one of this run. *)
Definition demoMarshal (r : ScanReport) : option string := Some "report".

Definition demoDesk : Desk := mkDesk 1000000005000000 [].

Definition demoBuilt : ScanReport :=
  let s := sv_service (fold_left (serve demoMarshal (λ _, None)) demoRequests (started demoScanService demoDesk)) in
  match buildReport s (ss_sessionID s) (policyFromWire safeWire) (mkTime (1000000005000000 + 5 * second) 0) with
  | Ok r => r
  | Err _ => demoReport "notes.txt" digestA
  end.

Definition demoDecode (j : string) : option (ScanReport * bool) := if bool_decide (j = "report") then Some (demoBuilt, false) else None.

#[local] Abbreviation demoServed := (fold_left (serve demoMarshal demoDecode) demoRequests (started demoScanService demoDesk)).
#[local] Abbreviation demoGiven := (GetScanReport (mkScannerRequest demoContext "safe") demoServed).
#[local] Abbreviation demoExported := (ExportApprovedFile demoMarshal demoDecode demoContext (so_OutputID demoSanitized) demoServed).

Lemma reports_are_earned_witness :
  is_Ok demoGiven.1 = true ∧ ∃ envelope, earned demoMarshal (TokenLive demoToken) (mkScannerRequest demoContext "safe") (sv_log demoGiven.2) envelope.
Proof.
  assert (Hok : is_Ok demoGiven.1 = true) by (vm_compute; reflexivity). split; [exact Hok|].
  assert (Heq : ∃ envelope, demoGiven = (Ok envelope, demoGiven.2)) by (destruct demoGiven as [[envelope|e] s']; [by eexists|discriminate Hok]).
  destruct Heq as [envelope Heq]. exists envelope.
  exact (reports_are_earned demoMarshal demoDecode demoScanConfig (TokenLive demoToken) demoScanService demoDesk demoRequests
    (mkScannerRequest demoContext "safe") envelope demoGiven.2 ltac:(vm_compute; reflexivity) Heq).
Defined.

Lemma exports_are_approved_witness :
  is_Ok demoExported.1 = true ∧ ∃ r datas, promotable r ∧ sha256 (concat datas) = sha256 demoContent.
Proof.
  assert (Hok : is_Ok demoExported.1 = true) by (vm_compute; reflexivity). split; [exact Hok|].
  assert (Hdec : ∀ j r b, demoDecode j = Some (r, b) → Forall (λ o, 0 ≤ so_SizeBytes o)%Z (elems (SanitizedOutputs r))).
  { assert (Hb : forallb (λ o, 0 <=? so_SizeBytes o)%Z (elems (SanitizedOutputs demoBuilt)) = true) by (vm_compute; reflexivity).
    unfold demoDecode. generalize demoBuilt, Hb. intros built Hbuilt j r b. destruct (bool_decide _); [|done]. intros [= <- <-].
    apply Forall_forall. intros o Ho. rewrite forallb_forall in Hbuilt. apply Z.leb_le, Hbuilt. by apply list_elem_of_In. }
  destruct (exports_are_approved demoMarshal demoDecode demoScanConfig (TokenLive demoToken) demoScanService demoDesk demoRequests
    demoContext (so_OutputID demoSanitized) Hdec ltac:(vm_compute; reflexivity)) as [_ He].
  assert (Heq : demoExported = (Ok tt, demoExported.2)) by (destruct demoExported as [[[]|e] s']; [done|discriminate Hok]).
  destruct (He _ Heq) as (r & output & digest & datas & _ & Hp & _ & _ & _ & Hf & Hsha & _). exists r, datas. split; [exact Hp|].
  rewrite Hsha. assert (Hlast : last (framesOf (sv_log demoExported.2)) = Some (FEnd 5 (Some (mkHash "sha256" (sha256 demoContent)))))
    by (vm_compute; reflexivity).
  rewrite Hf, app_comm_cons, app_assoc, last_snoc in Hlast. by injection Hlast.
Defined.

(** The definitions a report names are those read last: a status request between
    the offline verification and the report replaces the verified receipt. *)
Example reported_definitions_unverified :
  let s := fold_left (serve demoMarshal demoDecode)
    [AskOffline (mkScannerRequest demoContext ""); AskStatus (mkScannerRequest demoContext "");
     AskInventory (mkScannerRequest demoContext "safe"); AskScan (mkScannerRequest demoContext "safe");
     AskReconstruct (mkScannerRequest demoContext "safe")] (started demoScanService demoDesk) in
  ss_state (sv_service s) = scannerStateReportComplete ∧
  (sv_log s ≫= λ c, match c with DidVerify r (Ok _) => [de_DatabaseVersion (ur_Definitions r)] | _ => [] end) = ["27500"] ∧
  de_DatabaseVersion (ur_Definitions (ss_receipt (sv_service s))) = "27501".
Proof. vm_compute. done. Qed.
