(* ===== verification/GuestExporter.v ===== *)
(** * The guest exporter

    Models [src/internal/guest/exporter_service.go], the service of the
    networkless exporter that inspects, prepares, writes, rereads and finalizes
    one device, and the commands and file operations of its adapter in
    [exporter_adapter_linux.go].  The service is stated against any adapter; the
    adapter against a world in which any command or system call may fail.
    [gx_log] is a ghost record of the calls the service made of its adapter. *)

From Stdlib Require Import ZArith Lia Ascii.
From stdpp Require Import strings base tactics option list sets.
From S2P Require Import GuestBoundary.
From S2P Require Import Prelude GoText Sha256 SessionModel Transfer Workspace.

Open Scope string_scope.
Open Scope list_scope.

Definition maximumExporterPassphraseBytes : Z := 1024.
Definition maximumExporterSecretChunk : Z := 256.
Definition maximumExporterSecretFrames : Z := 4.
Definition millisecond : Z := 1000000.
Definition second : Z := 1000000000.
Definition defaultExporterOperationTimeout : Z := 7200 * second.
Definition maximumExporterOperationTimeout : Z := 86400 * second.
Definition defaultExporterCleanupTimeout : Z := 30 * second.
Definition maximumExporterFileBytes : Z := 17592186044416.

(** [^usb-[0-9a-f]{16}$], [^[0-9a-f]{4}$] and [^[A-Za-z0-9][A-Za-z0-9._-]{7,127}$] *)
Definition exporterEnrollmentPattern : string → bool := match_prefix_exact "usb-" is_lower_hex 16.
Definition exporterHexIDPattern : string → bool := match_prefix_exact "" is_lower_hex 4.
Definition exporterTransferPattern : string → bool := guestRequestIDPattern.

(** ** Expectations and evidence *)

Record ExporterDeviceExpectation := mkExpected {
  ex_EnrollmentID : string;
  ex_VendorID : string;
  ex_ProductID : string;
  ex_Serial : string;
  ex_Capacity : Z
}.

#[global] Instance expectation_eq_dec : EqDecision ExporterDeviceExpectation.
Proof. solve_decision. Defined.

Definition validateExpectation (e : ExporterDeviceExpectation) : bool :=
  exporterEnrollmentPattern (ex_EnrollmentID e) && exporterHexIDPattern (ex_VendorID e) && exporterHexIDPattern (ex_ProductID e) &&
  negb (ex_Capacity e =? 0)%Z && (slen (ex_Serial e) <=? 256)%Z && negb (ContainsAny (ex_Serial e) lineBreaks).

Definition equalExpectation (a b : ExporterDeviceExpectation) : bool :=
  bool_decide (ex_EnrollmentID a = ex_EnrollmentID b) && bool_decide (ex_VendorID a = ex_VendorID b) &&
  bool_decide (ex_ProductID a = ex_ProductID b) && bool_decide (ex_Serial a = ex_Serial b) && (ex_Capacity a =? ex_Capacity b)%Z.

Record ExporterDeviceEvidence := mkDeviceEvidence {
  ev_Expectation : ExporterDeviceExpectation;
  ev_NoNetwork : bool;
  ev_HostPathAbsent : bool;
  ev_SingleDevice : bool;
  ev_MassStorageOnly : bool;
  ev_Mounted : bool
}.

Record ExporterPrepareEvidence := mkPrepareEvidence { pv_IdentityVerified : bool; pv_LUKS2 : bool; pv_Ext4 : bool; pv_Mounted : bool }.

Record ExporterWriteEvidence := mkWriteEvidence {
  wv_ReceiverDigest : list Z;
  wv_FileSynced : bool;
  wv_FilesystemSynced : bool;
  wv_AtomicRename : bool
}.

Record ExporterFinalizeEvidence := mkFinalizeEvidence { fv_Unmounted : bool; fv_LUKSClosed : bool }.

Record USBTransferReceipt := mkUSBReceipt {
  ur_TransferId : string;
  ur_Descriptor : option FileDescriptor;
  ur_ReceiverDigest : Hash;
  ur_RereadDigest : option Hash;
  ur_FileSynced : bool;
  ur_FilesystemSynced : bool;
  ur_AtomicRename : bool
}.

(** What [status] messages say. *)
Record USBStatus := mkStatus {
  us_NoNetwork : bool;
  us_Mounted : bool;
  us_Flushed : bool;
  us_Unmounted : bool;
  us_IdentityVerified : bool;
  us_Luks2 : bool;
  us_Ext4 : bool;
  us_LuksClosed : bool
}.

(** A device as a request names it; the identifiers are lowered. *)
Definition expectationFromProto (unicodeLower : N → N) (value : ExporterDeviceExpectation) : option ExporterDeviceExpectation :=
  let e := mkExpected (ex_EnrollmentID value) (ToLower unicodeLower (ex_VendorID value)) (ToLower unicodeLower (ex_ProductID value))
             (ex_Serial value) (ex_Capacity value) in
  if validateExpectation e then Some e else None.

Definition exporterHeader (value : option FileDescriptor) (maximum : Z) : option Header :=
  match value with
  | None => None
  | Some d =>
  match fd_Digest d with
  | None => None
  | Some h =>
      if negb (bool_decide (hash_Algorithm h = "sha256")) || negb (length (hash_Value h) =? 32)%nat then None
      else
        let header := mkHeader (fd_LogicalName d) (fd_SizeBytes d) (hash_Value h) (fd_DetectedMime d) in
        if is_Ok (Transfer.Validate header maximum) then Some header else None
  end end.

Definition constantHash (value : option Hash) (expected : list Z) : bool :=
  match value with Some h => bool_decide (hash_Algorithm h = "sha256") && bool_decide (hash_Value h = expected) | None => false end.

Definition protoSHA256 (value : list Z) : Hash := mkHash "sha256" value.

(** ** The interface *)

(** Why a call failed, as far as [errors.Is] tells. *)
Inductive cause := CauseCanceled | CauseDeadline | CauseOther.

#[global] Instance cause_eq_dec : EqDecision cause.
Proof. solve_decision. Defined.

Inductive exporter_error := RpcError (grpc : Code) (code : string) (retryable : bool) | StreamError | OutOfFuel.

Inductive prepare_frame := PBegin (sessionID : string) (device : ExporterDeviceExpectation) | PChunk (data : list Z) | PNone.
Inductive export_frame := EBegin (sessionID transferID : string) (descriptor : option FileDescriptor)
  | EChunk (sequence : Z) (data : list Z) | EEnd (total : Z) (digest : option Hash) | ENone.

Inductive received (A : Type) := Received (a : A) | EndOfStream | Broken (c : cause).
Arguments Received {A}. Arguments EndOfStream {A}. Arguments Broken {A}.

Class ExporterAdapter (W : Type) := {
  adInspect : ExporterDeviceExpectation → W → result cause ExporterDeviceEvidence * W;
  adPrepare : list Z → W → result cause ExporterPrepareEvidence * W;
  adBeginWrite : Header → string → W → result cause unit * W;      (* an error or no writer: [Err] *)
  adWriteChunk : Z → list Z → W → result cause unit * W;
  adCommit : Z → list Z → W → result cause ExporterWriteEvidence * W;
  adAbort : W → result cause unit * W;
  adReread : string → W → result cause (list Z) * W;
  adFinalize : W → result cause ExporterFinalizeEvidence * W;
  adCleanup : W → result cause unit * W
}.

(** Contexts, streams and protected memory around the service. *)
Class ExporterEnv (W : Type) := {
  operationErr : W → option cause * W;
  cleanupErr : W → bool * W;                                         (* the cleanup ran out of time *)
  recvPrepare : W → received prepare_frame * W;
  recvFrame : W → received export_frame * W;
  sendAndClose : W → bool * W;
  newSecret : W → bool * W
}.

Inductive exporter_call :=
| DidInspect (e : ExporterDeviceExpectation) (r : result cause ExporterDeviceEvidence)
| DidPrepare (passphrase : list Z) (r : result cause ExporterPrepareEvidence)
| DidBegin (header : Header) (id : string) (r : result cause unit)
| DidWrite (sequence : Z) (data : list Z) (r : result cause unit)
| DidCommit (written : Z) (digest : list Z) (r : result cause ExporterWriteEvidence)
| DidAbort
| DidReread (id : string) (r : result cause (list Z))
| DidFinalize (r : result cause ExporterFinalizeEvidence)
| DidCleanup (ok : bool).

(** ** The service *)

Inductive exporterRPCState := exporterStateBoot | exporterStateInspected | exporterStatePrepared | exporterStateWritten
  | exporterStateVerified | exporterStateFinalized | exporterStateIncomplete | exporterStateClosed.

#[global] Instance exporterRPCState_eq_dec : EqDecision exporterRPCState.
Proof. solve_decision. Defined.

Record ExporterServiceConfig := mkExporterConfig {
  xc_Identity : GuestBoundary.Identity;
  xc_HasAdapter : bool;
  xc_OperationTimeout : Z;
  xc_CleanupTimeout : Z;
  xc_MaxFileBytes : Z
}.

Record ExporterService := mkExporter {
  xs_operationTimeout : Z;
  xs_cleanupTimeout : Z;
  xs_maxFileBytes : Z;
  xs_state : exporterRPCState;
  xs_sessionID : string;
  xs_expectation : ExporterDeviceExpectation;
  xs_receipt : option USBTransferReceipt;
  xs_closed : bool
}.

Definition noDevice : ExporterDeviceExpectation := mkExpected "" "" "" "" 0.

Definition defaulted (value standard : Z) : Z := if (value =? 0)%Z then standard else value.

Definition NewExporterService (config : ExporterServiceConfig) : result string ExporterService :=
  fail_if (negb (bool_decide (id_Role (xc_Identity config) = RoleExporter)))
    with "exporter service requires the exporter compiled identity" ;;
  fail_if (negb (is_Ok (ValidateIdentity (xc_Identity config)))) with "exporter identity" ;;
  fail_if (negb (xc_HasAdapter config)) with "exporter service requires a fixed-policy adapter" ;;
  let operationTimeout := defaulted (xc_OperationTimeout config) defaultExporterOperationTimeout in
  fail_if ((operationTimeout <? millisecond)%Z || (maximumExporterOperationTimeout <? operationTimeout)%Z)
    with "exporter operation timeout is outside supported bounds" ;;
  let cleanupTimeout := defaulted (xc_CleanupTimeout config) defaultExporterCleanupTimeout in
  fail_if ((cleanupTimeout <? millisecond)%Z || (60 * second <? cleanupTimeout)%Z)
    with "exporter cleanup timeout is outside supported bounds" ;;
  let maximum := defaulted (xc_MaxFileBytes config) 4398046511104 in
  fail_if (maximumExporterFileBytes <? maximum)%Z with "exporter file bound exceeds the supported maximum" ;;
  Ok (mkExporter operationTimeout cleanupTimeout maximum exporterStateBoot "" noDevice None false).

Definition with_state (state : exporterRPCState) (s : ExporterService) : ExporterService :=
  mkExporter (xs_operationTimeout s) (xs_cleanupTimeout s) (xs_maxFileBytes s) state (xs_sessionID s) (xs_expectation s)
    (xs_receipt s) (xs_closed s).
Definition with_device (sessionID : string) (e : ExporterDeviceExpectation) (s : ExporterService) : ExporterService :=
  mkExporter (xs_operationTimeout s) (xs_cleanupTimeout s) (xs_maxFileBytes s) exporterStateInspected sessionID e (xs_receipt s) (xs_closed s).
Definition with_receipt (state : exporterRPCState) (r : USBTransferReceipt) (s : ExporterService) : ExporterService :=
  mkExporter (xs_operationTimeout s) (xs_cleanupTimeout s) (xs_maxFileBytes s) state (xs_sessionID s) (xs_expectation s) (Some r) (xs_closed s).
Definition closedExporter (s : ExporterService) : ExporterService :=
  mkExporter (xs_operationTimeout s) (xs_cleanupTimeout s) (xs_maxFileBytes s) exporterStateClosed (xs_sessionID s) (xs_expectation s)
    (xs_receipt s) true.

Section Service.
Context (unicodeLower : N → N) {W : Type} `{!ExporterAdapter W} `{!ExporterEnv W}.

Record St := mkSt { gx_service : ExporterService; gx_world : W; gx_log : list exporter_call }.

Definition M (A : Type) : Type := St → result exporter_error A * St.

Definition ret {A} (a : A) : M A := λ s, (Ok a, s).
Definition throw {A} (e : exporter_error) : M A := λ s, (Err e, s).
Definition bind {A B} (m : M A) (k : A → M B) : M B := λ s,
  match m s with (Ok a, s) => k a s | (Err e, s) => (Err e, s) end.

#[local] Notation "'do' x := m ; k" := (bind m (λ x, k)) (at level 100, x binder, m at level 99, right associativity).

Definition service : M ExporterService := λ s, (Ok (gx_service s), s).
Definition update (f : ExporterService → ExporterService) : M unit := λ s, (Ok tt, mkSt (f (gx_service s)) (gx_world s) (gx_log s)).
Definition quiet {A} (f : W → A * W) : M A := λ s, let '(a, w) := f (gx_world s) in (Ok a, mkSt (gx_service s) w (gx_log s)).
Definition ask {A} (f : W → A * W) (record : A → exporter_call) : M A := λ s,
  let '(a, w) := f (gx_world s) in (Ok a, mkSt (gx_service s) w (gx_log s ++ [record a])).

Definition stateError {A} : M A := throw (RpcError FailedPrecondition "USB_EXPORTER_STATE_INVALID" false).
Definition invalidIdentity {A} : M A := throw (RpcError FailedPrecondition "USB_EXPORTER_IDENTITY_MISMATCH" false).
Definition badRequest {A} (code : string) : M A := throw (RpcError InvalidArgument code false).

(** The causes of an answer and of the operation's context, joined. *)
Definition causesOf {A} (r : result cause A) (ended : option cause) : list cause :=
  match r with Err c => [c] | Ok _ => [] end ++ match ended with Some c => [c] | None => [] end.

Definition failCode (causes : list cause) : Code :=
  if bool_decide (CauseCanceled ∈ causes) then Canceled
  else if bool_decide (CauseDeadline ∈ causes) then DeadlineExceeded
  else FailedPrecondition.

(** [fail]: clean up, become incomplete, and say so. *)
Definition fail {A} (code : string) (causes : list cause) : M A :=
  do r := ask adCleanup (λ r, DidCleanup (is_Ok r)) ;
  do late := quiet cleanupErr ;
  do _ := update (with_state exporterStateIncomplete) ;
  if is_Ok r && negb late then throw (RpcError (failCode causes) code false)
  else throw (RpcError FailedPrecondition "USB_CLEANUP_INCOMPLETE" true).

(** [fail] with the error of a call and that of the operation's context, joined. *)
Definition failJoined {A B} (code : string) (r : result cause A) : M B :=
  do ended := quiet operationErr ; fail code (causesOf r ended).

Definition sessionOf (context : option GuestContext) : string :=
  default "" (c ← context; r ← gx_Context c; Some (rx_SessionId r)).

Definition goodDevice (e : ExporterDeviceExpectation) (ev : ExporterDeviceEvidence) : bool :=
  equalExpectation (ev_Expectation ev) e && ev_NoNetwork ev && ev_HostPathAbsent ev && ev_SingleDevice ev &&
  ev_MassStorageOnly ev && negb (ev_Mounted ev).

Definition InspectUSB (context : option GuestContext) (device : ExporterDeviceExpectation) : M USBStatus :=
  do s := service ;
  if xs_closed s || negb (bool_decide (xs_state s = exporterStateBoot)) then stateError
  else
  match expectationFromProto unicodeLower device with
  | None => invalidIdentity
  | Some e =>
      do r := ask (adInspect e) (DidInspect e) ;
      do ended := quiet operationErr ;
      match r, ended with
      | Ok ev, None =>
          if goodDevice e ev then
            do _ := update (with_device (sessionOf context) e) ;
            ret (mkStatus true false false true true false false false)
          else failJoined "USB_EXPORTER_IDENTITY_MISMATCH" r
      | _, _ => failJoined "USB_EXPORTER_IDENTITY_MISMATCH" r
      end
  end.

Definition transportError {A} (c : cause) : M A :=
  throw match c with
        | CauseCanceled => RpcError Canceled "USB_PREPARE_CANCELED" true
        | CauseDeadline => RpcError DeadlineExceeded "USB_PREPARE_TIMEOUT" true
        | CauseOther => RpcError InvalidArgument "USB_PASSPHRASE_STREAM_INVALID" false
        end.

(** The passphrase stream. *)
Fixpoint readPassphrase (fuel : nat) (frames : Z) (buffer : list Z) : M (list Z) :=
  match fuel with
  | O => throw OutOfFuel
  | S fuel =>
      do f := quiet recvPrepare ;
      match f with
      | EndOfStream => ret buffer
      | Broken c => transportError c
      | Received frame =>
          match frame with
          | PChunk data =>
              if (len data =? 0)%Z || (maximumExporterSecretChunk <? len data)%Z || (maximumExporterSecretFrames <? frames + 1)%Z ||
                 (maximumExporterPassphraseBytes - len buffer <? len data)%Z
              then badRequest "USB_PASSPHRASE_STREAM_INVALID"
              else readPassphrase fuel (frames + 1) (buffer ++ data)
          | _ => badRequest "USB_PASSPHRASE_STREAM_INVALID"
          end
      end
  end.

Definition goodPreparation (ev : ExporterPrepareEvidence) : bool :=
  pv_IdentityVerified ev && pv_LUKS2 ev && pv_Ext4 ev && pv_Mounted ev.

Definition finish {A} (a : A) : M A := do sent := quiet sendAndClose ; if sent : bool then ret a else throw StreamError.

Definition PrepareExactUSB : M USBStatus :=
  do s := service ;
  if xs_closed s || negb (bool_decide (xs_state s = exporterStateInspected)) then stateError
  else
  do first := quiet recvPrepare ;
  match first with
  | Received (PBegin sessionID device) =>
      match expectationFromProto unicodeLower device with
      | None => invalidIdentity
      | Some e =>
          if negb (equalExpectation e (xs_expectation s)) || negb (bool_decide (sessionID = xs_sessionID s)) then invalidIdentity
          else
            do buffer := readPassphrase 6 0 [] ;
            if (len buffer <? 8)%Z then badRequest "USB_PASSPHRASE_INVALID"
            else
              do protected := quiet newSecret ;
              if negb protected then throw (RpcError Internal "USB_SECRET_UNAVAILABLE" false)
              else
                do r := ask (adPrepare buffer) (DidPrepare buffer) ;
                do ended := quiet operationErr ;
                match r, ended with
                | Ok ev, None =>
                    if goodPreparation ev then
                      do _ := update (with_state exporterStatePrepared) ;
                      finish (mkStatus true true false false true true true false)
                    else failJoined "USB_PREPARE_INCOMPLETE" r
                | _, _ => failJoined "USB_PREPARE_INCOMPLETE" r
                end
      end
  | _ => badRequest "USB_PREPARE_BEGIN_REQUIRED"
  end.

(** The frames of a write, up to a checked end frame; the value is the bytes written. *)
Fixpoint writeFrames (fuel : nat) (header : Header) (sequence written : Z) (hashed : list Z) : M (list Z) :=
  match fuel with
  | O => throw OutOfFuel
  | S fuel =>
      do f := quiet recvFrame ;
      match f with
      | EndOfStream => fail "USB_TRANSFER_INCOMPLETE" [CauseOther]
      | Broken c => fail "USB_TRANSFER_INCOMPLETE" [c]
      | Received (EChunk seq data) =>
          if negb (seq =? sequence)%Z || (len data =? 0)%Z || (DefaultMaxChunk <? len data)%Z ||
             (sub64 (h_Size header) written <? len data)%Z
          then fail "USB_TRANSFER_INVALID" []
          else
            do r := ask (adWriteChunk sequence data) (DidWrite sequence data) ;
            match r with
            | Err c => fail "USB_WRITE_FAILED" [c]
            | Ok _ => writeFrames fuel header (add64 sequence 1) (add64 written (len data)) (hashed ++ data)
            end
      | Received (EEnd total digest) =>
          if negb (total =? h_Size header)%Z || negb (constantHash digest (h_SHA256 header)) || negb (written =? h_Size header)%Z ||
             negb (bool_decide (sha256 hashed = h_SHA256 header))
          then fail "USB_TRANSFER_DIGEST_MISMATCH" []
          else ret hashed
      | Received _ => fail "USB_TRANSFER_DIGEST_MISMATCH" []
      end
  end.

Definition goodWrite (digest : list Z) (ev : ExporterWriteEvidence) : bool :=
  bool_decide (wv_ReceiverDigest ev = digest) && wv_FileSynced ev && wv_FilesystemSynced ev && wv_AtomicRename ev.

Definition writeAndCommit (header : Header) : M unit :=
  do _ := writeFrames (S (S (Z.to_nat (h_Size header)))) header 0 0 [] ;
  do r := ask (adCommit (h_Size header) (h_SHA256 header)) (DidCommit (h_Size header) (h_SHA256 header)) ;
  do ended := quiet operationErr ;
  match r, ended with
  | Ok ev, None => if goodWrite (h_SHA256 header) ev then ret tt else failJoined "USB_WRITE_EVIDENCE_INCOMPLETE" r
  | _, _ => failJoined "USB_WRITE_EVIDENCE_INCOMPLETE" r
  end.

(** The deferred abort of a writer that did not commit. *)
Definition aborting {A} (m : M A) : M A := λ s,
  match m s with
  | (Ok a, s) => (Ok a, s)
  | (Err e, s) => (Err e, (ask adAbort (λ _, DidAbort) s).2)
  end.

Definition WriteVerifiedFile : M USBTransferReceipt :=
  do s := service ;
  if xs_closed s || negb (bool_decide (xs_state s = exporterStatePrepared)) then stateError
  else
  do first := quiet recvFrame ;
  match first with
  | Received (EBegin sessionID transferID descriptor) =>
      if negb (bool_decide (sessionID = xs_sessionID s)) || negb (exporterTransferPattern transferID)
      then badRequest "USB_TRANSFER_CONTEXT_INVALID"
      else
      match exporterHeader descriptor (xs_maxFileBytes s) with
      | None => badRequest "USB_TRANSFER_DESCRIPTOR_INVALID"
      | Some header =>
          if (h_Size header =? 0)%Z then badRequest "USB_TRANSFER_DESCRIPTOR_INVALID"
          else
            do r := ask (adBeginWrite header transferID) (DidBegin header transferID) ;
            match r with
            | Err c => fail "USB_WRITE_FAILED" [c]
            | Ok _ =>
                do _ := aborting (writeAndCommit header) ;
                let receipt := mkUSBReceipt transferID descriptor (protoSHA256 (h_SHA256 header)) None true true true in
                do _ := update (with_receipt exporterStateWritten receipt) ;
                finish receipt
            end
      end
  | _ => badRequest "TRANSFER_BEGIN_REQUIRED"
  end.

Definition VerifyWrittenFile (context : option GuestContext) (transferID : string) : M USBTransferReceipt :=
  do s := service ;
  match xs_receipt s with
  | None => stateError
  | Some receipt =>
      if xs_closed s || negb (bool_decide (xs_state s = exporterStateWritten)) || negb (bool_decide (transferID = ur_TransferId receipt)) ||
         negb (bool_decide (sessionOf context = xs_sessionID s))
      then stateError
      else
        do r := ask (adReread transferID) (DidReread transferID) ;
        do ended := quiet operationErr ;
        match r, ended with
        | Ok reread, None =>
            if bool_decide (reread = hash_Value (ur_ReceiverDigest receipt)) then
              let receipt := mkUSBReceipt (ur_TransferId receipt) (ur_Descriptor receipt) (ur_ReceiverDigest receipt)
                               (Some (protoSHA256 reread)) (ur_FileSynced receipt) (ur_FilesystemSynced receipt) (ur_AtomicRename receipt) in
              do _ := update (with_receipt exporterStateVerified receipt) ;
              ret receipt
            else failJoined "USB_HASH_MISMATCH" r
        | _, _ => failJoined "USB_HASH_MISMATCH" r
        end
  end.

Definition FinalizeUSB (context : option GuestContext) (device : ExporterDeviceExpectation) : M USBStatus :=
  do s := service ;
  match expectationFromProto unicodeLower device with
  | None => stateError
  | Some e =>
      if xs_closed s || negb (bool_decide (xs_state s = exporterStateVerified)) || negb (equalExpectation e (xs_expectation s)) ||
         negb (bool_decide (sessionOf context = xs_sessionID s))
      then stateError
      else
        do r := ask adFinalize DidFinalize ;
        do ended := quiet operationErr ;
        match r, ended with
        | Ok ev, None =>
            if fv_Unmounted ev && fv_LUKSClosed ev then
              do _ := update (with_state exporterStateFinalized) ;
              ret (mkStatus true false true true true true true true)
            else failJoined "USB_FINALIZE_INCOMPLETE" r
        | _, _ => failJoined "USB_FINALIZE_INCOMPLETE" r
        end
  end.

(** [Close]; its error is uncoded. *)
Definition CloseExporter : M unit :=
  do s := service ;
  if xs_closed s then ret tt
  else
    do r := ask adCleanup (λ r, DidCleanup (is_Ok r)) ;
    do late := quiet cleanupErr ;
    if is_Ok r && negb late then update closedExporter
    else do _ := update (with_state exporterStateIncomplete) ; throw (RpcError Internal "exporter cleanup incomplete" false).

Inductive exporter_request := AskInspect (c : option GuestContext) (d : ExporterDeviceExpectation) | AskPrepare | AskWrite
  | AskVerify (c : option GuestContext) (id : string) | AskFinalize (c : option GuestContext) (d : ExporterDeviceExpectation) | AskClose.

Definition serve (s : St) (q : exporter_request) : St :=
  match q with
  | AskInspect c d => (InspectUSB c d s).2 | AskPrepare => (PrepareExactUSB s).2 | AskWrite => (WriteVerifiedFile s).2
  | AskVerify c id => (VerifyWrittenFile c id s).2 | AskFinalize c d => (FinalizeUSB c d s).2 | AskClose => (CloseExporter s).2
  end.

(** ** What each state rests on *)

(** The file bound the service was made with. *)
Context (limit : Z) (limit_bounded : (limit ≤ maximumExporterFileBytes)%Z).

Definition inspectTrail (e : ExporterDeviceExpectation) (ev : ExporterDeviceEvidence) : list exporter_call := [DidInspect e (Ok ev)].

Definition prepareTrail e ev (passphrase : list Z) (pv : ExporterPrepareEvidence) : list exporter_call :=
  inspectTrail e ev ++ [DidPrepare passphrase (Ok pv)].

Fixpoint didWrites (sequence : Z) (datas : list (list Z)) : list exporter_call :=
  match datas with [] => [] | data :: rest => DidWrite sequence data (Ok tt) :: didWrites (sequence + 1) rest end.

Definition writeTrail e ev passphrase pv (header : Header) (id : string) (datas : list (list Z)) (wv : ExporterWriteEvidence) :
    list exporter_call :=
  prepareTrail e ev passphrase pv ++ DidBegin header id (Ok tt) :: didWrites 0 datas ++
  [DidCommit (h_Size header) (h_SHA256 header) (Ok wv)].

(** The device was inspected and is the one expected. *)
Definition inspected (sv : ExporterService) (ev : ExporterDeviceEvidence) : Prop :=
  validateExpectation (xs_expectation sv) = true ∧ goodDevice (xs_expectation sv) ev = true.

Definition prepared (passphrase : list Z) (pv : ExporterPrepareEvidence) : Prop :=
  goodPreparation pv = true ∧ (8 ≤ len passphrase ≤ maximumExporterPassphraseBytes)%Z.

Record written (sv : ExporterService) (header : Header) (id : string) (datas : list (list Z)) (wv : ExporterWriteEvidence)
    (descriptor : option FileDescriptor) : Prop := {
  wr_header : exporterHeader descriptor (xs_maxFileBytes sv) = Some header;
  wr_id : exporterTransferPattern id = true;
  wr_size : len (concat datas) = h_Size header;
  wr_digest : sha256 (concat datas) = h_SHA256 header;
  wr_chunks : Forall (λ d, 0 < len d ≤ DefaultMaxChunk)%Z datas;
  wr_good : goodWrite (h_SHA256 header) wv = true
}.

Definition receiptOf (header : Header) (id : string) (descriptor : option FileDescriptor) (reread : option Hash) : USBTransferReceipt :=
  mkUSBReceipt id descriptor (protoSHA256 (h_SHA256 header)) reread true true true.

(** The service's calls so far are exactly those of its state. *)
Definition Inv (sv : ExporterService) (l : list exporter_call) : Prop :=
  xs_closed sv = bool_decide (xs_state sv = exporterStateClosed) ∧ xs_maxFileBytes sv = limit ∧
  match xs_state sv with
  | exporterStateBoot => l = []
  | exporterStateInspected => ∃ ev, l = inspectTrail (xs_expectation sv) ev ∧ inspected sv ev
  | exporterStatePrepared =>
      ∃ ev pass pv, l = prepareTrail (xs_expectation sv) ev pass pv ∧ inspected sv ev ∧ prepared pass pv
  | exporterStateWritten =>
      ∃ ev pass pv header id datas wv descriptor,
        l = writeTrail (xs_expectation sv) ev pass pv header id datas wv ∧ inspected sv ev ∧ prepared pass pv ∧
        written sv header id datas wv descriptor ∧ xs_receipt sv = Some (receiptOf header id descriptor None)
  | exporterStateVerified =>
      ∃ ev pass pv header id datas wv descriptor,
        l = writeTrail (xs_expectation sv) ev pass pv header id datas wv ++ [DidReread id (Ok (h_SHA256 header))] ∧
        inspected sv ev ∧ prepared pass pv ∧ written sv header id datas wv descriptor ∧
        xs_receipt sv = Some (receiptOf header id descriptor (Some (protoSHA256 (h_SHA256 header))))
  | exporterStateFinalized =>
      ∃ ev pass pv header id datas wv descriptor fv,
        l = writeTrail (xs_expectation sv) ev pass pv header id datas wv ++
              [DidReread id (Ok (h_SHA256 header)); DidFinalize (Ok fv)] ∧
        inspected sv ev ∧ prepared pass pv ∧ written sv header id datas wv descriptor ∧
        xs_receipt sv = Some (receiptOf header id descriptor (Some (protoSHA256 (h_SHA256 header)))) ∧ fv = mkFinalizeEvidence true true
  | exporterStateIncomplete => ∃ ok, DidCleanup ok ∈ l
  | exporterStateClosed => DidCleanup true ∈ l
  end.

(** The calls stop at a failure. *)
Definition Broke (sv : ExporterService) (l : list exporter_call) : Prop := xs_state sv = exporterStateIncomplete ∧ Inv sv l.

(** ** Rules *)

(** From [P], [m] ends in [Q], or in [R] with an error, and never out of fuel. *)
Definition triple {A} (P : ExporterService → list exporter_call → Prop) (m : M A) (Q : A → ExporterService → list exporter_call → Prop)
    (R : ExporterService → list exporter_call → Prop) : Prop :=
  ∀ s, P (gx_service s) (gx_log s) →
    match m s with
    | (Ok a, s') => Q a (gx_service s') (gx_log s')
    | (Err e, s') => e ≠ OutOfFuel ∧ R (gx_service s') (gx_log s')
    end.

Definition At (sv0 : ExporterService) (l0 : list exporter_call) (sv : ExporterService) (l : list exporter_call) : Prop := sv = sv0 ∧ l = l0.

Lemma g_bind {A B} P Q R S (m : M A) (k : A → M B) : triple P m Q R → (∀ a, triple (Q a) (k a) S R) → triple P (bind m k) S R.
Proof. intros Hm Hk s Hs. unfold bind. specialize (Hm s Hs). destruct (m s) as [[a|e] s1]; [by apply Hk|done]. Qed.

Lemma g_pre {A} (P P' : ExporterService → list exporter_call → Prop) Q R (m : M A) :
  (∀ sv l, P sv l → P' sv l) → triple P' m Q R → triple P m Q R.
Proof. intros H Hm s Hs. by apply Hm, H. Qed.

Lemma g_post {A} P Q R (R' : ExporterService → list exporter_call → Prop) (m : M A) :
  (∀ sv l, R sv l → R' sv l) → triple P m Q R → triple P m Q R'.
Proof. intros H Hm s Hs. specialize (Hm s Hs). destruct (m s) as [[a|e] s1]; [done|]. destruct Hm. split; auto. Qed.

Lemma g_fact {A} (φ : Prop) (P : ExporterService → list exporter_call → Prop) Q R (m : M A) :
  (φ → triple P m Q R) → triple (λ sv l, P sv l ∧ φ) m Q R.
Proof. intros H s [Hs Hφ]. by apply H. Qed.

Lemma g_ex {A X} (P : X → ExporterService → list exporter_call → Prop) Q R (m : M A) :
  (∀ x, triple (P x) m Q R) → triple (λ sv l, ∃ x, P x sv l) m Q R.
Proof. intros H s [x Hs]. by apply (H x). Qed.

Lemma g_ret {A} (P : ExporterService → list exporter_call → Prop) Q R (a : A) : (∀ sv l, P sv l → Q a sv l) → triple P (ret a) Q R.
Proof. intros H s Hs. by apply H. Qed.

Lemma g_throw {A} (P : ExporterService → list exporter_call → Prop) (Q : A → ExporterService → list exporter_call → Prop) (R : ExporterService → list exporter_call → Prop) e :
  e ≠ OutOfFuel → (∀ sv l, P sv l → R sv l) → triple P (throw e) Q R.
Proof. intros He H s Hs. split; [done|]. by apply H. Qed.

Lemma g_quiet {A} P (f : W → A * W) R : triple P (quiet f) (λ _, P) R.
Proof. intros s Hs. unfold quiet. by destruct (f _). Qed.

Lemma g_service {A} sv0 l0 (k : ExporterService → M A) Q R : triple (At sv0 l0) (k sv0) Q R → triple (At sv0 l0) (bind service k) Q R.
Proof. intros H s Hs. unfold bind, service. pose proof Hs as [-> _]. by apply H. Qed.

Lemma g_ask {A} sv0 l0 (f : W → A * W) record R : triple (At sv0 l0) (ask f record) (λ a, At sv0 (l0 ++ [record a])) R.
Proof. intros s [Hs Hl]. unfold ask. destruct (f _) as [a w]. split; [done|]. cbn. by rewrite Hl. Qed.

Lemma g_update sv0 l0 f R : triple (At sv0 l0) (update f) (λ _, At (f sv0) l0) R.
Proof. intros s [Hs Hl]. split; [cbn; by rewrite Hs|done]. Qed.

(** From the invariant, with the service and its calls fixed. *)
Lemma g_fix {A} (m : M A) Q R : (∀ sv0 l0, Inv sv0 l0 → triple (At sv0 l0) m Q R) → triple Inv m Q R.
Proof. intros H s Hs. by apply (H _ _ Hs). Qed.

Lemma g_fail {A} sv0 l0 code causes (Q : A → ExporterService → list exporter_call → Prop) :
  xs_closed sv0 = false → xs_maxFileBytes sv0 = limit → triple (At sv0 l0) (fail code causes) Q Broke.
Proof.
  intros Hc Hm. eapply g_bind; [apply g_ask|]. intros r. cbn beta. eapply g_bind; [apply g_quiet|]. intros late. cbn beta.
  eapply g_bind; [apply g_update|]. intros []. cbn beta.
  assert (Hb : ∀ sv l, At (with_state exporterStateIncomplete sv0) (l0 ++ [DidCleanup (is_Ok r)]) sv l → Broke sv l).
  { intros sv l [-> ->]. split; [done|]. split; [done|]. split; [done|]. exists (is_Ok r). set_solver. }
  destruct (_ && _); apply g_throw; done.
Qed.

Lemma g_failJoined {A B} sv0 l0 code (r : result cause A) (Q : B → ExporterService → list exporter_call → Prop) :
  xs_closed sv0 = false → xs_maxFileBytes sv0 = limit → triple (At sv0 l0) (failJoined code r) Q Broke.
Proof. intros Hc Hm. eapply g_bind; [apply g_quiet|]. intros c. by apply g_fail. Qed.

Lemma Broke_Inv sv l : Broke sv l → Inv sv l.
Proof. by intros [_ H]. Qed.

(** A broken service stays so when its writer is aborted. *)
Lemma g_aborting {A} P (m : M A) Q : triple P m Q Broke → triple P (aborting m) Q Broke.
Proof.
  intros H s Hs. specialize (H s Hs). unfold aborting, ask. destruct (m s) as [[a|e] s1]; [done|].
  destruct H as (He & Hst & Hc & Hm & H). destruct (adAbort (gx_world s1)) as [r w]. split; [done|]. split; [done|]. split; [done|].
  split; [done|]. cbn. rewrite Hst in H |- *. destruct H as [ok H]. exists ok. set_solver.
Qed.

Lemma g_finish {A} P (a : A) (Q : A → ExporterService → list exporter_call → Prop) :
  (∀ sv l, P sv l → Q a sv l) → (∀ sv l, P sv l → Inv sv l) → triple P (finish a) Q Inv.
Proof. intros HQ HR. eapply g_bind; [apply g_quiet|]. intros []; [by apply g_ret|]. by apply g_throw. Qed.

(** A refusal that changes nothing. *)
Lemma g_refuse {A} sv0 l0 e (Q : A → ExporterService → list exporter_call → Prop) :
  e ≠ OutOfFuel → Inv sv0 l0 → triple (At sv0 l0) (throw e) Q Inv.
Proof. intros He H. apply g_throw; [done|]. by intros sv l [-> ->]. Qed.

Lemma open_not_closed sv l state : Inv sv l → xs_state sv = state → state ≠ exporterStateClosed → xs_closed sv = false.
Proof. intros (Hc & _) <- Hs. rewrite Hc. by apply bool_decide_eq_false. Qed.

(** An answer of the adapter and the operation's context: both must be good. *)
Lemma g_answered {A B} sv0 l0 code (r : result cause A) (ended : option cause) (good : A → bool) (k : A → M B) Q :
  xs_closed sv0 = false → xs_maxFileBytes sv0 = limit →
  (∀ a, r = Ok a → good a = true → triple (At sv0 l0) (k a) Q Inv) →
  triple (At sv0 l0)
    (match r, ended with Ok a, None => if good a then k a else failJoined code r | _, _ => failJoined code r end) Q Inv.
Proof.
  intros Hc Hm H. assert (Hf : triple (At sv0 l0) (failJoined code r) Q Inv) by (eapply g_post; [apply Broke_Inv|by apply g_failJoined]).
  destruct r as [a|c]; [|done]. destruct ended; [done|]. destruct (good a) eqn:Hg; [by apply H|done].
Qed.

Lemma expectationFromProto_valid d e : expectationFromProto unicodeLower d = Some e → validateExpectation e = true.
Proof. unfold expectationFromProto. intros H. by case_match; simplify_eq. Qed.

Lemma equalExpectation_spec a b : equalExpectation a b = true ↔ a = b.
Proof.
  unfold equalExpectation. destruct a, b. cbn. rewrite !andb_true_iff, !bool_decide_eq_true, Z.eqb_eq. naive_solver.
Qed.

Ltac opening H := apply g_fix; intros sv0 l0 H; eapply g_service; cbn beta.

Lemma InspectUSB_keeps c d : triple Inv (InspectUSB c d) (λ _, Inv) Inv.
Proof.
  opening H. destruct (_ || _) eqn:Hg; [by apply g_refuse|]. rewrite orb_false_iff, negb_false_iff, bool_decide_eq_true in Hg.
  destruct Hg as [Hc Hst]. destruct (expectationFromProto unicodeLower d) as [e|] eqn:He; [|by apply g_refuse].
  pose proof H as (_ & Hm & Hl). rewrite Hst in Hl. subst l0.
  eapply g_bind; [apply g_ask|]. intros r. cbn beta. eapply g_bind; [apply g_quiet|]. intros ended. cbn beta.
  apply (g_answered _ _ _ r ended (goodDevice e)); [done..|]. intros ev -> Hev.
  eapply g_bind; [apply g_update|]. intros []. cbn beta. apply g_ret. intros sv l [-> ->]. split; [done|]. split; [done|].
  exists ev. split; [done|]. split; [by eapply expectationFromProto_valid|done].
Qed.

(** At most five frames are read, the last of which is refused. *)
Lemma readPassphrase_keeps sv0 l0 fuel frames buffer :
  Inv sv0 l0 → (4 - frames < Z.of_nat fuel - 1)%Z → (0 ≤ frames ≤ 4)%Z → (len buffer ≤ maximumExporterPassphraseBytes)%Z →
  triple (At sv0 l0) (readPassphrase fuel frames buffer)
    (λ out sv l, At sv0 l0 sv l ∧ len out ≤ maximumExporterPassphraseBytes)%Z Inv.
Proof.
  intros H. revert frames buffer. induction fuel as [|fuel IH]; intros frames buffer Hf Hp Hb.
  { exfalso. lia. }
  cbn [readPassphrase]. eapply g_bind; [apply g_quiet|]. intros [[| data |]| |c]; cbn beta iota; try (by apply g_refuse).
  - destruct (_ || _) eqn:Hg; [by apply g_refuse|]. rewrite !orb_false_iff in Hg. destruct Hg as (((_ & _) & Hk) & Hl).
    unfold maximumExporterSecretFrames in Hk. apply IH; [lia|lia|]. rewrite len_app. lia.
  - apply g_ret. intros sv l Hs. split; [done|lia].
  - by destruct c; apply g_refuse.
Qed.

Lemma PrepareExactUSB_keeps : triple Inv PrepareExactUSB (λ _, Inv) Inv.
Proof.
  opening H. destruct (_ || _) eqn:Hg; [by apply g_refuse|]. rewrite orb_false_iff, negb_false_iff, bool_decide_eq_true in Hg.
  destruct Hg as [Hc Hst]. eapply g_bind; [apply g_quiet|]. intros [[sid d| |]| |]; cbn beta iota; try (by apply g_refuse).
  destruct (expectationFromProto unicodeLower d) as [e|] eqn:He; [|by apply g_refuse].
  destruct (_ || _) eqn:Hi; [by apply g_refuse|].
  eapply g_bind; [apply (readPassphrase_keeps sv0 l0); [done|lia|lia|done]|]. intros pass.
  destruct (len pass <? 8)%Z eqn:Hp; [apply g_throw; [done|]; by intros sv l ([-> ->] & _)|].
  apply g_fact. intros Hlen. eapply g_bind; [apply g_quiet|].
  intros [|]; cbn [negb]; [|by apply g_refuse].
  pose proof H as (_ & Hm & Hl). rewrite Hst in Hl. destruct Hl as (ev & -> & Hev).
  eapply g_bind; [apply g_ask|]. intros r. cbn beta. eapply g_bind; [apply g_quiet|]. intros ended. cbn beta.
  apply (g_answered _ _ _ r ended goodPreparation); [done..|]. intros pv -> Hpv.
  eapply g_bind; [apply g_update|]. intros []. cbn beta.
  assert (Hi' : ∀ sv l, At (with_state exporterStatePrepared sv0) (inspectTrail (xs_expectation sv0) ev ++ [DidPrepare pass (Ok pv)]) sv l → Inv sv l).
  { intros sv l [-> ->]. split; [done|]. split; [done|]. exists ev, pass, pv. split; [done|]. split; [done|]. split; [done|lia]. }
  by apply g_finish.
Qed.

Lemma didWrites_snoc n datas data : didWrites n (datas ++ [data]) = didWrites n datas ++ [DidWrite (n + len datas) data (Ok tt)].
Proof.
  revert n. induction datas as [|d datas IH]; intros n; cbn; [unfold len; cbn; by rewrite Z.add_0_r|].
  rewrite IH. do 4 f_equal. unfold len. cbn [length]. lia.
Qed.

Lemma chunks_bound datas : Forall (λ d : list Z, 0 < len d ≤ DefaultMaxChunk)%Z datas → (len datas ≤ len (concat datas))%Z.
Proof. induction 1 as [|d datas Hd H IH]; [done|]. cbn. rewrite len_app. unfold len in *. cbn [length]. lia. Qed.

(** The bytes of a whole stream. *)
Definition streamed (header : Header) (datas : list (list Z)) : Prop :=
  len (concat datas) = h_Size header ∧ sha256 (concat datas) = h_SHA256 header ∧ Forall (λ d, 0 < len d ≤ DefaultMaxChunk)%Z datas.

(** Every chunk carries at least one of the bytes that remain, so that the fuel
    outlasts the stream. *)
Lemma writeFrames_exact sv0 L header fuel datas :
  xs_closed sv0 = false → xs_maxFileBytes sv0 = limit →
  (0 ≤ h_Size header ≤ maximumExporterFileBytes)%Z → (len (concat datas) ≤ h_Size header)%Z →
  Forall (λ d, 0 < len d ≤ DefaultMaxChunk)%Z datas → (h_Size header - len (concat datas) < Z.of_nat fuel)%Z →
  triple (At sv0 (L ++ didWrites 0 datas)) (writeFrames fuel header (len datas) (len (concat datas)) (concat datas))
    (λ _ sv l, ∃ datas', At sv0 (L ++ didWrites 0 datas') sv l ∧ streamed header datas') Broke.
Proof.
  intros Hc Hm Hsz. revert datas. induction fuel as [|fuel IH]; intros datas Hlen Hch Hf; [exfalso; lia|].
  pose proof (chunks_bound _ Hch) as Hn. pose proof (len_nonneg datas) as Hn0. pose proof (len_nonneg (concat datas)). unfold maximumExporterFileBytes in *. cbn [writeFrames].
  eapply g_bind; [apply g_quiet|]. intros [[| seq data | total digest |]| |c]; cbn beta iota; try (by apply g_fail).
  - destruct (_ || _) eqn:Hg; [by apply g_fail|]. rewrite !orb_false_iff, negb_false_iff in Hg. destruct Hg as (((_ & Hz) & Hx) & Hr).
    rewrite sub64_small in Hr by (unfold u64, two64; lia). pose proof (len_nonneg data).
    eapply g_bind; [apply g_ask|]. intros [[]|c]; cbn beta iota; [|by apply g_fail].
    specialize (IH (datas ++ [data])). rewrite didWrites_snoc, concat_app, !len_app in IH. cbn [concat] in IH. rewrite app_nil_r in IH.
    rewrite <- app_assoc, !add64_small by (unfold u64, two64; lia). apply IH; [lia| |lia].
    apply Forall_app_2; [done|]. constructor; [lia|constructor].
  - destruct (_ || _) eqn:Hg; [by apply g_fail|]. rewrite !orb_false_iff, !negb_false_iff, bool_decide_eq_true in Hg.
    destruct Hg as (((_ & _) & Hw) & Hd). apply g_ret. intros sv l Hs. exists datas. split; [done|]. repeat split; [lia|done..].
Qed.

Lemma writeAndCommit_exact sv0 L header :
  xs_closed sv0 = false → xs_maxFileBytes sv0 = limit → (0 ≤ h_Size header ≤ maximumExporterFileBytes)%Z →
  triple (At sv0 L) (writeAndCommit header)
    (λ _ sv l, ∃ datas wv, At sv0 (L ++ didWrites 0 datas ++ [DidCommit (h_Size header) (h_SHA256 header) (Ok wv)]) sv l ∧
       streamed header datas ∧ goodWrite (h_SHA256 header) wv = true) Broke.
Proof.
  intros Hc Hm Hsz. eapply g_bind.
  { eapply (g_pre _ (At sv0 (L ++ didWrites 0 []))); [by rewrite app_nil_r|].
    apply (writeFrames_exact sv0 L header _ []); [done|done|done|unfold len; cbn [concat length]; lia|constructor|unfold len; cbn [concat length]; lia]. }
  intros out. apply g_ex. intros datas. apply g_fact. intros Hd.
  eapply g_bind; [apply g_ask|]. intros r. cbn beta. eapply g_bind; [apply g_quiet|]. intros ended. cbn beta.
  destruct r as [wv|c]; [|by apply g_failJoined]. destruct ended; [by apply g_failJoined|].
  destruct (goodWrite _ _) eqn:Hg; [|by apply g_failJoined].
  apply g_ret. intros sv l [-> ->]. exists datas, wv. split; [|done]. split; [done|]. by rewrite <- app_assoc.
Qed.

(** Frames carry unsigned 64-bit sizes. *)
Definition typedFrame (f : received export_frame) : Prop :=
  match f with Received (EBegin _ _ (Some d)) => u64 (fd_SizeBytes d) | _ => True end.

Context (frames_typed : ∀ w, typedFrame (recvFrame w).1).

Lemma g_recv P R : triple P (quiet recvFrame) (λ f sv l, P sv l ∧ typedFrame f) R.
Proof. intros s Hs. unfold quiet. pose proof (frames_typed (gx_world s)) as Hf. destruct (recvFrame _) as [f w]. by split. Qed.

Lemma exporterHeader_size descriptor maximum header :
  exporterHeader (Some descriptor) maximum = Some header → h_Size header = fd_SizeBytes descriptor ∧ (h_Size header ≤ maximum)%Z.
Proof.
  unfold exporterHeader. destruct (fd_Digest descriptor) as [h|]; [|done]. destruct (_ || _); [done|].
  destruct (is_Ok _) eqn:Hv; [|done]. intros [= <-]. split; [done|]. unfold Transfer.Validate in Hv. cbn [h_Size] in *.
  destruct (_ || _); [done|]. destruct (hasControl _); [done|]. destruct (maximum <? fd_SizeBytes descriptor)%Z eqn:Hs; [done|]. lia.
Qed.

Lemma WriteVerifiedFile_keeps : triple Inv WriteVerifiedFile (λ _, Inv) Inv.
Proof.
  opening H. destruct (_ || _) eqn:Hg; [by apply g_refuse|]. rewrite orb_false_iff, negb_false_iff, bool_decide_eq_true in Hg.
  destruct Hg as [Hc Hst]. eapply g_bind; [apply g_recv|]. intros f. apply g_fact. intros Ht.
  destruct f as [[sid id descriptor| | |]| |]; cbn beta iota; try (by apply g_refuse).
  destruct (_ || _) eqn:Hi; [by apply g_refuse|]. rewrite orb_false_iff, !negb_false_iff in Hi. destruct Hi as [_ Hid].
  destruct (exporterHeader descriptor _) as [header|] eqn:Hh; [|by apply g_refuse].
  destruct (h_Size header =? 0)%Z eqn:Hz; [by apply g_refuse|].
  pose proof H as (_ & Hm & Hl). rewrite Hst in Hl. destruct Hl as (ev & pass & pv & -> & Hev & Hpv).
  eapply g_bind; [apply g_ask|]. intros [[]|c]; cbn beta iota; [|eapply g_post; [apply Broke_Inv|by apply g_fail]].
  assert (Hsz : (0 ≤ h_Size header ≤ maximumExporterFileBytes)%Z).
  { destruct descriptor as [d|]; [|done]. destruct (exporterHeader_size _ _ _ Hh) as [Hs Hx]. cbn in Ht. unfold u64 in Ht. lia. }
  eapply g_bind; [eapply g_post; [apply Broke_Inv|]; apply g_aborting; by apply writeAndCommit_exact|].
  intros []. apply g_ex. intros datas. apply g_ex. intros wv. apply g_fact. intros [(Hsize & Hdig & Hch) Hgood].
  eapply g_bind; [apply g_update|]. intros []. cbn beta.
  match goal with |- triple ?P _ _ _ => assert (Hi' : ∀ sv l, P sv l → Inv sv l) end.
  { intros sv l [-> ->]. split; [done|]. split; [done|]. exists ev, pass, pv, header, id, datas, wv, descriptor.
    split; [unfold writeTrail; by rewrite <- app_assoc|]. split; [done|]. split; [done|]. split; [by constructor|done]. }
  by apply g_finish.
Qed.

(** A receipt is the service's own, with its state. *)
Definition verifiedWith (id : string) (r : USBTransferReceipt) (sv : ExporterService) (l : list exporter_call) : Prop :=
  Inv sv l ∧ xs_state sv = exporterStateVerified ∧ xs_receipt sv = Some r ∧ ur_TransferId r = id.

Lemma VerifyWrittenFile_keeps c id : triple Inv (VerifyWrittenFile c id) (verifiedWith id) Inv.
Proof.
  opening H. destruct (xs_receipt sv0) as [receipt|] eqn:Hr0; [|by apply g_refuse]. destruct (_ || _) eqn:Hg; [by apply g_refuse|].
  rewrite !orb_false_iff, !negb_false_iff, !bool_decide_eq_true in Hg. destruct Hg as (((Hc & Hst) & Hid) & _).
  pose proof H as (_ & Hm & Hl). rewrite Hst in Hl.
  destruct Hl as (ev & pass & pv & header & id' & datas & wv & descriptor & -> & Hev & Hpv & Hw & Hrec). rewrite Hr0 in Hrec. injection Hrec as ->.
  eapply g_bind; [apply g_ask|]. intros r. cbn beta. eapply g_bind; [apply g_quiet|]. intros ended. cbn beta.
  apply (g_answered _ _ _ r ended (λ reread, bool_decide (reread = _))); [done..|]. intros reread -> Heq. apply bool_decide_eq_true in Heq.
  eapply g_bind; [apply g_update|]. intros []. cbn beta. apply g_ret. cbn in Hid, Heq. subst reread id'. intros sv l [-> ->].
  split; [|done]. split; [done|]. split; [done|]. exists ev, pass, pv, header, id, datas, wv, descriptor.
  split; [done|]. split; [done|]. split; [done|]. split; [by destruct Hw; constructor|done].
Qed.

Lemma FinalizeUSB_keeps c d : triple Inv (FinalizeUSB c d) (λ _ sv l, Inv sv l ∧ xs_state sv = exporterStateFinalized) Inv.
Proof.
  opening H. destruct (expectationFromProto unicodeLower d) as [e|] eqn:He; [|by apply g_refuse]. destruct (_ || _) eqn:Hg; [by apply g_refuse|].
  rewrite !orb_false_iff, !negb_false_iff, !bool_decide_eq_true in Hg. destruct Hg as (((Hc & Hst) & _) & _).
  pose proof H as (_ & Hm & Hl). rewrite Hst in Hl.
  destruct Hl as (ev & pass & pv & header & id & datas & wv & descriptor & -> & Hev & Hpv & Hw & Hrec).
  eapply g_bind; [apply g_ask|]. intros r. cbn beta. eapply g_bind; [apply g_quiet|]. intros ended. cbn beta.
  apply (g_answered _ _ _ r ended (λ fv, fv_Unmounted fv && fv_LUKSClosed fv)); [done..|]. intros [u k] -> Hk. apply andb_true_iff in Hk as [Hu Hk].
  cbn in Hu, Hk. subst u k. eapply g_bind; [apply g_update|]. intros []. cbn beta. apply g_ret. intros sv l [-> ->].
  split; [|done]. split; [done|]. split; [done|]. exists ev, pass, pv, header, id, datas, wv, descriptor, (mkFinalizeEvidence true true).
  split; [by rewrite <- app_assoc|]. split; [done|]. split; [done|]. split; [by destruct Hw; constructor|done].
Qed.

Lemma CloseExporter_keeps : triple Inv CloseExporter (λ _, Inv) Inv.
Proof.
  opening H. destruct (xs_closed sv0) eqn:Hc; [apply g_ret; by intros sv l [-> ->]|]. pose proof H as (_ & Hm & _).
  eapply g_bind; [apply g_ask|]. intros r. cbn beta. eapply g_bind; [apply g_quiet|]. intros late. cbn beta.
  destruct (is_Ok r && negb late) eqn:Hr.
  - apply andb_true_iff in Hr as [-> _]. intros s [Hs Hl]. cbn. rewrite Hs, Hl. split; [done|]. split; [done|]. cbn. set_solver.
  - eapply g_bind; [apply g_update|]. intros []. cbn beta. apply g_throw; [done|]. intros sv l [-> ->].
    split; [done|]. split; [done|]. exists (is_Ok r). set_solver.
Qed.

Lemma serve_keeps s q : Inv (gx_service s) (gx_log s) → Inv (gx_service (serve s q)) (gx_log (serve s q)).
Proof.
  intros H. assert (Ht : ∀ A (m : M A) Q, triple Inv m Q Inv → (∀ a sv l, Q a sv l → Inv sv l) → Inv (gx_service (m s).2) (gx_log (m s).2)).
  { intros A m Q Hm HQ. specialize (Hm s H). destruct (m s) as [[a|e] s']; [by eapply HQ|by destruct Hm]. }
  destruct q; cbn [serve].
  - by eapply Ht; [apply InspectUSB_keeps|].
  - by eapply Ht; [apply PrepareExactUSB_keeps|].
  - by eapply Ht; [apply WriteVerifiedFile_keeps|].
  - eapply Ht; [apply VerifyWrittenFile_keeps|]. by intros a sv l [? _].
  - eapply Ht; [apply FinalizeUSB_keeps|]. by intros a sv l [? _].
  - by eapply Ht; [apply CloseExporter_keeps|].
Qed.

Lemma served_keeps qs s : Inv (gx_service s) (gx_log s) → Inv (gx_service (foldl serve s qs)) (gx_log (foldl serve s qs)).
Proof. revert s. induction qs as [|q qs IH]; intros s H; [done|]. by apply IH, serve_keeps. Qed.

(** ** What an adapter's calls leave behind

    A relation between the calls made so far and the world that every call of
    the adapter extends and nothing else changes holds whatever is served. *)

Context (Sound : list exporter_call → W → Prop).

Definition extends {A} (f : W → A * W) (record : A → exporter_call) : Prop := ∀ l w, Sound l w → Sound (l ++ [record (f w).1]) (f w).2.
Definition ignores {A} (f : W → A * W) : Prop := ∀ l w, Sound l w → Sound l (f w).2.

Record adapter_sound : Prop := {
  so_inspect e : extends (adInspect e) (DidInspect e);
  so_prepare pass : extends (adPrepare pass) (DidPrepare pass);
  so_begin header id : extends (adBeginWrite header id) (DidBegin header id);
  so_write sequence data : extends (adWriteChunk sequence data) (DidWrite sequence data);
  so_commit size digest : extends (adCommit size digest) (DidCommit size digest);
  so_abort : extends adAbort (λ _, DidAbort);
  so_reread id : extends (adReread id) (DidReread id);
  so_finalize : extends adFinalize DidFinalize;
  so_cleanup : extends adCleanup (λ r, DidCleanup (is_Ok r));
  so_operationErr : ignores operationErr;
  so_cleanupErr : ignores cleanupErr;
  so_recvPrepare : ignores recvPrepare;
  so_recvFrame : ignores recvFrame;
  so_sendAndClose : ignores sendAndClose;
  so_newSecret : ignores newSecret
}.

Context (sound : adapter_sound).

Definition respects {A} (m : M A) : Prop := ∀ s, Sound (gx_log s) (gx_world s) → Sound (gx_log (m s).2) (gx_world (m s).2).

Lemma r_bind {A B} (m : M A) (k : A → M B) : respects m → (∀ a, respects (k a)) → respects (bind m k).
Proof. intros Hm Hk s Hs. unfold bind. specialize (Hm s Hs). destruct (m s) as [[a|e] s1]; [by apply Hk|done]. Qed.
Lemma r_ret {A} (a : A) : respects (ret a).
Proof. by intros s. Qed.
Lemma r_throw {A} e : respects (throw (A := A) e).
Proof. by intros s. Qed.
Lemma r_service : respects service.
Proof. by intros s. Qed.
Lemma r_update f : respects (update f).
Proof. by intros s. Qed.
Lemma r_quiet {A} (f : W → A * W) : ignores f → respects (quiet f).
Proof. intros H s Hs. unfold quiet. specialize (H _ _ Hs). by destruct (f _). Qed.
Lemma r_ask {A} (f : W → A * W) record : extends f record → respects (ask f record).
Proof. intros H s Hs. unfold ask. specialize (H _ _ Hs). by destruct (f _). Qed.
Lemma r_aborting {A} (m : M A) : respects m → respects (aborting m).
Proof.
  intros Hm s Hs. unfold aborting. specialize (Hm s Hs). destruct (m s) as [[a|e] s1]; [done|]. by apply (r_ask _ _ (so_abort sound)).
Qed.

Ltac respecting := repeat first
  [ done | apply r_bind; [|intros ?] | apply r_ret | apply r_throw | apply r_service | apply r_update | apply r_aborting
  | apply r_quiet, sound | apply r_ask, sound | case_match ].

Lemma r_fail {A} code causes : respects (fail (A := A) code causes).
Proof. unfold fail. respecting. Qed.
Lemma r_failJoined {A B} code (r : result cause A) : respects (failJoined (B := B) code r).
Proof. unfold failJoined. apply r_bind; [apply r_quiet, sound|]. intros a. apply r_fail. Qed.
Lemma r_readPassphrase fuel frames buffer : respects (readPassphrase fuel frames buffer).
Proof. revert frames buffer. induction fuel as [|fuel IH]; intros frames buffer; cbn [readPassphrase]; unfold badRequest, transportError; respecting; apply IH. Qed.
Lemma r_writeFrames fuel header sequence written hashed : respects (writeFrames fuel header sequence written hashed).
Proof.
  revert sequence written hashed. induction fuel as [|fuel IH]; intros sequence written hashed; cbn [writeFrames]; [respecting|].
  repeat first [apply r_fail | apply IH | respecting].
Qed.

Lemma serve_sound s q : Sound (gx_log s) (gx_world s) → Sound (gx_log (serve s q)) (gx_world (serve s q)).
Proof.
  intros Hs. destruct q; cbn [serve]; [assert (respects (InspectUSB c d))|assert (respects PrepareExactUSB)|assert (respects WriteVerifiedFile)|
    assert (respects (VerifyWrittenFile c id))|assert (respects (FinalizeUSB c d))|assert (respects CloseExporter)]; eauto;
  unfold InspectUSB, PrepareExactUSB, WriteVerifiedFile, writeAndCommit, VerifyWrittenFile, FinalizeUSB, CloseExporter, stateError,
    invalidIdentity, badRequest, finish;
  repeat first [apply r_fail | apply r_failJoined | apply r_readPassphrase | apply r_writeFrames | respecting].
Qed.

End Service.

Lemma NewExporterService_bounded config sv : NewExporterService config = Ok sv → (xs_maxFileBytes sv ≤ maximumExporterFileBytes)%Z.
Proof. unfold NewExporterService. intros H. repeat (case_match; [done|]). injection H as <-. cbn. lia. Qed.

Lemma NewExporterService_Inv config sv : NewExporterService config = Ok sv → Inv (xs_maxFileBytes sv) sv [].
Proof. unfold NewExporterService. intros H. repeat (case_match; [done|]). by injection H as <-. Qed.

(** The bound of the descriptor is the one the exporter was configured with. *)
Lemma NewExporterService_limit config sv :
  NewExporterService config = Ok sv → xs_maxFileBytes sv = defaulted (xc_MaxFileBytes config) 4398046511104.
Proof. unfold NewExporterService. intros H. repeat (case_match; [done|]). by injection H as <-. Qed.

(** C25: whatever requests a new exporter has served, when [VerifyWrittenFile]
    answers a receipt the exporter has asked its adapter for exactly these
    things, in this order and for nothing else: to inspect the expected device,
    answered by evidence of that one unmounted mass-storage device without a
    network; to prepare it with a passphrase of 8 to 1024 bytes, answered LUKS2,
    ext4 and mounted; to begin the receipt's transfer; to write, numbered from 0,
    chunks that together have the descriptor's size and its SHA-256 digest; to
    commit them, answered that digest, both syncs and the rename; and to reread
    the transfer, answered the same digest again. *)
Theorem export_is_proved_by_its_calls unicodeLower {W} `{!ExporterAdapter W} `{!ExporterEnv W} config sv (w : W) qs c id receipt s' :
  (∀ w : W, typedFrame (recvFrame w).1) → NewExporterService config = Ok sv →
  VerifyWrittenFile c id (foldl (serve unicodeLower) (mkSt sv w []) qs) = (Ok receipt, s') →
  ∃ e ev pass pv header datas wv descriptor,
    gx_log s' = writeTrail e ev pass pv header id datas wv ++ [DidReread id (Ok (h_SHA256 header))] ∧
    validateExpectation e = true ∧ goodDevice e ev = true ∧ prepared pass pv ∧
    exporterHeader descriptor (defaulted (xc_MaxFileBytes config) 4398046511104) = Some header ∧ streamed header datas ∧ goodWrite (h_SHA256 header) wv = true ∧
    receipt = receiptOf header id descriptor (Some (protoSHA256 (h_SHA256 header))).
Proof.
  intros Hf Hn Hv. pose proof (NewExporterService_bounded _ _ Hn) as Hb. pose proof (NewExporterService_limit _ _ Hn) as Hlim.
  pose proof (served_keeps unicodeLower _ Hb Hf qs (mkSt sv w []) (NewExporterService_Inv _ _ Hn)) as Hi.
  pose proof (VerifyWrittenFile_keeps _ Hb c id _ Hi) as Ht. rewrite Hv in Ht.
  destruct Ht as ((_ & Hm & Hl) & Hst & Hr & Hid). rewrite Hst in Hl.
  destruct Hl as (ev & pass & pv & header & id' & datas & wv & descriptor & Hl & [He Hev] & Hpv & Hw & Hrec).
  rewrite Hr in Hrec. injection Hrec as ->. cbn in Hid. subst id'. destruct Hw. rewrite Hm, Hlim in *.
  exists (xs_expectation (gx_service s')), ev, pass, pv, header, datas, wv, descriptor. split_and!; try done.
Qed.

(** ** A run of the service *)

Definition demoDevice : ExporterDeviceExpectation := mkExpected "usb-0123456789abcdef" "0781" "5583" "4C530001" 15518924800.
Definition demoIdentity : GuestBoundary.Identity :=
  GuestBoundary.mkIdentity RoleExporter "sha256:00" "00" (replicate BootNonceSize 7%Z) "nixos" "1.0".
Definition demoExporterConfig : ExporterServiceConfig := mkExporterConfig demoIdentity true 0 0 0.
Definition demoExporterContext : option GuestContext := Some (mkGuestContext (Some (mkRequestContext None "request-1" "pvm-1")) 0).
Definition demoFile : list Z := bytesOf "approved".
Definition demoExportDescriptor : option FileDescriptor :=
  Some (mkDescriptor "notes.txt" 8 "text/plain" (Some (protoSHA256 (sha256 demoFile)))).
Definition demoPrepareFrames : list prepare_frame := [PBegin "pvm-1" demoDevice; PChunk (bytesOf "correct "); PChunk (bytesOf "horse")].
Definition demoExportFrames : list export_frame :=
  [EBegin "pvm-1" "transfer-1" demoExportDescriptor; EChunk 0 (take 5 demoFile); EChunk 1 (drop 5 demoFile);
   EEnd 8 (Some (protoSHA256 (sha256 demoFile)))].

Definition recvNth {A} (frames : list A) (n : nat) : received A := match frames !! n with Some f => Received f | None => EndOfStream end.

(** How many frames of each stream were received. *)
#[local] Instance demoExporterEnv : ExporterEnv (nat * nat) := {|
  operationErr w := (None, w); cleanupErr w := (false, w); sendAndClose w := (true, w); newSecret w := (true, w);
  recvPrepare w := (recvNth demoPrepareFrames w.1, (S w.1, w.2));
  recvFrame w := (recvNth demoExportFrames w.2, (w.1, S w.2))
|}.

#[local] Instance demoExporterAdapter : ExporterAdapter (nat * nat) := {|
  adInspect e w := (Ok (mkDeviceEvidence e true true true true false), w);
  adPrepare _ w := (Ok (mkPrepareEvidence true true true true), w);
  adBeginWrite _ _ w := (Ok tt, w); adWriteChunk _ _ w := (Ok tt, w);
  adCommit _ digest w := (Ok (mkWriteEvidence digest true true true), w);
  adAbort w := (Ok tt, w); adReread _ w := (Ok (sha256 demoFile), w);
  adFinalize w := (Ok (mkFinalizeEvidence true true), w); adCleanup w := (Ok tt, w)
|}.

Lemma demo_frames_typed (w : nat * nat) : typedFrame (recvFrame w).1.
Proof.
  destruct w as [p n]. cbn. unfold recvNth. destruct (demoExportFrames !! n) as [f|] eqn:Hf; [|done].
  repeat (destruct n as [|n]; [injection Hf as <-; cbn; unfold u64, two64; lia|]). done.
Qed.

#[local] Abbreviation demoNew := (match NewExporterService demoExporterConfig with Ok sv => sv | Err _ => mkExporter 0 0 0 exporterStateClosed "" noDevice None true end).
#[local] Abbreviation demoVerified :=
  (VerifyWrittenFile demoExporterContext "transfer-1"
     (foldl (serve id) (mkSt demoNew (0%nat, 0%nat) []) [AskInspect demoExporterContext demoDevice; AskPrepare; AskWrite])).

Lemma export_is_proved_by_its_calls_witness :
  is_Ok demoVerified.1 = true ∧
  ∃ e ev pass pv header datas wv, gx_log demoVerified.2 = writeTrail e ev pass pv header "transfer-1" datas wv ++ [DidReread "transfer-1" (Ok (h_SHA256 header))].
Proof.
  assert (Hok : is_Ok demoVerified.1 = true) by (vm_compute; reflexivity). split; [exact Hok|].
  assert (Heq : ∃ receipt, demoVerified = (Ok receipt, demoVerified.2)) by (destruct demoVerified as [[r|e] s']; [by eexists|discriminate Hok]).
  destruct Heq as [receipt Heq].
  destruct (export_is_proved_by_its_calls id demoExporterConfig demoNew (0%nat, 0%nat) _ demoExporterContext "transfer-1" receipt demoVerified.2
    demo_frames_typed ltac:(vm_compute; reflexivity) Heq) as (e & ev & pass & pv & header & datas & wv & descriptor & Hl & _).
  exists e, ev, pass, pv, header, datas, wv. exact Hl.
Defined.
