(* ===== verification/ExporterDevice.v ===== *)
(** * The exporter's device

    Models [src/internal/guest/exporter_adapter_linux.go]: the discovery of the
    one USB mass-storage device of the exporter guest, and the fixed adapter that
    inspects, formats, mounts, writes, rereads and closes it.  The sysfs tree is
    a snapshot for the length of one discovery; commands and file operations are
    an interface over the disk, any of which may fail.  The adapter is an
    instance of [GuestExporter.ExporterAdapter], and the theorems at the end
    are about the service and the adapter together. *)

From Stdlib Require Import ZArith Lia Ascii.
From stdpp Require Import strings base tactics option list sets gmap sorting.
From S2P Require Import GuestBoundary.
From S2P Require Import Prelude GoText Sha256 Transfer Workspace GuestExporter.

Open Scope string_scope.
Open Scope list_scope.

Definition fixedExporterMapperName : string := "private-vm-export".
Definition fixedExporterOutputName : string := "approved-output".
Definition fixedExporterTempName : string := ".approved-output.partial".
Definition maximumExporterSysfs : Z := 4096.

Record fixedExporterPaths := mkPaths {
  fp_USBRoot : string;
  fp_BlockRoot : string;
  fp_DeviceRoot : string;
  fp_NetworkRoot : string;
  fp_MountInfo : string;
  fp_MountPoint : string;
  fp_MapperPath : string;
  fp_Cryptsetup : string;
  fp_MkfsExt4 : string;
  fp_Mount : string;
  fp_Umount : string;
  fp_Wipefs : string;
  fp_Blkid : string
}.

Definition cleanAbsolute (path : string) : bool := IsAbs path && bool_decide (Clean path = path).

(** [filepath.Join] of nonempty elements. *)
Definition joinPath (elements : list string) : string := Clean (GoText.Join elements).

(** ** Discovery *)

(** A directory tree as [filepath.WalkDir] visits it: what is not a directory
    has no children, and a directory may be unreadable. *)
Inductive sys_tree := SysFile (name : string) | SysDir (name : string) (readable : bool) (children : list sys_tree).

(** What the guest's kernel shows.  A missing answer is an error. *)
Record Sysfs := mkSysfs {
  sy_readDir : string → option (list string);
  sy_evalSymlinks : string → option string;
  sy_readAll : string → option string;             (* at most 4097 bytes *)
  sy_tree : string → option sys_tree;
  sy_isBlock : string → bool;                      (* stat succeeds and says block device *)
  sy_mountinfo : option (list string * bool)       (* the lines, and whether the scan ended well *)
}.

Record exporterDevice := mkDevice {
  xd_Path : string;
  xd_VendorID : string;
  xd_ProductID : string;
  xd_Serial : string;
  xd_Capacity : Z;
  xd_Mounted : bool;
  xd_HostFilesystem : bool
}.

Definition hasZeroByte (s : string) : bool := string_existsb (char_eqb "000") s.

Definition smallExporterValue (sys : Sysfs) (path : string) : option string :=
  match sy_readAll sys path with
  | None => None
  | Some value =>
      if (slen value =? 0)%Z || (4096 <? slen value)%Z || hasZeroByte value then None else Some (TrimSpace value)
  end.

Definition exporterUint (sys : Sysfs) (path : string) : option Z :=
  value ← smallExporterValue sys path; ParseUint value 64.

Definition parsesUint16 (s : string) : bool := match ParseUint s 16 with Some _ => true | None => false end.

Definition usbPortName (value : string) : bool :=
  if bool_decide (value = "") || (128 <? slen value)%Z || ContainsAny value ("/" +:+ lineBreaks) then false
  else
    match Split "-" value with
    | [bus; ports] => parsesUint16 bus && forallb parsesUint16 (Split "." ports)
    | _ => false
    end.

Definition onlyLoopbackNetwork (sys : Sysfs) (root : string) : bool :=
  match sy_readDir sys root with None => false | Some entries => forallb (λ name, bool_decide (name = "lo")) entries end.

(** The interfaces of the port, counted; [None] is an error and [Some None] an
    interface of another class ("08" has no other case). *)
Fixpoint massInterfaces (sys : Sysfs) (root name : string) (entries : list string) (count : Z) : option (option Z) :=
  match entries with
  | [] => Some (Some count)
  | entry :: rest =>
      if negb (HasPrefix entry (name +:+ ":")) then massInterfaces sys root name rest count
      else
        match sy_evalSymlinks sys (joinPath [root; entry]) with
        | None => None
        | Some resolved =>
            match smallExporterValue sys (joinPath [resolved; "bInterfaceClass"]) with
            | None => None
            | Some class => if bool_decide (class = "08") then massInterfaces sys root name rest (count + 1) else Some None
            end
        end
  end.

Definition exporterMassStorageOnly (sys : Sysfs) (root name : string) : option bool :=
  match sy_readDir sys root with
  | None => None
  | Some entries =>
      match massInterfaces sys root name entries 0 with
      | None => None
      | Some None => Some false
      | Some (Some count) => Some ((0 <? count)%Z && (count <=? 32)%Z)
      end
  end.

(** The walk's callback and its recursion; [None] is an error, and a directory
    under a [block] directory is recorded and skipped. *)
Fixpoint walkBlocks (parent : string) (t : sys_tree) (st : Z * gset string) {struct t} : option (Z * gset string) :=
  let '(count, names) := st in
  let count := (count + 1)%Z in
  if (maximumExporterSysfs <? count)%Z then None
  else
    match t with
    | SysFile _ => Some (count, names)
    | SysDir name readable children =>
        if bool_decide (parent = "block") then Some (count, {[name]} ∪ names)
        else if negb readable then None
        else
          (fix walkAll (ts : list sys_tree) (st : Z * gset string) : option (Z * gset string) :=
             match ts with
             | [] => Some st
             | t :: ts => match walkBlocks name t st with Some st => walkAll ts st | None => None end
             end) children (count, names)
    end.

(** [filepath.Base(filepath.Dir(path))] of a clean absolute path. *)
Definition parentName (path : string) : string :=
  match rev (Split "/" path) with _ :: parent :: _ => if bool_decide (parent = "") then "/" else parent | _ => "." end.

Definition exporterBlockNames (sys : Sysfs) (root : string) : option (list string) :=
  match sy_tree sys root with
  | None => None
  | Some t => match walkBlocks (parentName root) t (0%Z, ∅) with
              | None => None
              | Some (_, names) => Some (merge_sort string_le (elements names))
              end
  end.

Definition exporterBlockDeviceNumbers (sys : Sysfs) (blockRoot usbRoot : string) : option (gset string) :=
  match sy_readDir sys blockRoot with
  | None => None
  | Some entries =>
      Some (list_to_set (omap (λ entry,
        match sy_evalSymlinks sys (joinPath [blockRoot; entry]) with
        | None => None
        | Some resolved =>
            if negb (bool_decide (resolved = usbRoot)) && negb (HasPrefix resolved (usbRoot +:+ "/")) then None
            else smallExporterValue sys (joinPath [blockRoot; entry; "dev"])
        end) entries))
  end.

Fixpoint mountLines (lines : list string) (result : gmap string (list string)) : option (gmap string (list string)) :=
  match lines with
  | [] => Some result
  | line :: rest =>
      match Fields line with
      | _ :: _ :: number :: _ :: point :: _ :: _ =>
          let result := <[number := default [] (result !! number) ++ [point]]> result in
          if (maximumExporterSysfs <? Z.of_nat (size result))%Z then None else mountLines rest result
      | _ => None
      end
  end.

Definition exporterMountDevices (sys : Sysfs) : option (gmap string (list string)) :=
  match sy_mountinfo sys with
  | None => None
  | Some (lines, scanned) => match mountLines lines ∅ with Some result => if scanned : bool then Some result else None | None => None end
  end.

Definition guestRootPoint (point : string) : bool :=
  bool_decide (point = "/") || bool_decide (point = "/boot") || HasPrefix point "/boot/" || bool_decide (point = "/nix") || HasPrefix point "/nix/".

(** Whether one of the numbers is mounted, and whether on the guest's own root. *)
Definition mountsOf (mounts : gmap string (list string)) (numbers : gset string) : bool * bool :=
  let hit := List.filter (λ '(number, _), bool_decide (number ∈ numbers)) (map_to_list mounts) in
  (negb (bool_decide (hit = [])), existsb (λ '(_, points), existsb guestRootPoint points) hit).

Definition maxSectors : Z := (two64 - 1) / 512.

(** The entries that are interfaces of the port. *)
Definition interfacesOf (name : string) (entries : list string) : list string := List.filter (λ entry, HasPrefix entry (name +:+ ":")) entries.

Definition isMassInterface (sys : Sysfs) (root entry : string) : Prop :=
  ∃ resolved, sy_evalSymlinks sys (joinPath [root; entry]) = Some resolved ∧
    smallExporterValue sys (joinPath [resolved; "bInterfaceClass"]) = Some "08".

Lemma massInterfaces_all sys root name entries count out :
  massInterfaces sys root name entries count = Some (Some out) →
  out = (count + len (interfacesOf name entries))%Z ∧ Forall (isMassInterface sys root) (interfacesOf name entries).
Proof.
  revert count. induction entries as [|entry entries IH]; intros count; cbn [massInterfaces interfacesOf List.filter].
  { intros [= <-]. unfold len. cbn. split; [lia|constructor]. }
  fold (interfacesOf name entries). destruct (HasPrefix entry (name +:+ ":")); cbn [negb]; [|apply IH].
  destruct (sy_evalSymlinks _ _) as [resolved|] eqn:He; [|done]. destruct (smallExporterValue _ _) as [class|] eqn:Hc; [|done].
  case_bool_decide as Hk; [|done]. subst class. intros H. apply IH in H as [-> Hf]. split; [unfold len; cbn [length]; lia|].
  constructor; [by exists resolved|done].
Qed.

Lemma mountLines_all lines before after :
  mountLines lines before = Some after →
  (∀ n, is_Some (before !! n) → is_Some (after !! n)) ∧
  (∀ line n, line ∈ lines → Fields line !! 2%nat = Some n → is_Some (after !! n)).
Proof.
  revert before. induction lines as [|line lines IH]; intros before; cbn [mountLines].
  { intros [= <-]. split; [done|]. by intros line n ?%elem_of_nil. }
  destruct (Fields line) as [|f0 [|f1 [|number [|f3 [|point [|f5 rest]]]]]] eqn:Hf; try done. case_match; [done|]. intros Hm.
  apply IH in Hm as [Hb Hl]. split.
  - intros n Hn. apply Hb. destruct (decide (n = number)) as [->|]; [by rewrite lookup_insert_eq|by rewrite lookup_insert_ne].
  - intros l n [->|Hin]%elem_of_cons Hn; [|by eapply Hl]. rewrite Hf in Hn. injection Hn as <-. apply Hb. by rewrite lookup_insert_eq.
Qed.

Lemma mountsOf_none mounts numbers host :
  mountsOf mounts numbers = (false, host) → ∀ n points, mounts !! n = Some points → n ∉ numbers.
Proof.
  unfold mountsOf. intros [= H _] n points Hn Hin. apply negb_false_iff, bool_decide_eq_true in H.
  assert (Hx : In (n, points) (List.filter (λ '(number, _), bool_decide (number ∈ numbers)) (map_to_list mounts))).
  { apply filter_In. split; [by apply list_elem_of_In, elem_of_map_to_list|by apply bool_decide_eq_true]. }
  by rewrite H in Hx.
Qed.

Section Discovery.
Context (unicodeLower : N → N) (paths : fixedExporterPaths) (sys : Sysfs).

(** One entry of the USB directory: [Ok None] is [continue]. *)
Definition discoverEntry (mounts : gmap string (list string)) (entry : string) : result unit (option exporterDevice) :=
  if Contains entry ":" || negb (usbPortName entry) then Ok None
  else
  match sy_evalSymlinks sys (joinPath [fp_USBRoot paths; entry]) with
  | None => Ok None
  | Some root =>
  match smallExporterValue sys (joinPath [root; "idVendor"]), smallExporterValue sys (joinPath [root; "idProduct"]) with
  | Some vendor, Some product =>
      let serial := default "" (smallExporterValue sys (joinPath [root; "serial"])) in
      match exporterMassStorageOnly sys (fp_USBRoot paths) entry with
      | Some true =>
          match exporterBlockNames sys root with
          | Some [block] =>
              match exporterUint sys (joinPath [fp_BlockRoot paths; block; "size"]) with
              | None => Err tt
              | Some sectors =>
                  fail_if ((sectors =? 0)%Z || (maxSectors <? sectors)%Z) with tt ;;
                  match exporterBlockDeviceNumbers sys (fp_BlockRoot paths) root with
                  | None => Err tt
                  | Some numbers =>
                      let '(mounted, host) := mountsOf mounts numbers in
                      let devicePath := joinPath [fp_DeviceRoot paths; block] in
                      fail_if (negb (sy_isBlock sys devicePath)) with tt ;;
                      Ok (Some (mkDevice devicePath (ToLower unicodeLower vendor) (ToLower unicodeLower product) serial
                                  (wrap64 (sectors * 512)) mounted host))
                  end
              end
          | _ => Ok None
          end
      | _ => Ok None
      end
  | _, _ => Ok None
  end end.

Context {E : Type} `{!ExporterEnv E}.

Fixpoint discoverEntries (mounts : gmap string (list string)) (entries : list string) (devices : list exporterDevice) (e : E) :
    result unit (list exporterDevice) * E :=
  match entries with
  | [] => (Ok devices, e)
  | entry :: rest =>
      match operationErr e with
      | (Some _, e) => (Err tt, e)
      | (None, e) =>
          match discoverEntry mounts entry with
          | Err _ => (Err tt, e)
          | Ok None => discoverEntries mounts rest devices e
          | Ok (Some d) => discoverEntries mounts rest (devices ++ [d]) e
          end
      end
  end.

Definition pathBefore (a b : exporterDevice) : Prop := string_le (xd_Path a) (xd_Path b).

#[global] Instance pathBefore_dec : RelDecision pathBefore.
Proof. unfold RelDecision, pathBefore. intros a b. apply _. Defined.

Definition discoverExporterDevices (e : E) : result unit (list exporterDevice) * E :=
  match sy_readDir sys (fp_USBRoot paths) with
  | None => (Err tt, e)
  | Some entries =>
      if (maximumExporterSysfs <? len entries)%Z then (Err tt, e)
      else
        match exporterMountDevices sys with
        | None => (Err tt, e)
        | Some mounts =>
            match discoverEntries mounts entries [] e with
            | (Ok devices, e) => (Ok (merge_sort pathBefore devices), e)
            | (Err _, e) => (Err tt, e)
            end
        end
  end.

Lemma discoverEntries_all mounts entries devices e out e' :
  discoverEntries mounts entries devices e = (Ok out, e') →
  Forall (λ entry, is_Ok (discoverEntry mounts entry) = true) entries ∧
  out = devices ++ omap (λ entry, match discoverEntry mounts entry with Ok o => o | Err _ => None end) entries.
Proof.
  revert devices e. induction entries as [|entry entries IH]; intros devices e Hd; cbn in Hd |- *.
  { injection Hd as <- _. by rewrite app_nil_r. }
  destruct (operationErr e) as [[c|] e1]; [done|]. destruct (discoverEntry mounts entry) as [[device|]|] eqn:He; [| |done].
  - apply IH in Hd as [Hf ->]. split; [by constructor; [rewrite He|]|]. by rewrite <- app_assoc.
  - apply IH in Hd as [Hf ->]. split; [by constructor; [rewrite He|]|done].
Qed.

End Discovery.

(** ** The adapter *)

(** [os.Remove]; a missing file is told apart. *)
Inductive removed := Removed | NotExist | RemoveFailed.

(** Commands, with their standard input, binary and arguments, and the file
    operations, with the path of the file they are on. *)
Class ExporterOS (D : Type) := {
  osSysfs : D → Sysfs;
  osRun : option (list Z) → string → list string → D → bool * D;
  osMkdirAll : string → D → bool * D;
  osStatfsType : string → D → option Z * D;
  osRemove : string → D → removed * D;
  osCreate : string → D → bool * D;                   (* O_WRONLY|O_CREATE|O_EXCL|O_NOFOLLOW *)
  osWrite : string → list Z → D → (Z * bool) * D;     (* how many, and whether without error *)
  osSync : string → D → bool * D;
  osClose : string → D → bool * D;
  osRename : string → string → D → bool * D;
  osOpen : string → D → bool * D;
  osSyncfs : string → D → bool * D;
  osRead : string → Z → D → (list Z * readEnd) * D    (* at an offset, into a buffer of [DefaultMaxChunk] *)
}.

Record fixedExporterWriter := mkWriter {
  fw_open : bool;                    (* [file] is not nil *)
  fw_expectedSize : Z;
  fw_written : Z;
  fw_hash : list Z;
  fw_closed : bool
}.

(** [fa_object] is the writer last made, which the service holds; [fa_writer]
    says whether [adapter.writer] still points at it. *)
Record fixedExporterAdapter := mkAdapter {
  fa_device : string;
  fa_expected : ExporterDeviceExpectation;
  fa_mounted : bool;
  fa_mapperOpen : bool;
  fa_writer : bool;
  fa_object : option fixedExporterWriter
}.

Definition newAdapter : fixedExporterAdapter := mkAdapter "" noDevice false false false None.

(** [newFixedExporterAdapter] with a runner. *)
Definition newFixedExporterAdapter (paths : fixedExporterPaths) : option fixedExporterAdapter :=
  if negb (forallb cleanAbsolute
       [fp_USBRoot paths; fp_BlockRoot paths; fp_DeviceRoot paths; fp_NetworkRoot paths; fp_MountInfo paths; fp_MountPoint paths;
        fp_MapperPath paths; fp_Cryptsetup paths; fp_MkfsExt4 paths; fp_Mount paths; fp_Umount paths; fp_Wipefs paths; fp_Blkid paths])
  then None
  else if negb (bool_decide (Base (fp_MapperPath paths) = fixedExporterMapperName)) then None
  else Some newAdapter.

(** [exec.LookPath] and [filepath.Abs] of what it found. *)
Definition exporterTool (lookPath abs : string → option string) (name : string) : option string :=
  path ← lookPath name; path ← abs path; if cleanAbsolute path && bool_decide (Base path = name) then Some path else None.

Definition NewFixedExporterAdapter (lookPath abs : string → option string) : option (fixedExporterPaths * fixedExporterAdapter) :=
  cryptsetup ← exporterTool lookPath abs "cryptsetup"; mkfs ← exporterTool lookPath abs "mkfs.ext4";
  mount ← exporterTool lookPath abs "mount"; umount ← exporterTool lookPath abs "umount";
  wipefs ← exporterTool lookPath abs "wipefs"; blkid ← exporterTool lookPath abs "blkid";
  let paths := mkPaths "/sys/bus/usb/devices" "/sys/class/block" "/dev" "/sys/class/net" "/proc/self/mountinfo" "/run/private-vm/export"
                 ("/dev/mapper/" +:+ fixedExporterMapperName) cryptsetup mkfs mount umount wipefs blkid in
  adapter ← newFixedExporterAdapter paths; Some (paths, adapter).

Section Adapter.
Context (unicodeLower : N → N) (paths : fixedExporterPaths) (rereadFuel : nat) {D E : Type} `{!ExporterOS D} `{!ExporterEnv E}.

Record Host := mkHost { ho_adapter : fixedExporterAdapter; ho_disk : D; ho_env : E }.

Definition H (A : Type) : Type := Host → result cause A * Host.

Definition hret {A} (a : A) : H A := λ h, (Ok a, h).
Definition hthrow {A} (c : cause) : H A := λ h, (Err c, h).
Definition hbind {A B} (m : H A) (k : A → H B) : H B := λ h, match m h with (Ok a, h) => k a h | (Err c, h) => (Err c, h) end.

#[local] Notation "'do' x := m ; k" := (hbind m (λ x, k)) (at level 100, x binder, m at level 99, right associativity).

Definition adapter : H fixedExporterAdapter := λ h, (Ok (ho_adapter h), h).
Definition setAdapter (f : fixedExporterAdapter → fixedExporterAdapter) : H unit := λ h, (Ok tt, mkHost (f (ho_adapter h)) (ho_disk h) (ho_env h)).
Definition disk {A} (f : D → A * D) : H A := λ h, let '(a, d) := f (ho_disk h) in (Ok a, mkHost (ho_adapter h) d (ho_env h)).
Definition env {A} (f : E → A * E) : H A := λ h, let '(a, e) := f (ho_env h) in (Ok a, mkHost (ho_adapter h) (ho_disk h) e).
(** A step whose failure is returned. *)
Definition must (f : D → bool * D) : H unit := do ok := disk f ; if ok : bool then hret tt else hthrow CauseOther.
Definition command (binary : string) (arguments : list string) : H unit := must (osRun None binary arguments).
Definition checkContext : H unit := do ended := env operationErr ; match ended with Some c => hthrow c | None => hret tt end.

Definition partialPath : string := joinPath [fp_MountPoint paths; fixedExporterTempName].
Definition finalPath : string := joinPath [fp_MountPoint paths; fixedExporterOutputName].

Definition with_mounted (b : bool) (a : fixedExporterAdapter) : fixedExporterAdapter :=
  mkAdapter (fa_device a) (fa_expected a) b (fa_mapperOpen a) (fa_writer a) (fa_object a).
Definition with_mapper (b : bool) (a : fixedExporterAdapter) : fixedExporterAdapter :=
  mkAdapter (fa_device a) (fa_expected a) (fa_mounted a) b (fa_writer a) (fa_object a).
Definition with_writer (registered : bool) (w : option fixedExporterWriter) (a : fixedExporterAdapter) : fixedExporterAdapter :=
  mkAdapter (fa_device a) (fa_expected a) (fa_mounted a) (fa_mapperOpen a) registered w.

Definition Inspect (expected : ExporterDeviceExpectation) : H ExporterDeviceEvidence := λ h,
  let sys := osSysfs (ho_disk h) in
  if negb (validateExpectation expected) then (Err CauseOther, h)
  else if negb (onlyLoopbackNetwork sys (fp_NetworkRoot paths)) then (Err CauseOther, h)
  else
    let '(r, e) := discoverExporterDevices unicodeLower paths sys (ho_env h) in
    let h := mkHost (ho_adapter h) (ho_disk h) e in
    match r with
    | Ok [device] =>
        if negb (bool_decide (xd_VendorID device = ex_VendorID expected)) || negb (bool_decide (xd_ProductID device = ex_ProductID expected)) ||
           negb (bool_decide (xd_Serial device = ex_Serial expected)) || negb (xd_Capacity device =? ex_Capacity expected)%Z
        then (Err CauseOther, h)
        else if xd_Mounted device || xd_HostFilesystem device then (Err CauseOther, h)
        else
          let a := ho_adapter h in
          (Ok (mkDeviceEvidence expected true true true true false),
           mkHost (mkAdapter (xd_Path device) expected (fa_mounted a) (fa_mapperOpen a) (fa_writer a) (fa_object a)) (ho_disk h) (ho_env h))
    | _ => (Err CauseOther, h)
    end.

Definition EXT4_SUPER_MAGIC : Z := 61267.

Definition verifyExporterExt4 (path : string) : H unit :=
  do kind := disk (osStatfsType path) ;
  match kind with Some k => if (k =? EXT4_SUPER_MAGIC)%Z then hret tt else hthrow CauseOther | None => hthrow CauseOther end.

(** [Prepare]; the passphrase is live, so that [WithReader] runs its callback. *)
Definition Prepare (passphrase : list Z) : H ExporterPrepareEvidence :=
  do a := adapter ;
  if bool_decide (fa_device a = "") || fa_mounted a || fa_mapperOpen a then hthrow CauseOther
  else
    do _ := must (osMkdirAll (fp_MountPoint paths)) ;
    do _ := command (fp_Wipefs paths) ["--all"; fa_device a] ;
    do _ := must (osRun (Some passphrase) (fp_Cryptsetup paths) ["luksFormat"; "--type"; "luks2"; "--batch-mode"; "--key-file"; "-"; fa_device a]) ;
    do _ := must (osRun (Some passphrase) (fp_Cryptsetup paths) ["open"; "--type"; "luks2"; "--key-file"; "-"; fa_device a; fixedExporterMapperName]) ;
    do _ := setAdapter (with_mapper true) ;
    do _ := command (fp_MkfsExt4 paths) ["-F"; "-L"; "PRIVATE_VM_EXPORT"; fp_MapperPath paths] ;
    do _ := command (fp_Blkid paths) ["-p"; "-s"; "TYPE"; "-o"; "value"; fp_MapperPath paths] ;
    do _ := command (fp_Mount paths) ["-t"; "ext4"; "-o"; "nodev,nosuid,noexec"; fp_MapperPath paths; fp_MountPoint paths] ;
    do _ := setAdapter (with_mounted true) ;
    do _ := verifyExporterExt4 (fp_MountPoint paths) ;
    hret (mkPrepareEvidence true true true true).

(** Removing what may not be there. *)
Definition removeStale (path : string) : H unit :=
  do r := disk (osRemove path) ; match r with RemoveFailed => hthrow CauseOther | _ => hret tt end.

Definition BeginWrite (header : Header) (transferID : string) : H unit :=
  do a := adapter ;
  if negb (fa_mounted a) || fa_writer a || negb (exporterTransferPattern transferID) then hthrow CauseOther
  else
    do _ := removeStale partialPath ;
    do _ := removeStale finalPath ;
    do _ := must (osCreate partialPath) ;
    setAdapter (with_writer true (Some (mkWriter true (h_Size header) 0 [] false))).

(** The writer the service holds. *)
Definition withWriter {A} (k : fixedExporterWriter → H A) : H A :=
  do a := adapter ; match fa_object a with Some w => k w | None => hthrow CauseOther end.

Definition setWriter (w : fixedExporterWriter) : H unit := setAdapter (λ a, with_writer (fa_writer a) (Some w) a).

Definition WriteChunk (data : list Z) : H unit :=
  withWriter (λ w,
    if fw_closed w || negb (fw_open w) || (fw_expectedSize w <? fw_written w)%Z || (sub64 (fw_expectedSize w) (fw_written w) <? len data)%Z
    then hthrow CauseOther
    else
      do _ := checkContext ;
      do r := disk (osWrite partialPath data) ;
      if negb r.2 || negb (r.1 =? len data)%Z then hthrow CauseOther
      else setWriter (mkWriter (fw_open w) (fw_expectedSize w) (add64 (fw_written w) r.1) (fw_hash w ++ data) (fw_closed w))).

Definition Commit (size : Z) (expected : list Z) : H ExporterWriteEvidence :=
  withWriter (λ w,
    let actual := sha256 (fw_hash w) in
    if fw_closed w || negb (size =? fw_expectedSize w)%Z || negb (fw_written w =? size)%Z || negb (bool_decide (actual = expected))
    then hthrow CauseOther
    else
      do _ := must (osSync partialPath) ;
      do _ := must (osClose partialPath) ;
      do _ := setWriter (mkWriter false (fw_expectedSize w) (fw_written w) (fw_hash w) (fw_closed w)) ;
      do _ := must (osRename partialPath finalPath) ;
      do _ := must (osOpen (fp_MountPoint paths)) ;
      do _ := must (osSync (fp_MountPoint paths)) ;
      do _ := must (osSyncfs (fp_MountPoint paths)) ;
      do _ := setAdapter (with_writer false (Some (mkWriter false (fw_expectedSize w) (fw_written w) (fw_hash w) true))) ;
      hret (mkWriteEvidence actual true true true)).

Definition Abort : H unit :=
  withWriter (λ w,
    do _ := (if fw_open w then disk (osClose partialPath) else hret true) ;
    do r := disk (osRemove partialPath) ;
    do _ := setAdapter (with_writer false (Some (mkWriter false (fw_expectedSize w) (fw_written w) (fw_hash w) true))) ;
    match r with RemoveFailed => hthrow CauseOther | _ => hret tt end).

(** The read loop; [None] is out of fuel. *)
Fixpoint rereadLoop (fuel : nat) (offset : Z) (hashed : list Z) : H (option (list Z)) :=
  match fuel with
  | O => hret None
  | S fuel =>
      do _ := checkContext ;
      do r := disk (osRead finalPath offset) ;
      let hashed := hashed ++ r.1 in
      match r.2 with
      | ReadEOF => hret (Some hashed)
      | ReadFailed => hthrow CauseOther
      | ReadMore => rereadLoop fuel (offset + len r.1) hashed
      end
  end.

Definition Reread (transferID : string) : H (list Z) :=
  do a := adapter ;
  if negb (fa_mounted a) || negb (exporterTransferPattern transferID) then hthrow CauseOther
  else
    do _ := must (osOpen finalPath) ;
    do hashed := rereadLoop rereadFuel 0 [] ;
    match hashed with Some hashed => hret (sha256 hashed) | None => hthrow CauseOther end.

Definition Finalize : H ExporterFinalizeEvidence :=
  do a := adapter ;
  if negb (fa_mounted a) || negb (fa_mapperOpen a) || fa_writer a then hthrow CauseOther
  else
    do _ := command (fp_Umount paths) [fp_MountPoint paths] ;
    do _ := setAdapter (with_mounted false) ;
    do _ := command (fp_Cryptsetup paths) ["close"; fixedExporterMapperName] ;
    do _ := setAdapter (with_mapper false) ;
    hret (mkFinalizeEvidence true true).

(** Whether a step succeeded; its failure is joined to the result. *)
Definition attempt (m : H unit) : H bool := λ h, let '(r, h) := m h in (Ok (is_Ok r), h).

Definition Cleanup : H unit :=
  do a := adapter ;
  do aborted := (if fa_writer a then attempt Abort else hret true) ;
  do unmounted := (if fa_mounted a then
                     do ok := attempt (command (fp_Umount paths) [fp_MountPoint paths]) ;
                     do _ := (if ok then setAdapter (with_mounted false) else hret tt) ; hret ok
                   else hret true) ;
  do a := adapter ;
  do closed := (if fa_mapperOpen a && negb (fa_mounted a) then
                  do ok := attempt (command (fp_Cryptsetup paths) ["close"; fixedExporterMapperName]) ;
                  do _ := (if ok then setAdapter (with_mapper false) else hret tt) ; hret ok
                else hret true) ;
  if aborted && unmounted && closed then hret tt else hthrow CauseOther.

#[local] Instance fixedAdapter : ExporterAdapter Host := {|
  adInspect := Inspect; adPrepare := Prepare; adBeginWrite := BeginWrite; adWriteChunk _ data := WriteChunk data;
  adCommit := Commit; adAbort := Abort; adReread := Reread; adFinalize := Finalize; adCleanup := Cleanup
|}.

Definition lifted {A} (f : E → A * E) (h : Host) : A * Host := let '(a, e) := f (ho_env h) in (a, mkHost (ho_adapter h) (ho_disk h) e).

#[local] Instance hostEnv : ExporterEnv Host := {|
  operationErr := lifted operationErr; cleanupErr := lifted cleanupErr; recvPrepare := lifted recvPrepare; recvFrame := lifted recvFrame;
  sendAndClose := lifted sendAndClose; newSecret := lifted newSecret
|}.

(** ** The inspected device *)

(** The device of a directory entry, as its kernel files describe it. *)
Record describes (sys : Sysfs) (entries lines : list string) (expected : ExporterDeviceExpectation) (path entry : string) : Prop := {
  de_port : usbPortName entry = true ∧ entry ∈ entries;
  de_files : ∃ root vendor product block sectors numbers,
    sy_evalSymlinks sys (joinPath [fp_USBRoot paths; entry]) = Some root ∧
    smallExporterValue sys (joinPath [root; "idVendor"]) = Some vendor ∧ ToLower unicodeLower vendor = ex_VendorID expected ∧
    smallExporterValue sys (joinPath [root; "idProduct"]) = Some product ∧ ToLower unicodeLower product = ex_ProductID expected ∧
    default "" (smallExporterValue sys (joinPath [root; "serial"])) = ex_Serial expected ∧
    exporterBlockNames sys root = Some [block] ∧ path = joinPath [fp_DeviceRoot paths; block] ∧ sy_isBlock sys path = true ∧
    exporterUint sys (joinPath [fp_BlockRoot paths; block; "size"]) = Some sectors ∧ ex_Capacity expected = (sectors * 512)%Z ∧
    exporterBlockDeviceNumbers sys (fp_BlockRoot paths) root = Some numbers ∧
    ∀ line number, line ∈ lines → Fields line !! 2%nat = Some number → number ∉ numbers;
  de_interfaces : Forall (isMassInterface sys (fp_USBRoot paths)) (interfacesOf entry entries) ∧ (1 ≤ len (interfacesOf entry entries) ≤ 32)%Z
}.

Lemma exporterUint_nonneg sys path n : exporterUint sys path = Some n → (0 ≤ n)%Z.
Proof. unfold exporterUint. intros H. apply bind_Some in H as (v & _ & H). by apply ParseUint_range in H as [? _]. Qed.

Lemma discoverEntry_describes sys mounts lines scanned entries entry device expected :
  sy_readDir sys (fp_USBRoot paths) = Some entries → sy_mountinfo sys = Some (lines, scanned) → mountLines lines ∅ = Some mounts →
  entry ∈ entries → discoverEntry unicodeLower paths sys mounts entry = Ok (Some device) →
  xd_VendorID device = ex_VendorID expected → xd_ProductID device = ex_ProductID expected → xd_Serial device = ex_Serial expected →
  xd_Capacity device = ex_Capacity expected → xd_Mounted device = false →
  describes sys entries lines expected (xd_Path device) entry.
Proof.
  intros Hd Hmi Hml Hin. unfold discoverEntry. destruct (_ || _) eqn:Hp; [done|]. apply orb_false_iff in Hp as [_ Hp]. apply negb_false_iff in Hp.
  destruct (sy_evalSymlinks _ _) as [root|] eqn:Hroot; [|done]. destruct (smallExporterValue sys (joinPath [root; "idVendor"])) as [vendor|] eqn:Hv; [|done].
  destruct (smallExporterValue sys (joinPath [root; "idProduct"])) as [product|] eqn:Hpr; [|done].
  destruct (exporterMassStorageOnly _ _ _) as [[|]|] eqn:Hmass; [|done..]. destruct (exporterBlockNames sys root) as [[|block [|]]|] eqn:Hb; [done| |done..].
  destruct (exporterUint _ _) as [sectors|] eqn:Hs; [|done]. destruct (_ || _) eqn:Hz; [done|]. apply orb_false_iff in Hz as [Hz Hz'].
  destruct (exporterBlockDeviceNumbers _ _ _) as [numbers|] eqn:Hn; [|done]. destruct (mountsOf mounts numbers) as [mounted host] eqn:Hm.
  destruct (negb (sy_isBlock _ _)) eqn:Hbl; [done|]. apply negb_false_iff in Hbl. intros [= <-]. cbn. intros Hvv Hpp Hss Hcap ->.
  pose proof (exporterUint_nonneg _ _ _ Hs) as Hnn. change maxSectors with 36028797018963967%Z in Hz'.
  unfold exporterMassStorageOnly in Hmass. rewrite Hd in Hmass. destruct (massInterfaces _ _ _ _ _) as [[count|]|] eqn:Hmi'; [|done..].
  apply massInterfaces_all in Hmi' as [-> Hall]. injection Hmass as Hmass. apply andb_true_iff in Hmass as [Hc1 Hc2]. split.
  - done.
  - exists root, vendor, product, block, sectors, numbers. split_and!; try done.
    + rewrite <- Hcap. apply wrap64_small. unfold u64, two64. lia.
    + intros line number Hl Hf. destruct (mountLines_all _ _ _ Hml) as [_ Ha]. destruct (Ha _ _ Hl Hf) as [points Hpt].
      by eapply mountsOf_none.
  - split; [done|lia].
Qed.

(** When the fixed adapter's [Inspect] answers, the guest has no network
    interface but loopback, and among the entries of the USB directory exactly
    one is a usable device.  Its kernel files say the vendor, product, serial and
    capacity (in sectors, without overflow) of the expectation, each of its 1 to
    32 interfaces is mass storage, it has one block device, which is the one the
    adapter will format, and no line of the mount table names a device number
    under it. *)
Theorem inspected_device_is_exact expected h ev h' :
  Inspect expected h = (Ok ev, h') →
  let sys := osSysfs (ho_disk h) in
  ∃ nets entries lines mounts entry device,
    sy_readDir sys (fp_NetworkRoot paths) = Some nets ∧ (∀ name, name ∈ nets → name = "lo") ∧
    sy_readDir sys (fp_USBRoot paths) = Some entries ∧ sy_mountinfo sys = Some (lines, true) ∧ mountLines lines ∅ = Some mounts ∧
    Forall (λ e, is_Ok (discoverEntry unicodeLower paths sys mounts e) = true) entries ∧
    omap (λ e, match discoverEntry unicodeLower paths sys mounts e with Ok o => o | Err _ => None end) entries = [device] ∧
    describes sys entries lines expected (fa_device (ho_adapter h')) entry ∧ fa_expected (ho_adapter h') = expected ∧
    ev = mkDeviceEvidence expected true true true true false.
Proof.
  unfold Inspect. set (sys := osSysfs (ho_disk h)). intros Hi. destruct (negb (validateExpectation _)); [done|].
  destruct (negb (onlyLoopbackNetwork _ _)) eqn:Hnet; [done|]. apply negb_false_iff in Hnet. unfold onlyLoopbackNetwork in Hnet.
  destruct (sy_readDir sys (fp_NetworkRoot paths)) as [nets|] eqn:Hnets; [|done]. rewrite forallb_forall in Hnet.
  unfold discoverExporterDevices in Hi. destruct (sy_readDir sys (fp_USBRoot paths)) as [entries|] eqn:He; [|done].
  destruct (maximumExporterSysfs <? len entries)%Z; [done|]. unfold exporterMountDevices in Hi.
  destruct (sy_mountinfo sys) as [[lines scanned]|] eqn:Hmi; [|done]. destruct (mountLines lines ∅) as [mounts|] eqn:Hml; [|done].
  destruct scanned; [|done]. destruct (discoverEntries _ _ _ _ _ _ _) as [[devices|] e] eqn:Hd; [|done].
  apply discoverEntries_all in Hd as [Hok ->]. cbn [app] in Hi. destruct (merge_sort _ _) as [|device [|]] eqn:Hs; [done| |done].
  destruct (_ || _) eqn:Hid; [done|]. rewrite !orb_false_iff, !negb_false_iff, !bool_decide_eq_true, Z.eqb_eq in Hid.
  destruct Hid as (((Hv & Hp) & Hser) & Hcap). destruct (_ || _) eqn:Hmnt; [done|]. apply orb_false_iff in Hmnt as [Hmnt _].
  injection Hi as <- <-.
  assert (Hperm : [device] ≡ₚ omap (λ e, match discoverEntry unicodeLower paths sys mounts e with Ok o => o | Err _ => None end) entries).
  { rewrite <- Hs. apply merge_sort_Permutation. }
  apply Permutation_singleton_l in Hperm. assert (Hx : device ∈ [device]) by set_solver. rewrite Hperm in Hx.
  apply list_elem_of_omap in Hx as (entry & Hin & Hde). destruct (discoverEntry _ _ _ _ entry) as [o|] eqn:Hde'; [|done]. subst o.
  exists nets, entries, lines, mounts, entry, device. split_and!; try done.
  - intros name Hn. apply list_elem_of_In in Hn. apply (bool_decide_eq_true_1 _ (Hnet name Hn)).
  - by eapply discoverEntry_describes.
Qed.

(** ** What the operating system is relied on for *)

(** [stored] is what the exported filesystem holds under a path of its mount
    point, mounted or not; [mountedOn] says whether something is mounted on a
    path, and [mapped] whether a mapping of a name exists.  Only successful
    operations are described. *)
Class ExporterOSLaws := {
  stored : D → string → option (list Z);
  mountedOn : D → string → bool;
  mapped : D → string → bool;
  umount_unmounts d d' :
    osRun None (fp_Umount paths) [fp_MountPoint paths] d = (true, d') → mountedOn d' (fp_MountPoint paths) = false;
  luksClose_unmaps d d' :
    osRun None (fp_Cryptsetup paths) ["close"; fixedExporterMapperName] d = (true, d') → mapped d' fixedExporterMapperName = false;
  luksClose_mounts d d' :
    osRun None (fp_Cryptsetup paths) ["close"; fixedExporterMapperName] d = (true, d') → ∀ p, mountedOn d' p = mountedOn d p;
  create_stored path d d' : osCreate path d = (true, d') → stored d' path = Some [];
  write_stored path data before d d' :
    osWrite path data d = ((len data, true), d') → stored d path = Some before → stored d' path = Some (before ++ data);
  sync_stored path d d' : osSync path d = (true, d') → ∀ p, stored d' p = stored d p;
  close_stored path d d' : osClose path d = (true, d') → ∀ p, stored d' p = stored d p;
  rename_stored from to d d' : osRename from to d = (true, d') → stored d' to = stored d from;
  open_stored path d d' : osOpen path d = (true, d') → ∀ p, stored d' p = stored d p;
  syncfs_stored path d d' : osSyncfs path d = (true, d') → ∀ p, stored d' p = stored d p;
  umount_stored d d' : osRun None (fp_Umount paths) [fp_MountPoint paths] d = (true, d') → ∀ p, stored d' p = stored d p;
  luksClose_stored d d' :
    osRun None (fp_Cryptsetup paths) ["close"; fixedExporterMapperName] d = (true, d') → ∀ p, stored d' p = stored d p;
  read_stored path offset data ending d d' : osRead path offset d = ((data, ending), d') → ending ≠ ReadFailed →
    ∀ p, stored d' p = stored d p;
  read_prefix path offset data ending content d d' :
    osRead path offset d = ((data, ending), d') → stored d path = Some content → (0 ≤ offset ≤ len content)%Z → ending ≠ ReadFailed →
    ∃ rest, drop (Z.to_nat offset) content = data ++ rest ∧ (ending = ReadEOF → rest = []) ∧ (ending = ReadMore → data ≠ [])
}.

(** ** What the calls leave behind *)

Inductive outcome := Idle | Writing (size : Z) (content : list Z) | Stored (content : list Z) | Released (content : list Z) | Lost.

Definition afterCall (o : outcome) (c : exporter_call) : outcome :=
  match c, o with
  | DidInspect _ (Ok _), Idle => Idle
  | DidPrepare _ (Ok _), Idle => Idle
  | DidBegin header _ (Ok _), Idle => Writing (h_Size header) []
  | DidWrite _ data (Ok _), Writing size content => Writing size (content ++ data)
  | DidCommit _ _ (Ok _), Writing _ content => Stored content
  | DidReread _ (Ok _), Stored content => Stored content
  | DidFinalize (Ok _), Stored content => Released content
  | _, _ => Lost
  end.

Definition afterCalls (l : list exporter_call) : outcome := foldl afterCall Idle l.

Context `{!ExporterOSLaws}.

(** The host after calls with an outcome. *)
Definition left_with (o : outcome) (h : Host) : Prop :=
  match o with
  | Idle | Lost => True
  | Writing size content =>
      (∃ written, fa_object (ho_adapter h) = Some (mkWriter true size written content false)) ∧ fa_mounted (ho_adapter h) = true ∧
      stored (ho_disk h) partialPath = Some content
  | Stored content => fa_mounted (ho_adapter h) = true ∧ fa_writer (ho_adapter h) = false ∧ stored (ho_disk h) finalPath = Some content
  | Released content =>
      fa_mounted (ho_adapter h) = false ∧ fa_mapperOpen (ho_adapter h) = false ∧
      mountedOn (ho_disk h) (fp_MountPoint paths) = false ∧ mapped (ho_disk h) fixedExporterMapperName = false ∧
      stored (ho_disk h) finalPath = Some content
  end.

Lemma hbind_ok {A B} (m : H A) (k : A → H B) h b h' : hbind m k h = (Ok b, h') → ∃ a h1, m h = (Ok a, h1) ∧ k a h1 = (Ok b, h').
Proof. unfold hbind. destruct (m h) as [[a|c] h1]; [by eauto|done]. Qed.

Lemma must_ok f h u h' : must f h = (Ok u, h') → ∃ d, f (ho_disk h) = (true, d) ∧ h' = mkHost (ho_adapter h) d (ho_env h).
Proof. unfold must, hbind, disk. destruct (f (ho_disk h)) as [[] d]; intros [=]; subst. by exists d. Qed.

Lemma checkContext_ok h u h' : checkContext h = (Ok u, h') → ∃ e, h' = mkHost (ho_adapter h) (ho_disk h) e.
Proof. unfold checkContext, hbind, env. destruct (operationErr (ho_env h)) as [[c|] e]; intros [=]; subst. by exists e. Qed.

Lemma removeStale_ok path h u h' : removeStale path h = (Ok u, h') → ho_adapter h' = ho_adapter h.
Proof. unfold removeStale, hbind, disk. destruct (osRemove path (ho_disk h)) as [[] d]; intros [=]; by subst. Qed.

Lemma adapter_ok h a h' : adapter h = (Ok a, h') → a = ho_adapter h ∧ h' = h.
Proof. by intros [= <- <-]. Qed.

Lemma setAdapter_ok f h u h' : setAdapter f h = (Ok u, h') → h' = mkHost (f (ho_adapter h)) (ho_disk h) (ho_env h).
Proof. by intros [=]. Qed.

(** Running a successful computation step by step; the answer of the disk is kept as [Hd]. *)
Ltac step Hr :=
  apply hbind_ok in Hr; let a := fresh "a" in let h := fresh "h" in let Hd := fresh "Hd" in destruct Hr as (a & h & Hd & Hr); cbv beta in Hr;
  first [ apply must_ok in Hd as (? & Hd & ->) | apply checkContext_ok in Hd as (? & ->) | apply adapter_ok in Hd as (-> & ->)
        | apply setAdapter_ok in Hd as -> | apply removeStale_ok in Hd | idtac ].

Lemma BeginWrite_ok header id h u h' : BeginWrite header id h = (Ok u, h') → left_with (Writing (h_Size header) []) h'.
Proof.
  unfold BeginWrite. intros Hr. step Hr. destruct (_ || _) eqn:Hg; [done|].
  rewrite !orb_false_iff, negb_false_iff in Hg. destruct Hg as ((Hm & _) & _).
  step Hr. step Hr. step Hr. apply setAdapter_ok in Hr as ->. cbn.
  split; [by eexists|]. split; [congruence|]. by eapply create_stored.
Qed.

Lemma DeviceChunk_ok size content data h u h' :
  left_with (Writing size content) h → WriteChunk data h = (Ok u, h') → left_with (Writing size (content ++ data)) h'.
Proof.
  intros ((written & Ho) & Hm & Hs). unfold WriteChunk, withWriter. intros Hr. step Hr. rewrite Ho in Hr.
  destruct (_ || _); [done|]. step Hr. step Hr. unfold disk in Hd. cbn [ho_disk] in Hd. destruct (osWrite _ _ _) as [[n ok] d] eqn:Hw.
  injection Hd as <- <-. cbn [fst snd] in Hr. destruct (_ || _) eqn:Hn; [done|].
  rewrite orb_false_iff, !negb_false_iff, Z.eqb_eq in Hn. destruct Hn as [-> ->].
  apply setAdapter_ok in Hr as ->. cbn. split; [by eexists|]. split; [done|]. by eapply write_stored.
Qed.

Lemma Commit_ok size content n digest h wv h' :
  left_with (Writing size content) h → Commit n digest h = (Ok wv, h') → left_with (Stored content) h'.
Proof.
  intros ((written & Ho) & Hm & Hs). unfold Commit, withWriter. intros Hr. step Hr. rewrite Ho in Hr. destruct (_ || _); [done|].
  do 8 step Hr. injection Hr as _ <-. cbn in *. split; [done|]. split; [done|].
  rewrite (syncfs_stored _ _ _ Hd4), (sync_stored _ _ _ Hd3), (open_stored _ _ _ Hd2), (rename_stored _ _ _ _ Hd1), (close_stored _ _ _ Hd0).
  by rewrite (sync_stored _ _ _ Hd).
Qed.

(** The read loop hashes what is left of the file. *)
Lemma rereadLoop_ok content fuel offset hashed h out h' :
  stored (ho_disk h) finalPath = Some content → (0 ≤ offset ≤ len content)%Z → hashed = take (Z.to_nat offset) content →
  rereadLoop fuel offset hashed h = (Ok out, h') →
  stored (ho_disk h') finalPath = Some content ∧ ho_adapter h' = ho_adapter h ∧
  (out = Some content ∨ out = None ∧ (Z.of_nat fuel ≤ len content - offset)%Z).
Proof.
  revert offset hashed h. induction fuel as [|fuel IH]; intros offset hashed h Hs Ho Hh Hr; cbn [rereadLoop] in Hr.
  { injection Hr as <- <-. split; [done|]. split; [done|]. right. split; [done|lia]. }
  step Hr. step Hr. unfold disk in Hd. cbn [ho_disk ho_env ho_adapter] in Hd.
  destruct (osRead finalPath offset (ho_disk h)) as [[data ending] d] eqn:Hread. injection Hd as <- <-. cbn [fst snd] in Hr.
  assert (Hne : ending ≠ ReadFailed) by (intros ->; done).
  destruct (read_prefix _ _ _ _ _ _ _ Hread Hs Ho Hne) as (rest & Hd & He & Hp).
  pose proof (read_stored _ _ _ _ _ _ Hread Hne finalPath) as Hk. rewrite Hs in Hk.
  assert (Hc : content = hashed ++ data ++ rest) by (by rewrite <- Hd, Hh, take_drop).
  assert (Hlen : len hashed = offset) by (rewrite Hh; unfold len in *; rewrite length_take; lia).
  assert (Hb : (offset + len data ≤ len content)%Z) by (rewrite Hc, !len_app; pose proof (len_nonneg rest); lia).
  pose proof (len_nonneg data).
  destruct ending; [| |done].
  - assert (Hdn : (0 < len data)%Z) by (destruct data; [by destruct Hp|unfold len; cbn; lia]).
    apply IH in Hr as (Hk' & Ha & Hout); [|done|lia|].
    2: { rewrite Hc at 1. rewrite app_assoc, take_app_length'; [done|]. rewrite length_app. unfold len in *. lia. }
    split; [done|]. split; [done|]. destruct Hout as [|[? ?]]; [by left|right]. split; [done|lia].
  - injection Hr as <- <-. split; [done|]. split; [done|]. left. rewrite (He eq_refl), app_nil_r in Hc. by rewrite Hc.
Qed.

(** A reread of a stored file tells its digest. *)
Lemma Reread_ok content id h digest h' :
  left_with (Stored content) h → Reread id h = (Ok digest, h') → left_with (Stored content) h' ∧ digest = sha256 content.
Proof.
  intros (Hm & Hw & Hs). unfold Reread. intros Hr. step Hr. destruct (_ || _); [done|]. step Hr. step Hr.
  eapply (rereadLoop_ok content) in Hd0 as (Hk & Ha & Hout); [|cbn; by rewrite (open_stored _ _ _ Hd)|unfold len; lia|done].
  destruct Hout as [-> | [-> _]]; [|done]. injection Hr as <- <-. split; [|done]. split; [by rewrite Ha|]. split; [by rewrite Ha|done].
Qed.

Lemma Finalize_ok content h fv h' : left_with (Stored content) h → Finalize h = (Ok fv, h') → left_with (Released content) h'.
Proof.
  intros (Hm & Hw & Hs). unfold Finalize. intros Hr. step Hr. destruct (_ || _); [done|]. do 4 step Hr. injection Hr as _ <-. cbn in *.
  split; [done|]. split; [done|]. split; [rewrite (luksClose_mounts _ _ Hd0); by eapply umount_unmounts|].
  split; [by eapply luksClose_unmaps|]. by rewrite (luksClose_stored _ _ Hd0), (umount_stored _ _ Hd).
Qed.

Definition Sound (l : list exporter_call) (h : Host) : Prop := left_with (afterCalls l) h.

Lemma afterCalls_snoc l c : afterCalls (l ++ [c]) = afterCall (afterCalls l) c.
Proof. unfold afterCalls. by rewrite foldl_app. Qed.

(** A call that leaves nothing to say of the host. *)
Lemma extends_blank {A} (f : Host → A * Host) record :
  (∀ o a, match afterCall o (record a) with Idle | Lost => True | _ => False end) → extends Sound f record.
Proof. intros H l h _. unfold Sound. rewrite afterCalls_snoc. specialize (H (afterCalls l) (f h).1). by destruct (afterCall _ _). Qed.

(** A call whose success is described from each outcome. *)
Lemma extends_ok {A} (f : H A) record :
  (∀ o c, afterCall o (record (Err c)) = Lost) →
  (∀ o a h h', left_with o h → f h = (Ok a, h') → left_with (afterCall o (record (Ok a))) h') → extends Sound f record.
Proof.
  intros He Ho l h Hl. unfold Sound in *. rewrite afterCalls_snoc. destruct (f h) as [[a|c] h'] eqn:Hf; cbn [fst snd].
  - by eapply Ho.
  - by rewrite He.
Qed.

Lemma lifted_ignored {A} (f : E → A * E) : ignores Sound (lifted f).
Proof. intros l h Hl. unfold lifted. by destruct (f (ho_env h)). Qed.

Lemma fixedAdapter_sound : adapter_sound Sound.
Proof.
  split; try (intros; apply lifted_ignored).
  - intros e. apply extends_blank. by intros [] [].
  - intros pass. apply extends_blank. by intros [] [].
  - intros header id. apply extends_ok; [by intros []|]. intros [] [] h h' _ Hf; try done. by eapply BeginWrite_ok.
  - intros sequence data. apply extends_ok; [by intros []|]. intros [] [] h h' Hl Hf; try done. by eapply DeviceChunk_ok.
  - intros n digest. apply extends_ok; [by intros []|]. intros [] wv h h' Hl Hf; try done. by eapply Commit_ok.
  - apply extends_blank. by intros [] [].
  - intros id. apply extends_ok; [by intros []|]. intros [] digest h h' Hl Hf; try done. by eapply Reread_ok.
  - apply extends_ok; [by intros []|]. intros [] fv h h' Hl Hf; try done. by eapply Finalize_ok.
  - apply extends_blank. by intros [] [].
Qed.

Lemma afterCalls_trail e ev pass pv header id datas wv :
  afterCalls (writeTrail e ev pass pv header id datas wv) = Stored (concat datas).
Proof.
  unfold writeTrail, afterCalls. cbn. rewrite foldl_app. cbn.
  assert (Hw : ∀ n content, foldl afterCall (Writing (h_Size header) content) (didWrites n datas) = Writing (h_Size header) (content ++ concat datas)).
  { induction datas as [|d datas IH]; intros n content; cbn; [by rewrite app_nil_r|]. rewrite IH. by rewrite app_assoc. }
  by rewrite Hw.
Qed.

(** What was released is the trail's content. *)
Lemma finalized_releases (s : St) datas digest fv id header e ev pass pv wv :
  Sound (gx_log s) (gx_world s) →
  gx_log s = writeTrail e ev pass pv header id datas wv ++ [DidReread id (Ok digest); DidFinalize (Ok fv)] →
  left_with (Released (concat datas)) (gx_world s).
Proof.
  unfold Sound. intros Hs Hl. rewrite Hl in Hs. unfold afterCalls in Hs. rewrite foldl_app in Hs. fold (afterCalls (writeTrail e ev pass pv header id datas wv)) in Hs.
  by rewrite afterCalls_trail in Hs.
Qed.

Lemma served_sound qs s : Sound (gx_log s) (gx_world s) → Sound (gx_log (foldl (serve unicodeLower) s qs)) (gx_world (foldl (serve unicodeLower) s qs)).
Proof. revert s. induction qs as [|q qs IH]; intros s Hs; [done|]. apply IH. apply serve_sound; [apply fixedAdapter_sound|done]. Qed.

(** C26: over a disk that keeps what was written to it, whatever requests a new
    exporter with the fixed adapter has served, when [FinalizeUSB] answers, nothing
    is mounted on the mount point of the host any more and the LUKS mapping is
    gone, which the adapter has recorded, and the file under
    [approved-output] on the device is the exported one: it has the size and the
    SHA-256 digest of the descriptor in the exporter's receipt, whose receiver
    and reread digests are that digest. *)
Theorem finalized_device_holds_the_export config sv h qs c d status s' :
  (∀ e : E, typedFrame (recvFrame e).1) → NewExporterService config = Ok sv →
  FinalizeUSB unicodeLower c d (foldl (serve unicodeLower) (mkSt sv h []) qs) = (Ok status, s') →
  ∃ content header descriptor id,
    stored (ho_disk (gx_world s')) finalPath = Some content ∧ len content = h_Size header ∧ sha256 content = h_SHA256 header ∧
    exporterHeader descriptor (xs_maxFileBytes sv) = Some header ∧
    xs_receipt (gx_service s') = Some (receiptOf header id descriptor (Some (protoSHA256 (sha256 content)))) ∧
    mountedOn (ho_disk (gx_world s')) (fp_MountPoint paths) = false ∧
    mapped (ho_disk (gx_world s')) fixedExporterMapperName = false ∧
    fa_mounted (ho_adapter (gx_world s')) = false ∧ fa_mapperOpen (ho_adapter (gx_world s')) = false.
Proof.
  intros Hf Hn Hz. pose proof (NewExporterService_bounded _ _ Hn) as Hb.
  assert (Hf' : ∀ w : Host, typedFrame (recvFrame w).1).
  { intros w. pose proof (Hf (ho_env w)) as Hw. cbn. unfold lifted. by destruct (recvFrame (ho_env w)). }
  pose proof (served_keeps unicodeLower _ Hb Hf' qs (mkSt sv h []) (NewExporterService_Inv _ _ Hn)) as Hi.
  assert (Hs : Sound (gx_log s') (gx_world s')).
  { pose proof (serve_sound unicodeLower _ fixedAdapter_sound _ (AskFinalize c d) (served_sound qs (mkSt sv h []) I)) as Hs.
    cbn [serve] in Hs. by rewrite Hz in Hs. }
  pose proof (FinalizeUSB_keeps unicodeLower _ Hb c d _ Hi) as Ht. rewrite Hz in Ht.
  destruct Ht as ((_ & Hm & Hl) & Hst). rewrite Hst in Hl.
  destruct Hl as (ev & pass & pv & header & id & datas & wv & descriptor & fv & Hl & _ & _ & Hw & Hrec & _).
  destruct Hw. destruct (finalized_releases s' datas _ _ _ _ _ _ _ _ _ Hs Hl) as (H1 & H2 & H3 & H4 & H5).
  exists (concat datas), header, descriptor, id. rewrite Hm in *. split_and!; try done. congruence.
Qed.

End Adapter.

(** ** A run of the exporter *)

Definition demoTool (name : string) : option string := Some ("/run/current-system/sw/bin/" +:+ name).
Definition demoPaths : fixedExporterPaths :=
  match NewFixedExporterAdapter demoTool Some with Some (p, _) => p | None => mkPaths "" "" "" "" "" "" "" "" "" "" "" "" "" end.

Definition demoUsbRoot : string := "/sys/devices/usb1/1-2".
Definition demoSysfs : Sysfs := {|
  sy_readDir path :=
    if bool_decide (path = "/sys/class/net") then Some ["lo"]
    else if bool_decide (path = "/sys/bus/usb/devices") then Some ["1-0:1.0"; "1-2"; "1-2:1.0"; "usb1"]
    else if bool_decide (path = "/sys/class/block") then Some ["sda"; "vda"] else None;
  sy_evalSymlinks path :=
    if bool_decide (path = "/sys/bus/usb/devices/1-2") then Some demoUsbRoot
    else if bool_decide (path = "/sys/bus/usb/devices/1-2:1.0") then Some (demoUsbRoot +:+ "/1-2:1.0")
    else if bool_decide (path = "/sys/class/block/sda") then Some (demoUsbRoot +:+ "/host0/block/sda") else None;
  sy_readAll path :=
    if bool_decide (path = demoUsbRoot +:+ "/idVendor") then Some ("0781" +:+ String "010" "")
    else if bool_decide (path = demoUsbRoot +:+ "/idProduct") then Some ("5583" +:+ String "010" "")
    else if bool_decide (path = demoUsbRoot +:+ "/serial") then Some ("4C530001" +:+ String "010" "")
    else if bool_decide (path = demoUsbRoot +:+ "/1-2:1.0/bInterfaceClass") then Some "08"
    else if bool_decide (path = "/sys/class/block/sda/size") then Some "30310400"
    else if bool_decide (path = "/sys/class/block/sda/dev") then Some "8:0" else None;
  sy_tree path := Some (SysDir "1-2" true [SysFile "idVendor"; SysDir "host0" true [SysDir "block" true [SysDir "sda" true []]]]);
  sy_isBlock path := bool_decide (path = "/dev/sda");
  sy_mountinfo := Some (["22 1 254:0 / / rw - ext4 /dev/vda rw"], true)
|}.

(** A disk: its files, and whether it is mounted and mapped. *)
Record DemoDisk := mkDisk { dd_files : gmap string (list Z); dd_mounted : bool; dd_mapped : bool }.

Definition with_files (d : DemoDisk) (files : gmap string (list Z)) : DemoDisk := mkDisk files (dd_mounted d) (dd_mapped d).

(** The mapping cannot be closed while it is mounted. *)
Definition demoRun (binary : string) (arguments : list string) (d : DemoDisk) : bool * DemoDisk :=
  if bool_decide (binary = fp_Mount demoPaths) then (dd_mapped d, mkDisk (dd_files d) (dd_mapped d) (dd_mapped d))
  else if bool_decide (binary = fp_Umount demoPaths) then (dd_mounted d, mkDisk (dd_files d) false (dd_mapped d))
  else if bool_decide (binary = fp_Cryptsetup demoPaths) then
    match arguments with
    | "open" :: _ => (true, mkDisk (dd_files d) (dd_mounted d) true)
    | "close" :: _ => if dd_mounted d then (false, d) else (true, mkDisk (dd_files d) false false)
    | _ => (true, d)
    end
  else (true, d).

#[local] Instance demoOS : ExporterOS DemoDisk := {|
  osSysfs _ := demoSysfs; osRun _ binary arguments d := demoRun binary arguments d; osMkdirAll _ d := (true, d);
  osStatfsType _ d := (Some EXT4_SUPER_MAGIC, d);
  osRemove path d := (match dd_files d !! path with Some _ => Removed | None => NotExist end, with_files d (delete path (dd_files d)));
  osCreate path d := match dd_files d !! path with Some _ => (false, d) | None => (true, with_files d (<[path := []]> (dd_files d))) end;
  osWrite path data d :=
    match dd_files d !! path with Some b => ((len data, true), with_files d (<[path := b ++ data]> (dd_files d))) | None => ((0%Z, false), d) end;
  osSync _ d := (true, d); osClose _ d := (true, d); osOpen _ d := (true, d); osSyncfs _ d := (true, d);
  osRename from to d :=
    match dd_files d !! from with Some b => (true, with_files d (<[to := b]> (delete from (dd_files d)))) | None => (false, d) end;
  osRead path offset d :=
    match dd_files d !! path with
    | Some b => match drop (Z.to_nat offset) b with [] => (([], ReadEOF), d) | x :: rest => ((x :: take 3 rest, ReadMore), d) end
    | None => (([], ReadFailed), d)
    end
|}.

#[local] Instance demoLaws : ExporterOSLaws demoPaths.
Proof.
  refine {| stored (d : DemoDisk) p := dd_files d !! p;
            mountedOn d p := bool_decide (p = fp_MountPoint demoPaths) && dd_mounted d;
            mapped d p := bool_decide (p = fixedExporterMapperName) && dd_mapped d |}; cbn.
  - intros d d' Hr. vm_compute in Hr. by injection Hr as _ <-.
  - intros d d' Hr. vm_compute in Hr. destruct d as [files [] mapped]; [done|]. by injection Hr as <-.
  - intros d d' Hr p. vm_compute in Hr. destruct d as [files [] mapped]; [done|]. by injection Hr as <-.
  - intros path d d'. case_match; intros [=]; subst. apply lookup_insert_eq.
  - intros path data before d d' Hw Hb. rewrite Hb in Hw. injection Hw as <-. apply lookup_insert_eq.
  - by intros path d d' [= <-].
  - by intros path d d' [= <-].
  - intros from to d d'. destruct (dd_files d !! from) as [b|] eqn:Hb; [|done]. intros [= <-]. apply lookup_insert_eq.
  - by intros path d d' [= <-].
  - by intros path d d' [= <-].
  - intros d d' Hr p. vm_compute in Hr. by injection Hr as _ <-.
  - intros d d' Hr p. vm_compute in Hr. destruct d as [files [] mapped]; [done|]. by injection Hr as <-.
  - intros path offset data ending d d'. repeat case_match; intros [=]; by subst.
  - intros path offset data ending content d d' Hr Hs Ho He. rewrite Hs in Hr. destruct (drop (Z.to_nat offset) content) as [|x rest] eqn:Hd.
    + injection Hr as <- <- <-. by exists [].
    + injection Hr as <- <- <-. exists (drop 3 rest). split; [cbn; by rewrite take_drop|done].
Defined.

#[local] Existing Instance demoExporterEnv.

#[local] Abbreviation demoFixed := (fixedAdapter (D := DemoDisk) (E := nat * nat) id demoPaths 4).
#[local] Abbreviation demoHost := (mkHost newAdapter (mkDisk ∅ false false) (0%nat, 0%nat)).
#[local] Abbreviation demoExporter := (match NewExporterService demoExporterConfig with Ok sv => sv | Err _ => mkExporter 0 0 0 exporterStateClosed "" noDevice None true end).
#[local] Abbreviation demoInspected := (Inspect (D := DemoDisk) (E := nat * nat) id demoPaths demoDevice demoHost).
#[local] Abbreviation demoServed :=
  (foldl (serve (W := Host (D := DemoDisk) (E := nat * nat)) (ExporterAdapter0 := demoFixed) (ExporterEnv0 := hostEnv) id)
     (mkSt demoExporter demoHost [])
     [AskInspect demoExporterContext demoDevice; AskPrepare; AskWrite; AskVerify demoExporterContext "transfer-1"]).
#[local] Abbreviation demoFinalized :=
  (FinalizeUSB (ExporterAdapter0 := demoFixed) (ExporterEnv0 := hostEnv) id demoExporterContext demoDevice demoServed).

Lemma inspected_device_is_exact_witness :
  is_Ok demoInspected.1 = true ∧ ∃ entry, describes id demoPaths demoSysfs ["1-0:1.0"; "1-2"; "1-2:1.0"; "usb1"]
    ["22 1 254:0 / / rw - ext4 /dev/vda rw"] demoDevice "/dev/sda" entry.
Proof.
  assert (Hok : is_Ok demoInspected.1 = true) by (vm_compute; reflexivity). split; [exact Hok|].
  assert (Heq : ∃ ev, demoInspected = (Ok ev, demoInspected.2)) by (destruct demoInspected as [[r|e] s']; [by eexists|discriminate Hok]).
  destruct Heq as [ev Heq].
  destruct (inspected_device_is_exact id demoPaths demoDevice demoHost ev demoInspected.2 Heq)
    as (nets & entries & lines & mounts & entry & device & _ & _ & He & Hl & _ & _ & _ & Hd & _).
  exists entry. injection He as <-. injection Hl as <-. exact Hd.
Defined.

Lemma finalized_device_holds_the_export_witness :
  is_Ok demoFinalized.1 = true ∧ ∃ content, dd_files (ho_disk (gx_world demoFinalized.2)) !! finalPath demoPaths = Some content ∧
    mapped demoPaths (ho_disk (gx_world demoFinalized.2)) fixedExporterMapperName = false.
Proof.
  assert (Hok : is_Ok demoFinalized.1 = true) by (vm_compute; reflexivity). split; [exact Hok|].
  assert (Heq : ∃ status, demoFinalized = (Ok status, demoFinalized.2)) by (destruct demoFinalized as [[r|e] s']; [by eexists|discriminate Hok]).
  destruct Heq as [status Heq].
  destruct (finalized_device_holds_the_export id demoPaths 4 demoExporterConfig demoExporter demoHost _ demoExporterContext demoDevice status demoFinalized.2
    demo_frames_typed ltac:(vm_compute; reflexivity) Heq) as (content & header & descriptor & i & Hs & _ & _ & _ & _ & _ & Hm & _).
  exists content. split; [exact Hs|exact Hm].
Defined.
