(* ===== verification/QemuSpec.v ===== *)
(** * The virtual machine's command line

    Models [src/internal/qemu/spec.go]: the validation of a launch specification
    against its role and against the host's files, and the argument vector given
    to QEMU.  The host's file system is a snapshot.  [readArgv] reads an argument
    vector the way QEMU documents it: an option is followed by one value, whose
    parts are separated by commas, a doubled comma standing for a comma. *)

From Stdlib Require Import ZArith Lia Ascii.
From stdpp Require Import strings base tactics option list sets.
From S2P Require Import Prelude GoText Netip NetipText VpnProfile SessionModel.

Open Scope string_scope.
Open Scope list_scope.

Definition maxUnixSocketPath : Z := 107.

Definition is_alnum (c : ascii) : bool := is_upper c || is_lower c || is_digit c.
Definition is_name_char (c : ascii) : bool := is_alnum c || char_eqb c "." || char_eqb c "_" || char_eqb c "-".

(** [^[A-Za-z0-9][A-Za-z0-9._-]{0,63}$], both *)
Definition qemuNamePattern : string → bool := match_head_tail is_alnum is_name_char 0 63.
Definition deviceIDPattern : string → bool := match_head_tail is_alnum is_name_char 0 63.

Record Disk := mkDisk { dk_Path : string; dk_Format : string; dk_ReadOnly : bool; dk_Serial : string }.

Definition ScannerModeUpdate : string := "update".
Definition ScannerModeScan : string := "scan".
Definition scannerBootModeFWCfg : string := "opt/private-vm/scanner-boot-mode".

Record Spec := mkSpec {
  sp_Binary : string;
  sp_SessionID : string;
  sp_Name : string;
  sp_Role : Role;
  sp_ScannerMode : string;
  sp_Machine : string;
  sp_CPUs : Z;
  sp_MemoryBytes : Z;
  sp_Root : Disk;
  sp_Data : list Disk;
  sp_QMPSocket : string;
  sp_SPICESocket : string;
  sp_VSOCKCID : Z;
  sp_Networked : bool;
  sp_NetworkFD : Z;
  sp_EnableAudio : bool;
  sp_FWCfgTokenFD : Z
}.

(** ** The host's files *)

(** [os.FileInfo] with the owner of its [Stat_t]; the mode is Go's. *)
Record HostInfo := mkHostInfo { hi_Mode : Z; hi_Uid : Z; hi_Gid : Z }.

Inductive lstat := LstatInfo (info : HostInfo) | LstatNotExist | LstatError.

Record HostFiles := mkHostFiles {
  hf_Lstat : string → lstat;
  hf_EvalSymlinks : string → option string;
  hf_Euid : Z;
  hf_Egid : Z
}.

Definition ModeDir : Z := 2147483648.
Definition ModeSymlink : Z := 134217728.
Definition ModeSticky : Z := 1048576.
Definition ModeTypeBits : Z := 2401763328.
Definition Perm (info : HostInfo) : Z := Z.land (hi_Mode info) 511.
Definition modeHas (info : HostInfo) (bits : Z) : bool := negb (Z.land (hi_Mode info) bits =? 0)%Z.
Definition permHas (info : HostInfo) (bits : Z) : bool := negb (Z.land (Perm info) bits =? 0)%Z.

(** [filepath.Dir] of a clean absolute path. *)
Definition Dir (path : string) : string :=
  let up := String.concat "/" (removelast (Split "/" path)) in if bool_decide (up = "") then "/" else up.

Definition cleanAbs (path : string) : bool := IsAbs path && bool_decide (Clean path = path).

(** [ContainsAny] of a comma or a line break. *)
Definition separators : string := "," +:+ String "010" (String "013" EmptyString).

Definition validateExecutableInfo (fs : HostFiles) (info : HostInfo) : result string unit :=
  fail_if (modeHas info ModeTypeBits || modeHas info ModeSymlink || negb (permHas info 73))
    with "QEMU binary must be a directly referenced executable regular file" ;;
  fail_if (permHas info 18) with "QEMU binary must not be writable by group or other" ;;
  fail_if (negb (hi_Uid info =? 0)%Z && negb (hi_Uid info =? hf_Euid fs)%Z) with "QEMU binary owner is not trusted" ;;
  Ok tt.

Definition validateExecutable (fs : HostFiles) (path : string) : result string unit :=
  fail_if (negb (cleanAbs path)) with "QEMU binary must be a clean absolute path" ;;
  match hf_Lstat fs path with
  | LstatInfo info =>
      fail_if (negb (bool_decide (hf_EvalSymlinks fs path = Some path))) with "QEMU binary path must not contain symbolic links" ;;
      _ <-! validateExecutableInfo fs info ;;
      match hf_Lstat fs (Dir path) with
      | LstatInfo parent =>
          fail_if (negb (modeHas parent ModeDir)) with "QEMU binary parent is unavailable" ;;
          fail_if (negb (hi_Uid parent =? 0)%Z && negb (hi_Uid parent =? hf_Euid fs)%Z) with "QEMU binary parent owner is not trusted" ;;
          fail_if (permHas parent 18 && negb ((hi_Uid parent =? 0)%Z && modeHas parent ModeSticky))
            with "QEMU binary parent is writable by an untrusted group or user" ;;
          Ok tt
      | _ => Err "QEMU binary parent is unavailable"
      end
  | _ => Err "QEMU binary is unavailable"
  end.

Definition validateSocketParent (fs : HostFiles) (path : string) : result string unit :=
  fail_if (negb (bool_decide (hf_EvalSymlinks fs path = Some path))) with "path contains a missing or symbolic-link component" ;;
  match hf_Lstat fs path with
  | LstatInfo info =>
      fail_if (negb (modeHas info ModeDir) || modeHas info ModeSymlink) with "path is not a real directory" ;;
      fail_if (negb (Perm info =? 448)%Z) with "mode must be exactly 0700" ;;
      fail_if (negb (hi_Uid info =? hf_Euid fs)%Z || negb (hi_Gid info =? hf_Egid fs)%Z) with "owner or group does not match the daemon" ;;
      Ok tt
  | _ => Err "path is not a real directory"
  end.

Definition validateSocketDestination (fs : HostFiles) (path label : string) : result string unit :=
  fail_if (bool_decide (path = "") || negb (cleanAbs path) || (maxUnixSocketPath <? slen path)%Z || ContainsAny path separators)
    with (label +:+ " socket must be a bounded clean absolute path") ;;
  match validateSocketParent fs (Dir path) with
  | Err e => Err (label +:+ " socket parent: " +:+ e)
  | Ok _ =>
      match hf_Lstat fs path with
      | LstatInfo _ => Err (label +:+ " socket path must not already exist")
      | LstatNotExist => Ok tt
      | LstatError => Err ("inspect " +:+ label +:+ " socket destination")
      end
  end.

Definition validateDisk (disk : Disk) (root : bool) : result string unit :=
  fail_if (negb (cleanAbs (dk_Path disk))) with "path must be a clean absolute path" ;;
  fail_if (negb (bool_decide (dk_Format disk = "qcow2")) && negb (bool_decide (dk_Format disk = "raw"))) with "format must be qcow2 or raw" ;;
  fail_if (ContainsAny (dk_Path disk) separators || negb (deviceIDPattern (dk_Serial disk))) with "path or serial is not a safe typed value" ;;
  fail_if (root && dk_ReadOnly disk) with "session root overlay must be writable" ;;
  Ok tt.

(** ** The roles *)

Definition validateRoleDevices (s : Spec) : result string unit :=
  fail_if (negb (bool_decide (sp_Role s = RoleScanner)) && negb (bool_decide (sp_ScannerMode s = "")))
    with "scanner boot mode is restricted to scanner guests" ;;
  match sp_Role s with
  | RoleWorkstation =>
      fail_if (negb (sp_Networked s) || negb (length (sp_Data s) =? 0)%nat) with "workstation requires network and forbids data disks" ;; Ok tt
  | RoleDownloader =>
      fail_if (negb (sp_Networked s) || match sp_Data s with [d] => dk_ReadOnly d | _ => true end)
        with "downloader requires network and one writable quarantine disk" ;; Ok tt
  | RoleScanner =>
      fail_if (sp_EnableAudio s) with "scanner guests forbid audio" ;;
      if bool_decide (sp_ScannerMode s = ScannerModeUpdate) then
        fail_if (negb (sp_Networked s) || negb (length (sp_Data s) =? 0)%nat)
          with "scanner update boot requires network and forbids quarantine" ;; Ok tt
      else if bool_decide (sp_ScannerMode s = ScannerModeScan) then
        fail_if (sp_Networked s || match sp_Data s with [d] => negb (dk_ReadOnly d) | _ => true end)
          with "scanner scan boot requires no network and one read-only quarantine disk" ;; Ok tt
      else Err "scanner boot mode must be update or scan"
  | RoleExporter =>
      fail_if (sp_Networked s || negb (length (sp_Data s) =? 0)%nat || sp_EnableAudio s) with "exporter forbids network, quarantine and audio" ;; Ok tt
  | RoleOther _ => Ok tt
  end.

Fixpoint validateData (disks : list Disk) (i : Z) : result string unit :=
  match disks with
  | [] => Ok tt
  | disk :: rest =>
      match validateDisk disk false with
      | Err e => Err ("data disk " +:+ decimal i +:+ ": " +:+ e)
      | Ok _ => validateData rest (i + 1)
      end
  end.

Definition validateDisplay (fs : HostFiles) (s : Spec) : result string unit :=
  if negb (bool_decide (sp_Role s = RoleExporter)) then
    _ <-! validateSocketDestination fs (sp_SPICESocket s) "SPICE" ;;
    fail_if (bool_decide (sp_SPICESocket s = sp_QMPSocket s)) with "QMP and SPICE require distinct Unix sockets" ;; Ok tt
  else fail_if (negb (bool_decide (sp_SPICESocket s = ""))) with "exporter guest cannot expose SPICE" ;; Ok tt.

Definition lift_session {A} (r : result session_error A) (message : string) : result string A :=
  match r with Ok a => Ok a | Err _ => Err message end.

Definition Validate (fs : HostFiles) (s : Spec) : result string unit :=
  _ <-! validateExecutable fs (sp_Binary s) ;;
  _ <-! lift_session (ValidateID (sp_SessionID s)) "session" ;;
  fail_if (negb (qemuNamePattern (sp_Name s))) with "QEMU name must be a bounded safe identifier" ;;
  _ <-! lift_session (ValidateRole (sp_Role s)) "role" ;;
  fail_if (negb (bool_decide (sp_Machine s = "")) && negb (bool_decide (sp_Machine s = "q35,accel=kvm")))
    with "only the verified q35 KVM machine profile is supported" ;;
  fail_if ((sp_CPUs s <? 1)%Z || (64 <? sp_CPUs s)%Z || (sp_MemoryBytes s <? 536870912)%Z || (274877906944 <? sp_MemoryBytes s)%Z ||
           negb (sp_MemoryBytes s mod 1048576 =? 0)%Z) with "invalid CPU or memory allocation" ;;
  match validateDisk (sp_Root s) true with
  | Err e => Err ("root disk: " +:+ e)
  | Ok _ =>
      _ <-! validateData (sp_Data s) 0 ;;
      _ <-! validateSocketDestination fs (sp_QMPSocket s) "QMP" ;;
      _ <-! validateDisplay fs s ;;
      fail_if ((sp_VSOCKCID s <? 3)%Z || (sp_VSOCKCID s =? 4294967295)%Z) with "VSOCK CID must be an allocatable guest CID" ;;
      fail_if (sp_Networked s && negb (sp_NetworkFD s =? 4)%Z) with "networked guest requires the second inherited descriptor as TAP" ;;
      fail_if (negb (sp_Networked s) && negb (sp_NetworkFD s =? 0)%Z) with "offline guest cannot inherit a TAP descriptor" ;;
      fail_if (sp_FWCfgTokenFD s <? 3)%Z with "fw_cfg capability FD must be inherited and >= 3" ;;
      validateRoleDevices s
  end.

(** ** The arguments *)

Definition valueOr (value fallback : string) : string := if bool_decide (value = "") then fallback else value.

Definition scannerBootMode (mode : string) : option string :=
  if bool_decide (mode = ScannerModeUpdate) then Some "definitions-update"
  else if bool_decide (mode = ScannerModeScan) then Some "scan-offline" else None.

Definition diskArgs (id : string) (disk : Disk) : list string :=
  ["-drive"; "file=" +:+ dk_Path disk +:+ ",if=none,id=" +:+ id +:+ ",format=" +:+ dk_Format disk +:+ ",cache=none,discard=unmap" +:+
     (if dk_ReadOnly disk then ",readonly=on" else "");
   "-device"; "virtio-blk-pci,drive=" +:+ id +:+ ",serial=" +:+ dk_Serial disk].

Fixpoint dataArgs (i : Z) (disks : list Disk) : list string :=
  match disks with [] => [] | disk :: rest => diskArgs ("data" +:+ decimal i) disk ++ dataArgs (i + 1) rest end.

Definition baseArgs (s : Spec) : list string :=
  ["-nodefaults"; "-no-user-config"; "-name"; sp_Name s; "-machine"; valueOr (sp_Machine s) "q35,accel=kvm"; "-cpu"; "host";
   "-smp"; decimal (sp_CPUs s); "-m"; decimal (sp_MemoryBytes s / 1048576); "-display"; "none"; "-monitor"; "none"; "-serial"; "none";
   "-no-reboot"; "-sandbox"; "on,obsolete=deny,elevateprivileges=deny,spawn=deny,resourcecontrol=deny";
   "-qmp"; "unix:" +:+ sp_QMPSocket s +:+ ",server=on,wait=off"; "-device"; "vhost-vsock-pci,guest-cid=" +:+ decimal (sp_VSOCKCID s);
   "-object"; "rng-random,filename=/dev/urandom,id=rng0"; "-device"; "virtio-rng-pci,rng=rng0";
   "-fw_cfg"; "name=opt/private-vm/session-capability,file=/proc/self/fd/" +:+ decimal (sp_FWCfgTokenFD s)].

Definition displayArgs (s : Spec) : list string :=
  if negb (bool_decide (sp_Role s = RoleExporter)) then
    ["-spice"; "unix=on,addr=" +:+ sp_SPICESocket s +:+ ",disable-ticketing=on,disable-copy-paste=on,disable-agent-file-xfer=on";
     "-device"; "virtio-vga"; "-device"; "virtio-keyboard-pci"; "-device"; "virtio-mouse-pci"; "-device"; "virtio-serial-pci,id=spice-serial";
     "-chardev"; "spicevmc,id=spiceagent,name=vdagent";
     "-device"; "virtserialport,bus=spice-serial.0,chardev=spiceagent,name=com.redhat.spice.0"]
  else [].

Definition networkArgs (s : Spec) : list string :=
  if sp_Networked s then ["-netdev"; "tap,id=net0,fd=" +:+ decimal (sp_NetworkFD s) +:+ ",vhost=on"; "-device"; "virtio-net-pci,netdev=net0"]
  else ["-nic"; "none"].

Definition forbiddenTexts : list string :=
  ["virtiofs"; "vhost-user-fs"; "virtio-9p"; "-virtfs"; "-fsdev"; "usb-redir"; "-daemonize"].

Section Args.
Context (unicodeLower : N → N).

Definition ValidateNoTCPListener (args : list string) : bool :=
  forallb (λ value,
    let lower := ToLower unicodeLower value in
    if Contains lower "port=" || Contains lower "tls-port=" then false
    else if HasPrefix value "unix:" || Contains value "unix=on" then true
    else match SplitHostPort value with Some _ => false | None => true end) args.

(** Its messages are told as one. *)
Definition validateRenderedArgs (args : list string) : bool :=
  forallb (λ value, forallb (λ forbidden, negb (Contains (ToLower unicodeLower value) forbidden)) forbiddenTexts) args &&
  ValidateNoTCPListener args.

Definition Args (fs : HostFiles) (s : Spec) : result string (list string) :=
  _ <-! Validate fs s ;;
  match (if bool_decide (sp_Role s = RoleScanner) then option_map Some (scannerBootMode (sp_ScannerMode s)) else Some None) with
  | None => Err "scanner boot mode is unavailable"
  | Some bootMode =>
      let args := baseArgs s ++
        match bootMode with Some mode => ["-fw_cfg"; "name=" +:+ scannerBootModeFWCfg +:+ ",string=" +:+ mode] | None => [] end ++
        displayArgs s ++ diskArgs "root" (sp_Root s) ++ dataArgs 0 (sp_Data s) ++ networkArgs s ++
        (if negb (sp_EnableAudio s) then ["-audiodev"; "none,id=noaudio"] else []) ++
        (if bool_decide (sp_Role s = RoleExporter) then ["-device"; "qemu-xhci,id=usb-controller"] else []) in
      fail_if (negb (validateRenderedArgs args)) with "rendered QEMU arguments contain a forbidden device or mode" ;;
      Ok args
  end.

End Args.

(** ** How QEMU reads an argument vector *)

(** The comma-separated parts of a value; a doubled comma is a comma. *)
Fixpoint readParts (s : string) (part : string) : list string :=
  match s with
  | EmptyString => [part]
  | String c r =>
      if char_eqb c "," then
        match r with
        | String c' r' => if char_eqb c' "," then readParts r' (part +:+ ",") else part :: readParts r EmptyString
        | EmptyString => [part]
        end
      else readParts r (part +:+ String c EmptyString)
  end.

Definition lonely : list string := ["-nodefaults"; "-no-user-config"; "-no-reboot"].

Fixpoint readArgv (args : list string) : option (list (string * list string)) :=
  match args with
  | [] => Some []
  | flag :: rest =>
      if negb (HasPrefix flag "-") then None
      else if bool_decide (flag ∈ lonely) then option_map (cons (flag, [])) (readArgv rest)
      else match rest with
           | [] => None
           | value :: rest => option_map (cons (flag, readParts value EmptyString)) (readArgv rest)
           end
  end.

(** ** The machine a specification means *)

Definition diskOptions (id : string) (disk : Disk) : list (string * list string) :=
  [("-drive", ["file=" +:+ dk_Path disk; "if=none"; "id=" +:+ id; "format=" +:+ dk_Format disk; "cache=none"; "discard=unmap"] ++
     (if dk_ReadOnly disk then ["readonly=on"] else []));
   ("-device", ["virtio-blk-pci"; "drive=" +:+ id; "serial=" +:+ dk_Serial disk])].

Fixpoint dataOptions (i : Z) (disks : list Disk) : list (string * list string) :=
  match disks with [] => [] | disk :: rest => diskOptions ("data" +:+ decimal i) disk ++ dataOptions (i + 1) rest end.

Definition machineOf (s : Spec) : list (string * list string) :=
  [("-nodefaults", []); ("-no-user-config", []); ("-name", [sp_Name s]); ("-machine", ["q35"; "accel=kvm"]); ("-cpu", ["host"]);
   ("-smp", [decimal (sp_CPUs s)]); ("-m", [decimal (sp_MemoryBytes s / 1048576)]); ("-display", ["none"]); ("-monitor", ["none"]);
   ("-serial", ["none"]); ("-no-reboot", []);
   ("-sandbox", ["on"; "obsolete=deny"; "elevateprivileges=deny"; "spawn=deny"; "resourcecontrol=deny"]);
   ("-qmp", ["unix:" +:+ sp_QMPSocket s; "server=on"; "wait=off"]);
   ("-device", ["vhost-vsock-pci"; "guest-cid=" +:+ decimal (sp_VSOCKCID s)]);
   ("-object", ["rng-random"; "filename=/dev/urandom"; "id=rng0"]); ("-device", ["virtio-rng-pci"; "rng=rng0"]);
   ("-fw_cfg", ["name=opt/private-vm/session-capability"; "file=/proc/self/fd/" +:+ decimal (sp_FWCfgTokenFD s)])] ++
  match sp_Role s with
  | RoleScanner =>
      [("-fw_cfg", ["name=opt/private-vm/scanner-boot-mode";
          if bool_decide (sp_ScannerMode s = ScannerModeUpdate) then "string=definitions-update" else "string=scan-offline"])]
  | _ => []
  end ++
  match sp_Role s with
  | RoleExporter => []
  | _ =>
      [("-spice", ["unix=on"; "addr=" +:+ sp_SPICESocket s; "disable-ticketing=on"; "disable-copy-paste=on"; "disable-agent-file-xfer=on"]);
       ("-device", ["virtio-vga"]); ("-device", ["virtio-keyboard-pci"]); ("-device", ["virtio-mouse-pci"]);
       ("-device", ["virtio-serial-pci"; "id=spice-serial"]); ("-chardev", ["spicevmc"; "id=spiceagent"; "name=vdagent"]);
       ("-device", ["virtserialport"; "bus=spice-serial.0"; "chardev=spiceagent"; "name=com.redhat.spice.0"])]
  end ++
  diskOptions "root" (sp_Root s) ++ dataOptions 0 (sp_Data s) ++
  (if sp_Networked s then [("-netdev", ["tap"; "id=net0"; "fd=4"; "vhost=on"]); ("-device", ["virtio-net-pci"; "netdev=net0"])]
   else [("-nic", ["none"])]) ++
  (if sp_EnableAudio s then [] else [("-audiodev", ["none"; "id=noaudio"])]) ++
  match sp_Role s with RoleExporter => [("-device", ["qemu-xhci"; "id=usb-controller"])] | _ => [] end.

(** ** Reading back *)

Inductive reads : list string → list (string * list string) → Prop :=
| reads_nil : reads [] []
| reads_lone flag args options : HasPrefix flag "-" = true → bool_decide (flag ∈ lonely) = true → reads args options →
    reads (flag :: args) ((flag, []) :: options)
| reads_value flag value parts args options : HasPrefix flag "-" = true → bool_decide (flag ∈ lonely) = false →
    readParts value "" = parts → reads args options → reads (flag :: value :: args) ((flag, parts) :: options).

Lemma reads_app a x b y : reads a x → reads b y → reads (a ++ b) (x ++ y).
Proof. induction 1; cbn [app]; [done|intros; constructor; auto..]. Qed.

Lemma reads_readArgv args options : reads args options → readArgv args = Some options.
Proof.
  induction 1 as [|flag args options Hp Hl H IH|flag value parts args options Hp Hl Hv H IH]; [done| |]; cbn [readArgv]; rewrite Hp, Hl; cbn [negb].
  - by rewrite IH.
  - by rewrite IH, Hv.
Qed.

Lemma partByte_app sep a b : noByte sep a → noByte sep b → noByte sep (a +:+ b).
Proof.
  unfold noByte. induction a as [|c a IH]; [done|]. cbn [String.app string_forallb]. intros [Hc Ha]%andb_true_iff Hb.
  change (String c a +:+ b) with (String c (a +:+ b)). cbn [string_forallb]. by rewrite Hc, IH.
Qed.

Lemma readParts_plain a r part : noByte "," a → readParts (a +:+ r) part = readParts r (part +:+ a).
Proof.
  revert part. induction a as [|c a IH]; intros part Ha; [by rewrite append_nil_l, append_nil_r|].
  unfold noByte in Ha. cbn [string_forallb] in Ha. apply andb_true_iff in Ha as [Hc Ha]. apply negb_true_iff in Hc.
  change (String c a +:+ r) with (String c (a +:+ r)). cbn [readParts]. rewrite Hc, IH by done. by rewrite append_assoc.
Qed.

(** Parts without commas of their own, none empty but perhaps the first, are read back. *)
Lemma readParts_concat p ps part :
  noByte "," p → Forall (λ q, noByte "," q ∧ q ≠ "") ps → readParts (String.concat "," (p :: ps)) part = (part +:+ p) :: ps.
Proof.
  intros Hp Hps. revert p part Hp. induction Hps as [|q ps [Hq Hn] Hps IH]; intros p part Hp.
  { change (String.concat "," [p]) with p. rewrite <- (append_nil_r p) at 1. by rewrite readParts_plain. }
  change (String.concat "," (p :: q :: ps)) with (p +:+ String "," (String.concat "," (q :: ps))). rewrite readParts_plain by done.
  cbn [readParts]. change (char_eqb "," ",") with true. cbn iota.
  assert (Hr : readParts (String.concat "," (q :: ps)) "" = q :: ps) by (by rewrite IH).
  destruct q as [|c q]; [done|]. unfold noByte in Hq. cbn [string_forallb] in Hq. apply andb_true_iff in Hq as [Hc _]. apply negb_true_iff in Hc.
  assert (Hs : ∃ r, String.concat "," (String c q :: ps) = String c r) by (destruct ps; eexists; reflexivity).
  destruct Hs as [r Hs]. rewrite Hs in *. by rewrite Hc, Hr.
Qed.

Lemma noByte_class (p : ascii → bool) sep s : string_forallb p s = true → p sep = false → noByte sep s.
Proof.
  unfold noByte. intros Hs Hp. induction s as [|c s IH]; [done|]. cbn [string_forallb] in *. apply andb_true_iff in Hs as [Hc Hs].
  rewrite IH by done. unfold char_eqb. case_bool_decide as Hd; [congruence|done].
Qed.

Lemma noByte_decimal n : noByte "," (decimal n).
Proof. by eapply noByte_class; [apply decimal_digits|]. Qed.

Lemma noByte_name s : qemuNamePattern s = true → noByte "," s ∧ s ≠ "".
Proof.
  unfold qemuNamePattern, match_head_tail. destruct s as [|c s]; [done|]. intros H. bool_hyps. split; [|done].
  apply (noByte_class is_name_char); [|done]. cbn [string_forallb]. apply andb_true_iff. split; [|done]. unfold is_name_char. by rewrite H.
Qed.

Lemma noByte_separators path : ContainsAny path separators = false → noByte "," path.
Proof.
  unfold ContainsAny, string_existsb, noByte. intros H. apply negb_false_iff in H. induction path as [|c path IH]; [done|].
  cbn [string_forallb] in *. apply andb_true_iff in H as [Hc H]. rewrite IH by done. rewrite andb_true_r.
  apply negb_true_iff, negb_false_iff in Hc. cbn in Hc. by apply andb_true_iff in Hc as [? _].
Qed.

Create HintDb qemu.
#[local] Hint Resolve partByte_app noByte_decimal : qemu.

(** A disk whose texts hold no comma. *)
Definition plainDisk (disk : Disk) : Prop :=
  noByte "," (dk_Path disk) ∧ (dk_Format disk = "qcow2" ∨ dk_Format disk = "raw") ∧ noByte "," (dk_Serial disk).

Lemma validateDisk_plain disk root : validateDisk disk root = Ok tt → plainDisk disk ∧ (root = true → dk_ReadOnly disk = false).
Proof.
  unfold validateDisk. intros H. pass_guards H. bool_hyps. split; [split_and!|].
  - by apply noByte_separators.
  - destruct (decide (dk_Format disk = "qcow2")) as [|Hq]; [by left|]. destruct (decide (dk_Format disk = "raw")) as [|Hr]; [by right|].
    by rewrite (bool_decide_eq_false_2 _ Hq), (bool_decide_eq_false_2 _ Hr) in *.
  - by apply noByte_name.
  - intros ->. done.
Qed.

(** What an accepted specification gives. *)
Record accepted (s : Spec) : Prop := {
  ac_name : noByte "," (sp_Name s);
  ac_machine : valueOr (sp_Machine s) "q35,accel=kvm" = "q35,accel=kvm";
  ac_root : plainDisk (sp_Root s) ∧ dk_ReadOnly (sp_Root s) = false;
  ac_data : Forall plainDisk (sp_Data s);
  ac_qmp : noByte "," (sp_QMPSocket s);
  ac_spice : sp_Role s ≠ RoleExporter → noByte "," (sp_SPICESocket s);
  ac_network : sp_Networked s = true → sp_NetworkFD s = 4%Z;
  ac_role : ValidateRole (sp_Role s) = Ok tt;
  ac_devices : validateRoleDevices s = Ok tt
}.

Lemma validateData_plain disks i : validateData disks i = Ok tt → Forall plainDisk disks.
Proof.
  revert i. induction disks as [|disk disks IH]; intros i; [constructor|]. cbn [validateData].
  destruct (validateDisk disk false) as [[]|] eqn:Hd; [|done]. intros H. constructor; [by apply validateDisk_plain in Hd as [? _]|by eapply IH].
Qed.

Lemma validateSocketDestination_plain fs path label : validateSocketDestination fs path label = Ok tt → noByte "," path.
Proof. unfold validateSocketDestination. intros H. pass_guards H. bool_hyps. by apply noByte_separators. Qed.

Lemma Validate_accepted fs s : Validate fs s = Ok tt → accepted s.
Proof.
  unfold Validate. intros H. destruct (validateExecutable _ _) as [[]|]; [|done]. destruct (lift_session (ValidateID _) _) as [[]|]; [|done].
  cbn in H. destruct (negb (qemuNamePattern _)) eqn:Hn; [done|]. destruct (lift_session (ValidateRole _) _) as [[]|] eqn:Hr; [|done]. cbn in H.
  destruct (negb (bool_decide (sp_Machine s = "")) && _) eqn:Hm; [done|]. destruct ((sp_CPUs s <? 1)%Z || _ || _ || _ || _); [done|].
  destruct (validateDisk (sp_Root s) true) as [[]|] eqn:Hroot; [|done]. destruct (validateData _ _) as [[]|] eqn:Hdata; [|done]. cbn in H.
  destruct (validateSocketDestination fs (sp_QMPSocket s) "QMP") as [[]|] eqn:Hq; [|done]. cbn in H.
  destruct (validateDisplay fs s) as [[]|] eqn:Hd; [|done]. cbn in H. destruct (_ || _); [done|]. destruct (sp_Networked s && _) eqn:Hnet; [done|].
  destruct (negb (sp_Networked s) && _); [done|]. destruct (sp_FWCfgTokenFD s <? 3)%Z; [done|]. split.
  - apply noByte_name. by apply negb_false_iff.
  - unfold valueOr. destruct (decide (sp_Machine s = "")) as [He|He]; [by rewrite (bool_decide_eq_true_2 _ He)|].
    rewrite (bool_decide_eq_false_2 _ He) in *. cbn in Hm. by apply negb_false_iff, bool_decide_eq_true in Hm.
  - apply validateDisk_plain in Hroot as [? ?]. auto.
  - by eapply validateData_plain.
  - by eapply validateSocketDestination_plain.
  - intros Hne. unfold validateDisplay in Hd. rewrite (bool_decide_eq_false_2 _ Hne) in Hd. cbn in Hd.
    destruct (validateSocketDestination fs (sp_SPICESocket s) "SPICE") as [[]|] eqn:Hs; [|done]. by eapply validateSocketDestination_plain.
  - intros Hn'. rewrite Hn' in Hnet. cbn in Hnet. by apply negb_false_iff, Z.eqb_eq in Hnet.
  - by destruct (sp_Role s).
  - done.
Qed.

(** One option whose value is its parts, joined by commas. *)
Lemma reads_option flag value p ps args options :
  HasPrefix flag "-" = true → bool_decide (flag ∈ lonely) = false → value = String.concat "," (p :: ps) → noByte "," p →
  Forall (λ q, noByte "," q ∧ q ≠ "") ps → reads args options → reads (flag :: value :: args) ((flag, p :: ps) :: options).
Proof. intros Hf Hl -> Hp Hps H. apply reads_value; [done|done| |done]. by rewrite readParts_concat. Qed.

Lemma parts_nil : Forall (λ q, noByte "," q ∧ q ≠ "") [].
Proof. constructor. Qed.

(** A part with a key is not empty. *)
Lemma parts_cons c q ps : noByte "," (String c q) → Forall (λ q, noByte "," q ∧ q ≠ "") ps → Forall (λ q, noByte "," q ∧ q ≠ "") (String c q :: ps).
Proof. intros Hq Hps. constructor; [done|done]. Qed.

Ltac noted := repeat first [assumption | exact (eq_refl true) | apply noByte_decimal | apply partByte_app].
Ltac joined := repeat (cbn; rewrite ?append_assoc, ?append_nil_r); reflexivity.
Ltac reading := repeat first
  [ apply reads_nil
  | apply reads_lone; [reflexivity|reflexivity|]
  | apply reads_option; [reflexivity|reflexivity|joined|noted|repeat (first [apply parts_nil | apply parts_cons; [noted|]])|] ].

Lemma diskArgs_read id disk : noByte "," id → plainDisk disk → reads (diskArgs id disk) (diskOptions id disk).
Proof.
  intros Hi (Hp & Hf & Hs). unfold diskArgs, diskOptions. assert (Hf' : noByte "," (dk_Format disk)) by (by destruct Hf as [-> | ->]).
  destruct (dk_ReadOnly disk); cbn [app]; reading.
Qed.

Lemma dataArgs_read i disks : Forall plainDisk disks → reads (dataArgs i disks) (dataOptions i disks).
Proof.
  revert i. induction disks as [|disk disks IH]; intros i H; [constructor|]. apply Forall_cons in H as [Hd H]. cbn [dataArgs dataOptions].
  apply reads_app; [|by apply IH]. apply diskArgs_read; [noted|done].
Qed.

Lemma baseArgs_read s : accepted s → reads (baseArgs s) (take 17 (machineOf s)).
Proof. intros []. unfold baseArgs, machineOf. cbn [take app]. rewrite ac_machine0. reading. Qed.

Lemma machineOf_read s bootMode :
  accepted s →
  (if bool_decide (sp_Role s = RoleScanner) then option_map Some (scannerBootMode (sp_ScannerMode s)) else Some None) = Some bootMode →
  reads (baseArgs s ++
         match bootMode with Some mode => ["-fw_cfg"; "name=" +:+ scannerBootModeFWCfg +:+ ",string=" +:+ mode] | None => [] end ++
         displayArgs s ++ diskArgs "root" (sp_Root s) ++ dataArgs 0 (sp_Data s) ++ networkArgs s ++
         (if negb (sp_EnableAudio s) then ["-audiodev"; "none,id=noaudio"] else []) ++
         (if bool_decide (sp_Role s = RoleExporter) then ["-device"; "qemu-xhci,id=usb-controller"] else [])) (machineOf s).
Proof.
  intros Ha Hb. unfold machineOf. pose proof Ha as []. repeat apply reads_app.
  - by apply baseArgs_read.
  - revert Hb. unfold scannerBootMode. destruct (sp_Role s); cbn; try (intros Hb; injection Hb as <-; constructor).
    destruct (decide (sp_ScannerMode s = ScannerModeUpdate)) as [He|He].
    + rewrite (bool_decide_eq_true_2 (RoleScanner = RoleScanner)), !(bool_decide_eq_true_2 _ He) by done. cbn. intros Hb. injection Hb as <-. reading.
    + rewrite (bool_decide_eq_true_2 (RoleScanner = RoleScanner)), !(bool_decide_eq_false_2 _ He) by done. cbn. case_bool_decide; [|done]. cbn. intros Hb. injection Hb as <-. reading.
  - unfold displayArgs. destruct (decide (sp_Role s = RoleExporter)) as [He|He]; [rewrite (bool_decide_eq_true_2 _ He), He; constructor|].
    rewrite (bool_decide_eq_false_2 _ He). specialize (ac_spice0 He). destruct (sp_Role s); [..|done|]; cbn [negb]; reading.
  - apply diskArgs_read; [exact (eq_refl true)|by destruct ac_root0].
  - by apply dataArgs_read.
  - unfold networkArgs. destruct (sp_Networked s); [rewrite ac_network0 by done; reading|reading].
  - destruct (sp_EnableAudio s); cbn; reading.
  - destruct (decide (sp_Role s = RoleExporter)) as [He|He]; [rewrite (bool_decide_eq_true_2 _ He), He; reading|].
    rewrite (bool_decide_eq_false_2 _ He). destruct (sp_Role s); [..|done|]; constructor.
Qed.

Lemma Args_accepted unicodeLower fs s args :
  Args unicodeLower fs s = Ok args → accepted s ∧ readArgv args = Some (machineOf s) ∧ validateRenderedArgs unicodeLower args = true.
Proof.
  unfold Args. destruct (Validate fs s) as [[]|] eqn:Hv; [|done]. apply Validate_accepted in Hv. cbn.
  destruct (if bool_decide _ then _ else _) as [bootMode|] eqn:Hb; [|done]. destruct (negb _) eqn:Hr; [done|]. intros [= <-].
  apply negb_false_iff in Hr. split; [done|]. split; [|done]. apply reads_readArgv. by apply machineOf_read.
Qed.

(** What the checks of the rendered arguments mean for each of them. *)
Lemma rendered_texts unicodeLower args :
  validateRenderedArgs unicodeLower args = true →
  ∀ arg, arg ∈ args →
    (∀ text, text ∈ "port=" :: forbiddenTexts → Contains (ToLower unicodeLower arg) text = false) ∧
    (HasPrefix arg "unix:" = true ∨ Contains arg "unix=on" = true ∨ SplitHostPort arg = None).
Proof.
  unfold validateRenderedArgs, ValidateNoTCPListener. intros [Hf Ht]%andb_true_iff arg Hin%list_elem_of_In.
  rewrite forallb_forall in Hf, Ht. specialize (Hf _ Hin). specialize (Ht _ Hin). cbn beta zeta in Hf, Ht.
  rewrite forallb_forall in Hf. destruct (Contains _ "port=") eqn:Hp; [done|]. split.
  - intros text [->|Hx%list_elem_of_In]%elem_of_cons; [done|]. specialize (Hf _ Hx). by apply negb_true_iff in Hf.
  - destruct (Contains _ "tls-port="); [done|]. cbn [orb] in Ht.
    destruct (HasPrefix arg "unix:"); [by left|]. destruct (Contains arg "unix=on"); [by right; left|].
    right; right. by destruct (SplitHostPort arg).
Qed.

(** C27: the arguments made from an accepted specification are read back as
    exactly the machine the specification means: no name, path, serial number or
    socket of the specification can add, end or change an option.  None of them,
    in lower case, names a shared file system, a redirected USB device,
    daemonizing or a port, and none that is not a Unix socket can be split into a
    host and a port. *)
Theorem arguments_mean_the_specification unicodeLower fs s args :
  Args unicodeLower fs s = Ok args →
  readArgv args = Some (machineOf s) ∧
  validateRenderedArgs unicodeLower args = true ∧
  ∀ arg, arg ∈ args →
    (∀ text, text ∈ "port=" :: forbiddenTexts → Contains (ToLower unicodeLower arg) text = false) ∧
    (HasPrefix arg "unix:" = true ∨ Contains arg "unix=on" = true ∨ SplitHostPort arg = None).
Proof.
  intros (_ & Hr & Hv)%Args_accepted. split; [done|]. split; [done|]. by apply rendered_texts.
Qed.

(** ** What each role is given *)

Definition optionsOf (flag : string) (m : list (string * list string)) : list (list string) :=
  omap (λ o, if bool_decide (o.1 = flag) then Some o.2 else None) m.

Definition driveParts (id : string) (disk : Disk) (readOnly : bool) : list string :=
  ["file=" +:+ dk_Path disk; "if=none"; "id=" +:+ id; "format=" +:+ dk_Format disk; "cache=none"; "discard=unmap"] ++
  (if readOnly then ["readonly=on"] else []).

Definition tapParts : list string := ["tap"; "id=net0"; "fd=4"; "vhost=on"].

Inductive isolated (s : Spec) (nets drives : list (list string)) : Prop :=
| workstation_isolated : sp_Role s = RoleWorkstation → nets = [tapParts] → drives = [driveParts "root" (sp_Root s) false] → isolated s nets drives
| downloader_isolated d : sp_Role s = RoleDownloader → sp_Data s = [d] → nets = [tapParts] →
    drives = [driveParts "root" (sp_Root s) false; driveParts "data0" d false] → isolated s nets drives
| update_isolated : sp_Role s = RoleScanner → sp_ScannerMode s = "update" → nets = [tapParts] →
    drives = [driveParts "root" (sp_Root s) false] → isolated s nets drives
| scan_isolated d : sp_Role s = RoleScanner → sp_ScannerMode s = "scan" → sp_Data s = [d] → nets = [] →
    drives = [driveParts "root" (sp_Root s) false; driveParts "data0" d true] → isolated s nets drives
| exporter_isolated : sp_Role s = RoleExporter → nets = [] → drives = [driveParts "root" (sp_Root s) false] → isolated s nets drives.

(** The parts of the machine that depend on the role. *)
Lemma machineOf_isolated s : accepted s → isolated s (optionsOf "-netdev" (machineOf s)) (optionsOf "-drive" (machineOf s)).
Proof.
  intros [_ _ [_ Hro] _ _ _ _ Hr Hd]. unfold validateRoleDevices in Hd. destruct (negb _ && _); [done|].
  destruct (sp_Role s) eqn:Hrole; [| | | |done].
  - destruct (_ || _) eqn:Hg; [done|]. bool_hyps. destruct (sp_Data s) eqn:Hdata; [|done].
    apply workstation_isolated; [done|..]; unfold machineOf, diskOptions; rewrite Hrole, Hdata, Hro; destruct (sp_Networked s), (sp_EnableAudio s); done.
  - destruct (_ || _) eqn:Hg; [done|]. bool_hyps. destruct (sp_Data s) as [|d [|]] eqn:Hdata; [done| |done].
    apply (downloader_isolated _ _ _ d); [done|done|..]; unfold machineOf, dataOptions, diskOptions; rewrite Hrole, Hdata, Hro;
      destruct (sp_Networked s), (sp_EnableAudio s), (dk_ReadOnly d); done.
  - destruct (sp_EnableAudio s) eqn:Haudio; [done|]. case_bool_decide as Hm.
    + destruct (_ || _) eqn:Hg; [done|]. bool_hyps. destruct (sp_Data s) eqn:Hdata; [|done].
      apply update_isolated; [done|done|..]; unfold machineOf, diskOptions; rewrite Hrole, Hdata, Hro; destruct (sp_Networked s), (sp_EnableAudio s); done.
    + case_bool_decide as Hm'; [|done]. destruct (_ || _) eqn:Hg; [done|]. bool_hyps. destruct (sp_Data s) as [|d [|]] eqn:Hdata; [done| |done].
      apply (scan_isolated _ _ _ d); [done|done|done|..]; unfold machineOf, dataOptions, diskOptions; rewrite Hrole, Hdata, Hro;
        destruct (sp_Networked s), (sp_EnableAudio s), (dk_ReadOnly d); done.
  - destruct (_ || _) eqn:Hg; [done|]. bool_hyps. destruct (sp_Data s) eqn:Hdata; [|done].
    apply exporter_isolated; [done|..]; unfold machineOf, diskOptions; rewrite Hrole, Hdata, Hro; destruct (sp_Networked s), (sp_EnableAudio s); done.
Qed.

Lemma optionsOf_app flag a b : optionsOf flag (a ++ b) = optionsOf flag a ++ optionsOf flag b.
Proof. apply omap_app. Qed.

Lemma data_spice i disks : optionsOf "-spice" (dataOptions i disks) = [].
Proof. revert i. induction disks as [|disk disks IH]; intros i; [done|]. cbn [dataOptions]. by rewrite optionsOf_app, IH. Qed.

Lemma machineOf_display s :
  optionsOf "-spice" (machineOf s) = (if bool_decide (sp_Role s = RoleExporter) then []
    else [["unix=on"; "addr=" +:+ sp_SPICESocket s; "disable-ticketing=on"; "disable-copy-paste=on"; "disable-agent-file-xfer=on"]]).
Proof.
  unfold machineOf. rewrite !optionsOf_app, data_spice. destruct (decide (sp_Role s = RoleExporter)) as [He|He].
  - rewrite (bool_decide_eq_true_2 _ He), He. by destruct (sp_Networked s), (sp_EnableAudio s).
  - rewrite (bool_decide_eq_false_2 _ He). by destruct (sp_Role s), (sp_Networked s), (sp_EnableAudio s).
Qed.

Definition notUsb (o : string * list string) : Prop := o.1 = "-device" → head o.2 ≠ Some "qemu-xhci".

Lemma notUsb_data i disks : Forall notUsb (dataOptions i disks).
Proof. revert i. induction disks as [|disk disks IH]; intros i; [constructor|]. cbn. repeat (constructor; [by intros ?|]). apply IH. Qed.

Ltac usbFree := repeat match goal with
  | |- Forall notUsb (_ ++ _) => apply Forall_app_2
  | |- Forall notUsb (_ :: _) => apply List.Forall_cons; [by intros ?|]
  | |- Forall notUsb [] => apply List.Forall_nil
  | |- Forall notUsb (dataOptions _ _) => apply notUsb_data
  | |- Forall notUsb (diskOptions _ _) => unfold diskOptions
  end.

Lemma machineOf_usb s : ["qemu-xhci"; "id=usb-controller"] ∈ optionsOf "-device" (machineOf s) ↔ sp_Role s = RoleExporter.
Proof.
  split.
  - intros (o & Ho & Hd)%list_elem_of_omap. destruct (decide (sp_Role s = RoleExporter)) as [|He]; [done|exfalso].
    assert (Hn : Forall notUsb (machineOf s)).
    { unfold machineOf. destruct (sp_Role s), (sp_Networked s), (sp_EnableAudio s); try done; usbFree. }
    rewrite Forall_forall in Hn. specialize (Hn _ Ho). case_bool_decide as Hf; [|done]. injection Hd as Hd. specialize (Hn Hf). by rewrite Hd in Hn.
  - intros Hr. apply list_elem_of_omap. exists ("-device", ["qemu-xhci"; "id=usb-controller"]). split; [|done].
    unfold machineOf. rewrite Hr. rewrite !elem_of_app. do 7 right. by apply list_elem_of_singleton.
Qed.

(** C28: the arguments of an accepted specification, as QEMU reads them, give a
    guest exactly what its role allows.  A workstation, a downloader and an
    updating scanner have the one inherited tap; a scanning scanner and an
    exporter have no network.  Next to the writable root overlay a downloader has
    its writable quarantine disk, a scanning scanner its quarantine disk read
    only, and the others no disk.  Only an exporter has no display and has a USB
    controller; a display has copy and paste and file transfer off.  No argument
    names a shared directory, USB redirection or a TCP port. *)
Theorem guests_are_isolated unicodeLower fs s args :
  Args unicodeLower fs s = Ok args →
  ∃ m, readArgv args = Some m ∧ isolated s (optionsOf "-netdev" m) (optionsOf "-drive" m) ∧
    optionsOf "-spice" m = (if bool_decide (sp_Role s = RoleExporter) then []
      else [["unix=on"; "addr=" +:+ sp_SPICESocket s; "disable-ticketing=on"; "disable-copy-paste=on"; "disable-agent-file-xfer=on"]]) ∧
    (["qemu-xhci"; "id=usb-controller"] ∈ optionsOf "-device" m ↔ sp_Role s = RoleExporter) ∧
    (∀ arg text, arg ∈ args → text ∈ "port=" :: forbiddenTexts → Contains (ToLower unicodeLower arg) text = false).
Proof.
  intros H. apply Args_accepted in H as (Ha & Hr & Hv). exists (machineOf s). split; [done|]. split; [by apply machineOf_isolated|].
  split; [apply machineOf_display|]. split; [apply machineOf_usb|].
  intros arg text Hin. by apply (rendered_texts _ _ Hv).
Qed.

(** ** A scanning guest *)

Definition demoFiles : HostFiles := {|
  hf_Lstat path :=
    if bool_decide (path = "/usr/bin/qemu") then LstatInfo (mkHostInfo 493 0 0)
    else if bool_decide (path = "/usr/bin") then LstatInfo (mkHostInfo (ModeDir + 493) 0 0)
    else if bool_decide (path = "/run/pvm") then LstatInfo (mkHostInfo (ModeDir + 448) 0 0) else LstatNotExist;
  hf_EvalSymlinks := Some; hf_Euid := 0; hf_Egid := 0
|}.

Definition demoSpec : Spec := {|
  sp_Binary := "/usr/bin/qemu"; sp_SessionID := "pvm-00112233445566778899aabbccddeeff"; sp_Name := "scanner"; sp_Role := RoleScanner;
  sp_ScannerMode := "scan"; sp_Machine := ""; sp_CPUs := 2; sp_MemoryBytes := 2147483648; sp_Root := mkDisk "/run/pvm/a=b.qcow2" "qcow2" false "root";
  sp_Data := [mkDisk "/dev/mapper/quarantine" "raw" true "quarantine"]; sp_QMPSocket := "/run/pvm/qmp"; sp_SPICESocket := "/run/pvm/spice";
  sp_VSOCKCID := 3; sp_Networked := false; sp_NetworkFD := 0; sp_EnableAudio := false; sp_FWCfgTokenFD := 3
|}.

Definition demoArgs : list string := match Args id demoFiles demoSpec with Ok args => args | Err _ => [] end.

Lemma arguments_mean_the_specification_witness : readArgv demoArgs = Some (machineOf demoSpec) ∧ demoArgs ≠ [].
Proof.
  split; [|vm_compute; discriminate].
  exact (proj1 (arguments_mean_the_specification id demoFiles demoSpec demoArgs ltac:(vm_compute; reflexivity))).
Defined.

Lemma guests_are_isolated_witness : ∃ m, readArgv demoArgs = Some m ∧ isolated demoSpec (optionsOf "-netdev" m) (optionsOf "-drive" m).
Proof.
  destruct (guests_are_isolated id demoFiles demoSpec demoArgs ltac:(vm_compute; reflexivity)) as (m & Hm & Hi & _).
  exists m. split; [exact Hm|exact Hi].
Defined.
