(* ===== verification/StorageScratch.v ===== *)
(** * Session scratch storage

    Models [src/internal/storage/luks.go], [tmpfs.go] and [identity.go]: the
    encrypted scratch of a session (a ciphertext file, a loop device, a LUKS
    mapping and a mounted file system) and the tmpfs scratch, with the identity
    checks that guard their removal.  Every system call, command and inspection
    is an interface over the host, and any of them may fail.  [sc_log] is a ghost
    record of the calls that take or release something, and of the evidence
    gathered before a release. *)

From Stdlib Require Import ZArith Lia Ascii.
From stdpp Require Import strings base tactics option list.
From S2P Require Import Prelude GoText Netip Transfer QemuSpec.

Open Scope string_scope.
Open Scope list_scope.

Definition storageSessionPattern : string → bool := match_prefix_exact "pvm-" is_lower_hex 32.

(** [^/dev/loop[0-9]+$] *)
Definition loopPattern (s : string) : bool :=
  HasPrefix s "/dev/loop" && negb (bool_decide (drop_string 9 s = "")) && string_forallb is_digit (drop_string 9 s).

Definition opaqueNames : list string :=
  ["root-workstation.qcow2"; "root-downloader.qcow2"; "root-scanner.qcow2"; "root-exporter.qcow2"; "quarantine.raw"; "uefi-vars.fd"].

Definition noBackupMarkerName : string := ".private-vm-no-backup".
Definition noBackupMarkerContent : string := "private-vm-ephemeral-scratch-v1".

(** ** Identities *)

(** [unix.Stat_t] *)
Record Stat := mkStat { st_Dev : Z; st_Ino : Z; st_Size : Z; st_Uid : Z; st_Gid : Z; st_Mode : Z; st_Nlink : Z }.

Record pathIdentity := mkPathIdentity { pi_device : Z; pi_inode : Z; pi_uid : Z; pi_gid : Z; pi_mode : Z }.

Record imageFileIdentity := mkImageIdentity {
  ii_device : Z; ii_inode : Z; ii_size : Z; ii_uid : Z; ii_gid : Z; ii_mode : Z; ii_links : Z }.

#[global] Instance pathIdentity_eq_dec : EqDecision pathIdentity.
Proof. solve_decision. Defined.
#[global] Instance imageFileIdentity_eq_dec : EqDecision imageFileIdentity.
Proof. solve_decision. Defined.

Definition noPath : pathIdentity := mkPathIdentity 0 0 0 0 0.
Definition noImage : imageFileIdentity := mkImageIdentity 0 0 0 0 0 0 0.

Definition S_IFMT : Z := 61440.
Definition S_IFDIR : Z := 16384.
Definition S_IFREG : Z := 32768.

Definition fileType (mode : Z) : Z := Z.land mode S_IFMT.
Definition permissions (mode : Z) : Z := Z.land mode 511.

Definition pathOf (s : Stat) : pathIdentity := mkPathIdentity (st_Dev s) (st_Ino s) (st_Uid s) (st_Gid s) (st_Mode s).
Definition imageOf (s : Stat) : imageFileIdentity :=
  mkImageIdentity (st_Dev s) (st_Ino s) (st_Size s) (st_Uid s) (st_Gid s) (st_Mode s) (st_Nlink s).

Definition sameObject (a b : pathIdentity) : bool := bool_decide (a = b).
Definition sameStat (i : pathIdentity) (s : Stat) : bool := bool_decide (i = pathOf s).
Definition sameImageStat (i : imageFileIdentity) (s : Stat) : bool := bool_decide (i = imageOf s).

(** ** The host *)

Inductive statat := StatFound (s : Stat) | StatAbsent | StatFailed.

(** What [Stat] and [Fstat] of the backup-exclusion marker say. *)
Record Marker := mkMarker { mk_Regular : bool; mk_Perm : Z; mk_Size : Z; mk_Uid : Z; mk_Gid : Z; mk_Nlink : Z }.

Class StorageHost (W : Type) := {
  openDirectory : string → W → option Stat * W;        (* openat2 without links, then fstat *)
  openMarker : string → W → option Marker * W;         (* beneath the directory, then stat *)
  readMarker : W → option string * W;
  osMkdir : string → W → bool * W;
  osRemove : string → W → bool * W;
  createExclusive : string → W → bool * W;             (* O_CREATE|O_EXCL|O_RDWR|O_NOFOLLOW 0600 *)
  fstatFile : string → W → option Stat * W;
  truncateFile : string → Z → W → bool * W;
  closeFile : string → W → bool * W;
  randomKey : W → bool * W;                            (* rand.Read and secret.New *)
  dupKey : W → bool * W;
  runTool : string → list string → W → option string * W;
  mountAt : string → string → string → string → W → bool * W;   (* source, target, file system, data *)
  unmountAt : string → W → bool * W;
  chmodPath : string → W → bool * W;
  verifyLoopBacking : string → string → W → bool * W;
  verifyMapperBacking : string → string → W → bool * W;
  loopStillBacks : string → string → W → option bool * W;
  mapperExists : string → W → option bool * W;
  statParent : string → W → option Stat * W;           (* open the directory, then fstat *)
  statChild : string → W → statat * W;
  unlinkChild : string → W → bool * W;                 (* removed, or no longer there *)
  rmdirChild : string → W → bool * W;
  lstatAbsent : string → W → bool * W;
  contextDone : W → bool * W
}.

(** ** The calls that matter *)

Inductive scratch_call :=
| MadeDirectory (ok : bool)
| Underlay (i : option pathIdentity)
| DroppedDirectory (ok : bool)
| MadeFile (ok : bool)
| FileIdentity (i : imageFileIdentity)
| MadeKey
| AttachedLoop (loop : string)
| OpenedMapper
| Mounted
| MountIdentity (i : pathIdentity)
| SawDirectory (i : pathIdentity)
| VerifiedMapper (ok : bool)
| VerifiedLoop (ok : bool)
| TriedUnmount (ok : bool)
| UndidMount (ok : bool)
| TriedClose (ok : bool)
| TriedDetach (ok : bool)
| DestroyedKey
| FoundFile (s : statat)
| TriedUnlink (ok : bool)
| FoundDirectory (s : statat)
| TriedRmdir (ok : bool).

(** ** The encrypted scratch *)

Record Tools := mkTools { tl_Losetup : string; tl_Cryptsetup : string; tl_MkfsExt4 : string }.

Record LUKSManager := mkManager { lm_ScratchRoot : string; lm_RuntimeRoot : string; lm_Tools : Tools }.

Record LUKSHandle := mkHandle {
  lh_ciphertext : string;
  lh_cipherIdentity : imageFileIdentity;
  lh_scratchParent : pathIdentity;
  lh_loop : string;
  lh_mapping : string;
  lh_mount : string;
  lh_underlay : pathIdentity;
  lh_mountedAt : pathIdentity;
  lh_mountParent : pathIdentity;
  lh_key : bool;
  lh_mounted : bool;
  lh_opened : bool;
  lh_attached : bool;
  lh_destroyed : bool
}.

Section Calls.
Context (euid egid : Z) {W Hd : Type} `{!StorageHost W}.

(** The handle is the object the caller holds. *)
Record St := mkSt { sc_handle : Hd; sc_world : W; sc_log : list scratch_call }.

Definition M (A : Type) : Type := St → result string A * St.

Definition ret {A} (a : A) : M A := λ s, (Ok a, s).
Definition throw {A} (e : string) : M A := λ s, (Err e, s).
Definition bind {A B} (m : M A) (k : A → M B) : M B := λ s, match m s with (Ok a, s) => k a s | (Err e, s) => (Err e, s) end.

#[local] Notation "'do' x := m ; k" := (bind m (λ x, k)) (at level 100, x binder, m at level 99, right associativity).

Definition handle : M Hd := λ s, (Ok (sc_handle s), s).
Definition update (f : Hd → Hd) : M unit := λ s, (Ok tt, mkSt (f (sc_handle s)) (sc_world s) (sc_log s)).
Definition quiet {A} (f : W → A * W) : M A := λ s, let '(a, w) := f (sc_world s) in (Ok a, mkSt (sc_handle s) w (sc_log s)).
Definition note (c : scratch_call) : M unit := λ s, (Ok tt, mkSt (sc_handle s) (sc_world s) (sc_log s ++ [c])).
(** A step whose error is told in the caller's words. *)
Definition refusing {A} (m : M A) (e : string) : M A := λ s, match m s with (Err _, s) => (Err e, s) | r => r end.
(** A call whose success is required. *)
Definition must (f : W → bool * W) (e : string) : M unit := do ok := quiet f ; if ok : bool then ret tt else throw e.
(** A call whose outcome is recorded, and required. *)
Definition mustNote (f : W → bool * W) (record : bool → scratch_call) (e : string) : M unit :=
  do ok := quiet f ; do _ := note (record ok) ; if ok : bool then ret tt else throw e.

(** [filepath.Join] of nonempty elements. *)
Definition joinPath (elements : list string) : string := Clean (GoText.Join elements).

Definition narrowPath (path : string) : bool := cleanAbs path && negb (bool_decide (path = "/")).

Definition verifyPrivateDirectory (path : string) : M unit :=
  if negb (narrowPath path) then throw "private storage directory must be a narrow absolute path"
  else
    do s := quiet (openDirectory path) ;
    match s with
    | None => throw "open private storage directory safely"
    | Some s =>
        if negb (fileType (st_Mode s) =? S_IFDIR)%Z || negb (permissions (st_Mode s) =? 448)%Z || negb (st_Uid s =? euid)%Z
        then throw "private storage directory must be daemon-owned with exact mode 0700" else ret tt
    end.

Definition inspectPrivateDirectoryIdentity (path : string) : M pathIdentity :=
  if negb (narrowPath path) then throw "private path must be a narrow clean absolute path"
  else
    do s := quiet (openDirectory path) ;
    match s with
    | None => throw "open private path identity failed"
    | Some s =>
        if negb (fileType (st_Mode s) =? S_IFDIR)%Z || negb (permissions (st_Mode s) =? 448)%Z || negb (st_Uid s =? euid)%Z ||
           negb (st_Gid s =? egid)%Z
        then throw "private path identity, owner, group, or mode is unsafe" else ret (pathOf s)
    end.

Definition verifyNoBackupMarker (root : string) : M unit :=
  do m := quiet (openMarker root) ;
  match m with
  | None => throw "open scratch backup-exclusion marker"
  | Some m =>
      if negb (mk_Regular m) || negb (mk_Perm m =? 384)%Z || negb (mk_Size m =? slen noBackupMarkerContent)%Z
      then throw "scratch backup-exclusion marker must be a mode-0600 regular file"
      else if negb (mk_Uid m =? euid)%Z || negb (mk_Gid m =? egid)%Z || negb (mk_Nlink m =? 1)%Z
      then throw "scratch backup-exclusion marker ownership is invalid"
      else
        do data := quiet readMarker ;
        match data with
        | None => throw "read scratch backup-exclusion marker"
        | Some data => if bool_decide (data = noBackupMarkerContent) then ret tt else throw "scratch backup-exclusion marker content is invalid"
        end
  end.

(** [ownedFileIdentity] of the open ciphertext. *)
Definition ownedFileIdentity (path : string) (allowEmpty : bool) : M imageFileIdentity :=
  do s := quiet (fstatFile path) ;
  match s with
  | None => throw "inspect owned file identity failed"
  | Some s =>
      if negb (fileType (st_Mode s) =? S_IFREG)%Z || negb (permissions (st_Mode s) =? 384)%Z || negb (st_Nlink s =? 1)%Z ||
         (negb allowEmpty && (st_Size s <=? 0)%Z) || (negb (st_Uid s =? 0)%Z && negb (st_Uid s =? euid)%Z) || negb (st_Gid s =? egid)%Z
      then throw "owned file type, mode, links, size, owner, or group is unsafe" else ret (imageOf s)
  end.

Definition removeOwnedImage (path : string) (parent : pathIdentity) (identity : imageFileIdentity) : M unit :=
  do p := quiet (statParent (Dir path)) ;
  match p with
  | None => throw "open root overlay parent for cleanup failed"
  | Some p =>
      if negb (sameStat parent p) then throw "root overlay parent identity changed before cleanup"
      else
        do current := quiet (statChild path) ;
        do _ := note (FoundFile current) ;
        match current with
        | StatAbsent => ret tt
        | StatFailed => throw "refusing to remove a replaced root overlay"
        | StatFound s =>
            if negb (sameImageStat identity s) then throw "refusing to remove a replaced root overlay"
            else mustNote (unlinkChild path) TriedUnlink "remove root overlay failed"
        end
  end.

Definition removeOwnedDirectory (path : string) (parent target : pathIdentity) : M unit :=
  do p := quiet (statParent (Dir path)) ;
  match p with
  | None => throw "open owned directory parent for cleanup failed"
  | Some p =>
      if negb (sameStat parent p) then throw "owned directory parent identity changed before cleanup"
      else
        do current := quiet (statChild path) ;
        do _ := note (FoundDirectory current) ;
        match current with
        | StatAbsent => ret tt
        | StatFailed => throw "refusing to remove a replaced owned directory"
        | StatFound s =>
            if negb (sameStat target s) || negb (fileType (st_Mode s) =? S_IFDIR)%Z then throw "refusing to remove a replaced owned directory"
            else mustNote (rmdirChild path) TriedRmdir "remove owned directory failed"
        end
  end.

(** A new private mount point; [osMkdir] or its inspection may fail, and then the
    directory is removed without looking. *)
Definition makeMountPoint (path : string) : M pathIdentity :=
  do _ := mustNote (osMkdir path) MadeDirectory "create outer session mountpoint" ;
  λ s, match inspectPrivateDirectoryIdentity path s with
       | (Ok i, s) => (do _ := note (Underlay (Some i)) ; ret i) s
       | (Err e, s) => (do _ := note (Underlay None) ; do ok := quiet (osRemove path) ; do _ := note (DroppedDirectory ok) ; throw e) s
       end.

(** [CreateOpaqueFile] of either scratch. *)
Definition createOpaque (mounted destroyed : bool) (mount : string) (limit : Z) (name : string) (sizeBytes : Z) : M string :=
  if destroyed || negb mounted then throw "scratch is not mounted"
  else if negb (bool_decide (name ∈ opaqueNames)) || (sizeBytes =? 0)%Z || (limit <? sizeBytes)%Z then throw "invalid opaque session file request"
  else
    let path := joinPath [mount; name] in
    do _ := must (createExclusive path) "create opaque session file" ;
    do ok := quiet (truncateFile path sizeBytes) ;
    if negb ok then do _ := quiet (osRemove path) ; throw "size opaque session file" else ret path.

End Calls.

#[local] Notation "'do' x := m ; k" := (bind m (λ x, k)) (at level 100, x binder, m at level 99, right associativity).

Section Luks.
Context (euid egid : Z) {W : Type} `{!StorageHost W}.

#[local] Abbreviation M := (M (W := W) (Hd := LUKSHandle)).

(** [validate]; the runner, mounter and inspector are given. *)
Definition validate (m : LUKSManager) : M unit :=
  if negb (forallb cleanAbs [lm_ScratchRoot m; lm_RuntimeRoot m; tl_Losetup (lm_Tools m); tl_Cryptsetup (lm_Tools m); tl_MkfsExt4 (lm_Tools m)])
  then throw "must be a clean absolute path"
  else do _ := verifyPrivateDirectory euid (lm_ScratchRoot m) ; verifyNoBackupMarker euid egid (lm_ScratchRoot m).

Definition set_cipher (i : imageFileIdentity) (h : LUKSHandle) : LUKSHandle :=
  mkHandle (lh_ciphertext h) i (lh_scratchParent h) (lh_loop h) (lh_mapping h) (lh_mount h) (lh_underlay h) (lh_mountedAt h)
    (lh_mountParent h) (lh_key h) (lh_mounted h) (lh_opened h) (lh_attached h) (lh_destroyed h).
Definition set_key (b : bool) (h : LUKSHandle) : LUKSHandle :=
  mkHandle (lh_ciphertext h) (lh_cipherIdentity h) (lh_scratchParent h) (lh_loop h) (lh_mapping h) (lh_mount h) (lh_underlay h) (lh_mountedAt h)
    (lh_mountParent h) b (lh_mounted h) (lh_opened h) (lh_attached h) (lh_destroyed h).
Definition set_loop (loop : string) (h : LUKSHandle) : LUKSHandle :=
  mkHandle (lh_ciphertext h) (lh_cipherIdentity h) (lh_scratchParent h) loop (lh_mapping h) (lh_mount h) (lh_underlay h) (lh_mountedAt h)
    (lh_mountParent h) (lh_key h) (lh_mounted h) (lh_opened h) (lh_attached h) (lh_destroyed h).
Definition set_attached (b : bool) (h : LUKSHandle) : LUKSHandle :=
  mkHandle (lh_ciphertext h) (lh_cipherIdentity h) (lh_scratchParent h) (lh_loop h) (lh_mapping h) (lh_mount h) (lh_underlay h) (lh_mountedAt h)
    (lh_mountParent h) (lh_key h) (lh_mounted h) (lh_opened h) b (lh_destroyed h).
Definition set_opened (b : bool) (h : LUKSHandle) : LUKSHandle :=
  mkHandle (lh_ciphertext h) (lh_cipherIdentity h) (lh_scratchParent h) (lh_loop h) (lh_mapping h) (lh_mount h) (lh_underlay h) (lh_mountedAt h)
    (lh_mountParent h) (lh_key h) (lh_mounted h) b (lh_attached h) (lh_destroyed h).
Definition set_mounted (b : bool) (h : LUKSHandle) : LUKSHandle :=
  mkHandle (lh_ciphertext h) (lh_cipherIdentity h) (lh_scratchParent h) (lh_loop h) (lh_mapping h) (lh_mount h) (lh_underlay h) (lh_mountedAt h)
    (lh_mountParent h) (lh_key h) b (lh_opened h) (lh_attached h) (lh_destroyed h).
Definition set_mountedAt (i : pathIdentity) (h : LUKSHandle) : LUKSHandle :=
  mkHandle (lh_ciphertext h) (lh_cipherIdentity h) (lh_scratchParent h) (lh_loop h) (lh_mapping h) (lh_mount h) (lh_underlay h) i
    (lh_mountParent h) (lh_key h) (lh_mounted h) (lh_opened h) (lh_attached h) (lh_destroyed h).
Definition set_destroyed (h : LUKSHandle) : LUKSHandle :=
  mkHandle (lh_ciphertext h) (lh_cipherIdentity h) (lh_scratchParent h) (lh_loop h) (lh_mapping h) (lh_mount h) (lh_underlay h) (lh_mountedAt h)
    (lh_mountParent h) (lh_key h) (lh_mounted h) (lh_opened h) (lh_attached h) true.

(** The mounted file system goes first. *)
Definition destroyMount : M unit :=
  do h := handle ;
  if lh_mounted h then
    do current := refusing (inspectPrivateDirectoryIdentity euid egid (lh_mount h)) "encrypted scratch mount identity changed before unmount" ;
    do _ := note (SawDirectory current) ;
    if negb (sameObject current (lh_mountedAt h)) then throw "encrypted scratch mount identity changed before unmount"
    else
      do _ := mustNote (unmountAt (lh_mount h)) TriedUnmount "unmount outer encrypted session filesystem" ;
      do _ := update (set_mounted false) ;
      do under := refusing (inspectPrivateDirectoryIdentity euid egid (lh_mount h)) "encrypted scratch underlay identity changed after unmount" ;
      if sameObject under (lh_underlay h) then ret tt else throw "encrypted scratch underlay identity changed after unmount"
  else ret tt.

Definition destroyMapper (m : LUKSManager) : M unit :=
  do h := handle ;
  if lh_opened h then
    do _ := mustNote (verifyMapperBacking (lh_mapping h) (lh_loop h)) VerifiedMapper "device-mapper backing" ;
    do r := quiet (runTool (tl_Cryptsetup (lm_Tools m)) ["close"; lh_mapping h]) ;
    do _ := note (TriedClose (match r with Some _ => true | None => false end)) ;
    match r with None => throw "external command failed" | Some _ => update (set_opened false) end
  else ret tt.

Definition destroyLoop (m : LUKSManager) : M unit :=
  do h := handle ;
  if lh_attached h then
    do _ := mustNote (verifyLoopBacking (lh_loop h) (lh_ciphertext h)) VerifiedLoop "loop backing" ;
    do r := quiet (runTool (tl_Losetup (lm_Tools m)) ["--detach"; lh_loop h]) ;
    do _ := note (TriedDetach (match r with Some _ => true | None => false end)) ;
    match r with None => throw "external command failed" | Some _ => update (set_attached false) end
  else ret tt.

Definition destroyKey : M unit :=
  do h := handle ;
  if lh_key h then do _ := note DestroyedKey ; update (set_key false) else ret tt.

Definition Destroy (m : LUKSManager) : M unit :=
  do h := handle ;
  if lh_destroyed h then ret tt
  else
    do _ := destroyMount ;
    do _ := destroyMapper m ;
    do _ := destroyLoop m ;
    do _ := destroyKey ;
    do h := handle ;
    do _ := refusing (removeOwnedImage (lh_ciphertext h) (lh_scratchParent h) (lh_cipherIdentity h)) "remove encrypted scratch ciphertext" ;
    do _ := refusing (removeOwnedDirectory (lh_mount h) (lh_mountParent h) (lh_underlay h)) "remove outer session mountpoint" ;
    update set_destroyed.

(** A tool with the key on its third descriptor. *)
Definition cryptsetupWithKey (m : LUKSManager) (args : list string) : M unit :=
  do _ := must dupKey "duplicate key" ;
  do r := quiet (runTool (tl_Cryptsetup (lm_Tools m)) args) ;
  match r with Some _ => ret tt | None => throw "external command failed" end.

(** The identity of the ciphertext, remembered in the handle. *)
Definition rememberCipher (i : imageFileIdentity) : M unit :=
  do _ := note (FileIdentity i) ; update (set_cipher i).

Definition makeCiphertext (sizeBytes : Z) : M unit :=
  do h := handle ;
  let path := lh_ciphertext h in
  do _ := mustNote (createExclusive path) MadeFile "create encrypted scratch ciphertext" ;
  do i := ownedFileIdentity euid egid path true ;
  do _ := rememberCipher i ;
  do ok := quiet (truncateFile path sizeBytes) ;
  if negb ok then
    λ s, match ownedFileIdentity euid egid path true s with
         | (Ok i, s) => (do _ := rememberCipher i ; throw "size encrypted scratch ciphertext") s
         | (Err _, s) => (Err "size encrypted scratch ciphertext", s)
         end
  else
    do i := ownedFileIdentity euid egid path false ;
    do _ := rememberCipher i ;
    must (closeFile path) "close encrypted scratch ciphertext".

(** What is rolled back when it fails. *)
Definition createBody (m : LUKSManager) (sizeBytes : Z) : M unit :=
  do _ := makeCiphertext sizeBytes ;
  do _ := must randomKey "generate encrypted scratch key" ;
  do _ := note MadeKey ;
  do _ := update (set_key true) ;
  do h := handle ;
  do out := quiet (runTool (tl_Losetup (lm_Tools m)) ["--find"; "--show"; lh_ciphertext h]) ;
  match out with
  | None => throw "external command failed"
  | Some out =>
      let loop := TrimSpace out in
      do _ := note (AttachedLoop loop) ;
      do _ := update (set_loop loop) ;
      if negb (loopPattern loop) then throw "losetup returned an invalid loop device"
      else
        do _ := update (set_attached true) ;
        do _ := must (verifyLoopBacking loop (lh_ciphertext h)) "loop backing" ;
        do _ := cryptsetupWithKey m ["luksFormat"; "--type"; "luks2"; "--batch-mode"; "--pbkdf"; "argon2id"; "--key-file"; "/proc/self/fd/3"; loop] ;
        do _ := cryptsetupWithKey m ["open"; "--type"; "luks2"; "--key-file"; "/proc/self/fd/3"; loop; lh_mapping h] ;
        do _ := note OpenedMapper ;
        do _ := update (set_opened true) ;
        do _ := must (verifyMapperBacking (lh_mapping h) loop) "device-mapper backing" ;
        let mapperPath := joinPath ["/dev/mapper"; lh_mapping h] in
        do r := quiet (runTool (tl_MkfsExt4 (lm_Tools m)) ["-q"; "-E"; "lazy_itable_init=0,lazy_journal_init=0"; mapperPath]) ;
        match r with
        | None => throw "external command failed"
        | Some _ =>
            do _ := must (mountAt mapperPath (lh_mount h) "ext4" "errors=remount-ro") "mount outer encrypted session filesystem" ;
            do _ := note Mounted ;
            do _ := update (set_mounted true) ;
            do _ := must (chmodPath (lh_mount h)) "restrict outer encrypted filesystem root failed" ;
            do mountedAt := inspectPrivateDirectoryIdentity euid egid (lh_mount h) ;
            do _ := note (MountIdentity mountedAt) ;
            do _ := update (set_mountedAt mountedAt) ;
            do done := quiet contextDone ;
            if done : bool then throw "context done" else ret tt
        end
  end.

(** Whether a failed [Create] also returns the handle, whose rollback failed. *)
Definition withRollback (m : LUKSManager) (body : M unit) : St → result (string * bool) unit * St := λ s,
  match body s with
  | (Ok _, s) => (Ok tt, s)
  | (Err e, s) =>
      match Destroy m s with
      | (Ok _, s) => (Err (e, false), s)
      | (Err c, s) => (Err (e +:+ " rollback encrypted scratch: " +:+ c, true), s)
      end
  end.

(** The checks before anything is made; they give the identities of the parents. *)
Definition createChecks (m : LUKSManager) (sessionID : string) (sizeBytes : Z) : M (string * pathIdentity * pathIdentity) :=
  if negb (storageSessionPattern sessionID) then throw "invalid internal storage session ID"
  else if (sizeBytes <? 1073741824)%Z || (17592186044416 <? sizeBytes)%Z then throw "encrypted scratch size must be between 1 GiB and 16 TiB"
  else
    do _ := validate m ;
    let mountPath := joinPath [lm_RuntimeRoot m; sessionID; "mount"] in
    do _ := verifyPrivateDirectory euid (Dir mountPath) ;
    do mountParent := inspectPrivateDirectoryIdentity euid egid (Dir mountPath) ;
    do scratchParent := inspectPrivateDirectoryIdentity euid egid (lm_ScratchRoot m) ;
    ret (mountPath, mountParent, scratchParent).

Definition Create (m : LUKSManager) (sessionID : string) (sizeBytes : Z) : St → result (string * bool) unit * St := λ s,
  match (do found := createChecks m sessionID sizeBytes ;
         let '(mountPath, mountParent, scratchParent) := found in
         do underlay := makeMountPoint euid egid mountPath ;
         update (λ _, mkHandle (joinPath [lm_ScratchRoot m; sessionID +:+ ".luks"]) noImage scratchParent "" sessionID mountPath underlay noPath
                        mountParent false false false false false)) s with
  | (Err e, s) => (Err (e, false), s)
  | (Ok _, s) => withRollback m (createBody m sizeBytes) s
  end.

Definition CreateOpaqueFile (name : string) (sizeBytes : Z) : M string :=
  do h := handle ; createOpaque (lh_mounted h) (lh_destroyed h) (lh_mount h) 17592186044416 name sizeBytes.

Definition Audit : M unit :=
  do h := handle ;
  if negb (lh_destroyed h) || lh_mounted h || lh_opened h || lh_attached h || lh_key h then throw "encrypted scratch cleanup state is incomplete"
  else
    do _ := must (lstatAbsent (lh_ciphertext h)) "encrypted scratch resource remains present" ;
    do _ := must (lstatAbsent (lh_mount h)) "encrypted scratch resource remains present" ;
    do exists_ := quiet (mapperExists (lh_mapping h)) ;
    if negb (bool_decide (exists_ = Some false)) then throw "encrypted scratch mapper state could not be proven absent"
    else if loopPattern (lh_loop h) then
      do attached := quiet (loopStillBacks (lh_loop h) (lh_ciphertext h)) ;
      match attached with
      | None => throw "encrypted scratch loop state could not be audited"
      | Some true => throw "encrypted scratch loop device remains attached"
      | Some false => ret tt
      end
    else ret tt.

End Luks.

(** ** What is held, and on what evidence it is released *)

Inductive evidence := NoEvidence | SeenPath (i : pathIdentity) | MapperSeen | LoopSeen | FileSeen (s : Stat) | DirectorySeen (s : Stat).

Record Watch := mkWatch {
  w_directory : bool;
  w_underlay : option pathIdentity;
  w_file : bool;
  w_fileId : option imageFileIdentity;
  w_key : bool;
  w_loop : bool;
  w_lost : bool;                      (* a loop device whose name could not be read *)
  w_mapper : bool;
  w_mount : bool;
  w_mountId : option pathIdentity;
  w_last : evidence;
  w_bad : bool
}.

Definition nothing : Watch := mkWatch false None false None false false false false false None NoEvidence false.

Definition released (ok held : bool) : bool := if ok then false else held.

(** [w_bad]: an unmount without having just seen the identity the mount had; a
    mapping closed while mounted or without its backing just verified; a loop
    device detached while mapped or unverified; the key destroyed while mapped;
    the ciphertext removed while attached, or a file that is not the one made;
    the mount point removed while mounted, or another directory. *)
Definition observe (w : Watch) (c : scratch_call) : Watch :=
  match c, w with
  | MadeDirectory ok, mkWatch d u f fi k l lo mp mo mi e b => mkWatch ok u f fi k l lo mp mo mi NoEvidence b
  | Underlay i, mkWatch d u f fi k l lo mp mo mi e b => mkWatch d i f fi k l lo mp mo mi NoEvidence b
  | DroppedDirectory ok, mkWatch d u f fi k l lo mp mo mi e b => mkWatch (released ok d) u f fi k l lo mp mo mi NoEvidence b
  | MadeFile ok, mkWatch d u f fi k l lo mp mo mi e b => mkWatch d u ok fi k l lo mp mo mi NoEvidence b
  | FileIdentity i, mkWatch d u f fi k l lo mp mo mi e b => mkWatch d u f (Some i) k l lo mp mo mi NoEvidence b
  | MadeKey, mkWatch d u f fi k l lo mp mo mi e b => mkWatch d u f fi true l lo mp mo mi NoEvidence b
  | AttachedLoop loop, mkWatch d u f fi k l lo mp mo mi e b =>
      if loopPattern loop then mkWatch d u f fi k true lo mp mo mi NoEvidence b else mkWatch d u f fi k l true mp mo mi NoEvidence b
  | OpenedMapper, mkWatch d u f fi k l lo mp mo mi e b => mkWatch d u f fi k l lo true mo mi NoEvidence b
  | Mounted, mkWatch d u f fi k l lo mp mo mi e b => mkWatch d u f fi k l lo mp true mi NoEvidence b
  | MountIdentity i, mkWatch d u f fi k l lo mp mo mi e b => mkWatch d u f fi k l lo mp mo (Some i) NoEvidence b
  | SawDirectory i, mkWatch d u f fi k l lo mp mo mi e b => mkWatch d u f fi k l lo mp mo mi (SeenPath i) b
  | VerifiedMapper ok, mkWatch d u f fi k l lo mp mo mi e b => mkWatch d u f fi k l lo mp mo mi (if ok then MapperSeen else NoEvidence) b
  | VerifiedLoop ok, mkWatch d u f fi k l lo mp mo mi e b => mkWatch d u f fi k l lo mp mo mi (if ok then LoopSeen else NoEvidence) b
  | TriedUnmount ok, mkWatch d u f fi k l lo mp mo mi e b =>
      mkWatch d u f fi k l lo mp (released ok mo) mi NoEvidence
        (b || negb match e with SeenPath i => bool_decide (mi = Some i) | _ => false end)
  | UndidMount ok, mkWatch d u f fi k l lo mp mo mi e b =>
      mkWatch d u f fi k l lo mp (released ok mo) mi NoEvidence (b || negb (bool_decide (mi = None)))
  | TriedClose ok, mkWatch d u f fi k l lo mp mo mi e b =>
      mkWatch d u f fi k l lo (released ok mp) mo mi NoEvidence (b || mo || negb match e with MapperSeen => true | _ => false end)
  | TriedDetach ok, mkWatch d u f fi k l lo mp mo mi e b =>
      mkWatch d u f fi k (released ok l) lo mp mo mi NoEvidence (b || mp || negb match e with LoopSeen => true | _ => false end)
  | DestroyedKey, mkWatch d u f fi k l lo mp mo mi e b => mkWatch d u f fi false l lo mp mo mi NoEvidence (b || mp)
  | FoundFile StatAbsent, mkWatch d u f fi k l lo mp mo mi e b => mkWatch d u false fi k l lo mp mo mi NoEvidence b
  | FoundFile StatFailed, mkWatch d u f fi k l lo mp mo mi e b => mkWatch d u f fi k l lo mp mo mi NoEvidence b
  | FoundFile (StatFound s), mkWatch d u f fi k l lo mp mo mi e b => mkWatch d u f fi k l lo mp mo mi (FileSeen s) b
  | TriedUnlink ok, mkWatch d u f fi k l lo mp mo mi e b =>
      mkWatch d u (released ok f) fi k l lo mp mo mi NoEvidence
        (b || l || negb match e with FileSeen s => bool_decide (fi = Some (imageOf s)) | _ => false end)
  | FoundDirectory StatAbsent, mkWatch d u f fi k l lo mp mo mi e b => mkWatch false u f fi k l lo mp mo mi NoEvidence b
  | FoundDirectory StatFailed, mkWatch d u f fi k l lo mp mo mi e b => mkWatch d u f fi k l lo mp mo mi NoEvidence b
  | FoundDirectory (StatFound s), mkWatch d u f fi k l lo mp mo mi e b => mkWatch d u f fi k l lo mp mo mi (DirectorySeen s) b
  | TriedRmdir ok, mkWatch d u f fi k l lo mp mo mi e b =>
      mkWatch (released ok d) u f fi k l lo mp mo mi NoEvidence
        (b || mo || negb match e with DirectorySeen s => bool_decide (u = Some (pathOf s)) | _ => false end)
  end.

Definition watch (l : list scratch_call) : Watch := foldl observe nothing l.

(** Only the mount point is held. *)
Definition fresh (u : pathIdentity) : Watch := mkWatch true (Some u) false None false false false false false None NoEvidence false.

(** ** Rules *)

Section Rules.
Context {W Hd : Type} `{!StorageHost W}.

Implicit Types (P : Hd → Watch → Prop).

(** From [P], [m] ends in [Q], or in [R] with an error. *)
Definition triple {A} P (m : M (W := W) A) (Q : A → Hd → Watch → Prop) (R : Hd → Watch → Prop) : Prop :=
  ∀ s, P (sc_handle s) (watch (sc_log s)) →
    match m s with
    | (Ok a, s') => Q a (sc_handle s') (watch (sc_log s'))
    | (Err _, s') => R (sc_handle s') (watch (sc_log s'))
    end.

Definition At (h0 : Hd) (w0 : Watch) (h : Hd) (w : Watch) : Prop := h = h0 ∧ w = w0.

Lemma sr_bind {A B} P Q R S (m : M A) (k : A → M (W := W) (Hd := Hd) B) : triple P m Q R → (∀ a, triple (Q a) (k a) S R) → triple P (bind m k) S R.
Proof. intros Hm Hk s Hs. unfold bind. specialize (Hm s Hs). destruct (m s) as [[a|e] s1]; [by apply Hk|done]. Qed.

Lemma sr_pre {A} P (P' : Hd → Watch → Prop) (m : M A) Q R : (∀ h w, P h w → P' h w) → triple P' m Q R → triple P m Q R.
Proof. intros H Hm s Hs. by apply Hm, H. Qed.

Lemma sr_ret {A} P Q R (a : A) : (∀ h w, P h w → Q a h w) → triple P (ret a) Q R.
Proof. intros H s Hs. by apply H. Qed.

Lemma sr_throw {A} P (Q : A → Hd → Watch → Prop) (R : Hd → Watch → Prop) e : (∀ h w, P h w → R h w) → triple P (throw e) Q R.
Proof. intros H s Hs. by apply H. Qed.

Lemma sr_quiet {A} P (f : W → A * W) R : triple P (quiet f) (λ _, P) R.
Proof. intros s Hs. unfold quiet. by destruct (f _). Qed.

Lemma sr_handle {A} h0 w0 (k : Hd → M A) Q R : triple (At h0 w0) (k h0) Q R → triple (At h0 w0) (bind handle k) Q R.
Proof. intros H s Hs. unfold bind, handle. pose proof Hs as [-> _]. by apply H. Qed.

Lemma sr_update {A} h0 w0 f (k : unit → M A) Q R : triple (At (f h0) w0) (k tt) Q R → triple (At h0 w0) (bind (update f) k) Q R.
Proof. intros H s [Hs Hl]. unfold bind, update. apply H. split; [cbn; by rewrite Hs|done]. Qed.

Lemma sr_update_last h0 w0 f (Q : unit → Hd → Watch → Prop) R : Q tt (f h0) w0 → triple (At h0 w0) (update f) Q R.
Proof. intros H s [Hs Hl]. unfold update. cbn [sc_handle sc_log]. by rewrite Hs, Hl. Qed.

Lemma sr_note {A} h0 w0 c (k : unit → M A) Q R : triple (At h0 (observe w0 c)) (k tt) Q R → triple (At h0 w0) (bind (note c) k) Q R.
Proof. intros H s [Hs Hl]. unfold bind, note. apply H. split; [done|]. cbn. unfold watch in *. by rewrite foldl_app, Hl. Qed.

Lemma sr_must {A} h0 w0 f e (k : unit → M A) Q (R : Hd → Watch → Prop) :
  R h0 w0 → triple (At h0 w0) (k tt) Q R → triple (At h0 w0) (bind (must f e) k) Q R.
Proof.
  intros HR H. apply (sr_bind _ (λ _, At h0 w0)); [|by intros []]. eapply sr_bind; [apply sr_quiet|].
  intros []; [by apply sr_ret|]. apply sr_throw. by intros h w [-> ->].
Qed.

Lemma sr_mustNote {A} h0 w0 f record e (k : unit → M A) Q (R : Hd → Watch → Prop) :
  R h0 (observe w0 (record false)) → triple (At h0 (observe w0 (record true))) (k tt) Q R →
  triple (At h0 w0) (bind (mustNote f record e) k) Q R.
Proof.
  intros HR H. apply (sr_bind _ (λ _, At h0 (observe w0 (record true)))); [|by intros []]. eapply sr_bind; [apply sr_quiet|].
  intros []; apply sr_note; [by apply sr_ret|]. apply sr_throw. by intros h w [-> ->].
Qed.

(** A run of something that leaves the handle and the calls alone. *)
Definition inert {A} (m : M (W := W) (Hd := Hd) A) (good : A → Prop) : Prop :=
  ∀ s, match m s with
       | (Ok a, s') => good a ∧ sc_handle s' = sc_handle s ∧ sc_log s' = sc_log s
       | (Err _, s') => sc_handle s' = sc_handle s ∧ sc_log s' = sc_log s
       end.

Lemma sr_inert {A B} h0 w0 (m : M A) good (k : A → M B) Q (R : Hd → Watch → Prop) :
  inert m good → R h0 w0 → (∀ a, good a → triple (At h0 w0) (k a) Q R) → triple (At h0 w0) (bind m k) Q R.
Proof.
  intros Hm HR Hk s [Hs Hl]. unfold bind. specialize (Hm s). destruct (m s) as [[a|e] s1].
  - destruct Hm as (Ha & Hh & Hg). apply Hk; [done|]. split; congruence.
  - destruct Hm as (Hh & Hg). rewrite Hh, Hg, Hs. by rewrite Hl.
Qed.

Lemma inert_refusing {A} (m : M A) good e : inert m good → inert (refusing m e) good.
Proof. intros H s. unfold refusing. specialize (H s). by destruct (m s) as [[a|x] s1]. Qed.

Lemma inspect_inert euid egid path :
  inert (inspectPrivateDirectoryIdentity euid egid path) (λ i, fileType (pi_mode i) = S_IFDIR).
Proof.
  intros s. unfold inspectPrivateDirectoryIdentity. destruct (negb _); [done|]. unfold bind, quiet. destruct (openDirectory path (sc_world s)) as [[st|] w]; [|done].
  destruct (negb (fileType _ =? _)%Z) eqn:Ht; [done|]. cbn [orb]. destruct (_ || _); [done|]. cbn. split; [|done]. apply negb_false_iff in Ht. lia.
Qed.

Lemma owned_inert euid egid path allowEmpty : inert (ownedFileIdentity euid egid path allowEmpty) (λ _, True).
Proof.
  intros s. unfold ownedFileIdentity, bind, quiet. destruct (fstatFile path (sc_world s)) as [[st|] w]; [|done]. by destruct (_ || _).
Qed.

Lemma sr_fix {A} P (m : M A) Q R : (∀ h0 w0, P h0 w0 → triple (At h0 w0) m Q R) → triple P m Q R.
Proof. intros H s Hs. by apply (H _ _ Hs). Qed.

Lemma sr_refusing {A} P (m : M A) Q R e : triple P m Q R → triple P (refusing m e) Q R.
Proof. intros H s Hs. unfold refusing. specialize (H s Hs). by destruct (m s) as [[a|x] s1]. Qed.

(** Like [w0], but for the mount point, the last evidence and a rule broken while mounted. *)
Record OffDirectory (w0 w : Watch) : Prop := {
  od_underlay : w_underlay w = w_underlay w0;
  od_file : w_file w = w_file w0;
  od_fileId : w_fileId w = w_fileId w0;
  od_key : w_key w = w_key w0;
  od_loop : w_loop w = w_loop w0;
  od_mapper : w_mapper w = w_mapper w0;
  od_mount : w_mount w = w_mount w0;
  od_mountId : w_mountId w = w_mountId w0;
  od_bad : w_bad w = true → w_bad w0 = true ∨ w_mount w0 = true
}.

Lemma off_bad w0 w : OffDirectory w0 w → w_bad w0 = false → w_mount w0 = false → w_bad w = false.
Proof. intros H Hb Hm. destruct (w_bad w) eqn:E; [|done]. destruct (od_bad _ _ H E); congruence. Qed.

Lemma removeDirectory_ok h0 w0 path parent target :
  w_underlay w0 = Some target →
  triple (At h0 w0) (removeOwnedDirectory path parent target)
    (λ _ h w, h = h0 ∧ OffDirectory w0 w ∧ w_directory w = false) (λ h w, h = h0 ∧ OffDirectory w0 w).
Proof.
  intros Hu. assert (Hsame : OffDirectory w0 w0) by (constructor; auto).
  eapply sr_bind; [apply sr_quiet|]. intros [p|]; cbn beta iota; [|apply sr_throw; by intros h w [-> ->]].
  destruct (negb _); [apply sr_throw; by intros h w [-> ->]|]. eapply sr_bind; [apply sr_quiet|]. intros r. cbn beta. apply sr_note.
  destruct w0. cbn in Hu. subst. destruct r as [st| |]; cbn.
  - destruct (sameStat _ st) eqn:Hs; cbn [negb orb]; [|apply sr_throw; intros h w [-> ->]; split; [done|constructor; auto]].
    apply bool_decide_eq_true in Hs. destruct (negb _); [apply sr_throw; intros h w [-> ->]; split; [done|constructor; auto]|].
    eapply sr_bind; [apply sr_quiet|]. intros ok. cbn beta. apply sr_note. cbn. rewrite bool_decide_eq_true_2 by (by rewrite Hs). rewrite orb_false_r.
    destruct ok; [apply sr_ret|apply sr_throw]; intros h w [-> ->]; (split; [done|]); [split; [|done]|]; constructor; cbn; auto; by intros ?%orb_true_iff.
  - apply sr_ret. intros h w [-> ->]. split; [done|]. split; [constructor; auto|done].
  - apply sr_throw. intros h w [-> ->]. split; [done|constructor; auto].
Qed.

Lemma sr_post {A} P (m : M A) (Q Q' : A → Hd → Watch → Prop) (R R' : Hd → Watch → Prop) :
  triple P m Q R → (∀ a h w, Q a h w → Q' a h w) → (∀ h w, R h w → R' h w) → triple P m Q' R'.
Proof. intros H HQ HR s Hs. specialize (H s Hs). destruct (m s) as [[a|e] s1]; auto. Qed.

Lemma not_noPath i : fileType (pi_mode i) = S_IFDIR → i ≠ noPath.
Proof. by intros H ->. Qed.

Lemma inert_bind {A B} (m : M A) (k : A → M (W := W) (Hd := Hd) B) good good' :
  inert m good → (∀ a, good a → inert (k a) good') → inert (bind m k) good'.
Proof.
  intros Hm Hk s. unfold bind. specialize (Hm s). destruct (m s) as [[a|e] s1]; [|done]. destruct Hm as (Ha & Hh & Hl).
  specialize (Hk a Ha s1). destruct (k a s1) as [[b|e] s2]; [destruct Hk as (? & ? & ?); split_and!; [done|congruence..]|].
  destruct Hk as (? & ?). split; congruence.
Qed.

Lemma inert_ret {A} (a : A) (good : A → Prop) : good a → inert (ret a) good.
Proof. by intros H s. Qed.
Lemma inert_throw {A} e (good : A → Prop) : inert (A := A) (throw e) good.
Proof. by intros s. Qed.
Lemma inert_quiet {A} (f : W → A * W) : inert (quiet f) (λ _, True).
Proof. intros s. unfold quiet. by destruct (f _). Qed.

End Rules.

(** ** Loop devices gone astray *)

Definition straysLoop (c : scratch_call) : bool := match c with AttachedLoop loop => negb (loopPattern loop) | _ => false end.

Lemma observe_lost w c : w_lost (observe w c) = w_lost w || straysLoop c.
Proof.
  destruct w, c; cbn; rewrite ?orb_false_r; try done; try (by case_match).
  destruct (loopPattern loop); cbn; [by rewrite orb_false_r|by rewrite orb_true_r].
Qed.

Lemma watch_lost l : w_lost (watch l) = existsb straysLoop l.
Proof.
  induction l as [|c l IH] using rev_ind; [done|]. unfold watch in *. rewrite foldl_app. cbn. rewrite observe_lost, IH, existsb_app.
  cbn. by rewrite orb_false_r.
Qed.

Section Stray.
Context {W Hd : Type} `{!StorageHost W}.

(** [m] attaches no loop device under another name. *)
Definition strayless {A} (m : M (W := W) (Hd := Hd) A) : Prop := ∀ s, w_lost (watch (sc_log (m s).2)) = w_lost (watch (sc_log s)).

Lemma strayless_bind {A B} (m : M A) (k : A → M B) : strayless m → (∀ a, strayless (k a)) → strayless (bind m k).
Proof. intros Hm Hk s. unfold bind. specialize (Hm s). destruct (m s) as [[a|e] s1]; cbn in *; [by rewrite Hk|done]. Qed.

Lemma strayless_ret {A} (a : A) : strayless (ret a).
Proof. done. Qed.

Lemma strayless_throw {A} e : strayless (throw (A := A) e).
Proof. done. Qed.

Lemma strayless_quiet {A} (f : W → A * W) : strayless (quiet f).
Proof. intros s. unfold quiet. by destruct (f _). Qed.

Lemma strayless_note c : straysLoop c = false → strayless (note c).
Proof. intros Hc s. unfold note. cbn. rewrite !watch_lost, existsb_app. cbn. by rewrite Hc, !orb_false_r. Qed.

Lemma strayless_handle : strayless handle.
Proof. done. Qed.

Lemma strayless_update f : strayless (update f).
Proof. done. Qed.

Lemma strayless_refusing {A} (m : M A) e : strayless m → strayless (refusing m e).
Proof. intros Hm s. unfold refusing. specialize (Hm s). by destruct (m s) as [[a|c] s1]. Qed.

Lemma strayless_inert {A} (m : M A) good : inert m good → strayless m.
Proof. intros Hm s. specialize (Hm s). destruct (m s) as [[a|e] s']; cbn; [destruct Hm as (_ & _ & ->)|destruct Hm as (_ & ->)]; done. Qed.

End Stray.

Ltac straylessly := repeat first
  [ apply strayless_ret | apply strayless_throw | apply strayless_quiet | apply strayless_handle | apply strayless_update
  | apply strayless_note; by repeat case_match | apply strayless_refusing | apply strayless_bind; [|intros ?] | case_match ].

Ltac inertly := repeat first
  [ apply inert_ret; done | apply inert_throw | eapply inert_bind; [apply inert_quiet|intros ? _] | case_match ].

Section Inert.
Context (euid egid : Z) {W Hd : Type} `{!StorageHost W}.

#[local] Abbreviation M := (M (W := W) (Hd := Hd)).

Lemma verify_inert path : inert (Hd := Hd) (verifyPrivateDirectory euid path) (λ _, True).
Proof. unfold verifyPrivateDirectory. inertly. Qed.

Lemma inert_handle {A} (k : Hd → M A) good : (∀ h, inert (k h) good) → inert (bind handle k) good.
Proof. intros H s. apply (H (sc_handle s) s). Qed.

Lemma must_inert f e : inert (W := W) (Hd := Hd) (must f e) (λ _, True).
Proof. unfold must. inertly. Qed.

Lemma opaque_inert mounted destroyed mount limit name size : inert (W := W) (Hd := Hd) (createOpaque mounted destroyed mount limit name size) (λ _, True).
Proof. unfold createOpaque. inertly. eapply inert_bind; [apply must_inert|intros [] _]. inertly. Qed.

(** Nothing is held, up to a loop device whose name could not be read. *)
Definition givenBack (w : Watch) : Prop :=
  w_bad w = false ∧ w_mount w = false ∧ w_mapper w = false ∧ w_loop w = false ∧ w_key w = false ∧ w_file w = false ∧ w_directory w = false.

(** Nothing is held. *)
Definition clear (w : Watch) : Prop := givenBack w ∧ w_lost w = false.

(** A loop device was attached under a name that is not one of a loop device. *)
Definition astray (l : list scratch_call) : Prop := ∃ loop, AttachedLoop loop ∈ l ∧ loopPattern loop = false.

(** The mount point was made, could not be inspected, and could not be removed. *)
Definition unlooked (l : list scratch_call) : Prop := l = [MadeDirectory true; Underlay None; DroppedDirectory false].

Lemma makeMountPoint_ok path (s : St (W := W) (Hd := Hd)) :
  sc_log s = [] →
  match makeMountPoint euid egid path s with
  | (Ok u, s') => sc_log s' = [MadeDirectory true; Underlay (Some u)]
  | (Err _, s') => givenBack (watch (sc_log s')) ∨ unlooked (sc_log s')
  end.
Proof.
  intros Hl. unfold makeMountPoint, mustNote, bind, quiet, note, ret, throw. destruct (osMkdir path (sc_world s)) as [[] w1]; cbn; rewrite Hl; [|by left].
  match goal with |- context [inspectPrivateDirectoryIdentity euid egid path ?s0] => pose proof (inspect_inert (Hd := Hd) euid egid path s0) as Hi;
    destruct (inspectPrivateDirectoryIdentity euid egid path s0) as [[u|e] s2] end; cbn in Hi |- *.
  - destruct Hi as (_ & _ & Hg). by rewrite Hg.
  - destruct Hi as [_ Hg]. destruct (osRemove path (sc_world s2)) as [[] w2]; cbn; rewrite Hg; [by left|by right].
Qed.

End Inert.

Section LuksProofs.
Context (euid egid : Z) {W : Type} `{!StorageHost W}.

(** A file has a type. *)
Context (modes_typed : ∀ path (w w' : W) s, statChild path w = (StatFound s, w') → st_Mode s ≠ 0%Z).

#[local] Abbreviation M := (M (W := W) (Hd := LUKSHandle)).
#[local] Abbreviation triple := (triple (W := W) (Hd := LUKSHandle)).

(** The handle knows what is held. *)
Record Knows (h : LUKSHandle) (w : Watch) : Prop := {
  kn_bad : w_bad w = false;
  kn_mounted : lh_mounted h = w_mount w;
  kn_opened : lh_opened h = w_mapper w;
  kn_attached : lh_attached h = w_loop w;
  kn_key : lh_key h = w_key w;
  kn_underlay : w_underlay w = Some (lh_underlay h);
  kn_cipher : lh_cipherIdentity h = default noImage (w_fileId w);
  kn_mountedAt : lh_mountedAt h = default noPath (w_mountId w);
  kn_alive : lh_destroyed h = false
}.

Definition Gone (h : LUKSHandle) (w : Watch) : Prop :=
  lh_destroyed h = true ∧ lh_mounted h = false ∧ lh_opened h = false ∧ lh_attached h = false ∧ lh_key h = false ∧ givenBack w.

Definition Inv (h : LUKSHandle) (w : Watch) : Prop := Knows h w ∨ Gone h w.

Ltac knows := constructor; cbn in *; subst; cbn; rewrite ?orb_false_r; try done.
Ltac fixing h0 w0 HK := apply sr_fix; intros h0 w0 HK.

Lemma destroyMount_ok : triple Knows (destroyMount euid egid) (λ _ h w, Knows h w ∧ w_mount w = false) Knows.
Proof.
  fixing h0 w0 HK. apply sr_handle. destruct (lh_mounted h0) eqn:Hm.
  2: { apply sr_ret. intros h w [-> ->]. split; [done|]. by rewrite <- (kn_mounted _ _ HK). }
  eapply sr_inert; [apply inert_refusing, inspect_inert|done|]. intros current Hc. cbn beta. apply sr_note.
  destruct h0, w0. destruct HK. cbn in *. subst. destruct (sameObject _ _) eqn:Hs; cbn [negb].
  2: { apply sr_throw. intros h w [-> ->]. by knows. }
  apply bool_decide_eq_true in Hs. apply not_noPath in Hc. destruct w_mountId0 as [i|]; [|done]. cbn in Hs. subst i.
  apply sr_mustNote; [knows; by rewrite bool_decide_eq_true_2|]. apply sr_update.
  eapply sr_inert; [apply inert_refusing, inspect_inert|knows; by rewrite bool_decide_eq_true_2|]. intros under _. cbn beta.
  destruct (sameObject _ _).
  - apply sr_ret. intros h w [-> ->]. split; [|done]. knows. by rewrite bool_decide_eq_true_2.
  - apply sr_throw. intros h w [-> ->]. knows. by rewrite bool_decide_eq_true_2.
Qed.

Lemma destroyMapper_ok m : triple (λ h w, Knows h w ∧ w_mount w = false) (destroyMapper m) (λ _ h w, Knows h w ∧ w_mount w = false ∧ w_mapper w = false) Knows.
Proof.
  fixing h0 w0 HK. destruct HK as [HK Hmo]. apply sr_handle. destruct (lh_opened h0) eqn:Hm.
  2: { apply sr_ret. intros h w [-> ->]. split; [done|]. split; [done|]. by rewrite <- (kn_opened _ _ HK). }
  destruct h0, w0. destruct HK. cbn in *. subst. apply sr_mustNote; [by knows|]. eapply sr_bind; [apply sr_quiet|]. intros r. cbn beta. apply sr_note.
  destruct r as [out|].
  - apply sr_update_last. split; [by knows|done].
  - apply sr_throw. intros h w [-> ->]. by knows.
Qed.

Lemma destroyLoop_ok m :
  triple (λ h w, Knows h w ∧ w_mount w = false ∧ w_mapper w = false) (destroyLoop m)
    (λ _ h w, Knows h w ∧ w_mount w = false ∧ w_mapper w = false ∧ w_loop w = false) Knows.
Proof.
  fixing h0 w0 HK. destruct HK as (HK & Hmo & Hmp). apply sr_handle. destruct (lh_attached h0) eqn:Hm.
  2: { apply sr_ret. intros h w [-> ->]. split; [done|]. split; [done|]. split; [done|]. by rewrite <- (kn_attached _ _ HK). }
  destruct h0, w0. destruct HK. cbn in *. subst. apply sr_mustNote; [by knows|]. eapply sr_bind; [apply sr_quiet|]. intros r. cbn beta. apply sr_note.
  destruct r as [out|].
  - apply sr_update_last. split; [by knows|done].
  - apply sr_throw. intros h w [-> ->]. by knows.
Qed.

Lemma destroyKey_ok :
  triple (λ h w, Knows h w ∧ w_mount w = false ∧ w_mapper w = false ∧ w_loop w = false) destroyKey
    (λ _ h w, Knows h w ∧ w_mount w = false ∧ w_mapper w = false ∧ w_loop w = false ∧ w_key w = false) Knows.
Proof.
  fixing h0 w0 HK. destruct HK as (HK & Hmo & Hmp & Hlo). apply sr_handle. destruct (lh_key h0) eqn:Hm.
  - destruct h0, w0. destruct HK. cbn in *. subst. apply sr_note. apply sr_update_last. split; [by knows|done].
  - apply sr_ret. intros h w [-> ->]. split; [done|]. split; [done|]. split; [done|]. split; [done|]. by rewrite <- (kn_key _ _ HK).
Qed.

(** What remains when the devices are gone. *)
Definition Bare (h : LUKSHandle) (w : Watch) : Prop :=
  Knows h w ∧ w_mount w = false ∧ w_mapper w = false ∧ w_loop w = false ∧ w_key w = false.

Lemma sr_stat {A} h0 w0 path (k : statat → M A) Q R :
  (∀ r, (∀ s, r = StatFound s → st_Mode s ≠ 0%Z) → triple (At h0 w0) (k r) Q R) → triple (At h0 w0) (bind (quiet (statChild path)) k) Q R.
Proof.
  intros H s Hs. unfold bind, quiet. destruct (statChild path (sc_world s)) as [r w] eqn:Hc. apply H; [|done].
  intros st ->. by eapply modes_typed.
Qed.

Lemma removeOwnedImage_ok h0 w0 parent :
  Bare h0 w0 → triple (At h0 w0) (removeOwnedImage (lh_ciphertext h0) parent (lh_cipherIdentity h0))
    (λ _ h w, Bare h w ∧ h = h0 ∧ w_file w = false) Knows.
Proof.
  intros (HK & Hb). eapply sr_bind; [apply sr_quiet|]. intros [p|]; cbn beta iota; [|apply sr_throw; by intros h w [-> ->]].
  destruct (negb _); [apply sr_throw; by intros h w [-> ->]|]. apply sr_stat. intros r Hr. apply sr_note.
  destruct h0, w0. destruct HK. cbn in *. destruct_and! Hb. subst. destruct r as [st| |]; cbn.
  - destruct (sameImageStat _ st) eqn:Hs; cbn [negb]; [|apply sr_throw; intros h w [-> ->]; by knows].
    apply bool_decide_eq_true in Hs. specialize (Hr st eq_refl). destruct w_fileId0 as [i|]; cbn in Hs; [|exfalso; apply Hr; destruct st; unfold noImage, imageOf in Hs; cbn in *; congruence].
    subst i. eapply sr_bind; [apply sr_quiet|]. intros ok. cbn beta. apply sr_note. cbn. rewrite bool_decide_eq_true_2 by done. destruct ok.
    + apply sr_ret. intros h w [-> ->]. split; [split; [by knows|done]|done].
    + apply sr_throw. intros h w [-> ->]. by knows.
  - apply sr_ret. intros h w [-> ->]. split; [split; [by knows|done]|done].
  - apply sr_throw. intros h w [-> ->]. by knows.
Qed.

Lemma Knows_off h w0 w : OffDirectory w0 w → w_mount w0 = false → Knows h w0 → Knows h w.
Proof. intros Ho Hm []. pose proof (off_bad _ _ Ho). destruct Ho. constructor; try congruence. auto. Qed.

Lemma removeOwnedDirectory_ok h0 w0 parent :
  Bare h0 w0 → w_file w0 = false → triple (At h0 w0) (removeOwnedDirectory (lh_mount h0) parent (lh_underlay h0))
    (λ _ h w, Bare h w ∧ w_file w = false ∧ w_directory w = false) Knows.
Proof.
  intros (HK & Hm & Hb) Hf. eapply sr_post; [apply removeDirectory_ok, (kn_underlay _ _ HK)| |].
  - intros _ h w (-> & Ho & Hd). pose proof (Knows_off _ _ _ Ho Hm HK). destruct Ho, Hb as (? & ? & ?). unfold Bare. repeat split; try apply H; congruence.
  - intros h w (-> & Ho). by eapply Knows_off.
Qed.

Lemma Destroy_ok m : triple Inv (Destroy euid egid m) (λ _, Gone) Knows.
Proof.
  fixing h0 w0 HI. apply sr_handle. destruct HI as [HK|HG].
  2: { destruct HG as [Hd HG]. rewrite Hd. apply sr_ret. intros h w [-> ->]. by split. }
  rewrite (kn_alive _ _ HK). eapply sr_bind; [eapply sr_pre; [|apply destroyMount_ok]; by intros h w [-> ->]|]. intros []. eapply sr_bind; [apply destroyMapper_ok|]. intros [].
  eapply sr_bind; [apply destroyLoop_ok|]. intros []. eapply sr_bind; [apply destroyKey_ok|]. intros [].
  apply sr_fix. intros h1 w1 HB. apply sr_handle. eapply sr_bind; [apply sr_refusing, removeOwnedImage_ok; done|]. intros [].
  apply sr_fix. intros h2 w2 (HB2 & -> & Hf). eapply sr_bind; [apply sr_refusing, removeOwnedDirectory_ok; done|]. intros [].
  apply sr_fix. intros h3 w3 ((HK3 & Hb3) & Hf3 & Hd3). apply sr_update_last. destruct HK3. unfold Gone, givenBack. cbn. destruct_and! Hb3. by split_and!; try congruence.
Qed.

Definition newHandle (cipher : string) (scratchParent : pathIdentity) (sessionID mount : string) (u mountParent : pathIdentity) : LUKSHandle :=
  mkHandle cipher noImage scratchParent "" sessionID mount u noPath mountParent false false false false false.

(** Everything is held. *)
Definition Full (h : LUKSHandle) (w : Watch) : Prop :=
  Knows h w ∧ w_directory w = true ∧ w_file w = true ∧ w_key w = true ∧ w_loop w = true ∧ w_mapper w = true ∧ w_mount w = true ∧
  (∃ i, w_mountId w = Some i) ∧ w_lost w = false.

Ltac quick := first [apply sr_handle | apply sr_update | apply sr_note; cbn | apply sr_must; [by knows|] | apply sr_mustNote; [by knows|]; cbn].
Ltac failing := apply sr_throw; intros ?h ?w [-> ->]; by knows.

Lemma sr_remember {A} h0 w0 i (k : unit → M A) Q R :
  triple (At (set_cipher i h0) (observe w0 (FileIdentity i))) (k tt) Q R → triple (At h0 w0) (bind (rememberCipher i) k) Q R.
Proof.
  intros H. apply (sr_bind _ (λ _, At (set_cipher i h0) (observe w0 (FileIdentity i)))); [|by intros []].
  apply sr_note. by apply sr_update_last.
Qed.

Lemma makeCiphertext_ok cipher sp id mount u mp size :
  triple (At (newHandle cipher sp id mount u mp) (fresh u)) (makeCiphertext euid egid size)
    (λ _ h w, ∃ i, At (set_cipher i (newHandle cipher sp id mount u mp)) (mkWatch true (Some u) true (Some i) false false false false false None NoEvidence false) h w)
    Knows.
Proof.
  unfold makeCiphertext. repeat quick. eapply sr_inert; [apply owned_inert|by knows|]. intros i _. cbn beta.
  apply sr_remember. cbn. eapply sr_bind; [apply sr_quiet|]. intros ok. cbn beta. destruct ok; cbn [negb].
  - eapply sr_inert; [apply owned_inert|by knows|]. intros i' _. cbn beta. apply sr_remember. cbn.
    eapply sr_bind; [apply sr_quiet|]. intros ok. cbn beta. destruct ok; [|failing].
    apply sr_ret. intros h w [-> ->]. by exists i'.
  - intros s [Hs Hl]. pose proof (owned_inert euid egid (lh_ciphertext (newHandle cipher sp id mount u mp)) true s) as Ho.
    destruct (ownedFileIdentity _ _ _ _ _) as [[i'|e] s1].
    + destruct Ho as (_ & Hh & Hg). unfold bind, rememberCipher, bind, note, update, throw. cbn [sc_handle sc_log]. unfold watch in *. rewrite foldl_app, Hg, Hl, Hh, Hs. by knows.
    + destruct Ho as (Hh & Hg). rewrite Hh, Hg, Hs, Hl. by knows.
Qed.

Lemma cryptsetup_inert m args : inert (Hd := LUKSHandle) (cryptsetupWithKey m args) (λ _, True).
Proof.
  intros s. unfold cryptsetupWithKey, must, bind, quiet. destruct (dupKey (sc_world s)) as [[] w]; [|done]. cbn.
  by destruct (runTool _ _ w) as [[out|] w'].
Qed.

Lemma createBody_ok m cipher sp id mount u mp size :
  triple (At (newHandle cipher sp id mount u mp) (fresh u)) (createBody euid egid m size) (λ _, Full) Knows.
Proof.
  unfold createBody. eapply sr_bind; [apply makeCiphertext_ok|]. intros []. intros s (i & Hs). revert s Hs.
  match goal with |- ∀ s, At ?h ?w _ _ → match ?m s with _ => _ end => change (triple (At h w) m (λ _, Full) Knows) end.
  repeat quick. eapply sr_bind; [apply sr_quiet|]. intros [out|]; cbn beta iota; [|failing]. apply sr_note. cbn. apply sr_update.
  destruct (loopPattern (TrimSpace out)) eqn:Hp; cbn [negb]; [|failing].
  repeat quick. do 2 (eapply sr_inert; [apply cryptsetup_inert|by knows|]; intros [] _). cbn beta. repeat quick.
  eapply sr_bind; [apply sr_quiet|]. intros [o|]; cbn beta iota; [|failing]. repeat quick.
  eapply sr_inert; [apply inspect_inert|by knows|]. intros at_ _. cbn beta. repeat quick. eapply sr_bind; [apply sr_quiet|]. intros []; cbn beta; [failing|].
  apply sr_ret. intros h w [-> ->]. split; [by knows|]. cbn. split_and!; try done. by eexists.
Qed.

Lemma checks_inert m id size : inert (Hd := LUKSHandle) (createChecks euid egid m id size) (λ _, True).
Proof.
  unfold createChecks. destruct (negb _); [apply inert_throw|]. destruct (_ || _); [apply inert_throw|].
  apply (inert_bind _ _ (λ _, True)); [|intros [] _; eapply inert_bind; [apply verify_inert|intros [] _; eapply inert_bind; [apply inspect_inert|intros p _;
    eapply inert_bind; [apply inspect_inert|intros q _; by apply inert_ret]]]].
  unfold validate. destruct (negb _); [apply inert_throw|]. eapply inert_bind; [apply verify_inert|intros [] _].
  unfold verifyNoBackupMarker. inertly.
Qed.

Lemma Create_ok m id size h w :
  match Create euid egid m id size (mkSt h w []) with
  | (Ok _, s) => Full (sc_handle s) (watch (sc_log s))
  | (Err (_, true), s) => Knows (sc_handle s) (watch (sc_log s))
  | (Err (_, false), s) => givenBack (watch (sc_log s)) ∨ unlooked (sc_log s)
  end.
Proof.
  unfold Create, bind. pose proof (checks_inert m id size (mkSt h w [])) as Hc.
  destruct (createChecks _ _ _ _ _ _) as [[[[mount mp] sp]|e] s1]; [|destruct Hc as [_ Hl]; cbn in Hl; rewrite Hl; by left].
  destruct Hc as (_ & _ & Hl). pose proof (makeMountPoint_ok euid egid mount s1 Hl) as Hm.
  destruct (makeMountPoint euid egid mount s1) as [[u|e] s2]; [|done]. unfold withRollback, update.
  set (s3 := mkSt _ _ _). assert (Hat : At (newHandle (joinPath [lm_ScratchRoot m; id +:+ ".luks"]) sp id mount u mp) (fresh u) (sc_handle s3) (watch (sc_log s3))).
  { split; [done|]. subst s3. cbn [sc_log]. by rewrite Hm. }
  pose proof (createBody_ok m _ _ _ _ _ _ size s3 Hat) as Hb. destruct (createBody euid egid m size s3) as [[[]|e] s4]; [done|].
  pose proof (Destroy_ok m s4 (or_introl Hb)) as Hd. destruct (Destroy euid egid m s4) as [[[]|c] s5]; [|done]. left. apply Hd.
Qed.

(** ** The life of an encrypted scratch *)

Inductive scratch_op := OpDestroy | OpOpaque (name : string) (sizeBytes : Z) | OpAudit.

Definition runOp (m : LUKSManager) (s : St (W := W) (Hd := LUKSHandle)) (op : scratch_op) : St :=
  match op with
  | OpDestroy => (Destroy euid egid m s).2 | OpOpaque name sizeBytes => (CreateOpaqueFile name sizeBytes s).2 | OpAudit => (Audit s).2
  end.

Lemma Audit_inert : inert (W := W) Audit (λ _, True).
Proof.
  apply inert_handle. intros h. destruct (_ || _); [apply inert_throw|]. do 2 (eapply inert_bind; [apply must_inert|intros [] _]). inertly.
Qed.

Lemma runOp_ok m s op : Inv (sc_handle s) (watch (sc_log s)) → Inv (sc_handle (runOp m s op)) (watch (sc_log (runOp m s op))).
Proof.
  intros HI. assert (Hin : ∀ A (x : M A) good, inert x good → Inv (sc_handle (x s).2) (watch (sc_log (x s).2))).
  { intros A x good Hx. specialize (Hx s). destruct (x s) as [[a|e] s']; cbn [snd]; [destruct Hx as (_ & -> & ->)|destruct Hx as (-> & ->)]; done. }
  destruct op; cbn [runOp].
  - pose proof (Destroy_ok m s HI) as Hd. destruct (Destroy euid egid m s) as [[[]|c] s']; [by right|by left].
  - eapply Hin. apply inert_handle. intros h. apply opaque_inert.
  - eapply Hin, Audit_inert.
Qed.

Lemma runOps_ok m ops s : Inv (sc_handle s) (watch (sc_log s)) → Inv (sc_handle (foldl (runOp m) s ops)) (watch (sc_log (foldl (runOp m) s ops))).
Proof. revert s. induction ops as [|op ops IH]; intros s H; [done|]. by apply IH, runOp_ok. Qed.

Lemma Destroy_strayless m : strayless (W := W) (Destroy euid egid m).
Proof.
  unfold Destroy, destroyMount, destroyMapper, destroyLoop, destroyKey, removeOwnedImage, removeOwnedDirectory, mustNote,
    inspectPrivateDirectoryIdentity. straylessly.
Qed.

Lemma runOp_lost m s op : w_lost (watch (sc_log (runOp m s op))) = w_lost (watch (sc_log s)).
Proof.
  destruct op; cbn [runOp].
  - apply Destroy_strayless.
  - eapply strayless_inert, inert_handle. intros h. apply opaque_inert.
  - eapply strayless_inert, Audit_inert.
Qed.

Lemma runOps_lost m ops s : w_lost (watch (sc_log (foldl (runOp m) s ops))) = w_lost (watch (sc_log s)).
Proof. revert s. induction ops as [|op ops IH]; intros s; [done|]. cbn. by rewrite IH, runOp_lost. Qed.

(** What is given back is all that was held, unless a loop device went astray. *)
Lemma givenBack_clear l w : givenBack w → w_lost w = w_lost (watch l) → clear w ∨ (givenBack w ∧ astray l).
Proof.
  intros Hg Hl. rewrite watch_lost in Hl. destruct (w_lost w) eqn:Hw; [right|by left]. split; [done|].
  symmetry in Hl. apply existsb_exists in Hl as (c & Hin & Hc). destruct c; try done. exists loop. split; [by apply list_elem_of_In|].
  by apply negb_true_iff in Hc.
Qed.

(** The handle's flags are exactly what is held. *)
Definition accounted (h : LUKSHandle) (w : Watch) : Prop :=
  w_bad w = false ∧ lh_mounted h = w_mount w ∧ lh_opened h = w_mapper w ∧ lh_attached h = w_loop w ∧ lh_key h = w_key w.

Lemma Inv_accounted h w : Inv h w → accounted h w.
Proof. intros [[]|(Hd & Hm & Ho & Ha & Hk & Hc)]; [by split_and!|]. unfold givenBack in Hc. destruct_and! Hc. split_and!; congruence. Qed.

(** C29: whatever the host's tools and file system answer, a [Create] of an
    encrypted scratch either succeeds with the mount point, ciphertext, key, loop
    device, mapping and mount all held; or fails and has released all it made; or
    fails and returns the handle.  Two failures are exceptions: a mount point that
    could neither be inspected nor removed right after it was made is left, and a
    loop device that losetup attached but named in another way than loop devices
    are named is left attached.  A returned handle always knows what else is held,
    through any sequence of destructions, audits and file creations, and
    nothing is released out of order or without its evidence: the mount only when
    its identity was just seen, the mapping only when unmounted and verified, the
    loop device only when unmapped and verified, the ciphertext and the mount
    point only when they are the ones made.  A destruction that succeeds has
    released everything, again but for a loop device that went astray in a
    creation that failed. *)
Theorem scratch_is_accounted_for m id size h w ops :
  match Create euid egid m id size (mkSt h w []) with
  | (Err (_, false), s) =>
      clear (watch (sc_log s)) ∨ unlooked (sc_log s) ∨ (givenBack (watch (sc_log s)) ∧ astray (sc_log s))
  | (r, s) =>
      (is_Ok r = true → Full (sc_handle s) (watch (sc_log s))) ∧
      let s' := foldl (runOp m) s ops in
      accounted (sc_handle s') (watch (sc_log s')) ∧
      ∀ s'', Destroy euid egid m s' = (Ok tt, s'') →
        clear (watch (sc_log s'')) ∨ (is_Ok r = false ∧ givenBack (watch (sc_log s'')) ∧ astray (sc_log s))
  end.
Proof.
  pose proof (Create_ok m id size h w) as Hc. destruct (Create euid egid m id size _) as [[[]|[e []]] s].
  3: { destruct Hc as [Hc|?]; [|auto]. destruct (givenBack_clear (sc_log s) _ Hc eq_refl); auto. }
  all: assert (HI : Inv (sc_handle s) (watch (sc_log s))) by (left; apply Hc || by destruct Hc).
  all: split; [done|]; pose proof (runOps_ok m ops s HI) as HI'; split; [by apply Inv_accounted|].
  all: intros s'' Hd; pose proof (Destroy_ok m _ HI') as Ht; rewrite Hd in Ht; destruct Ht as (_ & _ & _ & _ & _ & Hg).
  all: pose proof (Destroy_strayless m (foldl (runOp m) s ops)) as Hl; rewrite Hd, runOps_lost in Hl; cbn in Hl.
  - left. split; [done|]. rewrite Hl. by destruct Hc as (_ & _ & _ & _ & _ & _ & _ & _ & ?).
  - destruct (givenBack_clear (sc_log s) _ Hg Hl) as [?|[? ?]]; auto.
Qed.

(** Mounted, but the identity of the mount was never recorded. *)
Definition half_mounted (h : LUKSHandle) (w : Watch) : Prop := Knows h w ∧ w_mount w = true ∧ w_mountId w = None.

Lemma half_mounted_stuck m : triple half_mounted (Destroy euid egid m) (λ _ _ _, False) half_mounted.
Proof.
  fixing h0 w0 HH. pose proof HH as (HK & Hm & Hi). apply sr_handle. rewrite (kn_alive _ _ HK). apply (sr_bind _ (λ _ _ _, False)); [|by intros [] s []].
  apply sr_handle. rewrite (kn_mounted _ _ HK), Hm. eapply sr_inert; [apply inert_refusing, inspect_inert|done|]. intros current Hc. cbn beta. apply sr_note.
  apply not_noPath in Hc. destruct h0, w0. destruct HK. cbn in *. subst. unfold sameObject. rewrite bool_decide_eq_false_2 by done. cbn [negb].
  apply sr_throw. intros h w [-> ->]. split; [by knows|done].
Qed.

Lemma half_mounted_op m s op : half_mounted (sc_handle s) (watch (sc_log s)) → half_mounted (sc_handle (runOp m s op)) (watch (sc_log (runOp m s op))).
Proof.
  intros HH. assert (Hin : ∀ A (x : M A) good, inert x good → half_mounted (sc_handle (x s).2) (watch (sc_log (x s).2))).
  { intros A x good Hx. specialize (Hx s). destruct (x s) as [[a|e] s']; cbn [snd]; [destruct Hx as (_ & -> & ->)|destruct Hx as (-> & ->)]; done. }
  destruct op; cbn [runOp].
  - pose proof (half_mounted_stuck m s HH) as Hd. by destruct (Destroy euid egid m s) as [[[]|c] s'].
  - eapply Hin. apply inert_handle. intros h. apply opaque_inert.
  - eapply Hin, Audit_inert.
Qed.

(** C30: when [Create] mounted the encrypted file system but failed before it
    recorded the identity of the mount (the mode could not be set, or the mount
    point could not be inspected), it returns a handle that nothing can destroy:
    through any sequence of operations every [Destroy] fails before it tries to
    unmount, and the mount, and with it the mapping, the loop device, the key and
    the ciphertext, stay held as long as the daemon runs. *)
Theorem half_mounted_scratch_is_stuck m id size h w ops e s :
  Create euid egid m id size (mkSt h w []) = (Err (e, true), s) → w_mount (watch (sc_log s)) = true → w_mountId (watch (sc_log s)) = None →
  let s' := foldl (runOp m) s ops in
  w_mount (watch (sc_log s')) = true ∧ ∃ c s'', Destroy euid egid m s' = (Err c, s'') ∧ w_mount (watch (sc_log s'')) = true.
Proof.
  intros Hc Hm Hi. pose proof (Create_ok m id size h w) as HK. rewrite Hc in HK. assert (HH : half_mounted (sc_handle s) (watch (sc_log s))) by done.
  assert (HH' : ∀ ops s, half_mounted (sc_handle s) (watch (sc_log s)) →
    half_mounted (sc_handle (foldl (runOp m) s ops)) (watch (sc_log (foldl (runOp m) s ops)))).
  { clear. intros ops. induction ops as [|op ops IH]; intros s HH; [done|]. by apply IH, half_mounted_op. }
  specialize (HH' ops s HH). split; [by destruct HH' as (_ & ? & _)|]. pose proof (half_mounted_stuck m _ HH') as Hd.
  destruct (Destroy euid egid m _) as [[[]|c] s'']; [done|]. exists c, s''. split; [done|]. by destruct Hd as (_ & ? & _).
Qed.

End LuksProofs.

(** ** The tmpfs scratch *)

Record TmpfsHandle := mkTmpfs {
  th_mount : string;
  th_mountParent : pathIdentity;
  th_underlay : pathIdentity;
  th_mountedAt : pathIdentity;
  th_mounted : bool;
  th_destroyed : bool
}.

Definition tmpfs_mounted (b : bool) (h : TmpfsHandle) : TmpfsHandle :=
  mkTmpfs (th_mount h) (th_mountParent h) (th_underlay h) (th_mountedAt h) b (th_destroyed h).
Definition tmpfs_mountedAt (i : pathIdentity) (h : TmpfsHandle) : TmpfsHandle :=
  mkTmpfs (th_mount h) (th_mountParent h) (th_underlay h) i (th_mounted h) (th_destroyed h).
Definition tmpfs_destroyed (h : TmpfsHandle) : TmpfsHandle :=
  mkTmpfs (th_mount h) (th_mountParent h) (th_underlay h) (th_mountedAt h) (th_mounted h) true.

Section Tmpfs.
Context (euid egid : Z) {W : Type} `{!StorageHost W}.

#[local] Abbreviation M := (M (W := W) (Hd := TmpfsHandle)).

Definition destroyTmpfsMount : M unit :=
  do h := handle ;
  if th_mounted h then
    do current := refusing (inspectPrivateDirectoryIdentity euid egid (th_mount h)) "tmpfs mount identity changed before unmount" ;
    do _ := note (SawDirectory current) ;
    if negb (sameObject current (th_mountedAt h)) then throw "tmpfs mount identity changed before unmount"
    else
      do _ := mustNote (unmountAt (th_mount h)) TriedUnmount "unmount tmpfs scratch" ;
      do _ := update (tmpfs_mounted false) ;
      do under := refusing (inspectPrivateDirectoryIdentity euid egid (th_mount h)) "tmpfs underlay identity changed after unmount" ;
      if sameObject under (th_underlay h) then ret tt else throw "tmpfs underlay identity changed after unmount"
  else ret tt.

Definition DestroyTmpfs : M unit :=
  do h := handle ;
  if th_destroyed h then ret tt
  else
    do _ := destroyTmpfsMount ;
    do h := handle ;
    do _ := refusing (removeOwnedDirectory (th_mount h) (th_mountParent h) (th_underlay h)) "remove tmpfs scratch mountpoint" ;
    update tmpfs_destroyed.

(** A failure after the mount point was made: the handle is returned when its
    destruction failed. *)
Definition abandonTmpfs (e : string) : St → result (string * bool) unit * St := λ s,
  match DestroyTmpfs s with
  | (Ok _, s) => (Err (e, false), s)
  | (Err c, s) => (Err (e +:+ c, true), s)
  end.

(** The mount whose identity could not be inspected is undone at once. *)
Definition undoTmpfs (e : string) : St → result (string * bool) unit * St := λ s,
  let h := sc_handle s in
  match (do ok := quiet (unmountAt (th_mount h)) ; do _ := note (UndidMount ok) ; ret ok) s with
  | (Ok ok, s) =>
      let '(r, s) := removeOwnedDirectory (th_mount h) (th_mountParent h) (th_underlay h) s in
      let s := (update (tmpfs_mounted (negb ok)) s).2 in
      if negb ok || negb (is_Ok r) then (Err (e, true), s) else (Err (e, false), (update tmpfs_destroyed s).2)
  | (Err e, s) => (Err (e, true), s)
  end.

Definition mountTmpfs (sessionID : string) (capacityBytes : Z) : St → result (string * bool) unit * St := λ s,
  let mountPath := th_mount (sc_handle s) in
  match (do done := quiet contextDone ; if done : bool then throw "context done" else ret tt) s with
  | (Err e, s) => abandonTmpfs e s
  | (Ok _, s) =>
      match must (mountAt ("private-vm-" +:+ sessionID) mountPath "tmpfs" ("size=" +:+ decimal capacityBytes +:+ ",mode=0700"))
              "mount bounded tmpfs scratch" s with
      | (Err e, s) => abandonTmpfs e s
      | (Ok _, s) =>
          let s := ((do _ := note Mounted ; update (tmpfs_mounted true)) s).2 in
          match inspectPrivateDirectoryIdentity euid egid mountPath s with
          | (Err e, s) => undoTmpfs e s
          | (Ok i, s) =>
              let s := ((do _ := note (MountIdentity i) ; update (tmpfs_mountedAt i)) s).2 in
              match (do done := quiet contextDone ; if done : bool then throw "context done" else ret tt) s with
              | (Err e, s) => abandonTmpfs e s
              | (Ok _, s) => (Ok tt, s)
              end
          end
      end
  end.

Definition CreateTmpfs (runtimeRoot sessionID : string) (capacityBytes : Z) : St → result (string * bool) unit * St := λ s,
  if negb (cleanAbs runtimeRoot) then (Err ("tmpfs manager requires an absolute runtime root and mounter", false), s)
  else if negb (storageSessionPattern sessionID) || (capacityBytes <? 268435456)%Z || (1099511627776 <? capacityBytes)%Z
  then (Err ("invalid tmpfs scratch request", false), s)
  else
    let sessionPath := joinPath [runtimeRoot; sessionID] in
    let mountPath := joinPath [sessionPath; "mount"] in
    match (do _ := verifyPrivateDirectory euid sessionPath ;
           do mountParent := inspectPrivateDirectoryIdentity euid egid sessionPath ;
           do underlay := makeMountPoint euid egid mountPath ;
           update (λ _, mkTmpfs mountPath mountParent underlay noPath false false)) s with
    | (Err e, s) => (Err (e, false), s)
    | (Ok _, s) => mountTmpfs sessionID capacityBytes s
    end.

Definition CreateOpaqueTmpfsFile (name : string) (sizeBytes : Z) : M string :=
  do h := handle ; createOpaque (th_mounted h) (th_destroyed h) (th_mount h) 1099511627776 name sizeBytes.

Definition AuditTmpfs : M unit :=
  do h := handle ;
  if negb (th_destroyed h) || th_mounted h then throw "tmpfs scratch cleanup state is incomplete"
  else must (lstatAbsent (th_mount h)) "tmpfs scratch mountpoint remains present".

End Tmpfs.


Section TmpfsProofs.
Context (euid egid : Z) {W : Type} `{!StorageHost W}.

#[local] Abbreviation M := (M (W := W) (Hd := TmpfsHandle)).
#[local] Abbreviation St := (St (W := W) (Hd := TmpfsHandle)).
#[local] Abbreviation triple := (triple (W := W) (Hd := TmpfsHandle)).

(** A rule is broken only by the removal tried under a mount that could be
    neither inspected nor undone. *)
Record TKnows (h : TmpfsHandle) (w : Watch) : Prop := {
  tk_bad : w_bad w = true → w_mount w = true ∧ w_mountId w = None;
  tk_mounted : th_mounted h = w_mount w;
  tk_underlay : w_underlay w = Some (th_underlay h);
  tk_mountedAt : th_mountedAt h = default noPath (w_mountId w);
  tk_alive : th_destroyed h = false
}.

Definition TGone (h : TmpfsHandle) (w : Watch) : Prop :=
  th_destroyed h = true ∧ th_mounted h = false ∧ w_bad w = false ∧ w_mount w = false ∧ w_directory w = false.

Definition TInv (h : TmpfsHandle) (w : Watch) : Prop := TKnows h w ∨ TGone h w.

(** Mounted, but the identity of the mount was never recorded. *)
Definition tstuck (w : Watch) : Prop := w_mount w = true ∧ w_mountId w = None.

Ltac tknows := constructor; cbn in *; subst; cbn; rewrite ?orb_false_r; try done.

Lemma tk_sound h w : TKnows h w → ¬ tstuck w → w_bad w = false.
Proof. intros [Hb] Hs. destruct (w_bad w); [|done]. destruct Hs. by apply Hb. Qed.

Lemma destroyTmpfsMount_ok :
  triple TKnows (destroyTmpfsMount euid egid) (λ _ h w, TKnows h w ∧ w_mount w = false) TKnows.
Proof.
  apply sr_fix. intros h0 w0 HK. apply sr_handle. destruct (th_mounted h0) eqn:Hm.
  2: { apply sr_ret. intros h w [-> ->]. split; [done|]. by rewrite <- (tk_mounted _ _ HK). }
  eapply sr_inert; [apply inert_refusing, inspect_inert|done|]. intros current Hc. cbn beta. apply sr_note.
  pose proof (tk_sound _ _ HK) as Hsound. destruct h0, w0. destruct HK. cbn in *. subst.
  destruct (sameObject _ _) eqn:Hs; cbn [negb]; [|apply sr_throw; intros h w [-> ->]; by tknows].
  apply bool_decide_eq_true in Hs. apply not_noPath in Hc. destruct w_mountId0 as [i|]; [|done]. cbn in Hs. subst i.
  assert (Hb : w_bad0 = false) by (apply Hsound; by intros [_ ?]). subst. clear Hsound.
  assert (E : bool_decide (Some current = Some current) = true) by by apply bool_decide_eq_true_2.
  apply sr_mustNote; [tknows; by rewrite E|]. apply sr_update.
  eapply sr_inert; [apply inert_refusing, inspect_inert|tknows; by rewrite E|]. intros under _. cbn beta.
  destruct (sameObject _ _).
  - apply sr_ret. intros h w [-> ->]. split; [|done]. tknows. by rewrite E.
  - apply sr_throw. intros h w [-> ->]. tknows. by rewrite E.
Qed.

Lemma TKnows_off h w0 w : OffDirectory w0 w → w_mount w0 = false → TKnows h w0 → TKnows h w ∧ w_bad w = false.
Proof.
  intros Ho Hm HK. assert (Hb : w_bad w0 = false) by (apply (tk_sound _ _ HK); intros [? _]; congruence).
  pose proof (off_bad _ _ Ho Hb Hm). destruct Ho, HK. split; [constructor; congruence|done].
Qed.

Lemma DestroyTmpfs_ok : triple TInv (DestroyTmpfs euid egid) (λ _, TGone) TKnows.
Proof.
  apply sr_fix. intros h0 w0 HI. apply sr_handle. destruct HI as [HK|HG].
  2: { destruct HG as [Hd HG]. rewrite Hd. apply sr_ret. intros h w [-> ->]. by split. }
  rewrite (tk_alive _ _ HK). eapply sr_bind; [eapply sr_pre; [|apply destroyTmpfsMount_ok]; by intros h w [-> ->]|]. intros [].
  apply sr_fix. intros h1 w1 [HK1 Hm1]. apply sr_handle. eapply sr_bind.
  - apply sr_refusing. eapply sr_post; [apply removeDirectory_ok, (tk_underlay _ _ HK1)|intros a h w H; exact H|].
    intros h w (-> & Ho). by apply (TKnows_off _ _ _ Ho Hm1 HK1).
  - intros []. apply sr_fix. intros h2 w2 (-> & Ho & Hd). destruct (TKnows_off _ _ _ Ho Hm1 HK1) as [HK2 Hb2]. apply sr_update_last.
    pose proof (tk_mounted _ _ HK2). destruct Ho. unfold TGone. cbn. split_and!; congruence.
Qed.

Lemma tstuck_ok : triple (λ h w, TKnows h w ∧ tstuck w) (DestroyTmpfs euid egid) (λ _ _ _, False) (λ h w, TKnows h w ∧ tstuck w).
Proof.
  apply sr_fix. intros h0 w0 HH. pose proof HH as (HK & Hm & Hi). apply sr_handle. rewrite (tk_alive _ _ HK).
  apply (sr_bind _ (λ _ _ _, False)); [|by intros [] s []].
  apply sr_handle. rewrite (tk_mounted _ _ HK), Hm. eapply sr_inert; [apply inert_refusing, inspect_inert|done|]. intros current Hc. cbn beta. apply sr_note.
  apply not_noPath in Hc. destruct h0, w0. destruct HK. cbn in *. subst. unfold sameObject. rewrite bool_decide_eq_false_2 by done. cbn [negb].
  apply sr_throw. intros h w [-> ->]. split; [by tknows|done].
Qed.

Definition tclear (w : Watch) : Prop := w_bad w = false ∧ w_mount w = false ∧ w_directory w = false.

Definition THeld (h : TmpfsHandle) (w : Watch) : Prop :=
  TKnows h w ∧ w_bad w = false ∧ w_directory w = true ∧ w_mount w = true ∧ ∃ i, w_mountId w = Some i.

(** What a creation may end in. *)
Definition tmpfs_outcome (r : result (string * bool) unit * St) : Prop :=
  match r with
  | (Ok _, s) => THeld (sc_handle s) (watch (sc_log s))
  | (Err (_, true), s) => TKnows (sc_handle s) (watch (sc_log s))
  | (Err (_, false), s) => tclear (watch (sc_log s)) ∨ unlooked (sc_log s)
  end.

Lemma abandonTmpfs_ok e s : TKnows (sc_handle s) (watch (sc_log s)) → tmpfs_outcome (abandonTmpfs euid egid e s).
Proof.
  intros HK. unfold abandonTmpfs. pose proof (DestroyTmpfs_ok s (or_introl HK)) as Hd. destruct (DestroyTmpfs euid egid s) as [[[]|c] s1]; [|done].
  left. unfold tclear. destruct Hd as (_ & _ & ?). done.
Qed.

Lemma scratch_snoc l c : watch (l ++ [c]) = observe (watch l) c.
Proof. unfold watch. by rewrite foldl_app. Qed.

(** The handle after a mount that could not be inspected was, or was not, undone. *)
Lemma TKnows_undone h w0 w ok :
  OffDirectory w0 w → w_bad w0 = false → w_mountId w0 = None → w_underlay w0 = Some (th_underlay h) → w_mount w0 = negb ok →
  th_mountedAt h = noPath → th_destroyed h = false → TKnows (tmpfs_mounted (negb ok) h) w.
Proof.
  intros Ho Hb Hi Hu Hm Ha Hd. pose proof (off_bad _ _ Ho Hb) as Hc. destruct Ho. constructor; cbn; try congruence.
  - intros Ht. destruct (od_bad0 Ht) as [?|Hmm]; [congruence|]. split; congruence.
  - rewrite od_mountId0, Hi. done.
Qed.

Lemma undoTmpfs_ok e s :
  TKnows (sc_handle s) (watch (sc_log s)) → w_bad (watch (sc_log s)) = false → tstuck (watch (sc_log s)) → tmpfs_outcome (undoTmpfs e s).
Proof.
  intros HK Hb [Hm Hi]. pose proof (tk_mountedAt _ _ HK) as Ha. rewrite Hi in Ha. cbn in Ha. pose proof (tk_alive _ _ HK) as Hal.
  unfold undoTmpfs, bind, quiet, note, ret. destruct (unmountAt _ _) as [ok w1]. cbn [sc_handle sc_world sc_log].
  set (s1 := mkSt _ w1 _).
  assert (Hw : ∃ w, watch (sc_log s1) = w ∧ w_bad w = false ∧ w_mountId w = None ∧ w_underlay w = Some (th_underlay (sc_handle s)) ∧ w_mount w = negb ok).
  { eexists. split; [done|]. cbn [s1 sc_log]. rewrite scratch_snoc. pose proof (tk_underlay _ _ HK). destruct (watch (sc_log s)). cbn in *. subst. by destruct ok. }
  destruct Hw as (w & Hw & Hbw & Hiw & Huw & Hmw).
  pose proof (removeDirectory_ok (sc_handle s) w (th_mount (sc_handle s)) (th_mountParent (sc_handle s)) _ Huw s1 (conj eq_refl Hw)) as Hr.
  destruct (removeOwnedDirectory _ _ _ s1) as [[[]|x] s2]; [destruct Hr as (Hh & Ho & Hd)|destruct Hr as (Hh & Ho)];
    pose proof (TKnows_undone _ _ _ _ Ho Hbw Hiw Huw Hmw Ha Hal); unfold update; cbn [sc_handle sc_log sc_world snd]; rewrite Hh; destruct ok; try done.
  left. split_and!; [by apply (off_bad _ _ Ho)|etrans; [apply (od_mount _ _ Ho)|done]|done].
Qed.

Lemma context_inert : inert (W := W) (Hd := TmpfsHandle) (do done := quiet contextDone ; if done : bool then throw "context done" else ret tt) (λ _, True).
Proof. inertly. Qed.

Lemma mountTmpfs_ok id size h s :
  sc_handle s = h → th_mountedAt h = noPath → th_mounted h = false → th_destroyed h = false → watch (sc_log s) = fresh (th_underlay h) →
  tmpfs_outcome (mountTmpfs euid egid id size s).
Proof.
  intros Hh Ha Hm Hd Hw. assert (HK : ∀ s' : St, sc_handle s' = sc_handle s → sc_log s' = sc_log s → TKnows (sc_handle s') (watch (sc_log s'))).
  { intros s' E1 E2. rewrite E1, E2, Hh, Hw. constructor; cbn; done. }
  unfold mountTmpfs. pose proof (context_inert s) as Hc. destruct (bind (quiet contextDone) _ s) as [[[]|e] s1]; [|by apply abandonTmpfs_ok, HK; apply Hc].
  destruct Hc as (_ & Hh1 & Hl1). pose proof (must_inert (mountAt ("private-vm-" +:+ id) (th_mount (sc_handle s)) "tmpfs" ("size=" +:+ decimal size +:+ ",mode=0700"))
    "mount bounded tmpfs scratch" s1) as Hc. destruct (must _ _ s1) as [[[]|e] s2]; [|apply abandonTmpfs_ok, HK; destruct Hc; congruence].
  destruct Hc as (_ & Hh2 & Hl2). set (s3 := snd (bind (note Mounted) _ s2)). assert (H3 : TKnows (sc_handle s3) (watch (sc_log s3)) ∧ w_bad (watch (sc_log s3)) = false ∧ tstuck (watch (sc_log s3)) ∧ w_directory (watch (sc_log s3)) = true).
  { cbn [s3 bind note update snd sc_log sc_handle]. rewrite scratch_snoc, Hl2, Hl1, Hw, Hh2, Hh1, Hh. split_and!; try done; by constructor. }
  clearbody s3. destruct H3 as (HK3 & Hb3 & Hs3 & Hd3).
  pose proof (inspect_inert (Hd := TmpfsHandle) euid egid (th_mount (sc_handle s)) s3) as Hc. destruct (inspectPrivateDirectoryIdentity _ _ _ s3) as [[i|e] s4].
  2: { destruct Hc as [E1 E2]. by apply undoTmpfs_ok; rewrite ?E1, ?E2. }
  destruct Hc as (Hi & Hh4 & Hl4). set (s5 := snd (bind (note (MountIdentity i)) _ s4)). assert (H5 : THeld (sc_handle s5) (watch (sc_log s5))).
  { cbn [s5 bind note update snd sc_log sc_handle]. rewrite scratch_snoc, Hl4, Hh4. destruct Hs3 as [Hmm _], HK3. destruct (watch (sc_log s3)). cbn in *. subst.
    split; [by constructor|]. split_and!; try done. by eexists. }
  clearbody s5. pose proof (context_inert s5) as Hc. destruct (bind (quiet contextDone) _ s5) as [[[]|e] s6].
  - destruct Hc as (_ & E1 & E2). cbn. by rewrite E1, E2.
  - destruct Hc as (E1 & E2). apply abandonTmpfs_ok. rewrite E1, E2. apply H5.
Qed.

Lemma CreateTmpfs_ok root id size h w : tmpfs_outcome (CreateTmpfs euid egid root id size (mkSt h w [])).
Proof.
  unfold CreateTmpfs. destruct (negb _); [by left|]. destruct (_ || _); [by left|]. unfold bind at 1.
  pose proof (verify_inert (Hd := TmpfsHandle) euid (joinPath [root; id]) (mkSt h w [])) as Hc.
  destruct (verifyPrivateDirectory _ _ _) as [[[]|e] s1]; [|destruct Hc as [_ Hl]; cbn; rewrite Hl; by left].
  destruct Hc as (_ & _ & Hl1). unfold bind at 1. pose proof (inspect_inert (Hd := TmpfsHandle) euid egid (joinPath [root; id]) s1) as Hc.
  destruct (inspectPrivateDirectoryIdentity _ _ _ s1) as [[p|e] s2]; [|destruct Hc as [_ Hl]; cbn in *; rewrite Hl, Hl1; by left].
  destruct Hc as (_ & _ & Hl2). unfold bind at 1. cbn [sc_log] in Hl1. rewrite Hl1 in Hl2.
  pose proof (makeMountPoint_ok euid egid (joinPath [joinPath [root; id]; "mount"]) s2 Hl2) as Hm.
  destruct (makeMountPoint _ _ _ s2) as [[u|e] s3]; [|destruct Hm as [Hc|Hc]; [left; unfold givenBack in Hc; unfold tclear; tauto|by right]].
  unfold update. eapply mountTmpfs_ok; [done..|]. cbn. by rewrite Hm.
Qed.

Definition runTmpfs (s : St) (op : scratch_op) : St :=
  match op with
  | OpDestroy => (DestroyTmpfs euid egid s).2 | OpOpaque name sizeBytes => (CreateOpaqueTmpfsFile name sizeBytes s).2 | OpAudit => (AuditTmpfs s).2
  end.

(** What a destruction keeps, every operation keeps. *)
Lemma runTmpfs_keeps (I : TmpfsHandle → Watch → Prop) ops s :
  triple I (DestroyTmpfs euid egid) (λ _, I) I → I (sc_handle s) (watch (sc_log s)) →
  I (sc_handle (foldl runTmpfs s ops)) (watch (sc_log (foldl runTmpfs s ops))).
Proof.
  intros HD. revert s. induction ops as [|op ops IH]; intros s HI; [done|]. cbn [foldl]. apply IH.
  assert (Hin : ∀ A (x : M A) good, inert x good → I (sc_handle (x s).2) (watch (sc_log (x s).2))).
  { intros A x good Hx. specialize (Hx s). destruct (x s) as [[a|e] s']; cbn [snd]; [destruct Hx as (_ & -> & ->)|destruct Hx as (-> & ->)]; done. }
  destruct op; cbn [runTmpfs].
  - specialize (HD s HI). by destruct (DestroyTmpfs euid egid s) as [[[]|c] s'].
  - eapply Hin. apply inert_handle. intros h. apply opaque_inert.
  - eapply Hin. apply inert_handle. intros h. destruct (_ || _); [apply inert_throw|]. apply must_inert.
Qed.

(** Whatever the host answers, a creation of a tmpfs scratch either mounts
    it with its identity recorded; or fails and has released the mount and the
    mount point, unless it could neither inspect nor remove the mount point it
    had just made; or fails and returns the handle.  Through any sequence of
    destructions, audits and file creations the handle knows whether the mount is
    held, and a destruction that succeeds has unmounted and removed the mount
    point.  Nothing is unmounted or removed without its evidence, except when the
    mount could be neither inspected nor undone: then every destruction fails,
    and the mount stays. *)
Theorem tmpfs_is_released_or_stuck root id size h w ops :
  match CreateTmpfs euid egid root id size (mkSt h w []) with
  | (Err (_, false), s) => tclear (watch (sc_log s)) ∨ unlooked (sc_log s)
  | (r, s) =>
      (is_Ok r = true → THeld (sc_handle s) (watch (sc_log s))) ∧
      let s' := foldl runTmpfs s ops in
      th_mounted (sc_handle s') = w_mount (watch (sc_log s')) ∧
      (¬ tstuck (watch (sc_log s')) → w_bad (watch (sc_log s')) = false) ∧
      (tstuck (watch (sc_log s)) → is_Ok (DestroyTmpfs euid egid s').1 = false ∧ tstuck (watch (sc_log s'))) ∧
      ∀ s'', DestroyTmpfs euid egid s' = (Ok tt, s'') → tclear (watch (sc_log s''))
  end.
Proof.
  pose proof (CreateTmpfs_ok root id size h w) as Hc. destruct (CreateTmpfs _ _ _ _ _ _) as [[[]|[e []]] s]; [| |done].
  all: assert (HK : TKnows (sc_handle s) (watch (sc_log s))) by (apply Hc); split; [done|].
  all: assert (HI : TInv (sc_handle (foldl runTmpfs s ops)) (watch (sc_log (foldl runTmpfs s ops)))) by
    (apply (runTmpfs_keeps TInv); [eapply sr_post; [apply DestroyTmpfs_ok|by right|by left]|by left]).
  all: split_and!; [destruct HI as [[]|(_ & ? & _ & ? & _)]; congruence|intros Hs; destruct HI as [HI|HI]; [by apply (tk_sound _ _ HI)|apply HI]| |].
  1, 3: intros Hs; assert (HH : TKnows (sc_handle (foldl runTmpfs s ops)) (watch (sc_log (foldl runTmpfs s ops))) ∧ tstuck (watch (sc_log (foldl runTmpfs s ops)))) by
    (apply (runTmpfs_keeps (λ h w, TKnows h w ∧ tstuck w)); [eapply sr_post; [apply tstuck_ok|done|done]|done]);
    split; [|apply HH]; pose proof (tstuck_ok _ HH) as Hd; by destruct (DestroyTmpfs _ _ _) as [[[]|c] s''].
  all: intros s'' Hd; pose proof (DestroyTmpfs_ok _ HI) as Ht; rewrite Hd in Ht; destruct Ht as (_ & _ & Ht); exact Ht.
Qed.

End TmpfsProofs.

(** ** Examples *)

(** A host that agrees, but for changing modes when the world says so. *)
Definition demoDirectory : Stat := mkStat 1 2 4096 0 0 (S_IFDIR + 448) 2.
Definition demoCipher : Stat := mkStat 1 3 1073741824 0 0 (S_IFREG + 384) 1.

#[local] Instance demoHost : StorageHost bool := {
  openDirectory := λ _ w, (Some demoDirectory, w);
  openMarker := λ _ w, (Some (mkMarker true 384 (slen noBackupMarkerContent) 0 0 1), w);
  readMarker := λ w, (Some noBackupMarkerContent, w);
  osMkdir := λ _ w, (true, w);
  osRemove := λ _ w, (true, w);
  createExclusive := λ _ w, (true, w);
  fstatFile := λ _ w, (Some demoCipher, w);
  truncateFile := λ _ _ w, (true, w);
  closeFile := λ _ w, (true, w);
  randomKey := λ w, (true, w);
  dupKey := λ w, (true, w);
  runTool := λ _ _ w, (Some "/dev/loop7", w);
  mountAt := λ _ _ _ _ w, (true, w);
  unmountAt := λ _ w, (true, w);
  chmodPath := λ _ w, (negb w, w);
  verifyLoopBacking := λ _ _ w, (true, w);
  verifyMapperBacking := λ _ _ w, (true, w);
  loopStillBacks := λ _ _ w, (Some false, w);
  mapperExists := λ _ w, (Some false, w);
  statParent := λ _ w, (Some demoDirectory, w);
  statChild := λ path w, (StatFound (if HasSuffix path ".luks" then demoCipher else demoDirectory), w);
  unlinkChild := λ _ w, (true, w);
  rmdirChild := λ _ w, (true, w);
  lstatAbsent := λ _ w, (true, w);
  contextDone := λ w, (false, w)
}.

Definition demoManager : LUKSManager := mkManager "/var/scratch" "/run/private-vm" (mkTools "/sbin/losetup" "/sbin/cryptsetup" "/sbin/mkfs.ext4").
Definition demoSession : string := "pvm-00000000000000000000000000000000".
Definition noHandle : LUKSHandle := newHandle "" noPath "" "" noPath noPath.

Lemma demo_typed path (w w' : bool) s : statChild path w = (StatFound s, w') → st_Mode s ≠ 0%Z.
Proof. cbn. destruct (HasSuffix _ _); by intros [= <- _]. Qed.

#[local] Abbreviation demoCreate chmodFails := (Create 0 0 demoManager demoSession 1073741824 (mkSt noHandle chmodFails [])).

(** The states it ends in. *)
Definition demoFull := Eval vm_compute in (demoCreate false).2.
Definition demoGone := Eval vm_compute in (Destroy 0 0 demoManager demoFull).2.
Definition demoHalf := Eval vm_compute in (demoCreate true).2.
Definition demoError := Eval vm_compute in match (demoCreate true).1 with Err (e, _) => e | Ok _ => "" end.

Lemma scratch_is_accounted_for_witness :
  demoCreate false = (Ok tt, demoFull) ∧ Full (sc_handle demoFull) (watch (sc_log demoFull)) ∧
  Destroy 0 0 demoManager demoFull = (Ok tt, demoGone) ∧ clear (watch (sc_log demoGone)).
Proof.
  assert (Hc : demoCreate false = (Ok tt, demoFull)) by (vm_compute; reflexivity).
  assert (Hd : Destroy 0 0 demoManager demoFull = (Ok tt, demoGone)) by (vm_compute; reflexivity).
  pose proof (scratch_is_accounted_for 0 0 demo_typed demoManager demoSession 1073741824 noHandle false []) as H.
  rewrite Hc in H. destruct H as (Hf & _ & Hk).
  split; [exact Hc|]. split; [exact (Hf eq_refl)|]. split; [exact Hd|]. destruct (Hk _ Hd) as [Hx|[Hx _]]; [exact Hx|discriminate Hx].
Defined.

Lemma half_mounted_scratch_is_stuck_witness :
  demoCreate true = (Err (demoError, true), demoHalf) ∧
  ∃ c s', Destroy 0 0 demoManager demoHalf = (Err c, s') ∧ w_mount (watch (sc_log s')) = true.
Proof.
  assert (Hc : demoCreate true = (Err (demoError, true), demoHalf)) by (vm_compute; reflexivity).
  split; [exact Hc|]. eapply (half_mounted_scratch_is_stuck 0 0 demo_typed demoManager demoSession 1073741824 noHandle true [] demoError demoHalf Hc);
  vm_compute; reflexivity.
Defined.
