(* ===== verification/ImageRegistry.v ===== *)
(** * The image-use registry

    Models [src/internal/storage/image_registry.go]: the registry that keeps
    [qemu-img] away from images that QEMU uses, its leases, and the interleaving
    of activations, releases and tooling operations of several sessions as a step
    relation. *)

From Stdlib Require Import ZArith Lia.
From stdpp Require Import strings base tactics option list gmap sorting.
From S2P Require Import Prelude GoText QemuSpec.

Open Scope string_scope.
Open Scope list_scope.

Record ImageUseRegistry := mkRegistry { ir_active : gmap string Z; ir_tooling : gset string }.

Record ImageLease := mkLease { il_paths : list string; il_released : bool }.

Definition NewImageUseRegistry : ImageUseRegistry := mkRegistry ∅ ∅.

(** [^uint32(0)] *)
Definition maxLeases : Z := 4294967295.

(** [r.active[path]]; an absent key reads as zero. *)
Definition activeCount (r : ImageUseRegistry) (path : string) : Z := default 0%Z (ir_active r !! path).

Definition inTooling (r : ImageUseRegistry) (path : string) : bool := bool_decide (path ∈ ir_tooling r).

Definition busy (r : ImageUseRegistry) (path : string) : bool := negb (activeCount r path =? 0)%Z || inTooling r path.

(** The paths in order, when each is clean and seen once. *)
Fixpoint checkImagePaths (seen paths : list string) : bool :=
  match paths with
  | [] => true
  | path :: rest =>
      if negb (cleanAbs path) || bool_decide (path ∈ seen) then false else checkImagePaths (path :: seen) rest
  end.

Definition cleanImagePaths (paths : list string) : result string (list string) :=
  fail_if ((len paths =? 0)%Z || (8 <? len paths)%Z) with "image path set is empty or exceeds its bound" ;;
  fail_if (negb (checkImagePaths [] paths)) with "image paths must be unique clean absolute paths" ;;
  Ok (merge_sort string_le paths).

(** What [withTool] does under the lock before the operation, and after it. *)
Definition beginTool (r : ImageUseRegistry) (paths : list string) : result string (list string * ImageUseRegistry) :=
  match cleanImagePaths paths with
  | Err _ => Err "image tooling requires clean paths and an operation"
  | Ok clean =>
      fail_if (existsb (busy r) clean) with "qemu-img cannot touch an active or concurrently inspected image" ;;
      Ok (clean, mkRegistry (ir_active r) (list_to_set clean ∪ ir_tooling r))
  end.

Definition endTool (r : ImageUseRegistry) (clean : list string) : ImageUseRegistry :=
  mkRegistry (ir_active r) (ir_tooling r ∖ list_to_set clean).

Definition addUse (active : gmap string Z) (path : string) : gmap string Z :=
  <[path := (default 0 (active !! path) + 1)%Z]> active.

Definition Activate (r : ImageUseRegistry) (paths : list string) : result string (ImageLease * ImageUseRegistry) :=
  clean <-! cleanImagePaths paths ;;
  fail_if (existsb (inTooling r) clean) with "QEMU image activation overlaps a tooling operation" ;;
  fail_if (existsb (λ path, activeCount r path =? maxLeases)%Z clean) with "QEMU image lease count overflow" ;;
  Ok (mkLease clean false, mkRegistry (foldl addUse (ir_active r) clean) (ir_tooling r)).

Definition removable (r : ImageUseRegistry) (paths : list string) : bool :=
  match cleanImagePaths paths with
  | Err _ => false
  | Ok clean => negb (existsb (busy r) clean)
  end.

(** The count goes down, and an entry that reaches zero is deleted. *)
Definition dropUse (active : gmap string Z) (path : string) : gmap string Z :=
  let count := (default 0 (active !! path) - 1)%Z in
  if (count =? 0)%Z then delete path active else <[path := count]> active.

Definition DestroyLease (l : ImageLease) (r : ImageUseRegistry) : result string unit * ImageLease * ImageUseRegistry :=
  if il_released l then (Ok tt, l, r)
  else if existsb (λ path, activeCount r path =? 0)%Z (il_paths l) then (Err "image lease ownership is inconsistent", l, r)
  else (Ok tt, mkLease (il_paths l) true, mkRegistry (foldl dropUse (ir_active r) (il_paths l)) (ir_tooling r)).

Definition AuditLease (l : ImageLease) : result string unit :=
  fail_if (negb (il_released l)) with "image lease remains active" ;; Ok tt.

(** ** Sessions that share the registry *)

(** The registry, every lease handed out, and the tooling operations under way. *)
Record Images := mkImages { im_registry : ImageUseRegistry; im_leases : list ImageLease; im_tools : list (list string) }.

Inductive images_step : Images → Images → Prop :=
| step_activate r leases tools paths lease r' :
    Activate r paths = Ok (lease, r') → images_step (mkImages r leases tools) (mkImages r' (leases ++ [lease]) tools)
| step_release r leases tools i lease res lease' r' :
    leases !! i = Some lease → DestroyLease lease r = (res, lease', r') →
    images_step (mkImages r leases tools) (mkImages r' (<[i := lease']> leases) tools)
| step_begin r leases tools paths clean r' :
    beginTool r paths = Ok (clean, r') → images_step (mkImages r leases tools) (mkImages r' leases (clean :: tools))
| step_end r leases before clean after :
    images_step (mkImages r leases (before ++ clean :: after)) (mkImages (endTool r clean) leases (before ++ after)).

Definition noImages : Images := mkImages NewImageUseRegistry [] [].

(** The lease still counts for the path. *)
Definition holds (path : string) (l : ImageLease) : bool := negb (il_released l) && bool_decide (path ∈ il_paths l).

Definition holders (path : string) (leases : list ImageLease) : Z := Z.of_nat (length (filter (λ l, holds path l = true) leases)).

(** ** Counting *)

Lemma holders_app path a b : holders path (a ++ b) = (holders path a + holders path b)%Z.
Proof. unfold holders. rewrite filter_app, length_app. lia. Qed.

Lemma holders_one path l : holders path [l] = if holds path l then 1%Z else 0%Z.
Proof. unfold holders. rewrite filter_cons, filter_nil. destruct (holds path l); by case_decide. Qed.

Lemma holders_insert path leases i l l' :
  leases !! i = Some l → holders path (<[i := l']> leases) =
    (holders path leases + (if holds path l' then 1 else 0) - (if holds path l then 1 else 0))%Z.
Proof.
  intros Hi. rewrite insert_take_drop by (by apply lookup_lt_Some in Hi). rewrite <- (take_drop_middle _ _ _ Hi) at 3.
  change (l' :: ?t) with ([l'] ++ t). change (l :: ?t) with ([l] ++ t). rewrite !holders_app, !holders_one. lia.
Qed.

Lemma holders_nonneg path leases : (0 ≤ holders path leases)%Z.
Proof. unfold holders. lia. Qed.

Lemma holders_live path leases i l : leases !! i = Some l → holds path l = true → (1 ≤ holders path leases)%Z.
Proof.
  intros Hi Hl. rewrite <- (take_drop_middle _ _ _ Hi). change (l :: ?t) with ([l] ++ t). rewrite !holders_app, holders_one, Hl.
  pose proof (holders_nonneg path (take i leases)). pose proof (holders_nonneg path (drop (S i) leases)). lia.
Qed.

Lemma count_add active clean path :
  NoDup clean → default 0%Z (foldl addUse active clean !! path) = (default 0 (active !! path) + if bool_decide (path ∈ clean) then 1 else 0)%Z.
Proof.
  revert active. induction clean as [|p clean IH]; intros active Hn; cbn [foldl]; [case_bool_decide; [by set_solver|lia]|].
  apply NoDup_cons in Hn as [Hp Hn]. rewrite IH by done. unfold addUse. destruct (decide (p = path)) as [->|Hne].
  - rewrite lookup_insert_eq. rewrite (bool_decide_eq_false_2 (path ∈ clean)), bool_decide_eq_true_2 by (done || set_solver). cbn. lia.
  - rewrite lookup_insert_ne by done. do 2 case_bool_decide; set_solver || lia.
Qed.

Lemma count_drop active clean path :
  NoDup clean → default 0%Z (foldl dropUse active clean !! path) = (default 0 (active !! path) - if bool_decide (path ∈ clean) then 1 else 0)%Z.
Proof.
  revert active. induction clean as [|p clean IH]; intros active Hn; cbn [foldl]; [case_bool_decide; [by set_solver|lia]|].
  apply NoDup_cons in Hn as [Hp Hn]. rewrite IH by done. unfold dropUse. destruct (decide (p = path)) as [->|Hne].
  - rewrite (bool_decide_eq_false_2 (path ∈ clean)), (bool_decide_eq_true_2 (path ∈ path :: clean)) by (done || set_solver).
    destruct (_ =? 0)%Z eqn:E; [rewrite lookup_delete_eq|rewrite lookup_insert_eq]; cbn; lia.
  - destruct (_ =? 0)%Z; [rewrite lookup_delete_ne by done|rewrite lookup_insert_ne by done]; do 2 case_bool_decide; set_solver || lia.
Qed.

(** ** Clean paths *)

Lemma checkImagePaths_ok seen paths :
  checkImagePaths seen paths = true → NoDup paths ∧
  ∀ p, p ∈ paths → (p ∉ seen) ∧ cleanAbs p = true.
Proof.
  revert seen. induction paths as [|p paths IH]; intros seen; cbn [checkImagePaths]; [intros _; split; [constructor|set_solver]|].
  destruct (cleanAbs p) eqn:Hc; [|done]. case_bool_decide; [done|]. intros [Hn Ha]%IH. split; [constructor; [|done]; intros Hp; apply Ha in Hp; set_solver|].
  intros q [->|Hq]%elem_of_cons; [done|]. destruct (Ha q Hq). set_solver.
Qed.

Lemma cleanImagePaths_ok paths clean :
  cleanImagePaths paths = Ok clean → NoDup clean ∧ (∀ p, p ∈ clean ↔ p ∈ paths) ∧ Forall (λ p, cleanAbs p = true) clean.
Proof.
  unfold cleanImagePaths. destruct (_ || _); [done|]. destruct (checkImagePaths [] paths) eqn:Hc; [|done]. intros [= <-].
  apply checkImagePaths_ok in Hc as [Hn Ha]. pose proof (merge_sort_Permutation string_le paths) as Hp. split; [by rewrite Hp|]. split; [by intros p; rewrite Hp|].
  rewrite Forall_forall. intros p. rewrite Hp. intros ?. by apply Ha.
Qed.

Lemma cleanImagePaths_one path : cleanAbs path = true → cleanImagePaths [path] = Ok [path].
Proof. intros Hc. unfold cleanImagePaths. cbn. by rewrite Hc. Qed.

Lemma existsb_false {A} (f : A → bool) l : existsb f l = false ↔ ∀ x, x ∈ l → f x = false.
Proof.
  induction l as [|a l IH]; cbn; [by set_solver|]. rewrite orb_false_iff, IH. split.
  - intros [Ha Hl] x [->|Hx]%elem_of_cons; [done|by apply Hl].
  - intros H. split; [apply H; by left|]. intros x Hx. apply H. by right.
Qed.

(** ** The invariant *)

Record Sound (g : Images) : Prop := {
  so_count : ∀ path, activeCount (im_registry g) path = holders path (im_leases g);
  so_bound : ∀ path, (activeCount (im_registry g) path ≤ maxLeases)%Z;
  so_nodup : ∀ i l, im_leases g !! i = Some l → NoDup (il_paths l);
  so_tooling : ∀ path, path ∈ ir_tooling (im_registry g) ↔ path ∈ concat (im_tools g);
  so_apart : NoDup (concat (im_tools g));
  so_idle : ∀ path, path ∈ ir_tooling (im_registry g) → activeCount (im_registry g) path = 0%Z
}.

Lemma Sound_activate r leases tools paths lease r' :
  Sound (mkImages r leases tools) → Activate r paths = Ok (lease, r') → Sound (mkImages r' (leases ++ [lease]) tools).
Proof.
  intros [Hc Hb Hn Ht Ha Hi]. unfold Activate. destruct (cleanImagePaths paths) as [clean|] eqn:Hp; [|done].
  destruct (existsb (inTooling r) clean) eqn:Hx; [done|]. destruct (existsb (λ path, activeCount r path =? maxLeases)%Z clean) eqn:Hm; [done|]. intros [= <- <-].
  apply cleanImagePaths_ok in Hp as (Hd & _). rewrite existsb_false in Hx, Hm.
  assert (Hcount : ∀ p, activeCount (mkRegistry (foldl addUse (ir_active r) clean) (ir_tooling r)) p = (activeCount r p + if bool_decide (p ∈ clean) then 1 else 0)%Z).
  { intros p. unfold activeCount. cbn. by apply count_add. }
  constructor; cbn [im_registry im_leases im_tools]; cbn in Hc, Hb, Hn, Ht, Ha, Hi.
  - intros p. rewrite Hcount, Hc, holders_app, holders_one. unfold holds. cbn. by case_bool_decide.
  - intros p. rewrite Hcount. specialize (Hb p). case_bool_decide as Hin; [|lia]. specialize (Hm p Hin). cbn in Hm. lia.
  - intros i l [?|[_ Hl]]%lookup_app_Some; [by eapply Hn|]. by apply list_lookup_singleton_Some in Hl as [_ <-].
  - done.
  - done.
  - intros p Hin. rewrite Hcount. specialize (Hi p Hin). rewrite bool_decide_eq_false_2; [lia|]. intros Hp%Hx.
    unfold inTooling in Hp. by apply bool_decide_eq_false in Hp.
Qed.

Lemma lease_released r leases tools i l :
  Sound (mkImages r leases tools) → leases !! i = Some l → (DestroyLease l r).1.1 = Ok tt.
Proof.
  intros HS Hi. unfold DestroyLease. destruct (il_released l) eqn:Hr; [done|]. destruct (existsb _ _) eqn:Hx; [|done].
  apply existsb_exists in Hx as (p & Hp & Hz). apply list_elem_of_In in Hp. pose proof (so_count _ HS p) as Hc. cbn in Hc, Hz.
  assert (1 ≤ holders p leases)%Z; [|lia]. eapply holders_live; [done|]. unfold holds. by rewrite Hr, bool_decide_eq_true_2.
Qed.

Lemma Sound_release r leases tools i l res l' r' :
  Sound (mkImages r leases tools) → leases !! i = Some l → DestroyLease l r = (res, l', r') → Sound (mkImages r' (<[i := l']> leases) tools).
Proof.
  intros HS Hl. unfold DestroyLease. destruct (il_released l) eqn:Hr; [intros [= <- <- <-]; by rewrite list_insert_id|].
  destruct (existsb _ _); [intros [= <- <- <-]; by rewrite list_insert_id|]. intros [= <- <- <-]. destruct HS as [Hc Hb Hn Ht Ha Hi]. cbn in Hc, Hb, Hn, Ht, Ha, Hi.
  assert (Hcount : ∀ p, activeCount (mkRegistry (foldl dropUse (ir_active r) (il_paths l)) (ir_tooling r)) p = (activeCount r p - if bool_decide (p ∈ il_paths l) then 1 else 0)%Z).
  { intros p. unfold activeCount. cbn. apply count_drop. by eapply Hn. }
  constructor; cbn [im_registry im_leases im_tools]; try done.
  - intros p. rewrite Hcount, Hc, (holders_insert _ _ _ l) by done. unfold holds. cbn. rewrite Hr. cbn. by case_bool_decide; lia.
  - intros p. rewrite Hcount. specialize (Hb p). case_bool_decide; lia.
  - intros j l'' Hj. destruct (decide (i = j)) as [<-|Hne].
    + rewrite list_lookup_insert_eq in Hj by (by apply lookup_lt_Some in Hl). injection Hj as <-. by eapply (Hn i l).
    + rewrite list_lookup_insert_ne in Hj by done. by eapply Hn.
  - intros p Hin. rewrite Hcount. specialize (Hi p Hin). rewrite bool_decide_eq_false_2; [lia|]. intros Hp.
    assert (1 ≤ holders p leases)%Z; [|rewrite <- Hc in *; lia]. eapply holders_live; [done|]. unfold holds. by rewrite Hr, bool_decide_eq_true_2.
Qed.

Lemma Sound_begin r leases tools paths clean r' :
  Sound (mkImages r leases tools) → beginTool r paths = Ok (clean, r') → Sound (mkImages r' leases (clean :: tools)).
Proof.
  intros [Hc Hb Hn Ht Ha Hi]. unfold beginTool. destruct (cleanImagePaths paths) as [clean'|] eqn:Hp; [|done].
  destruct (existsb (busy r) clean') eqn:Hx; [done|]. intros [= -> <-]. apply cleanImagePaths_ok in Hp as (Hd & _). rewrite existsb_false in Hx.
  assert (Hfree : ∀ p, p ∈ clean → activeCount r p = 0%Z ∧ p ∉ ir_tooling r).
  { intros p Hin. specialize (Hx p Hin). unfold busy, inTooling in Hx. apply orb_false_iff in Hx as [H1 H2%bool_decide_eq_false]. split; [lia|done]. }
  constructor; cbn [im_registry im_leases im_tools ir_tooling ir_active concat]; cbn in Hc, Hb, Hn, Ht, Ha, Hi; try done.
  - intros p. rewrite elem_of_union, elem_of_list_to_set, elem_of_app, Ht. done.
  - apply NoDup_app. split; [done|]. split; [|done]. intros p Hin. rewrite <- Ht. by apply Hfree.
  - intros p [Hin%elem_of_list_to_set|Hin]%elem_of_union; [by apply Hfree|by apply Hi].
Qed.

Lemma Sound_end r leases before clean after :
  Sound (mkImages r leases (before ++ clean :: after)) → Sound (mkImages (endTool r clean) leases (before ++ after)).
Proof.
  intros [Hc Hb Hn Ht Ha Hi]. cbn in Hc, Hb, Hn, Ht, Ha, Hi. rewrite concat_app in Ht, Ha. cbn [concat] in Ht, Ha.
  assert (Hp : concat before ++ clean ++ concat after ≡ₚ clean ++ concat (before ++ after)) by (rewrite concat_app; solve_Permutation).
  rewrite Hp in Ha. apply NoDup_app in Ha as (Hd & Hx & Ha). constructor; cbn [im_registry im_leases im_tools endTool ir_tooling ir_active]; try done.
  - intros p. rewrite elem_of_difference, elem_of_list_to_set, Ht, Hp, elem_of_app. specialize (Hx p). tauto.
  - intros p [Hin _]%elem_of_difference. by apply Hi.
Qed.

Lemma Sound_step g g' : images_step g g' → Sound g → Sound g'.
Proof.
  intros [] HS; [by eapply Sound_activate|by eapply Sound_release|by eapply Sound_begin|by apply Sound_end].
Qed.

Lemma Sound_start : Sound noImages.
Proof. constructor; cbn; try done; [set_solver|constructor]. Qed.

Lemma Sound_reachable g : rtc images_step noImages g → Sound g.
Proof.
  intros H. remember noImages as g0. assert (HS : Sound g0) by (subst; apply Sound_start). clear Heqg0. induction H; [done|].
  apply IHrtc. by eapply Sound_step.
Qed.

(** No live lease and no tooling operation has the path. *)
Definition unused (g : Images) (path : string) : Prop := holders path (im_leases g) = 0%Z ∧ path ∉ concat (im_tools g).

(** Whatever activations, releases and tooling operations of several
    sessions interleave, each path is counted once for every live lease that has
    it, the count never wraps, a path under a [qemu-img] operation is under no
    other and in no live lease, every lease can be released, and [removable]
    says exactly that a clean path is unused. *)
Theorem tools_never_touch_live_images g path :
  rtc images_step noImages g →
  activeCount (im_registry g) path = holders path (im_leases g) ∧ (0 ≤ holders path (im_leases g) ≤ maxLeases)%Z ∧
  (path ∈ concat (im_tools g) → holders path (im_leases g) = 0%Z) ∧ NoDup (concat (im_tools g)) ∧
  (∀ i l, im_leases g !! i = Some l → (DestroyLease l (im_registry g)).1.1 = Ok tt) ∧
  (removable (im_registry g) [path] = true ↔ cleanAbs path = true ∧ unused g path).
Proof.
  intros Hg. pose proof (Sound_reachable g Hg) as HS. destruct g as [r leases tools]. cbn [im_registry im_leases im_tools] in *.
  pose proof HS as [Hc Hb Hn Ht Ha Hi]. cbn [im_registry im_leases im_tools] in *.
  split; [apply Hc|]. split; [rewrite <- Hc; pose proof (holders_nonneg path leases); specialize (Hb path); specialize (Hc path); lia|].
  split; [intros Hp; rewrite <- Hc; by apply Hi, Ht|]. split; [done|]. split; [intros i l Hl; by eapply lease_released|].
  unfold removable, unused. cbn [im_leases im_tools]. rewrite <- Hc, <- Ht. destruct (cleanAbs path) eqn:Hcl.
  - rewrite cleanImagePaths_one by done. cbn. unfold busy, inTooling. rewrite orb_false_r, negb_true_iff, orb_false_iff, negb_false_iff, Z.eqb_eq, bool_decide_eq_false. tauto.
  - unfold cleanImagePaths. cbn. rewrite Hcl. cbn. split; [done|by intros []].
Qed.

(** ** Examples *)

Definition demoPaths : list string := ["/var/base.qcow2"; "/run/a/root-scanner.qcow2"].
Definition demoImages : Images :=
  match Activate NewImageUseRegistry demoPaths with Ok (l, r) => mkImages r [l] [] | Err _ => noImages end.

Lemma tools_never_touch_live_images_witness :
  rtc images_step noImages demoImages ∧ activeCount (im_registry demoImages) "/var/base.qcow2" = 1%Z ∧ ¬ unused demoImages "/var/base.qcow2" ∧
  removable (im_registry demoImages) ["/run/b/root-scanner.qcow2"] = true.
Proof.
  assert (Hr : rtc images_step noImages demoImages).
  { apply rtc_once. unfold demoImages, noImages. destruct (Activate NewImageUseRegistry demoPaths) as [[l r]|] eqn:E; [|by vm_compute in E].
    apply (step_activate NewImageUseRegistry [] [] demoPaths l r E). }
  destruct (tools_never_touch_live_images demoImages "/var/base.qcow2" Hr) as (Hc & _ & _ & _ & _ & Hrem).
  split; [exact Hr|]. split; [vm_compute; reflexivity|]. split; [|vm_compute; reflexivity].
  intros Hu. assert (removable (im_registry demoImages) ["/var/base.qcow2"] = false) as Hf by (vm_compute; reflexivity).
  rewrite Hf in Hrem. destruct Hrem as [_ Hb]. discriminate Hb. split; [vm_compute; reflexivity|exact Hu].
Defined.
