(* ===== verification/Overlay.v ===== *)
(** * Root overlays

    Models [src/internal/storage/overlay.go]: the creation of a fresh QCOW2
    overlay over a verified read-only base image with [qemu-img], under the
    image-use registry, and its activation, removal and audit.  The calls run in
    the state of [StorageScratch]; [encoding/json] is a parameter. *)

From Stdlib Require Import ZArith Lia.
From stdpp Require Import strings base tactics option list gmap.
From S2P Require Import Prelude GoText Transfer QemuSpec StorageScratch ImageRegistry.

Open Scope string_scope.
Open Scope list_scope.

Record OverlayManager := mkOverlayManager { om_QEMUImg : string }.

Record imageInfo := mkImageInfo {
  ig_Format : string;
  ig_VirtualSize : Z;
  ig_BackingFilename : string;
  ig_FullBackingFilename : string
}.

Record OverlayHandle := mkOverlay {
  oh_path : string;
  oh_basePath : string;
  oh_identity : imageFileIdentity;
  oh_parent : pathIdentity;
  oh_destroyed : bool
}.

(** The registry is shared; the handle is the caller's. *)
Record OverlayState := mkOverlayState { ov_registry : ImageUseRegistry; ov_handle : option OverlayHandle }.

Definition set_registry (r : ImageUseRegistry) (s : OverlayState) : OverlayState := mkOverlayState r (ov_handle s).
Definition set_overlay (h : OverlayHandle) (s : OverlayState) : OverlayState := mkOverlayState (ov_registry s) (Some h).

(** Files opened by path; [fstatFile] inspects them. *)
Class ImageHost (W : Type) := {
  openImage : string → W → bool * W;       (* openat2 read-only, without links *)
  openOverlay : string → W → bool * W;     (* openat2 read-write, without links *)
  chmodOpen : string → W → bool * W
}.

#[local] Notation "'do' x := m ; k" := (bind m (λ x, k)) (at level 100, x binder, m at level 99, right associativity).

(** [stat] is that of an image file: regular, one link, not empty, owned. *)
Definition ownedImage (euid egid : Z) (s : Stat) : bool :=
  (fileType (st_Mode s) =? S_IFREG)%Z && (st_Nlink s =? 1)%Z && (0 <? st_Size s)%Z &&
  ((st_Uid s =? 0)%Z || (st_Uid s =? euid)%Z) && (st_Gid s =? egid)%Z.

Section Overlays.
Context (euid egid : Z) {W : Type} `{!StorageHost W} `{!ImageHost W}.

(** A strict decoder's first value, and whether anything follows it. *)
Context (DecodeInfo : string → option (imageInfo * bool)).

#[local] Abbreviation M := (M (W := W) (Hd := OverlayState)).

Definition imageIdentityFromFD (path : string) (writable : bool) : M imageFileIdentity :=
  do s := quiet (fstatFile path) ;
  match s with
  | None => throw "inspect verified image"
  | Some s =>
      if ownedImage euid egid s && (permissions (st_Mode s) =? (if writable then 384 else 292))%Z then ret (imageOf s)
      else throw "verified image type, mode, links, owner, or group is unsafe"
  end.

Definition inspectImageFile (path : string) (writable : bool) : M imageFileIdentity :=
  if negb (cleanAbs path) then throw "image path must be a clean absolute path"
  else do _ := must (openImage path) "open verified image safely" ; imageIdentityFromFD path writable.

Definition verifyReadOnlyBase (path : string) : M imageFileIdentity := inspectImageFile path false.

Definition verifyImageIdentity (path : string) (expected : imageFileIdentity) : M unit :=
  do current := inspectImageFile path (permissions (ii_mode expected) =? 384)%Z ;
  if bool_decide (current = expected) then ret tt else throw "verified image identity changed during operation".

Definition info (m : OverlayManager) (path : string) : M imageInfo :=
  do out := quiet (runTool (om_QEMUImg m) ["info"; "--output=json"; path]) ;
  match out with
  | None => throw "external command failed"
  | Some out =>
      match DecodeInfo out with
      | None => throw "qemu-img returned malformed bounded JSON"
      | Some (_, true) => throw "qemu-img returned trailing JSON"
      | Some (value, false) => ret value
      end
  end.

(** The created file is a base by its mode, or only private enough to be tightened. *)
Definition openCreatedOverlay (path : string) : M imageFileIdentity :=
  do _ := must (openOverlay path) "open created root overlay safely failed" ;
  λ s, match imageIdentityFromFD path false s with
       | (Ok i, s) => (Ok i, s)
       | (Err _, s) =>
           (do st := quiet (fstatFile path) ;
            match st with
            | Some st =>
                if ownedImage euid egid st && (Z.land (st_Mode st) 18 =? 0)%Z then ret (imageOf st)
                else throw "created root overlay identity is unsafe"
            | None => throw "created root overlay identity is unsafe"
            end) s
       end.

(** The deferred removal of an overlay whose creation failed. *)
Definition removing {A} (overlay : string) (parent : pathIdentity) (identity : imageFileIdentity) (m : M A) : M A := λ s,
  match m s with
  | (Ok a, s) => (Ok a, s)
  | (Err e, s) =>
      match removeOwnedImage overlay parent identity s with
      | (Ok _, s) => (Err e, s)
      | (Err _, s) => (Err (e +:+ " rollback root overlay removal failed"), s)
      end
  end.

(** What is said of the created image must be what was asked for. *)
Definition checkCreated (m : OverlayManager) (basePath overlay : string) (baseIdentity overlayIdentity : imageFileIdentity) (baseInfo : imageInfo) : M unit :=
  do created := info m overlay ;
  let backing := if bool_decide (ig_FullBackingFilename created = "") then ig_BackingFilename created else ig_FullBackingFilename created in
  if negb (bool_decide (ig_Format created = "qcow2")) || negb (ig_VirtualSize created =? ig_VirtualSize baseInfo)%Z ||
     negb (bool_decide (Clean backing = basePath))
  then throw "created overlay does not reference the verified base exactly"
  else
    do _ := verifyImageIdentity basePath baseIdentity ;
    verifyImageIdentity overlay overlayIdentity.

Definition finishOverlay (m : OverlayManager) (basePath overlay : string) (baseIdentity : imageFileIdentity) (parent : pathIdentity) (baseInfo : imageInfo)
  (opened : imageFileIdentity) : M unit :=
  do ok := quiet (chmodOpen overlay) ;
  if negb ok then removing overlay parent opened (throw "restrict root overlay permissions failed")
  else
    λ s, match imageIdentityFromFD overlay true s with
         | (Err e, s) => removing overlay parent noImage (throw e) s
         | (Ok identity, s) =>
             removing overlay parent identity
               (do _ := checkCreated m basePath overlay baseIdentity identity baseInfo ;
                update (set_overlay (mkOverlay overlay basePath identity parent false))) s
         end.

(** What runs while the registry keeps both images from QEMU. *)
Definition makeOverlay (m : OverlayManager) (basePath overlay : string) (baseIdentity : imageFileIdentity) (parent : pathIdentity) : M unit :=
  do _ := verifyImageIdentity basePath baseIdentity ;
  do baseInfo := info m basePath ;
  if negb (bool_decide (ig_Format baseInfo = "qcow2")) || (ig_VirtualSize baseInfo =? 0)%Z || negb (bool_decide (ig_BackingFilename baseInfo = "")) ||
     negb (bool_decide (ig_FullBackingFilename baseInfo = ""))
  then throw "verified base image is not a standalone non-empty QCOW2 image"
  else
    do _ := verifyImageIdentity basePath baseIdentity ;
    do r := quiet (runTool (om_QEMUImg m) ["create"; "-f"; "qcow2"; "-F"; "qcow2"; "-b"; basePath; overlay]) ;
    match r with
    | None => throw "external command failed"
    | Some _ => do opened := openCreatedOverlay overlay ; finishOverlay m basePath overlay baseIdentity parent baseInfo opened
    end.

Definition withTool {A} (paths : list string) (operation : M A) : M A := λ s,
  match beginTool (ov_registry (sc_handle s)) paths with
  | Err e => (Err e, s)
  | Ok (clean, r) =>
      let '(a, s) := operation (mkSt (set_registry r (sc_handle s)) (sc_world s) (sc_log s)) in
      (a, mkSt (set_registry (endTool (ov_registry (sc_handle s)) clean) (sc_handle s)) (sc_world s) (sc_log s))
  end.

Definition CreateOverlay (m : OverlayManager) (outerDirectory basePath name : string) : M unit :=
  if negb (cleanAbs (om_QEMUImg m)) then throw "absolute qemu-img path, runner and image-use registry are required"
  else if negb (bool_decide (name ∈ opaqueNames)) || negb (bool_decide (Ext name = ".qcow2")) then throw "overlay name is not allowlisted"
  else
    do _ := verifyPrivateDirectory euid outerDirectory ;
    do parentIdentity := inspectPrivateDirectoryIdentity euid egid outerDirectory ;
    do baseIdentity := verifyReadOnlyBase basePath ;
    let overlay := joinPath [outerDirectory; name] in
    withTool [basePath; overlay] (makeOverlay m basePath overlay baseIdentity parentIdentity).

Definition ActivateOverlay (h : OverlayHandle) : M ImageLease :=
  if oh_destroyed h then throw "destroyed root overlay cannot be activated"
  else
    do _ := verifyImageIdentity (oh_path h) (oh_identity h) ;
    λ s, match Activate (ov_registry (sc_handle s)) [oh_basePath h; oh_path h] with
         | Err e => (Err e, s)
         | Ok (lease, r) => (Ok lease, mkSt (set_registry r (sc_handle s)) (sc_world s) (sc_log s))
         end.

Definition overlay_destroyed (h : OverlayHandle) : OverlayHandle := mkOverlay (oh_path h) (oh_basePath h) (oh_identity h) (oh_parent h) true.

Definition DestroyOverlay (h : OverlayHandle) : M unit :=
  if oh_destroyed h then ret tt
  else
    do st := handle ;
    if negb (removable (ov_registry st) [oh_path h]) then throw "refusing to remove an active root overlay"
    else do _ := removeOwnedImage (oh_path h) (oh_parent h) (oh_identity h) ; update (set_overlay (overlay_destroyed h)).

Definition AuditOverlay (h : OverlayHandle) : M unit :=
  if negb (oh_destroyed h) then throw "root overlay cleanup has not completed"
  else must (lstatAbsent (oh_path h)) "root overlay remains present".

End Overlays.

(** * Properties *)

Section OverlayProofs.
Context (euid egid : Z) {W : Type} `{!StorageHost W} `{!ImageHost W}.
Context (DecodeInfo : string → option (imageInfo * bool)).

#[local] Abbreviation M := (M (W := W) (Hd := OverlayState)).
#[local] Abbreviation St := (St (W := W) (Hd := OverlayState)).

(** The handle and the registry are as they were; the file may be removed. *)
Definition keeps {A} (m : M A) (good : A → Prop) : Prop :=
  ∀ s, match m s with (Ok a, s') => good a ∧ sc_handle s' = sc_handle s | (Err _, s') => sc_handle s' = sc_handle s end.

Lemma ovk_inert {A} (m : M A) good : inert m good → keeps m good.
Proof. intros H s. specialize (H s). destruct (m s) as [[a|e] s']; [by destruct H as (? & ? & _)|by destruct H]. Qed.

Lemma ovk_bind {A B} (m : M A) (k : A → M B) good good' : keeps m good → (∀ a, good a → keeps (k a) good') → keeps (bind m k) good'.
Proof.
  intros Hm Hk s. unfold bind. specialize (Hm s). destruct (m s) as [[a|e] s1]; [|done]. destruct Hm as (Ha & Hh). specialize (Hk a Ha s1).
  destruct (k a s1) as [[b|e] s2]; rewrite <- Hh; [by destruct Hk|done].
Qed.

Lemma ovk_ret {A} (a : A) (good : A → Prop) : good a → keeps (ret a) good.
Proof. by intros H s. Qed.
Lemma ovk_throw {A} e (good : A → Prop) : keeps (throw (A := A) e) good.
Proof. by intros s. Qed.
Lemma ovk_quiet {A} (f : W → A * W) : keeps (quiet f) (λ _, True).
Proof. intros s. unfold quiet. by destruct (f _). Qed.
Lemma ovk_must f e : keeps (must f e) (λ _, True).
Proof. apply ovk_inert, must_inert. Qed.
Lemma ovk_note c : keeps (note c) (λ _, True).
Proof. by intros s. Qed.

Ltac keeping := repeat first
  [ apply ovk_ret; done | apply ovk_throw | eapply ovk_bind; [first [apply ovk_quiet | apply ovk_must | apply ovk_note]|intros ? _] | case_match ].

Lemma removeOwnedImage_keeps path parent identity : keeps (removeOwnedImage path parent identity) (λ _, True).
Proof. unfold removeOwnedImage, mustNote. keeping. Qed.

Lemma identity_keeps path writable : keeps (imageIdentityFromFD euid egid path writable) (λ i, permissions (ii_mode i) = if writable then 384%Z else 292%Z).
Proof.
  unfold imageIdentityFromFD. eapply ovk_bind; [apply ovk_quiet|intros [s|] _; [|apply ovk_throw]]. destruct (ownedImage _ _ _ && _) eqn:E; [|apply ovk_throw].
  apply ovk_ret. apply andb_true_iff in E as [_ E]. cbn. lia.
Qed.

Lemma inspectImage_keeps path writable : keeps (inspectImageFile euid egid path writable) (λ i, permissions (ii_mode i) = if writable then 384%Z else 292%Z).
Proof. unfold inspectImageFile. case_match; [apply ovk_throw|]. eapply ovk_bind; [apply ovk_must|intros _ _]. apply identity_keeps. Qed.

Lemma verifyImage_keeps path expected : keeps (verifyImageIdentity euid egid path expected) (λ _, True).
Proof. eapply ovk_bind; [apply inspectImage_keeps|intros i _]. keeping. Qed.

Lemma info_keeps m path : keeps (info DecodeInfo m path) (λ _, True).
Proof. unfold info. keeping. Qed.

Lemma openCreated_keeps path : keeps (openCreatedOverlay euid egid path) (λ _, True).
Proof.
  eapply ovk_bind; [apply ovk_must|intros _ _]. intros s. pose proof (identity_keeps path false s) as H.
  destruct (imageIdentityFromFD _ _ _ _ s) as [[i|e] s1]; [by destruct H|]. rewrite <- H. revert s1 H. intros s1 _.
  apply (ovk_bind _ _ (λ _, True) (λ _, True)); [apply ovk_quiet|intros st _]. keeping.
Qed.

Lemma checkCreated_keeps m basePath overlay bi oi inf : keeps (checkCreated euid egid DecodeInfo m basePath overlay bi oi inf) (λ _, True).
Proof.
  eapply ovk_bind; [apply info_keeps|intros created _]. cbv zeta. destruct (negb _ || _ || _); [apply ovk_throw|]. eapply ovk_bind; [apply verifyImage_keeps|intros _ _]. apply verifyImage_keeps.
Qed.

(** What a creation does to the state: nothing, or a live handle with a private identity. *)
Definition makes (overlay basePath : string) (parent : pathIdentity) (m : M unit) : Prop :=
  ∀ s, match m s with
       | (Ok _, s') => ∃ i, permissions (ii_mode i) = 384%Z ∧ sc_handle s' = set_overlay (mkOverlay overlay basePath i parent false) (sc_handle s)
       | (Err _, s') => sc_handle s' = sc_handle s
       end.

Lemma makes_bind {A} overlay basePath parent (m : M A) good k :
  keeps m good → (∀ a, good a → makes overlay basePath parent (k a)) → makes overlay basePath parent (bind m k).
Proof.
  intros Hm Hk s. unfold bind. specialize (Hm s). destruct (m s) as [[a|e] s1]; [|done]. destruct Hm as (Ha & Hh). specialize (Hk a Ha s1).
  destruct (k a s1) as [[b|e] s2]; rewrite <- Hh; done.
Qed.

Lemma makes_throw overlay basePath parent e : makes overlay basePath parent (throw e).
Proof. by intros s. Qed.

Lemma makes_removing overlay basePath parent path p i m : makes overlay basePath parent m → makes overlay basePath parent (removing path p i m).
Proof.
  intros Hm s. unfold removing. specialize (Hm s). destruct (m s) as [[a|e] s1]; [done|]. pose proof (removeOwnedImage_keeps path p i s1) as H.
  destruct (removeOwnedImage _ _ _ s1) as [[b|c] s2]; [destruct H as [_ H]|]; congruence.
Qed.

Lemma finish_makes m basePath overlay bi parent inf opened : makes overlay basePath parent (finishOverlay euid egid DecodeInfo m basePath overlay bi parent inf opened).
Proof.
  eapply makes_bind; [apply ovk_quiet|intros ok _]. case_match; [apply makes_removing, makes_throw|]. intros s. pose proof (identity_keeps overlay true s) as H0.
  destruct (imageIdentityFromFD _ _ _ _ s) as [[i|e] s1]; [|rewrite <- H0; apply (makes_removing overlay basePath parent), makes_throw].
  destruct H0 as [Hi H0]. rewrite <- H0. apply (makes_removing overlay basePath parent). eapply makes_bind; [apply checkCreated_keeps|intros _ _]. intros s2. cbn. by exists i.
Qed.

Lemma make_makes m basePath overlay bi parent : makes overlay basePath parent (makeOverlay euid egid DecodeInfo m basePath overlay bi parent).
Proof.
  eapply makes_bind; [apply verifyImage_keeps|intros _ _]. eapply makes_bind; [apply info_keeps|intros inf _]. case_match; [apply makes_throw|].
  eapply makes_bind; [apply verifyImage_keeps|intros _ _]. eapply makes_bind; [apply ovk_quiet|intros [out|] _; [|apply makes_throw]].
  eapply makes_bind; [apply openCreated_keeps|intros opened _]. apply finish_makes.
Qed.

Lemma endTool_beginTool r paths clean r' : beginTool r paths = Ok (clean, r') → endTool r' clean = r.
Proof.
  unfold beginTool. destruct (cleanImagePaths paths) as [c|]; [|done]. destruct (existsb (busy r) c) eqn:Hx; [done|]. intros [= -> <-].
  rewrite existsb_false in Hx. unfold endTool. cbn. destruct r as [active tooling]. f_equal. apply set_eq. intros p. cbn.
  rewrite elem_of_difference, elem_of_union, elem_of_list_to_set. split; [tauto|]. intros Hp. split; [by right|]. intros Hc%Hx.
  unfold busy, inTooling in Hc. apply orb_false_iff in Hc as [_ Hc%bool_decide_eq_false]. done.
Qed.

Lemma withTool_makes overlay basePath parent paths m : makes overlay basePath parent m → makes overlay basePath parent (withTool paths m).
Proof.
  intros Hm s. unfold withTool. destruct (beginTool _ _) as [[clean r]|e] eqn:Hb; [|done]. apply endTool_beginTool in Hb.
  set (s0 := mkSt _ _ _). specialize (Hm s0). destruct (m s0) as [[a|e] s1]; cbn [sc_handle].
  - destruct Hm as (i & Hi & Hh). exists i. split; [done|]. rewrite Hh. unfold set_overlay, set_registry. cbn. by rewrite Hb.
  - rewrite Hm. unfold set_registry. cbn. rewrite Hb. by destruct (sc_handle s).
Qed.

(** A creation leaves the registry as it was, and on success a live handle. *)
Lemma CreateOverlay_ok m outer basePath name s :
  match CreateOverlay euid egid DecodeInfo m outer basePath name s with
  | (Ok _, s') => ∃ parent i, permissions (ii_mode i) = 384%Z ∧ sc_handle s' = set_overlay (mkOverlay (joinPath [outer; name]) basePath i parent false) (sc_handle s)
  | (Err _, s') => sc_handle s' = sc_handle s
  end.
Proof.
  unfold CreateOverlay. destruct (negb _); [done|]. destruct (_ || _); [done|]. unfold bind.
  pose proof (verify_inert (Hd := OverlayState) euid outer s) as H1. destruct (verifyPrivateDirectory euid outer s) as [[[]|e] s1]; [destruct H1 as (_ & H1 & _)|by destruct H1].
  pose proof (inspect_inert (Hd := OverlayState) euid egid outer s1) as H2. destruct (inspectPrivateDirectoryIdentity _ _ _ s1) as [[parent|e] s2]; [destruct H2 as (_ & H2 & _)|destruct H2; congruence].
  pose proof (inspectImage_keeps basePath false s2) as H3. unfold verifyReadOnlyBase. destruct (inspectImageFile _ _ _ _ s2) as [[bi|e] s3]; [destruct H3 as (_ & H3)|congruence].
  assert (E : sc_handle s3 = sc_handle s) by congruence. rewrite <- E.
  pose proof (withTool_makes (joinPath [outer; name]) basePath parent [basePath; joinPath [outer; name]] _ (make_makes m basePath (joinPath [outer; name]) bi parent) s3) as H4.
  destruct (withTool _ _ s3) as [[a|e] s4]; [by exists parent|done].
Qed.

Lemma DestroyOverlay_ok h (s : St) :
  match DestroyOverlay h s with
  | (Ok _, s') => sc_handle s' = if oh_destroyed h then sc_handle s else set_overlay (overlay_destroyed h) (sc_handle s)
  | (Err _, s') => sc_handle s' = sc_handle s ∧ oh_destroyed h = false
  end.
Proof.
  unfold DestroyOverlay. destruct (oh_destroyed h); [done|]. unfold bind at 1, StorageScratch.handle. destruct (negb _); [done|]. unfold bind.
  pose proof (removeOwnedImage_keeps (oh_path h) (oh_parent h) (oh_identity h) s) as H. destruct (removeOwnedImage _ _ _ s) as [[a|e] s1]; [|done].
  destruct H as [_ H]. cbn. by rewrite H.
Qed.

(** An overlay whose file has another size than when it was made cannot be removed. *)
Lemma grown_overlay_is_kept h (s : St) :
  oh_destroyed h = false →
  (∀ w : W, ∃ st w', statChild (oh_path h) w = (StatFound st, w') ∧ st_Size st ≠ ii_size (oh_identity h)) →
  ∃ e s', DestroyOverlay h s = (Err e, s') ∧ sc_handle s' = sc_handle s.
Proof.
  intros Hd Hg. unfold DestroyOverlay. rewrite Hd. unfold bind at 1, StorageScratch.handle. destruct (negb _); [by repeat eexists|].
  assert (H : ∃ e s', removeOwnedImage (oh_path h) (oh_parent h) (oh_identity h) s = (Err e, s') ∧ sc_handle s' = sc_handle s); [|by destruct H as (e & s' & H & Hh); unfold bind; rewrite H; exists e, s'].
  unfold removeOwnedImage, bind, quiet, note. destruct (statParent _ _) as [[p|] w1]; [|by repeat eexists]. destruct (negb _); [by repeat eexists|].
  cbn [sc_world]. destruct (Hg w1) as (st & w2 & -> & Hs). unfold sameImageStat. rewrite bool_decide_eq_false_2; [by repeat eexists|]. intros E. apply Hs. by rewrite E.
Qed.

End OverlayProofs.
