(* ===== verification/HostStorage.v ===== *)
(** * The storage of a session

    Models [src/internal/orchestrator/host_storage.go]: the allocation of the
    capacity reservation, the outer scratch, the root overlay and the quarantine
    file of a session, their clean-up in order, and the quarantine lease.  It
    composes [Capacity], [StorageScratch], [ImageRegistry] and [Overlay] over one
    host.  [ss_log] is a ghost record of the calls of the outer scratch and of the
    overlay, and of what each left, whether or not the resource keeps it. *)

From Stdlib Require Import ZArith Lia.
From stdpp Require Import strings base tactics option list gmap.
From S2P Require Import Prelude GoText SessionModel Capacity Transfer QemuSpec StorageScratch ImageRegistry Overlay.

Open Scope string_scope.
Open Scope list_scope.

(** [session.LaunchPlan], without what storage does not read. *)
Record LaunchPlan := mkLaunchPlan { lp_Role : Role; lp_MemoryBytes : Z; lp_RootBytes : Z; lp_ScratchBytes : Z }.

Record StorageStack := mkStack {
  sk_TmpfsRoot : string;
  sk_LUKS : LUKSManager;
  sk_Overlays : OverlayManager;
  sk_SmallScratchMax : Z
}.

(** The handles that implement [outerStorage], each with the record of its calls. *)
Inductive outerStorage :=
| TmpfsOuter (h : TmpfsHandle) (log : list scratch_call)
| LUKSOuter (h : LUKSHandle) (log : list scratch_call).

Record hostStorageResource := mkResource {
  hr_reservation : option nat;
  hr_outer : option outerStorage;
  hr_overlay : option OverlayHandle;
  hr_quarantine : string;
  hr_quarantineLeased : bool;
  hr_overlayClean : bool;
  hr_outerClean : bool;
  hr_reservationClean : bool
}.

Definition set_outer (o : outerStorage) (r : hostStorageResource) : hostStorageResource :=
  mkResource (hr_reservation r) (Some o) (hr_overlay r) (hr_quarantine r) (hr_quarantineLeased r) (hr_overlayClean r) (hr_outerClean r) (hr_reservationClean r).
Definition set_handle (h : option OverlayHandle) (r : hostStorageResource) : hostStorageResource :=
  mkResource (hr_reservation r) (hr_outer r) h (hr_quarantine r) (hr_quarantineLeased r) (hr_overlayClean r) (hr_outerClean r) (hr_reservationClean r).
Definition set_quarantine (q : string) (r : hostStorageResource) : hostStorageResource :=
  mkResource (hr_reservation r) (hr_outer r) (hr_overlay r) q (hr_quarantineLeased r) (hr_overlayClean r) (hr_outerClean r) (hr_reservationClean r).
Definition set_leased (b : bool) (r : hostStorageResource) : hostStorageResource :=
  mkResource (hr_reservation r) (hr_outer r) (hr_overlay r) (hr_quarantine r) b (hr_overlayClean r) (hr_outerClean r) (hr_reservationClean r).
Definition set_overlayClean (r : hostStorageResource) : hostStorageResource :=
  mkResource (hr_reservation r) (hr_outer r) (hr_overlay r) (hr_quarantine r) (hr_quarantineLeased r) true (hr_outerClean r) (hr_reservationClean r).
Definition set_outerClean (r : hostStorageResource) : hostStorageResource :=
  mkResource (hr_reservation r) (hr_outer r) (hr_overlay r) (hr_quarantine r) (hr_quarantineLeased r) (hr_overlayClean r) true (hr_reservationClean r).
Definition set_reservationClean (r : hostStorageResource) : hostStorageResource :=
  mkResource (hr_reservation r) (hr_outer r) (hr_overlay r) (hr_quarantine r) (hr_quarantineLeased r) (hr_overlayClean r) (hr_outerClean r) true.

Definition rootOverlayName (role : Role) : string :=
  match role with
  | RoleWorkstation => "root-workstation.qcow2"
  | RoleDownloader => "root-downloader.qcow2"
  | RoleScanner => "root-scanner.qcow2"
  | RoleExporter => "root-exporter.qcow2"
  | RoleOther _ => ""
  end.

Definition addStorageBytes (left right : Z) : Z * bool := let result := add64 left right in (result, (left <=? result)%Z).

Definition ErrHostStorageUnavailable : string := "host role storage unavailable".

Section Stack.
Context (euid egid : Z) {W : Type} `{!StorageHost W} `{!ImageHost W}.
Context (DecodeInfo : string → option (imageInfo * bool)).
Context (stack : StorageStack).

(** What sessions share: the capacity pool, the registry and the host. *)
Record Machine := mkMachine { mc_pool : CapacityPool; mc_registry : ImageUseRegistry; mc_world : W }.

Definition with_pool (p : CapacityPool) (m : Machine) : Machine := mkMachine p (mc_registry m) (mc_world m).
Definition with_registry (r : ImageUseRegistry) (m : Machine) : Machine := mkMachine (mc_pool m) r (mc_world m).
Definition with_world (w : W) (m : Machine) : Machine := mkMachine (mc_pool m) (mc_registry m) w.

(** A call of the outer scratch left it so; a call of the overlay component left
    this handle, with the removals it tried. *)
Inductive storage_call :=
| OuterCall (after : outerStorage)
| OverlayCall (after : option OverlayHandle) (notes : list scratch_call).

Record SS := mkSS { ss_resource : hostStorageResource; ss_machine : Machine; ss_log : list storage_call }.

Definition onResource (f : hostStorageResource → hostStorageResource) (s : SS) : SS := mkSS (f (ss_resource s)) (ss_machine s) (ss_log s).
Definition onMachine (f : Machine → Machine) (s : SS) : SS := mkSS (ss_resource s) (f (ss_machine s)) (ss_log s).

(** The host and the record after a call of the outer scratch. *)
Definition calledOuter (o : outerStorage) (w : W) (s : SS) : SS := mkSS (ss_resource s) (with_world w (ss_machine s)) (ss_log s ++ [OuterCall o]).

(** A call of the outer storage, whichever it is. *)
Definition onOuter {A} (tmpfs : M (W := W) (Hd := TmpfsHandle) A) (luks : M (W := W) (Hd := LUKSHandle) A) (o : outerStorage) (s : SS) : result string A * SS :=
  match o with
  | TmpfsOuter h log =>
      let '(a, s') := tmpfs (mkSt h (mc_world (ss_machine s)) log) in
      let o := TmpfsOuter (sc_handle s') (sc_log s') in (a, onResource (set_outer o) (calledOuter o (sc_world s') s))
  | LUKSOuter h log =>
      let '(a, s') := luks (mkSt h (mc_world (ss_machine s)) log) in
      let o := LUKSOuter (sc_handle s') (sc_log s') in (a, onResource (set_outer o) (calledOuter o (sc_world s') s))
  end.

(** A call of the overlay component. *)
Definition onOverlay {A} (m : M (W := W) (Hd := OverlayState) A) (s : SS) : result string A * SS :=
  let '(a, s') := m (mkSt (mkOverlayState (mc_registry (ss_machine s)) (hr_overlay (ss_resource s))) (mc_world (ss_machine s)) []) in
  (a, mkSS (set_handle (ov_handle (sc_handle s')) (ss_resource s)) (with_world (sc_world s') (with_registry (ov_registry (sc_handle s')) (ss_machine s)))
        (ss_log s ++ [OverlayCall (ov_handle (sc_handle s')) (sc_log s')])).

Definition OuterPath (o : outerStorage) : string := match o with TmpfsOuter h _ => th_mount h | LUKSOuter h _ => lh_mount h end.

Definition cleanupOverlay (s : SS) : result string unit * SS :=
  match hr_overlay (ss_resource s) with
  | None => (Ok tt, onResource set_overlayClean s)
  | Some h =>
      if hr_overlayClean (ss_resource s) then (Ok tt, s)
      else match onOverlay (DestroyOverlay h) s with
           | (Err e, s) => (Err e, s)
           | (Ok _, s) => (Ok tt, onResource (λ r, set_quarantine "" (set_overlayClean r)) s)
           end
  end.

Definition cleanupOuter (s : SS) : result string unit * SS :=
  match hr_outer (ss_resource s) with
  | None => (Ok tt, onResource set_outerClean s)
  | Some o =>
      if hr_outerClean (ss_resource s) then (Ok tt, s)
      else match onOuter (DestroyTmpfs euid egid) (StorageScratch.Destroy euid egid (sk_LUKS stack)) o s with
           | (Err e, s) => (Err e, s)
           | (Ok _, s) => (Ok tt, onResource set_outerClean s)
           end
  end.

Definition cleanupReservation (s : SS) : result string unit * SS :=
  match hr_reservation (ss_resource s) with
  | None => (Ok tt, onResource set_reservationClean s)
  | Some ref =>
      if hr_reservationClean (ss_resource s) then (Ok tt, s)
      else match Capacity.Destroy (mc_pool (ss_machine s)) ref with
           | (Err _, p) => (Err "capacity reservation", onMachine (with_pool p) s)
           | (Ok _, p) => (Ok tt, onResource set_reservationClean (onMachine (with_pool p) s))
           end
  end.

Definition andThen (r : result string unit * SS) (k : SS → result string unit * SS) : result string unit * SS :=
  match r with (Ok _, s) => k s | (Err e, s) => (Err e, s) end.

Definition Cleanup (s : SS) : result string unit * SS :=
  if hr_quarantineLeased (ss_resource s) then (Err ErrHostStorageUnavailable, s)
  else andThen (andThen (cleanupOverlay s) cleanupOuter) cleanupReservation.

(** How an allocation ends: the resource; an error and nothing, once the
    resource was cleaned up; an error and the resource whose clean-up failed. *)
Inductive allocation :=
| Allocated (s : SS)
| Refused (e : string) (m : Machine)
| Abandoned (e : string) (s : SS)
| Kept (e : string) (s : SS).

Definition failAllocation (cause : string) (s : SS) : allocation :=
  match Cleanup s with
  | (Ok _, s) => Abandoned cause s
  | (Err e, s) => Kept (cause +:+ e) s
  end.

(** The outer storage of the reserved mode; a handle may come with an error. *)
Definition createOuter (id : string) (capacityPlan : CapacityPlan) (s : SS) : result string unit * SS :=
  let w := mc_world (ss_machine s) in
  let bytes := plan_ReservedBytes capacityPlan in
  match plan_Mode capacityPlan with
  | ScratchModeRAM =>
      let '(r, t) := CreateTmpfs euid egid (sk_TmpfsRoot stack) id bytes (mkSt (mkTmpfs "" noPath noPath noPath false false) w []) in
      let o := TmpfsOuter (sc_handle t) (sc_log t) in
      let s := calledOuter o (sc_world t) s in
      match r with
      | Ok _ => (Ok tt, onResource (set_outer o) s)
      | Err (e, true) => (Err e, onResource (set_outer o) s)
      | Err (e, false) => (Err e, s)
      end
  | ScratchModeLUKS =>
      let '(r, t) := StorageScratch.Create euid egid (sk_LUKS stack) id bytes (mkSt (newHandle "" noPath "" "" noPath noPath) w []) in
      let o := LUKSOuter (sc_handle t) (sc_log t) in
      let s := calledOuter o (sc_world t) s in
      match r with
      | Ok _ => (Ok tt, onResource (set_outer o) s)
      | Err (e, true) => (Err e, onResource (set_outer o) s)
      | Err (e, false) => (Err e, s)
      end
  end.

(** The quarantine of a downloader. *)
Definition createQuarantine (role : Role) (plan : LaunchPlan) (o : outerStorage) (s : SS) : result string unit * SS :=
  if bool_decide (role = RoleDownloader) then
    if (lp_ScratchBytes plan =? 0)%Z then (Err ErrHostStorageUnavailable, s)
    else match onOuter (CreateOpaqueTmpfsFile "quarantine.raw" (lp_ScratchBytes plan)) (CreateOpaqueFile "quarantine.raw" (lp_ScratchBytes plan)) o s with
         | (Err e, s) => (Err e, s)
         | (Ok q, s) => (Ok tt, onResource (set_quarantine q) s)
         end
  else (Ok tt, s).

(** What is made in the outer storage. *)
Definition fillOuter (role : Role) (plan : LaunchPlan) (imagePath : string) (s : SS) : result string unit * SS :=
  match hr_outer (ss_resource s) with
  | None => (Err ErrHostStorageUnavailable, s)
  | Some o =>
      match onOverlay (CreateOverlay euid egid DecodeInfo (sk_Overlays stack) (OuterPath o) imagePath (rootOverlayName role)) s with
      | (Err e, s) => (Err e, s)
      | (Ok _, s) =>
          andThen (createQuarantine role plan o s)
            (λ s, let '(done, w) := contextDone (mc_world (ss_machine s)) in
                  (if done : bool then Err "context done" else Ok tt, onMachine (with_world w) s))
      end
  end.

Definition Allocate (id : string) (role : Role) (plan : LaunchPlan) (imagePath : string) (m : Machine) : allocation :=
  if negb (is_Ok (ValidateID id)) || negb (bool_decide (role = lp_Role plan)) || bool_decide (imagePath = "") then Refused ErrHostStorageUnavailable m
  else
    let '(expectedWrites, ok) := addStorageBytes (lp_RootBytes plan) (lp_ScratchBytes plan) in
    if negb ok || (expectedWrites =? 0)%Z then Refused ErrHostStorageUnavailable m
    else
      match Reserve (mc_pool m) id (mkRequest (lp_MemoryBytes plan) expectedWrites (sk_SmallScratchMax stack)) with
      | (Err _, p) => Refused "capacity" (with_pool p m)
      | (Ok ref, p) =>
          let s := mkSS (mkResource (Some ref) None None "" false false false false) (with_pool p m) [] in
          match Plan p ref with
          | None => failAllocation ErrHostStorageUnavailable s
          | Some capacityPlan =>
              match andThen (createOuter id capacityPlan s) (fillOuter role plan imagePath) with
              | (Err e, s) => failAllocation e s
              | (Ok _, s) => Allocated s
              end
          end
      end.

(** ** Use *)

Definition RootPath (s : SS) : string :=
  match hr_overlay (ss_resource s) with
  | Some h => if hr_overlayClean (ss_resource s) then "" else oh_path h
  | None => ""
  end.

Definition ActivateImages (s : SS) : result string ImageLease * SS :=
  match hr_overlay (ss_resource s) with
  | Some h =>
      if hr_overlayClean (ss_resource s) || hr_outerClean (ss_resource s) then (Err ErrHostStorageUnavailable, s)
      else onOverlay (ActivateOverlay euid egid h) s
  | None => (Err ErrHostStorageUnavailable, s)
  end.

Record hostQuarantineLease := mkQuarantineLease { ql_path : string; ql_released : bool }.

Definition acquireQuarantine (s : SS) : result string hostQuarantineLease * SS :=
  let r := ss_resource s in
  if bool_decide (hr_quarantine r = "") || hr_quarantineLeased r || hr_outerClean r || hr_overlayClean r then (Err ErrHostStorageUnavailable, s)
  else (Ok (mkQuarantineLease (hr_quarantine r) false), onResource (set_leased true) s).

Definition ReleaseQuarantine (lease : hostQuarantineLease) (s : SS) : result string unit * hostQuarantineLease * SS :=
  if ql_released lease then (Ok tt, lease, s)
  else if negb (hr_quarantineLeased (ss_resource s)) || negb (bool_decide (hr_quarantine (ss_resource s) = ql_path lease))
  then (Err ErrHostStorageUnavailable, lease, s)
  else (Ok tt, mkQuarantineLease "" true, onResource (set_leased false) s).

Definition AuditQuarantine (lease : hostQuarantineLease) : result string unit :=
  fail_if (negb (ql_released lease)) with ErrHostStorageUnavailable ;; Ok tt.

(** The three audits; each that fails adds its message. *)
Definition AuditStorage (s : SS) : list string * SS :=
  let '(overlayBad, s) :=
    if negb (hr_overlayClean (ss_resource s)) then (true, s)
    else match hr_overlay (ss_resource s) with
         | None => (false, s)
         | Some h => let '(a, s) := onOverlay (AuditOverlay h) s in (negb (is_Ok a), s)
         end in
  let '(outerBad, s) :=
    if negb (hr_outerClean (ss_resource s)) then (true, s)
    else match hr_outer (ss_resource s) with
         | None => (false, s)
         | Some o => let '(a, s) := onOuter AuditTmpfs StorageScratch.Audit o s in (negb (is_Ok a), s)
         end in
  let reservationBad :=
    negb (hr_reservationClean (ss_resource s)) ||
    match hr_reservation (ss_resource s) with None => false | Some ref => negb (is_Ok (Capacity.Audit (mc_pool (ss_machine s)) ref)) end in
  ((if overlayBad : bool then ["root overlay remains active"] else []) ++ (if outerBad : bool then ["outer session storage remains active"] else []) ++
   (if reservationBad : bool then ["capacity reservation remains active"] else []), s).

End Stack.

(** * Properties *)

#[global] Instance CapacityPlan_eq_dec : EqDecision CapacityPlan.
Proof. solve_decision. Defined.
#[global] Instance CapacityReservation_eq_dec : EqDecision CapacityReservation.
Proof. solve_decision. Defined.

Section StackProofs.
Context (euid egid : Z) {W : Type} `{!StorageHost W} `{!ImageHost W}.
Context (modes_typed : ∀ path (w w' : W) s, statChild path w = (StatFound s, w') → st_Mode s ≠ 0%Z).
Context (DecodeInfo : string → option (imageInfo * bool)).
Context (stack : StorageStack).

#[local] Abbreviation SS := (SS (W := W)).
#[local] Abbreviation Machine := (Machine (W := W)).

(** The handle is live and knows what is held; everything is held; nothing is. *)
Definition OuterHeld (o : outerStorage) : Prop :=
  match o with TmpfsOuter h log => TKnows h (watch log) | LUKSOuter h log => Knows h (watch log) end.
Definition OuterFull (o : outerStorage) : Prop :=
  match o with TmpfsOuter h log => THeld h (watch log) | LUKSOuter h log => Full h (watch log) end.
Definition OuterGone (o : outerStorage) : Prop :=
  match o with TmpfsOuter h log => TGone h (watch log) | LUKSOuter h log => Gone h (watch log) end.

Definition reservationReleased (s : SS) (released : bool) : Prop :=
  ∃ ref r, hr_reservation (ss_resource s) = Some ref ∧ p_heap (mc_pool (ss_machine s)) !! ref = Some r ∧ r_released r = released.

(** ** What the record shows *)

Definition notesOf (o : outerStorage) : list scratch_call := match o with TmpfsOuter _ log | LUKSOuter _ log => log end.

(** The outer scratch as its last call left it. *)
Definition lastOuter (log : list storage_call) : option outerStorage :=
  last (omap (λ c, match c with OuterCall o => Some o | _ => None end) log).

(** Everything made for the scratch was released, with the exceptions of
    [scratch_is_accounted_for]: a mount point that could neither be inspected nor
    removed, and a loop device attached under another name. *)
Definition scratchReleased (o : outerStorage) : Prop :=
  match o with
  | TmpfsOuter _ log => tclear (watch log) ∨ unlooked log
  | LUKSOuter _ log => clear (watch log) ∨ unlooked log ∨ (givenBack (watch log) ∧ astray log)
  end.

(** A live overlay was made; the file of one was found missing, or found to be
    the one made and removed. *)
Definition madeOverlay (log : list storage_call) (h : OverlayHandle) : Prop :=
  oh_destroyed h = false ∧ ∃ notes, OverlayCall (Some h) notes ∈ log.

Definition unlinkedBy (i : imageFileIdentity) (notes : list scratch_call) : Prop :=
  notes = [FoundFile StatAbsent] ∨ ∃ st, imageOf st = i ∧ notes = [FoundFile (StatFound st); TriedUnlink true].

Definition removedOverlay (log : list storage_call) (h : OverlayHandle) : Prop :=
  ∃ notes, OverlayCall (Some (overlay_destroyed h)) notes ∈ log ∧ unlinkedBy (oh_identity h) notes.

Definition overlaysRemoved (log : list storage_call) : Prop := ∀ h, madeOverlay log h → removedOverlay log h.

Record Ordered (s : SS) : Prop := {
  or_overlay : ∀ h, hr_overlay (ss_resource s) = Some h → oh_destroyed h = hr_overlayClean (ss_resource s);
  or_outer : ∀ o, hr_outer (ss_resource s) = Some o → if hr_outerClean (ss_resource s) then OuterGone o else OuterHeld o;
  or_first : hr_outerClean (ss_resource s) = true → hr_overlayClean (ss_resource s) = true;
  or_second : hr_reservationClean (ss_resource s) = true → hr_outerClean (ss_resource s) = true;
  or_reserved : reservationReleased s (hr_reservationClean (ss_resource s));
  or_leased : hr_quarantineLeased (ss_resource s) = true → hr_overlayClean (ss_resource s) = false;
  or_last : match hr_outer (ss_resource s) with
            | Some o => lastOuter (ss_log s) = Some o
            | None => hr_overlay (ss_resource s) = None ∧ ∀ o, lastOuter (ss_log s) = Some o → scratchReleased o
            end;
  or_made : ∀ h, madeOverlay (ss_log s) h →
    (hr_overlay (ss_resource s) = Some h ∧ hr_overlayClean (ss_resource s) = false) ∨ removedOverlay (ss_log s) h;
  or_mounted : ∀ o h, hr_outer (ss_resource s) = Some o → hr_overlay (ss_resource s) = Some h →
    hr_overlayClean (ss_resource s) = false → w_mount (watch (notesOf o)) = true
}.

(** The record of a call. *)
Lemma lastOuter_outer log o : lastOuter (log ++ [OuterCall o]) = Some o.
Proof. unfold lastOuter. rewrite omap_app. cbn. apply last_snoc. Qed.

Lemma lastOuter_overlay log h notes : lastOuter (log ++ [OverlayCall h notes]) = lastOuter log.
Proof. unfold lastOuter. rewrite omap_app. cbn. by rewrite app_nil_r. Qed.

Lemma madeOverlay_outer log o h : madeOverlay (log ++ [OuterCall o]) h → madeOverlay log h.
Proof. intros (Hd & n & Hin). split; [done|]. exists n. apply elem_of_app in Hin as [?|Hin%list_elem_of_singleton]; done. Qed.

Lemma removedOverlay_snoc log c h : removedOverlay log h → removedOverlay (log ++ [c]) h.
Proof. intros (notes & Hin & Hu). exists notes. set_solver. Qed.

Lemma madeOverlay_overlay log h' notes h :
  madeOverlay (log ++ [OverlayCall h' notes]) h → madeOverlay log h ∨ (h' = Some h ∧ oh_destroyed h = false).
Proof. intros (Hd & n & Hin). apply elem_of_app in Hin as [?|Hin%list_elem_of_singleton]; [left; by split; [|exists n]|]. injection Hin as <- <-. by right. Qed.

Lemma OuterFull_held o : OuterFull o → OuterHeld o.
Proof. destruct o; intros H; apply H. Qed.

(** ** The calls of the parts *)

(** A call that leaves the outer handle and its record alone. *)
Lemma onOuter_inert {A} (tmpfs : M A) (luks : M A) good1 good2 o (s : SS) :
  inert tmpfs good1 → inert luks good2 →
  ∃ w, (onOuter tmpfs luks o s).2 = onResource (set_outer o) (calledOuter o w s).
Proof.
  intros Ht Hl. destruct o as [h log|h log]; cbn.
  - specialize (Ht (mkSt h (mc_world (ss_machine s)) log)). destruct (tmpfs _) as [[a|e] t]; cbn in *; [destruct Ht as (_ & -> & ->)|destruct Ht as (-> & ->)]; by eexists.
  - specialize (Hl (mkSt h (mc_world (ss_machine s)) log)). destruct (luks _) as [[a|e] t]; cbn in *; [destruct Hl as (_ & -> & ->)|destruct Hl as (-> & ->)]; by eexists.
Qed.

Lemma outer_destroy o (s : SS) :
  OuterHeld o →
  match onOuter (DestroyTmpfs euid egid) (StorageScratch.Destroy euid egid (sk_LUKS stack)) o s with
  | (Ok _, s') => ∃ o' w, s' = onResource (set_outer o') (calledOuter o' w s) ∧ OuterGone o'
  | (Err _, s') => ∃ o' w, s' = onResource (set_outer o') (calledOuter o' w s) ∧ OuterHeld o'
  end.
Proof.
  destruct o as [h log|h log]; intros HK; unfold onOuter.
  - pose proof (DestroyTmpfs_ok euid egid (mkSt h (mc_world (ss_machine s)) log) (or_introl HK)) as H.
    destruct (DestroyTmpfs euid egid _) as [[[]|e] t]; by exists (TmpfsOuter (sc_handle t) (sc_log t)), (sc_world t).
  - pose proof (Destroy_ok euid egid modes_typed (sk_LUKS stack) (mkSt h (mc_world (ss_machine s)) log) (or_introl HK)) as H.
    destruct (StorageScratch.Destroy euid egid _ _) as [[[]|e] t]; by exists (LUKSOuter (sc_handle t) (sc_log t)), (sc_world t).
Qed.

(** The state after a call of the overlay component that left [h]. *)
Definition calledOverlay (h : option OverlayHandle) (notes : list scratch_call) (w : W) (s : SS) : SS :=
  mkSS (set_handle h (ss_resource s)) (with_world w (ss_machine s)) (ss_log s ++ [OverlayCall h notes]).

Lemma removeOwnedImage_unlinks {Hd} path parent identity (t : St (W := W) (Hd := Hd)) t' :
  removeOwnedImage path parent identity t = (Ok tt, t') → sc_log t = [] → unlinkedBy identity (sc_log t').
Proof.
  unfold removeOwnedImage, mustNote, bind, quiet, note, ret, throw. intros H Hl. destruct (statParent _ _) as [[p|] w1]; [|done].
  destruct (negb (sameStat parent p)); [done|]. destruct (statChild _ _) as [[st| |] w2]; cbn in H; [|injection H as <-; cbn; rewrite Hl; by left|done].
  destruct (sameImageStat identity st) eqn:Hs; cbn in H; [|done]. destruct (unlinkChild _ _) as [[] w3]; cbn in H; [|done]. injection H as <-. cbn. rewrite Hl.
  right. exists st. split; [|done]. symmetry. by apply bool_decide_eq_true in Hs.
Qed.

Lemma DestroyOverlay_unlinks h (t : St (W := W) (Hd := OverlayState)) u t' :
  DestroyOverlay h t = (Ok u, t') → oh_destroyed h = false → sc_log t = [] → unlinkedBy (oh_identity h) (sc_log t').
Proof.
  unfold DestroyOverlay. intros H Hd Hl. rewrite Hd in H. unfold bind at 1, StorageScratch.handle in H. destruct (negb _); [done|]. unfold bind in H.
  destruct (removeOwnedImage _ _ _ t) as [[[]|e] t1] eqn:E; [|done]. injection H as <- <-. by apply removeOwnedImage_unlinks in E.
Qed.

Lemma onOverlay_destroy h (s : SS) :
  hr_overlay (ss_resource s) = Some h → oh_destroyed h = false →
  match onOverlay (DestroyOverlay h) s with
  | (Ok _, s') => ∃ w notes, s' = calledOverlay (Some (overlay_destroyed h)) notes w s ∧ unlinkedBy (oh_identity h) notes
  | (Err _, s') => ∃ w notes, s' = calledOverlay (Some h) notes w s
  end.
Proof.
  intros Hh Hd. unfold onOverlay. set (t0 := mkSt _ _ _). pose proof (DestroyOverlay_ok h t0) as H. destruct (DestroyOverlay h t0) as [[a|e] t] eqn:E.
  - apply DestroyOverlay_unlinks in E; [|done..]. rewrite Hd in H. rewrite H. exists (sc_world t), (sc_log t). split; [|done]. unfold calledOverlay. by destruct s as [r [] l].
  - destruct H as [-> _]. exists (sc_world t), (sc_log t). unfold calledOverlay. destruct s as [[] [] l]. cbn in *. by subst.
Qed.

(** ** Cleaning up *)

(** A call that leaves the live overlay. *)
Lemma Ordered_overlay_kept s h notes w :
  hr_overlay (ss_resource s) = Some h → Ordered s → Ordered (calledOverlay (Some h) notes w s).
Proof.
  intros Hh HO. destruct HO. unfold calledOverlay. constructor; cbn in *; try done; try (rewrite Hh in *; done).
  - rewrite lastOuter_overlay. destruct (hr_outer _); [done|]. destruct or_last0. congruence.
  - intros h' [Hm|[[= <-] Hd]]%madeOverlay_overlay.
    + destruct (or_made0 h' Hm) as [[E ?]|Hr]; [left; split; congruence|right; by apply removedOverlay_snoc].
    + left. split; [done|]. rewrite <- Hd. symmetry. by apply or_overlay0.
Qed.

Lemma cleanupOverlay_ok s :
  Ordered s → hr_quarantineLeased (ss_resource s) = false →
  match cleanupOverlay s with
  | (Ok _, s') => Ordered s' ∧ hr_overlayClean (ss_resource s') = true
  | (Err _, s') => Ordered s'
  end.
Proof.
  intros HO Hl. unfold cleanupOverlay. destruct (hr_overlay (ss_resource s)) as [h|] eqn:Hh.
  2: { split; [|done]. destruct HO. constructor; cbn in *; try done; try congruence. intros h Hm. right. destruct (or_made0 h Hm) as [[? _]|?]; [congruence|done]. }
  destruct (hr_overlayClean (ss_resource s)) eqn:Hc; [done|]. pose proof (onOverlay_destroy h s Hh) as H. rewrite (or_overlay _ HO _ Hh) in H. specialize (H Hc).
  destruct (onOverlay (DestroyOverlay h) s) as [[a|e] s'].
  - destruct H as (w & notes & -> & Hu). split; [|done]. destruct HO. unfold calledOverlay. constructor; cbn in *; try done; try congruence.
    + by intros ? [= <-].
    + rewrite lastOuter_overlay. destruct (hr_outer _); [done|]. destruct or_last0. congruence.
    + intros h' [Hm|[[= <-] Hd]]%madeOverlay_overlay; [|done]. right. destruct (or_made0 h' Hm) as [[E _]|Hr]; [|by apply removedOverlay_snoc].
      rewrite Hh in E. injection E as <-. exists notes. set_solver.
  - destruct H as (w & notes & ->). by apply Ordered_overlay_kept.
Qed.

(** A call of the outer scratch after which it is [o]. *)
Lemma Ordered_outer s o w :
  Ordered s → (if hr_outerClean (ss_resource s) then OuterGone o else OuterHeld o) →
  (hr_overlayClean (ss_resource s) = false → hr_overlay (ss_resource s) ≠ None → w_mount (watch (notesOf o)) = true) →
  Ordered (onResource (set_outer o) (calledOuter o w s)).
Proof.
  intros HO Ho Hm. destruct HO. constructor; cbn in *; try done.
  - by intros ? [= <-].
  - apply lastOuter_outer.
  - intros h Hh%madeOverlay_outer. destruct (or_made0 h Hh); [by left|right; by apply removedOverlay_snoc].
  - intros ? h [= <-] Hh Hc. apply Hm; [done|congruence].
Qed.

Lemma cleanupOuter_ok s :
  Ordered s → hr_overlayClean (ss_resource s) = true →
  match cleanupOuter euid egid stack s with
  | (Ok _, s') => Ordered s' ∧ hr_outerClean (ss_resource s') = true
  | (Err _, s') => Ordered s'
  end.
Proof.
  intros HO Hl. unfold cleanupOuter. destruct (hr_outer (ss_resource s)) as [o|] eqn:Ho.
  2: { split; [|done]. destruct HO. constructor; cbn in *; try done; congruence. }
  pose proof (or_outer _ HO _ Ho) as Hx. destruct (hr_outerClean (ss_resource s)) eqn:Hc; [done|].
  pose proof (outer_destroy o s Hx) as H. destruct (onOuter _ _ o s) as [[a|e] s']; destruct H as (o' & w & -> & Hg).
  - split; [|done]. destruct HO. constructor; cbn in *; try done; try congruence.
    + apply lastOuter_outer.
    + intros h Hh%madeOverlay_outer. right. destruct (or_made0 h Hh) as [[_ ?]|?]; [congruence|by apply removedOverlay_snoc].
  - apply Ordered_outer; [done|by rewrite Hc|congruence].
Qed.

Lemma cleanupReservation_ok s :
  Ordered s → hr_outerClean (ss_resource s) = true →
  match cleanupReservation s with
  | (Ok _, s') => Ordered s' ∧ hr_reservationClean (ss_resource s') = true
  | (Err _, s') => Ordered s'
  end.
Proof.
  intros HO Hl. unfold cleanupReservation. destruct (or_reserved _ HO) as (ref & r & Hr & Hp & Hrel). rewrite Hr.
  destruct (hr_reservationClean (ss_resource s)) eqn:Hc; [done|]. unfold Capacity.Destroy. rewrite Hp, Hrel.
  destruct (_ || _); [destruct HO; by constructor|]. split; [|done]. destruct HO. constructor; cbn in *; try done.
  exists ref, (markReleased r). cbn. by rewrite lookup_insert_eq.
Qed.

Lemma OuterGone_released o : OuterGone o → scratchReleased o.
Proof.
  destruct o as [h log|h log]; cbn.
  - intros (_ & _ & ? & ? & ?). left. by split_and!.
  - intros (_ & _ & _ & _ & _ & Hg). destruct (givenBack_clear log _ Hg eq_refl); auto.
Qed.

Lemma gone_released s : Ordered s → hr_outerClean (ss_resource s) = true → ∀ o, lastOuter (ss_log s) = Some o → scratchReleased o.
Proof.
  intros HO Hc o Ho. pose proof (or_last _ HO) as Hl. pose proof (or_outer _ HO) as Hg. destruct (hr_outer (ss_resource s)) as [o'|]; [|by apply Hl].
  specialize (Hg o' eq_refl). rewrite Hc in Hg. assert (o = o') as -> by congruence. by apply OuterGone_released.
Qed.

(** Every overlay made was removed, the scratch given back, and the capacity released. *)
Definition released (s : SS) : Prop :=
  overlaysRemoved (ss_log s) ∧ (∀ h, hr_overlay (ss_resource s) = Some h → oh_destroyed h = true) ∧
  (∀ o, lastOuter (ss_log s) = Some o → scratchReleased o) ∧ (∀ o, hr_outer (ss_resource s) = Some o → OuterGone o) ∧
  reservationReleased s true.

Lemma Cleanup_ok s :
  Ordered s → match Cleanup euid egid stack s with (Ok _, s') => Ordered s' ∧ released s' | (Err _, s') => Ordered s' end.
Proof.
  intros HO. unfold Cleanup. destruct (hr_quarantineLeased _) eqn:Hl; [done|]. unfold andThen.
  pose proof (cleanupOverlay_ok s HO Hl) as H. destruct (cleanupOverlay s) as [[a|e] s1]; [destruct H as [H1 C1]|done].
  pose proof (cleanupOuter_ok s1 H1 C1) as H. destruct (cleanupOuter _ _ _ s1) as [[b|e] s2]; [destruct H as [H2 C2]|done].
  pose proof (cleanupReservation_ok s2 H2 C2) as H. destruct (cleanupReservation s2) as [[c|e] s3]; [destruct H as [H3 C3]|done].
  split; [done|]. pose proof (or_second _ H3 C3) as C2'. pose proof (or_first _ H3 C2') as C1'.
  pose proof (gone_released _ H3 C2') as Hrel. destruct H3. split_and!.
  - intros h Hh. destruct (or_made0 h Hh) as [[_ ?]|?]; [congruence|done].
  - intros h Hh. by rewrite (or_overlay0 h Hh).
  - done.
  - intros o Ho. specialize (or_outer0 o Ho). by rewrite C2' in or_outer0.
  - by rewrite C3 in or_reserved0.
Qed.

(** ** Allocating *)

(** Nothing was released yet. *)
Definition building (s : SS) : Prop :=
  Ordered s ∧ hr_outerClean (ss_resource s) = false ∧ hr_overlayClean (ss_resource s) = false ∧ hr_reservationClean (ss_resource s) = false.

Lemma building_outer s o w :
  building s → OuterHeld o → (hr_overlay (ss_resource s) ≠ None → w_mount (watch (notesOf o)) = true) →
  building (onResource (set_outer o) (calledOuter o w s)).
Proof. intros (HO & H1 & H2 & H3) Ho Hm. split; [|done]. apply Ordered_outer; [done|by rewrite H1|done]. Qed.

Lemma building_world s w : building s → building (onMachine (with_world w) s).
Proof. intros (HO & H). split; [|done]. destruct HO. by constructor. Qed.

(** A scratch that came back without a handle. *)
Lemma building_nothing s o w :
  building s → hr_outer (ss_resource s) = None → scratchReleased o → building (calledOuter o w s).
Proof.
  intros (HO & H) Ho Hr. split; [|done]. destruct HO. constructor; cbn in *; try done.
  - rewrite Ho in *. split; [apply or_last0|]. rewrite lastOuter_outer. by intros ? [= <-].
  - intros h Hh%madeOverlay_outer. destruct (or_made0 h Hh); [by left|right; by apply removedOverlay_snoc].
Qed.

Lemma OuterFull_mounted o : OuterFull o → w_mount (watch (notesOf o)) = true.
Proof. destruct o; cbn; [intros (_ & _ & _ & ? & _)|intros (_ & _ & _ & _ & _ & _ & ? & _)]; done. Qed.

Lemma scratch_created id bytes w :
  match StorageScratch.Create euid egid (sk_LUKS stack) id bytes (mkSt (newHandle "" noPath "" "" noPath noPath) w []) with
  | (Ok _, t) => Full (sc_handle t) (watch (sc_log t))
  | (Err (_, true), t) => Knows (sc_handle t) (watch (sc_log t))
  | (Err (_, false), t) => scratchReleased (LUKSOuter (sc_handle t) (sc_log t))
  end.
Proof.
  pose proof (Create_ok euid egid modes_typed (sk_LUKS stack) id bytes (newHandle "" noPath "" "" noPath noPath) w) as H.
  destruct (StorageScratch.Create _ _ _ _ _ _) as [[[]|[e []]] t]; [done..|]. cbn. destruct H as [H|?]; [|auto].
  destruct (givenBack_clear (sc_log t) _ H eq_refl); auto.
Qed.

Lemma createOuter_ok id plan s :
  building s → hr_outer (ss_resource s) = None → hr_overlay (ss_resource s) = None →
  match createOuter euid egid stack id plan s with
  | (Ok _, s') => building s' ∧ hr_overlay (ss_resource s') = None ∧ ∃ o, hr_outer (ss_resource s') = Some o ∧ OuterFull o
  | (Err _, s') => building s'
  end.
Proof.
  intros HB Ho Hv. unfold createOuter. destruct (plan_Mode plan).
  - pose proof (CreateTmpfs_ok euid egid (sk_TmpfsRoot stack) id (plan_ReservedBytes plan) (mkTmpfs "" noPath noPath noPath false false) (mc_world (ss_machine s))) as H.
    destruct (CreateTmpfs _ _ _ _ _ _) as [[[]|[e []]] t]; unfold tmpfs_outcome in H; cbv iota beta zeta.
    + split; [apply building_outer; [done|apply H|congruence]|]. split; [done|]. by eexists.
    + by apply building_outer.
    + by apply building_nothing.
  - pose proof (scratch_created id (plan_ReservedBytes plan) (mc_world (ss_machine s))) as H.
    destruct (StorageScratch.Create _ _ _ _ _ _) as [[[]|[e []]] t]; cbv iota beta zeta in *.
    + split; [apply building_outer; [done|apply H|congruence]|]. split; [done|]. by eexists.
    + by apply building_outer.
    + by apply building_nothing.
Qed.

(** What an allocated session has. *)
Definition Ready (role : Role) (imagePath : string) (s : SS) : Prop :=
  ∃ o h, hr_outer (ss_resource s) = Some o ∧ OuterFull o ∧ hr_overlay (ss_resource s) = Some h ∧ oh_destroyed h = false ∧
    oh_path h = joinPath [OuterPath o; rootOverlayName role] ∧ oh_basePath h = imagePath ∧ permissions (ii_mode (oh_identity h)) = 384%Z ∧
    (role = RoleDownloader → hr_quarantine (ss_resource s) = joinPath [OuterPath o; "quarantine.raw"]).

Lemma Ready_world role imagePath s w : Ready role imagePath s → Ready role imagePath (onMachine (with_world w) s).
Proof. done. Qed.

Lemma overlay_made outer imagePath name s :
  hr_overlay (ss_resource s) = None →
  match onOverlay (CreateOverlay euid egid DecodeInfo (sk_Overlays stack) outer imagePath name) s with
  | (Ok _, s') => ∃ w notes parent i, permissions (ii_mode i) = 384%Z ∧
      s' = calledOverlay (Some (mkOverlay (joinPath [outer; name]) imagePath i parent false)) notes w s
  | (Err _, s') => ∃ w notes, s' = calledOverlay None notes w s
  end.
Proof.
  intros Hv. unfold onOverlay. set (t0 := mkSt _ _ _). pose proof (CreateOverlay_ok euid egid DecodeInfo (sk_Overlays stack) outer imagePath name t0) as H.
  destruct (CreateOverlay _ _ _ _ _ _ _ t0) as [[a|e] t].
  - destruct H as (parent & i & Hi & ->). exists (sc_world t), (sc_log t), parent, i. split; [done|]. unfold calledOverlay. by destruct s as [r [] l].
  - rewrite H. exists (sc_world t), (sc_log t). unfold calledOverlay. cbn. rewrite Hv. by destruct s as [[] [] l].
Qed.

(** A call that made no overlay, or the first one over a mounted scratch. *)
Lemma building_overlay s h notes w :
  building s → hr_overlay (ss_resource s) = None →
  match h with
  | None => True
  | Some h => oh_destroyed h = false ∧ ∃ o, hr_outer (ss_resource s) = Some o ∧ OuterFull o
  end → building (calledOverlay h notes w s).
Proof.
  intros (HO & H1 & H2 & H3) Hv Hh. split; [|done]. destruct HO. unfold calledOverlay. constructor; cbn in *; try done.
  - intros h' ->. destruct Hh as [-> _]. by rewrite H2.
  - rewrite lastOuter_overlay. destruct (hr_outer _) eqn:Ho; [done|]. split; [|apply or_last0]. destruct h; [|done]. by destruct Hh as (_ & ? & ? & _).
  - intros h' [Hm|[-> Hd]]%madeOverlay_overlay; [|by left]. right. destruct (or_made0 h' Hm) as [[? _]|?]; [congruence|by apply removedOverlay_snoc].
  - intros o h' Ho -> _. destruct Hh as (_ & o' & Ho' & Hf). assert (o' = o) as -> by congruence. by apply OuterFull_mounted.
Qed.

Lemma quarantine_path {A} mounted destroyed mount limit name size (t : St (W := W) (Hd := A)) q t' :
  createOpaque mounted destroyed mount limit name size t = (Ok q, t') → q = joinPath [mount; name].
Proof.
  unfold createOpaque. destruct (_ || negb mounted); [done|]. destruct (_ || _ || _); [done|]. unfold must, bind, quiet.
  destruct (createExclusive _ _) as [[] w]; [|done]. cbn. destruct (truncateFile _ _ _) as [[] w']; cbn; [by intros [= <- _]|]. by destruct (osRemove _ _).
Qed.

Lemma opaque_made name size o (s : SS) q s' :
  onOuter (CreateOpaqueTmpfsFile name size) (CreateOpaqueFile name size) o s = (Ok q, s') → q = joinPath [OuterPath o; name].
Proof.
  destruct o as [h log|h log]; unfold onOuter, CreateOpaqueTmpfsFile, CreateOpaqueFile, bind, StorageScratch.handle; cbn [sc_handle];
    (destruct (createOpaque _ _ _ _ _ _ _) as [r t] eqn:E; intros [= -> _]; by apply quarantine_path in E).
Qed.

Lemma quarantine_made role plan o imagePath s h :
  building s → hr_outer (ss_resource s) = Some o → OuterFull o → hr_overlay (ss_resource s) = Some h → oh_destroyed h = false →
  oh_path h = joinPath [OuterPath o; rootOverlayName role] → oh_basePath h = imagePath → permissions (ii_mode (oh_identity h)) = 384%Z →
  match createQuarantine role plan o s with
  | (Ok _, s') => building s' ∧ Ready role imagePath s'
  | (Err _, s') => building s'
  end.
Proof.
  intros HB Ho Hf Hh Hd Hp Hb Hm. unfold createQuarantine. case_bool_decide as Hr.
  2: { split; [done|]. exists o, h. by split_and!. }
  destruct (_ =? 0)%Z; [done|].
  pose proof (onOuter_inert (CreateOpaqueTmpfsFile "quarantine.raw" (lp_ScratchBytes plan)) (CreateOpaqueFile "quarantine.raw" (lp_ScratchBytes plan)) (λ _, True) (λ _, True) o s
    (inert_handle _ _ (λ h, opaque_inert _ _ _ _ _ _)) (inert_handle _ _ (λ h, opaque_inert _ _ _ _ _ _))) as [w Hw].
  destruct (onOuter _ _ o s) as [[q|e] s'] eqn:E; cbn [snd] in Hw; subst s'; [|apply building_outer; [done|by apply OuterFull_held|intros _; by apply OuterFull_mounted]].
  apply opaque_made in E. subst q. pose proof (building_outer s o w HB (OuterFull_held _ Hf) (λ _, OuterFull_mounted _ Hf)) as HB'. split.
  - destruct HB' as (HO & ?). split; [|done]. destruct HO. by constructor.
  - exists o, h. by split_and!.
Qed.

Lemma fillOuter_ok role plan imagePath s o :
  building s → hr_overlay (ss_resource s) = None → hr_outer (ss_resource s) = Some o → OuterFull o →
  match fillOuter euid egid DecodeInfo stack role plan imagePath s with
  | (Ok _, s') => building s' ∧ Ready role imagePath s'
  | (Err _, s') => building s'
  end.
Proof.
  intros HB Hv Ho Hf. unfold fillOuter. rewrite Ho. pose proof (overlay_made (OuterPath o) imagePath (rootOverlayName role) s Hv) as H.
  destruct (onOverlay _ s) as [[a|e] s1]; [|destruct H as (w & notes & ->); by apply building_overlay].
  destruct H as (w & notes & parent & i & Hi & ->). set (s1 := calledOverlay _ _ _ _). assert (HB1 : building s1).
  { apply building_overlay; [done..|]. split; [done|]. by exists o. }
  pose proof (quarantine_made role plan o imagePath s1 _ HB1 Ho Hf eq_refl eq_refl eq_refl eq_refl Hi) as Hq. unfold andThen.
  destruct (createQuarantine role plan o s1) as [[b|e] s2]; [|done]. destruct Hq as [HB2 HR2]. destruct (contextDone _) as [done' w']. destruct done'.
  - by apply building_world.
  - split; [by apply building_world|by apply Ready_world].
Qed.

Lemma failAllocation_ok cause s :
  building s → match failAllocation euid egid stack cause s with Kept _ s' => Ordered s' | Abandoned _ s' => released s' | _ => False end.
Proof.
  intros (HO & _). unfold failAllocation. pose proof (Cleanup_ok s HO) as H. by destruct (Cleanup _ _ _ s) as [[a|e] s']; [destruct H|].
Qed.

(** Reserving adds one live reservation, or changes no map. *)
Lemma Reserve_ok p id request :
  match Reserve p id request with
  | (Ok ref, p') => ∃ r, p_heap p' !! ref = Some r ∧ r_released r = false
  | (Err _, p') => p_reservations p' = p_reservations p ∧ p_heap p' = p_heap p
  end.
Proof.
  unfold Reserve. destruct (negb _); [done|]. destruct (p_reservations p !! id); [done|]. destruct (effectiveHost p); [|done]. destruct (PlanCapacity _ _) as [plan|]; [|done].
  destruct (reservationFor _ _ _) as [r|] eqn:Hr; [|done]. unfold commitReservation.
  destruct (addCapacity (p_ramBytes p) _) as [ram []]; cbn [negb withSums]; [|done]. destruct (addCapacity _ (r_runtimeBytes r)) as [rt []]; cbn [negb withSums]; [|done].
  destruct (addCapacity _ (r_scratchBytes r)) as [sc []]; cbn [negb withSums]; [|done]. exists r. cbn. split; [by rewrite lookup_insert_eq|].
  unfold reservationFor in Hr. destruct (plan_Mode plan); [destruct (addCapacity _ _) as [x []]; [|done]|]; by injection Hr as <-.
Qed.

Lemma StackAllocate_ok id role plan imagePath m :
  match Allocate euid egid DecodeInfo stack id role plan imagePath m with
  | Allocated s => building s ∧ Ready role imagePath s
  | Kept _ s => Ordered s
  | Abandoned _ s => released s
  | Refused _ m' => p_reservations (mc_pool m') = p_reservations (mc_pool m) ∧ p_heap (mc_pool m') = p_heap (mc_pool m) ∧ mc_registry m' = mc_registry m ∧ mc_world m' = mc_world m
  end.
Proof.
  unfold Allocate. destruct (_ || _); [done|]. destruct (addStorageBytes _ _) as [writes ok]. destruct (_ || _); [done|].
  pose proof (Reserve_ok (mc_pool m) id (mkRequest (lp_MemoryBytes plan) writes (sk_SmallScratchMax stack))) as Hr.
  destruct (Reserve _ _ _) as [[ref|e] p]; [|by destruct Hr]. destruct Hr as (r & Hh & Hl). set (s0 := mkSS _ _ _).
  assert (HB : building s0). { split; [|done]. constructor; cbn; try done; [by exists ref, r|]. intros h (_ & notes & []%elem_of_nil). }
  assert (Hfail : ∀ e s, building s → match failAllocation euid egid stack e s with
    | Allocated s => building s ∧ Ready role imagePath s | Kept _ s => Ordered s | Abandoned _ s => released s | Refused _ _ => False end).
  { intros e s Hs. pose proof (failAllocation_ok e s Hs) as H. by destruct (failAllocation _ _ _ e s). }
  unfold Plan. rewrite Hh. cbn [fmap option_fmap option_map]. unfold andThen. pose proof (createOuter_ok id (r_plan r) s0 HB eq_refl eq_refl) as Ho.
  destruct (createOuter _ _ _ _ _ s0) as [[a|e] s1].
  - destruct Ho as (HB1 & Hv & o & Ho & Hf). pose proof (fillOuter_ok role plan imagePath s1 o HB1 Hv Ho Hf) as Hq.
    destruct (fillOuter _ _ _ _ _ _ _ s1) as [[b|e] s2]; [done|]. specialize (Hfail e s2 Hq). by destruct (failAllocation _ _ _ e s2).
  - specialize (Hfail e s1 Ho). by destruct (failAllocation _ _ _ e s1).
Qed.

(** ** The life of a session's storage *)

(** [OpElsewhere]: other sessions change the pool, but not this reservation, the
    registry and the host. *)
Inductive storage_op :=
| OpCleanup
| OpActivate
| OpAcquire
| OpReturn (lease : hostQuarantineLease)
| OpAuditStorage
| OpElsewhere (p : CapacityPool) (r : ImageUseRegistry) (w : W).

Definition sameReservation (s : SS) (p : CapacityPool) : bool :=
  bool_decide ((hr_reservation (ss_resource s) ≫= λ ref, p_heap p !! ref) = (hr_reservation (ss_resource s) ≫= λ ref, p_heap (mc_pool (ss_machine s)) !! ref)).

Definition runStorage (s : SS) (op : storage_op) : SS :=
  match op with
  | OpCleanup => (Cleanup euid egid stack s).2
  | OpActivate => (ActivateImages euid egid s).2
  | OpAcquire => (acquireQuarantine s).2
  | OpReturn lease => (ReleaseQuarantine lease s).2
  | OpAuditStorage => (AuditStorage s).2
  | OpElsewhere p r w => mkSS (ss_resource s) (mkMachine (if sameReservation s p then p else mc_pool (ss_machine s)) r w) (ss_log s)
  end.

(** A call that changes nothing but the host: the record may grow by calls that
    left the scratch and the overlay as they were. *)
Inductive unchanged (s : SS) : SS → Prop :=
| unchanged_same r w : unchanged s (onMachine (λ m, with_world w (with_registry r m)) s)
| unchanged_outer s' o w : unchanged s s' → hr_outer (ss_resource s) = Some o → unchanged s (calledOuter o w s')
| unchanged_overlay s' notes r w :
    unchanged s s' →
    unchanged s (mkSS (ss_resource s') (with_world w (with_registry r (ss_machine s'))) (ss_log s' ++ [OverlayCall (hr_overlay (ss_resource s)) notes])).

Lemma unchanged_resource s s' : unchanged s s' → ss_resource s' = ss_resource s ∧ mc_pool (ss_machine s') = mc_pool (ss_machine s).
Proof. by induction 1. Qed.

Lemma unchanged_refl s : unchanged s s.
Proof. pose proof (unchanged_same s (mc_registry (ss_machine s)) (mc_world (ss_machine s))) as H. by destruct s as [r [] l]. Qed.

Lemma Ordered_unchanged s s' : unchanged s s' → Ordered s → Ordered s'.
Proof.
  intros Hu HO. induction Hu as [r w|s' o w Hu IH Ho|s' notes r w Hu IH]; [destruct HO; by constructor|..];
    destruct (unchanged_resource _ _ Hu) as [Hr _]; rewrite <- Hr in *; destruct IH; constructor; cbn in *; try done.
  - rewrite Ho in *. apply lastOuter_outer.
  - intros h Hh%madeOverlay_outer. destruct (or_made0 h Hh); [by left|right; by apply removedOverlay_snoc].
  - rewrite lastOuter_overlay. done.
  - intros h [Hm|[Hh Hd]]%madeOverlay_overlay.
    + destruct (or_made0 h Hm); [by left|right; by apply removedOverlay_snoc].
    + left. split; [done|]. by rewrite <- (or_overlay0 h Hh).
Qed.

Lemma activate_unchanged (s : SS) : unchanged s (ActivateImages euid egid s).2.
Proof.
  unfold ActivateImages. destruct (hr_overlay (ss_resource s)) as [h|] eqn:Hh; [|apply unchanged_refl]. destruct (_ || _); [apply unchanged_refl|].
  unfold onOverlay. set (t0 := mkSt _ _ _). assert (Hk : ov_handle (sc_handle (ActivateOverlay euid egid h t0).2) = hr_overlay (ss_resource s)).
  { unfold ActivateOverlay. destruct (oh_destroyed h); [done|]. unfold bind. pose proof (verifyImage_keeps euid egid (oh_path h) (oh_identity h) t0) as H.
    destruct (verifyImageIdentity _ _ _ _ t0) as [[a|e] t]; [destruct H as [_ H]|cbn; by rewrite H].
    destruct (Activate _ _) as [[l r]|e]; cbn; by rewrite H. }
  destruct (ActivateOverlay _ _ _ _) as [a t]. cbn in *. rewrite Hk.
  pose proof (unchanged_overlay s s (sc_log t) (ov_registry (sc_handle t)) (sc_world t) (unchanged_refl s)) as Hu.
  assert (E : set_handle (hr_overlay (ss_resource s)) (ss_resource s) = ss_resource s) by (by destruct s as [[] m l]). by rewrite E.
Qed.

Lemma onOverlay_inert {A} (m : M A) good (s s' : SS) : inert m good → unchanged s s' → unchanged s (onOverlay m s').2.
Proof.
  intros H Hu. unfold onOverlay. set (t0 := mkSt _ _ _). specialize (H t0). destruct (m t0) as [a t]. cbn [snd].
  assert (sc_handle t = sc_handle t0) as -> by (destruct a; apply H). cbn. destruct (unchanged_resource _ _ Hu) as [Hr _].
  assert (E : set_handle (hr_overlay (ss_resource s')) (ss_resource s') = ss_resource s') by (by destruct s' as [[] m' l]). rewrite E.
  replace (hr_overlay (ss_resource s')) with (hr_overlay (ss_resource s)) by (by rewrite Hr). by apply unchanged_overlay.
Qed.

Lemma AuditOverlay_inert h : inert (W := W) (AuditOverlay h) (λ _, True).
Proof. unfold AuditOverlay. destruct (negb _); [apply inert_throw|apply must_inert]. Qed.

Lemma AuditTmpfs_inert : inert (W := W) AuditTmpfs (λ _, True).
Proof. apply inert_handle. intros h. destruct (_ || _); [apply inert_throw|apply must_inert]. Qed.

Lemma audit_unchanged (s : SS) : unchanged s (AuditStorage s).2.
Proof.
  unfold AuditStorage. match goal with |- context [let '(_, _) := ?x in _] => assert (H1 : unchanged s x.2); [|destruct x as [b1 s1]] end.
  { destruct (negb _); [apply unchanged_refl|]. destruct (hr_overlay _) as [h|]; [|apply unchanged_refl].
    pose proof (onOverlay_inert (AuditOverlay h) _ s s (AuditOverlay_inert h) (unchanged_refl s)) as H. by destruct (onOverlay _ s) as [a s']. }
  cbn [snd] in H1. match goal with |- context [let '(_, _) := ?x in _] => assert (H2 : unchanged s x.2); [|by destruct x as [b2 s2]] end.
  destruct (negb _); [done|]. destruct (hr_outer (ss_resource s1)) as [o|] eqn:Ho; [|done].
  destruct (onOuter_inert _ _ _ _ o s1 AuditTmpfs_inert Audit_inert) as [w Hw]. destruct (onOuter _ _ o s1) as [a s']. cbn in Hw |- *. subst s'.
  assert (E : onResource (set_outer o) (calledOuter o w s1) = calledOuter o w s1) by (destruct s1 as [[] m l]; cbn in *; by subst). rewrite E.
  apply unchanged_outer; [done|]. destruct (unchanged_resource _ _ H1) as [Hr _]. congruence.
Qed.

Lemma reserved_elsewhere s p r w b :
  reservationReleased s b → reservationReleased (runStorage s (OpElsewhere p r w)) b.
Proof.
  intros (ref & res & Hr & Hp & Hb). exists ref, res. cbn. split; [done|]. split; [|done]. unfold sameReservation. case_bool_decide as E; [|done].
  rewrite Hr in E. cbn in E. by rewrite E.
Qed.

Lemma runStorage_ok s op : Ordered s → Ordered (runStorage s op).
Proof.
  intros HO. destruct op as [| | |lease| |p r w].
  - pose proof (Cleanup_ok s HO) as H. cbn [runStorage]. destruct (Cleanup _ _ _ s) as [[a|e] s']; apply H.
  - eapply Ordered_unchanged; [apply activate_unchanged|done].
  - cbn [runStorage]. unfold acquireQuarantine. destruct (_ || _) eqn:E; [done|]. rewrite !orb_false_iff in E. destruct E as [_ E]. destruct HO. by constructor.
  - cbn [runStorage]. unfold ReleaseQuarantine. destruct (ql_released lease); [done|]. destruct (_ || _); [done|]. destruct HO. by constructor.
  - eapply Ordered_unchanged; [apply audit_unchanged|done].
  - pose proof (reserved_elsewhere s p r w _ (or_reserved _ HO)). destruct HO. by constructor.
Qed.







(** ** An overlay that has grown *)

(** The resource of a session whose overlay is still there. *)
Definition overlaid (h : OverlayHandle) (o : outerStorage) (s : SS) : Prop :=
  Ordered s ∧ hr_overlay (ss_resource s) = Some h ∧ hr_overlayClean (ss_resource s) = false ∧ hr_outer (ss_resource s) = Some o.

Definition grown (h : OverlayHandle) : Prop :=
  ∀ w : W, ∃ st w', statChild (oh_path h) w = (StatFound st, w') ∧ st_Size st ≠ ii_size (oh_identity h).

Lemma grown_cleanup h o s :
  grown h → overlaid h o s → ∃ e s', Cleanup euid egid stack s = (Err e, s') ∧ overlaid h o s'.
Proof.
  intros Hg (HO & Hh & Hc & Ho). unfold Cleanup. destruct (hr_quarantineLeased _) eqn:Hl; [eexists _, s; split; [done|by split]|]. unfold andThen, cleanupOverlay. rewrite Hh, Hc.
  assert (Hd : oh_destroyed h = false) by (by rewrite (or_overlay _ HO _ Hh)). unfold onOverlay. set (t0 := mkSt _ _ _).
  destruct (grown_overlay_is_kept h t0 Hd Hg) as (e & t & -> & Ht). rewrite Ht. cbn. eexists e, _. split; [done|].
  assert (Hs : set_handle (hr_overlay (ss_resource s)) (ss_resource s) = ss_resource s) by (by destruct s as [[] ? ?]).
  rewrite Hs. split; [|done]. eapply (Ordered_unchanged s); [|done]. by apply unchanged_overlay, unchanged_refl.
Qed.

Lemma grown_run h o s op : grown h → overlaid h o s → overlaid h o (runStorage s op).
Proof.
  intros Hg HH. pose proof HH as (HO & Hh & Hc & Ho). destruct op as [| | |lease| |p r w].
  - destruct (grown_cleanup h o s Hg HH) as (e & s' & E & H). cbn [runStorage]. by rewrite E.
  - pose proof (runStorage_ok s OpActivate HO). destruct (unchanged_resource _ _ (activate_unchanged s)) as [Hr _]. split; [done|]. cbn [runStorage] in *. by rewrite Hr.
  - pose proof (runStorage_ok s OpAcquire HO). split; [done|]. cbn [runStorage] in *. unfold acquireQuarantine in *. by destruct (_ || _).
  - pose proof (runStorage_ok s (OpReturn lease) HO). split; [done|]. cbn [runStorage] in *. unfold ReleaseQuarantine in *. destruct (ql_released lease); [done|]. by destruct (_ || _).
  - pose proof (runStorage_ok s OpAuditStorage HO). destruct (unchanged_resource _ _ (audit_unchanged s)) as [Hr _]. split; [done|]. cbn [runStorage] in *. by rewrite Hr.
  - pose proof (runStorage_ok s (OpElsewhere p r w) HO). by split.
Qed.

(** C32: when the file of a session's root overlay has another size than when it
    was made, as a QCOW2 overlay has once its guest wrote to it, every clean-up
    fails whatever happens in between: the overlay is taken for a replaced file,
    so the outer scratch stays mounted and the capacity reserved. *)
Theorem grown_overlay_blocks_cleanup id role plan imagePath m s h ops :
  Allocate euid egid DecodeInfo stack id role plan imagePath m = Allocated s → hr_overlay (ss_resource s) = Some h → grown h →
  ∃ e s' o, Cleanup euid egid stack (foldl runStorage s ops) = (Err e, s') ∧ hr_outer (ss_resource s') = Some o ∧ OuterFull o ∧ reservationReleased s' false.
Proof.
  intros Ha Hh Hg. pose proof (StackAllocate_ok id role plan imagePath m) as H. rewrite Ha in H. destruct H as [(HO & _ & Hc & _) (o & h' & Ho & Hf & _)].
  assert (HH : ∀ ops s, overlaid h o s → overlaid h o (foldl runStorage s ops)).
  { clear - Hg modes_typed. intros ops. induction ops as [|op ops IH]; intros s HH; [done|]. by apply IH, grown_run. }
  destruct (grown_cleanup h o _ Hg (HH ops s (conj HO (conj Hh (conj Hc Ho))))) as (e & s' & E & (HO' & _ & Hc' & Ho')). exists e, s', o. split; [done|]. split; [done|]. split; [done|].
  pose proof (or_reserved _ HO') as Hr. destruct (hr_reservationClean _) eqn:E3; [|done]. pose proof (or_first _ HO' (or_second _ HO' E3)). congruence.
Qed.

End StackProofs.

(** ** Examples *)

Definition stackBase : string := "/var/images/base.qcow2".
Definition stackImage (size mode : Z) : Stat := mkStat 1 5 size 0 0 (S_IFREG + mode) 1.

(** A host that agrees; when [g], overlays have grown when they are looked at again. *)
#[local] Instance stackHost (g : bool) : StorageHost unit := {
  openDirectory := λ _ w, (Some demoDirectory, w);
  openMarker := λ _ w, (Some (mkMarker true 384 (slen noBackupMarkerContent) 0 0 1), w);
  readMarker := λ w, (Some noBackupMarkerContent, w);
  osMkdir := λ _ w, (true, w);
  osRemove := λ _ w, (true, w);
  createExclusive := λ _ w, (true, w);
  fstatFile := λ path w, (Some (if bool_decide (path = stackBase) then stackImage 4194304 292 else stackImage 196616 384), w);
  truncateFile := λ _ _ w, (true, w);
  closeFile := λ _ w, (true, w);
  randomKey := λ w, (true, w);
  dupKey := λ w, (true, w);
  runTool := λ _ args w, (last args, w);
  mountAt := λ _ _ _ _ w, (true, w);
  unmountAt := λ _ w, (true, w);
  chmodPath := λ _ w, (true, w);
  verifyLoopBacking := λ _ _ w, (true, w);
  verifyMapperBacking := λ _ _ w, (true, w);
  loopStillBacks := λ _ _ w, (Some false, w);
  mapperExists := λ _ w, (Some false, w);
  statParent := λ _ w, (Some demoDirectory, w);
  statChild := λ path w, (StatFound (if HasSuffix path ".qcow2" then stackImage (if g then 262144 else 196616) 384 else demoDirectory), w);
  unlinkChild := λ _ w, (true, w);
  rmdirChild := λ _ w, (true, w);
  lstatAbsent := λ _ w, (true, w);
  contextDone := λ w, (false, w)
}.

#[local] Instance stackImages : ImageHost unit := {
  openImage := λ _ w, (true, w);
  openOverlay := λ _ w, (true, w);
  chmodOpen := λ _ w, (true, w)
}.

(** The demonstration tool answers with the path it was asked about. *)
Definition stackDecode (out : string) : option (imageInfo * bool) :=
  Some (mkImageInfo "qcow2" 10737418240 "" (if bool_decide (out = stackBase) then "" else stackBase), false).

Definition demoStack : StorageStack := mkStack "/run/private-vm" demoManager (mkOverlayManager "/usr/bin/qemu-img") 4294967296.
Definition demoHostCapacity : HostCapacity := mkHost 34359738368 30064771072 17179869184 0 true false.
Definition demoLaunch : LaunchPlan := mkLaunchPlan RoleDownloader 2147483648 1073741824 1073741824.
Definition demoMachine : Machine (W := unit) := mkMachine (mkPool demoHostCapacity ∅ 0 0 0 ∅ 0) NewImageUseRegistry tt.

Lemma stack_typed g path (w w' : unit) s : statChild (StorageHost := stackHost g) path w = (StatFound s, w') → st_Mode s ≠ 0%Z.
Proof. cbn. destruct (HasSuffix _ _); by intros [= <- _]. Qed.

#[local] Abbreviation demoAllocate g := (Allocate (StorageHost0 := stackHost g) 0 0 stackDecode demoStack demoSession RoleDownloader demoLaunch stackBase demoMachine).
#[local] Abbreviation demoCleanup g := (Cleanup (StorageHost0 := stackHost g) 0 0 demoStack).

(** The states it goes through. *)
Definition demoAllocated := Eval vm_compute in match demoAllocate false with Allocated s => Some s | _ => None end.
Definition demoSS : SS (W := unit) :=
  Eval vm_compute in match demoAllocated with Some s => s | None => mkSS (mkResource None None None "" false false false false) demoMachine [] end.
Definition demoOverlay : OverlayHandle :=
  Eval vm_compute in match hr_overlay (ss_resource demoSS) with Some h => h | None => mkOverlay "" "" noImage noPath true end.


Lemma grown_overlay_blocks_cleanup_witness :
  demoAllocate true = Allocated demoSS ∧
  ∃ e s' o, demoCleanup true demoSS = (Err e, s') ∧ hr_outer (ss_resource s') = Some o ∧ OuterFull o ∧ reservationReleased s' false.
Proof.
  assert (Ha : demoAllocate true = Allocated demoSS) by (vm_compute; reflexivity). split; [exact Ha|].
  apply (grown_overlay_blocks_cleanup (StorageHost0 := stackHost true) 0 0 (stack_typed true) stackDecode demoStack demoSession RoleDownloader demoLaunch stackBase demoMachine demoSS demoOverlay [] Ha).
  - vm_compute; reflexivity.
  - intros []. eexists _, tt. split; [vm_compute; reflexivity|]. vm_compute. discriminate.
Defined.
