(* ===== verification/Networked.v ===== *)
(** * Networked guests

    Models [src/internal/orchestrator/networked.go]: the start of a guest with a
    network, which must prove its VPN and the host's egress policy before it is
    handed out, its two background watchers, and its stop and clean-up.  QEMU,
    the guest connection and the session network are an interface over a world;
    [ns_log] is a ghost record of what was asked of them. *)

From Stdlib Require Import ZArith Lia.
From stdpp Require Import strings base tactics option list.
From S2P Require Import Prelude GoText SessionModel GuestVPN QemuSpec.

Open Scope string_scope.
Open Scope list_scope.

Inductive networked_error := ErrNetworkedStart | ErrNetworkedCleanup | ErrNetworkedNotVerified | ErrDirtyWorkspace | StartContextDone.

Record EgressProof := mkEgress { NamespacePolicyPresent : bool; HostPolicyPresent : bool; ForbiddenEgressZero : bool }.

Definition egressComplete (p : EgressProof) : bool := NamespacePolicyPresent p && HostPolicyPresent p && ForbiddenEgressZero p.

Record StartNetworkedRequest := mkStartRequest {
  sn_SessionID : string;
  sn_Role : Role;
  sn_ScannerUpdate : bool;
  sn_Spec : Spec;
  sn_MonitorInterval : Z             (* nanoseconds *)
}.

(** The process, guest and display are present or not; the network and the
    capability always are. *)
Record NetworkedRuntime := mkNetworked {
  nr_role : Role;
  nr_process : bool;
  nr_guest : bool;
  nr_display : bool;
  nr_monitoring : bool;
  nr_processStopped : bool;
  nr_guestClosed : bool;
  nr_capDestroyed : bool;
  nr_networkCleaned : bool;
  nr_cleanupErr : bool
}.

Definition set_process (r : NetworkedRuntime) : NetworkedRuntime :=
  mkNetworked (nr_role r) true (nr_guest r) (nr_display r) (nr_monitoring r) (nr_processStopped r) (nr_guestClosed r) (nr_capDestroyed r) (nr_networkCleaned r) (nr_cleanupErr r).
Definition set_guest (b : bool) (r : NetworkedRuntime) : NetworkedRuntime :=
  mkNetworked (nr_role r) (nr_process r) b (nr_display r) (nr_monitoring r) (nr_processStopped r) (nr_guestClosed r) (nr_capDestroyed r) (nr_networkCleaned r) (nr_cleanupErr r).
Definition set_display (r : NetworkedRuntime) : NetworkedRuntime :=
  mkNetworked (nr_role r) (nr_process r) (nr_guest r) true (nr_monitoring r) (nr_processStopped r) (nr_guestClosed r) (nr_capDestroyed r) (nr_networkCleaned r) (nr_cleanupErr r).
Definition set_monitoring (b : bool) (r : NetworkedRuntime) : NetworkedRuntime :=
  mkNetworked (nr_role r) (nr_process r) (nr_guest r) (nr_display r) b (nr_processStopped r) (nr_guestClosed r) (nr_capDestroyed r) (nr_networkCleaned r) (nr_cleanupErr r).
Definition set_stopped (r : NetworkedRuntime) : NetworkedRuntime :=
  mkNetworked (nr_role r) (nr_process r) (nr_guest r) (nr_display r) (nr_monitoring r) true (nr_guestClosed r) (nr_capDestroyed r) (nr_networkCleaned r) (nr_cleanupErr r).
Definition set_guestClosed (r : NetworkedRuntime) : NetworkedRuntime :=
  mkNetworked (nr_role r) (nr_process r) (nr_guest r) (nr_display r) (nr_monitoring r) (nr_processStopped r) true (nr_capDestroyed r) (nr_networkCleaned r) (nr_cleanupErr r).
Definition set_capDestroyed (r : NetworkedRuntime) : NetworkedRuntime :=
  mkNetworked (nr_role r) (nr_process r) (nr_guest r) (nr_display r) (nr_monitoring r) (nr_processStopped r) (nr_guestClosed r) true (nr_networkCleaned r) (nr_cleanupErr r).
Definition set_networkCleaned (r : NetworkedRuntime) : NetworkedRuntime :=
  mkNetworked (nr_role r) (nr_process r) (nr_guest r) (nr_display r) (nr_monitoring r) (nr_processStopped r) (nr_guestClosed r) (nr_capDestroyed r) true (nr_cleanupErr r).
Definition set_cleanupErr (b : bool) (r : NetworkedRuntime) : NetworkedRuntime :=
  mkNetworked (nr_role r) (nr_process r) (nr_guest r) (nr_display r) (nr_monitoring r) (nr_processStopped r) (nr_guestClosed r) (nr_capDestroyed r) (nr_networkCleaned r) b.

(** ** What it calls *)

(** A start may fail after the process or the connection exists, so both report
    what exists and whether it went well. *)
Class NetworkedHost (W : Type) := {
  withUnderlay : W → bool * W;
  dupCapability : W → bool * W;
  launchQemu : Spec → W → (bool * bool) * W;     (* process, no error of WithTAP *)
  connectGuest : Z → Role → W → (bool * bool) * W;   (* at a CID: connection, no error *)
  guestHandshake : W → bool * W;
  configureVPN : W → option Status * W;
  verifyVPN : W → option Status * W;
  verifyEgress : string → W → option EgressProof * W;   (* of a session *)
  startContext : W → bool * W;                   (* the start's context is done *)
  guestShutdown : W → bool * W;
  processStop : W → bool * W;
  processWait : W → bool * W;
  guestClose : W → bool * W;
  networkCleanup : W → bool * W;
  workspaceDirty : W → option bool * W;
  displayStop : W → bool * W
}.

Inductive net_call :=
| GotUnderlay (ok : bool)
| Launched (spec : Spec) (process ok : bool)
| Connected (cid : Z) (role : Role) (guest ok : bool)
| ShookHands (ok : bool)
| ConfiguredVPN (s : option Status)
| VerifiedVPN (s : option Status)
| AuditedEgress (sessionID : string) (p : option EgressProof)
| AskedShutdown (ok : bool)
| StoppedProcess (ok : bool)
| ProcessEnded (ok : bool)
| ClosedGuest (ok : bool)
| DestroyedCapability
| CleanedNetwork (ok : bool)
| AskedDirty (d : option bool)
| StoppedDisplay (ok : bool).

Definition verifiedStatus (s : Status) (role : Role) : bool :=
  let p := st_Proof s in
  (SchemaVersion s =? 1)%Z && bool_decide (st_State s = StateVerified) && st_KillSwitchArmed s && st_Configured s &&
  Handshake p && DNSThroughTunnel p && DNSBypassBlocked p && IPv4ThroughTunnel p && IPv4BypassBlocked p && IPv6ThroughTunnel p &&
  IPv6BypassBlocked p && bool_decide (st_Code s = "GUEST_VPN_VERIFIED") &&
  (negb (bool_decide (role = RoleDownloader)) || TorrentBound p).

(** The interfaces of the request are given. *)
Definition validateStartRequest (fs : HostFiles) (r : StartNetworkedRequest) : bool :=
  is_Ok (ValidateID (sn_SessionID r)) && is_Ok (Validate fs (sn_Spec r)) && bool_decide (sp_SessionID (sn_Spec r) = sn_SessionID r) &&
  bool_decide (sp_Role (sn_Spec r) = sn_Role r) && sp_Networked (sn_Spec r) && (sp_NetworkFD (sn_Spec r) =? 4)%Z && (sp_FWCfgTokenFD (sn_Spec r) =? 3)%Z &&
  (0 <=? sn_MonitorInterval r)%Z && (sn_MonitorInterval r <=? 300000000000)%Z &&
  match sn_Role r with
  | RoleWorkstation | RoleDownloader => true
  | RoleScanner => sn_ScannerUpdate r && bool_decide (sp_ScannerMode (sn_Spec r) = ScannerModeUpdate)
  | _ => false
  end.

Section Runtime.
Context {W : Type} `{!NetworkedHost W}.

Record NS := mkNS { ns_runtime : NetworkedRuntime; ns_world : W; ns_log : list net_call }.

Definition upd (f : NetworkedRuntime → NetworkedRuntime) (s : NS) : NS := mkNS (f (ns_runtime s)) (ns_world s) (ns_log s).
Definition ask {A} (f : W → A * W) (c : A → net_call) (s : NS) : A * NS :=
  let '(a, w) := f (ns_world s) in (a, mkNS (ns_runtime s) w (ns_log s ++ [c a])).
Definition quietly {A} (f : W → A * W) (s : NS) : A * NS := let '(a, w) := f (ns_world s) in (a, mkNS (ns_runtime s) w (ns_log s)).

(** Each part of [cleanupAfterProcessLocked] tells whether it went well. *)
Definition closeGuest (s : NS) : bool * NS :=
  if negb (nr_guest (ns_runtime s)) then (true, upd set_guestClosed s)
  else if nr_guestClosed (ns_runtime s) then (true, s)
  else let '(ok, s) := ask guestClose ClosedGuest s in (ok, if ok then upd set_guestClosed s else s).

Definition destroyCapability (s : NS) : NS :=
  if nr_capDestroyed (ns_runtime s) then s
  else upd set_capDestroyed (mkNS (ns_runtime s) (ns_world s) (ns_log s ++ [DestroyedCapability])).

Definition cleanNetwork (s : NS) : bool * NS :=
  if nr_networkCleaned (ns_runtime s) then (true, s)
  else let '(ok, s) := ask networkCleanup CleanedNetwork s in (ok, if ok then upd set_networkCleaned s else s).

Definition cleanupAfterProcess (s : NS) : bool * NS :=
  let '(closed, s) := closeGuest s in
  let s := destroyCapability s in
  let '(cleaned, s) := cleanNetwork s in
  let ok := closed && cleaned in
  (ok, upd (set_cleanupErr (negb ok)) s).

Definition stopAndCleanup (s : NS) : bool * NS :=
  let s := upd (set_monitoring false) s in
  if nr_processStopped (ns_runtime s) then cleanupAfterProcess s
  else
    let s := if nr_guest (ns_runtime s) then (ask guestShutdown AskedShutdown s).2 else s in
    let '(stopped, s) := if nr_process (ns_runtime s) then ask processStop StoppedProcess s else (true, s) in
    if negb stopped then (false, upd (set_cleanupErr true) s)
    else cleanupAfterProcess (upd set_stopped s).

Definition allReleased (r : NetworkedRuntime) : bool := nr_processStopped r && nr_guestClosed r && nr_capDestroyed r && nr_networkCleaned r.

Definition Stop (discardDirty : bool) (s : NS) : result networked_error unit * NS :=
  let finish s := let '(ok, s) := stopAndCleanup s in (if ok : bool then Ok tt else Err ErrNetworkedCleanup, s) in
  let r := ns_runtime s in
  if allReleased r then (if nr_cleanupErr r then Err ErrNetworkedCleanup else Ok tt, s)
  else if bool_decide (nr_role r = RoleWorkstation) && negb discardDirty && nr_guest r && negb (nr_processStopped r) then
    let '(dirty, s) := ask workspaceDirty AskedDirty s in
    match dirty with
    | None => (Err ErrNetworkedCleanup, s)
    | Some true => (Err ErrDirtyWorkspace, s)
    | Some false => finish s
    end
  else finish s.

(** The goroutine that waits for the end of the process. *)
Definition watchProcess (s : NS) : NS :=
  let '(ok, s) := ask processWait ProcessEnded s in
  let s := upd set_stopped s in
  let '(displayOk, s) := if nr_display (ns_runtime s) then ask displayStop StoppedDisplay s else (true, s) in
  let s := upd (set_monitoring false) s in
  let '(cleaned, s) := cleanupAfterProcess s in
  if negb cleaned || negb ok || negb displayOk then upd (set_cleanupErr true) s else s.

Definition attachDisplay (s : NS) : result networked_error unit * NS :=
  if negb (bool_decide (nr_role (ns_runtime s) = RoleWorkstation)) then (Err ErrNetworkedStart, s)
  else if nr_display (ns_runtime s) || nr_processStopped (ns_runtime s) then (Err ErrNetworkedCleanup, (ask displayStop StoppedDisplay s).2)
  else (Ok tt, upd set_display s).

Definition Audit (r : NetworkedRuntime) : result networked_error unit :=
  fail_if (negb (allReleased r) || nr_cleanupErr r) with ErrNetworkedCleanup ;; Ok tt.

(** [normalizeStartError] *)
Definition startError (s : NS) : networked_error * NS := let '(done, s) := quietly startContext s in (if done : bool then StartContextDone else ErrNetworkedStart, s).
Definition refuseStart (s : NS) : result networked_error unit * NS := let '(e, s) := startError s in (Err e, s).

(** The VPN of the guest and the egress of the host are proved. *)
Definition proveNetwork (request : StartNetworkedRequest) (s : NS) : result networked_error unit * NS :=
  let role := sn_Role request in
  let '(configured, s) := ask configureVPN ConfiguredVPN s in
  match configured with
  | None => (Err ErrNetworkedNotVerified, s)
  | Some configured =>
      if negb (verifiedStatus configured role) then (Err ErrNetworkedNotVerified, s)
      else
        let '(verified, s) := ask verifyVPN VerifiedVPN s in
        match verified with
        | None => (Err ErrNetworkedNotVerified, s)
        | Some verified =>
            if negb (verifiedStatus verified role) then (Err ErrNetworkedNotVerified, s)
            else
              let '(egress, s) := ask (verifyEgress (sn_SessionID request)) (AuditedEgress (sn_SessionID request)) s in
              match egress with
              | None => (Err ErrNetworkedNotVerified, s)
              | Some egress =>
                  if negb (egressComplete egress) then (Err ErrNetworkedNotVerified, s) else (Ok tt, upd (set_monitoring true) s)
              end
        end
  end.

Definition startBody (request : StartNetworkedRequest) (s : NS) : result networked_error unit * NS :=
  let '(underlay, s) := ask withUnderlay GotUnderlay s in
  if negb underlay then refuseStart s
  else
    let '(duplicated, s) := quietly dupCapability s in
    if negb duplicated then (Err ErrNetworkedStart, s)
    else
      let '(launched, s) := ask (launchQemu (sn_Spec request)) (λ r, Launched (sn_Spec request) r.1 r.2) s in
      let s := if launched.1 then upd set_process s else s in
      if negb launched.2 || negb launched.1 then refuseStart s
      else
        let cid := sp_VSOCKCID (sn_Spec request) in
        let '(connected, s) := ask (connectGuest cid (sn_Role request)) (λ r, Connected cid (sn_Role request) r.1 r.2) s in
        let s := upd (set_guest connected.1) s in
        if negb connected.2 || negb connected.1 then refuseStart s
        else
          let '(shaken, s) := ask guestHandshake ShookHands s in
          if negb shaken then refuseStart s else proveNetwork request s.

Definition newRuntime (role : Role) : NetworkedRuntime := mkNetworked role false false false false false false false false false.

(** The second component of the error: the runtime is returned with it. *)
Definition StartNetworked (fs : HostFiles) (request : StartNetworkedRequest) (w : W) : result (networked_error * bool) unit * NS :=
  let s := mkNS (newRuntime (sn_Role request)) w [] in
  if negb (validateStartRequest fs request) then (Err (ErrNetworkedStart, false), s)
  else
    match startBody request s with
    | (Ok _, s) => (Ok tt, s)
    | (Err e, s) =>
        let '(ok, s) := stopAndCleanup s in
        (Err (if ok : bool then (e, false) else (ErrNetworkedCleanup, true)), s)
    end.

End Runtime.

(** * Properties *)

(** ** What is held *)

Record NWatch := mkNWatch { nw_process : bool; nw_guest : bool; nw_capability : bool; nw_network : bool; nw_bad : bool }.

(** [nw_bad]: the guest connection, the capability or the network was given up
    while the process ran. *)
Definition nobserve (w : NWatch) (c : net_call) : NWatch :=
  match c, w with
  | Launched _ true _, mkNWatch p g k n b => mkNWatch true g k n b
  | Connected _ _ true _, mkNWatch p g k n b => mkNWatch p true k n b
  | StoppedProcess true, mkNWatch p g k n b => mkNWatch false g k n b
  | ProcessEnded _, mkNWatch p g k n b => mkNWatch false g k n b
  | ClosedGuest ok, mkNWatch p g k n b => mkNWatch p (if ok then false else g) k n (b || p)
  | DestroyedCapability, mkNWatch p g k n b => mkNWatch p g false n (b || p)
  | CleanedNetwork ok, mkNWatch p g k n b => mkNWatch p g k (if ok then false else n) (b || p)
  | _, _ => w
  end.

(** A start is given the capability and the network. *)
Definition nwatch (l : list net_call) : NWatch := foldl nobserve (mkNWatch false false true true false) l.

#[global] Arguments nwatch : simpl never.

Definition nfree (w : NWatch) : Prop := nw_bad w = false ∧ nw_process w = false ∧ nw_guest w = false ∧ nw_capability w = false ∧ nw_network w = false.

Record NKnows (r : NetworkedRuntime) (w : NWatch) : Prop := {
  nk_bad : nw_bad w = false;
  nk_process : nw_process w = nr_process r && negb (nr_processStopped r);
  nk_guest : nw_guest w = nr_guest r && negb (nr_guestClosed r);
  nk_capability : nw_capability w = negb (nr_capDestroyed r);
  nk_network : nw_network w = negb (nr_networkCleaned r)
}.

Lemma nwatch_snoc l c : nwatch (l ++ [c]) = nobserve (nwatch l) c.
Proof. unfold nwatch. by rewrite foldl_app. Qed.

Section RuntimeProofs.
Context {W : Type} `{!NetworkedHost W}.

#[local] Abbreviation NS := (NS (W := W)).

Definition K (s : NS) : Prop := NKnows (ns_runtime s) (nwatch (ns_log s)).

Lemma K_free s : K s → allReleased (ns_runtime s) = true → nfree (nwatch (ns_log s)).
Proof.
  intros [Hb Hp Hg Hc Hn] Ha. unfold allReleased in Ha. rewrite !andb_true_iff in Ha. destruct Ha as (((Ha & Hgc) & Hcd) & Hnc).
  rewrite Ha, andb_false_r in Hp. rewrite Hgc, andb_false_r in Hg. rewrite Hcd in Hc. rewrite Hnc in Hn. by split_and!.
Qed.

(** A change of the flags that the watch does not follow. *)
Lemma K_upd f s :
  (∀ r, nr_process (f r) = nr_process r ∧ nr_processStopped (f r) = nr_processStopped r ∧ nr_guest (f r) = nr_guest r ∧
        nr_guestClosed (f r) = nr_guestClosed r ∧ nr_capDestroyed (f r) = nr_capDestroyed r ∧ nr_networkCleaned (f r) = nr_networkCleaned r) →
  K s → K (upd f s).
Proof. intros Hf [Hb Hp Hg Hc Hn]. destruct (Hf (ns_runtime s)) as (E1 & E2 & E3 & E4 & E5 & E6). constructor; cbn; rewrite ?E1, ?E2, ?E3, ?E4, ?E5, ?E6; done. Qed.

Lemma K_ask {A} (f : W → A * W) c s : (∀ a w, nobserve w (c a) = w) → K s → K (ask f c s).2 ∧ ns_runtime (ask f c s).2 = ns_runtime s.
Proof. intros Hc HK. unfold ask. destruct (f _) as [a w]. unfold K. cbn. by rewrite nwatch_snoc, Hc. Qed.

Ltac stepping := unfold K in *; cbn in *; rewrite ?nwatch_snoc; match goal with |- context [nwatch ?l] => destruct (nwatch l) end; cbn in *; subst.

Lemma closeGuest_ok s :
  K s → nr_processStopped (ns_runtime s) = true →
  let '(ok, s') := closeGuest s in K s' ∧ nr_processStopped (ns_runtime s') = true ∧ (ok = true → nr_guestClosed (ns_runtime s') = true).
Proof.
  intros HK Hs. unfold closeGuest. destruct (nr_guest (ns_runtime s)) eqn:Hg; cbn [negb].
  2: { split; [|done]. destruct HK as [? ? Hk ? ?]. constructor; cbn; try done. by rewrite Hk, Hg. }
  destruct (nr_guestClosed (ns_runtime s)) eqn:Hc; [done|]. unfold ask. destruct (guestClose _) as [[] w].
  - split; [|done]. destruct HK as [Hb Hp Hk ? ?]. rewrite Hs, andb_false_r in Hp. stepping. constructor; cbn; rewrite ?Hs, ?andb_false_r; done.
  - split; [|done]. destruct HK as [Hb Hp Hk ? ?]. rewrite Hs, andb_false_r in Hp. stepping. constructor; cbn; rewrite ?Hs, ?andb_false_r; done.
Qed.

Lemma destroyCapability_ok s :
  K s → nr_processStopped (ns_runtime s) = true →
  K (destroyCapability s) ∧ nr_capDestroyed (ns_runtime (destroyCapability s)) = true ∧ nr_processStopped (ns_runtime (destroyCapability s)) = true ∧
  nr_guestClosed (ns_runtime (destroyCapability s)) = nr_guestClosed (ns_runtime s).
Proof.
  intros HK Hs. unfold destroyCapability. destruct (nr_capDestroyed (ns_runtime s)) eqn:Hc; [done|]. split; [|done].
  destruct HK as [Hb Hp Hk ? ?]. rewrite Hs, andb_false_r in Hp. stepping. constructor; cbn; rewrite ?Hs, ?andb_false_r; done.
Qed.

Lemma cleanNetwork_ok s :
  K s → nr_processStopped (ns_runtime s) = true →
  let '(ok, s') := cleanNetwork s in
  K s' ∧ (ok = true → nr_networkCleaned (ns_runtime s') = true) ∧ nr_processStopped (ns_runtime s') = true ∧
  nr_guestClosed (ns_runtime s') = nr_guestClosed (ns_runtime s) ∧ nr_capDestroyed (ns_runtime s') = nr_capDestroyed (ns_runtime s).
Proof.
  intros HK Hs. unfold cleanNetwork. destruct (nr_networkCleaned (ns_runtime s)) eqn:Hc; [done|]. unfold ask. destruct (networkCleanup _) as [[] w]; (split; [|done]).
  all: destruct HK as [Hb Hp Hk ? ?]; rewrite Hs, andb_false_r in Hp; stepping; constructor; cbn; rewrite ?Hs, ?andb_false_r; done.
Qed.

Lemma cleanupAfterProcess_ok s :
  K s → nr_processStopped (ns_runtime s) = true →
  let '(ok, s') := cleanupAfterProcess s in
  K s' ∧ nr_processStopped (ns_runtime s') = true ∧ nr_cleanupErr (ns_runtime s') = negb ok ∧ (ok = true → allReleased (ns_runtime s') = true).
Proof.
  intros HK Hs. unfold cleanupAfterProcess. pose proof (closeGuest_ok s HK Hs) as H1. destruct (closeGuest s) as [closed s1]. destruct H1 as (HK1 & Hs1 & Hc1).
  destruct (destroyCapability_ok s1 HK1 Hs1) as (HK2 & Hd2 & Hs2 & Hg2). set (s2 := destroyCapability s1) in *.
  pose proof (cleanNetwork_ok s2 HK2 Hs2) as H3. destruct (cleanNetwork s2) as [cleaned s3]. destruct H3 as (HK3 & Hn3 & Hs3 & Hg3 & Hd3).
  split; [by apply K_upd; [done|]|]. split; [done|]. split; [done|]. intros [-> ->]%andb_true_iff. unfold allReleased. cbn.
  by rewrite Hs3, Hg3, Hg2, Hc1, Hd3, Hd2, Hn3.
Qed.

Lemma stopAndCleanup_ok s :
  K s → let '(ok, s') := stopAndCleanup s in K s' ∧ nr_cleanupErr (ns_runtime s') = negb ok ∧ (ok = true → allReleased (ns_runtime s') = true).
Proof.
  intros HK. unfold stopAndCleanup. assert (HK0 : K (upd (set_monitoring false) s)) by (by apply K_upd). set (s0 := upd _ s) in *. clearbody s0. clear HK.
  destruct (nr_processStopped (ns_runtime s0)) eqn:Hs.
  { pose proof (cleanupAfterProcess_ok s0 HK0 Hs) as H. destruct (cleanupAfterProcess s0) as [ok s']. tauto. }
  set (s1 := if nr_guest (ns_runtime s0) then _ else s0). assert (H1 : K s1 ∧ ns_runtime s1 = ns_runtime s0).
  { subst s1. destruct (nr_guest _); [|done]. by apply K_ask. }
  destruct H1 as [HK1 E1]. clearbody s1. destruct (nr_process (ns_runtime s1)) eqn:Hp.
  - unfold ask. destruct (processStop (ns_world s1)) as [[] w]; cbn [negb].
    + set (s2 := upd set_stopped _). assert (HK2 : K s2). { subst s2. destruct HK1. stepping. constructor; cbn; rewrite ?andb_false_r; done. }
      pose proof (cleanupAfterProcess_ok s2 HK2 eq_refl) as H. destruct (cleanupAfterProcess s2) as [ok s']. tauto.
    + split; [|done]. destruct HK1. stepping. constructor; cbn; done.
  - cbn [negb]. set (s2 := upd set_stopped s1). assert (HK2 : K s2). { subst s2. destruct HK1. unfold K in *. constructor; cbn; try done. by rewrite nk_process0, Hp. }
    pose proof (cleanupAfterProcess_ok s2 HK2 eq_refl) as H. destruct (cleanupAfterProcess s2) as [ok s']. tauto.
Qed.

Lemma Stop_ok discard s : K s → let '(r, s') := Stop discard s in K s' ∧ (r = Ok tt → allReleased (ns_runtime s') = true ∧ nr_cleanupErr (ns_runtime s') = false).
Proof.
  intros HK. unfold Stop. assert (Hf : ∀ s0, K s0 → let '(r, s') := (let '(ok, s1) := stopAndCleanup s0 in (if ok : bool then Ok tt else Err ErrNetworkedCleanup, s1)) in
    K s' ∧ (r = Ok tt → allReleased (ns_runtime s') = true ∧ nr_cleanupErr (ns_runtime s') = false)).
  { intros s0 H0. pose proof (stopAndCleanup_ok s0 H0) as H. destruct (stopAndCleanup s0) as [[] s1]; destruct H as (? & ? & ?); auto. split; [done|]. by intros. }
  destruct (allReleased _) eqn:Ha; [split; [done|]; by destruct (nr_cleanupErr _)|]. destruct (_ && _); [|by apply Hf].
  pose proof (K_ask workspaceDirty AskedDirty s (λ _ _, eq_refl) HK) as [HK1 _]. destruct (ask _ _ s) as [[[]|] s1]; cbn [snd] in HK1; [done|by apply Hf|done].
Qed.

Lemma watchProcess_ok s : K s → K (watchProcess s) ∧ nr_processStopped (ns_runtime (watchProcess s)) = true.
Proof.
  intros HK. enough (H : ∃ s', watchProcess s = s' ∧ K s' ∧ nr_processStopped (ns_runtime s') = true) by (by destruct H as (? & -> & ?)).
  unfold watchProcess, ask at 1. destruct (processWait (ns_world s)) as [ok w].
  set (s1 := upd set_stopped _). assert (HK1 : K s1). { subst s1. destruct HK. stepping. constructor; cbn; rewrite ?andb_false_r; done. }
  assert (Hs1 : nr_processStopped (ns_runtime s1) = true) by done. clearbody s1.
  destruct (if nr_display (ns_runtime s1) then ask displayStop StoppedDisplay s1 else (true, s1)) as [dok s2] eqn:Ed.
  assert (H2 : K s2 ∧ ns_runtime s2 = ns_runtime s1). { destruct (nr_display _); [|by injection Ed as _ <-]. pose proof (K_ask displayStop StoppedDisplay s1 (λ _ _, eq_refl) HK1) as H. by rewrite Ed in H. }
  destruct H2 as [HK2 E2]. assert (HK3 : K (upd (set_monitoring false) s2)) by (by apply K_upd).
  assert (Hs3 : nr_processStopped (ns_runtime (upd (set_monitoring false) s2)) = true) by (cbn; by rewrite E2).
  pose proof (cleanupAfterProcess_ok _ HK3 Hs3) as H. destruct (cleanupAfterProcess _) as [c s4]. destruct H as (HK4 & Hs4 & _). eexists. split; [done|]. destruct (_ || _); [split; [by apply K_upd|exact Hs4]|by split].
Qed.

Lemma attachDisplay_ok s : K s → K (attachDisplay s).2.
Proof.
  intros HK. unfold attachDisplay. destruct (negb _); [done|]. destruct (_ || _); [|by apply K_upd]. by apply K_ask.
Qed.

(** ** Starting *)

(** QEMU was launched from the specification, the guest at its CID proved its
    network, and the egress of the session was audited, in this order and with
    nothing else asked. *)
Definition proved (request : StartNetworkedRequest) (l : list net_call) : Prop :=
  ∃ a b p, l = [GotUnderlay true; Launched (sn_Spec request) true true; Connected (sp_VSOCKCID (sn_Spec request)) (sn_Role request) true true; ShookHands true;
                ConfiguredVPN (Some a); VerifiedVPN (Some b); AuditedEgress (sn_SessionID request) (Some p)] ∧
    verifiedStatus a (sn_Role request) = true ∧ verifiedStatus b (sn_Role request) = true ∧ egressComplete p = true.

Definition running (role : Role) : NetworkedRuntime := mkNetworked role true true false true false false false false false.

Lemma proveNetwork_ok request (s : NS) :
  K s → let '(r, s') := proveNetwork request s in
  K s' ∧ (r = Ok tt → ns_runtime s' = set_monitoring true (ns_runtime s) ∧
    ∃ a b p, ns_log s' = ns_log s ++ [ConfiguredVPN (Some a); VerifiedVPN (Some b); AuditedEgress (sn_SessionID request) (Some p)] ∧
      verifiedStatus a (sn_Role request) = true ∧ verifiedStatus b (sn_Role request) = true ∧ egressComplete p = true).
Proof.
  intros HK. unfold proveNetwork. pose proof (K_ask configureVPN ConfiguredVPN s (λ _ _, eq_refl) HK) as H1. unfold ask in *. destruct (configureVPN _) as [[a|] w1]; destruct H1 as [H1 _]; [|done].
  destruct (verifiedStatus a (sn_Role request)) eqn:Ea; [cbn [negb]|done]. set (s1 := mkNS _ w1 _) in *. pose proof (K_ask verifyVPN VerifiedVPN s1 (λ _ _, eq_refl) H1) as H2. unfold ask in *.
  destruct (verifyVPN _) as [[b|] w2]; destruct H2 as [H2 _]; [|done]. destruct (verifiedStatus b (sn_Role request)) eqn:Eb; [cbn [negb]|done]. set (s2 := mkNS _ w2 _) in *.
  pose proof (K_ask (verifyEgress (sn_SessionID request)) (AuditedEgress (sn_SessionID request)) s2 (λ _ _, eq_refl) H2) as H3. unfold ask in *. destruct (verifyEgress _ _) as [[p|] w3]; destruct H3 as [H3 _]; [|done].
  destruct (egressComplete p) eqn:Ep; cbn [negb]; [|done]. split; [by apply K_upd|]. intros _. split; [done|]. exists a, b, p. subst s2 s1. cbn. by rewrite <- !app_assoc.
Qed.

Lemma refuseStart_ok (s : NS) : K s → let '(r, s') := refuseStart s in K s' ∧ r ≠ Ok tt.
Proof. intros HK. unfold refuseStart, startError, quietly. by destruct (startContext _) as [[] w]. Qed.

Lemma K_launch (s : NS) spec process ok w :
  K s → nr_process (ns_runtime s) = false → nr_processStopped (ns_runtime s) = false →
  let s1 := mkNS (ns_runtime s) w (ns_log s ++ [Launched spec process ok]) in K (if process then upd set_process s1 else s1).
Proof.
  intros HK Hp Hs. destruct HK. destruct process; stepping; constructor; cbn; rewrite ?Hs; done.
Qed.

Lemma K_connect (s : NS) cid role guest ok w :
  K s → nr_guest (ns_runtime s) = false → nr_guestClosed (ns_runtime s) = false →
  K (upd (set_guest guest) (mkNS (ns_runtime s) w (ns_log s ++ [Connected cid role guest ok]))).
Proof.
  intros HK Hp Hs. destruct HK. rewrite Hp in *. destruct guest; stepping; constructor; cbn; rewrite ?Hs; done.
Qed.

Lemma startBody_ok request w :
  let '(r, s') := startBody request (mkNS (newRuntime (sn_Role request)) w []) in K s' ∧ (r = Ok tt → ns_runtime s' = running (sn_Role request) ∧ proved request (ns_log s')).
Proof.
  assert (Href : ∀ s : NS, K s → let '(r, s') := refuseStart s in K s' ∧ (r = Ok tt → ns_runtime s' = running (sn_Role request) ∧ proved request (ns_log s'))).
  { intros s Hs. pose proof (refuseStart_ok s Hs) as H. destruct (refuseStart s) as [r s']. destruct H as [H1 H2]. split; [done|]. intros E. by destruct H2. }
  assert (HK : K (mkNS (newRuntime (sn_Role request)) w [])) by (by constructor). unfold startBody. unfold ask at 1. cbn [ns_world ns_runtime ns_log app].
  destruct (withUnderlay w) as [[] w1]; cbn [negb]; [|apply Href; by constructor]. unfold quietly. cbn [ns_world ns_runtime ns_log]. destruct (dupCapability w1) as [[] w2]; cbn [negb]; [|by split; [constructor|]].
  set (s2 := mkNS _ w2 _). assert (HK2 : K s2) by (by constructor). unfold ask at 1. destruct (launchQemu _ (ns_world s2)) as [[process ok] w3]. cbn [fst snd].
  pose proof (K_launch s2 (sn_Spec request) process ok w3 HK2 eq_refl eq_refl) as HK3. cbv zeta in HK3. destruct process; [|rewrite orb_true_r; by apply Href]. destruct ok; cbn [negb orb]; [|by apply Href].
  set (s3 := upd set_process _) in *. unfold ask at 1. destruct (connectGuest _ _ (ns_world s3)) as [[guest ok] w4]. cbn [fst snd].
  pose proof (K_connect s3 (sp_VSOCKCID (sn_Spec request)) (sn_Role request) guest ok w4 HK3 eq_refl eq_refl) as HK4. destruct guest; [|rewrite orb_true_r; by apply Href]. destruct ok; cbn [negb orb]; [|by apply Href].
  set (s4 := upd (set_guest true) _) in *. pose proof (K_ask guestHandshake ShookHands s4 (λ _ _, eq_refl) HK4) as H5. unfold ask in *. destruct (guestHandshake (ns_world s4)) as [[] w5]; cbn [negb snd] in *; [|by apply Href].
  destruct H5 as [HK5 _]. pose proof (proveNetwork_ok request _ HK5) as H6. destruct (proveNetwork request _) as [r s6]. destruct H6 as [HK6 Hr]. split; [done|]. intros E.
  destruct (Hr E) as (Ert & a & b & p & El & Hs). split; [by rewrite Ert|]. exists a, b, p. split; [by rewrite El|done].
Qed.

Lemma StartNetworked_ok fs request w :
  match StartNetworked fs request w with
  | (Ok _, s) => K s ∧ ns_runtime s = running (sn_Role request) ∧ proved request (ns_log s) ∧ validateStartRequest fs request = true
  | (Err (_, true), s) => K s ∧ nr_cleanupErr (ns_runtime s) = true
  | (Err (_, false), s) => ns_log s = [] ∨ nfree (nwatch (ns_log s))
  end.
Proof.
  unfold StartNetworked. destruct (validateStartRequest fs request) eqn:Hv; cbn [negb]; [|by left]. pose proof (startBody_ok request w) as H.
  destruct (startBody _ _) as [[[]|e] s]; destruct H as [HK Hr]; [destruct (Hr eq_refl); by split_and!|].
  pose proof (stopAndCleanup_ok s HK) as Hc. destruct (stopAndCleanup s) as [[] s']; destruct Hc as (HK' & He & Ha); [right; by apply K_free, Ha|done].
Qed.

(** ** The life of a networked guest *)

Inductive networked_op := NStop (discardDirty : bool) | NExit | NAttach.

Definition runNetworked (s : NS) (op : networked_op) : NS :=
  match op with NStop discard => (Stop discard s).2 | NExit => watchProcess s | NAttach => (attachDisplay s).2 end.

Lemma runNetworked_ok s op : K s → K (runNetworked s op).
Proof.
  intros HK. destruct op as [discard| |]; cbn [runNetworked]; [|by apply watchProcess_ok|by apply attachDisplay_ok].
  pose proof (Stop_ok discard s HK) as H. destruct (Stop discard s). apply H.
Qed.

Lemma runNetworked_all ops s : K s → K (foldl runNetworked s ops).
Proof. revert s. induction ops as [|op ops IH]; intros s HK; [done|]. by apply IH, runNetworked_ok. Qed.

(** A stop that may not discard work either learned that there is none, or asked
    and left everything as it was. *)
Definition asks_first (s : NS) : Prop :=
  nr_role (ns_runtime s) = RoleWorkstation → nr_guest (ns_runtime s) = true → nr_processStopped (ns_runtime s) = false →
  ∃ d w, workspaceDirty (ns_world s) = (d, w) ∧
    (d ≠ Some false → ∃ e, Stop false s = (Err e, mkNS (ns_runtime s) w (ns_log s ++ [AskedDirty d]))).

Lemma Stop_asks s : asks_first s.
Proof.
  intros Hr Hg Hs. destruct (workspaceDirty (ns_world s)) as [d w] eqn:Hd. exists d, w. split; [done|]. intros Hne.
  unfold Stop, allReleased. rewrite Hs, Hr, Hg. cbn. unfold ask. rewrite Hd. destruct d as [[]|]; [by eexists|done|by eexists].
Qed.

(** C33: a networked guest is handed out only when QEMU was launched from the valid
    specification of the request, the guest at its CID shook hands, its VPN was reported verified twice
    with every gate (and the torrent bound, for a downloader), and the host's
    egress policy was audited complete for this session; everything is then held.  A failed start
    holds nothing, or returns the runtime.  From then on, through any sequence of
    stops, an exit of the process and displays, the flags say what is held, and
    the connection, the capability and the network are given up only once the
    process is gone.  A stop that succeeds has released everything, and one that
    may not discard work stops a workstation only when it has none. *)
Theorem networked_guests_are_proved fs request w ops :
  let kept s := let s' := foldl runNetworked s ops in
    NKnows (ns_runtime s') (nwatch (ns_log s')) ∧ asks_first s' ∧ ∀ discard s'', Stop discard s' = (Ok tt, s'') → nfree (nwatch (ns_log s'')) in
  match StartNetworked fs request w with
  | (Ok _, s) => is_Ok (Validate fs (sn_Spec request)) = true ∧ proved request (ns_log s) ∧ ns_runtime s = running (sn_Role request) ∧ kept s
  | (Err (_, true), s) => kept s
  | (Err (_, false), s) => ns_log s = [] ∨ nfree (nwatch (ns_log s))
  end.
Proof.
  intros kept. assert (Hk : ∀ s, K s → kept s).
  { intros s HK. pose proof (runNetworked_all ops s HK) as H. split; [exact H|]. split; [apply Stop_asks|]. intros discard s'' Hs. pose proof (Stop_ok discard _ H) as Ht.
    rewrite Hs in Ht. destruct Ht as [HK' Hr]. apply K_free; [done|]. by apply Hr. }
  pose proof (StartNetworked_ok fs request w) as H. destruct (StartNetworked fs request w) as [[[]|[e []]] s]; [| |done].
  - destruct H as (HK & Hr & Hp & Hv). split; [|split; [done|]; split; [done|]; by apply Hk]. unfold validateStartRequest in Hv. rewrite !andb_true_iff in Hv. tauto.
  - apply Hk, H.
Qed.

(** ** A guest that ended by itself *)

(** Released, but marked as failed. *)
Definition marked (s : NS) : Prop := allReleased (ns_runtime s) = true ∧ nr_cleanupErr (ns_runtime s) = true.

Lemma marked_stop discard s : marked s → Stop discard s = (Err ErrNetworkedCleanup, s).
Proof. intros [Ha He]. unfold Stop. by rewrite Ha, He. Qed.

Lemma marked_attach s : marked s → marked (attachDisplay s).2.
Proof.
  intros [Ha He]. unfold attachDisplay. destruct (negb _); [done|]. unfold allReleased in Ha. rewrite !andb_true_iff in Ha. destruct Ha as (((Hp & Hg) & Hc) & Hn). rewrite Hp, orb_true_r.
  unfold ask. destruct (displayStop _). cbn. split; [|done]. unfold allReleased. cbn. by rewrite Hp, Hg, Hc, Hn.
Qed.

(** The watcher marks a process that ended with an error, unless a clean-up fails. *)
Lemma watchProcess_marks s w :
  K s → processWait (ns_world s) = (false, w) → nr_cleanupErr (ns_runtime (watchProcess s)) = true.
Proof.
  intros HK Hw. unfold watchProcess, ask at 1. rewrite Hw. destruct (if nr_display _ then _ else _) as [dok s2]. destruct (cleanupAfterProcess _) as [c s3]. cbn [negb]. by rewrite orb_true_r.
Qed.

Lemma marked_later later s : Forall (λ op, op ≠ NExit) later → marked s → marked (foldl runNetworked s later).
Proof.
  intros Hl. revert s. induction Hl as [|op later Hop _ IH]; intros s Hm; [done|]. cbn [foldl]. apply IH. destruct op as [discard| |]; cbn [runNetworked]; [|done|by apply marked_attach].
  by rewrite marked_stop.
Qed.

(** When the process of a networked guest ends with an error and the watcher
    released everything that was left, nothing is held any more, but every later
    stop fails and changes nothing, whatever stops and displays come before it. *)
Theorem ended_guest_cannot_be_stopped fs request w s ops w' later discard :
  StartNetworked fs request w = (Ok tt, s) → processWait (ns_world (foldl runNetworked s ops)) = (false, w') →
  allReleased (ns_runtime (watchProcess (foldl runNetworked s ops))) = true → Forall (λ op, op ≠ NExit) later →
  nfree (nwatch (ns_log (watchProcess (foldl runNetworked s ops)))) ∧
  let s' := foldl runNetworked (watchProcess (foldl runNetworked s ops)) later in Stop discard s' = (Err ErrNetworkedCleanup, s').
Proof.
  intros Hs Hw Ha Hl. pose proof (StartNetworked_ok fs request w) as H. rewrite Hs in H. destruct H as (HK & _). pose proof (runNetworked_all ops s HK) as HK1.
  split; [apply K_free; [by apply watchProcess_ok|done]|]. cbv zeta. apply marked_stop, marked_later; [done|]. split; [done|]. by eapply watchProcess_marks.
Qed.

End RuntimeProofs.

(** ** Examples *)

Definition provedStatus : Status := mkStatus 1 StateVerified true true (mkProof true true true true true true true true) "GUEST_VPN_VERIFIED" "".

(** A host on which all goes well, until the process ends with an error. *)
#[local] Instance demoNetwork : NetworkedHost unit := {
  withUnderlay := λ w, (true, w);
  dupCapability := λ w, (true, w);
  launchQemu := λ _ w, ((true, true), w);
  connectGuest := λ _ _ w, ((true, true), w);
  guestHandshake := λ w, (true, w);
  configureVPN := λ w, (Some provedStatus, w);
  verifyVPN := λ w, (Some provedStatus, w);
  verifyEgress := λ _ w, (Some (mkEgress true true true), w);
  startContext := λ w, (false, w);
  guestShutdown := λ w, (true, w);
  processStop := λ w, (true, w);
  processWait := λ w, (false, w);
  guestClose := λ w, (true, w);
  networkCleanup := λ w, (true, w);
  workspaceDirty := λ w, (Some true, w);
  displayStop := λ w, (true, w)
}.

Definition networkedSpec : Spec := {|
  sp_Binary := "/usr/bin/qemu"; sp_SessionID := "pvm-00112233445566778899aabbccddeeff"; sp_Name := "workstation"; sp_Role := RoleWorkstation;
  sp_ScannerMode := ""; sp_Machine := ""; sp_CPUs := 2; sp_MemoryBytes := 2147483648; sp_Root := mkDisk "/run/pvm/root.qcow2" "qcow2" false "root";
  sp_Data := []; sp_QMPSocket := "/run/pvm/qmp"; sp_SPICESocket := "/run/pvm/spice";
  sp_VSOCKCID := 3; sp_Networked := true; sp_NetworkFD := 4; sp_EnableAudio := false; sp_FWCfgTokenFD := 3
|}.

Definition networkedRequest : StartNetworkedRequest :=
  mkStartRequest "pvm-00112233445566778899aabbccddeeff" RoleWorkstation false networkedSpec 0.

Definition demoStarted : NS (W := unit) := Eval vm_compute in (StartNetworked demoFiles networkedRequest tt).2.

Lemma ended_guest_cannot_be_stopped_witness :
  StartNetworked demoFiles networkedRequest tt = (Ok tt, demoStarted) ∧
  nfree (nwatch (ns_log (watchProcess demoStarted))) ∧ Stop true (watchProcess demoStarted) = (Err ErrNetworkedCleanup, watchProcess demoStarted).
Proof.
  assert (Hs : StartNetworked demoFiles networkedRequest tt = (Ok tt, demoStarted)) by (vm_compute; reflexivity). split; [exact Hs|].
  apply (ended_guest_cannot_be_stopped demoFiles networkedRequest tt demoStarted [] tt [] true Hs); [reflexivity|vm_compute; reflexivity|constructor].
Defined.
