(* ===== verification/HostRuntime.v ===== *)
(** * The runtime of a session

    Models [src/internal/orchestrator/host_runtime.go]: what the host prepares,
    starts and stops for a workstation or a downloader: its VSOCK CID, capability,
    network, socket directories, image lease, networked guest and display.  It
    composes the CID allocator of [GuestBoundary], the launch specification of
    [QemuSpec] and the networked guest of [Networked]; the other parts are an
    interface over the world.  [he_log] is a ghost record of the calls made for one
    resource, from its CID on, with their answers. *)

From Stdlib Require Import ZArith Lia.
From stdpp Require Import strings base tactics option list gmap.
From S2P Require Import Prelude GoText SessionModel GuestBoundary GuestVPN QemuSpec StorageScratch Networked.

Open Scope string_scope.
Open Scope list_scope.

Definition ErrHostRoleUnavailable : string := "host role is not implemented by the production runtime".
Definition ErrHostPlanUnavailable : string := "validated host role plan unavailable".
Definition ErrHostRuntimeUnavailable : string := "host role runtime unavailable".

(** What [Lstat] says of a directory. *)
Record DirInfo := mkDirInfo { di_IsDir : bool; di_Symlink : bool; di_Perm : Z; di_Uid : Z; di_Gid : Z; di_Dev : Z; di_Ino : Z }.
Inductive dirLstat := DirFound (i : DirInfo) | DirMissing | DirFailed.

Record ownedRuntimeDirectory := mkOwnedDirectory { od_path : string; od_dev : Z; od_ino : Z; od_uid : Z; od_gid : Z }.
Record runtimeSocketDirectories := mkDirectories { rd_qmp : ownedRuntimeDirectory; rd_spice : ownedRuntimeDirectory }.

Definition noDirectory : ownedRuntimeDirectory := mkOwnedDirectory "" 0 0 0 0.

(** The snapshot, the plan and the storage of a request, as far as they are read. *)
Record HostRuntimeRequest := mkRuntimeRequest {
  hq_ID : string;
  hq_Role : Role;
  hq_PlanRole : Role;
  hq_VCPUs : Z;
  hq_MemoryBytes : Z;
  hq_RootPath : string;
  hq_QuarantinePath : string
}.

Class RuntimeHost (W : Type) := {
  resolveProfile : string → W → bool * W;          (* resolved, and current *)
  newToken : W → bool * W;
  createNetwork : W → bool * W;
  activateImages : W → bool * W;
  releaseImages : W → bool * W;
  startDisplay : W → bool * W;
  lstatDirectory : string → W → dirLstat * W;
  mkdirPrivate : string → W → bool * W;
  removeDirectory : string → W → bool * W
}.

(** [hx_networked] comes with the record of its calls. *)
Record hostRuntimeResource := mkRuntime {
  hx_cid : Z;
  hx_cidOwned : bool;
  hx_capability : bool;
  hx_network : bool;
  hx_networked : option (NetworkedRuntime * list net_call);
  hx_display : bool;
  hx_images : bool;
  hx_directories : option runtimeSocketDirectories
}.

Definition set_cid (c : Z) (r : hostRuntimeResource) := mkRuntime c true (hx_capability r) (hx_network r) (hx_networked r) (hx_display r) (hx_images r) (hx_directories r).
Definition drop_cid (r : hostRuntimeResource) := mkRuntime (hx_cid r) false (hx_capability r) (hx_network r) (hx_networked r) (hx_display r) (hx_images r) (hx_directories r).
Definition set_capability (b : bool) (r : hostRuntimeResource) := mkRuntime (hx_cid r) (hx_cidOwned r) b (hx_network r) (hx_networked r) (hx_display r) (hx_images r) (hx_directories r).
Definition set_network (b : bool) (r : hostRuntimeResource) := mkRuntime (hx_cid r) (hx_cidOwned r) (hx_capability r) b (hx_networked r) (hx_display r) (hx_images r) (hx_directories r).
Definition set_networked (n : NetworkedRuntime * list net_call) (r : hostRuntimeResource) := mkRuntime (hx_cid r) (hx_cidOwned r) (hx_capability r) (hx_network r) (Some n) (hx_display r) (hx_images r) (hx_directories r).
Definition set_displayed (r : hostRuntimeResource) := mkRuntime (hx_cid r) (hx_cidOwned r) (hx_capability r) (hx_network r) (hx_networked r) true (hx_images r) (hx_directories r).
Definition set_images (r : hostRuntimeResource) := mkRuntime (hx_cid r) (hx_cidOwned r) (hx_capability r) (hx_network r) (hx_networked r) (hx_display r) true (hx_directories r).
Definition set_directories (d : runtimeSocketDirectories) (r : hostRuntimeResource) := mkRuntime (hx_cid r) (hx_cidOwned r) (hx_capability r) (hx_network r) (hx_networked r) (hx_display r) (hx_images r) (Some d).

(** The calls made for a resource, with their answers.  The calls of the
    networked guest are noted as its whole record, after each of its steps. *)
Inductive rt_call :=
| AllocatedCID (cid : Z)
| ReleasedCID (cid : Z) (ok : bool)
| MadeToken (ok : bool)
| DestroyedToken
| MadeNetwork (ok : bool)
| CleanedHostNetwork (ok : bool)
| SawDirectory (path : string) (r : dirLstat)
| MadeDirectory (path : string) (ok : bool)
| RemovedDirectory (path : string) (ok : bool)
| LeasedImages (ok : bool)
| ReleasedImages (ok : bool)
| GuestCalls (l : list net_call)
| StartedDisplay (ok : bool)
| StoppedProxy (ok : bool).

(** What the calls leave held; [rw_bad]: the token, the network, the lease, the
    CID or a directory was given up while the process ran, or the CID while the
    lease was held, or the guest gave up something of its own too early. *)
Record RWatch := mkRWatch {
  rw_display : bool; rw_token : bool; rw_network : bool; rw_guest : list net_call;
  rw_images : bool; rw_cid : option Z; rw_dirs : gmap.gset string; rw_bad : bool
}.

Definition rw_running (w : RWatch) : bool := nw_process (nwatch (rw_guest w)).

(** The guest is given the token and the network of the resource. *)
Definition robserve (w : RWatch) (c : rt_call) : RWatch :=
  let 'mkRWatch d t n g i k ds b := w in
  let early := b || rw_running w in
  match c with
  | AllocatedCID c => mkRWatch d t n g i (Some c) ds b
  | ReleasedCID c ok => mkRWatch d t n g i (if ok && bool_decide (k = Some c) then None else k) ds (early || i)
  | MadeToken ok => mkRWatch d (t || ok) n g i k ds b
  | DestroyedToken => mkRWatch d false n g i k ds early
  | MadeNetwork ok => mkRWatch d t (n || ok) g i k ds b
  | CleanedHostNetwork ok => mkRWatch d t (n && negb ok) g i k ds early
  | SawDirectory path DirMissing => mkRWatch d t n g i k (ds ∖ {[path]}) b
  | MadeDirectory path true => mkRWatch d t n g i k ({[path]} ∪ ds) b
  | RemovedDirectory path ok => mkRWatch d t n g i k (if ok then ds ∖ {[path]} else ds) early
  | LeasedImages ok => mkRWatch d t n g (i || ok) k ds b
  | ReleasedImages ok => mkRWatch d t n g (i && negb ok) k ds early
  | GuestCalls l => mkRWatch d (t && nw_capability (nwatch l)) (n && nw_network (nwatch l)) l i k ds (b || nw_bad (nwatch l))
  | StartedDisplay ok => mkRWatch (d || ok) t n g i k ds b
  | StoppedProxy ok => mkRWatch (d && negb ok) t n g i k ds b
  | _ => w
  end.

Definition rwatch (l : list rt_call) : RWatch := foldl robserve (mkRWatch false false false [] false None ∅ false) l.

#[global] Arguments rwatch : simpl never.

Section Runtimes.
Context (euid egid : Z) {W : Type} `{!NetworkedHost W} `{!RuntimeHost W}.
Context (fs : HostFiles) (runtimeRoot qemuBinary profileName : string).

(** The resource at hand, the allocator and the prepared sessions of the stack,
    the host, and a ghost: the record of the calls made for this resource. *)
Record HS := mkHS { he_resource : hostRuntimeResource; he_cids : CIDAllocator; he_prepared : gmap.gset string; he_world : W; he_log : list rt_call }.

Definition he_watch (s : HS) : RWatch := rwatch (he_log s).
Definition he_imagesHeld (s : HS) : bool := rw_images (he_watch s).

Definition onRes (f : hostRuntimeResource → hostRuntimeResource) (s : HS) : HS := mkHS (f (he_resource s)) (he_cids s) (he_prepared s) (he_world s) (he_log s).
Definition note (c : rt_call) (s : HS) : HS := mkHS (he_resource s) (he_cids s) (he_prepared s) (he_world s) (he_log s ++ [c]).
Definition query {A} (f : W → A * W) (s : HS) : A * HS := let '(a, w) := f (he_world s) in (a, mkHS (he_resource s) (he_cids s) (he_prepared s) w (he_log s)).
Definition call {A} (f : W → A * W) (c : A → rt_call) (s : HS) : A * HS := let '(a, s) := query f s in (a, note (c a) s).
Definition withCIDs (a : CIDAllocator) (s : HS) : HS := mkHS (he_resource s) a (he_prepared s) (he_world s) (he_log s).
Definition withPrepared (p : gmap.gset string) (s : HS) : HS := mkHS (he_resource s) (he_cids s) p (he_world s) (he_log s).

Definition networkedRole (role : Role) : bool := bool_decide (role = RoleWorkstation) || bool_decide (role = RoleDownloader).

Definition Prepare (id : string) (role planRole : Role) (s : HS) : result string unit * HS :=
  if negb (bool_decide (role = planRole)) || negb (networkedRole role) then (Err ErrHostRoleUnavailable, s)
  else
    let '(current, s) := query (resolveProfile profileName) s in
    if negb current then (Err "networked guest not verified", s)
    else if bool_decide (id ∈ he_prepared s) then (Err ErrHostPlanUnavailable, s)
    else (Ok tt, withPrepared ({[id]} ∪ he_prepared s) s).

Definition Forget (id : string) (s : HS) : HS := withPrepared (he_prepared s ∖ {[id]}) s.

(** ** Socket directories *)

(** The directory, or whether it is missing. *)
Definition inspectRuntimeDirectory (path : string) (s : HS) : result bool ownedRuntimeDirectory * HS :=
  let '(r, s) := call (lstatDirectory path) (SawDirectory path) s in
  match r with
  | DirMissing => (Err true, s)
  | DirFailed => (Err false, s)
  | DirFound i =>
      if negb (di_IsDir i) || di_Symlink i || negb (di_Perm i =? 448)%Z || negb (di_Uid i =? euid)%Z || negb (di_Gid i =? egid)%Z then (Err false, s)
      else (Ok (mkOwnedDirectory path (di_Dev i) (di_Ino i) (di_Uid i) (di_Gid i)), s)
  end.

(** The directory that is left, and whether the clean-up may go on. *)
Definition cleanupDirectory (d : ownedRuntimeDirectory) (s : HS) : (ownedRuntimeDirectory * bool) * HS :=
  let gone := mkOwnedDirectory "" (od_dev d) (od_ino d) (od_uid d) (od_gid d) in
  if bool_decide (od_path d = "") then ((d, true), s)
  else
    let '(r, s) := inspectRuntimeDirectory (od_path d) s in
    match r with
    | Err true => ((gone, true), s)
    | Err false => ((d, false), s)
    | Ok current =>
        if negb (od_dev current =? od_dev d)%Z || negb (od_ino current =? od_ino d)%Z || negb (od_uid current =? od_uid d)%Z || negb (od_gid current =? od_gid d)%Z
        then ((d, false), s)
        else let '(ok, s) := call (removeDirectory (od_path d)) (RemovedDirectory (od_path d)) s in if ok : bool then ((gone, true), s) else ((d, false), s)
    end.

Definition cleanupDirectories (d : runtimeSocketDirectories) (s : HS) : (runtimeSocketDirectories * bool) * HS :=
  let '((spice, ok), s) := cleanupDirectory (rd_spice d) s in
  let d := mkDirectories (rd_qmp d) spice in
  if negb ok then ((d, false), s)
  else let '((qmp, ok), s) := cleanupDirectory (rd_qmp d) s in ((mkDirectories qmp (rd_spice d), ok), s).

(** One of the two: its locator is kept before it is inspected. *)
Definition makeDirectory (path : string) (s : HS) : (ownedRuntimeDirectory * bool) * HS :=
  let '(ok, s) := call (mkdirPrivate path) (MadeDirectory path) s in
  if negb ok then ((noDirectory, false), s)
  else
    let '(r, s) := inspectRuntimeDirectory path s in
    match r with
    | Ok d => ((d, true), s)
    | Err _ => ((mkOwnedDirectory path 0 0 0 0, false), s)
    end.

(** What was made is returned also when not all of it could be. *)
Definition createRuntimeSocketDirectories (id : string) (s : HS) : (option runtimeSocketDirectories * bool) * HS :=
  if negb (is_Ok (ValidateID id)) then ((None, false), s)
  else
    let parent := joinPath [runtimeRoot; id] in
    let '(r, s) := call (lstatDirectory parent) (SawDirectory parent) s in
    match r with
    | DirFound i =>
        if negb (di_IsDir i) || negb (di_Perm i =? 448)%Z then ((None, false), s)
        else
          let '((qmp, ok), s) := makeDirectory (joinPath [parent; "qmp"]) s in
          if negb ok then let '((d, _), s) := cleanupDirectories (mkDirectories qmp noDirectory) s in ((Some d, false), s)
          else
            let '((spice, ok), s) := makeDirectory (joinPath [parent; "spice"]) s in
            if negb ok then let '((d, _), s) := cleanupDirectories (mkDirectories qmp spice) s in ((Some d, false), s)
            else ((Some (mkDirectories qmp spice), true), s)
    | _ => ((None, false), s)
    end.

Definition auditDirectories (d : runtimeSocketDirectories) : bool := bool_decide (od_path (rd_qmp d) = "") && bool_decide (od_path (rd_spice d) = "").

Definition QMPSocket (d : runtimeSocketDirectories) : string := joinPath [od_path (rd_qmp d); "qmp.sock"].
Definition SPICESocket (d : runtimeSocketDirectories) : string := joinPath [od_path (rd_spice d); "spice.sock"].

Definition runtimeQEMUSpec (q : HostRuntimeRequest) (cid : Z) (d : option runtimeSocketDirectories) : result string Spec :=
  match d with
  | None => Err ErrHostRuntimeUnavailable
  | Some d =>
      fail_if (bool_decide (hq_RootPath q = "")) with ErrHostRuntimeUnavailable ;;
      fail_if (bool_decide (hq_Role q = RoleDownloader) && bool_decide (hq_QuarantinePath q = "")) with "host role storage unavailable" ;;
      let data := if bool_decide (hq_Role q = RoleDownloader) then [mkDisk (hq_QuarantinePath q) "raw" false "quarantine"] else [] in
      let spec := {| sp_Binary := qemuBinary; sp_SessionID := hq_ID q; sp_Name := hq_ID q; sp_Role := hq_Role q; sp_ScannerMode := ""; sp_Machine := "";
                     sp_CPUs := hq_VCPUs q; sp_MemoryBytes := hq_MemoryBytes q; sp_Root := mkDisk (hq_RootPath q) "qcow2" false "root"; sp_Data := data;
                     sp_QMPSocket := QMPSocket d; sp_SPICESocket := SPICESocket d; sp_VSOCKCID := cid; sp_Networked := true; sp_NetworkFD := 4;
                     sp_EnableAudio := false; sp_FWCfgTokenFD := 3 |} in
      match Validate fs spec with Err e => Err e | Ok _ => Ok spec end
  end.

(** ** Stopping *)

(** The networked guest made its calls. *)
Definition guestStep (t : NS (W := W)) (s : HS) : HS := note (GuestCalls (ns_log t)) (mkHS (he_resource s) (he_cids s) (he_prepared s) (ns_world t) (he_log s)).

(** A step of the networked guest within the resource. *)
Definition onNetworked {A} (f : NS (W := W) → A * NS (W := W)) (n : NetworkedRuntime * list net_call) (s : HS) : A * HS :=
  let '(a, t) := f (mkNS n.1 (he_world s) n.2) in
  (a, onRes (set_networked (ns_runtime t, ns_log t)) (guestStep t s)).

Definition stopDisplay (s : HS) : bool * HS := if hx_display (he_resource s) then call displayStop StoppedProxy s else (true, s).

Definition stopNetwork (discard : bool) (s : HS) : bool * HS :=
  match hx_networked (he_resource s) with
  | Some n => let '(r, s) := onNetworked (Networked.Stop discard) n s in (is_Ok r, s)
  | None =>
      let s := if hx_capability (he_resource s) then onRes (set_capability false) (note DestroyedToken s) else s in
      if hx_network (he_resource s) then let '(ok, s) := call networkCleanup CleanedHostNetwork s in (ok, if ok then onRes (set_network false) s else s)
      else (true, s)
  end.

Definition stopImages (s : HS) : bool * HS :=
  if hx_images (he_resource s) then call releaseImages ReleasedImages s else (true, s).

Definition stopCID (s : HS) : bool * HS :=
  if hx_cidOwned (he_resource s) then
    let '(ok, a) := Release (hx_cid (he_resource s)) (he_cids s) in
    let s := note (ReleasedCID (hx_cid (he_resource s)) ok) (withCIDs a s) in
    (ok, if ok then onRes drop_cid s else s)
  else (true, s).

Definition stopDirectories (s : HS) : bool * HS :=
  match hx_directories (he_resource s) with
  | None => (true, s)
  | Some d => let '((d, ok), s) := cleanupDirectories d s in (ok, onRes (set_directories d) s)
  end.

Definition unless (r : bool * HS) (k : HS → bool * HS) : bool * HS := let '(ok, s) := r in if ok then k s else (false, s).

Definition StopRuntime (discard : bool) (s : HS) : bool * HS :=
  unless (unless (unless (unless (stopDisplay s) (stopNetwork discard)) stopImages) stopCID) stopDirectories.

(** ** Starting *)

Definition startStep (r : bool * HS) (e : string) (k : HS → result string unit * HS) : result string unit * HS :=
  let '(ok, s) := r in if ok then k s else (Err e, s).

(** The networked guest takes the capability and the network, when it is returned. *)
Definition startGuest (q : HostRuntimeRequest) (spec : Spec) (s : HS) : result string unit * HS :=
  let request := mkStartRequest (hq_ID q) (hq_Role q) false spec 0 in
  let '(r, t) := StartNetworked fs request (he_world s) in
  let s := guestStep t s in
  let adopt := onRes (λ r, set_network false (set_capability false (set_networked (ns_runtime t, ns_log t) r))) in
  match r with
  | Ok _ => (Ok tt, adopt s)
  | Err (_, true) => (Err "networked guest cleanup incomplete", adopt s)
  | Err (_, false) => (Err "networked guest start failed", s)
  end.

Definition startDisplayProxy (role : Role) (s : HS) : result string unit * HS :=
  if bool_decide (role = RoleWorkstation) then
    startStep (call startDisplay StartedDisplay s) "display"
      (λ s, let s := onRes set_displayed s in
            match hx_networked (he_resource s) with
            | None => (Err ErrHostRuntimeUnavailable, s)
            | Some n => let '(r, s) := onNetworked attachDisplay n s in (if is_Ok r then Ok tt else Err "display", s)
            end)
  else (Ok tt, s).

Definition startSteps (q : HostRuntimeRequest) (s : HS) : result string unit * HS :=
  startStep (call newToken MadeToken s) "token" (λ s,
    let s := onRes (set_capability true) s in
    startStep (call createNetwork MadeNetwork s) "network" (λ s,
      let s := onRes (set_network true) s in
      let '((d, ok), s) := createRuntimeSocketDirectories (hq_ID q) s in
      let s := match d with Some d => onRes (set_directories d) s | None => s end in
      startStep (ok, s) ErrHostRuntimeUnavailable (λ s,
        startStep (call activateImages LeasedImages s) "images" (λ s,
          let s := onRes set_images s in
          match runtimeQEMUSpec q (hx_cid (he_resource s)) d with
          | Err e => (Err e, s)
          | Ok spec =>
              match startGuest q spec s with
              | (Err e, s) => (Err e, s)
              | (Ok _, s) => startDisplayProxy (hq_Role q) s
              end
          end)))).

Definition emptyRuntime : hostRuntimeResource := mkRuntime 0 false false false None false false None.

(** The second component of the error: the resource is returned with it. *)
Definition Start (q : HostRuntimeRequest) (s : HS) : result (string * bool) unit * HS :=
  if negb (bool_decide (hq_Role q = hq_PlanRole q)) || negb (networkedRole (hq_Role q)) then (Err (ErrHostRuntimeUnavailable, false), s)
  else if negb (bool_decide (hq_ID q ∈ he_prepared s)) then (Err ("networked guest not verified", false), s)
  else
    match GuestBoundary.Allocate (he_cids s) with
    | (Err _, a) => (Err ("cid", false), withCIDs a s)
    | (Ok cid, a) =>
        let s := mkHS (set_cid cid emptyRuntime) a (he_prepared s) (he_world s) [AllocatedCID cid] in
        match startSteps q s with
        | (Ok _, s) => (Ok tt, Forget (hq_ID q) s)
        | (Err e, s) => let '(ok, s) := StopRuntime true s in (Err (e, negb ok), s)
        end
    end.

(** The audits that fail. *)
Definition AuditRuntime (displayAudited imagesAudited : bool) (s : HS) : bool :=
  let r := he_resource s in
  (negb (hx_display r) || displayAudited) &&
  match hx_networked r with Some n => is_Ok (Networked.Audit n.1) | None => negb (hx_capability r || hx_network r) end &&
  (negb (hx_images r) || imagesAudited) && negb (hx_cidOwned r || Reserved (hx_cid r) (he_cids s)) &&
  match hx_directories r with Some d => auditDirectories d | None => true end.

End Runtimes.

(** * Properties *)

Section RuntimeOrder.
Context (euid egid : Z) {W : Type} `{!NetworkedHost W} `{!RuntimeHost W}.
Context (fs : HostFiles) (runtimeRoot qemuBinary profileName : string).

#[local] Abbreviation HS := (HS (W := W)).

(** The networked guest of a resource. *)
Definition guestOf (r : hostRuntimeResource) (P : NetworkedRuntime → list net_call → Prop) : Prop := ∀ n l, hx_networked r = Some (n, l) → P n l.

(** Who has the token or the network: the guest, once there is one. *)
Definition inCustody (r : hostRuntimeResource) (own : bool) (given : NWatch → bool) : bool :=
  match hx_networked r with Some (_, l) => given (nwatch l) | None => own end.

(** The resource, the CIDs in use, and what the calls left held. *)
Record RtOf (r : hostRuntimeResource) (used : gmap.gset Z) (w : RWatch) : Prop := {
  rt_bad : rw_bad w = false;
  rt_knows : guestOf r (λ n l, NKnows n (nwatch l));
  rt_log : guestOf r (λ _ l, rw_guest w = l);
  rt_noguest : hx_networked r = None → nw_process (nwatch (rw_guest w)) = false ∧ nw_guest (nwatch (rw_guest w)) = false;
  rt_gone : rw_images w = false → guestOf r (λ n _, nr_processStopped n = true);
  rt_none : hx_images r = false → rw_images w = false ∧ hx_networked r = None;
  rt_cid : hx_cidOwned r = true → hx_cid r ∈ used;
  rt_cidlog : rw_cid w = if hx_cidOwned r then Some (hx_cid r) else None;
  rt_order : hx_cidOwned r = false → rw_images w = false;
  rt_token : rw_token w = true → inCustody r (hx_capability r) nw_capability = true;
  rt_network : rw_network w = true → inCustody r (hx_network r) nw_network = true;
  rt_display : rw_display w = true → hx_display r = true
}.

(** The directories that are there are those of the resource. *)
Definition dirsIn (d : option runtimeSocketDirectories) (ds : gmap.gset string) : Prop :=
  ∀ p, p ∈ ds → p ≠ "" ∧ ∃ e, d = Some e ∧ (p = od_path (rd_qmp e) ∨ p = od_path (rd_spice e)).

Definition Core (s : HS) : Prop := RtOf (he_resource s) (al_used (he_cids s)) (he_watch s).
Definition Rt (s : HS) : Prop := Core s ∧ dirsIn (hx_directories (he_resource s)) (rw_dirs (he_watch s)).

(** The world and the record changed, and what is held is now [w]. *)
Definition stepped (s s' : HS) (w : RWatch) : Prop :=
  he_resource s' = he_resource s ∧ he_cids s' = he_cids s ∧ he_prepared s' = he_prepared s ∧ he_watch s' = w.

Lemma watch_note c (s : HS) : he_watch (note c s) = robserve (he_watch s) c.
Proof. unfold he_watch, rwatch, note. cbn. by rewrite foldl_app. Qed.

Lemma call_stepped {A} (f : W → A * W) c (s : HS) : stepped s (call f c s).2 (robserve (he_watch s) (c (call f c s).1)).
Proof. unfold call, query. destruct (f _) as [a w]. cbn. split_and!; try done. by rewrite watch_note. Qed.

Lemma stepped_Core s s' w : stepped s s' w → RtOf (he_resource s) (al_used (he_cids s)) w → Core s'.
Proof. intros (E1 & E2 & _ & E4) H. unfold Core. by rewrite E1, E2, E4. Qed.

Lemma Rt_same (s s' : HS) : he_resource s' = he_resource s → he_cids s' = he_cids s → he_log s' = he_log s → Rt s → Rt s'.
Proof. intros E1 E2 E3. unfold Rt, Core, he_watch. by rewrite E1, E2, E3. Qed.

(** ** Directories *)

Definition with_dirs (ds : gmap.gset string) (w : RWatch) : RWatch := mkRWatch (rw_display w) (rw_token w) (rw_network w) (rw_guest w) (rw_images w) (rw_cid w) ds (rw_bad w).

Lemma with_dirs_same w : with_dirs (rw_dirs w) w = w.
Proof. by destruct w. Qed.

Lemma Core_dirs r used ds w : RtOf r used w → RtOf r used (with_dirs ds w).
Proof. by intros []. Qed.

Lemma stepped_dirs s1 s2 s3 ds ds' : stepped s1 s2 (with_dirs ds (he_watch s1)) → stepped s2 s3 (with_dirs ds' (he_watch s2)) → stepped s1 s3 (with_dirs ds' (he_watch s1)).
Proof. intros (E1 & E2 & E3 & E4) (F1 & F2 & F3 & F4). rewrite E4 in F4. by split_and!; try congruence. Qed.

Lemma lstat_dirs path (s : HS) :
  let '(r, s') := call (lstatDirectory path) (SawDirectory path) s in
  stepped s s' (with_dirs (match r with DirMissing => rw_dirs (he_watch s) ∖ {[path]} | _ => rw_dirs (he_watch s) end) (he_watch s)).
Proof.
  pose proof (call_stepped (lstatDirectory path) (SawDirectory path) s) as H. destruct (call _ _ s) as [r s']. cbn [fst snd] in H. destruct (he_watch s). by destruct r.
Qed.

Lemma inspect_dirs path (s : HS) :
  let '(r, s') := inspectRuntimeDirectory euid egid path s in
  stepped s s' (with_dirs (match r with Err true => rw_dirs (he_watch s) ∖ {[path]} | _ => rw_dirs (he_watch s) end) (he_watch s)) ∧
  match r with Ok d => od_path d = path | _ => True end.
Proof.
  unfold inspectRuntimeDirectory. pose proof (lstat_dirs path s) as H. destruct (call _ _ s) as [r s1]. destruct r; [|done|done]. by destruct (_ || _).
Qed.

(** A directory is dropped from the resource only when it is gone. *)
Lemma cleanupDirectory_dirs d (s : HS) :
  rw_running (he_watch s) = false →
  let '((d', ok), s') := cleanupDirectory euid egid d s in
  let ds := rw_dirs (he_watch s) in
  ((od_path d' = od_path d ∧ stepped s s' (he_watch s)) ∨ (od_path d' = "" ∧ stepped s s' (with_dirs (ds ∖ {[od_path d]}) (he_watch s)))) ∧
  (ok = true → od_path d' = "").
Proof.
  intros Hidle. unfold cleanupDirectory. case_bool_decide as Hp; [by split; [left|]|]. pose proof (inspect_dirs (od_path d) s) as H. destruct (inspectRuntimeDirectory _ _ _ s) as [r s1].
  destruct H as [H _]. destruct r as [cur|[]]; [|by split; [right|]|by rewrite with_dirs_same in H; split; [left|]]. rewrite with_dirs_same in H. destruct (_ || _); [by split; [left|]|].
  pose proof (call_stepped (removeDirectory (od_path d)) (RemovedDirectory (od_path d)) s1) as H2. destruct (call _ _ s1) as [ok s2]. cbn [fst snd] in H2.
  assert (H3 : stepped s s2 (with_dirs (if ok then rw_dirs (he_watch s) ∖ {[od_path d]} else rw_dirs (he_watch s)) (he_watch s))).
  { destruct H as (E1 & E2 & E3 & E4), H2 as (F1 & F2 & F3 & F4). rewrite E4 in F4. split_and!; try congruence. rewrite F4. destruct (he_watch s) as [dd t n g i k ds b].
    cbn in *. rewrite Hidle, orb_false_r. done. }
  destruct ok; [by split; [right|]|rewrite with_dirs_same in H3; by split; [left|]].
Qed.

Lemma cleanupDirectories_dirs d (s : HS) :
  rw_running (he_watch s) = false → dirsIn (Some d) (rw_dirs (he_watch s)) →
  let '((d', ok), s') := cleanupDirectories euid egid d s in
  (∃ ds, stepped s s' (with_dirs ds (he_watch s)) ∧ dirsIn (Some d') ds) ∧ (ok = true → auditDirectories d' = true).
Proof.
  intros Hidle Hd. unfold cleanupDirectories. pose proof (cleanupDirectory_dirs (rd_spice d) s Hidle) as H. destruct (cleanupDirectory _ _ (rd_spice d) s) as [[spice ok] s1]. cbv zeta in H. destruct H as [H Ha].
  assert (H1 : ∃ ds, stepped s s1 (with_dirs ds (he_watch s)) ∧ dirsIn (Some (mkDirectories (rd_qmp d) spice)) ds).
  { destruct H as [[E H]|[E H]]; [exists (rw_dirs (he_watch s)); rewrite with_dirs_same|exists (rw_dirs (he_watch s) ∖ {[od_path (rd_spice d)]})]; (split; [done|]).
    - intros p Hp. destruct (Hd p Hp) as (? & e & [= <-] & Hc). split; [done|]. eexists. split; [done|]. cbn. rewrite E. done.
    - intros p [Hp Hn]%elem_of_difference. destruct (Hd p Hp) as (? & e & [= <-] & Hc). split; [done|]. eexists. split; [done|]. cbn. destruct Hc as [Hc|Hc]; [by left|set_solver]. }
  clear H. destruct H1 as (ds & H1 & Hd1). destruct ok; cbn [negb]; [|split; [by exists ds|done]]. cbn [rd_qmp rd_spice].
  assert (Ew : he_watch s1 = with_dirs ds (he_watch s)) by apply H1. assert (Hidle1 : rw_running (he_watch s1) = false) by (by rewrite Ew).
  pose proof (cleanupDirectory_dirs (rd_qmp d) s1 Hidle1) as H. destruct (cleanupDirectory _ _ (rd_qmp d) s1) as [[qmp ok] s2]. cbv zeta in H. destruct H as [H Hb].
  split; [|intros Ho; unfold auditDirectories; cbn; by rewrite Ha, Hb].
  destruct H as [[E H]|[E H]].
  - exists ds. rewrite <- (with_dirs_same (he_watch s1)), Ew in H. split; [eapply stepped_dirs; [exact H1|]; by rewrite Ew|]. intros p Hp. destruct (Hd1 p Hp) as (? & e & [= <-] & Hc). split; [done|].
    eexists. split; [done|]. cbn in *. by rewrite E.
  - exists (ds ∖ {[od_path (rd_qmp d)]}). rewrite Ew in H. split; [eapply stepped_dirs; [exact H1|]; by rewrite Ew|]. intros p [Hp Hn]%elem_of_difference. destruct (Hd1 p Hp) as (? & e & [= <-] & Hc). split; [done|].
    eexists. split; [done|]. cbn in *. destruct Hc as [Hc|Hc]; [set_solver|by right].
Qed.

Lemma makeDirectory_dirs path (s : HS) :
  let '((d, ok), s') := makeDirectory euid egid path s in
  ∃ ds, stepped s s' (with_dirs ds (he_watch s)) ∧ ∀ p, p ∈ ds → p ∈ rw_dirs (he_watch s) ∨ (p = od_path d ∧ p = path).
Proof.
  unfold makeDirectory. pose proof (call_stepped (mkdirPrivate path) (MadeDirectory path) s) as H1. destruct (call _ _ s) as [[] s1]; cbn [negb fst snd] in *.
  2: { exists (rw_dirs (he_watch s)). rewrite with_dirs_same. destruct (he_watch s). by split; [|left]. }
  assert (Hm : stepped s s1 (with_dirs ({[path]} ∪ rw_dirs (he_watch s)) (he_watch s))) by (by destruct (he_watch s)). clear H1.
  pose proof (inspect_dirs path s1) as H2. destruct (inspectRuntimeDirectory _ _ _ s1) as [r s2]. destruct H2 as [H2 Hr].
  pose proof (stepped_dirs _ _ _ _ _ Hm H2) as H3. assert (Ew : he_watch s1 = with_dirs ({[path]} ∪ rw_dirs (he_watch s)) (he_watch s)) by apply Hm. rewrite Ew in H3. cbn [rw_dirs with_dirs] in H3.
  destruct r as [d|[]]; (eexists; split; [exact H3|]); intros p Hp; [rewrite Hr| |cbn]; set_solver.
Qed.

Lemma createDirectories_dirs id (s : HS) :
  rw_running (he_watch s) = false → rw_dirs (he_watch s) = ∅ →
  let '((d, ok), s') := createRuntimeSocketDirectories euid egid runtimeRoot id s in ∃ ds, stepped s s' (with_dirs ds (he_watch s)) ∧ dirsIn d ds.
Proof.
  intros Hidle H0. assert (Hno : ∀ d, dirsIn d ∅) by (intros d p; set_solver). assert (Hstop : ∃ ds, stepped s s (with_dirs ds (he_watch s)) ∧ dirsIn None ds).
  { exists ∅. rewrite <- H0, with_dirs_same. rewrite H0. done. }
  unfold createRuntimeSocketDirectories. destruct (negb _); [done|]. cbv zeta. set (parent := joinPath [runtimeRoot; id]). pose proof (lstat_dirs parent s) as H1. destruct (call _ _ s) as [r s1].
  assert (H1' : stepped s s1 (with_dirs ∅ (he_watch s))). { rewrite H0 in H1. destruct r; [done| |done]. assert (E : (∅ : gmap.gset string) ∖ {[parent]} = ∅) by set_solver. by rewrite E in H1. }
  clear H1 Hstop. assert (Hret : ∃ ds, stepped s s1 (with_dirs ds (he_watch s)) ∧ dirsIn None ds) by (by exists ∅).
  destruct r as [i| |]; [|done|done]. destruct (_ || _); [done|]. clear Hret. assert (E1 : rw_dirs (he_watch s1) = ∅) by (destruct H1' as (_ & _ & _ & ->); done).
  assert (Hclean : ∀ d s2 ds, stepped s s2 (with_dirs ds (he_watch s)) → dirsIn (Some d) ds →
    let '((d', ok), s') := cleanupDirectories euid egid d s2 in ∃ ds, stepped s s' (with_dirs ds (he_watch s)) ∧ dirsIn (Some d') ds).
  { intros d s2 ds H2 Hd. assert (E : he_watch s2 = with_dirs ds (he_watch s)) by apply H2. pose proof (cleanupDirectories_dirs d s2) as H3. rewrite E in H3. specialize (H3 Hidle Hd).
    destruct (cleanupDirectories _ _ d s2) as [[d' ok] s3]. destruct H3 as [(ds' & H3 & Hd3) _]. exists ds'. split; [|done]. eapply stepped_dirs; [exact H2|]. by rewrite E. }
  set (qpath := joinPath [parent; "qmp"]). assert (Hq : qpath ≠ "") by apply Clean_nonempty. pose proof (makeDirectory_dirs qpath s1) as H2. destruct (makeDirectory _ _ qpath s1) as [[qmp ok] s2].
  destruct H2 as (ds2 & H2 & Hd2). rewrite E1 in Hd2. pose proof (stepped_dirs _ _ _ _ _ H1' H2) as H12.
  destruct ok; cbn [negb].
  2: { specialize (Hclean (mkDirectories qmp noDirectory) s2 ds2 H12). destruct (cleanupDirectories _ _ _ s2) as [[d ok] s3]. apply Hclean. intros p Hp. destruct (Hd2 p Hp) as [?|[? ?]]; [set_solver|].
       split; [congruence|]. eexists. split; [done|]. by left. }
  assert (E2 : rw_dirs (he_watch s2) = ds2) by (destruct H12 as (_ & _ & _ & ->); done).
  set (spath := joinPath [parent; "spice"]). assert (Hs : spath ≠ "") by apply Clean_nonempty. pose proof (makeDirectory_dirs spath s2) as H3. destruct (makeDirectory _ _ spath s2) as [[spice ok] s3].
  destruct H3 as (ds3 & H3 & Hd3). rewrite E2 in Hd3. pose proof (stepped_dirs _ _ _ _ _ H12 H3) as H13.
  assert (Hd : dirsIn (Some (mkDirectories qmp spice)) ds3).
  { intros p Hp. destruct (Hd3 p Hp) as [Hp'|[? ?]]; [destruct (Hd2 p Hp') as [?|[? ?]]; [set_solver|]|]; (split; [congruence|]; eexists; split; [done|]); [by left|by right]. }
  destruct ok; cbn [negb]; [by exists ds3|]. specialize (Hclean (mkDirectories qmp spice) s3 ds3 H13 Hd). by destruct (cleanupDirectories _ _ _ s3) as [[d ok] s4].
Qed.

(** ** What each call leaves held *)

Definition running_guest (w : RWatch) : bool := rw_running w || nw_guest (nwatch (rw_guest w)).

Definition quiesced (r : hostRuntimeResource) : Prop := guestOf r (λ n _, allReleased n = true).

Lemma quiesced_stopped n : allReleased n = true → nr_processStopped n = true.
Proof. unfold allReleased. rewrite !andb_true_iff. tauto. Qed.

Lemma RtOf_idle r used w : RtOf r used w → quiesced r → running_guest w = false.
Proof.
  intros HR Hq. unfold running_guest, rw_running. destruct (hx_networked r) as [[n l]|] eqn:Hn; [|by destruct (rt_noguest _ _ _ HR Hn) as [-> ->]].
  rewrite (rt_log _ _ _ HR n l Hn). destruct (rt_knows _ _ _ HR n l Hn) as [_ -> -> _ _]. pose proof (Hq n l Hn) as Ha. unfold allReleased in Ha. rewrite !andb_true_iff in Ha. destruct Ha as (((-> & ->) & _) & _).
  by rewrite !andb_false_r.
Qed.

Lemma none_quiesced r : hx_networked r = None → quiesced r.
Proof. intros H n l Hn. congruence. Qed.

Lemma RtOf_stopped r used w : RtOf r used w → quiesced r → rw_running w = false.
Proof. intros HR Hq. pose proof (RtOf_idle _ _ _ HR Hq) as H. unfold running_guest in H. by apply orb_false_elim in H as [? _]. Qed.

Ltac held :=
  match goal with HR : RtOf _ _ ?w |- _ => destruct HR; destruct w; cbn in * end; constructor; unfold inCustody, guestOf in *; cbn in *;
  rewrite ?andb_true_iff, ?orb_true_iff, ?orb_false_r; subst; try done; try tauto.

Lemma RtOf_made_token r used w : hx_networked r = None → RtOf r used w → RtOf (set_capability true r) used (robserve w (MadeToken true)).
Proof. intros Hn HR. held. by rewrite Hn. Qed.

Lemma RtOf_made_network r used w : hx_networked r = None → RtOf r used w → RtOf (set_network true r) used (robserve w (MadeNetwork true)).
Proof. intros Hn HR. held. by rewrite Hn. Qed.

Lemma RtOf_leased r used w : hx_cidOwned r = true → RtOf r used w → RtOf (set_images r) used (robserve w (LeasedImages true)).
Proof. intros Hc HR. held. all: rewrite ?orb_true_r, ?Hc; done. Qed.

Lemma RtOf_displayed r used w : RtOf r used w → RtOf (set_displayed r) used (robserve w (StartedDisplay true)).
Proof. intros HR. held. Qed.

(** A step that failed to make anything leaves all as it was. *)
Definition madeNothing (c : rt_call) : bool :=
  match c with MadeToken false | MadeNetwork false | LeasedImages false | StartedDisplay false | StoppedProxy false => true | _ => false end.

Lemma madeNothing_same c w : madeNothing c = true → robserve w c = w.
Proof. destruct w, c as [| |[]| |[]| | | | |[]| | |[]|[]]; cbn; intros H; try done; by rewrite ?orb_false_r, ?andb_true_r. Qed.

Lemma RtOf_proxy_stopped r used w ok : RtOf r used w → RtOf r used (robserve w (StoppedProxy ok)).
Proof. intros HR. held. Qed.

Lemma RtOf_token_gone r used w : hx_networked r = None → RtOf r used w → RtOf (set_capability false r) used (robserve w DestroyedToken).
Proof. intros Hn HR. pose proof (RtOf_stopped _ _ _ HR (none_quiesced _ Hn)) as Hi. unfold rw_running in Hi. held. all: by rewrite Hi, orb_false_r. Qed.

Lemma RtOf_network_cleaned r used w ok :
  hx_networked r = None → RtOf r used w → RtOf (if ok : bool then set_network false r else r) used (robserve w (CleanedHostNetwork ok)).
Proof.
  intros Hn HR. pose proof (RtOf_stopped _ _ _ HR (none_quiesced _ Hn)) as Hi. unfold rw_running in Hi. destruct ok; held.
  all: rewrite ?Hi, ?orb_false_r; try done; intros [? ?]; auto; done.
Qed.

Lemma RtOf_images_released r used w ok : quiesced r → RtOf r used w → RtOf r used (robserve w (ReleasedImages ok)).
Proof.
  intros Hq HR. pose proof (RtOf_stopped _ _ _ HR Hq) as Hi. unfold rw_running in Hi. held.
  all: rewrite ?Hi, ?orb_false_r; try done.
  - intros _ n l Hn. by apply quiesced_stopped, (Hq n l).
  - intros Hx. destruct (rt_none0 Hx). subst. by split.
  - intros Hx. by rewrite (rt_order0 Hx).
Qed.

Lemma RtOf_cid_released r used used' w :
  quiesced r → rw_images w = false → hx_cidOwned r = true → RtOf r used w → RtOf (drop_cid r) used' (robserve w (ReleasedCID (hx_cid r) true)).
Proof.
  intros Hq Hh Hc HR. pose proof (RtOf_stopped _ _ _ HR Hq) as Hi. unfold rw_running in Hi. held.
  all: rewrite ?Hi, ?orb_false_r; try done. rewrite Hc. by rewrite bool_decide_eq_true_2.
Qed.

(** The guest made calls: it keeps its record, and its process ends before the lease. *)
Lemma RtOf_guest r r' used w n l :
  hx_networked r' = Some (n, l) → hx_images r' = true → hx_cidOwned r' = hx_cidOwned r → hx_cid r' = hx_cid r → hx_display r' = hx_display r →
  NKnows n (nwatch l) → (rw_images w = false → nr_processStopped n = true) → RtOf r used w → RtOf r' used (robserve w (GuestCalls l)).
Proof.
  intros Hn Hi Hc Hk Hd HK Hs HR. destruct HR, w; cbn in *. constructor; unfold guestOf, inCustody; cbn; rewrite ?Hc, ?Hk, ?Hd, ?Hi, ?Hn, ?andb_true_iff; try done.
  - by rewrite rt_bad0, (nk_bad _ _ HK).
  - by intros ? ? [= <- <-].
  - by intros ? ? [= <- <-].
  - intros Hx ? ? [= <- <-]. by apply Hs.
  - tauto.
  - tauto.
Qed.

(** A start of the guest that gave nothing. *)
Lemma RtOf_refused r used w l : hx_networked r = None → l = [] ∨ nfree (nwatch l) → RtOf r used w → RtOf r used (robserve w (GuestCalls l)).
Proof.
  intros Hn Hl HR. assert (Hb : nw_bad (nwatch l) = false ∧ nw_process (nwatch l) = false ∧ nw_guest (nwatch l) = false) by (destruct Hl as [->|(? & ? & ? & _)]; done).
  destruct Hb as (Hb & Hp & Hg). destruct HR, w; cbn in *. constructor; unfold guestOf, inCustody in *; cbn; rewrite ?Hb, ?orb_false_r, ?andb_true_iff; try done; try tauto; intros; congruence.
Qed.

(** ** The networked guest *)

Lemma Stop_stopped discard (t : NS (W := W)) : K t → nr_processStopped (ns_runtime t) = true → nr_processStopped (ns_runtime (Networked.Stop discard t).2) = true.
Proof.
  intros HK Hs. unfold Networked.Stop. destruct (allReleased _) eqn:Ha; [done|]. rewrite Hs. cbn [negb]. rewrite andb_false_r. unfold stopAndCleanup. cbn [upd ns_runtime set_monitoring nr_processStopped].
  rewrite Hs. assert (HK0 : K (upd (set_monitoring false) t)) by (by apply K_upd). pose proof (cleanupAfterProcess_ok _ HK0 Hs) as H. destruct (cleanupAfterProcess _) as [ok t']. by destruct H as (_ & ? & _).
Qed.

Lemma attach_stopped (t : NS (W := W)) : nr_processStopped (ns_runtime (attachDisplay t).2) = nr_processStopped (ns_runtime t).
Proof. unfold attachDisplay. destruct (negb _); [done|]. destruct (_ || _); [|done]. unfold ask. by destruct (displayStop _). Qed.

Definition same_display (s s' : HS) : Prop := rw_display (he_watch s') = rw_display (he_watch s).

Lemma onNetworked_watch {A} (f : NS (W := W) → A * NS (W := W)) n (s : HS) :
  he_watch (onNetworked f n s).2 = robserve (he_watch s) (GuestCalls (ns_log (f (mkNS n.1 (he_world s) n.2)).2)).
Proof. unfold onNetworked. destruct (f _) as [a t]. change (he_watch (guestStep t s) = robserve (he_watch s) (GuestCalls (ns_log t))). apply (watch_note _ (mkHS _ _ _ _ (he_log s))). Qed.

Lemma onNetworked_held {A} (f : NS (W := W) → A * NS (W := W)) n (s : HS) : he_imagesHeld (onNetworked f n s).2 = he_imagesHeld s.
Proof. unfold he_imagesHeld. rewrite onNetworked_watch. by destruct (he_watch s). Qed.

(** A step that keeps the guest's record and never restarts its process. *)
Lemma Rt_onNetworked {A} (f : NS (W := W) → A * NS (W := W)) n (s : HS) :
  (∀ t, K t → K (f t).2) → (∀ t, K t → nr_processStopped (ns_runtime t) = true → nr_processStopped (ns_runtime (f t).2) = true) →
  hx_networked (he_resource s) = Some n → Rt s → Rt (onNetworked f n s).2 ∧ same_display s (onNetworked f n s).2.
Proof.
  intros Hk Hs Hn [HR Hd]. unfold Rt, Core, same_display. rewrite onNetworked_watch. destruct n as [n l]. unfold onNetworked. cbn [fst snd].
  set (t0 := mkNS n (he_world s) l). assert (HK : K t0) by (by apply (rt_knows _ _ _ HR)). specialize (Hk t0 HK). specialize (Hs t0 HK).
  destruct (f t0) as [a t]. cbn [snd] in *. split; [|by destruct (he_watch s)]. split; [|by destruct (he_watch s)].
  apply (RtOf_guest (he_resource s) _ _ _ (ns_runtime t) (ns_log t)); cbn; try done.
  - destruct (hx_images (he_resource s)) eqn:Hi; [done|]. destruct (rt_none _ _ _ HR Hi). congruence.
  - intros Hh. apply Hs. by apply (rt_gone _ _ _ HR Hh n l).
Qed.

(** ** Stopping *)

(** Neither the resource nor its guest has the token or the network any more. *)
Definition quiet (r : hostRuntimeResource) : Prop :=
  quiesced r ∧ (hx_networked r = None → hx_capability r = false ∧ hx_network r = false).

Lemma call_Rt {A} (f : W → A * W) c (s : HS) :
  Rt s → RtOf (he_resource s) (al_used (he_cids s)) (robserve (he_watch s) (c (call f c s).1)) → rw_dirs (robserve (he_watch s) (c (call f c s).1)) = rw_dirs (he_watch s) →
  Rt (call f c s).2.
Proof.
  intros [_ Hd] HR E. pose proof (call_stepped f c s) as H. split; [by eapply stepped_Core|]. destruct H as (-> & _ & _ & ->). by rewrite E.
Qed.

Lemma robserve_dirs w c : match c with SawDirectory _ DirMissing | MadeDirectory _ true | RemovedDirectory _ true => True | _ => rw_dirs (robserve w c) = rw_dirs w end.
Proof. destruct w, c as [| | | | | |? []|? []|? []| | | | |]; done. Qed.

Lemma stopDisplay_frame (s : HS) : he_resource (stopDisplay s).2 = he_resource s ∧ he_imagesHeld (stopDisplay s).2 = he_imagesHeld s.
Proof.
  unfold stopDisplay. destruct (hx_display _); [|done]. pose proof (call_stepped displayStop StoppedProxy s) as (E1 & _ & _ & E2). split; [done|]. unfold he_imagesHeld. rewrite E2. by destruct (he_watch s).
Qed.

Lemma stopDisplay_ok (s : HS) : Rt s → let '(ok, s') := stopDisplay s in Rt s' ∧ (ok = true → rw_display (he_watch s') = false).
Proof.
  intros HR. unfold stopDisplay. destruct (hx_display (he_resource s)) eqn:Hd.
  - assert (HR' : Rt (call displayStop StoppedProxy s).2) by (apply call_Rt; [done|apply RtOf_proxy_stopped, HR|by destruct (he_watch s)]).
    pose proof (call_stepped displayStop StoppedProxy s) as H. destruct (call _ _ s) as [ok s1]. cbn [fst snd] in *. destruct H as (E1 & _ & _ & E2). split; [done|]. rewrite E2. destruct (he_watch s).
    intros ->. cbn. by rewrite andb_false_r.
  - split; [done|]. intros _. destruct (rw_display (he_watch s)) eqn:Hw; [|done]. destruct HR as [HR _]. by rewrite (rt_display _ _ _ HR Hw) in Hd.
Qed.

Lemma stopNetwork_ok discard (s : HS) :
  Rt s → let '(ok, s') := stopNetwork discard s in Rt s' ∧ same_display s s' ∧ (ok = true → quiet (he_resource s')).
Proof.
  intros HR. unfold stopNetwork. destruct (hx_networked (he_resource s)) as [n|] eqn:Hn.
  - assert (HR' : Rt (onNetworked (Networked.Stop discard) n s).2 ∧ same_display s (onNetworked (Networked.Stop discard) n s).2).
    { apply Rt_onNetworked; [|apply Stop_stopped|done|done]. intros t Ht. pose proof (Stop_ok discard t Ht) as H. destruct (Networked.Stop discard t). apply H. }
    unfold onNetworked in *. set (t0 := mkNS _ _ _) in *. pose proof (Stop_ok discard t0) as Hs. destruct (Networked.Stop discard t0) as [r t]. destruct HR' as [HR' Hd]. split_and!; [done|done|]. intros Hr.
    split; [|done]. intros n' l' [= <- <-]. apply Hs; [|by destruct r as [[]|]]. destruct n as [n l]. by apply (rt_knows _ _ _ (proj1 HR)).
  - set (s1 := if hx_capability (he_resource s) then _ else s). assert (H1 : Rt s1 ∧ same_display s s1 ∧ hx_capability (he_resource s1) = false ∧ hx_networked (he_resource s1) = None ∧ hx_network (he_resource s1) = hx_network (he_resource s)).
    { subst s1. destruct (hx_capability (he_resource s)) eqn:Hc; [|by split_and!]. destruct HR as [HR Hd]. unfold Rt, Core, same_display. change (he_watch (onRes (set_capability false) (note DestroyedToken s))) with (he_watch (note DestroyedToken s)).
      rewrite watch_note. split_and!; try done; [by apply RtOf_token_gone|by destruct (he_watch s)|by destruct (he_watch s)]. }
    destruct H1 as (HR1 & Hd1 & Hc1 & Hn1 & En1). clearbody s1. destruct (hx_network (he_resource s1)) eqn:Hw; [|split_and!; [done|done|]; intros _; by split; [apply none_quiesced|]].
    destruct HR1 as [HR1 Hdirs]. pose proof (call_stepped networkCleanup CleanedHostNetwork s1) as (E1 & E2 & _ & E4). destruct (call _ _ s1) as [ok s2]. cbn [fst snd] in *.
    pose proof (RtOf_network_cleaned _ _ _ ok Hn1 HR1) as HR2. rewrite <- E1, <- E4, <- E2 in HR2. assert (Ed : same_display s s2) by (unfold same_display in *; rewrite E4, <- Hd1; by destruct (he_watch s1)).
    assert (Hdirs2 : dirsIn (hx_directories (he_resource s2)) (rw_dirs (he_watch s2))) by (rewrite E1, E4, (robserve_dirs _ (CleanedHostNetwork ok)); done).
    destruct ok; (split_and!; [by split|done|]); [|done]. intros _. split; [apply none_quiesced; cbn; congruence|]. intros _. cbn. by rewrite E1, Hc1.
Qed.

Lemma stopImages_ok (s : HS) :
  Rt s → quiet (he_resource s) → let '(ok, s') := stopImages s in
  Rt s' ∧ same_display s s' ∧ he_resource s' = he_resource s ∧ (ok = true → he_imagesHeld s' = false).
Proof.
  intros HR [HQ _]. unfold stopImages. destruct (hx_images (he_resource s)) eqn:Hi; [|split_and!; [done|done|done|]; intros _; by apply (rt_none _ _ _ (proj1 HR))].
  assert (HR' : Rt (call releaseImages ReleasedImages s).2) by (apply call_Rt; [done|apply RtOf_images_released; [done|apply HR]|by destruct (he_watch s)]).
  pose proof (call_stepped releaseImages ReleasedImages s) as (E1 & _ & _ & E4). destruct (call _ _ s) as [ok s1]. cbn [fst snd] in *. split_and!; [done| |done|].
  - unfold same_display. rewrite E4. by destruct (he_watch s).
  - intros ->. unfold he_imagesHeld. rewrite E4. destruct (he_watch s). cbn. apply andb_false_r.
Qed.

Lemma stopCID_ok (s : HS) :
  Rt s → quiet (he_resource s) → he_imagesHeld s = false → let '(ok, s') := stopCID s in
  Rt s' ∧ same_display s s' ∧ quiet (he_resource s') ∧ ok = true ∧ hx_cidOwned (he_resource s') = false.
Proof.
  intros [HR Hd] HQ Hh. unfold stopCID. destruct (hx_cidOwned (he_resource s)) eqn:Hc; [|by split_and!]. pose proof (rt_cid _ _ _ HR Hc) as Hin.
  unfold Release. rewrite bool_decide_eq_true_2 by done. cbn [negb]. set (a := mkAllocator _ _ _ _). set (s1 := note _ _). assert (Ew : he_watch s1 = robserve (he_watch s) (ReleasedCID (hx_cid (he_resource s)) true)) by (apply (watch_note _ (withCIDs a s))).
  split_and!; try done; [|unfold same_display; change (he_watch (onRes drop_cid s1)) with (he_watch s1); rewrite Ew; by destruct (he_watch s)].
  unfold Rt, Core. change (he_watch (onRes drop_cid s1)) with (he_watch s1). rewrite Ew. split; [by apply (RtOf_cid_released _ (al_used (he_cids s))); [apply HQ|..]|].
  rewrite (robserve_dirs _ (ReleasedCID _ true)). done.
Qed.

Lemma stopDirectories_ok (s : HS) :
  Rt s → quiet (he_resource s) → let '(ok, s') := stopDirectories euid egid s in
  Rt s' ∧ same_display s s' ∧ quiet (he_resource s') ∧ he_imagesHeld s' = he_imagesHeld s ∧ hx_cidOwned (he_resource s') = hx_cidOwned (he_resource s) ∧
  (ok = true → ∀ d, hx_directories (he_resource s') = Some d → auditDirectories d = true).
Proof.
  intros [HR Hd] HQ. unfold stopDirectories. destruct (hx_directories (he_resource s)) as [d|] eqn:Ed; [|by rewrite Ed; split_and!; try done; split; rewrite ?Ed].
  pose proof (RtOf_stopped _ _ _ HR (proj1 HQ)) as Hi. pose proof (cleanupDirectories_dirs d s Hi Hd) as H. destruct (cleanupDirectories _ _ d s) as [[d' ok] s1].
  destruct H as [(ds & (E1 & E2 & _ & E4) & Hd') Ha]. unfold Rt, Core, same_display, he_imagesHeld. change (he_watch (onRes (set_directories d') s1)) with (he_watch s1). cbn [onRes he_resource he_cids]. rewrite E1, E2, E4.
  split_and!; try done; [|by intros Ho d'' [= <-]; apply Ha]. apply Core_dirs. by destruct HR.
Qed.

(** What the calls of a runtime took is given back, none of it too early, and the
    resource knows nothing else. *)
Definition returned (s : HS) : Prop :=
  he_watch s = mkRWatch false false false (rw_guest (he_watch s)) false None ∅ false ∧ running_guest (he_watch s) = false ∧
  hx_cidOwned (he_resource s) = false ∧ guestOf (he_resource s) (λ _ l, nfree (nwatch l)) ∧ ∀ d, hx_directories (he_resource s) = Some d → auditDirectories d = true.

Lemma quiet_free (s : HS) : Core s → quiet (he_resource s) → rw_token (he_watch s) = false ∧ rw_network (he_watch s) = false ∧ guestOf (he_resource s) (λ _ l, nfree (nwatch l)).
Proof.
  intros HR [HQ Hq]. assert (Hf : guestOf (he_resource s) (λ _ l, nfree (nwatch l))).
  { intros n l Hn. apply (K_free (mkNS n (he_world s) l)); [by apply (rt_knows _ _ _ HR)|by apply (HQ n l)]. }
  assert (Hno : ∀ own given, (hx_networked (he_resource s) = None → own = false) → (∀ w, nfree w → given w = false) → inCustody (he_resource s) own given = false).
  { intros own given Ho Hg. unfold inCustody. destruct (hx_networked (he_resource s)) as [[n l]|] eqn:Hn; [by apply Hg, (Hf n l)|by apply Ho]. }
  split_and!; [| |done]; apply not_true_is_false.
  - intros Ht. apply (rt_token _ _ _ HR) in Ht. rewrite Hno in Ht; [done|apply Hq|]. by intros w (_ & _ & _ & ? & _).
  - intros Ht. apply (rt_network _ _ _ HR) in Ht. rewrite Hno in Ht; [done|apply Hq|]. by intros w (_ & _ & _ & _ & ?).
Qed.

Lemma no_directories d ds : dirsIn d ds → (∀ e, d = Some e → auditDirectories e = true) → ds = ∅.
Proof.
  intros Hd Ha. apply elem_of_equiv_empty_L. intros p Hp. destruct (Hd p Hp) as (Hne & e & -> & Hc). specialize (Ha e eq_refl). unfold auditDirectories in Ha.
  apply andb_true_iff in Ha as [Hq%bool_decide_eq_true Hs%bool_decide_eq_true]. destruct Hc; congruence.
Qed.

Lemma StopRuntime_ok discard (s : HS) : Rt s → let '(ok, s') := StopRuntime euid egid discard s in Rt s' ∧ (ok = true → returned s').
Proof.
  intros HR. unfold StopRuntime, unless. pose proof (stopDisplay_ok s HR) as H. destruct (stopDisplay s) as [[] s0]; destruct H as (HR0 & Hd0); [specialize (Hd0 eq_refl)|done].
  pose proof (stopNetwork_ok discard s0 HR0) as H. destruct (stopNetwork discard s0) as [[] s1]; destruct H as (HR1 & Hd1 & HQ1); [specialize (HQ1 eq_refl)|done].
  pose proof (stopImages_ok s1 HR1 HQ1) as H. destruct (stopImages s1) as [[] s2]; destruct H as (HR2 & Hd2 & E2 & Hh2); [specialize (Hh2 eq_refl)|done]. rewrite <- E2 in HQ1.
  pose proof (stopCID_ok s2 HR2 HQ1 Hh2) as H. pose proof (HR2 : Rt s2). destruct (stopCID s2) as [[] s3] eqn:Ec; destruct H as (HR3 & Hd3 & HQ3 & Ho3 & Hc3); [|done].
  pose proof (stopDirectories_ok s3 HR3 HQ3) as H. destruct (stopDirectories euid egid s3) as [ok s4]. destruct H as (HR4 & Hd4 & HQ4 & Hh4 & Hc4 & Ha4). split; [done|]. intros ->. specialize (Ha4 eq_refl).
  destruct HR4 as [HR4 Hdirs]. destruct (quiet_free s4 HR4 HQ4) as (Ht & Hn & Hf). rewrite Hc3 in Hc4. pose proof (rt_order _ _ _ HR4 Hc4) as Hi. pose proof (rt_cidlog _ _ _ HR4) as Hk. rewrite Hc4 in Hk.
  split_and!; try done; [|by eapply RtOf_idle, HQ4]. pose proof (no_directories _ _ Hdirs Ha4) as He. pose proof (rt_bad _ _ _ HR4) as Hb. unfold same_display in *. rewrite Hd3, Hd2, Hd1, Hd0 in Hd4.
  destruct (he_watch s4). cbn in *. by subst.
Qed.

(** ** Starting *)

Definition runtimeStart (q : HostRuntimeRequest) (spec : Spec) : StartNetworkedRequest := mkStartRequest (hq_ID q) (hq_Role q) false spec 0.

(** Everything is held, and the guest was launched from the specification of the
    request with this CID and these directories, and proved. *)
Definition started (q : HostRuntimeRequest) (s : HS) : Prop :=
  let w := he_watch s in
  (rw_token w = true ∧ rw_network w = true ∧ rw_images w = true ∧ rw_cid w = Some (hx_cid (he_resource s)) ∧ rw_bad w = false ∧ (hq_Role q = RoleWorkstation → rw_display w = true)) ∧
  ∃ d spec n, hx_directories (he_resource s) = Some d ∧ runtimeQEMUSpec fs qemuBinary q (hx_cid (he_resource s)) (Some d) = Ok spec ∧
    hx_networked (he_resource s) = Some (n, rw_guest w) ∧ proved (runtimeStart q spec) (rw_guest w) ∧ (n = running (hq_Role q) ∨ n = set_display (running (hq_Role q))).

Lemma proved_watch request l : proved request l → nwatch l = mkNWatch true true true true false.
Proof. by intros (a & b & p & -> & _). Qed.

(** The same, but for the display. *)
Definition guestReady (q : HostRuntimeRequest) (s : HS) : Prop :=
  let w := he_watch s in
  (rw_token w = true ∧ rw_network w = true ∧ rw_images w = true ∧ hx_cidOwned (he_resource s) = true) ∧
  ∃ d spec, hx_directories (he_resource s) = Some d ∧ runtimeQEMUSpec fs qemuBinary q (hx_cid (he_resource s)) (Some d) = Ok spec ∧
    hx_networked (he_resource s) = Some (running (hq_Role q), rw_guest w) ∧ proved (runtimeStart q spec) (rw_guest w).

Lemma startGuest_ok q d spec (s : HS) :
  let w := he_watch s in
  Rt s → hx_directories (he_resource s) = Some d → runtimeQEMUSpec fs qemuBinary q (hx_cid (he_resource s)) (Some d) = Ok spec →
  hx_networked (he_resource s) = None → hx_images (he_resource s) = true → hx_cidOwned (he_resource s) = true →
  rw_token w = true → rw_network w = true → rw_images w = true →
  match startGuest fs q spec s with (Ok _, s') => Rt s' ∧ guestReady q s' | (Err _, s') => Rt s' end.
Proof.
  intros w [HR Hd] Ed Es Hn Hi Hc Ht Hw Hh. unfold startGuest. fold (runtimeStart q spec). pose proof (StartNetworked_ok fs (runtimeStart q spec) (he_world s)) as H.
  destruct (StartNetworked fs (runtimeStart q spec) (he_world s)) as [r t]. set (s1 := guestStep t s). assert (Ew : he_watch s1 = robserve w (GuestCalls (ns_log t))) by apply (watch_note _ (mkHS _ _ _ _ (he_log s))).
  set (adopt := onRes _). assert (Ha : NKnows (ns_runtime t) (nwatch (ns_log t)) → Rt (adopt s1)).
  { intros HK. split; unfold Core; change (he_watch (adopt s1)) with (he_watch s1); rewrite Ew; [|by rewrite (robserve_dirs _ (GuestCalls _))].
    apply (RtOf_guest (he_resource s) _ _ _ (ns_runtime t) (ns_log t)); try done. cbn. congruence. }
  destruct r as [[]|[e []]]; [|by apply Ha, H|].
  - destruct H as (HK & Hr & Hp & _). split; [by apply Ha|]. unfold guestReady. change (he_watch (adopt s1)) with (he_watch s1). rewrite Ew. destruct w. cbn in *. rewrite (proved_watch _ _ Hp), Hr. cbn. subst.
    split; [done|]. by exists d, spec.
  - split; unfold Core; rewrite Ew; [|by rewrite (robserve_dirs _ (GuestCalls _))]. by apply RtOf_refused.
Qed.

Lemma attach_ok (t : NS (W := W)) : K t → match attachDisplay t with (Ok _, t') => ns_log t' = ns_log t ∧ ns_runtime t' = set_display (ns_runtime t) | _ => True end.
Proof. intros HK. unfold attachDisplay. destruct (negb _); [done|]. by destruct (_ || _). Qed.

Definition start_outcome (q : HostRuntimeRequest) (r : result string unit * HS) : Prop :=
  match r with (Ok _, s) => Rt s ∧ started q s | (Err _, s) => Rt s end.

Lemma startDisplay_ok q (s : HS) : Rt s → guestReady q s → start_outcome q (startDisplayProxy (hq_Role q) s).
Proof.
  intros HR Hg. unfold startDisplayProxy. case_bool_decide as Hw.
  2: { split; [done|]. destruct Hg as ((? & ? & ? & Hc) & d & spec & ? & ? & ? & ?). pose proof (rt_cidlog _ _ _ (proj1 HR)) as Hk. rewrite Hc in Hk. pose proof (rt_bad _ _ _ (proj1 HR)).
       split; [by split_and!|]. exists d, spec, (running (hq_Role q)). by split_and!; [..|left]. }
  pose proof (call_stepped startDisplay StartedDisplay s) as Hc. destruct (call startDisplay StartedDisplay s) as [ok s1]. cbn [fst snd] in Hc. unfold startStep. destruct ok.
  2: { rewrite (madeNothing_same (StartedDisplay false)) in Hc by done. split; [by eapply stepped_Core, HR|]. destruct Hc as (-> & _ & _ & ->). apply HR. }
  set (s2 := onRes set_displayed s1). destruct Hc as (E1 & E2 & _ & E4). assert (HR2 : Rt s2).
  { subst s2. split; unfold Core; change (he_watch (onRes set_displayed s1)) with (he_watch s1); cbn; rewrite E1, ?E2, E4; [by apply RtOf_displayed, HR|rewrite (robserve_dirs _ (StartedDisplay true)); apply HR]. }
  assert (Hg2 : guestReady q s2 ∧ rw_display (he_watch s2) = true).
  { subst s2. unfold guestReady in *. change (he_watch (onRes set_displayed s1)) with (he_watch s1). cbn [onRes he_resource set_displayed hx_directories hx_networked hx_cid hx_cidOwned]. rewrite E1, E4.
    destruct (he_watch s). cbn in *. split; [done|apply orb_true_r]. }
  destruct Hg2 as [Hg2 Hd2]. clearbody s2. destruct Hg2 as (Hfl & d & spec & Ed & Es & Hn & Hp). rewrite Hn. set (n0 := (running (hq_Role q), _)).
  destruct (Rt_onNetworked attachDisplay n0 s2) as [HR3 _]; [apply attachDisplay_ok|intros t _; by rewrite attach_stopped|done|done|].
  unfold onNetworked in *. cbn [fst snd n0] in *. set (t0 := mkNS _ (he_world s2) _) in *. assert (HK : K t0) by (by apply (rt_knows _ _ _ (proj1 HR2))).
  pose proof (attach_ok t0 HK) as Ha. destruct (attachDisplay t0) as [[[]|e] t]; cbn [snd is_Ok] in *; [|done]. destruct Ha as [El Er]. split; [done|].
  set (s3 := guestStep t s2). assert (Ew : he_watch s3 = robserve (he_watch s2) (GuestCalls (ns_log t))) by apply (watch_note _ (mkHS _ _ _ _ (he_log s2))).
  unfold started. change (he_watch (onRes (set_networked (ns_runtime t, ns_log t)) s3)) with (he_watch s3). rewrite Ew, El, Er. subst t0. cbn [ns_log ns_runtime]. pose proof (rt_cidlog _ _ _ (proj1 HR2)) as Hk. pose proof (rt_bad _ _ _ (proj1 HR2)) as Hb.
  destruct Hfl as (? & ? & ? & Hown). rewrite Hown in Hk. cbn [onRes guestStep note he_resource s3 hx_cid hx_directories hx_networked set_networked]. destruct (he_watch s2). cbn in *. rewrite (proved_watch _ _ Hp). cbn. subst.
  split; [by split_and!|]. exists d, spec, (set_display (running (hq_Role q))). by split_and!; [..|right].
Qed.

(** A step that takes something, or leaves all as it was. *)
Lemma taking {A} (f : W → bool * W) (c : bool → rt_call) (upd : hostRuntimeResource → hostRuntimeResource) (s : HS) (k : HS → result string A * HS) e (P : result string A * HS → Prop) :
  madeNothing (c false) = true → (∀ w, rw_dirs (robserve w (c true)) = rw_dirs w) → (∀ r, hx_directories (upd r) = hx_directories r) →
  (RtOf (he_resource s) (al_used (he_cids s)) (he_watch s) → RtOf (upd (he_resource s)) (al_used (he_cids s)) (robserve (he_watch s) (c true))) →
  Rt s → (∀ s', Rt s' → P (Err e, s')) →
  (∀ s', Rt (onRes upd s') → he_resource s' = he_resource s → he_watch s' = robserve (he_watch s) (c true) → P (k s')) →
  P (let '(ok, s) := call f c s in if ok then k s else (Err e, s)).
Proof.
  intros Hno Hdirs Hupd Hof [HR Hd] Hp Hk. pose proof (call_stepped f c s) as H. destruct (call f c s) as [[] s1]; cbn [fst snd] in H.
  - destruct H as (E1 & E2 & _ & E4). apply Hk; [|done|done]. split; unfold Core; change (he_watch (onRes upd s1)) with (he_watch s1); cbn; rewrite E1, ?E2, E4; [by apply Hof|by rewrite Hupd, Hdirs].
  - rewrite madeNothing_same in H by done. apply Hp. split; [by eapply stepped_Core|]. by destruct H as (-> & _ & _ & ->).
Qed.

Lemma startSteps_ok q (s : HS) :
  Rt s → hx_networked (he_resource s) = None → hx_cidOwned (he_resource s) = true → rw_dirs (he_watch s) = ∅ →
  start_outcome q (startSteps euid egid fs runtimeRoot qemuBinary q s).
Proof.
  intros HR Hn Hc Hds. unfold startSteps, startStep. apply (taking _ _ (set_capability true)); try done; [by intros []|by apply RtOf_made_token|].
  intros s1 HR1 E1 W1. apply (taking _ _ (set_network true)); try done; [by intros []|apply RtOf_made_network; cbn; congruence|]. intros s2 HR2 E2 W2.
  set (s3 := onRes (set_network true) s2) in *. assert (F3 : hx_networked (he_resource s3) = None ∧ hx_cidOwned (he_resource s3) = true) by (subst s3; cbn; rewrite E2; cbn; by rewrite E1).
  assert (T3 : rw_token (he_watch s3) = true ∧ rw_network (he_watch s3) = true ∧ rw_dirs (he_watch s3) = ∅).
  { change (he_watch s3) with (he_watch s2). change (he_watch (onRes (set_capability true) s1)) with (he_watch s1) in W2. rewrite W2, W1. destruct (he_watch s). cbn in *. by rewrite ?orb_true_r. }
  clearbody s3. clear W2 W1 E2 E1. destruct F3 as [N3 C3], T3 as (T3 & M3 & D3).
  pose proof (createDirectories_dirs (hq_ID q) s3 (RtOf_stopped _ _ _ (proj1 HR2) (none_quiesced _ N3)) D3) as H. destruct (createRuntimeSocketDirectories _ _ _ _ s3) as [[d ok] s4].
  destruct H as (ds & (E4 & C4 & _ & W4) & Hd4). set (s5 := match d with Some d => _ | None => s4 end).
  assert (H5 : Rt s5 ∧ he_watch s5 = with_dirs ds (he_watch s3) ∧ (hx_networked (he_resource s5) = None ∧ hx_cidOwned (he_resource s5) = true ∧ ∀ e, d = Some e → hx_directories (he_resource s5) = d)).
  { assert (HR4 : RtOf (he_resource s3) (al_used (he_cids s3)) (with_dirs ds (he_watch s3))) by apply Core_dirs, HR2. subst s5. destruct d as [d|]; unfold Rt, Core.
    - change (he_watch (onRes (set_directories d) s4)) with (he_watch s4). cbn. rewrite E4, C4, W4. split_and!; try done; by destruct HR4.
    - rewrite E4, C4, W4. split_and!; try done. intros p Hp. by destruct (Hd4 p Hp) as (_ & ? & ? & _). }
  clearbody s5. destruct H5 as (HR5 & W5 & N5 & C5 & D5). destruct ok; [|done].
  apply (taking _ _ set_images); try done; [by intros []|by apply RtOf_leased|]. intros s6 HR6 E6 W6. cbn [onRes he_resource set_images hx_cid]. rewrite E6.
  destruct (runtimeQEMUSpec _ _ _ _ d) as [spec|e] eqn:Es; [|done]. destruct d as [d|]; [|done].
  pose proof (startGuest_ok q d spec (onRes set_images s6) HR6) as Hg. cbv zeta in Hg. change (he_watch (onRes set_images s6)) with (he_watch s6) in Hg. cbn [onRes he_resource set_images hx_cid hx_directories hx_networked hx_images hx_cidOwned] in Hg.
  rewrite E6, W6, W5 in Hg. specialize (Hg (D5 d eq_refl) Es N5 eq_refl C5). destruct (he_watch s3). cbn in T3, M3, Hg. rewrite orb_true_r in Hg. specialize (Hg T3 M3 eq_refl).
  destruct (startGuest fs q spec (onRes set_images s6)) as [[[]|e] s7]; [|done]. destruct Hg. by apply startDisplay_ok.
Qed.

Lemma allocate_used a c a' : GuestBoundary.Allocate a = (Ok c, a') → c ∈ al_used a'.
Proof.
  unfold GuestBoundary.Allocate. generalize (Z.to_nat (al_max a - al_min a + 1)) as n. intros n. revert a. induction n as [|n IH]; intros a; [done|]. cbn.
  case_bool_decide; [apply IH|]. intros [= <- <-]. cbn. set_solver.
Qed.

(** What a start may end in. *)
Lemma Start_ok q (s : HS) :
  match Start euid egid fs runtimeRoot qemuBinary q s with
  | (Ok _, s') => Rt s' ∧ started q s' ∧ hq_ID q ∉ he_prepared s'
  | (Err (_, true), s') => Rt s'
  | (Err (_, false), s') => (he_resource s' = he_resource s ∧ he_log s' = he_log s) ∨ returned s'
  end.
Proof.
  unfold Start. destruct (_ || _); [by left|]. destruct (negb _); [by left|]. destruct (GuestBoundary.Allocate (he_cids s)) as [[cid|e] a] eqn:Ha; [|by left].
  apply allocate_used in Ha. set (s0 := mkHS _ _ _ _ _). assert (HR : Rt s0). { split; [constructor; done|]. intros p Hp. set_solver. }
  pose proof (startSteps_ok q s0 HR eq_refl eq_refl eq_refl) as Hs. destruct (startSteps _ _ _ _ _ q s0) as [[[]|e] s1].
  - destruct Hs as [HR1 Hs1]. split_and!; [by apply (Rt_same s1)|done|]. cbn. set_solver.
  - pose proof (StopRuntime_ok true s1 Hs) as Ht. destruct (StopRuntime euid egid true s1) as [[] s2]; destruct Ht as [HR2 Hret]; cbn [negb]; [right; by apply Hret|done].
Qed.

(** ** The life of a runtime *)

(** [HExit]: the watcher of the guest's process; [HElsewhere]: other sessions
    allocate and release CIDs but not this one, and the host changes. *)
Inductive runtime_op := HStop (discard : bool) | HExit | HElsewhere (a : CIDAllocator) (w : W).

Definition runRuntime (s : HS) (op : runtime_op) : HS :=
  match op with
  | HStop discard => (StopRuntime euid egid discard s).2
  | HExit =>
      match hx_networked (he_resource s) with
      | Some n => (onNetworked (λ t, (tt, watchProcess t)) n s).2
      | None => s
      end
  | HElsewhere a w =>
      mkHS (he_resource s) (if hx_cidOwned (he_resource s) && negb (bool_decide (hx_cid (he_resource s) ∈ al_used a)) then he_cids s else a)
        (he_prepared s) w (he_log s)
  end.

Lemma runRuntime_ok s op : Rt s → Rt (runRuntime s op).
Proof.
  intros HR. destruct op as [discard| |a w]; cbn [runRuntime].
  - pose proof (StopRuntime_ok discard s HR) as H. destruct (StopRuntime _ _ _ s). apply H.
  - destruct (hx_networked (he_resource s)) as [n|] eqn:Hn; [|done]. apply Rt_onNetworked; [intros t Ht; by apply watchProcess_ok|intros t Ht _; by apply watchProcess_ok|done|done].
  - destruct HR as [HR Hd]. split; [|done]. destruct HR. constructor; try done. cbn. intros Hc. rewrite Hc. cbn. case_bool_decide; [done|]. by apply rt_cid0.
Qed.

Lemma runRuntime_all ops s : Rt s → Rt (foldl runRuntime s ops).
Proof. revert s. induction ops as [|op ops IH]; intros s HR; [done|]. by apply IH, runRuntime_ok. Qed.

(** Nothing was given up too early: the lease outlives the process, and the CID
    outlives the lease; and the resource has the handle of a process that runs. *)
Definition runtime_in_order (s : HS) : Prop :=
  let w := he_watch s in
  rw_bad w = false ∧ (rw_images w = false → rw_running w = false) ∧ (rw_cid w = None → rw_images w = false) ∧
  (rw_running w = true → ∃ n, hx_networked (he_resource s) = Some (n, rw_guest w)).

Lemma Rt_in_order s : Rt s → runtime_in_order s.
Proof.
  intros [HR _]. split_and!; [by apply (rt_bad _ _ _ HR)| | |].
  - intros Hh. unfold rw_running. destruct (hx_networked (he_resource s)) as [[n l]|] eqn:Hn; [|by apply (rt_noguest _ _ _ HR)].
    rewrite (rt_log _ _ _ HR n l Hn), (nk_process _ _ (rt_knows _ _ _ HR n l Hn)), (rt_gone _ _ _ HR Hh n l Hn). apply andb_false_r.
  - intros Hk. apply (rt_order _ _ _ HR). rewrite (rt_cidlog _ _ _ HR) in Hk. by destruct (hx_cidOwned _).
  - intros Hr. destruct (hx_networked (he_resource s)) as [[n l]|] eqn:Hn; [|unfold rw_running in Hr; by rewrite (proj1 (rt_noguest _ _ _ HR Hn)) in Hr]. exists n. by rewrite (rt_log _ _ _ HR n l Hn).
Qed.

(** C34: whatever the host answers, a start of a workstation or a downloader
    gives a runtime that holds its CID, token, network and image lease with a
    guest launched from the specification of the request that proved its network,
    and uses up its preparation; or refuses before it took anything, or has given
    back all it took; or returns the resource with the error.  From then on,
    through any sequence of stops, the end of the process and changes by other
    sessions, the record of the calls shows that the token, the network, the
    image lease, the CID and the directories are given up only once the process
    is gone and the CID only after the lease, and that a process that runs is
    never without its handle; and a stop that succeeds has, by that record,
    stopped the display and the process, closed the guest, destroyed the token,
    cleaned the network, released the lease and the CID it had allocated, and
    removed every socket directory it had made. *)
Theorem runtimes_are_released_in_order q s0 ops :
  let kept s := let s' := foldl runRuntime s ops in
    runtime_in_order s' ∧ ∀ discard s'', StopRuntime euid egid discard s' = (true, s'') → returned s'' in
  match Start euid egid fs runtimeRoot qemuBinary q s0 with
  | (Ok _, s) => started q s ∧ (hq_ID q ∉ he_prepared s) ∧ kept s
  | (Err (_, true), s) => kept s
  | (Err (_, false), s) => (he_resource s = he_resource s0 ∧ he_log s = he_log s0) ∨ returned s
  end.
Proof.
  intros kept. assert (Hk : ∀ s, Rt s → kept s).
  { intros s HR. pose proof (runRuntime_all ops s HR) as H. split; [by apply Rt_in_order|]. intros discard s'' Hs. pose proof (StopRuntime_ok discard _ H) as Ht. rewrite Hs in Ht. by apply Ht. }
  pose proof (Start_ok q s0) as H. destruct (Start _ _ _ _ _ q s0) as [[[]|[e []]] s]; [|by apply Hk|done].
  destruct H as (HR & Hs & Hp). split; [done|]. split; [done|]. by apply Hk.
Qed.

(** ** A guest that ended by itself *)

(** The guest is released but marked as failed, and the rest is held. *)
Definition stranded (s : HS) : Prop :=
  he_imagesHeld s = true ∧ hx_cidOwned (he_resource s) = true ∧ ∃ n l, hx_networked (he_resource s) = Some (n, l) ∧ allReleased n = true ∧ nr_cleanupErr n = true.

Lemma stranded_stop discard s : stranded s → ∃ s', StopRuntime euid egid discard s = (false, s') ∧ stranded s'.
Proof.
  intros (Hh & Hc & n & l & Hn & Ha & He). unfold StopRuntime, unless. destruct (stopDisplay_frame s) as [E1 E2]. destruct (stopDisplay s) as [ok s0]. cbn [snd] in *.
  assert (Hs0 : stranded s0) by (split_and!; [congruence|congruence|]; exists n, l; split; [congruence|done]).
  destruct ok; [|by exists s0]. unfold stopNetwork. rewrite E1, Hn. pose proof (onNetworked_held (Networked.Stop discard) (n, l) s0) as Hi.
  unfold onNetworked in *. cbn [fst snd] in *. rewrite marked_stop in * by done. cbn [is_Ok ns_runtime ns_log snd] in *.
  eexists. split; [done|]. rewrite E2, Hh in Hi. rewrite <- E1 in Hc. split_and!; [done|done|by exists n, l].
Qed.

Lemma stranded_later later s : Forall (λ op, op ≠ HExit) later → stranded s → stranded (foldl runRuntime s later).
Proof.
  intros Hl. revert s. induction Hl as [|op later Hop _ IH]; intros s Hs; [done|]. cbn [foldl]. apply IH. destruct op as [discard| |a w]; cbn [runRuntime]; [|done|done].
  destruct (stranded_stop discard s Hs) as (s' & E & H). by rewrite E.
Qed.

(** C35: when the process of a running guest ends with an error and its watcher
    released what the guest had, every later stop of the runtime fails, whatever
    else is tried: the image lease and the CID stay held, so the storage of the
    session cannot be cleaned up either. *)
Theorem ended_guest_strands_its_runtime q s0 s n l w' later discard :
  Start euid egid fs runtimeRoot qemuBinary q s0 = (Ok tt, s) → processWait (he_world s) = (false, w') →
  hx_networked (he_resource (runRuntime s HExit)) = Some (n, l) → allReleased n = true → Forall (λ op, op ≠ HExit) later →
  let s' := foldl runRuntime (runRuntime s HExit) later in
  (StopRuntime euid egid discard s').1 = false ∧ he_imagesHeld s' = true ∧ hx_cidOwned (he_resource s') = true ∧ nfree (nwatch l).
Proof.
  intros Hs Hw Hn Ha Hl. pose proof (Start_ok q s0) as H. rewrite Hs in H. destruct H as (HR & ((_ & _ & Hh & Hk & _) & _ & _ & n0 & _ & _ & Hn0 & _) & _).
  pose proof (runRuntime_ok s HExit HR) as HR1. assert (HS : stranded (runRuntime s HExit)).
  { cbn [runRuntime] in *. rewrite Hn0 in *. set (n1 := (n0, _)) in *. pose proof (onNetworked_held (λ t, (tt, watchProcess t)) n1 s) as Hi. unfold onNetworked in *. cbn [fst snd he_resource set_networked hx_networked n1] in *.
    split_and!; [by rewrite Hi|pose proof (rt_cidlog _ _ _ (proj1 HR)) as Hc; cbn; destruct (hx_cidOwned (he_resource s)); [done|congruence]|]. exists n, l. split_and!; [done|done|].
    injection Hn as <- <-. eapply watchProcess_marks; [by apply (rt_knows _ _ _ (proj1 HR))|exact Hw]. }
  pose proof (stranded_later later _ Hl HS) as HS'. destruct (stranded_stop discard _ HS') as (s'' & E & _). cbv zeta. rewrite E. destruct HS' as (? & ? & _). split_and!; try done.
  apply (K_free (mkNS n (he_world s) l)); [by apply (rt_knows _ _ _ (proj1 HR1))|done].
Qed.

End RuntimeOrder.

(** ** Examples *)

(** A host on which all goes well, until the process ends with an error. *)
#[local] Instance demoRuntimeHost : RuntimeHost unit := {
  resolveProfile := λ _ w, (true, w);
  newToken := λ w, (true, w);
  createNetwork := λ w, (true, w);
  activateImages := λ w, (true, w);
  releaseImages := λ w, (true, w);
  startDisplay := λ w, (true, w);
  lstatDirectory := λ _ w, (DirFound (mkDirInfo true false 448 0 0 1 2), w);
  mkdirPrivate := λ _ w, (true, w);
  removeDirectory := λ _ w, (true, w)
}.

Definition runtimeSession : string := "pvm-00112233445566778899aabbccddeeff".
Definition runtimeQuery : HostRuntimeRequest := mkRuntimeRequest runtimeSession RoleWorkstation RoleWorkstation 2 2147483648 "/run/pvm/root.qcow2" "".

Definition runtimeFiles : HostFiles := {|
  hf_Lstat path :=
    if bool_decide (path = "/usr/bin/qemu") then LstatInfo (mkHostInfo 493 0 0)
    else if bool_decide (path = "/usr/bin") then LstatInfo (mkHostInfo (ModeDir + 493) 0 0)
    else if HasSuffix path "/qmp" || HasSuffix path "/spice" then LstatInfo (mkHostInfo (ModeDir + 448) 0 0) else LstatNotExist;
  hf_EvalSymlinks := Some; hf_Euid := 0; hf_Egid := 0
|}.

Definition runtimeIdle : HS (W := unit) := mkHS emptyRuntime (mkAllocator 3 10 3 ∅) {[ runtimeSession ]} tt [].

#[local] Abbreviation demoStart := (Start (NetworkedHost0 := demoNetwork) 0 0 runtimeFiles "/run/p" "/usr/bin/qemu" runtimeQuery runtimeIdle).
Definition runtimeStarted : HS (W := unit) := Eval vm_compute in demoStart.2.
Definition runtimeEnded : HS (W := unit) := Eval vm_compute in runRuntime (NetworkedHost0 := demoNetwork) 0 0 runtimeStarted HExit.
Definition endedGuest : NetworkedRuntime * list net_call :=
  Eval vm_compute in match hx_networked (he_resource runtimeEnded) with Some n => n | None => (newRuntime RoleWorkstation, []) end.

Lemma ended_guest_strands_its_runtime_witness :
  demoStart = (Ok tt, runtimeStarted) ∧
  (StopRuntime (NetworkedHost0 := demoNetwork) 0 0 true (runRuntime (NetworkedHost0 := demoNetwork) 0 0 runtimeStarted HExit)).1 = false ∧
  he_imagesHeld (runRuntime (NetworkedHost0 := demoNetwork) 0 0 runtimeStarted HExit) = true.
Proof.
  assert (Hs : demoStart = (Ok tt, runtimeStarted)) by (vm_compute; reflexivity). split; [exact Hs|].
  destruct (ended_guest_strands_its_runtime (NetworkedHost0 := demoNetwork) 0 0 runtimeFiles "/run/p" "/usr/bin/qemu" runtimeQuery runtimeIdle runtimeStarted
    endedGuest.1 endedGuest.2 tt [] true Hs) as (H1 & H2 & _); [reflexivity|vm_compute; reflexivity|vm_compute; reflexivity|constructor|]. split; [exact H1|exact H2].
Defined.
