(* ===== verification/PeerAuth.v ===== *)
(** * Who is calling the daemon

    Models [src/internal/daemon/peercred.go] and [auth.go]: the identity of the
    process at the other end of the daemon's socket, taken from the socket, a
    process descriptor and [/proc], and its authorization by group.  A file of
    [/proc] is read through an interface; what the kernel writes there is a
    hypothesis of the last section. *)

From Stdlib Require Import ZArith Lia Ascii.
From stdpp Require Import strings base tactics option list.
From S2P Require Import Prelude GoText Netip NetipText VpnProfile.

Open Scope string_scope.
Open Scope list_scope.

Record PeerIdentity := mkPeer { pe_PID : Z; pe_UID : Z; pe_GID : Z; pe_StartTimeTicks : Z }.

Definition maxProcStatBytes : Z := 65536.
Definition maxProcStatusBytes : Z := 2097152.
Definition maxPidfdInfoBytes : Z := 4096.

Definition nulByte : ascii := "000".
Definition newlineByte : ascii := "010".
Definition openParen : ascii := "(".
Definition closeParen : ascii := ")".

(** [bytes.IndexByte] and [bytes.LastIndexByte]: the position, or -1. *)
Fixpoint IndexByte (s : string) (c : ascii) : Z :=
  match s with
  | EmptyString => -1
  | String x r => if char_eqb x c then 0 else let i := IndexByte r c in if (i <? 0)%Z then -1 else i + 1
  end%Z.

Fixpoint LastIndexByte (s : string) (c : ascii) : Z :=
  match s with
  | EmptyString => -1
  | String x r => let i := LastIndexByte r c in if (0 <=? i)%Z then i + 1 else if char_eqb x c then 0 else -1
  end%Z.

Definition take_string (n : nat) (s : string) : string := String.substring 0 n s.

(** ** The parsers *)

Definition malformedRecord (data : string) (limit : Z) : bool :=
  (slen data =? 0)%Z || (limit <? slen data)%Z || (0 <=? IndexByte data nulByte)%Z.

(** A number that may not be zero. *)
Definition parsePositive (text : string) (bits : Z) : option Z :=
  match ParseUint text bits with Some v => if (v =? 0)%Z then None else Some v | None => None end.

Definition parseProcStat (data : string) : result string (Z * Z) :=
  fail_if (malformedRecord data maxProcStatBytes) with "peer process stat record is malformed" ;;
  let open := IndexByte data openParen in
  let close := LastIndexByte data closeParen in
  fail_if ((open <=? 0)%Z || (close <=? open)%Z || (slen data <=? close + 1)%Z) with "peer process stat record is malformed" ;;
  match parsePositive (TrimSpace (take_string (Z.to_nat open) data)) 32 with
  | None => Err "peer process stat PID is malformed"
  | Some pid =>
      let fields := Fields (drop_string (Z.to_nat (close + 1)) data) in
      fail_if (len fields <=? 19)%Z with "peer process stat record is incomplete" ;;
      match parsePositive (default "" (fields !! 19%nat)) 64 with
      | None => Err "peer process start time is invalid"
      | Some startTime => Ok (pid, startTime)
      end
  end.

(** The single number of a [Pid:] line. *)
Definition parsePidLine (line : string) : option Z :=
  match Fields (TrimPrefix line "Pid:") with [field] => parsePositive field 32 | _ => None end.

Fixpoint pidfdLines (lines : list string) (found : option Z) : result string Z :=
  match lines with
  | [] => match found with Some pid => Ok pid | None => Err "peer pidfd PID record is absent" end
  | line :: rest =>
      if negb (HasPrefix line "Pid:") then pidfdLines rest found
      else match found with
           | Some _ => Err "peer pidfd record contains duplicate PID evidence"
           | None => match parsePidLine line with
                     | None => Err "peer pidfd PID record is malformed"
                     | Some pid => pidfdLines rest (Some pid)
                     end
           end
  end.

Definition parsePidfdInfo (data : string) : result string Z :=
  fail_if (malformedRecord data maxPidfdInfoBytes) with "peer pidfd record is malformed" ;;
  pidfdLines (Split newlineByte data) None.

(** What was found of the three lines so far. *)
Record StatusScan := mkStatusScan { ss_pid : option Z; ss_uid : option Z; ss_groups : option (list Z) }.

Fixpoint parseGroups (fields : list string) : option (list Z) :=
  match fields with
  | [] => Some []
  | field :: rest =>
      match ParseUint field 32, parseGroups rest with
      | Some v, Some vs => Some (v :: vs)
      | _, _ => None
      end
  end.

(** The effective UID is the second of four. *)
Definition parseUidLine (line : string) : option Z :=
  match Fields (TrimPrefix line "Uid:") with [_; field; _; _] => ParseUint field 32 | _ => None end.

Definition statusLine (line : string) (found : StatusScan) : result string StatusScan :=
  if HasPrefix line "Pid:" then
    match ss_pid found with
    | Some _ => Err "peer process status contains duplicate PID evidence"
    | None => match parsePidLine line with
              | None => Err "peer process PID record is malformed"
              | Some pid => Ok (mkStatusScan (Some pid) (ss_uid found) (ss_groups found))
              end
    end
  else if HasPrefix line "Uid:" then
    match ss_uid found with
    | Some _ => Err "peer process status contains duplicate UID evidence"
    | None => match parseUidLine line with
              | None => Err "peer process UID record is malformed"
              | Some uid => Ok (mkStatusScan (ss_pid found) (Some uid) (ss_groups found))
              end
    end
  else if HasPrefix line "Groups:" then
    match ss_groups found with
    | Some _ => Err "peer process status contains duplicate group evidence"
    | None => match parseGroups (Fields (TrimPrefix line "Groups:")) with
              | None => Err "peer process group record is malformed"
              | Some groups => Ok (mkStatusScan (ss_pid found) (ss_uid found) (Some groups))
              end
    end
  else Ok found.

Fixpoint statusLines (lines : list string) (found : StatusScan) : result string StatusScan :=
  match lines with
  | [] => Ok found
  | line :: rest => found <-! statusLine line found ;; statusLines rest found
  end.

Definition parseProcStatus (data : string) : result string (Z * Z * list Z) :=
  fail_if (malformedRecord data maxProcStatusBytes) with "peer process status record is malformed" ;;
  found <-! statusLines (Split newlineByte data) (mkStatusScan None None None) ;;
  match ss_pid found, ss_uid found, ss_groups found with
  | Some pid, Some uid, Some groups => Ok (pid, uid, groups)
  | _, _, _ => Err "peer process status evidence is incomplete"
  end.

(** ** The process *)

(** The whole content of a file, when it can be opened and read. *)
Class ProcHost (W : Type) := { procFile : string → W → option string * W }.

Section Peer.
Context {W : Type} `{!ProcHost W}.

Definition PM (A : Type) : Type := W → result string A * W.
Definition pbind {A B} (m : PM A) (k : A → PM B) : PM B := λ w, match m w with (Ok a, w) => k a w | (Err e, w) => (Err e, w) end.
Definition plift {A} (r : result string A) : PM A := λ w, (r, w).

#[local] Notation "'do' x := m ; k" := (pbind m (λ x, k)) (at level 100, x binder, m at level 99, right associativity).

Definition procPIDPath (pid : Z) (name : string) : string := "/proc/" +:+ decimal pid +:+ "/" +:+ name.

Definition readBoundedProcFile (path : string) (maximum : Z) : PM string := λ w,
  match procFile path w with
  | (None, w) => (Err "open", w)
  | (Some data, w) => (if (maximum <? slen data)%Z then Err "process evidence exceeds the supported bound" else Ok data, w)
  end.

Definition verifyPidfdTarget (pidfd expectedPID : Z) : PM unit :=
  do data := readBoundedProcFile ("/proc/self/fdinfo/" +:+ decimal pidfd) maxPidfdInfoBytes ;
  do pid := plift (parsePidfdInfo data) ;
  plift (fail_if (negb (pid =? expectedPID)%Z) with "unix peer process identity changed during credential capture" ;; Ok tt).

Definition verifyProcStatIdentity (identity : PeerIdentity) : PM unit :=
  do data := readBoundedProcFile (procPIDPath (pe_PID identity) "stat") maxProcStatBytes ;
  do found := plift (parseProcStat data) ;
  plift (fail_if (negb (found.1 =? pe_PID identity)%Z || negb (found.2 =? pe_StartTimeTicks identity)%Z)
           with "peer process identity changed during authorization" ;; Ok tt).

Definition processGroups (identity : PeerIdentity) : PM (list Z) :=
  if (pe_PID identity =? 0)%Z || (pe_StartTimeTicks identity =? 0)%Z then plift (Err "peer process identity is incomplete")
  else
    do _ := verifyProcStatIdentity identity ;
    do data := readBoundedProcFile (procPIDPath (pe_PID identity) "status") maxProcStatusBytes ;
    do found := plift (parseProcStatus data) ;
    let '(statusPID, effectiveUID, groups) := found in
    if negb (statusPID =? pe_PID identity)%Z || negb (effectiveUID =? pe_UID identity)%Z then plift (Err "peer process identity changed during authorization")
    else do _ := verifyProcStatIdentity identity ; plift (Ok groups).

(** The credentials and the process descriptor of the connection, as far as the
    socket gives them; the PID of the credentials is signed. *)
Definition socketPeerIdentity (credential : option (Z * Z * Z)) (peerPIDFD : option Z) : PM PeerIdentity :=
  match credential, peerPIDFD with
  | Some (pid, uid, gid), Some pidfd =>
      if (pidfd <? 0)%Z then plift (Err "unix peer pidfd is unavailable")
      else if (pid <=? 0)%Z then plift (Err "unix peer credentials are incomplete")
      else
        do _ := verifyPidfdTarget pidfd pid ;
        do stat := readBoundedProcFile (procPIDPath pid "stat") maxProcStatBytes ;
        do found := plift (parseProcStat stat) ;
        if negb (found.1 =? pid)%Z then plift (Err "unix peer process identity changed during credential capture")
        else do _ := verifyPidfdTarget pidfd pid ; plift (Ok (mkPeer pid uid gid found.2))
  | _, _ => plift (Err "inspect Unix peer credentials")
  end.

(** [Authorizer.Authorize]; [Groups] replaces the groups of the process when it
    is set, after they were verified. *)
Definition Authorize (Groups : option (PeerIdentity → option (list Z))) (allowedGroup : Z) (identity : PeerIdentity) : PM unit := λ w,
  match processGroups identity w with
  | (Err _, w) => (Err "peer process identity could not be verified", w)
  | (Ok groups, w) =>
      (match (match Groups with Some replace => replace identity | None => Some groups end) with
       | None => Err "peer process group membership could not be verified"
       | Some groups =>
           if (pe_UID identity =? 0)%Z || (pe_GID identity =? allowedGroup)%Z || existsb (λ g, (g =? allowedGroup)%Z) groups then Ok tt
           else Err "peer is not a member of the private-vm group"
       end, w)
  end.

(** What a request's context says of its transport: nothing, another kind of
    transport, or the identity of the handshake. *)
Inductive AuthInfo := noAuthInfo | otherAuthInfo | peerAuthInfo (identity : PeerIdentity).

Definition authenticatedIdentity (auth : AuthInfo) : result string PeerIdentity :=
  match auth with
  | noAuthInfo => Err "unix peer credentials are absent"
  | otherAuthInfo => Err "unexpected RPC transport credentials"
  | peerAuthInfo identity => Ok identity
  end.

(** The interceptors: the handler is given the verified identity and at most
    [maximum] nanoseconds. *)
Definition intercept {A} (Groups : option (PeerIdentity → option (list Z))) (allowedGroup : Z) (auth : AuthInfo)
    (maximum : Z) (handler : PeerIdentity → Z → PM A) : PM A := λ w,
  match authenticatedIdentity auth with
  | Err _ => (Err "AUTHORIZATION_DENIED", w)
  | Ok identity =>
      match Authorize Groups allowedGroup identity w with
      | (Err _, w) => (Err "AUTHORIZATION_DENIED", w)
      | (Ok tt, w) => handler identity maximum w
      end
  end.

Definition second : Z := 1000000000.

Definition UnaryInterceptor {A} Groups allowedGroup auth (handler : PeerIdentity → Z → PM A) : PM A :=
  intercept Groups allowedGroup auth (120 * second) handler.

Definition streamMaximum (FullMethod : string) : Z :=
  let method name := bool_decide (FullMethod = "/privatevm.v1.PrivateVMDaemonService/" +:+ name) in
  if method "ImportWorkspaceFile" || method "ImportVPNProfile" then 10 * second
  else if method "AddTorrent" then 120 * second
  else 1800 * second.

Definition StreamInterceptor {A} Groups allowedGroup FullMethod auth (handler : PeerIdentity → Z → PM A) : PM A :=
  intercept Groups allowedGroup auth (streamMaximum FullMethod) handler.

Definition polkitProcessSubject (identity : PeerIdentity) : PM string := λ w,
  match processGroups identity w with
  | (Err _, w) => (Err "Polkit process subject could not be verified", w)
  | (Ok _, w) => (Ok (decimal (pe_PID identity) +:+ "," +:+ decimal (pe_StartTimeTicks identity) +:+ "," +:+ decimal (pe_UID identity)), w)
  end.

(** [PKCheck.Authorize]; the command ends well, ends badly, or is cut off. *)
Definition pkCheck (run : string → list string → W → result (option string) unit * W) (Binary : string) (identity : PeerIdentity) (action : string) : PM unit :=
  match Binary with
  | String "/" _ =>
      if negb (bool_decide (action = "org.private-vm.usb.prepare")) then plift (Err "Polkit action is not permitted")
      else
        do process := polkitProcessSubject identity ;
        (λ w, match run Binary ["--action-id"; action; "--process"; process; "--allow-user-interaction"] w with
              | (Ok tt, w) => (Ok tt, w)
              | (Err (Some expired), w) => (Err expired, w)
              | (Err None, w) => (Err "Polkit authorization was denied", w)
              end)
  | _ => plift (Err "Polkit verifier configuration is invalid")
  end.

End Peer.

(** * Properties *)

(** ** Text *)

Definition lineEnd : string := String newlineByte "".

#[local] Arguments char_eqb : simpl never.

Lemma char_eqb_refl c : char_eqb c c = true.
Proof. unfold char_eqb. by rewrite bool_decide_true. Qed.

Lemma noByte_cons c x a : noByte c (String x a) → char_eqb x c = false ∧ noByte c a.
Proof. unfold noByte. cbn. intros [Hx Ha]%andb_true_iff. split; [by apply negb_true_iff|done]. Qed.

Lemma IndexByte_found a c b : noByte c a → IndexByte (a +:+ String c b) c = Z.of_nat (String.length a).
Proof.
  induction a as [|x a IH]; intros Hn; [rewrite append_nil_l|rewrite append_cons]; cbn [IndexByte String.length].
  - by rewrite char_eqb_refl.
  - apply noByte_cons in Hn as [Hx Hn]. rewrite Hx. rewrite IH by done.
    destruct (_ <? 0)%Z eqn:E; lia.
Qed.

Lemma IndexByte_missing a c : noByte c a → IndexByte a c = (-1)%Z.
Proof.
  induction a as [|x a IH]; intros Hn; cbn; [done|]. apply noByte_cons in Hn as [Hx Hn]. rewrite Hx.
  by rewrite IH.
Qed.

Lemma LastIndexByte_missing a c : noByte c a → LastIndexByte a c = (-1)%Z.
Proof.
  induction a as [|x a IH]; intros Hn; cbn; [done|]. apply noByte_cons in Hn as [Hx Hn]. rewrite IH by done. by rewrite Hx.
Qed.

Lemma LastIndexByte_found a c b : noByte c b → LastIndexByte (a +:+ String c b) c = Z.of_nat (String.length a).
Proof.
  intros Hn. induction a as [|x a IH]; [rewrite append_nil_l|rewrite append_cons]; cbn [LastIndexByte String.length].
  - by rewrite LastIndexByte_missing, char_eqb_refl by done.
  - rewrite IH. destruct (0 <=? _)%Z eqn:E; lia.
Qed.

Lemma take_append a b : take_string (String.length a) (a +:+ b) = a.
Proof. unfold take_string. induction a as [|c a IH]; [rewrite append_nil_l; by destruct b|]. rewrite append_cons. cbn. by rewrite IH. Qed.

(** Visible text without spaces. *)
Definition word (s : string) : Prop := s ≠ "" ∧ string_forallb graphic s = true.

Lemma graphic_visible c : graphic c = true → isASCII c = true ∧ spaceChar c = false.
Proof.
  unfold graphic, isASCII, spaceChar, IsSpace, asciiRune. intros [H1 H2]%andb_true_iff. apply N.leb_le in H1. apply N.ltb_lt in H2. split; [apply N.ltb_lt; lia|].
  repeat (apply orb_false_iff; split); try (apply N.eqb_neq; lia); apply andb_false_iff; first [left; apply N.leb_gt; lia|right; apply N.leb_gt; lia].
Qed.

Lemma fieldsOf_word w rest current :
  string_forallb graphic w = true → fieldsOf (map asciiRune (String.list_ascii_of_string w) ++ rest) current = fieldsOf rest (current +:+ w).
Proof.
  revert current. induction w as [|c w IH]; intros current Hw; cbn [String.list_ascii_of_string map app fieldsOf].
  - by rewrite append_nil_r.
  - cbn in Hw. apply andb_true_iff in Hw as [Hc Hw]. destruct (graphic_visible c Hc) as [_ Hs]. unfold spaceChar in Hs. rewrite Hs. rewrite IH by done.
    cbn [raw_of asciiRune]. by rewrite append_assoc.
Qed.

(** White space, and text set out in columns: each word has white space before
    it, and white space may end the line. *)
Definition blankText (s : string) : Prop := string_forallb (λ c, isASCII c && spaceChar c) s = true.

Fixpoint layout (cells : list (string * string)) (trail : string) : string :=
  match cells with
  | [] => trail
  | (gap, w) :: rest => gap +:+ (w +:+ layout rest trail)
  end.

Definition cellOk (cell : string * string) : Prop := cell.1 ≠ "" ∧ blankText cell.1 ∧ word cell.2.

Lemma flush_nil rest : flush "" rest = rest.
Proof. done. Qed.

Lemma fieldsOf_blank g rest : blankText g → fieldsOf (map asciiRune (String.list_ascii_of_string g) ++ rest) "" = fieldsOf rest "".
Proof.
  induction g as [|c g IH]; [done|]. unfold blankText. cbn. intros [[_ Hc]%andb_true_iff Hg]%andb_true_iff.
  unfold spaceChar in Hc. rewrite Hc. by rewrite flush_nil, IH.
Qed.

Lemma fieldsOf_gap g rest current :
  g ≠ "" → blankText g → fieldsOf (map asciiRune (String.list_ascii_of_string g) ++ rest) current = flush current (fieldsOf rest "").
Proof.
  destruct g as [|c g]; [done|]. intros _. unfold blankText. cbn. intros [[_ Hc]%andb_true_iff Hg]%andb_true_iff.
  unfold spaceChar in Hc. rewrite Hc. by rewrite fieldsOf_blank.
Qed.

Lemma fieldsOf_layout cells trail current :
  Forall cellOk cells → blankText trail →
  fieldsOf (map asciiRune (String.list_ascii_of_string (layout cells trail))) current = flush current (map snd cells).
Proof.
  intros Hc Ht. revert current. induction Hc as [|[g w] cells [Hg [Hb [Hne Hw]]] _ IH]; intros current; cbn [layout map].
  - destruct trail as [|c r]; [done|]. rewrite <- (app_nil_r (map _ _)), fieldsOf_gap by done. done.
  - rewrite !list_of_append, !map_app, fieldsOf_gap by done. cbn in Hw, Hne. f_equal. rewrite (fieldsOf_word w _ "") by done. rewrite IH.
    cbn. unfold flush. by rewrite bool_decide_eq_false_2.
Qed.

Lemma blankText_ascii s : blankText s → string_forallb isASCII s = true.
Proof. apply string_forallb_weaken. by intros c [Hc _]%andb_true_iff. Qed.

Lemma layout_ascii cells trail : Forall cellOk cells → blankText trail → string_forallb isASCII (layout cells trail) = true.
Proof.
  intros Hc Ht. induction Hc as [|[g w] cells [_ [Hb [_ Hw]]] _ IH]; cbn [layout]; [by apply blankText_ascii|]. cbn in *.
  rewrite !string_forallb_app, IH, blankText_ascii by done. rewrite (string_forallb_weaken graphic isASCII); [done| |done].
  intros c Hc. by apply graphic_visible.
Qed.

Lemma Fields_layout cells trail : Forall cellOk cells → blankText trail → Fields (layout cells trail) = map snd cells.
Proof. intros Hc Ht. unfold Fields. rewrite runes_ascii by by apply layout_ascii. by apply fieldsOf_layout. Qed.

(** ** The records of the kernel *)

(** [/proc/PID/stat]: the command name stands between the first opening and the
    last closing parenthesis, and may itself hold any byte. *)
Definition statRecord (pid start : Z) (text : string) : Prop :=
  ∃ comm cells trail,
    text = decimal pid +:+ (" " +:+ String openParen (comm +:+ String closeParen (layout cells trail))) ∧
    Forall cellOk cells ∧ blankText trail ∧ Forall (λ cell, noByte closeParen cell.2) cells ∧
    map snd cells !! 19%nat = Some (decimal start).

Definition numberLine (label : string) (number line : string) : Prop :=
  ∃ gap trail, line = label +:+ layout [(gap, number)] trail ∧ cellOk (gap, number) ∧ blankText trail.

Definition joinLines (lines : list string) : string := String.concat (String newlineByte "") lines.

Definition plainLine (line : string) : Prop :=
  HasPrefix line "Pid:" = false ∧ HasPrefix line "Uid:" = false ∧ HasPrefix line "Groups:" = false.

(** [/proc/PID/status]: one line each for the PID, the four UIDs and the groups. *)
Definition statusRecord (pid uid : Z) (groups : list Z) (text : string) : Prop :=
  ∃ la lpid lb luid lc lgroups ld cu tu cg tg,
    text = joinLines (la ++ lpid :: lb ++ luid :: lc ++ lgroups :: ld) ∧
    Forall (noByte newlineByte) (la ++ lpid :: lb ++ luid :: lc ++ lgroups :: ld) ∧
    Forall plainLine (la ++ lb ++ lc ++ ld) ∧
    numberLine "Pid:" (decimal pid) lpid ∧
    luid = "Uid:" +:+ layout cu tu ∧ Forall cellOk cu ∧ blankText tu ∧ length cu = 4%nat ∧ map snd cu !! 1%nat = Some (decimal uid) ∧
    lgroups = "Groups:" +:+ layout cg tg ∧ Forall cellOk cg ∧ blankText tg ∧ map snd cg = map decimal groups.

(** [/proc/self/fdinfo/N] of a process descriptor: the PID, or -1 once the
    process was reaped. *)
Definition pidfdRecord (pid : option Z) (text : string) : Prop :=
  ∃ la line lb,
    text = joinLines (la ++ line :: lb) ∧ Forall (noByte newlineByte) (la ++ line :: lb) ∧
    Forall (λ l, HasPrefix l "Pid:" = false) (la ++ lb) ∧
    numberLine "Pid:" (match pid with Some p => decimal p | None => "-1" end) line.

Lemma Split_joinLines lines : lines ≠ [] → Forall (noByte newlineByte) lines → Split newlineByte (joinLines lines) = lines.
Proof.
  intros Hne H. induction H as [|l [|l' lines] Hl _ IH]; [done|by apply Split_none|].
  change (joinLines (l :: l' :: lines)) with (l +:+ String newlineByte (joinLines (l' :: lines))).
  rewrite Split_app, (Split_none _ l) by done. by rewrite IH.
Qed.

Lemma noByte_join c a b : noByte c a → noByte c b → noByte c (a +:+ b).
Proof. unfold noByte. intros Ha Hb. by rewrite string_forallb_app, Ha, Hb. Qed.

Lemma noByte_blank c s : spaceChar c = false → blankText s → noByte c s.
Proof.
  intros Hc. apply string_forallb_weaken. intros d [_ Hd]%andb_true_iff. unfold char_eqb. rewrite bool_decide_eq_false_2; [done|]. by intros ->; rewrite Hd in Hc.
Qed.

Lemma noByte_layout c cells trail :
  spaceChar c = false → Forall cellOk cells → blankText trail → Forall (λ cell, noByte c cell.2) cells → noByte c (layout cells trail).
Proof.
  intros Hs Hc Ht Hn. induction Hc as [|[g w] cells [_ [Hb _]] _ IH]; cbn [layout]; [by apply noByte_blank|].
  apply Forall_cons in Hn as [Hw Hn]. apply noByte_join; [by apply noByte_blank|]. apply noByte_join; [done|]. by apply IH.
Qed.

Lemma digits_noByte c s : is_digit c = false → string_forallb is_digit s = true → noByte c s.
Proof. intros Hc. apply string_forallb_weaken. intros d Hd. unfold char_eqb. rewrite bool_decide_eq_false_2; [done|]. by intros ->; rewrite Hd in Hc. Qed.

Lemma digit_graphic c : is_digit c = true → graphic c = true.
Proof. destruct c as [[] [] [] [] [] [] [] []]; vm_compute; done. Qed.

Lemma decimal_word b : word (decimal b).
Proof. split; [apply decimal_nonempty|]. apply (string_forallb_weaken is_digit), decimal_digits. apply digit_graphic. Qed.

Lemma slen_app a b : slen (a +:+ b) = (slen a + slen b)%Z.
Proof. unfold slen. rewrite append_length. lia. Qed.

Lemma spaceChar_paren : spaceChar closeParen = false.
Proof. done. Qed.

Lemma parsePositive_decimal v bits : (0 < v < 2 ^ bits)%Z → parsePositive (decimal v) bits = Some v.
Proof. intros H. unfold parsePositive. rewrite ParseUint_decimal by lia. destruct (Z.eqb_spec v 0); [lia|done]. Qed.

Lemma TrimSpace_decimal v : TrimSpace (decimal v +:+ " ") = decimal v.
Proof.
  destruct (decimal_word v) as [Hne Hg]. rewrite <- (append_nil_l (decimal v +:+ " ")). apply TrimSpace_edged; [|by apply edged_graphic|done|done].
  rewrite append_nil_l, string_forallb_app, (string_forallb_weaken graphic isASCII); [done| |done]. intros c Hc. by apply graphic_visible.
Qed.

(** The command name cannot move the fields, whatever it holds. *)
Lemma parseProcStat_record pid start text :
  statRecord pid start text → (0 < pid < 2 ^ 32)%Z → (0 ≤ start < 2 ^ 64)%Z → malformedRecord text maxProcStatBytes = false →
  parseProcStat text = if (start =? 0)%Z then Err "peer process start time is invalid" else Ok (pid, start).
Proof.
  intros (comm & cells & trail & Ht & Hc & Hb & Hn & Hs) Hpid Hstart Hm. unfold parseProcStat. rewrite Hm. cbv zeta.
  assert (IndexByte text openParen = slen (decimal pid +:+ " ")) as Hopen.
  { rewrite Ht, <- append_assoc, IndexByte_found; [done|]. apply noByte_join; [|done]. by apply digits_noByte, decimal_digits. }
  set (before := decimal pid +:+ (" " +:+ String openParen comm)).
  assert (text = before +:+ String closeParen (layout cells trail)) as Ht1.
  { rewrite Ht. unfold before. by rewrite !append_assoc, !append_cons. }
  assert (text = (before +:+ String closeParen "") +:+ layout cells trail) as Ht'.
  { rewrite Ht1. generalize before. intros b. by rewrite append_assoc, append_cons. }
  assert (LastIndexByte text closeParen = slen before) as Hclose.
  { rewrite Ht1, LastIndexByte_found; [done|]. by apply noByte_layout. }
  assert (slen before = slen (decimal pid +:+ " ") + 1 + slen comm)%Z as Hl.
  { unfold before. rewrite !slen_app. cbn. unfold slen. cbn. lia. }
  assert (0 < slen (decimal pid +:+ " "))%Z as Hp by (rewrite slen_app; unfold slen; cbn; lia).
  assert (0 < slen (layout cells trail))%Z as Hcells.
  { destruct cells as [|[g w] cells]; [done|]. cbn [layout]. rewrite !slen_app. apply Forall_cons in Hc as [(Hg & _) _]. cbn in Hg. destruct g; [done|]. unfold slen. cbn. lia. }
  assert (slen text = slen before + 1 + slen (layout cells trail))%Z as Hlen by (rewrite Ht', !slen_app; unfold slen; cbn; lia).
  assert (0 <= slen comm)%Z as Hcm by (unfold slen; lia).
  rewrite Hopen, Hclose. destruct (orb _ _) eqn:E.
  { repeat (apply orb_true_iff in E as [E|E]); apply Z.leb_le in E; lia. }
  unfold slen at 1. rewrite Nat2Z.id. replace text with ((decimal pid +:+ " ") +:+ String openParen (comm +:+ String closeParen (layout cells trail))) at 1 by (by rewrite Ht, append_assoc).
  rewrite take_append, TrimSpace_decimal, parsePositive_decimal by done.
  replace (Z.to_nat (slen before + 1)) with (String.length (before +:+ String closeParen "")) by (unfold slen; rewrite append_length; cbn; lia).
  rewrite Ht', drop_append, Fields_layout by done. pose proof (lookup_lt_Some _ _ _ Hs) as Hlt.
  destruct (_ <=? 19)%Z eqn:E2; [apply Z.leb_le in E2; unfold len in E2; lia|]. rewrite Hs. change (default "" (Some (decimal start))) with (decimal start).
  unfold parsePositive. rewrite ParseUint_decimal by done. by destruct (start =? 0)%Z.
Qed.

Lemma Fields_numberLine label number line :
  numberLine label number line → HasPrefix line label = true ∧ Fields (TrimPrefix line label) = [number].
Proof. intros (gap & trail & -> & Hc & Ht). rewrite HasPrefix_append, TrimPrefix_append, Fields_layout; [done|by constructor|done]. Qed.

Lemma pidLine_decimal pid line : numberLine "Pid:" (decimal pid) line → (0 < pid < 2 ^ 32)%Z → parsePidLine line = Some pid.
Proof. intros [_ Hf]%Fields_numberLine Hp. unfold parsePidLine. rewrite Hf. by apply parsePositive_decimal. Qed.

Lemma pidfdLines_skip la lines found : Forall (λ l, HasPrefix l "Pid:" = false) la → pidfdLines (la ++ lines) found = pidfdLines lines found.
Proof. induction 1 as [|l la Hl _ IH]; [done|]. cbn [app pidfdLines]. by rewrite Hl. Qed.

Lemma parsePidfdInfo_record pid text :
  pidfdRecord pid text → (∀ p, pid = Some p → 0 < p < 2 ^ 32)%Z → malformedRecord text maxPidfdInfoBytes = false →
  parsePidfdInfo text = match pid with Some p => Ok p | None => Err "peer pidfd PID record is malformed" end.
Proof.
  intros (la & line & lb & -> & Hn & Hpl & Hline) Hp Hm. unfold parsePidfdInfo. rewrite Hm, Split_joinLines by (done || by destruct la).
  apply Forall_app in Hpl as [Hla Hlb]. rewrite pidfdLines_skip by done. cbn [pidfdLines].
  rewrite (proj1 (Fields_numberLine _ _ _ Hline)). cbn [negb].
  destruct pid as [p|]; [rewrite (pidLine_decimal p) by auto|].
  - rewrite <- (app_nil_r lb), pidfdLines_skip; done.
  - unfold parsePidLine. by rewrite (proj2 (Fields_numberLine _ _ _ Hline)).
Qed.

Lemma statusLines_skip la lines found : Forall plainLine la → statusLines (la ++ lines) found = statusLines lines found.
Proof. induction 1 as [|l la (H1 & H2 & H3) _ IH]; [done|]. cbn [app statusLines]. unfold statusLine. by rewrite H1, H2, H3. Qed.

Lemma parseGroups_decimal groups : Forall (λ g, 0 ≤ g < 2 ^ 32)%Z groups → parseGroups (map decimal groups) = Some groups.
Proof. induction 1 as [|g groups Hg _ IH]; [done|]. cbn [map parseGroups]. by rewrite ParseUint_decimal, IH. Qed.

Lemma uidLine_decimal uid cu tu :
  Forall cellOk cu → blankText tu → length cu = 4%nat → map snd cu !! 1%nat = Some (decimal uid) → (0 ≤ uid < 2 ^ 32)%Z →
  parseUidLine ("Uid:" +:+ layout cu tu) = Some uid.
Proof.
  intros Hc Ht Hl Hu Hr. unfold parseUidLine. rewrite TrimPrefix_append, Fields_layout by done.
  destruct cu as [|? [|c1 [|? [|? [|]]]]]; try done. cbn [map] in *. injection Hu as ->. by apply ParseUint_decimal.
Qed.

Lemma parseProcStatus_record pid uid groups text :
  statusRecord pid uid groups text → (0 < pid < 2 ^ 32)%Z → (0 ≤ uid < 2 ^ 32)%Z → Forall (λ g, 0 ≤ g < 2 ^ 32)%Z groups →
  malformedRecord text maxProcStatusBytes = false → parseProcStatus text = Ok (pid, uid, groups).
Proof.
  intros (la & lpid & lb & luid & lc & lgroups & ld & cu & tu & cg & tg & -> & Hn & Hpl & Hpid & -> & Hcu & Htu & Hl & Hu & -> & Hcg & Htg & Hg) Hp Hur Hgr Hm.
  rewrite !Forall_app in Hpl. destruct Hpl as (Hla & Hlb & Hlc & Hld).
  unfold parseProcStatus. rewrite Hm, Split_joinLines by (done || by destruct la).
  rewrite statusLines_skip by done. cbn [statusLines]. unfold statusLine at 1. rewrite (proj1 (Fields_numberLine _ _ _ Hpid)), (pidLine_decimal pid) by done. cbn [ss_pid ss_uid ss_groups].
  rewrite statusLines_skip by done. cbn [statusLines]. unfold statusLine at 1.
  change (HasPrefix ("Uid:" +:+ layout cu tu) "Pid:") with false. rewrite HasPrefix_append, (uidLine_decimal uid) by done. cbn [ss_pid ss_uid ss_groups].
  rewrite statusLines_skip by done. cbn [statusLines]. unfold statusLine at 1.
  change (HasPrefix ("Groups:" +:+ layout cg tg) "Pid:") with false. change (HasPrefix ("Groups:" +:+ layout cg tg) "Uid:") with false.
  rewrite HasPrefix_append, TrimPrefix_append, Fields_layout, Hg, parseGroups_decimal by done. cbn [ss_pid ss_uid ss_groups].
  rewrite <- (app_nil_r ld), statusLines_skip by done. done.
Qed.

(** ** The kernel's history *)

Section Kernel.
Context {W : Type} `{!ProcHost W} (now : W → nat).
Context {Task : Type} (startOf : Task → Z) (occupant : nat → Z → option Task).
Context (uidAt : nat → Task → Z) (groupsAt : nat → Task → list Z).

(** What the documentation of the kernel promises: at each moment a PID names at
    most one task, which holds it for one stretch of time; two tasks that held the
    same PID did not start in the same clock tick; time does not go backwards; and
    the records under [/proc] describe the task that holds the PID as it is when
    they are written. *)
Record KernelLaws : Prop := {
  k_range : ∀ t p k, occupant t p = Some k → (0 < p < 2 ^ 32)%Z ∧ (0 ≤ startOf k < 2 ^ 64)%Z ∧ (0 ≤ uidAt t k < 2 ^ 32)%Z ∧ Forall (λ g, 0 ≤ g < 2 ^ 32)%Z (groupsAt t k);
  k_life : ∀ t1 t2 t3 p k, (t1 ≤ t2 ≤ t3)%nat → occupant t1 p = Some k → occupant t3 p = Some k → occupant t2 p = Some k;
  k_reuse : ∀ t t' p k k', occupant t p = Some k → occupant t' p = Some k' → startOf k = startOf k' → k = k';
  k_time : ∀ path w r w', procFile path w = (r, w') → (now w ≤ now w')%nat;
  k_stat : ∀ p w text w', (0 < p)%Z → procFile (procPIDPath p "stat") w = (Some text, w') →
    ∃ k, occupant (now w') p = Some k ∧ statRecord p (startOf k) text;
  k_status : ∀ p w text w', (0 < p)%Z → procFile (procPIDPath p "status") w = (Some text, w') →
    ∃ k, occupant (now w') p = Some k ∧ statusRecord p (uidAt (now w') k) (groupsAt (now w') k) text
}.

(** A process descriptor of a task: its information names the PID the task holds. *)
Definition PidfdOf (fd : Z) (peer : Task) : Prop :=
  ∀ w text w', procFile ("/proc/self/fdinfo/" +:+ decimal fd) w = (Some text, w') →
    ∃ pid, pidfdRecord pid text ∧ ∀ p, pid = Some p → occupant (now w') p = Some peer.

Hypothesis K : KernelLaws.

Lemma read_inv path limit w text w' :
  readBoundedProcFile path limit w = (Ok text, w') → procFile path w = (Some text, w') ∧ (slen text <= limit)%Z.
Proof. unfold readBoundedProcFile. destruct (procFile path w) as [[d|] v]; [|done]. destruct (Z.ltb_spec limit (slen d)); [done|]. by intros [= <- <-]. Qed.

Lemma read_later path limit w r w' : readBoundedProcFile path limit w = (r, w') → (now w ≤ now w')%nat.
Proof.
  unfold readBoundedProcFile. destruct (procFile path w) as [d v] eqn:E. apply (k_time K) in E. destruct d; intros [= _ <-]; done.
Qed.

Lemma stat_ok p text k q s :
  occupant k p = Some q → statRecord p (startOf q) text → parseProcStat text = Ok s → s = (p, startOf q) ∧ startOf q ≠ 0%Z.
Proof.
  intros Ho Hr Hs. destruct (k_range K _ _ _ Ho) as (Hp & Hst & _). destruct (malformedRecord text maxProcStatBytes) eqn:Hm.
  { unfold parseProcStat in Hs. by rewrite Hm in Hs. }
  rewrite (parseProcStat_record p (startOf q)) in Hs by done. destruct (Z.eqb_spec (startOf q) 0); [done|]. by injection Hs as <-.
Qed.

(** Reading the descriptor twice: the task held the PID at both moments. *)
Lemma pidfd_verified fd peer pid w w' :
  PidfdOf fd peer → (0 < pid)%Z → verifyPidfdTarget fd pid w = (Ok tt, w') → occupant (now w') pid = Some peer ∧ (now w ≤ now w')%nat.
Proof.
  intros Hfd Hpos H. unfold verifyPidfdTarget, pbind, plift in H. destruct (readBoundedProcFile _ _ w) as [[d|e] v] eqn:E; [|done].
  pose proof (read_later _ _ _ _ _ E) as Hle. apply read_inv in E as [E _]. destruct (Hfd _ _ _ E) as (o & Hrec & Ho).
  destruct (parsePidfdInfo d) as [q|] eqn:Hq; [|done]. destruct (Z.eqb_spec q pid); [|done]. cbn in H. injection H as <-. subst q.
  destruct (malformedRecord d maxPidfdInfoBytes) eqn:Hm.
  { unfold parsePidfdInfo in Hq. by rewrite Hm in Hq. }
  rewrite (parsePidfdInfo_record o) in Hq by (done || (intros p Hp; destruct (k_range K _ _ _ (Ho p Hp)); tauto)).
  destruct o as [p|]; [|done]. injection Hq as ->. auto.
Qed.

Lemma capture_ok fd peer credential w id w' :
  PidfdOf fd peer → socketPeerIdentity (Some credential) (Some fd) w = (Ok id, w') →
  let '(pid, uid, gid) := credential in
  id = mkPeer pid uid gid (startOf peer) ∧ (0 < pid)%Z ∧ startOf peer ≠ 0%Z ∧
  ∃ t, (now w ≤ t ≤ now w')%nat ∧ occupant t pid = Some peer.
Proof.
  destruct credential as [[pid uid] gid]. intros Hfd H. unfold socketPeerIdentity in H. destruct (fd <? 0)%Z; [done|].
  destruct (Z.leb_spec pid 0) as [|Hpos]; [done|]. unfold pbind, plift in H.
  destruct (verifyPidfdTarget fd pid w) as [[[]|] w1] eqn:E1; [|done]. destruct (pidfd_verified _ _ _ _ _ Hfd Hpos E1) as [Ho1 Hle1].
  destruct (readBoundedProcFile _ _ w1) as [[d|] w2] eqn:E2; [|done]. pose proof (read_later _ _ _ _ _ E2) as Hle2.
  destruct (parseProcStat d) as [s|] eqn:Hs; [|done]. destruct (Z.eqb_spec s.1 pid) as [Hsp|]; [|done]. cbn [negb] in H.
  destruct (verifyPidfdTarget fd pid w2) as [[[]|] w3] eqn:E3; [|done]. destruct (pidfd_verified _ _ _ _ _ Hfd Hpos E3) as [Ho3 Hle3].
  injection H as <- <-. apply read_inv in E2 as [E2 _]. destruct (k_stat K _ _ _ _ Hpos E2) as (k & Hk & Hrec).
  assert (k = peer) as ->.
  { pose proof (k_life K (now w1) (now w2) (now w3) _ _ ltac:(lia) Ho1 Ho3) as Hmid. congruence. }
  destruct (stat_ok _ _ _ _ _ Hk Hrec Hs) as [-> Hz]. split; [done|]. split; [done|]. split; [done|]. exists (now w2). split; [lia|done].
Qed.

Lemma identity_verified id peer t0 w w' :
  occupant t0 (pe_PID id) = Some peer → startOf peer = pe_StartTimeTicks id → (0 < pe_PID id)%Z →
  verifyProcStatIdentity id w = (Ok tt, w') → occupant (now w') (pe_PID id) = Some peer ∧ (now w ≤ now w')%nat.
Proof.
  intros Ho Hst Hpos H. unfold verifyProcStatIdentity, pbind, plift in H. destruct (readBoundedProcFile _ _ w) as [[d|] w1] eqn:E; [|done].
  pose proof (read_later _ _ _ _ _ E) as Hle. apply read_inv in E as [E _]. destruct (k_stat K _ _ _ _ Hpos E) as (k & Hk & Hrec).
  destruct (parseProcStat d) as [s|] eqn:Hs; [|done]. destruct (stat_ok _ _ _ _ _ Hk Hrec Hs) as [-> _]. cbn [fst snd] in H.
  destruct (Z.eqb_spec (startOf k) (pe_StartTimeTicks id)) as [Heq|]; [|by rewrite orb_true_r in H].
  rewrite Z.eqb_refl in H. cbn in H. injection H as <-. split; [|done].
  rewrite (k_reuse K _ _ _ k peer Hk Ho) in Hk by congruence. done.
Qed.

Lemma groups_ok id peer t0 w groups w' :
  occupant t0 (pe_PID id) = Some peer → startOf peer = pe_StartTimeTicks id → (0 < pe_PID id)%Z →
  processGroups id w = (Ok groups, w') →
  ∃ t, (now w ≤ t ≤ now w')%nat ∧ occupant t (pe_PID id) = Some peer ∧ uidAt t peer = pe_UID id ∧ groupsAt t peer = groups.
Proof.
  intros Ho Hst Hpos H. unfold processGroups in H. destruct (_ || _); [done|]. unfold pbind, plift in H.
  destruct (verifyProcStatIdentity id w) as [[[]|] w1] eqn:E1; [|done]. destruct (identity_verified _ _ _ _ _ Ho Hst Hpos E1) as [Ho1 Hle1].
  destruct (readBoundedProcFile _ _ w1) as [[d|] w2] eqn:E2; [|done]. pose proof (read_later _ _ _ _ _ E2) as Hle2.
  destruct (parseProcStatus d) as [[[sp su] sg]|] eqn:Hs; [|done].
  destruct (Z.eqb_spec sp (pe_PID id)) as [->|]; [|done]. destruct (Z.eqb_spec su (pe_UID id)) as [->|]; [|done]. cbn [negb orb] in H.
  destruct (verifyProcStatIdentity id w2) as [[[]|] w3] eqn:E3; [|done]. destruct (identity_verified _ _ _ _ _ Ho Hst Hpos E3) as [Ho3 Hle3].
  injection H as <- <-. apply read_inv in E2 as [E2 _]. destruct (k_status K _ _ _ _ Hpos E2) as (k & Hk & Hrec).
  assert (k = peer) as ->.
  { pose proof (k_life K (now w1) (now w2) (now w3) _ _ ltac:(lia) Ho1 Ho3) as Hmid. congruence. }
  destruct (k_range K _ _ _ Hk) as (Hp & _ & Hu & Hg). destruct (malformedRecord d maxProcStatusBytes) eqn:Hm.
  { unfold parseProcStatus in Hs. by rewrite Hm in Hs. }
  rewrite (parseProcStatus_record _ _ _ _ Hrec) in Hs by done. injection Hs as Hu' Hg'. exists (now w2). repeat split; [lia|lia|done|done|done].
Qed.

(** What authorization means: the task itself belonged, by its user, its group at
    the time of the connection, or one of its groups at a moment of the check. *)
Definition memberAt (group uid gid : Z) (peer : Task) (t : nat) : Prop :=
  uidAt t peer = uid ∧ (uid = 0%Z ∨ gid = group ∨ group ∈ groupsAt t peer).

Lemma authorize_ok group id peer t0 w w' :
  occupant t0 (pe_PID id) = Some peer → startOf peer = pe_StartTimeTicks id → (0 < pe_PID id)%Z →
  Authorize None group id w = (Ok tt, w') →
  ∃ t, (now w ≤ t ≤ now w')%nat ∧ occupant t (pe_PID id) = Some peer ∧ memberAt group (pe_UID id) (pe_GID id) peer t.
Proof.
  intros Ho Hst Hpos H. unfold Authorize in H. destruct (processGroups id w) as [[groups|] w1] eqn:E; [|done].
  destruct (groups_ok _ _ _ _ _ _ Ho Hst Hpos E) as (t & Ht & Hk & Hu & Hg). destruct (_ || _) eqn:Hm; [|done]. injection H as <-.
  exists t. split; [done|]. split; [done|]. split; [done|]. rewrite Hg.
  apply orb_true_iff in Hm as [[Hm|Hm]%orb_true_iff|Hm]; [left|right; left|right; right]; [lia|lia|].
  apply existsb_exists in Hm as (g & Hin & ->%Z.eqb_eq). by apply list_elem_of_In.
Qed.

(** C36: A request of the daemon reaches its handler only for a member.  The
    connection was made by the task [peer], whose descriptor the socket gave; the
    handshake then recorded its identity.  Whatever happened to the process since,
    whoever holds its PID now, and whatever the process is called, a request over
    that connection is refused, or, at a moment between its arrival and the call of
    the handler, that same task held its PID, ran as the user the socket named, and
    that user was root or the task was in the group of the daemon.  The handler gets
    that identity and no more than the time of its method. *)
Theorem only_members_are_served {A} fd peer credential w0 id w1 group FullMethod handler w2 (r : result string A) w3 :
  PidfdOf fd peer → socketPeerIdentity (Some credential) (Some fd) w0 = (Ok id, w1) →
  StreamInterceptor None group FullMethod (peerAuthInfo id) handler w2 = (r, w3) →
  let '(pid, uid, gid) := credential in
  id = mkPeer pid uid gid (startOf peer) ∧
  (r = Err "AUTHORIZATION_DENIED" ∨
   ∃ w t, handler id (streamMaximum FullMethod) w = (r, w3) ∧
     (now w2 ≤ t ≤ now w)%nat ∧ occupant t pid = Some peer ∧ memberAt group uid gid peer t).
Proof.
  destruct credential as [[pid uid] gid]. intros Hfd Hc Hi. destruct (capture_ok _ _ _ _ _ _ Hfd Hc) as (-> & Hpos & _ & t0 & _ & Ho).
  split; [done|]. unfold StreamInterceptor, intercept in Hi. cbn [authenticatedIdentity] in Hi.
  destruct (Authorize None group _ w2) as [[[]|] w] eqn:E; [right|left; by injection Hi].
  destruct (authorize_ok group (mkPeer pid uid gid (startOf peer)) peer t0 w2 w Ho eq_refl Hpos E) as (t & Ht & Hk & Hm). exists w, t. done.
Qed.

(** The subject given to Polkit names the same task. *)
Lemma polkit_subject_ok fd peer credential w0 id w1 w2 subject w3 :
  PidfdOf fd peer → socketPeerIdentity (Some credential) (Some fd) w0 = (Ok id, w1) → polkitProcessSubject id w2 = (Ok subject, w3) →
  subject = decimal credential.1.1 +:+ "," +:+ decimal (startOf peer) +:+ "," +:+ decimal credential.1.2 ∧
  ∃ t, (now w2 ≤ t ≤ now w3)%nat ∧ occupant t credential.1.1 = Some peer ∧ uidAt t peer = credential.1.2.
Proof.
  destruct credential as [[pid uid] gid]. intros Hfd Hc Hp. destruct (capture_ok _ _ _ _ _ _ Hfd Hc) as (-> & Hpos & _ & t0 & _ & Ho).
  unfold polkitProcessSubject in Hp. destruct (processGroups _ w2) as [[gs|] w] eqn:E; [|done]. injection Hp as <- <-.
  destruct (groups_ok (mkPeer pid uid gid (startOf peer)) peer t0 w2 gs w Ho eq_refl Hpos E) as (t & Ht & Hk & Hu & _). split; [done|]. by exists t.
Qed.

End Kernel.

(** ** A process with a misleading name *)

Definition exampleStat : string :=
  "42 (x) S 1 (y) R 1 1 1 0 -1 4194304 1 0 0 0 1 1 0 0 20 0 1 0 9000 1 1" +:+ lineEnd.
Definition exampleStatus : string :=
  joinLines ["Name:	x) S 1 (y"; "Pid:	42"; "PPid:	1"; "Uid:	1000	1000	1000	1000"; "Gid:	100	100	100	100"; "Groups:	27 993 "; ""].
Definition examplePidfd : string := joinLines ["pos:	0"; "flags:	02000002"; "Pid:	42"; "NSpid:	42"; ""].

#[local] Instance exampleProc : ProcHost nat := {|
  procFile path w :=
    ((if bool_decide (path = "/proc/42/stat") then Some exampleStat
      else if bool_decide (path = "/proc/42/status") then Some exampleStatus
      else if bool_decide (path = "/proc/self/fdinfo/7") then Some examplePidfd
      else None), S w) |}.

Definition exampleOccupant (t : nat) (p : Z) : option unit := if (p =? 42)%Z then Some tt else None.

Lemma procPIDPath_cut p name literal : procPIDPath p name = "/proc/" +:+ literal → Cut "/" literal = (decimal p, name, true).
Proof.
  unfold procPIDPath. intros H. apply Cut_found. split; [|by apply digits_noByte, decimal_digits].
  injection H as H. by rewrite append_cons, append_nil_l in H.
Qed.

Lemma decimal_inj p q : (0 ≤ p)%Z → (0 ≤ q)%Z → decimal p = decimal q → p = q.
Proof. intros Hp Hq H. apply decimal_value in Hp, Hq. congruence. Qed.

#[local] Ltac cells := repeat (apply Forall_cons; split); try apply Forall_nil; repeat split; try reflexivity; try discriminate.

Definition exampleCells : list (string * string) :=
  map (pair " ") ["R"; "1"; "1"; "1"; "0"; "-1"; "4194304"; "1"; "0"; "0"; "0"; "1"; "1"; "0"; "0"; "20"; "0"; "1"; "0"; "9000"; "1"; "1"].

Lemma exampleStat_record : statRecord 42 9000 exampleStat.
Proof. exists "x) S 1 (y", exampleCells, lineEnd. split; [done|]. split; [unfold exampleCells; cells|]. split; [done|]. split; [unfold exampleCells; cells|done]. Qed.

Definition tabByte : string := String "009" "".

Lemma exampleStatus_record : statusRecord 42 1000 [27; 993]%Z exampleStatus.
Proof.
  exists ["Name:	x) S 1 (y"], "Pid:	42", ["PPid:	1"], "Uid:	1000	1000	1000	1000", ["Gid:	100	100	100	100"], "Groups:	27 993 ", [""].
  exists (map (pair tabByte) ["1000"; "1000"; "1000"; "1000"]), "", [(tabByte, "27"); (" ", "993")], " ".
  split; [done|]. split; [cells|]. split; [cells|]. split; [exists tabByte, ""; by cells|]. split; [done|]. split; [cells|]. do 4 (split; [done|]). split; [cells|]. done.
Qed.

Lemma examplePidfd_record : pidfdRecord (Some 42%Z) examplePidfd.
Proof. exists ["pos:	0"; "flags:	02000002"], "Pid:	42", ["NSpid:	42"; ""]. split; [done|]. split; [cells|]. split; [cells|]. exists tabByte, "". by cells. Qed.

Lemma examplePath p name text w w' :
  (0 < p)%Z → procFile (procPIDPath p name) w = (Some text, w') →
  p = 42%Z ∧ (name = "stat" ∧ text = exampleStat ∨ name = "status" ∧ text = exampleStatus).
Proof.
  intros Hp. cbn. repeat (destruct (bool_decide _) eqn:E; [apply bool_decide_eq_true in E|clear E]).
  - intros [= <- _]. apply (procPIDPath_cut p name "42/stat") in E. vm_compute (Cut _ _) in E. injection E as Hd Hn.
    apply (decimal_inj 42) in Hd; [auto|lia|lia].
  - intros [= <- _]. apply (procPIDPath_cut p name "42/status") in E. vm_compute (Cut _ _) in E. injection E as Hd Hn.
    apply (decimal_inj 42) in Hd; [auto|lia|lia].
  - apply (procPIDPath_cut p name "self/fdinfo/7") in E. vm_compute (Cut _ _) in E. injection E as Hd _.
    pose proof (decimal_digits p) as H. by rewrite <- Hd in H.
  - done.
Qed.

Lemma exampleKernel : KernelLaws (λ w : nat, w) (λ _ : unit, 9000%Z) exampleOccupant (λ _ _, 1000%Z) (λ _ _, [27; 993]%Z).
Proof.
  constructor.
  - intros t p k. unfold exampleOccupant. destruct (Z.eqb_spec p 42) as [->|]; [|done]. intros _. repeat split; try lia. cells; lia.
  - done.
  - by intros ?? ? [] [].
  - intros path w r w' [= _ <-]. lia.
  - intros p w text w' Hp H. destruct (examplePath _ _ _ _ _ Hp H) as [-> [[_ ->]|[? _]]]; [|done]. exists tt. split; [done|apply exampleStat_record].
  - intros p w text w' Hp H. destruct (examplePath _ _ _ _ _ Hp H) as [-> [[? _]|[_ ->]]]; [done|]. exists tt. split; [done|apply exampleStatus_record].
Qed.

Lemma examplePidfdOf : PidfdOf (λ w : nat, w) exampleOccupant 7 tt.
Proof. intros w text w' [= <- <-]. exists (Some 42%Z). split; [apply examplePidfd_record|]. by intros p [= <-]. Qed.

Lemma only_members_are_served_witness :
  socketPeerIdentity (Some (42, 1000, 100)%Z) (Some 7%Z) 0%nat = (Ok (mkPeer 42 1000 100 9000), 3%nat) ∧
  StreamInterceptor None 993 "/privatevm.v1.PrivateVMDaemonService/AddTorrent" (peerAuthInfo (mkPeer 42 1000 100 9000)) (λ _ limit w, (Ok limit, w)) 3%nat = (Ok (120 * second)%Z, 6%nat) ∧
  (∃ w t : nat, w = 6%nat ∧ (3 ≤ t ≤ w)%nat ∧ exampleOccupant t 42 = Some tt ∧
     memberAt (λ _ _, 1000%Z) (λ _ _, [27; 993]%Z) 993 1000 100 tt t).
Proof.
  assert (socketPeerIdentity (Some (42, 1000, 100)%Z) (Some 7%Z) 0%nat = (Ok (mkPeer 42 1000 100 9000), 3%nat)) as H1 by (vm_compute; reflexivity).
  assert (StreamInterceptor None 993 "/privatevm.v1.PrivateVMDaemonService/AddTorrent" (peerAuthInfo (mkPeer 42 1000 100 9000)) (λ _ limit w, (Ok limit, w)) 3%nat = (Ok (120 * second)%Z, 6%nat)) as H2 by (vm_compute; reflexivity).
  split; [exact H1|]. split; [exact H2|].
  destruct (only_members_are_served _ _ _ _ _ exampleKernel _ _ _ _ _ _ _ _ _ _ _ _ examplePidfdOf H1 H2) as [_ [Hd|(w & t & Hh & Ht & Ho & Hm)]]; [discriminate Hd|].
  injection Hh as Hh. exists w, t. auto.
Defined.
