(* ===== verification/QemuProcess.v ===== *)
(** * The QEMU process

    Models [src/internal/qemu/process.go], [cgroup.go] and [session.go]: placing a
    guest's process in its control group, launching it, and supervising it until it
    is gone.  The launch is a function of the answers of the host.  From the moment
    the owner of the process waits for it, several threads share the process: the
    owner, the watcher of the QMP connection, the end of the launch and the callers
    of [Stop]; each of their sections is a step, and steps interleave freely. *)

From Stdlib Require Import ZArith Lia Ascii.
From stdpp Require Import strings base tactics option list sets.
From S2P Require Import Prelude GoText SessionModel Netip NetipText QemuSpec StorageScratch.

Open Scope string_scope.
Open Scope list_scope.

(** ** Control groups *)

Record CgroupLimits := mkLimits { cl_MemoryBytes : Z; cl_VCPUs : Z; cl_PIDs : Z }.

(** [^[a-z0-9][a-z0-9-]{1,47}$] *)
Definition lowerDigit (c : ascii) : bool := between "a"%char "z"%char c || is_digit c.
Definition cgroupSessionPattern : string → bool := match_head_tail lowerDigit (λ c, lowerDigit c || char_eqb c "-"%char) 1 47.

Inductive removal := Removed | RemoveMissing | RemoveFailed.

Class CgroupHost (W : Type) := {
  cgMkdir : string → W → bool * W;
  cgWrite : string → string → W → removal * W;      (* written, missing, or failed *)
  cgRemove : string → W → removal * W;
  cgMissing : string → W → bool * W;                (* [Stat] says that it does not exist *)
  cgDone : W → bool * W                             (* the context is done *)
}.

Inductive cg_call := CgMkdir (path : string) | CgWrite (path value : string) | CgRemove (path : string).

Section Cgroups.
Context {W : Type} `{!CgroupHost W}.

(** The host and the calls that succeeded, newest first. *)
Record CG := mkCG { cg_world : W; cg_log : list cg_call }.

Definition cgDo (f : W → bool * W) (c : cg_call) (s : CG) : bool * CG :=
  let '(ok, w) := f (cg_world s) in (ok, mkCG w (if ok then c :: cg_log s else cg_log s)).
Definition cgTry (f : W → removal * W) (c : cg_call) (s : CG) : removal * CG :=
  let '(r, w) := f (cg_world s) in (r, mkCG w (match r with Removed => c :: cg_log s | _ => cg_log s end)).

Definition settings (limits : CgroupLimits) (pid : Z) : list (string * string) :=
  [("memory.max", decimal (cl_MemoryBytes limits)); ("memory.swap.max", "0"); ("pids.max", decimal (cl_PIDs limits));
   ("cpu.max", decimal (wrap64 (cl_VCPUs limits * 100000)) +:+ " 100000"); ("cgroup.procs", decimal pid)].

Fixpoint writeSettings (path : string) (todo : list (string * string)) (s : CG) : bool * CG :=
  match todo with
  | [] => (true, s)
  | (name, value) :: todo =>
      match cgTry (cgWrite (joinPath [path; name]) value) (CgWrite (joinPath [path; name]) value) s with
      | (Removed, s) => writeSettings path todo s
      | (_, s) => (false, s)
      end
  end.

Definition removeScope (path : string) (s : CG) : CG := (cgTry (cgRemove path) (CgRemove path) s).2.

Definition scopePath (root sessionID : string) : string := joinPath [root; "private-vm-" +:+ sessionID +:+ ".scope"].

Definition Place (root sessionID : string) (pid : Z) (limits : CgroupLimits) (s : CG) : result string string * CG :=
  if negb (IsAbs root) || negb (bool_decide (Clean root = root)) then (Err "cgroup root must be a clean absolute path", s)
  else if negb (cgroupSessionPattern sessionID) || (pid <=? 1)%Z then (Err "invalid internal cgroup identity", s)
  else if (cl_MemoryBytes limits <? 536870912)%Z || (cl_VCPUs limits <? 1)%Z || (64 <? cl_VCPUs limits)%Z then (Err "invalid cgroup resource limits", s)
  else
    let limits := if (cl_PIDs limits =? 0)%Z then mkLimits (cl_MemoryBytes limits) (cl_VCPUs limits) 256 else limits in
    let path := scopePath root sessionID in
    match cgDo (cgMkdir path) (CgMkdir path) s with
    | (false, s) => (Err "create delegated QEMU cgroup", s)
    | (true, s) =>
        match writeSettings path (settings limits pid) s with
        | (false, s) => (Err "configure delegated QEMU cgroup", removeScope path s)
        | (true, s) =>
            let '(done, w) := cgDone (cg_world s) in
            let s := mkCG w (cg_log s) in
            if done then (Err "context done", removeScope path s) else (Ok path, s)
        end
    end.

(** The loop of the removal, with the number of ticks before the context is done
    at the latest. *)
Fixpoint removeLoop (ticks : nat) (path : string) (s : CG) : result string unit * CG :=
  match cgTry (cgRemove path) (CgRemove path) s with
  | (RemoveFailed, s) =>
      match ticks with
      | O => (Err "remove delegated QEMU cgroup", s)
      | S ticks =>
          let '(done, w) := cgDone (cg_world s) in
          let s := mkCG w (cg_log s) in
          if done then (Err "remove delegated QEMU cgroup", s) else removeLoop ticks path s
      end
  | (_, s) => (Ok tt, s)
  end.

Definition CleanupCgroup (ticks : nat) (path : string) (s : CG) : result string unit * CG :=
  let '(missing, w) := cgMissing path (cg_world s) in
  let s := mkCG w (cg_log s) in
  if missing then (Ok tt, s)
  else match cgTry (cgWrite (joinPath [path; "cgroup.kill"]) "1") (CgWrite (joinPath [path; "cgroup.kill"]) "1") s with
       | (RemoveFailed, s) => (Err "kill delegated QEMU cgroup", s)
       | (_, s) => removeLoop ticks path s
       end.

End Cgroups.

(** ** The launch *)

Record ProcessIdentity := mkIdentity { pi_PID : Z; pi_StartTimeTicks : Z; pi_ExecutableDev : Z; pi_ExecutableInode : Z; pi_CgroupPath : string }.

(** What [Stat] says of an executable: its attributes and its identity. *)
Record ExeInfo := mkExeInfo { ei_Info : HostInfo; ei_Dev : Z; ei_Ino : Z }.

(** The start time of a [/proc/PID/stat] record: field 22. *)
Fixpoint lastCloseParen (s : string) : option string :=
  match s with
  | EmptyString => None
  | String c r => match lastCloseParen r with Some after => Some after | None => if char_eqb c ")"%char then Some r else None end
  end.

Definition parseStartTime (data : string) : result string Z :=
  match lastCloseParen data with
  | None => Err "process stat record is malformed"
  | Some after =>
      let fields := Fields after in
      fail_if (len fields <=? 19)%Z with "process stat record is incomplete" ;;
      match ParseUint (default "" (fields !! 19%nat)) 64 with Some v => Ok v | None => Err "process start time is invalid" end
  end.

Class LaunchHost (W : Type) := {
  lhStart : string → list string → W → option Z * W;      (* the PID of the started command *)
  lhKill : W → bool * W;
  lhReap : W → bool * W;                                   (* [command.Process.Wait] *)
  lhStat : Z → W → option string * W;                      (* /proc/PID/stat *)
  lhExecutable : Z → W → option ExeInfo * W;               (* /proc/PID/exe *)
  lhBinary : string → W → option ExeInfo * W;              (* the expected binary *)
  lhPidfd : Z → W → bool * W;
  lhClosePidfd : W → bool * W;
  lhQMP : string → Z → W → bool * W;                       (* a connection whose peer is the process *)
  lhExited : W → bool * W;                                 (* the owner saw the process end *)
  lhCloseQMP : W → bool * W;
  lhSocket : string → W → bool * W;                        (* the socket is there and secured *)
  lhWait : W → bool * W                                    (* [Process.Wait] returns, without an error *)
}.

(** The calls that succeeded: what was asked, and the answer. *)
Inductive launch_call :=
| LStarted (binary : string) (args : list string) (pid : Z)
| LStat (pid : Z) (data : string)
| LExecutable (pid : Z) (info : ExeInfo)
| LBinary (path : string) (info : ExeInfo)
| LPidfd (pid : Z)
| LPlaced (path : string)
| LSupervised
| LConnected (socket : string) (pid : Z)
| LDisplayed (socket : string)
| LKilled
| LReaped
| LWaited.

Section Launching.
Context {W : Type} `{!LaunchHost W} `{!CgroupHost W}.
Context (unicodeLower : N → N) (fs : HostFiles) (cgroupRoot : string).

Record LS := mkLS { la_world : W; la_log : list launch_call; la_cgroups : list cg_call }.

Definition lq {A} (f : W → A * W) (s : LS) : A * LS := let '(a, w) := f (la_world s) in (a, mkLS w (la_log s) (la_cgroups s)).
Definition lnote (c : launch_call) (s : LS) : LS := mkLS (la_world s) (c :: la_log s) (la_cgroups s).

Definition LM (A : Type) : Type := LS → result string A * LS.
Definition lbind {A B} (m : LM A) (k : A → LM B) : LM B := λ s, match m s with (Ok a, s) => k a s | (Err e, s) => (Err e, s) end.
Definition lret {A} (r : result string A) : LM A := λ s, (r, s).
Definition lask {A} (f : W → option A * W) (c : A → launch_call) (e : string) : LM A := λ s,
  let '(a, s) := lq f s in match a with Some a => (Ok a, lnote (c a) s) | None => (Err e, s) end.
Definition lmust (f : W → bool * W) (c : launch_call) (e : string) : LM unit := λ s, let '(ok, s) := lq f s in if ok : bool then (Ok tt, lnote c s) else (Err e, s).

(** The calls of the host, each noted with what it was asked. *)
Definition lstart (binary : string) (args : list string) : LM Z := lask (lhStart binary args) (LStarted binary args) "start QEMU".
Definition lstat (pid : Z) : LM string := lask (lhStat pid) (LStat pid) "read process start time".
Definition lexecutable (pid : Z) : LM ExeInfo := lask (lhExecutable pid) (LExecutable pid) "inspect QEMU executable identity".
Definition lbinary (path : string) : LM ExeInfo := lask (lhBinary path) (LBinary path) "inspect expected QEMU binary".
Definition lpidfd (pid : Z) : LM unit := lmust (lhPidfd pid) (LPidfd pid) "open QEMU pidfd".
Definition lqmp (socket : string) (pid : Z) : LM unit := lmust (lhQMP socket pid) (LConnected socket pid) "QMP".
Definition lsocket (socket : string) : LM unit := lmust (lhSocket socket) (LDisplayed socket) "SPICE startup failed".
Definition lmark (c : launch_call) : LM unit := λ s, (Ok tt, lnote c s).

#[local] Notation "'do' x := m ; k" := (lbind m (λ x, k)) (at level 100, x binder, m at level 99, right associativity).

Definition processStartTime (pid : Z) : LM Z := do data := lstat pid ; lret (parseStartTime data).

Definition inspectProcessIdentity (pid : Z) (expectedBinary : string) : LM ProcessIdentity :=
  do _ := lret (validateExecutable fs expectedBinary) ;
  do start := processStartTime pid ;
  do info := lexecutable pid ;
  do _ := lret (validateExecutableInfo fs (ei_Info info)) ;
  do expected := lbinary expectedBinary ;
  lret (fail_if (negb (ei_Dev info =? ei_Dev expected)%Z || negb (ei_Ino info =? ei_Ino expected)%Z) with "started process executable does not match verified QEMU binary" ;;
        Ok (mkIdentity pid start (ei_Dev info) (ei_Ino info) "")).

Definition verifyProcessIdentity (i : ProcessIdentity) : LM unit :=
  do start := processStartTime (pi_PID i) ;
  do _ := lret (fail_if (negb (start =? pi_StartTimeTicks i)%Z) with "refusing to signal a reused process ID" ;; Ok tt) ;
  do info := lexecutable (pi_PID i) ;
  do _ := lret (validateExecutableInfo fs (ei_Info info)) ;
  lret (fail_if (negb (ei_Dev info =? pi_ExecutableDev i)%Z || negb (ei_Ino info =? pi_ExecutableInode i)%Z) with "refusing to signal a process with changed executable identity" ;; Ok tt).

Definition place (spec : Spec) (pid : Z) : LM string := λ s,
  let '(r, c) := Place cgroupRoot (sp_SessionID spec) pid (mkLimits (sp_MemoryBytes spec) (sp_CPUs spec) 256) (mkCG (la_world s) (la_cgroups s)) in
  (r, mkLS (cg_world c) (la_log s) (cg_log c)).

(** The deferred rollback; whether the owner already waits decides who reaps. *)
Definition rollback (waitStarted : bool) (e : string) (s : LS) : result string ProcessIdentity * LS :=
  let s := lnote LKilled (lq lhKill s).2 in
  if waitStarted then
    let '(ok, s) := lq lhWait s in
    (Err (if ok then e else e +:+ "QEMU launch rollback cleanup was incomplete"), lnote LWaited s)
  else (Err e, lnote LReaped (lq lhReap s).2).

(** Until the owner waits. *)
Definition launchEarly (spec : Spec) (pid : Z) : LM ProcessIdentity :=
  do ident := inspectProcessIdentity pid (sp_Binary spec) ;
  do _ := lpidfd pid ;
  do path := (λ s, match place spec pid s with (Err e, s) => (Err e, (lq lhClosePidfd s).2) | r => r end) ;
  do _ := lmark (LPlaced path) ;
  lret (Ok (mkIdentity (pi_PID ident) (pi_StartTimeTicks ident) (pi_ExecutableDev ident) (pi_ExecutableInode ident) path)).

Definition launchLate (spec : Spec) (ident : ProcessIdentity) : LM ProcessIdentity :=
  do _ := lmark LSupervised ;
  do _ := lqmp (sp_QMPSocket spec) (pi_PID ident) ;
  do gone := (λ s, let '(b, s) := lq lhExited s in (Ok b, s)) ;
  if gone : bool then (λ s, (Err "QEMU exited during QMP startup", (lq lhCloseQMP s).2))
  else if bool_decide (sp_SPICESocket spec = "") then lret (Ok ident)
  else
    do _ := lsocket (sp_SPICESocket spec) ;
    lret (Ok ident).

Definition Launch (spec : Spec) (capability tap : bool) : LM ProcessIdentity := λ s,
  if negb capability then (Err "inherited fw_cfg capability file is required", s)
  else if negb (Bool.eqb (sp_Networked spec) tap) then (Err "inherited TAP descriptor does not match the typed QEMU role", s)
  else match QemuSpec.Validate fs spec with
       | Err e => (Err e, s)
       | Ok _ =>
           if negb (sp_FWCfgTokenFD spec =? 3)%Z then (Err "fw_cfg capability must be the first inherited descriptor", s)
           else match QemuSpec.Args unicodeLower fs spec with
                | Err e => (Err e, s)
                | Ok args =>
                    match lstart (sp_Binary spec) args s with
                    | (Err e, s) => (Err e, s)
                    | (Ok pid, s) =>
                        match launchEarly spec pid s with
                        | (Err e, s) => rollback false e s
                        | (Ok ident, s) =>
                            match launchLate spec ident s with
                            | (Err e, s) => rollback true e s
                            | (Ok ident, s) => (Ok ident, s)
                            end
                        end
                    end
                end
       end.

End Launching.

(** ** Supervision *)

(** How the wait for the command ends: well, with the exit error of a process that
    ended badly, or with another error. *)
Inductive exitStatus := ExitClean | ExitError | WaitFailed.

(** An error is the list of the errors it joins; none is [[]]. *)
Definition errors := list string.
Definition unexpectedExit : string := "QEMU exited unexpectedly".
Definition qmpLost : string := "QMP supervision connection was lost".

Record Process := mkProcess {
  pr_sockets : list string;
  pr_pidfd : bool;
  pr_qmp : bool;
  pr_expectedStop : bool;
  pr_failure : errors;
  pr_processExited : bool;
  pr_waitDone : bool;
  pr_waitErr : errors;
  pr_cleanupErr : errors
}.

Definition set_pidfd (b : bool) (p : Process) := mkProcess (pr_sockets p) b (pr_qmp p) (pr_expectedStop p) (pr_failure p) (pr_processExited p) (pr_waitDone p) (pr_waitErr p) (pr_cleanupErr p).
Definition set_qmp (b : bool) (p : Process) := mkProcess (pr_sockets p) (pr_pidfd p) b (pr_expectedStop p) (pr_failure p) (pr_processExited p) (pr_waitDone p) (pr_waitErr p) (pr_cleanupErr p).
Definition set_expectedStop (p : Process) := mkProcess (pr_sockets p) (pr_pidfd p) (pr_qmp p) true (pr_failure p) (pr_processExited p) (pr_waitDone p) (pr_waitErr p) (pr_cleanupErr p).
Definition set_failure (e : errors) (p : Process) := mkProcess (pr_sockets p) (pr_pidfd p) (pr_qmp p) (pr_expectedStop p) e (pr_processExited p) (pr_waitDone p) (pr_waitErr p) (pr_cleanupErr p).
Definition set_exited (p : Process) := mkProcess (pr_sockets p) (pr_pidfd p) (pr_qmp p) (pr_expectedStop p) (pr_failure p) true (pr_waitDone p) (pr_waitErr p) (pr_cleanupErr p).
Definition publish (err cleanup : errors) (p : Process) :=
  mkProcess (pr_sockets p) (pr_pidfd p) (pr_qmp p) (pr_expectedStop p) (pr_failure p) (pr_processExited p) true (pr_failure p ++ err ++ cleanup) cleanup.

(** *** The owner *)

(** Where [waitOwner] is, with its local error. *)
Inductive owner :=
| OWaiting
| OExited (status : exitStatus)
| OClassified (err : errors)
| OQMPClosed (err : errors)
| OPidfdClosed (err : errors)
| OCleaned (err cleanup : errors)
| ODone.

(** What the host answers to the owner: the end of the process, and which removals
    of sockets and of the control group succeed. *)
Record ownerAnswer := mkOwnerAnswer { oa_status : exitStatus; oa_socket : string → bool; oa_cgroup : bool }.

Definition classify (expectedStop : bool) (status : exitStatus) : errors :=
  match status, expectedStop with
  | ExitClean, true => []
  | ExitClean, false => [unexpectedExit]
  | ExitError, true => []
  | ExitError, false => ["exit status"]
  | WaitFailed, _ => ["wait"]
  end.

(** Each socket that cannot be removed is an error. *)
Definition socketErrors (removed : string → bool) (sockets : list string) : errors := flat_map (λ path, if removed path then [] else ["runtime socket"]) sockets.

Definition ownerStep (a : ownerAnswer) (o : owner) (p : Process) : owner * Process :=
  match o with
  | OWaiting => (OExited (oa_status a), set_exited p)
  | OExited status => (OClassified (classify (pr_expectedStop p) status), p)
  | OClassified err => (OQMPClosed err, set_qmp false p)
  | OQMPClosed err => (OPidfdClosed err, set_pidfd false p)
  | OPidfdClosed err => (OCleaned err (socketErrors (oa_socket a) (pr_sockets p) ++ (if oa_cgroup a then [] else ["cgroup"])), p)
  | OCleaned err cleanup => (ODone, publish err cleanup p)
  | ODone => (ODone, p)
  end.

(** *** Stopping *)

Inductive sendResult := Sent | SendESRCH | SendFailed.
Inductive signalResult := SignalOk | SignalDone | SignalFailed.

(** What the host answers to a caller of [Stop]: a wait that the timer or the
    context ends first, whether the caller's context is done, a signal through the
    descriptor, the verification of the identity, and a signal to the process. *)
Record stopAnswer := mkStopAnswer { sa_waited : bool; sa_contextDone : bool; sa_pidfd : sendResult; sa_verified : bool; sa_signal : signalResult }.

(** Where [Stop] is; [qmp] is the connection it took. *)
Inductive stopper :=
| SBegun
| SWaitGrace (qmp : bool)
| SWaitQuit
| STerm (callerErr : errors)
| SWaitTerm (callerErr : errors)
| SKill (callerErr : errors)
| SWaitKill (callerErr : errors).

(** A section of [Stop] leads to another one, or returns. *)
Inductive progress := Continue (t : stopper) | Return (r : errors).

(** [waitForDone]: it may miss a closed channel, never see an open one as closed. *)
Definition waitForDone (a : stopAnswer) (p : Process) : bool := sa_waited a && pr_waitDone p.

(** The signal, and whether one went to the process by its PID. *)
Definition signal (a : stopAnswer) (reaped : bool) (p : Process) : signalResult :=
  let send := if reaped then SendESRCH else sa_pidfd a in
  match pr_pidfd p, send with
  | true, Sent | true, SendESRCH => SignalOk
  | _, _ => if negb (sa_verified a) then SignalFailed else if reaped then SignalDone else sa_signal a
  end.

Definition beginStop (p : Process) : progress * Process :=
  let p := set_expectedStop p in
  if pr_waitDone p then (Return (pr_waitErr p), p) else (Continue SBegun, p).

Definition stopStep (a : stopAnswer) (reaped : bool) (t : stopper) (p : Process) : progress :=
  match t with
  | SBegun => Continue (SWaitGrace (pr_qmp p))
  | SWaitGrace qmp =>
      if waitForDone a p then Return (pr_waitErr p)
      else
        let callerErr := if sa_contextDone a then ["context done"] else [] in
        if negb (sa_contextDone a) && qmp then Continue SWaitQuit else Continue (STerm callerErr)
  | SWaitQuit => if waitForDone a p then Return (pr_waitErr p) else Continue (STerm [])
  | STerm callerErr => match signal a reaped p with SignalFailed => Return ["signal"] | _ => Continue (SWaitTerm callerErr) end
  | SWaitTerm callerErr => if waitForDone a p then Return (callerErr ++ pr_waitErr p) else Continue (SKill callerErr)
  | SKill callerErr => match signal a reaped p with SignalFailed => Return ["signal"] | _ => Continue (SWaitKill callerErr) end
  | SWaitKill callerErr => Return (callerErr ++ (if waitForDone a p then pr_waitErr p else ["context done"]))
  end.

(** *** The watcher and the end of the launch *)

(** Where [watchQMP] is: it has no connection yet, waits for it to end, saw it end
    while nobody was stopping the process, recorded the failure, or is done. *)
Inductive watcher := WNone | WWatching | WLost | WStopping | WFinished.

Definition watchQMP (t : watcher) (p : Process) : option (watcher * Process) :=
  match t with
  | WWatching => Some (if pr_expectedStop p || pr_processExited p then WFinished else WLost, p)
  | WLost => Some (WStopping, set_failure (pr_failure p ++ [qmpLost]) p)
  | _ => None
  end.

(** The section of the launch that stores the connection; it is closed at once
    when the process has already ended. *)
Definition storeQMP (p : Process) : Process * bool :=
  if pr_processExited p then (set_expectedStop (set_qmp false p), false) else (set_qmp true p, true).

Definition WaitProcess (p : Process) : option errors := if pr_waitDone p then Some (pr_waitErr p) else None.
Definition CleanupProcess (p : Process) : option errors := if pr_waitDone p then Some (pr_cleanupErr p) else None.
Definition AuditProcess (p : Process) : errors := if negb (pr_waitDone p) then ["QEMU cleanup has not completed"] else pr_cleanupErr p.

(** *** The interleaving *)

(** What the threads share and where they are.  At most one caller is inside
    [Stop]; [sy_returned] holds what the finished calls returned. *)
Record Sys := mkSys {
  sy_process : Process;
  sy_owner : owner;
  sy_stopper : option stopper;
  sy_watcher : watcher;
  sy_returned : list errors
}.

Definition reaped (s : Sys) : bool := match sy_owner s with OWaiting => false | _ => true end.

Inductive event :=
| EvOwner (a : ownerAnswer)
| EvStore                             (* the launch stores the QMP connection *)
| EvAbandon                           (* the launch fails: the end is expected *)
| EvWatch                             (* the connection ended; the watcher goes on *)
| EvBegin (byWatcher : bool)          (* a call of [Stop] takes its lock *)
| EvStop (a : stopAnswer).            (* the next section of that call *)

Definition run (e : event) (s : Sys) : option Sys :=
  match e with
  | EvOwner a =>
      let '(o, p) := ownerStep a (sy_owner s) (sy_process s) in
      Some (mkSys p o (sy_stopper s) (sy_watcher s) (sy_returned s))
  | EvStore =>
      match sy_watcher s with
      | WNone => let '(p, stored) := storeQMP (sy_process s) in
                 Some (mkSys p (sy_owner s) (sy_stopper s) (if stored then WWatching else WFinished) (sy_returned s))
      | _ => None
      end
  | EvAbandon => Some (mkSys (set_expectedStop (sy_process s)) (sy_owner s) (sy_stopper s) (sy_watcher s) (sy_returned s))
  | EvWatch =>
      match watchQMP (sy_watcher s) (sy_process s) with
      | Some (t, p) => Some (mkSys p (sy_owner s) (sy_stopper s) t (sy_returned s))
      | None => None
      end
  | EvBegin byWatcher =>
      match sy_stopper s, byWatcher, sy_watcher s with
      | None, true, WStopping | None, false, _ =>
          let '(t, p) := beginStop (sy_process s) in
          let w := if byWatcher then WFinished else sy_watcher s in
          Some (match t with
                | Return r => mkSys p (sy_owner s) None w (r :: sy_returned s)
                | Continue t => mkSys p (sy_owner s) (Some t) w (sy_returned s)
                end)
      | _, _, _ => None
      end
  | EvStop a =>
      match sy_stopper s with
      | None => None
      | Some t =>
          Some (match stopStep a (reaped s) t (sy_process s) with
                | Return r => mkSys (sy_process s) (sy_owner s) None (sy_watcher s) (r :: sy_returned s)
                | Continue t => mkSys (sy_process s) (sy_owner s) (Some t) (sy_watcher s) (sy_returned s)
                end)
      end
  end.

Fixpoint runs (es : list event) (s : Sys) : option Sys :=
  match es with
  | [] => Some s
  | e :: es => match run e s with Some s => runs es s | None => None end
  end.

Definition compactStrings (values : list string) : list string := filter (λ value, value ≠ "") values.
#[global] Arguments compactStrings : simpl never.

(** The process as the launch leaves it when the owner starts to wait. *)
Definition supervised (spec : Spec) : Sys :=
  mkSys (mkProcess (compactStrings [sp_QMPSocket spec; sp_SPICESocket spec]) true false false [] false false [] []) OWaiting None WNone [].

(** * Properties *)

(** ** Supervision *)

(** The local error of the owner, once it is known. *)
Definition ownerErr (o : owner) : option errors :=
  match o with OClassified e | OQMPClosed e | OPidfdClosed e | OCleaned e _ => Some e | _ => None end.

Definition ownerPast (o : owner) : nat :=
  match o with OWaiting => 0 | OExited _ => 1 | OClassified _ => 2 | OQMPClosed _ => 3 | OPidfdClosed _ => 4 | OCleaned _ _ => 5 | ODone => 6 end.

Record Watched (s : Sys) : Prop := {
  wa_exited : pr_processExited (sy_process s) = (0 <? ownerPast (sy_owner s))%nat;
  wa_done : pr_waitDone (sy_process s) = (5 <? ownerPast (sy_owner s))%nat;
  wa_qmp : (2 < ownerPast (sy_owner s))%nat → pr_qmp (sy_process s) = false;
  wa_pidfd : pr_pidfd (sy_process s) = (ownerPast (sy_owner s) <? 4)%nat;
  wa_err : sy_owner s = ODone → ∃ failure err, pr_waitErr (sy_process s) = failure ++ err ++ pr_cleanupErr (sy_process s);
  wa_forgiven : ownerErr (sy_owner s) = Some [] → pr_expectedStop (sy_process s) = true;
  wa_forgivenDone : sy_owner s = ODone → pr_waitErr (sy_process s) = [] → pr_expectedStop (sy_process s) = true;
  wa_returned : [] ∈ sy_returned s → sy_owner s = ODone ∧ pr_waitErr (sy_process s) = []
}.

Lemma classify_forgiven b status : classify b status = [] → b = true.
Proof. by destruct b, status. Qed.

Lemma Watched_supervised spec : Watched (supervised spec).
Proof. constructor; cbn; try done; try lia. by intros ?%elem_of_nil. Qed.

Ltac watched := constructor; cbn in *; try done; try lia; try congruence; try (intros; naive_solver).

Lemma Watched_owner a s s' : Watched s → run (EvOwner a) s = Some s' → Watched s'.
Proof.
  intros [H1 H2 H3 H4 H5 H6 H7 H8] Hr. cbn in Hr. destruct s as [p o t w r]. cbn in *.
  destruct o; cbn in *; injection Hr as <-; watched.
  - intros [= Hf]. by apply classify_forgiven in Hf.
  - intros _ Hz. apply app_eq_nil in Hz as [_ [-> _]%app_eq_nil]. by apply H6.
Qed.

(** A step that leaves the owner alone and only stores what may be stored. *)
Lemma Watched_process p' s t w :
  Watched s →
  pr_processExited p' = pr_processExited (sy_process s) → pr_waitDone p' = pr_waitDone (sy_process s) → pr_pidfd p' = pr_pidfd (sy_process s) →
  pr_waitErr p' = pr_waitErr (sy_process s) → pr_cleanupErr p' = pr_cleanupErr (sy_process s) →
  (pr_expectedStop (sy_process s) = true → pr_expectedStop p' = true) →
  (pr_qmp p' = true → pr_qmp (sy_process s) = true ∨ pr_processExited (sy_process s) = false) →
  Watched (mkSys p' (sy_owner s) t w (sy_returned s)).
Proof.
  intros [H1 H2 H3 H4 H5 H6 H7 H8] E1 E2 E3 E4 E5 E6 E7. constructor; cbn; rewrite ?E1, ?E2, ?E3, ?E4, ?E5; try done.
  - intros Hp. destruct (pr_qmp p'); [|done]. destruct (E7 eq_refl) as [Hq|Hx]; [by rewrite H3 in Hq|]. rewrite H1 in Hx. apply Nat.ltb_ge in Hx. lia.
  - auto.
  - auto.
Qed.

Lemma Watched_return s r t w p' :
  Watched (mkSys p' (sy_owner s) t w (sy_returned s)) → (r = [] → sy_owner s = ODone ∧ pr_waitErr p' = []) → Watched (mkSys p' (sy_owner s) None w (r :: sy_returned s)).
Proof.
  intros [H1 H2 H3 H4 H5 H6 H7 H8] Hr. constructor; cbn in *; try done. intros [<-|Hin]%elem_of_cons; [|by apply H8]. by apply Hr.
Qed.

Lemma done_owner s : Watched s → pr_waitDone (sy_process s) = true → sy_owner s = ODone.
Proof. intros H Hd. rewrite (wa_done _ H) in Hd. by destruct (sy_owner s). Qed.

(** A call of [Stop] that returns nothing returns the result of a finished wait. *)
Lemma stopStep_ok a b t p : stopStep a b t p = Return [] → pr_waitDone p = true ∧ pr_waitErr p = [].
Proof.
  intros H. destruct t as [|q| |e|e|e|e]; cbn in H; unfold waitForDone in H.
  - done.
  - destruct (sa_waited a), (pr_waitDone p); cbn in H; [by injection H|..]; by destruct (negb _ && _).
  - destruct (sa_waited a), (pr_waitDone p); cbn in H; [by injection H|done..].
  - by destruct (signal _ _ _).
  - destruct (sa_waited a), (pr_waitDone p); cbn in H; [|done..]. injection H as H. by apply app_eq_nil in H as [_ ->].
  - by destruct (signal _ _ _).
  - destruct (sa_waited a), (pr_waitDone p); cbn in H; injection H as H; apply app_eq_nil in H as [_ H]; done.
Qed.

(** What a call of [Stop] that began leaves. *)
Lemma begin_inv byWatcher s s' :
  run (EvBegin byWatcher) s = Some s' →
  ∃ w, s' = if pr_waitDone (sy_process s) then mkSys (set_expectedStop (sy_process s)) (sy_owner s) None w (pr_waitErr (sy_process s) :: sy_returned s)
            else mkSys (set_expectedStop (sy_process s)) (sy_owner s) (Some SBegun) w (sy_returned s).
Proof.
  cbn. unfold beginStop. cbn. destruct (sy_stopper s), byWatcher, (sy_watcher s); try done; destruct (pr_waitDone (sy_process s)); intros [= <-]; by eexists.
Qed.

Lemma Watched_run e s s' : Watched s → run e s = Some s' → Watched s'.
Proof.
  intros HW Hr. destruct e as [a| | | |byWatcher|a].
  - by eapply Watched_owner.
  - cbn in Hr. destruct (sy_watcher s); try done. unfold storeQMP in Hr. destruct (pr_processExited (sy_process s)) eqn:Hx; injection Hr as <-; apply Watched_process; cbn; auto; done.
  - injection Hr as <-. apply Watched_process; cbn; auto.
  - cbn in Hr. destruct (sy_watcher s); try done; injection Hr as <-; apply Watched_process; cbn; auto.
  - destruct (begin_inv _ _ _ Hr) as [w ->]. clear Hr. destruct (pr_waitDone (sy_process s)) eqn:Hd.
    + apply (Watched_return s _ None). { apply Watched_process; cbn; auto. } intros Hz. split; [by apply done_owner|done].
    + apply Watched_process; cbn; auto.
  - cbn in Hr. destruct (sy_stopper s) as [t|]; [|done]. destruct (stopStep a (reaped s) t (sy_process s)) as [t'|r] eqn:Ht; injection Hr as <-.
    + apply Watched_process; cbn; auto.
    + apply (Watched_return s _ None). { apply Watched_process; cbn; auto. } intros ->. destruct (stopStep_ok _ _ _ _ Ht). split; [by apply done_owner|done].
Qed.

Lemma runs_app es es' s : runs (es ++ es') s = match runs es s with Some s => runs es' s | None => None end.
Proof. revert s. induction es as [|e es IH]; intros s; [done|]. cbn. destruct (run e s); [apply IH|done]. Qed.

Lemma Watched_runs es s s' : Watched s → runs es s = Some s' → Watched s'.
Proof. revert s. induction es as [|e es IH]; intros s HW Hr; cbn in Hr; [by injection Hr as <-|]. destruct (run e s) eqn:E; [|done]. eapply IH; [|done]. by eapply Watched_run. Qed.

(** ** What was removed *)

Definition cleanErrors (sockets : list string) (a : ownerAnswer) : errors := socketErrors (oa_socket a) sockets ++ (if oa_cgroup a then [] else ["cgroup"]).

Lemma cleanErrors_nil sockets a : cleanErrors sockets a = [] → forallb (oa_socket a) sockets = true ∧ oa_cgroup a = true.
Proof.
  intros [Hs Hc]%app_eq_nil. split; [|by destruct (oa_cgroup a)]. unfold socketErrors in Hs. induction sockets as [|path l IH]; cbn in *; [done|]. destruct (oa_socket a path); [by apply IH|done].
Qed.

(** The errors of the clean-up are those of one answer to the owner, for these sockets. *)
Definition Sourced (sockets : list string) (es : list event) (s : Sys) : Prop :=
  pr_sockets (sy_process s) = sockets ∧
  match sy_owner s with
  | OCleaned _ cleanup => ∃ a, EvOwner a ∈ es ∧ cleanup = cleanErrors sockets a
  | ODone => ∃ a, EvOwner a ∈ es ∧ pr_cleanupErr (sy_process s) = cleanErrors sockets a
  | _ => True
  end.

Lemma Sourced_weaken k es es' s : Sourced k es s → Sourced k (es ++ es') s.
Proof. intros [Hk H]. split; [done|]. destruct (sy_owner s); try done; destruct H as (a & Ha & ->); exists a; (split; [apply elem_of_app; by left|done]). Qed.

Lemma other_owner e s s' :
  run e s = Some s' → (∀ a, e ≠ EvOwner a) →
  sy_owner s' = sy_owner s ∧ pr_cleanupErr (sy_process s') = pr_cleanupErr (sy_process s) ∧ pr_sockets (sy_process s') = pr_sockets (sy_process s).
Proof.
  intros Hr He. destruct e as [a| | | |byWatcher|a]; [by destruct (He a)|..].
  - cbn in Hr. destruct (sy_watcher s); try done. unfold storeQMP in Hr. by destruct (pr_processExited _); injection Hr as <-.
  - by injection Hr as <-.
  - cbn in Hr. by destruct (sy_watcher s); try done; injection Hr as <-.
  - destruct (begin_inv _ _ _ Hr) as [w ->]. by destruct (pr_waitDone _).
  - cbn in Hr. destruct (sy_stopper s); [|done]. by destruct (stopStep _ _ _ _); injection Hr as <-.
Qed.

Lemma Sourced_owner k es a s s' : Sourced k es s → run (EvOwner a) s = Some s' → Sourced k (es ++ [EvOwner a]) s'.
Proof.
  intros [<- HS] Hr. cbn in Hr. unfold Sourced in *. destruct (sy_owner s); cbn in *; injection Hr as <-; cbn; (split; [done|]); try done.
  - exists a. split; [apply elem_of_app; right; by apply list_elem_of_singleton|done].
  - destruct HS as (a' & Ha & ->). exists a'. split; [apply elem_of_app; by left|done].
  - destruct HS as (a' & Ha & ->). exists a'. split; [apply elem_of_app; by left|done].
Qed.

Lemma Sourced_run k es e s s' : Sourced k es s → run e s = Some s' → Sourced k (es ++ [e]) s'.
Proof.
  intros HS Hr. assert (∀ e', (∀ a, e' ≠ EvOwner a) → run e' s = Some s' → Sourced k (es ++ [e']) s') as Hother.
  { intros e' He Hr'. destruct (other_owner _ _ _ Hr' He) as (E1 & E2 & E3). apply Sourced_weaken. unfold Sourced in *. by rewrite E1, E2, E3. }
  destruct e; [by eapply Sourced_owner|by apply Hother..].
Qed.

Lemma Sourced_runs spec es s : runs es (supervised spec) = Some s → Sourced (compactStrings [sp_QMPSocket spec; sp_SPICESocket spec]) es s.
Proof.
  revert s. induction es as [|e es IH] using rev_ind; intros s Hr; [by injection Hr as <-|].
  rewrite runs_app in Hr. destruct (runs es (supervised spec)) as [s0|]; [|done]. cbn in Hr. destruct (run e s0) as [s1|] eqn:E; [|done]. injection Hr as <-.
  eapply Sourced_run; [by apply IH|done].
Qed.

(** ** Progress *)

Lemma owner_advances a s : ∃ s', run (EvOwner a) s = Some s' ∧ (6 - ownerPast (sy_owner s') ≤ 5 - ownerPast (sy_owner s))%nat.
Proof. cbn. destruct (sy_owner s); eexists; (split; [done|]); cbn; lia. Qed.

Lemma owner_finishes l s : (6 - ownerPast (sy_owner s) ≤ length l)%nat → ∃ s', runs (map EvOwner l) s = Some s' ∧ sy_owner s' = ODone.
Proof.
  revert s. induction l as [|a l IH]; intros s Hl.
  - exists s. split; [done|]. cbn in Hl. destruct (sy_owner s); cbn in Hl; (lia || done).
  - cbn [map runs]. destruct (owner_advances a s) as (s' & -> & Hs'). apply IH. cbn in Hl. lia.
Qed.

Definition stopRank (t : stopper) : nat :=
  match t with SBegun => 7 | SWaitGrace _ => 6 | SWaitQuit => 5 | STerm _ => 4 | SWaitTerm _ => 3 | SKill _ => 2 | SWaitKill _ => 1 end.

Definition rank (s : Sys) : nat := match sy_stopper s with Some t => stopRank t | None => 0 end.

Definition isStop (e : event) : bool := match e with EvStop _ => true | _ => false end.
Definition isBegin (e : event) : bool := match e with EvBegin _ => true | _ => false end.

Lemma stopStep_rank a b t t' p : stopStep a b t p = Continue t' → (stopRank t' < stopRank t)%nat.
Proof.
  destruct t; cbn; unfold waitForDone; repeat case_match; intros [= <-]; cbn; lia.
Qed.

Lemma rank_run e s s' : isBegin e = false → run e s = Some s' → (rank s' + (if isStop e then 1 else 0) ≤ rank s)%nat.
Proof.
  intros Hb Hr. unfold rank. destruct e as [a| | | |byWatcher|a]; [..|done|].
  - cbn in Hr. destruct (ownerStep _ _ _). injection Hr as <-. cbn. lia.
  - cbn in Hr. destruct (sy_watcher s); try done. destruct (storeQMP _). injection Hr as <-. cbn. lia.
  - injection Hr as <-. cbn. lia.
  - cbn in Hr. destruct (watchQMP _ _) as [[]|]; [|done]. injection Hr as <-. cbn. lia.
  - cbn in Hr. destruct (sy_stopper s) as [t|]; [|done]. destruct (stopStep _ _ _ _) as [t'|] eqn:Ht; injection Hr as <-; cbn.
    + apply stopStep_rank in Ht. lia.
    + destruct t; cbn; lia.
Qed.

(** However the threads interleave, a call of [Stop] has at most seven sections. *)
Lemma stop_terminates es s s' : forallb (λ e, negb (isBegin e)) es = true → runs es s = Some s' → (rank s' + length (filter isStop es) ≤ rank s)%nat.
Proof.
  revert s. induction es as [|e es IH]; intros s Hb Hr; cbn in Hr; [injection Hr as <-; cbn; lia|].
  cbn in Hb. apply andb_true_iff in Hb as [He Hb]. apply negb_true_iff in He. destruct (run e s) as [s1|] eqn:E; [|done].
  specialize (IH _ Hb Hr). pose proof (rank_run _ _ _ He E) as H1. rewrite filter_cons. destruct (isStop e); cbn in *; case_decide; cbn in *; try done; try lia.
Qed.

(** C37: The QEMU process is supervised until it is gone.  However the owner, the
    watcher of the QMP connection, the end of the launch and the callers of [Stop]
    interleave, and whatever the host answers: once the wait is over the child was
    reaped and its descriptor and its QMP connection are closed; a call of [Stop]
    returned without an error only after that, when the stop was asked for and all
    sockets of the launch and the control group were removed; a clean-up without an error means
    the latter too.  From every state the owner gets there in six sections once the
    process has ended, and a call of [Stop] returns within seven of its own. *)
Theorem process_is_supervised spec es s :
  runs es (supervised spec) = Some s →
  (pr_waitDone (sy_process s) = true → reaped s = true ∧ pr_pidfd (sy_process s) = false ∧ pr_qmp (sy_process s) = false) ∧
  ([] ∈ sy_returned s → pr_expectedStop (sy_process s) = true ∧ CleanupProcess (sy_process s) = Some []) ∧
  (AuditProcess (sy_process s) = [] →
   reaped s = true ∧ ∃ a, EvOwner a ∈ es ∧ forallb (oa_socket a) (compactStrings [sp_QMPSocket spec; sp_SPICESocket spec]) = true ∧ oa_cgroup a = true) ∧
  (∀ l, length l = 6%nat → ∃ s', runs (map EvOwner l) s = Some s' ∧ pr_waitDone (sy_process s') = true) ∧
  (∀ es' s', forallb (λ e, negb (isBegin e)) es' = true → runs es' s = Some s' → (length (filter isStop es') ≤ 7)%nat).
Proof.
  intros Hr. pose proof (Watched_runs _ _ _ (Watched_supervised spec) Hr) as HW. destruct (Sourced_runs _ _ _ Hr) as [_ HS]. split_and!.
  - intros Hd. pose proof (done_owner _ HW Hd) as Ho. unfold reaped. rewrite (wa_pidfd _ HW), (wa_qmp _ HW); rewrite Ho; [done|cbn; lia].
  - intros Hin. destruct (wa_returned _ HW Hin) as [Ho He]. split; [by apply (wa_forgivenDone _ HW)|].
    unfold CleanupProcess. rewrite (wa_done _ HW), Ho. destruct (wa_err _ HW Ho) as (f & e & E). rewrite He in E. symmetry in E. apply app_eq_nil in E as [_ [_ ->]%app_eq_nil]. done.
  - unfold AuditProcess. destruct (pr_waitDone (sy_process s)) eqn:Hd; [|done]. cbn. intros Hc. pose proof (done_owner _ HW Hd) as Ho. rewrite Ho in HS.
    destruct HS as (a & Ha & E). split; [unfold reaped; by rewrite Ho|]. exists a. split; [done|]. apply cleanErrors_nil. congruence.
  - intros l Hl. destruct (owner_finishes l s) as (s' & Hs' & Ho); [lia|]. exists s'. split; [done|].
    rewrite (wa_done s') by (eapply Watched_runs; [exact HW|exact Hs']). by rewrite Ho.
  - intros es' s' Hb Hr'. pose proof (stop_terminates _ _ _ Hb Hr') as H. assert (rank s ≤ 7)%nat; [|lia].
    unfold rank. destruct (sy_stopper s) as [[]|]; cbn; lia.
Qed.

Definition fine : ownerAnswer := mkOwnerAnswer ExitError (λ _, true) true.
Definition quiet : stopAnswer := mkStopAnswer true false Sent true SignalOk.

Definition supervisedSpec : Spec := {|
  sp_Binary := "/usr/bin/qemu"; sp_SessionID := "pvm-1"; sp_Name := "pvm-1"; sp_Role := RoleWorkstation; sp_ScannerMode := ""; sp_Machine := ""; sp_CPUs := 2; sp_MemoryBytes := 2147483648;
  sp_Root := mkDisk "/run/pvm/root.qcow2" "qcow2" false "root"; sp_Data := []; sp_QMPSocket := "/run/pvm/qmp/qmp.sock"; sp_SPICESocket := "/run/pvm/spice/spice.sock"; sp_VSOCKCID := 3;
  sp_Networked := true; sp_NetworkFD := 4; sp_EnableAudio := false; sp_FWCfgTokenFD := 3 |}.

(** A guest that ignores the power button and is terminated by a signal. *)
Definition terminated : list event :=
  [EvStore; EvBegin false; EvStop quiet; EvStop quiet; EvStop quiet; EvStop quiet] ++ map EvOwner (repeat fine 6) ++ [EvStop quiet].

Lemma process_is_supervised_witness :
  ∃ s, runs terminated (supervised supervisedSpec) = Some s ∧ sy_returned s = [[]] ∧ reaped s = true ∧ CleanupProcess (sy_process s) = Some [].
Proof.
  destruct (runs terminated (supervised supervisedSpec)) as [s|] eqn:E; [|vm_compute in E; discriminate E].
  assert (sy_returned s = [[]] ∧ AuditProcess (sy_process s) = []) as [Hr Ha] by (vm_compute in E; injection E as <-; split; reflexivity).
  destruct (process_is_supervised supervisedSpec terminated s E) as (_ & H2 & H3 & _). exists s. split; [reflexivity|]. split; [exact Hr|].
  split; [apply (H3 Ha)|]. apply H2. rewrite Hr. by apply list_elem_of_singleton.
Defined.

(** While the owner still removes the sockets and the control group, the process is
    gone and so is its descriptor; a call of [Stop] that has to signal then fails,
    though the process ended as it was asked to. *)
Example stop_fails_while_the_group_is_removed :
  ∃ es s, runs es (supervised supervisedSpec) = Some s ∧ sy_returned s = [["signal"]] ∧ reaped s = true ∧
    ∃ s', runs (map EvOwner (repeat fine 2)) s = Some s' ∧ WaitProcess (sy_process s') = Some [].
Proof.
  set (gone := mkStopAnswer true false SendESRCH false SignalDone).
  exists ([EvStore; EvBegin false] ++ repeat (EvStop quiet) 3 ++ [EvStop quiet] ++ map EvOwner (repeat fine 4) ++ [EvStop gone; EvStop gone]).
  eexists. split; [vm_compute; reflexivity|]. split; [done|]. split; [done|]. eexists. split; [vm_compute; reflexivity|done].
Qed.

(** ** The launch *)

Section LaunchProofs.
Context {W : Type} `{!LaunchHost W} `{!CgroupHost W}.
Context (unicodeLower : N → N) (fs : HostFiles) (cgroupRoot : string).

#[local] Abbreviation LS := (LS (W := W)).
#[local] Abbreviation CG := (CG (W := W)).

(** *** The control group *)

Definition settingCalls (path : string) (l : list (string * string)) : list cg_call := map (λ nv, CgWrite (joinPath [path; nv.1]) nv.2) l.

Lemma writeSettings_ok path todo (s s' : CG) : writeSettings path todo s = (true, s') → cg_log s' = rev (settingCalls path todo) ++ cg_log s.
Proof.
  revert s. induction todo as [|[n v] todo IH]; intros s H; cbn in H; [by injection H as <-|].
  unfold cgTry in H. destruct (cgWrite _ _ _) as [[] w]; try done. apply IH in H. rewrite H. cbn. by rewrite <- app_assoc.
Qed.

Lemma writeSettings_err path todo (s s' : CG) :
  writeSettings path todo s = (false, s') → ∃ l, l `prefix_of` settingCalls path todo ∧ l ≠ settingCalls path todo ∧ cg_log s' = rev l ++ cg_log s.
Proof.
  revert s. induction todo as [|[n v] todo IH]; intros s H; cbn in H; [done|].
  unfold cgTry in H. destruct (cgWrite _ _ _) as [[] w].
  - apply IH in H as (l & Hp & Hne & Hl). exists (CgWrite (joinPath [path; n]) v :: l). cbn. split; [by apply prefix_cons|]. split; [by intros [= ->]|]. rewrite Hl. cbn. by rewrite <- app_assoc.
  - exists []. split; [apply prefix_nil|]. split; [done|]. by injection H as <-.
  - exists []. split; [apply prefix_nil|]. split; [done|]. by injection H as <-.
Qed.

(** The calls of a complete placement, in order: the process moves last. *)
Definition placement (sessionID : string) (pid : Z) (limits : CgroupLimits) : list cg_call :=
  let path := scopePath cgroupRoot sessionID in
  let file name := joinPath [path; name] in
  [CgMkdir path; CgWrite (file "memory.max") (decimal (cl_MemoryBytes limits)); CgWrite (file "memory.swap.max") "0";
   CgWrite (file "pids.max") (decimal (cl_PIDs limits)); CgWrite (file "cpu.max") (decimal (wrap64 (cl_VCPUs limits * 100000)) +:+ " 100000");
   CgWrite (file "cgroup.procs") (decimal pid)].

Lemma Place_ok sessionID pid limits (s : CG) path s' :
  Place cgroupRoot sessionID pid limits s = (Ok path, s') → cl_PIDs limits ≠ 0%Z →
  path = scopePath cgroupRoot sessionID ∧ cg_log s' = rev (placement sessionID pid limits) ++ cg_log s.
Proof.
  unfold Place. destruct (_ || _); [done|]. destruct (_ || _); [done|]. destruct (_ || _ || _); [done|]. intros H Hp.
  destruct (Z.eqb_spec (cl_PIDs limits) 0); [done|]. unfold cgDo in H. destruct (cgMkdir _ _) as [[] w]; [|done].
  destruct (writeSettings _ _ _) as [[] s1] eqn:E; [|done]. destruct (cgDone _) as [[] w1]; [done|]. injection H as <- <-. split; [done|].
  cbn. rewrite (writeSettings_ok _ _ _ _ E). done.
Qed.

(** *** The launch *)

(** What happened to the process of a launch that failed. *)
Definition ended (log : list launch_call) : Prop :=
  ∃ before, (log = LReaped :: LKilled :: before ∧ LSupervised ∉ before) ∨ (log = LWaited :: LKilled :: before ∧ LSupervised ∈ before).

Lemma lask_log {A} (f : W → option A * W) c e (s : LS) :
  match lask f c e s with (Ok a, s') => la_log s' = c a :: la_log s ∧ la_cgroups s' = la_cgroups s | (Err _, s') => la_log s' = la_log s ∧ la_cgroups s' = la_cgroups s end.
Proof. unfold lask, lq. by destruct (f _) as [[a|] w]. Qed.

Lemma lmust_log (f : W → bool * W) c e (s : LS) :
  match lmust f c e s with (Ok _, s') => la_log s' = c :: la_log s ∧ la_cgroups s' = la_cgroups s | (Err _, s') => la_log s' = la_log s ∧ la_cgroups s' = la_cgroups s end.
Proof. unfold lmust, lq. by destruct (f _) as [[] w]. Qed.

Lemma lq_log {A} (f : W → A * W) (s : LS) : la_log (lq f s).2 = la_log s ∧ la_cgroups (lq f s).2 = la_cgroups s.
Proof. unfold lq. by destruct (f _). Qed.

(** New calls, before the process has an owner. *)
Definition early (s s' : LS) : Prop := ∃ new, la_log s' = new ++ la_log s ∧ LSupervised ∉ new.

Lemma early_trans s1 s2 s3 : early s1 s2 → early s2 s3 → early s1 s3.
Proof. intros (n1 & H1 & E1) (n2 & H2 & E2). exists (n2 ++ n1). rewrite H2, H1, app_assoc. split; [done|set_solver]. Qed.

(** What identifies a process: its start time, and that it runs the binary that was
    asked for. *)
Definition identified (binary : string) (pid : Z) (i : ProcessIdentity) (l : list launch_call) : Prop :=
  ∃ data info expected, l = [LStat pid data; LExecutable pid info; LBinary binary expected] ∧
    parseStartTime data = Ok (pi_StartTimeTicks i) ∧ validateExecutableInfo fs (ei_Info info) = Ok tt ∧ ei_Dev info = ei_Dev expected ∧ ei_Ino info = ei_Ino expected ∧
    pi_PID i = pid ∧ pi_ExecutableDev i = ei_Dev expected ∧ pi_ExecutableInode i = ei_Ino expected.

Lemma start_log pid (s : LS) :
  match processStartTime pid s with
  | (Ok start, s') => ∃ data, parseStartTime data = Ok start ∧ la_log s' = LStat pid data :: la_log s ∧ la_cgroups s' = la_cgroups s
  | (Err _, s') => early s s'
  end.
Proof.
  unfold processStartTime, lbind, lret, lstat. pose proof (lask_log (lhStat pid) (LStat pid) "read process start time" s) as H. destruct (lask _ _ _ s) as [[data|e] s1]; destruct H as [H1 H2].
  - destruct (parseStartTime data) eqn:E; [by exists data|]. exists [LStat pid data]. split; [done|set_solver].
  - exists []. split; [done|set_solver].
Qed.

Lemma inspect_log pid binary (s : LS) :
  match inspectProcessIdentity fs pid binary s with
  | (Ok i, s') => ∃ l, validateExecutable fs binary = Ok tt ∧ identified binary pid i l ∧ la_log s' = rev l ++ la_log s ∧ la_cgroups s' = la_cgroups s
  | (Err _, s') => early s s'
  end.
Proof.
  assert (Hnil : ∀ s' : LS, la_log s' = la_log s → early s s') by (intros s' E; exists []; split; [done|set_solver]).
  unfold inspectProcessIdentity, lexecutable, lbinary, lbind, lret at 1. destruct (validateExecutable fs binary) as [[]|] eqn:Hv; [|by apply Hnil]. pose proof (start_log pid s) as H. destruct (processStartTime pid s) as [[start|] s1]; [|done].
  destruct H as (data & Hd & L1 & C1). pose proof (lask_log (lhExecutable pid) (LExecutable pid) "inspect QEMU executable identity" s1) as H. destruct (lask _ _ _ s1) as [[info|] s2]; destruct H as [L2 C2].
  2: { exists [LStat pid data]. rewrite L2, L1. split; [done|set_solver]. }
  unfold lret at 1. destruct (validateExecutableInfo fs (ei_Info info)) as [[]|] eqn:Hi.
  2: { exists [LExecutable pid info; LStat pid data]. rewrite L2, L1. split; [done|set_solver]. }
  pose proof (lask_log (lhBinary binary) (LBinary binary) "inspect expected QEMU binary" s2) as H. destruct (lask _ _ _ s2) as [[expected|] s3]; destruct H as [L3 C3].
  2: { exists [LExecutable pid info; LStat pid data]. rewrite L3, L2, L1. split; [done|set_solver]. }
  unfold lret. destruct (_ || _) eqn:Hx.
  { exists [LBinary binary expected; LExecutable pid info; LStat pid data]. rewrite L3, L2, L1. split; [done|set_solver]. }
  apply orb_false_iff in Hx as [E1%negb_false_iff%Z.eqb_eq E2%negb_false_iff%Z.eqb_eq]. exists [LStat pid data; LExecutable pid info; LBinary binary expected].
  split_and!; [done| |by rewrite L3, L2, L1|congruence]. exists data, info, expected. by split_and!.
Qed.

Lemma place_log spec pid (s : LS) : la_log (place cgroupRoot spec pid s).2 = la_log s.
Proof. unfold place. by destruct (Place _ _ _ _ _). Qed.

Definition placedAs (spec : Spec) (pid : Z) : list cg_call := placement (sp_SessionID spec) pid (mkLimits (sp_MemoryBytes spec) (sp_CPUs spec) 256).

Lemma launchEarly_ok spec pid (s : LS) :
  match launchEarly fs cgroupRoot spec pid s with
  | (Ok i, s') => ∃ l, validateExecutable fs (sp_Binary spec) = Ok tt ∧ identified (sp_Binary spec) pid i l ∧ pi_CgroupPath i = scopePath cgroupRoot (sp_SessionID spec) ∧
      la_log s' = LPlaced (pi_CgroupPath i) :: LPidfd pid :: rev l ++ la_log s ∧ la_cgroups s' = rev (placedAs spec pid) ++ la_cgroups s
  | (Err _, s') => early s s'
  end.
Proof.
  unfold launchEarly, lpidfd, lbind, lret, lmark. pose proof (inspect_log pid (sp_Binary spec) s) as Hi. destruct (inspectProcessIdentity _ _ _ s) as [[i|e] s1]; [|done].
  destruct Hi as (l & Hv & Hl & L1 & C1). assert (E1 : early s s1). { exists (rev l). split; [done|]. destruct Hl as (? & ? & ? & -> & _). set_solver. }
  pose proof (lmust_log (lhPidfd pid) (LPidfd pid) "open QEMU pidfd" s1) as Hm. destruct (lmust _ _ _ s1) as [[[]|e] s2]; destruct Hm as [L2 C2].
  2: { eapply early_trans; [exact E1|]. exists []. split; [done|set_solver]. }
  pose proof (place_log spec pid s2) as L3. unfold place in *. destruct (Place _ _ _ _ _) as [[path|e] c] eqn:Ep; cbn in *.
  - apply Place_ok in Ep as [-> Hcg]; [|done]. cbn in Hcg. exists l. split_and!; [done|destruct Hl as (d & f & x & ?); by exists d, f, x|done|cbn; congruence|]. rewrite Hcg. unfold placedAs. congruence.
  - eapply early_trans; [exact E1|]. exists [LPidfd pid]. destruct (lq_log lhClosePidfd (mkLS (cg_world c) (la_log s2) (cg_log c))) as [-> _]. cbn. split; [congruence|set_solver].
Qed.

(** The calls that follow once the process has an owner. *)
Definition connected (spec : Spec) (pid : Z) : list launch_call :=
  [LSupervised; LConnected (sp_QMPSocket spec) pid] ++ (if bool_decide (sp_SPICESocket spec = "") then [] else [LDisplayed (sp_SPICESocket spec)]).

Lemma launchLate_ok spec i (s : LS) :
  match launchLate spec i s with
  | (Ok j, s') => j = i ∧ la_cgroups s' = la_cgroups s ∧ la_log s' = rev (connected spec (pi_PID i)) ++ la_log s
  | (Err _, s') => ∃ new, la_log s' = new ++ la_log s ∧ LSupervised ∈ new
  end.
Proof.
  unfold launchLate, lqmp, lsocket, lbind, lret, lmark, connected. set (s0 := lnote LSupervised s). set (c := LConnected (sp_QMPSocket spec) (pi_PID i)).
  pose proof (lmust_log (lhQMP (sp_QMPSocket spec) (pi_PID i)) c "QMP" s0) as Hm. destruct (lmust _ _ _ s0) as [[[]|e] s1]; cbn in Hm; destruct Hm as [L1 C1].
  2: { exists [LSupervised]. rewrite L1. split; [done|set_solver]. }
  pose proof (lq_log lhExited s1) as Hq. destruct (lq lhExited s1) as [[] s2]; cbn in Hq; destruct Hq as [L2 C2].
  { exists [c; LSupervised]. destruct (lq_log lhCloseQMP s2) as [-> _]. rewrite L2, L1. split; [done|set_solver]. }
  case_bool_decide; cbn; [by rewrite L2, L1, C2, C1|]. set (d := LDisplayed (sp_SPICESocket spec)).
  pose proof (lmust_log (lhSocket (sp_SPICESocket spec)) d "SPICE startup failed" s2) as Hm. destruct (lmust _ _ _ s2) as [[[]|e] s3]; destruct Hm as [L3 C3].
  - by rewrite L3, L2, L1, C3, C2, C1.
  - exists [c; LSupervised]. rewrite L3, L2, L1. split; [done|set_solver].
Qed.

Lemma rollback_ended owned e (s : LS) : (LSupervised ∈ la_log s ↔ owned = true) → ∃ e' s', rollback owned e s = (Err e', s') ∧ ended (la_log s').
Proof.
  intros Ho. unfold rollback. pose proof (lq_log lhKill s) as [Hk _]. destruct (lq lhKill s) as [b s1]. cbn in Hk |- *. destruct owned.
  - pose proof (lq_log lhWait (lnote LKilled s1)) as [Hw _]. destruct (lq lhWait _) as [ok s2]. cbn in Hw |- *. eexists _, _. split; [done|]. exists (la_log s). right. cbn. rewrite Hw, Hk. split; [done|by apply Ho].
  - pose proof (lq_log lhReap (lnote LKilled s1)) as [Hw _]. destruct (lq lhReap _) as [ok s2]. cbn in Hw |- *. eexists _, _. split; [done|]. exists (la_log s). left. cbn. rewrite Hw, Hk. split; [done|]. intros H. by apply Ho in H.
Qed.

(** C38: A launch either hands out a supervised process or has ended it.  Whatever
    the host answers, a launch that succeeds made exactly these calls: it started
    the binary of a valid specification with the arguments that specification
    renders to; read the start time of that process and that its executable is
    trusted and has the device and inode of the verified binary, which is the
    identity it hands out; opened its descriptor; moved the process into the
    control group of its session only after all the limits of the specification
    were set; and then waited for it, connected to the QMP socket of the
    specification with that process as its peer and, with a display, secured that
    socket.  A launch that fails started nothing, or has killed the process and
    waited for its end: through the owner when there was one already, directly when
    not. *)
Theorem launches_are_placed_or_ended spec capability tap w :
  match Launch unicodeLower fs cgroupRoot spec capability tap (mkLS w [] []) with
  | (Ok i, s) =>
      validateExecutable fs (sp_Binary spec) = Ok tt ∧ tap = sp_Networked spec ∧
      rev (la_cgroups s) = placedAs spec (pi_PID i) ∧ pi_CgroupPath i = scopePath cgroupRoot (sp_SessionID spec) ∧
      ∃ args inspected, Args unicodeLower fs spec = Ok args ∧ identified (sp_Binary spec) (pi_PID i) i inspected ∧
        rev (la_log s) = [LStarted (sp_Binary spec) args (pi_PID i)] ++ inspected ++ [LPidfd (pi_PID i); LPlaced (pi_CgroupPath i)] ++ connected spec (pi_PID i)
  | (Err _, s) => la_log s = [] ∨ ended (la_log s)
  end.
Proof.
  unfold Launch, lstart. destruct capability; cbn [negb]; [|by left]. destruct (Bool.eqb (sp_Networked spec) tap) eqn:Ht; cbn [negb]; [|by left]. apply Bool.eqb_prop in Ht.
  destruct (QemuSpec.Validate fs spec); [|by left]. destruct (negb _); [by left|]. destruct (Args _ _ _) as [args|] eqn:Ha; [|by left].
  pose proof (lask_log (lhStart (sp_Binary spec) args) (LStarted (sp_Binary spec) args) "start QEMU" (mkLS w [] [])) as Hq. destruct (lask _ _ _ _) as [[pid|] s0]; destruct Hq as [L0 C0]; [|by left].
  cbn in L0, C0. pose proof (launchEarly_ok spec pid s0) as He. destruct (launchEarly _ _ _ _ _) as [[i|e] s1].
  - destruct He as (l & Hv & Hl & Hpath & L1 & C1). assert (Hp : pi_PID i = pid) by (destruct Hl as (? & ? & ? & Hl); tauto).
    pose proof (launchLate_ok spec i s1) as H2. destruct (launchLate _ _ s1) as [[k|e] s2].
    + destruct H2 as (-> & C2 & L2). split_and!; [done|done| |done|exists args, l; split_and!; [done|by rewrite Hp|]].
      * by rewrite C2, C1, C0, app_nil_r, rev_involutive, Hp.
      * rewrite L2, L1, L0, rev_app_distr, rev_involutive, Hp. cbn. rewrite rev_app_distr, rev_involutive. cbn. by rewrite <- !app_assoc.
    + destruct H2 as (new & L2 & Hin). destruct (rollback_ended true e s2) as (e' & s3 & -> & Hr); [rewrite L2; set_solver|by right].
  - destruct He as (new & L1 & Hin). destruct (rollback_ended false e s1) as (e' & s3 & -> & Hr); [rewrite L1, L0; set_solver|by right].
Qed.

End LaunchProofs.

(** ** A placement that is cancelled *)

Section CancelledPlacement.
Context {W : Type} `{!CgroupHost W} (populated : string → W → Prop).

(** What the kernel documents: a process that was written to [cgroup.procs] is in
    the group, and a group with a process in it cannot be removed. *)
Hypothesis joined : ∀ path value w w', cgWrite (joinPath [path; "cgroup.procs"]) value w = (Removed, w') → populated path w'.
Hypothesis stays : ∀ path w, populated path w → populated path (cgDone w).2.
Hypothesis busy : ∀ path w, populated path w → (cgRemove path w).1 = RemoveFailed.

Lemma writeSettings_app path l1 l2 (s : CG (W := W)) :
  writeSettings path (l1 ++ l2) s = match writeSettings path l1 s with (true, s) => writeSettings path l2 s | r => r end.
Proof. revert s. induction l1 as [|[n v] l1 IH]; intros s; [done|]. cbn. destruct (cgTry _ _ s) as [[] s1]; [apply IH|done|done]. Qed.

Lemma settings_joined path limits pid (s s' : CG (W := W)) : writeSettings path (settings limits pid) s = (true, s') → populated path (cg_world s').
Proof.
  intros H. change (settings limits pid) with (take 4 (settings limits pid) ++ [("cgroup.procs", decimal pid)]) in H. rewrite writeSettings_app in H.
  destruct (writeSettings path (take 4 _) s) as [[] s1]; [|done]. cbn in H. unfold cgTry in H. destruct (cgWrite _ _ _) as [[] w] eqn:E; try done. injection H as <-. by eapply joined.
Qed.

(** C39: A placement that is cancelled leaves its control group behind.  When the
    context ends after the process was moved, the rollback removes the group while
    the process is still in it, which the kernel refuses; the group stays, no handle
    to it is returned, and a later placement of the session fails to create it. *)
Theorem cancelled_placement_leaves_its_group root sessionID pid limits (s s' : CG (W := W)) :
  Place root sessionID pid limits s = (Err "context done", s') → (0 < cl_PIDs limits)%Z →
  cg_log s' = rev (placement root sessionID pid limits) ++ cg_log s.
Proof.
  unfold Place. destruct (_ || _); [done|]. destruct (_ || _); [done|]. destruct (_ || _ || _); [done|]. intros H Hp.
  destruct (Z.eqb_spec (cl_PIDs limits) 0); [lia|]. unfold cgDo in H. destruct (cgMkdir _ _) as [[] w]; [|done].
  destruct (writeSettings _ _ _) as [[] s1] eqn:E; [|done]. pose proof (settings_joined _ _ _ _ _ E) as Hpop. apply stays in Hpop.
  destruct (cgDone _) as [[] w1]; [|done]. injection H as <-. cbn in Hpop. unfold removeScope, cgTry. cbn. apply busy in Hpop.
  destruct (cgRemove _ w1) as [r w2]. cbn in Hpop |- *. subst r. by rewrite (writeSettings_ok _ _ _ _ E).
Qed.

End CancelledPlacement.

#[local] Instance busyCgroups : CgroupHost bool := {|
  cgMkdir _ w := (true, w); cgWrite _ _ w := (Removed, true); cgRemove _ w := (if w then RemoveFailed else Removed, w);
  cgMissing _ w := (false, w); cgDone w := (true, w) |}.

Lemma cancelled_placement_leaves_its_group_witness :
  ∃ s', Place "/sys/fs/cgroup/x" "pvm-1" 42 (mkLimits 1073741824 2 256) (mkCG false []) = (Err "context done", s') ∧
    cg_log s' = rev (placement "/sys/fs/cgroup/x" "pvm-1" 42 (mkLimits 1073741824 2 256)).
Proof.
  eexists. split; [vm_compute; reflexivity|]. rewrite <- (app_nil_r (rev _)).
  refine (cancelled_placement_leaves_its_group (λ _ (w : bool), w = true) _ _ _ _ _ _ _ (mkCG false []) _ _ _); [|done| |vm_compute; reflexivity|done].
  - intros path value w w' H. by injection H as <-.
  - intros path w ->. done.
Defined.
