(* ===== verification/Config.v ===== *)
(** * The configuration

    Models [src/internal/config/config.go], [loader.go] and [file_linux.go]: the
    layers of a configuration (a system file, a user file and the command line),
    the trust in the files they come from, their migrations, and the bounds and the
    mandatory rules of the effective configuration.  The TOML library is a record
    of parameters: it gives a document, writes one, and decodes a text strictly
    into a configuration; that the decoder sets the fields the text has and leaves
    the others is a hypothesis of the properties. *)

From Stdlib Require Import ZArith Lia Ascii.
From stdpp Require Import strings base tactics option list sets.
From S2P Require Import Prelude GoText Netip NetipText VpnProfile ScanPolicy.

Open Scope string_scope.
Open Scope list_scope.

Definition SchemaVersion : Z := 1.
Definition DefaultSystemPath : string := "/etc/private-vm/config.toml".
Definition DefaultRuntimePath : string := "/run/private-vm".
Definition DefaultImageCache : string := "/var/lib/private-vm/images".
Definition DefaultScratchPath : string := "/var/lib/private-vm/scratch".
Definition OfficialRepository : string := "StevenBuglione/private-vm".
Definition DefaultRegistry : string := "ghcr.io".
Definition DefaultCleanupLimit : Z := 30.
Definition DefaultProbeDNSName : string := "one.one.one.one".
Definition DefaultProbeIPv4 : string := "1.1.1.1:853".
Definition DefaultProbeIPv6 : string := "[2606:4700:4700::1111]:853".
Definition minimumDesktopMemory : Z := 2147483648.
Definition maximumDesktopMemory : Z := 274877906944.
Definition maximumScratchBudget : Z := 1099511627776.
Definition maximumConfigBytes : Z := 1048576.

(** ** The configuration and its layers *)

(** The sections, over the type of their fields: a value in a configuration, and
    an optional value in the overrides of the command line. *)
Record ImageSource (F : Type → Type) := mkImageSource { is_registry : F string; is_repository : F string; is_channel : F string; is_requireAttestation : F bool }.
Record Runtime (F : Type → Type) := mkRuntime { rt_directory : F string; rt_imageCache : F string; rt_scratchDirectory : F string; rt_smallScratchMaxBytes : F Z; rt_cleanupTimeoutSeconds : F Z }.
Record Desktop (F : Type → Type) := mkDesktop { dt_bundle : F string; dt_viewer : F string; dt_audio : F bool; dt_memoryBytes : F Z; dt_vcpus : F Z }.
Record VPN (F : Type → Type) := mkVPN { vp_profileName : F string; vp_disableIPv6IfNotTunneled : F bool; vp_probeDNSName : F string; vp_probeIPv4 : F string; vp_probeIPv6 : F string }.
Record USB (F : Type → Type) := mkUSB { ub_requireUSBGuard : F bool; ub_defaultFilesystem : F string }.
Record Logging (F : Type → Type) := mkLogging { lg_persistentLifecycleMetadata : F bool; lg_telemetry : F bool }.

Record Config (F : Type → Type) := mkConfig {
  cf_schemaVersion : F Z;
  cf_strict : F bool;
  cf_imageSource : ImageSource F;
  cf_runtime : Runtime F;
  cf_desktop : Desktop F;
  cf_vpn : VPN F;
  cf_usb : USB F;
  cf_logging : Logging F
}.

Definition plain (A : Type) : Type := A.
Abbreviation wireConfig := (Config plain).

(** The command line never sets the schema version. *)
Record Overrides := mkOverrides {
  ov_Strict : option bool;
  ov_ImageSource : ImageSource option;
  ov_Runtime : Runtime option;
  ov_Desktop : Desktop option;
  ov_VPN : VPN option;
  ov_USB : USB option;
  ov_Logging : Logging option
}.

Arguments mkImageSource {F}. Arguments mkRuntime {F}. Arguments mkDesktop {F}. Arguments mkVPN {F}. Arguments mkUSB {F}. Arguments mkLogging {F}. Arguments mkConfig {F}.
Arguments is_registry {F}. Arguments is_repository {F}. Arguments is_channel {F}. Arguments is_requireAttestation {F}.
Arguments rt_directory {F}. Arguments rt_imageCache {F}. Arguments rt_scratchDirectory {F}. Arguments rt_smallScratchMaxBytes {F}. Arguments rt_cleanupTimeoutSeconds {F}.
Arguments dt_bundle {F}. Arguments dt_viewer {F}. Arguments dt_audio {F}. Arguments dt_memoryBytes {F}. Arguments dt_vcpus {F}.
Arguments vp_profileName {F}. Arguments vp_disableIPv6IfNotTunneled {F}. Arguments vp_probeDNSName {F}. Arguments vp_probeIPv4 {F}. Arguments vp_probeIPv6 {F}.
Arguments ub_requireUSBGuard {F}. Arguments ub_defaultFilesystem {F}. Arguments lg_persistentLifecycleMetadata {F}. Arguments lg_telemetry {F}.
Arguments cf_schemaVersion {F}. Arguments cf_strict {F}. Arguments cf_imageSource {F}. Arguments cf_runtime {F}. Arguments cf_desktop {F}. Arguments cf_vpn {F}. Arguments cf_usb {F}. Arguments cf_logging {F}.

Definition Defaults : wireConfig := mkConfig (F := plain) SchemaVersion true
  (mkImageSource (F := plain) DefaultRegistry OfficialRepository "stable" true)
  (mkRuntime (F := plain) DefaultRuntimePath DefaultImageCache DefaultScratchPath 17179869184%Z DefaultCleanupLimit)
  (mkDesktop (F := plain) "development" "remote-viewer" false 4294967296%Z 2%Z)
  (mkVPN (F := plain) "proton-p2p" true DefaultProbeDNSName DefaultProbeIPv4 DefaultProbeIPv6)
  (mkUSB (F := plain) true "luks2-ext4") (mkLogging (F := plain) false false).

(** [set]: the field of the overrides, when it is there. *)
Definition set {A} (source : option A) (destination : A) : A := default destination source.

Definition applyOverrides (o : Overrides) (c : wireConfig) : wireConfig :=
  let i := ov_ImageSource o in let r := ov_Runtime o in let d := ov_Desktop o in let v := ov_VPN o in let u := ov_USB o in let l := ov_Logging o in
  let i' := cf_imageSource c in let r' := cf_runtime c in let d' := cf_desktop c in let v' := cf_vpn c in let u' := cf_usb c in let l' := cf_logging c in
  mkConfig (F := plain) (cf_schemaVersion c) (set (ov_Strict o) (cf_strict c))
    (mkImageSource (F := plain) (set (is_registry i) (is_registry i')) (set (is_repository i) (is_repository i')) (set (is_channel i) (is_channel i')) (set (is_requireAttestation i) (is_requireAttestation i')))
    (mkRuntime (F := plain) (set (rt_directory r) (rt_directory r')) (set (rt_imageCache r) (rt_imageCache r')) (set (rt_scratchDirectory r) (rt_scratchDirectory r'))
       (set (rt_smallScratchMaxBytes r) (rt_smallScratchMaxBytes r')) (set (rt_cleanupTimeoutSeconds r) (rt_cleanupTimeoutSeconds r')))
    (mkDesktop (F := plain) (set (dt_bundle d) (dt_bundle d')) (set (dt_viewer d) (dt_viewer d')) (set (dt_audio d) (dt_audio d')) (set (dt_memoryBytes d) (dt_memoryBytes d')) (set (dt_vcpus d) (dt_vcpus d')))
    (mkVPN (F := plain) (set (vp_profileName v) (vp_profileName v')) (set (vp_disableIPv6IfNotTunneled v) (vp_disableIPv6IfNotTunneled v')) (set (vp_probeDNSName v) (vp_probeDNSName v'))
       (set (vp_probeIPv4 v) (vp_probeIPv4 v')) (set (vp_probeIPv6 v) (vp_probeIPv6 v')))
    (mkUSB (F := plain) (set (ub_requireUSBGuard u) (ub_requireUSBGuard u')) (set (ub_defaultFilesystem u) (ub_defaultFilesystem u')))
    (mkLogging (F := plain) (set (lg_persistentLifecycleMetadata l) (lg_persistentLifecycleMetadata l')) (set (lg_telemetry l) (lg_telemetry l'))).

(** ** Validation *)

Definition alphanumeric (c : ascii) : bool := between "a" "z" c || between "A" "Z" c || is_digit c.
Definition nameChar (c : ascii) : bool := alphanumeric c || char_eqb c "_" || char_eqb c "." || char_eqb c "-".
Definition namePart : string → bool := match_head_tail alphanumeric nameChar 0 62.

(** [^part/part$]: no part has a slash. *)
Definition repositoryPattern (s : string) : bool := match Split "/" s with [owner; name] => namePart owner && namePart name | _ => false end.
Definition profilePattern : string → bool := match_head_tail alphanumeric nameChar 0 63.

(** A port between 1 and 65535 without a leading zero. *)
Definition portPattern (s : string) : bool :=
  string_forallb is_digit s && negb (bool_decide (firstChar s = Some "0"%char)) && match ParseUint s 16 with Some p => negb (p =? 0)%Z | None => false end.

Definition registryPattern (s : string) : bool :=
  let '(host, port, found) := Cut ":" s in
  forallb goodLabel (Split "." host) && (negb found || portPattern port).

Definition validRegistry (registry : string) : bool :=
  if (String.length registry =? 0)%nat || (255 <? String.length registry)%nat || negb (registryPattern registry) then false
  else
    let '(host, rest) := match cutLast ":" registry with Some (h, p) => (h, Some p) | None => (registry, None) end in
    match rest with Some p => match ParseUint p 16 with Some v => negb (v =? 0)%Z | None => false end | None => true end &&
    forallb (λ label, negb ((String.length label =? 0)%nat || (63 <? String.length label)%nat ||
                            bool_decide (firstChar label = Some "-"%char) || bool_decide (lastChar label = Some "-"%char))) (Split "." host).

(** [netip.ParseAddrPort] *)
Definition ParseAddrPort (s : string) : option (Addr * Z) :=
  '(ip, port) ← cutLast ":" s;
  if bool_decide (ip = "") || bool_decide (port = "") then None
  else
    let bracketed := HasPrefix ip "[" in
    if bracketed && ((String.length ip <? 2)%nat || negb (bool_decide (lastChar ip = Some "]"%char))) then None
    else
      let ip := if bracketed then String.substring 1 (String.length ip - 2) ip else ip in
      number ← ParseUint port 16;
      address ← ParseAddr ip;
      if bracketed && Is4 address then None
      else if negb bracketed && Is6 address then None
      else Some (address, number).

Definition validProbeAddress (value : string) (ipv4 : bool) : bool :=
  match ParseAddrPort value with
  | None => false
  | Some (address, port) =>
      negb ((port =? 0)%Z || negb (IsValid address) || Is4In6 address || negb (IsGlobalUnicast address) || IsPrivate address ||
            IsLoopback address || IsLinkLocalUnicast address) && Bool.eqb (Is4 address) ipv4
  end.

Section Loading.
Context (unicodeLower : N → N).

(** At least two labels, and one more dot at the end at most. *)
Definition probeDomainPattern (s : string) : bool :=
  let labels := Split "." (TrimSuffix s ".") in (2 <=? length labels)%nat && forallb goodLabel labels.

Definition validProbeDNSName (value : string) : bool :=
  let value := ToLower unicodeLower (TrimSuffix value ".") in
  (0 <? String.length value)%nat && (String.length value <=? 253)%nat && probeDomainPattern value.

Definition invalid : string := "CONFIG_INVALID".

Definition Validate (c : wireConfig) : result string unit :=
  let i := cf_imageSource c in let r := cf_runtime c in let d := cf_desktop c in let v := cf_vpn c in let u := cf_usb c in
  fail_if (negb (cf_schemaVersion c =? SchemaVersion)%Z) with invalid ;;
  fail_if (negb (validRegistry (is_registry i)) || negb (repositoryPattern (is_repository i)) || (128 <? String.length (is_repository i))%nat) with invalid ;;
  fail_if (negb (is_requireAttestation i)) with invalid ;;
  fail_if (negb (bool_decide (is_channel i = "stable")) && negb (bool_decide (is_channel i = "edge"))) with invalid ;;
  fail_if (negb (bool_decide (rt_directory r = DefaultRuntimePath))) with invalid ;;
  fail_if (negb (bool_decide (rt_imageCache r = DefaultImageCache)) || negb (bool_decide (rt_scratchDirectory r = DefaultScratchPath))) with invalid ;;
  fail_if ((rt_smallScratchMaxBytes r =? 0)%Z || (maximumScratchBudget <? rt_smallScratchMaxBytes r)%Z) with invalid ;;
  fail_if ((rt_cleanupTimeoutSeconds r <? 5)%Z || (300 <? rt_cleanupTimeoutSeconds r)%Z) with invalid ;;
  fail_if ((dt_vcpus d <? 1)%Z || (64 <? dt_vcpus d)%Z || (dt_memoryBytes d <? minimumDesktopMemory)%Z || (maximumDesktopMemory <? dt_memoryBytes d)%Z) with invalid ;;
  fail_if (negb (bool_decide (dt_viewer d = "remote-viewer"))) with invalid ;;
  fail_if (negb (existsb (String.eqb (dt_bundle d)) ["basic"; "office"; "development"])) with invalid ;;
  fail_if (negb (profilePattern (vp_profileName v))) with invalid ;;
  fail_if (negb (vp_disableIPv6IfNotTunneled v)) with invalid ;;
  fail_if (negb (validProbeDNSName (vp_probeDNSName v)) || negb (validProbeAddress (vp_probeIPv4 v) true) || negb (validProbeAddress (vp_probeIPv6 v) false)) with invalid ;;
  fail_if (negb (ub_requireUSBGuard u)) with invalid ;;
  fail_if (negb (bool_decide (ub_defaultFilesystem u = "luks2-ext4"))) with invalid ;;
  fail_if (lg_telemetry (cf_logging c)) with invalid ;;
  Ok tt.

(** ** Files *)

Inductive FileTrust := TrustAny | TrustSystem | TrustUser | TrustOther.

(** What the opened descriptor says, when it could be asked: mode, owner and file
    system, then what [Stat] and the reading give. *)
Record OpenedFile := mkOpenedFile { op_Mode : Z; op_Uid : Z; op_Filesystem : Z; op_Size : Z; op_data : option string; op_closes : bool }.
Inductive opening := OpenMissing | OpenFailed | OpenUnverifiable | Opened (f : OpenedFile).

Definition localFilesystems : list Z :=
  [61267; 1481003842; 2435016766; 4076150800; 16914836; 2240043254; 61791; 2035054128; 1936814952; 3774210530; 801189825]%Z.
Definition localConfigurationFilesystem (kind : Z) : bool := existsb (Z.eqb kind) localFilesystems.

(** [Err true] is a file that does not exist. *)
Definition openConfigFile (euid : Z) (trust : FileTrust) (o : opening) : result bool OpenedFile :=
  match o with
  | OpenMissing => Err true
  | OpenFailed | OpenUnverifiable => Err false
  | Opened f =>
      fail_if (negb (localConfigurationFilesystem (op_Filesystem f))) with false ;;
      fail_if (negb (Z.land (op_Mode f) 61440 =? 32768)%Z || negb (Z.land (op_Mode f) 18 =? 0)%Z || negb (Z.land (op_Mode f) 73 =? 0)%Z) with false ;;
      match trust with
      | TrustAny => Ok f
      | TrustSystem => fail_if (negb (op_Uid f =? 0)%Z) with false ;; Ok f
      | TrustUser => fail_if (negb (op_Uid f =? euid)%Z) with false ;; Ok f
      | TrustOther => Err false
      end
  end.

Inductive readError := ReadMissing | ReadTooLarge | ReadFailed.

(** A file that is not regular was refused when it was opened. *)
Definition readConfigFile (euid : Z) (trust : FileTrust) (o : opening) : result readError string :=
  match openConfigFile euid trust o with
  | Err missing => Err (if missing : bool then ReadMissing else ReadFailed)
  | Ok f =>
      fail_if (op_Size f <? 0)%Z with ReadFailed ;;
      fail_if (maximumConfigBytes <? op_Size f)%Z with ReadTooLarge ;;
      match op_data f with
      | None => Err ReadFailed
      | Some data =>
          fail_if (maximumConfigBytes <? slen data)%Z with ReadTooLarge ;;
          fail_if (negb (op_closes f)) with ReadFailed ;;
          Ok data
      end
  end.

(** ** Documents *)

Definition forbiddenWords : list string := ["private_key"; "password"; "passphrase"; "secret"; "token"; "magnet"; "credential"].

Definition secretFieldName (key : string) : bool :=
  let normalized := ToLower unicodeLower (underscored key) in
  existsb (Contains normalized) forbiddenWords || bool_decide (normalized = "key") || HasPrefix normalized "key_" || HasSuffix normalized "_key".

Fixpoint hasSecretKey (value : doc) : bool :=
  match value with
  | DTable fields =>
      (fix walk (fs : list (string * doc)) := match fs with [] => false | (key, child) :: rest => secretFieldName key || hasSecretKey child || walk rest end) fields
  | DArray items => (fix walk (vs : list doc) := match vs with [] => false | child :: rest => hasSecretKey child || walk rest end) items
  | _ => false
  end.

Definition rejectSecretKeys (d : document) : result string unit := fail_if (hasSecretKey (DTable d)) with "CONFIG_SECRET_FIELD" ;; Ok tt.

(** An [int] has 64 bits. *)
Definition documentVersion (d : document) : result string Z :=
  match fieldOf d "schema_version" with
  | Some (DInteger version) => fail_if (version <? 0)%Z with "CONFIG_SCHEMA_VERSION" ;; Ok version
  | _ => Err "CONFIG_SCHEMA_VERSION"
  end.

(** The TOML library; the strict decoder decodes into a configuration, and refuses
    a text with other fields. *)
Record Toml := mkToml { tm_Unmarshal : string → option document; tm_Marshal : document → option string; tm_Decode : string → wireConfig → option wireConfig }.

Context (toml : Toml).

Definition Migration : Type := document → option document.
Definition Loader : Type := list (Z * option Migration).

Definition NewLoader (migrations : Loader) : result string Loader :=
  fail_if (existsb (λ m, (m.1 <? 0)%Z || (SchemaVersion <=? m.1)%Z || bool_decide (m.2 = None)) migrations) with "CONFIG_MIGRATION" ;;
  Ok migrations.

Definition lookupMigration (loader : Loader) (version : Z) : option Migration :=
  match List.find (λ m, (m.1 =? version)%Z) loader with Some (_, migration) => migration | None => None end.

(** [for version < SchemaVersion]: every turn is exactly one version further, so
    [todo], the versions that are missing, is the number of turns. *)
Fixpoint migrate (todo : nat) (loader : Loader) (version : Z) (d : document) : result string (Z * document) :=
  match todo with
  | O => Ok (version, d)
  | S todo =>
      match lookupMigration loader version with
      | None => Err "CONFIG_MIGRATION"
      | Some migration =>
          match migration d with
          | None => Err "CONFIG_MIGRATION"
          | Some next =>
              _ <-! rejectSecretKeys next ;;
              match documentVersion next with
              | Err _ => Err "CONFIG_MIGRATION"
              | Ok nextVersion => fail_if (negb (nextVersion =? version + 1)%Z) with "CONFIG_MIGRATION" ;; migrate todo loader nextVersion next
              end
          end
      end
  end.

Definition decodeLayer (loader : Loader) (data : string) (base : wireConfig) : result string wireConfig :=
  fail_if (maximumConfigBytes <? slen data)%Z with "CONFIG_TOO_LARGE" ;;
  match tm_Unmarshal toml data with
  | None => Err "CONFIG_PARSE"
  | Some d =>
      _ <-! rejectSecretKeys d ;;
      version <-! documentVersion d ;;
      migrated <-! migrate (Z.to_nat (SchemaVersion - version)) loader version d ;;
      let '(version, d) := migrated in
      fail_if (negb (version =? SchemaVersion)%Z) with "CONFIG_SCHEMA_VERSION" ;;
      match tm_Marshal toml d with
      | None => Err "CONFIG_PARSE"
      | Some text =>
          fail_if (maximumConfigBytes <? slen text)%Z with "CONFIG_TOO_LARGE" ;;
          match tm_Decode toml text base with None => Err "CONFIG_PARSE" | Some value => Ok value end
      end
  end.

(** A layer of files; [fl_file] is what opening its path gives. *)
Record FileLayer := mkFileLayer { fl_Path : string; fl_Required : bool; fl_Trust : FileTrust; fl_file : opening }.

Fixpoint loadLayers (euid : Z) (loader : Loader) (layers : list FileLayer) (value : wireConfig) : result string wireConfig :=
  match layers with
  | [] => Ok value
  | layer :: layers =>
      if bool_decide (fl_Path layer = "") then loadLayers euid loader layers value
      else match readConfigFile euid (fl_Trust layer) (fl_file layer), fl_Required layer with
           | Err ReadMissing, false => loadLayers euid loader layers value
           | Err ReadTooLarge, _ => Err "CONFIG_TOO_LARGE"
           | Err _, _ => Err "CONFIG_READ"
           | Ok data, _ => value <-! decodeLayer loader data value ;; loadLayers euid loader layers value
           end
  end.

Definition Load (euid : Z) (loader : Loader) (system user : FileLayer) (overrides : Overrides) : result string wireConfig :=
  value <-! loadLayers euid loader [system; user] Defaults ;;
  let value := applyOverrides overrides value in
  _ <-! Validate value ;;
  Ok value.

(** [Decode]; [None] is a reader that fails. *)
Definition Decode (loader : Loader) (data : option string) : result string wireConfig :=
  match data with
  | None => Err "CONFIG_READ"
  | Some data => value <-! decodeLayer loader data Defaults ;; _ <-! Validate value ;; Ok value
  end.

Definition noOverrides : Overrides := mkOverrides None
  (mkImageSource None None None None) (mkRuntime None None None None None) (mkDesktop None None None None None) (mkVPN None None None None None) (mkUSB None None) (mkLogging None None).

Definition noLayer : FileLayer := mkFileLayer "" false TrustAny OpenMissing.

(** [LoadDaemon], with what opening a path gives. *)
Definition LoadDaemon (euid : Z) (open : string → opening) (path : string) : result string wireConfig :=
  let path := if bool_decide (path = "") then DefaultSystemPath else path in
  Load euid [] (mkFileLayer path true TrustSystem (open path)) noLayer noOverrides.

Definition forbiddenPaths : list string :=
  ["/"; "/boot"; "/dev"; "/etc"; "/home"; "/media"; "/mnt"; "/proc"; "/root"; "/run"; "/sys"; "/tmp"; "/usr"; "/var"; "/var/tmp"; DefaultRuntimePath].

Definition controlRune (r : rune) : bool := match r with Rune cp _ => (cp <? 32)%N || (cp =? 127)%N | BadByte _ => false end.

Definition safeHostPath (path : string) : bool :=
  negb ((String.length path =? 0)%nat || (4096 <? String.length path)%nat || negb (ValidString path) || negb (IsAbs path) || negb (bool_decide (Clean path = path))) &&
  negb (existsb controlRune (runes path)) && negb (existsb (String.eqb path) forbiddenPaths).

(** [UserPath]: the environment and [os.UserConfigDir]. *)
Definition UserPath (xdgConfigHome : string) (userConfigDir : option string) : result string string :=
  base <-! (if bool_decide (xdgConfigHome = "") then match userConfigDir with Some d => Ok d | None => Err "CONFIG_PATH" end else Ok xdgConfigHome) ;;
  fail_if (negb (safeHostPath base)) with "CONFIG_PATH" ;;
  Ok (Clean (GoText.Join [base; "private-vm"; "config.toml"])).

Definition LoadWithOverrides (euid : Z) (open : string → opening) (xdgConfigHome : string) (userConfigDir : option string)
    (selectedUserPath : string) (overrides : Overrides) : result string wireConfig :=
  userPath <-! (if bool_decide (selectedUserPath = "") then UserPath xdgConfigHome userConfigDir else Ok selectedUserPath) ;;
  Load euid [] (mkFileLayer DefaultSystemPath false TrustSystem (open DefaultSystemPath))
    (mkFileLayer userPath (negb (bool_decide (selectedUserPath = ""))) TrustUser (open userPath)) overrides.

End Loading.

(** * Properties *)

(** ** Layers *)

(** Every field of a configuration, whatever the type of its fields. *)
Definition every_field (P : ∀ A, (∀ F, Config F → F A) → Prop) : Prop :=
  P Z (λ F, cf_schemaVersion) ∧ P bool (λ F, cf_strict) ∧
  P string (λ F c, is_registry (cf_imageSource c)) ∧ P string (λ F c, is_repository (cf_imageSource c)) ∧ P string (λ F c, is_channel (cf_imageSource c)) ∧
  P bool (λ F c, is_requireAttestation (cf_imageSource c)) ∧
  P string (λ F c, rt_directory (cf_runtime c)) ∧ P string (λ F c, rt_imageCache (cf_runtime c)) ∧ P string (λ F c, rt_scratchDirectory (cf_runtime c)) ∧
  P Z (λ F c, rt_smallScratchMaxBytes (cf_runtime c)) ∧ P Z (λ F c, rt_cleanupTimeoutSeconds (cf_runtime c)) ∧
  P string (λ F c, dt_bundle (cf_desktop c)) ∧ P string (λ F c, dt_viewer (cf_desktop c)) ∧ P bool (λ F c, dt_audio (cf_desktop c)) ∧
  P Z (λ F c, dt_memoryBytes (cf_desktop c)) ∧ P Z (λ F c, dt_vcpus (cf_desktop c)) ∧
  P string (λ F c, vp_profileName (cf_vpn c)) ∧ P bool (λ F c, vp_disableIPv6IfNotTunneled (cf_vpn c)) ∧ P string (λ F c, vp_probeDNSName (cf_vpn c)) ∧
  P string (λ F c, vp_probeIPv4 (cf_vpn c)) ∧ P string (λ F c, vp_probeIPv6 (cf_vpn c)) ∧
  P bool (λ F c, ub_requireUSBGuard (cf_usb c)) ∧ P string (λ F c, ub_defaultFilesystem (cf_usb c)) ∧
  P bool (λ F c, lg_persistentLifecycleMetadata (cf_logging c)) ∧ P bool (λ F c, lg_telemetry (cf_logging c)).

(** These are all of them. *)
Lemma every_field_complete (c c' : wireConfig) : every_field (λ A f, f plain c = f plain c') → c = c'.
Proof.
  destruct c as [? ? [] [] [] [] [] []], c' as [? ? [] [] [] [] [] []]. unfold every_field. cbn. intros H. repeat match goal with H : _ ∧ _ |- _ => destruct H end. by subst.
Qed.

(** The fields that are set: by a text, or by the command line. *)
Abbreviation Layer := (Config option).

Definition noFields : Layer := mkConfig (F := option) None None
  (mkImageSource None None None None) (mkRuntime None None None None None) (mkDesktop None None None None None) (mkVPN None None None None None) (mkUSB None None) (mkLogging None None).

Definition asLayer (o : Overrides) : Layer := mkConfig (F := option) None (ov_Strict o) (ov_ImageSource o) (ov_Runtime o) (ov_Desktop o) (ov_VPN o) (ov_USB o) (ov_Logging o).

(** A value is the base with the fields of the layer set. *)
Definition setIn (layer : Layer) (base value : wireConfig) : Prop :=
  every_field (λ A f, f plain value = match f option layer with Some x => x | None => f plain base end).

(** The field of the command line, else of the user, else of the system, else the default. *)
Definition preferred {A} (command user system : option A) (otherwise : A) : A :=
  match command with Some x => x | None => match user with Some x => x | None => match system with Some x => x | None => otherwise end end end.

Definition layered (o : Overrides) (user system : Layer) (c : wireConfig) : Prop :=
  every_field (λ A f, f plain c = preferred (f option (asLayer o)) (f option user) (f option system) (f plain Defaults)).

Lemma every_field_both P Q R : (∀ A f, P A f → Q A f → R A f) → every_field P → every_field Q → every_field R.
Proof.
  intros H HP HQ. unfold every_field in *. repeat (destruct HP as [p HP]; destruct HQ as [q HQ]; split; [exact (H _ _ p q)|]; clear p q). exact (H _ _ HP HQ).
Qed.

Lemma applyOverrides_sets o c : setIn (asLayer o) c (applyOverrides o c).
Proof. unfold setIn, every_field. split_and!; done. Qed.

Lemma setIn_none c : setIn noFields c c.
Proof. unfold setIn, every_field. split_and!; done. Qed.

Lemma setIn_layered o u s v1 v2 c : setIn s Defaults v1 → setIn u v1 v2 → setIn (asLayer o) v2 c → layered o u s c.
Proof.
  intros H1 H2. assert (H12 : every_field (λ A f, f plain v2 = preferred None (f option u) (f option s) (f plain Defaults))).
  { revert H1 H2. apply every_field_both. by intros A f -> ->. }
  revert H12. apply every_field_both. by intros A f -> ->.
Qed.

(** ** Secret fields *)

(** A key somewhere in a document. *)
Inductive HasKey (k : string) : doc → Prop :=
| key_here fields child : (k, child) ∈ fields → HasKey k (DTable fields)
| key_below fields k' child : (k', child) ∈ fields → HasKey k child → HasKey k (DTable fields)
| key_item items child : child ∈ items → HasKey k child → HasKey k (DArray items).

Section Proofs.
Context (unicodeLower : N → N) (toml : Toml) (fieldsOf : string → Layer).

(** What the TOML library documents: decoding a text into a configuration sets the
    fields the text has, and leaves the others. *)
Hypothesis decode_sets : ∀ text base value, tm_Decode toml text base = Some value → setIn (fieldsOf text) base value.

Lemma secret_found k d : HasKey k d → secretFieldName unicodeLower k = true → hasSecretKey unicodeLower d = true.
Proof.
  intros H Hk. induction H as [fields child Hin|fields k' child Hin _ IH|items child Hin _ IH]; cbn.
  - induction fields as [|[k0 c0] fields IHf]; [by apply elem_of_nil in Hin|]. apply elem_of_cons in Hin as [[= <- <-]|Hin]; [by rewrite Hk|]. rewrite IHf by done. by rewrite orb_true_r.
  - induction fields as [|[k0 c0] fields IHf]; [by apply elem_of_nil in Hin|]. apply elem_of_cons in Hin as [[= <- <-]|Hin]; [by rewrite IH, orb_true_r|]. rewrite IHf by done. by rewrite orb_true_r.
  - induction items as [|c0 items IHf]; [by apply elem_of_nil in Hin|]. apply elem_of_cons in Hin as [<-|Hin]; [by rewrite IH|]. rewrite IHf by done. by rewrite orb_true_r.
Qed.

(** No key of the document, at any depth, names a secret. *)
Definition secretFree (d : document) : Prop := ∀ k, HasKey k (DTable d) → secretFieldName unicodeLower k = false.

Lemma reject_ok d : rejectSecretKeys unicodeLower d = Ok tt → secretFree d.
Proof.
  unfold rejectSecretKeys. intros H k Hk. destruct (secretFieldName unicodeLower k) eqn:E; [|done]. by rewrite (secret_found k) in H.
Qed.

(** ** Loading *)

Lemma migrate_ok todo loader version d version' d' :
  migrate unicodeLower todo loader version d = Ok (version', d') → secretFree d → secretFree d' ∧ version' = (version + Z.of_nat todo)%Z.
Proof.
  revert version d. induction todo as [|todo IH]; intros version d H Hd; cbn in H; [injection H as <- <-; split; [done|lia]|].
  destruct (lookupMigration loader version) as [mig|]; [|done]. destruct (mig d) as [next|]; [|done].
  destruct (rejectSecretKeys unicodeLower next) as [[]|] eqn:Hr; [|done]. cbn in H. destruct (documentVersion next) as [nv|]; [|done].
  destruct (Z.eqb_spec nv (version + 1)); [|done]. cbn in H. apply IH in H as [H1 H2]; [|by apply reject_ok]. split; [done|lia].
Qed.

(** What a layer that was read is: a bounded document without secrets, of this
    version once migrated, whose text the strict decoder took. *)
Definition decoded (loader : Loader) (data : string) (layer : Layer) : Prop :=
  (slen data <= maximumConfigBytes)%Z ∧
  ∃ d version d' text, tm_Unmarshal toml data = Some d ∧ secretFree d ∧ documentVersion d = Ok version ∧ (version <= SchemaVersion)%Z ∧
    migrate unicodeLower (Z.to_nat (SchemaVersion - version)) loader version d = Ok (SchemaVersion, d') ∧ secretFree d' ∧
    tm_Marshal toml d' = Some text ∧ (slen text <= maximumConfigBytes)%Z ∧ (∃ base, is_Some (tm_Decode toml text base)) ∧ layer = fieldsOf text.

Lemma decodeLayer_ok loader data base value :
  decodeLayer unicodeLower toml loader data base = Ok value → ∃ layer, decoded loader data layer ∧ setIn layer base value.
Proof.
  unfold decodeLayer. destruct (Z.ltb_spec maximumConfigBytes (slen data)); [done|]. destruct (tm_Unmarshal toml data) as [d|] eqn:Hu; [|done].
  destruct (rejectSecretKeys unicodeLower d) as [[]|] eqn:Hr; [|done]. cbn. destruct (documentVersion d) as [version|] eqn:Hv; [|done].
  destruct (migrate _ _ _ _ _) as [[version' d']|] eqn:Hm; [|done]. destruct (Z.eqb_spec version' SchemaVersion) as [->|]; [|done]. cbn.
  destruct (tm_Marshal toml d') as [text|] eqn:Ht; [|done]. destruct (Z.ltb_spec maximumConfigBytes (slen text)); [done|].
  destruct (tm_Decode toml text base) as [v|] eqn:Hd; [|done]. intros [= <-]. exists (fieldsOf text). split; [|by apply decode_sets]. split; [done|].
  apply reject_ok in Hr. destruct (migrate_ok _ _ _ _ _ _ Hm Hr) as [Hd' Hver]. exists d, version, d', text. unfold SchemaVersion in *. split_and!; try done; [lia|by exists base].
Qed.

(** A regular file of a local file system that only its owner may write, which is
    trusted as a layer of its kind: [TrustAny], which no caller of the package uses,
    does not look at its owner. *)
Definition private (f : OpenedFile) : Prop :=
  op_Filesystem f ∈ localFilesystems ∧ Z.land (op_Mode f) 61440 = 32768%Z ∧ Z.land (op_Mode f) 18 = 0%Z ∧ Z.land (op_Mode f) 73 = 0%Z.

Definition trusted (euid : Z) (trust : FileTrust) (f : OpenedFile) : Prop :=
  private f ∧
  match trust with TrustAny => True | TrustSystem => op_Uid f = 0%Z | TrustUser => op_Uid f = euid | TrustOther => False end.

Lemma open_trusted euid trust o f : openConfigFile euid trust o = Ok f → o = Opened f ∧ trusted euid trust f.
Proof.
  unfold openConfigFile. destruct o as [| | |g]; try done. destruct (localConfigurationFilesystem (op_Filesystem g)) eqn:Hl; [|done]. cbn [negb].
  destruct (_ || _) eqn:Hm; [done|]. apply orb_false_iff in Hm as [[H1 H2]%orb_false_iff H3]. apply negb_false_iff, Z.eqb_eq in H1, H2, H3.
  assert (op_Filesystem g ∈ localFilesystems) as Hin.
  { unfold localConfigurationFilesystem in Hl. apply existsb_exists in Hl as (k & Hk & ->%Z.eqb_eq). by apply list_elem_of_In. }
  intros H. unfold trusted, private. destruct trust; [by injection H as <-|..|done]; destruct (Z.eqb_spec (op_Uid g) 0), (Z.eqb_spec (op_Uid g) euid); try done; injection H as <-; done.
Qed.

Lemma read_ok euid trust o data : readConfigFile euid trust o = Ok data → ∃ f, o = Opened f ∧ trusted euid trust f ∧ op_data f = Some data.
Proof.
  unfold readConfigFile. destruct (openConfigFile euid trust o) as [f|] eqn:Ho; [|done]. destruct (open_trusted _ _ _ _ Ho) as [-> Ht].
  destruct (op_Size f <? 0)%Z; [done|]. destruct (maximumConfigBytes <? op_Size f)%Z; [done|]. destruct (op_data f) as [d|] eqn:Hd; [|done].
  destruct (maximumConfigBytes <? slen d)%Z; [done|]. destruct (op_closes f); [|done]. intros [= <-]. by exists f.
Qed.

Lemma read_missing euid trust o : readConfigFile euid trust o = Err ReadMissing → o = OpenMissing.
Proof.
  unfold readConfigFile, openConfigFile. destruct o as [| | |f]; try done. repeat case_match; try done; intros; simplify_eq; cbn in *; simplify_eq.
Qed.

(** Where the fields of a layer come from. *)
Definition sourced (euid : Z) (loader : Loader) (l : FileLayer) (o : Layer) : Prop :=
  (o = noFields ∧ (fl_Path l = "" ∨ fl_Required l = false ∧ fl_file l = OpenMissing)) ∨
  ∃ f data, fl_file l = Opened f ∧ trusted euid (fl_Trust l) f ∧ op_data f = Some data ∧ decoded loader data o.

Lemma loadLayers_cons euid loader l layers value value' :
  loadLayers unicodeLower toml euid loader (l :: layers) value = Ok value' →
  ∃ o next, sourced euid loader l o ∧ setIn o value next ∧ loadLayers unicodeLower toml euid loader layers next = Ok value'.
Proof.
  cbn. case_bool_decide as Hp; [intros H; exists noFields, value; split_and!; [left; auto|apply setIn_none|done]|].
  destruct (readConfigFile euid (fl_Trust l) (fl_file l)) as [data|e] eqn:Hr.
  - destruct (decodeLayer _ _ _ _ _) as [v|] eqn:Hd; [|done]. destruct (decodeLayer_ok _ _ _ _ Hd) as (o & Ho & Hs). intros H. exists o, v. split_and!; [|done|done].
    destruct (read_ok _ _ _ _ Hr) as (f & Hf & Ht & Hdata). right. by exists f, data.
  - destruct e, (fl_Required l) eqn:Hq; try done. intros H. exists noFields, value. split_and!; [|apply setIn_none|done]. left. split; [done|]. right. split; [done|]. by eapply read_missing.
Qed.

(** ** What every configuration guarantees *)

Definition publicTarget (text : string) (ipv4 : bool) : Prop :=
  ∃ address port, ParseAddrPort text = Some (address, port) ∧ port ≠ 0%Z ∧ Is4 address = ipv4 ∧ IsGlobalUnicast address = true ∧ IsPrivate address = false ∧ Is4In6 address = false.

Record Safe (c : wireConfig) : Prop := {
  sf_attested : is_requireAttestation (cf_imageSource c) = true;
  sf_channel : is_channel (cf_imageSource c) ∈ ["stable"; "edge"];
  sf_paths : (rt_directory (cf_runtime c), rt_imageCache (cf_runtime c), rt_scratchDirectory (cf_runtime c)) = (DefaultRuntimePath, DefaultImageCache, DefaultScratchPath);
  sf_scratch : rt_smallScratchMaxBytes (cf_runtime c) ≠ 0%Z ∧ (rt_smallScratchMaxBytes (cf_runtime c) <= maximumScratchBudget)%Z;
  sf_cleanup : (5 <= rt_cleanupTimeoutSeconds (cf_runtime c) <= 300)%Z;
  sf_desktop : (1 <= dt_vcpus (cf_desktop c) <= 64)%Z ∧ (minimumDesktopMemory <= dt_memoryBytes (cf_desktop c) <= maximumDesktopMemory)%Z;
  sf_ipv6 : vp_disableIPv6IfNotTunneled (cf_vpn c) = true;
  sf_probes : publicTarget (vp_probeIPv4 (cf_vpn c)) true ∧ publicTarget (vp_probeIPv6 (cf_vpn c)) false;
  sf_usb : ub_requireUSBGuard (cf_usb c) = true ∧ ub_defaultFilesystem (cf_usb c) = "luks2-ext4";
  sf_telemetry : lg_telemetry (cf_logging c) = false
}.

Lemma validProbe_public text ipv4 : validProbeAddress text ipv4 = true → publicTarget text ipv4.
Proof.
  unfold validProbeAddress. destruct (ParseAddrPort text) as [[a p]|] eqn:E; [|done]. intros [H Hv]%andb_true_iff. apply negb_true_iff in H.
  rewrite !orb_false_iff in H. destruct H as ((((((H1 & _) & H3) & H4) & H5) & _) & _). apply Bool.eqb_prop in Hv. apply negb_false_iff in H4. apply Z.eqb_neq in H1.
  unfold publicTarget. rewrite E. by exists a, p.
Qed.

Lemma Validate_safe c : Validate unicodeLower c = Ok tt → Safe c.
Proof.
  unfold Validate. cbv zeta. intros H.
  destruct (negb (cf_schemaVersion c =? _)%Z); [done|]. destruct (_ || _ || _); [done|].
  destruct (is_requireAttestation (cf_imageSource c)) eqn:H1; [|done]. destruct (_ && _) eqn:H2; [done|]. cbn [negb] in H.
  destruct (negb (bool_decide (rt_directory _ = _))) eqn:H3; [done|]. destruct (_ || _) eqn:H4 in H; [done|]. destruct (_ || _) eqn:H5 in H; [done|].
  destruct (_ || _) eqn:H6 in H; [done|]. destruct (_ || _) eqn:H7 in H; [done|]. destruct (negb _) in H; [done|]. destruct (negb (existsb _ _)) in H; [done|].
  destruct (negb (profilePattern _)) in H; [done|]. destruct (vp_disableIPv6IfNotTunneled (cf_vpn c)) eqn:H8; [|done]. cbn [negb] in H.
  destruct (_ || _) eqn:H9 in H; [done|]. destruct (ub_requireUSBGuard (cf_usb c)) eqn:H10; [|done]. destruct (negb (bool_decide (ub_defaultFilesystem _ = _))) eqn:H11 in H; [done|].
  destruct (lg_telemetry (cf_logging c)) eqn:H12; [done|].
  apply negb_false_iff, bool_decide_eq_true in H3, H11.
  apply orb_false_iff in H4 as [H4 H4']. apply negb_false_iff, bool_decide_eq_true in H4, H4'.
  apply orb_false_iff in H5 as [H5 H5']. apply Z.eqb_neq in H5. apply Z.ltb_ge in H5'.
  apply orb_false_iff in H6 as [H6 H6']. apply Z.ltb_ge in H6, H6'.
  rewrite !orb_false_iff, !Z.ltb_ge in H7. rewrite !orb_false_iff, !negb_false_iff in H9.
  constructor; try done.
  - apply andb_false_iff in H2 as [H2|H2]; apply negb_false_iff, bool_decide_eq_true in H2; rewrite H2; set_solver.
  - by rewrite H3, H4, H4'.
  - tauto.
  - split; apply validProbe_public; tauto.
Qed.

Lemma Load_ok euid loader system user overrides c :
  Load unicodeLower toml euid loader system user overrides = Ok c →
  ∃ s u, sourced euid loader system s ∧ sourced euid loader user u ∧ layered overrides u s c ∧ Safe c.
Proof.
  unfold Load. intros H. destruct (loadLayers _ _ _ _ _ _) as [v|] eqn:Hl; [|done]. cbn in H. destruct (Validate _ _) as [[]|] eqn:Hv; [|done]. injection H as <-.
  destruct (loadLayers_cons _ _ _ _ _ _ Hl) as (s & v1 & Hs & H1 & Hl2). destruct (loadLayers_cons _ _ _ _ _ _ Hl2) as (u & v2 & Hu & H2 & Hl3). injection Hl3 as <-.
  exists s, u. split_and!; [done|done| |by apply Validate_safe]. eapply setIn_layered; [exact H1|exact H2|apply applyOverrides_sets].
Qed.

(** A layer of a file that is there, private and owned by [owner]. *)
Definition fromFile (owner : Z) (o : opening) (layer : Layer) : Prop :=
  ∃ f data, o = Opened f ∧ private f ∧ op_Uid f = owner ∧ op_data f = Some data ∧ decoded [] data layer.

(** An optional file may be missing. *)
Definition fromOptional (owner : Z) (required : bool) (o : opening) (layer : Layer) : Prop :=
  (required = false ∧ o = OpenMissing ∧ layer = noFields) ∨ fromFile owner o layer.

Lemma sourced_system euid path required o layer : path ≠ "" → sourced euid [] (mkFileLayer path required TrustSystem o) layer → fromOptional 0 required o layer.
Proof. intros Hp [[-> [?|[? ?]]]|(f & data & ? & [? ?] & ? & ?)]; [done|by left|]. right. by exists f, data. Qed.

Lemma sourced_user euid path required o layer : path ≠ "" → sourced euid [] (mkFileLayer path required TrustUser o) layer → fromOptional euid required o layer.
Proof. intros Hp [[-> [?|[? ?]]]|(f & data & ? & [? ?] & ? & ?)]; [done|by left|]. right. by exists f, data. Qed.

Lemma UserPath_nonempty xdg dir path : UserPath xdg dir = Ok path → path ≠ "".
Proof. unfold UserPath. destruct (if bool_decide (xdg = "") then _ else _); [|done]. cbn. destruct (negb _); [done|]. intros [= <-]. apply Clean_nonempty. Qed.

(** C40: A loaded configuration is the trusted layers over the defaults, and safe.
    Whatever the files hold, each field of a configuration that loads is the one of
    the command line, else of the user file, else of the system file, else the
    default.  A file counts as a layer only when it is a regular file of a local
    file system that neither the group nor others may write, trusted as a file of
    its kind, of at most 1 MiB, of this schema version or migrated to it, and with
    no key at any depth that names a secret; a file may be missing only when it is
    not required.  What the command line loads takes the system file only from root
    and the user file only from the caller, and the daemon loads one system file
    that is there and owned by root, with no other layer.  The result requires
    attested images and USBGuard, fails closed for IPv6, has no telemetry, fixed
    directories, bounded resources and public probe targets. *)
Theorem loaded_configuration_is_trusted euid c :
  (∀ loader system user overrides, Load unicodeLower toml euid loader system user overrides = Ok c →
    ∃ s u, sourced euid loader system s ∧ sourced euid loader user u ∧ layered overrides u s c ∧ Safe c) ∧
  (∀ open xdgConfigHome userConfigDir selected overrides, LoadWithOverrides unicodeLower toml euid open xdgConfigHome userConfigDir selected overrides = Ok c →
    ∃ userPath s u, (if bool_decide (selected = "") then UserPath xdgConfigHome userConfigDir = Ok userPath else userPath = selected) ∧
      fromOptional 0 false (open DefaultSystemPath) s ∧ fromOptional euid (negb (bool_decide (selected = ""))) (open userPath) u ∧ layered overrides u s c ∧ Safe c) ∧
  (∀ open path, LoadDaemon unicodeLower toml euid open path = Ok c →
    ∃ s, fromFile 0 (open (if bool_decide (path = "") then DefaultSystemPath else path)) s ∧ layered noOverrides noFields s c ∧ Safe c).
Proof.
  split_and!; [intros loader system user overrides; apply Load_ok| |].
  - intros open xdg dir selected overrides. unfold LoadWithOverrides. destruct (if bool_decide (selected = "") then _ else _) as [userPath|] eqn:Hp; [|done]. cbn. intros H.
    destruct (Load_ok _ _ _ _ _ _ H) as (s & u & Hs & Hu & Hl & Hc). assert (Hne : userPath ≠ "") by (case_bool_decide; [by eapply UserPath_nonempty|congruence]).
    exists userPath, s, u. split_and!; [case_bool_decide; congruence|eapply sourced_system; [|exact Hs]; done|eapply sourced_user; [|exact Hu]; done|done|done].
  - intros open path. unfold LoadDaemon. set (p := if bool_decide (path = "") then _ else _). assert (Hp : p ≠ "") by (subst p; by case_bool_decide). intros H.
    destruct (Load_ok _ _ _ _ _ _ H) as (s & u & Hs & Hu & Hl & Hc). exists s. assert (u = noFields) as -> by (by destruct Hu as [[-> _]|(f & data & ? & _)]).
    split_and!; [|done|done]. by destruct (sourced_system _ _ _ _ _ Hp Hs) as [[? _]|].
Qed.

End Proofs.

(** ** An example *)

Definition exampleFields (text : string) : Layer := mkConfig (F := option) (Some 1%Z) None (cf_imageSource noFields) (cf_runtime noFields)
  (mkDesktop None None None None (Some (if bool_decide (text = "four") then 4 else 8)%Z)) (cf_vpn noFields) (cf_usb noFields) (cf_logging noFields).

Definition exampleToml : Toml := mkToml
  (λ text, Some [("schema_version", DInteger 1); ("desktop", DTable [("vcpus", DInteger (if bool_decide (text = "system") then 4 else 8))])])
  (λ d, match fieldOf d "desktop" with Some (DTable [(_, DInteger 4)]) => Some "four" | _ => Some "eight" end)
  (λ text base, let d := cf_desktop base in
     Some (mkConfig (F := plain) 1%Z (cf_strict base) (cf_imageSource base) (cf_runtime base)
       (mkDesktop (F := plain) (dt_bundle d) (dt_viewer d) (dt_audio d) (dt_memoryBytes d) (if bool_decide (text = "four") then 4 else 8)%Z) (cf_vpn base) (cf_usb base) (cf_logging base))).

Definition exampleFile (uid : Z) (data : string) : opening := Opened (mkOpenedFile 33188 uid 61267 100 (Some data) true).

Lemma loaded_configuration_is_trusted_witness :
  ∃ c, Load (λ c, c) exampleToml 1000 [] (mkFileLayer DefaultSystemPath false TrustSystem (exampleFile 0 "system"))
         (mkFileLayer "/home/u/.config/private-vm/config.toml" false TrustUser (exampleFile 1000 "user")) noOverrides = Ok c ∧
    dt_vcpus (cf_desktop c) = 8%Z ∧ Safe c.
Proof.
  destruct (Load (λ c, c) exampleToml 1000 [] _ _ noOverrides) as [c|e] eqn:E; [|vm_compute in E; discriminate E].
  exists c. split; [reflexivity|]. split; [vm_compute in E; injection E as <-; reflexivity|].
  destruct (loaded_configuration_is_trusted (λ c, c) exampleToml exampleFields) with (euid := 1000%Z) (c := c) as (H & _ & _).
  - intros text base value [= <-]. repeat split.
  - destruct (H _ _ _ _ E) as (s & u & _ & _ & _ & Hs). exact Hs.
Defined.

(** The configuration of the defaults is valid. *)
Example defaults_are_valid : Validate (λ c, c) Defaults = Ok tt.
Proof. vm_compute. reflexivity. Qed.

